(* ===== verification/_CoqProject ===== *)
-Q . S2P
Prelude.v
Text.v
Redaction.v
TelegramText.v
Errors.v
ErrorRender.v
StDomain.v
Readiness.v
LockTable.v
ConnectorHmac.v
Sse.v
ErrorMapper.v
Backend.v
Prompt.v
Operations.v
OperationStore.v
StoreInvariant.v
StoreCorrect.v
PollerOwnership.v
Journal.v
Vault.v
Program.v
OperationPayload.v
Coordinator.v
ChannelContext.v
StOps.v
Engine.v
CoordinatorCorrect.v
Recovery.v
EngineCorrect.v
EngineReplay.v
DeliveryQueue.v
BindCodes.v
TelegramInbox.v
InboxLiveness.v
Delivery.v
DeliveryCorrect.v
DeliverySends.v
Identity.v
TelegramRuntime.v
Poller.v
Callback.v
Panel.v
PanelStore.v
ErrorEvents.v
Dispatch.v
Turns.v
TurnsCorrect.v
Updates.v
DispatchCorrect.v
Strangers.v
DispatchDemo.v
CardPng.v
Models.v
Stateful.v
Characters.v
Chat.v
ChatEngine.v
ChatSteps.v
ChatFlights.v
ChatCorrect.v
ChatDemo.v
Decoder.v
Config.v
Session.v
ConnectorWire.v
ConnectorClient.v
ConnectorCorrect.v
BackendHttp.v
Legacy.v
Migration.v
MigrationCorrect.v
LegacyImport.v
PluginImport.v
PluginCorrect.v
HttpApi.v
HttpCorrect.v
LlmGateway.v
Startup.v
Pool.v
