(* ===== verification/Prelude.v ===== *)
(** * IM Bridge: a verification library for the Telegram-to-SillyTavern sidecar

    The program ([src/]) is a bridge between Telegram bots and a SillyTavern
    chat server.  A Telegram update becomes an operation in a durable ledger; the
    bridge reads the chat, generates a reply as a stream, seals the mutation it is
    about to make as an encrypted recovery payload, and commits it through a
    connector that keeps its own journal.  Processes crash, several runtimes may
    poll the same bot during a handover, and a commit whose answer is lost must
    never be made twice nor be reported as done.  The library models that core and
    proves what makes it correct.

    ** Components and files

    - [Text], [Errors], [StDomain]: strings as byte sequences and the operations
      on them; the error vocabulary of [modules/bridge/errors.rs] and [error.rs];
      the types of [domain/st.rs].
    - [Redaction] ([modules/bridge/redaction.rs]), [ErrorRender]
      ([modules/telegram/error_render.rs]): what diagnostics and users may see.
    - [TelegramText] ([TelegramModule::split_text], [modules/telegram/stream.rs]):
      cutting replies into messages, throttled rendering.
    - [Readiness] ([st_readiness.rs]): the readiness word.
    - [LockTable] ([lock_table.rs]): keyed locks with eviction, as a step relation
      over tasks that acquire, wait, are cancelled and release; at its end
      ([modules/bridge/locator_locks.rs], [modules/telegram/locks.rs],
      [modules/chat/locks.rs]): the managers built on it, and the locks of the
      conversations of the standalone mode.
    - [ConnectorHmac] ([modules/bridge/connector_hmac.rs]): canonical requests,
      signatures, nonces.
    - [Sse] ([adapters/st/sse.rs]): the incremental event-stream decoder.
    - [ErrorMapper] ([modules/bridge/error_mapper.rs]): failures to bridge errors.
    - [Backend] ([adapters/st/backend.rs]): probe, write gate, generation stream,
      over the answers of a connector.
    - [Decoder], [Session] ([adapters/st/decoder.rs], [session.rs]): the JSON answers
      of SillyTavern and derived decoders, the CSRF and cookie session.
    - [ConnectorWire], [ConnectorClient], [ConnectorCorrect]
      ([adapters/st/connector.rs]): the signed requests to the connector plugin, the
      single repetition of reads, what an answer must look like to be believed.
    - [BackendHttp] ([adapters/st/backend.rs]): the backend put together from the
      session and the connector client, behind the gate of [Backend].
    - [Prompt] ([modules/chat/prompt.rs]), [StOps] ([modules/bridge/st_ops.rs]):
      prompts, the last turn, mutations, what a compression covers.
    - [Operations] ([modules/bridge/operations.rs], [domain/locator.rs]): status
      machine, recovery payloads, authenticated identity, locator encoding.
    - [OperationStore], [StoreInvariant], [StoreCorrect]
      ([modules/bridge/operation_store.rs]): the ledger's SQL statements over
      tables as finite maps, their invariant and the abstract machine they refine.
    - [PollerOwnership] ([modules/bridge/poller_ownership.rs]): who may poll and
      write for a bot: epochs, runtime bindings, guards and their lifecycle.
    - [Journal] ([modules/bridge/connector_journal.rs],
      [seams/st_operation_journal.rs]): the connector's journal and the bridge's
      read-only view of it.
    - [Vault] ([adapters/secrets/encrypted_sqlite.rs], [seams/secret_vault.rs]):
      sealed secrets in the same database.
    - [Program]: async methods as trees of awaited calls, the environment that
      answers them, and the discipline of the commit gate.
    - [OperationPayload] ([modules/bridge/operation_payload.rs]): per-operation
      data keys and payload encryption.
    - [Coordinator], [CoordinatorCorrect]
      ([modules/bridge/operation_coordinator.rs]): claim, commit, create, replay,
      reconcile.
    - [ChannelContext] ([modules/bridge/channel_context.rs]): which character and
      chat a Telegram chat talks to.
    - [Engine], [EngineCorrect], [EngineReplay] ([modules/bridge/engine.rs],
      [seams/st_bridge_engine.rs], [domain/identity.rs]): the commands and queries
      of a Telegram user on top of the coordinator.
    - [Recovery] ([modules/bridge/operation_recovery.rs]): the loop a runtime runs
      when it starts polling.
    - [TelegramInbox], [InboxLiveness] ([modules/telegram/mod.rs]): updates stored
      before they are acknowledged, claimed, retried and recovered.
    - [BindCodes] ([modules/telegram/mod.rs]): one-time codes that bind a Telegram
      user to an account; a redemption is a machine of single statements, so that
      guesses that run side by side are covered.
    - [DeliveryQueue] ([modules/telegram/delivery_queue.rs]), [Delivery],
      [DeliveryCorrect], [DeliverySends] ([modules/telegram/delivery.rs]): rate
      limits, the outbox, the ledger of the messages of a turn, streaming.
    - [Identity] ([modules/identity/mod.rs]): accounts, workspaces, logins, and the
      actor a bound Telegram user is.
    - [TelegramRuntime], [Poller] ([modules/telegram/mod.rs]): starting and stopping
      bots, the claim of a numeric bot, the polling loop and its end.
    - [Callback], [Panel], [PanelStore] ([modules/telegram/callback.rs], [panel.rs],
      [panel_store.rs]): one-time button tokens, the panels and their slots.
    - [ErrorEvents] ([modules/bridge/error_events.rs]): recorded errors.
    - [Dispatch], [Turns], [Updates] ([modules/telegram/dispatch.rs], the delivery of
      replies in [mod.rs] and [delivery.rs]): every command and button, undo, revoke
      and redo of a turn, and an update from its row to its replies; with
      [TurnsCorrect], [DispatchCorrect], [Strangers] and the examples [DispatchDemo].
    - [CardPng], [Characters] ([modules/characters/card_png.rs], [store.rs],
      [domain/character.rs]): character cards in JSON and PNG files, their import,
      revisions and export.
    - [Models] ([modules/models/mod.rs]): providers, presets, defaults, and what a
      generation is sent to.
    - [Stateful]: calls on a database, statements and transactions.
    - [Chat], [ChatEngine] ([domain/conversation.rs], [modules/chat/engine.rs],
      [history.rs], [prompt.rs]): the conversations of the standalone mode, its
      commands and queries; [ChatSteps], [ChatFlights] and [ChatCorrect] with the
      generations that run at the same time, [ChatDemo] on concrete tables.
    - [LlmGateway] ([adapters/llm/openai_compatible.rs]): a generation's request and
      its answer, read whole or as a stream.
    - [Legacy], [Migration], [MigrationCorrect], [LegacyImport]
      ([seams/legacy_source.rs], [modules/migration/mod.rs]): a SillyTavern data
      directory, its import and the export of a workspace; [PluginImport] and
      [PluginCorrect]: the database of the plugin the bridge replaces.
    - [HttpApi], [HttpCorrect] ([adapters/http/router.rs],
      [session_store.rs]): routes, CSRF check, handlers, the session table.
    - [Config] ([config.rs]): the settings and the checks they pass; [Startup]
      ([bootstrap.rs], [main.rs], the key file of [encrypted_sqlite.rs]): the master
      key, the check that it is the database's, and the wiring of a process.
    - [Pool]: any number of the bridge's tasks, interleaved call by call, crashes
      included.

    This file holds what all of them share: results and their notation, Unicode
    blanks, TEXT order, the length-prefixed encoding, sorting.

    ** How code becomes definitions

    A struct is a [Record], an enum an [Inductive], a [HashMap] or a table a
    [gmap], a [Vec] a list, a [String] or byte vector a [string] of bytes, a
    machine integer a [Z] with its bounds and checked conversions written out,
    [Result] the type [result] below with [let?] for the question mark.  A method
    that mutates takes the state and returns it.  One SQL statement is one atomic
    step; between two awaited calls anything may happen, which [Program.Env]
    (the rest of the system, as a relation it has to respect) and [Pool] (the
    rest of the system, explicitly) express.  Clocks, random bytes and fresh
    identifiers are arguments.  The network is a function from the requests sent so
    far, the current one last, to an answer or a failure: a theorem about it holds
    for every behaviour of the other side, and speaks of what was sent as a list.
    The client follows redirects ([Session.follow], up to [MAX_REDIRECTS] as the
    client of [backend.rs] is built to), so a request handed to it can be more than
    one on the wire; which request a redirect leads to is a parameter under the law
    [LawfulRedirects].

    ** Interfaces

    [TextCodec] (text forms and their parsers), [IdSource], [Redactor], [Codecs]
    (serde_json and SHA-256), [Aead] with the laws [AeadCorrect] (opening what was
    sealed) and [AeadAuthentic] (nothing else opens), [SecretVault] with
    [LawfulVault] (what payload encryption relies on; discharged by the encrypted
    vault), [SessionLayer] with [LawfulSession] (what tower_sessions promises about a
    session's values and its id), the poller registry and the operation journal.  Parameters stand for
    third-party code: ciphers and digests, serde_json, the network, the [HashMap]
    iteration order.  Every theorem that assumes a law of such a parameter is
    applied at a concrete instance that satisfies it.

    ** What is proved

    - The ledger: an invariant kept by every store call of any process; refinement
      of the abstract operation machine, and that the machine is implemented in
      full; a request is claimed once ([claim_exactly_once]); the commit gate opens
      once; outcomes are final; recovery payloads never change; leases are fenced by
      generation; listings hold exactly what they should, in order
      ([listings_are_exact]).
    - The commands: they report what happened ([command_reports_truthfully]), the
      ledger records it ([command_settles_ledger]), reconciliation never invents a
      commit, claims are classified exactly, recovery returns only applied
      operations, and in the whole system with crashes no operation reaches the
      backend twice ([backend_called_at_most_once]).
    - Secrets: sealed payloads survive restarts, open only under their own
      identity, and an operation has one key.  A consequence that the code's
      restart path runs into is [replay_needs_sealing_runtime].
    - Ownership: epochs fence off older pollers, bindings exclude each other.
    - The wire: decoding does not depend on chunking and is bounded in memory, a
      well-formed generation is delivered however it is cut, a delivered one is
      what was streamed, from SillyTavern and from the model behind the standalone
      mode ([streamed_reply_is_what_was_shown]); a write leaves the bridge exactly
      when it is permitted; signed requests are identified by their canonical string
      and accepted once; the error mapper invents no certainty.
    - The connector client: a mutation is handed to the HTTP client at most once,
      goes out again only where an answer redirects it, and its caller is told what
      the last answer says of it ([mutation_posted_and_told]); snapshots are believed only
      when consistent and bounded ([snapshots_are_checked]); the backend over HTTP
      sends a write only when permitted ([http_write_posts_when_permitted]).  What a
      redirect can do to a commit is shown in [redirects_repeat_or_hide_a_commit].
    - The HTTP API: a request that changes anything has a CSRF token and the
      authority for it ([api_changes_need_authority]); sessions last until they
      expire; a service that starts has a safe configuration
      ([started_config_is_safe]); once it has started, its database goes with one
      master key only ([one_master_key]), which is never overwritten.
    - Migration: an imported chat is its file, message by message
      ([imported_chat_is_faithful]), exporting an imported plain chat gives the file
      back ([plain_chat_round_trips]), importing again adds nothing
      ([reimport_adds_nothing]); the users of the old plugin are given to no account
      but their owner's ([plugin_users_go_to_their_owner]).
    - Locks: a key's lock is exclusive although idle locks are evicted; a task is
      refused only when every lock of a full table is in use.
    - The engine: what a command reports to its user is what the ledger and the
      backend know ([engine_reports_truthfully]), a sealed turn replays exactly
      under the fence it was sealed with ([persisted_turn_replays]), and under no other
      ([replay_needs_sealing_runtime]); a repeated start is refused
      ([repeated_start_is_refused]).
    - The inbox: a batch is stored as a whole before it is acknowledged, an update
      is attempted at most three times whatever crashes, and processed at most once as
      long as no poller starts beside a running one of the same bot (the code can do so:
      [overlapping_start_processes_twice]); stored updates are kept, and recovery
      passes settle every update that is not in processing ([inbox_drains]).
    - Delivery: chunks are faithful to the text, leave in order and are accounted
      for with the message id of their own answer; outcomes are never unlearned, not by
      a call cut off between two statements either; rate limits are respected; bind
      codes work once and lock out who guesses, although guesses side by side can pass
      before the lock ([lock_comes_too_late]); redacted text holds no secret-looking
      token.
    - Telegram: a numeric bot runs once, its poller confirms only what is stored and,
      when it ends, is out of the module and has asked the registry to release it; a button acts once, in the chat and for the user it
      was made for; edits of a panel are fenced by its revision; removals and redone
      turns report what happened and a settled one is left alone; who is not bound
      to an account reaches nothing and nothing SillyTavern says reaches him; a bound user is an active member.
    - The standalone mode: no generation in flight is lost to another command, and a
      failed one leaves the history as it was ([generation_lands]); a new undo takes
      back a send however it ended; a client turn is sent once; other workspaces change and
      see nothing of a conversation; models and their keys stay in their workspace.
    - Cards: an exported PNG holds the card, as its JSON text reads back, and
      everything else of the original; an imported card is kept whole.

    Most loops are structural over the rows, bytes, chunks or events they consume.
    Fuel is taken by the loops of [redact_key_value] and [redact_url_userinfo], whose
    fuel is the length of the text and is shown to be enough; by the two loops over
    the chunks of a PNG, whose fuel is one more than its length and is shown to be
    enough ([card_files_end]); by [split_text], which is shown to return within as
    many turns as the text has bytes for chunks of two or more units, and never to
    return for chunks of one.  The polling loop runs over the rounds it is given.

    ** What is not modelled

    I/O failures of the database driver (an error aborts the call before it
    changes anything; [TelegramInbox] has the one such error that is followed by a
    write), tracing, zeroization, sleeps and progress tasks that change no
    result, the HTTP client's own repetition of requests it could not send.  Of third-party code the HTTP client and server (reqwest, axum, tower's
    limits and headers), teloxide, the sessions of tower_sessions, serde_json's texts,
    ciphers and digests are parameters, inputs or interfaces; the JSON text of a reply
    of the API is not represented.

    Left out of the program's own code: the Telegram gateway, one call that forwards to
    [start_bot]; the test control of the HTTP API and its static pages; the fake model
    gateway of the tests; opening the old plugin's SQLite file (its rows are the input of
    [PluginImport]); the SQLite pool and migrations, signals, and the commands of
    [main.rs] that only print what the importer returns. *)

From stdpp Require Export base option list strings gmap fin_maps relations.
From Stdlib Require Export ZArith Sorted.
From Stdlib Require Import Lia.

Declare Scope bridge_scope.
Delimit Scope bridge_scope with bridge.
Open Scope bridge_scope.

(** ** Results and early returns

    Rust's [Result<T, E>], and [?] as a bind that returns early. *)

Inductive result (A E : Type) : Type :=
| Ok (a : A)
| Err (e : E).
Arguments Ok {A E} a.
Arguments Err {A E} e.

Notation "'let?' x ':=' c 'in' k" :=
  (match c with Ok x => k | Err e => Err e end)
  (at level 10, x pattern, c at level 200, k at level 200)
  : bridge_scope.

Definition map_err {A E F} (f : E -> F) (r : result A E) : result A F :=
  match r with Ok a => Ok a | Err e => Err (f e) end.

Definition result_map {A B E} (f : A -> B) (r : result A E) : result B E :=
  match r with Ok a => Ok (f a) | Err e => Err e end.

Definition ok_or {A E} (o : option A) (e : E) : result A E :=
  match o with Some a => Ok a | None => Err e end.

Definition is_ok {A E} (r : result A E) : bool :=
  match r with Ok _ => true | Err _ => false end.

(** The iterator's [collect::<Result<Vec<_>, _>>]: the first error wins. *)
Fixpoint collect {A E} (l : list (result A E)) : result (list A) E :=
  match l with
  | [] => Ok []
  | r :: l => let? a := r in let? rest := collect l in Ok (a :: rest)
  end.

(** ** Boolean tests

    The code compares with [==] and combines with [&&]; the model uses
    [bool_decide] of the equality, so that [case_bool_decide] splits it. *)

Notation "a =?= b" := (bool_decide (a = b)) (at level 70) : bridge_scope.

(** ** Strings

    A Rust [String] is its UTF-8 bytes, one [ascii] per byte.  [char] is only
    looked at through the byte sequences of the White_Space code points. *)

Definition byte_val (a : Ascii.ascii) : N := Ascii.N_of_ascii a.

Definition ws1 (a : Ascii.ascii) : bool :=
  let n := byte_val a in ((9 <=? n) && (n <=? 13) || (n =? 32))%N.

Definition ws2 (a b : Ascii.ascii) : bool :=
  ((byte_val a =? 194) && ((byte_val b =? 133) || (byte_val b =? 160)))%N.

Definition ws3 (a b c : Ascii.ascii) : bool :=
  let x := byte_val a in let y := byte_val b in let z := byte_val c in
  ((x =? 225) && (y =? 154) && (z =? 128)
   || (x =? 226) && (y =? 128)
      && ((128 <=? z) && (z <=? 138) || (z =? 168) || (z =? 169) || (z =? 175))
   || (x =? 226) && (y =? 129) && (z =? 159)
   || (x =? 227) && (y =? 128) && (z =? 128))%N.

(** [str::trim_start]: drops leading White_Space code points. *)
Fixpoint trim_start (s : string) : string :=
  match s with
  | EmptyString => EmptyString
  | String a r =>
      if ws1 a then trim_start r else
      match r with
      | String b r2 =>
          if ws2 a b then trim_start r2 else
          match r2 with
          | String c r3 => if ws3 a b c then trim_start r3 else s
          | EmptyString => s
          end
      | EmptyString => s
      end
  end.

(** [s.trim().is_empty()]. *)
Definition is_blank (s : string) : bool := trim_start s =?= EmptyString.

Lemma is_blank_empty : is_blank "" = true.
Proof. reflexivity. Qed.

(** SQLite compares TEXT with the BINARY collation: byte order, shorter first. *)
Definition text_le (a b : string) : bool := String.leb a b.
Definition text_lt (a b : string) : bool := String.ltb a b.

Lemma text_le_cons a s b t :
  text_le (String a s) (String b t) = true
  <-> (byte_val a < byte_val b)%N \/ (a = b /\ text_le s t = true).
Proof.
  unfold text_le, String.leb, byte_val. simpl. unfold Ascii.compare.
  destruct (N.compare_spec (Ascii.N_of_ascii a) (Ascii.N_of_ascii b)) as [He|Hl|Hg].
  - assert (a = b) as -> by (rewrite <- (Ascii.ascii_N_embedding a), He; apply Ascii.ascii_N_embedding).
    split; [by right | intros [?|[_ ?]]; [lia | done]].
  - split; [by left | done].
  - split; [done | intros [?|[-> _]]; lia].
Qed.

Lemma text_le_total a b : text_le a b = true \/ text_le b a = true.
Proof. apply String.leb_total. Qed.

Lemma text_le_antisym a b : text_le a b = true -> text_le b a = true -> a = b.
Proof. apply String.leb_antisym. Qed.

Lemma text_le_trans a b c : text_le a b = true -> text_le b c = true -> text_le a c = true.
Proof.
  revert b c. induction a as [|x a IH]; intros [|y b] [|z c]; try done.
  rewrite !text_le_cons. intros [Hxy|[-> Hab]] [Hyz|[-> Hbc]]; [left; lia | by left | by left |].
  right. split; [done |]. by eapply IH.
Qed.

Lemma text_lt_irrefl a : text_lt a a = false.
Proof.
  unfold text_lt, String.ltb. pose proof (String.compare_antisym a a) as Ha. by destruct (String.compare a a).
Qed.

Lemma text_lt_asym a b : text_lt a b = true -> text_lt b a = false.
Proof.
  unfold text_lt, String.ltb. rewrite (String.compare_antisym b a). by destruct (String.compare a b).
Qed.

Lemma text_le_lt_eq a b : text_le a b = true -> text_lt a b = true \/ a = b.
Proof.
  unfold text_le, text_lt, String.leb, String.ltb. destruct (String.compare a b) eqn:E; try done; [| by left].
  intros _. right. by apply String.compare_eq_iff.
Qed.

(** ** Byte encodings

    [to_be_bytes] of an unsigned integer of [n] bytes, and the length-prefixed
    concatenation the code authenticates and hashes. *)

Fixpoint be_bytes (n : nat) (z : Z) : string :=
  match n with
  | O => EmptyString
  | S n => be_bytes n (z / 256) +:+ String (Ascii.ascii_of_N (Z.to_N (z mod 256))) ""
  end.

(** [(part.len() as u64).to_be_bytes()] followed by the part's bytes. *)
Definition encode_part (part : string) : string :=
  be_bytes 8 (Z.of_nat (String.length part)) +:+ part.

Fixpoint encode_parts (parts : list string) : string :=
  match parts with
  | [] => EmptyString
  | p :: ps => encode_part p +:+ encode_parts ps
  end.

(** Lengths that fit the [u64] prefix: every length of a Rust string does. *)
Definition u64_len (s : string) : Prop := (Z.of_nat (String.length s) < 2 ^ 64)%Z.

Lemma app_string_length s t :
  String.length (s +:+ t) = String.length s + String.length t.
Proof. induction s as [|a s IH]; simpl; [done |]. by rewrite IH. Qed.

Lemma app_string_cons a s t : String a s +:+ t = String a (s +:+ t).
Proof. reflexivity. Qed.

Lemma app_string_assoc s t u : s +:+ (t +:+ u) = (s +:+ t) +:+ u.
Proof. induction s as [|a s IH]; [done |]. by rewrite !app_string_cons, IH. Qed.

Lemma app_string_inj_length s1 s2 t1 t2 :
  String.length s1 = String.length s2 ->
  s1 +:+ t1 = s2 +:+ t2 -> s1 = s2 /\ t1 = t2.
Proof.
  revert s2. induction s1 as [|a s1 IH]; intros [|b s2] Hlen Heq;
    [done | done | done |].
  rewrite !app_string_cons in Heq. injection Heq as -> Heq. injection Hlen as Hlen.
  by destruct (IH s2 Hlen Heq) as [-> ->].
Qed.

Lemma app_string_inj_length_r s1 s2 t1 t2 :
  String.length t1 = String.length t2 ->
  s1 +:+ t1 = s2 +:+ t2 -> s1 = s2 /\ t1 = t2.
Proof.
  intros Hlen Heq. apply app_string_inj_length; [| done].
  apply (f_equal String.length) in Heq. rewrite !app_string_length in Heq. lia.
Qed.

Lemma be_bytes_length n z : String.length (be_bytes n z) = n.
Proof.
  revert z. induction n as [|n IH]; intros z; simpl; [done |].
  rewrite app_string_length, IH. simpl. lia.
Qed.

Lemma ascii_of_byte_inj x y :
  (0 <= x < 256)%Z -> (0 <= y < 256)%Z ->
  Ascii.ascii_of_N (Z.to_N x) = Ascii.ascii_of_N (Z.to_N y) -> x = y.
Proof.
  intros Hx Hy Heq. apply (f_equal Ascii.N_of_ascii) in Heq.
  rewrite !Ascii.N_ascii_embedding in Heq by lia. lia.
Qed.

Lemma be_bytes_inj n x y :
  (0 <= x < 256 ^ Z.of_nat n)%Z -> (0 <= y < 256 ^ Z.of_nat n)%Z ->
  be_bytes n x = be_bytes n y -> x = y.
Proof.
  revert x y. induction n as [|n IH]; intros x y Hx Hy Heq; simpl in *; [lia |].
  rewrite Nat2Z.inj_succ, Z.pow_succ_r in Hx, Hy by lia.
  apply app_string_inj_length_r in Heq as [Hhi Hlo]; [| done].
  injection Hlo as Hlo.
  apply ascii_of_byte_inj in Hlo; [| apply Z.mod_pos_bound; lia ..].
  apply IH in Hhi; [| split; [apply Z.div_pos; lia | apply Z.div_lt_upper_bound; lia] ..].
  rewrite (Z.div_mod x 256), (Z.div_mod y 256) by lia. by rewrite Hhi, Hlo.
Qed.

Lemma encode_part_inj p q s t :
  u64_len p -> u64_len q ->
  encode_part p +:+ s = encode_part q +:+ t -> p = q /\ s = t.
Proof.
  unfold u64_len, encode_part. intros Hp Hq Heq. rewrite <- !app_string_assoc in Heq.
  apply app_string_inj_length in Heq as [Hlen Heq]; [| by rewrite !be_bytes_length].
  apply be_bytes_inj in Hlen; [| change (256 ^ Z.of_nat 8)%Z with (2 ^ 64)%Z; lia ..].
  apply app_string_inj_length; [lia | done].
Qed.

(** The length-prefixed encoding determines the parts, also their number. *)
Lemma encode_parts_inj ps qs :
  Forall u64_len ps -> Forall u64_len qs ->
  encode_parts ps = encode_parts qs -> ps = qs.
Proof.
  intros Hp. revert qs. induction Hp as [|p ps Hp Hps IH]; intros qs Hq Heq;
    destruct Hq as [|q qs Hq Hqs]; simpl in *; [done | | |].
  - apply (f_equal String.length) in Heq. unfold encode_part in Heq.
    rewrite !app_string_length, be_bytes_length in Heq. simpl in Heq. lia.
  - apply (f_equal String.length) in Heq. unfold encode_part in Heq.
    rewrite !app_string_length, be_bytes_length in Heq. simpl in Heq. lia.
  - apply encode_part_inj in Heq as [-> Heq]; [| done ..]. f_equal. by apply IH.
Qed.

(** ** Stable sorting by a boolean order

    [ORDER BY] and [slice::sort_by]: stable insertion sort. *)

Section Sorting.
Context {A : Type} (leb : A -> A -> bool).

Fixpoint insert_by (x : A) (l : list A) : list A :=
  match l with
  | [] => [x]
  | y :: l' => if leb x y then x :: l else y :: insert_by x l'
  end.

Fixpoint sort_by (l : list A) : list A :=
  match l with
  | [] => []
  | x :: l => insert_by x (sort_by l)
  end.

Lemma insert_by_perm x l : insert_by x l ≡ₚ x :: l.
Proof.
  induction l as [|y l IH]; simpl; [done |].
  destruct (leb x y); [done |]. rewrite IH. apply Permutation_swap.
Qed.

Lemma sort_by_perm l : sort_by l ≡ₚ l.
Proof. induction l as [|x l IH]; simpl; [done |]. by rewrite insert_by_perm, IH. Qed.

Lemma sort_by_elem x l : x ∈ sort_by l <-> x ∈ l.
Proof. by rewrite sort_by_perm. Qed.

Context (leb_total : forall a b, leb a b = true \/ leb b a = true).
Context (leb_trans : forall a b c, leb a b = true -> leb b c = true -> leb a c = true).

Lemma insert_by_sorted x l :
  StronglySorted (λ a b, leb a b = true) l ->
  StronglySorted (λ a b, leb a b = true) (insert_by x l).
Proof.
  induction 1 as [|y l Hl IH Hy]; simpl; [by repeat constructor |].
  destruct (leb x y) eqn:Hxy.
  - constructor; [by constructor |]. constructor; [done |].
    eapply Forall_impl; [exact Hy |]. simpl. eauto.
  - constructor; [done |]. rewrite insert_by_perm. constructor; [| done].
    destruct (leb_total x y); congruence.
Qed.

Lemma sort_by_sorted l : StronglySorted (λ a b, leb a b = true) (sort_by l).
Proof. induction l; simpl; [constructor | by apply insert_by_sorted]. Qed.
End Sorting.

Lemma sorted_app_related {A} (R : A -> A -> Prop) l k :
  StronglySorted R (l ++ k) -> forall x y, x ∈ l -> y ∈ k -> R x y.
Proof.
  induction l as [|z l IH]; simpl; intros Hs x y Hx Hy; [by apply not_elem_of_nil in Hx |].
  inversion Hs as [|? ? Hs' Hall]; subst. apply elem_of_cons in Hx as [-> | Hx]; [| by apply IH].
  rewrite Forall_forall in Hall. apply Hall, elem_of_app. by right.
Qed.

Lemma Forall2_impl_elem {A B} (P Q : A -> B -> Prop) l k :
  Forall2 P l k -> (forall x y, x ∈ l -> P x y -> Q x y) -> Forall2 Q l k.
Proof.
  intros Hf. induction Hf as [|x y l k Hxy Hf IH]; intros HQ; constructor.
  - apply HQ; [left | done].
  - apply IH. intros a b Ha. apply HQ. by right.
Qed.
