(* ===== verification/Text.v ===== *)
(** * Text: the [str] operations the bridge uses

    UTF-8 validity ([std::str::from_utf8]), ASCII case folding, searching,
    splitting, replacing and trimming of Rust's standard library, over strings as
    byte sequences.  A search for a [&str] compares bytes: in UTF-8 a match of
    well-formed text starts and ends at character boundaries.  A character is
    counted at its first byte, the one that is no continuation byte. *)

From S2P Require Import Prelude.

(** ** UTF-8 *)

Definition in_range (lo hi : N) (a : Ascii.ascii) : bool :=
  ((lo <=? byte_val a) && (byte_val a <=? hi))%N.

Definition is_cont : Ascii.ascii -> bool := in_range 128 191.

(** The well-formed byte sequences of the Unicode standard: no overlong form,
    no surrogate, nothing above U+10FFFF. *)
Definition utf8_lead2 (a : Ascii.ascii) : bool := in_range 194 223 a.

Definition utf8_lead3 (a b : Ascii.ascii) : bool :=
  in_range 224 224 a && in_range 160 191 b
  || in_range 225 236 a && is_cont b
  || in_range 237 237 a && in_range 128 159 b
  || in_range 238 239 a && is_cont b.

Definition utf8_lead4 (a b : Ascii.ascii) : bool :=
  in_range 240 240 a && in_range 144 191 b
  || in_range 241 243 a && is_cont b
  || in_range 244 244 a && in_range 128 143 b.

(** [std::str::from_utf8(bytes).is_ok()]. *)
Fixpoint utf8_valid (s : string) : bool :=
  match s with
  | EmptyString => true
  | String a r =>
      if in_range 0 127 a then utf8_valid r else
      match r with
      | EmptyString => false
      | String b r2 =>
          if utf8_lead2 a && is_cont b then utf8_valid r2 else
          match r2 with
          | EmptyString => false
          | String c r3 =>
              if utf8_lead3 a b && is_cont c then utf8_valid r3 else
              match r3 with
              | EmptyString => false
              | String d r4 => utf8_lead4 a b && is_cont c && is_cont d && utf8_valid r4
              end
          end
      end
  end.

(** ** Case folding, prefixes, substrings *)

Definition ascii_lower (a : Ascii.ascii) : Ascii.ascii :=
  if in_range 65 90 a then Ascii.ascii_of_N (byte_val a + 32) else a.

(** [str::to_ascii_lowercase]. *)
Fixpoint to_ascii_lowercase (s : string) : string :=
  match s with
  | EmptyString => EmptyString
  | String a r => String (ascii_lower a) (to_ascii_lowercase r)
  end.

(** [str::starts_with(&str)]. *)
Definition starts_with (s p : string) : bool := String.prefix p s.

(** [str::contains(&str)]. *)
Fixpoint contains (s p : string) : bool :=
  String.prefix p s
  || match s with EmptyString => false | String _ r => contains r p end.

(** ** Facts *)

Lemma to_ascii_lowercase_length s :
  String.length (to_ascii_lowercase s) = String.length s.
Proof. induction s as [|a s IH]; simpl; congruence. Qed.

Lemma ascii_lower_idemp a : ascii_lower (ascii_lower a) = ascii_lower a.
Proof. by destruct a as [[] [] [] [] [] [] [] []]. Qed.

Lemma to_ascii_lowercase_idemp s :
  to_ascii_lowercase (to_ascii_lowercase s) = to_ascii_lowercase s.
Proof. induction s as [|a s IH]; simpl; [done |]. by rewrite ascii_lower_idemp, IH. Qed.

(** ** Trimming *)

(** [str::trim_end].  A suffix that starts inside a code point starts with a
    continuation byte, which no White_Space sequence does. *)
Fixpoint trim_end (s : string) : string :=
  match s with
  | EmptyString => EmptyString
  | String a r => if is_blank s then EmptyString else String a (trim_end r)
  end.

(** [str::trim]. *)
Definition trim (s : string) : string := trim_end (trim_start s).

(** ** Slices, searching, replacing *)

(** [&s[..n]] and [&s[n..]]. *)
Fixpoint str_take (n : nat) (s : string) : string :=
  match n, s with S n, String a r => String a (str_take n r) | _, _ => EmptyString end.
Fixpoint str_drop (n : nat) (s : string) : string :=
  match n, s with S n, String _ r => str_drop n r | _, _ => s end.

(** [str::strip_prefix(&str)]. *)
Definition strip_prefix (p s : string) : option string :=
  if String.prefix p s then Some (str_drop (String.length p) s) else None.

(** [str::find(&str)]: the offset of the first match. *)
Fixpoint str_find (p s : string) : option nat :=
  if String.prefix p s then Some 0
  else match s with EmptyString => None | String _ r => S <$> str_find p r end.

(** [str::rfind(&str)]. *)
Fixpoint str_rfind (p s : string) : option nat :=
  match s with
  | EmptyString => if String.prefix p s then Some 0 else None
  | String _ r =>
      match str_rfind p r with
      | Some n => Some (S n)
      | None => if String.prefix p s then Some 0 else None
      end
  end.

(** [str::replace(pat, rep)] for a non-empty pattern: [skip] bytes of a match
    are still to be dropped. *)
Fixpoint replace_go (pat rep : string) (skip : nat) (s : string) : string :=
  match s with
  | EmptyString => EmptyString
  | String a r =>
      match skip with
      | S skip => replace_go pat rep skip r
      | O => if String.prefix pat s
             then rep +:+ replace_go pat rep (String.length pat - 1) r
             else String a (replace_go pat rep 0 r)
      end
  end.
Definition str_replace (pat rep s : string) : string := replace_go pat rep 0 s.

(** [[&str]::join(&str)]. *)
Fixpoint join_str (sep : string) (l : list string) : string :=
  match l with
  | [] => EmptyString
  | [p] => p
  | p :: ps => p +:+ sep +:+ join_str sep ps
  end.

(** [str::trim_end_matches] and [trim_start_matches] of a set of ASCII characters. *)
Fixpoint trim_end_bytes (p : Ascii.ascii -> bool) (s : string) : string :=
  match s with
  | EmptyString => EmptyString
  | String a r =>
      match trim_end_bytes p r with
      | EmptyString => if p a then EmptyString else String a EmptyString
      | t => String a t
      end
  end.
Fixpoint trim_start_bytes (p : Ascii.ascii -> bool) (s : string) : string :=
  match s with
  | String a r => if p a then trim_start_bytes p r else s
  | EmptyString => EmptyString
  end.

(** ** Characters *)

(** [s.chars().count()] and [s.chars().take(n).collect::<String>()]. *)
Fixpoint chars_count (s : string) : nat :=
  match s with
  | EmptyString => 0
  | String a r => if is_cont a then chars_count r else S (chars_count r)
  end.

Fixpoint chars_take (n : nat) (s : string) : string :=
  match s with
  | EmptyString => EmptyString
  | String a r =>
      if is_cont a then String a (chars_take n r)
      else match n with O => EmptyString | S n => String a (chars_take n r) end
  end.

Definition is_ascii_alphabetic (a : Ascii.ascii) : bool := in_range 65 90 a || in_range 97 122 a.
Definition is_ascii_digit (a : Ascii.ascii) : bool := in_range 48 57 a.
Definition is_ascii_alphanumeric (a : Ascii.ascii) : bool :=
  is_ascii_alphabetic a || is_ascii_digit a.

(** The characters of a string, each as its bytes. *)
Fixpoint chars (s : string) : list string :=
  match s with
  | EmptyString => []
  | String a r =>
      match chars r with
      | c :: cs =>
          match r with
          | String b _ => if is_cont b then String a c :: cs else String a EmptyString :: c :: cs
          | EmptyString => String a EmptyString :: c :: cs
          end
      | [] => [String a EmptyString]
      end
  end.

Definition concat_str (l : list string) : string := foldr String.append EmptyString l.

(** ** Slices, facts *)

Lemma take_drop_string n s : str_take n s +:+ str_drop n s = s.
Proof.
  revert s. induction n as [|n IH]; intros [|a s]; try done.
  simpl. rewrite app_string_cons. by rewrite IH.
Qed.

Lemma str_take_length n s : String.length (str_take n s) = Nat.min n (String.length s).
Proof. revert s. induction n as [|n IH]; intros [|a s]; simpl; auto. Qed.

Lemma str_take_app n a b :
  str_take n (a +:+ b) = str_take n a +:+ str_take (n - String.length a) b.
Proof.
  revert n. induction a as [|c a IH]; intros n;
    [by destruct n |].
  destruct n as [|n]; rewrite ?app_string_cons; simpl; [by destruct b |].
  by rewrite app_string_cons, IH.
Qed.

Lemma str_drop_app n a b :
  str_drop n (a +:+ b) = str_drop n a +:+ str_drop (n - String.length a) b.
Proof.
  revert n. induction a as [|c a IH]; intros n;
    [by destruct n |].
  destruct n as [|n]; rewrite ?app_string_cons; simpl; [done |]. by rewrite IH.
Qed.

Lemma str_take_ge n s : String.length s <= n -> str_take n s = s.
Proof.
  revert s. induction n as [|n IH]; intros [|a s]; simpl; intros; try done; [lia |].
  by rewrite IH by lia.
Qed.
Lemma str_drop_ge n s : String.length s <= n -> str_drop n s = "".
Proof.
  revert s. induction n as [|n IH]; intros [|a s]; simpl; intros; try done; [lia |].
  by rewrite IH by lia.
Qed.
Lemma str_take_min n s : str_take (Nat.min n (String.length s)) s = str_take n s.
Proof.
  destruct (Nat.le_gt_cases n (String.length s)); [by rewrite Nat.min_l by lia |].
  rewrite Nat.min_r by lia. by rewrite !str_take_ge by lia.
Qed.
Lemma str_drop_min n s : str_drop (Nat.min n (String.length s)) s = str_drop n s.
Proof.
  destruct (Nat.le_gt_cases n (String.length s)); [by rewrite Nat.min_l by lia |].
  rewrite Nat.min_r by lia. by rewrite !str_drop_ge by lia.
Qed.

Lemma str_take_exact a b : str_take (String.length a) (a +:+ b) = a.
Proof.
  rewrite str_take_app, str_take_ge, Nat.sub_diag by done. simpl.
  by induction a as [|c a IH]; [| rewrite app_string_cons, IH].
Qed.

Lemma str_drop_exact a b : str_drop (String.length a) (a +:+ b) = b.
Proof. by rewrite str_drop_app, str_drop_ge, Nat.sub_diag by done. Qed.

Lemma app_string_nil s : s +:+ "" = s.
Proof. induction s as [|a s IH]; [done |]. by rewrite app_string_cons, IH. Qed.

(** [s.bytes().all(p)]. *)
Fixpoint all_bytes (p : Ascii.ascii -> bool) (s : string) : bool :=
  match s with EmptyString => true | String a r => p a && all_bytes p r end.

Lemma all_bytes_app p s t : all_bytes p (s +:+ t) = all_bytes p s && all_bytes p t.
Proof.
  induction s as [|a s IH]; [done |]. rewrite app_string_cons. simpl. by rewrite IH, andb_assoc.
Qed.

(** ** Splitting and joining at a byte *)

Fixpoint has_byte (c : Ascii.ascii) (s : string) : bool :=
  match s with
  | EmptyString => false
  | String a r => (a =?= c) || has_byte c r
  end.

(** [str::split(c)]: never empty. *)
Fixpoint split_on (c : Ascii.ascii) (s : string) : list string :=
  match s with
  | EmptyString => [EmptyString]
  | String a r =>
      if a =?= c then EmptyString :: split_on c r
      else match split_on c r with
           | [] => [String a EmptyString]
           | p :: ps => String a p :: ps
           end
  end.

(** [str::split_once(c)]. *)
Fixpoint split_once (c : Ascii.ascii) (s : string) : option (string * string) :=
  match s with
  | EmptyString => None
  | String a r =>
      if a =?= c then Some (EmptyString, r)
      else '(k, v) ← split_once c r; Some (String a k, v)
  end.

Definition byte_str (c : Ascii.ascii) : string := String c EmptyString.

(** [[T]::join(sep)]. *)
Fixpoint join (sep : Ascii.ascii) (l : list string) : string :=
  match l with
  | [] => EmptyString
  | [p] => p
  | p :: ps => p +:+ String sep (join sep ps)
  end.

Lemma has_byte_app c s t : has_byte c (s +:+ t) = has_byte c s || has_byte c t.
Proof.
  induction s as [|a s IH]; [done |]. rewrite app_string_cons. simpl. by rewrite IH, orb_assoc.
Qed.

Lemma split_on_nonempty c s : split_on c s <> [].
Proof. destruct s as [|a s]; simpl; [done |]. destruct (_ =?= _), (split_on c s); done. Qed.

Lemma split_on_plain c s : has_byte c s = false -> split_on c s = [s].
Proof.
  induction s as [|a s IH]; simpl; [done |]. intros [Ha Hs]%orb_false_iff.
  by rewrite Ha, IH.
Qed.

Lemma split_on_app c s t :
  has_byte c s = false -> split_on c (s +:+ String c t) = s :: split_on c t.
Proof.
  induction s as [|a s IH]; simpl.
  - intros _. by rewrite bool_decide_eq_true_2.
  - intros [Ha Hs]%orb_false_iff. by rewrite Ha, IH.
Qed.

Lemma split_on_join c l :
  l <> [] -> Forall (λ s, has_byte c s = false) l -> split_on c (join c l) = l.
Proof.
  intros Hne Hl. induction Hl as [|s l Hs Hl IH]; [done |].
  destruct l as [|s' l].
  - by apply split_on_plain.
  - change (join c (s :: s' :: l)) with (s +:+ String c (join c (s' :: l))).
    rewrite split_on_app by done. by rewrite IH.
Qed.

Lemma split_on_parts c s : Forall (λ p, has_byte c p = false) (split_on c s).
Proof.
  induction s as [|a s IH]; simpl; [by repeat constructor |].
  destruct (bool_decide_reflect (a = c)) as [->|Hne]; [by constructor |].
  destruct (split_on c s) as [|p ps]; [constructor; simpl; [| done] |].
  - by rewrite bool_decide_eq_false_2.
  - apply Forall_cons in IH as [Hp Hps]. constructor; [| done]. simpl.
    by rewrite bool_decide_eq_false_2.
Qed.

(** Lines determine the text they are joined from. *)
Lemma join_inj c l l' :
  length l = length l' -> l <> [] ->
  Forall (λ s, has_byte c s = false) l -> Forall (λ s, has_byte c s = false) l' ->
  join c l = join c l' -> l = l'.
Proof.
  intros Hlen Hne Hl Hl' Heq. rewrite <- (split_on_join c l), <- (split_on_join c l'), Heq;
    try done. by destruct l, l'.
Qed.

Lemma split_once_Some c s k v :
  split_once c s = Some (k, v) -> s = k +:+ String c v /\ has_byte c k = false.
Proof.
  revert k. induction s as [|a s IH]; intros k; simpl; [done |].
  destruct (bool_decide_reflect (a = c)) as [->|Hne].
  - by intros [= <- <-].
  - destruct (split_once c s) as [[k' v']|]; [| done]. simpl. intros [= <- <-].
    destruct (IH k' eq_refl) as [-> Hk]. rewrite app_string_cons. split; [done |]. simpl.
    by rewrite bool_decide_eq_false_2.
Qed.

Lemma split_once_None c s : split_once c s = None -> has_byte c s = false.
Proof.
  induction s as [|a s IH]; simpl; [done |].
  destruct (a =?= c); [done |]. destruct (split_once c s) as [[]|]; [done |]. auto.
Qed.

(** Bytes of the pairs come from the query. *)
Lemma split_on_byte c d s :
  has_byte d s = false -> Forall (λ p, has_byte d p = false) (split_on c s).
Proof.
  induction s as [|a s IH]; simpl; [by repeat constructor |].
  intros [Ha Hs]%orb_false_iff. specialize (IH Hs).
  destruct (a =?= c); [by constructor |].
  destruct (split_on c s) as [|p ps]; [repeat constructor; simpl; by rewrite Ha |].
  apply Forall_cons in IH as [Hp Hps]. constructor; [| done]. simpl. by rewrite Ha, Hp.
Qed.

Lemma join_byte c d l :
  c <> d -> Forall (λ s, has_byte d s = false) l -> has_byte d (join c l) = false.
Proof.
  intros Hne Hl. assert ((c =?= d) = false) as Hcd by by apply bool_decide_eq_false.
  induction Hl as [|s l Hs Hl IH]; [done |]. destruct l as [|s' l]; [done |].
  change (join c (s :: s' :: l)) with (s +:+ String c (join c (s' :: l))).
  rewrite has_byte_app. cbn [has_byte]. by rewrite Hs, Hcd, IH.
Qed.
