(* ===== verification/Redaction.v ===== *)
(** * Redaction of diagnostic details

    [src/modules/bridge/redaction.rs].  Offsets are byte offsets; the characters
    the code tests for are ASCII (one byte, never part of another character) or
    white space.  [String::replace_range] panics outside of the string and inside
    of a character: a panic is the outer [None].  The [while] loops take fuel;
    [S (length text)] rounds are enough ([redact_key_value_fuel]). *)

From S2P Require Import Prelude Text.

Definition SENSITIVE_KEYS : list string :=
  ["authorization"; "cookie"; "x-csrf-token"; "csrf-token"; "csrf_token"; "csrf"; "bot-token";
   "bot_token"; "bot token"; "api-key"; "api key"; "api_key"; "apikey"; "access-token";
   "access_token"; "provider-key"; "provider_key"; "password"; "token"; "secret"].

Definition REDACTED : string := "[REDACTED]".
Definition PATH_REDACTED : string := "[PATH_REDACTED]".

(** ** Bytes and slices *)

Definition is_byte (n : nat) (a : Ascii.ascii) : bool := a =?= Ascii.ascii_of_nat n.

(** Membership in a [matches!] of ASCII characters, given by their codes. *)
Definition one_of (codes : list nat) (a : Ascii.ascii) : bool := existsb (λ n, is_byte n a) codes.

Definition first_byte (s : string) : option Ascii.ascii :=
  match s with String a _ => Some a | EmptyString => None end.

Definition is_char_boundary (text : string) (i : nat) : bool :=
  (i =? 0)%nat || (i =? String.length text)%nat
  || match first_byte (str_drop i text) with Some a => negb (is_cont a) | None => false end.

(** [String::replace_range(start..end, with)]; [None]: it panics. *)
Definition replace_range (text : string) (start end_ : nat) (with_ : string) : option string :=
  if (start <=? end_)%nat && (end_ <=? String.length text)%nat
     && is_char_boundary text start && is_char_boundary text end_
  then Some (str_take start text +:+ with_ +:+ str_drop end_ text)
  else None.

(** [s] starts with a White_Space character. *)
Definition starts_blank (s : string) : bool := negb (trim_start s =?= s).

(** [s.find(|c| c.is_whitespace() || stop(c))]. *)
Fixpoint find_stop (blank : bool) (stop : Ascii.ascii -> bool) (s : string) : option nat :=
  match s with
  | EmptyString => None
  | String a r =>
      if (blank && starts_blank s) || stop a then Some 0
      else S <$> find_stop blank stop r
  end.

Definition find_end (blank : bool) (stop : Ascii.ascii -> bool) (text : string) (from : nat) : nat :=
  from + default (String.length (str_drop from text)) (find_stop blank stop (str_drop from text)).

Definition is_word (a : Ascii.ascii) : bool := is_ascii_alphanumeric a || is_byte 95 a.

(** Codes: 34 and 39 are the quotes, 92 the backslash, 58 and 61 [:] and [=]. *)
Definition is_quote : Ascii.ascii -> bool := one_of [34; 39].

(** ** Keys and their values *)

Definition find_case_insensitive (haystack needle : string) : option nat :=
  str_find (to_ascii_lowercase needle) (to_ascii_lowercase haystack).

Definition eq_ignore_ascii_case (a b : string) : bool :=
  to_ascii_lowercase a =?= to_ascii_lowercase b.

Fixpoint last_byte (s : string) : option Ascii.ascii :=
  match s with
  | EmptyString => None
  | String a EmptyString => Some a
  | String _ r => last_byte r
  end.

(** The last byte of a character is an ASCII word character only if the
    character is. *)
Definition is_key_boundary (text : string) (key_start key_end : nat) : bool :=
  let starts_inside := match last_byte (str_take key_start text) with
                       | Some a => is_word a | None => false end in
  let ends_inside := match first_byte (str_drop key_end text) with
                     | Some a => is_word a | None => false end in
  negb starts_inside && negb ends_inside.

Definition skip_whitespace (text : string) (offset : nat) : nat :=
  let rest := str_drop offset text in
  offset + (String.length rest - String.length (trim_start rest)).

(** The next byte, if it satisfies [p], and the offset behind it. *)
Definition take_byte (p : Ascii.ascii -> bool) (text : string) (offset : nat)
    : option (Ascii.ascii * nat) :=
  a ← first_byte (str_drop offset text); if p a then Some (a, S offset) else None.

Definition locate_value_start (text : string) (key_end : nat) : option (nat * option Ascii.ascii) :=
  let cursor := skip_whitespace text key_end in
  let cursor :=
    match take_byte is_quote text cursor with
    | Some (_, next) => skip_whitespace text next
    | None => cursor
    end in
  '(_, next) ← take_byte (one_of [58; 61]) text cursor;
  let cursor := skip_whitespace text next in
  match take_byte is_quote text cursor with
  | Some (quote, next) => Some (next, Some quote)
  | None => Some (cursor, None)
  end.

(** [,] [;] [&] [#] [}] []] and the quotes. *)
Definition scan_unquoted_end (text : string) (value_start : nat) : nat :=
  find_end true (one_of [44; 59; 38; 35; 125; 93; 34; 39]) text value_start.

Definition scan_line_end (text : string) (value_start : nat) : nat :=
  find_end false (one_of [13; 10]) text value_start.

Fixpoint quoted_end (quote : Ascii.ascii) (escaped : bool) (s : string) : option nat :=
  match s with
  | EmptyString => None
  | String a r =>
      if escaped then S <$> quoted_end quote false r
      else if is_byte 92 a then S <$> quoted_end quote true r
      else if a =?= quote then Some 0
      else S <$> quoted_end quote false r
  end.

Definition scan_quoted_end (text : string) (value_start : nat) (quote : Ascii.ascii) : nat :=
  match quoted_end quote false (str_drop value_start text) with
  | Some index => value_start + index
  | None => String.length text
  end.

Definition authorization_value_end (text : string) (value_start first_end : nat) : nat :=
  let scheme := str_take (first_end - value_start) (str_drop value_start text) in
  if negb (eq_ignore_ascii_case scheme "bearer") && negb (eq_ignore_ascii_case scheme "basic")
  then first_end
  else
    let credential_start := skip_whitespace text first_end in
    let credential_end := scan_unquoted_end text credential_start in
    if (credential_start <? credential_end)%nat then credential_end else first_end.

Definition value_end_of (text key : string) (value_start : nat) (value_quote : option Ascii.ascii)
    : nat :=
  match value_quote with
  | Some quote => scan_quoted_end text value_start quote
  | None =>
      if eq_ignore_ascii_case key "cookie" then scan_line_end text value_start
      else
        let first_end := scan_unquoted_end text value_start in
        if eq_ignore_ascii_case key "authorization"
        then authorization_value_end text value_start first_end
        else first_end
  end.

(** One round of the loop of [redact_key_value]: [None] leaves the loop, [Some]
    is the text and the offset to go on with; the outer [None] is a panic. *)
Definition key_value_round (text key : string) (search_offset : nat)
    : option (option (string * nat)) :=
  if negb (search_offset <? String.length text)%nat then Some None
  else
    match find_case_insensitive (str_drop search_offset text) key with
    | None => Some None
    | Some relative =>
        let key_start := search_offset + relative in
        let key_end := key_start + String.length key in
        if negb (is_key_boundary text key_start key_end) then Some (Some (text, key_end))
        else
          match locate_value_start text key_end with
          | None => Some (Some (text, key_end))
          | Some (value_start, value_quote) =>
              let value_end := value_end_of text key value_start value_quote in
              if (value_end <=? value_start)%nat then Some (Some (text, S value_start))
              else
                text' ← replace_range text value_start value_end REDACTED;
                Some (Some (text', value_start + String.length REDACTED))
          end
    end.

Fixpoint key_value_loop (fuel : nat) (text key : string) (search_offset : nat) : option string :=
  match fuel with
  | O => Some text
  | S fuel =>
      round ← key_value_round text key search_offset;
      match round with
      | None => Some text
      | Some (text, search_offset) => key_value_loop fuel text key search_offset
      end
  end.

Definition redact_key_value (text key : string) : option string :=
  key_value_loop (S (String.length text)) text key 0.

(** ** User information in URLs *)

Definition userinfo_round (text : string) (offset : nat) : option (option (string * nat)) :=
  if negb (offset <? String.length text)%nat then Some None
  else
    match str_find "://" (str_drop offset text) with
    | None => Some None
    | Some relative =>
        let authority_start := offset + relative + 3 in
        let authority_end := find_end true (one_of [47; 34; 39]) text authority_start in
        match find_stop false (is_byte 64)
                (str_take (authority_end - authority_start) (str_drop authority_start text)) with
        | None => Some (Some (text, authority_end))
        | Some at_offset =>
            let at_ := authority_start + at_offset in
            if (authority_start <? at_)%nat then
              text' ← replace_range text authority_start at_ REDACTED;
              Some (Some (text', authority_start + String.length REDACTED + 1))
            else Some (Some (text, authority_end))
        end
    end.

Fixpoint userinfo_loop (fuel : nat) (text : string) (offset : nat) : option string :=
  match fuel with
  | O => Some text
  | S fuel =>
      round ← userinfo_round text offset;
      match round with
      | None => Some text
      | Some (text, offset) => userinfo_loop fuel text offset
      end
  end.

Definition redact_url_userinfo (text : string) : option string :=
  userinfo_loop (S (String.length text)) text 0.

(** ** Long tokens *)

Definition is_token (a : Ascii.ascii) : bool := is_ascii_alphanumeric a || one_of [95; 45] a.

(** The scan of [redact_token_like]: [run] is the start of the current token with
    [has_alpha] and [has_digit]. *)
Definition close_run (run : option (nat * bool * bool)) (index : nat) : list (nat * nat) :=
  match run with
  | Some (start, has_alpha, has_digit) =>
      if (32 <=? index - start)%nat && has_alpha && has_digit then [(start, index)] else []
  | None => []
  end.

Fixpoint token_ranges (index : nat) (run : option (nat * bool * bool)) (s : string)
    : list (nat * nat) :=
  match s with
  | EmptyString => close_run run index
  | String a r =>
      if is_token a then
        let '(start, has_alpha, has_digit) := default (index, false, false) run in
        token_ranges (S index)
          (Some (start, has_alpha || is_ascii_alphabetic a, has_digit || is_ascii_digit a)) r
      else close_run run index ++ token_ranges (S index) None r
  end.

(** [for (start, end) in ranges.into_iter().rev() { text.replace_range(..) }]. *)
Fixpoint replace_ranges (text with_ : string) (reversed : list (nat * nat)) : option string :=
  match reversed with
  | [] => Some text
  | (start, end_) :: reversed =>
      text ← replace_range text start end_ with_; replace_ranges text with_ reversed
  end.

Definition redact_token_like (text : string) : option string :=
  replace_ranges text REDACTED (rev (token_ranges 0 None text)).

(** ** Paths *)

Definition byte_at (text : string) (i : nat) : option Ascii.ascii := first_byte (str_drop i text).

Definition byte_is (p : Ascii.ascii -> bool) (text : string) (i : nat) : bool :=
  match byte_at text i with Some a => p a | None => false end.

(** Codes: 92 and 47 are the two slashes, 58 is [:], 32 and 9 blank and tab. *)
Definition is_slash : Ascii.ascii -> bool := one_of [92; 47].

Definition drive_path (text : string) (index : nat) : bool :=
  (index + 2 <? String.length text)%nat && byte_is is_ascii_alphabetic text index
  && byte_is (is_byte 58) text (index + 1) && byte_is is_slash text (index + 2).

Definition is_unc_path (text : string) (index : nat) : bool :=
  if negb (byte_is (is_byte 92) text index && byte_is (is_byte 92) text (index + 1))
     || (String.length text <=? index + 2)%nat
  then false
  else
    match find_stop false is_slash (str_drop (index + 2) text) with
    | None => false
    | Some server_separator =>
        if (server_separator =? 0)%nat then false
        else
          let share_start := index + 2 + server_separator + 1 in
          (share_start <? String.length text)%nat
          && negb (byte_is (one_of [92; 47; 32; 9]) text share_start)
    end.

Definition UNIX_PREFIXES : list string :=
  ["/srv/"; "/home/"; "/var/"; "/root/"; "/opt/"; "/etc/"; "/users/"; "/private/"].

Definition unix_path (text : string) (index : nat) : bool :=
  existsb (starts_with (str_drop index text)) UNIX_PREFIXES.

Definition is_path_boundary (text : string) (index : nat) : bool :=
  (index =? 0)%nat
  || byte_is (λ a, negb (is_ascii_alphanumeric a) && negb (one_of [95; 47; 92] a)) text (index - 1).

Definition path_ranges (text : string) : list (nat * nat) :=
  omap (λ index,
    if (negb (drive_path text index) && negb (is_unc_path text index)
        && negb (unix_path text index)) || negb (is_path_boundary text index)
    then None
    else Some (index, find_end true (one_of [44; 59; 38; 35; 41; 93; 125; 34; 39]) text index))
  (seq 0 (String.length text)).

Definition redact_sensitive_paths (text : string) : option string :=
  replace_ranges text PATH_REDACTED (rev (path_ranges text)).

(** ** The whole *)

Fixpoint redact_keys (keys : list string) (text : string) : option string :=
  match keys with
  | [] => Some text
  | key :: keys => text ← redact_key_value text key; redact_keys keys text
  end.

Definition quoted_mes : string :=
  byte_str (Ascii.ascii_of_nat 34) +:+ "mes" +:+ byte_str (Ascii.ascii_of_nat 34).

Definition holds_chat (lowered : string) : bool :=
  contains lowered "prompt" || contains lowered "chat_metadata"
  || contains lowered "content_original" || contains lowered quoted_mes.

(** The outer [None] is a panic. *)
Definition redact_detail_run (input : string) : option (option string) :=
  if is_blank input then Some None
  else
    value ← redact_keys SENSITIVE_KEYS input;
    value ← redact_url_userinfo value;
    value ← redact_token_like value;
    value ← redact_sensitive_paths value;
    let value := chars_take 300 value in
    Some (if holds_chat (to_ascii_lowercase value) then None
          else if is_blank value then None else Some value).

(** ** The loops finish *)

Lemma skip_whitespace_ge text offset : offset <= skip_whitespace text offset.
Proof. unfold skip_whitespace. lia. Qed.

Lemma take_byte_next p text offset a next :
  take_byte p text offset = Some (a, next) -> next = S offset.
Proof.
  unfold take_byte. destruct (first_byte _) as [b|]; simpl; [| done].
  destruct (p b); simpl; congruence.
Qed.

Lemma locate_value_start_ge text key_end vs q :
  locate_value_start text key_end = Some (vs, q) -> key_end < vs.
Proof.
  unfold locate_value_start. pose proof (skip_whitespace_ge text key_end) as H1.
  set (c1 := skip_whitespace text key_end) in *.
  destruct (take_byte is_quote text c1) as [[b n]|] eqn:Hq.
  - apply take_byte_next in Hq as ->. pose proof (skip_whitespace_ge text (S c1)) as H2.
    destruct (take_byte (one_of [58; 61]) text (skip_whitespace text (S c1))) as [[d n]|] eqn:Hd; simpl; [| done].
    apply take_byte_next in Hd as ->.
    pose proof (skip_whitespace_ge text (S (skip_whitespace text (S c1)))) as H3.
    destruct (take_byte is_quote text (skip_whitespace text _)) as [[e n]|] eqn:He;
      (intros Heq; injection Heq as <- _); [| lia].
    apply take_byte_next in He. lia.
  - destruct (take_byte (one_of [58; 61]) text c1) as [[d n]|] eqn:Hd; simpl; [| done].
    apply take_byte_next in Hd as ->. pose proof (skip_whitespace_ge text (S c1)) as H3.
    destruct (take_byte is_quote text (skip_whitespace text _)) as [[e n]|] eqn:He;
      (intros Heq; injection Heq as <- _); [| lia].
    apply take_byte_next in He. lia.
Qed.

Lemma str_drop_length n s : String.length (str_drop n s) = String.length s - n.
Proof. revert s. induction n as [|n IH]; intros [|a s]; simpl; auto. Qed.

Lemma replace_range_length text start end_ w text' :
  replace_range text start end_ w = Some text' ->
  start <= end_ /\ end_ <= String.length text
  /\ String.length text' = start + String.length w + (String.length text - end_).
Proof.
  unfold replace_range. destruct (_ && _) eqn:Hg; [| done]. intros [= <-].
  rewrite !andb_true_iff, !Nat.leb_le in Hg. destruct Hg as [[[H1 H2] _] _].
  split_and!; [done | done |]. rewrite !app_string_length, str_take_length, str_drop_length. lia.
Qed.

(** Every round shortens what is left to search. *)
Lemma key_value_round_shrinks text key offset text' offset' :
  key <> "" -> key_value_round text key offset = Some (Some (text', offset')) ->
  String.length text' - offset' < String.length text - offset.
Proof.
  intros Hk. unfold key_value_round. destruct (Nat.ltb_spec offset (String.length text)); [| by simpl].
  assert (0 < String.length key) by (destruct key; [done | simpl; lia]). simpl negb. cbv iota.
  destruct (find_case_insensitive _ _) as [relative|]; [| done].
  destruct (negb _); [intros [= <- <-]; lia |].
  destruct (locate_value_start _ _) as [[vs q]|] eqn:Hl; [| intros [= <- <-]; lia].
  apply locate_value_start_ge in Hl.
  destruct (Nat.leb_spec (value_end_of text key vs q) vs); [intros [= <- <-]; lia |].
  destruct (replace_range _ _ _ _) as [t|] eqn:Hr; simpl; [| done]. intros [= <- <-].
  apply replace_range_length in Hr. change (String.length REDACTED) with 10 in *. lia.
Qed.

Lemma key_value_loop_fuel fuel fuel' text key offset :
  key <> "" -> String.length text - offset < fuel -> String.length text - offset < fuel' ->
  key_value_loop fuel text key offset = key_value_loop fuel' text key offset.
Proof.
  intros Hk. revert fuel' text offset. induction fuel as [|fuel IH]; intros [|fuel'] text offset H1 H2;
    try lia. simpl.
  destruct (key_value_round text key offset) as [[[text' offset']|]|] eqn:Hr; simpl; try done.
  apply key_value_round_shrinks in Hr; [| done]. apply IH; lia.
Qed.

(** The rounds given to the loop of [redact_key_value] are enough. *)
Lemma redact_key_value_fuel fuel text key :
  key <> "" -> String.length text < fuel ->
  key_value_loop fuel text key 0 = redact_key_value text key.
Proof. intros Hk Hf. apply key_value_loop_fuel; [done | lia..]. Qed.

Lemma userinfo_round_shrinks text offset text' offset' :
  userinfo_round text offset = Some (Some (text', offset')) ->
  String.length text' - offset' < String.length text - offset.
Proof.
  unfold userinfo_round. destruct (Nat.ltb_spec offset (String.length text)); [| by simpl].
  simpl negb. cbv iota. destruct (str_find _ _) as [relative|]; [| done].
  set (authority_start := offset + relative + 3). unfold find_end.
  destruct (find_stop false _ _) as [at_offset|]; [| intros [= <- <-]; lia].
  destruct (Nat.ltb_spec authority_start (authority_start + at_offset)); [| intros [= <- <-]; lia].
  destruct (replace_range _ _ _ _) as [t|] eqn:Hr; simpl; [| done]. intros [= <- <-].
  apply replace_range_length in Hr. change (String.length REDACTED) with 10 in *. lia.
Qed.

Lemma redact_url_userinfo_fuel fuel text :
  String.length text < fuel -> userinfo_loop fuel text 0 = redact_url_userinfo text.
Proof.
  intros Hf. unfold redact_url_userinfo.
  assert (forall fuel fuel' text offset,
    String.length text - offset < fuel -> String.length text - offset < fuel' ->
    userinfo_loop fuel text offset = userinfo_loop fuel' text offset) as Hloop; [| apply Hloop; lia].
  clear. intros fuel. induction fuel as [|fuel IH]; intros [|fuel'] text offset H1 H2; try lia. simpl.
  destruct (userinfo_round text offset) as [[[text' offset']|]|] eqn:Hr; simpl; try done.
  apply userinfo_round_shrinks in Hr. apply IH; lia.
Qed.

(** ** No long token is left *)

Fixpoint any_byte (p : Ascii.ascii -> bool) (s : string) : bool :=
  match s with EmptyString => false | String a r => p a || any_byte p r end.

(** What counts as a secret: 32 token characters or more, with a letter and a digit. *)
Definition secret_token (t : string) : bool :=
  (32 <=? String.length t)%nat && any_byte is_ascii_alphabetic t && any_byte is_ascii_digit t.

(** The longest token at the start of [s]. *)
Fixpoint token_prefix (s : string) : string :=
  match s with
  | EmptyString => EmptyString
  | String a r => if is_token a then String a (token_prefix r) else EmptyString
  end.

(** Some position of [s] starts a secret token. *)
Fixpoint leaks_token (s : string) : bool :=
  secret_token (token_prefix s)
  || match s with EmptyString => false | String _ r => leaks_token r end.

(** The replacement as one pass; [acc] is the token being read. *)
Definition hide (token : string) : string := if secret_token token then REDACTED else token.

Fixpoint hide_tokens (acc s : string) : string :=
  match s with
  | EmptyString => hide acc
  | String a r =>
      if is_token a then hide_tokens (acc +:+ byte_str a) r
      else hide acc +:+ String a (hide_tokens "" r)
  end.

Lemma token_prefix_app s a t : is_token a = false -> token_prefix (s +:+ String a t) = token_prefix s.
Proof.
  intros Ha. induction s as [|b s IH]; rewrite ?app_string_cons; simpl.
  - change (token_prefix (String a t) = ""). simpl. by rewrite Ha.
  - by rewrite IH.
Qed.

Lemma leaks_app s a t :
  is_token a = false -> leaks_token (s +:+ String a t) = leaks_token s || leaks_token t.
Proof.
  intros Ha. induction s as [|b s IH].
  - change (leaks_token (String a t) = leaks_token t). simpl. by rewrite Ha.
  - rewrite app_string_cons. simpl. rewrite (token_prefix_app s a t Ha), IH. by rewrite orb_assoc.
Qed.

Lemma any_byte_app p s t : any_byte p (s +:+ t) = any_byte p s || any_byte p t.
Proof. induction s as [|a s IH]; [done |]. rewrite app_string_cons. simpl. by rewrite IH, orb_assoc. Qed.

Lemma token_prefix_all s : all_bytes is_token s = true -> token_prefix s = s.
Proof.
  induction s as [|a s IH]; simpl; [done |]. intros [Ha Hs]%andb_true_iff. by rewrite Ha, IH.
Qed.

Lemma secret_token_suffix a s : secret_token s = true -> secret_token (String a s) = true.
Proof.
  unfold secret_token. cbn [any_byte String.length]. rewrite !andb_true_iff, !Nat.leb_le.
  intros [[H1 H2] H3]. rewrite H2, H3, !orb_true_r. split_and!; [lia | done..].
Qed.

Lemma kept_token_does_not_leak s :
  all_bytes is_token s = true -> secret_token s = false -> leaks_token s = false.
Proof.
  induction s as [|a s IH]; intros Hs Hn; [done |].
  cbn [leaks_token]. rewrite (token_prefix_all _ Hs), Hn. simpl.
  simpl in Hs. apply andb_true_iff in Hs as [_ Hs]. apply IH; [done |].
  destruct (secret_token s) eqn:E; [| done]. by rewrite (secret_token_suffix a s E) in Hn.
Qed.

Lemma hide_does_not_leak t : all_bytes is_token t = true -> leaks_token (hide t) = false.
Proof.
  intros Ht. unfold hide. destruct (secret_token t) eqn:E; [reflexivity |].
  by apply kept_token_does_not_leak.
Qed.

Lemma hide_tokens_safe acc s :
  all_bytes is_token acc = true -> leaks_token (hide_tokens acc s) = false.
Proof.
  revert acc. induction s as [|a s IH]; intros acc Hacc; simpl; [by apply hide_does_not_leak |].
  destruct (is_token a) eqn:Ha.
  - apply IH. rewrite all_bytes_app, Hacc. simpl. by rewrite Ha.
  - rewrite leaks_app by done. by rewrite hide_does_not_leak, IH.
Qed.

(** *** The replacement by ranges is the one-pass replacement *)

Lemma replace_ranges_app text w l1 l2 :
  replace_ranges text w (l1 ++ l2) = (t ← replace_ranges text w l1; replace_ranges t w l2).
Proof.
  revert text. induction l1 as [|[s e] l1 IH]; intros text; simpl; [done |].
  destruct (replace_range text s e w); simpl; [apply IH | done].
Qed.

Lemma byte_str_length a : String.length (byte_str a) = 1.
Proof. done. Qed.

(** The state the scan keeps for the token [acc] that starts at [start]. *)
Definition run_of (start : nat) (acc : string) : option (nat * bool * bool) :=
  match acc with
  | EmptyString => None
  | _ => Some (start, any_byte is_ascii_alphabetic acc, any_byte is_ascii_digit acc)
  end.

Lemma close_run_of start acc :
  close_run (run_of start acc) (start + String.length acc)
  = if secret_token acc then [(start, start + String.length acc)] else [].
Proof.
  destruct acc as [|a acc]; [reflexivity |]. unfold run_of, close_run, secret_token.
  by replace (start + String.length (String a acc) - start) with (String.length (String a acc)) by lia.
Qed.

Lemma run_of_snoc start acc a :
  (let '(s, al, di) := default (start + String.length acc, false, false) (run_of start acc) in
   Some (s, al || is_ascii_alphabetic a, di || is_ascii_digit a))
  = run_of start (acc +:+ byte_str a).
Proof.
  destruct acc as [|b acc].
  - change (Some (start + 0, is_ascii_alphabetic a, is_ascii_digit a) = run_of start (byte_str a)).
    simpl. by rewrite Nat.add_0_r, !orb_false_r.
  - rewrite app_string_cons. unfold run_of. cbn [default from_option any_byte].
    rewrite !any_byte_app. simpl. by rewrite !orb_false_r, !orb_assoc.
Qed.

(** A byte at which a replacement may start or end. *)
Definition edge (s : string) : bool :=
  match first_byte s with Some a => negb (is_cont a) | None => true end.

Lemma boundary_edge pre s : edge s = true -> is_char_boundary (pre +:+ s) (String.length pre) = true.
Proof.
  intros He. unfold is_char_boundary. rewrite str_drop_exact. unfold edge in He.
  destruct s as [|a s]; simpl in *; [| by rewrite He, orb_true_r].
  by rewrite app_string_nil, Nat.eqb_refl, orb_true_r.
Qed.

Lemma replace_exact pre t s w :
  edge (t +:+ s) = true -> edge s = true ->
  replace_range (pre +:+ t +:+ s) (String.length pre) (String.length pre + String.length t) w
  = Some (pre +:+ w +:+ s).
Proof.
  intros H1 H2. unfold replace_range.
  pose proof (boundary_edge pre _ H1) as Hb1. pose proof (boundary_edge (pre +:+ t) s H2) as Hb2.
  rewrite app_string_length, <- app_string_assoc in Hb2. rewrite Hb1, Hb2, !andb_true_r.
  rewrite !app_string_length. destruct (_ && _) eqn:Hg.
  - rewrite str_take_exact. do 3 f_equal.
    rewrite app_string_assoc, <- app_string_length. by rewrite str_drop_exact.
  - rewrite andb_false_iff, !Nat.leb_gt in Hg. lia.
Qed.

(** No token character is followed by a continuation byte: so it is in UTF-8. *)
Fixpoint well_edged (s : string) : bool :=
  match s with
  | EmptyString => true
  | String a r => (negb (is_token a) || edge r) && well_edged r
  end.

Lemma is_token_edge a s : is_token a = true -> edge (String a s) = true.
Proof. unfold edge. simpl. by destruct a as [[] [] [] [] [] [] [] []]. Qed.

Lemma edge_token acc s : all_bytes is_token acc = true -> edge s = true -> edge (acc +:+ s) = true.
Proof.
  destruct acc as [|a acc]; [done |]. rewrite app_string_cons. simpl.
  intros [Ha _]%andb_true_iff _. by apply is_token_edge.
Qed.

Lemma token_ranges_hide pre acc s :
  well_edged s = true -> all_bytes is_token acc = true -> (acc = "" \/ edge s = true) ->
  replace_ranges (pre +:+ acc +:+ s) REDACTED
    (rev (token_ranges (String.length pre + String.length acc) (run_of (String.length pre) acc) s))
  = Some (pre +:+ hide_tokens acc s).
Proof.
  revert pre acc. induction s as [|a s IH]; intros pre acc Hw Hacc He.
  - cbn [token_ranges hide_tokens]. rewrite close_run_of. unfold hide.
    destruct (secret_token acc); [| by rewrite app_string_nil].
    cbn [rev app replace_ranges]. rewrite (replace_exact pre acc "" REDACTED); [by rewrite app_string_nil |..];
      [| done]. by apply edge_token.
  - cbn [well_edged] in Hw. apply andb_true_iff in Hw as [Ha Hw]. cbn [token_ranges hide_tokens].
    destruct (is_token a) eqn:Ht; simpl negb in Ha; simpl orb in Ha.
    + replace (let '(start, has_alpha, has_digit) := _ in _)
        with (token_ranges (S (String.length pre + String.length acc))
                (run_of (String.length pre) (acc +:+ byte_str a)) s)
        by (rewrite <- run_of_snoc; by destruct (default _ _) as [[? ?] ?]).
      replace (acc +:+ String a s) with ((acc +:+ byte_str a) +:+ s) by (by rewrite <- app_string_assoc).
      replace (S (String.length pre + String.length acc))
        with (String.length pre + String.length (acc +:+ byte_str a))
        by (rewrite app_string_length, byte_str_length; lia).
      apply IH; [done | | by right]. rewrite all_bytes_app, Hacc. simpl. by rewrite Ht.
    + rewrite rev_app_distr, replace_ranges_app.
      specialize (IH (pre +:+ acc +:+ byte_str a) "" Hw eq_refl (or_introl eq_refl)).
      rewrite !app_string_length, byte_str_length in IH. cbn [String.length run_of] in IH.
      replace (String.length pre + (String.length acc + 1) + 0)
        with (S (String.length pre + String.length acc)) in IH by lia.
      replace ((pre +:+ acc +:+ byte_str a) +:+ "" +:+ s) with (pre +:+ acc +:+ String a s) in IH
        by (by rewrite <- !app_string_assoc).
      rewrite IH. simpl mbind. rewrite close_run_of, <- !app_string_assoc. unfold hide.
      assert (forall t, edge (String a t) = edge (String a s)) as Hedge by done.
      destruct (secret_token acc) eqn:Hs; [| done].
      cbn [rev app replace_ranges]. change (byte_str a +:+ hide_tokens "" s) with (String a (hide_tokens "" s)).
      destruct He as [-> | He]; [done |].
      rewrite replace_exact; [done | | by rewrite Hedge].
      apply edge_token; [done | by rewrite Hedge].
Qed.

Lemma utf8_edge s : utf8_valid s = true -> edge s = true.
Proof.
  unfold edge. destruct s as [|a s]; [done |]. intros Hv. cbn [utf8_valid] in Hv. cbn [first_byte].
  destruct (in_range 0 127 a) eqn:H0; [by destruct a as [[] [] [] [] [] [] [] []] |].
  destruct (is_cont a) eqn:Hc; [| done]. exfalso.
  assert (utf8_lead2 a = false /\ (forall b, utf8_lead3 a b = false) /\ (forall b, utf8_lead4 a b = false))
    as (H2 & H3 & H4).
  { unfold utf8_lead2, utf8_lead3, utf8_lead4, is_cont, in_range in *.
    rewrite !andb_true_iff, !N.leb_le in Hc. destruct Hc.
    assert (forall lo hi, (192 <= lo)%N -> (lo <=? byte_val a)%N && (byte_val a <=? hi)%N = false) as Hno.
    { intros lo hi Hlo. apply andb_false_iff. left. apply N.leb_gt. lia. }
    rewrite !Hno by lia. by split_and!. }
  destruct s as [|b s]; [done |]. rewrite H2 in Hv. simpl in Hv. destruct s as [|c s]; [done |].
  rewrite H3 in Hv. simpl in Hv. destruct s as [|d s]; [done |]. by rewrite H4 in Hv.
Qed.

Lemma utf8_well_edged s : utf8_valid s = true -> well_edged s = true.
Proof.
  assert (forall a, is_cont a = true -> is_token a = false) as Hct
    by (by intros [[] [] [] [] [] [] [] []]).
  assert (forall a, is_token a = true -> in_range 0 127 a = true) as Hta
    by (by intros [[] [] [] [] [] [] [] []]).
  remember (String.length s) as n eqn:Hn. revert s Hn.
  induction n as [n IH] using lt_wf_ind. intros [|a s] -> Hv; [done |]. cbn [utf8_valid] in Hv.
  assert (forall t, (String.length t < S (String.length s))%nat -> utf8_valid t = true ->
    well_edged t = true) as IH' by (intros t Ht; by eapply IH).
  cbn [well_edged]. destruct (in_range 0 127 a) eqn:H0.
  { rewrite (IH' s), (utf8_edge s) by (done || lia). by rewrite orb_true_r. }
  assert (is_token a = false) as ->.
  { destruct (is_token a) eqn:E; [| done]. by rewrite (Hta _ E) in H0. }
  simpl. destruct s as [|b s]; [done |].
  destruct (utf8_lead2 a && is_cont b) eqn:H2.
  { apply andb_true_iff in H2 as [_ H2]. simpl. rewrite (Hct _ H2). simpl.
    apply IH'; [simpl; lia | done]. }
  destruct s as [|c s]; [done |]. destruct (utf8_lead3 a b && is_cont c) eqn:H3.
  { apply andb_true_iff in H3 as [H3 Hc]. simpl. rewrite (Hct _ Hc). simpl.
    assert (is_token b = false) as ->.
    { apply Hct. unfold utf8_lead3, is_cont, in_range in *.
      rewrite !orb_true_iff, !andb_true_iff, !N.leb_le in *. lia. }
    simpl. apply IH'; [simpl; lia | done]. }
  destruct s as [|d s]; [done |]. rewrite !andb_true_iff in Hv. destruct Hv as [[[H4 Hc] Hd] Hv].
  simpl. rewrite (Hct _ Hc), (Hct _ Hd). simpl.
  assert (is_token b = false) as ->.
  { apply Hct. unfold utf8_lead4, is_cont, in_range in *.
    rewrite !orb_true_iff, !andb_true_iff, !N.leb_le in *. lia. }
  simpl. apply IH'; [simpl; lia | done].
Qed.

(** C39: long tokens never get through.  On every UTF-8 text [redact_token_like]
    returns (it does not panic), and its result has no place at which 32 or more
    consecutive token characters with a letter and a digit among them start; text
    without such a token is returned unchanged. *)
Theorem redacted_text_holds_no_secret_token text :
  utf8_valid text = true ->
  exists out, redact_token_like text = Some out /\ leaks_token out = false
    /\ (leaks_token text = false -> out = text).
Proof.
  intros Hv. exists (hide_tokens "" text).
  pose proof (token_ranges_hide "" "" text (utf8_well_edged _ Hv) eq_refl (or_introl eq_refl)) as Hr.
  split_and!; [exact Hr | by apply hide_tokens_safe |]. intros Hl.
  enough (forall acc s, leaks_token (acc +:+ s) = false -> all_bytes is_token acc = true ->
    hide_tokens acc s = acc +:+ s) as Hsame by (by apply (Hsame "")).
  clear. intros acc s. revert acc. induction s as [|a s IH]; intros acc Hl Hacc; cbn [hide_tokens].
  - rewrite app_string_nil in *. unfold hide. destruct acc as [|b acc]; [done |].
    cbn [leaks_token] in Hl. rewrite (token_prefix_all _ Hacc) in Hl.
    by apply orb_false_iff in Hl as [-> _].
  - destruct (is_token a) eqn:Ha.
    + rewrite IH; [by rewrite <- app_string_assoc | by rewrite <- app_string_assoc |].
      rewrite all_bytes_app, Hacc. simpl. by rewrite Ha.
    + rewrite leaks_app in Hl by done. apply orb_false_iff in Hl as [H1 H2].
      rewrite (IH "" H2 eq_refl). unfold hide.
      assert (secret_token acc = false) as ->; [| done].
      destruct acc as [|b acc]; [done |]. cbn [leaks_token] in H1.
      rewrite (token_prefix_all _ Hacc) in H1. by apply orb_false_iff in H1 as [-> _].
Qed.

Lemma redacted_text_holds_no_secret_token_witness :
  exists out, redact_token_like "id abcdefghijklmnopqrstuvwxyz0123456789 end" = Some out
    /\ leaks_token out = false.
Proof.
  destruct (redacted_text_holds_no_secret_token "id abcdefghijklmnopqrstuvwxyz0123456789 end" eq_refl)
    as (out & H1 & H2 & _). exists out. split; [exact H1 | exact H2].
Defined.

(** ** The bound, and the panic *)

Lemma chars_take_count n s : chars_count (chars_take n s) <= n.
Proof.
  revert n. induction s as [|a s IH]; intros n; simpl; [lia |]. destruct (is_cont a) eqn:Ha; simpl.
  - by rewrite Ha.
  - destruct n as [|n]; simpl; [lia |]. rewrite Ha. specialize (IH n). lia.
Qed.

(** A detail that is shown has at most 300 characters, is not blank, and holds
    no part of a chat or a prompt (none of the four markers); but redaction can
    panic: two sensitive paths in one word give overlapping ranges, and the second
    replacement then reaches behind the text the first one shortened. *)
Theorem redacted_details_are_bounded :
  (forall input out, redact_detail_run input = Some (Some out) ->
     chars_count out <= 300 /\ is_blank out = false
     /\ holds_chat (to_ascii_lowercase out) = false)
  /\ redact_detail_run "PATH=/home/a:/opt/bbbbbbbbbbbbbbbb" = None.
Proof.
  split; [| vm_compute; reflexivity]. intros input out. unfold redact_detail_run.
  destruct (is_blank input); [done |].
  destruct (redact_keys _ _) as [v1|]; simpl; [| done].
  destruct (redact_url_userinfo v1) as [v2|]; simpl; [| done].
  destruct (redact_token_like v2) as [v3|]; simpl; [| done].
  destruct (redact_sensitive_paths v3) as [v4|]; simpl; [| done]. intros [= Hout].
  destruct (holds_chat _) eqn:Hh; [done |]. destruct (is_blank _) eqn:Hb; [done |].
  injection Hout as <-. split_and!; [apply chars_take_count | done | done].
Qed.
