(* ===== verification/TelegramText.v ===== *)
(** * Text for Telegram ([modules/telegram/mod.rs], [modules/telegram/stream.rs])

    [TelegramModule::split_text], which cuts a reply into messages Telegram
    accepts, [chunk_text], and the throttling of streamed edits
    ([StreamPolicy], [StreamState]).  Lengths are UTF-16 code units, offsets are
    byte offsets of the UTF-8 text.  An [Instant] is its distance in
    milliseconds from some origin. *)

From S2P Require Import Prelude Text Redaction.
From Stdlib Require Import Lia.

(** ** UTF-16 lengths of UTF-8 text *)

(** What one byte adds to [encode_utf16().count()]: a continuation byte nothing,
    the lead of a four-byte character two units, any other lead one. *)
Definition byte_units (a : Ascii.ascii) : nat :=
  if is_cont a then 0 else if in_range 240 255 a then 2 else 1.

Fixpoint utf16_count (s : string) : nat :=
  match s with EmptyString => 0 | String a r => byte_units a + utf16_count r end.

(** ** [split_text] *)

(** The [for (index, ch) in remaining.char_indices()] loop: the offset of the
    first character that does not fit. *)
Fixpoint scan_limit (max_length units index : nat) (s : string) : option nat :=
  match s with
  | EmptyString => None
  | String a r =>
      let next := units + byte_units a in
      if max_length <? next then Some index else scan_limit max_length next (S index) r
  end.

(** [char_indices().nth(1)]: where the second character starts. *)
Fixpoint second_char (index : nat) (s : string) : nat :=
  match s with
  | EmptyString => index
  | String a r => if is_cont a then second_char (S index) r else index
  end.

Definition byte_limit (remaining : string) (max_length : nat) : nat :=
  let limit := default (String.length remaining) (scan_limit max_length 0 0 remaining) in
  if limit =? 0 then second_char 1 (str_drop 1 remaining) else limit.

Definition newline : string := byte_str (Ascii.ascii_of_nat 10).

Definition split_point (remaining : string) (max_length : nat) : nat :=
  let limit := byte_limit remaining max_length in
  let prefix := str_take limit remaining in
  let split := default 0 (str_rfind (newline +:+ newline) prefix) in
  let split :=
    if utf16_count (str_take split prefix) <? max_length / 2
    then default limit (str_rfind newline prefix) else split in
  if utf16_count (str_take split prefix) <? max_length / 2 then limit else split.

(** One turn of the [while] loop: what is pushed and what remains. *)
Definition split_round (remaining : string) (max_length : nat) : list string * string :=
  let split := split_point remaining max_length in
  let chunk := str_take split remaining in
  (if is_blank chunk then [] else [trim_end chunk], trim_start (str_drop split remaining)).

(** The loop; [None] when [fuel] turns were not enough. *)
Fixpoint split_loop (fuel : nat) (max_length : nat) (chunks : list string) (remaining : string)
  : option (list string) :=
  if utf16_count remaining <=? max_length
  then Some (chunks ++ (if remaining =?= "" then [] else [remaining]))
  else match fuel with
       | 0 => None
       | S fuel =>
           let '(pushed, rest) := split_round remaining max_length in
           split_loop fuel max_length (chunks ++ pushed) rest
       end.

Definition split_text (fuel : nat) (text : string) (max_length : nat) : option (list string) :=
  let max_length := Nat.max max_length 1 in
  if utf16_count text <=? max_length then Some [text]
  else split_loop fuel max_length [] text.

Definition chunk_text (fuel : nat) (text : string) (chunk_size : nat) : option (list string) :=
  filter (λ item, is_blank item = false) <$> split_text fuel text (Nat.max chunk_size 1).

(** ** Throttled rendering *)

Record StreamPolicy := MkStreamPolicy {
  min_interval_ms : Z;
  min_delta_chars : nat;
  first_render_chars : nat;
  chunk_size : nat;
}.

Definition StreamPolicy_default : StreamPolicy := MkStreamPolicy 5000 700 300 3200.

Record StreamState := MkStreamState {
  last_rendered : string;
  last_render_at : option Z;
  last_committed_len : nat;
}.

Definition StreamState_new : StreamState := MkStreamState "" None 0.

Definition stream_commit (full_text : string) (now : Z) : StreamState :=
  MkStreamState full_text (Some now) (chars_count full_text).

(** [duration_since] saturates at zero. *)
Definition should_render (self : StreamState) (full_text : string) (policy : StreamPolicy) (now : Z)
  : bool * StreamState :=
  if (full_text =?= "") || (full_text =?= last_rendered self) then (false, self)
  else if (last_committed_len self =? 0) && (chars_count full_text <? first_render_chars policy)
  then (false, self)
  else
    let delta := chars_count full_text - last_committed_len self in
    match last_render_at self with
    | Some last =>
        if (Z.max 0 (now - last) <? min_interval_ms policy)%Z && (delta <? min_delta_chars policy)
        then (false, self) else (true, stream_commit full_text now)
    | None => (true, stream_commit full_text now)
    end.

Definition force_final (self : StreamState) (full_text : string) (now : Z) : bool * StreamState :=
  if (full_text =?= "") || (full_text =?= last_rendered self) then (false, self)
  else (true, stream_commit full_text now).

(** A stream of growing texts, then the final one: what is rendered, in order. *)
Fixpoint stream_run (policy : StreamPolicy) (self : StreamState) (updates : list (string * Z))
  : list (string * Z) * StreamState :=
  match updates with
  | [] => ([], self)
  | (text, now) :: updates =>
      let '(render, self) := should_render self text policy now in
      let '(rendered, self) := stream_run policy self updates in
      (if render then (text, now) :: rendered else rendered, self)
  end.

(** ** Lemmas on lengths and blanks *)

Lemma utf16_count_app s t : utf16_count (s +:+ t) = utf16_count s + utf16_count t.
Proof. induction s as [|a s IH]; [done |]. rewrite app_string_cons; simpl. lia. Qed.

Lemma byte_units_le_2 a : byte_units a <= 2.
Proof. unfold byte_units. repeat case_match; lia. Qed.

Lemma utf16_count_take n s : utf16_count (str_take n s) <= utf16_count s.
Proof. rewrite <- (take_drop_string n s) at 2. rewrite utf16_count_app. lia. Qed.

(** Decides how [trim_start] goes on after bytes already looked at. *)
Ltac blanks := repeat match goal with H : ws1 _ = _ |- _ => rewrite H | H : ws2 _ _ = _ |- _ => rewrite H
                                   | H : ws3 _ _ _ = _ |- _ => rewrite H end; reflexivity.

Lemma trim_start_split s : exists w, s = w +:+ trim_start s /\ is_blank w = true.
Proof.
  induction s as [s IH] using (induction_ltof1 _ String.length).
  assert (Hskip : forall w r, s = w +:+ r -> String.length w > 0 -> trim_start s = trim_start r ->
            (forall t, trim_start (w +:+ t) = trim_start t) ->
            exists w', s = w' +:+ trim_start s /\ is_blank w' = true).
  { intros w r -> Hl Ht Hw. destruct (IH r) as (w' & Hr & Hb).
    { unfold ltof. rewrite app_string_length. lia. }
    exists (w +:+ w'). rewrite Ht, <- app_string_assoc, <- Hr. split; [done |].
    unfold is_blank. by rewrite Hw. }
  assert (Hstay : trim_start s = s -> exists w', s = w' +:+ trim_start s /\ is_blank w' = true).
  { intros ->. by exists "". }
  destruct s as [|a [|b [|c r]]]; simpl in *.
  - by apply Hstay.
  - destruct (ws1 a) eqn:E; [| by apply Hstay].
    apply (Hskip (String a "") ""); simpl; [done | lia | done | intros t; cbn; blanks].
  - destruct (ws1 a) eqn:E; [| destruct (ws2 a b) eqn:E2; [| by apply Hstay]].
    + apply (Hskip (String a "") (String b "")); simpl;
        [done | lia | done | intros t; cbn; blanks].
    + apply (Hskip (String a (String b "")) ""); simpl;
        [done | lia | done | intros t; cbn; blanks].
  - destruct (ws1 a) eqn:E; [| destruct (ws2 a b) eqn:E2; [| destruct (ws3 a b c) eqn:E3; [| by apply Hstay]]].
    + apply (Hskip (String a "") (String b (String c r))); simpl;
        [done | lia | done | intros t; cbn; blanks].
    + apply (Hskip (String a (String b "")) (String c r)); simpl;
        [done | lia | done | intros t; cbn; blanks].
    + apply (Hskip (String a (String b (String c ""))) r); simpl;
        [done | lia | done | intros t; cbn; blanks].
Qed.

Lemma trim_start_length s : String.length (trim_start s) <= String.length s.
Proof.
  destruct (trim_start_split s) as (w & Hs & _).
  apply (f_equal String.length) in Hs. rewrite app_string_length in Hs. lia.
Qed.

Lemma trim_end_split s : exists w, s = trim_end s +:+ w /\ is_blank w = true.
Proof.
  induction s as [|a s (w & Hs & Hw)]; [by exists "" |]. cbn [trim_end].
  destruct (is_blank (String a s)) eqn:E; [by exists (String a s) |].
  exists w. by rewrite app_string_cons, <- Hs.
Qed.


Lemma prefix_length p s : String.prefix p s = true -> String.length p <= String.length s.
Proof.
  revert s. induction p as [|a p IH]; intros [|b s]; simpl; try lia; try done.
  case_match; [| done]. intros Hp%IH. lia.
Qed.

Lemma str_rfind_bound p s n : str_rfind p s = Some n -> n + String.length p <= String.length s.
Proof.
  revert n. induction s as [|a s IH]; intros n; cbn [str_rfind].
  - destruct (String.prefix p "") eqn:E; intros; simplify_eq. by apply prefix_length in E.
  - destruct (str_rfind p s) as [k|]; [intros [= <-]; specialize (IH k eq_refl); simpl; lia |].
    destruct (String.prefix p (String a s)) eqn:E; intros; simplify_eq. by apply prefix_length in E.
Qed.

(** ** One turn of the loop *)

Lemma scan_limit_spec max_length units index s :
  units <= max_length ->
  match scan_limit max_length units index s with
  | Some i => exists k, i = index + k /\ k < String.length s
                        /\ units + utf16_count (str_take k s) <= max_length
                        /\ (k = 0 -> max_length < units + 2)
  | None => units + utf16_count s <= max_length
  end.
Proof.
  revert units index. induction s as [|a s IH]; intros units index Hu; simpl; [lia |].
  destruct (max_length <? units + byte_units a) eqn:E.
  - apply Nat.ltb_lt in E. exists 0. pose proof (byte_units_le_2 a). simpl. repeat split; lia.
  - apply Nat.ltb_ge in E. specialize (IH (units + byte_units a) (S index) E).
    destruct scan_limit as [i|]; [| lia].
    destruct IH as (k & -> & Hk & Hc & _). exists (S k). simpl. repeat split; lia.
Qed.

Lemma byte_limit_spec remaining max_length :
  2 <= max_length -> max_length < utf16_count remaining ->
  0 < byte_limit remaining max_length
  /\ byte_limit remaining max_length <= String.length remaining
  /\ utf16_count (str_take (byte_limit remaining max_length) remaining) <= max_length.
Proof.
  intros H2 Hlong. unfold byte_limit.
  pose proof (scan_limit_spec max_length 0 0 remaining ltac:(lia)) as Hs.
  destruct scan_limit as [i|]; simpl in *; [| lia].
  destruct Hs as (k & -> & Hk & Hc & H0). change (0 + k) with k.
  destruct (k =? 0) eqn:E.
  - apply Nat.eqb_eq in E. specialize (H0 E). lia.
  - apply Nat.eqb_neq in E. split; [lia |]. split; [lia |]. exact Hc.
Qed.

Lemma str_take_take n m s : n <= m -> str_take n (str_take m s) = str_take n s.
Proof.
  revert m s. induction n as [|n IH]; intros [|m] [|a s] H; simpl; try done; try lia.
  rewrite IH by lia. done.
Qed.

Lemma split_point_spec remaining max_length :
  2 <= max_length -> max_length < utf16_count remaining ->
  0 < split_point remaining max_length /\ split_point remaining max_length <= byte_limit remaining max_length.
Proof.
  intros H2 Hlong. destruct (byte_limit_spec _ _ H2 Hlong) as (Hpos & Hle & _).
  pose proof (Nat.div_str_pos max_length 2 ltac:(lia)) as Hhalf.
  set (limit := byte_limit remaining max_length) in *.
  set (prefix := str_take limit remaining).
  assert (Hfound : forall p n, str_rfind p prefix = Some n -> n <= limit).
  { intros p n Hn%str_rfind_bound. unfold prefix in Hn. rewrite str_take_length in Hn. lia. }
  unfold split_point. fold limit. fold prefix. cbv zeta.
  match goal with |- context [str_take ?x prefix] =>
    lazymatch x with default 0 _ => set (first := x) end end.
  set (second := if _ <? _ then default limit (str_rfind newline prefix) else first).
  assert (Hsecond : second <= limit).
  { unfold second, first. case_match.
    - destruct (str_rfind newline prefix) as [n|] eqn:E; simpl; [by apply (Hfound _ _ E) | lia].
    - destruct (str_rfind (newline +:+ newline) prefix) as [n|] eqn:E; simpl; [by apply (Hfound _ _ E) | lia]. }
  destruct (utf16_count (str_take second prefix) <? max_length / 2) eqn:E; [lia |].
  apply Nat.ltb_ge in E. split; [| done].
  destruct second; cbn [str_take utf16_count] in E; lia.
Qed.

(** ** [split_text] is correct *)

(** [pieces text chunks]: the chunks are consecutive parts of the text, in order,
    and only blanks lie between them. *)
Inductive pieces : string -> list string -> Prop :=
| pieces_end w : is_blank w = true -> pieces w []
| pieces_next w chunk rest chunks :
    is_blank w = true -> pieces rest chunks -> pieces (w +:+ chunk +:+ rest) (chunk :: chunks).

Lemma is_blank_app w v : is_blank w = true -> is_blank v = true -> is_blank (w +:+ v) = true.
Proof.
  unfold is_blank. intros Hw Hv. apply bool_decide_eq_true_1 in Hw, Hv. apply bool_decide_eq_true_2.
  revert Hw. induction w as [w IH] using (induction_ltof1 _ String.length). unfold ltof in IH.
  destruct w as [|a w]; [done |]. rewrite app_string_cons. cbn [trim_start].
  destruct (ws1 a); [apply IH; simpl; lia |].
  destruct w as [|b w]; [done |]. rewrite app_string_cons.
  destruct (ws2 a b); [apply IH; simpl; lia |].
  destruct w as [|c w]; [done |]. rewrite app_string_cons.
  destruct (ws3 a b c); [apply IH; simpl; lia | done].
Qed.

Lemma pieces_blank w text chunks : is_blank w = true -> pieces text chunks -> pieces (w +:+ text) chunks.
Proof.
  intros Hw H. destruct H as [v Hv | v chunk rest chunks Hv H].
  - apply pieces_end. by apply is_blank_app.
  - rewrite app_string_assoc. apply pieces_next; [by apply is_blank_app | done].
Qed.

Lemma pieces_round remaining max_length chunks :
  let '(pushed, rest) := split_round remaining max_length in
  pieces rest chunks -> pieces remaining (pushed ++ chunks).
Proof.
  unfold split_round. set (n := split_point remaining max_length). intros H.
  destruct (trim_start_split (str_drop n remaining)) as (w & Hw & Hb).
  rewrite <- (take_drop_string n remaining) at 1. rewrite Hw.
  pose proof (pieces_blank w _ _ Hb H) as Hrest.
  destruct (is_blank (str_take n remaining)) eqn:E; simpl.
  - by apply pieces_blank.
  - destruct (trim_end_split (str_take n remaining)) as (v & Hv & Hvb).
    rewrite Hv at 1. rewrite <- app_string_assoc.
    change (pieces ("" +:+ trim_end (str_take n remaining) +:+ (v +:+ w +:+ trim_start (str_drop n remaining)))
              (trim_end (str_take n remaining) :: chunks)).
    apply pieces_next; [done | by apply pieces_blank].
Qed.

Lemma round_shrinks remaining max_length :
  2 <= max_length -> max_length < utf16_count remaining ->
  String.length (split_round remaining max_length).2 < String.length remaining.
Proof.
  intros H2 Hlong. destruct (split_point_spec _ _ H2 Hlong) as [Hpos Hle].
  destruct (byte_limit_spec _ _ H2 Hlong) as (_ & Hlim & _).
  unfold split_round. cbn [snd]. set (n := split_point remaining max_length) in *.
  pose proof (trim_start_length (str_drop n remaining)).
  pose proof (f_equal String.length (take_drop_string n remaining)) as Hlen.
  rewrite app_string_length, str_take_length in Hlen. lia.
Qed.

Lemma round_bounded remaining max_length :
  2 <= max_length -> max_length < utf16_count remaining ->
  Forall (λ c, utf16_count c <= max_length /\ is_blank c = false) (split_round remaining max_length).1.
Proof.
  intros H2 Hlong. destruct (split_point_spec _ _ H2 Hlong) as [Hpos Hle].
  destruct (byte_limit_spec _ _ H2 Hlong) as (_ & Hlim & Hunits).
  unfold split_round. cbn [fst]. set (n := split_point remaining max_length) in *.
  destruct (is_blank (str_take n remaining)) eqn:E; constructor; [| constructor].
  destruct (trim_end_split (str_take n remaining)) as (v & Hv & Hvb). split.
  - pose proof (f_equal utf16_count Hv) as Hc. rewrite utf16_count_app in Hc.
    rewrite <- (str_take_take n (byte_limit remaining max_length) remaining Hle) in Hc.
    pose proof (utf16_count_take n (str_take (byte_limit remaining max_length) remaining)).
    rewrite (str_take_take n _ remaining Hle) in Hc, H. lia.
  - destruct (is_blank (trim_end (str_take n remaining))) eqn:E'; [| done].
    rewrite Hv, is_blank_app in E; done.
Qed.

Lemma split_loop_spec fuel max_length chunks remaining :
  2 <= max_length -> String.length remaining <= fuel ->
  exists more, split_loop fuel max_length chunks remaining = Some (chunks ++ more)
    /\ Forall (λ c, utf16_count c <= max_length) more /\ pieces remaining more.
Proof.
  intros H2. revert chunks remaining. induction fuel as [|fuel IH]; intros chunks remaining Hfuel;
    cbn [split_loop]; destruct (utf16_count remaining <=? max_length) eqn:E.
  1,3: apply Nat.leb_le in E; eexists; split; [done |]; case_bool_decide; subst;
    [split; [done | by apply pieces_end] |];
    split; [by constructor |]; rewrite <- (app_string_nil remaining) at 1;
    change (pieces ("" +:+ remaining +:+ "") [remaining]);
    apply pieces_next; [done | by apply pieces_end].
  - apply Nat.leb_gt in E. destruct remaining; simpl in *; lia.
  - apply Nat.leb_gt in E. pose proof (round_shrinks _ _ H2 E) as Hs.
    pose proof (round_bounded _ _ H2 E) as Hb.
    pose proof (λ cs, pieces_round remaining max_length cs) as Hp.
    destruct (split_round remaining max_length) as [pushed rest]. simpl in Hs, Hb.
    destruct (IH (chunks ++ pushed) rest ltac:(lia)) as (more & -> & Hm & Hpm).
    exists (pushed ++ more). rewrite <- app_assoc. split; [done |]. split.
    + apply Forall_app. split; [by eapply Forall_impl; [exact Hb | intros ? []] | done].
    + by apply Hp.
Qed.

Lemma pieces_filter text chunks :
  pieces text chunks -> pieces text (filter (λ item, is_blank item = false) chunks).
Proof.
  induction 1 as [w Hw | w chunk rest chunks Hw H IH]; [by apply pieces_end |].
  rewrite filter_cons. case_decide as E; [by apply pieces_next |].
  apply not_false_is_true in E. by do 2 (apply pieces_blank; [done |]).
Qed.

Lemma chunk_text_spec text size fuel :
  2 <= size -> String.length text <= fuel ->
  exists chunks, chunk_text fuel text size = Some chunks
    /\ Forall (λ c, utf16_count c <= size /\ is_blank c = false) chunks
    /\ pieces text chunks.
Proof.
  intros H2 Hfuel. unfold chunk_text, split_text.
  rewrite (Nat.max_l size 1), (Nat.max_l size 1) by lia.
  destruct (utf16_count text <=? size) eqn:E; simpl.
  - apply Nat.leb_le in E. eexists. split; [done |]. split.
    + rewrite filter_cons. case_decide; by repeat constructor.
    + apply pieces_filter. rewrite <- (app_string_nil text) at 1.
      change (pieces ("" +:+ text +:+ "") [text]). apply pieces_next; [done | by apply pieces_end].
  - apply Nat.leb_gt in E.
    destruct (split_loop_spec fuel size [] text H2 Hfuel) as (more & -> & Hm & Hp).
    eexists. split; [done |]. split; [| by apply pieces_filter].
    apply Forall_forall. intros c [Hc Hin]%list_elem_of_filter. rewrite Forall_forall in Hm. auto.
Qed.

(** C38: a reply is cut into messages faithfully.  For every text and every chunk
    size of at least two UTF-16 units the loop of [split_text] ends, after at most
    as many turns as the text has bytes; every chunk has at most that many units
    and is not blank; and the chunks are consecutive parts of the text, in order,
    with nothing but blanks dropped between them. *)
Theorem chunks_are_faithful text size fuel :
  2 <= size -> String.length text <= fuel ->
  exists chunks, chunk_text fuel text size = Some chunks
    /\ Forall (λ c, utf16_count c <= size /\ is_blank c = false) chunks
    /\ pieces text chunks.
Proof. apply chunk_text_spec. Qed.

Lemma chunks_are_faithful_witness :
  exists chunks, chunk_text 14 "one two  three" 6 = Some chunks
    /\ Forall (λ c, utf16_count c <= 6 /\ is_blank c = false) chunks
    /\ pieces "one two  three" chunks.
Proof. apply (chunks_are_faithful "one two  three" 6 14); simpl; lia. Defined.

(** Cutting at the last paragraph or line in the second half of the window. *)
Example chunk_text_at_paragraph :
  chunk_text 20 ("abcd" +:+ newline +:+ newline +:+ "efg hij") 8 = Some ["abcd"; "efg hij"].
Proof. reflexivity. Qed.

Lemma str_rfind_Some p s n : str_rfind p s = Some n -> exists t u, s = t +:+ p +:+ u.
Proof.
  assert (Hpre : forall s, String.prefix p s = true -> exists u, s = p +:+ u).
  { clear. induction p as [|a p IH]; intros s H; [by exists s |].
    destruct s as [|b s]; simpl in H; [done |]. case_match; [| done]; subst.
    destruct (IH s H) as [u ->]. by exists u. }
  revert n. induction s as [|a s IH]; intros n; cbn [str_rfind].
  - destruct (String.prefix p "") eqn:E; [| done]. intros _. destruct (Hpre _ E) as [u ->]. by exists "", u.
  - destruct (str_rfind p s) as [k|]; [destruct (IH k eq_refl) as (t & u & ->); intros _; by exists (String a t), u |].
    destruct (String.prefix p (String a s)) eqn:E; [| done]. intros _.
    destruct (Hpre _ E) as [u ->]. by exists "", u.
Qed.

(** With chunks of one unit the loop does not end: a text of two or more units
    that starts with a one-unit character which is not blank is left as it is by
    every turn, because [max_length / 2] is zero and the empty prefix passes for
    a paragraph. *)
Theorem one_unit_chunks_never_end a text fuel :
  byte_units a = 1 -> 0 < utf16_count text -> trim_start (String a text) = String a text ->
  chunk_text fuel (String a text) 1 = None.
Proof.
  intros Ha Hlong Htrim. unfold chunk_text, split_text. cbn [Nat.max].
  assert (Hc : utf16_count (String a text) <=? 1 = false).
  { apply Nat.leb_gt. cbn [utf16_count]. lia. }
  rewrite Hc. enough (Hloop : forall chunks, split_loop fuel 1 chunks (String a text) = None) by by rewrite Hloop.
  assert (Hround : split_round (String a text) 1 = ([], String a text)).
  { unfold split_round. enough (split_point (String a text) 1 = 0) as ->.
    { cbn [str_take str_drop]. rewrite Htrim. reflexivity. }
    unfold split_point. cbv zeta. change (1 / 2) with 0.
    rewrite !(proj2 (Nat.ltb_ge _ 0)) by lia.
    destruct (str_rfind _ _) as [n|] eqn:E; [exfalso | done].
    apply str_rfind_Some in E as (t & u & E).
    apply (f_equal utf16_count) in E. rewrite !utf16_count_app in E. cbn in E.
    revert E. unfold byte_limit. cbn [scan_limit]. rewrite Ha. cbn [Nat.add Nat.ltb Nat.leb].
    pose proof (scan_limit_spec 1 1 1 text ltac:(lia)) as Hs.
    destruct scan_limit as [i|]; [| simpl in Hs; lia].
    destruct Hs as (k & -> & Hk & Hu & _). cbn [default Nat.add Nat.eqb str_take utf16_count id from_option].
    rewrite Ha. change (byte_units (Ascii.ascii_of_nat 10)) with 1. lia. }
  induction fuel as [|fuel IH]; intros chunks; cbn [split_loop]; rewrite Hc; [done |].
  rewrite Hround. apply IH.
Qed.

Lemma one_unit_chunks_never_end_witness : chunk_text 1000 "ab" 1 = None.
Proof. apply (one_unit_chunks_never_end _ "b" 1000); [reflexivity | simpl; lia | reflexivity]. Defined.

(** ** Streamed edits are throttled *)

(** When a render may follow another one: the text changed, and the interval
    passed or enough characters arrived. *)
Definition may_follow (policy : StreamPolicy) (a b : string * Z) : Prop :=
  a.1 <> b.1 /\
  ((min_interval_ms policy <= Z.max 0 (b.2 - a.2))%Z
   \/ min_delta_chars policy <= chars_count b.1 - chars_count a.1).

(** The state remembers the last render. *)
Definition remembers (self : StreamState) (last : option (string * Z)) : Prop :=
  match last with
  | None => self = StreamState_new
  | Some (text, at_) => self = stream_commit text at_
  end.

Lemma should_render_spec policy self last text now :
  remembers self last ->
  match should_render self text policy now with
  | (true, self') => remembers self' (Some (text, now)) /\ text <> ""
      /\ match last with
         | Some l => may_follow policy l (text, now)
         | None => first_render_chars policy <= chars_count text
         end
  | (false, self') => self' = self
  end.
Proof.
  intros Hr. unfold should_render.
  destruct (text =?= "") eqn:E1; [done |]. apply bool_decide_eq_false_1 in E1. cbn [orb].
  destruct (text =?= last_rendered self) eqn:E2; [done |]. apply bool_decide_eq_false_1 in E2.
  destruct last as [[l lt]|]; simpl in Hr; subst self; cbn [stream_commit StreamState_new last_rendered last_render_at
    last_committed_len] in *.
  - destruct (_ && _) eqn:E3; [done |]. destruct (_ && _) eqn:E4 at 1; [done |].
    split; [done |]. split; [done |]. split; [simpl; congruence |]. simpl.
    apply andb_false_iff in E4 as [H%Z.ltb_ge | H%Nat.ltb_ge]; auto.
  - cbn [Nat.eqb andb]. destruct (_ <? _) eqn:E3; [done |]. apply Nat.ltb_ge in E3. done.
Qed.

(** Streamed edits are throttled and the final text is always shown.  Over any
    sequence of partial texts, the first render has the configured length, every
    later one differs from the render before it and either comes after the
    configured interval or adds the configured number of characters; and after
    [force_final] the text last rendered is the final text, unless that is empty. *)
Theorem stream_is_throttled policy updates final now :
  let '(rendered, self) := stream_run policy StreamState_new updates in
  let '(render, self') := force_final self final now in
  Sorted (may_follow policy) rendered
  /\ (forall r, head rendered = Some r -> first_render_chars policy <= chars_count r.1)
  /\ (final <> "" ->
      last_rendered self' = final
      /\ exists r, last (rendered ++ if render then [(final, now)] else []) = Some r /\ r.1 = final).
Proof.
  assert (Hrun : forall updates self prev, remembers self prev ->
    let '(rendered, self') := stream_run policy self updates in
    Sorted (may_follow policy) (option_list prev ++ rendered)
    /\ (prev = None -> forall r, head rendered = Some r -> first_render_chars policy <= chars_count r.1)
    /\ remembers self' (last (option_list prev ++ rendered))).
  { clear. induction updates as [|[text now] updates IH]; intros self prev Hr; cbn [stream_run].
    - rewrite app_nil_r. destruct prev; simpl; repeat split; auto; done.
    - pose proof (should_render_spec policy self prev text now Hr) as Hs.
      destruct (should_render self text policy now) as [[] self1].
      + destruct Hs as (Hr1 & _ & Hf). specialize (IH self1 (Some (text, now)) Hr1).
        destruct (stream_run policy self1 updates) as [rendered self2]. destruct IH as (Hso & _ & Hre).
        simpl in Hso, Hre. destruct prev as [l|]; simpl.
        * split; [by constructor; [| constructor] |]. split; [done |]. exact Hre.
        * split; [done |]. split; [| exact Hre]. intros _ r [= <-]. exact Hf.
      + subst self1. specialize (IH self prev Hr). by destruct (stream_run policy self updates). }
  specialize (Hrun updates StreamState_new None eq_refl).
  destruct (stream_run policy StreamState_new updates) as [rendered self]. simpl in Hrun.
  destruct Hrun as (Hso & Hh & Hre). destruct (force_final self final now) as [render self'] eqn:Ef.
  split; [done |]. split; [by apply Hh |]. intros Hne. unfold force_final in Ef.
  rewrite bool_decide_eq_false_2 in Ef by done. cbn [orb] in Ef. case_bool_decide as E; injection Ef as <- <-.
  - split; [done |]. rewrite app_nil_r. destruct (last rendered) as [[l t]|]; simpl in Hre; subst self; simpl in E.
    + by exists (l, t).
    + done.
  - split; [done |]. exists (final, now). split; [by rewrite last_snoc | done].
Qed.
