(* ===== verification/Errors.v ===== *)
(** * Error vocabulary

    [src/modules/bridge/errors.rs] (stages, commit states, retry actions, error
    codes, [StBridgeError]) and [src/error.rs] ([AppError]).  The identifiers a
    new error draws ([ids.rs], the uuid crate) and the detail redactor
    ([redaction.rs]) are interfaces of this file: the
    theorems hold for every implementation of them. *)

From S2P Require Import Prelude.

(** ** Interfaces *)

(** The values [ids::request_id] and [ids::new_id] return to one call. *)
Class IdSource := { request_id : string; new_id : string }.

(** [redaction::redact_detail] as its callers see it. *)
Class Redactor := { redact_detail : string -> option string }.

(** Every [as_str]/[parse] pair of the code is an encoder and its decoder. *)
Class TextCodec (A : Type) := {
  as_str : A -> string;
  parse : string -> option A;
  parse_as_str : forall a, parse (as_str a) = Some a;
  as_str_parse : forall s a, parse s = Some a -> as_str a = s;
}.

Arguments as_str {A _} a : simpl never.
Arguments parse {A _} s : simpl never.

Lemma as_str_inj `{TextCodec A} (a b : A) : as_str a = as_str b -> a = b.
Proof.
  intros Heq. apply (f_equal parse) in Heq. rewrite !parse_as_str in Heq. congruence.
Qed.

Lemma as_str_eqb `{TextCodec A, EqDecision A} (a b : A) :
  (as_str a =?= as_str b) = (a =?= b).
Proof. apply bool_decide_ext. split; [apply as_str_inj | congruence]. Qed.

Lemma parse_as_str_iff `{TextCodec A} s (a : A) : parse s = Some a <-> s = as_str a.
Proof.
  split; [intros Hp; symmetry; by apply as_str_parse | intros ->; apply parse_as_str].
Qed.

(** The two codec laws of an enumeration whose [parse] is a chain of comparisons. *)
Ltac solve_parse_as_str := intros a; destruct a; vm_compute; reflexivity.

Lemma if_decide_some `{Decision P} {A} (x a : A) r :
  (if bool_decide P then Some x else r) = Some a -> (P /\ x = a) \/ r = Some a.
Proof. case_bool_decide; [left | by right]. by split; [| congruence]. Qed.

Ltac solve_as_str_parse :=
  intros s a Hp;
  repeat (apply if_decide_some in Hp as [[-> <-] | Hp]; [reflexivity |]);
  discriminate Hp.

(** ** Stages, commit states, retry actions *)

Inductive StErrorStage : Set :=
| StageControl
| StageConnect
| StageSession
| StageCatalog
| StageSnapshot
| StagePrompt
| StageGeneration
| StageCommit
| StageDelivery.

#[export] Instance StErrorStage_eq_dec : EqDecision StErrorStage.
Proof. solve_decision. Defined.

Definition StErrorStage_as_str (self : StErrorStage) : string :=
  match self with
  | StageControl => "control"
  | StageConnect => "connect"
  | StageSession => "session"
  | StageCatalog => "catalog"
  | StageSnapshot => "snapshot"
  | StagePrompt => "prompt"
  | StageGeneration => "generation"
  | StageCommit => "commit"
  | StageDelivery => "delivery"
  end.

Definition StErrorStage_parse (value : string) : option StErrorStage :=
  if value =?= "control" then Some StageControl else
  if value =?= "connect" then Some StageConnect else
  if value =?= "session" then Some StageSession else
  if value =?= "catalog" then Some StageCatalog else
  if value =?= "snapshot" then Some StageSnapshot else
  if value =?= "prompt" then Some StagePrompt else
  if value =?= "generation" then Some StageGeneration else
  if value =?= "commit" then Some StageCommit else
  if value =?= "delivery" then Some StageDelivery else
  None.

#[export] Program Instance StErrorStage_codec : TextCodec StErrorStage :=
  {| as_str := StErrorStage_as_str; parse := StErrorStage_parse |}.
Next Obligation. solve_parse_as_str. Qed.
Next Obligation. unfold StErrorStage_parse, StErrorStage_as_str. solve_as_str_parse. Qed.

Inductive CommitState : Set :=
| NotStarted
| NotApplied
| Applied
| Unknown.

#[export] Instance CommitState_eq_dec : EqDecision CommitState.
Proof. solve_decision. Defined.

Definition CommitState_as_str (self : CommitState) : string :=
  match self with
  | NotStarted => "not_started"
  | NotApplied => "not_applied"
  | Applied => "applied"
  | Unknown => "unknown"
  end.

Definition CommitState_parse (value : string) : option CommitState :=
  if value =?= "not_started" then Some NotStarted else
  if value =?= "not_applied" then Some NotApplied else
  if value =?= "applied" then Some Applied else
  if value =?= "unknown" then Some Unknown else
  None.

#[export] Program Instance CommitState_codec : TextCodec CommitState :=
  {| as_str := CommitState_as_str; parse := CommitState_parse |}.
Next Obligation. solve_parse_as_str. Qed.
Next Obligation. unfold CommitState_parse, CommitState_as_str. solve_as_str_parse. Qed.

Inductive RetryAction : Set :=
| RetryDirect
| RetryExplicit
| RetryFromLatestSnapshot
| ReconcileSameOperation
| RetryDeliveryOnly
| NoRetry.

#[export] Instance RetryAction_eq_dec : EqDecision RetryAction.
Proof. solve_decision. Defined.

Definition RetryAction_as_str (self : RetryAction) : string :=
  match self with
  | RetryDirect => "retry_direct"
  | RetryExplicit => "retry_explicit"
  | RetryFromLatestSnapshot => "retry_from_latest_snapshot"
  | ReconcileSameOperation => "reconcile_same_operation"
  | RetryDeliveryOnly => "retry_delivery_only"
  | NoRetry => "no_retry"
  end.

(** ** Error codes *)

Inductive StErrorCode : Set :=
| StConnectFailed
| StRequestTimeout
| StCsrfFetchFailed
| StCsrfMissing
| StSessionRejected
| StCharacterListFailed
| StChatListFailed
| StChatNotFound
| StChatPayloadInvalid
| StSettingsInvalid
| StGenerateRejected
| StGenerateRateLimited
| StGenerateUpstream5xx
| StGenerateIdleTimeout
| StGenerateHardTimeout
| StGenerateStreamInvalid
| StGenerateEmpty
| StGenerateStateUnknown
| StConnectorUnavailable
| StConnectorAuthFailed
| StConnectorVersionMismatch
| StConnectorMediaTypeRejected
| StWriteNotReady
| StTestScopeRequired
| StPollerNotOwner
| StPollerEpochMismatch
| StChatLocatorRejected
| StChatIntegrityMissing
| StChatConflict
| StOperationIdReused
| StBackupFailed
| StBackupQuotaExceeded
| StWriteVerifyFailed
| StCommitPayloadTooLarge
| StCommitValidationFailed
| StCommitFailed
| StCommitStateUnknown
| StDeliveryFailed.

#[export] Instance StErrorCode_eq_dec : EqDecision StErrorCode.
Proof. solve_decision. Defined.

Definition StErrorCode_as_str (self : StErrorCode) : string :=
  match self with
  | StConnectFailed => "ST_CONNECT_FAILED"
  | StRequestTimeout => "ST_REQUEST_TIMEOUT"
  | StCsrfFetchFailed => "ST_CSRF_FETCH_FAILED"
  | StCsrfMissing => "ST_CSRF_MISSING"
  | StSessionRejected => "ST_SESSION_REJECTED"
  | StCharacterListFailed => "ST_CHARACTER_LIST_FAILED"
  | StChatListFailed => "ST_CHAT_LIST_FAILED"
  | StChatNotFound => "ST_CHAT_NOT_FOUND"
  | StChatPayloadInvalid => "ST_CHAT_PAYLOAD_INVALID"
  | StSettingsInvalid => "ST_SETTINGS_INVALID"
  | StGenerateRejected => "ST_GENERATE_REJECTED"
  | StGenerateRateLimited => "ST_GENERATE_RATE_LIMITED"
  | StGenerateUpstream5xx => "ST_GENERATE_UPSTREAM_5XX"
  | StGenerateIdleTimeout => "ST_GENERATE_IDLE_TIMEOUT"
  | StGenerateHardTimeout => "ST_GENERATE_HARD_TIMEOUT"
  | StGenerateStreamInvalid => "ST_GENERATE_STREAM_INVALID"
  | StGenerateEmpty => "ST_GENERATE_EMPTY"
  | StGenerateStateUnknown => "ST_GENERATE_STATE_UNKNOWN"
  | StConnectorUnavailable => "ST_CONNECTOR_UNAVAILABLE"
  | StConnectorAuthFailed => "ST_CONNECTOR_AUTH_FAILED"
  | StConnectorVersionMismatch => "ST_CONNECTOR_VERSION_MISMATCH"
  | StConnectorMediaTypeRejected => "ST_CONNECTOR_MEDIA_TYPE_REJECTED"
  | StWriteNotReady => "ST_WRITE_NOT_READY"
  | StTestScopeRequired => "ST_TEST_SCOPE_REQUIRED"
  | StPollerNotOwner => "ST_POLLER_NOT_OWNER"
  | StPollerEpochMismatch => "ST_POLLER_EPOCH_MISMATCH"
  | StChatLocatorRejected => "ST_CHAT_LOCATOR_REJECTED"
  | StChatIntegrityMissing => "ST_CHAT_INTEGRITY_MISSING"
  | StChatConflict => "ST_CHAT_CONFLICT"
  | StOperationIdReused => "ST_OPERATION_ID_REUSED"
  | StBackupFailed => "ST_BACKUP_FAILED"
  | StBackupQuotaExceeded => "ST_BACKUP_QUOTA_EXCEEDED"
  | StWriteVerifyFailed => "ST_WRITE_VERIFY_FAILED"
  | StCommitPayloadTooLarge => "ST_COMMIT_PAYLOAD_TOO_LARGE"
  | StCommitValidationFailed => "ST_COMMIT_VALIDATION_FAILED"
  | StCommitFailed => "ST_COMMIT_FAILED"
  | StCommitStateUnknown => "ST_COMMIT_STATE_UNKNOWN"
  | StDeliveryFailed => "ST_DELIVERY_FAILED"
  end.

Definition StErrorCode_parse (value : string) : option StErrorCode :=
  if value =?= "ST_CONNECT_FAILED" then Some StConnectFailed else
  if value =?= "ST_REQUEST_TIMEOUT" then Some StRequestTimeout else
  if value =?= "ST_CSRF_FETCH_FAILED" then Some StCsrfFetchFailed else
  if value =?= "ST_CSRF_MISSING" then Some StCsrfMissing else
  if value =?= "ST_SESSION_REJECTED" then Some StSessionRejected else
  if value =?= "ST_CHARACTER_LIST_FAILED" then Some StCharacterListFailed else
  if value =?= "ST_CHAT_LIST_FAILED" then Some StChatListFailed else
  if value =?= "ST_CHAT_NOT_FOUND" then Some StChatNotFound else
  if value =?= "ST_CHAT_PAYLOAD_INVALID" then Some StChatPayloadInvalid else
  if value =?= "ST_SETTINGS_INVALID" then Some StSettingsInvalid else
  if value =?= "ST_GENERATE_REJECTED" then Some StGenerateRejected else
  if value =?= "ST_GENERATE_RATE_LIMITED" then Some StGenerateRateLimited else
  if value =?= "ST_GENERATE_UPSTREAM_5XX" then Some StGenerateUpstream5xx else
  if value =?= "ST_GENERATE_IDLE_TIMEOUT" then Some StGenerateIdleTimeout else
  if value =?= "ST_GENERATE_HARD_TIMEOUT" then Some StGenerateHardTimeout else
  if value =?= "ST_GENERATE_STREAM_INVALID" then Some StGenerateStreamInvalid else
  if value =?= "ST_GENERATE_EMPTY" then Some StGenerateEmpty else
  if value =?= "ST_GENERATE_STATE_UNKNOWN" then Some StGenerateStateUnknown else
  if value =?= "ST_CONNECTOR_UNAVAILABLE" then Some StConnectorUnavailable else
  if value =?= "ST_CONNECTOR_AUTH_FAILED" then Some StConnectorAuthFailed else
  if value =?= "ST_CONNECTOR_VERSION_MISMATCH" then Some StConnectorVersionMismatch else
  if value =?= "ST_CONNECTOR_MEDIA_TYPE_REJECTED" then Some StConnectorMediaTypeRejected else
  if value =?= "ST_WRITE_NOT_READY" then Some StWriteNotReady else
  if value =?= "ST_TEST_SCOPE_REQUIRED" then Some StTestScopeRequired else
  if value =?= "ST_POLLER_NOT_OWNER" then Some StPollerNotOwner else
  if value =?= "ST_POLLER_EPOCH_MISMATCH" then Some StPollerEpochMismatch else
  if value =?= "ST_CHAT_LOCATOR_REJECTED" then Some StChatLocatorRejected else
  if value =?= "ST_CHAT_INTEGRITY_MISSING" then Some StChatIntegrityMissing else
  if value =?= "ST_CHAT_CONFLICT" then Some StChatConflict else
  if value =?= "ST_OPERATION_ID_REUSED" then Some StOperationIdReused else
  if value =?= "ST_BACKUP_FAILED" then Some StBackupFailed else
  if value =?= "ST_BACKUP_QUOTA_EXCEEDED" then Some StBackupQuotaExceeded else
  if value =?= "ST_WRITE_VERIFY_FAILED" then Some StWriteVerifyFailed else
  if value =?= "ST_COMMIT_PAYLOAD_TOO_LARGE" then Some StCommitPayloadTooLarge else
  if value =?= "ST_COMMIT_VALIDATION_FAILED" then Some StCommitValidationFailed else
  if value =?= "ST_COMMIT_FAILED" then Some StCommitFailed else
  if value =?= "ST_COMMIT_STATE_UNKNOWN" then Some StCommitStateUnknown else
  if value =?= "ST_DELIVERY_FAILED" then Some StDeliveryFailed else
  None.

#[export] Program Instance StErrorCode_codec : TextCodec StErrorCode :=
  {| as_str := StErrorCode_as_str; parse := StErrorCode_parse |}.
Next Obligation. solve_parse_as_str. Qed.
Next Obligation. unfold StErrorCode_parse, StErrorCode_as_str. solve_as_str_parse. Qed.

(** ** [StBridgeError] *)

Record StBridgeError := MkStBridgeError {
  e_code : StErrorCode;
  e_stage : StErrorStage;
  e_safe_message : string;
  e_safe_detail : option string;
  e_upstream_http_status : option Z;
  e_upstream_code : option string;
  e_endpoint_class : option string;
  e_retryable : bool;
  e_commit_state : CommitState;
  e_operation_id : option string;
  e_request_id : string;
  e_trace_id : string;
  e_duration_ms : option Z;
  e_attempt : Z;
}.

#[export] Instance StBridgeError_eq_dec : EqDecision StBridgeError.
Proof. solve_decision. Defined.

Notation StResult A := (result A StBridgeError).

Definition StBridgeError_new `{IdSource} (code : StErrorCode) (stage : StErrorStage)
    (safe_message : string) (retryable : bool) (commit_state : CommitState)
    : StBridgeError :=
  {| e_code := code; e_stage := stage; e_safe_message := safe_message;
     e_safe_detail := None; e_upstream_http_status := None;
     e_upstream_code := None; e_endpoint_class := None;
     e_retryable := retryable; e_commit_state := commit_state;
     e_operation_id := None; e_request_id := request_id; e_trace_id := new_id;
     e_duration_ms := None; e_attempt := 1 |}.

(** The field assignments [error.operation_id = Some(..)] and
    [error.safe_detail = ..] of the code. *)
Definition set_operation_id (id : string) (e : StBridgeError) : StBridgeError :=
  {| e_code := e_code e; e_stage := e_stage e; e_safe_message := e_safe_message e;
     e_safe_detail := e_safe_detail e;
     e_upstream_http_status := e_upstream_http_status e;
     e_upstream_code := e_upstream_code e; e_endpoint_class := e_endpoint_class e;
     e_retryable := e_retryable e; e_commit_state := e_commit_state e;
     e_operation_id := Some id; e_request_id := e_request_id e;
     e_trace_id := e_trace_id e; e_duration_ms := e_duration_ms e;
     e_attempt := e_attempt e |}.

Definition set_safe_detail (d : option string) (e : StBridgeError) : StBridgeError :=
  {| e_code := e_code e; e_stage := e_stage e; e_safe_message := e_safe_message e;
     e_safe_detail := d;
     e_upstream_http_status := e_upstream_http_status e;
     e_upstream_code := e_upstream_code e; e_endpoint_class := e_endpoint_class e;
     e_retryable := e_retryable e; e_commit_state := e_commit_state e;
     e_operation_id := e_operation_id e; e_request_id := e_request_id e;
     e_trace_id := e_trace_id e; e_duration_ms := e_duration_ms e;
     e_attempt := e_attempt e |}.

(** [StBridgeError::with_safe_detail]. *)
Definition with_safe_detail `{Redactor} (e : StBridgeError) (detail : string)
    : StBridgeError := set_safe_detail (redact_detail detail) e.

(** [StBridgeError::retry_action]: the arms in source order, guards included. *)
Definition retry_action (e : StBridgeError) : RetryAction :=
  match e_code e with
  | StDeliveryFailed =>
      if e_commit_state e =?= Applied then RetryDeliveryOnly else NoRetry
  | StChatConflict => RetryFromLatestSnapshot
  | StCommitStateUnknown | StGenerateStateUnknown => ReconcileSameOperation
  | c =>
      if negb (e_retryable e) then NoRetry else
      match c with
      | StConnectFailed | StRequestTimeout | StCharacterListFailed
      | StChatListFailed => RetryDirect
      | StGenerateUpstream5xx | StGenerateRateLimited | StGenerateIdleTimeout
      | StGenerateHardTimeout | StGenerateEmpty | StGenerateStreamInvalid
      | StCommitFailed | StBackupFailed => RetryExplicit
      | _ => NoRetry
      end
  end.

(** ** [AppError] *)

(** HTTP status codes are their numbers. *)
Record AppError := MkAppError {
  a_code : string;
  a_message : string;
  a_status : Z;
  a_st : option StBridgeError;
}.

Notation AppResult A := (result A AppError).

Definition AppError_new (code message : string) (status : Z) : AppError :=
  {| a_code := code; a_message := message; a_status := status; a_st := None |}.

Definition unauthorized (message : string) := AppError_new "UNAUTHORIZED" message 401.
Definition forbidden (message : string) := AppError_new "FORBIDDEN" message 403.
Definition not_found (code message : string) := AppError_new code message 404.
Definition bad_request (code message : string) := AppError_new code message 400.
Definition conflict (code message : string) := AppError_new code message 409.
Definition gone (code message : string) := AppError_new code message 410.
Definition too_many (message : string) := AppError_new "RATE_LIMITED" message 429.
Definition service_unavailable (code message : string) := AppError_new code message 503.
Definition internal (message : string) := AppError_new "INTERNAL_ERROR" message 500.
Definition bad_gateway (code message : string) := AppError_new code message 502.

(** [impl From<sqlx::Error> for AppError]. *)
Definition database_error : AppError := internal "database error".

(** [thiserror]'s [#[error("{code}: {message}")]]. *)
Definition AppError_to_string (e : AppError) : string :=
  a_code e +:+ ": " +:+ a_message e.

(** [AppError::from_st]. *)
Definition from_st (error : StBridgeError) : AppError :=
  let status :=
    match e_code error with
    | StWriteNotReady => 409
    | StChatConflict => 409
    | StChatNotFound => 404
    | StGenerateRateLimited => 429
    | StSessionRejected | StCsrfMissing | StConnectorAuthFailed => 403
    | _ => if e_retryable error then 502 else 400
    end%Z in
  {| a_code := as_str (e_code error); a_message := e_safe_message error;
     a_status := status; a_st := Some error |}.

(** ** What the retry classification guarantees *)

(** An error whose commit may have happened is never classified for a retry
    that would run the mutation again. *)
Lemma retry_action_unknown_reconciles e :
  e_code e = StCommitStateUnknown \/ e_code e = StGenerateStateUnknown ->
  retry_action e = ReconcileSameOperation.
Proof. unfold retry_action. by intros [-> | ->]. Qed.

Lemma retry_action_delivery e :
  retry_action e = RetryDeliveryOnly <->
  e_code e = StDeliveryFailed /\ e_commit_state e = Applied.
Proof.
  unfold retry_action. split.
  - destruct (e_code e), (e_retryable e); simpl; repeat case_bool_decide; by try discriminate.
  - intros [-> ->]. by rewrite bool_decide_eq_true_2.
Qed.

(** The retries that re-run an operation require the [retryable] flag. *)
Lemma retry_action_needs_flag e :
  retry_action e = RetryDirect \/ retry_action e = RetryExplicit ->
  e_retryable e = true.
Proof.
  unfold retry_action.
  destruct (e_code e), (e_retryable e); simpl; repeat case_bool_decide;
    intros [Ha | Ha]; by try discriminate.
Qed.
