(* ===== verification/ErrorRender.v ===== *)
(** * What a user reads about a failure ([modules/telegram/error_render.rs])

    [render] turns a bridge error into the message sent to the chat.  A character
    is its UTF-8 bytes. *)

From S2P Require Import Prelude Text Errors.
From Stdlib Require Import Lia.

(** [char::is_control] and [char::is_whitespace]. *)
Definition is_control (c : string) : bool :=
  match c with
  | String a EmptyString => in_range 0 31 a || in_range 127 127 a
  | String a (String b EmptyString) => in_range 194 194 a && in_range 128 159 b
  | _ => false
  end.
Definition is_whitespace (c : string) : bool := is_blank c.

(** The loop of [redact_message]: controls become spaces, runs of blanks one space. *)
Fixpoint squeeze (previous_space : bool) (cs : list string) : string :=
  match cs with
  | [] => EmptyString
  | character :: cs =>
      let replacement := if is_control character then " " else character in
      if is_whitespace replacement
      then (if previous_space then EmptyString else " ") +:+ squeeze true cs
      else replacement +:+ squeeze false cs
  end.

Definition PROTECTED_MARKS : list string :=
  ["http://"; "https://"; "bearer "; "token="; "api_key="; "/bot"].

Definition redact_message (message : string) : string :=
  let output := squeeze false (take 256 (chars message)) in
  let lowered := to_ascii_lowercase output in
  if existsb (contains lowered) PROTECTED_MARKS then "上游返回了受保护的错误详情。" else output.

Definition heading (error : StBridgeError) : string :=
  if e_stage error =?= StageDelivery then "Telegram 投递失败" else
  match e_code error with
  | StWriteNotReady => "ST 聊天写入未就绪"
  | StChatConflict => "ST 保存冲突"
  | StChatNotFound | StChatPayloadInvalid | StChatLocatorRejected | StChatIntegrityMissing | StSettingsInvalid => "ST 读取聊天失败"
  | StGenerateRejected | StGenerateRateLimited | StGenerateUpstream5xx | StGenerateIdleTimeout | StGenerateHardTimeout | StGenerateStreamInvalid | StGenerateEmpty | StGenerateStateUnknown => "ST 生成失败"
  | StConnectorUnavailable | StConnectorAuthFailed | StConnectorVersionMismatch | StConnectorMediaTypeRejected | StBackupFailed | StBackupQuotaExceeded | StWriteVerifyFailed | StCommitPayloadTooLarge | StCommitValidationFailed | StCommitFailed | StCommitStateUnknown => "ST 保存失败"
  | StConnectFailed | StRequestTimeout | StCsrfFetchFailed | StCsrfMissing | StSessionRejected => "ST 连接失败"
  | StCharacterListFailed => "ST 读取角色失败"
  | StChatListFailed => "ST 读取聊天列表失败"
  | _ => "ST 请求失败"
  end.

Definition stage_label (stage : StErrorStage) : string :=
  match stage with
  | StageControl => "控制与写入资格"
  | StageConnect => "连接 ST"
  | StageSession => "ST 会话"
  | StageCatalog => "读取 ST 目录"
  | StageSnapshot => "读取 ST 聊天快照"
  | StagePrompt => "构建请求"
  | StageGeneration => "生成响应"
  | StageCommit => "保存聊天"
  | StageDelivery => "发送 Telegram 回复"
  end.

Definition advice (error : StBridgeError) : string :=
  match e_code error with
  | StWriteNotReady => "等待 ST backend 接入并完成写入能力校验后再试。"
  | StChatConflict => "查看 ST 最新内容后，重新发送本次消息。"
  | StCommitStateUnknown => "不要重复执行；先使用相同 operation ID 对账。"
  | StGenerateRateLimited => "遵循 ST 返回的等待时间，再显式重试。"
  | StGenerateStateUnknown => "先查询操作状态，不要自动重复生成。"
  | StDeliveryFailed => "ST 内容已写入；只重试 Telegram 投递，不要重复生成。"
  | _ => if e_retryable error then "稍后再次显式重试。"
         else "查看管理页中的脱敏诊断信息后再处理。"
  end.

(** The [while value.len() < 8] loop pads with zeros. *)
Definition pad_zeros (value : string) : string :=
  value +:+ String.concat "" (replicate (8 - String.length value) "0").

Definition ascii_upper (a : Ascii.ascii) : Ascii.ascii :=
  if in_range 97 122 a then Ascii.ascii_of_N (byte_val a - 32) else a.

(** The ASCII letters and digits of a text, as upper case, at most [n]. *)
Fixpoint alnum_upper (n : nat) (s : string) : string :=
  match n, s with
  | S m, String a r =>
      if is_ascii_alphanumeric a then String (ascii_upper a) (alnum_upper m r) else alnum_upper n r
  | _, _ => EmptyString
  end.

Definition short_trace_id (error : StBridgeError) : string :=
  pad_zeros (alnum_upper 12
    (e_trace_id error +:+ e_request_id error +:+ default EmptyString (e_operation_id error))).

Definition write_state (c : CommitState) : string :=
  match c with
  | NotStarted => "没有进入 ST 写入"
  | NotApplied => "未写入 ST"
  | Applied => "已写入 ST"
  | Unknown => "状态未知，尚未确认是否写入 ST"
  end.

Definition retry_text (r : RetryAction) : string :=
  match r with
  | RetryDirect => "可以安全重试"
  | RetryExplicit => "可以，请显式重试"
  | RetryFromLatestSnapshot => "可以，请基于最新会话重试"
  | ReconcileSameOperation => "不可自动重试"
  | RetryDeliveryOnly => "只重试投递"
  | NoRetry => "不可自动重试"
  end.

Definition nl : string := byte_str (Ascii.ascii_of_nat 10).

Definition render (error : StBridgeError) : string :=
  heading error +:+ nl +:+ nl +:+ "阶段：" +:+ stage_label (e_stage error)
  +:+ nl +:+ "错误码：" +:+ StErrorCode_as_str (e_code error)
  +:+ nl +:+ "本次写入 ST：" +:+ write_state (e_commit_state error)
  +:+ nl +:+ "说明：" +:+ redact_message (e_safe_message error)
  +:+ nl +:+ "可安全重试：" +:+ retry_text (retry_action error)
  +:+ nl +:+ "建议：" +:+ advice error
  +:+ nl +:+ "追踪号：" +:+ short_trace_id error.

(** ** What the message does not contain *)

(** The explanation holds no address, bearer token, key or bot path: what would
    hold one is replaced as a whole. *)
Lemma redacted_message_is_protected message :
  existsb (contains (to_ascii_lowercase (redact_message message))) PROTECTED_MARKS = false.
Proof.
  unfold redact_message. cbv zeta. set (output := squeeze false _).
  destruct (existsb (contains (to_ascii_lowercase output)) PROTECTED_MARKS) eqn:E;
    [vm_compute; reflexivity | exact E].
Qed.

Lemma alnum_upper_length n s : String.length (alnum_upper n s) <= n.
Proof.
  revert n. induction s as [|a s IH]; intros [|n]; simpl; try lia.
  case_match; [simpl; specialize (IH n); lia | apply IH].
Qed.

Lemma ascii_upper_alnum a : is_ascii_alphanumeric a = true -> is_ascii_alphanumeric (ascii_upper a) = true.
Proof. destruct a as [[] [] [] [] [] [] [] []]; vm_compute; auto. Qed.

Lemma alnum_upper_bytes n s : all_bytes is_ascii_alphanumeric (alnum_upper n s) = true.
Proof.
  revert n. induction s as [|a s IH]; intros [|n]; simpl; auto.
  destruct (is_ascii_alphanumeric a) eqn:E; [| apply IH].
  simpl. by rewrite ascii_upper_alnum, IH.
Qed.

Lemma zeros_spec n :
  String.length (String.concat "" (replicate n "0")) = n
  /\ all_bytes is_ascii_alphanumeric (String.concat "" (replicate n "0")) = true.
Proof.
  induction n as [|[|n] [IHl IHb]]; [done | done |].
  change (String.concat "" (replicate (S (S n)) "0")) with ("0" +:+ "" +:+ String.concat "" (replicate (S n) "0")).
  rewrite !app_string_length, !all_bytes_app, IHl, IHb. done.
Qed.

(** The trace number has eight to twelve letters or digits. *)
Lemma short_trace_id_shape error :
  8 <= String.length (short_trace_id error) <= 12
  /\ all_bytes is_ascii_alphanumeric (short_trace_id error) = true.
Proof.
  unfold short_trace_id, pad_zeros. set (v := alnum_upper 12 _).
  pose proof (alnum_upper_length 12 (e_trace_id error +:+ e_request_id error
    +:+ default EmptyString (e_operation_id error))) as Hl. fold v in Hl.
  destruct (zeros_spec (8 - String.length v)) as [Hz Hb].
  rewrite app_string_length, all_bytes_app, Hz, Hb. split; [lia |]. apply andb_true_iff. split; [apply alnum_upper_bytes | done].
Qed.
