(* ===== verification/StDomain.v ===== *)
(** * The SillyTavern domain types

    [src/domain/st.rs]: locators, fences, mutations, commit commands and
    results, the handshake, and the write-mode lattice that decides whether a
    write may leave the bridge.  JSON values are [serde_json::Value]. *)

From S2P Require Import Prelude.

(** ** JSON values

    An object is the list of its members in insertion order, as [serde_json]
    with its [preserve_order] feature iterates them; a number keeps its printed
    form. *)
Inductive Value : Type :=
| JNull
| JBool (b : bool)
| JNumber (repr : string)
| JString (s : string)
| JArray (items : list Value)
| JObject (members : list (string * Value)).

Fixpoint assoc_get {A} (k : string) (m : list (string * A)) : option A :=
  match m with
  | [] => None
  | (k', v) :: m => if k =?= k' then Some v else assoc_get k m
  end.

(** [Value::get(key)], [as_str], [as_bool], [as_array], [as_object]. *)
Definition value_get (v : Value) (k : string) : option Value :=
  match v with JObject m => assoc_get k m | _ => None end.
Definition value_as_str (v : Value) : option string :=
  match v with JString s => Some s | _ => None end.
Definition value_as_bool (v : Value) : option bool :=
  match v with JBool b => Some b | _ => None end.
Definition value_as_array (v : Value) : option (list Value) :=
  match v with JArray l => Some l | _ => None end.
Definition value_as_object (v : Value) : option (list (string * Value)) :=
  match v with JObject m => Some m | _ => None end.
Definition value_is_null (v : Value) : bool :=
  match v with JNull => true | _ => false end.

(** ** Locators, fences and commands *)

Record StChatLocator := {
  loc_handle : string;
  loc_avatar : string;
  loc_character_name : string;
  loc_chat_file : string;
}.

#[export] Instance StChatLocator_eq_dec : EqDecision StChatLocator.
Proof. solve_decision. Defined.

Record PollerRuntimeFence := {
  f_telegram_bot_id : Z;
  f_owner : string;
  f_epoch : Z;
  f_internal_bot_id : string;
  f_runtime_instance_id : string;
}.

#[export] Instance PollerRuntimeFence_eq_dec : EqDecision PollerRuntimeFence.
Proof. solve_decision. Defined.

Definition fence_is_valid (f : PollerRuntimeFence) : bool :=
  (0 <? f_telegram_bot_id f)%Z
  && (f_owner f =?= "rust_bridge")
  && (0 <? f_epoch f)%Z
  && negb (is_blank (f_internal_bot_id f))
  && negb (is_blank (f_runtime_instance_id f)).

Record StChatMessage := {
  m_name : string;
  m_is_user : bool;
  m_mes : string;
  m_send_date : option string;
  m_extra : list (string * Value);
}.

Record StCompressionExtraPatch := {
  x_display_text : option string;
  x_compressed : option bool;
}.

Record StMessagePatch := {
  p_index : Z;
  p_expected_message_sha256 : string;
  p_mes : option string;
  p_extra : option StCompressionExtraPatch;
}.

Inductive StMutation : Type :=
| AppendTurn (user_message assistant_message : StChatMessage)
| UndoLastTurn (expected_user_sha256 expected_assistant_sha256 : string)
| ReplaceLastAssistant (expected_assistant_sha256 : string)
    (assistant_message : StChatMessage)
| CompressMessages (patches : list StMessagePatch).

Inductive StWriteMode : Set := Disabled | ReadOnly | TestWrite | ProductionWrite.

Inductive StWriteScope : Set := TestChat | ProductionChat.

#[export] Instance StWriteMode_eq_dec : EqDecision StWriteMode.
Proof. solve_decision. Defined.
#[export] Instance StWriteScope_eq_dec : EqDecision StWriteScope.
Proof. solve_decision. Defined.

Record CreateStChat := {
  cr_operation_id : string;
  cr_locator : StChatLocator;
  cr_opening_message : Value;
  cr_scope : StWriteScope;
  cr_fence : PollerRuntimeFence;
}.

Record CommitStChat := {
  cm_operation_id : string;
  cm_locator : StChatLocator;
  cm_expected_sha256 : string;
  cm_expected_integrity : string;
  cm_mutation : StMutation;
  cm_fence : PollerRuntimeFence;
}.

Inductive StCommitStatus : Set :=
  CommitApplied | CommitAlreadyApplied | CommitNotApplied | CommitUnknown.

#[export] Instance StCommitStatus_eq_dec : EqDecision StCommitStatus.
Proof. solve_decision. Defined.

Record StCommitResult := {
  cres_status : StCommitStatus;
  cres_new_sha256 : option string;
  cres_new_integrity : option string;
  cres_byte_length : option Z;
  cres_message_count : option Z;
}.

(** ** Write modes

    [#[repr(u8)]] with derived [Ord]: the discriminants order the modes. *)

Definition write_mode_rank (m : StWriteMode) : Z :=
  match m with Disabled => 0 | ReadOnly => 1 | TestWrite => 2 | ProductionWrite => 3 end.

Definition allows_write (m : StWriteMode) : bool :=
  match m with TestWrite | ProductionWrite => true | _ => false end.

Definition allows_read (m : StWriteMode) : bool :=
  match m with Disabled => false | _ => true end.

Definition effective (self connector : StWriteMode) : StWriteMode :=
  if (write_mode_rank connector <? write_mode_rank self)%Z then connector else self.

Definition scope_mode (s : StWriteScope) : StWriteMode :=
  match s with TestChat => TestWrite | ProductionChat => ProductionWrite end.

Record WriteFacts := {
  handshake_valid : bool;
  profile_matches : bool;
  integrity_enabled : bool;
  ownership_valid : bool;
  approved_locator : bool;
  connector_created_test : bool;
  test_name_prefix : bool;
}.

Definition check_write (self : StWriteMode) (facts : WriteFacts) : result unit string :=
  if (write_mode_rank self <? write_mode_rank TestWrite)%Z
  then Err "ST_WRITE_NOT_READY" else
  if negb (handshake_valid facts && profile_matches facts
           && integrity_enabled facts && ownership_valid facts
           && approved_locator facts)
  then Err "ST_WRITE_PREFLIGHT_REJECTED" else
  if (self =?= TestWrite)
     && negb (connector_created_test facts && test_name_prefix facts)
  then Err "ST_TEST_SCOPE_REQUIRED" else Ok tt.

(** ** Handshake and status *)

Record HandshakeResponse := {
  hs_version : string;
  hs_handle : string;
  hs_profile : string;
  hs_connector_mode : StWriteMode;
  hs_scopes : list StWriteScope;
  hs_snapshot : bool;
  hs_integrity_enabled : bool;
  hs_typed_mutations : bool;
  hs_integrity_rotation : bool;
  hs_operation_replay : bool;
  hs_durable_write : bool;
  hs_handshake_at_unix : Z;
  hs_expires_at_unix : Z;
}.

Definition is_valid_at (h : HandshakeResponse) (now_unix : Z) : bool :=
  negb (is_blank (hs_version h))
  && negb (is_blank (hs_handle h))
  && negb (is_blank (hs_profile h))
  && (0 <? hs_handshake_at_unix h)%Z
  && (hs_handshake_at_unix h <? hs_expires_at_unix h)%Z
  && (hs_handshake_at_unix h <=? now_unix)%Z
  && (now_unix <? hs_expires_at_unix h)%Z.

Definition supports_scope (h : HandshakeResponse) (s : StWriteScope) : bool :=
  bool_decide (s ∈ hs_scopes h).

Record StCapabilities := {
  cap_mode : StWriteMode;
  cap_snapshot : bool;
  cap_typed_mutations : bool;
  cap_integrity_rotation : bool;
  cap_operation_replay : bool;
}.

Definition StCapabilities_default : StCapabilities :=
  {| cap_mode := Disabled; cap_snapshot := false; cap_typed_mutations := false;
     cap_integrity_rotation := false; cap_operation_replay := false |}.

Record StStatus := {
  st_available : bool;
  st_version : option string;
  st_handle : string;
  st_capabilities : StCapabilities;
}.

Definition write_ready (self : StStatus) : bool :=
  let c := st_capabilities self in
  allows_write (cap_mode c) && cap_snapshot c && cap_typed_mutations c
  && cap_integrity_rotation c && cap_operation_replay c.

(** ** Characters, snapshots and generation requests

    An [f64] is carried as its printed form: nothing here computes with one. *)

Record StCharacterSummary := {
  sc_avatar : string;
  sc_name : string;
  sc_description : string;
  sc_personality : string;
  sc_scenario : string;
  sc_first_mes : string;
  sc_mes_example : string;
}.

Record StChatSummary := {
  ch_chat_file : string;
  ch_title : option string;
  ch_updated_at : option string;
  ch_message_count : option Z;
}.

Record StChatSnapshot := {
  sn_locator : StChatLocator;
  sn_parsed_chat : list Value;
  sn_source_sha256 : string;
  sn_source_integrity : string;
  sn_source_byte_length : Z;
  sn_source_message_count : Z;
}.

Record StModelSummary := { ms_id : string; ms_owned_by : option string }.

Record StModelCatalog := {
  mc_models : list StModelSummary;
  mc_current_model : option string;
}.

Record StGenerationSettings := {
  gs_username : string;
  gs_chat_completion_source : string;
  gs_model : string;
  gs_custom_url : string;
  gs_custom_prompt_post_processing : string;
  gs_temperature : string;
  gs_top_p : string;
  gs_max_tokens : Z;
}.

Record StPromptMessage := {
  pm_role : string;
  pm_content : string;
  pm_name : option string;
}.

Record StGenerationRequest := {
  gq_model_id : option string;
  gq_messages : list StPromptMessage;
  gq_temperature : option string;
  gq_top_p : option string;
  gq_max_tokens : option Z;
}.

Record StGenerationResult := {
  gr_text : string;
  gr_finish_reason : option string;
  gr_usage : option Value;
}.

(** ** Facts *)

Lemma effective_min_l a b : (write_mode_rank (effective a b) <= write_mode_rank a)%Z.
Proof. unfold effective. destruct (Z.ltb_spec (write_mode_rank b) (write_mode_rank a)); lia. Qed.

Lemma effective_min_r a b : (write_mode_rank (effective a b) <= write_mode_rank b)%Z.
Proof. unfold effective. destruct (Z.ltb_spec (write_mode_rank b) (write_mode_rank a)); lia. Qed.

(** A write passes the check exactly when the mode writes, every preflight fact
    holds, and, in test mode, the chat is a connector-created test chat. *)
Lemma check_write_ok m f :
  check_write m f = Ok tt <->
  allows_write m = true
  /\ handshake_valid f = true /\ profile_matches f = true
  /\ integrity_enabled f = true /\ ownership_valid f = true
  /\ approved_locator f = true
  /\ (m = TestWrite -> connector_created_test f = true /\ test_name_prefix f = true).
Proof.
  unfold check_write, allows_write. destruct f as [[] [] [] [] [] [] []], m; simpl;
    repeat case_bool_decide; simplify_eq/=; naive_solver.
Qed.
