(* ===== verification/Readiness.v ===== *)
(** * Write readiness

    [src/st_readiness.rs]: the process-wide readiness word, an [AtomicU8] whose
    two low bits are the flags, and the gate every write passes. *)

From S2P Require Import Prelude Errors.

Definition ST_WRITE_NOT_READY_CODE : string := "ST_WRITE_NOT_READY".
Definition ST_WRITE_NOT_READY_MESSAGE : string :=
  "ST backend 未接入，聊天功能已冻结，本次未写入 SillyTavern。".

Record StWriteReadiness := {
  backend_connected : bool;
  write_enabled : bool;
}.

Definition frozen : StWriteReadiness :=
  {| backend_connected := false; write_enabled := false |}.

Definition can_write (self : StWriteReadiness) : bool :=
  backend_connected self && write_enabled self.

Definition readiness_require_write (self : StWriteReadiness) : AppResult unit :=
  if can_write self then Ok tt
  else Err (AppError_new ST_WRITE_NOT_READY_CODE ST_WRITE_NOT_READY_MESSAGE 409).

(** [READINESS]: the value of the word; [update] stores, [current] loads. *)
Definition READINESS_init : Z := 0.

Definition update (backend_connected write_enabled : bool) : Z :=
  Z.lor (Z.b2z backend_connected) (Z.shiftl (Z.b2z write_enabled) 1).

Definition current (word : Z) : StWriteReadiness :=
  {| backend_connected := negb (Z.land word 1 =? 0)%Z;
     write_enabled := negb (Z.land word 2 =? 0)%Z |}.

Definition require_write (word : Z) : AppResult unit :=
  readiness_require_write (current word).

(** The readiness word is a faithful, fail-closed store of the two flags.
    Loading after [update] gives back both flags, the word fits a [u8], writes
    pass exactly when both flags were set, and the initial word rejects writes
    with HTTP 409. *)
Lemma readiness_word_faithful b w :
  current (update b w) = {| backend_connected := b; write_enabled := w |}
  /\ (0 <= update b w < 256)%Z
  /\ (require_write (update b w) = Ok tt <-> b = true /\ w = true)
  /\ exists e, require_write READINESS_init = Err e /\ a_status e = 409%Z.
Proof.
  destruct b, w; vm_compute;
    (split; [done |]; split; [split; congruence |]; split;
     [naive_solver | eexists; split; reflexivity]).
Qed.
