(* ===== verification/LockTable.v ===== *)
(** * Keyed locks

    [src/lock_table.rs]: one asynchronous mutex per key in a table of bounded
    size, from which idle locks are evicted.  An [Arc<Mutex<()>>] is the number
    of its allocation; its clones outside the table are the handles of the tasks
    that wait for it or hold its guard, so [Arc::strong_count] is computed.  The
    section of [acquire] under the table's mutex is one step, the wait for the
    key's mutex another: tasks interleave between them, and a waiting task can be
    cancelled.  The iteration order of the [HashMap] is a parameter.

    At the end the lock managers built on it, and the unbounded locks of the
    conversations of the standalone mode. *)

From S2P Require Import Prelude.

Record LockEntry := { le_lock : nat; last_used : Z }.

Record LockTable := { lt_entries : gmap string LockEntry; lt_capacity : nat; lt_ttl : Z }.

Definition LockTable_new (capacity : nat) (ttl : Z) : LockTable :=
  {| lt_entries := ∅; lt_capacity := capacity; lt_ttl := ttl |}.

(** A clone of a key's [Arc] outside the table. *)
Record Handle := { hd_task : nat; hd_key : string; hd_lock : nat }.

(** The table, the allocations so far, and the tasks that wait (in order of
    arrival) or hold a guard. *)
Record LockState := {
  table : LockTable;
  next_lock : nat;
  waiting : list Handle;
  held : list Handle;
}.

Definition handles (st : LockState) : list Handle := waiting st ++ held st.

Definition strong_count (st : LockState) (e : LockEntry) : nat :=
  S (length (filter (λ h, hd_lock h = le_lock e) (handles st))).

(** [Instant::duration_since] saturates at zero. *)
Definition duration_since (now earlier : Z) : Z := Z.max 0 (now - earlier).

Definition with_entries (es : gmap string LockEntry) (st : LockState) : LockState :=
  {| table := {| lt_entries := es; lt_capacity := lt_capacity (table st); lt_ttl := lt_ttl (table st) |};
     next_lock := next_lock st; waiting := waiting st; held := held st |}.

(** [entries.retain(..)]. *)
Definition retained (now : Z) (st : LockState) (e : LockEntry) : bool :=
  (1 <? strong_count st e)%nat || (duration_since now (last_used e) <? lt_ttl (table st))%Z.

Definition retain (now : Z) (st : LockState) : LockState :=
  with_entries (filter (λ ke, retained now st ke.2 = true) (lt_entries (table st))) st.

(** [Iterator::min_by_key(last_used)]: the first of the least. *)
Fixpoint min_by_last_used (l : list (string * LockEntry)) : option (string * LockEntry) :=
  match l with
  | [] => None
  | x :: l =>
      match min_by_last_used l with
      | Some y => if (last_used y.2 <? last_used x.2)%Z then Some y else Some x
      | None => Some x
      end
  end.

Inductive AcquireResult : Set := Entered | AtCapacity.

Section LockTable.
Context (iter : gmap string LockEntry -> list (string * LockEntry)).

(** The idle entry [acquire] evicts when the table is full. *)
Definition victim (st : LockState) : option string :=
  fst <$> min_by_last_used
    (filter (λ ke, strong_count st ke.2 = 1) (iter (lt_entries (table st)))).

(** The entry of [key], its clock set, and the caller's clone of its lock. *)
Definition enter (now : Z) (key : string) (task : nat) (st : LockState) : LockState :=
  let es := lt_entries (table st) in
  let '(lock, next) :=
    match es !! key with
    | Some e => (le_lock e, next_lock st)
    | None => (next_lock st, S (next_lock st))
    end in
  let st := with_entries (<[key := {| le_lock := lock; last_used := now |}]> es) st in
  {| table := table st; next_lock := next;
     waiting := waiting st ++ [{| hd_task := task; hd_key := key; hd_lock := lock |}];
     held := held st |}.

(** The part of [acquire] up to the wait for the key's mutex. *)
Definition acquire (now : Z) (key : string) (task : nat) (st : LockState)
    : LockState * AcquireResult :=
  if (lt_capacity (table st) =? 0)%nat then (st, AtCapacity)
  else
    let st := retain now st in
    let es := lt_entries (table st) in
    if negb (bool_decide (is_Some (es !! key))) && (lt_capacity (table st) <=? size es)%nat then
      match victim st with
      | None => (st, AtCapacity)
      | Some v => (enter now key task (with_entries (delete v es) st), Entered)
      end
    else (enter now key task st, Entered).

Definition lock_len (st : LockState) : nat := size (lt_entries (table st)).

Definition lock_contains (key : string) (st : LockState) : bool :=
  bool_decide (is_Some (lt_entries (table st) !! key)).

Definition active_count (st : LockState) : nat :=
  length (filter (λ ke, 1 < strong_count st ke.2) (iter (lt_entries (table st)))).

Definition prune (now : Z) (st : LockState) : LockState * nat :=
  let st' := retain now st in (st', lock_len st - lock_len st').

(** ** Interleaved tasks *)

(** A key's mutex is free, and [tokio]'s mutex serves its waiters in order. *)
Inductive lock_step : LockState -> LockState -> Prop :=
| step_acquire now key task st : lock_step st (acquire now key task st).1
| step_prune now st : lock_step st (prune now st).1
| step_grant st pre h post :
    waiting st = pre ++ h :: post ->
    Forall (λ h', hd_lock h' <> hd_lock h) pre ->
    Forall (λ h', hd_lock h' <> hd_lock h) (held st) ->
    lock_step st {| table := table st; next_lock := next_lock st;
                    waiting := pre ++ post; held := h :: held st |}
| step_cancel st pre h post :
    waiting st = pre ++ h :: post ->
    lock_step st {| table := table st; next_lock := next_lock st;
                    waiting := pre ++ post; held := held st |}
| step_release st pre h post :
    held st = pre ++ h :: post ->
    lock_step st {| table := table st; next_lock := next_lock st;
                    waiting := waiting st; held := pre ++ post |}.

Definition lock_init (capacity : nat) (ttl : Z) : LockState :=
  {| table := LockTable_new capacity ttl; next_lock := 0; waiting := []; held := [] |}.
End LockTable.

(** ** The table's invariant *)

(** Every handle is of the lock the table has under its key; no two keys share a
    lock; a lock has at most one guard; the table is within its capacity. *)
Record lock_inv (st : LockState) : Prop := {
  inv_handles : forall h, h ∈ handles st ->
    exists e, lt_entries (table st) !! hd_key h = Some e /\ le_lock e = hd_lock h;
  inv_unshared : forall k k' e e',
    lt_entries (table st) !! k = Some e -> lt_entries (table st) !! k' = Some e' ->
    le_lock e = le_lock e' -> k = k';
  inv_allocated : forall k e, lt_entries (table st) !! k = Some e -> le_lock e < next_lock st;
  inv_guards : NoDup (hd_lock <$> held st);
  inv_size : size (lt_entries (table st)) <= lt_capacity (table st);
}.

Lemma strong_count_handle st e h :
  h ∈ handles st -> hd_lock h = le_lock e -> 1 < strong_count st e.
Proof.
  intros Hh He. unfold strong_count.
  assert (h ∈ filter (λ h, hd_lock h = le_lock e) (handles st)) as Hin
    by (by apply list_elem_of_filter).
  destruct (filter _ (handles st)); [by apply not_elem_of_nil in Hin |]. simpl. lia.
Qed.

(** Removing entries no handle refers to. *)
Lemma shrink_inv st es :
  lock_inv st -> es ⊆ lt_entries (table st) ->
  (forall h e, h ∈ handles st -> lt_entries (table st) !! hd_key h = Some e ->
     le_lock e = hd_lock h -> es !! hd_key h = Some e) ->
  lock_inv (with_entries es st).
Proof.
  intros [Hh Hu Ha Hg Hs] Hsub Hkeep. split; simpl.
  - intros h Hin. destruct (Hh h Hin) as (e & He & Hl). eauto.
  - intros k k' e e' He He'. apply Hu; by eapply lookup_weaken.
  - intros k e He. eapply Ha. by eapply lookup_weaken.
  - done.
  - apply map_subseteq_size in Hsub. lia.
Qed.

Lemma retain_inv now st : lock_inv st -> lock_inv (retain now st).
Proof.
  intros Hinv. apply shrink_inv; [done | apply map_filter_subseteq |].
  intros h e Hh He Hl. apply map_lookup_filter_Some. split; [done |]. simpl.
  unfold retained. apply orb_true_iff. left. apply Nat.ltb_lt.
  by eapply strong_count_handle.
Qed.

(** A new handle of [key], and the refreshed entry it refers to. *)
Lemma enter_handles st key e0 task :
  (forall h, h ∈ handles st ->
     exists e, lt_entries (table st) !! hd_key h = Some e /\ le_lock e = hd_lock h) ->
  (forall e, lt_entries (table st) !! key = Some e -> le_lock e0 = le_lock e) ->
  forall h,
    h ∈ (waiting st ++ [{| hd_task := task; hd_key := key; hd_lock := le_lock e0 |}]) ++ held st ->
    exists e, <[key := e0]> (lt_entries (table st)) !! hd_key h = Some e /\ le_lock e = hd_lock h.
Proof.
  intros Hh He0 h. rewrite <- app_assoc, !elem_of_app, list_elem_of_singleton.
  intros Hin. destruct (decide (hd_key h = key)) as [<-|Hne].
  - rewrite lookup_insert_eq. eexists; split; [done |].
    destruct Hin as [Hin | [-> | Hin]]; [| done |];
      (destruct (Hh h) as (e & He & Hl); [unfold handles; set_solver | rewrite (He0 e); done]).
  - rewrite lookup_insert_ne by done. destruct Hin as [Hin | [-> | Hin]]; [| done |];
      (apply Hh; unfold handles; set_solver).
Qed.

Lemma enter_inv now key task st :
  lock_inv st ->
  (lt_entries (table st) !! key = None ->
   size (lt_entries (table st)) < lt_capacity (table st)) ->
  lock_inv (enter now key task st).
Proof.
  intros [Hh Hu Ha Hg Hs] Hroom. unfold enter.
  destruct (lt_entries (table st) !! key) as [e0|] eqn:Hkey; split; simpl.
  - apply (enter_handles st key {| le_lock := le_lock e0; last_used := now |} task);
      [done | naive_solver].
  - intros k k' e e' He He' Hl. apply lookup_insert_Some in He, He'.
    destruct He as [[<- <-] | [? He]], He' as [[<- <-] | [? He']]; simpl in *; eauto.
  - intros k e [[<- <-] | [? He]]%lookup_insert_Some; simpl; eauto.
  - done.
  - rewrite map_size_insert_Some by (by eexists). done.
  - apply (enter_handles st key {| le_lock := next_lock st; last_used := now |} task);
      [done | naive_solver].
  - intros k k' e e' He He' Hl. apply lookup_insert_Some in He, He'.
    destruct He as [[<- <-] | [? He]], He' as [[<- <-] | [? He']]; simpl in *; eauto;
      [apply Ha in He' | apply Ha in He]; lia.
  - intros k e [[<- <-] | [? He]]%lookup_insert_Some; simpl; [lia |]. apply Ha in He. lia.
  - done.
  - rewrite map_size_insert_None by done. specialize (Hroom eq_refl). lia.
Qed.

Lemma min_by_last_used_elem l x : min_by_last_used l = Some x -> x ∈ l.
Proof.
  revert x. induction l as [|y l IH]; intros x; simpl; [done |].
  destruct (min_by_last_used l) as [z|]; [destruct (_ <? _)%Z |]; intros [= <-];
    rewrite elem_of_cons; auto.
Qed.

Lemma min_by_last_used_None l : min_by_last_used l = None <-> l = [].
Proof.
  destruct l as [|y l]; simpl; [done |]. split; [| done].
  destruct (min_by_last_used l) as [z|]; [destruct (_ <? _)%Z |]; done.
Qed.

Section Correct.
Context (iter : gmap string LockEntry -> list (string * LockEntry)).
Context (iter_perm : forall m, iter m ≡ₚ map_to_list m).

Lemma iter_elem m k e : (k, e) ∈ iter m <-> m !! k = Some e.
Proof. by rewrite iter_perm, elem_of_map_to_list. Qed.

Lemma victim_idle st v :
  victim iter st = Some v ->
  exists e, lt_entries (table st) !! v = Some e /\ strong_count st e = 1.
Proof.
  unfold victim. intros ([k e] & Hmin & ->)%fmap_Some.
  apply min_by_last_used_elem, list_elem_of_filter in Hmin as [Hc Hin%iter_elem]. eauto.
Qed.

Lemma evict_inv st v :
  lock_inv st -> victim iter st = Some v ->
  lock_inv (with_entries (delete v (lt_entries (table st))) st).
Proof.
  intros Hinv (e & He & Hc)%victim_idle. apply shrink_inv; [done | apply delete_subseteq |].
  intros h e' Hh He' Hl. apply lookup_delete_Some. split; [| done]. intros Heq. subst v.
  assert (e' = e) as -> by congruence.
  pose proof (strong_count_handle st e h Hh (eq_sym Hl)). lia.
Qed.

Lemma lock_acquire_inv now key task st : lock_inv st -> lock_inv (acquire iter now key task st).1.
Proof.
  intros Hinv. unfold acquire. destruct (Nat.eqb_spec (lt_capacity (table st)) 0); [done |].
  apply (retain_inv now) in Hinv. set (st' := retain now st) in *. clearbody st'.
  case_bool_decide as Hkey; cbn [negb andb].
  { apply enter_inv; [done |]. intros Hn. rewrite Hn in Hkey. by destruct Hkey. }
  destruct (Nat.leb_spec (lt_capacity (table st')) (size (lt_entries (table st')))) as [Hfull|Hroom].
  - destruct (victim iter st') as [v|] eqn:Hv; [| done].
    pose proof (victim_idle _ _ Hv) as (e & He & _). pose proof (inv_size _ Hinv).
    apply enter_inv; [by apply evict_inv |]. intros _. simpl.
    rewrite map_size_delete_Some by (by eexists).
    assert (size (lt_entries (table st')) <> 0); [| lia].
    intros Hz%map_size_empty_inv. by rewrite Hz, lookup_empty in He.
  - by apply enter_inv.
Qed.

(** Moving handles between waiting, held and gone. *)
Lemma handles_inv st w h :
  lock_inv st -> w ++ h ⊆ handles st -> NoDup (hd_lock <$> h) ->
  lock_inv {| table := table st; next_lock := next_lock st; waiting := w; held := h |}.
Proof. intros [Hh Hu Ha Hg Hs] Hsub Hn. split; simpl; eauto. Qed.

Lemma lock_step_inv st st' : lock_inv st -> lock_step iter st st' -> lock_inv st'.
Proof.
  intros Hinv. destruct 1 as [now key task st|now st|st pre h post Hw Hpre Hheld|st pre h post Hw|st pre h post Hh].
  - by apply lock_acquire_inv.
  - by apply retain_inv.
  - apply handles_inv; [done | unfold handles; rewrite Hw; set_solver |].
    simpl. apply NoDup_cons. split; [| by apply inv_guards].
    intros (h' & Heq & Hin)%list_elem_of_fmap. rewrite Forall_forall in Hheld.
    by apply (Hheld h').
  - apply handles_inv; [done | unfold handles; rewrite Hw; set_solver | by apply inv_guards].
  - apply handles_inv; [done | unfold handles; rewrite Hh; set_solver |].
    pose proof (inv_guards _ Hinv) as Hn. rewrite Hh, fmap_app, fmap_cons in Hn.
    rewrite fmap_app. apply NoDup_app in Hn as (H1 & H2 & H3). apply NoDup_cons in H3 as [_ H3].
    apply NoDup_app. split_and!; [done | | done]. set_solver.
Qed.

Lemma lock_init_inv capacity ttl : lock_inv (lock_init capacity ttl).
Proof.
  split; simpl; try done.
  - intros h Hh. by apply not_elem_of_nil in Hh.
  - constructor.
  - rewrite map_size_empty. lia.
Qed.

Lemma reachable_inv capacity ttl st :
  rtc (lock_step iter) (lock_init capacity ttl) st -> lock_inv st.
Proof.
  intros Hr. pose proof (lock_init_inv capacity ttl) as Hi.
  induction Hr as [|a b c Hab _ IH]; [done |]. eauto using lock_step_inv.
Qed.

Lemma lock_step_capacity st st' :
  lock_step iter st st' -> lt_capacity (table st') = lt_capacity (table st).
Proof.
  destruct 1 as [now key task st| | | |]; try done. unfold acquire, enter.
  destruct (_ =? 0)%nat; [done |]. cbv zeta.
  destruct (_ && _); [destruct (victim _ _); [| done] |];
    (by destruct (_ !! key)).
Qed.

Lemma reachable_capacity capacity ttl st :
  rtc (lock_step iter) (lock_init capacity ttl) st -> lt_capacity (table st) = capacity.
Proof.
  intros Hr. change capacity with (lt_capacity (table (lock_init capacity ttl))).
  induction Hr as [|a b c Hab _ IH]; [done |]. rewrite IH. by apply lock_step_capacity.
Qed.

(** ** When [acquire] refuses *)

(** The entries some task holds or waits for. *)
Definition active_entries (st : LockState) : gmap string LockEntry :=
  filter (λ ke, 1 < strong_count st ke.2) (lt_entries (table st)).

Lemma active_count_size st : active_count iter st = size (active_entries st).
Proof.
  unfold active_count, active_entries. rewrite map_filter_alt, map_size_list_to_map.
  - by rewrite iter_perm.
  - apply NoDup_fmap_fst.
    + intros k e e' [_ He]%list_elem_of_filter [_ He']%list_elem_of_filter.
      apply elem_of_map_to_list in He, He'. congruence.
    + apply NoDup_filter, NoDup_map_to_list.
Qed.

Lemma active_retained now st : active_entries st ⊆ lt_entries (table (retain now st)).
Proof.
  simpl. apply map_filter_subseteq_ext. intros k e _ Hc. simpl in *. unfold retained.
  apply orb_true_iff. left. by apply Nat.ltb_lt.
Qed.

Lemma no_victim_iff st :
  victim iter st = None <-> lt_entries (table st) = active_entries st.
Proof.
  unfold victim. rewrite fmap_None, min_by_last_used_None. unfold active_entries. split.
  - intros Hnil. symmetry. apply map_filter_id. intros k e He. simpl.
    destruct (decide (strong_count st e = 1)) as [H1|]; [| unfold strong_count in *; lia].
    assert ((k, e) ∈ filter (λ ke, strong_count st ke.2 = 1) (iter (lt_entries (table st)))) as Hin
      by (apply list_elem_of_filter; split; [done | by apply iter_elem]).
    rewrite Hnil in Hin. by apply not_elem_of_nil in Hin.
  - intros Heq. apply elem_of_nil_inv. intros [k e] [Hc Hin%iter_elem]%list_elem_of_filter.
    rewrite Heq in Hin. apply map_lookup_filter_Some in Hin as [_ Ha]. simpl in *. lia.
Qed.

(** The table after [retain] is full of active entries. *)
Lemma retained_full now st :
  lock_inv st ->
  (lt_capacity (table st) <= size (lt_entries (table (retain now st)))
   /\ victim iter (retain now st) = None)
  <-> size (active_entries st) = lt_capacity (table st)
      /\ lt_entries (table (retain now st)) = active_entries st.
Proof.
  intros Hinv. rewrite no_victim_iff.
  assert (active_entries (retain now st) = active_entries st) as ->.
  { unfold active_entries. apply map_eq. intros k. apply option_eq. intros e.
    change (strong_count (retain now st)) with (strong_count st).
    rewrite !map_lookup_filter_Some. simpl. rewrite map_lookup_filter_Some. simpl.
    split; [tauto |]. intros [He Hc]. split_and!; [done | | done]. unfold retained.
    apply orb_true_iff. left. by apply Nat.ltb_lt. }
  pose proof (inv_size _ (retain_inv now _ Hinv)) as Hsize. simpl in Hsize.
  split.
  - intros [Hfull Heq]. split; [| done]. rewrite <- Heq. simpl in *. lia.
  - intros [Hn Heq]. split; [| done]. rewrite Heq. lia.
Qed.

Lemma acquire_refuses_iff now key task st :
  lock_inv st ->
  (acquire iter now key task st).2 = AtCapacity <->
  lt_capacity (table st) = 0
  \/ (active_count iter st = lt_capacity (table st) /\ active_entries st !! key = None).
Proof.
  intros Hinv. rewrite active_count_size. unfold acquire.
  destruct (Nat.eqb_spec (lt_capacity (table st)) 0) as [|Hcap]; [naive_solver |].
  pose proof (retained_full now st Hinv) as Hfull.
  pose proof (active_retained now st) as Hsub.
  cbv zeta. change (lt_capacity (table (retain now st))) with (lt_capacity (table st)).
  set (es := lt_entries (table (retain now st))) in *.
  pose proof (inv_size _ (retain_inv now _ Hinv)) as Hsize. change (size es <= lt_capacity (table st)) in Hsize.
  case_bool_decide as Hkey; cbn [negb andb].
  - split; [done |]. intros [? | [Hn Hna]]; [done |].
    rewrite (map_subseteq_size_eq _ _ Hsub ltac:(lia)) in Hna. rewrite Hna in Hkey. by destruct Hkey.
  - apply eq_None_not_Some in Hkey.
    assert (active_entries st !! key = None) as Hna by (by eapply lookup_weaken_None).
    destruct (Nat.leb_spec (lt_capacity (table st)) (size es)) as [Hle|Hlt].
    + destruct (victim iter (retain now st)) as [v|] eqn:Hv.
      * split; [done |]. intros [? | [Hn _]]; [done |].
        destruct Hfull as [_ Hfull]. destruct Hfull as [_ ?]; [| done]. split; [done |].
        symmetry. apply map_subseteq_size_eq; [done | lia].
      * split; [| done]. intros _. right. split; [| done]. by apply Hfull.
    + split; [done |]. intros [? | [Hn _]]; [done |].
      apply map_subseteq_size in Hsub. lia.
Qed.

End Correct.

Lemma NoDup_fmap_coarser {B C} (f : Handle -> B) (g : Handle -> C) l :
  NoDup (f <$> l) -> (forall x y, x ∈ l -> y ∈ l -> g x = g y -> f x = f y) -> NoDup (g <$> l).
Proof.
  intros Hn Hfg. induction l as [|x l IH]; simpl in *; [constructor |].
  apply NoDup_cons in Hn as [Hx Hn]. apply NoDup_cons. split.
  - intros (y & Hxy & Hy)%list_elem_of_fmap. apply Hx, list_elem_of_fmap.
    exists y. split; [| done]. apply Hfg; [by left | by right | done].
  - apply IH; [done |]. intros y z Hy Hz. apply Hfg; by right.
Qed.

Lemma guards_exclusive st : lock_inv st -> NoDup (hd_key <$> held st).
Proof.
  intros Hinv. eapply NoDup_fmap_coarser; [by apply inv_guards |].
  intros x y Hx Hy Hxy.
  destruct (inv_handles _ Hinv x) as (e & He & <-); [unfold handles; set_solver |].
  destruct (inv_handles _ Hinv y) as (e' & He' & <-); [unfold handles; set_solver |].
  rewrite Hxy in He. congruence.
Qed.

(** C34: a key's lock is exclusive although locks are evicted.  In every state any
    number of tasks can reach by acquiring, waiting, being cancelled, releasing and
    pruning in any order, no two tasks hold a guard of the same key, the table
    never outgrows its capacity, and the lock of every waiting or holding task is
    the one the table has under its key, so an evicted lock is never one in use. *)
Theorem keyed_locks_are_exclusive iter capacity ttl st :
  (forall m, iter m ≡ₚ map_to_list m) ->
  rtc (lock_step iter) (lock_init capacity ttl) st ->
  NoDup (hd_key <$> held st)
  /\ lock_len st <= capacity
  /\ (forall h, h ∈ waiting st \/ h ∈ held st ->
        exists e, lt_entries (table st) !! hd_key h = Some e /\ le_lock e = hd_lock h).
Proof.
  intros Hperm Hr. pose proof (reachable_inv iter Hperm _ _ _ Hr) as Hinv.
  split_and!.
  - by apply guards_exclusive.
  - rewrite <- (reachable_capacity iter _ _ _ Hr). by apply inv_size.
  - intros h Hh. apply (inv_handles _ Hinv). unfold handles. set_solver.
Qed.

Lemma enter_queues now key task st :
  held (enter now key task st) = held st
  /\ exists lock, waiting (enter now key task st)
       = waiting st ++ [{| hd_task := task; hd_key := key; hd_lock := lock |}].
Proof. unfold enter. destruct (lt_entries (table st) !! key); split; [done | by eexists | done | by eexists]. Qed.

Lemma acquire_queues iter now key task st :
  held (acquire iter now key task st).1 = held st
  /\ ((acquire iter now key task st).2 = Entered -> exists lock,
        waiting (acquire iter now key task st).1
        = waiting st ++ [{| hd_task := task; hd_key := key; hd_lock := lock |}]).
Proof.
  unfold acquire. destruct (_ =? 0)%nat; [by split |]. cbv zeta.
  destruct (_ && _); [destruct (victim _ _); [| by split] |]; cbn [fst snd];
    (match goal with |- context [enter ?n ?k ?t ?s] =>
       destruct (enter_queues n k t s) as [Hh Hw] end; split; [exact Hh | intros _; exact Hw]).
Qed.

(** A lock is refused only under real load.  In every reachable state [acquire]
    reports [AtCapacity] exactly if the capacity is zero or as many keys as the
    table has room for are in use and the requested key is not among them;
    otherwise the task is queued on the key's lock, behind everyone already
    waiting, and nobody loses a guard. *)
Theorem locks_are_refused_only_under_load iter capacity ttl st now key task :
  (forall m, iter m ≡ₚ map_to_list m) ->
  rtc (lock_step iter) (lock_init capacity ttl) st ->
  let '(st', r) := acquire iter now key task st in
  (r = AtCapacity <->
   capacity = 0 \/ (active_count iter st = capacity /\ active_entries st !! key = None))
  /\ held st' = held st
  /\ (r = Entered -> exists lock,
        waiting st' = waiting st ++ [{| hd_task := task; hd_key := key; hd_lock := lock |}]).
Proof.
  intros Hperm Hr. pose proof (reachable_inv iter Hperm _ _ _ Hr) as Hinv.
  pose proof (acquire_refuses_iff iter Hperm now key task st Hinv) as Hiff.
  rewrite (reachable_capacity iter _ _ _ Hr) in Hiff.
  pose proof (acquire_queues iter now key task st) as Hw.
  destruct (acquire iter now key task st) as [st' r]. simpl in *. tauto.
Qed.

Definition demo_lock_state : LockState :=
  let st := (acquire map_to_list 0 "chat-a" 1 (lock_init 1 60)).1 in
  {| table := table st; next_lock := next_lock st; waiting := [];
     held := [{| hd_task := 1; hd_key := "chat-a"; hd_lock := 0 |}] |}.

Lemma demo_lock_reached : rtc (lock_step map_to_list) (lock_init 1 60) demo_lock_state.
Proof.
  eapply rtc_l; [apply (step_acquire map_to_list 0 "chat-a" 1) |].
  apply rtc_once.
  apply (step_grant map_to_list (acquire map_to_list 0 "chat-a" 1 (lock_init 1 60)).1 []
    {| hd_task := 1; hd_key := "chat-a"; hd_lock := 0 |} []); [reflexivity | constructor | constructor].
Qed.

Lemma keyed_locks_are_exclusive_witness :
  NoDup (hd_key <$> held demo_lock_state)
  /\ lock_len demo_lock_state <= 1
  /\ (forall h, h ∈ waiting demo_lock_state \/ h ∈ held demo_lock_state ->
        exists e, lt_entries (table demo_lock_state) !! hd_key h = Some e /\ le_lock e = hd_lock h).
Proof.
  apply (keyed_locks_are_exclusive map_to_list 1 60 demo_lock_state);
    [done | exact demo_lock_reached].
Defined.

Lemma locks_are_refused_only_under_load_witness :
  let '(st', r) := acquire map_to_list 5 "chat-b" 2 demo_lock_state in
  (r = AtCapacity <->
   1 = 0 \/ (active_count map_to_list demo_lock_state = 1
             /\ active_entries demo_lock_state !! "chat-b" = None))
  /\ held st' = held demo_lock_state
  /\ (r = Entered -> exists lock,
        waiting st' = waiting demo_lock_state
          ++ [{| hd_task := 2; hd_key := "chat-b"; hd_lock := lock |}]).
Proof.
  apply (locks_are_refused_only_under_load map_to_list 1 60 demo_lock_state 5 "chat-b" 2);
    [done | exact demo_lock_reached].
Defined.

(** ** The lock managers

    [src/modules/bridge/locator_locks.rs] and [src/modules/telegram/locks.rs]: a
    [LockTable] each, whose refusal gets a name of its own.
    [src/modules/chat/locks.rs]: the locks of the conversations of the standalone
    mode, an unbounded map from which nothing is ever removed. *)

(** *** Managers of a bounded table *)

Section Managers.
Context (iter : gmap string LockEntry -> list (string * LockEntry)).

(** [acquire(..).await.map_err(..)], up to the wait for the key's mutex. *)
Definition manager_acquire (capacity_error : string) (now : Z) (key : string) (task : nat) (st : LockState)
    : LockState * result unit string :=
  let '(st, r) := acquire iter now key task st in
  (st, match r with Entered => Ok tt | AtCapacity => Err capacity_error end).

Definition locator_acquire : Z -> string -> nat -> LockState -> LockState * result unit string :=
  manager_acquire "LOCATOR_LOCK_CAPACITY".
Definition delivery_acquire : Z -> string -> nat -> LockState -> LockState * result unit string :=
  manager_acquire "DELIVERY_LOCK_CAPACITY".

Definition manager_is_empty (st : LockState) : bool := (lock_len st =? 0)%nat.

(** A manager does to its table what the table's tasks do. *)
Lemma manager_acquire_step error now key task st : lock_step iter st (manager_acquire error now key task st).1.
Proof.
  pose proof (step_acquire iter now key task st) as Hs. unfold manager_acquire.
  by destruct (acquire iter now key task st).
Qed.

(** A task is refused exactly when every lock of a full table is in use and its key
    has none; it changes nobody's guard, and admitted it waits behind the others. *)
Theorem manager_refuses_iff_busy capacity ttl st error now key task :
  (forall m, iter m ≡ₚ map_to_list m) -> rtc (lock_step iter) (lock_init capacity ttl) st ->
  let '(st', r) := manager_acquire error now key task st in
  (is_ok r = false <-> capacity = 0 \/ (active_count iter st = capacity /\ active_entries st !! key = None))
  /\ held st' = held st
  /\ (is_ok r = true -> exists lock,
        waiting st' = waiting st ++ [{| hd_task := task; hd_key := key; hd_lock := lock |}]).
Proof.
  intros Hperm Hr. unfold manager_acquire.
  pose proof (acquire_queues iter now key task st) as [Hheld Hwait].
  pose proof (acquire_refuses_iff iter Hperm now key task st (reachable_inv iter Hperm _ _ _ Hr)) as Hiff.
  rewrite (reachable_capacity iter _ _ _ Hr) in Hiff.
  destruct (acquire iter now key task st) as [st' []]; simpl in *.
  - split_and!; [| done | by intros _; apply Hwait]. split; [done |]. intros Hb. by apply Hiff in Hb.
  - split_and!; [| done | done]. tauto.
Qed.
End Managers.

(** *** The locks of the conversations *)

(** The map, the allocations so far, and the tasks that wait or hold a guard. *)
Record ConvLocks := MkConvLocks {
  cl_inner : gmap string nat;
  cl_next : nat;
  cl_queue : list Handle;
  cl_guards : list Handle;
}.

Definition ConversationLocks_new : ConvLocks := MkConvLocks ∅ 0 [] [].

(** [lock] up to the wait: the entry of the conversation, made when there is none. *)
Definition conversation_lock (conversation_id : string) (task : nat) (st : ConvLocks) : ConvLocks :=
  match cl_inner st !! conversation_id with
  | Some l => MkConvLocks (cl_inner st) (cl_next st) (cl_queue st ++ [{| hd_task := task; hd_key := conversation_id; hd_lock := l |}]) (cl_guards st)
  | None => MkConvLocks (<[conversation_id := cl_next st]> (cl_inner st)) (S (cl_next st))
              (cl_queue st ++ [{| hd_task := task; hd_key := conversation_id; hd_lock := cl_next st |}]) (cl_guards st)
  end.

Inductive conversation_step : ConvLocks -> ConvLocks -> Prop :=
| lock_steps conversation_id task st : conversation_step st (conversation_lock conversation_id task st)
| grant_steps m n pre h post gs :
    Forall (λ h', hd_lock h' <> hd_lock h) pre -> Forall (λ h', hd_lock h' <> hd_lock h) gs ->
    conversation_step (MkConvLocks m n (pre ++ h :: post) gs) (MkConvLocks m n (pre ++ post) (h :: gs))
| cancel_steps m n pre h post gs : conversation_step (MkConvLocks m n (pre ++ h :: post) gs) (MkConvLocks m n (pre ++ post) gs)
| release_steps m n q pre h post : conversation_step (MkConvLocks m n q (pre ++ h :: post)) (MkConvLocks m n q (pre ++ post)).

Record conversation_inv (st : ConvLocks) : Prop := {
  cinv_known : forall h, h ∈ cl_queue st ++ cl_guards st -> cl_inner st !! hd_key h = Some (hd_lock h);
  cinv_injective : forall k k' l, cl_inner st !! k = Some l -> cl_inner st !! k' = Some l -> k = k';
  cinv_below : forall k l, cl_inner st !! k = Some l -> l < cl_next st;
  cinv_once : NoDup (hd_lock <$> cl_guards st);
}.

Lemma conversation_lock_inv conversation_id task st : conversation_inv st -> conversation_inv (conversation_lock conversation_id task st).
Proof.
  intros [Hk Hi Hb Ho]. unfold conversation_lock. destruct (cl_inner st !! conversation_id) as [l|] eqn:Hl; split; simpl; try done.
  - intros h. rewrite <- (assoc_L app), !elem_of_app, list_elem_of_singleton.
    intros [Hh|[->|Hh]]; [apply Hk; set_solver | done | apply Hk; set_solver].
  - intros h. rewrite <- (assoc_L app), !elem_of_app, list_elem_of_singleton.
    assert (forall h, h ∈ cl_queue st ++ cl_guards st ->
              <[conversation_id := cl_next st]> (cl_inner st) !! hd_key h = Some (hd_lock h)) as Hk'.
    { intros h' Hh'%Hk. rewrite lookup_insert_ne; [done |]. congruence. }
    intros [Hh|[->|Hh]]; [apply Hk'; set_solver | by rewrite lookup_insert_eq | apply Hk'; set_solver].
  - intros k k' l [[<- <-]|[? H1]]%lookup_insert_Some [[<- E]|[? H2]]%lookup_insert_Some; eauto.
    + apply Hb in H2. lia.
    + subst. apply Hb in H1. lia.
  - intros k l [[<- <-]|[? H1]]%lookup_insert_Some; [lia |]. apply Hb in H1. lia.
Qed.

Lemma conversation_step_inv st st' : conversation_inv st -> conversation_step st st' -> conversation_inv st'.
Proof.
  intros Hinv Hs. destruct Hs as [c task st|m n pre h post gs Hp Hg|m n pre h post gs|m n q pre h post].
  - by apply conversation_lock_inv.
  - destruct Hinv as [Hk Hi Hb Ho]. split; simpl in *; [| done | done |].
    + intros h' Hh'. apply Hk. set_solver.
    + constructor; [| done]. intros (h' & E & Hh')%list_elem_of_fmap.
      rewrite Forall_forall in Hg. by apply (Hg h').
  - destruct Hinv as [Hk Hi Hb Ho]. split; simpl in *; [| done ..]. intros h' Hh'. apply Hk. set_solver.
  - destruct Hinv as [Hk Hi Hb Ho]. split; simpl in *; [| done | done |].
    + intros h' Hh'. apply Hk. set_solver.
    + rewrite fmap_app in *. apply NoDup_app in Ho as (H1 & H2 & H3%NoDup_cons).
      apply NoDup_app. split_and!; [done | | tauto]. intros x Hx Hx'. apply (H2 x Hx). by right.
Qed.

Lemma conversation_locks_reachable st : rtc conversation_step ConversationLocks_new st -> conversation_inv st.
Proof.
  intros Hr. assert (conversation_inv ConversationLocks_new) as Hi.
  { split; simpl; try done; [intros h Hh; by apply not_elem_of_nil in Hh | constructor]. }
  induction Hr as [|a b c Hab _ IH]; [done |]. eauto using conversation_step_inv.
Qed.

Lemma conversation_lock_kept st st' k l : conversation_step st st' -> cl_inner st !! k = Some l -> cl_inner st' !! k = Some l.
Proof.
  destruct 1 as [c task st| | |]; simpl; [| done ..]. unfold conversation_lock.
  destruct (cl_inner st !! c) eqn:Hc; simpl; [done |]. intros Hl. rewrite lookup_insert_ne; congruence.
Qed.

(** Two tasks never hold the lock of one conversation, and nobody waits for or holds
    another conversation's lock; a conversation keeps its lock for good. *)
Theorem conversation_locks_are_exclusive st :
  rtc conversation_step ConversationLocks_new st ->
  NoDup (hd_key <$> cl_guards st)
  /\ (forall h, h ∈ cl_queue st ++ cl_guards st -> cl_inner st !! hd_key h = Some (hd_lock h))
  /\ (forall st' k l, rtc conversation_step st st' -> cl_inner st !! k = Some l -> cl_inner st' !! k = Some l).
Proof.
  intros Hr. apply conversation_locks_reachable in Hr as [Hk Hi Hb Ho]. split_and!; [| done |].
  - assert (forall h, h ∈ cl_guards st -> cl_inner st !! hd_key h = Some (hd_lock h)) as Hg by set_solver.
    clear Hk. induction (cl_guards st) as [|h gs IH]; [constructor |]. simpl in *.
    apply NoDup_cons in Ho as [Hn Ho]. constructor; [| apply IH; [done | set_solver]].
    intros (h' & E & Hh')%list_elem_of_fmap. apply Hn, list_elem_of_fmap. exists h'. split; [| done].
    assert (cl_inner st !! hd_key h = Some (hd_lock h)) as H1 by (apply Hg; set_solver).
    assert (cl_inner st !! hd_key h' = Some (hd_lock h')) as H2 by (apply Hg; set_solver).
    congruence.
  - intros st' k l Hs. clear -Hs. induction Hs as [|a b c Hab _ IH]; [done |].
    intros Hl. apply IH. by eapply conversation_lock_kept.
Qed.
