(* ===== verification/ConnectorHmac.v ===== *)
(** * Connector request signatures

    [src/modules/bridge/connector_hmac.rs]: the canonical form of a request, its
    HMAC signature, and verification with clock skew and a nonce set.  HMAC and
    SHA-256 (hex) are parameters. *)

From stdpp Require Import pretty.
From S2P Require Import Prelude Text.

Record ConnectorHmacRequest := {
  h_method : string;
  h_path : string;
  h_query : string;
  h_timestamp_unix : Z;
  h_nonce : string;
  h_content_type : string;
  h_body : string;
}.

Inductive ConnectorHmacError : Set :=
| AmbiguousQuery | InvalidPath | MediaType | TimestampSkew | NonceReplay
| InvalidNonce | InvalidKey | SignatureMismatch.

#[export] Instance ConnectorHmacError_eq_dec : EqDecision ConnectorHmacError.
Proof. solve_decision. Defined.

Notation HResult A := (result A ConnectorHmacError).

Definition ALLOWED_CONTENT_TYPE : string := "application/octet-stream".
Definition MAX_SKEW_SECS : Z := 30.

(** ** Nonces *)

Notation MemoryNonceSet := (gmap string Z).

Definition insert_if_fresh (nonce : string) (ts : Z) (self : MemoryNonceSet)
    : MemoryNonceSet * HResult unit :=
  if bool_decide (is_Some (self !! nonce)) then (self, Err NonceReplay)
  else (<[nonce := ts]> self, Ok tt).

Definition prune_older_than (min_ts : Z) (self : MemoryNonceSet) : MemoryNonceSet :=
  filter (λ kv, (min_ts <= kv.2)%Z) self.

(** ** Separators *)

Definition amp : Ascii.ascii := Ascii.ascii_of_nat 38.
Definition eq_sign : Ascii.ascii := Ascii.ascii_of_nat 61.
Definition newline : Ascii.ascii := Ascii.ascii_of_nat 10.

(** ** The canonical query *)

(** The loop over the parts: pairs in order, [seen] the keys so far. *)
Fixpoint query_pairs (parts : list string) (seen : list string)
    : HResult (list (string * string)) :=
  match parts with
  | [] => Ok []
  | part :: parts =>
      if part =?= "" then Err AmbiguousQuery else
      let '(key, value) := default (part, "") (split_once eq_sign part) in
      if (key =?= "") || bool_decide (key ∈ seen) then Err AmbiguousQuery else
      let? rest := query_pairs parts (key :: seen) in
      Ok ((key, value) :: rest)
  end.

Definition pair_le (a b : string * string) : bool := text_le a.1 b.1.

Definition render_pair (kv : string * string) : string :=
  kv.1 +:+ String eq_sign kv.2.

(** The checks and pairs of [normalize_query] for a non-empty query. *)
Definition parse_query (query : string) : HResult (list (string * string)) :=
  if query =?= "" then Ok []
  else if has_byte (Ascii.ascii_of_nat 35) query || has_byte (Ascii.ascii_of_nat 32) query
  then Err AmbiguousQuery
  else query_pairs (split_on amp query) [].

Definition normalize_query (query : string) : HResult string :=
  let? pairs := parse_query query in
  Ok (join amp (map render_pair (sort_by pair_le pairs))).

(** ** Paths and nonces *)

Definition path_is_legal (path : string) : bool :=
  starts_with path "/" && negb (contains path "..") && negb (contains path "//")
  && negb (contains path "?") && negb (contains path "#").

Definition nonce_byte (a : Ascii.ascii) : bool :=
  in_range 65 90 a || in_range 97 122 a || in_range 48 57 a
  || in_range 95 95 a || in_range 45 45 a.

Definition nonce_is_valid (nonce : string) : bool :=
  (8 <=? String.length nonce)%nat && (String.length nonce <=? 128)%nat
  && all_bytes nonce_byte nonce.

Definition ascii_upper (a : Ascii.ascii) : Ascii.ascii :=
  if in_range 97 122 a then Ascii.ascii_of_N (byte_val a - 32) else a.

Fixpoint to_ascii_uppercase (s : string) : string :=
  match s with
  | EmptyString => EmptyString
  | String a r => String (ascii_upper a) (to_ascii_uppercase r)
  end.

(** ** Signing and verifying *)

Section Hmac.
Context (sha256_hex : string -> string) (hmac_hex : string -> string -> string).

(** The [format!] of the seven fields, one per line. *)
Definition canonical_lines (req : ConnectorHmacRequest) (normalized_query : string)
    : list string :=
  [to_ascii_uppercase (h_method req); h_path req; normalized_query;
   pretty (h_timestamp_unix req); h_nonce req; h_content_type req;
   sha256_hex (h_body req)].

Definition canonical_string (req : ConnectorHmacRequest) : HResult string :=
  if negb (h_content_type req =?= ALLOWED_CONTENT_TYPE) then Err MediaType
  else if negb (path_is_legal (h_path req)) then Err InvalidPath
  else
    let? normalized_query := normalize_query (h_query req) in
    Ok (join newline (canonical_lines req normalized_query)).

(** HMAC-SHA256 accepts keys of every length. *)
Definition sign (key canonical : string) : HResult string :=
  if key =?= "" then Err InvalidKey else Ok (hmac_hex key canonical).

(** The checks of [verify] before the nonce is recorded. *)
Definition verify_checks (key : string) (req : ConnectorHmacRequest)
    (provided_hex : string) (now_unix : Z) (seen_nonces : MemoryNonceSet) : HResult unit :=
  if negb (h_content_type req =?= ALLOWED_CONTENT_TYPE) then Err MediaType
  else if negb (path_is_legal (h_path req)) then Err InvalidPath
  else
    let? _ := normalize_query (h_query req) in
    if negb (nonce_is_valid (h_nonce req)) then Err InvalidNonce
    else if (MAX_SKEW_SECS <? Z.abs (h_timestamp_unix req - now_unix))%Z
    then Err TimestampSkew
    else if bool_decide (is_Some (seen_nonces !! h_nonce req)) then Err NonceReplay
    else
      let? canonical := canonical_string req in
      let? expected := sign key canonical in
      let provided := to_ascii_lowercase provided_hex in
      if negb (String.length provided =? String.length expected)%nat
         || negb (provided =?= expected)
      then Err SignatureMismatch else Ok tt.

Definition verify (key : string) (req : ConnectorHmacRequest) (provided_hex : string)
    (now_unix : Z) (seen_nonces : MemoryNonceSet) : MemoryNonceSet * HResult unit :=
  match verify_checks key req provided_hex now_unix seen_nonces with
  | Err e => (seen_nonces, Err e)
  | Ok _ => insert_if_fresh (h_nonce req) (h_timestamp_unix req) seen_nonces
  end.
End Hmac.

(** ** Rendered pairs *)

Lemma split_once_render k v :
  has_byte eq_sign k = false -> split_once eq_sign (render_pair (k, v)) = Some (k, v).
Proof.
  unfold render_pair. simpl. induction k as [|a k IH]; intros Hk.
  - done.
  - simpl in Hk. apply orb_false_iff in Hk as [Ha Hk]. rewrite app_string_cons. simpl.
    rewrite Ha, IH; done.
Qed.

(** ** The query's pairs *)

Definition pair_ok (kv : string * string) : Prop :=
  kv.1 <> "" /\ has_byte eq_sign kv.1 = false /\ has_byte amp kv.1 = false
  /\ has_byte amp kv.2 = false.

Lemma query_pairs_ok parts seen ps :
  Forall (λ p, has_byte amp p = false) parts -> query_pairs parts seen = Ok ps ->
  Forall pair_ok ps /\ NoDup (ps.*1) /\ forall k, k ∈ ps.*1 -> k ∉ seen.
Proof.
  intros Hp. revert seen ps. induction Hp as [|part parts Hpart _ IH]; intros seen ps; simpl.
  - intros [= <-]. split_and!; [constructor | constructor | set_solver].
  - destruct (part =?= ""); [done |].
    assert (exists k v, default (part, "") (split_once eq_sign part) = (k, v)
      /\ has_byte eq_sign k = false /\ has_byte amp k = false /\ has_byte amp v = false)
      as (k & v & -> & Hk & Hka & Hva).
    { destruct (split_once eq_sign part) as [[k v]|] eqn:Hs; simpl.
      - apply split_once_Some in Hs as [-> Hk]. exists k, v. split; [done |].
        rewrite has_byte_app in Hpart. apply orb_false_iff in Hpart as [Hka Hva].
        simpl in Hva. done.
      - exists part, "". split_and!; [done | by apply split_once_None | done | done]. }
    destruct (bool_decide_reflect (k = "")) as [|Hne]; simpl; [done |].
    destruct (bool_decide_reflect (k ∈ seen)) as [|Hns]; [done |].
    destruct (query_pairs parts (k :: seen)) as [rest|] eqn:Hq; [| done]. intros [= <-].
    destruct (IH _ _ Hq) as (Hr & Hnd & Hseen). split_and!.
    + by constructor.
    + constructor; [| done]. intros Hin. by apply (Hseen k Hin); left.
    + simpl. intros k' [->|Hin]%elem_of_cons; [done |]. intros Hs. apply (Hseen k' Hin). by right.
Qed.

Lemma parse_query_ok query ps :
  parse_query query = Ok ps -> Forall pair_ok ps /\ NoDup (ps.*1).
Proof.
  unfold parse_query. destruct (query =?= ""); [intros [= <-]; split; constructor |].
  destruct (_ || _); [done |]. intros Hq.
  by destruct (query_pairs_ok _ _ _ (split_on_parts amp query) Hq) as (? & ? & _).
Qed.

(** A list with distinct keys has one arrangement sorted by key. *)
Lemma sorted_pairs_unique (l l' : list (string * string)) :
  NoDup (l.*1) ->
  StronglySorted (λ a b, pair_le a b = true) l ->
  StronglySorted (λ a b, pair_le a b = true) l' -> l ≡ₚ l' -> l = l'.
Proof.
  intros Hnd Hs. revert l' Hnd. induction Hs as [|x l Hl IH Hx]; intros l' Hnd Hs' Hp.
  { by apply Permutation_nil_l in Hp. }
  destruct Hs' as [|y l' Hl' Hy]; [by apply Permutation_nil_r in Hp |].
  simpl in Hnd. apply NoDup_cons in Hnd as [Hx' Hnd].
  assert (x = y) as ->.
  { destruct (decide (x = y)) as [|Hne]; [done |]. exfalso.
    assert (y ∈ l) as Hyl.
    { assert (y ∈ x :: l) as Hin by (rewrite Hp; left). by apply elem_of_cons in Hin as [|]. }
    assert (x ∈ l') as Hxl.
    { assert (x ∈ y :: l') as Hin by (rewrite <- Hp; left). by apply elem_of_cons in Hin as [|]. }
    apply Hx'. assert (x.1 = y.1) as ->; [| by apply list_elem_of_fmap_2].
    apply text_le_antisym.
    - exact (proj1 (Forall_forall _ _) Hx y Hyl).
    - exact (proj1 (Forall_forall _ _) Hy x Hxl). }
  f_equal. apply IH; [done | done |]. by apply Permutation_cons_inv in Hp.
Qed.

Lemma sort_pairs_sorted l : StronglySorted (λ a b, pair_le a b = true) (sort_by pair_le l).
Proof.
  apply sort_by_sorted.
  - intros a b. apply text_le_total.
  - intros a b c. apply text_le_trans.
Qed.

Lemma render_pairs_inj ps qs :
  Forall pair_ok ps -> Forall pair_ok qs ->
  map render_pair ps = map render_pair qs -> ps = qs.
Proof.
  intros Hp. revert qs. induction Hp as [|[k v] ps (_ & Hk & _) _ IH]; intros qs Hq Heq.
  - by destruct qs.
  - destruct Hq as [|[k' v'] qs (_ & Hk' & _) Hq]; [done |].
    injection Heq as Hr Heq. apply (f_equal (split_once eq_sign)) in Hr.
    rewrite !split_once_render in Hr by done. injection Hr as -> ->.
    f_equal. by apply IH.
Qed.

Lemma render_pair_plain kv : pair_ok kv -> has_byte amp (render_pair kv) = false.
Proof.
  destruct kv as [k v]. intros (_ & _ & Hk & Hv). unfold render_pair.
  rewrite has_byte_app. simpl in *. by rewrite Hk, Hv.
Qed.

Lemma join_rendered_inj ps qs :
  Forall pair_ok ps -> Forall pair_ok qs ->
  join amp (map render_pair ps) = join amp (map render_pair qs) -> ps = qs.
Proof.
  intros Hp Hq Heq. apply render_pairs_inj; [done | done |].
  assert (forall l, Forall pair_ok l -> l <> [] ->
    split_on amp (join amp (map render_pair l)) = map render_pair l
    /\ join amp (map render_pair l) <> "") as Hsplit.
  { intros l Hl Hne. split.
    - apply split_on_join; [by destruct l |]. apply Forall_fmap.
      eapply Forall_impl; [exact Hl |]. apply render_pair_plain.
    - destruct l as [|[k v] l]; [done |]. apply Forall_cons in Hl as [(Hk & _) _].
      destruct k as [|a k]; [done |]. by destruct l. }
  destruct (decide (ps = [])) as [->|Hnp], (decide (qs = [])) as [->|Hnq]; [done | | |].
  - destruct (Hsplit qs Hq Hnq) as [_ Hn]. by rewrite <- Heq in Hn.
  - destruct (Hsplit ps Hp Hnp) as [_ Hn]. by rewrite Heq in Hn.
  - destruct (Hsplit ps Hp Hnp) as [<- _], (Hsplit qs Hq Hnq) as [<- _]. by rewrite Heq.
Qed.

(** The normalized query is canonical.  For two queries that parse, the
    normalized forms are equal exactly if the queries carry the same key/value
    pairs up to order: reordering parameters never changes what is signed, and
    two different parameter sets are never signed the same. *)
Theorem normalized_query_is_canonical q q' ps ps' :
  parse_query q = Ok ps -> parse_query q' = Ok ps' ->
  normalize_query q = normalize_query q' <-> ps ≡ₚ ps'.
Proof.
  intros Hq Hq'. unfold normalize_query. rewrite Hq, Hq'.
  destruct (parse_query_ok _ _ Hq) as [Hok Hnd]. destruct (parse_query_ok _ _ Hq') as [Hok' Hnd'].
  split.
  - intros Heq. injection Heq as Heq.
    apply join_rendered_inj in Heq.
    + by rewrite <- (sort_by_perm pair_le ps), Heq, sort_by_perm.
    + by rewrite sort_by_perm.
    + by rewrite sort_by_perm.
  - intros Hp. do 3 f_equal. apply sorted_pairs_unique.
    + by rewrite sort_by_perm.
    + apply sort_pairs_sorted.
    + apply sort_pairs_sorted.
    + by rewrite !sort_by_perm.
Qed.

Lemma normalized_query_is_canonical_witness :
  parse_query "b=2&a=1" = Ok [("b", "2"); ("a", "1")]
  /\ parse_query "a=1&b=2" = Ok [("a", "1"); ("b", "2")]
  /\ (normalize_query "b=2&a=1" = normalize_query "a=1&b=2"
      <-> [("b", "2"); ("a", "1")] ≡ₚ [("a", "1"); ("b", "2")]).
Proof.
  split; [vm_compute; reflexivity |]. split; [vm_compute; reflexivity |].
  apply (normalized_query_is_canonical "b=2&a=1" "a=1&b=2"); vm_compute; reflexivity.
Defined.

(** ** The canonical string *)

Definition one_line (s : string) : Prop := has_byte newline s = false.

Lemma upper_one_line s : one_line s -> one_line (to_ascii_uppercase s).
Proof.
  unfold one_line. induction s as [|a s IH]; simpl; [done |].
  intros [Ha Hs]%orb_false_iff. rewrite (IH Hs), orb_false_r.
  apply bool_decide_eq_false in Ha. apply bool_decide_eq_false. intros Hu. apply Ha.
  revert Hu. clear. by destruct a as [[] [] [] [] [] [] [] []].
Qed.

Lemma all_bytes_one_line p s :
  p newline = false -> all_bytes p s = true -> one_line s.
Proof.
  unfold one_line. intros Hp. induction s as [|a s IH]; simpl; [done |].
  intros [Ha Hs]%andb_true_iff. rewrite (IH Hs), orb_false_r.
  apply bool_decide_eq_false. by intros ->; rewrite Hp in Ha.
Qed.

Lemma nonce_one_line n : nonce_is_valid n = true -> one_line n.
Proof. intros [_ Hn]%andb_true_iff. by eapply all_bytes_one_line in Hn. Qed.

Definition digit_or_minus (a : Ascii.ascii) : bool := in_range 45 45 a || in_range 48 57 a.

Lemma pretty_N_go_digits (n : N) s :
  all_bytes digit_or_minus s = true -> all_bytes digit_or_minus (pretty_N_go n s) = true.
Proof.
  revert s. induction (N.lt_wf_0 n) as [n _ IH]; intros s Hs.
  destruct (decide (0 < n)%N) as [Hn|Hn].
  - rewrite pretty_N_go_step by done. apply IH; [apply N.div_lt; lia |].
    cbn [all_bytes]. rewrite Hs, andb_true_r. unfold pretty_N_char. by repeat case_match.
  - assert (n = 0)%N as -> by lia. by rewrite pretty_N_go_0.
Qed.

Lemma pretty_Z_one_line (z : Z) : one_line (pretty z).
Proof.
  apply (all_bytes_one_line digit_or_minus); [done |].
  assert (forall p, all_bytes digit_or_minus (pretty (N.pos p)) = true) as Hp.
  { intros p. unfold pretty, pretty_N. rewrite decide_False by done. by apply pretty_N_go_digits. }
  destruct z as [|p|p]; [done | apply Hp |]. unfold pretty, pretty_Z.
  change ("-" +:+ pretty (N.pos p)) with (String (Ascii.ascii_of_nat 45) (pretty (N.pos p))).
  cbn [all_bytes]. apply andb_true_iff. split; [done | apply Hp].
Qed.

Lemma query_pairs_byte d parts seen ps :
  d <> eq_sign -> Forall (λ p, has_byte d p = false) parts -> query_pairs parts seen = Ok ps ->
  Forall (λ kv, has_byte d (render_pair kv) = false) ps.
Proof.
  intros Hd Hp. assert ((eq_sign =?= d) = false) as Hdb by (apply bool_decide_eq_false; congruence).
  revert seen ps. induction Hp as [|part parts Hpart _ IH]; intros seen ps; simpl.
  - intros [= <-]. constructor.
  - destruct (part =?= ""); [done |].
    destruct (default (part, "") (split_once eq_sign part)) as [k v] eqn:Hkv.
    destruct (_ || _); [done |]. destruct (query_pairs parts (k :: seen)) as [rest|] eqn:Hq; [| done].
    intros [= <-]. constructor; [| by eapply IH].
    unfold render_pair. rewrite has_byte_app. cbn [has_byte fst snd]. rewrite Hdb.
    destruct (split_once eq_sign part) as [[k' v']|] eqn:Hs; simpl in Hkv; injection Hkv as <- <-.
    + apply split_once_Some in Hs as [-> _]. rewrite has_byte_app in Hpart.
      cbn [has_byte] in Hpart. by rewrite Hdb in Hpart.
    + by rewrite Hpart.
Qed.

Lemma normalize_one_line q n : one_line q -> normalize_query q = Ok n -> one_line n.
Proof.
  unfold one_line, normalize_query, parse_query. intros Hq.
  destruct (q =?= ""); [by intros [= <-] |]. destruct (_ || _); [done |].
  destruct (query_pairs _ _) as [ps|] eqn:Hp; [| done]. intros [= <-].
  apply join_byte; [done |]. apply Forall_fmap. rewrite sort_by_perm.
  eapply query_pairs_byte in Hp; [exact Hp | done |]. by apply split_on_byte.
Qed.

(** What a request must look like to arrive over HTTP, and what the digest's
    hex form looks like. *)
Definition http_shaped (req : ConnectorHmacRequest) : Prop :=
  one_line (h_method req) /\ one_line (h_path req) /\ one_line (h_query req)
  /\ nonce_is_valid (h_nonce req) = true.

(** The signed string identifies the request.  If two requests (with method,
    path and query free of line feeds and valid nonces) have the same canonical
    string, they agree in method up to case, path, normalized query, timestamp,
    nonce and body digest: a signature of one is valid for no other. *)
Theorem canonical_string_identifies_request sha req req' c :
  (forall s, one_line (sha s)) -> http_shaped req -> http_shaped req' ->
  canonical_string sha req = Ok c -> canonical_string sha req' = Ok c ->
  to_ascii_uppercase (h_method req) = to_ascii_uppercase (h_method req')
  /\ h_path req = h_path req'
  /\ normalize_query (h_query req) = normalize_query (h_query req')
  /\ h_timestamp_unix req = h_timestamp_unix req' /\ h_nonce req = h_nonce req'
  /\ sha (h_body req) = sha (h_body req').
Proof.
  intros Hsha. unfold canonical_string.
  assert (forall r n, http_shaped r -> h_content_type r = ALLOWED_CONTENT_TYPE ->
    normalize_query (h_query r) = Ok n -> Forall one_line (canonical_lines sha r n)) as Hlines.
  { intros r n (Hm & Hp & Hq & Hn) Hct Hnorm. unfold canonical_lines. rewrite Hct.
    apply Forall_cons; split; [by apply upper_one_line |].
    apply Forall_cons; split; [done |].
    apply Forall_cons; split; [by eapply normalize_one_line |].
    apply Forall_cons; split; [apply pretty_Z_one_line |].
    apply Forall_cons; split; [by apply nonce_one_line |].
    apply Forall_cons; split; [done |].
    apply Forall_cons; split; [apply Hsha | constructor]. }
  intros Hr Hr'.
  destruct (bool_decide_reflect (h_content_type req = ALLOWED_CONTENT_TYPE)) as [Hct|]; [| done].
  destruct (bool_decide_reflect (h_content_type req' = ALLOWED_CONTENT_TYPE)) as [Hct'|]; [| done].
  cbn [negb]. destruct (path_is_legal (h_path req)); [| done].
  destruct (path_is_legal (h_path req')); [| done]. cbn [negb].
  destruct (normalize_query (h_query req)) as [n|] eqn:Hn; [| done].
  destruct (normalize_query (h_query req')) as [n'|] eqn:Hn'; [| done].
  intros Hc Hc'. assert (join newline (canonical_lines sha req n)
    = join newline (canonical_lines sha req' n')) as Heq by congruence.
  apply join_inj in Heq; [| done | done | by apply Hlines | by apply Hlines].
  unfold canonical_lines in Heq. injection Heq as Hm Hp Hq Ht Hnn _ Hb.
  apply (inj pretty) in Ht. split_and!; try done. congruence.
Qed.

Definition demo_hmac_request (query : string) : ConnectorHmacRequest :=
  {| h_method := "post"; h_path := "/commit"; h_query := query; h_timestamp_unix := 1000;
     h_nonce := "abcdef0123456789"; h_content_type := ALLOWED_CONTENT_TYPE; h_body := "{}" |}.

Definition demo_sha_hex (s : string) : string := "00".

Lemma canonical_string_identifies_request_witness :
  exists c, canonical_string demo_sha_hex (demo_hmac_request "b=2&a=1") = Ok c
    /\ canonical_string demo_sha_hex (demo_hmac_request "a=1&b=2") = Ok c
    /\ normalize_query "b=2&a=1" = normalize_query "a=1&b=2".
Proof.
  eexists. split; [vm_compute; reflexivity |]. split; [vm_compute; reflexivity |].
  eapply (canonical_string_identifies_request demo_sha_hex
            (demo_hmac_request "b=2&a=1") (demo_hmac_request "a=1&b=2"));
    [done | by split_and! | by split_and! | vm_compute; reflexivity | vm_compute; reflexivity].
Defined.

(** ** Replay protection *)

(** The verifier's life: verifications and prunings, each at a time. *)
Inductive HmacEvent :=
| EvVerify (key : string) (req : ConnectorHmacRequest) (provided : string) (now : Z)
| EvPrune (min_ts now : Z).

Definition event_time (e : HmacEvent) : Z :=
  match e with EvVerify _ _ _ now => now | EvPrune _ now => now end.

(** The time of the last event, [now] before the first. *)
Fixpoint last_time (now : Z) (es : list HmacEvent) : Z :=
  match es with [] => now | e :: es => last_time (event_time e) es end.

(** A pruning drops only nonces that the skew check rejects anyway. *)
Definition event_ok (e : HmacEvent) : Prop :=
  match e with EvVerify _ _ _ _ => True | EvPrune min_ts now => (min_ts <= now - MAX_SKEW_SECS)%Z end.

Section Replay.
Context (sha256_hex : string -> string) (hmac_hex : string -> string -> string).

Definition hmac_step (e : HmacEvent) (s : MemoryNonceSet) : MemoryNonceSet :=
  match e with
  | EvVerify key req provided now => fst (verify sha256_hex hmac_hex key req provided now s)
  | EvPrune min_ts _ => prune_older_than min_ts s
  end.

Definition hmac_run (es : list HmacEvent) (s : MemoryNonceSet) : MemoryNonceSet :=
  foldl (λ s e, hmac_step e s) s es.

(** The nonce is remembered, or its timestamp is too old for every time from
    [now] on. *)
Definition spent (req : ConnectorHmacRequest) (now : Z) (s : MemoryNonceSet) : Prop :=
  s !! h_nonce req = Some (h_timestamp_unix req)
  \/ (h_timestamp_unix req < now - MAX_SKEW_SECS)%Z.

Lemma verify_keeps key req provided now s n ts :
  s !! n = Some ts -> fst (verify sha256_hex hmac_hex key req provided now s) !! n = Some ts.
Proof.
  intros Hn. unfold verify. destruct (verify_checks _ _ _ _ _ _ _); simpl; [| done].
  unfold insert_if_fresh.
  destruct (bool_decide_reflect (is_Some (s !! h_nonce req))) as [|Hf]; simpl; [done |].
  rewrite lookup_insert_ne; [done |]. intros Heq. apply Hf. rewrite Heq. by eexists.
Qed.

Lemma spent_step req now e s :
  event_ok e -> (now <= event_time e)%Z -> spent req now s ->
  spent req (event_time e) (hmac_step e s).
Proof.
  intros Hok Ht [Hs|Hs]; [| right; lia].
  destruct e as [key r provided t|min_ts t]; simpl in *.
  - left. by apply verify_keeps.
  - destruct (decide (min_ts <= h_timestamp_unix req)%Z) as [Hle|Hgt].
    + left. by apply map_lookup_filter_Some.
    + right. lia.
Qed.

Lemma spent_run req now es s :
  Forall event_ok es -> StronglySorted Z.le (now :: map event_time es) -> spent req now s ->
  spent req (last_time now es) (hmac_run es s).
Proof.
  intros Hok. revert now s. induction Hok as [|e es He Hes IH]; intros now s Hsort Hs; [done |].
  apply StronglySorted_inv in Hsort as [Hsort Hall]. simpl in Hall.
  apply Forall_cons in Hall as [Hle _].
  exact (IH (event_time e) (hmac_step e s) Hsort (spent_step req now e s He Hle Hs)).
Qed.

Lemma spent_rejected key req provided now s :
  spent req now s -> exists e, verify sha256_hex hmac_hex key req provided now s = (s, Err e).
Proof.
  intros Hs. unfold verify. destruct (verify_checks _ _ _ _ _ _ _) as [[]|e] eqn:Hc;
    [exfalso | by eexists].
  revert Hc. unfold verify_checks. destruct (negb _); [done |]. destruct (negb _); [done |].
  destruct (normalize_query _); [| done]. destruct (negb _); [done |].
  destruct (Z.ltb_spec MAX_SKEW_SECS (Z.abs (h_timestamp_unix req - now))); [done |].
  destruct Hs as [Hs|Hs]; [| lia].
  rewrite Hs. rewrite (bool_decide_eq_true_2 (is_Some (Some (h_timestamp_unix req)))) by by eexists.
  done.
Qed.
End Replay.

(** C36: no request is accepted twice.  Once [verify] has accepted a request,
    every later verification of it (with any signature and key) is rejected and
    changes nothing, whatever requests were verified in between and whatever
    was pruned, as long as time does not run backwards and prunings keep the
    nonces of the last [MAX_SKEW_SECS] seconds. *)
Theorem request_accepted_once sha hmac key req provided now s s' es key' provided' now' :
  verify sha hmac key req provided now s = (s', Ok tt) ->
  Forall event_ok es -> StronglySorted Z.le (now :: map event_time es) ->
  (last_time now es <= now')%Z ->
  exists e, verify sha hmac key' req provided' now' (hmac_run sha hmac es s')
            = (hmac_run sha hmac es s', Err e).
Proof.
  intros Hv Hok Hsort Hnow. apply spent_rejected.
  assert (spent req now s') as Hs.
  { left. revert Hv. unfold verify. destruct (verify_checks _ _ _ _ _ _ _); [| done].
    unfold insert_if_fresh. destruct (bool_decide _); [done |]. intros [= <-].
    apply lookup_insert_eq. }
  destruct (spent_run sha hmac req now es s' Hok Hsort Hs) as [Hin|Hold]; [by left | right; lia].
Qed.

Definition demo_hmac (key msg : string) : string := "ab".

Lemma request_accepted_once_witness :
  let req := demo_hmac_request "a=1" in
  match verify demo_sha_hex demo_hmac "k" req "AB" 1010 ∅ with
  | (s', Ok _) =>
      exists e, verify demo_sha_hex demo_hmac "k" req "AB" 1020
                  (hmac_run demo_sha_hex demo_hmac [EvPrune 980 1015] s')
                = (hmac_run demo_sha_hex demo_hmac [EvPrune 980 1015] s', Err e)
  | (_, Err _) => False
  end.
Proof.
  intros req.
  assert (is_ok (snd (verify demo_sha_hex demo_hmac "k" req "AB" 1010 ∅)) = true) as Hok
    by (vm_compute; reflexivity).
  destruct (verify demo_sha_hex demo_hmac "k" req "AB" 1010 ∅) as [s' [[]|e]] eqn:Hv;
    [| discriminate Hok].
  apply (request_accepted_once demo_sha_hex demo_hmac "k" req "AB" 1010 ∅ s' [EvPrune 980 1015]
           "k" "AB" 1020); [exact Hv | | | simpl; lia].
  - apply Forall_singleton. unfold event_ok, MAX_SKEW_SECS. lia.
  - apply SSorted_cons; [apply SSorted_cons; [apply SSorted_nil | apply Forall_nil_2] |].
    apply Forall_singleton. simpl. lia.
Defined.
