(* ===== verification/Sse.v ===== *)
(** * The server-sent-events decoder

    [src/adapters/st/sse.rs]: the incremental line and event decoder with its
    size limits, and the decoding of one generation event.  A [Vec<u8>] or a
    [String] is its bytes; [serde_json::from_str] is a parameter. *)

From S2P Require Import Prelude Text StDomain.

Inductive StSseEvent : Type :=
| Heartbeat
| Message (event : option string) (data : string).

Inductive SseDecodeError : Set :=
| LineTooLarge | EventTooLarge | InvalidUtf8 | InvalidJson | InvalidPayload
| UnsupportedOutput | Truncated.

Notation SResult A := (result A SseDecodeError).

Record StSseStreamDecoder := {
  line : string;
  data : list string;
  event : option string;
  event_bytes : Z;
  skip_lf : bool;
  max_line : Z;
  max_event : Z;
  bom_prefix : string;
  bom_checked : bool;
}.

Definition decoder_new (max_line max_event : Z) : StSseStreamDecoder :=
  {| line := ""; data := []; event := None; event_bytes := 0; skip_lf := false;
     max_line := max_line; max_event := max_event; bom_prefix := ""; bom_checked := false |}.

(** Assignments to the fields. *)
Definition set_line (l : string) (d : StSseStreamDecoder) : StSseStreamDecoder :=
  {| line := l; data := data d; event := event d; event_bytes := event_bytes d;
     skip_lf := skip_lf d; max_line := max_line d; max_event := max_event d;
     bom_prefix := bom_prefix d; bom_checked := bom_checked d |}.

Definition set_skip_lf (b : bool) (d : StSseStreamDecoder) : StSseStreamDecoder :=
  {| line := line d; data := data d; event := event d; event_bytes := event_bytes d;
     skip_lf := b; max_line := max_line d; max_event := max_event d;
     bom_prefix := bom_prefix d; bom_checked := bom_checked d |}.

Definition set_event (ds : list string) (e : option string) (n : Z) (d : StSseStreamDecoder)
    : StSseStreamDecoder :=
  {| line := line d; data := ds; event := e; event_bytes := n;
     skip_lf := skip_lf d; max_line := max_line d; max_event := max_event d;
     bom_prefix := bom_prefix d; bom_checked := bom_checked d |}.

Definition set_bom (p : string) (b : bool) (d : StSseStreamDecoder) : StSseStreamDecoder :=
  {| line := line d; data := data d; event := event d; event_bytes := event_bytes d;
     skip_lf := skip_lf d; max_line := max_line d; max_event := max_event d;
     bom_prefix := p; bom_checked := b |}.

Definition cr : Ascii.ascii := Ascii.ascii_of_nat 13.
Definition lf : Ascii.ascii := Ascii.ascii_of_nat 10.
Definition colon : Ascii.ascii := Ascii.ascii_of_nat 58.

Definition blen (s : string) : Z := Z.of_nat (String.length s).

(** [value.strip_prefix(' ').unwrap_or(value)]. *)
Definition strip_space (value : string) : string :=
  match value with
  | String a r => if a =?= Ascii.ascii_of_nat 32 then r else value
  | EmptyString => value
  end.

(** [finish_line] takes the line out of the decoder first. *)
Definition finish_line (self : StSseStreamDecoder)
    : SResult (StSseStreamDecoder * list StSseEvent) :=
  let bytes := line self in
  let self := set_line "" self in
  if negb (utf8_valid bytes) then Err InvalidUtf8
  else if bytes =?= "" then
    let out :=
      if negb (bool_decide (data self = [])) || bool_decide (is_Some (event self))
      then [Message (event self) (join lf (data self))] else [] in
    Ok (set_event [] None 0 self, out)
  else if starts_with bytes (byte_str colon) then Ok (self, [Heartbeat])
  else
    let n := (event_bytes self + (blen bytes + 1))%Z in
    if (2 ^ 64 <=? n)%Z then Err EventTooLarge
    else if (max_event self <? n)%Z then Err EventTooLarge
    else
      let '(field, value) := default (bytes, "") (split_once colon bytes) in
      let value := strip_space value in
      Ok (if field =?= "data" then set_event (data self ++ [value]) (event self) n self
          else if field =?= "event" then set_event (data self) (Some value) n self
          else set_event (data self) (event self) n self, []).

(** One round of the loop of [process_bytes]. *)
Definition process_byte (byte : Ascii.ascii) (self : StSseStreamDecoder)
    : SResult (StSseStreamDecoder * list StSseEvent) :=
  if skip_lf self && (byte =?= lf) then Ok (set_skip_lf false self, [])
  else
    let self := if skip_lf self then set_skip_lf false self else self in
    if (byte =?= cr) || (byte =?= lf) then
      let? (self, out) := finish_line self in
      Ok (set_skip_lf (byte =?= cr) self, out)
    else if (max_line self <=? blen (line self))%Z then Err LineTooLarge
    else Ok (set_line (line self +:+ byte_str byte) self, []).

Fixpoint process_bytes (bytes : string) (self : StSseStreamDecoder)
    : SResult (StSseStreamDecoder * list StSseEvent) :=
  match bytes with
  | EmptyString => Ok (self, [])
  | String byte bytes =>
      let? (self, out) := process_byte byte self in
      let? (self, rest) := process_bytes bytes self in
      Ok (self, out ++ rest)
  end.

Definition BOM : string :=
  String (Ascii.ascii_of_nat 239) (String (Ascii.ascii_of_nat 187)
    (String (Ascii.ascii_of_nat 191) "")).

Definition push (bytes : string) (self : StSseStreamDecoder)
    : SResult (StSseStreamDecoder * list StSseEvent) :=
  if bom_checked self then process_bytes bytes self
  else
    let needed := 3 - String.length (bom_prefix self) in
    let take := Nat.min needed (String.length bytes) in
    let prefix := bom_prefix self +:+ str_take take bytes in
    let slice := str_drop take bytes in
    if (String.length prefix <? 3)%nat then Ok (set_bom prefix false self, [])
    else
      let self := set_bom "" true self in
      let? (self, out) :=
        (if negb (prefix =?= BOM) then process_bytes prefix self else Ok (self, [])) in
      let? (self, rest) := process_bytes slice self in
      Ok (self, out ++ rest).

Definition finish (self : StSseStreamDecoder) : SResult unit :=
  if negb (bom_checked self) && negb (bom_prefix self =?= "") then Err Truncated
  else if (line self =?= "") && bool_decide (data self = [])
          && negb (bool_decide (is_Some (event self)))
  then Ok tt else Err Truncated.

(** ** Generation events *)

Inductive StGenerationEvent : Type :=
| Ignored
| TextDelta (sequence : Z) (text : string)
| Finished (finish_reason : option string)
| GenRejected (safe_code : string).

Definition is_accepted_finish (e : StGenerationEvent) : bool :=
  match e with
  | Finished (Some r) => (r =?= "stop") || (r =?= "eos") || (r =?= "end_turn")
  | _ => false
  end.

(** The loop over the members of [delta]: [Some r] is an early return. *)
Fixpoint check_delta (members : list (string * Value))
    : option (SResult (list StGenerationEvent)) :=
  match members with
  | [] => None
  | (key, value) :: members =>
      if key =?= "role" then check_delta members
      else if (key =?= "content") || (key =?= "reasoning_content") then
        if negb (value_is_null value) && negb (bool_decide (is_Some (value_as_str value)))
        then Some (Err InvalidPayload)
        else check_delta members
      else if (key =?= "tool_calls") || (key =?= "function_call") then
        Some (Ok [GenRejected "ST_GENERATION_UNSUPPORTED_OUTPUT"])
      else Some (Err UnsupportedOutput)
  end.

Definition allowed_metadata : list string :=
  ["choices"; "usage"; "id"; "object"; "created"; "model"; "system_fingerprint"].

Definition content_events (delta : list (string * Value)) (sequence : Z)
    : SResult (list StGenerationEvent) :=
  match assoc_get "content" delta with
  | None | Some JNull => Ok []
  | Some content =>
      let? content := ok_or (value_as_str content) InvalidPayload in
      Ok (if content =?= "" then [] else [TextDelta sequence content])
  end.

Definition finish_events (choice : list (string * Value)) : SResult (list StGenerationEvent) :=
  match assoc_get "finish_reason" choice with
  | None | Some JNull => Ok []
  | Some finish_reason =>
      let? reason := ok_or (value_as_str finish_reason) InvalidPayload in
      if is_blank reason then Err InvalidPayload else Ok [Finished (Some reason)]
  end.

Section Generation.
Context (from_str : string -> option Value).

Definition decode_st_generation_event (data : string) (sequence : Z)
    : SResult (list StGenerationEvent) :=
  let trimmed := trim data in
  if trimmed =?= "" then Ok [Ignored]
  else if trimmed =?= "[DONE]" then Ok [Finished (Some "stop")]
  else
    let? parsed := ok_or (from_str trimmed) InvalidJson in
    if bool_decide (is_Some (assoc_get "error" (default [] (value_as_object parsed)))) then
      Ok [GenRejected "ST_GENERATION_FAILED"]
    else
      let? parsed := ok_or (value_as_object parsed) InvalidPayload in
      let? choices := ok_or (assoc_get "choices" parsed ≫= value_as_array) UnsupportedOutput in
      match choices with
      | [] =>
          if forallb (λ m, bool_decide (m.1 ∈ allowed_metadata)) parsed
             && existsb (λ m, negb (m.1 =?= "choices")) parsed
          then Ok [Ignored] else Err InvalidPayload
      | choice :: _ =>
          let? choice := ok_or (value_as_object choice) InvalidPayload in
          if bool_decide (is_Some (assoc_get "message" choice)) then Err UnsupportedOutput
          else
            let? delta :=
              ok_or (assoc_get "delta" choice ≫= value_as_object) InvalidPayload in
            match check_delta delta with
            | Some early => early
            | None =>
                let? text := content_events delta sequence in
                let? finished := finish_events choice in
                Ok (match text ++ finished with [] => [Ignored] | events => events end)
            end
      end.
End Generation.

(** ** Chunking

    The bytes reach [push] in the chunks the transport happens to deliver. *)

Fixpoint push_all (chunks : list string) (self : StSseStreamDecoder)
    : SResult (StSseStreamDecoder * list StSseEvent) :=
  match chunks with
  | [] => Ok (self, [])
  | chunk :: chunks =>
      let? (self, out) := push chunk self in
      let? (self, rest) := push_all chunks self in
      Ok (self, out ++ rest)
  end.

(** Two runs in sequence, outputs concatenated. *)
Definition and_then (r : SResult (StSseStreamDecoder * list StSseEvent))
    (k : StSseStreamDecoder -> SResult (StSseStreamDecoder * list StSseEvent))
    : SResult (StSseStreamDecoder * list StSseEvent) :=
  let? (self, out) := r in let? (self, rest) := k self in Ok (self, out ++ rest).

Lemma and_then_ok s o k : and_then (Ok (s, o)) k = (let? (s', r) := k s in Ok (s', o ++ r)).
Proof. done. Qed.

Lemma and_then_ret k s : and_then (Ok (s, [])) k = k s.
Proof. unfold and_then. by destruct (k s) as [[s' r]|e]. Qed.

Lemma and_then_assoc r k l :
  and_then (and_then r k) l = and_then r (λ s, and_then (k s) l).
Proof.
  unfold and_then. destruct r as [[s o]|e]; simpl; [| done].
  destruct (k s) as [[s1 o1]|e]; simpl; [| done].
  destruct (l s1) as [[s2 o2]|e]; simpl; [| done]. by rewrite app_assoc.
Qed.

Lemma and_then_ext r k l : (forall s, k s = l s) -> and_then r k = and_then r l.
Proof. intros H. unfold and_then. destruct r as [[s o]|e]; simpl; [by rewrite H | done]. Qed.

Lemma process_bytes_cons a b s :
  process_bytes (String a b) s = and_then (process_byte a s) (process_bytes b).
Proof. done. Qed.

Lemma process_bytes_app a b s :
  process_bytes (a +:+ b) s = and_then (process_bytes a s) (process_bytes b).
Proof.
  revert s. induction a as [|c a IH]; intros s.
  - symmetry. apply and_then_ret.
  - rewrite app_string_cons, !process_bytes_cons, and_then_assoc.
    by apply and_then_ext.
Qed.

(** The decoder holds back at most two bytes to look for a byte-order mark. *)
Definition bom_ok (s : StSseStreamDecoder) : Prop :=
  bom_checked s = false -> String.length (bom_prefix s) < 3.

(** What [push] does once three bytes are known. *)
Definition past_bom (prefix : string) (self : StSseStreamDecoder) :=
  let self := set_bom "" true self in
  if negb (prefix =?= BOM) then process_bytes prefix self else Ok (self, []).

Lemma push_unfold b s :
  push b s =
  (if bom_checked s then process_bytes b s else
   let prefix := bom_prefix s +:+ str_take (3 - String.length (bom_prefix s)) b in
   if (String.length prefix <? 3)%nat then Ok (set_bom prefix false s, []) else
   and_then (past_bom prefix s)
     (process_bytes (str_drop (3 - String.length (bom_prefix s)) b))).
Proof.
  unfold push, past_bom, and_then. destruct (bom_checked s); [done |].
  by rewrite str_take_min, str_drop_min.
Qed.

(** The fields a run of [process_bytes] never writes. *)
Definition same_config (s t : StSseStreamDecoder) : Prop :=
  bom_checked t = bom_checked s /\ bom_prefix t = bom_prefix s
  /\ max_line t = max_line s /\ max_event t = max_event s.

Lemma finish_line_config s t o : finish_line s = Ok (t, o) -> same_config s t.
Proof.
  unfold finish_line. destruct (negb (utf8_valid (line s))); [done |].
  destruct (line s =?= ""); [by intros [= <- <-] |].
  destruct (starts_with _ _); [by intros [= <- <-] |]. cbv zeta.
  destruct (_ <=? _)%Z; [done |]. destruct (_ <? _)%Z; [done |].
  destruct (default _ _) as [field value]. intros [= <- <-].
  by destruct (field =?= "data"), (field =?= "event").
Qed.

Lemma process_byte_config a s t o : process_byte a s = Ok (t, o) -> same_config s t.
Proof.
  unfold process_byte. destruct (skip_lf s && (a =?= lf)); [by intros [= <- <-] |].
  set (s' := if skip_lf s then _ else _).
  assert (same_config s s') as (? & ? & ? & ?) by (subst s'; by destruct (skip_lf s)).
  destruct (_ || _).
  - destruct (finish_line s') as [[t' o']|e] eqn:Hf; [| done]. intros [= <- <-].
    apply finish_line_config in Hf as (? & ? & ? & ?).
    unfold same_config. simpl. split_and!; congruence.
  - destruct (_ <=? _)%Z; [done |]. intros [= <- <-]. done.
Qed.

Lemma process_bytes_config b s t o : process_bytes b s = Ok (t, o) -> same_config s t.
Proof.
  revert s t o. induction b as [|a b IH]; intros s t o; [by intros [= <- <-] |].
  rewrite process_bytes_cons. unfold and_then.
  destruct (process_byte a s) as [[s1 o1]|e] eqn:H1; [| done].
  destruct (process_bytes b s1) as [[s2 o2]|e] eqn:H2; [| done]. intros [= <- <-].
  apply process_byte_config in H1 as (? & ? & ? & ?).
  apply IH in H2 as (? & ? & ? & ?). split_and!; congruence.
Qed.

Lemma past_bom_checked p s t o : past_bom p s = Ok (t, o) -> bom_checked t = true.
Proof.
  unfold past_bom. destruct (negb _); [| by intros [= <- <-]].
  by intros [H _]%process_bytes_config.
Qed.

Lemma and_then_inv r k t o :
  and_then r k = Ok (t, o) ->
  exists s o1 o2, r = Ok (s, o1) /\ k s = Ok (t, o2) /\ o = o1 ++ o2.
Proof.
  unfold and_then. destruct r as [[s o1]|e]; [| done].
  destruct (k s) as [[t' o2]|e] eqn:Hk; [| done]. intros [= <- <-]. eauto 10.
Qed.

Lemma push_bom_ok b s t o : push b s = Ok (t, o) -> bom_ok t.
Proof.
  rewrite push_unfold. destruct (bom_checked s) eqn:Hc.
  - intros [H _]%process_bytes_config ?. congruence.
  - cbv zeta. destruct (Nat.ltb_spec (String.length (bom_prefix s +:+
      str_take (3 - String.length (bom_prefix s)) b)) 3).
    + intros [= <- <-] _. done.
    + intros (s1 & o1 & o2 & H1%past_bom_checked & [H2 _]%process_bytes_config & _)%and_then_inv ?.
      congruence.
Qed.

Lemma and_then_push_checked r b :
  (forall t o, r = Ok (t, o) -> bom_checked t = true) ->
  and_then r (push b) = and_then r (process_bytes b).
Proof.
  intros H. unfold and_then. destruct r as [[t o]|e]; [| done].
  rewrite push_unfold. by rewrite (H _ _ eq_refl).
Qed.

Lemma push_app a b s :
  bom_ok s -> push (a +:+ b) s = and_then (push a s) (push b).
Proof.
  intros Hok. rewrite (push_unfold (a +:+ b)), (push_unfold a).
  destruct (bom_checked s) eqn:Hc.
  { rewrite process_bytes_app, and_then_push_checked; [done |].
    intros t o [H _]%process_bytes_config. congruence. }
  specialize (Hok Hc). cbv zeta. set (p := bom_prefix s) in *.
  rewrite str_take_app, str_drop_app, app_string_assoc.
  set (pa := p +:+ str_take (3 - String.length p) a).
  assert (String.length pa = String.length p
    + Nat.min (3 - String.length p) (String.length a)) as Hpa
    by (subst pa; by rewrite app_string_length, str_take_length).
  destruct (Nat.ltb_spec (String.length pa) 3) as [Hlt | Hge].
  - assert (3 - String.length p - String.length a = 3 - String.length pa) as -> by lia.
    rewrite (str_drop_ge _ a) by lia. rewrite and_then_ret, push_unfold. simpl.
    cbv zeta. reflexivity.
  - assert (3 - String.length p - String.length a = 0) as -> by lia.
    assert (str_take 0 b = "") as -> by (by destruct b).
    assert (str_drop 0 b = b) as -> by (by destruct b).
    assert (pa +:+ "" = pa) as -> by (clear; induction pa as [|c pa IH]; [done |];
      by rewrite app_string_cons, IH).
    destruct (Nat.ltb_spec (String.length pa) 3) as [|_]; [lia |].
    rewrite and_then_push_checked.
    + rewrite and_then_assoc. apply and_then_ext. intros. apply process_bytes_app.
    + intros t o (s1 & o1 & o2 & H1%past_bom_checked & [H2 _]%process_bytes_config & _)%and_then_inv.
      congruence.
Qed.

Lemma push_all_cons c cs s : push_all (c :: cs) s = and_then (push c s) (push_all cs).
Proof. done. Qed.

Lemma push_nil s : bom_ok s -> push "" s = Ok (s, []).
Proof.
  intros Hok. rewrite push_unfold. destruct (bom_checked s) eqn:Hc; [done |].
  specialize (Hok Hc). cbv zeta.
  assert (str_take (3 - String.length (bom_prefix s)) "" = "") as -> by (by destruct (3 - _)).
  assert (bom_prefix s +:+ "" = bom_prefix s) as -> by (clear;
    induction (bom_prefix s) as [|c pa IH]; [done |]; by rewrite app_string_cons, IH).
  destruct (Nat.ltb_spec (String.length (bom_prefix s)) 3); [| lia].
  destruct s; simpl in *. by subst.
Qed.

Lemma push_all_concat cs s : bom_ok s -> push_all cs s = push (concat_str cs) s.
Proof.
  revert s. induction cs as [|c cs IH]; intros s Hok; [by rewrite push_nil |].
  rewrite push_all_cons. change (concat_str (c :: cs)) with (c +:+ concat_str cs).
  rewrite push_app by done. unfold and_then.
  destruct (push c s) as [[s1 o1]|e] eqn:H1; [| done].
  by rewrite IH by (eapply push_bom_ok; eassumption).
Qed.

Lemma new_bom_ok ml me : bom_ok (decoder_new ml me).
Proof. intros _. simpl. lia. Qed.

(** ** Size limits *)

Definition data_bytes (ds : list string) : Z := foldr (λ d n, blen d + 1 + n)%Z 0%Z ds.
Definition name_bytes (e : option string) : Z := from_option blen 0%Z e.

Definition event_size (e : StSseEvent) : Z :=
  match e with Heartbeat => 0 | Message n d => name_bytes n + blen d end.

(** What a decoder buffers: the open line, and the event under construction. *)
Definition buffers_bounded (s : StSseStreamDecoder) : Prop :=
  (blen (line s) <= max_line s /\ 0 <= max_line s
   /\ data_bytes (data s) + name_bytes (event s) <= event_bytes s
   /\ event_bytes s <= max_event s)%Z.

Lemma blen_app s t : (blen (s +:+ t) = blen s + blen t)%Z.
Proof. unfold blen. rewrite app_string_length. lia. Qed.

Lemma blen_cons a s : (blen (String a s) = 1 + blen s)%Z.
Proof. unfold blen. simpl. lia. Qed.

Lemma blen_nonneg s : (0 <= blen s)%Z.
Proof. unfold blen. lia. Qed.

Lemma data_bytes_app k l : (data_bytes (k ++ l) = data_bytes k + data_bytes l)%Z.
Proof. induction k as [|d k IH]; simpl; [done |]. rewrite IH. lia. Qed.

Lemma data_bytes_nonneg l : (0 <= data_bytes l)%Z.
Proof. induction l as [|d l IH]; simpl; [done |]. pose proof (blen_nonneg d). lia. Qed.

Lemma name_bytes_nonneg e : (0 <= name_bytes e)%Z.
Proof. destruct e; [apply blen_nonneg | done]. Qed.

Lemma join_blen l : (blen (join lf l) <= data_bytes l)%Z.
Proof.
  induction l as [|d [|d' l] IH]; [done | cbn; lia |].
  change (join lf (d :: d' :: l)) with (d +:+ String lf (join lf (d' :: l))).
  rewrite blen_app, blen_cons. change (data_bytes (d :: d' :: l))
    with (blen d + 1 + data_bytes (d' :: l))%Z. lia.
Qed.

Lemma strip_space_blen v : (blen (strip_space v) <= blen v)%Z.
Proof. destruct v as [|a v]; simpl; [done |]. destruct (_ =?= _); rewrite ?blen_cons; lia. Qed.

Lemma field_value_blen b f v :
  default (b, "") (split_once colon b) = (f, v) -> (blen (strip_space v) <= blen b)%Z.
Proof.
  intros H. etrans; [apply strip_space_blen |].
  destruct (split_once colon b) as [[k w]|] eqn:Hs; simpl in H; injection H as <- <-.
  - apply split_once_Some in Hs as [-> _]. rewrite blen_app, blen_cons.
    pose proof (blen_nonneg k). lia.
  - apply blen_nonneg.
Qed.

Lemma finish_line_bounded s t o :
  buffers_bounded s -> finish_line s = Ok (t, o) ->
  buffers_bounded t /\ Forall (λ e, (event_size e <= max_event s)%Z) o.
Proof.
  intros (Hl & Hml & Hd & He). unfold finish_line. destruct (negb _); [done |].
  pose proof (data_bytes_nonneg (data s)). pose proof (name_bytes_nonneg (event s)).
  destruct (line s =?= ""); [| destruct (starts_with _ _)].
  - intros [= <- <-]. split; [repeat split; simpl; try done; lia |].
    destruct (_ || _); [| constructor]. apply Forall_singleton. simpl.
    pose proof (join_blen (data s)). lia.
  - intros [= <- <-]. split; [repeat split; simpl; try done; lia |].
    apply Forall_singleton. simpl. lia.
  - cbn [event_bytes max_event set_line data event].
    destruct (Z.leb_spec (2 ^ 64) (event_bytes s + (blen (line s) + 1))); [done |].
    destruct (Z.ltb_spec (max_event s) (event_bytes s + (blen (line s) + 1))); [done |].
    destruct (default _ _) as [f v] eqn:Hv. apply field_value_blen in Hv.
    pose proof (blen_nonneg (strip_space v)).
    intros [= <- <-]. split; [| constructor]. unfold buffers_bounded.
    destruct (f =?= "data"); [| destruct (f =?= "event")]; simpl;
      rewrite ?data_bytes_app; simpl; change (blen "") with 0%Z; lia.
Qed.

Lemma process_byte_bounded a s t o :
  buffers_bounded s -> process_byte a s = Ok (t, o) ->
  buffers_bounded t /\ Forall (λ e, (event_size e <= max_event s)%Z) o.
Proof.
  intros Hs. unfold process_byte. destruct (skip_lf s && (a =?= lf)).
  { intros [= <- <-]. split; [done | constructor]. }
  set (s' := if skip_lf s then _ else _).
  assert (buffers_bounded s' /\ max_event s' = max_event s) as [Hs' <-]
    by (subst s'; by destruct (skip_lf s)). clearbody s'.
  destruct (_ || _).
  - destruct (finish_line s') as [[t' o']|e] eqn:Hf; [| done]. intros [= <- <-].
    by apply finish_line_bounded in Hf.
  - destruct (Z.leb_spec (max_line s') (blen (line s'))); [done |].
    intros [= <- <-]. split; [| constructor]. destruct Hs' as (? & ? & ? & ?).
    repeat split; simpl; try done. rewrite blen_app. unfold byte_str.
    rewrite blen_cons. change (blen "") with 0%Z. lia.
Qed.

Lemma process_bytes_bounded b s t o :
  buffers_bounded s -> process_bytes b s = Ok (t, o) ->
  buffers_bounded t /\ Forall (λ e, (event_size e <= max_event s)%Z) o.
Proof.
  revert s t o. induction b as [|a b IH]; intros s t o Hs.
  { intros [= <- <-]. split; [done | constructor]. }
  rewrite process_bytes_cons. intros (s1 & o1 & o2 & H1 & H2 & ->)%and_then_inv.
  pose proof (process_byte_config _ _ _ _ H1) as (_ & _ & _ & Hm).
  apply process_byte_bounded in H1 as [Hs1 Ho1]; [| done].
  apply IH in H2 as [Ht Ho2]; [| done]. rewrite Hm in Ho2.
  split; [done |]. by apply Forall_app.
Qed.

Lemma push_bounded b s t o :
  buffers_bounded s -> push b s = Ok (t, o) ->
  buffers_bounded t /\ Forall (λ e, (event_size e <= max_event s)%Z) o
  /\ max_line t = max_line s /\ max_event t = max_event s.
Proof.
  intros Hs. rewrite push_unfold. destruct (bom_checked s).
  { intros H. pose proof (process_bytes_config _ _ _ _ H) as (_ & _ & ? & ?).
    by apply process_bytes_bounded in H as [? ?]. }
  cbv zeta. destruct (Nat.ltb _ _).
  { intros [= <- <-]. split_and!; [exact Hs | constructor | done | done]. }
  intros (s1 & o1 & o2 & H1 & H2 & ->)%and_then_inv.
  assert (buffers_bounded s1 /\ Forall (λ e, (event_size e <= max_event s)%Z) o1
    /\ max_line s1 = max_line s /\ max_event s1 = max_event s) as (Hb & Ho & Hl & Hm).
  { revert H1. unfold past_bom. destruct (negb _).
    2: { intros [= <- <-]. split_and!; [exact Hs | constructor | done | done]. }
    intros H1. pose proof (process_bytes_config _ _ _ _ H1) as (_ & _ & ? & ?).
    by apply process_bytes_bounded in H1 as [? ?]. }
  pose proof (process_bytes_config _ _ _ _ H2) as (_ & _ & ? & ?).
  apply process_bytes_bounded in H2 as [? Ho2]; [| done].
  split_and!; [done | | congruence | congruence].
  apply Forall_app. split; [done |]. by rewrite <- Hm.
Qed.

(** C35: decoding does not depend on how the transport cuts the byte stream:
    pushing any sequence of chunks into a fresh decoder gives exactly the result
    of pushing their concatenation at once, the decoded events, the final state
    and the errors alike, also where a cut falls inside a byte-order mark, a
    CRLF pair or a multi-byte character. *)
Theorem chunking_is_invisible ml me chunks :
  push_all chunks (decoder_new ml me) = push (concat_str chunks) (decoder_new ml me).
Proof. apply push_all_concat, new_bom_ok. Qed.

Lemma push_all_bounded chunks s t o :
  buffers_bounded s -> bom_ok s -> push_all chunks s = Ok (t, o) ->
  buffers_bounded t /\ bom_ok t /\ max_line t = max_line s /\ max_event t = max_event s
  /\ Forall (λ e, (event_size e <= max_event s)%Z) o.
Proof.
  revert s t o. induction chunks as [|c cs IH]; intros s t o Hs Hb.
  { intros [= <- <-]. done. }
  rewrite push_all_cons. intros (s1 & o1 & o2 & H1 & H2 & ->)%and_then_inv.
  pose proof (push_bom_ok _ _ _ _ H1) as Hb1.
  apply push_bounded in H1 as (Hs1 & Ho1 & Hl & Hm); [| done].
  apply IH in H2 as (? & ? & ? & ? & Ho2); [| done | done].
  split_and!; [done | done | congruence | congruence |].
  rewrite Hm in Ho2. by apply Forall_app.
Qed.

(** A stream cannot make the decoder hold or hand out more than its limits
    allow.  Whatever chunks arrive, as long as decoding goes on the open line
    stays within [max_line] bytes, the data lines and the name collected for the
    event under construction, and those of every event handed out, within
    [max_event], and at most two bytes wait for a byte-order mark. *)
Theorem decoder_memory_is_bounded ml me chunks s out :
  (0 <= ml)%Z -> (0 <= me)%Z ->
  push_all chunks (decoder_new ml me) = Ok (s, out) ->
  (blen (line s) <= ml)%Z
  /\ (data_bytes (data s) + name_bytes (event s) <= me)%Z
  /\ (bom_checked s = false -> String.length (bom_prefix s) < 3)
  /\ Forall (λ e, (event_size e <= me)%Z) out.
Proof.
  intros Hl He H. apply push_all_bounded in H as ((? & ? & ? & ?) & Hb & Hml & Hme & Ho);
    [| by repeat split | apply new_bom_ok].
  simpl in *. split_and!; [lia | lia | done | done].
Qed.

Definition sample_chunks : list string :=
  [byte_str (Ascii.ascii_of_nat 239) +:+ byte_str (Ascii.ascii_of_nat 187);
   byte_str (Ascii.ascii_of_nat 191) +:+ "da"; "ta: a" +:+ byte_str cr;
   byte_str lf +:+ byte_str cr; byte_str lf +:+ "data: b"].

Lemma decoder_memory_is_bounded_witness :
  let s := {| line := "data: b"; data := []; event := None; event_bytes := 0;
              skip_lf := false; max_line := 10; max_event := 20; bom_prefix := "";
              bom_checked := true |} in
  let out := [Message None "a"] in
  (blen (line s) <= 10)%Z
  /\ (data_bytes (data s) + name_bytes (event s) <= 20)%Z
  /\ (bom_checked s = false -> String.length (bom_prefix s) < 3)
  /\ Forall (λ e, (event_size e <= 20)%Z) out.
Proof.
  apply (decoder_memory_is_bounded 10 20 sample_chunks); [lia | lia |].
  vm_compute. reflexivity.
Defined.
