(* ===== verification/ErrorMapper.v ===== *)
(** * Error mapper

    [src/modules/bridge/error_mapper.rs]: every failure of the SillyTavern
    backend becomes one [StBridgeError] here.  [serde_json::from_slice] and the
    SHA-256 hex digest are parameters. *)

From stdpp Require Import pretty.
From S2P Require Import Prelude Text Errors StDomain Readiness.

Inductive StFailureFacts : Type :=
| FConnect
| FTimeout
| FHttp (status : Z) (content_type : option string) (body : option string)
| FDecodeInvalidPayload
| FDecodeSettings
| FConnectorUnavailable
| FConnectorAuth
| FConnectorVersion
| FConnectorMediaType
| FControl (code : StErrorCode).

Record StErrorFacts := {
  fact_stage : StErrorStage;
  fact_endpoint_class : option string;
  fact_operation_id : option string;
  fact_commit_state : CommitState;
  fact_attempt : Z;
  fact_duration_ms : option Z;
  fact_failure : StFailureFacts;
}.

Record MappedExtras := {
  ex_upstream_http_status : option Z;
  ex_upstream_code : option string;
  ex_safe_detail : option string;
}.

Definition default_retryable (code : StErrorCode) : bool :=
  match code with
  | StConnectFailed | StRequestTimeout | StCsrfFetchFailed | StCharacterListFailed
  | StChatListFailed | StGenerateRateLimited | StGenerateUpstream5xx
  | StGenerateIdleTimeout | StGenerateHardTimeout | StGenerateStreamInvalid
  | StGenerateEmpty | StConnectorUnavailable | StChatConflict | StBackupFailed
  | StCommitFailed | StDeliveryFailed => true
  | _ => false
  end.

Definition catalog_code (endpoint_class : option string) : StErrorCode :=
  let class := to_ascii_lowercase (default "" endpoint_class) in
  if contains class "chat" then StChatListFailed else StCharacterListFailed.

Definition map_5xx (facts : StErrorFacts)
    : StErrorCode * StErrorStage * bool * CommitState :=
  match fact_stage facts with
  | StageGeneration =>
      (StGenerateUpstream5xx, fact_stage facts, true, fact_commit_state facts)
  | StageCommit =>
      let commit_state :=
        if fact_commit_state facts =?= Unknown then Unknown else NotApplied in
      (StCommitFailed, fact_stage facts, true, commit_state)
  | StageSession =>
      (StCsrfFetchFailed, fact_stage facts, true, fact_commit_state facts)
  | StageConnect =>
      (StConnectFailed, StageConnect, true, fact_commit_state facts)
  | _ =>
      (catalog_code (fact_endpoint_class facts), fact_stage facts, true,
       fact_commit_state facts)
  end.

Definition map_other_4xx (facts : StErrorFacts)
    : StErrorCode * StErrorStage * bool * CommitState :=
  match fact_stage facts with
  | StageGeneration =>
      (StGenerateRejected, fact_stage facts, false, fact_commit_state facts)
  | StageCommit =>
      (StCommitValidationFailed, fact_stage facts, false, fact_commit_state facts)
  | StageSession => (StCsrfMissing, StageSession, false, fact_commit_state facts)
  | StageCatalog =>
      (catalog_code (fact_endpoint_class facts), fact_stage facts, true,
       fact_commit_state facts)
  | StageSnapshot =>
      (StChatPayloadInvalid, fact_stage facts, false, fact_commit_state facts)
  | StageConnect => (StConnectFailed, StageConnect, true, fact_commit_state facts)
  | _ => (StSessionRejected, fact_stage facts, false, fact_commit_state facts)
  end.

(** The [match status] of [map_http], arms in source order. *)
Definition classify_status (facts : StErrorFacts) (status : Z)
    : StErrorCode * StErrorStage * bool * CommitState :=
  if (status =? 403)%Z then
    (StSessionRejected, StageSession, false, fact_commit_state facts)
  else if (status =? 401)%Z then
    (StSessionRejected, StageSession, false, fact_commit_state facts)
  else if (status =? 404)%Z then
    (StChatNotFound, StageSnapshot, false, fact_commit_state facts)
  else if (status =? 409)%Z && (fact_stage facts =?= StageCommit) then
    (StChatConflict, StageCommit, true, NotApplied)
  else if (status =? 413)%Z then
    (StCommitPayloadTooLarge, StageCommit, false, fact_commit_state facts)
  else if (status =? 429)%Z then
    (StGenerateRateLimited, fact_stage facts, true, fact_commit_state facts)
  else if ((200 <=? status) && (status <=? 299))%Z then
    (StChatPayloadInvalid, fact_stage facts, false, fact_commit_state facts)
  else if ((500 <=? status) && (status <=? 599))%Z then map_5xx facts
  else map_other_4xx facts.

Definition safe_message (code : StErrorCode) : string :=
  match code with
  | StConnectFailed => "无法连接 SillyTavern，本次没有写入聊天。"
  | StRequestTimeout => "请求 SillyTavern 超时，本次没有写入聊天。"
  | StCsrfFetchFailed => "无法获取 SillyTavern 会话凭证，本次没有写入聊天。"
  | StCsrfMissing => "SillyTavern 会话缺少必要凭证，本次没有写入聊天。"
  | StSessionRejected => "SillyTavern 拒绝了本次会话，本次没有写入聊天。"
  | StCharacterListFailed => "无法读取 SillyTavern 角色列表，本次没有写入聊天。"
  | StChatListFailed => "无法读取 SillyTavern 聊天列表，本次没有写入聊天。"
  | StChatNotFound => "找不到对应的 SillyTavern 聊天，本次没有写入。"
  | StChatPayloadInvalid => "SillyTavern 返回的聊天内容无法解析，本次没有写入聊天。"
  | StSettingsInvalid => "SillyTavern 设置无效或无法解析，本次没有写入聊天。"
  | StGenerateRejected => "SillyTavern 拒绝了本次生成请求，内容没有写入聊天。"
  | StGenerateRateLimited => "SillyTavern 生成请求过于频繁，本次内容没有写入聊天。"
  | StGenerateUpstream5xx => "ST 的模型后端返回错误，本次内容没有写入聊天。"
  | StGenerateIdleTimeout => "SillyTavern 生成长时间没有输出，本次内容没有写入聊天。"
  | StGenerateHardTimeout => "SillyTavern 生成达到时间上限，本次内容没有写入聊天。"
  | StGenerateStreamInvalid => "SillyTavern 生成流格式无效，本次内容没有写入聊天。"
  | StGenerateEmpty => "SillyTavern 生成结束但没有文本，本次内容没有写入聊天。"
  | StGenerateStateUnknown => "无法确认 SillyTavern 是否已生成，请先对账后再处理。"
  | StConnectorUnavailable => "无法连接写入服务，本次没有写入聊天。"
  | StConnectorAuthFailed => "写入服务鉴权失败，本次没有写入聊天。"
  | StConnectorVersionMismatch => "写入服务版本不兼容，本次没有写入聊天。"
  | StConnectorMediaTypeRejected => "写入请求格式被拒绝，本次没有写入聊天。"
  | StWriteNotReady => ST_WRITE_NOT_READY_MESSAGE
  | StTestScopeRequired => "当前只能写入测试聊天，本次没有写入。"
  | StPollerNotOwner => "当前运行实例不是该 Bot 的所有者，本次没有写入。"
  | StPollerEpochMismatch => "当前运行实例持有过期所有权，本次没有写入。"
  | StChatLocatorRejected => "聊天定位信息不合法，本次没有写入。"
  | StChatIntegrityMissing => "聊天缺少完整性标记，本次没有写入。"
  | StChatConflict => "生成期间该聊天已被更新，本次没有覆盖新内容。"
  | StOperationIdReused => "操作标识被重复使用，本次没有写入。"
  | StBackupFailed => "写入前备份失败，本次没有写入聊天。"
  | StBackupQuotaExceeded => "备份空间不足，本次没有写入聊天。"
  | StWriteVerifyFailed => "写入后校验失败，尚未确认聊天是否已更新。"
  | StCommitPayloadTooLarge => "写入内容过大，本次没有写入聊天。"
  | StCommitValidationFailed => "写入内容未通过校验，本次没有写入聊天。"
  | StCommitFailed => "保存聊天失败，本次没有写入。"
  | StCommitStateUnknown => "无法确认聊天是否已保存，请先对账后再处理。"
  | StDeliveryFailed => "ST 内容已写入；Telegram 投递失败。"
  end.

(** [trimmed.starts_with('{') || trimmed.starts_with('[')]: neither bracket is
    white space, so trimming the end cannot change the answer. *)
Definition is_json_body (content_type : option string) (body : string) : bool :=
  let content_type := to_ascii_lowercase (default "" content_type) in
  if contains content_type "json" then true
  else if negb (content_type =?= "") then false
  else
    let trimmed := if utf8_valid body then trim_start body else "" in
    starts_with trimmed "{" || starts_with trimmed "[".

Definition mapped `{IdSource} (facts : StErrorFacts) (code : StErrorCode)
    (stage : StErrorStage) (retryable : bool) (commit_state : CommitState)
    (extras : MappedExtras) : StBridgeError :=
  let error := StBridgeError_new code stage (safe_message code) retryable commit_state in
  {| e_code := e_code error; e_stage := e_stage error;
     e_safe_message := e_safe_message error;
     e_safe_detail := ex_safe_detail extras;
     e_upstream_http_status := ex_upstream_http_status extras;
     e_upstream_code := ex_upstream_code extras;
     e_endpoint_class := fact_endpoint_class facts;
     e_retryable := e_retryable error; e_commit_state := e_commit_state error;
     e_operation_id := fact_operation_id facts;
     e_request_id := e_request_id error; e_trace_id := e_trace_id error;
     e_duration_ms := fact_duration_ms facts; e_attempt := fact_attempt facts |}.

Definition mapped_plain `{IdSource} (facts : StErrorFacts) (code : StErrorCode)
    (stage : StErrorStage) (retryable : bool) (commit_state : CommitState)
    : StBridgeError :=
  mapped facts code stage retryable commit_state
    {| ex_upstream_http_status := None; ex_upstream_code := None; ex_safe_detail := None |}.

(** [value.get(k).and_then(Value::as_str)], and the same for booleans. *)
Definition get_str (v : Value) (k : string) : option string :=
  value_get v k ≫= value_as_str.
Definition get_bool (v : Value) (k : string) : option bool :=
  value_get v k ≫= value_as_bool.

Section Mapper.
Context `{IdSource} `{Redactor}.
Context (from_slice : string -> option Value) (sha256_hex : string -> string).

Definition json_error_fields (body : string) : option (option string * option string) :=
  value ← from_slice body;
  error ← value_get value "error";
  let code := get_str error "code" in
  let kind := get_str error "type" in
  let message := get_str error "message" in
  Some (match code with Some c => Some c | None => kind end, message).

Definition json_upstream_code (content_type body : option string) : option string :=
  body ← body;
  if negb (is_json_body content_type body) then None
  else json_error_fields body ≫= fst.

Definition http_safe_detail (status : Z) (content_type body : option string)
    : option string :=
  let body := default "" body in
  let sha256 := sha256_hex body in
  let metadata :=
    match content_type with
    | Some content_type =>
        "status=" +:+ pretty status +:+ "; len=" +:+ pretty (String.length body)
        +:+ "; sha256=" +:+ sha256 +:+ "; content-type=" +:+ content_type
    | None =>
        "status=" +:+ pretty status +:+ "; len=" +:+ pretty (String.length body)
        +:+ "; sha256=" +:+ sha256
    end in
  let detail :=
    if is_json_body content_type body then
      match json_error_fields body with
      | Some (code, message) =>
          metadata
          +:+ match code with Some c => "; upstream_code=" +:+ c | None => "" end
          +:+ match message with Some m => "; message=" +:+ m | None => "" end
      | None => metadata
      end
    else if utf8_valid body then
      match redact_detail body with
      | Some excerpt => metadata +:+ "; excerpt=" +:+ excerpt
      | None => metadata
      end
    else metadata in
  match redact_detail detail with
  | Some d => Some d
  | None => redact_detail metadata
  end.

Definition map_upstream_st_error (facts : StErrorFacts) (status : Z)
    (content_type body : option string) : option StBridgeError :=
  body ← body;
  if negb (is_json_body content_type body) then None else
  value ← from_slice body;
  error ← value_get value "error";
  code ← get_str error "code";
  parsed ← parse (A := StErrorCode) code;
  let stage :=
    default (fact_stage facts)
      (get_str error "stage" ≫= parse (A := StErrorStage)) in
  let retryable :=
    default (default_retryable parsed)
      (get_bool error "retryable") in
  let commit_state :=
    default (fact_commit_state facts)
      (get_str error "commitState" ≫= parse (A := CommitState)) in
  Some (mapped facts parsed stage retryable commit_state
          {| ex_upstream_http_status := Some status; ex_upstream_code := Some code;
             ex_safe_detail := http_safe_detail status content_type (Some body) |}).

Definition map_http (facts : StErrorFacts) (status : Z)
    (content_type body : option string) : StBridgeError :=
  let extras :=
    {| ex_upstream_http_status := Some status;
       ex_upstream_code := json_upstream_code content_type body;
       ex_safe_detail := http_safe_detail status content_type body |} in
  if (status =? 0)%Z then
    mapped facts StConnectFailed StageConnect true (fact_commit_state facts) extras
  else
    match map_upstream_st_error facts status content_type body with
    | Some mapped => mapped
    | None =>
        let '(code, stage, retryable, commit_state) := classify_status facts status in
        mapped facts code stage retryable commit_state extras
    end.

Definition map_st_error (facts : StErrorFacts) : StBridgeError :=
  let plain code stage retryable :=
    mapped_plain facts code stage retryable (fact_commit_state facts) in
  match fact_failure facts with
  | FConnect => plain StConnectFailed StageConnect true
  | FTimeout => plain StRequestTimeout (fact_stage facts) true
  | FHttp status content_type body => map_http facts status content_type body
  | FDecodeInvalidPayload => plain StChatPayloadInvalid (fact_stage facts) false
  | FDecodeSettings => plain StSettingsInvalid (fact_stage facts) false
  | FConnectorUnavailable => plain StConnectorUnavailable (fact_stage facts) true
  | FConnectorAuth => plain StConnectorAuthFailed (fact_stage facts) false
  | FConnectorVersion => plain StConnectorVersionMismatch (fact_stage facts) false
  | FConnectorMediaType => plain StConnectorMediaTypeRejected (fact_stage facts) false
  | FControl code => plain code (fact_stage facts) (default_retryable code)
  end.
End Mapper.

(** ** What the mapping preserves *)

(** The reply carries a structured error of the bridge's own vocabulary. *)
Definition structured_reply `{IdSource} `{Redactor} from_slice sha256_hex
    (facts : StErrorFacts) : option StBridgeError :=
  match fact_failure facts with
  | FHttp status content_type body =>
      if (status =? 0)%Z then None
      else map_upstream_st_error from_slice sha256_hex facts status content_type body
  | _ => None
  end.

Definition http_status (facts : StErrorFacts) : option Z :=
  match fact_failure facts with FHttp status _ _ => Some status | _ => None end.

(** The commit state an unstructured failure is mapped to. *)
Definition expected_commit_state (facts : StErrorFacts) : CommitState :=
  match fact_stage facts, http_status facts with
  | StageCommit, Some status =>
      if (status =? 409)%Z then NotApplied
      else if ((500 <=? status) && (status <=? 599))%Z
              && negb (fact_commit_state facts =?= Unknown)
      then NotApplied
      else fact_commit_state facts
  | _, _ => fact_commit_state facts
  end.

Definition tracks_facts (facts : StErrorFacts) (e : StBridgeError) : Prop :=
  e_operation_id e = fact_operation_id facts
  /\ e_endpoint_class e = fact_endpoint_class facts
  /\ e_attempt e = fact_attempt facts
  /\ e_duration_ms e = fact_duration_ms facts
  /\ e_safe_message e = safe_message (e_code e).

Section MapperFacts.
Context `{IdSource} `{Redactor}.
Context (from_slice : string -> option Value) (sha256_hex : string -> string).

Lemma mapped_tracks facts code stage retryable cs extras :
  tracks_facts facts (mapped facts code stage retryable cs extras).
Proof. by unfold tracks_facts. Qed.

Lemma map_5xx_commit_state facts :
  (map_5xx facts).2 =
    if (fact_stage facts =?= StageCommit) && negb (fact_commit_state facts =?= Unknown)
    then NotApplied else fact_commit_state facts.
Proof.
  unfold map_5xx. destruct (fact_stage facts) eqn:Hs; simpl; try done.
  destruct (fact_commit_state facts); done.
Qed.

Lemma map_other_4xx_commit_state facts : (map_other_4xx facts).2 = fact_commit_state facts.
Proof. unfold map_other_4xx. by destruct (fact_stage facts). Qed.

Lemma classify_status_commit_state facts status :
  (classify_status facts status).2 =
    if fact_stage facts =?= StageCommit then
      if (status =? 409)%Z then NotApplied
      else if ((500 <=? status) && (status <=? 599))%Z
              && negb (fact_commit_state facts =?= Unknown)
      then NotApplied else fact_commit_state facts
    else fact_commit_state facts.
Proof.
  unfold classify_status.
  destruct (bool_decide_reflect (fact_stage facts = StageCommit)) as [Hc|Hc];
    repeat match goal with
    | |- context [if (status =? ?n)%Z then _ else _] =>
        destruct (Z.eqb_spec status n); [by subst | simpl]
    | |- context [(status =? 409)%Z] =>
        destruct (Z.eqb_spec status 409);
          [subst; simpl; rewrite ?map_other_4xx_commit_state; done | simpl]
    | |- context [if (?a <=? ?b)%Z && (?c <=? ?d)%Z then _ else _] =>
        destruct (Z.leb_spec a b), (Z.leb_spec c d); simpl; try lia
    end;
    rewrite ?map_5xx_commit_state, ?map_other_4xx_commit_state;
    try done; try (by case_bool_decide).
  destruct (Z.leb_spec 500 status); [lia | done].
Qed.

Lemma map_upstream_tracks facts status ct body e :
  map_upstream_st_error from_slice sha256_hex facts status ct body = Some e ->
  tracks_facts facts e.
Proof.
  unfold map_upstream_st_error. intros Hm.
  repeat (apply bind_Some in Hm as (? & ? & Hm) || case_match); simplify_eq.
  apply mapped_tracks.
Qed.
End MapperFacts.

(** The error mapper never invents certainty about a commit.  Unless the
    connector's reply itself carries a structured error, the commit state of
    the mapped error is the one the caller knew, with two exceptions at the
    commit stage: HTTP 409 (the connector's precondition check) and a 5xx the
    caller did not already flag as unknown mean not applied.  A structured
    reply is used as it is.  In every case the operation id, endpoint class,
    attempt and duration of the caller are kept and the message shown to the
    user is the fixed text of the code. *)
Theorem mapper_preserves_commit_knowledge (ids : IdSource) (red : Redactor)
    from_slice sha256_hex facts :
  let e := map_st_error from_slice sha256_hex facts in
  tracks_facts facts e
  /\ match structured_reply from_slice sha256_hex facts with
     | Some reply => e = reply
     | None => e_commit_state e = expected_commit_state facts
     end.
Proof.
  unfold structured_reply, map_st_error, expected_commit_state, http_status.
  destruct (fact_failure facts) as [| |status ct body| | | | | | |code] eqn:Hf; simpl.
  3: {
    unfold map_http. destruct (Z.eqb_spec status 0) as [->|Hz]; simpl.
    - split; [apply mapped_tracks |]. by destruct (fact_stage facts).
    - destruct (map_upstream_st_error _ _ _ _ _ _) as [r|] eqn:Hr; simpl.
      + split; [by eapply map_upstream_tracks | done].
      + destruct (classify_status facts status) as [[[code stage] retry] cs] eqn:Hc; simpl.
        split; [apply mapped_tracks |].
        pose proof (classify_status_commit_state facts status) as Hcs.
        rewrite Hc in Hcs. simpl in Hcs. rewrite Hcs.
        by destruct (fact_stage facts). }
  all: split; [apply mapped_tracks | by destruct (fact_stage facts)].
Qed.
