(* ===== verification/Backend.v ===== *)
(** * The SillyTavern backend

    [src/adapters/st/backend.rs]: what the bridge believes about its backend
    ([probe]), the gate every write passes before it reaches the connector, and
    the consumption of a generation stream.  The session manager and the
    connector client answer over the network: a run of the backend is given the
    replies they make, and the writes it sends to the connector are a trace. *)

From S2P Require Import Prelude Text Errors StDomain Readiness ErrorMapper Sse.

(** What a call to the connector can be. *)
Inductive ConnectorCall : Type :=
| CallCreateChat (command : CreateStChat)
| CallCommit (command : CommitStChat).

Record ConnectorReplies := {
  reply_probe : StResult HandshakeResponse;
  reply_write : ConnectorCall -> StResult StCommitResult;
}.

(** [ReqwestStBackend] with the replies of its collaborators. *)
Record ReqwestStBackend := {
  be_handle : string;
  be_mode : StWriteMode;
  be_session_handshake : StResult unit;
  be_connector : option ConnectorReplies;
}.

Definition status_without_connector (self : ReqwestStBackend) (available : bool) : StStatus :=
  {| st_available := available; st_version := None; st_handle := be_handle self;
     st_capabilities :=
       {| cap_mode := if be_mode self =?= ReadOnly then ReadOnly else Disabled;
          cap_snapshot := false; cap_typed_mutations := false;
          cap_integrity_rotation := false; cap_operation_replay := false |} |}.

Definition local_scope (m : StWriteMode) : option StWriteScope :=
  match m with
  | TestWrite => Some TestChat
  | ProductionWrite => Some ProductionChat
  | _ => None
  end.

(** The facts a handshake has to state before a write may rely on it. *)
Definition capabilities_valid (self : ReqwestStBackend) (now : Z) (h : HandshakeResponse) : bool :=
  let profile_matches := (hs_handle h =?= be_handle self) && negb (is_blank (hs_profile h)) in
  let scope_matches := from_option (supports_scope h) true (local_scope (be_mode self)) in
  is_valid_at h now
  && profile_matches
  && hs_integrity_enabled h
  && hs_snapshot h
  && hs_typed_mutations h
  && hs_integrity_rotation h
  && hs_operation_replay h
  && hs_durable_write h
  && scope_matches.

Definition status_from_handshake (self : ReqwestStBackend) (now : Z) (h : HandshakeResponse)
    : StStatus :=
  let eff := effective (be_mode self) (hs_connector_mode h) in
  let ready_mode :=
    if allows_write (be_mode self) && allows_write eff && capabilities_valid self now h then eff
    else if be_mode self =?= ReadOnly then ReadOnly else Disabled in
  {| st_available := true; st_version := Some (hs_version h); st_handle := hs_handle h;
     st_capabilities :=
       {| cap_mode := ready_mode; cap_snapshot := hs_snapshot h;
          cap_typed_mutations := hs_typed_mutations h;
          cap_integrity_rotation := hs_integrity_rotation h;
          cap_operation_replay := hs_operation_replay h |} |}.

(** The end of [probe]: [st_readiness::update] and the status. *)
Definition publish (status : StStatus) : Z * StResult StStatus :=
  (update (st_available status) (allows_write (cap_mode (st_capabilities status))), Ok status).

(** [probe]: the readiness word it leaves, and its result. *)
Definition probe (self : ReqwestStBackend) (now : Z) : Z * StResult StStatus :=
  if is_blank (be_handle self) then publish (status_without_connector self false)
  else
    match be_session_handshake self with
    | Err error =>
        if (e_code error =?= StConnectFailed) || (e_code error =?= StRequestTimeout)
        then publish (status_without_connector self false)
        else (update false false, Err error)
    | Ok _ =>
        match be_connector self with
        | None => publish (status_without_connector self true)
        | Some connector =>
            match reply_probe connector with
            | Ok handshake => publish (status_from_handshake self now handshake)
            | Err error =>
                if (e_code error =?= StConnectFailed) || (e_code error =?= StRequestTimeout)
                   || (e_code error =?= StConnectorUnavailable)
                then publish (status_without_connector self false)
                else publish {| st_available := true; st_version := None;
                                st_handle := be_handle self;
                                st_capabilities := StCapabilities_default |}
            end
        end
    end.

Definition test_prefix : string := "IMBridge-Test-".

Section Backend.
Context `{IdSource} `{Redactor}.
Context (from_slice : string -> option Value) (sha256_hex : string -> string).

Definition not_ready (code : StErrorCode) (stage : StErrorStage) : StBridgeError :=
  map_st_error from_slice sha256_hex
    {| fact_stage := stage; fact_endpoint_class := Some "control";
       fact_operation_id := None; fact_commit_state := NotStarted; fact_attempt := 1;
       fact_duration_ms := None; fact_failure := FControl code |}.

Definition require_read (self : ReqwestStBackend) : StResult unit :=
  if allows_read (be_mode self) then Ok tt
  else Err (not_ready StWriteNotReady StageControl).

Definition backend_require_write (self : ReqwestStBackend) (now : Z)
    (scope : option StWriteScope) : Z * StResult StStatus :=
  let '(word, r) := probe self now in
  (word,
   let? status := r in
   if negb (allows_write (cap_mode (st_capabilities status)))
   then Err (not_ready StWriteNotReady StageControl)
   else if from_option (λ s, negb (scope_mode s =?= cap_mode (st_capabilities status))) false scope
   then Err (not_ready StTestScopeRequired StageControl)
   else Ok status).

Definition generation_error (code : StErrorCode) : StBridgeError :=
  map_st_error from_slice sha256_hex
    {| fact_stage := StageGeneration; fact_endpoint_class := Some "generation";
       fact_operation_id := None; fact_commit_state := NotStarted; fact_attempt := 1;
       fact_duration_ms := None; fact_failure := FControl code |}.

Definition connector_missing (operation_id : string) : StBridgeError :=
  map_st_error from_slice sha256_hex
    {| fact_stage := StageCommit; fact_endpoint_class := Some "connector";
       fact_operation_id := Some operation_id; fact_commit_state := NotStarted;
       fact_attempt := 1; fact_duration_ms := None; fact_failure := FConnectorUnavailable |}.

(** The write the backend sends, if any, and what it reports. *)
Definition send_write (self : ReqwestStBackend) (status : StStatus) (chat_file : string)
    (operation_id : string) (call : ConnectorCall)
    : list ConnectorCall * StResult StCommitResult :=
  if (cap_mode (st_capabilities status) =?= TestWrite)
     && negb (starts_with chat_file test_prefix)
  then ([], Err (not_ready StTestScopeRequired StageControl))
  else
    match be_connector self with
    | None => ([], Err (connector_missing operation_id))
    | Some connector => ([call], reply_write connector call)
    end.

Definition create_chat (self : ReqwestStBackend) (now : Z) (command : CreateStChat)
    : Z * list ConnectorCall * StResult StCommitResult :=
  match backend_require_write self now (Some (cr_scope command)) with
  | (word, Err error) => (word, [], Err error)
  | (word, Ok status) =>
      let '(calls, r) := send_write self status (loc_chat_file (cr_locator command))
                           (cr_operation_id command) (CallCreateChat command) in
      (word, calls, r)
  end.

Definition commit (self : ReqwestStBackend) (now : Z) (command : CommitStChat)
    : Z * list ConnectorCall * StResult StCommitResult :=
  match backend_require_write self now None with
  | (word, Err error) => (word, [], Err error)
  | (word, Ok status) =>
      let '(calls, r) := send_write self status (loc_chat_file (cm_locator command))
                           (cm_operation_id command) (CallCommit command) in
      (word, calls, r)
  end.
End Backend.

(** ** The write gate *)

(** What has to hold for a write to leave in mode [m]: both sides grant it and
    the connector's handshake is live, ours, complete and covers the scope. *)
Definition write_permitted (self : ReqwestStBackend) (now : Z) (m : StWriteMode) : Prop :=
  exists k h,
    be_connector self = Some k /\ reply_probe k = Ok h
    /\ be_session_handshake self = Ok tt /\ is_blank (be_handle self) = false
    /\ allows_write (be_mode self) = true /\ allows_write (hs_connector_mode h) = true
    /\ m = effective (be_mode self) (hs_connector_mode h)
    /\ is_valid_at h now = true
    /\ hs_handle h = be_handle self /\ is_blank (hs_profile h) = false
    /\ hs_integrity_enabled h = true /\ hs_snapshot h = true
    /\ hs_typed_mutations h = true /\ hs_integrity_rotation h = true
    /\ hs_operation_replay h = true /\ hs_durable_write h = true
    /\ (forall s, local_scope (be_mode self) = Some s -> s ∈ hs_scopes h).

Lemma effective_allows_write a b :
  allows_write (effective a b) = allows_write a && allows_write b.
Proof. by destruct a, b. Qed.

Lemma capabilities_valid_true self now h :
  capabilities_valid self now h = true <->
  is_valid_at h now = true
  /\ hs_handle h = be_handle self /\ is_blank (hs_profile h) = false
  /\ hs_integrity_enabled h = true /\ hs_snapshot h = true
  /\ hs_typed_mutations h = true /\ hs_integrity_rotation h = true
  /\ hs_operation_replay h = true /\ hs_durable_write h = true
  /\ (forall s, local_scope (be_mode self) = Some s -> s ∈ hs_scopes h).
Proof.
  unfold capabilities_valid, supports_scope.
  rewrite !andb_true_iff, negb_true_iff, bool_decide_eq_true.
  destruct (local_scope (be_mode self)) as [s|]; simpl; [rewrite bool_decide_eq_true |];
    naive_solver.
Qed.

(** A published status writes, and says so in the readiness word, or neither. *)
Definition probe_reports (self : ReqwestStBackend) (now word : Z) (r : StResult StStatus) : Prop :=
  (exists st, r = Ok st /\ allows_write (cap_mode (st_capabilities st)) = true
     /\ can_write (current word) = true /\ write_permitted self now (cap_mode (st_capabilities st)))
  \/ (can_write (current word) = false /\ (forall m, ~ write_permitted self now m)
      /\ forall st, r = Ok st -> allows_write (cap_mode (st_capabilities st)) = false).

Lemma can_write_update a b : can_write (current (update a b)) = a && b.
Proof. by destruct a, b. Qed.

Lemma publish_frozen self now st :
  allows_write (cap_mode (st_capabilities st)) = false ->
  (forall m, ~ write_permitted self now m) ->
  probe_reports self now (publish st).1 (publish st).2.
Proof.
  intros Hst Hno. right. unfold publish, fst, snd.
  rewrite can_write_update, Hst, andb_false_r. split_and!; [done.. |]. by intros ? [= <-].
Qed.

Lemma frozen_mode_never_writes m :
  allows_write (if m =?= ReadOnly then ReadOnly else Disabled) = false.
Proof. by case_bool_decide. Qed.

Lemma status_from_handshake_reports self now k h :
  be_connector self = Some k -> reply_probe k = Ok h ->
  be_session_handshake self = Ok tt -> is_blank (be_handle self) = false ->
  let p := publish (status_from_handshake self now h) in
  probe_reports self now p.1 p.2.
Proof.
  intros Hk Hp Hs Hb.
  destruct (allows_write (be_mode self)
    && allows_write (effective (be_mode self) (hs_connector_mode h))
    && capabilities_valid self now h) eqn:Hok; intros p; subst p.
  - left. eexists. split; [done |]. unfold publish, fst. rewrite can_write_update.
    unfold status_from_handshake. cbn [st_capabilities cap_mode st_available]. rewrite Hok.
    apply andb_true_iff in Hok as [[Hm He]%andb_true_iff Hc].
    split_and!; [done | done |]. exists k, h.
    rewrite effective_allows_write, Hm in He. apply capabilities_valid_true in Hc.
    naive_solver.
  - apply publish_frozen.
    + unfold status_from_handshake. cbn [st_capabilities cap_mode]. rewrite Hok.
      apply frozen_mode_never_writes.
    + intros m (k' & h' & Hk' & Hp' & _ & _ & Hm & He & _ & Hc).
      assert (k' = k) as -> by congruence. assert (h' = h) as -> by congruence.
      apply capabilities_valid_true in Hc.
      rewrite effective_allows_write, Hm, He, Hc in Hok. done.
Qed.

Lemma probe_sound self now : probe_reports self now (probe self now).1 (probe self now).2.
Proof.
  unfold probe. destruct (is_blank (be_handle self)) eqn:Hb.
  { apply publish_frozen; [apply frozen_mode_never_writes |].
    intros m (k & h & ?). naive_solver congruence. }
  destruct (be_session_handshake self) as [[]|e] eqn:Hs.
  2: { assert (forall m, ~ write_permitted self now m) as Hno
      by (intros m (k & h & ?); naive_solver congruence).
    destruct (_ || _); [apply publish_frozen; [apply frozen_mode_never_writes | done] |].
    right. by split_and!. }
  destruct (be_connector self) as [k|] eqn:Hk.
  2: { apply publish_frozen; [apply frozen_mode_never_writes |].
    intros m (k & h & ?). naive_solver congruence. }
  destruct (reply_probe k) as [h|e] eqn:Hp; [by eapply status_from_handshake_reports |].
  assert (forall m, ~ write_permitted self now m) as Hno
    by (intros m (k' & h & ?); naive_solver congruence).
  destruct (_ || _); apply publish_frozen; try done. apply frozen_mode_never_writes.
Qed.

Section Gate.
Context `{IdSource} `{Redactor}.
Context (from_slice : string -> option Value) (sha256_hex : string -> string).

(** The outcome of one write: sent as it is and answered by the connector
    while the backend is permitted to, or kept back with an error. *)
Definition gated (self : ReqwestStBackend) (now : Z) (call : ConnectorCall)
    (chat_file : string) (scope : option StWriteScope)
    (outcome : Z * list ConnectorCall * StResult StCommitResult) : Prop :=
  let '(word, calls, r) := outcome in
  let allowed m :=
    write_permitted self now m
    /\ (forall s, scope = Some s -> m = scope_mode s)
    /\ (m = TestWrite -> starts_with chat_file test_prefix = true) in
  (calls = [call] /\ can_write (current word) = true
   /\ (exists k, be_connector self = Some k /\ r = reply_write k call)
   /\ exists m, allowed m)
  \/ (calls = [] /\ (exists e, r = Err e) /\ forall m, ~ allowed m).

Lemma write_permitted_unique self now m m' :
  write_permitted self now m -> write_permitted self now m' -> m = m'.
Proof. intros (k & h & ?) (k' & h' & ?). naive_solver congruence. Qed.

Lemma send_write_gated self now scope chat_file operation_id call :
  gated self now call chat_file scope
    (match backend_require_write from_slice sha256_hex self now scope with
     | (word, Err error) => (word, [], Err error)
     | (word, Ok status) =>
         let '(calls, r) :=
           send_write from_slice sha256_hex self status chat_file operation_id call in
         (word, calls, r)
     end).
Proof.
  unfold backend_require_write. pose proof (probe_sound self now) as Hp.
  destruct (probe self now) as [word r]. simpl in Hp.
  destruct Hp as [(st & -> & Hw & Hcw & Hok) | (Hcw & Hno & Hst)].
  2: { assert (exists e, (let? status := r in
      if negb (allows_write (cap_mode (st_capabilities status)))
      then Err (not_ready from_slice sha256_hex StWriteNotReady StageControl)
      else if from_option (λ s, negb (scope_mode s =?= cap_mode (st_capabilities status))) false scope
      then Err (not_ready from_slice sha256_hex StTestScopeRequired StageControl)
      else Ok status) = Err e) as [e ->].
    { destruct r as [st|e]; simpl; [rewrite Hst by done |]; simpl; eauto. }
    right. split_and!; [done | eauto |]. intros m (? & _). by eapply Hno. }
  simpl. rewrite Hw. simpl. set (m := cap_mode (st_capabilities st)) in *.
  destruct (from_option _ _ scope) eqn:Hscope.
  { right. split_and!; [done | eauto |]. intros m' (Hm' & Hs & _).
    assert (m' = m) as -> by (by eapply write_permitted_unique).
    destruct scope as [s|]; simpl in Hscope; [| done].
    rewrite (Hs s eq_refl) in Hscope. by rewrite bool_decide_true in Hscope. }
  assert (forall s, scope = Some s -> m = scope_mode s) as Hsc.
  { intros s ->. simpl in Hscope. case_bool_decide; [done | simplify_eq/=]. }
  unfold send_write. fold m.
  destruct ((m =?= TestWrite) && negb (starts_with chat_file test_prefix)) eqn:Ht.
  { apply andb_true_iff in Ht as [Ht%bool_decide_eq_true Hpre%negb_true_iff].
    right. split_and!; [done | eauto |]. intros m' (Hm' & _ & Htp).
    assert (m' = m) as -> by (by eapply write_permitted_unique). rewrite Htp in Hpre; done. }
  pose proof Hok as (k & h & Hk & _). rewrite Hk. left. split_and!; [done | done | eauto |].
  exists m. split_and!; [done | done |]. intros Hm. rewrite Hm in Ht. simpl in Ht.
  by apply negb_false_iff in Ht.
Qed.
End Gate.

(** A write reaches the connector exactly when it is permitted.  A commit or a
    chat creation is sent, once and unchanged, if the local mode and the
    connector's both write, the session is up, the connector's handshake is live,
    names our handle, states every required capability and covers our scope, and,
    where the effective mode is test-write, the chat carries the test prefix; a
    chat creation also has to be of the effective mode's scope.  Otherwise nothing
    is sent and the caller gets an error; the readiness word allows writes
    whenever something is sent. *)
Theorem writes_leave_exactly_when_permitted
    `{IdSource} `{Redactor} from_slice sha256_hex self now :
  (forall command, gated self now (CallCommit command)
     (loc_chat_file (cm_locator command)) None
     (commit from_slice sha256_hex self now command))
  /\ (forall command, gated self now (CallCreateChat command)
        (loc_chat_file (cr_locator command)) (Some (cr_scope command))
        (create_chat from_slice sha256_hex self now command)).
Proof. split; intros command; apply send_write_gated. Qed.

(** ** The generation stream *)

Definition SSE_MAX_LINE_BYTES : Z := 64 * 1024.
Definition SSE_MAX_EVENT_BYTES : Z := 256 * 1024.
Definition GENERATION_MAX_TEXT_BYTES : Z := 4 * 1024 * 1024.

Definition eq_ignore_ascii_case (a b : string) : bool :=
  to_ascii_lowercase a =?= to_ascii_lowercase b.

Definition semicolon : Ascii.ascii := Ascii.ascii_of_nat 59.

Definition valid_stream_content_type (value : option string) : bool :=
  match value with
  | None => true
  | Some value =>
      match split_on semicolon value with
      | media_type :: _ => eq_ignore_ascii_case (trim media_type) "text/event-stream"
      | [] => false
      end
  end.

(** How reading stops, when the stream did not say [[DONE]]: the branches of the
    [select!] that leave the loop, and the end of the response body. *)
Inductive StreamEnd : Set :=
| EndOfBody | Cancelled | HardDeadline | IdleDeadline | TransportError (is_timeout : bool).

Definition stream_end_error (e : StreamEnd) : option StErrorCode :=
  match e with
  | EndOfBody => None
  | Cancelled => Some StGenerateRejected
  | HardDeadline => Some StGenerateHardTimeout
  | IdleDeadline => Some StGenerateIdleTimeout
  | TransportError true => Some StGenerateIdleTimeout
  | TransportError false => Some StGenerateStreamInvalid
  end.

Record BridgeDelta := { d_sequence : Z; d_text : string; d_full_text : string }.

(** The locals of the loop; [sent] is what went to the progress channel. *)
Record StreamState := {
  accumulated_text : string;
  finish_reason : option string;
  terminal : option StGenerationEvent;
  sequence : Z;
  sent : list BridgeDelta;
}.

Definition stream_init : StreamState :=
  {| accumulated_text := ""; finish_reason := None; terminal := None; sequence := 0; sent := [] |}.

Definition bump_sequence (st : StreamState) : result StreamState StErrorCode :=
  if (2 ^ 64 <=? sequence st + 1)%Z then Err StGenerateStreamInvalid
  else Ok {| accumulated_text := accumulated_text st; finish_reason := finish_reason st;
             terminal := terminal st; sequence := sequence st + 1; sent := sent st |}.

(** One round of the loop over the decoded generation events. *)
Definition on_gen_event (st : StreamState) (ev : StGenerationEvent)
    : result StreamState StErrorCode :=
  match terminal st with
  | Some _ =>
      match ev with
      | Ignored => Ok st
      | Finished reason =>
          if (reason =?= Some "stop") || (finish_reason st =?= reason) then Ok st
          else Err StGenerateStreamInvalid
      | TextDelta _ _ => Err StGenerateStreamInvalid
      | GenRejected _ => Err StGenerateRejected
      end
  | None =>
      match ev with
      | Ignored => Ok st
      | TextDelta _ text =>
          let next_len := (blen (accumulated_text st) + blen text)%Z in
          if (2 ^ 64 <=? next_len)%Z then Err StGenerateStreamInvalid
          else if (GENERATION_MAX_TEXT_BYTES <? next_len)%Z then Err StGenerateStreamInvalid
          else
            let full := accumulated_text st +:+ text in
            Ok {| accumulated_text := full; finish_reason := finish_reason st;
                  terminal := terminal st; sequence := sequence st;
                  sent := sent st ++ [{| d_sequence := sequence st; d_text := text;
                                         d_full_text := full |}] |}
      | Finished reason =>
          Ok {| accumulated_text := accumulated_text st; finish_reason := reason;
                terminal := Some (Finished reason); sequence := sequence st; sent := sent st |}
      | GenRejected _ => Err StGenerateRejected
      end
  end.

Fixpoint on_gen_events (st : StreamState) (evs : list StGenerationEvent)
    : result StreamState StErrorCode :=
  match evs with
  | [] => Ok st
  | ev :: evs => let? st := on_gen_event st ev in on_gen_events st evs
  end.


Section Stream.
Context (from_str : string -> option Value).

(** One message: the state after it, and whether it was [[DONE]]. *)
Definition on_message (st : StreamState) (event : option string) (data : string)
    : result (StreamState * bool) StErrorCode :=
  if from_option (λ name, eq_ignore_ascii_case name "error") false event
  then Err StGenerateRejected
  else
    let stream_done := trim data =?= "[DONE]" in
    let? st := bump_sequence st in
    let? decoded := map_err (λ _, StGenerateStreamInvalid)
                      (decode_st_generation_event from_str data (sequence st)) in
    let? st := on_gen_events st decoded in
    Ok (st, stream_done).

(** The events of one chunk: [true] is [break 'stream]. *)
Fixpoint on_events (st : StreamState) (events : list StSseEvent)
    : result (StreamState * bool) StErrorCode :=
  match events with
  | [] => Ok (st, false)
  | Heartbeat :: events => on_events st events
  | Message event data :: events =>
      let? (st, stream_done) := on_message st event data in
      if stream_done then Ok (st, true) else on_events st events
  end.

Definition conclude (decoder : StSseStreamDecoder) (st : StreamState)
    : result StGenerationResult StErrorCode :=
  let? _ := map_err (λ _, StGenerateStreamInvalid) (finish decoder) in
  let? terminal := ok_or (terminal st) StGenerateStreamInvalid in
  if negb (is_accepted_finish terminal) then Err StGenerateStreamInvalid
  else if is_blank (accumulated_text st) then Err StGenerateEmpty
  else Ok {| gr_text := accumulated_text st; gr_finish_reason := finish_reason st;
             gr_usage := None |}.

Fixpoint stream_loop (decoder : StSseStreamDecoder) (st : StreamState)
    (chunks : list string) (stop : StreamEnd) : result StGenerationResult StErrorCode :=
  match chunks with
  | [] =>
      match stream_end_error stop with
      | Some code => Err code
      | None => conclude decoder st
      end
  | chunk :: chunks =>
      let? (decoder, events) := map_err (λ _, StGenerateStreamInvalid) (push chunk decoder) in
      let? (st, stream_done) := on_events st events in
      if stream_done then conclude decoder st else stream_loop decoder st chunks stop
  end.

(** The [generation_result] block of [stream_generate]. *)
Definition generation_result (chunks : list string) (stop : StreamEnd)
    : result StGenerationResult StErrorCode :=
  stream_loop (decoder_new SSE_MAX_LINE_BYTES SSE_MAX_EVENT_BYTES) stream_init chunks stop.
End Stream.

(** ** What a stream delivers *)

Definition delta_text (ev : StGenerationEvent) : string :=
  match ev with TextDelta _ text => text | _ => "" end.

Definition deltas_text (evs : list StGenerationEvent) : string :=
  concat_str (map delta_text evs).

(** The text one event of the stream adds; the sequence number is immaterial. *)
Definition event_text (from_str : string -> option Value) (ev : StSseEvent) : string :=
  match ev with
  | Heartbeat => ""
  | Message _ data =>
      match decode_st_generation_event from_str data 0 with
      | Ok evs => deltas_text evs
      | Err _ => ""
      end
  end.

Definition streamed_text (from_str : string -> option Value) (evs : list StSseEvent) : string :=
  concat_str (map (event_text from_str) evs).

Lemma concat_str_app k l : concat_str (k ++ l) = concat_str k +:+ concat_str l.
Proof.
  induction k as [|s k IH]; [done |]. simpl. change (concat_str (s :: ?t)) with (s +:+ concat_str t).
  by rewrite IH, app_string_assoc.
Qed.

Lemma decode_text_seq from_str data n m evs :
  decode_st_generation_event from_str data n = Ok evs ->
  exists evs', decode_st_generation_event from_str data m = Ok evs'
    /\ deltas_text evs' = deltas_text evs.
Proof.
  unfold decode_st_generation_event.
  destruct (trim data =?= ""); [by eauto |]. destruct (trim data =?= "[DONE]"); [by eauto |].
  destruct (from_str (trim data)) as [v|]; simpl; [| done].
  case_bool_decide; [by eauto |]. destruct (value_as_object v) as [obj|]; simpl; [| done].
  destruct (assoc_get "choices" obj ≫= value_as_array) as [[|c cs]|]; simpl; [| | done].
  { destruct (_ && _); by eauto. }
  destruct (value_as_object c) as [choice|]; simpl; [| done].
  case_bool_decide; [done |].
  destruct (assoc_get "delta" choice ≫= value_as_object) as [delta|]; simpl; [| done].
  destruct (check_delta delta) as [[early|e]|]; [by eauto | done |].
  unfold content_events. destruct (finish_events choice) as [fin|e].
  2: { destruct (assoc_get "content" delta) as [[]|]; simpl; done. }
  assert (forall t, exists evs', Ok match (if t =?= "" then [] else [TextDelta m t]) ++ fin with
    [] => [Ignored] | events => events end = Ok (E:=SseDecodeError) evs' /\
    deltas_text evs' = deltas_text match (if t =?= "" then [] else [TextDelta n t]) ++ fin with
    [] => [Ignored] | events => events end) as Ht.
  { intros t. eexists; split; [done |]. by destruct (t =?= ""). }
  destruct (assoc_get "content" delta) as [[]|]; simpl; try done;
    intros [= <-]; try (by eexists); apply Ht.
Qed.

(** What the loop maintains. *)
Definition stream_wf (st : StreamState) : Prop :=
  (blen (accumulated_text st) <= GENERATION_MAX_TEXT_BYTES)%Z
  /\ (forall t, terminal st = Some t -> t = Finished (finish_reason st)).

Lemma on_gen_event_text st ev st' :
  stream_wf st -> on_gen_event st ev = Ok st' ->
  stream_wf st' /\ accumulated_text st' = accumulated_text st +:+ delta_text ev.
Proof.
  intros [Hl Ht]. unfold on_gen_event. destruct (terminal st) as [t|] eqn:Hterm.
  - destruct ev as [|n text|reason|code]; [| done | | done].
    + intros [= <-]. rewrite app_string_nil. split; [split; [done | naive_solver congruence] | done].
    + destruct (_ || _); [| done]. intros [= <-]. rewrite app_string_nil.
      split; [split; [done | naive_solver congruence] | done].
  - destruct ev as [|n text|reason|code]; [| | | done].
    + intros [= <-]. rewrite app_string_nil. split; [split; [done | naive_solver congruence] | done].
    + cbv zeta. destruct (Z.leb_spec (2 ^ 64) (blen (accumulated_text st) + blen text)); [done |].
      destruct (Z.ltb_spec GENERATION_MAX_TEXT_BYTES (blen (accumulated_text st) + blen text));
        [done |].
      intros [= <-]. split; [split |]; [| | done]; simpl; [rewrite blen_app; lia | done].
    + intros [= <-]. rewrite app_string_nil. split; [split |]; [done | naive_solver | done].
Qed.

Lemma on_gen_events_text evs st st' :
  stream_wf st -> on_gen_events st evs = Ok st' ->
  stream_wf st' /\ accumulated_text st' = accumulated_text st +:+ deltas_text evs.
Proof.
  revert st. induction evs as [|ev evs IH]; intros st Hwf.
  { intros [= <-]. by rewrite app_string_nil. }
  cbn [on_gen_events]. destruct (on_gen_event st ev) as [st1|e] eqn:H1; [| done].
  apply on_gen_event_text in H1 as [Hwf1 Ht1]; [| done]. intros H2.
  apply IH in H2 as [? ->]; [| done]. rewrite Ht1, <- app_string_assoc. done.
Qed.

Section Delivered.
Context (from_str : string -> option Value).

Lemma on_message_text st event data st' b :
  stream_wf st -> on_message from_str st event data = Ok (st', b) ->
  stream_wf st'
  /\ accumulated_text st' = accumulated_text st +:+ event_text from_str (Message event data)
  /\ b = (trim data =?= "[DONE]").
Proof.
  intros Hwf. unfold on_message. destruct (from_option _ _ event); [done |]. cbv zeta.
  destruct (bump_sequence st) as [st1|] eqn:Hb; [| done].
  assert (stream_wf st1 /\ accumulated_text st1 = accumulated_text st) as [Hwf1 <-].
  { revert Hb. unfold bump_sequence. destruct (_ <=? _)%Z; [done |]. by intros [= <-]. }
  destruct (decode_st_generation_event from_str data (sequence st1)) as [evs|] eqn:Hd; [| done].
  cbn [map_err]. destruct (on_gen_events st1 evs) as [st2|] eqn:He; [| done].
  intros [= <- <-]. apply on_gen_events_text in He as [? ->]; [| done].
  apply (decode_text_seq _ _ _ 0) in Hd as (evs' & Hd & Ht).
  split_and!; [done | | done]. unfold event_text. by rewrite Hd, Ht.
Qed.

Lemma on_events_text evs st st' b :
  stream_wf st -> on_events from_str st evs = Ok (st', b) ->
  stream_wf st' /\ exists consumed rest,
    evs = consumed ++ rest
    /\ accumulated_text st' = accumulated_text st +:+ streamed_text from_str consumed
    /\ if b then exists pre e d, consumed = pre ++ [Message e d] /\ trim d = "[DONE]"
       else rest = [].
Proof.
  revert st. induction evs as [|ev evs IH]; intros st Hwf.
  { intros [= <- <-]. split; [done |]. exists [], []. by rewrite app_string_nil. }
  destruct ev as [|event data]; cbn [on_events].
  - intros (Hwf' & consumed & rest & -> & Ht & Hb)%IH; [| done]. split; [done |].
    exists (Heartbeat :: consumed), rest. split_and!; [done | done |].
    destruct b; [| done]. destruct Hb as (pre & e & d & -> & Hd). by exists (Heartbeat :: pre), e, d.
  - destruct (on_message from_str st event data) as [[st1 d]|] eqn:Hm; [| done].
    apply on_message_text in Hm as (Hwf1 & Ht1 & Hd); [| done]. destruct d.
    + intros [= <- <-]. split; [done |]. exists [Message event data], evs.
      split_and!; [done | |].
      * rewrite Ht1. unfold streamed_text. simpl. by rewrite app_string_nil.
      * exists [], event, data. split; [done |]. symmetry in Hd.
        by apply bool_decide_eq_true in Hd.
    + intros (Hwf' & consumed & rest & -> & Ht & Hb)%IH; [| done]. split; [done |].
      exists (Message event data :: consumed), rest. split_and!; [done | |].
      * rewrite Ht, Ht1, <- app_string_assoc. done.
      * destruct b; [| done]. destruct Hb as (pre & e & d' & -> & Hd').
        by exists (Message event data :: pre), e, d'.
Qed.

Lemma conclude_ok decoder st r :
  stream_wf st -> conclude decoder st = Ok r ->
  finish decoder = Ok tt /\ gr_text r = accumulated_text st
  /\ (blen (gr_text r) <= GENERATION_MAX_TEXT_BYTES)%Z
  /\ is_blank (gr_text r) = false
  /\ is_accepted_finish (Finished (gr_finish_reason r)) = true.
Proof.
  intros [Hl Ht]. unfold conclude. destruct (finish decoder) as [[]|]; [| done].
  cbn [map_err]. destruct (terminal st) as [t|]; [| done]. cbn [ok_or].
  rewrite (Ht t eq_refl). destruct (is_accepted_finish _) eqn:Ha; [| done]. cbn [negb].
  destruct (is_blank _) eqn:Hb; [done |]. by intros [= <-].
Qed.

Lemma stream_loop_text chunks decoder st stop r :
  stream_wf st -> stream_loop from_str decoder st chunks stop = Ok r ->
  exists read decoder' out consumed rest,
    read `prefix_of` chunks
    /\ push_all read decoder = Ok (decoder', out) /\ finish decoder' = Ok tt
    /\ out = consumed ++ rest
    /\ gr_text r = accumulated_text st +:+ streamed_text from_str consumed
    /\ (blen (gr_text r) <= GENERATION_MAX_TEXT_BYTES)%Z
    /\ is_blank (gr_text r) = false
    /\ is_accepted_finish (Finished (gr_finish_reason r)) = true
    /\ ((exists pre e d, consumed = pre ++ [Message e d] /\ trim d = "[DONE]")
        \/ (read = chunks /\ rest = [] /\ stop = EndOfBody)).
Proof.
  revert decoder st. induction chunks as [|c cs IH]; intros decoder st Hwf; cbn [stream_loop].
  { destruct stop as [| | | |[]]; try done. cbn [stream_end_error].
    intros (Hf & Ht & ? & ? & ?)%conclude_ok; [| done].
    exists [], decoder, [], [], []. rewrite app_string_nil. split_and!; auto. }
  destruct (push c decoder) as [[d1 evs]|] eqn:Hp; [| done]. cbn [map_err].
  destruct (on_events from_str st evs) as [[st1 b]|] eqn:Hev; [| done].
  apply on_events_text in Hev as (Hwf1 & consumed & rest & -> & Ht & Hb); [| done].
  destruct b.
  - intros (Hf & Hr & ? & ? & ?)%conclude_ok; [| done].
    exists [c], d1, (consumed ++ rest), consumed, rest.
    split_and!; [by exists cs | | done | done | congruence | done | done | done | by left].
    rewrite push_all_cons, Hp. simpl. by rewrite app_nil_r.
  - intros (read & d2 & out & consumed' & rest' & Hpre & Hpush & Hf & -> & Hr & ? & ? & ? & Hend)%IH;
      [| done]. subst rest.
    exists (c :: read), d2, (consumed ++ consumed' ++ rest'), (consumed ++ consumed'), rest'.
    split_and!; [by apply prefix_cons | | done | by rewrite app_assoc | | done | done | done |].
    + rewrite push_all_cons, Hp. rewrite and_then_ok, Hpush. by rewrite app_nil_r.
    + rewrite Hr, Ht, <- app_string_assoc. unfold streamed_text.
      by rewrite map_app, concat_str_app.
    + destruct Hend as [(pre & e & d & -> & Hd) | (-> & ? & ?)]; [left | by right].
      exists (consumed ++ pre), e, d. by rewrite app_assoc.
Qed.
End Delivered.

(** A generation that succeeds returns exactly what was streamed.  The chunks
    read decode without error and end at an event boundary; the returned text is
    the concatenation of the text deltas of the decoded events, in order, up to
    the [[DONE]] message or, without one, of the whole body of a stream that
    ended by itself; it is not blank, within the 4 MiB limit, and the finish
    reason is one of the accepted ones. *)
Theorem generation_returns_what_was_streamed from_str chunks stop r :
  generation_result from_str chunks stop = Ok r ->
  exists read decoder out consumed rest,
    read `prefix_of` chunks
    /\ push_all read (decoder_new SSE_MAX_LINE_BYTES SSE_MAX_EVENT_BYTES) = Ok (decoder, out)
    /\ finish decoder = Ok tt
    /\ out = consumed ++ rest
    /\ gr_text r = streamed_text from_str consumed
    /\ (blen (gr_text r) <= GENERATION_MAX_TEXT_BYTES)%Z
    /\ is_blank (gr_text r) = false
    /\ is_accepted_finish (Finished (gr_finish_reason r)) = true
    /\ ((exists pre e d, consumed = pre ++ [Message e d] /\ trim d = "[DONE]")
        \/ (read = chunks /\ rest = [] /\ stop = EndOfBody)).
Proof. apply stream_loop_text. split; [vm_compute; congruence | done]. Qed.

(** ** A well-formed stream is delivered, however it is cut *)

(** One message as SillyTavern frames it: a data line and an empty line. *)
Definition frame (payload : string) : string :=
  "data: " +:+ payload +:+ String lf (byte_str lf).

Definition stream_bytes (payloads : list string) : string :=
  concat_str (map frame payloads) +:+ frame "[DONE]".

(** A payload that fits a line of the decoder. *)
Definition framable (payload : string) : Prop :=
  has_byte cr payload = false /\ has_byte lf payload = false
  /\ utf8_valid payload = true /\ (blen payload + 6 <= SSE_MAX_LINE_BYTES)%Z.

(** Between two messages. *)
Definition at_boundary (s : StSseStreamDecoder) : Prop :=
  line s = "" /\ data s = [] /\ event s = None /\ event_bytes s = 0%Z /\ skip_lf s = false
  /\ max_line s = SSE_MAX_LINE_BYTES /\ max_event s = SSE_MAX_EVENT_BYTES.

Lemma process_plain l s :
  has_byte cr l = false -> has_byte lf l = false -> skip_lf s = false ->
  (blen (line s) + blen l <= max_line s)%Z ->
  process_bytes l s = Ok (set_line (line s +:+ l) s, []).
Proof.
  revert s. induction l as [|a l IH]; intros s Hcr Hlf Hskip Hlen.
  { rewrite app_string_nil. by destruct s. }
  simpl in Hcr, Hlf. apply orb_false_iff in Hcr as [Ha Hcr]. apply orb_false_iff in Hlf as [Hb Hlf].
  rewrite blen_cons in Hlen. pose proof (blen_nonneg l).
  rewrite process_bytes_cons. unfold process_byte. rewrite Hskip, Ha, Hb.
  cbn [andb orb]. destruct (Z.leb_spec (max_line s) (blen (line s))); [lia |].
  rewrite and_then_ret, IH; try done.
  - simpl. rewrite <- app_string_assoc. by destruct s.
  - simpl. rewrite blen_app. unfold byte_str. rewrite blen_cons. change (blen "") with 0%Z. lia.
Qed.

(** The data line of a message, and the empty line that ends it. *)
Definition holding (payload : string) (s : StSseStreamDecoder) : StSseStreamDecoder :=
  set_event [payload] None (blen payload + 7) s.

Lemma process_data_line p s :
  framable p -> at_boundary s ->
  process_bytes ("data: " +:+ p +:+ byte_str lf) s = Ok (holding p s, []).
Proof.
  intros (Hcr & Hlf & Hu & Hlen) (Hl & Hd & He & Hn & Hs & Hml & Hme).
  rewrite app_string_assoc, process_bytes_app.
  assert (blen ("data: " +:+ p) = blen p + 6)%Z as Hb by (rewrite blen_app; change (blen "data: ") with 6%Z; lia).
  rewrite process_plain; [| | | done | rewrite Hl, Hml, Hb; change (blen "") with 0%Z; lia].
  2,3: rewrite has_byte_app; by apply orb_false_iff.
  rewrite and_then_ret, Hl. unfold byte_str. rewrite process_bytes_cons.
  unfold process_byte. cbn [skip_lf set_line]. rewrite Hs.
  change ((lf =?= cr) || (lf =?= lf)) with true. cbn [andb].
  unfold finish_line. cbn [line set_line event_bytes max_event].
  change ("" +:+ ("data: " +:+ p)) with ("data: " +:+ p). rewrite Hb, Hn, Hme.
  change (utf8_valid ("data: " +:+ p)) with (utf8_valid p). rewrite Hu.
  change (negb true) with false.
  change (("data: " +:+ p) =?= "") with false.
  change (starts_with ("data: " +:+ p) (byte_str colon)) with false.
  unfold SSE_MAX_LINE_BYTES, SSE_MAX_EVENT_BYTES in *. cbv iota zeta.
  destruct (Z.leb_spec (2 ^ 64) (0 + (blen p + 6 + 1))); [lia |].
  destruct (Z.ltb_spec (256 * 1024) (0 + (blen p + 6 + 1))); [lia |].
  change (split_once colon ("data: " +:+ p)) with (Some ("data", String (Ascii.ascii_of_nat 32) p)).
  cbn [default]. change (strip_space (String (Ascii.ascii_of_nat 32) p)) with p.
  change ("data" =?= "data") with true. cbn. unfold holding, set_event, set_line, set_skip_lf.
  destruct s; simpl in *; subst.
  by replace (0 + (blen p + 6 + 1))%Z with (blen p + 7)%Z by lia.
Qed.

Lemma process_empty_line p s :
  at_boundary s -> process_byte lf (holding p s) = Ok (s, [Message None p]).
Proof.
  intros (Hl & Hd & He & Hn & Hs & Hml & Hme). unfold process_byte, holding.
  cbn [skip_lf set_event]. rewrite Hs. change ((lf =?= cr) || (lf =?= lf)) with true. cbn [andb].
  unfold finish_line. cbn [line set_event]. rewrite Hl. destruct s; simpl in *; subst. done.
Qed.

Lemma frame_split p : frame p = ("data: " +:+ p +:+ byte_str lf) +:+ byte_str lf.
Proof. unfold frame. by rewrite <- !app_string_assoc. Qed.

Lemma process_frame p s :
  framable p -> at_boundary s -> process_bytes (frame p) s = Ok (s, [Message None p]).
Proof.
  intros Hp Hs. rewrite frame_split, process_bytes_app, process_data_line by done.
  rewrite and_then_ret. unfold byte_str. rewrite process_bytes_cons, process_empty_line by done.
  by rewrite and_then_ok.
Qed.

Lemma process_frames ps s :
  Forall framable ps -> at_boundary s ->
  process_bytes (concat_str (map frame ps)) s = Ok (s, map (Message None) ps).
Proof.
  intros Hps Hs. induction Hps as [|p ps Hp Hps IH]; [done |]. cbn [map].
  change (concat_str (frame p :: ?l)) with (frame p +:+ concat_str l).
  by rewrite process_bytes_app, process_frame, and_then_ok, IH by done.
Qed.

(** A stream that does not open with a byte-order mark is processed as it is. *)
Lemma push_fresh r ml me :
  push ("dat" +:+ r) (decoder_new ml me)
  = process_bytes ("dat" +:+ r) (set_bom "" true (decoder_new ml me)).
Proof.
  rewrite push_unfold, (process_bytes_app "dat" r (set_bom "" true _)). cbn [bom_checked bom_prefix decoder_new].
  change (str_take (3 - String.length "") ("dat" +:+ r)) with "dat".
  change (str_drop (3 - String.length "") ("dat" +:+ r)) with r. reflexivity.
Qed.

Lemma stream_opens ps : exists r, concat_str (map frame ps) +:+ "data: [DONE]" = "dat" +:+ r.
Proof. destruct ps as [|p ps]; eexists; reflexivity. Qed.

Lemma app_byte_split (a b c : string) (x : Ascii.ascii) :
  a +:+ b = c +:+ byte_str x ->
  (exists c', c = a +:+ c' /\ b = c' +:+ byte_str x) \/ (a = c +:+ byte_str x /\ b = "").
Proof.
  revert c. induction a as [|y a IH]; intros c Heq.
  { left. by exists c. }
  rewrite app_string_cons in Heq. destruct c as [|z c].
  - right. injection Heq as -> Hab. by destruct a, b.
  - rewrite app_string_cons in Heq. injection Heq as -> Heq.
    apply IH in Heq as [(c' & -> & ->) | (-> & ->)]; [left | by right].
    by exists c'.
Qed.

Section Roundtrip.
Context (from_str : string -> option Value).

Lemma on_events_app st o1 o2 st' b :
  on_events from_str st (o1 ++ o2) = Ok (st', b) ->
  (exists st1, on_events from_str st o1 = Ok (st1, false)
     /\ on_events from_str st1 o2 = Ok (st', b))
  \/ (b = true /\ on_events from_str st o1 = Ok (st', true)).
Proof.
  revert st. induction o1 as [|[|e d] o1 IH]; intros st; cbn [app on_events]; [by eauto | apply IH |].
  destruct (on_message from_str st e d) as [[st1 []]|]; [| apply IH | done].
  intros [= <- <-]. by right.
Qed.

(** Reading up to the last byte of the stream, in any chunks. *)
Lemma stream_loop_done stop decoder_b decoder_e st1 st2 chunks :
  forall decoder st b os,
  bom_ok decoder ->
  concat_str chunks = b +:+ byte_str lf ->
  push b decoder = Ok (decoder_b, os) ->
  push (byte_str lf) decoder_b = Ok (decoder_e, [Message None "[DONE]"]) ->
  on_events from_str st os = Ok (st1, false) ->
  on_message from_str st1 None "[DONE]" = Ok (st2, true) ->
  stream_loop from_str decoder st chunks stop = conclude decoder_e st2.
Proof.
  induction chunks as [|c cs IH]; intros decoder st b os Hbom Hcat Hb He Hos Hdone.
  { by destruct b. }
  change (concat_str (c :: cs)) with (c +:+ concat_str cs) in Hcat.
  apply app_byte_split in Hcat as [(b' & -> & Hcs) | (-> & Hcs)].
  - rewrite push_app in Hb by done.
    apply and_then_inv in Hb as (d1 & o1 & o2 & Hc & Hb' & ->).
    cbn [stream_loop]. rewrite Hc. cbn [map_err].
    apply on_events_app in Hos as [(st' & Ho1 & Ho2) | [? _]]; [| done].
    rewrite Ho1. eapply IH; eauto using push_bom_ok.
  - cbn [stream_loop]. rewrite push_app, Hb by done. rewrite and_then_ok, He. cbn [map_err].
    assert (on_events from_str st (os ++ [Message None "[DONE]"]) = Ok (st2, true)) as ->; [| done].
    clear -Hos Hdone. revert st Hos. induction os as [|[|e d] os IH]; intros st; cbn [app on_events].
    + intros [= ->]. by rewrite Hdone.
    + apply IH.
    + destruct (on_message from_str st e d) as [[s []]|]; [done | apply IH | done].
Qed.

(** The payload decodes to one text delta. *)
Definition carries (payload text : string) : Prop :=
  forall n, decode_st_generation_event from_str payload n = Ok [TextDelta n text].

Lemma carries_not_done payload text :
  carries payload text -> (trim payload =?= "[DONE]") = false.
Proof.
  intros Hc. specialize (Hc 0%Z). revert Hc. unfold decode_st_generation_event.
  destruct (trim payload =?= ""); [done |]. by destruct (trim payload =?= "[DONE]").
Qed.

Lemma on_payload st payload text :
  carries payload text -> terminal st = None ->
  (blen (accumulated_text st) + blen text <= GENERATION_MAX_TEXT_BYTES)%Z ->
  (sequence st + 1 < 2 ^ 64)%Z ->
  exists st', on_message from_str st None payload = Ok (st', false)
    /\ terminal st' = None /\ sequence st' = (sequence st + 1)%Z
    /\ accumulated_text st' = accumulated_text st +:+ text.
Proof.
  intros Hc Ht Hl Hn. unfold on_message, bump_sequence. cbn [from_option]. cbv zeta.
  rewrite (carries_not_done _ _ Hc). destruct (Z.leb_spec (2 ^ 64) (sequence st + 1)); [lia |].
  cbn [sequence]. rewrite (Hc _). cbn [map_err on_gen_events]. unfold on_gen_event.
  cbn [terminal]. rewrite Ht. cbn [accumulated_text]. cbv zeta.
  unfold GENERATION_MAX_TEXT_BYTES in *.
  destruct (Z.leb_spec (2 ^ 64) (blen (accumulated_text st) + blen text)); [lia |].
  destruct (Z.ltb_spec (4 * 1024 * 1024) (blen (accumulated_text st) + blen text)); [lia |].
  eexists. split; [done |]. done.
Qed.

Lemma on_payloads payloads texts st :
  Forall2 carries payloads texts -> terminal st = None ->
  (blen (accumulated_text st) + blen (concat_str texts) <= GENERATION_MAX_TEXT_BYTES)%Z ->
  (sequence st + Z.of_nat (length payloads) < 2 ^ 64)%Z ->
  exists st', on_events from_str st (map (Message None) payloads) = Ok (st', false)
    /\ terminal st' = None
    /\ sequence st' = (sequence st + Z.of_nat (length payloads))%Z
    /\ accumulated_text st' = accumulated_text st +:+ concat_str texts.
Proof.
  intros Hc. revert st. induction Hc as [|p t ps ts Hp Hps IH]; intros st Ht Hl Hn.
  { exists st. rewrite app_string_nil. split_and!; [done | done | simpl; lia | done]. }
  change (concat_str (t :: ts)) with (t +:+ concat_str ts) in *. rewrite blen_app in Hl.
  cbn [length] in *. pose proof (blen_nonneg (concat_str ts)). pose proof (blen_nonneg t).
  destruct (on_payload st p t) as (st1 & Hm & Ht1 & Hs1 & Ha1); [done | done | lia | lia |].
  destruct (IH st1) as (st2 & He & Ht2 & Hs2 & Ha2); [done | rewrite Ha1, blen_app; lia | lia |].
  exists st2. cbn [map on_events]. rewrite Hm. split_and!; [done | done | lia |].
  by rewrite Ha2, Ha1, app_string_assoc.
Qed.

Lemma on_done st :
  terminal st = None -> (sequence st + 1 < 2 ^ 64)%Z ->
  exists st', on_message from_str st None "[DONE]" = Ok (st', true)
    /\ terminal st' = Some (Finished (Some "stop")) /\ finish_reason st' = Some "stop"
    /\ accumulated_text st' = accumulated_text st.
Proof.
  intros Ht Hn. unfold on_message, bump_sequence. cbn [from_option]. cbv zeta.
  change (trim "[DONE]" =?= "[DONE]") with true.
  destruct (Z.leb_spec (2 ^ 64) (sequence st + 1)); [lia |]. cbn [sequence].
  change (decode_st_generation_event from_str "[DONE]" (sequence st + 1))
    with (Ok (E:=SseDecodeError) [Finished (Some "stop")]).
  cbn [map_err on_gen_events]. unfold on_gen_event. cbn [terminal]. rewrite Ht. by eexists.
Qed.
End Roundtrip.

Lemma stream_bytes_split payloads :
  stream_bytes payloads
  = (concat_str (map frame payloads) +:+ "data: [DONE]" +:+ byte_str lf) +:+ byte_str lf.
Proof. unfold stream_bytes. rewrite frame_split. by rewrite <- !app_string_assoc. Qed.

(** A well-formed generation stream is delivered in full, however the network
    cuts it.  If every payload is a framable line that decodes to one text delta,
    and the texts together are not blank and within the limit, then for every way
    to split the framed messages and the closing [[DONE]] into chunks, and however
    the connection ends afterwards, the generation succeeds with the concatenated
    texts and finish reason "stop". *)
Theorem wellformed_stream_is_delivered from_str payloads texts chunks stop :
  Forall framable payloads -> Forall2 (carries from_str) payloads texts ->
  (Z.of_nat (length payloads) + 1 < 2 ^ 64)%Z ->
  (blen (concat_str texts) <= GENERATION_MAX_TEXT_BYTES)%Z ->
  is_blank (concat_str texts) = false ->
  concat_str chunks = stream_bytes payloads ->
  generation_result from_str chunks stop
  = Ok {| gr_text := concat_str texts; gr_finish_reason := Some "stop"; gr_usage := None |}.
Proof.
  intros Hf Hc Hn Hl Hblank Hcat. unfold generation_result.
  set (fresh := decoder_new _ _). set (s := set_bom "" true fresh).
  assert (at_boundary s) as Hs by done.
  assert (framable "[DONE]") as Hdone by (by split_and!).
  destruct (on_payloads from_str payloads texts stream_init) as (st1 & He & Ht & Hsq & Ha);
    [done | done | done | simpl; lia |].
  destruct (on_done from_str st1) as (st2 & Hd & Ht2 & Hr2 & Ha2);
    [done | rewrite Hsq; simpl; lia |].
  rewrite (stream_loop_done from_str stop (holding "[DONE]" s) s st1 st2 chunks fresh stream_init
    (concat_str (map frame payloads) +:+ "data: [DONE]" +:+ byte_str lf)
    (map (Message None) payloads)).
  - unfold conclude. rewrite Ht2, Ha2, Hr2, Ha.
    change (accumulated_text stream_init +:+ concat_str texts) with (concat_str texts).
    by rewrite Hblank.
  - apply new_bom_ok.
  - by rewrite Hcat, stream_bytes_split.
  - destruct (stream_opens payloads) as [r Hr]. rewrite app_string_assoc, Hr, <- app_string_assoc.
    subst fresh. rewrite push_fresh. fold s.
    rewrite app_string_assoc, <- Hr, <- app_string_assoc, process_bytes_app, process_frames by done.
    rewrite and_then_ok. change ("data: [DONE]" +:+ byte_str lf)
      with ("data: " +:+ "[DONE]" +:+ byte_str lf).
    rewrite process_data_line by done. by rewrite app_nil_r.
  - reflexivity.
  - done.
  - done.
Qed.

(** A parser that knows two payloads. *)
Definition sample_from_str (s : string) : option Value :=
  let delta t := JObject [("choices", JArray [JObject [("delta", JObject [("content", JString t)])]])] in
  if s =?= "{1}" then Some (delta "Hello, ")
  else if s =?= "{2}" then Some (delta "world")
  else None.

Lemma wellformed_stream_is_delivered_witness :
  generation_result sample_from_str
    ["d"; "ata: {1}" +:+ byte_str lf; byte_str lf +:+ "data: {2}" +:+ String lf (byte_str lf) +:+ "data: [D";
     "ONE]" +:+ byte_str lf; byte_str lf] IdleDeadline
  = Ok {| gr_text := concat_str ["Hello, "; "world"]; gr_finish_reason := Some "stop";
          gr_usage := None |}.
Proof.
  apply (wellformed_stream_is_delivered sample_from_str ["{1}"; "{2}"] ["Hello, "; "world"]).
  - apply Forall_cons; split; [by split_and! |]. apply Forall_singleton. by split_and!.
  - apply Forall2_cons; split; [intros n; reflexivity |].
    apply Forall2_cons; split; [intros n; reflexivity | apply Forall2_nil; exact I].
  - simpl. lia.
  - vm_compute. congruence.
  - reflexivity.
  - reflexivity.
Defined.

Lemma generation_returns_what_was_streamed_witness :
  exists read decoder out consumed rest,
    read `prefix_of` ["data: {1}" +:+ String lf (byte_str lf); "data: [DONE]" +:+ String lf (byte_str lf)]
    /\ push_all read (decoder_new SSE_MAX_LINE_BYTES SSE_MAX_EVENT_BYTES) = Ok (decoder, out)
    /\ finish decoder = Ok tt
    /\ out = consumed ++ rest
    /\ gr_text {| gr_text := "Hello, "; gr_finish_reason := Some "stop"; gr_usage := None |}
       = streamed_text sample_from_str consumed
    /\ (blen (gr_text {| gr_text := "Hello, "; gr_finish_reason := Some "stop"; gr_usage := None |})
        <= GENERATION_MAX_TEXT_BYTES)%Z
    /\ is_blank (gr_text {| gr_text := "Hello, "; gr_finish_reason := Some "stop"; gr_usage := None |})
       = false
    /\ is_accepted_finish (Finished (gr_finish_reason
         {| gr_text := "Hello, "; gr_finish_reason := Some "stop"; gr_usage := None |})) = true
    /\ ((exists pre e d, consumed = pre ++ [Message e d] /\ trim d = "[DONE]")
        \/ (read = ["data: {1}" +:+ String lf (byte_str lf); "data: [DONE]" +:+ String lf (byte_str lf)]
            /\ rest = [] /\ EndOfBody = EndOfBody)).
Proof.
  apply generation_returns_what_was_streamed. vm_compute. reflexivity.
Defined.
