(* ===== verification/Prompt.v ===== *)
(** * Prompt text

    [src/modules/chat/prompt.rs], the part the bridge uses: card sanitizing, the
    system prompt, normalization of what goes to and comes from the model, and
    the clean-up of a compression. *)

From S2P Require Import Prelude Text.

Record NormalizedCardFields := {
  nc_name : string;
  nc_description : string;
  nc_personality : string;
  nc_scenario : string;
  nc_first_mes : string;
  nc_mes_example : string;
  nc_system_prompt : string;
  nc_post_history_instructions : string;
}.

Definition nl : Ascii.ascii := Ascii.ascii_of_nat 10.
Definition nl_str : string := byte_str nl.
Definition cr_str : string := byte_str (Ascii.ascii_of_nat 13).

Definition STOP_MARKERS : list string :=
  ["*重点"; "nsfw"; "NSFW"; "18岁"; "18周岁"; "无内容限制"].

Definition substitute_placeholders (input character_name user_name : string) : string :=
  str_replace "{{user}}" user_name (str_replace "{{char}}" character_name input).

(** [trimmed.truncate(index)] at the first match. *)
Definition cut_at (marker text : string) : string :=
  match str_find marker text with Some index => str_take index text | None => text end.

Definition sanitize_card_text (input character_name user_name : string) (max_length : nat)
    : string :=
  let substituted := substitute_placeholders input character_name user_name in
  let trimmed := foldl (λ text marker, cut_at marker text) substituted STOP_MARKERS in
  trim (chars_take max_length trimmed).

Definition push_nonempty (part : string) (parts : list string) : list string :=
  if part =?= "" then parts else parts ++ [part].

Definition build_system_prompt (card : NormalizedCardFields) (user_name : string) : string :=
  let clean field max := sanitize_card_text field (nc_name card) user_name max in
  let parts :=
    ["你是 " +:+ nc_name card
     +:+ "。你必须严格保持角色设定，继续当前剧情，不要跳出角色，不要写元说明。"] in
  let parts := push_nonempty (clean (nc_description card) 2200) parts in
  let parts := push_nonempty (clean (nc_personality card) 600) parts in
  let parts := push_nonempty (clean (nc_scenario card) 1200) parts in
  let parts :=
    if is_blank (nc_mes_example card) then parts
    else
      let example := clean (nc_mes_example card) 1200 in
      if example =?= "" then parts else parts ++ ["示例对话：" +:+ nl_str +:+ example] in
  join_str (nl_str +:+ nl_str) parts.

(** The loop of [collapse_newlines]: [run] is [newline_run]. *)
Fixpoint collapse_from (run : nat) (s : string) : string :=
  match s with
  | EmptyString => EmptyString
  | String a r =>
      if a =?= nl then
        if (S run <=? 2)%nat then String nl (collapse_from (S run) r)
        else collapse_from (S run) r
      else String a (collapse_from 0 r)
  end.
Definition collapse_newlines (input : string) : string := collapse_from 0 input.

Definition is_blank_byte (a : Ascii.ascii) : bool :=
  (a =?= Ascii.ascii_of_nat 32) || (a =?= Ascii.ascii_of_nat 9).

Definition normalize_model_input_text (input : string) : string :=
  let normalized := str_replace cr_str nl_str (str_replace (cr_str +:+ nl_str) nl_str input) in
  let joined := join nl (map (trim_end_bytes is_blank_byte) (split_on nl normalized)) in
  trim (collapse_newlines joined).

Fixpoint count_byte (c : Ascii.ascii) (s : string) : nat :=
  match s with
  | EmptyString => 0
  | String a r => (if a =?= c then 1 else 0) + count_byte c r
  end.

Definition circled : list string := ["①"; "②"; "③"; "④"; "⑤"; "⑥"; "⑦"; "⑧"].

Definition should_reformat (text : string) : bool :=
  if (8 <=? count_byte nl text)%nat then false
  else (120 <=? String.length text)%nat
       || contains text "━━━━━━" || contains text "──────"
       || existsb (contains text) circled
       || contains text "「" || contains text "」" || contains text "『" || contains text "』".

(** The loop of [regex_lite_replace] over the characters: [run] is the run of a
    rule character being read. *)
Definition flush_run (run : list string) : string :=
  if (6 <=? length run)%nat then nl_str +:+ concat_str run +:+ nl_str else concat_str run.

Fixpoint rules_from (run : list string) (cs : list string) : string :=
  match cs with
  | [] => flush_run run
  | c :: cs =>
      if (c =?= "━") || (c =?= "─") then
        match run with
        | r :: _ => if r =?= c then rules_from (run ++ [c]) cs
                    else flush_run run +:+ rules_from [c] cs
        | [] => rules_from [c] cs
        end
      else flush_run run +:+ c +:+ rules_from [] cs
  end.

Definition regex_lite_replace (input : string) : string :=
  foldl (λ out marker, str_replace marker (nl_str +:+ marker) out)
    (rules_from [] (chars input)) circled.

(** [str::lines] of text without carriage returns. *)
Definition lines (s : string) : list string :=
  match s with
  | EmptyString => []
  | _ => let l := split_on nl s in
         if List.last l EmptyString =?= EmptyString then removelast l else l
  end.

(** [s.split(pat).collect().join(rep)]. *)
Definition split_join (pat rep s : string) : string := str_replace pat rep s.

Fixpoint strip_first (prefixes : list string) (text : string) : string :=
  match prefixes with
  | [] => text
  | p :: ps =>
      match strip_prefix p text with
      | Some stripped => trim_start stripped
      | None => strip_first ps text
      end
  end.

Definition normalize_assistant_reply (character_name input : string) : string :=
  let text := normalize_model_input_text input in
  if text =?= "" then text
  else
    let text := strip_first [character_name +:+ "："; character_name +:+ ":";
                             character_name +:+ " :"; character_name +:+ " ："] text in
    if negb (should_reformat text) then text
    else
      let text := regex_lite_replace text in
      let text := join nl (map trim (lines text)) in
      trim (split_join (nl_str +:+ nl_str +:+ nl_str) (nl_str +:+ nl_str) text).

Definition is_fence_tag (a : Ascii.ascii) : bool :=
  is_ascii_alphanumeric a || (a =?= Ascii.ascii_of_nat 45).

Definition compression_prefixes : list string :=
  ["【压缩版】"; "压缩版："; "压缩后："; "摘要："; "Summary:"; "Compressed:"].

Definition sanitize_compression (text : string) : string :=
  let cleaned := trim text in
  let cleaned :=
    match strip_prefix "```" cleaned with
    | Some stripped =>
        let body := trim_start_bytes (λ a, a =?= nl) (trim_start_bytes is_fence_tag stripped) in
        match str_rfind "```" body with Some n => str_take n body | None => body end
    | None => cleaned
    end in
  trim (foldl (λ cleaned prefix,
          match strip_prefix prefix cleaned with Some s => trim s | None => cleaned end)
        cleaned compression_prefixes).

Definition quote_str : string := byte_str (Ascii.ascii_of_nat 34).

Definition COMPRESSION_SYSTEM_PROMPT : string :=
  concat_str
  ["你是一个文本压缩助手，专门为角色扮演/叙事类对话压缩 AI 回复。";
   nl_str;
   nl_str;
   "压缩规则：";
   nl_str;
   "1. 保留：关键情节推进、角色行为动作、情感变化、重要对话内容、剧情转折点。";
   nl_str;
   "2. 删除：重复的环境描写、冗余的内心独白、过渡性文字、重复的形容词堆砌。";
   nl_str;
   "3. 目标长度：原文的 30%-50%。";
   nl_str;
   "4. 保持原文的人物视角和叙事风格（第一人称保持第一人称，第三人称保持第三人称）。";
   nl_str;
   "5. 保留原文中的关键引语（带引号的对话）的核心内容，可以缩短但不要删除。";
   nl_str;
   nl_str;
   "输出要求：";
   nl_str;
   "- 直接输出压缩后的文本，不要添加任何前缀、标记、解释、JSON 包装。";
   nl_str;
   "- 不要回答用户的问题或继续对话，只是压缩给定的文本。";
   nl_str;
   "- 不要使用 ";
   quote_str;
   "【压缩版】";
   quote_str;
   "、";
   quote_str;
   "摘要：";
   quote_str;
   " 等任何说明性前缀。"].
