(* ===== verification/Operations.v ===== *)
(** * Operations: the durable record of one mutating command

    [src/modules/bridge/operations.rs]: the status machine, the commit states,
    the typed recovery payload and its validation, the authenticated identity
    ([OperationAad]) and its byte encoding, and the operation record.
    [src/domain/locator.rs]: the locator hash. *)

From stdpp Require Import pretty.
From S2P Require Import Prelude Errors StDomain.

(** ** Status machine *)

Inductive BridgeOperationStatus : Set :=
| Received
| SnapshotReady
| Generating
| Generated
| Committing
| Committed
| Delivered
| Conflict
| Failed
| Interrupted.

#[export] Instance BridgeOperationStatus_eq_dec : EqDecision BridgeOperationStatus.
Proof. solve_decision. Defined.

Definition BridgeOperationStatus_as_str (self : BridgeOperationStatus) : string :=
  match self with
  | Received => "received"
  | SnapshotReady => "snapshot_ready"
  | Generating => "generating"
  | Generated => "generated"
  | Committing => "committing"
  | Committed => "committed"
  | Delivered => "delivered"
  | Conflict => "conflict"
  | Failed => "failed"
  | Interrupted => "interrupted"
  end.

Definition BridgeOperationStatus_parse (value : string) : option BridgeOperationStatus :=
  if value =?= "received" then Some Received else
  if value =?= "snapshot_ready" then Some SnapshotReady else
  if value =?= "generating" then Some Generating else
  if value =?= "generated" then Some Generated else
  if value =?= "committing" then Some Committing else
  if value =?= "committed" then Some Committed else
  if value =?= "delivered" then Some Delivered else
  if value =?= "conflict" then Some Conflict else
  if value =?= "failed" then Some Failed else
  if value =?= "interrupted" then Some Interrupted else
  None.

#[export] Program Instance BridgeOperationStatus_codec : TextCodec BridgeOperationStatus :=
  {| as_str := BridgeOperationStatus_as_str; parse := BridgeOperationStatus_parse |}.
Next Obligation. solve_parse_as_str. Qed.
Next Obligation. unfold BridgeOperationStatus_parse, BridgeOperationStatus_as_str. solve_as_str_parse. Qed.

Definition is_terminal (self : BridgeOperationStatus) : bool :=
  match self with
  | Delivered | Conflict | Failed | Interrupted => true
  | _ => false
  end.

Definition can_transition_to (self next : BridgeOperationStatus) : bool :=
  match self, next with
  | Received, SnapshotReady
  | SnapshotReady, Generating
  | SnapshotReady, Generated
  | Generating, Generated
  | Generated, Committing
  | Committing, Committed
  | Committed, Delivered
  | Received, Failed
  | SnapshotReady, Failed
  | Generating, Failed
  | Generating, Interrupted
  | Generated, Failed
  | Committing, Conflict
  | Committing, Failed
  | Committing, Interrupted => true
  | _, _ => false
  end.

Definition transition (self next : BridgeOperationStatus)
    : AppResult BridgeOperationStatus :=
  if can_transition_to self next then Ok next
  else Err (conflict "BRIDGE_OPERATION_INVALID_TRANSITION"
              ("cannot transition from " +:+ as_str self +:+ " to " +:+ as_str next)).

(** ** Commit states *)

Inductive OperationCommitState : Set :=
| OcNotStarted
| OcNotApplied
| OcApplied
| OcUnknown.

#[export] Instance OperationCommitState_eq_dec : EqDecision OperationCommitState.
Proof. solve_decision. Defined.

Definition OperationCommitState_as_str (self : OperationCommitState) : string :=
  match self with
  | OcNotStarted => "not_started"
  | OcNotApplied => "not_applied"
  | OcApplied => "applied"
  | OcUnknown => "unknown"
  end.

Definition OperationCommitState_parse (value : string) : option OperationCommitState :=
  if value =?= "not_started" then Some OcNotStarted else
  if value =?= "not_applied" then Some OcNotApplied else
  if value =?= "applied" then Some OcApplied else
  if value =?= "unknown" then Some OcUnknown else
  None.

#[export] Program Instance OperationCommitState_codec : TextCodec OperationCommitState :=
  {| as_str := OperationCommitState_as_str; parse := OperationCommitState_parse |}.
Next Obligation. solve_parse_as_str. Qed.
Next Obligation. unfold OperationCommitState_parse, OperationCommitState_as_str. solve_as_str_parse. Qed.

(** ** Recovery payload *)

Inductive OperationRecoveryPayload : Type :=
| PAppend (mutation : StMutation) (expected_sha256 expected_integrity : string)
    (fence : PollerRuntimeFence)
| PReplace (mutation : StMutation) (expected_sha256 expected_integrity : string)
    (fence : PollerRuntimeFence)
| PUndo (mutation : StMutation) (expected_sha256 expected_integrity : string)
    (fence : PollerRuntimeFence)
| PCreate (command : CreateStChat)
| PCompress (mutation : StMutation) (expected_sha256 expected_integrity : string)
    (fence : PollerRuntimeFence).

Definition payload_mutation (p : OperationRecoveryPayload) : option StMutation :=
  match p with
  | PAppend m _ _ _ | PReplace m _ _ _ | PUndo m _ _ _ | PCompress m _ _ _ => Some m
  | PCreate _ => None
  end.

Definition payload_fence (p : OperationRecoveryPayload) : PollerRuntimeFence :=
  match p with
  | PCreate command => cr_fence command
  | PAppend _ _ _ fence | PReplace _ _ _ fence | PUndo _ _ _ fence
  | PCompress _ _ _ fence => fence
  end.

(** [OperationRecoveryPayload::validate]: the fence first, then the arms of the
    second match; the two guarded arms over the same patterns are one test. *)
Definition validate (p : OperationRecoveryPayload) : AppResult unit :=
  if negb (fence_is_valid (payload_fence p)) then
    Err (bad_request "PAYLOAD_FENCE_INVALID"
           "operation recovery payload runtime fence is invalid")
  else
    match p with
    | PCreate command =>
        if is_blank (cr_operation_id command) then
          Err (bad_request "PAYLOAD_RECOVERY_INVALID" "create operation id is required")
        else Ok tt
    | PAppend (AppendTurn _ _) expected_sha256 expected_integrity _
    | PReplace (ReplaceLastAssistant _ _) expected_sha256 expected_integrity _
    | PUndo (UndoLastTurn _ _) expected_sha256 expected_integrity _
    | PCompress (CompressMessages _) expected_sha256 expected_integrity _ =>
        if is_blank expected_sha256 || is_blank expected_integrity then
          Err (bad_request "PAYLOAD_RECOVERY_INVALID"
                 "recovery snapshot identity is required")
        else Ok tt
    | _ =>
        Err (bad_request "PAYLOAD_RECOVERY_INVALID"
               "recovery payload mutation kind is not allowed")
    end.

(** ** Authenticated identity *)

Record OperationAad := {
  aad_version : Z;
  aad_operation_id : string;
  aad_locator_hash : string;
  aad_operation_kind : string;
  aad_actor_id : string;
  aad_bot_id : string;
  aad_runtime_fence : option PollerRuntimeFence;
}.

Definition OperationAad_new
    (operation_id locator_hash operation_kind actor_id bot_id : string) : OperationAad :=
  {| aad_version := 1; aad_operation_id := operation_id;
     aad_locator_hash := locator_hash; aad_operation_kind := operation_kind;
     aad_actor_id := actor_id; aad_bot_id := bot_id; aad_runtime_fence := None |}.

Definition OperationAad_new_with_fence
    (operation_id locator_hash operation_kind actor_id : string)
    (fence : PollerRuntimeFence) : OperationAad :=
  {| aad_version := 1; aad_operation_id := operation_id;
     aad_locator_hash := locator_hash; aad_operation_kind := operation_kind;
     aad_actor_id := actor_id; aad_bot_id := f_internal_bot_id fence;
     aad_runtime_fence := Some fence |}.

Definition AAD_DOMAIN : string :=
  "im-bridge/operation-payload" +:+ String (Ascii.ascii_of_N 0) "".

Definition fence_parts (fence : PollerRuntimeFence) : list string :=
  [pretty (f_telegram_bot_id fence); f_owner fence; pretty (f_epoch fence);
   f_internal_bot_id fence; f_runtime_instance_id fence].

Definition aad_encode (aad : OperationAad) : string :=
  AAD_DOMAIN +:+ be_bytes 2 (aad_version aad)
  +:+ encode_parts [aad_operation_id aad; aad_locator_hash aad;
                    aad_operation_kind aad; aad_actor_id aad; aad_bot_id aad]
  +:+ match aad_runtime_fence aad with
      | Some fence => encode_parts (fence_parts fence)
      | None => ""
      end.

(** ** Locator hash

    [sha256_hex] is [hex::encode(Sha256::digest(..))]: a parameter. *)

Definition locator_encoding (handle avatar chat_file : string) : string :=
  encode_parts [handle; avatar; chat_file].

Definition locator_hash (sha256_hex : string -> string)
    (handle avatar chat_file : string) : string :=
  sha256_hex (locator_encoding handle avatar chat_file).

(** ** Stored payload and record *)

Record EncryptedOperationPayload := {
  enc_ciphertext : string;
  enc_nonce : string;
  enc_key_version : Z;
}.

#[export] Instance EncryptedOperationPayload_eq_dec : EqDecision EncryptedOperationPayload.
Proof. solve_decision. Defined.

Record BridgeOperationRecord := {
  rec_id : string;
  rec_actor_id : string;
  rec_bot_id : string;
  rec_telegram_update_id : Z;
  rec_channel_context_key : string;
  rec_operation_kind : string;
  rec_locator : StChatLocator;
  rec_status : BridgeOperationStatus;
  rec_commit_state : OperationCommitState;
  rec_source_sha256 : option string;
  rec_source_integrity : option string;
  rec_source_size : option Z;
  rec_message_count : option Z;
  rec_mutation_digest : option string;
  rec_payload : option EncryptedOperationPayload;
  rec_connector_result_json : option string;
  rec_error_stage : option string;
  rec_error_code : option string;
  rec_error_summary : option string;
  rec_retryable : bool;
  rec_attempt_count : Z;
  rec_request_id : string;
  rec_trace_id : string;
  rec_created_at : string;
  rec_updated_at : string;
}.

#[export] Instance BridgeOperationRecord_eq_dec : EqDecision BridgeOperationRecord.
Proof. solve_decision. Defined.

(** [BridgeOperationRecord::aad]. *)
Definition record_aad (r : BridgeOperationRecord) (locator_hash : string) : OperationAad :=
  OperationAad_new (rec_id r) locator_hash (rec_operation_kind r)
    (rec_actor_id r) (rec_bot_id r).

(** ** The status machine terminates *)

Definition status_step (a b : BridgeOperationStatus) : Prop := can_transition_to a b = true.

(** Transitions still possible from a status, at most. *)
Definition status_rank (s : BridgeOperationStatus) : nat :=
  match s with
  | Received => 6 | SnapshotReady => 5 | Generating => 4 | Generated => 3
  | Committing => 2 | Committed => 1
  | Delivered | Conflict | Failed | Interrupted => 0
  end.

Lemma status_step_rank a b : status_step a b -> status_rank b < status_rank a.
Proof. unfold status_step. destruct a, b; simpl; (discriminate || lia). Qed.

Lemma status_steps_rank n a b : nsteps status_step n a b -> status_rank b + n <= status_rank a.
Proof.
  induction 1 as [a | n a b c Hab Hbc IH]; [lia |].
  apply status_step_rank in Hab. lia.
Qed.

Lemma terminal_no_step a : is_terminal a = true <-> forall b, can_transition_to a b = false.
Proof.
  split.
  - intros Ht b. destruct a; try discriminate Ht; by destruct b.
  - intros Hn. destruct a; try done; exfalso.
    + specialize (Hn Failed). discriminate.
    + specialize (Hn Failed). discriminate.
    + specialize (Hn Failed). discriminate.
    + specialize (Hn Failed). discriminate.
    + specialize (Hn Failed). discriminate.
    + specialize (Hn Delivered). discriminate.
Qed.

Lemma rtc_status_rank a b : rtc status_step a b -> status_rank b <= status_rank a.
Proof. intros [n Hn]%rtc_nsteps. apply status_steps_rank in Hn. lia. Qed.

Lemma rtc_status_terminal a b : is_terminal a = true -> rtc status_step a b -> b = a.
Proof.
  intros Ht Hs. destruct Hs as [|a b c Hab _]; [done |].
  unfold status_step in Hab. by rewrite (proj1 (terminal_no_step a) Ht) in Hab.
Qed.

(** The status machine terminates.  Every chain of transitions allowed by
    [can_transition_to] has at most six steps, and a status has no outgoing
    transition exactly when [is_terminal] holds of it, so an operation's status
    changes at most six times and a terminal status is final. *)
Theorem status_machine_terminates :
  (forall n a b, nsteps status_step n a b -> n <= 6)
  /\ (forall a, is_terminal a = true <-> forall b, ~ status_step a b).
Proof.
  split.
  - intros n a b Hs. apply status_steps_rank in Hs. destruct a; simpl in Hs; lia.
  - intros a. rewrite terminal_no_step. unfold status_step.
    split; intros Hb b; specialize (Hb b); destruct (can_transition_to a b); naive_solver.
Qed.

(** ** Encodings are injective *)

Definition aad_parts (aad : OperationAad) : list string :=
  [aad_operation_id aad; aad_locator_hash aad; aad_operation_kind aad;
   aad_actor_id aad; aad_bot_id aad]
  ++ match aad_runtime_fence aad with Some f => fence_parts f | None => [] end.

(** What the Rust types guarantee of every [OperationAad]. *)
Definition aad_typed (aad : OperationAad) : Prop :=
  (0 <= aad_version aad < 2 ^ 16)%Z /\ Forall u64_len (aad_parts aad).

Lemma encode_parts_app ps qs : encode_parts (ps ++ qs) = encode_parts ps +:+ encode_parts qs.
Proof.
  induction ps as [|p ps IH]; [done |].
  simpl. by rewrite IH, app_string_assoc.
Qed.

Lemma aad_encode_parts aad :
  aad_encode aad = AAD_DOMAIN +:+ be_bytes 2 (aad_version aad) +:+ encode_parts (aad_parts aad).
Proof.
  unfold aad_encode, aad_parts. rewrite encode_parts_app.
  by destruct (aad_runtime_fence aad).
Qed.

Lemma aad_parts_inj a b :
  aad_version a = aad_version b -> aad_parts a = aad_parts b -> a = b.
Proof.
  destruct a as [v i l k ac bo [[t o e ib ri]|]], b as [v' i' l' k' ac' bo' [[t' o' e' ib' ri']|]];
    unfold aad_parts, fence_parts; simpl; intros -> Heq; by simplify_eq/=.
Qed.

Lemma aad_encode_inj a b :
  aad_typed a -> aad_typed b -> aad_encode a = aad_encode b -> a = b.
Proof.
  intros [Hva Hpa] [Hvb Hpb]. rewrite !aad_encode_parts. intros Heq.
  apply app_string_inj_length in Heq as [_ Heq]; [| done].
  apply app_string_inj_length in Heq as [Hv Heq]; [| by rewrite !be_bytes_length].
  apply be_bytes_inj in Hv; [| change (256 ^ Z.of_nat 2)%Z with (2 ^ 16)%Z; lia ..].
  apply encode_parts_inj in Heq; [| done ..]. by apply aad_parts_inj.
Qed.

Definition sample_fence : PollerRuntimeFence :=
  {| f_telegram_bot_id := 42; f_owner := "rust_bridge"; f_epoch := 3;
     f_internal_bot_id := "bot-1"; f_runtime_instance_id := "inst-1" |}.

Definition sample_aad : OperationAad :=
  OperationAad_new_with_fence "op-1" "hash" "send" "actor" sample_fence.

Ltac solve_aad_typed :=
  split; [vm_compute; split; congruence | repeat constructor; vm_compute; reflexivity].

(** The bytes that [locator_hash] digests determine the locator: equal
    encodings come from equal handle, avatar and chat file, so two chats share
    a locator hash only through a SHA-256 collision. *)
Theorem locator_encoding_injective h a c h' a' c' :
  Forall u64_len [h; a; c; h'; a'; c'] ->
  locator_encoding h a c = locator_encoding h' a' c' ->
  h = h' /\ a = a' /\ c = c'.
Proof.
  intros Hlen Heq. rewrite !Forall_cons in Hlen. destruct_and! Hlen.
  apply encode_parts_inj in Heq; [naive_solver | by repeat constructor ..].
Qed.

Lemma locator_encoding_injective_witness :
  Forall u64_len ["ha"; "b"; "c"; "ha"; "b"; "c"] /\ ("ha" = "ha" /\ "b" = "b" /\ "c" = "c").
Proof.
  assert (Forall u64_len ["ha"; "b"; "c"; "ha"; "b"; "c"])
    by (repeat constructor; vm_compute; reflexivity).
  split; [done |].
  apply (locator_encoding_injective "ha" "b" "c" "ha" "b" "c"); [done | reflexivity].
Defined.

(** ** Payload validation *)

(** The mutation a payload may carry. *)
Definition payload_kind_allowed (p : OperationRecoveryPayload) : bool :=
  match p with
  | PAppend (AppendTurn _ _) _ _ _ | PReplace (ReplaceLastAssistant _ _) _ _ _
  | PUndo (UndoLastTurn _ _) _ _ _ | PCompress (CompressMessages _) _ _ _
  | PCreate _ => true
  | _ => false
  end.

(** The identity a payload pins: the operation to create under, or the
    snapshot revision the mutation expects. *)
Definition payload_identified (p : OperationRecoveryPayload) : bool :=
  match p with
  | PCreate command => negb (is_blank (cr_operation_id command))
  | PAppend _ sha int _ | PReplace _ sha int _ | PUndo _ sha int _
  | PCompress _ sha int _ => negb (is_blank sha) && negb (is_blank int)
  end.

(** [validate] accepts exactly the payloads whose fence is valid, whose
    variant matches its mutation, and which pin the operation id (create) or
    both the snapshot hash and the integrity token (all others). *)
Theorem validate_ok_iff p :
  validate p = Ok tt <->
  fence_is_valid (payload_fence p) = true
  /\ payload_kind_allowed p = true /\ payload_identified p = true.
Proof.
  unfold validate.
  destruct (fence_is_valid (payload_fence p)); simpl; [| naive_solver].
  destruct p as [m sha int f|m sha int f|m sha int f|c|m sha int f]; simpl;
    try destruct m; simpl;
    try destruct (is_blank sha); try destruct (is_blank int);
    try destruct (is_blank (cr_operation_id c)); naive_solver.
Qed.
