(* ===== verification/OperationStore.v ===== *)
(** * Operation store: the ledger in SQLite

    [src/modules/bridge/operation_store.rs] over the tables of
    [migrations/0004_st_sidecar.sql] and
    [migrations/202609060001_final_operation_recovery.sql].  A table is a finite
    map from its primary key to the row; one SQL statement is one atomic step;
    an operation is the statements it runs, in order.  [now] is the value
    [clock::now_rfc3339] returns to the call, compared as TEXT the way SQLite
    compares it.  I/O failures of the database driver are not modelled. *)

From stdpp Require Import pretty.
From S2P Require Import Prelude Errors StDomain Operations.

(** ** Rows *)

Record OperationRow := MkOperationRow {
  r_id : string;
  r_actor_id : string;
  r_bot_id : string;
  r_telegram_update_id : Z;
  r_channel_context_key : string;
  r_operation_kind : string;
  r_st_handle : option string;
  r_st_character_avatar : option string;
  r_st_chat_file : option string;
  r_status : string;
  r_source_sha256 : option string;
  r_source_integrity : option string;
  r_source_size : option Z;
  r_message_count : option Z;
  r_operation_payload_ciphertext : option string;
  r_operation_payload_nonce : option string;
  r_operation_payload_key_version : option Z;
  r_mutation_digest : option string;
  r_connector_result_json : option string;
  r_error_stage : option string;
  r_error_code : option string;
  r_error_summary : option string;
  r_retryable : Z;
  r_commit_state : string;
  r_attempt_count : Z;
  r_request_id : option string;
  r_trace_id : option string;
  r_created_at : string;
  r_updated_at : string;
}.

Record KeyRefRow := {
  k_wrapped_secret_id : string;
  k_key_version : Z;
  k_created_at : string;
  k_updated_at : string;
}.

Record LeaseRow := {
  l_instance_id : string;
  l_lease_generation : Z;
  l_lease_until : string;
  l_created_at : string;
  l_updated_at : string;
}.

(** A row of [secrets], the vault's table ([adapters/secrets/encrypted_sqlite.rs]). *)
Record SecretRow := {
  s_owner_scope : string;
  s_kind : string;
  s_key_version : Z;
  s_nonce : string;
  s_ciphertext : string;
  s_fingerprint : string;
  s_created_at : string;
  s_updated_at : string;
}.

(** A row of [channel_contexts] for the channel 'telegram', the sidecar's columns;
    the key is the account and the external context key. *)
Record ChannelRow := {
  c_workspace_id : option string;
  c_st_handle : option string;
  c_st_character_avatar : option string;
  c_st_character_name : option string;
  c_st_chat_file : option string;
  c_chat_model_id : option string;
  c_compression_model_id : option string;
  c_updated_at : string;
}.

(** The tables of the bridge's core, the key sets of the tables its foreign keys
    reference, and the process's set of claims in flight. *)
Record DB := {
  workspaces : gset string;
  channel_contexts : gmap (string * string) ChannelRow;
  bridge_operations : gmap string OperationRow;
  operation_key_refs : gmap string KeyRefRow;
  operation_execution_leases : gmap string LeaseRow;
  accounts : gset string;
  telegram_bots : gset string;
  secrets : gmap string SecretRow;
  in_process_claims : gset string;
}.

(** ** Column updates *)

Definition with_status (status now : string) (r : OperationRow) : OperationRow :=
  {| r_id := r_id r; r_actor_id := r_actor_id r; r_bot_id := r_bot_id r;
     r_telegram_update_id := r_telegram_update_id r;
     r_channel_context_key := r_channel_context_key r;
     r_operation_kind := r_operation_kind r; r_st_handle := r_st_handle r;
     r_st_character_avatar := r_st_character_avatar r;
     r_st_chat_file := r_st_chat_file r; r_status := status;
     r_source_sha256 := r_source_sha256 r;
     r_source_integrity := r_source_integrity r; r_source_size := r_source_size r;
     r_message_count := r_message_count r;
     r_operation_payload_ciphertext := r_operation_payload_ciphertext r;
     r_operation_payload_nonce := r_operation_payload_nonce r;
     r_operation_payload_key_version := r_operation_payload_key_version r;
     r_mutation_digest := r_mutation_digest r;
     r_connector_result_json := r_connector_result_json r;
     r_error_stage := r_error_stage r; r_error_code := r_error_code r;
     r_error_summary := r_error_summary r; r_retryable := r_retryable r;
     r_commit_state := r_commit_state r; r_attempt_count := r_attempt_count r;
     r_request_id := r_request_id r; r_trace_id := r_trace_id r;
     r_created_at := r_created_at r; r_updated_at := now |}.

Definition with_commit_state (commit_state : string) (r : OperationRow) : OperationRow :=
  {| r_id := r_id r; r_actor_id := r_actor_id r; r_bot_id := r_bot_id r;
     r_telegram_update_id := r_telegram_update_id r;
     r_channel_context_key := r_channel_context_key r;
     r_operation_kind := r_operation_kind r; r_st_handle := r_st_handle r;
     r_st_character_avatar := r_st_character_avatar r;
     r_st_chat_file := r_st_chat_file r; r_status := r_status r;
     r_source_sha256 := r_source_sha256 r;
     r_source_integrity := r_source_integrity r; r_source_size := r_source_size r;
     r_message_count := r_message_count r;
     r_operation_payload_ciphertext := r_operation_payload_ciphertext r;
     r_operation_payload_nonce := r_operation_payload_nonce r;
     r_operation_payload_key_version := r_operation_payload_key_version r;
     r_mutation_digest := r_mutation_digest r;
     r_connector_result_json := r_connector_result_json r;
     r_error_stage := r_error_stage r; r_error_code := r_error_code r;
     r_error_summary := r_error_summary r; r_retryable := r_retryable r;
     r_commit_state := commit_state; r_attempt_count := r_attempt_count r;
     r_request_id := r_request_id r; r_trace_id := r_trace_id r;
     r_created_at := r_created_at r; r_updated_at := r_updated_at r |}.

Definition with_source (sha integrity : option string) (size count : option Z) (r : OperationRow) : OperationRow :=
  {| r_id := r_id r; r_actor_id := r_actor_id r; r_bot_id := r_bot_id r;
     r_telegram_update_id := r_telegram_update_id r;
     r_channel_context_key := r_channel_context_key r;
     r_operation_kind := r_operation_kind r; r_st_handle := r_st_handle r;
     r_st_character_avatar := r_st_character_avatar r;
     r_st_chat_file := r_st_chat_file r; r_status := r_status r;
     r_source_sha256 := sha; r_source_integrity := integrity; r_source_size := size;
     r_message_count := count;
     r_operation_payload_ciphertext := r_operation_payload_ciphertext r;
     r_operation_payload_nonce := r_operation_payload_nonce r;
     r_operation_payload_key_version := r_operation_payload_key_version r;
     r_mutation_digest := r_mutation_digest r;
     r_connector_result_json := r_connector_result_json r;
     r_error_stage := r_error_stage r; r_error_code := r_error_code r;
     r_error_summary := r_error_summary r; r_retryable := r_retryable r;
     r_commit_state := r_commit_state r; r_attempt_count := r_attempt_count r;
     r_request_id := r_request_id r; r_trace_id := r_trace_id r;
     r_created_at := r_created_at r; r_updated_at := r_updated_at r |}.

Definition with_payload (ciphertext nonce : string) (key_version : Z) (digest : string) (r : OperationRow) : OperationRow :=
  {| r_id := r_id r; r_actor_id := r_actor_id r; r_bot_id := r_bot_id r;
     r_telegram_update_id := r_telegram_update_id r;
     r_channel_context_key := r_channel_context_key r;
     r_operation_kind := r_operation_kind r; r_st_handle := r_st_handle r;
     r_st_character_avatar := r_st_character_avatar r;
     r_st_chat_file := r_st_chat_file r; r_status := r_status r;
     r_source_sha256 := r_source_sha256 r;
     r_source_integrity := r_source_integrity r; r_source_size := r_source_size r;
     r_message_count := r_message_count r;
     r_operation_payload_ciphertext := Some ciphertext;
     r_operation_payload_nonce := Some nonce;
     r_operation_payload_key_version := Some key_version;
     r_mutation_digest := Some digest;
     r_connector_result_json := r_connector_result_json r;
     r_error_stage := r_error_stage r; r_error_code := r_error_code r;
     r_error_summary := r_error_summary r; r_retryable := r_retryable r;
     r_commit_state := r_commit_state r; r_attempt_count := r_attempt_count r;
     r_request_id := r_request_id r; r_trace_id := r_trace_id r;
     r_created_at := r_created_at r; r_updated_at := r_updated_at r |}.

Definition with_connector_result (json : string) (r : OperationRow) : OperationRow :=
  {| r_id := r_id r; r_actor_id := r_actor_id r; r_bot_id := r_bot_id r;
     r_telegram_update_id := r_telegram_update_id r;
     r_channel_context_key := r_channel_context_key r;
     r_operation_kind := r_operation_kind r; r_st_handle := r_st_handle r;
     r_st_character_avatar := r_st_character_avatar r;
     r_st_chat_file := r_st_chat_file r; r_status := r_status r;
     r_source_sha256 := r_source_sha256 r;
     r_source_integrity := r_source_integrity r; r_source_size := r_source_size r;
     r_message_count := r_message_count r;
     r_operation_payload_ciphertext := r_operation_payload_ciphertext r;
     r_operation_payload_nonce := r_operation_payload_nonce r;
     r_operation_payload_key_version := r_operation_payload_key_version r;
     r_mutation_digest := r_mutation_digest r; r_connector_result_json := Some json;
     r_error_stage := r_error_stage r; r_error_code := r_error_code r;
     r_error_summary := r_error_summary r; r_retryable := r_retryable r;
     r_commit_state := r_commit_state r; r_attempt_count := r_attempt_count r;
     r_request_id := r_request_id r; r_trace_id := r_trace_id r;
     r_created_at := r_created_at r; r_updated_at := r_updated_at r |}.

Definition with_error (stage code summary : string) (r : OperationRow) : OperationRow :=
  {| r_id := r_id r; r_actor_id := r_actor_id r; r_bot_id := r_bot_id r;
     r_telegram_update_id := r_telegram_update_id r;
     r_channel_context_key := r_channel_context_key r;
     r_operation_kind := r_operation_kind r; r_st_handle := r_st_handle r;
     r_st_character_avatar := r_st_character_avatar r;
     r_st_chat_file := r_st_chat_file r; r_status := r_status r;
     r_source_sha256 := r_source_sha256 r;
     r_source_integrity := r_source_integrity r; r_source_size := r_source_size r;
     r_message_count := r_message_count r;
     r_operation_payload_ciphertext := r_operation_payload_ciphertext r;
     r_operation_payload_nonce := r_operation_payload_nonce r;
     r_operation_payload_key_version := r_operation_payload_key_version r;
     r_mutation_digest := r_mutation_digest r;
     r_connector_result_json := r_connector_result_json r;
     r_error_stage := Some stage; r_error_code := Some code;
     r_error_summary := Some summary; r_retryable := r_retryable r;
     r_commit_state := r_commit_state r; r_attempt_count := r_attempt_count r;
     r_request_id := r_request_id r; r_trace_id := r_trace_id r;
     r_created_at := r_created_at r; r_updated_at := r_updated_at r |}.

Definition with_retryable (retryable : Z) (r : OperationRow) : OperationRow :=
  {| r_id := r_id r; r_actor_id := r_actor_id r; r_bot_id := r_bot_id r;
     r_telegram_update_id := r_telegram_update_id r;
     r_channel_context_key := r_channel_context_key r;
     r_operation_kind := r_operation_kind r; r_st_handle := r_st_handle r;
     r_st_character_avatar := r_st_character_avatar r;
     r_st_chat_file := r_st_chat_file r; r_status := r_status r;
     r_source_sha256 := r_source_sha256 r;
     r_source_integrity := r_source_integrity r; r_source_size := r_source_size r;
     r_message_count := r_message_count r;
     r_operation_payload_ciphertext := r_operation_payload_ciphertext r;
     r_operation_payload_nonce := r_operation_payload_nonce r;
     r_operation_payload_key_version := r_operation_payload_key_version r;
     r_mutation_digest := r_mutation_digest r;
     r_connector_result_json := r_connector_result_json r;
     r_error_stage := r_error_stage r; r_error_code := r_error_code r;
     r_error_summary := r_error_summary r; r_retryable := retryable;
     r_commit_state := r_commit_state r; r_attempt_count := r_attempt_count r;
     r_request_id := r_request_id r; r_trace_id := r_trace_id r;
     r_created_at := r_created_at r; r_updated_at := r_updated_at r |}.

Definition set_bridge_operations (m : gmap string OperationRow) (db : DB) : DB :=
  {| workspaces := workspaces db; channel_contexts := channel_contexts db;
     bridge_operations := m;
     operation_key_refs := operation_key_refs db;
     operation_execution_leases := operation_execution_leases db;
     accounts := accounts db;
     telegram_bots := telegram_bots db;
     secrets := secrets db;
     in_process_claims := in_process_claims db |}.

Definition set_operation_key_refs (m : gmap string KeyRefRow) (db : DB) : DB :=
  {| workspaces := workspaces db; channel_contexts := channel_contexts db;
     bridge_operations := bridge_operations db;
     operation_key_refs := m;
     operation_execution_leases := operation_execution_leases db;
     accounts := accounts db;
     telegram_bots := telegram_bots db;
     secrets := secrets db;
     in_process_claims := in_process_claims db |}.

Definition set_operation_execution_leases (m : gmap string LeaseRow) (db : DB) : DB :=
  {| workspaces := workspaces db; channel_contexts := channel_contexts db;
     bridge_operations := bridge_operations db;
     operation_key_refs := operation_key_refs db;
     operation_execution_leases := m;
     accounts := accounts db;
     telegram_bots := telegram_bots db;
     secrets := secrets db;
     in_process_claims := in_process_claims db |}.

Definition set_in_process_claims (m : gset string) (db : DB) : DB :=
  {| workspaces := workspaces db; channel_contexts := channel_contexts db;
     bridge_operations := bridge_operations db;
     operation_key_refs := operation_key_refs db;
     operation_execution_leases := operation_execution_leases db;
     accounts := accounts db;
     telegram_bots := telegram_bots db;
     secrets := secrets db;
     in_process_claims := m |}.

(** ** Reading rows *)

(** [u32::try_from(i64)]. *)
Definition u32_try_from (z : Z) : option Z :=
  if ((0 <=? z) && (z <? 2 ^ 32))%Z then Some z else None.

(** [u64::try_from(i64)] and [i64::try_from(u64)]. *)
Definition u64_try_from (z : Z) : option Z := if (0 <=? z)%Z then Some z else None.
Definition i64_try_from (z : Z) : option Z := if (z <? 2 ^ 63)%Z then Some z else None.

Definition map_payload (ciphertext nonce : option string) (key_version : option Z)
    : AppResult (option EncryptedOperationPayload) :=
  match ciphertext, nonce, key_version with
  | None, None, None => Ok None
  | Some ciphertext, Some nonce, Some key_version =>
      if negb (String.length nonce =? 24)%nat then
        Err (internal "operation payload nonce has invalid length")
      else
        let? key_version :=
          ok_or (u32_try_from key_version)
            (internal "operation payload key_version is invalid") in
        Ok (Some {| enc_ciphertext := ciphertext; enc_nonce := nonce;
                    enc_key_version := key_version |})
  | _, _, _ =>
      Err (internal "operation payload ciphertext/nonce/key_version are inconsistent")
  end.

Definition unwrap_or_default (o : option string) : string := default "" o.

Definition into_record (r : OperationRow) : AppResult BridgeOperationRecord :=
  let? status :=
    ok_or (parse (r_status r))
      (internal ("unknown bridge operation status " +:+ r_status r)) in
  let? commit_state :=
    ok_or (parse (r_commit_state r))
      (internal ("unknown bridge operation commit_state " +:+ r_commit_state r)) in
  let? payload :=
    map_payload (r_operation_payload_ciphertext r) (r_operation_payload_nonce r)
      (r_operation_payload_key_version r) in
  let? attempt_count :=
    ok_or (u32_try_from (r_attempt_count r))
      (internal "operation attempt count is invalid") in
  Ok {| rec_id := r_id r;
        rec_actor_id := r_actor_id r;
        rec_bot_id := r_bot_id r;
        rec_telegram_update_id := r_telegram_update_id r;
        rec_channel_context_key := r_channel_context_key r;
        rec_operation_kind := r_operation_kind r;
        rec_locator :=
          {| loc_handle := unwrap_or_default (r_st_handle r);
             loc_avatar := unwrap_or_default (r_st_character_avatar r);
             loc_character_name := "";
             loc_chat_file := unwrap_or_default (r_st_chat_file r) |};
        rec_status := status;
        rec_commit_state := commit_state;
        rec_source_sha256 := r_source_sha256 r;
        rec_source_integrity := r_source_integrity r;
        rec_source_size := r_source_size r;
        rec_message_count := r_message_count r;
        rec_mutation_digest := r_mutation_digest r;
        rec_payload := payload;
        rec_connector_result_json := r_connector_result_json r;
        rec_error_stage := r_error_stage r;
        rec_error_code := r_error_code r;
        rec_error_summary := r_error_summary r;
        rec_retryable := negb (r_retryable r =? 0)%Z;
        rec_attempt_count := attempt_count;
        rec_request_id := unwrap_or_default (r_request_id r);
        rec_trace_id := unwrap_or_default (r_trace_id r);
        rec_created_at := r_created_at r;
        rec_updated_at := r_updated_at r |}.

(** [row.map(OperationRow::into_record).transpose()]. *)
Definition into_record_opt (o : option OperationRow)
    : AppResult (option BridgeOperationRecord) :=
  match o with
  | None => Ok None
  | Some r => result_map Some (into_record r)
  end.

Definition get_operation (id : string) (db : DB)
    : AppResult (option BridgeOperationRecord) :=
  into_record_opt (bridge_operations db !! id).

(** [WHERE bot_id = ? AND telegram_update_id = ? AND operation_kind = ?]. *)
Definition claim_where (bot_id : string) (update_id : Z) (kind : string)
    (r : OperationRow) : bool :=
  (r_bot_id r =?= bot_id) && (r_telegram_update_id r =?= update_id)
  && (r_operation_kind r =?= kind).

(** The rows of the table, in the order the map enumerates them. *)
Definition rows (db : DB) : list OperationRow :=
  map snd (map_to_list (bridge_operations db)).

Definition find_row (where_ : OperationRow -> bool) (db : DB) : option OperationRow :=
  head (List.filter where_ (rows db)).

Definition get_by_claim (bot_id : string) (update_id : Z) (kind : string) (db : DB)
    : AppResult (option BridgeOperationRecord) :=
  into_record_opt (find_row (claim_where bot_id update_id kind) db).

(** ** Claims *)

Record ClaimOperationRequest := {
  q_id : string;
  q_actor_id : string;
  q_bot_id : string;
  q_telegram_update_id : Z;
  q_channel_context_key : string;
  q_operation_kind : string;
  q_locator : StChatLocator;
  q_request_id : string;
  q_trace_id : string;
}.

Inductive OperationClaimError : Type :=
| DuplicateClaim (existing : BridgeOperationRecord)
| ClaimFailed (error : AppError).

(** [OperationClaimError::confirmed_commit]. *)
Definition confirmed_commit (e : OperationClaimError) : bool :=
  match e with
  | DuplicateClaim r =>
      ((rec_status r =?= Committed) || (rec_status r =?= Delivered))
      && (rec_commit_state r =?= OcApplied)
  | ClaimFailed _ => false
  end.

Definition claim_key (bot_id : string) (update_id : Z) (kind : string) : string :=
  bot_id +:+ ":" +:+ pretty update_id +:+ ":" +:+ kind.

(** One round of [acquire_in_process]'s loop, and the guard's [Drop]. *)
Definition try_acquire_in_process (key : string) (db : DB) : option DB :=
  if bool_decide (key ∈ in_process_claims db) then None
  else Some (set_in_process_claims ({[key]} ∪ in_process_claims db) db).

Definition release_in_process (key : string) (db : DB) : DB :=
  set_in_process_claims (in_process_claims db ∖ {[key]}) db.

Definition matches_claim (r : BridgeOperationRecord) (q : ClaimOperationRequest) : bool :=
  (is_blank (q_id q) || (rec_id r =?= q_id q))
  && (rec_actor_id r =?= q_actor_id q)
  && (rec_bot_id r =?= q_bot_id q)
  && (rec_telegram_update_id r =?= q_telegram_update_id q)
  && (rec_channel_context_key r =?= q_channel_context_key q)
  && (rec_operation_kind r =?= q_operation_kind q)
  && (loc_handle (rec_locator r) =?= loc_handle (q_locator q))
  && (loc_avatar (rec_locator r) =?= loc_avatar (q_locator q))
  && (loc_chat_file (rec_locator r) =?= loc_chat_file (q_locator q)).

(** The row the claim's INSERT writes. *)
Definition claim_row (id now : string) (q : ClaimOperationRequest) : OperationRow :=
  {| r_id := id; r_actor_id := q_actor_id q; r_bot_id := q_bot_id q;
     r_telegram_update_id := q_telegram_update_id q;
     r_channel_context_key := q_channel_context_key q;
     r_operation_kind := q_operation_kind q;
     r_st_handle := Some (loc_handle (q_locator q));
     r_st_character_avatar := Some (loc_avatar (q_locator q));
     r_st_chat_file := Some (loc_chat_file (q_locator q));
     r_status := "received"; r_source_sha256 := None; r_source_integrity := None;
     r_source_size := None; r_message_count := None;
     r_operation_payload_ciphertext := None; r_operation_payload_nonce := None;
     r_operation_payload_key_version := None; r_mutation_digest := None;
     r_connector_result_json := None; r_error_stage := None; r_error_code := None;
     r_error_summary := None; r_retryable := 0; r_commit_state := "not_started";
     r_attempt_count := 1; r_request_id := Some (q_request_id q);
     r_trace_id := Some (q_trace_id q); r_created_at := now; r_updated_at := now |}.

Inductive InsertOutcome : Set := Inserted | UniqueViolation | ForeignKeyViolation.

#[export] Instance InsertOutcome_eq_dec : EqDecision InsertOutcome.
Proof. solve_decision. Defined.

(** [INSERT INTO bridge_operations]: the primary key and the UNIQUE triple, then
    the foreign keys ([PRAGMA foreign_keys] is on). *)
Definition insert_operation (row : OperationRow) (db : DB) : DB * InsertOutcome :=
  if bool_decide (is_Some (bridge_operations db !! r_id row))
     || bool_decide (is_Some (find_row
          (claim_where (r_bot_id row) (r_telegram_update_id row) (r_operation_kind row)) db))
  then (db, UniqueViolation)
  else if negb (bool_decide (r_actor_id row ∈ accounts db)
                && bool_decide (r_bot_id row ∈ telegram_bots db))
  then (db, ForeignKeyViolation)
  else (set_bridge_operations (<[r_id row := row]> (bridge_operations db)) db, Inserted).

Definition claim_id `{IdSource} (q : ClaimOperationRequest) : string :=
  if is_blank (q_id q) then new_id else q_id q.

(** [OperationStore::claim_operation], once the in-process guard is held. *)
Definition claim_operation `{IdSource} (now : string) (q : ClaimOperationRequest) (db : DB)
    : DB * result BridgeOperationRecord OperationClaimError :=
  let id := claim_id q in
  match insert_operation (claim_row id now q) db with
  | (db, Inserted) =>
      (db, match get_operation id db with
           | Err e => Err (ClaimFailed e)
           | Ok None => Err (ClaimFailed (internal "claimed operation missing after insert"))
           | Ok (Some r) => Ok r
           end)
  | (db, UniqueViolation) =>
      (db, match get_by_claim (q_bot_id q) (q_telegram_update_id q) (q_operation_kind q) db with
           | Err e => Err (ClaimFailed e)
           | Ok None =>
               Err (ClaimFailed (conflict "BRIDGE_OPERATION_DUPLICATE_CLAIM"
                 "duplicate claim unique constraint fired but existing row was not found"))
           | Ok (Some existing) =>
               if negb (matches_claim existing q) then
                 Err (ClaimFailed (conflict "ST_OPERATION_ID_REUSED"
                   "operation identity does not match the existing claim"))
               else Err (DuplicateClaim existing)
           end)
  | (db, ForeignKeyViolation) => (db, Err (ClaimFailed database_error))
  end.

(** ** Compare-and-set updates

    [UPDATE bridge_operations SET .. WHERE id = ? AND ..]: the guard sees the
    whole database (one statement has a subquery), and the statement reports
    how many rows it changed. *)

Definition update_operation (id : string) (guard : OperationRow -> bool)
    (set : OperationRow -> OperationRow) (db : DB) : DB * Z :=
  match bridge_operations db !! id with
  | Some r =>
      if guard r
      then (set_bridge_operations (<[id := set r]> (bridge_operations db)) db, 1%Z)
      else (db, 0%Z)
  | None => (db, 0%Z)
  end.

Definition assert_cas (affected : Z) (id expected_from expected_to : string) (db : DB)
    : AppResult BridgeOperationRecord :=
  if negb (affected =? 1)%Z then
    Err (conflict "BRIDGE_OPERATION_CAS_CONFLICT"
           ("operation " +:+ id +:+ " rejected transition "
            +:+ expected_from +:+ " -> " +:+ expected_to))
  else
    let? found := get_operation id db in
    ok_or found (internal "operation missing after cas update").

(** The statement, then [assert_cas]'s check and read-back. *)
Definition cas_update (id : string) (guard : OperationRow -> bool)
    (set : OperationRow -> OperationRow) (from to : string) (db : DB)
    : DB * AppResult BridgeOperationRecord :=
  let '(db, affected) := update_operation id guard set db in
  (db, assert_cas affected id from to db).

(** [status = ? AND commit_state = ?]. *)
Definition at_state (status commit_state : string) (r : OperationRow) : bool :=
  (r_status r =?= status) && (r_commit_state r =?= commit_state).

Definition update_snapshot_ready (now id : string)
    (source_sha256 source_integrity : option string)
    (source_size message_count : option Z)
    : DB -> DB * AppResult BridgeOperationRecord :=
  cas_update id (at_state "received" "not_started")
    (λ r, with_status "snapshot_ready" now
            (with_source source_sha256 source_integrity source_size message_count r))
    "received" "snapshot_ready".

Definition update_generating (now id : string)
    : DB -> DB * AppResult BridgeOperationRecord :=
  cas_update id (at_state "snapshot_ready" "not_started")
    (with_status "generating" now) "snapshot_ready" "generating".

(** [EXISTS (SELECT 1 FROM operation_key_refs WHERE operation_id = .. AND key_version = ?)]. *)
Definition key_ref_exists (id : string) (key_version : Z) (db : DB) : bool :=
  match operation_key_refs db !! id with
  | Some k => (k_key_version k =?= key_version)
  | None => false
  end.

Definition update_generated (now id : string) (payload : EncryptedOperationPayload)
    (mutation_digest : string) (db : DB) : DB * AppResult BridgeOperationRecord :=
  cas_update id
    (λ r, ((r_status r =?= "snapshot_ready") || (r_status r =?= "generating"))
          && (r_commit_state r =?= "not_started")
          && key_ref_exists (r_id r) (enc_key_version payload) db)
    (λ r, with_status "generated" now
            (with_payload (enc_ciphertext payload) (enc_nonce payload)
               (enc_key_version payload) mutation_digest r))
    "snapshot_ready|generating" "generated" db.

Definition mark_committing (now id : string)
    : DB -> DB * AppResult BridgeOperationRecord :=
  cas_update id (at_state "generated" "not_started")
    (with_status "committing" now) "generated" "committing".

Definition mark_committed_with_state (now id connector_result_json : string)
    (expected_commit_state : OperationCommitState)
    : DB -> DB * AppResult BridgeOperationRecord :=
  cas_update id (at_state "committing" (as_str expected_commit_state))
    (λ r, with_status "committed" now
            (with_commit_state "applied"
               (with_connector_result connector_result_json r)))
    ("committing/" +:+ as_str expected_commit_state) "committed/applied".

Definition mark_committed (now id connector_result_json : string)
    : DB -> DB * AppResult BridgeOperationRecord :=
  mark_committed_with_state now id connector_result_json OcNotStarted.

Definition mark_delivered (now id : string)
    : DB -> DB * AppResult BridgeOperationRecord :=
  cas_update id (at_state "committed" "applied")
    (with_status "delivered" now) "committed" "delivered".

Definition mark_conflict (now id error_summary : string)
    : DB -> DB * AppResult BridgeOperationRecord :=
  cas_update id (at_state "committing" "not_started")
    (λ r, with_status "conflict" now
            (with_commit_state "not_applied"
               (with_error "commit" "ST_CHAT_CONFLICT" error_summary r)))
    "committing" "conflict".

Definition mark_failed_with_state (now id error_stage error_code error_summary : string)
    (retryable : bool) (commit_state : OperationCommitState)
    : DB -> DB * AppResult BridgeOperationRecord :=
  cas_update id
    (λ r, bool_decide (r_status r ∈ ["received"; "snapshot_ready"; "generating";
                                     "generated"; "committing"])
          && (r_commit_state r =?= "not_started"))
    (λ r, with_status "failed" now
            (with_commit_state (as_str commit_state)
               (with_retryable (if retryable then 1 else 0)%Z
                  (with_error error_stage error_code error_summary r))))
    "pre-commit" "failed".

Definition mark_failed (now id error_stage error_code error_summary : string)
    (retryable : bool) : DB -> DB * AppResult BridgeOperationRecord :=
  mark_failed_with_state now id error_stage error_code error_summary retryable OcNotStarted.

Definition mark_interrupted (now id : string)
    : DB -> DB * AppResult BridgeOperationRecord :=
  cas_update id (at_state "generating" "not_started")
    (with_status "interrupted" now) "generating" "interrupted".

(** The only update that leaves the status alone. *)
Definition touch_unknown (now : string) (r : OperationRow) : OperationRow :=
  with_status (r_status r) now (with_commit_state "unknown" r).

Definition mark_commit_unknown (now id : string)
    : DB -> DB * AppResult BridgeOperationRecord :=
  cas_update id (at_state "committing" "not_started")
    (touch_unknown now) "committing" "committing(unknown)".

(** ** Key references *)

Record OperationKeyReference := {
  kr_wrapped_secret_id : string;
  kr_key_version : Z;
}.

Definition get_operation_key_reference (id : string) (db : DB)
    : AppResult (option OperationKeyReference) :=
  match operation_key_refs db !! id with
  | None => Ok None
  | Some k =>
      if is_blank (k_wrapped_secret_id k) then
        Err (internal "operation wrapped secret reference is invalid")
      else
        let? key_version :=
          ok_or (u32_try_from (k_key_version k))
            (internal "operation key version is invalid") in
        if (key_version =? 0)%Z then Err (internal "operation key version is invalid")
        else Ok (Some {| kr_wrapped_secret_id := k_wrapped_secret_id k;
                         kr_key_version := key_version |})
  end.

(** [INSERT .. ON CONFLICT(operation_id) DO NOTHING], then the comparison with
    the row that won.  The foreign keys are [bridge_operations] and [secrets]. *)
Definition put_operation_key_reference (now id wrapped_secret_id : string)
    (key_version : Z) (db : DB) : DB * AppResult unit :=
  if is_blank id || is_blank wrapped_secret_id || (key_version =? 0)%Z then
    (db, Err (bad_request "PAYLOAD_KEY_REFERENCE_INVALID"
                "operation wrapped secret reference is invalid"))
  else
    match operation_key_refs db !! id with
    | None =>
        if bool_decide (is_Some (bridge_operations db !! id))
           && bool_decide (wrapped_secret_id ∈ dom (secrets db))
        then
          (set_operation_key_refs
             (<[id := {| k_wrapped_secret_id := wrapped_secret_id;
                         k_key_version := key_version;
                         k_created_at := now; k_updated_at := now |}]>
                (operation_key_refs db)) db, Ok tt)
        else (db, Err database_error)
    | Some _ =>
        (db,
         let? found := get_operation_key_reference id db in
         let? existing :=
           ok_or found (internal "operation key reference disappeared after conflict") in
         if negb (kr_wrapped_secret_id existing =?= wrapped_secret_id)
            || negb (kr_key_version existing =?= key_version)
         then Err (conflict "PAYLOAD_KEY_REFERENCE_CONFLICT"
                     "operation already has a different wrapped key reference")
         else Ok tt)
    end.

(** ** Execution leases *)

Record OperationExecutionLease := {
  x_operation_id : string;
  x_instance_id : string;
  x_lease_generation : Z;
  x_lease_until : string;
}.

(** The [INSERT .. SELECT .. ON CONFLICT DO UPDATE .. RETURNING] statement. *)
Definition lease_upsert (now operation_id bot_id instance_id lease_until : string) (db : DB)
    : DB * option LeaseRow :=
  match bridge_operations db !! operation_id with
  | None => (db, None)
  | Some op =>
      if negb (r_bot_id op =?= bot_id) then (db, None) else
      let put row :=
        (set_operation_execution_leases
           (<[operation_id := row]> (operation_execution_leases db)) db, Some row) in
      match operation_execution_leases db !! operation_id with
      | None =>
          put {| l_instance_id := instance_id; l_lease_generation := 1;
                 l_lease_until := lease_until; l_created_at := now; l_updated_at := now |}
      | Some l =>
          if ((l_instance_id l =?= instance_id) || text_le (l_lease_until l) now)
             && (l_lease_generation l <? 9223372036854775807)%Z
          then
            put {| l_instance_id := instance_id;
                   l_lease_generation := l_lease_generation l + 1;
                   l_lease_until := lease_until;
                   l_created_at := l_created_at l; l_updated_at := now |}
          else (db, None)
      end
  end.

Definition try_acquire_execution_lease
    (now operation_id bot_id instance_id lease_until : string) (db : DB)
    : DB * AppResult (option OperationExecutionLease) :=
  if is_blank operation_id || is_blank bot_id || is_blank instance_id || is_blank lease_until
  then (db, Err (bad_request "OPERATION_LEASE_INVALID"
                   "operation execution lease identity is incomplete"))
  else
    match lease_upsert now operation_id bot_id instance_id lease_until db with
    | (db, None) => (db, Ok None)
    | (db, Some row) =>
        (db,
         let? lease_generation :=
           ok_or (u64_try_from (l_lease_generation row))
             (internal "operation lease generation is invalid") in
         if (lease_generation =? 0)%Z
         then Err (internal "operation lease generation is invalid")
         else Ok (Some {| x_operation_id := operation_id;
                          x_instance_id := l_instance_id row;
                          x_lease_generation := lease_generation;
                          x_lease_until := l_lease_until row |}))
    end.

Definition release_execution_lease (lease : OperationExecutionLease) (db : DB)
    : DB * AppResult bool :=
  match i64_try_from (x_lease_generation lease) with
  | None => (db, Err (internal "operation lease generation is invalid"))
  | Some generation =>
      match operation_execution_leases db !! x_operation_id lease with
      | Some l =>
          if (l_instance_id l =?= x_instance_id lease)
             && (l_lease_generation l =?= generation)
          then (set_operation_execution_leases
                  (delete (x_operation_id lease) (operation_execution_leases db)) db, Ok true)
          else (db, Ok false)
      | None => (db, Ok false)
      end
  end.

(** ** Listings *)

(** [ORDER BY key ASC, id ASC]. *)
Definition order_by (key : OperationRow -> string) (a b : OperationRow) : bool :=
  text_lt (key a) (key b) || ((key a =?= key b) && text_le (r_id a) (r_id b)).

Definition select_rows (where_ : OperationRow -> bool) (key : OperationRow -> string)
    (db : DB) : list OperationRow :=
  sort_by (order_by key) (List.filter where_ (rows db)).

Definition into_records (l : list OperationRow) : AppResult (list BridgeOperationRecord) :=
  collect (map into_record l).

Definition recovery_where (bot_id : string) (r : OperationRow) : bool :=
  (r_bot_id r =?= bot_id)
  && ((r_status r =?= "generated") || (r_status r =?= "committing")
      || ((r_status r =?= "committed") && (r_commit_state r =?= "applied"))).

Definition list_recovery_candidates_for_bot (bot_id : string) (limit : nat) (db : DB)
    : AppResult (list BridgeOperationRecord) :=
  if is_blank bot_id then
    Err (bad_request "OPERATION_BOT_ID_REQUIRED" "operation recovery bot id is required")
  else
    into_records
      (take (Nat.min (Nat.max limit 1) 256)
         (select_rows (recovery_where bot_id) r_updated_at db)).

Definition list_by_status (status : BridgeOperationStatus) (db : DB)
    : AppResult (list BridgeOperationRecord) :=
  into_records (select_rows (λ r, r_status r =?= as_str status) r_created_at db).

Definition list_unknown_commits (db : DB) : AppResult (list BridgeOperationRecord) :=
  into_records (select_rows (at_state "committing" "unknown") r_created_at db).

(** [UPDATE .. WHERE status = 'generating' AND updated_at < ? RETURNING id]. *)
Definition interrupt_stale_generating (now cutoff_rfc3339 : string) (db : DB)
    : DB * AppResult (list string) :=
  let stale r := (r_status r =?= "generating") && text_lt (r_updated_at r) cutoff_rfc3339 in
  (set_bridge_operations
     ((λ r, if stale r then with_status "interrupted" now r else r)
        <$> bridge_operations db) db,
   Ok (map r_id (List.filter stale (rows db)))).

Definition dry_run_retention_cleanup (cutoff_rfc3339 : string) (db : DB)
    : AppResult (list string) :=
  Ok (map r_id
        (select_rows
           (λ r, at_state "delivered" "applied" r && text_lt (r_created_at r) cutoff_rfc3339)
           r_created_at db)).
