(* ===== verification/StoreInvariant.v ===== *)
(** * The ledger's invariant and the machine it refines

    Every operation of [OperationStore] as a command, the well-formedness of
    the database that all of them preserve, and the abstract ledger (status and
    commit state per operation) that the SQL statements implement. *)

From S2P Require Import Prelude Errors StDomain Operations OperationStore.

(** ** Commands *)

(** One call of a store operation that writes, with the identifiers and the
    clock value it draws. *)
Inductive StoreOp : Type :=
| OpClaim (ids : IdSource) (now : string) (q : ClaimOperationRequest)
| OpSnapshotReady (now id : string) (sha integrity : option string) (size count : option Z)
| OpGenerating (now id : string)
| OpGenerated (now id : string) (payload : EncryptedOperationPayload) (digest : string)
| OpCommitting (now id : string)
| OpCommitted (now id json : string) (expected : OperationCommitState)
| OpDelivered (now id : string)
| OpConflict (now id summary : string)
| OpFailed (now id stage code summary : string) (retryable : bool) (c : OperationCommitState)
| OpInterrupted (now id : string)
| OpCommitUnknown (now id : string)
| OpPutKeyRef (now id secret : string) (key_version : Z)
| OpAcquireLease (now id bot instance until : string)
| OpReleaseLease (lease : OperationExecutionLease)
| OpInterruptStale (now cutoff : string).

Definition exec (op : StoreOp) (db : DB) : DB :=
  match op with
  | OpClaim ids now q => fst (claim_operation now q db)
  | OpSnapshotReady now id sha integrity size count =>
      fst (update_snapshot_ready now id sha integrity size count db)
  | OpGenerating now id => fst (update_generating now id db)
  | OpGenerated now id payload digest => fst (update_generated now id payload digest db)
  | OpCommitting now id => fst (mark_committing now id db)
  | OpCommitted now id json expected =>
      fst (mark_committed_with_state now id json expected db)
  | OpDelivered now id => fst (mark_delivered now id db)
  | OpConflict now id summary => fst (mark_conflict now id summary db)
  | OpFailed now id stage code summary retryable c =>
      fst (mark_failed_with_state now id stage code summary retryable c db)
  | OpInterrupted now id => fst (mark_interrupted now id db)
  | OpCommitUnknown now id => fst (mark_commit_unknown now id db)
  | OpPutKeyRef now id secret key_version =>
      fst (put_operation_key_reference now id secret key_version db)
  | OpAcquireLease now id bot instance until =>
      fst (try_acquire_execution_lease now id bot instance until db)
  | OpReleaseLease lease => fst (release_execution_lease lease db)
  | OpInterruptStale now cutoff => fst (interrupt_stale_generating now cutoff db)
  end.

Definition run (ops : list StoreOp) (db : DB) : DB := foldl (λ db op, exec op db) db ops.

(** What the argument types of the code guarantee: [[u8; 24]] nonces and [u32]
    key versions. *)
Definition payload_typed (p : EncryptedOperationPayload) : Prop :=
  String.length (enc_nonce p) = 24 /\ (0 <= enc_key_version p < 2 ^ 32)%Z.

Definition op_typed (op : StoreOp) : Prop :=
  match op with
  | OpGenerated _ _ payload _ => payload_typed payload
  | OpPutKeyRef _ _ _ key_version => (0 <= key_version < 2 ^ 32)%Z
  | _ => True
  end.

(** ** The abstract ledger *)

Notation OpState := (BridgeOperationStatus * OperationCommitState)%type.

Definition row_state (r : OperationRow) : option OpState :=
  s ← parse (r_status r); c ← parse (r_commit_state r); Some (s, c).

(** The status/commit-state pairs an operation can be in. *)
Definition legal_state (st : OpState) : bool :=
  match st with
  | ((Received | SnapshotReady | Generating | Generated | Interrupted), OcNotStarted)
  | (Committing, OcNotStarted) | (Committing, OcUnknown)
  | ((Committed | Delivered), OcApplied) | (Conflict, OcNotApplied)
  | (Failed, _) => true
  | _ => false
  end.

(** The moves of one operation. *)
Definition op_moves (a b : OpState) : bool :=
  match a, b with
  | (Received, OcNotStarted), (SnapshotReady, OcNotStarted)
  | (SnapshotReady, OcNotStarted), (Generating, OcNotStarted)
  | (SnapshotReady, OcNotStarted), (Generated, OcNotStarted)
  | (Generating, OcNotStarted), (Generated, OcNotStarted)
  | (Generated, OcNotStarted), (Committing, OcNotStarted)
  | (Committing, OcNotStarted), (Committed, OcApplied)
  | (Committing, OcUnknown), (Committed, OcApplied)
  | (Committed, OcApplied), (Delivered, OcApplied)
  | (Committing, OcNotStarted), (Committing, OcUnknown)
  | (Committing, OcNotStarted), (Conflict, OcNotApplied)
  | (Generating, OcNotStarted), (Interrupted, OcNotStarted)
  | ((Received | SnapshotReady | Generating | Generated | Committing), OcNotStarted),
    (Failed, _) => true
  | _, _ => false
  end.

Definition op_move (a b : OpState) : Prop := op_moves a b = true.

(** What may happen to one slot of the ledger in one command. *)
Definition slot_step (a b : option OpState) : Prop :=
  match a, b with
  | None, None => True
  | None, Some st => st = (Received, OcNotStarted)
  | Some st, Some st' => st = st' \/ op_move st st'
  | Some _, None => False
  end.

Definition ledger (db : DB) : gmap string OpState := omap row_state (bridge_operations db).

Definition ledger_step (a b : gmap string OpState) : Prop :=
  forall id, slot_step (a !! id) (b !! id).

(** ** Well-formed databases *)

(** Statuses whose row carries the encrypted payload for certain, and statuses
    whose row carries none. *)
Definition has_payload (s : BridgeOperationStatus) : bool :=
  match s with
  | Generated | Committing | Committed | Delivered | Conflict => true
  | _ => false
  end.

Definition lacks_payload (s : BridgeOperationStatus) : bool :=
  match s with Received | SnapshotReady | Generating | Interrupted => true | _ => false end.

Definition payload_columns (r : OperationRow)
    : option string * option string * option Z * option string :=
  (r_operation_payload_ciphertext r, r_operation_payload_nonce r,
   r_operation_payload_key_version r, r_mutation_digest r).

Definition payload_absent (r : OperationRow) : Prop :=
  payload_columns r = (None, None, None, None).

Definition payload_present (keys : gmap string KeyRefRow) (r : OperationRow) : Prop :=
  exists c n v d k,
    payload_columns r = (Some c, Some n, Some v, Some d)
    /\ String.length n = 24 /\ (0 <= v < 2 ^ 32)%Z
    /\ keys !! r_id r = Some k /\ k_key_version k = v.

Definition payload_wf (keys : gmap string KeyRefRow) (s : BridgeOperationStatus)
    (r : OperationRow) : Prop :=
  (has_payload s = true -> payload_present keys r)
  /\ (lacks_payload s = true -> payload_absent r)
  /\ (payload_absent r \/ payload_present keys r).

Definition row_wf (keys : gmap string KeyRefRow) (r : OperationRow) : Prop :=
  exists s c, row_state r = Some (s, c) /\ legal_state (s, c) = true
    /\ r_attempt_count r = 1%Z /\ payload_wf keys s r.

Definition claim_of (r : OperationRow) : string * Z * string :=
  (r_bot_id r, r_telegram_update_id r, r_operation_kind r).

Record db_wf (db : DB) : Prop := {
  wf_row : forall id r, bridge_operations db !! id = Some r ->
    r_id r = id /\ row_wf (operation_key_refs db) r
    /\ r_actor_id r ∈ accounts db /\ r_bot_id r ∈ telegram_bots db;
  wf_claims : forall id id' r r',
    bridge_operations db !! id = Some r -> bridge_operations db !! id' = Some r' ->
    claim_of r = claim_of r' -> id = id';
  wf_keys : forall id k, operation_key_refs db !! id = Some k ->
    is_Some (bridge_operations db !! id) /\ is_blank (k_wrapped_secret_id k) = false
    /\ k_wrapped_secret_id k ∈ dom (secrets db) /\ (0 < k_key_version k < 2 ^ 32)%Z;
  wf_leases : forall id l, operation_execution_leases db !! id = Some l ->
    is_Some (bridge_operations db !! id) /\ (0 < l_lease_generation l < 2 ^ 63)%Z;
}.

Definition empty_db (accts bots : gset string) (secs : gmap string SecretRow) : DB :=
  {| workspaces := ∅; channel_contexts := ∅;
     bridge_operations := ∅; operation_key_refs := ∅; operation_execution_leases := ∅;
     accounts := accts; telegram_bots := bots; secrets := secs; in_process_claims := ∅ |}.

(** ** Facts about one row *)

Lemma row_state_Some r s c :
  row_state r = Some (s, c) <-> r_status r = as_str s /\ r_commit_state r = as_str c.
Proof.
  unfold row_state. split.
  - intros (s' & Hs & (c' & Hc & [= -> ->])%bind_Some)%bind_Some.
    by apply as_str_parse in Hs, Hc.
  - intros [-> ->]. by rewrite !parse_as_str.
Qed.

Lemma at_state_true s c r :
  at_state (as_str s) (as_str c) r = true <-> row_state r = Some (s, c).
Proof.
  unfold at_state. rewrite andb_true_iff, !bool_decide_eq_true. by rewrite row_state_Some.
Qed.

(** The identity columns: written once, by the claim. *)
Definition identity (r : OperationRow) :=
  (r_id r, r_actor_id r, claim_of r, r_channel_context_key r,
   (r_st_handle r, r_st_character_avatar r, r_st_chat_file r),
   (r_attempt_count r, r_request_id r, r_trace_id r, r_created_at r)).

Lemma identity_fields r r' :
  identity r' = identity r ->
  r_id r' = r_id r /\ r_actor_id r' = r_actor_id r /\ r_bot_id r' = r_bot_id r
  /\ claim_of r' = claim_of r /\ r_attempt_count r' = r_attempt_count r.
Proof. unfold identity, claim_of. intros Hid. injection Hid. intros. subst. repeat split; congruence. Qed.

(** Once an operation is generated (or has failed), its payload columns are final. *)
Definition payload_frozen (r r' : OperationRow) : Prop :=
  forall s c, row_state r = Some (s, c) -> lacks_payload s = false ->
    payload_columns r' = payload_columns r.

(** A row before and after an update: same identity, a move of the machine (or
    none), and a well-formed row. *)
Definition row_update_ok (keys : gmap string KeyRefRow) (r r' : OperationRow) : Prop :=
  identity r' = identity r /\ row_wf keys r' /\ slot_step (row_state r) (row_state r')
  /\ payload_frozen r r'.

Lemma row_wf_move keys r r' s c s' c' :
  row_wf keys r -> row_state r = Some (s, c) -> row_state r' = Some (s', c') ->
  identity r' = identity r -> op_move (s, c) (s', c') -> legal_state (s', c') = true ->
  payload_wf keys s' r' ->
  (lacks_payload s = false -> payload_columns r' = payload_columns r) ->
  row_update_ok keys r r'.
Proof.
  intros (s0 & c0 & Hst & _ & Hatt & _) Hs Hs' Hid Hmove Hlegal Hpay Hfrozen.
  split; [done |]. split_and!; [| | intros s1 c1 Hs1; naive_solver].
  - apply identity_fields in Hid as (_ & _ & _ & _ & Hid).
    exists s', c'. split_and!; [done | done | congruence | apply Hpay ..].
  - rewrite Hs, Hs'. by right.
Qed.

(** The payload columns survive an update that does not touch them, whenever
    the new status asks for no more than the old one. *)
Lemma payload_wf_keep keys s s' r r' :
  payload_wf keys s r -> payload_columns r' = payload_columns r -> r_id r' = r_id r ->
  (has_payload s' = true -> has_payload s = true) ->
  (lacks_payload s' = true -> lacks_payload s = true) ->
  payload_wf keys s' r'.
Proof.
  unfold payload_wf, payload_present, payload_absent.
  intros (Hhas & Hlack & Hor) -> -> Hh Hl. naive_solver.
Qed.

(** ** Preservation, once per shape of statement *)

(** No row is lost, and no identity column changes. *)
Definition rows_kept (db db' : DB) : Prop :=
  forall id r, bridge_operations db !! id = Some r ->
    exists r', bridge_operations db' !! id = Some r' /\ identity r' = identity r
      /\ payload_frozen r r'.

Definition step_ok (db db' : DB) : Prop :=
  db_wf db' /\ ledger_step (ledger db) (ledger db') /\ rows_kept db db'.

Lemma rows_kept_same db db' :
  bridge_operations db' = bridge_operations db -> rows_kept db db'.
Proof. intros Heq id r Hr. rewrite Heq. exists r. by split_and!. Qed.

Lemma slot_step_refl a : slot_step a a.
Proof. destruct a as [[s c]|]; simpl; auto. Qed.

Lemma ledger_lookup db id : ledger db !! id = bridge_operations db !! id ≫= row_state.
Proof. apply lookup_omap. Qed.

Lemma step_ok_refl db : db_wf db -> step_ok db db.
Proof.
  intros Hwf. split_and!; [done | intros id; apply slot_step_refl | by apply rows_kept_same].
Qed.

(** Rows before and after a statement that only updates rows in place. *)
Definition rows_updated (keys : gmap string KeyRefRow) (a b : option OperationRow) : Prop :=
  match a, b with
  | Some r, Some r' => r' = r \/ row_update_ok keys r r'
  | None, None => True
  | _, _ => False
  end.

Lemma rows_updated_is_Some keys a b : rows_updated keys a b -> is_Some a <-> is_Some b.
Proof. destruct a, b; simpl; naive_solver. Qed.

Lemma rows_updated_inv keys a b r' :
  rows_updated keys a b -> b = Some r' ->
  exists r, a = Some r /\ identity r' = identity r
    /\ (row_wf keys r -> row_wf keys r') /\ slot_step (row_state r) (row_state r')
    /\ payload_frozen r r'.
Proof.
  intros Hu ->. destruct a as [r|]; simpl in Hu; [| done]. exists r.
  destruct Hu as [-> | (Hid & Hwf & Hst & Hf)]; [| by auto].
  split_and!; try done. apply slot_step_refl.
Qed.

Lemma step_ok_rows db m :
  db_wf db ->
  (forall id, rows_updated (operation_key_refs db) (bridge_operations db !! id) (m !! id)) ->
  step_ok db (set_bridge_operations m db).
Proof.
  intros Hwf Hm. split_and!; [split; simpl | |].
  - intros id r' Hr'. destruct (rows_updated_inv _ _ _ _ (Hm id) Hr') as (r & Hr & Hid & Hrw & _ & _).
    destruct (wf_row _ Hwf _ _ Hr) as (<- & Hr2 & ? & ?).
    apply identity_fields in Hid as (-> & -> & -> & _ & _). auto.
  - intros id id' r r' Hr Hr' Hc.
    destruct (rows_updated_inv _ _ _ _ (Hm id) Hr) as (r0 & Hr0 & Hid & _).
    destruct (rows_updated_inv _ _ _ _ (Hm id') Hr') as (r0' & Hr0' & Hid' & _).
    eapply (wf_claims _ Hwf); [exact Hr0 | exact Hr0' |].
    apply identity_fields in Hid as (_ & _ & _ & Hid & _), Hid' as (_ & _ & _ & Hid' & _).
    congruence.
  - intros id k Hk. rewrite <- (rows_updated_is_Some _ _ _ (Hm id)). by apply (wf_keys _ Hwf).
  - intros id l Hl. rewrite <- (rows_updated_is_Some _ _ _ (Hm id)). by apply (wf_leases _ Hwf).
  - intros id. rewrite !ledger_lookup. simpl. specialize (Hm id).
    destruct (m !! id) as [r'|] eqn:Hr'.
    + destruct (rows_updated_inv _ _ _ _ Hm eq_refl) as (r & -> & _ & _ & Hst & _). done.
    + by destruct (bridge_operations db !! id).
  - intros id r Hr. specialize (Hm id). rewrite Hr in Hm. simpl.
    destruct (m !! id) as [r'|] eqn:Hr'; [| done]. exists r'. split; [done |].
    by destruct Hm as [-> | (Hid & _ & _ & Hf)].
Qed.

Lemma set_bridge_operations_id db : set_bridge_operations (bridge_operations db) db = db.
Proof. by destruct db. Qed.

Lemma cas_update_ok id guard set from to db :
  db_wf db ->
  (forall r, bridge_operations db !! id = Some r -> guard r = true ->
     row_wf (operation_key_refs db) r -> row_update_ok (operation_key_refs db) r (set r)) ->
  step_ok db (fst (cas_update id guard set from to db)).
Proof.
  intros Hwf Hset. unfold cas_update, update_operation.
  destruct (bridge_operations db !! id) as [r|] eqn:Hr; simpl; [| by apply step_ok_refl].
  destruct (guard r) eqn:Hg; simpl; [| by apply step_ok_refl].
  apply step_ok_rows; [done |]. intros id'.
  destruct (decide (id = id')) as [<-|Hne].
  - rewrite Hr, lookup_insert_eq. right. apply Hset; try done. by apply (wf_row _ Hwf _ _ Hr).
  - rewrite lookup_insert_ne by done. destruct (bridge_operations db !! id'); simpl; auto.
Qed.

(** ** Each update *)

Lemma move_ok keys r r' s c s' c' :
  row_wf keys r -> row_state r = Some (s, c) -> row_state r' = Some (s', c') ->
  identity r' = identity r -> op_move (s, c) (s', c') -> legal_state (s', c') = true ->
  payload_columns r' = payload_columns r ->
  (has_payload s' = true -> has_payload s = true) ->
  (lacks_payload s' = true -> lacks_payload s = true) ->
  row_update_ok keys r r'.
Proof.
  intros Hrow Hst Hst' Hid Hmove Hlegal Hcols Hh Hl.
  eapply row_wf_move; try done. destruct Hrow as (s0 & c0 & Hst0 & _ & _ & Hpay).
  rewrite Hst in Hst0. injection Hst0 as <- <-.
  apply identity_fields in Hid as (Hid & _). by eapply payload_wf_keep.
Qed.

(** Closes [row_update_ok] for an update that keeps the payload columns, given
    the row's state and the one it moves to. *)
Ltac solve_move Hst s c :=
  eapply (move_ok _ _ _ _ _ s c);
  [ eassumption | exact Hst
  | apply row_state_Some; apply row_state_Some in Hst as [? ?]; split; simpl; done
  | reflexivity | reflexivity | reflexivity | reflexivity | done | done ].

Lemma exec_snapshot_ready now id sha i z n db :
  db_wf db -> step_ok db (fst (update_snapshot_ready now id sha i z n db)).
Proof.
  intros Hwf. apply cas_update_ok; [done |]. intros r _ Hst Hrow.
  apply (at_state_true Received OcNotStarted) in Hst.
  solve_move Hst SnapshotReady OcNotStarted.
Qed.

Lemma exec_generating now id db :
  db_wf db -> step_ok db (fst (update_generating now id db)).
Proof.
  intros Hwf. apply cas_update_ok; [done |]. intros r _ Hst Hrow.
  apply (at_state_true SnapshotReady OcNotStarted) in Hst.
  solve_move Hst Generating OcNotStarted.
Qed.

Lemma exec_committing now id db :
  db_wf db -> step_ok db (fst (mark_committing now id db)).
Proof.
  intros Hwf. apply cas_update_ok; [done |]. intros r _ Hst Hrow.
  apply (at_state_true Generated OcNotStarted) in Hst.
  solve_move Hst Committing OcNotStarted.
Qed.

Lemma exec_committed now id json c db :
  db_wf db -> step_ok db (fst (mark_committed_with_state now id json c db)).
Proof.
  intros Hwf. apply cas_update_ok; [done |]. intros r _ Hst Hrow.
  apply (at_state_true Committing c) in Hst.
  assert (c = OcNotStarted \/ c = OcUnknown) as [-> | ->].
  { destruct Hrow as (s0 & c0 & Hst0 & Hl & _). rewrite Hst in Hst0.
    injection Hst0 as <- <-. destruct c; simpl in Hl; auto; discriminate. }
  - solve_move Hst Committed OcApplied.
  - solve_move Hst Committed OcApplied.
Qed.

Lemma exec_delivered now id db :
  db_wf db -> step_ok db (fst (mark_delivered now id db)).
Proof.
  intros Hwf. apply cas_update_ok; [done |]. intros r _ Hst Hrow.
  apply (at_state_true Committed OcApplied) in Hst.
  solve_move Hst Delivered OcApplied.
Qed.

Lemma exec_conflict now id summary db :
  db_wf db -> step_ok db (fst (mark_conflict now id summary db)).
Proof.
  intros Hwf. apply cas_update_ok; [done |]. intros r _ Hst Hrow.
  apply (at_state_true Committing OcNotStarted) in Hst.
  solve_move Hst Conflict OcNotApplied.
Qed.

Lemma exec_interrupted now id db :
  db_wf db -> step_ok db (fst (mark_interrupted now id db)).
Proof.
  intros Hwf. apply cas_update_ok; [done |]. intros r _ Hst Hrow.
  apply (at_state_true Generating OcNotStarted) in Hst.
  solve_move Hst Interrupted OcNotStarted.
Qed.

Lemma exec_commit_unknown now id db :
  db_wf db -> step_ok db (fst (mark_commit_unknown now id db)).
Proof.
  intros Hwf. apply cas_update_ok; [done |]. intros r _ Hst Hrow.
  apply (at_state_true Committing OcNotStarted) in Hst.
  solve_move Hst Committing OcUnknown.
Qed.

(** The five statuses [mark_failed] accepts. *)
Lemma failed_guard r :
  bool_decide (r_status r ∈ ["received"; "snapshot_ready"; "generating"; "generated"; "committing"])
    && (r_commit_state r =?= "not_started") = true ->
  exists s, row_state r = Some (s, OcNotStarted)
    /\ s ∈ [Received; SnapshotReady; Generating; Generated; Committing].
Proof.
  rewrite andb_true_iff, !bool_decide_eq_true. intros [Hs Hc].
  assert (exists s, r_status r = as_str s
            /\ s ∈ [Received; SnapshotReady; Generating; Generated; Committing])
    as (s & Hst & Hin).
  { rewrite !elem_of_cons in Hs. destruct_or! Hs; [.. | by apply not_elem_of_nil in Hs];
      [exists Received | exists SnapshotReady | exists Generating | exists Generated
      | exists Committing]; split; (done || set_solver). }
  exists s. split; [by apply row_state_Some | done].
Qed.

Lemma exec_failed now id stage code summary retryable c db :
  db_wf db -> step_ok db (fst (mark_failed_with_state now id stage code summary retryable c db)).
Proof.
  intros Hwf. apply cas_update_ok; [done |]. intros r _ Hg Hrow.
  apply failed_guard in Hg as (s & Hst & Hin).
  rewrite !elem_of_cons in Hin. destruct_or! Hin; subst;
    [.. | by apply not_elem_of_nil in Hin]; solve_move Hst Failed c.
Qed.

Lemma payload_present_new keys db r p digest now :
  keys = operation_key_refs db -> payload_typed p ->
  key_ref_exists (r_id r) (enc_key_version p) db = true ->
  payload_present keys
    (with_status "generated" now
       (with_payload (enc_ciphertext p) (enc_nonce p) (enc_key_version p) digest r)).
Proof.
  intros -> [Hn Hv] Hk. unfold key_ref_exists in Hk.
  destruct (operation_key_refs db !! r_id r) as [k|] eqn:Hkr; [| done].
  apply bool_decide_eq_true in Hk.
  eexists _, _, _, _, k. split_and!; [reflexivity | done | lia | lia | done | done].
Qed.

Lemma exec_generated now id p digest db :
  payload_typed p -> db_wf db -> step_ok db (fst (update_generated now id p digest db)).
Proof.
  intros Hp Hwf. apply cas_update_ok; [done |]. intros r _ Hg Hrow.
  apply andb_true_iff in Hg as [[Hs Hc]%andb_true_iff Hk].
  apply bool_decide_eq_true in Hc.
  pose proof (payload_present_new _ db r p digest now eq_refl Hp Hk) as Hpres.
  assert (exists s, row_state r = Some (s, OcNotStarted)
            /\ op_move (s, OcNotStarted) (Generated, OcNotStarted)) as (s & Hst & Hmove).
  { apply orb_true_iff in Hs as [Hs | Hs]; apply bool_decide_eq_true in Hs;
      [exists SnapshotReady | exists Generating]; (split; [by apply row_state_Some | done]). }
  eapply row_wf_move; [done | exact Hst | | reflexivity | exact Hmove | reflexivity | |].
  - apply row_state_Some. by split.
  - split_and!; [done | discriminate | by right].
  - by destruct s.
Qed.

Lemma exec_interrupt_stale now cutoff db :
  db_wf db -> step_ok db (fst (interrupt_stale_generating now cutoff db)).
Proof.
  intros Hwf. apply step_ok_rows; [done |]. intros id. rewrite lookup_fmap.
  destruct (bridge_operations db !! id) as [r|] eqn:Hr; simpl; [| done].
  destruct (_ && _) eqn:Hg; [right | by left].
  apply andb_true_iff in Hg as [Hs%bool_decide_eq_true _].
  destruct (wf_row _ Hwf _ _ Hr) as (_ & Hrow & _).
  assert (row_state r = Some (Generating, OcNotStarted)) as Hst.
  { destruct Hrow as (s & c & [Hs' Hc']%row_state_Some & Hl & _).
    rewrite Hs in Hs'. destruct s; try discriminate Hs'.
    destruct c; try discriminate Hl. by apply row_state_Some. }
  solve_move Hst Interrupted OcNotStarted.
Qed.

(** ** Claims *)

Lemma rows_elem db r :
  r ∈ rows db <-> exists id, bridge_operations db !! id = Some r.
Proof.
  unfold rows. rewrite list_elem_of_fmap. split.
  - intros ([id r'] & -> & Hin%elem_of_map_to_list). eauto.
  - intros [id Hid]. exists (id, r). split; [done | by apply elem_of_map_to_list].
Qed.

Lemma find_row_Some P db r :
  find_row P db = Some r -> P r = true /\ exists id, bridge_operations db !! id = Some r.
Proof.
  unfold find_row. intros Hh. destruct (List.filter P (rows db)) as [|r' l] eqn:Hf; [done |].
  simplify_eq/=.
  assert (In r (List.filter P (rows db))) as [Hin HP]%filter_In by (rewrite Hf; by left).
  split; [done |]. apply rows_elem. by apply list_elem_of_In.
Qed.

Lemma find_row_None P db :
  find_row P db = None <-> forall id r, bridge_operations db !! id = Some r -> P r = false.
Proof.
  unfold find_row. split.
  - intros Hh id r Hr. destruct (P r) eqn:HP; [| done]. exfalso.
    assert (In r (List.filter P (rows db))) as Hin.
    { apply filter_In. split; [| done]. apply list_elem_of_In, rows_elem. eauto. }
    destruct (List.filter P (rows db)); [by destruct Hin | done].
  - intros Hn. destruct (List.filter P (rows db)) as [|r l] eqn:Hf; [done |].
    assert (In r (List.filter P (rows db))) as [Hin HP]%filter_In by (rewrite Hf; by left).
    apply list_elem_of_In, rows_elem in Hin as [id Hid].
    rewrite (Hn _ _ Hid) in HP. discriminate.
Qed.

Lemma claim_where_true b u k r :
  claim_where b u k r = true <-> claim_of r = (b, u, k).
Proof.
  unfold claim_where, claim_of. rewrite !andb_true_iff, !bool_decide_eq_true.
  split; [by intros [[-> ->] ->] | by intros [= -> -> ->]].
Qed.

(** When the INSERT succeeds: a fresh id, a free claim, and existing parents. *)
Lemma insert_inserted row db db' :
  insert_operation row db = (db', Inserted) ->
  bridge_operations db !! r_id row = None
  /\ (forall id r, bridge_operations db !! id = Some r -> claim_of r <> claim_of row)
  /\ r_actor_id row ∈ accounts db /\ r_bot_id row ∈ telegram_bots db
  /\ db' = set_bridge_operations (<[r_id row := row]> (bridge_operations db)) db.
Proof.
  unfold insert_operation. intros Hi.
  destruct (bool_decide_reflect (is_Some (bridge_operations db !! r_id row))) as [|Hid];
    [done |]. simpl in Hi.
  case_bool_decide as Hfr; [done |].
  destruct (bool_decide_reflect (r_actor_id row ∈ accounts db)); [| done].
  destruct (bool_decide_reflect (r_bot_id row ∈ telegram_bots db)); [| done].
  simpl in Hi. injection Hi as <-.
  apply eq_None_not_Some in Hid, Hfr. split_and!; try done.
  intros id r Hr Hc. rewrite find_row_None in Hfr. specialize (Hfr _ _ Hr).
  apply not_true_iff_false in Hfr. apply Hfr. by apply claim_where_true.
Qed.

Lemma insert_other row db db' o :
  insert_operation row db = (db', o) -> o <> Inserted -> db' = db.
Proof.
  unfold insert_operation. intros Hi Ho.
  destruct (_ || _); [by injection Hi |]. destruct (negb _); [by injection Hi | congruence].
Qed.

Lemma claim_row_wf keys id now q : row_wf keys (claim_row id now q).
Proof.
  exists Received, OcNotStarted. do 3 (split; [done |]).
  split; [discriminate |]. split; [done | by left].
Qed.

Lemma insert_operation_ok id now q db :
  db_wf db -> step_ok db (fst (insert_operation (claim_row id now q) db)).
Proof.
  intros Hwf. destruct (insert_operation _ db) as [db' o] eqn:Hi. simpl.
  destruct (decide (o = Inserted)) as [-> | Ho];
    [| rewrite (insert_other _ _ _ _ Hi Ho); by apply step_ok_refl].
  apply insert_inserted in Hi as (Hnone & Hfree & Ha & Hb & ->). simpl in *.
  split_and!; [split; simpl | |].
  - intros id' r Hr. rewrite lookup_insert in Hr. case_decide; simplify_eq.
    + split_and!; try done. apply claim_row_wf.
    + by apply (wf_row _ Hwf).
  - intros i i' r r' Hr Hr' Hc. rewrite lookup_insert in Hr, Hr'.
    destruct (decide (id = i)) as [<- | Hi], (decide (id = i')) as [<- | Hi']; [done | ..].
    + injection Hr as <-. by destruct (Hfree _ _ Hr').
    + injection Hr' as <-. by destruct (Hfree _ _ Hr).
    + by eapply (wf_claims _ Hwf).
  - intros i k Hk. destruct (wf_keys _ Hwf _ _ Hk) as [Hi ?]. split; [| done].
    rewrite lookup_insert. case_decide; eauto.
  - intros i l Hl. destruct (wf_leases _ Hwf _ _ Hl) as [Hi ?]. split; [| done].
    rewrite lookup_insert. case_decide; eauto.
  - intros i. rewrite !ledger_lookup. simpl. rewrite lookup_insert. case_decide.
    + subst. by rewrite Hnone.
    + apply slot_step_refl.
  - intros i r Hr. simpl. rewrite lookup_insert_ne by congruence. exists r. by split_and!.
Qed.

Lemma claim_operation_db `{IdSource} now q db :
  fst (claim_operation now q db) = fst (insert_operation (claim_row (claim_id q) now q) db).
Proof. unfold claim_operation. by destruct (insert_operation _ db) as [db' []]. Qed.

Lemma exec_claim `{IdSource} now q db :
  db_wf db -> step_ok db (fst (claim_operation now q db)).
Proof. rewrite claim_operation_db. apply insert_operation_ok. Qed.

(** ** Key references and leases *)

Lemma payload_present_mono keys keys' r :
  keys ⊆ keys' -> payload_present keys r -> payload_present keys' r.
Proof.
  intros Hsub (c & n & v & d & k & Hcols & Hn & Hv & Hk & Hkv).
  exists c, n, v, d, k. split_and!; try done; [lia | lia |]. by eapply lookup_weaken.
Qed.

Lemma row_wf_mono keys keys' r : keys ⊆ keys' -> row_wf keys r -> row_wf keys' r.
Proof.
  intros Hsub (s & c & Hst & Hl & Ha & Hh & Hlk & Hor). exists s, c.
  do 3 (split; [done |]). split; [| split; [done |]].
  - intros Hp. by eapply payload_present_mono, Hh.
  - destruct Hor as [|Hor]; [by left | right; by eapply payload_present_mono].
Qed.

Lemma exec_put_key_ref now id secret v db :
  (0 <= v < 2 ^ 32)%Z -> db_wf db ->
  step_ok db (fst (put_operation_key_reference now id secret v db)).
Proof.
  intros Hv Hwf. unfold put_operation_key_reference.
  destruct (is_blank id || is_blank secret || (v =? 0)%Z) eqn:Hb; [by apply step_ok_refl |].
  destruct (operation_key_refs db !! id) as [k|] eqn:Hk; [by apply step_ok_refl |].
  destruct (bool_decide_reflect (is_Some (bridge_operations db !! id))) as [Hop|];
    [| by apply step_ok_refl].
  destruct (bool_decide_reflect (secret ∈ dom (secrets db))) as [Hs|]; [| by apply step_ok_refl].
  apply orb_false_iff in Hb as [[_ Hb]%orb_false_iff Hv0%Z.eqb_neq]. simpl.
  split_and!; [split; simpl | intros i; apply slot_step_refl | by apply rows_kept_same].
  - intros i r Hr. destruct (wf_row _ Hwf _ _ Hr) as (? & Hrow & ? & ?).
    split_and!; try done. eapply row_wf_mono; [| exact Hrow]. by apply insert_subseteq.
  - apply (wf_claims _ Hwf).
  - intros i k. rewrite lookup_insert. case_decide; intros; simplify_eq/=.
    + split_and!; try done; lia.
    + by apply (wf_keys _ Hwf).
  - apply (wf_leases _ Hwf).
Qed.

Lemma lease_table_ok db m :
  db_wf db ->
  (forall id l, m !! id = Some l ->
     is_Some (bridge_operations db !! id) /\ (0 < l_lease_generation l < 2 ^ 63)%Z) ->
  step_ok db (set_operation_execution_leases m db).
Proof.
  intros Hwf Hm.
  split_and!; [split; simpl | intros i; apply slot_step_refl | by apply rows_kept_same].
  - apply (wf_row _ Hwf).
  - apply (wf_claims _ Hwf).
  - apply (wf_keys _ Hwf).
  - done.
Qed.

Lemma exec_acquire_lease now id bot inst until db :
  db_wf db -> step_ok db (fst (try_acquire_execution_lease now id bot inst until db)).
Proof.
  intros Hwf. unfold try_acquire_execution_lease, lease_upsert.
  destruct (_ || _); [by apply step_ok_refl |].
  destruct (bridge_operations db !! id) as [op|] eqn:Hop; [| by apply step_ok_refl].
  destruct (negb _); [by apply step_ok_refl |].
  destruct (operation_execution_leases db !! id) as [l|] eqn:Hl.
  - destruct (_ && _) eqn:Hg; [| by apply step_ok_refl]. simpl.
    apply andb_true_iff in Hg as [_ Hg%Z.ltb_lt]. destruct (wf_leases _ Hwf _ _ Hl).
    apply lease_table_ok; [done |]. intros i l'. rewrite lookup_insert.
    case_decide; intros; simplify_eq/=; [split; [eauto | lia] | by apply (wf_leases _ Hwf)].
  - simpl. apply lease_table_ok; [done |]. intros i l'. rewrite lookup_insert.
    case_decide; intros; simplify_eq/=; [split; [eauto | lia] | by apply (wf_leases _ Hwf)].
Qed.

Lemma exec_release_lease lease db :
  db_wf db -> step_ok db (fst (release_execution_lease lease db)).
Proof.
  intros Hwf. unfold release_execution_lease.
  destruct (i64_try_from _); [| by apply step_ok_refl].
  destruct (operation_execution_leases db !! x_operation_id lease); [| by apply step_ok_refl].
  destruct (_ && _); [| by apply step_ok_refl]. simpl.
  apply lease_table_ok; [done |]. intros i l' Hl'. apply lookup_delete_Some in Hl' as [_ Hl'].
  by apply (wf_leases _ Hwf).
Qed.

(** ** All commands together *)

Lemma exec_ok op db : op_typed op -> db_wf db -> step_ok db (exec op db).
Proof.
  intros Ht Hwf. destruct op; simpl in *;
    [apply exec_claim | apply exec_snapshot_ready | apply exec_generating
    | apply exec_generated | apply exec_committing | apply exec_committed
    | apply exec_delivered | apply exec_conflict | apply exec_failed
    | apply exec_interrupted | apply exec_commit_unknown | apply exec_put_key_ref
    | apply exec_acquire_lease | apply exec_release_lease | apply exec_interrupt_stale];
    done.
Qed.

(** No command takes an operation back before its payload. *)
Lemma slot_step_frozen s c s' c' :
  slot_step (Some (s, c)) (Some (s', c')) ->
  lacks_payload s = false -> lacks_payload s' = false.
Proof.
  intros [[= -> ->] | Hm]; [done |]. unfold op_move in Hm.
  destruct s, c, s', c'; simpl in *; congruence.
Qed.

Lemma run_ok ops db :
  Forall op_typed ops -> db_wf db ->
  db_wf (run ops db) /\ rtc ledger_step (ledger db) (ledger (run ops db))
  /\ rows_kept db (run ops db).
Proof.
  intros Ht. revert db. induction Ht as [|op ops Hop Hops IH]; intros db Hwf; simpl.
  - split_and!; [done | reflexivity | by apply rows_kept_same].
  - destruct (exec_ok op db Hop Hwf) as (Hwf' & Hl & Hk).
    destruct (IH _ Hwf') as (Hwf'' & Hl' & Hk').
    split_and!; [done | by eapply rtc_l |].
    intros id r Hr. destruct (Hk _ _ Hr) as (r' & Hr' & Hid & Hf).
    destruct (Hk' _ _ Hr') as (r'' & Hr'' & Hid' & Hf'). exists r''.
    split_and!; [done | congruence |].
    intros s c Hs Hp. rewrite <- (Hf _ _ Hs Hp).
    specialize (Hl id). rewrite !ledger_lookup, Hr, Hr' in Hl. simpl in Hl. rewrite Hs in Hl.
    destruct (row_state r') as [[s' c']|] eqn:Hs'; [| done].
    apply (Hf' s' c'); [done |]. by apply (slot_step_frozen s c s' c').
Qed.

Lemma empty_db_wf a b s : db_wf (empty_db a b s).
Proof. split; simpl; intros *; rewrite lookup_empty; done. Qed.

(** Along a run, one slot follows the operation machine. *)
Lemma ledger_steps_slot a b id st :
  rtc ledger_step a b -> a !! id = Some st ->
  exists st', b !! id = Some st' /\ rtc op_move st st'.
Proof.
  intros Hs. revert st. induction Hs as [x | x y z Hab _ IH]; intros st Hst.
  { exists st. split; [done | reflexivity]. }
  specialize (Hab id). rewrite Hst in Hab.
  destruct (y !! id) as [st'|] eqn:Hy; [| done].
  destruct (IH st') as (st'' & Hc & Hm); [done |]. exists st''. split; [done |].
  destruct Hab as [-> | Hab]; [done | by eapply rtc_l].
Qed.

Lemma op_move_status s c s' c' :
  op_move (s, c) (s', c') -> s = s' \/ can_transition_to s s' = true.
Proof. unfold op_move. destruct s, c, s', c'; simpl; auto; discriminate. Qed.

Lemma op_moves_status st st' :
  rtc op_move st st' -> rtc status_step st.1 st'.1.
Proof.
  induction 1 as [|[s c] [s' c'] st'' Hm _ IH]; [done |].
  destruct (op_move_status _ _ _ _ Hm) as [-> | Hs]; [done | by eapply rtc_l].
Qed.
