(* ===== verification/StoreCorrect.v ===== *)
(** * What the operation store guarantees

    The properties of [operation_store.rs] that the coordinator and the recovery
    loop rely on, over every sequence of store calls of any number of
    processes: the invariant, the refinement of the operation machine, exactly
    one claim per update, immutable recovery payloads, fenced leases, and what the
    listings hold. *)

From S2P Require Import Prelude Errors StDomain Operations OperationStore StoreInvariant.

(** ** Reading a well-formed database *)

Lemma into_record_fields r rec :
  into_record r = Ok rec ->
  rec_id rec = r_id r /\ rec_actor_id rec = r_actor_id r /\ rec_bot_id rec = r_bot_id r
  /\ rec_telegram_update_id rec = r_telegram_update_id r
  /\ rec_channel_context_key rec = r_channel_context_key r
  /\ rec_operation_kind rec = r_operation_kind r
  /\ rec_locator rec =
       {| loc_handle := unwrap_or_default (r_st_handle r);
          loc_avatar := unwrap_or_default (r_st_character_avatar r);
          loc_character_name := "";
          loc_chat_file := unwrap_or_default (r_st_chat_file r) |}
  /\ row_state r = Some (rec_status rec, rec_commit_state rec)
  /\ rec_mutation_digest rec = r_mutation_digest r
  /\ map_payload (r_operation_payload_ciphertext r) (r_operation_payload_nonce r)
       (r_operation_payload_key_version r) = Ok (rec_payload rec).
Proof.
  unfold into_record, row_state.
  destruct (parse (A:=BridgeOperationStatus) (r_status r)) as [s|] eqn:Hs; simpl; [| done].
  destruct (parse (A:=OperationCommitState) (r_commit_state r)) as [c|] eqn:Hc; simpl; [| done].
  destruct (map_payload _ _ _) as [p|]; [| done].
  destruct (ok_or _ _); [| done].
  intros [= <-]. by split_and!.
Qed.

Lemma map_payload_present keys r :
  payload_present keys r ->
  exists p, map_payload (r_operation_payload_ciphertext r) (r_operation_payload_nonce r)
              (r_operation_payload_key_version r) = Ok (Some p)
    /\ r_operation_payload_ciphertext r = Some (enc_ciphertext p)
    /\ r_operation_payload_nonce r = Some (enc_nonce p)
    /\ r_operation_payload_key_version r = Some (enc_key_version p)
    /\ exists k, keys !! r_id r = Some k /\ k_key_version k = enc_key_version p.
Proof.
  intros (c & n & v & d & k & Hcols & Hn & Hv & Hk & Hkv).
  unfold payload_columns in Hcols. injection Hcols as -> -> -> _.
  exists {| enc_ciphertext := c; enc_nonce := n; enc_key_version := v |}. simpl.
  rewrite Hn. simpl. unfold u32_try_from.
  destruct (Z.leb_spec 0 v), (Z.ltb_spec v (2 ^ 32)); try lia. simpl. eauto 10.
Qed.

Lemma map_payload_absent r :
  payload_absent r ->
  map_payload (r_operation_payload_ciphertext r) (r_operation_payload_nonce r)
    (r_operation_payload_key_version r) = Ok None.
Proof. unfold payload_absent, payload_columns. by intros [= -> -> -> _]. Qed.

Lemma into_record_wf keys r : row_wf keys r -> exists rec, into_record r = Ok rec.
Proof.
  intros (s & c & [Hs Hc]%row_state_Some & _ & Ha & _ & _ & Hor).
  unfold into_record. rewrite Hs, Hc, !parse_as_str. simpl. rewrite Ha.
  destruct Hor as [Hab | Hpr].
  - rewrite (map_payload_absent _ Hab). simpl. eauto.
  - destruct (map_payload_present _ _ Hpr) as (p & -> & _). simpl. eauto.
Qed.

Lemma get_operation_wf db id r :
  db_wf db -> bridge_operations db !! id = Some r ->
  exists rec, get_operation id db = Ok (Some rec) /\ into_record r = Ok rec.
Proof.
  intros Hwf Hr. destruct (wf_row _ Hwf _ _ Hr) as (_ & Hrow & _).
  destruct (into_record_wf _ _ Hrow) as [rec Hrec]. exists rec.
  unfold get_operation. rewrite Hr. simpl. by rewrite Hrec.
Qed.

Lemma into_records_wf db l :
  db_wf db -> (forall r, r ∈ l -> exists id, bridge_operations db !! id = Some r) ->
  exists recs, into_records l = Ok recs
    /\ Forall2 (λ r rec, into_record r = Ok rec) l recs.
Proof.
  intros Hwf. unfold into_records. induction l as [|r l IH]; intros Hl; simpl.
  - exists []. split; [done | constructor].
  - destruct (Hl r) as [id Hr]; [left |].
    destruct (get_operation_wf _ _ _ Hwf Hr) as (rec & _ & Hrec).
    destruct IH as (recs & -> & Hrecs); [set_solver |].
    rewrite Hrec. exists (rec :: recs). split; [done | by constructor].
Qed.

(** What an update by compare-and-set reports. *)
Lemma cas_update_result id guard set from to db r :
  db_wf db -> bridge_operations db !! id = Some r ->
  db_wf (fst (cas_update id guard set from to db)) ->
  if guard r then
    exists rec, cas_update id guard set from to db
                = (set_bridge_operations (<[id := set r]> (bridge_operations db)) db, Ok rec)
      /\ into_record (set r) = Ok rec
  else
    cas_update id guard set from to db =
      (db, Err (conflict "BRIDGE_OPERATION_CAS_CONFLICT"
             ("operation " +:+ id +:+ " rejected transition " +:+ from +:+ " -> " +:+ to))).
Proof.
  unfold cas_update, update_operation, assert_cas. intros Hwf Hr. rewrite Hr.
  destruct (guard r); simpl; [| done]. intros Hwf'.
  destruct (get_operation_wf _ id (set r) Hwf') as (rec & Hget & Hrec);
    [simpl; by rewrite lookup_insert_eq |].
  exists rec. by rewrite Hget.
Qed.

Lemma cas_update_missing id guard set from to db :
  bridge_operations db !! id = None ->
  cas_update id guard set from to db =
    (db, Err (conflict "BRIDGE_OPERATION_CAS_CONFLICT"
           ("operation " +:+ id +:+ " rejected transition " +:+ from +:+ " -> " +:+ to))).
Proof. unfold cas_update, update_operation, assert_cas. by intros ->. Qed.

(** Success of a compare-and-set: the row was there, in the guarded state. *)
Lemma cas_update_ok_inv id guard set from to db db' rec :
  cas_update id guard set from to db = (db', Ok rec) ->
  exists r, bridge_operations db !! id = Some r /\ guard r = true
    /\ db' = set_bridge_operations (<[id := set r]> (bridge_operations db)) db
    /\ into_record (set r) = Ok rec.
Proof.
  unfold cas_update, update_operation, assert_cas.
  destruct (bridge_operations db !! id) as [r|] eqn:Hr; [| done].
  destruct (guard r) eqn:Hg; [| done]. simpl. unfold get_operation. simpl.
  rewrite lookup_insert_eq. simpl. destruct (into_record (set r)) eqn:Hrec; [| done].
  simpl. intros [= <- <-]. eauto.
Qed.

(** ** The invariant and the refinement *)

(** A concrete run: two operations, one taken through to delivery. *)
Definition demo_ids : IdSource := {| request_id := "req_demo"; new_id := "id_demo" |}.

Definition demo_locator : StChatLocator :=
  {| loc_handle := "default-user"; loc_avatar := "a.png"; loc_character_name := "Ada";
     loc_chat_file := "chat-1" |}.

Definition demo_request : ClaimOperationRequest :=
  {| q_id := "op-1"; q_actor_id := "acc"; q_bot_id := "bot"; q_telegram_update_id := 7;
     q_channel_context_key := "ctx"; q_operation_kind := "send"; q_locator := demo_locator;
     q_request_id := "r"; q_trace_id := "t" |}.

Definition demo_payload : EncryptedOperationPayload :=
  {| enc_ciphertext := "cipher"; enc_nonce := "0123456789abcdefghijklmn";
     enc_key_version := 1 |}.

Definition demo_secret : SecretRow :=
  {| s_owner_scope := "operation:op-1"; s_kind := "operation_dek_v1"; s_key_version := 1;
     s_nonce := ""; s_ciphertext := ""; s_fingerprint := "fp_0";
     s_created_at := "2026-01-01T00:00:00Z"; s_updated_at := "2026-01-01T00:00:00Z" |}.

Definition demo_db : DB := empty_db {["acc"]} {["bot"]} {["sec" := demo_secret]}.

(** The commands that take operation [op-1] to a status. *)
Definition demo_ops (s : BridgeOperationStatus) : list StoreOp :=
  let claim := OpClaim demo_ids "t0" demo_request in
  let ready := OpSnapshotReady "t1" "op-1" (Some "sha") (Some "int") None None in
  let key := OpPutKeyRef "t2" "op-1" "sec" 1 in
  let generated := OpGenerated "t3" "op-1" demo_payload "digest" in
  let committing := OpCommitting "t4" "op-1" in
  let committed := OpCommitted "t5" "op-1" "{}" OcNotStarted in
  match s with
  | Received => [claim]
  | SnapshotReady => [claim; ready]
  | Generating => [claim; ready; OpGenerating "t2" "op-1"]
  | Generated => [claim; ready; key; generated]
  | Committing => [claim; ready; key; generated; committing]
  | Committed => [claim; ready; key; generated; committing; committed]
  | Delivered =>
      [claim; ready; key; generated; committing; committed; OpDelivered "t6" "op-1"]
  | Conflict => [claim; ready; key; generated; committing; OpConflict "t5" "op-1" "cas"]
  | Failed => [claim; OpFailed "t1" "op-1" "snapshot" "X" "x" false OcNotStarted]
  | Interrupted => [claim; ready; OpGenerating "t2" "op-1"; OpInterrupted "t3" "op-1"]
  end.

Lemma demo_ops_typed s : Forall op_typed (demo_ops s).
Proof. destruct s; repeat constructor; simpl; lia. Qed.

(** C11: the ledger invariant.  Whatever sequence of store calls any number of
    processes make on a fresh database, every row keeps a readable status and
    commit state in a legal combination, an id equal to its key, existing
    parents, a payload consistent with its status and backed by a key reference
    of the same version; claims stay unique per (bot, update, kind); key
    references and leases stay in range and belong to an operation. *)
Theorem store_invariant a b s ops :
  Forall op_typed ops -> db_wf (run ops (empty_db a b s)).
Proof. intros Ht. by apply run_ok; [| apply empty_db_wf]. Qed.

Lemma store_invariant_witness :
  Forall op_typed (demo_ops Delivered) /\ db_wf (run (demo_ops Delivered) demo_db).
Proof. split; [apply demo_ops_typed | apply store_invariant, demo_ops_typed]. Defined.

(** C8: the SQL store refines the operation machine.  On a well-formed database
    every store call is a step of the abstract ledger: each operation keeps its
    (status, commit state) or makes one move of the machine, new operations
    start at (received, not_started), none disappears; and every status change
    the statements make is one [can_transition_to] allows. *)
Theorem store_refines_machine op db :
  op_typed op -> db_wf db ->
  ledger_step (ledger db) (ledger (exec op db))
  /\ (forall id s c s' c',
        ledger db !! id = Some (s, c) -> ledger (exec op db) !! id = Some (s', c') ->
        s = s' \/ can_transition_to s s' = true).
Proof.
  intros Ht Hwf. destruct (exec_ok op db Ht Hwf) as (_ & Hl & _). split; [done |].
  intros id s c s' c' Ha Hb. specialize (Hl id). rewrite Ha, Hb in Hl.
  destruct Hl as [[= -> ->] | Hm]; [by left | by eapply op_move_status].
Qed.

Lemma store_refines_machine_witness :
  let db := run (demo_ops Generated) demo_db in
  let op := OpCommitting "t4" "op-1" in
  ledger (exec op db) !! "op-1" = Some (Committing, OcNotStarted)
  /\ ledger_step (ledger db) (ledger (exec op db)).
Proof.
  intros db op. split; [vm_compute; reflexivity |].
  apply (store_refines_machine op db); [exact I |].
  apply run_ok; [apply demo_ops_typed | apply empty_db_wf].
Defined.

(** The command that makes a given move of the machine. *)
Definition move_op (a b : OpState) : StoreOp :=
  match b with
  | (SnapshotReady, _) => OpSnapshotReady "n" "op-1" None None None None
  | (Generating, _) => OpGenerating "n" "op-1"
  | (Generated, _) => OpGenerated "n" "op-1" demo_payload "digest"
  | (Committing, OcUnknown) => OpCommitUnknown "n" "op-1"
  | (Committing, _) => OpCommitting "n" "op-1"
  | (Committed, _) => OpCommitted "n" "op-1" "{}" a.2
  | (Delivered, _) => OpDelivered "n" "op-1"
  | (Conflict, _) => OpConflict "n" "op-1" "cas"
  | (Interrupted, _) => OpInterrupted "n" "op-1"
  | (Failed, c) => OpFailed "n" "op-1" "commit" "X" "x" false c
  | (Received, _) => OpDelivered "n" "op-1"
  end.

(** A reachable database in which operation [op-1] is in the given state, with
    its key reference in place. *)
Definition move_db (a : OpState) : DB :=
  let db := run (demo_ops a.1) demo_db in
  let db := exec (OpPutKeyRef "k" "op-1" "sec" 1) db in
  match a with
  | (Committing, OcUnknown) => exec (OpCommitUnknown "u" "op-1") db
  | _ => db
  end.

Lemma move_db_wf a : db_wf (move_db a).
Proof.
  assert (db_wf (exec (OpPutKeyRef "k" "op-1" "sec" 1) (run (demo_ops a.1) demo_db))) as Hwf.
  { apply exec_ok; [simpl; lia |]. apply run_ok; [apply demo_ops_typed | apply empty_db_wf]. }
  unfold move_db. revert Hwf. generalize (exec (OpPutKeyRef "k" "op-1" "sec" 1)
    (run (demo_ops a.1) demo_db)) as db. intros db Hwf.
  destruct a as [[] []]; (exact Hwf || (apply exec_ok; [exact I | exact Hwf])).
Qed.

(** The machine is implemented completely.  Every move of the abstract
    machine is made by a store call on some reachable well-formed database, so
    the refinement leaves no abstract transition unimplemented; in particular
    of the transitions [can_transition_to] lists only committing-to-interrupted
    is one no store call makes. *)
Theorem machine_is_implemented :
  (forall a b, op_move a b ->
     db_wf (move_db a) /\ ledger (move_db a) !! "op-1" = Some a
     /\ ledger (exec (move_op a b) (move_db a)) !! "op-1" = Some b)
  /\ (forall s s', can_transition_to s s' = true ->
        (exists c c', op_move (s, c) (s', c')) <-> (s, s') <> (Committing, Interrupted)).
Proof.
  split.
  - intros a b Hm. split; [apply move_db_wf |]. unfold op_move in Hm.
    destruct a as [[] []]; try discriminate Hm;
      destruct b as [[] []]; try discriminate Hm; vm_compute; by split.
  - intros s s' Ht. split.
    + intros (c & c' & Hm) [= -> ->]. unfold op_move in Hm. by destruct c, c'.
    + intros Hne. destruct s, s'; try discriminate Ht; try congruence;
        solve [ by exists OcNotStarted, OcNotStarted | by exists OcNotStarted, OcApplied
              | by exists OcNotStarted, OcNotApplied | by exists OcApplied, OcApplied ].
Qed.

(** ** Outcomes are final *)

Lemma ledger_run ops db id st :
  Forall op_typed ops -> db_wf db -> ledger db !! id = Some st ->
  exists st', ledger (run ops db) !! id = Some st' /\ rtc op_move st st'.
Proof.
  intros Ht Hwf Hst. destruct (run_ok ops db Ht Hwf) as (_ & Hl & _).
  by eapply ledger_steps_slot.
Qed.

Lemma rtc_move_applied c s st :
  c = OcApplied \/ c = OcNotApplied -> rtc op_move (s, c) st -> st.2 = c.
Proof.
  intros Hc Hs. remember (s, c) as st0 eqn:Heq. revert s Heq.
  induction Hs as [x | x [s' c'] z Hm _ IH]; intros s ->; [done |].
  apply (IH s'). f_equal. unfold op_move in Hm.
  destruct Hc as [-> | ->]; destruct s, s', c'; simpl in Hm; congruence.
Qed.

Lemma rtc_move_unknown st :
  rtc op_move (Committing, OcUnknown) st ->
  st = (Committing, OcUnknown) \/ st = (Committed, OcApplied) \/ st = (Delivered, OcApplied).
Proof.
  assert (forall st0, st0 ∈ [(Committing, OcUnknown); (Committed, OcApplied); (Delivered, OcApplied)] ->
            rtc op_move st0 st -> st ∈ [(Committing, OcUnknown); (Committed, OcApplied); (Delivered, OcApplied)]) as H.
  { intros st0 Hin Hs. revert Hin. induction Hs as [x | x y z Hm _ IH]; [done |].
    intros Hin. apply IH. unfold op_move in Hm. rewrite !elem_of_cons in Hin |- *.
    destruct_or! Hin; subst; [| | | by apply not_elem_of_nil in Hin];
      destruct y as [[] []]; simpl in Hm; try discriminate; auto. }
  intros Hs. apply H in Hs; [| left]. rewrite !elem_of_cons in Hs.
  destruct_or! Hs; auto. by apply not_elem_of_nil in Hs.
Qed.

(** Recorded outcomes are final.  Along every sequence of store calls an
    operation's status only moves forward along [can_transition_to]; a commit
    recorded as applied (or as not applied) keeps that record forever; and an
    operation whose commit is unknown can only stay so or become committed and
    delivered with an applied commit: it is never failed, interrupted or
    re-generated. *)
Theorem outcomes_are_final ops db id s c :
  Forall op_typed ops -> db_wf db -> ledger db !! id = Some (s, c) ->
  exists s' c', ledger (run ops db) !! id = Some (s', c')
    /\ rtc status_step s s'
    /\ (c = OcApplied \/ c = OcNotApplied -> c' = c)
    /\ (c = OcUnknown -> s = Committing ->
          (s', c') = (Committing, OcUnknown) \/ (s', c') = (Committed, OcApplied)
          \/ (s', c') = (Delivered, OcApplied)).
Proof.
  intros Ht Hwf Hst. destruct (ledger_run _ _ _ _ Ht Hwf Hst) as ([s' c'] & Hst' & Hm).
  exists s', c'. split_and!; [done | by apply op_moves_status in Hm | |].
  - intros Hc. by apply (rtc_move_applied _ _ _ Hc) in Hm.
  - intros -> ->. by apply rtc_move_unknown in Hm.
Qed.

Lemma outcomes_are_final_witness :
  let db := move_db (Committing, OcUnknown) in
  let ops := [OpFailed "n" "op-1" "commit" "X" "x" true OcNotApplied;
              OpCommitted "n" "op-1" "{}" OcUnknown] in
  exists s' c', ledger (run ops db) !! "op-1" = Some (s', c')
    /\ rtc status_step Committing s'
    /\ (OcUnknown = OcApplied \/ OcUnknown = OcNotApplied -> c' = OcUnknown)
    /\ (OcUnknown = OcUnknown -> Committing = Committing ->
          (s', c') = (Committing, OcUnknown) \/ (s', c') = (Committed, OcApplied)
          \/ (s', c') = (Delivered, OcApplied)).
Proof.
  intros db ops. apply (outcomes_are_final ops db "op-1" Committing OcUnknown).
  - repeat constructor.
  - apply move_db_wf.
  - vm_compute. reflexivity.
Defined.

(** ** Listings

    What a listing promises, without its SQL: the records it holds are operations as
    [get_operation] reads them, wanted ones, each once, oldest first; and a wanted
    operation it leaves out is no older than any it holds, its bound being reached. *)

Definition not_after (key : BridgeOperationRecord -> string) (a b : BridgeOperationRecord) : Prop :=
  text_lt (key a) (key b) = true \/ (key a = key b /\ text_le (rec_id a) (rec_id b) = true).

Record listing (wanted : BridgeOperationRecord -> Prop) (key : BridgeOperationRecord -> string) (bound : option nat)
    (db : DB) (recs : list BridgeOperationRecord) : Prop := {
  ls_read : forall rec, rec ∈ recs -> get_operation (rec_id rec) db = Ok (Some rec) /\ wanted rec;
  ls_once : NoDup (rec_id <$> recs);
  ls_sorted : StronglySorted (not_after key) recs;
  ls_rest : forall id rec, get_operation id db = Ok (Some rec) -> wanted rec ->
    rec ∈ recs \/ (bound = Some (length recs) /\ forall listed, listed ∈ recs -> not_after key listed rec);
}.

Lemma order_by_total key a b : order_by key a b = true \/ order_by key b a = true.
Proof.
  unfold order_by. destruct (text_le_total (key a) (key b)) as [[->| ->]%text_le_lt_eq | [->| ->]%text_le_lt_eq]; auto;
    rewrite text_lt_irrefl, bool_decide_eq_true_2 by done; simpl; apply text_le_total.
Qed.

Lemma text_lt_trans a b c : text_lt a b = true -> text_lt b c = true -> text_lt a c = true.
Proof.
  intros Hab Hbc. assert (Hle : text_le a c = true).
  { apply (text_le_trans a b c); unfold text_le, text_lt, String.leb, String.ltb in *;
      [by destruct (String.compare a b) | by destruct (String.compare b c)]. }
  apply text_le_lt_eq in Hle as [? | <-]; [done |]. apply text_lt_asym in Hab. congruence.
Qed.

Lemma order_by_trans key a b c : order_by key a b = true -> order_by key b c = true -> order_by key a c = true.
Proof.
  unfold order_by. rewrite !orb_true_iff, !andb_true_iff, !bool_decide_eq_true.
  intros [Hab | [Hab Hi]] [Hbc | [Hbc Hj]].
  - left. by eapply text_lt_trans.
  - left. by rewrite <- Hbc.
  - left. by rewrite Hab.
  - right. split; [congruence | by eapply text_le_trans].
Qed.

Lemma order_by_not_after key krow a b ra rb :
  (forall r rec, into_record r = Ok rec -> key rec = krow r) -> into_record a = Ok ra -> into_record b = Ok rb ->
  order_by krow a b = true -> not_after key ra rb.
Proof.
  intros Hk Ha Hb. unfold order_by, not_after. rewrite (Hk _ _ Ha), (Hk _ _ Hb).
  destruct (into_record_fields _ _ Ha) as (-> & _), (into_record_fields _ _ Hb) as (-> & _).
  by rewrite orb_true_iff, andb_true_iff, bool_decide_eq_true.
Qed.

Lemma rows_once db : db_wf db -> NoDup (r_id <$> rows db).
Proof.
  intros Hwf. unfold rows. change (map snd) with (fmap (M:=list) (snd (A:=string) (B:=OperationRow))).
  rewrite <- list_fmap_compose.
  rewrite (list_fmap_ext (r_id ∘ snd) fst (map_to_list (bridge_operations db))).
  - apply NoDup_fst_map_to_list.
  - intros i [id r] Hin%list_elem_of_lookup_2%elem_of_map_to_list. by destruct (wf_row _ Hwf _ _ Hin).
Qed.

Lemma into_record_times r rec :
  into_record r = Ok rec -> rec_created_at rec = r_created_at r /\ rec_updated_at rec = r_updated_at r.
Proof.
  unfold into_record. destruct (parse (A:=BridgeOperationStatus) _); simpl; [| done].
  destruct (parse (A:=OperationCommitState) _); simpl; [| done].
  destruct (map_payload _ _ _); [| done]. destruct (ok_or _ _); [| done]. by intros [= <-].
Qed.

Definition upto {A} (bound : option nat) (l : list A) : list A :=
  match bound with Some n => take n l | None => l end.

Lemma upto_rest {A} bound (l : list A) :
  exists rest, l = upto bound l ++ rest /\ (rest <> [] -> bound = Some (length (upto bound l))).
Proof.
  destruct bound as [n|]; simpl; [| by exists []; rewrite app_nil_r].
  exists (drop n l). rewrite take_drop. split; [done |]. intros Hd. rewrite length_take.
  destruct (decide (n <= length l)) as [?|?]; [f_equal; lia |]. by rewrite drop_ge in Hd by lia.
Qed.

Notation decoded := (Forall2 (λ r rec, into_record r = Ok rec)).

Lemma decoded_from l recs rec : decoded l recs -> rec ∈ recs -> exists r, r ∈ l /\ into_record r = Ok rec.
Proof. induction 1; set_solver. Qed.

Lemma decoded_in l recs r rec : decoded l recs -> r ∈ l -> into_record r = Ok rec -> rec ∈ recs.
Proof.
  induction 1 as [|r0 rec0 l recs Hr Hl IH]; [by intros ?%elem_of_nil |].
  intros [-> | Hin]%elem_of_cons Hrec; [| right; by apply IH].
  assert (rec = rec0) as -> by congruence. left.
Qed.

Lemma decoded_ids l recs : decoded l recs -> rec_id <$> recs = r_id <$> l.
Proof. induction 1 as [|r rec l recs Hr _ IH]; [done |]. cbn. by destruct (into_record_fields _ _ Hr) as (-> & _); f_equal. Qed.

Lemma sorted_decoded key krow l recs :
  (forall r rec, into_record r = Ok rec -> key rec = krow r) -> decoded l recs ->
  StronglySorted (λ a b, order_by krow a b = true) l -> StronglySorted (not_after key) recs.
Proof.
  intros Hk. induction 1 as [|r rec l recs Hr Hl IH]; intros Hs; [constructor |].
  inversion Hs as [|? ? Hs' Hall]; subst. constructor; [by apply IH |].
  apply Forall_forall. intros rec' (r' & Hin & Hr')%(decoded_from _ _ _ Hl).
  eapply order_by_not_after; [done | done | done |]. by apply (proj1 (Forall_forall _ _) Hall).
Qed.

Lemma selected_elem where_ krow db r :
  r ∈ select_rows where_ krow db <-> where_ r = true /\ exists id, bridge_operations db !! id = Some r.
Proof.
  unfold select_rows. rewrite sort_by_elem, list_elem_of_In, filter_In, <- list_elem_of_In, rows_elem. tauto.
Qed.

Lemma selected_once where_ krow db : db_wf db -> NoDup (r_id <$> select_rows where_ krow db).
Proof.
  intros Hwf. unfold select_rows. rewrite sort_by_perm.
  eapply sublist_NoDup; [apply rows_once, Hwf |]. apply fmap_sublist.
  induction (rows db) as [|r l IH]; simpl; [constructor |]. by destruct (where_ r); constructor.
Qed.

Lemma sorted_app_l {A} (R : A -> A -> Prop) l k : StronglySorted R (l ++ k) -> StronglySorted R l.
Proof.
  induction l as [|x l IH]; simpl; [constructor |]. inversion 1 as [|? ? Hs Hall]; subst.
  constructor; [by apply IH |]. by apply Forall_app in Hall as [? _].
Qed.

(** The selected rows, up to [bound], make a listing once decoded. *)
Lemma select_listing wanted key where_ krow bound db :
  db_wf db ->
  (forall r rec, into_record r = Ok rec -> where_ r = true <-> wanted rec) ->
  (forall r rec, into_record r = Ok rec -> key rec = krow r) ->
  exists recs, into_records (upto bound (select_rows where_ krow db)) = Ok recs /\ listing wanted key bound db recs.
Proof.
  intros Hwf Hw Hk. destruct (upto_rest bound (select_rows where_ krow db)) as (rest & Hsplit & Hfull).
  assert (Hsel : forall r, r ∈ upto bound (select_rows where_ krow db) ->
    where_ r = true /\ exists id, bridge_operations db !! id = Some r).
  { intros r Hr. apply (selected_elem where_ krow). rewrite Hsplit. apply elem_of_app. by left. }
  assert (Hsorted : StronglySorted (λ a b, order_by krow a b = true) (select_rows where_ krow db)).
  { apply sort_by_sorted; [apply order_by_total | apply order_by_trans]. }
  pose proof (selected_once where_ krow db Hwf) as Honce.
  pose proof (λ r, selected_elem where_ krow db r) as Hall.
  revert Hsplit Hfull Hsel Hsorted Honce Hall. generalize (select_rows where_ krow db) as sel. intros sel.
  generalize (upto bound sel) as l. intros l -> Hfull Hsel Hsorted Honce Hall.
  destruct (into_records_wf db l Hwf (λ r Hr, proj2 (Hsel r Hr))) as (recs & Hrecs & Hdec).
  exists recs. split; [done |]. split.
  - intros rec (r & Hr & Hrec)%(decoded_from _ _ _ Hdec). destruct (Hsel r Hr) as [Hwhere [id Hid]].
    split; [| by apply (Hw r)]. destruct (wf_row _ Hwf _ _ Hid) as (<- & _).
    destruct (into_record_fields _ _ Hrec) as (-> & _). unfold get_operation. rewrite Hid. simpl. by rewrite Hrec.
  - rewrite (decoded_ids _ _ Hdec). rewrite fmap_app in Honce. by apply NoDup_app in Honce as [? _].
  - eapply sorted_decoded; [exact Hk | exact Hdec |]. by eapply sorted_app_l.
  - intros id rec Hget Hwant. unfold get_operation in Hget.
    destruct (bridge_operations db !! id) as [r|] eqn:Hid; [| discriminate]. simpl in Hget.
    destruct (into_record r) as [rec0|] eqn:Hrec; [| discriminate]. injection Hget as ->.
    assert (Hin : r ∈ l ++ rest) by (apply Hall; split; [by apply (Hw r rec) | eauto]).
    apply elem_of_app in Hin as [Hin | Hin]; [left; by eapply decoded_in | right].
    split; [rewrite <- (Forall2_length _ _ _ Hdec); apply Hfull; intros ->; by apply not_elem_of_nil in Hin |].
    intros rec' (r' & Hr' & Hrec')%(decoded_from _ _ _ Hdec).
    eapply order_by_not_after; [exact Hk | done | done |]. by apply (sorted_app_related _ _ _ Hsorted).
Qed.

(** What start-up recovery takes up again. *)
Definition awaits_recovery (bot_id : string) (rec : BridgeOperationRecord) : Prop :=
  rec_bot_id rec = bot_id
  /\ (rec_status rec = Generated \/ rec_status rec = Committing
      \/ (rec_status rec = Committed /\ rec_commit_state rec = OcApplied)).

(** C40: the ledger is read completely and in order.  On a well-formed database no
    read fails: an operation is read by its id; the listing by status holds every
    operation of the status, oldest first; and the candidates for recovery are the
    [limit] (at least 1, at most 256) operations of the bot longest untouched among
    those whose reply is generated, whose commit is under way, or whose commit was
    applied but not delivered.  Nothing is listed twice and nothing that should be is
    left out below the limit. *)
Theorem listings_are_exact db :
  db_wf db ->
  (forall id, match get_operation id db with
     | Ok (Some rec) => rec_id rec = id
     | Ok None => bridge_operations db !! id = None
     | Err _ => False
     end)
  /\ (forall status, exists recs, list_by_status status db = Ok recs
        /\ listing (λ rec, rec_status rec = status) rec_created_at None db recs)
  /\ (forall bot_id limit, is_blank bot_id = false ->
        exists recs, list_recovery_candidates_for_bot bot_id limit db = Ok recs
        /\ listing (awaits_recovery bot_id) rec_updated_at (Some (Nat.min (Nat.max limit 1) 256)) db recs).
Proof.
  intros Hwf. split; [| split].
  - intros id. destruct (bridge_operations db !! id) as [r|] eqn:Hr.
    + destruct (get_operation_wf _ _ _ Hwf Hr) as (rec & -> & Hrec).
      destruct (into_record_fields _ _ Hrec) as (-> & _). by destruct (wf_row _ Hwf _ _ Hr).
    + unfold get_operation. by rewrite Hr.
  - intros status. apply (select_listing _ _ _ _ None); [done | | by intros ?? []%into_record_times].
    intros r rec Hrec. destruct (into_record_fields _ _ Hrec) as (_ & _ & _ & _ & _ & _ & _ & Hst & _).
    apply row_state_Some in Hst as [-> _]. rewrite bool_decide_eq_true. split; [apply as_str_inj | by intros ->].
  - intros bot_id limit Hb. unfold list_recovery_candidates_for_bot. rewrite Hb.
    apply (select_listing _ _ _ _ (Some _)); [done | | by intros ?? []%into_record_times].
    intros r rec Hrec. destruct (into_record_fields _ _ Hrec) as (_ & _ & Hbot & _ & _ & _ & _ & Hst & _).
    apply row_state_Some in Hst as [Hs Hc]. unfold recovery_where, awaits_recovery. rewrite Hbot, Hs, Hc.
    rewrite andb_true_iff, !orb_true_iff, andb_true_iff, bool_decide_eq_true.
    destruct (rec_status rec), (rec_commit_state rec); naive_solver.
Qed.

Lemma listings_are_exact_witness :
  exists recs, list_recovery_candidates_for_bot "bot" 5 (move_db (Committing, OcUnknown)) = Ok recs
    /\ length recs = 1
    /\ listing (awaits_recovery "bot") rec_updated_at (Some 5) (move_db (Committing, OcUnknown)) recs.
Proof.
  destruct (listings_are_exact (move_db (Committing, OcUnknown)) (move_db_wf _)) as (_ & _ & Hc).
  destruct (Hc "bot" 5 eq_refl) as (recs & Hr & Hl). exists recs. split; [exact Hr |]. split; [| exact Hl].
  revert Hr. vm_compute. by intros [= <-].
Defined.

(** ** Claims *)

Lemma claim_ok_inv `{IdSource} now q db db' rec :
  claim_operation now q db = (db', Ok rec) ->
  insert_operation (claim_row (claim_id q) now q) db = (db', Inserted)
  /\ into_record (claim_row (claim_id q) now q) = Ok rec.
Proof.
  unfold claim_operation. destruct (insert_operation _ db) as [db1 []] eqn:Hi.
  - pose proof Hi as (_ & _ & _ & _ & ->)%insert_inserted. unfold get_operation. simpl.
    rewrite lookup_insert_eq. simpl. intros [= <- <-]. done.
  - destruct (get_by_claim _ _ _ db1) as [[ex|]|]; [| done | done].
    by destruct (negb (matches_claim ex q)).
  - done.
Qed.

(** The row that holds a claim is the one the claim query finds. *)
Lemma find_row_claim db id r :
  db_wf db -> bridge_operations db !! id = Some r ->
  find_row (claim_where (r_bot_id r) (r_telegram_update_id r) (r_operation_kind r)) db = Some r.
Proof.
  intros Hwf Hr. destruct (find_row _ db) as [r'|] eqn:Hf.
  - apply find_row_Some in Hf as (Hc & id' & Hr'). apply claim_where_true in Hc.
    assert (id' = id) as -> by (by eapply (wf_claims _ Hwf)). congruence.
  - rewrite find_row_None in Hf. specialize (Hf _ _ Hr).
    apply not_true_iff_false in Hf. destruct Hf. by apply claim_where_true.
Qed.

(** A request matches the record of any row with its claim row's identity. *)
Lemma matches_claim_identity id now q r rec :
  is_blank (q_id q) = true \/ id = q_id q ->
  identity r = identity (claim_row id now q) -> into_record r = Ok rec ->
  matches_claim rec q = true.
Proof.
  intros Hid Hi Hrec.
  destruct (into_record_fields _ _ Hrec) as (H1 & H2 & H3 & H4 & H5 & H6 & H7 & _).
  unfold identity, claim_of in Hi. simpl in Hi.
  injection Hi as E1 E2 E3 E4 E5 E6 E7 E8 E9 _ _ _ _.
  unfold matches_claim. rewrite H1, H2, H3, H4, H5, H6, H7. simpl.
  rewrite E1, E2, E3, E4, E5, E6, E7, E8, E9. simpl.
  destruct Hid as [-> | ->]; simpl; rewrite !bool_decide_eq_true_2 by done;
    by rewrite ?orb_true_r.
Qed.

Lemma claim_id_cases `{IdSource} q : is_blank (q_id q) = true \/ claim_id q = q_id q.
Proof. unfold claim_id. destruct (is_blank (q_id q)); auto. Qed.

(** A repeated claim of a stored request. *)
Lemma claim_duplicate `{IdSource} now now0 id q r db :
  db_wf db -> bridge_operations db !! id = Some r ->
  is_blank (q_id q) = true \/ id = q_id q ->
  identity r = identity (claim_row id now0 q) ->
  exists existing, claim_operation now q db = (db, Err (DuplicateClaim existing))
    /\ into_record r = Ok existing.
Proof.
  intros Hwf Hr Hq Hi. pose proof (find_row_claim _ _ _ Hwf Hr) as Hf.
  destruct (get_operation_wf _ _ _ Hwf Hr) as (rec & _ & Hrec). exists rec.
  assert (claim_of r = (q_bot_id q, q_telegram_update_id q, q_operation_kind q)) as Hc.
  { apply identity_fields in Hi as (_ & _ & _ & -> & _). done. }
  unfold claim_of in Hc. injection Hc as Hb Hu Hk. rewrite Hb, Hu, Hk in Hf.
  unfold claim_operation, insert_operation. simpl. rewrite Hf.
  rewrite (bool_decide_eq_true_2 (is_Some (Some r))), orb_true_r by eauto.
  unfold get_by_claim. rewrite Hf. simpl. rewrite Hrec. simpl.
  by rewrite (matches_claim_identity id now0 q r rec Hq Hi Hrec).
Qed.

(** C9: a request is claimed exactly once.  If a claim succeeds it creates the
    operation under a fresh id in (received, not_started); and after any further
    store calls, claiming the same request again changes nothing and reports
    that very operation as a duplicate, whatever state it is in by then. *)
Theorem claim_exactly_once (ids : IdSource) now q db db' rec :
  db_wf db -> claim_operation now q db = (db', Ok rec) ->
  bridge_operations db !! rec_id rec = None
  /\ rec_status rec = Received /\ rec_commit_state rec = OcNotStarted
  /\ forall ops (ids' : IdSource) now', Forall op_typed ops ->
       exists existing,
         claim_operation now' q (run ops db')
           = (run ops db', Err (DuplicateClaim existing))
         /\ rec_id existing = rec_id rec
         /\ rec_actor_id existing = q_actor_id q.
Proof.
  intros Hwf Hc. pose proof (exec_claim now q db Hwf) as (Hwf' & _). rewrite Hc in Hwf'.
  apply claim_ok_inv in Hc as (Hi & Hrec).
  apply insert_inserted in Hi as (Hnone & _ & _ & _ & ->). simpl in *.
  destruct (into_record_fields _ _ Hrec) as (Hid & _ & _ & _ & _ & _ & _ & Hst & _).
  simpl in Hid. rewrite Hid. injection Hst as Hs Hcs. split_and!; [done | done | done |].
  intros ops ids' now' Ht. destruct (run_ok _ _ Ht Hwf') as (Hwf'' & _ & Hkept).
  destruct (Hkept (@claim_id ids q) (claim_row (@claim_id ids q) now q)) as (r & Hr & Hi & _).
  { simpl. by rewrite lookup_insert_eq. }
  destruct (claim_duplicate now' now (@claim_id ids q) q r _ Hwf'' Hr) as (ex & Hex & Hrx);
    [apply claim_id_cases | done |].
  exists ex. destruct (into_record_fields _ _ Hrx) as (-> & -> & _).
  apply identity_fields in Hi as (-> & -> & _). by split_and!.
Qed.

Lemma claim_exactly_once_witness :
  exists rec db', @claim_operation demo_ids "t0" demo_request demo_db = (db', Ok rec)
    /\ (bridge_operations demo_db !! rec_id rec = None
        /\ rec_status rec = Received /\ rec_commit_state rec = OcNotStarted
        /\ forall ops (ids' : IdSource) now', Forall op_typed ops ->
             exists existing,
               claim_operation now' demo_request (run ops db')
                 = (run ops db', Err (DuplicateClaim existing))
               /\ rec_id existing = rec_id rec
               /\ rec_actor_id existing = q_actor_id demo_request).
Proof.
  eexists _, _. split; [vm_compute; reflexivity |].
  apply (claim_exactly_once demo_ids "t0" demo_request demo_db);
    [apply empty_db_wf | vm_compute; reflexivity].
Defined.

(** ** The commit gate *)

(** States from which [mark_committing] can never succeed again. *)
Definition past_gate (s : BridgeOperationStatus) : Prop := status_rank s <= 2.

Lemma at_state_ledger db id r s c :
  bridge_operations db !! id = Some r -> at_state (as_str s) (as_str c) r = true ->
  ledger db !! id = Some (s, c).
Proof.
  intros Hr Ha. rewrite ledger_lookup, Hr. simpl. by apply at_state_true.
Qed.

Lemma mark_committing_inv now id db db' rec :
  mark_committing now id db = (db', Ok rec) ->
  ledger db !! id = Some (Generated, OcNotStarted)
  /\ ledger db' !! id = Some (Committing, OcNotStarted)
  /\ db' = exec (OpCommitting now id) db
  /\ rec_id rec = default "" (r_id <$> bridge_operations db !! id)
  /\ rec_status rec = Committing.
Proof.
  intros Hm. assert (db' = exec (OpCommitting now id) db) as Hx.
  { simpl. by rewrite Hm. }
  apply cas_update_ok_inv in Hm as (r & Hr & Hg & -> & Hrec).
  pose proof (at_state_ledger db id r Generated OcNotStarted Hr Hg) as Hl.
  apply (at_state_true Generated OcNotStarted) in Hg.
  destruct (into_record_fields _ _ Hrec) as (Hid & _ & _ & _ & _ & _ & _ & Hst & _).
  assert (row_state (with_status "committing" now r) = Some (Committing, OcNotStarted)) as Hst'.
  { apply row_state_Some. apply row_state_Some in Hg as [_ Hg]. by split. }
  split_and!; [done | | done | by rewrite Hr | congruence].
  rewrite ledger_lookup. simpl. by rewrite lookup_insert_eq.
Qed.

Lemma mark_committing_past now id db s c :
  ledger db !! id = Some (s, c) -> past_gate s ->
  exists e, mark_committing now id db = (db, Err e) /\ a_code e = "BRIDGE_OPERATION_CAS_CONFLICT".
Proof.
  intros Hl Hs. rewrite ledger_lookup in Hl.
  destruct (bridge_operations db !! id) as [r|] eqn:Hr; [| done]. simpl in Hl.
  unfold mark_committing, cas_update, update_operation. rewrite Hr.
  destruct (at_state _ _ r) eqn:Hg; [| by eexists].
  apply (at_state_true Generated OcNotStarted) in Hg. rewrite Hg in Hl. injection Hl as <- <-.
  unfold past_gate in Hs. simpl in Hs. lia.
Qed.

(** The commit gate opens once.  If [mark_committing] succeeds for an
    operation, then after any further store calls of any process a second
    [mark_committing] of it fails with the CAS conflict and changes nothing, so
    one operation starts its external commit at most once, ever. *)
Theorem commit_gate_opens_once now id db db' rec ops now' :
  db_wf db -> mark_committing now id db = (db', Ok rec) -> Forall op_typed ops ->
  exists e, mark_committing now' id (run ops db') = (run ops db', Err e)
    /\ a_code e = "BRIDGE_OPERATION_CAS_CONFLICT".
Proof.
  intros Hwf Hm Ht. apply mark_committing_inv in Hm as (_ & Hl & -> & _).
  assert (db_wf (exec (OpCommitting now id) db)) as Hwf' by (by apply exec_ok).
  destruct (ledger_run _ _ _ _ Ht Hwf' Hl) as ([s c] & Hl' & Hmv).
  apply (mark_committing_past now' id _ s c Hl').
  apply op_moves_status, rtc_status_rank in Hmv. exact Hmv.
Qed.

Lemma commit_gate_opens_once_witness :
  exists rec db', mark_committing "n" "op-1" (move_db (Generated, OcNotStarted)) = (db', Ok rec)
    /\ exists e, mark_committing "m" "op-1" (run [OpCommitted "x" "op-1" "{}" OcNotStarted] db')
         = (run [OpCommitted "x" "op-1" "{}" OcNotStarted] db', Err e)
       /\ a_code e = "BRIDGE_OPERATION_CAS_CONFLICT".
Proof.
  eexists _, _. split; [vm_compute; reflexivity |].
  eapply (commit_gate_opens_once "n" "op-1" (move_db (Generated, OcNotStarted)));
    [apply move_db_wf | vm_compute; reflexivity | repeat constructor].
Defined.

(** ** Recovery payloads *)

(** The recovery payload is always there and never changes.  On a
    well-formed database an operation in generated, committing, committed,
    delivered or conflict carries an encrypted payload, a mutation digest and a
    key reference of the same key version; and after any further store calls
    payload and digest are still the same. *)
Theorem recovery_payload_is_stable db id r s c ops :
  db_wf db -> Forall op_typed ops ->
  bridge_operations db !! id = Some r -> row_state r = Some (s, c) -> has_payload s = true ->
  exists rec rec' p d k,
    get_operation id db = Ok (Some rec) /\ get_operation id (run ops db) = Ok (Some rec')
    /\ rec_payload rec = Some p /\ rec_payload rec' = Some p
    /\ rec_mutation_digest rec = Some d /\ rec_mutation_digest rec' = Some d
    /\ get_operation_key_reference id db = Ok (Some k)
    /\ kr_key_version k = enc_key_version p.
Proof.
  intros Hwf Ht Hr Hst Hp.
  destruct (wf_row _ Hwf _ _ Hr) as (Hid & (s0 & c0 & Hst0 & _ & _ & Hpw & _) & _).
  rewrite Hst in Hst0. injection Hst0 as <- <-. specialize (Hpw Hp).
  destruct (map_payload_present _ _ Hpw) as (p & Hmp & _ & _ & _ & k & Hk & Hkv).
  destruct Hpw as (pc & pn & pv & d & pk & Hcols & _). unfold payload_columns in Hcols.
  destruct (run_ok _ _ Ht Hwf) as (Hwf' & _ & Hkept).
  destruct (Hkept _ _ Hr) as (r' & Hr' & _ & Hf).
  specialize (Hf s c Hst ltac:(by destruct s)). unfold payload_columns in Hf.
  destruct (get_operation_wf _ _ _ Hwf Hr) as (rec & Hg & Hrec).
  destruct (get_operation_wf _ _ _ Hwf' Hr') as (rec' & Hg' & Hrec').
  destruct (into_record_fields _ _ Hrec) as (_ & _ & _ & _ & _ & _ & _ & _ & Hd & Hpay).
  destruct (into_record_fields _ _ Hrec') as (_ & _ & _ & _ & _ & _ & _ & _ & Hd' & Hpay').
  rewrite Hid in Hk. destruct (wf_keys _ Hwf _ _ Hk) as (_ & Hb & _ & Hv).
  exists rec, rec', p, d, {| kr_wrapped_secret_id := k_wrapped_secret_id k;
                             kr_key_version := k_key_version k |}.
  injection Hcols as Hc1 Hc2 Hc3 Hc4. injection Hf as Hf1 Hf2 Hf3 Hf4.
  rewrite Hf1, Hf2, Hf3, Hmp in Hpay'. rewrite Hmp in Hpay.
  split_and!; try congruence; [| done].
  unfold get_operation_key_reference. rewrite Hk, Hb. unfold u32_try_from.
  destruct (Z.leb_spec 0 (k_key_version k)), (Z.ltb_spec (k_key_version k) (2 ^ 32)),
    (Z.eqb_spec (k_key_version k) 0); simpl; try lia. by destruct (Z.eqb_spec (k_key_version k) 0).
Qed.

Lemma recovery_payload_is_stable_witness :
  let db := move_db (Generated, OcNotStarted) in
  let ops := [OpCommitting "n" "op-1"; OpGenerated "n" "op-1" demo_payload "other"] in
  exists r, bridge_operations db !! "op-1" = Some r
    /\ exists rec rec' p d k,
    get_operation "op-1" db = Ok (Some rec) /\ get_operation "op-1" (run ops db) = Ok (Some rec')
    /\ rec_payload rec = Some p /\ rec_payload rec' = Some p
    /\ rec_mutation_digest rec = Some d /\ rec_mutation_digest rec' = Some d
    /\ get_operation_key_reference "op-1" db = Ok (Some k)
    /\ kr_key_version k = enc_key_version p.
Proof.
  intros db ops. eexists. split; [vm_compute; reflexivity |].
  eapply (recovery_payload_is_stable db "op-1" _ Generated OcNotStarted ops);
    [apply move_db_wf | repeat constructor; simpl; lia | vm_compute; reflexivity
    | vm_compute; reflexivity | reflexivity].
Defined.

(** ** Leases *)

(** What a successful acquisition leaves in the table. *)
Lemma acquire_inv now id bot inst until db db' lease :
  db_wf db ->
  try_acquire_execution_lease now id bot inst until db = (db', Ok (Some lease)) ->
  x_operation_id lease = id /\ x_instance_id lease = inst
  /\ (exists l, operation_execution_leases db' !! id = Some l
        /\ l_instance_id l = inst /\ l_lease_generation l = x_lease_generation lease)
  /\ (0 < x_lease_generation lease < 2 ^ 63)%Z
  /\ (forall l, operation_execution_leases db !! id = Some l ->
        (l_lease_generation l < x_lease_generation lease)%Z
        /\ (l_instance_id l = inst \/ text_le (l_lease_until l) now = true)).
Proof.
  intros Hwf. unfold try_acquire_execution_lease, lease_upsert.
  destruct (_ || _); [done |].
  destruct (bridge_operations db !! id) as [op|]; [| done].
  destruct (negb _); [done |].
  destruct (operation_execution_leases db !! id) as [l|] eqn:Hl.
  - destruct (wf_leases _ Hwf _ _ Hl) as [_ Hgen].
    destruct (_ && _) eqn:Hg; [| done]. simpl.
    apply andb_true_iff in Hg as [Hg Hmax%Z.ltb_lt].
    unfold u64_try_from. destruct (Z.leb_spec 0 (l_lease_generation l + 1)); [| done]. simpl.
    destruct (Z.eqb_spec (l_lease_generation l + 1) 0); [done |]. intros [= <- <-]. simpl.
    split_and!; try done; [| lia | lia |].
    + eexists. rewrite lookup_insert_eq. by split_and!.
    + intros l' [= <-]. split; [lia |].
      by apply orb_true_iff in Hg as [Hg%bool_decide_eq_true | Hg]; [left | right].
  - simpl. intros [= <- <-]. simpl. split_and!; try done.
    eexists. rewrite lookup_insert_eq. by split_and!.
Qed.

(** Leases are fenced by generation.  Acquiring an operation's lease needs
    the same instance or a lapsed deadline; it raises the generation above the
    previous holder's, so the previous holder's release no longer removes the
    row, while the new holder's release does. *)
Theorem lease_is_fenced now id bot inst until db db' lease :
  db_wf db ->
  try_acquire_execution_lease now id bot inst until db = (db', Ok (Some lease)) ->
  (forall old l, operation_execution_leases db !! id = Some l ->
     x_operation_id old = id -> x_instance_id old = l_instance_id l ->
     x_lease_generation old = l_lease_generation l ->
     (l_instance_id l = inst \/ text_le (l_lease_until l) now = true)
     /\ release_execution_lease old db' = (db', Ok false))
  /\ exists db'', release_execution_lease lease db' = (db'', Ok true)
       /\ operation_execution_leases db'' !! id = None.
Proof.
  intros Hwf Ha.
  destruct (acquire_inv _ _ _ _ _ _ _ _ Hwf Ha) as (Hid & Hi & (l' & Hl' & Hli & Hlg) & Hg & Hold).
  split.
  - intros old l Hl Ho1 Ho2 Ho3. destruct (Hold _ Hl) as [Hlt Hwhy]. split; [done |].
    unfold release_execution_lease, i64_try_from.
    destruct (Z.ltb_spec (x_lease_generation old) (2 ^ 63)); [| lia].
    rewrite Ho1, Hl', (bool_decide_eq_false_2 (l_lease_generation l' = _)), andb_false_r; [done | lia].
  - unfold release_execution_lease, i64_try_from.
    destruct (Z.ltb_spec (x_lease_generation lease) (2 ^ 63)); [| lia].
    rewrite Hid, Hl', Hi, !bool_decide_eq_true_2 by done. simpl.
    eexists. split; [done |]. simpl. apply lookup_delete_eq.
Qed.

Lemma lease_is_fenced_witness :
  let db := exec (OpAcquireLease "2026-01-01T00:00:00Z" "op-1" "bot" "inst-a"
                    "2026-01-01T00:01:00Z") (move_db (Generated, OcNotStarted)) in
  exists lease db', try_acquire_execution_lease "2026-01-01T00:02:00Z" "op-1" "bot" "inst-b"
           "2026-01-01T00:03:00Z" db = (db', Ok (Some lease))
    /\ exists db'', release_execution_lease lease db' = (db'', Ok true)
       /\ operation_execution_leases db'' !! "op-1" = None.
Proof.
  intros db. eexists _, _. split; [vm_compute; reflexivity |].
  eapply (lease_is_fenced "2026-01-01T00:02:00Z" "op-1" "bot" "inst-b" "2026-01-01T00:03:00Z" db);
    [apply exec_ok; [exact I | apply move_db_wf] | vm_compute; reflexivity].
Defined.

(** A live lease excludes other instances.  While the stored deadline is
    later (as TEXT) than the caller's clock, an acquisition by a different
    instance returns [None] and leaves the database as it was. *)
Theorem live_lease_excludes now id bot inst until db l :
  operation_execution_leases db !! id = Some l ->
  l_instance_id l <> inst -> text_le (l_lease_until l) now = false ->
  is_blank id || is_blank bot || is_blank inst || is_blank until = false ->
  try_acquire_execution_lease now id bot inst until db = (db, Ok None).
Proof.
  intros Hl Hne Hlive Hb. unfold try_acquire_execution_lease, lease_upsert. rewrite Hb.
  destruct (bridge_operations db !! id) as [op|]; [| done].
  destruct (negb _); [done |]. rewrite Hl, Hlive.
  by rewrite bool_decide_eq_false_2.
Qed.

Lemma live_lease_excludes_witness :
  let db := exec (OpAcquireLease "2026-01-01T00:00:00Z" "op-1" "bot" "inst-a"
                    "2026-01-01T00:01:00Z") (move_db (Generated, OcNotStarted)) in
  try_acquire_execution_lease "2026-01-01T00:00:30Z" "op-1" "bot" "inst-b"
    "2026-01-01T00:02:00Z" db = (db, Ok None).
Proof.
  intros db. eapply live_lease_excludes; [vm_compute; reflexivity | discriminate | ..];
    vm_compute; reflexivity.
Defined.
