(* ===== verification/PollerOwnership.v ===== *)
(** * Poller ownership: who may poll and write for a bot

    [src/modules/bridge/poller_ownership.rs]: the ownership records (owner and
    epoch per numeric bot id), the runtime bindings, the registry trait with its
    default methods, and the guard a runtime carries, with its lifecycle. *)

From stdpp Require Import numbers countable.
From S2P Require Import Prelude Errors StDomain.

Inductive PollerOwner : Set := LegacyPlugin | RustBridge.

#[export] Instance PollerOwner_eq_dec : EqDecision PollerOwner.
Proof. solve_decision. Defined.

Definition PollerOwner_as_str (o : PollerOwner) : string :=
  match o with LegacyPlugin => "legacy_plugin" | RustBridge => "rust_bridge" end.

Record PollerOwnershipRecord := {
  own_telegram_bot_id : Z;
  own_owner : PollerOwner;
  own_epoch : Z;
}.

Inductive PollerError : Set :=
| BootstrapClosed | NotRegistered | NotOwner | EpochMismatch | InvalidBotId
| RegistryUnavailable | PollerConflict | LifecycleInvalid.

#[export] Instance PollerError_eq_dec : EqDecision PollerError.
Proof. solve_decision. Defined.

Definition PollerError_as_str (e : PollerError) : string :=
  match e with
  | BootstrapClosed => "poller bootstrap closed"
  | NotRegistered => "poller not registered for numeric bot id"
  | NotOwner => "poller not owner for numeric bot id"
  | EpochMismatch => "poller epoch mismatch for numeric bot id"
  | InvalidBotId => "invalid numeric bot id"
  | RegistryUnavailable => "poller ownership registry unavailable"
  | PollerConflict => "poller ownership conflict"
  | LifecycleInvalid => "poller runtime lifecycle is not writable"
  end.

Inductive PollerLifecycle : Set := Starting | Running | Draining | Stopped.

#[export] Instance PollerLifecycle_eq_dec : EqDecision PollerLifecycle.
Proof. solve_decision. Defined.

Definition can_own (l : PollerLifecycle) : bool :=
  match l with Starting | Running => true | _ => false end.

Definition accepts_writes (l : PollerLifecycle) : bool :=
  match l with Running => true | _ => false end.

Record PollerRuntimeBinding := {
  b_internal_bot_id : string;
  b_runtime_instance_id : string;
  b_epoch : Z;
  b_lifecycle : PollerLifecycle;
}.

Definition PollerRuntimeBinding_new (internal_bot_id runtime_instance_id : string)
    (epoch : Z) : PollerRuntimeBinding :=
  {| b_internal_bot_id := internal_bot_id; b_runtime_instance_id := runtime_instance_id;
     b_epoch := epoch; b_lifecycle := Starting |}.

(** ** The in-memory registry *)

Record MemoryPollerRegistry := {
  reg_records : gmap Z PollerOwnershipRecord;
  reg_bindings : gmap Z PollerRuntimeBinding;
  reg_bootstrapped : bool;
}.

Definition empty_registry : MemoryPollerRegistry :=
  {| reg_records := ∅; reg_bindings := ∅; reg_bootstrapped := false |}.

Notation PResult A := (result A PollerError).

Definition require_numeric_bot_id (telegram_bot_id : Z) : PResult unit :=
  if (telegram_bot_id <=? 0)%Z then Err InvalidBotId else Ok tt.

(** [u64::checked_add]. *)
Definition checked_add_u64 (a b : Z) : option Z :=
  if (a + b <? 2 ^ 64)%Z then Some (a + b)%Z else None.

(** A fallible registry method that writes returns the registry unchanged when
    it returns early. *)
Definition bootstrap_legacy (bot : Z) (reg : MemoryPollerRegistry)
    : MemoryPollerRegistry * PResult PollerOwnershipRecord :=
  match require_numeric_bot_id bot with
  | Err e => (reg, Err e)
  | Ok _ =>
      if reg_bootstrapped reg || negb (bool_decide (reg_records reg = ∅))
      then (reg, Err BootstrapClosed)
      else
        let record :=
          {| own_telegram_bot_id := bot; own_owner := LegacyPlugin; own_epoch := 1 |} in
        ({| reg_records := <[bot := record]> (reg_records reg);
            reg_bindings := reg_bindings reg; reg_bootstrapped := true |}, Ok record)
  end.

Definition mem_assert_can_start (bot : Z) (runtime_owner : PollerOwner)
    (runtime_epoch : Z) (reg : MemoryPollerRegistry) : PResult unit :=
  let? _ := require_numeric_bot_id bot in
  let? record := ok_or (reg_records reg !! bot) NotRegistered in
  if negb (own_owner record =?= runtime_owner) then Err NotOwner else
  if negb (own_epoch record =?= runtime_epoch) then Err EpochMismatch else
  Ok tt.

Definition mem_heartbeat (bot : Z) (owner : PollerOwner) (epoch : Z)
    (reg : MemoryPollerRegistry) : PResult unit :=
  mem_assert_can_start bot owner epoch reg.

(** The checks of [transfer] and the record it would store. *)
Definition transfer_record (bot : Z) (expected_owner : PollerOwner) (expected_epoch : Z)
    (new_owner : PollerOwner) (reg : MemoryPollerRegistry) : PResult PollerOwnershipRecord :=
  let? _ := require_numeric_bot_id bot in
  let? record := ok_or (reg_records reg !! bot) NotRegistered in
  if negb (own_owner record =?= expected_owner) then Err NotOwner else
  if negb (own_epoch record =?= expected_epoch) then Err EpochMismatch else
  if new_owner =?= own_owner record then Err NotOwner else
  let? epoch := ok_or (checked_add_u64 (own_epoch record) 1) PollerConflict in
  Ok {| own_telegram_bot_id := bot; own_owner := new_owner; own_epoch := epoch |}.

Definition transfer (bot : Z) (expected_owner : PollerOwner) (expected_epoch : Z)
    (new_owner : PollerOwner) (reg : MemoryPollerRegistry)
    : MemoryPollerRegistry * PResult PollerOwnershipRecord :=
  match transfer_record bot expected_owner expected_epoch new_owner reg with
  | Err e => (reg, Err e)
  | Ok updated =>
      ({| reg_records := <[bot := updated]> (reg_records reg);
          reg_bindings := reg_bindings reg;
          reg_bootstrapped := reg_bootstrapped reg |}, Ok updated)
  end.

Definition claim_runtime_check (bot : Z) (binding : PollerRuntimeBinding)
    (reg : MemoryPollerRegistry) : PResult unit :=
  let? _ := require_numeric_bot_id bot in
  if negb (can_own (b_lifecycle binding))
     || is_blank (b_internal_bot_id binding)
     || is_blank (b_runtime_instance_id binding)
  then Err LifecycleInvalid else
  let? _ := mem_assert_can_start bot RustBridge (b_epoch binding) reg in
  if bool_decide (is_Some (reg_bindings reg !! bot)) then Err PollerConflict else Ok tt.

Definition mem_claim_runtime (bot : Z) (binding : PollerRuntimeBinding)
    (reg : MemoryPollerRegistry) : MemoryPollerRegistry * PResult unit :=
  match claim_runtime_check bot binding reg with
  | Err e => (reg, Err e)
  | Ok _ =>
      ({| reg_records := reg_records reg;
          reg_bindings := <[bot := binding]> (reg_bindings reg);
          reg_bootstrapped := reg_bootstrapped reg |}, Ok tt)
  end.

Definition release_runtime_check (bot : Z) (runtime_instance_id : string)
    (reg : MemoryPollerRegistry) : PResult unit :=
  let? _ := require_numeric_bot_id bot in
  let? binding := ok_or (reg_bindings reg !! bot) NotRegistered in
  if negb (b_runtime_instance_id binding =?= runtime_instance_id)
  then Err NotOwner else Ok tt.

Definition mem_release_runtime (bot : Z) (runtime_instance_id : string)
    (reg : MemoryPollerRegistry) : MemoryPollerRegistry * PResult unit :=
  match release_runtime_check bot runtime_instance_id reg with
  | Err e => (reg, Err e)
  | Ok _ =>
      ({| reg_records := reg_records reg;
          reg_bindings := delete bot (reg_bindings reg);
          reg_bootstrapped := reg_bootstrapped reg |}, Ok tt)
  end.

(** [SharedMemoryPollerRegistry::assert_fence]. *)
Definition mem_assert_fence (bot : Z) (owner : PollerOwner)
    (binding : PollerRuntimeBinding) (reg : MemoryPollerRegistry) : PResult unit :=
  if negb (accepts_writes (b_lifecycle binding)) then Err LifecycleInvalid else
  let? _ := mem_assert_can_start bot owner (b_epoch binding) reg in
  let? current := ok_or (reg_bindings reg !! bot) NotRegistered in
  if negb (b_internal_bot_id current =?= b_internal_bot_id binding)
     || negb (b_runtime_instance_id current =?= b_runtime_instance_id binding)
  then Err PollerConflict else
  if negb (b_epoch current =?= b_epoch binding) then Err EpochMismatch else Ok tt.

Definition mem_get_ownership (bot : Z) (reg : MemoryPollerRegistry)
    : PResult (option PollerOwnershipRecord) :=
  let? _ := require_numeric_bot_id bot in Ok (reg_records reg !! bot).

(** ** The registry trait

    [PollerOwnershipRegistry]: a registry state [R] with its methods, and the
    law its clients rely on: a passed fence is a passed ownership check of a
    writable runtime. *)

Class PollerOwnershipRegistry (R : Type) := {
  get_ownership : Z -> R -> PResult (option PollerOwnershipRecord);
  assert_can_start : Z -> PollerOwner -> Z -> R -> PResult unit;
  heartbeat : Z -> PollerOwner -> Z -> R -> PResult unit;
  assert_fence : Z -> PollerOwner -> PollerRuntimeBinding -> R -> PResult unit;
  claim_runtime : Z -> PollerRuntimeBinding -> R -> R * PResult unit;
  release_runtime : Z -> string -> R -> R * PResult unit;
  assert_fence_ok : forall bot owner b r,
    assert_fence bot owner b r = Ok tt ->
    assert_can_start bot owner (b_epoch b) r = Ok tt /\ b_lifecycle b = Running;
}.

(** The trait's default methods, for a registry that only has the ownership
    checks. *)
Section Defaults.
Context {R : Type} (can_start : Z -> PollerOwner -> Z -> R -> PResult unit).

Definition default_assert_fence (bot : Z) (owner : PollerOwner)
    (binding : PollerRuntimeBinding) (r : R) : PResult unit :=
  if is_blank (b_internal_bot_id binding) || is_blank (b_runtime_instance_id binding)
  then Err PollerConflict else
  if (b_epoch binding =? 0)%Z || negb (accepts_writes (b_lifecycle binding))
  then Err LifecycleInvalid else
  can_start bot owner (b_epoch binding) r.

Definition default_claim_runtime (bot : Z) (binding : PollerRuntimeBinding) (r : R)
    : R * PResult unit :=
  (r,
   if is_blank (b_internal_bot_id binding) || is_blank (b_runtime_instance_id binding)
      || (b_epoch binding =? 0)%Z || negb (can_own (b_lifecycle binding))
   then Err LifecycleInvalid
   else can_start bot RustBridge (b_epoch binding) r).

Definition default_release_runtime (bot : Z) (runtime_instance_id : string) (r : R)
    : R * PResult unit := (r, Err RegistryUnavailable).

Lemma default_assert_fence_ok bot owner b r :
  default_assert_fence bot owner b r = Ok tt ->
  can_start bot owner (b_epoch b) r = Ok tt /\ b_lifecycle b = Running.
Proof.
  unfold default_assert_fence. destruct (_ || _); [done |].
  destruct (b_epoch b =? 0)%Z; [done |]. by destruct (b_lifecycle b).
Qed.
End Defaults.

Lemma mem_assert_fence_inv bot owner b reg :
  mem_assert_fence bot owner b reg = Ok tt ->
  b_lifecycle b = Running /\ mem_assert_can_start bot owner (b_epoch b) reg = Ok tt
  /\ exists current, reg_bindings reg !! bot = Some current
     /\ b_internal_bot_id current = b_internal_bot_id b
     /\ b_runtime_instance_id current = b_runtime_instance_id b
     /\ b_epoch current = b_epoch b.
Proof.
  unfold mem_assert_fence. destruct (b_lifecycle b); simpl; try done.
  destruct (mem_assert_can_start bot owner (b_epoch b) reg) as [[]|]; [| done].
  destruct (reg_bindings reg !! bot) as [cur|]; simpl; [| done].
  repeat (case_bool_decide; simpl; [| done]). naive_solver.
Qed.

#[export] Program Instance SharedMemoryPollerRegistry : PollerOwnershipRegistry MemoryPollerRegistry :=
  {| get_ownership := mem_get_ownership;
     assert_can_start := mem_assert_can_start;
     heartbeat := mem_heartbeat;
     assert_fence := mem_assert_fence;
     claim_runtime := mem_claim_runtime;
     release_runtime := mem_release_runtime |}.
Next Obligation. intros bot owner b r (? & ? & _)%mem_assert_fence_inv. done. Qed.

(** ** The guard

    [lifecycle_state] is an [Arc<RwLock<..>>] shared by the guard's clones: the
    model keeps its content in the guard.  Its lock is never poisoned (no code
    panics while holding it), so reads and writes of it succeed. *)

Record PollerOwnershipGuard := {
  g_numeric_bot_id : Z;
  g_owner : PollerOwner;
  g_epoch : Z;
  g_internal_bot_id : string;
  g_runtime_instance_id : string;
  g_lifecycle : PollerLifecycle;
  g_lifecycle_state : PollerLifecycle;
}.

Definition guard_new `{IdSource} (numeric_bot_id : Z) (owner : PollerOwner) (epoch : Z)
    : PollerOwnershipGuard :=
  {| g_numeric_bot_id := numeric_bot_id; g_owner := owner; g_epoch := epoch;
     g_internal_bot_id := ""; g_runtime_instance_id := new_id;
     g_lifecycle := Starting; g_lifecycle_state := Starting |}.

Definition guard_new_with_binding (numeric_bot_id : Z) (owner : PollerOwner)
    (binding : PollerRuntimeBinding) : PollerOwnershipGuard :=
  {| g_numeric_bot_id := numeric_bot_id; g_owner := owner; g_epoch := b_epoch binding;
     g_internal_bot_id := b_internal_bot_id binding;
     g_runtime_instance_id := b_runtime_instance_id binding;
     g_lifecycle := b_lifecycle binding; g_lifecycle_state := b_lifecycle binding |}.

Definition current_lifecycle (g : PollerOwnershipGuard) : PollerLifecycle :=
  g_lifecycle_state g.

Definition set_lifecycle_state (l : PollerLifecycle) (g : PollerOwnershipGuard)
    : PollerOwnershipGuard :=
  {| g_numeric_bot_id := g_numeric_bot_id g; g_owner := g_owner g; g_epoch := g_epoch g;
     g_internal_bot_id := g_internal_bot_id g;
     g_runtime_instance_id := g_runtime_instance_id g;
     g_lifecycle := g_lifecycle g; g_lifecycle_state := l |}.

Definition guard_binding (internal_bot_id : string) (g : PollerOwnershipGuard)
    : PollerRuntimeBinding :=
  {| b_internal_bot_id :=
       if is_blank internal_bot_id then g_internal_bot_id g else internal_bot_id;
     b_runtime_instance_id := g_runtime_instance_id g;
     b_epoch := g_epoch g; b_lifecycle := current_lifecycle g |}.

Definition runtime_fence (g : PollerOwnershipGuard) : option PollerRuntimeFence :=
  if negb (g_owner g =?= RustBridge)
     || negb (current_lifecycle g =?= Running)
     || (g_numeric_bot_id g <=? 0)%Z
     || (g_epoch g =? 0)%Z
     || is_blank (g_internal_bot_id g)
     || is_blank (g_runtime_instance_id g)
  then None
  else Some {| f_telegram_bot_id := g_numeric_bot_id g;
               f_owner := PollerOwner_as_str (g_owner g);
               f_epoch := g_epoch g;
               f_internal_bot_id := g_internal_bot_id g;
               f_runtime_instance_id := g_runtime_instance_id g |}.

Definition begin_draining (g : PollerOwnershipGuard)
    : PollerOwnershipGuard * PResult unit :=
  match g_lifecycle_state g with
  | Starting | Running => (set_lifecycle_state Draining g, Ok tt)
  | Draining => (g, Ok tt)
  | Stopped => (g, Err LifecycleInvalid)
  end.

Definition mark_stopped (g : PollerOwnershipGuard) : PollerOwnershipGuard * PResult unit :=
  match g_lifecycle_state g with
  | Draining | Stopped => (set_lifecycle_state Stopped g, Ok tt)
  | _ => (g, Err LifecycleInvalid)
  end.

Section GuardOps.
Context {R : Type} `{PollerOwnershipRegistry R}.

Definition guard_claim_runtime (g : PollerOwnershipGuard) (r : R) : R * PResult unit :=
  claim_runtime (g_numeric_bot_id g) (guard_binding "" g) r.

Definition guard_release_runtime (g : PollerOwnershipGuard) (r : R) : R * PResult unit :=
  match current_lifecycle g with
  | Draining | Stopped =>
      release_runtime (g_numeric_bot_id g) (g_runtime_instance_id g) r
  | _ => (r, Err LifecycleInvalid)
  end.

(** [assert_valid], also called [assert_generation_fence] and
    [assert_commit_fence]. *)
Definition assert_valid (g : PollerOwnershipGuard) (r : R) : PResult unit :=
  assert_fence (g_numeric_bot_id g) (g_owner g) (guard_binding "" g) r.

Definition guard_heartbeat (g : PollerOwnershipGuard) (r : R) : PResult unit :=
  heartbeat (g_numeric_bot_id g) (g_owner g) (g_epoch g) r.

(** Proved against the trait: a guard that passes its fence is running, owns
    the bot at its epoch, and, if it is a bridge guard with an identity, has
    a runtime fence to send along. *)
Lemma assert_valid_ok g r :
  assert_valid g r = Ok tt ->
  current_lifecycle g = Running
  /\ assert_can_start (g_numeric_bot_id g) (g_owner g) (g_epoch g) r = Ok tt.
Proof. intros [Hs Hl]%assert_fence_ok. done. Qed.
End GuardOps.

(** ** Commands on the registry *)

Inductive RegistryOp : Type :=
| RBootstrap (bot : Z)
| RTransfer (bot : Z) (expected_owner : PollerOwner) (expected_epoch : Z)
    (new_owner : PollerOwner)
| RClaim (bot : Z) (binding : PollerRuntimeBinding)
| RRelease (bot : Z) (instance : string).

Definition reg_exec (op : RegistryOp) (reg : MemoryPollerRegistry) : MemoryPollerRegistry :=
  match op with
  | RBootstrap bot => fst (bootstrap_legacy bot reg)
  | RTransfer bot o e n => fst (transfer bot o e n reg)
  | RClaim bot b => fst (mem_claim_runtime bot b reg)
  | RRelease bot i => fst (mem_release_runtime bot i reg)
  end.

Definition reg_run (ops : list RegistryOp) (reg : MemoryPollerRegistry) : MemoryPollerRegistry :=
  foldl (λ r op, reg_exec op r) reg ops.

(** Every record: key, positive bot id, epoch a positive [u64]. *)
Definition reg_wf (reg : MemoryPollerRegistry) : Prop :=
  forall bot rec, reg_records reg !! bot = Some rec ->
    own_telegram_bot_id rec = bot /\ (0 < bot)%Z /\ (0 < own_epoch rec < 2 ^ 64)%Z.

(** Records persist; the epoch never falls, and rises whenever the owner
    changes. *)
Definition reg_mono (a b : MemoryPollerRegistry) : Prop :=
  (reg_bootstrapped a = true -> reg_bootstrapped b = true)
  /\ forall bot rec, reg_records a !! bot = Some rec ->
       exists rec', reg_records b !! bot = Some rec'
         /\ (own_epoch rec <= own_epoch rec')%Z
         /\ (own_epoch rec = own_epoch rec' -> own_owner rec = own_owner rec').

Lemma reg_mono_refl a : reg_mono a a.
Proof. split; [done |]. intros bot rec Hr. exists rec. split_and!; [done | lia | done]. Qed.

Lemma reg_mono_trans a b c : reg_mono a b -> reg_mono b c -> reg_mono a c.
Proof.
  intros [Hb Hab] [Hb' Hbc]. split; [auto |]. intros bot rec Hr.
  destruct (Hab _ _ Hr) as (rec' & Hr' & Hle & Ho).
  destruct (Hbc _ _ Hr') as (rec'' & Hr'' & Hle' & Ho'). exists rec''.
  split_and!; [done | lia |]. intros He. rewrite Ho, Ho' by lia. done.
Qed.

Lemma transfer_inv bot o e n reg reg' rec' :
  transfer bot o e n reg = (reg', Ok rec') ->
  exists rec, reg_records reg !! bot = Some rec /\ own_owner rec = o /\ own_epoch rec = e
    /\ n <> o /\ (0 < bot)%Z /\ (e + 1 < 2 ^ 64)%Z
    /\ rec' = {| own_telegram_bot_id := bot; own_owner := n; own_epoch := e + 1 |}
    /\ reg_records reg' = <[bot := rec']> (reg_records reg)
    /\ reg_bindings reg' = reg_bindings reg
    /\ reg_bootstrapped reg' = reg_bootstrapped reg.
Proof.
  unfold transfer, transfer_record, require_numeric_bot_id, checked_add_u64.
  destruct (Z.leb_spec bot 0); [done |].
  destruct (reg_records reg !! bot) as [rec|]; simpl; [| done].
  case_bool_decide; simpl; [| done]. case_bool_decide; simpl; [| done].
  case_bool_decide; simpl; [done |].
  destruct (Z.ltb_spec (own_epoch rec + 1) (2 ^ 64)); simpl; [| done].
  intros [= <- <-]. exists rec. simpl. subst. split_and!; done.
Qed.

Lemma transfer_err bot o e n reg reg' err :
  transfer bot o e n reg = (reg', Err err) -> reg' = reg.
Proof. unfold transfer. destruct (transfer_record bot o e n reg); congruence. Qed.

Lemma reg_exec_records_same op reg :
  match op with RClaim _ _ | RRelease _ _ => True | _ => False end ->
  reg_records (reg_exec op reg) = reg_records reg
  /\ reg_bootstrapped (reg_exec op reg) = reg_bootstrapped reg.
Proof.
  destruct op as [| | bot b | bot i]; try done; intros _; simpl.
  - unfold mem_claim_runtime. by destruct (claim_runtime_check bot b reg).
  - unfold mem_release_runtime. by destruct (release_runtime_check bot i reg).
Qed.

Lemma reg_exec_ok op reg : reg_wf reg -> reg_wf (reg_exec op reg) /\ reg_mono reg (reg_exec op reg).
Proof.
  intros Hwf. destruct op as [bot | bot o e n | bot b | bot i].
  - simpl. unfold bootstrap_legacy, require_numeric_bot_id.
    destruct (Z.leb_spec bot 0); [by auto using reg_mono_refl |].
    destruct (reg_bootstrapped reg) eqn:Hb; simpl; [by auto using reg_mono_refl |].
    case_bool_decide as He; simpl; [| by auto using reg_mono_refl]. split.
    + intros i rec. simpl. rewrite He, lookup_insert. case_decide; [| by rewrite lookup_empty].
      intros [= <-]. simpl. subst. split_and!; lia.
    + split; [done |]. intros i rec. by rewrite He, lookup_empty.
  - simpl. destruct (transfer bot o e n reg) as [reg' [rec'|err]] eqn:Ht;
      [| apply transfer_err in Ht as ->; by auto using reg_mono_refl].
    apply transfer_inv in Ht as (rec & Hr & Ho & He & Hne & Hbot & Hmax & -> & Hrs & _ & Hbs).
    destruct (Hwf _ _ Hr) as (_ & _ & Hpos). simpl. split.
    + intros i x. rewrite Hrs, lookup_insert. case_decide; [| apply Hwf].
      intros [= <-]. simpl. subst. split_and!; lia.
    + split; [by rewrite Hbs |]. intros i x Hx. rewrite Hrs, lookup_insert.
      case_decide; [| exists x; split_and!; [done | lia | done]].
      subst. eexists. split; [done |]. simpl. assert (x = rec) as -> by congruence. split; lia.
  - destruct (reg_exec_records_same (RClaim bot b) reg I) as [Hr Hb].
    unfold reg_wf, reg_mono. rewrite Hr, Hb. split; [done | apply reg_mono_refl].
  - destruct (reg_exec_records_same (RRelease bot i) reg I) as [Hr Hb].
    unfold reg_wf, reg_mono. rewrite Hr, Hb. split; [done | apply reg_mono_refl].
Qed.

Lemma reg_run_ok ops reg : reg_wf reg -> reg_wf (reg_run ops reg) /\ reg_mono reg (reg_run ops reg).
Proof.
  revert reg. induction ops as [|op ops IH]; intros reg Hwf; simpl.
  - by auto using reg_mono_refl.
  - destruct (reg_exec_ok op reg Hwf) as [Hwf' Hm]. destruct (IH _ Hwf') as [Hwf'' Hm'].
    split; [done | by eapply reg_mono_trans].
Qed.

Lemma empty_registry_wf : reg_wf empty_registry.
Proof. intros bot rec. simpl. by rewrite lookup_empty. Qed.

(** ** What ownership guarantees *)

Lemma can_start_inv bot o e reg :
  mem_assert_can_start bot o e reg = Ok tt ->
  exists rec, reg_records reg !! bot = Some rec /\ own_owner rec = o /\ own_epoch rec = e.
Proof.
  unfold mem_assert_can_start, require_numeric_bot_id.
  destruct (bot <=? 0)%Z; [done |].
  destruct (reg_records reg !! bot) as [rec|]; simpl; [| done].
  repeat (case_bool_decide; simpl; [| done]). eauto.
Qed.

(** Ownership is bootstrapped once.  After a successful bootstrap no
    sequence of registry calls makes another bootstrap possible: it always fails
    and leaves the registry unchanged, so a poller can never claim a bot
    automatically later. *)
Theorem bootstrap_happens_once bot reg reg' rec ops bot' :
  reg_wf reg -> bootstrap_legacy bot reg = (reg', Ok rec) ->
  exists e, bootstrap_legacy bot' (reg_run ops reg') = (reg_run ops reg', Err e).
Proof.
  intros Hwf Hb. assert (reg_bootstrapped reg' = true) as Hbs.
  { unfold bootstrap_legacy in Hb. destruct (require_numeric_bot_id bot); [| done].
    destruct (_ || _); [done |]. by injection Hb as <- _. }
  destruct (reg_exec_ok (RBootstrap bot) reg Hwf) as [Hwf' _]. simpl in Hwf'.
  rewrite Hb in Hwf'. destruct (reg_run_ok ops reg' Hwf') as [_ [Hm _]].
  unfold bootstrap_legacy. rewrite (Hm Hbs). simpl.
  destruct (require_numeric_bot_id bot'); eauto.
Qed.

Lemma bootstrap_happens_once_witness :
  exists reg' rec, bootstrap_legacy 42 empty_registry = (reg', Ok rec)
    /\ exists e, bootstrap_legacy 43 (reg_run [RTransfer 42 LegacyPlugin 1 RustBridge] reg')
         = (reg_run [RTransfer 42 LegacyPlugin 1 RustBridge] reg', Err e).
Proof.
  eexists _, _. split; [reflexivity |].
  eapply (bootstrap_happens_once 42 empty_registry); [apply empty_registry_wf | reflexivity].
Defined.

(** A transfer fences off every older epoch.  Once ownership of a bot has
    been transferred from epoch [e], no guard of that bot with epoch at most [e]
    passes its fence again, whatever registry calls follow: the epoch is raised
    by the transfer, never falls, and does not wrap at the [u64] limit. *)
Theorem stale_epoch_is_fenced_off bot o e n reg reg' rec ops g :
  reg_wf reg -> transfer bot o e n reg = (reg', Ok rec) ->
  g_numeric_bot_id g = bot -> (g_epoch g <= e)%Z ->
  exists err, assert_valid g (reg_run ops reg') = Err err.
Proof.
  intros Hwf Ht Hg He.
  destruct (reg_exec_ok (RTransfer bot o e n) reg Hwf) as [Hwf' _]. simpl in Hwf'.
  rewrite Ht in Hwf'. simpl in Hwf'.
  apply transfer_inv in Ht as (rec0 & _ & _ & _ & _ & _ & _ & -> & Hrs & _).
  destruct (reg_run_ok ops reg' Hwf') as [_ [_ Hm]].
  destruct (Hm bot {| own_telegram_bot_id := bot; own_owner := n; own_epoch := e + 1 |})
    as (rec' & Hr' & Hle & _); [rewrite Hrs; apply lookup_insert_eq |]. simpl in Hle.
  destruct (assert_valid g (reg_run ops reg')) as [[]|err] eqn:Hv; [| eauto].
  apply assert_valid_ok in Hv as [_ Hv]. apply can_start_inv in Hv as (rec & Hr & _ & Hep).
  rewrite Hg, Hr' in Hr. injection Hr as <-. lia.
Qed.

Definition demo_binding : PollerRuntimeBinding :=
  {| b_internal_bot_id := "bot"; b_runtime_instance_id := "inst-1"; b_epoch := 2;
     b_lifecycle := Running |}.

Definition demo_registry : MemoryPollerRegistry :=
  reg_run [RBootstrap 42; RTransfer 42 LegacyPlugin 1 RustBridge; RClaim 42 demo_binding]
    empty_registry.

Definition demo_guard : PollerOwnershipGuard :=
  guard_new_with_binding 42 RustBridge demo_binding.

Example demo_guard_valid : assert_valid demo_guard demo_registry = Ok tt.
Proof. vm_compute. reflexivity. Qed.

Lemma stale_epoch_is_fenced_off_witness :
  exists reg' rec, transfer 42 RustBridge 2 LegacyPlugin demo_registry = (reg', Ok rec)
    /\ exists err, assert_valid demo_guard
         (reg_run [RTransfer 42 LegacyPlugin 3 RustBridge] reg') = Err err.
Proof.
  eexists _, _. split; [vm_compute; reflexivity |].
  eapply (stale_epoch_is_fenced_off 42 RustBridge 2 LegacyPlugin demo_registry);
    [apply reg_run_ok, empty_registry_wf | vm_compute; reflexivity | reflexivity |].
  vm_compute. discriminate.
Defined.

(** The runtime fence is exclusive.  Two guards of the same bot that both
    pass their fence on the same registry are the same runtime: same owner,
    epoch, internal bot id and runtime instance, and both are running; and while
    a guard passes, no other binding can be claimed for the bot. *)
Theorem fence_is_exclusive g1 g2 (reg : MemoryPollerRegistry) b :
  g_numeric_bot_id g1 = g_numeric_bot_id g2 ->
  assert_valid g1 reg = Ok tt -> assert_valid g2 reg = Ok tt ->
  g_owner g1 = g_owner g2 /\ g_epoch g1 = g_epoch g2
  /\ g_internal_bot_id g1 = g_internal_bot_id g2
  /\ g_runtime_instance_id g1 = g_runtime_instance_id g2
  /\ current_lifecycle g1 = Running /\ current_lifecycle g2 = Running
  /\ exists e, claim_runtime (g_numeric_bot_id g1) b reg = (reg, Err e).
Proof.
  intros Hbot H1 H2. unfold assert_valid in H1, H2. simpl in H1, H2.
  apply mem_assert_fence_inv in H1 as (Hl1 & Hs1 & c1 & Hc1 & Hi1 & Hr1 & He1).
  apply mem_assert_fence_inv in H2 as (Hl2 & Hs2 & c2 & Hc2 & Hi2 & Hr2 & He2).
  apply can_start_inv in Hs1 as (r1 & Hr1' & Ho1 & _), Hs2 as (r2 & Hr2' & Ho2 & _).
  rewrite <- Hbot in *. simpl in *. simplify_eq.
  split_and!; try congruence.
  unfold mem_claim_runtime, claim_runtime_check. rewrite Hc1.
  destruct (require_numeric_bot_id _); simpl; [| eauto].
  destruct (_ || _); [eauto |].
  destruct (mem_assert_can_start _ _ _ reg); eauto.
Qed.

Lemma fence_is_exclusive_witness :
  exists e, claim_runtime 42 demo_binding demo_registry = (demo_registry, Err e).
Proof.
  apply (fence_is_exclusive demo_guard demo_guard demo_registry demo_binding eq_refl);
    vm_compute; reflexivity.
Defined.

(** The fence a guard sends with a write is one the payload validation
    accepts: a runtime fence (of a guard with a [u64] epoch) is always valid and
    exists only while the guard is running; after [begin_draining] succeeds there
    is no fence, the registry rejects the guard, and releasing becomes legal. *)
Theorem draining_closes_writes g :
  (0 <= g_epoch g)%Z ->
  (forall f, runtime_fence g = Some f ->
     fence_is_valid f = true /\ current_lifecycle g = Running
     /\ f_internal_bot_id f = g_internal_bot_id g)
  /\ (forall g' (reg : MemoryPollerRegistry), begin_draining g = (g', Ok tt) ->
        runtime_fence g' = None
        /\ assert_valid g' reg = Err LifecycleInvalid
        /\ guard_release_runtime g' reg
           = release_runtime (g_numeric_bot_id g) (g_runtime_instance_id g) reg).
Proof.
  intros Hep. split.
  - intros f. unfold runtime_fence.
    destruct (bool_decide_reflect (g_owner g = RustBridge)) as [Ho|]; simpl; [| done].
    destruct (bool_decide_reflect (current_lifecycle g = Running)) as [Hl|]; simpl; [| done].
    destruct (Z.leb_spec (g_numeric_bot_id g) 0); simpl; [done |].
    destruct (Z.eqb_spec (g_epoch g) 0); simpl; [done |].
    destruct (is_blank (g_internal_bot_id g)) eqn:Hi; simpl; [done |].
    destruct (is_blank (g_runtime_instance_id g)) eqn:Hr; simpl; [done |].
    intros [= <-]. unfold fence_is_valid. simpl. rewrite Hi, Hr, Ho. split_and!; try done.
    destruct (Z.ltb_spec 0 (g_numeric_bot_id g)), (Z.ltb_spec 0 (g_epoch g)); lia || done.
  - intros g' reg. unfold begin_draining.
    assert (forall h, g_lifecycle_state h = Draining ->
              runtime_fence h = None /\ assert_valid h reg = Err LifecycleInvalid
              /\ guard_release_runtime h reg
                 = release_runtime (g_numeric_bot_id h) (g_runtime_instance_id h) reg) as Hd.
    { intros h Hh. unfold runtime_fence, guard_release_runtime, assert_valid, current_lifecycle.
      simpl. unfold mem_assert_fence, guard_binding, current_lifecycle. simpl. rewrite Hh.
      split_and!; [| done | done]. by rewrite orb_true_r. }
    destruct (g_lifecycle_state g) eqn:Hg; intros [= <-].
    + exact (Hd (set_lifecycle_state Draining g) eq_refl).
    + exact (Hd (set_lifecycle_state Draining g) eq_refl).
    + exact (Hd g Hg).
Qed.

Lemma draining_closes_writes_witness :
  exists f, runtime_fence demo_guard = Some f /\ fence_is_valid f = true.
Proof.
  eexists. split; [vm_compute; reflexivity |].
  eapply (proj1 (draining_closes_writes demo_guard ltac:(vm_compute; discriminate))).
  vm_compute. reflexivity.
Defined.
