(* ===== verification/Journal.v ===== *)
(** * Operation journals

    [src/modules/bridge/connector_journal.rs], the connector's own record of
    which mutations it prepared and applied, and
    [src/seams/st_operation_journal.rs], the read-only view of it that recovery
    uses, with its in-memory and its fail-closed implementation. *)

From S2P Require Import Prelude Errors.

(** ** The connector's journal *)

Module ConnectorJournal.

Inductive ConnectorJournalStatus : Set := Prepared | Applied | Failed | Unknown.

#[export] Instance ConnectorJournalStatus_eq_dec : EqDecision ConnectorJournalStatus.
Proof. solve_decision. Defined.

Record ConnectorJournalRecord := {
cj_operation_id : string;
cj_locator_hash : string;
cj_mutation_digest : string;
cj_status : ConnectorJournalStatus;
cj_before_sha256 : option string;
cj_after_sha256 : option string;
cj_before_integrity : option string;
cj_after_integrity : option string;
}.

#[export] Instance ConnectorJournalRecord_eq_dec : EqDecision ConnectorJournalRecord.
Proof. solve_decision. Defined.

Inductive JournalError : Set :=
DuplicatePrepare | InvalidTransition | OperationIdReused | Missing | JConflict.

Inductive ReplayOutcome : Set :=
| AlreadyApplied
| Continue (status : ConnectorJournalStatus)
| FailedTerminal
| NotFound.

Notation MemoryConnectorJournal := (gmap string ConnectorJournalRecord).

Definition with_cj_status (s : ConnectorJournalStatus) (r : ConnectorJournalRecord)
  : ConnectorJournalRecord :=
{| cj_operation_id := cj_operation_id r; cj_locator_hash := cj_locator_hash r;
   cj_mutation_digest := cj_mutation_digest r; cj_status := s;
   cj_before_sha256 := cj_before_sha256 r; cj_after_sha256 := cj_after_sha256 r;
   cj_before_integrity := cj_before_integrity r;
   cj_after_integrity := cj_after_integrity r |}.

Definition with_cj_after (sha integrity : string) (r : ConnectorJournalRecord)
  : ConnectorJournalRecord :=
{| cj_operation_id := cj_operation_id r; cj_locator_hash := cj_locator_hash r;
   cj_mutation_digest := cj_mutation_digest r; cj_status := cj_status r;
   cj_before_sha256 := cj_before_sha256 r; cj_after_sha256 := Some sha;
   cj_before_integrity := cj_before_integrity r; cj_after_integrity := Some integrity |}.

Definition prepare (record : ConnectorJournalRecord) (j : MemoryConnectorJournal)
  : MemoryConnectorJournal * result unit JournalError :=
if bool_decide (is_Some (j !! cj_operation_id record)) then (j, Err DuplicatePrepare)
else if negb (cj_status record =?= Prepared) || (cj_locator_hash record =?= "")
        || (cj_mutation_digest record =?= "")
then (j, Err InvalidTransition)
else (<[cj_operation_id record := record]> j, Ok tt).

Definition mark_applied (operation_id after_sha256 after_integrity : string)
  (j : MemoryConnectorJournal)
  : MemoryConnectorJournal * result ConnectorJournalStatus JournalError :=
match j !! operation_id with
| None => (j, Err Missing)
| Some record =>
    match cj_status record with
    | Applied =>
        if (cj_after_sha256 record =?= Some after_sha256)
           && (cj_after_integrity record =?= Some after_integrity)
        then (j, Ok Applied) else (j, Err JConflict)
    | Prepared | Unknown =>
        (<[operation_id :=
             with_cj_status Applied (with_cj_after after_sha256 after_integrity record)]> j,
         Ok Applied)
    | Failed => (j, Err InvalidTransition)
    end
end.

Definition mark_failed (operation_id : string) (j : MemoryConnectorJournal)
  : MemoryConnectorJournal * result unit JournalError :=
match j !! operation_id with
| None => (j, Err Missing)
| Some record =>
    match cj_status record with
    | Prepared | Unknown => (<[operation_id := with_cj_status Failed record]> j, Ok tt)
    | Applied | Failed => (j, Err InvalidTransition)
    end
end.

Definition mark_unknown (operation_id : string) (j : MemoryConnectorJournal)
  : MemoryConnectorJournal * result unit JournalError :=
match j !! operation_id with
| None => (j, Err Missing)
| Some record =>
    match cj_status record with
    | Prepared => (<[operation_id := with_cj_status Unknown record]> j, Ok tt)
    | Unknown | Applied | Failed => (j, Err InvalidTransition)
    end
end.

Definition replay (operation_id locator_hash mutation_digest : string)
  (j : MemoryConnectorJournal) : result ReplayOutcome JournalError :=
match j !! operation_id with
| None => Ok NotFound
| Some record =>
    if negb (cj_locator_hash record =?= locator_hash)
       || negb (cj_mutation_digest record =?= mutation_digest)
    then Err OperationIdReused
    else
      match cj_status record with
      | Applied => Ok AlreadyApplied
      | Prepared | Unknown => Ok (Continue (cj_status record))
      | Failed => Ok FailedTerminal
      end
end.

(** *** Any sequence of calls *)

Inductive JournalOp :=
| JPrepare (record : ConnectorJournalRecord)
| JApplied (id sha integrity : string)
| JFailed (id : string)
| JUnknown (id : string).

Definition jexec (op : JournalOp) (j : MemoryConnectorJournal) : MemoryConnectorJournal :=
match op with
| JPrepare record => fst (prepare record j)
| JApplied id sha integrity => fst (mark_applied id sha integrity j)
| JFailed id => fst (mark_failed id j)
| JUnknown id => fst (mark_unknown id j)
end.

Definition jrun (ops : list JournalOp) (j : MemoryConnectorJournal) : MemoryConnectorJournal :=
foldl (λ j op, jexec op j) j ops.

Definition settled (r : ConnectorJournalRecord) : bool :=
match cj_status r with Applied | Failed => true | _ => false end.

(** One call keeps every record's identity, and every settled record whole. *)
Definition record_kept (r r' : ConnectorJournalRecord) : Prop :=
cj_locator_hash r' = cj_locator_hash r /\ cj_mutation_digest r' = cj_mutation_digest r
/\ (settled r = true -> r' = r).

Lemma update_keeps (j : MemoryConnectorJournal) id0 f id r :
j !! id = Some r ->
(forall r0, j !! id0 = Some r0 -> record_kept r0 (f r0)) ->
forall r0, j !! id0 = Some r0 ->
exists r', <[id0 := f r0]> j !! id = Some r' /\ record_kept r r'.
Proof.
intros Hr Hf r0 Hr0. destruct (decide (id0 = id)) as [->|Hne].
- rewrite lookup_insert_eq. rewrite Hr in Hr0. injection Hr0 as <-. eauto.
- rewrite lookup_insert_ne by done. exists r. done.
Qed.

Lemma jexec_keeps op j id r :
j !! id = Some r -> exists r', jexec op j !! id = Some r' /\ record_kept r r'.
Proof.
intros Hr. assert (exists r', j !! id = Some r' /\ record_kept r r') as Hsame
  by (exists r; done).
destruct op as [record|id0 sha integrity|id0|id0]; simpl.
- unfold prepare. destruct (bool_decide_reflect (is_Some (j !! cj_operation_id record))) as [|Hn];
    [done |]. destruct (_ || _); [done |]. simpl.
  exists r. split; [| done]. rewrite lookup_insert_ne; [done |]. intros Heq. apply Hn.
  rewrite Heq. eauto.
- unfold mark_applied. destruct (j !! id0) as [r0|] eqn:H0; [| done].
  destruct (cj_status r0) eqn:Hs; simpl; [ | by destruct (_ && _) | done | ];
    apply (update_keeps j id0 (λ r, with_cj_status Applied (with_cj_after sha integrity r)));
    try done; intros r1 Hr1; rewrite H0 in Hr1; injection Hr1 as <-;
    unfold record_kept, settled; by rewrite Hs.
- unfold mark_failed. destruct (j !! id0) as [r0|] eqn:H0; [| done].
  destruct (cj_status r0) eqn:Hs; simpl; [ | done | done | ];
    apply (update_keeps j id0 (with_cj_status Failed)); try done;
    intros r1 Hr1; rewrite H0 in Hr1; injection Hr1 as <-;
    unfold record_kept, settled; by rewrite Hs.
- unfold mark_unknown. destruct (j !! id0) as [r0|] eqn:H0; [| done].
  destruct (cj_status r0) eqn:Hs; simpl; [ | done | done | done ].
  apply (update_keeps j id0 (with_cj_status Unknown)); try done.
  intros r1 Hr1; rewrite H0 in Hr1; injection Hr1 as <-.
  unfold record_kept, settled; by rewrite Hs.
Qed.

Lemma jrun_keeps ops j id r :
j !! id = Some r -> exists r', jrun ops j !! id = Some r' /\ record_kept r r'.
Proof.
revert j r. induction ops as [|op ops IH]; intros j r Hr; simpl.
- by exists r.
- destruct (jexec_keeps op j id r Hr) as (r1 & Hr1 & Hl1 & Hd1 & Hs1).
  destruct (IH _ _ Hr1) as (r2 & Hr2 & Hl2 & Hd2 & Hs2).
  exists r2. split; [done |]. split_and!; [congruence | congruence |].
  intros Hset. specialize (Hs1 Hset). subst r1. auto.
Qed.

(** The connector applies an operation at most once.  Once [mark_applied]
  has succeeded, then after any further journal calls a replay of the same
  operation with the same locator and digest answers "already applied" (with
  the stored revision unchanged), and a replay under another locator or
  digest is rejected as a reused operation id; no call re-opens it. *)
Theorem journal_applied_is_final id sha integrity j j' ops l d :
mark_applied id sha integrity j = (j', Ok Applied) ->
exists record, jrun ops j' !! id = Some record
  /\ cj_status record = Applied
  /\ cj_after_sha256 record = Some sha /\ cj_after_integrity record = Some integrity
  /\ replay id l d (jrun ops j') =
       if (cj_locator_hash record =?= l) && (cj_mutation_digest record =?= d)
       then Ok AlreadyApplied else Err OperationIdReused.
Proof.
intros Hm. assert (exists r, j' !! id = Some r /\ cj_status r = Applied
  /\ cj_after_sha256 r = Some sha /\ cj_after_integrity r = Some integrity)
  as (r & Hr & Hs & Ha & Hi).
{ revert Hm. unfold mark_applied. destruct (j !! id) as [r|] eqn:Hr; [| done].
  destruct (cj_status r) eqn:Hs; [| | done |].
  - intros [= <-]. rewrite lookup_insert_eq. eauto.
  - destruct (bool_decide_reflect (cj_after_sha256 r = Some sha)); [| done].
    destruct (bool_decide_reflect (cj_after_integrity r = Some integrity)); [| done].
    intros [= <-]. eauto.
  - intros [= <-]. rewrite lookup_insert_eq. eauto. }
destruct (jrun_keeps ops j' id r Hr) as (r' & Hr' & _ & _ & Hset).
specialize (Hset ltac:(unfold settled; by rewrite Hs)). subst r'.
exists r. split_and!; try done. unfold replay. rewrite Hr', Hs.
by repeat case_bool_decide.
Qed.

Definition demo_entry : ConnectorJournalRecord :=
{| cj_operation_id := "op-1"; cj_locator_hash := "loc"; cj_mutation_digest := "dig";
   cj_status := Prepared; cj_before_sha256 := None; cj_after_sha256 := None;
   cj_before_integrity := None; cj_after_integrity := None |}.

Lemma journal_applied_is_final_witness :
let j := fst (prepare demo_entry ∅) in
exists j', mark_applied "op-1" "sha" "int" j = (j', Ok Applied)
  /\ exists record, jrun [JFailed "op-1"; JPrepare demo_entry] j' !! "op-1" = Some record
  /\ cj_status record = Applied
  /\ cj_after_sha256 record = Some "sha" /\ cj_after_integrity record = Some "int"
  /\ replay "op-1" "loc" "dig" (jrun [JFailed "op-1"; JPrepare demo_entry] j') =
       if (cj_locator_hash record =?= "loc") && (cj_mutation_digest record =?= "dig")
       then Ok AlreadyApplied else Err OperationIdReused.
Proof.
intros j. eexists. split; [vm_compute; reflexivity |].
eapply (journal_applied_is_final "op-1" "sha" "int" j _ [JFailed "op-1"; JPrepare demo_entry]
          "loc" "dig"); vm_compute; reflexivity.
Defined.

End ConnectorJournal.

(** ** The journal seam *)

Inductive StOperationJournalStatus : Set := SjPrepared | SjApplied | SjNotApplied | SjUnknown.

#[export] Instance StOperationJournalStatus_eq_dec : EqDecision StOperationJournalStatus.
Proof. solve_decision. Defined.

Record StOperationJournalRecord := {
  sj_operation_id : string;
  sj_locator_hash : string;
  sj_mutation_digest : string;
  sj_status : StOperationJournalStatus;
  sj_before_sha256 : option string;
  sj_before_integrity : option string;
  sj_after_sha256 : option string;
  sj_after_integrity : option string;
  sj_after_byte_length : option Z;
  sj_after_message_count : option Z;
}.

Definition identity_matches (self : StOperationJournalRecord)
    (operation_id locator_hash mutation_digest : string) : bool :=
  (sj_operation_id self =?= operation_id)
  && (sj_locator_hash self =?= locator_hash)
  && (sj_mutation_digest self =?= mutation_digest).

(** [StOperationJournal::lookup]. *)
Class StOperationJournal := {
  lookup_journal : string -> AppResult (option StOperationJournalRecord);
}.

Definition UnavailableStOperationJournal : StOperationJournal :=
  {| lookup_journal _ :=
       Err (service_unavailable "ST_OPERATION_JOURNAL_UNAVAILABLE"
              "connector operation journal is unavailable") |}.

Notation MemoryStOperationJournal := (gmap string StOperationJournalRecord).

Definition memory_journal_insert (record : StOperationJournalRecord)
    (j : MemoryStOperationJournal) : MemoryStOperationJournal * AppResult unit :=
  if is_blank (sj_operation_id record) || is_blank (sj_locator_hash record)
     || is_blank (sj_mutation_digest record)
  then (j, Err (bad_request "ST_OPERATION_JOURNAL_INVALID"
                  "operation journal identity is incomplete"))
  else (<[sj_operation_id record := record]> j, Ok tt).

Definition with_sj_applied (sha integrity : string) (r : StOperationJournalRecord)
    : StOperationJournalRecord :=
  {| sj_operation_id := sj_operation_id r; sj_locator_hash := sj_locator_hash r;
     sj_mutation_digest := sj_mutation_digest r; sj_status := SjApplied;
     sj_before_sha256 := sj_before_sha256 r; sj_before_integrity := sj_before_integrity r;
     sj_after_sha256 := Some sha; sj_after_integrity := Some integrity;
     sj_after_byte_length := sj_after_byte_length r;
     sj_after_message_count := sj_after_message_count r |}.

Definition memory_journal_mark_applied (operation_id after_sha256 after_integrity : string)
    (j : MemoryStOperationJournal) : MemoryStOperationJournal * AppResult unit :=
  match j !! operation_id with
  | None => (j, Err (not_found "ST_OPERATION_JOURNAL_MISSING"
                       "operation journal record missing"))
  | Some record =>
      if (sj_status record =?= SjApplied)
         && (negb (sj_after_sha256 record =?= Some after_sha256)
             || negb (sj_after_integrity record =?= Some after_integrity))
      then (j, Err (conflict "ST_OPERATION_JOURNAL_CONFLICT"
                      "operation journal applied result conflicts"))
      else (<[operation_id := with_sj_applied after_sha256 after_integrity record]> j, Ok tt)
  end.

Definition memory_journal (j : MemoryStOperationJournal) : StOperationJournal :=
  {| lookup_journal operation_id := Ok (j !! operation_id) |}.
