(* ===== verification/Vault.v ===== *)
(** * The secret vault

    [src/seams/secret_vault.rs] and [src/adapters/secrets/encrypted_sqlite.rs]:
    secrets sealed with XChaCha20-Poly1305 under the master key, in the
    [secrets] table of the same database as the operation ledger.  The cipher
    (the chacha20poly1305 crate) is an interface; random bytes are arguments.
    The file of the master key is in [Startup]. *)

From stdpp Require Import pretty.
From S2P Require Import Prelude Errors StDomain Operations OperationStore StoreInvariant StoreCorrect.

(** ** The cipher *)

(** [Aead::encrypt] and [Aead::decrypt] of a key, a nonce, associated data and
    a message; [None] is the crate's opaque error. *)
Class Aead := {
  aead_encrypt : string -> string -> string -> string -> option string;
  aead_decrypt : string -> string -> string -> string -> option string;
}.

(** What the crate documents: a sealed message opens under the same key, nonce
    and associated data, ... *)
Class AeadCorrect (A : Aead) : Prop :=
  aead_opens : forall k n a m c,
    aead_encrypt k n a m = Some c -> aead_decrypt k n a c = Some m.

(** ... and under no other associated data. *)
Class AeadAuthentic (A : Aead) : Prop :=
  aead_authentic : forall k n a m c a' m',
    aead_encrypt k n a m = Some c -> aead_decrypt k n a' c = Some m' -> a' = a.

(** ** The vault *)

Record EncryptedSqliteVault := {
  v_master_key : string;
  v_key_version : Z;
}.

Definition EncryptedSqliteVault_new (master_key : string) : EncryptedSqliteVault :=
  {| v_master_key := master_key; v_key_version := 1 |}.

Record SecretMeta := {
  meta_id : string;
  meta_kind : string;
  meta_fingerprint : string;
  meta_configured : bool;
}.

Definition set_secrets (m : gmap string SecretRow) (db : DB) : DB :=
  {| workspaces := workspaces db; channel_contexts := channel_contexts db;
     bridge_operations := bridge_operations db;
     operation_key_refs := operation_key_refs db;
     operation_execution_leases := operation_execution_leases db;
     accounts := accounts db;
     telegram_bots := telegram_bots db;
     secrets := m;
     in_process_claims := in_process_claims db |}.

Definition vault_aad (secret_id owner_scope kind : string) (key_version : Z) : string :=
  secret_id +:+ "|" +:+ owner_scope +:+ "|" +:+ kind +:+ "|" +:+ pretty key_version.

(** [fp_] and the first six digest bytes in hex. *)
Definition fingerprint_of (sha256_hex : string -> string) (plaintext : string) : string :=
  "fp_" +:+ String.substring 0 12 (sha256_hex plaintext).

Section Vault.
Context `{Aead} (sha256_hex : string -> string).

(** [put]: [new_id] is the id drawn, [nonce] the 24 random bytes. *)
Definition vault_put `{IdSource} (now nonce : string) (self : EncryptedSqliteVault)
    (owner_scope kind plaintext : string) (db : DB) : DB * AppResult SecretMeta :=
  let id := new_id in
  let aad := vault_aad id owner_scope kind (v_key_version self) in
  match aead_encrypt (v_master_key self) nonce aad plaintext with
  | None => (db, Err (internal "secret encryption failed"))
  | Some ciphertext =>
      let fingerprint := fingerprint_of sha256_hex plaintext in
      match secrets db !! id with
      | Some _ => (db, Err database_error)
      | None =>
          (set_secrets
             (<[id := {| s_owner_scope := owner_scope; s_kind := kind;
                         s_key_version := v_key_version self; s_nonce := nonce;
                         s_ciphertext := ciphertext; s_fingerprint := fingerprint;
                         s_created_at := now; s_updated_at := now |}]> (secrets db)) db,
           Ok {| meta_id := id; meta_kind := kind; meta_fingerprint := fingerprint;
                 meta_configured := true |})
      end
  end.

(** The decryption that [get] and [rotate_master_key] apply to a row. *)
Definition open_row (self : EncryptedSqliteVault) (secret_id : string) (row : SecretRow)
    : option string :=
  aead_decrypt (v_master_key self) (s_nonce row)
    (vault_aad secret_id (s_owner_scope row) (s_kind row) (s_key_version row))
    (s_ciphertext row).

Definition vault_get (self : EncryptedSqliteVault) (secret_id : string) (db : DB)
    : AppResult string :=
  let? row := ok_or (secrets db !! secret_id)
                (not_found "SECRET_NOT_FOUND" "secret not found") in
  ok_or (open_row self secret_id row) (internal "secret decryption failed").

(** [DELETE FROM secrets]: the statement fails while a row references the
    secret.  [referenced] stands for the tables outside the ledger. *)
Definition vault_delete (referenced : string -> bool) (secret_id : string) (db : DB)
    : DB * AppResult unit :=
  if referenced secret_id
     || bool_decide (map_Exists (λ _ k, k_wrapped_secret_id k = secret_id)
                       (operation_key_refs db))
  then (db, Err database_error)
  else (set_secrets (delete secret_id (secrets db)) db, Ok tt).

Definition vault_fingerprint (secret_id : string) (db : DB) : AppResult string :=
  let? row := ok_or (secrets db !! secret_id)
                (not_found "SECRET_NOT_FOUND" "secret not found") in
  Ok (s_fingerprint row).

(** The loop over the rows: the first undecryptable one ends the check. *)
Fixpoint rotation_check (self : EncryptedSqliteVault) (rows : list (string * SecretRow))
    : AppResult unit :=
  match rows with
  | [] => Ok tt
  | (id, row) :: rows =>
      let? _ := ok_or (open_row self id row)
                  (internal "secret decryption failed during rotation check") in
      rotation_check self rows
  end.

Definition rotate_master_key (self : EncryptedSqliteVault) (new_key : string)
    (dry_run : bool) (db : DB) : AppResult Z :=
  if negb dry_run then
    Err (service_unavailable "MASTER_KEY_ROTATION_DISABLED"
           "master-key rotation requires the recoverable two-phase rotation protocol")
  else if negb (String.length new_key =? 32)%nat then
    Err (bad_request "MASTER_KEY_INVALID" "new master key must be 32 bytes")
  else
    let rows := map_to_list (secrets db) in
    let? _ := rotation_check self rows in
    ok_or (u32_try_from (Z.of_nat (length rows))) (internal "secret count exceeds u32").
End Vault.

(** ** How the shared database evolves

    What other tasks and processes may do to the database between two
    statements of one task: any number of store calls and vault calls.  Nothing
    in the code deletes an operation key (the calls of [delete] pass secrets of
    other kinds), and the foreign key protects every referenced secret. *)

Definition OPERATION_DEK_KIND : string := "operation_dek_v1".

Record evolves (db db' : DB) : Prop := {
  ev_wf : db_wf db';
  ev_ledger : rtc ledger_step (ledger db) (ledger db');
  ev_rows : rows_kept db db';
  ev_keys : forall id k, operation_key_refs db !! id = Some k ->
    operation_key_refs db' !! id = Some k;
  ev_secrets : forall id k, operation_key_refs db !! id = Some k ->
    secrets db' !! k_wrapped_secret_id k = secrets db !! k_wrapped_secret_id k;
  ev_deks : forall id row, secrets db !! id = Some row -> s_kind row = OPERATION_DEK_KIND ->
    secrets db' !! id = Some row;
}.

Lemma evolves_refl db : db_wf db -> evolves db db.
Proof. intros Hwf. split; try done. by apply rows_kept_same. Qed.

Lemma evolves_slot db db' id st :
  evolves db db' -> ledger db !! id = Some st ->
  exists st', ledger db' !! id = Some st' /\ rtc op_move st st'.
Proof. intros He. eapply ledger_steps_slot, He. Qed.

Lemma rtc_move_frozen st st' :
  rtc op_move st st' -> lacks_payload st.1 = false -> lacks_payload st'.1 = false.
Proof.
  induction 1 as [|[s c] [s' c'] st'' Hm _ IH]; [done |]. intros Hp. apply IH. simpl in *.
  eapply slot_step_frozen; [by right | done].
Qed.

Lemma evolves_trans a b c : evolves a b -> evolves b c -> evolves a c.
Proof.
  intros Hab Hbc. split.
  - apply Hbc.
  - etrans; [apply Hab | apply Hbc].
  - intros id r Hr. destruct (ev_rows _ _ Hab _ _ Hr) as (r' & Hr' & Hi & Hf).
    destruct (ev_rows _ _ Hbc _ _ Hr') as (r'' & Hr'' & Hi' & Hf').
    exists r''. split_and!; [done | congruence |]. intros s cs Hs Hp.
    rewrite <- (Hf _ _ Hs Hp).
    destruct (evolves_slot a b id (s, cs) Hab) as ([s' c'] & Hl & Hm).
    { by rewrite ledger_lookup, Hr. }
    rewrite ledger_lookup, Hr' in Hl. simpl in Hl.
    apply (Hf' s' c'); [done |]. by apply (rtc_move_frozen _ _ Hm).
  - intros id k Hk. by apply (ev_keys _ _ Hbc), (ev_keys _ _ Hab).
  - intros id k Hk. pose proof (ev_keys _ _ Hab _ _ Hk) as Hk'.
    rewrite (ev_secrets _ _ Hbc _ _ Hk'). by apply (ev_secrets _ _ Hab _ _ Hk).
  - intros id row Hrow Hkind. apply (ev_deks _ _ Hbc); [| done]. by apply (ev_deks _ _ Hab).
Qed.

(** Chains the [evolves] hypotheses in the context. *)
Ltac ev_chain :=
  solve [ repeat first [eassumption | eapply evolves_trans; [eassumption |]] ].

(** *** Store calls *)

Lemma cas_update_frame id guard set from to db :
  operation_key_refs (fst (cas_update id guard set from to db)) = operation_key_refs db
  /\ secrets (fst (cas_update id guard set from to db)) = secrets db.
Proof.
  unfold cas_update, update_operation.
  destruct (bridge_operations db !! id) as [r|]; [| done]. by destruct (guard r).
Qed.

Lemma cas_update_keys id guard set from to db id' k :
  operation_key_refs db !! id' = Some k ->
  operation_key_refs (fst (cas_update id guard set from to db)) !! id' = Some k.
Proof. by destruct (cas_update_frame id guard set from to db) as [-> _]. Qed.

Lemma exec_secrets op db : secrets (exec op db) = secrets db.
Proof.
  destruct op; simpl; try (apply cas_update_frame); try done.
  - unfold claim_operation, insert_operation. repeat (case_match; simplify_eq/=); done.
  - unfold put_operation_key_reference. repeat (case_match; simplify_eq/=); done.
  - unfold try_acquire_execution_lease, lease_upsert.
    repeat (case_match; simplify_eq/=); done.
  - unfold release_execution_lease. repeat (case_match; simplify_eq/=); done.
Qed.

Lemma exec_keys op db id k :
  operation_key_refs db !! id = Some k -> operation_key_refs (exec op db) !! id = Some k.
Proof.
  intros Hk. destruct op; simpl;
    try (apply cas_update_keys, Hk); try done.
  - unfold claim_operation, insert_operation. repeat (case_match; simplify_eq/=); done.
  - unfold put_operation_key_reference.
    destruct (_ || _); [done |]. destruct (operation_key_refs db !! id0) eqn:H0; [done |].
    destruct (_ && _); [| done]. simpl. rewrite lookup_insert_ne; congruence.
  - unfold try_acquire_execution_lease, lease_upsert.
    repeat (case_match; simplify_eq/=); done.
  - unfold release_execution_lease. repeat (case_match; simplify_eq/=); done.
Qed.

Lemma exec_evolves op db : op_typed op -> db_wf db -> evolves db (exec op db).
Proof.
  intros Ht Hwf. destruct (exec_ok op db Ht Hwf) as (Hwf' & Hl & Hr). split; try done.
  - by apply rtc_once.
  - intros id k. apply exec_keys.
  - intros. by rewrite exec_secrets.
  - intros id row. by rewrite exec_secrets.
Qed.

Lemma run_evolves ops db : Forall op_typed ops -> db_wf db -> evolves db (run ops db).
Proof.
  intros Ht. revert db. induction Ht as [|op ops Hop _ IH]; intros db Hwf; simpl.
  - by apply evolves_refl.
  - pose proof (exec_evolves op db Hop Hwf) as He.
    eapply evolves_trans; [exact He |]. apply IH, He.
Qed.

(** *** Vault calls *)

(** A change of [secrets] that keeps the rows key references point to. *)
Lemma set_secrets_evolves m db :
  db_wf db ->
  (forall id k, operation_key_refs db !! id = Some k ->
     m !! k_wrapped_secret_id k = secrets db !! k_wrapped_secret_id k) ->
  (forall id row, secrets db !! id = Some row -> s_kind row = OPERATION_DEK_KIND ->
     m !! id = Some row) ->
  evolves db (set_secrets m db).
Proof.
  intros Hwf Hm Hdeks. split; try done.
  - split; try apply Hwf. intros id k Hk. simpl in Hk.
    destruct (wf_keys _ Hwf _ _ Hk) as (? & ? & Hd & ?). split_and!; try done; [| lia ..].
    simpl. apply elem_of_dom. rewrite (Hm _ _ Hk). by apply elem_of_dom.
  - by apply rows_kept_same.
Qed.

Lemma vault_put_evolves `{Aead} sha (ids : IdSource) now nonce v scope kind pt db :
  db_wf db -> evolves db (fst (vault_put sha now nonce v scope kind pt db)).
Proof.
  intros Hwf. unfold vault_put. destruct (aead_encrypt _ _ _ _); [| by apply evolves_refl].
  destruct (secrets db !! new_id) eqn:Hn; simpl; [by apply evolves_refl |].
  apply set_secrets_evolves; [done | |].
  - intros id k Hk.
    destruct (wf_keys _ Hwf _ _ Hk) as (_ & _ & [row Hrow]%elem_of_dom & _).
    rewrite lookup_insert_ne; congruence.
  - intros id row Hrow _. rewrite lookup_insert_ne; congruence.
Qed.

Lemma vault_delete_evolves referenced id db :
  db_wf db ->
  (forall row, secrets db !! id = Some row -> s_kind row <> OPERATION_DEK_KIND) ->
  evolves db (fst (vault_delete referenced id db)).
Proof.
  intros Hwf Hkind. unfold vault_delete. destruct (referenced id); simpl; [by apply evolves_refl |].
  case_bool_decide as Hex; simpl; [by apply evolves_refl |].
  apply set_secrets_evolves; [done | |].
  - intros id' k Hk. rewrite lookup_delete_ne; [done |].
    intros ->. apply Hex. by exists id', k.
  - intros id' row Hrow Hdek. rewrite lookup_delete_ne; [done |].
    intros <-. by apply (Hkind row).
Qed.

(** ** The vault as its clients see it

    The trait [SecretVault], restricted to the two methods the bridge core
    calls, with what those calls promise. *)

Class SecretVault := {
  sv_put : IdSource -> string -> string -> string -> string -> string ->
    DB -> DB * AppResult SecretMeta;
  sv_get : string -> DB -> AppResult string;
}.

Class LawfulVault (V : SecretVault) : Prop := {
  sv_put_evolves : forall ids now nonce scope kind pt db, db_wf db ->
    evolves db (fst (sv_put ids now nonce scope kind pt db));
  sv_put_row : forall ids now nonce scope kind pt db db' meta,
    sv_put ids now nonce scope kind pt db = (db', Ok meta) ->
    exists row, secrets db' !! meta_id meta = Some row /\ s_kind row = kind
      /\ sv_get (meta_id meta) db' = Ok pt;
  sv_get_row : forall id db db', secrets db' !! id = secrets db !! id ->
    sv_get id db' = sv_get id db;
}.

(** [impl SecretVault for EncryptedSqliteVault]. *)
Definition EncryptedSqliteVault_impl `{Aead} (sha256_hex : string -> string)
    (self : EncryptedSqliteVault) : SecretVault :=
  {| sv_put ids now nonce scope kind pt :=
       @vault_put _ sha256_hex ids now nonce self scope kind pt;
     sv_get := vault_get self |}.

#[export] Instance EncryptedSqliteVault_lawful (A : Aead) (HA : AeadCorrect A) sha self :
  LawfulVault (EncryptedSqliteVault_impl sha self).
Proof.
  split; simpl.
  - intros. by apply vault_put_evolves.
  - intros ids now nonce scope kind pt db db' meta. unfold vault_put.
    destruct (aead_encrypt _ _ _ _) as [c|] eqn:Hc; [| done].
    destruct (secrets db !! new_id) eqn:Hn; [done |]. intros [= <- <-]. simpl.
    rewrite lookup_insert_eq. eexists. split; [done |]. split; [done |].
    unfold vault_get. simpl. rewrite lookup_insert_eq. simpl. unfold open_row. simpl.
    by rewrite (aead_opens _ _ _ _ _ Hc).
  - intros id db db' Heq. unfold vault_get. by rewrite Heq.
Qed.

(** ** Secrets *)

(** A cipher for the witnesses: the message behind a self-delimiting copy of
    key, nonce and associated data. *)
Fixpoint delimit (s rest : string) : string :=
  match s with
  | EmptyString => String (Ascii.ascii_of_nat 48) rest
  | String a s => String (Ascii.ascii_of_nat 49) (String a (delimit s rest))
  end.

Fixpoint undelimit (c : string) : option (string * string) :=
  match c with
  | String t (String a c' as r) =>
      if t =?= (Ascii.ascii_of_nat 48) then Some ("", r)
      else '(s, rest) ← undelimit c'; Some (String a s, rest)
  | String t EmptyString => if t =?= (Ascii.ascii_of_nat 48) then Some ("", "") else None
  | EmptyString => None
  end.

Lemma undelimit_delimit s rest : undelimit (delimit s rest) = Some (s, rest).
Proof.
  induction s as [|a s IH]; simpl; [by destruct rest |]. by rewrite IH.
Qed.

Definition toy_aead : Aead :=
  {| aead_encrypt k n a m := Some (delimit k (delimit n (delimit a m)));
     aead_decrypt k n a c :=
       '(k', c) ← undelimit c; '(n', c) ← undelimit c; '(a', m) ← undelimit c;
       if (k =?= k') && (n =?= n') && (a =?= a') then Some m else None |}.

#[export] Instance toy_aead_correct : AeadCorrect toy_aead.
Proof.
  intros k n a m c [= <-]. simpl. rewrite undelimit_delimit. simpl.
  rewrite undelimit_delimit. simpl. rewrite undelimit_delimit. simpl.
  by rewrite !bool_decide_eq_true_2.
Qed.

#[export] Instance toy_aead_authentic : AeadAuthentic toy_aead.
Proof.
  intros k n a m c a' m' [= <-]. simpl. rewrite undelimit_delimit. simpl.
  rewrite undelimit_delimit. simpl. rewrite undelimit_delimit. simpl.
  repeat case_bool_decide; by simplify_eq/=.
Qed.

(** A stored secret is recovered.  If [put] succeeds, [get] of the id it
    returned gives back the plaintext, every other secret reads as before, and
    the fingerprint is the stored one; [put] never overwrites a secret. *)
Theorem vault_put_get (A : Aead) (HA : AeadCorrect A) sha (ids : IdSource)
    now nonce v scope kind pt db db' meta :
  vault_put sha now nonce v scope kind pt db = (db', Ok meta) ->
  vault_get v (meta_id meta) db' = Ok pt
  /\ vault_fingerprint (meta_id meta) db' = Ok (meta_fingerprint meta)
  /\ secrets db !! meta_id meta = None
  /\ forall id, id <> meta_id meta -> vault_get v id db' = vault_get v id db.
Proof.
  unfold vault_put. destruct (aead_encrypt _ _ _ _) as [c|] eqn:Hc; [| done].
  destruct (secrets db !! new_id) eqn:Hn; [done |]. intros [= <- <-]. simpl.
  unfold vault_get, vault_fingerprint, set_secrets. simpl. rewrite lookup_insert_eq. simpl.
  unfold open_row. simpl. rewrite (aead_opens _ _ _ _ _ Hc). split_and!; try done.
  intros id Hne. by rewrite lookup_insert_ne.
Qed.

Definition demo_vault : EncryptedSqliteVault :=
  EncryptedSqliteVault_new "0123456789abcdef0123456789abcdef".

Definition demo_sha (s : string) : string := "0123456789ab".

Lemma vault_put_get_witness :
  exists db' meta,
    @vault_put toy_aead demo_sha demo_ids "t" "0123456789abcdefghijklmn" demo_vault
      "operation:op-1" "operation_dek_v1" "key" demo_db = (db', Ok meta)
    /\ @vault_get toy_aead demo_vault (meta_id meta) db' = Ok "key".
Proof.
  eexists _, _. split; [vm_compute; reflexivity |].
  eapply (vault_put_get toy_aead _ demo_sha demo_ids "t" "0123456789abcdefghijklmn" demo_vault
            "operation:op-1" "operation_dek_v1" "key" demo_db); vm_compute; reflexivity.
Defined.
