(* ===== verification/Program.v ===== *)
(** * Programs: async tasks of the bridge

    An async method of the coordinator is a tree of the awaited calls it makes:
    database calls, calls of the SillyTavern backend, journal look-ups and fence
    checks.  The same tree is executed in two ways: by [exec_prog], which runs
    one task while an environment answers its calls and changes the database at
    every suspension point, and by the steps of a pool of tasks. *)

From S2P Require Import Prelude Errors StDomain Operations OperationStore StoreInvariant StoreCorrect.
From S2P Require Import PollerOwnership Journal Vault.

(** The two mutating methods of [StBackend]. *)
Inductive BackendCall : Type :=
| CallCreate (command : CreateStChat)
| CallCommit (command : CommitStChat).

(** [Db f k] runs one database call: [f] is its effect and [k] continues with
    what the call returned, both functions of the clock and of the database the
    call saw.  [Backend id c k] makes the call [c] on behalf of operation [id]. *)
Inductive Prog (A : Type) : Type :=
| Ret (a : A)
| Db (f : string -> DB -> DB) (k : string -> DB -> Prog A)
| Backend (id : string) (c : BackendCall) (k : StResult StCommitResult -> Prog A)
| Lookup (id : string) (k : AppResult (option StOperationJournalRecord) -> Prog A)
| Fence (k : PResult unit -> Prog A).
Arguments Ret {A} a.
Arguments Db {A} f k.
Arguments Backend {A} id c k.
Arguments Lookup {A} id k.
Arguments Fence {A} k.

Fixpoint bind {A B} (p : Prog A) (k : A -> Prog B) : Prog B :=
  match p with
  | Ret a => k a
  | Db f k' => Db f (λ now db, bind (k' now db) k)
  | Backend id c k' => Backend id c (λ r, bind (k' r) k)
  | Lookup id k' => Lookup id (λ r, bind (k' r) k)
  | Fence k' => Fence (λ r, bind (k' r) k)
  end.

(** [let x = p.await;] *)
Notation "'await' x ':=' p 'in' k" := (bind p (λ x, k))
  (at level 10, x pattern, p at level 200, k at level 200) : bridge_scope.

(** [let x = p.await?;] *)
Notation "'await?' x ':=' p 'in' k" :=
  (bind p (λ r, match r with Ok x => k | Err e => Ret (Err e) end))
  (at level 10, x pattern, p at level 200, k at level 200) : bridge_scope.

(** A call of the store or the vault, given the clock, and one that only reads. *)
Definition db_call {X} (f : string -> DB -> DB * X) : Prog X :=
  Db (λ now db, fst (f now db)) (λ now db, Ret (snd (f now db))).

Definition db_read {X} (f : DB -> X) : Prog X :=
  Db (λ _ db, db) (λ _ db, Ret (f db)).

Definition backend_call (id : string) (c : BackendCall) : Prog (StResult StCommitResult) :=
  Backend id c Ret.

(** [.map_err(f)] on an awaited result. *)
Definition prog_map_err {A E F} (f : E -> F) (p : Prog (result A E)) : Prog (result A F) :=
  bind p (λ r, Ret (map_err f r)).

(** ** Running one task *)

(** What the task does not control, by the index of the call: the changes other
    tasks make to the database before it, the clock, and the answers. *)
Record Env := {
  env_db : nat -> DB -> DB;
  env_now : nat -> string;
  env_backend : nat -> BackendCall -> StResult StCommitResult;
  env_lookup : nat -> string -> AppResult (option StOperationJournalRecord);
  env_fence : nat -> PResult unit;
}.

Definition lawful_env (E : Env) : Prop :=
  forall i db, db_wf db -> evolves db (env_db E i db).

(** The database, the backend calls made by this task (with their answers, the
    latest first) and the number of calls so far. *)
Record World := {
  w_db : DB;
  w_calls : list (string * BackendCall * StResult StCommitResult);
  w_step : nat;
}.

Definition world0 (db : DB) : World := {| w_db := db; w_calls := []; w_step := 0 |}.

Fixpoint exec_prog {A} (E : Env) (p : Prog A) (w : World) : World * A :=
  let i := w_step w in
  let db := env_db E i (w_db w) in
  match p with
  | Ret a => (w, a)
  | Db f k =>
      exec_prog E (k (env_now E i) db)
        {| w_db := f (env_now E i) db; w_calls := w_calls w; w_step := S i |}
  | Backend id c k =>
      exec_prog E (k (env_backend E i c))
        {| w_db := db; w_calls := (id, c, env_backend E i c) :: w_calls w; w_step := S i |}
  | Lookup id k =>
      exec_prog E (k (env_lookup E i id))
        {| w_db := db; w_calls := w_calls w; w_step := S i |}
  | Fence k =>
      exec_prog E (k (env_fence E i))
        {| w_db := db; w_calls := w_calls w; w_step := S i |}
  end.

Lemma exec_bind {A B} E (p : Prog A) (k : A -> Prog B) w :
  exec_prog E (bind p k) w = let '(w', a) := exec_prog E p w in exec_prog E (k a) w'.
Proof. revert w. induction p; intros w; simpl; auto. Qed.

(** ** Lawful programs

    Every database call of the program is one the invariant survives. *)

Inductive lawful {A} : Prog A -> Prop :=
| lawful_ret a : lawful (Ret a)
| lawful_db f k :
    (forall now db, db_wf db -> evolves db (f now db)) ->
    (forall now db, db_wf db -> lawful (k now db)) -> lawful (Db f k)
| lawful_backend id c k : (forall r, lawful (k r)) -> lawful (Backend id c k)
| lawful_lookup id k : (forall r, lawful (k r)) -> lawful (Lookup id k)
| lawful_fence k : (forall r, lawful (k r)) -> lawful (Fence k).

Create HintDb progs.
#[export] Hint Constructors lawful : progs.

Lemma lawful_bind {A B} (p : Prog A) (k : A -> Prog B) :
  lawful p -> (forall a, lawful (k a)) -> lawful (bind p k).
Proof. intros Hp Hk. induction Hp; simpl; eauto with progs. Qed.

Lemma lawful_db_call {X} (f : string -> DB -> DB * X) :
  (forall now db, db_wf db -> evolves db (fst (f now db))) -> lawful (db_call f).
Proof. intros Hf. constructor; [done | constructor]. Qed.

Lemma lawful_db_read {X} (f : DB -> X) : lawful (db_read f).
Proof. constructor; [intros _ db; apply evolves_refl | constructor]. Qed.

Lemma lawful_backend_call id c : lawful (backend_call id c).
Proof. repeat constructor. Qed.

Lemma lawful_map_err {A E F} (f : E -> F) (p : Prog (result A E)) :
  lawful p -> lawful (prog_map_err f p).
Proof. intros Hp. apply lawful_bind; [done | constructor]. Qed.

(** Executing a lawful program in a lawful environment keeps the invariant and
    only lets the database evolve. *)
Lemma exec_lawful {A} E (p : Prog A) w :
  lawful_env E -> lawful p -> db_wf (w_db w) ->
  evolves (w_db w) (w_db (fst (exec_prog E p w))).
Proof.
  intros HE Hp. revert w.
  induction Hp as [a|f k Hf Hk IH|id c k Hk IH|id k Hk IH|k Hk IH]; intros w Hwf; simpl;
    [by apply evolves_refl | ..]; pose proof (HE (w_step w) _ Hwf) as He.
  - pose proof (Hf (env_now E (w_step w)) _ (ev_wf _ _ He)) as He'.
    eapply evolves_trans; [exact He |]. eapply evolves_trans; [exact He' |].
    apply (IH (env_now E (w_step w)) _ (ev_wf _ _ He)
             {| w_db := f (env_now E (w_step w)) (env_db E (w_step w) (w_db w));
                w_calls := w_calls w; w_step := S (w_step w) |}). apply He'.
  - eapply evolves_trans; [exact He |].
    apply (IH _ {| w_db := env_db E (w_step w) (w_db w);
                   w_calls := (id, c, env_backend E (w_step w) c) :: w_calls w;
                   w_step := S (w_step w) |}). apply He.
  - eapply evolves_trans; [exact He |].
    apply (IH _ {| w_db := env_db E (w_step w) (w_db w);
                   w_calls := w_calls w; w_step := S (w_step w) |}). apply He.
  - eapply evolves_trans; [exact He |].
    apply (IH _ {| w_db := env_db E (w_step w) (w_db w);
                   w_calls := w_calls w; w_step := S (w_step w) |}). apply He.
Qed.

(** ** Disciplined programs

    A program may call the backend for an operation only with the token of that
    operation, which a successful [mark_committing] hands out and the call
    consumes.  [disciplined t p]: [p] keeps this discipline when started with
    the token [t], and ends without one. *)

Inductive disciplined {A} : option string -> Prog A -> Prop :=
| disciplined_ret a : disciplined None (Ret a)
| disciplined_db t f k :
    (forall now db, db_wf db -> evolves db (f now db)) ->
    (forall now db, db_wf db -> disciplined t (k now db)) -> disciplined t (Db f k)
| disciplined_gate id k :
    (forall now db, db_wf db ->
       disciplined (if is_ok (snd (mark_committing now id db)) then Some id else None)
         (k now db)) ->
    disciplined None (Db (λ now db, fst (mark_committing now id db)) k)
| disciplined_backend id c k :
    (forall r, disciplined None (k r)) -> disciplined (Some id) (Backend id c k)
| disciplined_lookup t id k : (forall r, disciplined t (k r)) -> disciplined t (Lookup id k)
| disciplined_fence t k : (forall r, disciplined t (k r)) -> disciplined t (Fence k).

#[export] Hint Constructors disciplined : progs.

Lemma disciplined_bind {A B} t (p : Prog A) (k : A -> Prog B) :
  disciplined t p -> (forall a, disciplined None (k a)) -> disciplined t (bind p k).
Proof. intros Hp Hk. induction Hp; simpl; eauto with progs. Qed.

Lemma disciplined_db_call {X} (f : string -> DB -> DB * X) :
  (forall now db, db_wf db -> evolves db (fst (f now db))) -> disciplined None (db_call f).
Proof. intros Hf. constructor; [done | constructor]. Qed.

Lemma disciplined_db_read {X} (f : DB -> X) : disciplined None (db_read f).
Proof. constructor; [intros _ db; apply evolves_refl | constructor]. Qed.

Lemma mark_committing_evolves now id db :
  db_wf db -> evolves db (fst (mark_committing now id db)).
Proof. intros Hwf. by apply (exec_evolves (OpCommitting now id)). Qed.

Lemma disciplined_lawful {A} t (p : Prog A) : disciplined t p -> lawful p.
Proof.
  induction 1; constructor; try done. intros. by apply mark_committing_evolves.
Qed.

(** ** Tame programs

    Programs that never call the backend and whose database calls the invariant
    survives: disciplined, lawful, and they leave the list of backend calls
    alone. *)

Inductive tame {A} : Prog A -> Prop :=
| tame_ret a : tame (Ret a)
| tame_db f k :
    (forall now db, db_wf db -> evolves db (f now db)) ->
    (forall now db, db_wf db -> tame (k now db)) -> tame (Db f k)
| tame_lookup id k : (forall r, tame (k r)) -> tame (Lookup id k)
| tame_fence k : (forall r, tame (k r)) -> tame (Fence k).

#[export] Hint Constructors tame : progs.

Lemma tame_bind {A B} (p : Prog A) (k : A -> Prog B) :
  tame p -> (forall a, tame (k a)) -> tame (bind p k).
Proof. intros Hp Hk. induction Hp; simpl; eauto with progs. Qed.

(** [await? x := p in k x]. *)
Lemma tame_try {A B E} (p : Prog (result A E)) (k : A -> Prog (result B E)) :
  tame p -> (forall a, tame (k a)) ->
  tame (bind p (λ r, match r with Ok x => k x | Err e => Ret (Err e) end)).
Proof. intros Hp Hk. apply tame_bind; [done |]. intros []; [apply Hk | constructor]. Qed.

Lemma tame_db_call {X} (f : string -> DB -> DB * X) :
  (forall now db, db_wf db -> evolves db (fst (f now db))) -> tame (db_call f).
Proof. intros Hf. constructor; [done | constructor]. Qed.

Lemma tame_db_read {X} (f : DB -> X) : tame (db_read f).
Proof. constructor; [intros _ db; apply evolves_refl | constructor]. Qed.

Lemma tame_map_err {A E F} (f : E -> F) (p : Prog (result A E)) :
  tame p -> tame (prog_map_err f p).
Proof. intros Hp. apply tame_bind; [done | constructor]. Qed.

Lemma tame_disciplined {A} (p : Prog A) : tame p -> disciplined None p.
Proof. induction 1; constructor; auto. Qed.

Lemma tame_lawful {A} (p : Prog A) : tame p -> lawful p.
Proof. intros Hp. by eapply disciplined_lawful, tame_disciplined. Qed.

Lemma tame_exec {A} E (p : Prog A) w :
  lawful_env E -> tame p -> db_wf (w_db w) ->
  w_calls (fst (exec_prog E p w)) = w_calls w.
Proof.
  intros HE Hp. revert w. induction Hp as [a|f k Hf Hk IH|id k Hk IH|k Hk IH]; intros w Hwf; simpl;
    [done | ..]; pose proof (HE (w_step w) _ Hwf) as He.
  - pose proof (Hf (env_now E (w_step w)) _ (ev_wf _ _ He)) as He'. rewrite IH; [done | apply He |].
    apply He'.
  - rewrite IH; [done | apply He].
  - rewrite IH; [done | apply He].
Qed.

(** One database call in an environment. *)
Lemma exec_db_call {X} E (f : string -> DB -> DB * X) w :
  exec_prog E (db_call f) w =
    let '(db, x) := f (env_now E (w_step w)) (env_db E (w_step w) (w_db w)) in
    ({| w_db := db; w_calls := w_calls w; w_step := S (w_step w) |}, x).
Proof. simpl. by destruct (f _ _). Qed.

Lemma exec_db_read {X} E (f : DB -> X) w :
  exec_prog E (db_read f) w =
    ({| w_db := env_db E (w_step w) (w_db w); w_calls := w_calls w; w_step := S (w_step w) |},
     f (env_db E (w_step w) (w_db w))).
Proof. done. Qed.

(** ** Environments for the witnesses *)

(** A task that is alone; the backend answers with [r]. *)
Definition quiet (r : StResult StCommitResult)
    (j : AppResult (option StOperationJournalRecord)) : Env :=
  {| env_db _ db := db; env_now _ := "2026-01-01T00:00:00Z"; env_backend _ _ := r;
     env_lookup _ _ := j; env_fence _ := Ok tt |}.

Lemma quiet_lawful r j : lawful_env (quiet r j).
Proof. intros i db. apply evolves_refl. Qed.

(** The same, among processes that make the given store calls. *)
Definition among (calls : nat -> list StoreOp) (E : Env) : Env :=
  {| env_db i db := run (calls i) db; env_now := env_now E; env_backend := env_backend E;
     env_lookup := env_lookup E; env_fence := env_fence E |}.

Lemma among_lawful calls E :
  (forall i, Forall op_typed (calls i)) -> lawful_env (among calls E).
Proof. intros Ht i db Hwf. by apply run_evolves. Qed.
