(* ===== verification/OperationPayload.v ===== *)
(** * Operation payload encryption

    [src/modules/bridge/operation_payload.rs]: one data key per operation,
    wrapped in the vault and referenced by the ledger, and the authenticated
    encryption of the recovery payload under it.  The cipher and the vault are
    the interfaces of [Vault]; random bytes and ids are arguments.  The key
    provider's methods are programs: between two of their calls the rest of the
    system may change the database.  Zeroization is not modelled. *)

From S2P Require Import Prelude Errors StDomain Operations OperationStore StoreInvariant StoreCorrect.
From S2P Require Import Vault Program.

Record OperationPayloadEncryptor := {
  operation_dek : string;
  encryptor_key_version : Z;
  encryptor_wrapped_secret_id : option string;
}.

Definition OperationPayloadEncryptor_new (operation_dek : string) (key_version : Z)
    : OperationPayloadEncryptor :=
  {| operation_dek := operation_dek; encryptor_key_version := key_version;
     encryptor_wrapped_secret_id := None |}.

Definition decrypt_failed : AppError :=
  AppError_new "PAYLOAD_DECRYPT_FAILED" "operation payload could not be decrypted" 400.

Definition validate_aad (aad : OperationAad) : AppResult unit :=
  if (aad_version aad =? 0)%Z || is_blank (aad_operation_id aad)
     || is_blank (aad_locator_hash aad) || is_blank (aad_operation_kind aad)
     || is_blank (aad_actor_id aad) || is_blank (aad_bot_id aad)
  then Err (bad_request "PAYLOAD_AAD_INVALID"
              "operation payload authenticated identity is incomplete")
  else Ok tt.

(** ** Encryption under one key *)

Section Encryptor.
Context `{Aead}.

(** [nonce]: the 24 random bytes the call draws. *)
Definition encrypt (nonce : string) (self : OperationPayloadEncryptor)
    (plaintext : string) (aad : OperationAad) : AppResult EncryptedOperationPayload :=
  let? _ := validate_aad aad in
  let? ciphertext :=
    ok_or (aead_encrypt (operation_dek self) nonce (aad_encode aad) plaintext)
      (AppError_new "PAYLOAD_ENCRYPT_FAILED" "operation payload encryption failed" 500) in
  Ok {| enc_ciphertext := ciphertext; enc_nonce := nonce;
        enc_key_version := encryptor_key_version self |}.

Definition decrypt (self : OperationPayloadEncryptor)
    (encrypted : EncryptedOperationPayload) (aad : OperationAad) : AppResult string :=
  if negb (enc_key_version encrypted =? encryptor_key_version self)%Z
  then Err decrypt_failed
  else
    let? _ := map_err (λ _, decrypt_failed) (validate_aad aad) in
    ok_or (aead_decrypt (operation_dek self) (enc_nonce encrypted) (aad_encode aad)
             (enc_ciphertext encrypted)) decrypt_failed.
End Encryptor.

(** ** Wrapped keys *)

(** What one call draws at random: the vault's id and nonce, and the key. *)
Record KeyDraws := {
  d_ids : IdSource;
  d_vault_nonce : string;
  d_dek : string;
}.

Section Provider.
Context `{SecretVault}.

Definition create_wrapped (d : KeyDraws) (operation_id : string) (key_version : Z)
    : Prog (AppResult OperationPayloadEncryptor) :=
  if is_blank operation_id then
    Ret (Err (bad_request "PAYLOAD_OPERATION_ID_REQUIRED"
                "operation id is required for operation DEK"))
  else
    await? secret :=
      db_call (λ now, sv_put (d_ids d) now (d_vault_nonce d)
                        ("operation:" +:+ operation_id) OPERATION_DEK_KIND (d_dek d)) in
    Ret (Ok {| operation_dek := d_dek d; encryptor_key_version := key_version;
               encryptor_wrapped_secret_id := Some (meta_id secret) |}).

Definition from_wrapped (secret_id : string) (key_version : Z)
    : Prog (AppResult OperationPayloadEncryptor) :=
  if is_blank secret_id then
    Ret (Err (bad_request "PAYLOAD_KEY_REQUIRED" "wrapped operation DEK id is required"))
  else
    await? bytes := db_read (sv_get secret_id) in
    Ret (if negb (String.length bytes =? 32)%nat then Err decrypt_failed
         else Ok {| operation_dek := bytes; encryptor_key_version := key_version;
                    encryptor_wrapped_secret_id := Some secret_id |}).

(** [with_key_version]: the version a provider stamps on new keys. *)
Definition provider_key_version (key_version : Z) : Z := Z.max key_version 1.

Definition from_reference (reference : OperationKeyReference)
    : Prog (AppResult OperationPayloadEncryptor) :=
  from_wrapped (kr_wrapped_secret_id reference) (kr_key_version reference).

Definition for_operation (d : KeyDraws) (key_version : Z) (operation_id : string)
    : Prog (AppResult OperationPayloadEncryptor) :=
  await? found := db_read (get_operation_key_reference operation_id) in
  match found with
  | Some reference => from_reference reference
  | None =>
      await? encryptor := create_wrapped d operation_id key_version in
      match encryptor_wrapped_secret_id encryptor with
      | None => Ret (Err (internal "operation DEK reference was not returned"))
      | Some secret_id =>
          await stored :=
            db_call (λ now, put_operation_key_reference now operation_id secret_id
                              (encryptor_key_version encryptor)) in
          match stored with
          | Ok _ => Ret (Ok encryptor)
          | Err error =>
              await? found := db_read (get_operation_key_reference operation_id) in
              match found with
              | Some reference => from_reference reference
              | None => Ret (Err error)
              end
          end
      end
  end.

Definition restore_for_operation (operation_id : string)
    : Prog (AppResult OperationPayloadEncryptor) :=
  await? found := db_read (get_operation_key_reference operation_id) in
  match found with
  | Some reference => from_reference reference
  | None =>
      Ret (Err (service_unavailable "PAYLOAD_KEY_REFERENCE_MISSING"
                  "operation payload key reference is missing"))
  end.
End Provider.

(** ** Key references *)

Lemma get_key_reference_Some id db reference :
  get_operation_key_reference id db = Ok (Some reference) ->
  exists k, operation_key_refs db !! id = Some k
    /\ kr_wrapped_secret_id reference = k_wrapped_secret_id k
    /\ kr_key_version reference = k_key_version k
    /\ is_blank (k_wrapped_secret_id k) = false.
Proof.
  unfold get_operation_key_reference. destruct (operation_key_refs db !! id) as [k|]; [| done].
  destruct (is_blank _) eqn:Hb; [done |].
  unfold u32_try_from. destruct (_ && _); simpl; [| done].
  destruct (_ =? 0)%Z; [done |]. intros [= <-]. eauto.
Qed.

Lemma get_key_reference_wf id db k :
  db_wf db -> operation_key_refs db !! id = Some k ->
  get_operation_key_reference id db
    = Ok (Some {| kr_wrapped_secret_id := k_wrapped_secret_id k;
                  kr_key_version := k_key_version k |}).
Proof.
  intros Hwf Hk. destruct (wf_keys _ Hwf _ _ Hk) as (_ & Hb & _ & Hv).
  unfold get_operation_key_reference. rewrite Hk, Hb. unfold u32_try_from.
  destruct (Z.leb_spec 0 (k_key_version k)), (Z.ltb_spec (k_key_version k) (2 ^ 32)); try lia.
  simpl. destruct (Z.eqb_spec (k_key_version k) 0); [lia | done].
Qed.

(** A successful [put_operation_key_reference] leaves the reference it was
    given in the table. *)
Lemma put_key_reference_ok now id secret v db db' :
  db_wf db -> put_operation_key_reference now id secret v db = (db', Ok tt) ->
  exists k, operation_key_refs db' !! id = Some k
    /\ k_wrapped_secret_id k = secret /\ k_key_version k = v
    /\ secret ∈ dom (secrets db').
Proof.
  intros Hwf. unfold put_operation_key_reference.
  destruct (_ || _); [done |]. destruct (operation_key_refs db !! id) as [k|] eqn:Hk.
  - rewrite (get_key_reference_wf id db k Hwf Hk). simpl.
    destruct (bool_decide_reflect (k_wrapped_secret_id k = secret)) as [Hs|]; [| done].
    destruct (bool_decide_reflect (k_key_version k = v)) as [Hv|]; [| done]. simpl.
    intros [= <-]. exists k. split_and!; try done. rewrite <- Hs. by apply (wf_keys _ Hwf _ _ Hk).
  - destruct (bool_decide_reflect (is_Some (bridge_operations db !! id))); [| done]. simpl.
    destruct (bool_decide_reflect (secret ∈ dom (secrets db))); [| done].
    intros [= <-]. simpl. rewrite lookup_insert_eq. eauto.
Qed.

Lemma put_key_reference_evolves now id secret v db :
  (0 <= v < 2 ^ 32)%Z -> db_wf db ->
  evolves db (fst (put_operation_key_reference now id secret v db)).
Proof. intros Hv Hwf. by apply (exec_evolves (OpPutKeyRef now id secret v)). Qed.

(** The key an operation is bound to, and what it stays bound to. *)
Definition bound_key `{SecretVault} (id : string) (db : DB) (dek : string) (v : Z) : Prop :=
  exists k, operation_key_refs db !! id = Some k /\ k_key_version k = v
    /\ sv_get (k_wrapped_secret_id k) db = Ok dek.

Section Binding.
Context {V : SecretVault} {LV : LawfulVault V}.

Lemma bound_key_evolves id db db' dek v :
  evolves db db' -> bound_key id db dek v -> bound_key id db' dek v.
Proof.
  intros He (k & Hk & Hv & Hg). exists k. split_and!; [by apply He | done |].
  rewrite <- Hg. apply sv_get_row. by apply (ev_secrets _ _ He id).
Qed.

Lemma tame_from_reference reference : tame (from_reference reference).
Proof.
  unfold from_reference, from_wrapped. destruct (is_blank _); [constructor |].
  apply tame_try; [apply tame_db_read | constructor].
Qed.

Lemma lawful_restore id : lawful (restore_for_operation id).
Proof.
  apply tame_lawful, tame_try; [apply tame_db_read |].
  intros []; [apply tame_from_reference | constructor].
Qed.

Lemma tame_for_operation d v id :
  (0 <= v < 2 ^ 32)%Z -> tame (for_operation d v id).
Proof.
  intros Hv. apply tame_try; [apply tame_db_read |].
  intros []; [apply tame_from_reference |].
  unfold create_wrapped. destruct (is_blank id); [constructor |]. simpl.
  constructor; [intros now db; apply sv_put_evolves |]. intros now db _.
  destruct (snd (sv_put _ _ _ _ _ _ _)); simpl; [| constructor].
  constructor; [intros; by apply put_key_reference_evolves |]. intros now' db' _.
  destruct (snd (put_operation_key_reference _ _ _ _ _)); [constructor |]. simpl.
  constructor; [intros _ ? ?; by apply evolves_refl |]. intros _ db'' _.
  destruct (get_operation_key_reference id db'') as [[]|];
    [apply tame_from_reference | constructor | constructor].
Qed.

Lemma lawful_for_operation d v id :
  (0 <= v < 2 ^ 32)%Z -> lawful (for_operation d v id).
Proof. intros Hv. by apply tame_lawful, tame_for_operation. Qed.

Lemma from_reference_ok E reference id k w w' enc :
  lawful_env E -> db_wf (w_db w) -> operation_key_refs (w_db w) !! id = Some k ->
  kr_wrapped_secret_id reference = k_wrapped_secret_id k ->
  kr_key_version reference = k_key_version k ->
  exec_prog E (from_reference reference) w = (w', Ok enc) ->
  bound_key id (w_db w') (operation_dek enc) (encryptor_key_version enc)
  /\ String.length (operation_dek enc) = 32.
Proof.
  intros HE Hwf Hk Hs Hv. unfold from_reference, from_wrapped.
  pose proof (HE (w_step w) _ Hwf) as He.
  destruct (is_blank _); [done |]. simpl.
  destruct (sv_get _ _) as [bytes|] eqn:Hg; [| done]. simpl.
  destruct (Nat.eqb_spec (String.length bytes) 32) as [Hl|]; [| done]. simpl.
  intros [= <- <-]. simpl. split; [| done].
  exists k. split_and!; [by apply He | done |]. by rewrite <- Hs.
Qed.

(** Every success of [for_operation] returns the key the ledger binds. *)
Lemma for_operation_binds E d v id w w' enc :
  lawful_env E -> db_wf (w_db w) -> (0 <= v < 2 ^ 32)%Z -> String.length (d_dek d) = 32 ->
  exec_prog E (for_operation d v id) w = (w', Ok enc) ->
  bound_key id (w_db w') (operation_dek enc) (encryptor_key_version enc)
  /\ String.length (operation_dek enc) = 32.
Proof.
  intros HE Hwf Hv Hlen. unfold for_operation, create_wrapped. simpl.
  pose proof (HE (w_step w) _ Hwf) as He0.
  set (db0 := env_db E (w_step w) (w_db w)) in *.
  destruct (get_operation_key_reference id db0) as [[reference|]|] eqn:Hg; [| |done].
  { destruct (get_key_reference_Some _ _ _ Hg) as (k & Hk & Hs & Hkv & _).
    intros Hf. by eapply from_reference_ok in Hf; [| | apply He0 | ..]. }
  destruct (is_blank id); [done |]. simpl.
  pose proof (HE (S (w_step w)) _ (ev_wf _ _ He0)) as He1.
  set (db1 := env_db E (S (w_step w)) db0) in *.
  pose proof (sv_put_evolves (d_ids d) (env_now E (S (w_step w))) (d_vault_nonce d)
    ("operation:" +:+ id) OPERATION_DEK_KIND (d_dek d) _ (ev_wf _ _ He1)) as He2.
  destruct (sv_put _ _ _ _ _ _ _) as [db2 [meta|]] eqn:Hput; [| done]. simpl in *.
  destruct (sv_put_row _ _ _ _ _ _ _ _ _ Hput) as (row & Hrow & Hkind & Hget).
  pose proof (HE (S (S (w_step w))) _ (ev_wf _ _ He2)) as He3.
  set (db3 := env_db E (S (S (w_step w))) db2) in *.
  pose proof (put_key_reference_evolves (env_now E (S (S (w_step w)))) id (meta_id meta) v _ Hv
    (ev_wf _ _ He3)) as He4.
  destruct (put_operation_key_reference _ _ _ _ _) as [db4 [[]|err]] eqn:Hpk; simpl in *.
  - intros [= <- <-]. simpl. split; [| done].
    destruct (put_key_reference_ok _ _ _ _ _ _ (ev_wf _ _ He3) Hpk) as (k & Hk & Hs & Hkv & _).
    exists k. split_and!; [done | done |]. rewrite Hs, <- Hget. apply sv_get_row. rewrite Hrow.
    apply (ev_deks _ _ He4); [by apply (ev_deks _ _ He3) | done].
  - pose proof (HE (S (S (S (w_step w)))) _ (ev_wf _ _ He4)) as He5.
    set (db5 := env_db E (S (S (S (w_step w)))) db4) in *.
    destruct (get_operation_key_reference id db5) as [[reference|]|] eqn:Hg2; [| done | done].
    destruct (get_key_reference_Some _ _ _ Hg2) as (k & Hk & Hs & Hkv & _).
    intros Hf. by eapply from_reference_ok in Hf; [| | apply He5 | ..].
Qed.

Lemma restore_bound E id w dek v :
  lawful_env E -> db_wf (w_db w) -> bound_key id (w_db w) dek v -> String.length dek = 32 ->
  exists w' enc, exec_prog E (restore_for_operation id) w = (w', Ok enc)
    /\ operation_dek enc = dek /\ encryptor_key_version enc = v.
Proof.
  intros HE Hwf Hb Hl. unfold restore_for_operation. simpl.
  pose proof (HE (w_step w) _ Hwf) as He0.
  pose proof (bound_key_evolves _ _ _ _ _ He0 Hb) as (k & Hk & Hkv & Hg).
  set (db0 := env_db E (w_step w) (w_db w)) in *.
  rewrite (get_key_reference_wf id db0 k (ev_wf _ _ He0) Hk).
  unfold from_reference, from_wrapped. simpl.
  destruct (wf_keys _ (ev_wf _ _ He0) _ _ Hk) as (_ & Hbl & _ & _). rewrite Hbl. simpl.
  pose proof (HE (S (w_step w)) _ (ev_wf _ _ He0)) as He1.
  set (db1 := env_db E (S (w_step w)) db0) in *.
  assert (sv_get (k_wrapped_secret_id k) db1 = Ok dek) as ->.
  { rewrite <- Hg. apply sv_get_row. by apply (ev_secrets _ _ He1 id). }
  simpl. rewrite Hl. simpl. eexists _, _. by split_and!.
Qed.
End Binding.

(** ** Round trips *)

Lemma decrypt_encrypt {A : Aead} {HA : AeadCorrect A} nonce enc enc' pt aad p :
  encrypt nonce enc pt aad = Ok p ->
  operation_dek enc' = operation_dek enc ->
  encryptor_key_version enc' = encryptor_key_version enc ->
  decrypt enc' p aad = Ok pt.
Proof.
  unfold encrypt, decrypt. intros Hp Hd Hv.
  destruct (validate_aad aad) eqn:Hva; [| done].
  destruct (aead_encrypt _ _ _ _) as [c|] eqn:Hc; [| done]. injection Hp as <-. simpl.
  rewrite Hv, Z.eqb_refl. simpl. by rewrite Hd, (aead_opens _ _ _ _ _ Hc).
Qed.

(** A payload survives a restart.  A payload sealed with the key
    [for_operation] returned is decrypted to the same bytes by whoever later
    restores the operation's key from the ledger and the vault, whatever store
    and vault calls happened in between and at every suspension point of both
    calls; restoring cannot fail. *)
Theorem payload_survives_restart (A : Aead) (HA : AeadCorrect A)
    (V : SecretVault) (LV : LawfulVault V) E E' d v id w w1 w2 enc nonce pt aad p :
  lawful_env E -> lawful_env E' ->
  db_wf (w_db w) -> (0 <= v < 2 ^ 32)%Z -> String.length (d_dek d) = 32 ->
  exec_prog E (for_operation d v id) w = (w1, Ok enc) ->
  encrypt nonce enc pt aad = Ok p ->
  evolves (w_db w1) (w_db w2) ->
  exists w3 enc', exec_prog E' (restore_for_operation id) w2 = (w3, Ok enc')
    /\ decrypt enc' p aad = Ok pt.
Proof.
  intros HE HE' Hwf Hv Hl Hf Hp He.
  destruct (for_operation_binds _ _ _ _ _ _ _ HE Hwf Hv Hl Hf) as (Hb & Hl').
  pose proof (bound_key_evolves _ _ _ _ _ He Hb) as Hb'.
  destruct (restore_bound _ _ _ _ _ HE' (ev_wf _ _ He) Hb' Hl') as (w3 & enc' & Hr & Hd & Hk).
  exists w3, enc'. split; [done |]. by eapply decrypt_encrypt.
Qed.

Definition demo_impl : SecretVault := @EncryptedSqliteVault_impl toy_aead demo_sha demo_vault.

Definition demo_dek : string := "abcdefghijklmnopqrstuvwxyz012345".

Definition demo_draws : KeyDraws :=
  {| d_ids := {| request_id := "req"; new_id := "sec-op-1" |};
     d_vault_nonce := "0123456789abcdefghijklmn"; d_dek := demo_dek |}.

Definition demo_nonce : string := "nmlkjihgfedcba9876543210".

Definition no_backend : StResult StCommitResult :=
  Err (@StBridgeError_new demo_ids StConnectFailed StageConnect "" true NotStarted).

Definition idle : Env := quiet no_backend (Ok None).

(** The world after the key of [op-1] was created in a snapshot-ready ledger. *)
Definition demo_world : World := world0 (run (demo_ops SnapshotReady) demo_db).

Lemma demo_world_wf : db_wf (w_db demo_world).
Proof. apply run_ok; [apply demo_ops_typed | apply empty_db_wf]. Qed.

Definition demo_keyed : World :=
  fst (exec_prog idle (@for_operation demo_impl demo_draws 1 "op-1") demo_world).

Lemma demo_keyed_wf : db_wf (w_db demo_keyed).
Proof.
  eapply (exec_lawful idle); [apply quiet_lawful | | apply demo_world_wf].
  apply lawful_for_operation. lia.
Qed.

Lemma payload_survives_restart_witness :
  exists enc p,
    exec_prog idle (@for_operation demo_impl demo_draws 1 "op-1") demo_world
      = (demo_keyed, Ok enc)
    /\ @encrypt toy_aead demo_nonce enc "plain" sample_aad = Ok p
    /\ exists w3 enc',
         exec_prog idle (@restore_for_operation demo_impl "op-1")
           (world0 (run [OpGenerating "t3" "op-1"; OpInterrupted "t4" "op-1"] (w_db demo_keyed)))
           = (w3, Ok enc')
         /\ @decrypt toy_aead enc' p sample_aad = Ok "plain".
Proof.
  eexists _, _. split; [vm_compute; reflexivity |]. split; [vm_compute; reflexivity |].
  eapply (payload_survives_restart toy_aead _ demo_impl _ idle idle demo_draws 1 "op-1"
            demo_world demo_keyed _ _ demo_nonce "plain" sample_aad);
    [apply quiet_lawful | apply quiet_lawful | apply demo_world_wf | lia | reflexivity
    | vm_compute; reflexivity | vm_compute; reflexivity |].
  apply run_evolves; [repeat constructor | apply demo_keyed_wf].
Defined.

(** A sealed payload opens only under its own identity.  If the payload was
    sealed with [aad] and some decryption under the same key succeeds with
    [aad'], then [aad'] equals [aad] in every component (operation id, locator
    hash, kind, actor, bot and runtime fence) and the plaintext is the sealed
    one: a payload cannot be moved to another operation, chat, actor or
    poller epoch. *)
Theorem payload_opens_only_under_its_identity (A : Aead) (HA : AeadCorrect A)
    (HB : AeadAuthentic A) nonce enc pt pt' aad aad' p :
  aad_typed aad -> aad_typed aad' ->
  encrypt nonce enc pt aad = Ok p ->
  decrypt enc p aad' = Ok pt' ->
  aad' = aad /\ pt' = pt.
Proof.
  intros Ht Ht' Hp Hd. assert (aad' = aad) as ->.
  { revert Hp Hd. unfold encrypt, decrypt. destruct (validate_aad aad); [| done].
    destruct (aead_encrypt _ _ _ _) as [c|] eqn:Hc; [| done]. intros [= <-]. simpl.
    rewrite Z.eqb_refl. simpl. destruct (validate_aad aad'); [| done]. simpl.
    destruct (aead_decrypt _ _ _ _) as [m|] eqn:Hm; [| done]. intros _.
    apply aad_encode_inj; [done | done |]. by eapply aead_authentic. }
  split; [done |]. rewrite (decrypt_encrypt nonce enc enc pt aad p) in Hd; congruence.
Qed.

Lemma payload_opens_only_under_its_identity_witness :
  let enc := OperationPayloadEncryptor_new demo_dek 1 in
  exists p, @encrypt toy_aead demo_nonce enc "plain" sample_aad = Ok p
    /\ @decrypt toy_aead enc p sample_aad = Ok "plain"
    /\ (sample_aad = sample_aad /\ "plain" = "plain").
Proof.
  intros enc. eexists. split; [vm_compute; reflexivity |]. split; [vm_compute; reflexivity |].
  eapply (payload_opens_only_under_its_identity toy_aead _ _ demo_nonce enc "plain" "plain"
            sample_aad sample_aad);
    [solve_aad_typed | solve_aad_typed | vm_compute; reflexivity | vm_compute; reflexivity].
Defined.

(** One key per operation.  Any two successful [for_operation] calls for
    the same operation, interleaved in any way with each other and with the
    rest of the system, return the same data key and key version: the loser of
    the insert race adopts the winner's key. *)
Theorem one_key_per_operation (V : SecretVault) (LV : LawfulVault V)
    E E' d d' v v' id a a' b b' c enc enc' :
  lawful_env E -> lawful_env E' -> db_wf (w_db a) -> db_wf (w_db b) ->
  (0 <= v < 2 ^ 32)%Z -> (0 <= v' < 2 ^ 32)%Z ->
  String.length (d_dek d) = 32 -> String.length (d_dek d') = 32 ->
  exec_prog E (for_operation d v id) a = (a', Ok enc) ->
  exec_prog E' (for_operation d' v' id) b = (b', Ok enc') ->
  evolves (w_db a') c -> evolves (w_db b') c ->
  operation_dek enc = operation_dek enc'
  /\ encryptor_key_version enc = encryptor_key_version enc'.
Proof.
  intros HE HE' Ha Hb Hv Hv' Hl Hl' Hf Hf' Hac Hbc.
  destruct (for_operation_binds _ _ _ _ _ _ _ HE Ha Hv Hl Hf) as (Hk & _).
  destruct (for_operation_binds _ _ _ _ _ _ _ HE' Hb Hv' Hl' Hf') as (Hk' & _).
  destruct (bound_key_evolves _ _ _ _ _ Hac Hk) as (k & Hk1 & <- & Hg1).
  destruct (bound_key_evolves _ _ _ _ _ Hbc Hk') as (k' & Hk2 & <- & Hg2).
  rewrite Hk1 in Hk2. injection Hk2 as <-. split; congruence.
Qed.

(** A second task creates the key while the first is suspended after its own
    [vault.put] (before its call number 2). *)
Definition demo_rival : KeyDraws :=
  {| d_ids := {| request_id := "req"; new_id := "sec-rival" |};
     d_vault_nonce := "0123456789abcdefghijklmn";
     d_dek := "ZYXWVUTSRQPONMLKJIHGFEDCBA987654" |}.

Definition demo_rival_run (db : DB) : World * AppResult OperationPayloadEncryptor :=
  exec_prog idle (@for_operation demo_impl demo_rival 1 "op-1") (world0 db).

Definition demo_race : Env :=
  {| env_db i db := if (i =? 2)%nat then w_db (fst (demo_rival_run db)) else db;
     env_now := env_now idle; env_backend := env_backend idle;
     env_lookup := env_lookup idle; env_fence := env_fence idle |}.

Lemma demo_race_lawful : lawful_env demo_race.
Proof.
  intros i db Hwf. simpl. destruct (i =? 2)%nat; [| by apply evolves_refl].
  apply (exec_lawful idle _ (world0 db)); [apply quiet_lawful | | done].
  apply lawful_for_operation. lia.
Qed.

Definition demo_raced : World :=
  fst (exec_prog demo_race (@for_operation demo_impl demo_draws 1 "op-1") demo_world).

Lemma one_key_per_operation_witness :
  exists enc enc' w',
    exec_prog demo_race (@for_operation demo_impl demo_draws 1 "op-1") demo_world
      = (demo_raced, Ok enc)
    /\ operation_dek enc = d_dek demo_rival
    /\ exec_prog idle (@for_operation demo_impl demo_draws 1 "op-1") demo_raced = (w', Ok enc')
    /\ operation_dek enc = operation_dek enc'.
Proof.
  assert (db_wf (w_db demo_raced)) as Hwf.
  { eapply (exec_lawful demo_race); [apply demo_race_lawful | | apply demo_world_wf].
    apply lawful_for_operation. lia. }
  assert (evolves (w_db demo_raced)
            (w_db (fst (exec_prog idle (@for_operation demo_impl demo_draws 1 "op-1")
                          demo_raced)))) as He.
  { apply exec_lawful; [apply quiet_lawful | apply lawful_for_operation; lia | done]. }
  eexists _, _, _. split; [vm_compute; reflexivity |]. split; [reflexivity |].
  split; [vm_compute; reflexivity |].
  eapply (one_key_per_operation demo_impl _ demo_race idle demo_draws demo_draws 1 1 "op-1"
            demo_world demo_raced demo_raced _ _);
    [apply demo_race_lawful | apply quiet_lawful | apply demo_world_wf | exact Hwf
    | lia | lia | reflexivity | reflexivity
    | vm_compute; reflexivity | vm_compute; reflexivity
    | exact He | apply evolves_refl; exact (ev_wf _ _ He)].
Defined.
