(* ===== verification/Coordinator.v ===== *)
(** * The operation coordinator

    [src/modules/bridge/operation_coordinator.rs]: claims, state transitions,
    the commit of a mutation through the backend, replay of a generated
    operation, and reconciliation with the connector's journal.  Every method
    is a program ([Program]): one node per awaited call.  The backend and the
    journal answer through the environment; [serde_json] and SHA-256 are
    parameters ([Codecs]). *)

From stdpp Require Import pretty.
From S2P Require Import Prelude Text Errors StDomain Readiness ErrorMapper Operations OperationStore.
From S2P Require Import StoreInvariant StoreCorrect PollerOwnership Journal Vault Program OperationPayload.

(** The serializers and the digest the coordinator calls. *)
Class Codecs := {
  sha256_hex : string -> string;
  mutation_to_vec : StMutation -> option string;
  result_to_string : StCommitResult -> option string;
  payload_to_vec : OperationRecoveryPayload -> option string;
  payload_from_slice : string -> option OperationRecoveryPayload;
  value_from_slice : string -> option Value;
  value_to_string : Value -> string;
}.

Inductive ClaimDisposition : Set := Fresh | Resume | AlreadyDelivered | Rejected.

Record ClaimedOperation := {
  disposition : ClaimDisposition;
  claimed_record : BridgeOperationRecord;
}.

(** [payload_encryptor] and [payload_key_provider] (its key version). *)
Record OperationCoordinator := {
  payload_encryptor : option OperationPayloadEncryptor;
  payload_key_provider : option Z;
}.

(** The match on [(existing.status, existing.commit_state)] of [claim]. *)
Definition duplicate_disposition (status : BridgeOperationStatus)
    (commit_state : OperationCommitState) : ClaimDisposition :=
  match status, commit_state with
  | Delivered, OcApplied => AlreadyDelivered
  | Committed, OcApplied => Resume
  | (Committed | Delivered), OcNotApplied => Rejected
  | (Committed | Delivered), OcUnknown => Resume
  | _, OcNotApplied => Rejected
  | Conflict, _ => Rejected
  | Failed, _ => Rejected
  | Interrupted, _ => Rejected
  | _, _ => Resume
  end.

Section Coordinator.
Context `{IdSource} `{Redactor} `{Codecs} `{Aead} `{SecretVault}.

(** ** Errors *)

Definition bridge_error_from_app (operation_id : string) (error : AppError) : StBridgeError :=
  set_operation_id operation_id
    (StBridgeError_new StCommitFailed StageControl (a_message error) false NotStarted).

Definition operation_state_persistence_error (operation_id : string)
    (original_code : StErrorCode) (persistence_error : AppError)
    (commit_state : CommitState) : StBridgeError :=
  let error :=
    StBridgeError_new StCommitStateUnknown StageControl
      ("operation state persistence failed (original error code "
       +:+ as_str original_code +:+ "; persistence error code "
       +:+ a_code persistence_error +:+ ")") false commit_state in
  set_safe_detail
    (Some ("original_code=" +:+ as_str original_code +:+ "; persistence_code="
           +:+ a_code persistence_error))
    (set_operation_id operation_id error).

Definition unknown_commit_error (operation_id detail : string) : StBridgeError :=
  set_safe_detail (redact_detail detail)
    (set_operation_id operation_id
       (StBridgeError_new StCommitStateUnknown StageCommit
          "SillyTavern commit state is unknown; reconciliation is required" false Unknown)).

(** The [map_st_error] call of the not-applied arms. *)
Definition not_applied_error (operation_id : string) : StBridgeError :=
  map_st_error value_from_slice sha256_hex
    {| fact_stage := StageCommit; fact_endpoint_class := Some "connector";
       fact_operation_id := Some operation_id; fact_commit_state := NotApplied;
       fact_attempt := 1; fact_duration_ms := None;
       fact_failure := FControl StCommitFailed |}.

(** ** Keys and recovery payloads *)

Definition payload_key_unavailable : AppError :=
  service_unavailable "PAYLOAD_KEY_UNAVAILABLE" "operation payload key is unavailable".

Definition payload_encryptor_for_operation (self : OperationCoordinator) (d : KeyDraws)
    (operation_id : string) : Prog (AppResult OperationPayloadEncryptor) :=
  match payload_key_provider self with
  | Some key_version => for_operation d key_version operation_id
  | None => Ret (ok_or (payload_encryptor self) payload_key_unavailable)
  end.

Definition restore_payload_encryptor_for_operation (self : OperationCoordinator)
    (operation_id : string) : Prog (AppResult OperationPayloadEncryptor) :=
  match payload_key_provider self with
  | Some _ => restore_for_operation operation_id
  | None => Ret (ok_or (payload_encryptor self) payload_key_unavailable)
  end.

Definition recovery_payload (record : BridgeOperationRecord)
    : AppResult EncryptedOperationPayload :=
  match rec_payload record with
  | None => Err (bad_request "PAYLOAD_MISSING" "operation recovery payload is missing")
  | Some encrypted =>
      if is_blank (rec_id record) || is_blank (rec_bot_id record)
      then Err (bad_request "PAYLOAD_AAD_INVALID" "operation payload identity is incomplete")
      else Ok encrypted
  end.

(** [st_ops::mutation_digest]. *)
Definition mutation_digest (mutation : StMutation) : string :=
  sha256_hex (default "{}" (mutation_to_vec mutation)).

Definition recovery_aad (record : BridgeOperationRecord) (fence : PollerRuntimeFence)
    : OperationAad :=
  OperationAad_new_with_fence (rec_id record)
    (locator_hash sha256_hex (loc_handle (rec_locator record))
       (loc_avatar (rec_locator record)) (loc_chat_file (rec_locator record)))
    (rec_operation_kind record) (rec_actor_id record) fence.

Definition decode_and_validate_recovery_payload (encryptor : OperationPayloadEncryptor)
    (record : BridgeOperationRecord) (encrypted : EncryptedOperationPayload)
    (fence : PollerRuntimeFence) : AppResult OperationRecoveryPayload :=
  let? plaintext := decrypt encryptor encrypted (recovery_aad record fence) in
  let? payload :=
    ok_or (payload_from_slice plaintext)
      (bad_request "PAYLOAD_RECOVERY_INVALID" "operation recovery payload is invalid") in
  let? _ := validate payload in
  match rec_mutation_digest record with
  | Some expected_digest =>
      let actual :=
        match payload_mutation payload with
        | Some mutation => mutation_digest mutation
        | None => sha256_hex plaintext
        end in
      if negb (actual =?= expected_digest) then
        Err (conflict "PAYLOAD_DIGEST_MISMATCH" "operation recovery payload digest mismatch")
      else Ok payload
  | None => Ok payload
  end.

Definition decrypt_recovery_payload (self : OperationCoordinator)
    (record : BridgeOperationRecord) (internal_bot_id : string)
    (fence : PollerRuntimeFence) : AppResult OperationRecoveryPayload :=
  let? encryptor := ok_or (payload_encryptor self) payload_key_unavailable in
  let? encrypted := recovery_payload record in
  if negb (fence_is_valid fence) || is_blank internal_bot_id
     || negb (internal_bot_id =?= rec_bot_id record)
     || negb (f_internal_bot_id fence =?= rec_bot_id record)
  then Err (conflict "PAYLOAD_AAD_INVALID"
              "operation payload runtime fence does not match the historical operation")
  else decode_and_validate_recovery_payload encryptor record encrypted fence.

Definition decrypt_recovery_payload_for_operation (self : OperationCoordinator)
    (record : BridgeOperationRecord) (fence : PollerRuntimeFence)
    : Prog (AppResult OperationRecoveryPayload) :=
  await? encryptor := restore_payload_encryptor_for_operation self (rec_id record) in
  Ret (let? encrypted := recovery_payload record in
       if negb (fence_is_valid fence)
          || negb (f_internal_bot_id fence =?= rec_bot_id record)
       then Err (conflict "PAYLOAD_AAD_INVALID"
                   "operation recovery fence does not match the historical operation")
       else decode_and_validate_recovery_payload encryptor record encrypted fence).

(** ** After the backend answered

    The arms of the three [match result] blocks; the texts differ. *)

Record SettleTexts := {
  text_not_applied : string;
  text_unknown : string;
  text_rejected : string;
}.

(** [match self.store.mark_..().await { Ok(_) => Err(original), Err(e) => .. }] *)
Definition settle_failure (operation_id : string)
    (store_call : Prog (AppResult BridgeOperationRecord)) (original : StBridgeError)
    (commit_state : CommitState) : Prog (StResult StCommitResult) :=
  await stored := store_call in
  Ret (Err (match stored with
            | Ok _ => original
            | Err persistence_error =>
                operation_state_persistence_error operation_id (e_code original)
                  persistence_error commit_state
            end)).

Definition settle_not_applied (operation_id summary : string) (original : StBridgeError)
    : Prog (StResult StCommitResult) :=
  settle_failure operation_id
    (db_call (λ now, mark_failed_with_state now operation_id "commit"
                       (as_str StCommitFailed) summary false OcNotApplied))
    original NotApplied.

Definition settle_unknown (operation_id detail : string) : Prog (StResult StCommitResult) :=
  settle_failure operation_id
    (db_call (λ now, mark_commit_unknown now operation_id))
    (unknown_commit_error operation_id detail) Unknown.

(** [on_store_error]: what the caller does when an applied commit cannot be
    recorded. *)
Definition settle_result (texts : SettleTexts) (operation_id : string)
    (on_store_error : AppError -> Prog (StResult StCommitResult))
    (result : StResult StCommitResult) : Prog (StResult StCommitResult) :=
  match result with
  | Ok result =>
      match cres_status result with
      | CommitApplied | CommitAlreadyApplied =>
          match result_to_string result with
          | None =>
              Ret (Err (unknown_commit_error operation_id
                          "connector result serialization failed"))
          | Some encoded =>
              await stored :=
                db_call (λ now, mark_committed_with_state now operation_id encoded
                                  OcNotStarted) in
              match stored with
              | Ok _ => Ret (Ok result)
              | Err error => on_store_error error
              end
          end
      | CommitNotApplied =>
          settle_not_applied operation_id (text_not_applied texts)
            (not_applied_error operation_id)
      | CommitUnknown => settle_unknown operation_id (text_unknown texts)
      end
  | Err error =>
      if e_commit_state error =?= NotApplied
      then settle_not_applied operation_id (text_rejected texts) error
      else settle_unknown operation_id (text_unknown texts)
  end.

(** The inner match of [commit] and [create]. *)
Definition record_unrecorded (operation_id : string) (error : AppError)
    : Prog (StResult StCommitResult) :=
  await marked := db_call (λ now, mark_commit_unknown now operation_id) in
  Ret (Err (operation_state_persistence_error operation_id StCommitStateUnknown
              (match marked with Ok _ => error | Err persistence_error => persistence_error end)
              Unknown)).

(** ** The commands *)

Definition open_gate (operation_id : string) : Prog (StResult BridgeOperationRecord) :=
  prog_map_err (bridge_error_from_app operation_id)
    (db_call (λ now, mark_committing now operation_id)).

Definition create_texts : SettleTexts :=
  {| text_not_applied := "create was not applied";
     text_unknown := "connector create outcome is not known";
     text_rejected := "create was rejected before mutation" |}.

Definition create (command : CreateStChat) : Prog (StResult StCommitResult) :=
  let operation_id := cr_operation_id command in
  await? _ := open_gate operation_id in
  await result := backend_call operation_id (CallCreate command) in
  settle_result create_texts operation_id (record_unrecorded operation_id) result.

Definition commit_texts : SettleTexts :=
  {| text_not_applied := "commit was not applied";
     text_unknown := "connector commit outcome is not known";
     text_rejected := "commit was rejected before mutation" |}.

Definition commit (operation_id : string) (locator : StChatLocator)
    (expected_sha256 expected_integrity : string) (mutation : StMutation)
    (fence : PollerRuntimeFence) : Prog (StResult StCommitResult) :=
  if negb (fence_is_valid fence) then
    Ret (Err (unknown_commit_error operation_id "runtime fence is invalid"))
  else
    await? _ := open_gate operation_id in
    await result :=
      backend_call operation_id
        (CallCommit {| cm_operation_id := operation_id; cm_locator := locator;
                       cm_expected_sha256 := expected_sha256;
                       cm_expected_integrity := expected_integrity;
                       cm_mutation := mutation; cm_fence := fence |}) in
    settle_result commit_texts operation_id (record_unrecorded operation_id) result.

Definition replay_texts : SettleTexts :=
  {| text_not_applied := "replayed commit was not applied";
     text_unknown := "replayed commit outcome is unknown";
     text_rejected := "replayed commit was rejected before mutation" |}.

(** The backend call a recovered payload stands for. *)
Definition replay_call (record : BridgeOperationRecord) (payload : OperationRecoveryPayload)
    : BackendCall :=
  match payload with
  | PCreate command => CallCreate command
  | PAppend mutation sha integrity fence | PReplace mutation sha integrity fence
  | PUndo mutation sha integrity fence | PCompress mutation sha integrity fence =>
      CallCommit {| cm_operation_id := rec_id record; cm_locator := rec_locator record;
                    cm_expected_sha256 := sha; cm_expected_integrity := integrity;
                    cm_mutation := mutation; cm_fence := fence |}
  end.

Definition replay_generated (self : OperationCoordinator) (record : BridgeOperationRecord)
    (internal_bot_id : string) (fence : PollerRuntimeFence)
    : Prog (StResult StCommitResult) :=
  if negb (fence_is_valid fence) || is_blank internal_bot_id
     || negb (internal_bot_id =?= rec_bot_id record)
     || negb (f_internal_bot_id fence =?= rec_bot_id record)
  then
    Ret (Err (bridge_error_from_app (rec_id record)
                (conflict "PAYLOAD_AAD_INVALID"
                   "operation replay bot identity does not match the historical operation")))
  else if negb (rec_status record =?= Generated) then
    Ret (Err (unknown_commit_error (rec_id record)
                "only a generated operation can be replayed"))
  else
    await? payload :=
      prog_map_err (bridge_error_from_app (rec_id record))
        (decrypt_recovery_payload_for_operation self record fence) in
    await? _ := open_gate (rec_id record) in
    await result := backend_call (rec_id record) (replay_call record payload) in
    settle_result replay_texts (rec_id record)
      (λ error, Ret (Err (unknown_commit_error (rec_id record) (AppError_to_string error))))
      result.

Definition claim (request : ClaimOperationRequest)
    : Prog (result ClaimedOperation OperationClaimError) :=
  await claimed := db_call (λ now, claim_operation now request) in
  Ret (match claimed with
       | Ok record => Ok {| disposition := Fresh; claimed_record := record |}
       | Err (DuplicateClaim existing) =>
           Ok {| disposition := duplicate_disposition (rec_status existing)
                                  (rec_commit_state existing);
                 claimed_record := existing |}
       | Err error => Err error
       end).

(** ** Single transitions *)

Definition mark_snapshot_ready (operation_id : string)
    (source_sha256 source_integrity : option string) (source_size message_count : option Z)
    : Prog (StResult BridgeOperationRecord) :=
  prog_map_err (bridge_error_from_app operation_id)
    (db_call (λ now, update_snapshot_ready now operation_id source_sha256 source_integrity
                       source_size message_count)).

Definition mark_generating (operation_id : string) : Prog (StResult BridgeOperationRecord) :=
  prog_map_err (bridge_error_from_app operation_id)
    (db_call (λ now, update_generating now operation_id)).

Definition settle_generation_failure (operation_id : string) (error : StBridgeError)
    : Prog StBridgeError :=
  await stored :=
    db_call (λ now, mark_failed now operation_id (as_str (e_stage error))
                      (as_str (e_code error)) (e_safe_message error) (e_retryable error)) in
  Ret (match stored with
       | Ok _ => error
       | Err persistence_error =>
           operation_state_persistence_error operation_id (e_code error) persistence_error
             NotStarted
       end).

Definition mark_committed_result (operation_id : string) (result : StCommitResult)
    (expected_commit_state : OperationCommitState) : Prog (StResult BridgeOperationRecord) :=
  match result_to_string result with
  | None =>
      Ret (Err (unknown_commit_error operation_id "connector result serialization failed"))
  | Some encoded =>
      prog_map_err (bridge_error_from_app operation_id)
        (db_call (λ now, mark_committed_with_state now operation_id encoded
                           expected_commit_state))
  end.

Definition mark_unknown (operation_id : string) : Prog (StResult BridgeOperationRecord) :=
  prog_map_err (bridge_error_from_app operation_id)
    (db_call (λ now, mark_commit_unknown now operation_id)).

Definition mark_generated (operation_id : string) (payload : EncryptedOperationPayload)
    (digest : string) : Prog (StResult BridgeOperationRecord) :=
  prog_map_err (bridge_error_from_app operation_id)
    (db_call (λ now, update_generated now operation_id payload digest)).

Definition coordinator_mark_delivered (operation_id : string)
    : Prog (StResult BridgeOperationRecord) :=
  prog_map_err (bridge_error_from_app operation_id)
    (db_call (λ now, mark_delivered now operation_id)).

(** ** Reconciliation *)

Definition json_opt_str (o : option string) : Value :=
  match o with Some s => JString s | None => JNull end.
Definition json_opt_u64 (o : option Z) : Value :=
  match o with Some n => JNumber (pretty n) | None => JNull end.

Definition journal_result (journal : StOperationJournalRecord) : string :=
  value_to_string
    (JObject [("status", JString "already_applied");
              ("newSha256", json_opt_str (sj_after_sha256 journal));
              ("newIntegrity", json_opt_str (sj_after_integrity journal));
              ("byteLength", json_opt_u64 (sj_after_byte_length journal));
              ("messageCount", json_opt_u64 (sj_after_message_count journal))]).

Definition already_applied (record : BridgeOperationRecord) : bool :=
  ((rec_status record =?= Committed) || (rec_status record =?= Delivered))
  && (rec_commit_state record =?= OcApplied).

Definition reconcile_commit (record : BridgeOperationRecord) (locator_hash : string)
    : Prog (AppResult (option BridgeOperationRecord)) :=
  if already_applied record then Ret (Ok (Some record))
  else if negb (rec_status record =?= Committing) then Ret (Ok None)
  else
    match rec_mutation_digest record with
    | None => Ret (Ok None)
    | Some digest =>
        await? found := Lookup (rec_id record) Ret in
        match found with
        | None => Ret (Ok None)
        | Some journal =>
            if negb (identity_matches journal (rec_id record) locator_hash digest) then
              Ret (Err (conflict "ST_OPERATION_ID_REUSED"
                          "operation journal identity does not match"))
            else if negb (sj_status journal =?= SjApplied) then Ret (Ok None)
            else
              await stored :=
                db_call (λ now, mark_committed_with_state now (rec_id record)
                                  (journal_result journal) (rec_commit_state record)) in
              Ret (result_map Some stored)
        end
    end.
End Coordinator.
