(* ===== verification/ChannelContext.v ===== *)
(** * Channel contexts: what a Telegram chat is talking to

    [src/modules/bridge/channel_context.rs] and the locator of
    [src/domain/channel.rs], over the table [channel_contexts] of the shared
    database (channel 'telegram').  Each write is one [INSERT .. ON CONFLICT]
    statement; the foreign keys on accounts and workspaces are checked. *)

From S2P Require Import Prelude Errors StDomain Operations OperationStore StoreInvariant StoreCorrect.
From S2P Require Import PollerOwnership Journal Vault.

Record StChannelLocator := {
  cl_handle : option string;
  cl_avatar : option string;
  cl_character_name : option string;
  cl_chat_file : option string;
  cl_chat_model_id : option string;
  cl_compression_model_id : option string;
}.

#[export] Instance StChannelLocator_eq_dec : EqDecision StChannelLocator.
Proof. solve_decision. Defined.

(** [StChannelLocator::default()]. *)
Definition no_channel_locator : StChannelLocator := Build_StChannelLocator None None None None None None.

Definition locator_of_row (r : ChannelRow) : StChannelLocator :=
  {| cl_handle := c_st_handle r; cl_avatar := c_st_character_avatar r;
     cl_character_name := c_st_character_name r; cl_chat_file := c_st_chat_file r;
     cl_chat_model_id := c_chat_model_id r; cl_compression_model_id := c_compression_model_id r |}.

Definition set_channel_contexts (m : gmap (string * string) ChannelRow) (db : DB) : DB :=
  {| workspaces := workspaces db; channel_contexts := m;
     bridge_operations := bridge_operations db;
     operation_key_refs := operation_key_refs db;
     operation_execution_leases := operation_execution_leases db;
     accounts := accounts db; telegram_bots := telegram_bots db; secrets := secrets db;
     in_process_claims := in_process_claims db |}.

Definition load (account_id context_key : string) (db : DB) : StChannelLocator :=
  default no_channel_locator (locator_of_row <$> channel_contexts db !! (account_id, context_key)).

(** [INSERT .. ON CONFLICT DO UPDATE]: [excluded] is the row that was to be
    inserted and [merge] what the [DO UPDATE] makes of it and the row in place. *)
Definition upsert_channel (account_id workspace_id context_key : string) (excluded : ChannelRow)
    (merge : ChannelRow -> ChannelRow) (db : DB) : DB * AppResult unit :=
  if decide (account_id ∈ accounts db /\ workspace_id ∈ workspaces db) then
    (set_channel_contexts
       (<[(account_id, context_key) :=
            default excluded (merge <$> channel_contexts db !! (account_id, context_key))]>
          (channel_contexts db)) db, Ok tt)
  else (db, Err database_error).

Definition select_character (now account_id workspace_id context_key handle avatar
    character_name : string) (db : DB) : DB * AppResult unit :=
  upsert_channel account_id workspace_id context_key
    {| c_workspace_id := Some workspace_id; c_st_handle := Some handle;
       c_st_character_avatar := Some avatar; c_st_character_name := Some character_name;
       c_st_chat_file := None; c_chat_model_id := None; c_compression_model_id := None;
       c_updated_at := now |}
    (λ row,
       {| c_workspace_id := Some workspace_id; c_st_handle := Some handle;
          c_st_character_avatar := Some avatar; c_st_character_name := Some character_name;
          c_st_chat_file := None; c_chat_model_id := c_chat_model_id row;
          c_compression_model_id := c_compression_model_id row; c_updated_at := now |}) db.

Definition select_chat (now account_id workspace_id context_key : string)
    (locator : StChatLocator) (db : DB) : DB * AppResult unit :=
  upsert_channel account_id workspace_id context_key
    {| c_workspace_id := Some workspace_id; c_st_handle := Some (loc_handle locator);
       c_st_character_avatar := Some (loc_avatar locator);
       c_st_character_name := Some (loc_character_name locator);
       c_st_chat_file := Some (loc_chat_file locator);
       c_chat_model_id := None; c_compression_model_id := None; c_updated_at := now |}
    (λ row,
       {| c_workspace_id := Some workspace_id; c_st_handle := Some (loc_handle locator);
          c_st_character_avatar := Some (loc_avatar locator);
          c_st_character_name := Some (loc_character_name locator);
          c_st_chat_file := Some (loc_chat_file locator);
          c_chat_model_id := c_chat_model_id row;
          c_compression_model_id := c_compression_model_id row; c_updated_at := now |}) db.

Definition set_model_override (now account_id workspace_id context_key purpose : string)
    (model_id : option string) (db : DB) : DB * AppResult unit :=
  let chat_model := if purpose =?= "chat" then model_id else None in
  let compression_model := if purpose =?= "compression" then model_id else None in
  upsert_channel account_id workspace_id context_key
    {| c_workspace_id := Some workspace_id; c_st_handle := None; c_st_character_avatar := None;
       c_st_character_name := None; c_st_chat_file := None; c_chat_model_id := chat_model;
       c_compression_model_id := compression_model; c_updated_at := now |}
    (λ row,
       {| c_workspace_id := Some workspace_id; c_st_handle := c_st_handle row;
          c_st_character_avatar := c_st_character_avatar row;
          c_st_character_name := c_st_character_name row; c_st_chat_file := c_st_chat_file row;
          c_chat_model_id := if purpose =?= "chat" then chat_model else c_chat_model_id row;
          c_compression_model_id :=
            if purpose =?= "compression" then compression_model else c_compression_model_id row;
          c_updated_at := now |}) db.

(** [ORDER BY updated_at DESC]. *)
Definition newer_first (a b : ChannelRow) : bool := text_le (c_updated_at b) (c_updated_at a).

(** The rows of [account_id] that have a chat selected, the most recent first. *)
Definition recent_rows (account_id : string) (db : DB) : list ChannelRow :=
  sort_by newer_first
    (map snd (List.filter
                (λ kr, (kr.1.1 =?= account_id) && negb (c_st_chat_file kr.2 =?= None))
                (map_to_list (channel_contexts db)))).

(** SQLite reads a negative [LIMIT] as no limit. *)
Definition list_recent (account_id : string) (limit : Z) (db : DB) : list StChannelLocator :=
  let rows := recent_rows account_id db in
  map locator_of_row (if (limit <? 0)%Z then rows else take (Z.to_nat limit) rows).

(** ** The contexts refine a map from contexts to locators *)

Lemma set_channel_contexts_evolves m db : db_wf db -> evolves db (set_channel_contexts m db).
Proof.
  intros Hwf. split; try done.
  - split; apply Hwf.
  - by apply rows_kept_same.
Qed.

Lemma upsert_channel_evolves account_id workspace_id context_key excluded merge db :
  db_wf db -> evolves db (fst (upsert_channel account_id workspace_id context_key excluded merge db)).
Proof.
  intros Hwf. unfold upsert_channel. case_decide; simpl;
    [by apply set_channel_contexts_evolves | by apply evolves_refl].
Qed.

(** The writes of the store, and what each one does to the locator of the context
    it is made for. *)
Inductive ChannelWrite : Set :=
| SelectCharacter (handle avatar character_name : string)
| SelectChat (locator : StChatLocator)
| SetModelOverride (purpose : string) (model_id : option string).

Definition channel_write (now account_id workspace_id context_key : string) (u : ChannelWrite)
    : DB -> DB * AppResult unit :=
  match u with
  | SelectCharacter handle avatar name =>
      select_character now account_id workspace_id context_key handle avatar name
  | SelectChat locator => select_chat now account_id workspace_id context_key locator
  | SetModelOverride purpose model_id =>
      set_model_override now account_id workspace_id context_key purpose model_id
  end.

Definition write_locator (u : ChannelWrite) (l : StChannelLocator) : StChannelLocator :=
  match u with
  | SelectCharacter handle avatar name =>
      {| cl_handle := Some handle; cl_avatar := Some avatar; cl_character_name := Some name;
         cl_chat_file := None; cl_chat_model_id := cl_chat_model_id l;
         cl_compression_model_id := cl_compression_model_id l |}
  | SelectChat c =>
      {| cl_handle := Some (loc_handle c); cl_avatar := Some (loc_avatar c);
         cl_character_name := Some (loc_character_name c);
         cl_chat_file := Some (loc_chat_file c); cl_chat_model_id := cl_chat_model_id l;
         cl_compression_model_id := cl_compression_model_id l |}
  | SetModelOverride purpose model_id =>
      {| cl_handle := cl_handle l; cl_avatar := cl_avatar l;
         cl_character_name := cl_character_name l; cl_chat_file := cl_chat_file l;
         cl_chat_model_id := if purpose =?= "chat" then model_id else cl_chat_model_id l;
         cl_compression_model_id :=
           if purpose =?= "compression" then model_id else cl_compression_model_id l |}
  end.

Lemma load_upsert account_id workspace_id context_key excluded merge db db' a k :
  upsert_channel account_id workspace_id context_key excluded merge db = (db', Ok tt) ->
  load a k db' =
  if decide ((a, k) = (account_id, context_key)) then
    locator_of_row (default excluded (merge <$> channel_contexts db !! (account_id, context_key)))
  else load a k db.
Proof.
  unfold upsert_channel. case_decide; [| done]. intros [= <-]. unfold load. simpl.
  case_decide as Hk; [rewrite Hk; by rewrite lookup_insert_eq | by rewrite lookup_insert_ne].
Qed.

(** What a write that returns [r] did, in terms of locators. *)
Definition write_effect (account_id workspace_id context_key : string) (u : ChannelWrite)
    (db db' : DB) (r : AppResult unit) : Prop :=
  match r with
  | Ok _ =>
      (forall a k, load a k db' =
         if decide ((a, k) = (account_id, context_key)) then write_locator u (load a k db)
         else load a k db)
      /\ db' = set_channel_contexts (channel_contexts db') db
      /\ account_id ∈ accounts db /\ workspace_id ∈ workspaces db
  | Err e =>
      db' = db /\ e = database_error
      /\ ~ (account_id ∈ accounts db /\ workspace_id ∈ workspaces db)
  end.

Lemma upsert_effect account_id workspace_id context_key u excluded merge db db' r :
  (forall row, locator_of_row (merge row) = write_locator u (locator_of_row row)) ->
  locator_of_row excluded = write_locator u no_channel_locator ->
  upsert_channel account_id workspace_id context_key excluded merge db = (db', r) ->
  write_effect account_id workspace_id context_key u db db' r.
Proof.
  intros Hm He Hu. unfold write_effect. destruct r as [[]|e].
  - split_and!.
    + intros a k. rewrite (load_upsert _ _ _ _ _ _ _ a k Hu). case_decide as Hk; [| done].
      injection Hk as -> ->. unfold load. destruct (channel_contexts db !! _); simpl; auto.
    + unfold upsert_channel in Hu. case_decide; by simplify_eq.
    + unfold upsert_channel in Hu. case_decide; naive_solver.
    + unfold upsert_channel in Hu. case_decide; naive_solver.
  - unfold upsert_channel in Hu. case_decide; by simplify_eq.
Qed.

(** The store of channel contexts refines a map from contexts to locators: a
    write that succeeds changes the locator of its own context the way it is
    specified (selecting a character forgets the chat and keeps the model
    overrides, selecting a chat keeps them too, an override changes one purpose)
    and no other context, account or table, and one that fails (an unknown
    account or workspace) changes nothing at all. *)
Theorem channel_writes_refine_locators now account_id workspace_id context_key u db db' r :
  channel_write now account_id workspace_id context_key u db = (db', r) ->
  write_effect account_id workspace_id context_key u db db' r.
Proof.
  destruct u; simpl; apply upsert_effect; intros; unfold locator_of_row; simpl;
    repeat case_bool_decide; reflexivity.
Qed.

Definition sample_db : DB :=
  {| workspaces := {["w"]}; channel_contexts := ∅; bridge_operations := ∅;
     operation_key_refs := ∅; operation_execution_leases := ∅; accounts := {["a"]};
     telegram_bots := ∅; secrets := ∅; in_process_claims := ∅ |}.

Lemma channel_writes_refine_locators_witness :
  let db' := fst (channel_write "t" "a" "w" "k" (SelectCharacter "h" "av" "n") sample_db) in
  cl_avatar (load "a" "k" db') = Some "av" /\ load "a" "k2" db' = no_channel_locator.
Proof.
  intros db'.
  destruct (channel_writes_refine_locators "t" "a" "w" "k" (SelectCharacter "h" "av" "n") sample_db
              db' (Ok tt) eq_refl) as [Hl _].
  split; rewrite Hl; reflexivity.
Defined.

(** The recent chats of an account are its contexts with a chat selected, each
    once, the most recently updated first, and a limit cuts the list's tail: no
    chat that is left out was updated after one that is listed. *)
Theorem recent_chats_are_the_latest account_id limit db :
  let rows := recent_rows account_id db in
  rows ≡ₚ map snd (List.filter (λ kr, (kr.1.1 =?= account_id) && negb (c_st_chat_file kr.2 =?= None))
                     (map_to_list (channel_contexts db)))
  /\ exists shown hidden, rows = shown ++ hidden
     /\ list_recent account_id limit db = map locator_of_row shown
     /\ ((0 <= limit)%Z -> length shown = Nat.min (Z.to_nat limit) (length rows))
     /\ forall a b, a ∈ shown -> b ∈ hidden -> text_le (c_updated_at b) (c_updated_at a) = true.
Proof.
  intros rows. split; [apply sort_by_perm |].
  assert (Hs : StronglySorted (λ a b, newer_first a b = true) rows).
  { apply sort_by_sorted; unfold newer_first; intros; [apply text_le_total |].
    eapply text_le_trans; eassumption. }
  exists (if (limit <? 0)%Z then rows else take (Z.to_nat limit) rows),
    (if (limit <? 0)%Z then [] else drop (Z.to_nat limit) rows).
  split_and!.
  - destruct (limit <? 0)%Z; [by rewrite app_nil_r | by rewrite take_drop].
  - done.
  - intros Hl. destruct (Z.ltb_spec limit 0); [lia |]. apply length_take.
  - intros a b Ha Hb. destruct (limit <? 0)%Z; [by apply not_elem_of_nil in Hb |].
    rewrite <- (take_drop (Z.to_nat limit) rows) in Hs.
    by apply (sorted_app_related _ _ _ Hs).
Qed.
