(* ===== verification/StOps.v ===== *)
(** * SillyTavern chat operations

    [src/modules/bridge/st_ops.rs]: what the bridge reads off a chat (the last
    turn, the prompt, what to compress) and the mutations it asks for.  The
    serializer and SHA-256 are those of [Codecs]. *)

From stdpp Require Import pretty.
From S2P Require Import Prelude Text Errors StDomain Readiness ErrorMapper Prompt Operations OperationStore.
From S2P Require Import StoreInvariant StoreCorrect PollerOwnership Journal Vault Program OperationPayload.
From S2P Require Import Coordinator.

Definition RECENT_LIMIT : nat := 24.
Definition COMPRESS_KEEP_RECENT : nat := 15.

Definition DIGEST_MARK : string := "[CompressionDigest]".

(** [item.get(key).and_then(Value::as_bool) == Some(true)]. *)
Definition flag (key : string) (item : Value) : bool :=
  (value_get item key ≫= value_as_bool) =?= Some true.

Definition visible_text (item : Value) : string :=
  let display :=
    extra ← value_get item "extra"; v ← value_get extra "display_text"; value_as_str v in
  let text :=
    match display with
    | Some t => Some t
    | None => value_get item "mes" ≫= value_as_str
    end in
  trim (default "" text).

(** ** The last turn *)

(** The loop of [last_dialogue_indexes], over the messages from the last to the
    one at index 1, with their indexes. *)
Fixpoint find_turn (assistant : option nat) (l : list (nat * Value)) : option (nat * nat) :=
  match l with
  | [] => None
  | (index, item) :: l =>
      if flag "is_system" item then find_turn assistant l
      else
        match assistant with
        | None =>
            if negb (flag "is_user" item) then find_turn (Some index) l
            else find_turn assistant l
        | Some a =>
            if flag "is_user" item then Some (index, a) else find_turn assistant l
        end
  end.

Definition indexed {A} (l : list A) : list (nat * A) := imap pair l.

Definition last_dialogue_indexes (messages : list Value) : option (nat * nat) :=
  find_turn None (rev (drop 1 (indexed messages))).

Section Ops.
Context `{Codecs}.

(** [serde_json::to_vec] of a [Value] does not fail. *)
Definition message_sha256 (value : Value) : string := sha256_hex (value_to_string value).

Definition last_turn_hashes (messages : list Value) : option (string * string) :=
  '(user, assistant) ← last_dialogue_indexes messages;
  u ← messages !! user; a ← messages !! assistant;
  Some (message_sha256 u, message_sha256 a).

Definition undo_mutation (snapshot : StChatSnapshot) : option StMutation :=
  '(user, assistant) ← last_turn_hashes (sn_parsed_chat snapshot);
  Some (UndoLastTurn user assistant).

(** ** Messages and mutations; [now] is [now_rfc3339()]. *)

Definition chat_message (now name : string) (is_user : bool) (text : string) : StChatMessage :=
  {| m_name := name; m_is_user := is_user; m_mes := text; m_send_date := Some now; m_extra := [] |}.

Definition append_mutation (now user_name character_name user_text assistant_text : string)
    : StMutation :=
  AppendTurn (chat_message now user_name true user_text)
    (chat_message now character_name false
       (normalize_assistant_reply character_name assistant_text)).

Definition replace_assistant_mutation (now : string) (snapshot : StChatSnapshot)
    (character_name assistant_text : string) : option StMutation :=
  '(_, assistant) ← last_dialogue_indexes (sn_parsed_chat snapshot);
  item ← sn_parsed_chat snapshot !! assistant;
  Some (ReplaceLastAssistant (message_sha256 item)
          (chat_message now character_name false
             (normalize_assistant_reply character_name assistant_text))).

(** ** Prompts *)

Definition card_fields (character : StCharacterSummary) : NormalizedCardFields :=
  {| nc_name := sc_name character; nc_description := sc_description character;
     nc_personality := sc_personality character; nc_scenario := sc_scenario character;
     nc_first_mes := sc_first_mes character; nc_mes_example := sc_mes_example character;
     nc_system_prompt := ""; nc_post_history_instructions := "" |}.

Definition system_message (content : string) : StPromptMessage :=
  {| pm_role := "system"; pm_content := content; pm_name := None |}.

(** One item of the chat in the loop of [prompt_messages]. *)
Definition history_message (character_name user_name : string) (item : Value) : StPromptMessage :=
  let is_user := flag "is_user" item in
  let name :=
    match value_get item "name" ≫= value_as_str with
    | Some n => if n =?= "" then if is_user then user_name else character_name else n
    | None => if is_user then user_name else character_name
    end in
  {| pm_role := if is_user then "user" else "assistant";
     pm_content := normalize_model_input_text (visible_text item);
     pm_name := Some name |}.

Fixpoint collect_history (character_name user_name : string) (items : list Value)
    (digest : option StPromptMessage) (history : list StPromptMessage)
    : option StPromptMessage * list StPromptMessage :=
  match items with
  | [] => (digest, history)
  | item :: items =>
      let text := visible_text item in
      if text =?= "" then collect_history character_name user_name items digest history
      else if starts_with text DIGEST_MARK then
        collect_history character_name user_name items
          (Some (system_message (normalize_model_input_text text))) history
      else if flag "is_system" item then
        collect_history character_name user_name items digest history
      else
        collect_history character_name user_name items digest
          (history ++ [history_message character_name user_name item])
  end.

(** [history.remove(history.iter().rposition(..))]. *)
Fixpoint remove_last {A} (p : A -> bool) (l : list A) : list A :=
  match l with
  | [] => []
  | x :: l => if p x && negb (existsb p l) then l else x :: remove_last p l
  end.

Definition prompt_messages (character : StCharacterSummary) (user_name : string)
    (parsed_chat : list Value) (extra_user : option string) (drop_last_assistant : bool)
    : list StPromptMessage :=
  let system := build_system_prompt (card_fields character) user_name in
  let '(digest, history) :=
    collect_history (sc_name character) user_name (drop 1 parsed_chat) None [] in
  let history :=
    if drop_last_assistant then remove_last (λ m, pm_role m =?= "assistant") history
    else history in
  let history := drop (length history - RECENT_LIMIT) history in
  [system_message system] ++ option_list digest ++ history
  ++ option_list ((λ text, {| pm_role := "user"; pm_content := normalize_model_input_text text;
                              pm_name := Some user_name |}) <$> extra_user).

Definition compression_messages (text : string) : list StPromptMessage :=
  [system_message COMPRESSION_SYSTEM_PROMPT;
   {| pm_role := "user"; pm_content := text; pm_name := None |}].

(** ** Compression *)

Definition counts_as_recent (item : Value) : bool :=
  negb (flag "is_system" item) && negb (visible_text item =?= "").

(** [.rev().filter(..).take(15).last().map(index)]. *)
Definition keep_from (parsed_chat : list Value) : option nat :=
  fst <$> last (take COMPRESS_KEEP_RECENT
    (filter (λ ii, counts_as_recent ii.2 = true) (rev (indexed parsed_chat)))).

Definition before_recent (keep : option nat) (index : nat) : bool :=
  match keep with Some k => (index <? k)%nat | None => (Z.of_nat index <? 2 ^ 64 - 1)%Z end.

Definition already_compressed (item : Value) : bool :=
  (extra ← value_get item "extra"; v ← value_get extra "compressed"; value_as_bool v)
  =?= Some true.

Definition compressible (keep : option nat) (ii : nat * Value) : bool :=
  let '(index, item) := ii in
  (1 <=? index)%nat && before_recent keep index
  && negb (flag "is_user" item) && negb (flag "is_system" item)
  && negb (visible_text item =?= "") && negb (starts_with (visible_text item) DIGEST_MARK)
  && negb (already_compressed item).

Definition compress_targets (parsed_chat : list Value) : list (Z * string * string) :=
  let keep := keep_from parsed_chat in
  map (λ ii, (Z.of_nat ii.1 mod 2 ^ 32, message_sha256 ii.2, visible_text ii.2)%Z)
    (List.filter (compressible keep) (indexed parsed_chat)).

Definition compress_patch (index : Z) (expected_sha256 compressed : string) : StMessagePatch :=
  let cleaned := sanitize_compression compressed in
  {| p_index := index; p_expected_message_sha256 := expected_sha256; p_mes := Some cleaned;
     p_extra := Some {| x_display_text := Some cleaned; x_compressed := Some true |} |}.

(** ** Generation payloads *)

Definition prompt_message_json (m : StPromptMessage) : Value :=
  JObject [("role", JString (pm_role m)); ("content", JString (pm_content m));
           ("name", json_opt_str (pm_name m))].

Definition generate_payload (settings : StGenerationSettings) (request : StGenerationRequest)
    : list (string * Value) :=
  let model :=
    match gq_model_id request with
    | Some m => if m =?= "" then gs_model settings else m
    | None => gs_model settings
    end in
  [("chat_completion_source", JString (gs_chat_completion_source settings));
   ("model", JString model);
   ("messages", JArray (map prompt_message_json (gq_messages request)));
   ("temperature", JNumber (default (gs_temperature settings) (gq_temperature request)));
   ("top_p", JNumber (default (gs_top_p settings) (gq_top_p request)));
   ("max_tokens", JNumber (pretty (default (gs_max_tokens settings) (gq_max_tokens request))));
   ("stream", JBool false)]
  ++ (if gs_chat_completion_source settings =?= "custom" then
        [("custom_url", JString (gs_custom_url settings));
         ("custom_prompt_post_processing", JString (gs_custom_prompt_post_processing settings));
         ("custom_include_body", JString ""); ("custom_include_headers", JString "");
         ("custom_exclude_body", JString "")]
      else []).

(** [payload["stream"] = json!(true)]: the member keeps its place. *)
Fixpoint assoc_set {A} (k : string) (v : A) (m : list (string * A)) : list (string * A) :=
  match m with
  | [] => [(k, v)]
  | (k', v') :: m => if k =?= k' then (k, v) :: m else (k', v') :: assoc_set k v m
  end.

Definition generate_stream_payload (settings : StGenerationSettings)
    (request : StGenerationRequest) : list (string * Value) :=
  assoc_set "stream" (JBool true) (generate_payload settings request).

(** [payload.pointer("/choices/0/<member>/content").and_then(Value::as_str)]. *)
Definition choice_content (payload : Value) (member : string) : option string :=
  choices ← value_get payload "choices";
  choice ← match choices with
           | JArray items => head items
           | JObject members => assoc_get "0" members
           | _ => None
           end;
  m ← value_get choice member; c ← value_get m "content"; value_as_str c.

Definition generate_text_from_payload (payload : Value) : option string :=
  let text :=
    match choice_content payload "message" with
    | Some t => Some t
    | None =>
        match choice_content payload "delta" with
        | Some t => Some t
        | None => value_get payload "content" ≫= value_as_str
        end
    end in
  text ← text; if trim text =?= "" then None else Some (trim text).
End Ops.

(** ** The last turn, specified *)

Definition speaks (user : bool) (item : Value) : Prop :=
  flag "is_system" item = false /\ flag "is_user" item = user.

#[export] Instance speaks_dec user item : Decision (speaks user item).
Proof. unfold speaks. apply _. Defined.

(** The last message of an assistant and the last user message before it, the
    first line of the chat (its header) apart. *)
Definition last_turn (messages : list Value) (user assistant : nat) : Prop :=
  exists header pre u mid a post,
    messages = header :: pre ++ u :: mid ++ a :: post
    /\ user = S (length pre) /\ assistant = S (user + length mid)
    /\ speaks true u /\ speaks false a
    /\ Forall (λ m, ~ speaks true m) mid /\ Forall (λ m, ~ speaks false m) post.

Lemma speaks_false_iff item :
  ~ speaks false item <-> flag "is_system" item = true \/ flag "is_user" item = true.
Proof. unfold speaks. destruct (flag "is_system" item), (flag "is_user" item); naive_solver. Qed.

Lemma speaks_true_iff item :
  ~ speaks true item <-> flag "is_system" item = true \/ flag "is_user" item = false.
Proof. unfold speaks. destruct (flag "is_system" item), (flag "is_user" item); naive_solver. Qed.

Lemma find_turn_skip_post l1 l :
  Forall (λ ii, ~ speaks false ii.2) l1 -> find_turn None (l1 ++ l) = find_turn None l.
Proof.
  induction 1 as [|[i item] l1 Hi Hl IH]; [done |]. simpl in *.
  apply speaks_false_iff in Hi. destruct (flag "is_system" item); [done |].
  destruct Hi as [? | ->]; [done |]. done.
Qed.

Lemma find_turn_skip_mid a l1 l :
  Forall (λ ii, ~ speaks true ii.2) l1 -> find_turn (Some a) (l1 ++ l) = find_turn (Some a) l.
Proof.
  induction 1 as [|[i item] l1 Hi Hl IH]; [done |]. simpl in *.
  apply speaks_true_iff in Hi. destruct (flag "is_system" item); [done |].
  destruct Hi as [? | ->]; [done |]. done.
Qed.

Lemma find_turn_mid_Some a l r :
  find_turn (Some a) l = Some r ->
  exists l1 i item l2, l = l1 ++ (i, item) :: l2
    /\ Forall (λ ii, ~ speaks true ii.2) l1 /\ speaks true item.
Proof.
  induction l as [|[i item] l IH]; simpl; [done |]. unfold speaks in *.
  destruct (flag "is_system" item) eqn:Hs; [| destruct (flag "is_user" item) eqn:Hu].
  2: { intros _. exists [], i, item, l. split_and!; [done | constructor | done | done]. }
  all: intros (l1 & j & it & l2 & -> & Hl & Hit)%IH; exists ((i, item) :: l1), j, it, l2;
    (split; [done |]; split; [constructor; [simpl; naive_solver congruence | done] | done]).
Qed.

Lemma find_turn_Some l r :
  find_turn None l = Some r ->
  exists l1 i a l2 j u l3, l = l1 ++ (i, a) :: l2 ++ (j, u) :: l3
    /\ Forall (λ ii, ~ speaks false ii.2) l1 /\ speaks false a
    /\ Forall (λ ii, ~ speaks true ii.2) l2 /\ speaks true u.
Proof.
  induction l as [|[i item] l IH]; simpl; [done |].
  destruct (flag "is_system" item) eqn:Hs; [| destruct (flag "is_user" item) eqn:Hu]; simpl.
  3: { intros (l1 & j & u & l2 & -> & Hl & Hsp)%find_turn_mid_Some.
       exists [], i, item, l1, j, u, l2. split_and!; [done | constructor | done | done | done]. }
  all: intros (l1 & k & a & l2 & j & u & l3 & -> & Hl & Ha & Hm & Hu')%IH;
    exists ((i, item) :: l1), k, a, l2, j, u, l3;
    (split_and!; [done | constructor; [| done] | done | done | done]);
    simpl; apply speaks_false_iff; auto.
Qed.

(** The elements of [l] with their indexes from [n] on. *)
Fixpoint number {A} (n : nat) (l : list A) : list (nat * A) :=
  match l with [] => [] | x :: l => (n, x) :: number (S n) l end.

Lemma number_imap {A} n (l : list A) : number n l = imap (λ i x, (n + i, x)) l.
Proof.
  revert n. induction l as [|x l IH]; intros n; simpl; [done |]. rewrite IH.
  f_equal; [f_equal; lia |]. apply imap_ext. intros i y _. simpl. f_equal. lia.
Qed.

Lemma drop_indexed {A} (h : A) l : drop 1 (indexed (h :: l)) = number 1 l.
Proof. unfold indexed. rewrite imap_cons, number_imap. simpl. by rewrite drop_0. Qed.

Lemma number_app {A} n (l k : list A) : number n (l ++ k) = number n l ++ number (n + length l) k.
Proof.
  revert n. induction l as [|x l IH]; intros n; simpl; [f_equal; lia |]. rewrite IH.
  do 3 f_equal. lia.
Qed.

Lemma number_snd {A} n (l : list A) : (number n l).*2 = l.
Proof. revert n. induction l as [|x l IH]; intros n; simpl; [done |]. by rewrite IH. Qed.

Lemma Forall_number {A} (P : A -> Prop) n (l : list A) :
  Forall P l -> Forall (λ ii, P ii.2) (number n l).
Proof. intros H. revert n. induction H; intros n; simpl; constructor; auto. Qed.

Lemma last_dialogue_found messages u a :
  last_turn messages u a -> last_dialogue_indexes messages = Some (u, a).
Proof.
  intros (h & pre & iu & mid & ia & post & -> & -> & -> & [Hus Huu] & [Has Hau] & Hmid & Hpost).
  unfold last_dialogue_indexes. rewrite drop_indexed, number_app. simpl. rewrite number_app. simpl.
  rewrite rev_app_distr. simpl. rewrite rev_app_distr. simpl. rewrite <- !app_assoc. simpl.
  rewrite find_turn_skip_post
    by (apply Forall_rev, (Forall_number (λ m, ~ speaks false m)), Hpost).
  simpl. rewrite Has, Hau. simpl. rewrite find_turn_skip_mid
    by (apply Forall_rev, (Forall_number (λ m, ~ speaks true m)), Hmid).
  simpl. rewrite Hus, Huu. done.
Qed.

Lemma fmap_rev {A B} (f : A -> B) (l : list A) : f <$> rev l = rev (f <$> l).
Proof. induction l as [|x l IH]; simpl; [done |]. by rewrite fmap_app, IH. Qed.

Lemma last_dialogue_sound messages r :
  last_dialogue_indexes messages = Some r -> exists u a, last_turn messages u a.
Proof.
  unfold last_dialogue_indexes. destruct messages as [|h l]; [done |]. rewrite drop_indexed.
  intros (l1 & i & a & l2 & j & u & l3 & Hl & H1 & Ha & H2 & Hu)%find_turn_Some.
  apply (f_equal (λ k, rev k.*2)) in Hl. simpl in Hl.
  rewrite fmap_rev, rev_involutive, number_snd in Hl. subst l.
  do 2 eexists. exists h, (rev l3.*2), u, (rev l2.*2), a, (rev l1.*2). split_and!; [| done.. | |].
  - rewrite fmap_app, fmap_cons, fmap_app, fmap_cons, !rev_app_distr. simpl.
    rewrite rev_app_distr. simpl. by rewrite <- !app_assoc.
  - apply Forall_rev. by apply Forall_fmap.
  - apply Forall_rev. by apply Forall_fmap.
Qed.

(** The turn that is undone or regenerated is the last one: the chat's last
    assistant message and the last user message before it, system messages and
    the chat's header line apart, and none is found exactly when there is none. *)
Theorem last_dialogue_spec messages u a :
  last_dialogue_indexes messages = Some (u, a) <-> last_turn messages u a.
Proof.
  split; [| apply last_dialogue_found]. intros H.
  destruct (last_dialogue_sound _ _ H) as (u' & a' & Ht).
  pose proof (last_dialogue_found _ _ _ Ht) as H'. by rewrite H' in H; simplify_eq.
Qed.

(** ** What is compressed, specified *)

Definition recent_count (messages : list Value) : nat :=
  length (List.filter counts_as_recent messages).

Definition old_reply (item : Value) : Prop :=
  speaks false item /\ visible_text item <> "" /\ starts_with (visible_text item) DIGEST_MARK = false
  /\ already_compressed item = false.

Lemma indexed_number {A} (l : list A) : indexed l = number 0 l.
Proof. unfold indexed. by rewrite number_imap. Qed.

Lemma number_lookup {A} n (l : list A) i x :
  In (i, x) (number n l) <-> (n <= i)%nat /\ l !! (i - n) = Some x.
Proof.
  revert n. induction l as [|y l IH]; intros n; simpl; [naive_solver |]. rewrite IH. split.
  - intros [[= -> ->] | [Hn Hl]]; [by rewrite Nat.sub_diag |]. split; [lia |].
    by replace (i - n) with (S (i - S n)) by lia.
  - intros [Hn Hl]. destruct (decide (i = n)) as [-> | Hne].
    + rewrite Nat.sub_diag in Hl. simplify_eq/=. auto.
    + right. split; [lia |]. by replace (i - n) with (S (i - S n)) in Hl by lia.
Qed.

Lemma filter_recent_length n l :
  length (filter (λ ii : nat * Value, counts_as_recent ii.2 = true) (rev (number n l))) = recent_count l.
Proof.
  unfold recent_count. revert n. induction l as [|x l IH]; intros n; simpl; [done |].
  rewrite filter_app, length_app, IH, filter_cons, filter_nil.
  simpl. destruct (counts_as_recent x) eqn:E; case_decide; simpl; congruence || lia.
Qed.

Lemma last_app_ne {A} (l k : list A) : k <> [] -> last (l ++ k) = last k.
Proof. intros Hk. rewrite last_app. destruct (last k) eqn:E; [done |]. by apply last_None in E. Qed.

Lemma before_recent_spec pre item post :
  counts_as_recent item = true ->
  before_recent (keep_from (pre ++ item :: post)) (length pre) = true
  <-> (COMPRESS_KEEP_RECENT <= recent_count post)%nat.
Proof.
  intros Hr. unfold keep_from. rewrite indexed_number, number_app. simpl.
  rewrite rev_app_distr. simpl. rewrite <- app_assoc. simpl. rewrite filter_app, filter_cons_True by done.
  set (A := filter _ (rev (number (S _) _))). set (B := filter _ (rev (number 0 _))).
  assert (HA : length A = recent_count post) by apply filter_recent_length. rewrite <- HA.
  assert (HAi : forall ii, ii ∈ A -> (length pre < ii.1)%nat).
  { intros [i x] [_ Hin]%list_elem_of_filter. rewrite list_elem_of_In, <- in_rev in Hin.
    apply number_lookup in Hin as [? _]. simpl in *. lia. }
  assert (HBi : forall ii, ii ∈ (length pre, item) :: B -> (ii.1 <= length pre)%nat).
  { intros [i x] [[= -> ->] | [_ Hin]%list_elem_of_filter]%elem_of_cons; [simpl; lia |].
    rewrite list_elem_of_In, <- in_rev in Hin. apply number_lookup in Hin as [_ Hl%lookup_lt_Some].
    simpl in *. lia. }
  unfold COMPRESS_KEEP_RECENT. destruct (decide (15 <= length A)%nat) as [Hle | Hlt].
  - rewrite take_app_le by done. destruct (last (take 15 A)) as [[k x]|] eqn:El; simpl.
    + rewrite Nat.ltb_lt. split; [done |]. intros _. apply (HAi (k, x)).
      apply last_Some in El as [l' El]. apply (subseteq_take 15). rewrite El. set_solver.
    + apply last_None in El. destruct A; simpl in *; [lia | done].
  - rewrite take_app_ge by lia. rewrite last_app_ne; [| by destruct (15 - length A)%nat eqn:?; [lia |]].
    destruct (last _) as [[k x]|] eqn:El; simpl.
    + rewrite Nat.ltb_lt. apply last_Some in El as [l' El].
      assert (k <= length pre)%nat as Hk; [| lia]. apply (HBi (k, x)).
      apply (subseteq_take (15 - length A)). rewrite El. set_solver.
    + apply last_None in El. destruct (15 - length A)%nat eqn:?; [lia | done].
Qed.

Lemma compressible_spec chat index item :
  chat !! index = Some item ->
  compressible (keep_from chat) (index, item) = true
  <-> (1 <= index)%nat /\ old_reply item
      /\ (COMPRESS_KEEP_RECENT <= recent_count (drop (S index) chat))%nat.
Proof.
  intros Hl. assert (Hi : length (take index chat) = index).
  { apply length_take_le. apply lookup_lt_Some in Hl. lia. }
  assert (Hsplit : chat = take index chat ++ item :: drop (S index) chat)
    by (by symmetry; apply take_drop_middle).
  unfold compressible, old_reply, speaks. rewrite !andb_true_iff, !negb_true_iff, Nat.leb_le, bool_decide_eq_false.
  split.
  - intros ((((((H1 & Hb) & Hu) & Hs) & Hv) & Hd) & Hc). split_and!; try done.
    rewrite <- before_recent_spec with (pre := take index chat) (item := item).
    + by rewrite <- Hsplit, Hi.
    + unfold counts_as_recent. by rewrite Hs, (proj2 (bool_decide_eq_false _) Hv).
  - intros (H1 & ([Hs Hu] & Hv & Hd & Hc) & Hn). split_and!; try done.
    rewrite <- before_recent_spec with (pre := take index chat) (item := item) in Hn.
    + by rewrite <- Hsplit, Hi in Hn.
    + unfold counts_as_recent. by rewrite Hs, (proj2 (bool_decide_eq_false _) Hv).
Qed.

(** Compressing a chat targets exactly the visible assistant replies that are
    not compressed yet and have at least fifteen visible messages after them, each
    by its index, its hash and its visible text: the fifteen most recent visible
    messages, the header line, what the user wrote, system messages and digests
    are never touched. *)
Theorem compress_targets_spec `{Codecs} chat index sha text :
  (Z.of_nat (length chat) <= 2 ^ 32)%Z ->
  (index, sha, text) ∈ compress_targets chat
  <-> exists i item, index = Z.of_nat i /\ chat !! i = Some item /\ sha = message_sha256 item
        /\ text = visible_text item /\ (1 <= i)%nat /\ old_reply item
        /\ (COMPRESS_KEEP_RECENT <= recent_count (drop (S i) chat))%nat.
Proof.
  intros Hlen. unfold compress_targets. rewrite list_elem_of_In, in_map_iff.
  rewrite indexed_number. split.
  - intros ([i item] & [= <- <- <-] & [[_ Hl]%number_lookup Hc]%filter_In).
    rewrite Nat.sub_0_r in Hl. apply compressible_spec in Hc as (? & ? & ?); [| done].
    exists i, item. split_and!; try done. apply lookup_lt_Some in Hl. apply Z.mod_small. simpl. lia.
  - intros (i & item & -> & Hl & -> & -> & H1 & Ho & Hn). exists (i, item). split.
    + simpl. rewrite Z.mod_small; [done |]. apply lookup_lt_Some in Hl. lia.
    + apply filter_In. rewrite number_lookup, Nat.sub_0_r. split; [split; [lia | done] |].
      by apply compressible_spec.
Qed.

Definition sample_reply (user : bool) (text : string) : Value :=
  JObject [("name", JString "n"); ("is_user", JBool user); ("mes", JString text)].

Definition sample_chat : list Value :=
  [JObject []; sample_reply false "first"] ++ repeat (sample_reply true "more") 15.

Definition sample_codecs : Codecs :=
  {| sha256_hex s := s; mutation_to_vec _ := None; result_to_string _ := None;
     payload_to_vec _ := None; payload_from_slice _ := None; value_from_slice _ := None;
     value_to_string _ := "{}" |}.

Lemma compress_targets_spec_witness :
  (1%Z, "{}", "first") ∈ @compress_targets sample_codecs sample_chat.
Proof.
  apply (@compress_targets_spec sample_codecs); [vm_compute; discriminate |].
  exists 1%nat, (sample_reply false "first"). unfold old_reply, speaks.
  repeat (split || (vm_compute; discriminate) || (apply Nat.leb_le; reflexivity) || (vm_compute; reflexivity)).
Defined.
