(* ===== verification/Engine.v ===== *)
(** * The bridge engine

    [src/modules/bridge/engine.rs] with the command and outcome types of
    [src/seams/st_bridge_engine.rs], [src/seams/bridge_progress.rs] and the
    actor of [src/domain/identity.rs].  A command is a program ([Program]) over
    the coordinator's and the channel store's.  What the engine only reads from
    the outside (the backend's reading methods, the locator lock, the permit,
    clocks, random draws, the guard's lifecycle) is the argument [EngineReads]:
    a read changes no table, and each is made at most once per command or, where
    it is repeated, is indexed by its occurrence. *)

From stdpp Require Import pretty.
From S2P Require Import Prelude Text Errors StDomain Readiness ErrorMapper Prompt Operations OperationStore.
From S2P Require Import StoreInvariant StoreCorrect PollerOwnership Journal Vault Program OperationPayload.
From S2P Require Import Coordinator ChannelContext StOps.

(** ** Actors and origins *)

Inductive WorkspaceRole : Set := RoleOwner | RoleAdmin | RoleMember.

Definition WorkspaceRole_as_str (r : WorkspaceRole) : string :=
  match r with RoleOwner => "owner" | RoleAdmin => "admin" | RoleMember => "member" end.

Definition WorkspaceRole_parse (value : string) : option WorkspaceRole :=
  if value =?= "owner" then Some RoleOwner
  else if value =?= "admin" then Some RoleAdmin
  else if value =?= "member" then Some RoleMember
  else None.

Definition can_admin (r : WorkspaceRole) : bool :=
  match r with RoleOwner | RoleAdmin => true | RoleMember => false end.

Record Account := {
  acc_id : string;
  acc_username : string;
  acc_display_name : string;
  acc_is_system_admin : bool;
  acc_disabled_at : option string;
  acc_legacy_st_handle : option string;
}.

Record Actor := {
  act_account : Account;
  act_workspace_id : option string;
  act_workspace_role : option WorkspaceRole;
}.

Definition require_workspace (a : Actor) : AppResult string :=
  ok_or (act_workspace_id a) (bad_request "WORKSPACE_REQUIRED" "workspace is required").

Definition can_manage_workspace (a : Actor) : bool :=
  acc_is_system_admin (act_account a) || default false (can_admin <$> act_workspace_role a).

Record BridgeOperationOrigin := {
  o_internal_bot_id : string;
  o_telegram_update_id : Z;
  o_channel_context_key : string;
}.

Definition origin_is_valid (o : BridgeOperationOrigin) : bool :=
  negb (is_blank (o_internal_bot_id o)) && (0 <? o_telegram_update_id o)%Z
  && negb (is_blank (o_channel_context_key o)).

(** ** Commands, outcomes, views *)

Inductive ModelOverrideKind : Set := ForChat | ForCompression.

Inductive StBridgeCommand : Type :=
| SelectCharacterCmd (avatar character_name : string)
| SelectChatCmd (locator : StChatLocator)
| StartChat (locator : StChatLocator) (client_operation_id : string)
| SendMessage (locator : StChatLocator) (text client_operation_id : string)
    (model_override : option string)
| UndoLastTurnCmd (locator : StChatLocator) (client_operation_id : string)
| RevokeLastTurn (locator : StChatLocator) (client_operation_id : string)
| RegenerateReply (locator : StChatLocator) (client_operation_id : string)
    (model_override : option string)
| CompressChat (locator : StChatLocator) (client_operation_id : string)
| SetModelOverrideCmd (kind : ModelOverrideKind) (model_id : option string).

Inductive StBridgeQuery : Type :=
| ListCharacters
| ListCharacterChats (avatar : string)
| ListRecentChats
| GetChannelContext
| GetHistory (locator : StChatLocator)
| GetLastTurn (locator : StChatLocator)
| GetModels
| GetOperation (operation_id : string).

Record StBridgeOutcome := {
  out_operation_id : option string;
  out_reply_text : option string;
  out_write_committed : bool;
  out_confirmed_commit : bool;
  out_removed_safe_content : option string;
  out_st_tail_fingerprint : option string;
}.

Inductive StBridgeView : Type :=
| ViewCharacters (items : list StCharacterSummary)
| ViewChats (items : list StChatSummary)
| ViewContext (locator : option StChatLocator) (chat_model_id compression_model_id : option string)
| ViewHistory (preview : string)
| ViewLastTurn (user assistant tail_fingerprint : option string)
| ViewModels (catalog : StModelCatalog) (override_chat override_compression : option string)
| ViewOperation (id status : string).

Inductive ConfirmedCommit : Set := CcApplied | CcAlreadyApplied.

(** [Started], [Delta], [Progress] and [Error] are emitted by the backend's
    stream and by the channels, [Done] by the engine. *)
Inductive BridgeProgressEvent : Type :=
| PeStarted (total : option Z)
| PeDelta (sequence : Z) (text full_text : string)
| PeProgress (completed total : Z)
| PeDone (reply_text : string) (commit : ConfirmedCommit)
| PeError (safe_code safe_message : string).

(** [progress]: whether the context has a sink. *)
Record BridgeExecutionContext := {
  bx_operation_id : string;
  bx_progress : bool;
}.

(** ** The engine *)

Record SidecarBridgeEngine := {
  en_context_key : string;
  en_operation_store : bool;
  en_coordinator : option OperationCoordinator;
  en_guard : option PollerOwnershipGuard;
  en_generation_permits : nat;
  en_generation_budget_valid : bool;
}.

Definition SidecarBridgeEngine_new : SidecarBridgeEngine :=
  {| en_context_key := "telegram"; en_operation_store := false; en_coordinator := None;
     en_guard := None; en_generation_permits := 8; en_generation_budget_valid := true |}.

Definition with_context_key (context_key : string) (self : SidecarBridgeEngine) : SidecarBridgeEngine :=
  {| en_context_key := context_key; en_operation_store := en_operation_store self;
     en_coordinator := en_coordinator self; en_guard := en_guard self;
     en_generation_permits := en_generation_permits self;
     en_generation_budget_valid := en_generation_budget_valid self |}.

Definition with_operation_store (self : SidecarBridgeEngine) : SidecarBridgeEngine :=
  {| en_context_key := en_context_key self; en_operation_store := true;
     en_coordinator := en_coordinator self; en_guard := en_guard self;
     en_generation_permits := en_generation_permits self;
     en_generation_budget_valid := en_generation_budget_valid self |}.

Definition with_required_coordinator (coordinator : OperationCoordinator)
    (self : SidecarBridgeEngine) : SidecarBridgeEngine :=
  {| en_context_key := en_context_key self; en_operation_store := true;
     en_coordinator := Some coordinator; en_guard := en_guard self;
     en_generation_permits := en_generation_permits self;
     en_generation_budget_valid := en_generation_budget_valid self |}.

Definition with_ownership_guard (guard : PollerOwnershipGuard) (self : SidecarBridgeEngine)
    : SidecarBridgeEngine :=
  {| en_context_key := en_context_key self; en_operation_store := en_operation_store self;
     en_coordinator := en_coordinator self; en_guard := Some guard;
     en_generation_permits := en_generation_permits self;
     en_generation_budget_valid := en_generation_budget_valid self |}.

Definition with_generation_budget (max_concurrent : nat) (self : SidecarBridgeEngine)
    : SidecarBridgeEngine :=
  {| en_context_key := en_context_key self; en_operation_store := en_operation_store self;
     en_coordinator := en_coordinator self; en_guard := en_guard self;
     en_generation_permits := Nat.max max_concurrent 1;
     en_generation_budget_valid := (0 <? max_concurrent)%nat |}.

(** What one command reads from outside the database: whether the locator lock
    and the generation permit are granted, the backend's answers, a fresh id, the
    clocks ([now_unix_ms], [now_rfc3339]), the draws of a new key and the nonce of
    the payload, and the guard's lifecycle at each look. *)
Record EngineReads := {
  rd_lock : bool;
  rd_permit : bool;
  rd_probe : StResult StStatus;
  rd_snapshot : StResult StChatSnapshot;
  rd_characters : StResult (list StCharacterSummary);
  rd_chats : StResult (list StChatSummary);
  rd_models : StResult StModelCatalog;
  rd_settings : StResult StGenerationSettings;
  rd_generate : nat -> StGenerationRequest -> StResult StGenerationResult;
  rd_new_id : string;
  rd_now_ms : Z;
  rd_now : string;
  rd_draws : KeyDraws;
  rd_nonce : string;
  rd_lifecycle : nat -> PollerLifecycle;
}.

(** ** Texts *)

Definition KIND_START : string := "start".
Definition KIND_SEND : string := "send".
Definition KIND_REGENERATE : string := "regenerate".
Definition KIND_UNDO : string := "undo".
Definition KIND_REVOKE : string := "revoke".
Definition KIND_COMPRESS : string := "compress".

Definition is_dash (a : Ascii.ascii) : bool := a =?= Ascii.ascii_of_nat 45.
Definition trim_dashes (s : string) : string := trim_end_bytes is_dash (trim_start_bytes is_dash s).

Definition test_chat_file (now_ms : Z) (character_name : string) : string :=
  let safe_name :=
    trim_dashes (concat_str (map (λ c, match c with
                                       | String a EmptyString =>
                                           if is_ascii_alphanumeric a then c else "-"
                                       | _ => "-"
                                       end) (chars character_name))) in
  "IMBridge-Test-" +:+ (if safe_name =?= "" then "Chat" else safe_name) +:+ "-"
  +:+ pretty now_ms +:+ ".jsonl".

Definition opening_message (now character_name : string) : Value :=
  JObject [("name", JString character_name); ("is_user", JBool false); ("is_system", JBool false);
           ("send_date", JString now);
           ("mes", JString ("你好，我是" +:+ character_name +:+ "。我们开始新的故事吧。"));
           ("extra", JObject [])].

Definition committed_outcome (operation_id reply_text : string) : StBridgeOutcome :=
  {| out_operation_id := Some operation_id; out_reply_text := Some reply_text;
     out_write_committed := true; out_confirmed_commit := true;
     out_removed_safe_content := None; out_st_tail_fingerprint := None |}.

Definition uncommitted_outcome (operation_id : option string) (reply_text : string)
    : StBridgeOutcome :=
  {| out_operation_id := operation_id; out_reply_text := Some reply_text;
     out_write_committed := false; out_confirmed_commit := false;
     out_removed_safe_content := None; out_st_tail_fingerprint := None |}.

Definition replay_outcome_from_record (operation_id operation_kind : string)
    (record : BridgeOperationRecord) : option StBridgeOutcome :=
  if negb (rec_operation_kind record =?= operation_kind) then None
  else if negb (already_applied record) then None
  else Some {| out_operation_id := Some operation_id;
               out_reply_text := Some "该撤回已完成，未再次回退 SillyTavern。";
               out_write_committed := true; out_confirmed_commit := true;
               out_removed_safe_content := Some "最后一轮"; out_st_tail_fingerprint := None |}.

Definition NL : string := byte_str (Ascii.ascii_of_nat 10).
Definition QUOTE : string := byte_str (Ascii.ascii_of_nat 34).

(** One item of [last_visible_message] and of the [GetLastTurn] loop: not a
    system message and not blank. *)
Definition shows (item : Value) : bool :=
  negb (flag "is_system" item) && negb (visible_text item =?= "").

Definition last_visible_message (parsed_chat : list Value) : option (bool * string * string) :=
  item ← head (List.filter shows (rev parsed_chat));
  let is_user := default false (value_get item "is_user" ≫= value_as_bool) in
  Some (is_user,
        default (if is_user then "用户" else "角色") (value_get item "name" ≫= value_as_str),
        visible_text item).

(** The loop of [GetLastTurn], over the messages from the last one on. *)
Fixpoint last_turn_texts (items : list Value) (user assistant : option string)
    : option string * option string :=
  match items with
  | [] => (user, assistant)
  | item :: items =>
      if negb (shows item) then last_turn_texts items user assistant
      else
        let line :=
          default "" (value_get item "name" ≫= value_as_str) +:+ NL +:+ visible_text item in
        let '(user, assistant) :=
          if flag "is_user" item then (Some (default line user), assistant)
          else (user, Some (default line assistant)) in
        match user, assistant with
        | Some _, Some _ => (user, assistant)
        | _, _ => last_turn_texts items user assistant
        end
  end.

Definition truncate (s : string) (max : nat) : string :=
  if (chars_count s <=? max)%nat then s else chars_take max s +:+ "…".

Definition removed_content (user_text assistant_text : string) : string :=
  "用户: " +:+ QUOTE +:+ truncate user_text 40 +:+ QUOTE +:+ " | 助手: " +:+ QUOTE
  +:+ truncate assistant_text 40 +:+ QUOTE.

(** [x as i64] of a [u64]. *)
Definition as_i64 (x : Z) : Z := if (x <? 2 ^ 63)%Z then x else (x - 2 ^ 64)%Z.

(** [format!("{}:{}:{}", handle, avatar, chat_file)]. *)
Definition locator_lock_key (locator : StChatLocator) : string :=
  loc_handle locator +:+ ":" +:+ loc_avatar locator +:+ ":" +:+ loc_chat_file locator.

(** ** The commands *)

Section Engine.
Context `{IdSource} `{Redactor} `{Codecs} `{Aead} `{SecretVault}.
Context (self : SidecarBridgeEngine) (rd : EngineReads).

Definition engine_error (stage : StErrorStage) (code : StErrorCode) (commit_state : CommitState)
    (operation_id : option string) : StBridgeError :=
  map_st_error value_from_slice sha256_hex
    {| fact_stage := stage; fact_endpoint_class := Some "bridge";
       fact_operation_id := operation_id; fact_commit_state := commit_state;
       fact_attempt := 1; fact_duration_ms := None; fact_failure := FControl code |}.

Definition control_error (code : StErrorCode) (operation_id : option string) : StBridgeError :=
  engine_error StageControl code NotStarted operation_id.

Definition write_frozen : StResult StBridgeOutcome := Err (control_error StWriteNotReady None).

(** The state and the code a duplicate claim is reported with. *)
Definition duplicate_state (record : BridgeOperationRecord) : CommitState :=
  if already_applied record then Applied
  else match rec_commit_state record with
       | OcUnknown => Unknown
       | OcNotApplied => NotApplied
       | _ => NotStarted
       end.

Definition duplicate_code (state : CommitState) : StErrorCode :=
  match state with
  | Applied => StCommitFailed
  | Unknown => StCommitStateUnknown
  | NotApplied => StCommitFailed
  | NotStarted => StOperationIdReused
  end.

Definition claim_error (operation_id : string) (error : OperationClaimError) : StBridgeError :=
  match error with
  | DuplicateClaim record =>
      set_safe_detail None
        (engine_error StageControl (duplicate_code (duplicate_state record))
           (duplicate_state record) (Some operation_id))
  | ClaimFailed error =>
      StBridgeError_new StOperationIdReused StageControl (a_message error) false NotStarted
  end.

Definition claim_operation_with_origin (actor : Actor) (operation_id operation_kind : string)
    (locator : StChatLocator) (origin : BridgeOperationOrigin) : Prog (StResult ClaimedOperation) :=
  if is_blank operation_id || negb (origin_is_valid origin) then
    Ret (Err (control_error StChatLocatorRejected (Some operation_id)))
  else
    match en_coordinator self with
    | None => Ret (Err (control_error StWriteNotReady (Some operation_id)))
    | Some _ =>
        prog_map_err (claim_error operation_id)
          (claim {| q_id := operation_id; q_actor_id := acc_id (act_account actor);
                    q_bot_id := o_internal_bot_id origin;
                    q_telegram_update_id := o_telegram_update_id origin;
                    q_channel_context_key := o_channel_context_key origin;
                    q_operation_kind := operation_kind; q_locator := locator;
                    q_request_id := operation_id; q_trace_id := operation_id |})
    end.

Definition lock_locator : StResult unit :=
  if rd_lock rd then Ok tt else Err (control_error StChatConflict None).

Definition acquire_generation_permit : StResult unit :=
  if negb (en_generation_budget_valid self) || negb (rd_permit rd)
  then Err (engine_error StageGeneration StGenerateRateLimited NotStarted None)
  else Ok tt.

(** [require_generation_fence] and [require_commit_fence]. *)
Definition require_fence (operation_id : string) : Prog (StResult unit) :=
  match en_guard self with
  | None => Ret (Err (control_error StPollerEpochMismatch (Some operation_id)))
  | Some _ =>
      Fence (λ r, Ret (map_err (λ _, control_error StPollerEpochMismatch (Some operation_id)) r))
  end.

(** [look]: which look at the guard's lifecycle this is. *)
Definition engine_fence (look : nat) (operation_id : string) : StResult PollerRuntimeFence :=
  ok_or (guard ← en_guard self; runtime_fence (set_lifecycle_state (rd_lifecycle rd look) guard))
    (control_error StPollerEpochMismatch (Some operation_id)).

Definition resume_or_replay (operation_id : string) (claimed : ClaimedOperation) : StResult bool :=
  let record := claimed_record claimed in
  match disposition claimed with
  | Fresh => Ok false
  | AlreadyDelivered => Ok true
  | Rejected => Err (control_error StOperationIdReused (Some operation_id))
  | Resume =>
      if already_applied record then Ok true
      else if rec_commit_state record =?= OcUnknown
      then Err (control_error StCommitStateUnknown (Some operation_id))
      else if (rec_status record =?= Generated) || (rec_status record =?= Committing)
      then Err (control_error StCommitStateUnknown (Some operation_id))
      else Ok false
  end.

Definition require_write_for_locator (locator : StChatLocator) : StResult StStatus :=
  let? status := rd_probe rd in
  match cap_mode (st_capabilities status) with
  | Disabled | ReadOnly => Err (control_error StWriteNotReady None)
  | TestWrite =>
      if starts_with (loc_chat_file locator) "IMBridge-Test-" then Ok status
      else Err (control_error StTestScopeRequired None)
  | ProductionWrite =>
      if is_blank (loc_chat_file locator) then Err (control_error StChatLocatorRejected None)
      else Ok status
  end.

Definition load_character (locator : StChatLocator) : StResult StCharacterSummary :=
  let? characters := rd_characters rd in
  ok_or (List.find (λ item, sc_avatar item =?= loc_avatar locator) characters)
    (control_error StChatLocatorRejected None).

(** The coordinator of the [ok_or_else] look-ups. *)
Definition coordinator_for (operation_id : string) : StResult OperationCoordinator :=
  ok_or (en_coordinator self) (control_error StWriteNotReady (Some operation_id)).

(** *** Persisting the recovery payload *)

(** The common part of the two methods below: validate, serialize, encrypt under
    the operation's key, record. *)
Definition persist_payload (coordinator : OperationCoordinator)
    (actor_id operation_id operation_kind : string) (locator : StChatLocator)
    (payload : OperationRecoveryPayload) (fence : PollerRuntimeFence)
    (digest : string -> string) : Prog (StResult unit) :=
  let invalid := control_error StCommitValidationFailed (Some operation_id) in
  match validate payload, payload_to_vec payload with
  | Ok _, Some plaintext =>
      let aad :=
        OperationAad_new_with_fence operation_id
          (locator_hash sha256_hex (loc_handle locator) (loc_avatar locator)
             (loc_chat_file locator)) operation_kind actor_id fence in
      await? encryptor :=
        prog_map_err (λ _, control_error StWriteNotReady (Some operation_id))
          (payload_encryptor_for_operation coordinator (rd_draws rd) operation_id) in
      match encrypt (rd_nonce rd) encryptor plaintext aad with
      | Err _ => Ret (Err invalid)
      | Ok encrypted =>
          await? _ := mark_generated operation_id encrypted (digest plaintext) in Ret (Ok tt)
      end
  | _, _ => Ret (Err invalid)
  end.

Definition persist_create_payload (actor_id operation_id : string) (locator : StChatLocator)
    (command : CreateStChat) : Prog (StResult unit) :=
  match coordinator_for operation_id, engine_fence 1 operation_id with
  | Err e, _ | Ok _, Err e => Ret (Err e)
  | Ok coordinator, Ok fence =>
      if negb (cr_fence command =?= fence) then
        Ret (Err (control_error StPollerEpochMismatch (Some operation_id)))
      else
        persist_payload coordinator actor_id operation_id KIND_START locator (PCreate command)
          fence sha256_hex
  end.

Definition generated_payload (operation_kind : string) (snapshot : StChatSnapshot)
    (mutation : StMutation) (fence : PollerRuntimeFence) : option OperationRecoveryPayload :=
  let sha := sn_source_sha256 snapshot in
  let integrity := sn_source_integrity snapshot in
  if operation_kind =?= KIND_SEND then Some (PAppend mutation sha integrity fence)
  else if operation_kind =?= KIND_REGENERATE then Some (PReplace mutation sha integrity fence)
  else if (operation_kind =?= KIND_UNDO) || (operation_kind =?= KIND_REVOKE)
  then Some (PUndo mutation sha integrity fence)
  else if operation_kind =?= KIND_COMPRESS then Some (PCompress mutation sha integrity fence)
  else None.

Definition persist_generated_payload (actor_id operation_id operation_kind : string)
    (locator : StChatLocator) (snapshot : StChatSnapshot) (mutation : StMutation)
    : Prog (StResult unit) :=
  match coordinator_for operation_id, engine_fence 0 operation_id with
  | Err e, _ | Ok _, Err e => Ret (Err e)
  | Ok coordinator, Ok fence =>
      match generated_payload operation_kind snapshot mutation fence with
      | None => Ret (Err (control_error StCommitValidationFailed (Some operation_id)))
      | Some payload =>
          persist_payload coordinator actor_id operation_id operation_kind locator payload fence
            (λ _, mutation_digest mutation)
      end
  end.

(** *** Committing *)

Definition commit_mutation (operation_id : string) (locator : StChatLocator)
    (snapshot : StChatSnapshot) (mutation : StMutation) (reply_text : string)
    : Prog (StResult StBridgeOutcome) :=
  await? _ := require_fence operation_id in
  match engine_fence 1 operation_id, coordinator_for operation_id with
  | Err e, _ | Ok _, Err e => Ret (Err e)
  | Ok fence, Ok _ =>
      await? result :=
        Coordinator.commit operation_id locator (sn_source_sha256 snapshot)
          (sn_source_integrity snapshot) mutation fence in
      Ret (match cres_status result with
           | CommitApplied | CommitAlreadyApplied => Ok (committed_outcome operation_id reply_text)
           | _ => Err (not_applied_error operation_id)
           end)
  end.

(** [client_operation_id], or the fallback when it is blank. *)
Definition choose_id (client_operation_id fallback : string) : string :=
  if is_blank client_operation_id then fallback else client_operation_id.

(** The claim and the early return every mutating command starts with: [Ok None]
    goes on with the command, [Ok (Some outcome)] returns. *)
Definition claim_or_replay (actor : Actor) (operation_id operation_kind : string)
    (locator : StChatLocator) (origin : BridgeOperationOrigin) (done_text : string)
    : Prog (StResult (option StBridgeOutcome)) :=
  await? claimed := claim_operation_with_origin actor operation_id operation_kind locator origin in
  Ret (let? finished := resume_or_replay operation_id claimed in
       Ok (if (finished : bool) then Some (committed_outcome operation_id done_text) else None)).

Definition start_chat (actor : Actor) (locator : StChatLocator) (client_operation_id : string)
    (origin : BridgeOperationOrigin) : Prog (StResult StBridgeOutcome) :=
  match lock_locator, require_workspace actor, rd_probe rd with
  | Err e, _, _ => Ret (Err e)
  | Ok _, Err _, _ => Ret (Err (control_error StChatLocatorRejected None))
  | Ok _, Ok _, Err e => Ret (Err e)
  | Ok _, Ok workspace_id, Ok status =>
      if negb (allows_write (cap_mode (st_capabilities status))) then Ret write_frozen
      else if is_blank (loc_avatar locator) || is_blank (loc_character_name locator) then
        Ret (Err (control_error StChatLocatorRejected None))
      else
        let operation_id := choose_id client_operation_id (rd_new_id rd) in
        let created_locator :=
          {| loc_handle := if is_blank (loc_handle locator) then st_handle status
                           else loc_handle locator;
             loc_avatar := loc_avatar locator; loc_character_name := loc_character_name locator;
             loc_chat_file := test_chat_file (rd_now_ms rd) (loc_character_name locator) |} in
        await? early :=
          claim_or_replay actor operation_id KIND_START created_locator origin
            "该新建会话已完成，未重复创建文件。" in
        match early, engine_fence 0 operation_id, coordinator_for operation_id with
        | Some outcome, _, _ => Ret (Ok outcome)
        | None, Err e, _ | None, Ok _, Err e => Ret (Err e)
        | None, Ok fence, Ok _ =>
            let create_command :=
              {| cr_operation_id := operation_id; cr_locator := created_locator;
                 cr_opening_message := opening_message (rd_now rd) (loc_character_name locator);
                 cr_scope := TestChat; cr_fence := fence |} in
            await? _ := mark_snapshot_ready operation_id None None None None in
            await? _ :=
              persist_create_payload (acc_id (act_account actor)) operation_id created_locator
                create_command in
            await? _ := require_fence operation_id in
            await? _ := create create_command in
            await? _ :=
              prog_map_err
                (λ _, engine_error StageControl StChatLocatorRejected Applied (Some operation_id))
                (db_call (λ now, select_chat now (acc_id (act_account actor)) workspace_id
                                   (en_context_key self) created_locator)) in
            Ret (Ok (committed_outcome operation_id
                       ("已新建测试会话：" +:+ loc_chat_file created_locator)))
        end
  end.

Definition mark_snapshot (operation_id : string) (snapshot : StChatSnapshot)
    : Prog (StResult BridgeOperationRecord) :=
  mark_snapshot_ready operation_id (Some (sn_source_sha256 snapshot))
    (Some (sn_source_integrity snapshot)) (Some (as_i64 (sn_source_byte_length snapshot)))
    (Some (as_i64 (sn_source_message_count snapshot))).

Definition generation_request (settings : StGenerationSettings) (model_id : option string)
    (messages : list StPromptMessage) : StGenerationRequest :=
  {| gq_model_id := model_id; gq_messages := messages;
     gq_temperature := Some (gs_temperature settings); gq_top_p := Some (gs_top_p settings);
     gq_max_tokens := Some (gs_max_tokens settings) |}.

(** The [async { .. }] block of [send_message] and [regenerate_reply]: it returns
    the mutation and the generated text. *)
Definition generate_turn (actor : Actor) (operation_id : string) (locator : StChatLocator)
    (snapshot : StChatSnapshot) (model_override extra_user : option string)
    (drop_last_assistant : bool)
    (mutation_of : StGenerationSettings -> StCharacterSummary -> string -> option StMutation)
    : Prog (StResult (StMutation * string)) :=
  match load_character locator, rd_settings rd with
  | Err e, _ | Ok _, Err e => Ret (Err e)
  | Ok character, Ok settings =>
      await channel := db_read (load (acc_id (act_account actor)) (en_context_key self)) in
      let model_id :=
        match model_override with Some m => Some m | None => cl_chat_model_id channel end in
      await? _ := require_fence operation_id in
      Ret (let? _ := acquire_generation_permit in
           let? generated :=
             rd_generate rd 0
               (generation_request settings model_id
                  (prompt_messages character (gs_username settings) (sn_parsed_chat snapshot)
                     extra_user drop_last_assistant)) in
           let? mutation :=
             ok_or (mutation_of settings character (gr_text generated))
               (control_error StCommitValidationFailed (Some operation_id)) in
           Ok (mutation, gr_text generated))
  end.

(** The [Done] event, when the context has a sink. *)
Definition done_events (context : option BridgeExecutionContext) (outcome : StBridgeOutcome)
    : list BridgeProgressEvent :=
  match context with
  | Some c => if bx_progress c then [PeDone (default "" (out_reply_text outcome)) CcApplied] else []
  | None => []
  end.

(** After the generation: settle its failure, or persist, commit and report. *)
Definition finish_turn (actor : Actor) (operation_id operation_kind : string)
    (locator : StChatLocator) (snapshot : StChatSnapshot) (context : option BridgeExecutionContext)
    (generation : Prog (StResult (StMutation * string)))
    : Prog (StResult (StBridgeOutcome * list BridgeProgressEvent)) :=
  await generated := generation in
  match generated with
  | Err error =>
      await error := settle_generation_failure operation_id error in Ret (Err error)
  | Ok (mutation, text) =>
      await? _ :=
        persist_generated_payload (acc_id (act_account actor)) operation_id operation_kind locator
          snapshot mutation in
      await? outcome := commit_mutation operation_id locator snapshot mutation text in
      Ret (Ok (outcome, done_events context outcome))
  end.

(** The body [send_message_with_context] and [regenerate_reply_with_context]
    share: they differ in the kind, the prompt and the mutation. *)
Definition turn_with_context (actor : Actor) (locator : StChatLocator)
    (client_operation_id operation_kind done_text : string)
    (context : option BridgeExecutionContext) (origin : BridgeOperationOrigin)
    (generation : string -> StChatSnapshot -> Prog (StResult (StMutation * string)))
    : Prog (StResult (StBridgeOutcome * list BridgeProgressEvent)) :=
  match lock_locator, require_write_for_locator locator with
  | Err e, _ | Ok _, Err e => Ret (Err e)
  | Ok _, Ok _ =>
      let operation_id :=
        choose_id client_operation_id (default (rd_new_id rd) (bx_operation_id <$> context)) in
      if match context with Some c => negb (bx_operation_id c =?= operation_id) | None => false end
      then Ret (Err (control_error StOperationIdReused (Some operation_id)))
      else
        await? early := claim_or_replay actor operation_id operation_kind locator origin done_text in
        match early, rd_snapshot rd, coordinator_for operation_id with
        | Some outcome, _, _ => Ret (Ok (outcome, []))
        | None, Err e, _ | None, Ok _, Err e => Ret (Err e)
        | None, Ok snapshot, Ok _ =>
            await? _ := mark_snapshot operation_id snapshot in
            await? _ := mark_generating operation_id in
            finish_turn actor operation_id operation_kind locator snapshot context
              (generation operation_id snapshot)
        end
  end.

Definition send_message_with_context (actor : Actor) (locator : StChatLocator)
    (text client_operation_id : string) (model_override : option string)
    (context : option BridgeExecutionContext) (origin : BridgeOperationOrigin)
    : Prog (StResult (StBridgeOutcome * list BridgeProgressEvent)) :=
  turn_with_context actor locator client_operation_id KIND_SEND
    "该发送操作已完成，未再次写入 SillyTavern。" context origin
    (λ operation_id snapshot,
       generate_turn actor operation_id locator snapshot model_override (Some text) false
         (λ settings character generated,
            Some (append_mutation (rd_now rd) (gs_username settings) (sc_name character) text
                    generated))).

Definition regenerate_reply_with_context (actor : Actor) (locator : StChatLocator)
    (client_operation_id : string) (model_override : option string)
    (context : option BridgeExecutionContext) (origin : BridgeOperationOrigin)
    : Prog (StResult (StBridgeOutcome * list BridgeProgressEvent)) :=
  turn_with_context actor locator client_operation_id KIND_REGENERATE
    "该重生成操作已完成，未再次写入 SillyTavern。" context origin
    (λ operation_id snapshot,
       generate_turn actor operation_id locator snapshot model_override None true
         (λ _ character generated,
            replace_assistant_mutation (rd_now rd) snapshot (sc_name character) generated)).

Definition without_events
    (p : Prog (StResult (StBridgeOutcome * list BridgeProgressEvent)))
    : Prog (StResult StBridgeOutcome) := bind p (λ r, Ret (result_map fst r)).

Definition send_message (actor : Actor) (locator : StChatLocator) (text client_operation_id : string)
    (model_override : option string) (origin : BridgeOperationOrigin)
    : Prog (StResult StBridgeOutcome) :=
  without_events
    (send_message_with_context actor locator text client_operation_id model_override None origin).

Definition regenerate_reply (actor : Actor) (locator : StChatLocator) (client_operation_id : string)
    (model_override : option string) (origin : BridgeOperationOrigin)
    : Prog (StResult StBridgeOutcome) :=
  without_events
    (regenerate_reply_with_context actor locator client_operation_id model_override None origin).

(** [parsed_chat[i]]: the indexes come from the same list, so [None] (a panic in
    the code) is never reached. *)
Definition undo_last_turn (actor : Actor) (locator : StChatLocator)
    (client_operation_id operation_kind : string) (origin : BridgeOperationOrigin)
    : Prog (StResult StBridgeOutcome) :=
  match lock_locator, require_write_for_locator locator with
  | Err e, _ | Ok _, Err e => Ret (Err e)
  | Ok _, Ok _ =>
      let operation_id := choose_id client_operation_id (rd_new_id rd) in
      await? early :=
        claim_or_replay actor operation_id operation_kind locator origin
          "该撤回操作已完成，未再次回退 SillyTavern。" in
      match early, rd_snapshot rd with
      | Some outcome, _ => Ret (Ok outcome)
      | None, Err e => Ret (Err e)
      | None, Ok snapshot =>
          let chat := sn_parsed_chat snapshot in
          match ('(user, assistant) ← last_dialogue_indexes chat;
                 u ← chat !! user; a ← chat !! assistant; Some (u, a)),
                coordinator_for operation_id with
          | None, _ => Ret (Err (control_error StCommitValidationFailed (Some operation_id)))
          | Some _, Err e => Ret (Err e)
          | Some (u, a), Ok _ =>
              let user_sha := message_sha256 u in
              let assistant_sha := message_sha256 a in
              let removed := removed_content (visible_text u) (visible_text a) in
              let mutation := UndoLastTurn user_sha assistant_sha in
              let reply_text :=
                if operation_kind =?= KIND_REVOKE
                then "已撤回最后一轮（SillyTavern 已回退）：" +:+ removed
                else "已在 SillyTavern 撤回最后一轮（Telegram 消息保持保留）：" +:+ removed in
              await? _ := mark_snapshot operation_id snapshot in
              await? _ :=
                persist_generated_payload (acc_id (act_account actor)) operation_id operation_kind
                  locator snapshot mutation in
              await? _ := commit_mutation operation_id locator snapshot mutation reply_text in
              Ret (Ok {| out_operation_id := Some operation_id; out_reply_text := Some reply_text;
                         out_write_committed := true; out_confirmed_commit := true;
                         out_removed_safe_content := Some removed;
                         out_st_tail_fingerprint := Some (user_sha +:+ ":" +:+ assistant_sha) |})
          end
      end
  end.

Definition replay_committed_undo (operation_id operation_kind : string)
    : Prog (option StBridgeOutcome) :=
  if en_operation_store self then
    await found := db_read (get_operation operation_id) in
    Ret (match found with
         | Ok (Some record) => replay_outcome_from_record operation_id operation_kind record
         | _ => None
         end)
  else Ret None.

(** The loop of [compress_chat]; [index] counts the generations. *)
Fixpoint compress_patches (settings : StGenerationSettings) (model_id : option string)
    (index : nat) (targets : list (Z * string * string)) : StResult (list StMessagePatch) :=
  match targets with
  | [] => Ok []
  | (message, expected_sha, text) :: targets =>
      let? generated :=
        rd_generate rd index
          (generation_request settings model_id (compression_messages text)) in
      let? patches := compress_patches settings model_id (S index) targets in
      Ok (compress_patch message expected_sha (gr_text generated) :: patches)
  end.

Definition generate_compression (actor : Actor) (operation_id : string)
    (targets : list (Z * string * string)) : Prog (StResult (StMutation * string)) :=
  await? _ := require_fence operation_id in
  match acquire_generation_permit with
  | Err e => Ret (Err e)
  | Ok _ =>
      await channel := db_read (load (acc_id (act_account actor)) (en_context_key self)) in
      Ret (let? settings := rd_settings rd in
           let? patches :=
             compress_patches settings (cl_compression_model_id channel) 0 targets in
           Ok (CompressMessages patches, "已压缩较早的历史消息。"))
  end.

Definition compress_chat (actor : Actor) (locator : StChatLocator) (client_operation_id : string)
    (origin : BridgeOperationOrigin) : Prog (StResult StBridgeOutcome) :=
  match lock_locator, require_write_for_locator locator with
  | Err e, _ | Ok _, Err e => Ret (Err e)
  | Ok _, Ok _ =>
      let operation_id := choose_id client_operation_id (rd_new_id rd) in
      await? early :=
        claim_or_replay actor operation_id KIND_COMPRESS locator origin
          "该压缩操作已完成，未再次写入 SillyTavern。" in
      match early, rd_snapshot rd with
      | Some outcome, _ => Ret (Ok outcome)
      | None, Err e => Ret (Err e)
      | None, Ok snapshot =>
          let targets := compress_targets (sn_parsed_chat snapshot) in
          match targets, coordinator_for operation_id with
          | [], _ =>
              Ret (Ok (uncommitted_outcome (Some operation_id) "没有需要压缩的历史消息。"))
          | _ :: _, Err e => Ret (Err e)
          | _ :: _, Ok _ =>
              await? _ := mark_snapshot operation_id snapshot in
              await? _ := mark_generating operation_id in
              without_events
                (finish_turn actor operation_id KIND_COMPRESS locator snapshot None
                   (generate_compression actor operation_id targets))
          end
      end
  end.

(** *** Dispatch *)

(** A write of the channel store made by [execute]. *)
Definition channel_command (actor : Actor)
    (write : string -> string -> DB -> DB * AppResult unit) (reply_text : string)
    : Prog (StResult StBridgeOutcome) :=
  match require_workspace actor with
  | Err _ => Ret (Err (control_error StChatLocatorRejected None))
  | Ok workspace_id =>
      await? _ :=
        prog_map_err (λ _, control_error StChatLocatorRejected None)
          (db_call (λ now, write now workspace_id)) in
      Ret (Ok (uncommitted_outcome None reply_text))
  end.

Definition execute (actor : Actor) (command : StBridgeCommand) : Prog (StResult StBridgeOutcome) :=
  let account_id := acc_id (act_account actor) in
  match command with
  | SelectCharacterCmd avatar character_name =>
      match require_workspace actor, rd_probe rd with
      | Ok _, Err e => Ret (Err e)
      | Err _, _ => Ret (Err (control_error StChatLocatorRejected None))
      | Ok _, Ok status =>
          channel_command actor
            (λ now workspace_id, select_character now account_id workspace_id (en_context_key self)
                                   (st_handle status) avatar character_name)
            ("已选择角色：" +:+ character_name)
      end
  | SelectChatCmd locator =>
      channel_command actor
        (λ now workspace_id, select_chat now account_id workspace_id (en_context_key self) locator)
        ("已选择会话：" +:+ loc_chat_file locator)
  | SetModelOverrideCmd kind model_id =>
      channel_command actor
        (λ now workspace_id, set_model_override now account_id workspace_id (en_context_key self)
           (match kind with ForChat => "chat" | ForCompression => "compression" end) model_id)
        "已更新模型覆盖"
  | StartChat _ id | SendMessage _ _ id _ | UndoLastTurnCmd _ id | RevokeLastTurn _ id
  | RegenerateReply _ id _ | CompressChat _ id =>
      Ret (Err (control_error StWriteNotReady (Some id)))
  end.

Definition execute_with_origin (actor : Actor) (command : StBridgeCommand)
    (origin : BridgeOperationOrigin) : Prog (StResult StBridgeOutcome) :=
  match command with
  | StartChat locator id => start_chat actor locator id origin
  | SendMessage locator text id model => send_message actor locator text id model origin
  | UndoLastTurnCmd locator id => undo_last_turn actor locator id KIND_UNDO origin
  | RevokeLastTurn locator id => undo_last_turn actor locator id KIND_REVOKE origin
  | RegenerateReply locator id model => regenerate_reply actor locator id model origin
  | CompressChat locator id => compress_chat actor locator id origin
  | other => execute actor other
  end.

Definition no_events (p : Prog (StResult StBridgeOutcome))
    : Prog (StResult (StBridgeOutcome * list BridgeProgressEvent)) :=
  bind p (λ r, Ret (result_map (λ outcome, (outcome, [])) r)).

Definition execute_with_context_and_origin (actor : Actor) (command : StBridgeCommand)
    (context : option BridgeExecutionContext) (origin : BridgeOperationOrigin)
    : Prog (StResult (StBridgeOutcome * list BridgeProgressEvent)) :=
  match command with
  | SendMessage locator text id model =>
      send_message_with_context actor locator text id model context origin
  | RegenerateReply locator id model =>
      regenerate_reply_with_context actor locator id model context origin
  | other => no_events (execute_with_origin actor other origin)
  end.

Definition execute_with_context (actor : Actor) (command : StBridgeCommand)
    : Prog (StResult StBridgeOutcome) :=
  match command with
  | SendMessage _ _ id _ | RegenerateReply _ id _ =>
      Ret (Err (control_error StWriteNotReady (Some id)))
  | other => execute actor other
  end.

Definition query (actor : Actor) (q : StBridgeQuery) : Prog (StResult StBridgeView) :=
  let channel := db_read (load (acc_id (act_account actor)) (en_context_key self)) in
  match q with
  | ListCharacters => Ret (result_map ViewCharacters (rd_characters rd))
  | ListCharacterChats _ => Ret (result_map ViewChats (rd_chats rd))
  | GetModels =>
      match rd_models rd with
      | Err e => Ret (Err e)
      | Ok catalog =>
          await context := channel in
          Ret (Ok (ViewModels catalog (cl_chat_model_id context) (cl_compression_model_id context)))
      end
  | GetChannelContext =>
      await context := channel in
      Ret (Ok (ViewContext
        (match cl_handle context, cl_avatar context, cl_chat_file context with
         | Some handle, Some avatar, Some chat_file =>
             Some {| loc_handle := handle; loc_avatar := avatar;
                     loc_character_name := default "" (cl_character_name context);
                     loc_chat_file := chat_file |}
         | _, _, _ => None
         end) (cl_chat_model_id context) (cl_compression_model_id context)))
  | GetHistory _ =>
      Ret (let? snapshot := rd_snapshot rd in
           Ok (ViewHistory
                 (match last_visible_message (sn_parsed_chat snapshot) with
                  | Some (_, speaker, text) => speaker +:+ "：" +:+ NL +:+ text
                  | None => ""
                  end)))
  | GetLastTurn _ =>
      Ret (let? snapshot := rd_snapshot rd in
           let '(user, assistant) :=
             last_turn_texts (rev (sn_parsed_chat snapshot)) None None in
           Ok (ViewLastTurn user assistant (Some (sn_source_sha256 snapshot))))
  | ListRecentChats =>
      await recent := db_read (list_recent (acc_id (act_account actor)) 8) in
      Ret (Ok (ViewChats
        (omap (λ item, chat_file ← cl_chat_file item;
                       Some {| ch_chat_file := chat_file; ch_title := cl_character_name item;
                               ch_updated_at := None; ch_message_count := None |}) recent)))
  | GetOperation operation_id => Ret (Ok (ViewOperation operation_id "unknown"))
  end.
End Engine.
