(* ===== verification/CoordinatorCorrect.v ===== *)
(** * What the coordinator guarantees

    Truthful outcomes of the three commands that reach the backend, the ledger
    state they leave, soundness of reconciliation and of claim dispositions,
    all of them in any lawful environment: other tasks and processes may make
    store and vault calls at every suspension point. *)

From S2P Require Import Prelude Text Errors StDomain Readiness ErrorMapper Operations OperationStore.
From S2P Require Import StoreInvariant StoreCorrect PollerOwnership Journal Vault Program OperationPayload Coordinator.

(** ** Discipline of the single calls *)

Lemma disciplined_op {X} (f : string -> DB -> DB * X) (op : string -> StoreOp) :
  (forall now, op_typed (op now)) -> (forall now db, fst (f now db) = exec (op now) db) ->
  disciplined None (db_call f).
Proof.
  intros Ht Hf. apply disciplined_db_call. intros now db Hwf. rewrite Hf. by apply exec_evolves.
Qed.

Lemma disciplined_mark_committed id json c :
  disciplined None (db_call (λ now, mark_committed_with_state now id json c)).
Proof. by apply (disciplined_op _ (λ now, OpCommitted now id json c)). Qed.

Lemma disciplined_mark_failed id stage code summary retry c :
  disciplined None (db_call (λ now, mark_failed_with_state now id stage code summary retry c)).
Proof. by apply (disciplined_op _ (λ now, OpFailed now id stage code summary retry c)). Qed.

Lemma disciplined_mark_unknown id :
  disciplined None (db_call (λ now, mark_commit_unknown now id)).
Proof. by apply (disciplined_op _ (λ now, OpCommitUnknown now id)). Qed.

#[export] Hint Resolve disciplined_db_read disciplined_mark_committed disciplined_mark_failed
  disciplined_mark_unknown : progs.

(** ** The commands that reach the backend *)

Inductive Command :=
| CmdCreate (command : CreateStChat)
| CmdCommit (operation_id : string) (locator : StChatLocator)
    (expected_sha256 expected_integrity : string) (mutation : StMutation)
    (fence : PollerRuntimeFence)
| CmdReplay (self : OperationCoordinator) (record : BridgeOperationRecord)
    (internal_bot_id : string) (fence : PollerRuntimeFence).

Definition command_id (c : Command) : string :=
  match c with
  | CmdCreate command => cr_operation_id command
  | CmdCommit id _ _ _ _ _ => id
  | CmdReplay _ record _ _ => rec_id record
  end.

Section Commands.
Context `{IdSource} `{Redactor} `{Codecs} `{Aead} {V : SecretVault} {LV : LawfulVault V}.

Definition command_program (c : Command) : Prog (StResult StCommitResult) :=
  match c with
  | CmdCreate command => create command
  | CmdCommit id locator sha integrity mutation fence =>
      commit id locator sha integrity mutation fence
  | CmdReplay self record bot fence => replay_generated self record bot fence
  end.

(** The part after the gate: one backend call, then the settlement. *)
Definition call_and_settle (id : string) (call : BackendCall) (texts : SettleTexts)
    (on_store_error : AppError -> Prog (StResult StCommitResult))
    : Prog (StResult StCommitResult) :=
  await result := backend_call id call in settle_result texts id on_store_error result.

(** The two ways a command handles an applied commit it cannot record. *)
Definition store_error_handler (id : string)
    (h : AppError -> Prog (StResult StCommitResult)) : Prop :=
  h = record_unrecorded id
  \/ h = (λ error, Ret (Err (unknown_commit_error id (AppError_to_string error)))).

Definition refused (e : StBridgeError) : Prop :=
  e_commit_state e = NotStarted \/ retry_action e = ReconcileSameOperation.

(** Every command is: a prefix without backend calls that ends in a refusal
    or in the gate, and behind the gate one call and its settlement. *)
Inductive gated (id : string) : Prog (StResult StCommitResult) -> Prop :=
| gated_refuse e : refused e -> gated id (Ret (Err e))
| gated_read f k :
    (forall now db, f now db = db) -> (forall now db, gated id (k now db)) ->
    gated id (Db f k)
| gated_open call texts h :
    store_error_handler id h ->
    gated id (await? _ := open_gate id in call_and_settle id call texts h).

Lemma restore_no_calls E id w :
  w_calls (fst (exec_prog E (restore_for_operation id) w)) = w_calls w.
Proof.
  unfold restore_for_operation, from_reference, from_wrapped. simpl.
  destruct (get_operation_key_reference _ _) as [[reference|]|]; [| done | done].
  destruct (is_blank _); [done |]. simpl. by destruct (sv_get _ _).
Qed.

Lemma gated_bind_ret {X} id (r : AppResult X) (k : X -> Prog (StResult StCommitResult)) :
  (forall x, gated id (k x)) ->
  gated id (await? x := prog_map_err (bridge_error_from_app id) (Ret r) in k x).
Proof. intros Hk. destruct r as [x|e]; simpl; [apply Hk |]. constructor. by left. Qed.

Lemma gated_restore id oid (k : OperationPayloadEncryptor -> AppResult OperationRecoveryPayload)
    (k' : OperationRecoveryPayload -> Prog (StResult StCommitResult)) :
  (forall x, gated id (k' x)) ->
  gated id (await? x := prog_map_err (bridge_error_from_app id)
                          (await? enc := restore_for_operation oid in Ret (k enc)) in k' x).
Proof.
  intros Hk'. unfold restore_for_operation. simpl.
  constructor; [done |]. intros _ db.
  destruct (get_operation_key_reference oid db) as [[reference|]|]; simpl;
    [| constructor; by left ..].
  unfold from_reference, from_wrapped. destruct (is_blank _); simpl; [constructor; by left |].
  constructor; [done |]. intros _ db'.
  destruct (sv_get _ db') as [bytes|]; simpl; [| constructor; by left].
  destruct (negb _); simpl; [constructor; by left |].
  destruct (k _) as [x|]; simpl; [apply Hk' | constructor; by left].
Qed.

Lemma command_gated c : gated (command_id c) (command_program c).
Proof.
  destruct c as [command|id loc sha int m f|self record bot f]; simpl.
  - apply (gated_open _ (CallCreate command) create_texts (record_unrecorded _)). by left.
  - unfold commit. destruct (negb _).
    + constructor. by right.
    + refine (gated_open _ (CallCommit _) commit_texts (record_unrecorded id) _). by left.
  - unfold replay_generated. destruct (_ || _); [constructor; by left |].
    destruct (negb _); [constructor; by right |].
    unfold decrypt_recovery_payload_for_operation, restore_payload_encryptor_for_operation.
    assert (forall payload, gated (rec_id record)
      (await? _ := open_gate (rec_id record) in
       await result := backend_call (rec_id record) (replay_call record payload) in
       settle_result replay_texts (rec_id record)
         (λ error, Ret (Err (unknown_commit_error (rec_id record) (AppError_to_string error))))
         result)) as Hg.
    { intros payload.
      refine (gated_open _ (replay_call record payload) replay_texts
                (λ error, Ret (Err (unknown_commit_error (rec_id record)
                                      (AppError_to_string error)))) _). by right. }
    destruct (payload_key_provider self).
    + apply gated_restore. exact Hg.
    + destruct (payload_encryptor self) as [enc|]; simpl ok_or.
      * apply (gated_bind_ret (rec_id record)
          (let? encrypted := recovery_payload record in
           if negb (fence_is_valid f) || negb (f_internal_bot_id f =?= rec_bot_id record)
           then _ else decode_and_validate_recovery_payload enc record encrypted f)).
        exact Hg.
      * apply (gated_bind_ret (rec_id record) (Err payload_key_unavailable)). exact Hg.
Qed.

(** ** Settlement *)

Definition applied_answer (r : StResult StCommitResult) : bool :=
  match r with
  | Ok res => (cres_status res =?= CommitApplied) || (cres_status res =?= CommitAlreadyApplied)
  | Err _ => false
  end.

Definition not_applied_answer (r : StResult StCommitResult) : bool :=
  match r with
  | Ok res => cres_status res =?= CommitNotApplied
  | Err e => e_commit_state e =?= NotApplied
  end.

Definition outcome_unknown (e : StBridgeError) : Prop :=
  e_commit_state e = Unknown /\ retry_action e = ReconcileSameOperation.

(** What a command may report, given the backend's answer. *)
Definition truthful (id : string) (answer outcome : StResult StCommitResult) (db : DB) : Prop :=
  match outcome with
  | Ok res =>
      answer = Ok res /\ applied_answer answer = true
      /\ ledger db !! id = Some (Committed, OcApplied)
  | Err e =>
      if not_applied_answer answer then e_commit_state e = NotApplied else outcome_unknown e
  end.

Lemma unknown_commit_error_unknown id d : outcome_unknown (unknown_commit_error id d).
Proof. by split. Qed.

Lemma persistence_error_unknown id code pe :
  outcome_unknown (operation_state_persistence_error id code pe Unknown).
Proof. by split. Qed.

Lemma mark_committed_ok_ledger now id json c db db' rec :
  mark_committed_with_state now id json c db = (db', Ok rec) ->
  ledger db' !! id = Some (Committed, OcApplied).
Proof.
  intros Hm. apply cas_update_ok_inv in Hm as (r & _ & _ & -> & _).
  rewrite ledger_lookup. simpl. rewrite lookup_insert_eq. by apply row_state_Some.
Qed.

Lemma settle_failure_exec E id f original cs w :
  exec_prog E (settle_failure id (db_call f) original cs) w =
    let '(db, stored) := f (env_now E (w_step w)) (env_db E (w_step w) (w_db w)) in
    ({| w_db := db; w_calls := w_calls w; w_step := S (w_step w) |},
     Err (match stored with
          | Ok _ => original
          | Err pe => operation_state_persistence_error id (e_code original) pe cs
          end)).
Proof. simpl. by destruct (f _ _). Qed.

Lemma settle_not_applied_truthful E id summary original answer w w' outcome :
  e_commit_state original = NotApplied -> not_applied_answer answer = true ->
  exec_prog E (settle_not_applied id summary original) w = (w', outcome) ->
  w_calls w' = w_calls w /\ truthful id answer outcome (w_db w').
Proof.
  intros Ho Ha. unfold settle_not_applied. rewrite settle_failure_exec.
  destruct (mark_failed_with_state _ _ _ _ _ _ _ _) as [db stored].
  intros [= <- <-]. split; [done |]. simpl. rewrite Ha. by destruct stored.
Qed.

Lemma settle_unknown_truthful E id detail answer w w' outcome :
  not_applied_answer answer = false ->
  exec_prog E (settle_unknown id detail) w = (w', outcome) ->
  w_calls w' = w_calls w /\ truthful id answer outcome (w_db w').
Proof.
  intros Ha. unfold settle_unknown. rewrite settle_failure_exec.
  destruct (mark_commit_unknown _ _ _) as [db stored].
  intros [= <- <-]. split; [done |]. simpl. rewrite Ha.
  destruct stored; [apply unknown_commit_error_unknown | apply persistence_error_unknown].
Qed.

Lemma store_error_handler_exec E id h error w :
  store_error_handler id h ->
  exists w' e, exec_prog E (h error) w = (w', Err e)
    /\ w_calls w' = w_calls w /\ outcome_unknown e.
Proof.
  intros [-> | ->].
  - unfold record_unrecorded. rewrite exec_bind, exec_db_call.
    destruct (mark_commit_unknown _ _ _) as [db marked].
    eexists _, _. split; [done |]. split; [done | apply persistence_error_unknown].
  - eexists _, _. split; [done |]. split; [done | apply unknown_commit_error_unknown].
Qed.

Lemma settle_result_truthful E texts id h answer w w' outcome :
  store_error_handler id h ->
  exec_prog E (settle_result texts id h answer) w = (w', outcome) ->
  w_calls w' = w_calls w /\ truthful id answer outcome (w_db w').
Proof.
  intros Hh. unfold settle_result. destruct answer as [res|error].
  - assert (forall enc, applied_answer (Ok res) = true -> not_applied_answer (Ok res) = false ->
      exec_prog E
        (await stored := db_call (λ now, mark_committed_with_state now id enc OcNotStarted) in
         match stored with Ok _ => Ret (Ok res) | Err e => h e end) w = (w', outcome) ->
      w_calls w' = w_calls w /\ truthful id (Ok res) outcome (w_db w')) as Hrec.
    { intros enc Ha Hn. rewrite exec_bind, exec_db_call.
      destruct (mark_committed_with_state _ _ _ _ _) as [db [rec|pe]] eqn:Hm.
      - intros [= <- <-]. split; [done |]. simpl. split_and!; [done | done |].
        by eapply mark_committed_ok_ledger.
      - destruct (store_error_handler_exec E id h pe
          {| w_db := db; w_calls := w_calls w; w_step := S (w_step w) |} Hh)
          as (w1 & e & -> & Hc & Hu).
        intros [= <- <-]. split; [done |]. simpl in *. by rewrite Hn. }
    destruct (cres_status res) eqn:Hs.
    + destruct (result_to_string res); [by apply Hrec; simpl; rewrite Hs |].
      intros [= <- <-]. split; [done |]. simpl. rewrite Hs. apply unknown_commit_error_unknown.
    + destruct (result_to_string res); [by apply Hrec; simpl; rewrite Hs |].
      intros [= <- <-]. split; [done |]. simpl. rewrite Hs. apply unknown_commit_error_unknown.
    + apply settle_not_applied_truthful; [done | simpl; by rewrite Hs].
    + apply settle_unknown_truthful. simpl. by rewrite Hs.
  - destruct (bool_decide_reflect (e_commit_state error = NotApplied)) as [Hn|Hn].
    + apply settle_not_applied_truthful; [done | by apply bool_decide_eq_true_2].
    + apply settle_unknown_truthful. by apply bool_decide_eq_false_2.
Qed.

(** A run of a gated program: refused without a call, or one call. *)
Lemma gated_exec E id p w w' outcome :
  gated id p -> exec_prog E p w = (w', outcome) ->
  (w_calls w' = w_calls w /\ exists e, outcome = Err e /\ refused e)
  \/ exists call answer, w_calls w' = (id, call, answer) :: w_calls w
       /\ truthful id answer outcome (w_db w').
Proof.
  intros Hg. revert w. induction Hg as [e He|f k Hf Hk IH|call texts h Hh]; intros w.
  - intros [= <- <-]. left. eauto.
  - simpl. intros Hx. apply IH in Hx. exact Hx.
  - rewrite exec_bind. unfold open_gate, prog_map_err. rewrite exec_bind, exec_db_call.
    destruct (mark_committing _ _ _) as [db [rec|e]]; simpl.
    + intros Hx. apply settle_result_truthful in Hx as [Hc Ht]; [| done]. right. eauto.
    + intros [= <- <-]. left. split; [done |]. eexists. split; [done |]. by left.
Qed.

Lemma settle_result_disciplined texts id h answer :
  store_error_handler id h -> disciplined None (settle_result texts id h answer).
Proof.
  intros Hh.
  assert (forall e, disciplined None (h e)) as Hd.
  { destruct Hh as [-> | ->]; intros e; [| constructor].
    apply disciplined_bind; eauto with progs. }
  assert (forall s o, disciplined None (settle_not_applied id s o)) as Hna
    by (intros; apply disciplined_bind; eauto with progs).
  assert (forall d, disciplined None (settle_unknown id d)) as Hun
    by (intros; apply disciplined_bind; eauto with progs).
  unfold settle_result. destruct answer as [res|error]; [| by destruct (_ =?= _)].
  destruct (cres_status res); [| | done | done];
    (destruct (result_to_string res); [| constructor];
     apply disciplined_bind; [eauto with progs | intros []; [constructor | done]]).
Qed.

Lemma gated_disciplined id p : gated id p -> disciplined None p.
Proof.
  induction 1 as [e He|f k Hf Hk IH|call texts h Hh].
  - constructor.
  - constructor; [intros now db Hwf; rewrite Hf; by apply evolves_refl | auto].
  - simpl. apply disciplined_gate. intros now db _.
    destruct (snd (mark_committing now id db)); simpl; [| constructor].
    constructor. intros r. by apply settle_result_disciplined.
Qed.

Lemma command_disciplined c : disciplined None (command_program c).
Proof. eapply gated_disciplined, command_gated. Qed.

Lemma reconcile_disciplined record lh : disciplined None (reconcile_commit record lh).
Proof.
  unfold reconcile_commit. destruct (already_applied record); [constructor |].
  destruct (negb _); [constructor |]. destruct (rec_mutation_digest record); [| constructor].
  apply disciplined_bind; [repeat constructor |]. intros [[journal|]|]; [| constructor ..].
  destruct (negb _); [constructor |]. destruct (negb _); [constructor |].
  apply disciplined_bind; eauto with progs.
Qed.

(** ** The ledger state a command leaves *)

(** The rest of the system leaves this operation's slot alone (it holds the
    operation's lease). *)
Definition undisturbed (E : Env) (id : string) : Prop :=
  forall i db, db_wf db ->
    evolves db (env_db E i db) /\ ledger (env_db E i db) !! id = ledger db !! id.

Definition settled (answer : StResult StCommitResult) : OpState :=
  if applied_answer answer then (Committed, OcApplied)
  else if not_applied_answer answer then (Failed, OcNotApplied)
  else (Committing, OcUnknown).

(** A compare-and-set whose guard holds succeeds and moves the slot. *)
Lemma cas_fires id guard set from to db st st' :
  db_wf db -> db_wf (fst (cas_update id guard set from to db)) ->
  ledger db !! id = Some st ->
  (forall r, row_state r = Some st -> guard r = true /\ row_state (set r) = Some st') ->
  exists db' rec, cas_update id guard set from to db = (db', Ok rec)
    /\ ledger db' !! id = Some st'.
Proof.
  intros Hwf Hwf' Hl Hg. rewrite ledger_lookup in Hl.
  destruct (bridge_operations db !! id) as [r|] eqn:Hr; [| done]. simpl in Hl.
  destruct (Hg r Hl) as [Hgr Hst].
  pose proof (cas_update_result id guard set from to db r Hwf Hr Hwf') as Hc.
  rewrite Hgr in Hc. destruct Hc as (rec & -> & _). eexists _, _. split; [done |].
  rewrite ledger_lookup. simpl. by rewrite lookup_insert_eq.
Qed.

Lemma mark_committed_fires now id json db :
  db_wf db -> ledger db !! id = Some (Committing, OcNotStarted) ->
  exists db' rec, mark_committed_with_state now id json OcNotStarted db = (db', Ok rec)
    /\ ledger db' !! id = Some (Committed, OcApplied).
Proof.
  intros Hwf Hl. eapply cas_fires; [done | | done |].
  - by apply (exec_ok (OpCommitted now id json OcNotStarted)).
  - intros r Hr. split; [by apply (at_state_true Committing OcNotStarted) |].
    by apply row_state_Some.
Qed.

Lemma mark_failed_fires now id stage code summary retry db :
  db_wf db -> ledger db !! id = Some (Committing, OcNotStarted) ->
  exists db' rec,
    mark_failed_with_state now id stage code summary retry OcNotApplied db = (db', Ok rec)
    /\ ledger db' !! id = Some (Failed, OcNotApplied).
Proof.
  intros Hwf Hl. eapply cas_fires; [done | | done |].
  - by apply (exec_ok (OpFailed now id stage code summary retry OcNotApplied)).
  - intros r [Hs Hc]%row_state_Some. rewrite Hs, Hc. split; [done |]. by apply row_state_Some.
Qed.

Lemma mark_unknown_fires now id db :
  db_wf db -> ledger db !! id = Some (Committing, OcNotStarted) ->
  exists db' rec, mark_commit_unknown now id db = (db', Ok rec)
    /\ ledger db' !! id = Some (Committing, OcUnknown).
Proof.
  intros Hwf Hl. eapply cas_fires; [done | | done |].
  - by apply (exec_ok (OpCommitUnknown now id)).
  - intros r Hr. split; [by apply (at_state_true Committing OcNotStarted) |].
    apply row_state_Some in Hr as [Hs _]. by apply row_state_Some.
Qed.

Lemma settle_result_settles E texts id h answer w :
  undisturbed E id -> (forall res, is_Some (result_to_string res)) ->
  db_wf (w_db w) -> ledger (w_db w) !! id = Some (Committing, OcNotStarted) ->
  let '(w', outcome) := exec_prog E (settle_result texts id h answer) w in
  ledger (w_db w') !! id = Some (settled answer) /\ is_ok outcome = applied_answer answer.
Proof.
  intros HE Hser Hwf Hl. destruct (HE (w_step w) _ Hwf) as [He Hl'].
  rewrite Hl in Hl'. pose proof (ev_wf _ _ He) as Hwf'.
  assert (forall summary original ans, applied_answer ans = false ->
    not_applied_answer ans = true ->
    let '(w', outcome) := exec_prog E (settle_not_applied id summary original) w in
    ledger (w_db w') !! id = Some (settled ans) /\ is_ok outcome = applied_answer ans) as Hna.
  { intros summary original ans Ha Hn. unfold settle_not_applied. rewrite settle_failure_exec.
    destruct (mark_failed_fires (env_now E (w_step w)) id "commit" (as_str StCommitFailed) summary
      false _ Hwf' Hl') as (db' & rec & -> & Hd).
    unfold settled. by rewrite Ha, Hn. }
  assert (forall detail ans, applied_answer ans = false -> not_applied_answer ans = false ->
    let '(w', outcome) := exec_prog E (settle_unknown id detail) w in
    ledger (w_db w') !! id = Some (settled ans) /\ is_ok outcome = applied_answer ans) as Hun.
  { intros detail ans Ha Hn. unfold settle_unknown. rewrite settle_failure_exec.
    destruct (mark_unknown_fires (env_now E (w_step w)) id _ Hwf' Hl') as (db' & rec & -> & Hd).
    unfold settled. by rewrite Ha, Hn. }
  unfold settle_result. destruct answer as [res|error].
  - assert (forall enc, applied_answer (Ok res) = true ->
      let '(w', outcome) := exec_prog E
        (await stored := db_call (λ now, mark_committed_with_state now id enc OcNotStarted) in
         match stored with Ok _ => Ret (Ok res) | Err e => h e end) w in
      ledger (w_db w') !! id = Some (settled (Ok res))
      /\ is_ok outcome = applied_answer (Ok res)) as Hok.
    { intros enc Ha. rewrite exec_bind, exec_db_call.
      destruct (mark_committed_fires (env_now E (w_step w)) id enc _ Hwf' Hl')
        as (db' & rec & -> & Hd). unfold settled. by rewrite Ha. }
    destruct (Hser res) as [enc Henc]. rewrite Henc.
    destruct (cres_status res) eqn:Hs.
    + apply Hok. simpl. by rewrite Hs.
    + apply Hok. simpl. by rewrite Hs.
    + apply Hna; simpl; by rewrite Hs.
    + apply Hun; simpl; by rewrite Hs.
  - destruct (bool_decide_reflect (e_commit_state error = NotApplied)) as [Hn|Hn].
    + apply Hna; [done | by apply bool_decide_eq_true_2].
    + apply Hun; [done | by apply bool_decide_eq_false_2].
Qed.

Lemma gated_settles E id p w :
  undisturbed E id -> (forall res, is_Some (result_to_string res)) ->
  gated id p -> db_wf (w_db w) ->
  let '(w', outcome) := exec_prog E p w in
  (w_calls w' = w_calls w /\ ledger (w_db w') !! id = ledger (w_db w) !! id)
  \/ exists call answer, w_calls w' = (id, call, answer) :: w_calls w
       /\ ledger (w_db w) !! id = Some (Generated, OcNotStarted)
       /\ ledger (w_db w') !! id = Some (settled answer)
       /\ is_ok outcome = applied_answer answer.
Proof.
  intros HE Hser Hg. revert w. induction Hg as [e He|f k Hf Hk IH|call texts h Hh]; intros w Hwf.
  - by left.
  - simpl. destruct (HE (w_step w) _ Hwf) as [He Hl]. rewrite Hf.
    specialize (IH (env_now E (w_step w)) (env_db E (w_step w) (w_db w))
      {| w_db := env_db E (w_step w) (w_db w); w_calls := w_calls w; w_step := S (w_step w) |}
      (ev_wf _ _ He)). simpl in IH. rewrite Hl in IH. exact IH.
  - destruct (HE (w_step w) _ Hwf) as [He Hl].
    rewrite exec_bind. unfold open_gate, prog_map_err. rewrite exec_bind, exec_db_call.
    destruct (mark_committing _ _ _) as [db [rec|e]] eqn:Hm; simpl.
    + destruct (mark_committing_inv _ _ _ _ _ Hm) as (Hl1 & Hl2 & Hdb & _).
      assert (db_wf db) as Hwf1 by (rewrite Hdb; apply exec_ok; [done | apply He]).
      destruct (HE (S (w_step w)) _ Hwf1) as [He2 Hl3]. rewrite Hl2 in Hl3.
      set (w2 := {| w_db := env_db E (S (w_step w)) db; w_calls := _; w_step := _ |}).
      pose proof (settle_result_settles E texts id h (env_backend E (S (w_step w)) call) w2
        HE Hser (ev_wf _ _ He2) Hl3) as Hs.
      destruct (exec_prog E (settle_result _ _ _ _) w2) as [w' outcome] eqn:Hx.
      destruct Hs as [Hs1 Hs2].
      apply settle_result_truthful in Hx as [Hc _]; [| done].
      right. exists call, (env_backend E (S (w_step w)) call). split_and!; try done.
      congruence.
    + left. split; [done |]. rewrite <- Hl.
      revert Hm. unfold mark_committing, cas_update, update_operation.
      destruct (bridge_operations _ !! id) as [r|] eqn:Hr; [| by intros [= <- _]].
      destruct (at_state _ _ r) eqn:Hg; [| by intros [= <- _]].
      assert (exists db' rec, mark_committing (env_now E (w_step w)) id
                (env_db E (w_step w) (w_db w)) = (db', Ok rec)
                /\ ledger db' !! id = Some (Committing, OcNotStarted)) as (db' & rec & Hm & _).
      { eapply (cas_fires _ _ _ _ _ _ (Generated, OcNotStarted)); [apply He | | |].
        - apply (exec_ok (OpCommitting (env_now E (w_step w)) id)); [done | apply He].
        - rewrite ledger_lookup, Hr. by apply (at_state_true Generated OcNotStarted).
        - intros r' Hr'. split; [by apply (at_state_true Generated OcNotStarted) |].
          apply row_state_Some in Hr' as [_ Hc]. by apply row_state_Some. }
      revert Hm. unfold mark_committing, cas_update, update_operation. rewrite Hr, Hg.
      intros Hm. rewrite Hm. done.
Qed.
End Commands.

(** ** Concrete data for the witnesses *)

Definition demo_redactor : Redactor := {| redact_detail s := Some s |}.

Definition demo_fence : PollerRuntimeFence :=
  {| f_telegram_bot_id := 42; f_owner := "rust_bridge"; f_epoch := 3;
     f_internal_bot_id := "bot"; f_runtime_instance_id := "inst-1" |}.

Definition demo_message (user : bool) (text : string) : StChatMessage :=
  {| m_name := "n"; m_is_user := user; m_mes := text; m_send_date := None; m_extra := [] |}.

Definition demo_mutation : StMutation :=
  AppendTurn (demo_message true "hi") (demo_message false "hello").

Definition demo_append : OperationRecoveryPayload :=
  PAppend demo_mutation "sha" "int" demo_fence.

Definition demo_codecs : Codecs :=
  {| sha256_hex s := s; mutation_to_vec _ := Some "digest";
     result_to_string _ := Some "{}"; payload_to_vec _ := Some "payload";
     payload_from_slice s := if s =?= "payload" then Some demo_append else None;
     value_from_slice _ := None; value_to_string _ := "{}" |}.

Definition demo_applied : StResult StCommitResult :=
  Ok {| cres_status := CommitApplied; cres_new_sha256 := Some "sha2";
        cres_new_integrity := Some "int2"; cres_byte_length := None;
        cres_message_count := None |}.

Definition demo_command : Command :=
  CmdCommit "op-1" demo_locator "sha" "int" demo_mutation demo_fence.

(** A database with [op-1] in the given state, in a world of its own. *)
Definition world_at (st : OpState) : World := world0 (move_db st).

Lemma world_at_wf st : db_wf (w_db (world_at st)).
Proof. apply move_db_wf. Qed.

Lemma quiet_undisturbed r j id : undisturbed (quiet r j) id.
Proof. intros i db Hwf. split; [by apply evolves_refl | done]. Qed.

(** ** The properties *)

(** C2: the commands that write report truthfully.  Whatever other tasks do and
    whatever the backend answers, [create], [commit] and [replay_generated]
    make at most one backend call.  Without a call they fail with a commit
    state of not-started or a reconcile action.  With a call they succeed only
    if the backend answered applied or already-applied and the ledger row is
    committed/applied; they report not-applied only if the backend said so; in
    every other case the error says unknown and its retry action is to
    reconcile the same operation, never to run it again. *)
Theorem command_reports_truthfully (ids : IdSource) (red : Redactor) (cod : Codecs)
    (A : Aead) (V : SecretVault) E c w :
  let '(w', outcome) := exec_prog E (command_program c) w in
  (w_calls w' = w_calls w /\ exists e, outcome = Err e /\ refused e)
  \/ exists call answer, w_calls w' = (command_id c, call, answer) :: w_calls w
       /\ truthful (command_id c) answer outcome (w_db w').
Proof.
  destruct (exec_prog E (command_program c) w) as [w' outcome] eqn:Hx.
  eapply gated_exec; [apply command_gated | exact Hx].
Qed.

(** C3: the ledger records the backend's answer.  If no other task touches the
    operation meanwhile, then after a command the row is where it was (no call
    was made) or it went from generated/not_started to committed/applied,
    failed/not_applied or committing/unknown, exactly according to the
    backend's answer, and the command succeeded exactly if it was applied. *)
Theorem command_settles_ledger (ids : IdSource) (red : Redactor) (cod : Codecs)
    (A : Aead) (V : SecretVault) E c w :
  undisturbed E (command_id c) -> (forall res, is_Some (result_to_string res)) ->
  db_wf (w_db w) ->
  let '(w', outcome) := exec_prog E (command_program c) w in
  let id := command_id c in
  (w_calls w' = w_calls w /\ ledger (w_db w') !! id = ledger (w_db w) !! id)
  \/ exists call answer, w_calls w' = (id, call, answer) :: w_calls w
       /\ ledger (w_db w) !! id = Some (Generated, OcNotStarted)
       /\ ledger (w_db w') !! id = Some (settled answer)
       /\ is_ok outcome = applied_answer answer.
Proof. intros HE Hser Hwf. by apply gated_settles; [| | apply command_gated |]. Qed.

Lemma command_settles_ledger_witness :
  let E := quiet demo_applied (Ok None) in
  let w := world_at (Generated, OcNotStarted) in
  let '(w', outcome) :=
    exec_prog E (@command_program demo_ids demo_redactor demo_codecs toy_aead demo_impl
                   demo_command) w in
  ledger (w_db w') !! "op-1" = Some (Committed, OcApplied)
  /\ ((w_calls w' = w_calls w /\ ledger (w_db w') !! "op-1" = ledger (w_db w) !! "op-1")
      \/ exists call answer, w_calls w' = ("op-1", call, answer) :: w_calls w
         /\ ledger (w_db w) !! "op-1" = Some (Generated, OcNotStarted)
         /\ ledger (w_db w') !! "op-1" = Some (settled answer)
         /\ is_ok outcome = applied_answer answer).
Proof.
  intros E w.
  pose proof (command_settles_ledger demo_ids demo_redactor demo_codecs toy_aead demo_impl
    E demo_command w (quiet_undisturbed _ _ _) ltac:(intros; eexists; reflexivity)
    (world_at_wf _)) as Ht.
  assert (ledger (w_db (fst (exec_prog E (@command_program demo_ids demo_redactor demo_codecs
    toy_aead demo_impl demo_command) w))) !! "op-1" = Some (Committed, OcApplied)) as Hl
    by (vm_compute; reflexivity).
  destruct (exec_prog _ _ _) as [w' outcome]. split; [exact Hl | exact Ht].
Defined.

Lemma reconcile_exec (cod : Codecs) E record lh w :
  let '(w', r) := exec_prog E (reconcile_commit record lh) w in
  w_calls w' = w_calls w
  /\ forall rec', r = Ok (Some rec') ->
       (already_applied record = true /\ rec' = record /\ w' = w)
       \/ exists digest journal,
            rec_status record = Committing /\ rec_mutation_digest record = Some digest
            /\ env_lookup E (w_step w) (rec_id record) = Ok (Some journal)
            /\ identity_matches journal (rec_id record) lh digest = true
            /\ sj_status journal = SjApplied
            /\ rec_status rec' = Committed /\ rec_commit_state rec' = OcApplied
            /\ ledger (w_db w') !! rec_id record = Some (Committed, OcApplied).
Proof.
  unfold reconcile_commit. destruct (already_applied record) eqn:Ha; simpl.
  { split; [done |]. intros rec' [= <-]. by left. }
  destruct (bool_decide_reflect (rec_status record = Committing)) as [Hs|]; simpl; [| done].
  destruct (rec_mutation_digest record) as [digest|] eqn:Hd; simpl; [| done].
  destruct (env_lookup E (w_step w) (rec_id record)) as [[journal|]|] eqn:Hj; simpl;
    [| done | done].
  destruct (identity_matches journal (rec_id record) lh digest) eqn:Hi; simpl; [| done].
  destruct (bool_decide_reflect (sj_status journal = SjApplied)) as [Hap|]; simpl; [| done].
  destruct (mark_committed_with_state _ _ _ _ _) as [db [rec'|e]] eqn:Hm; simpl; [| done].
  split; [done |]. intros rec'' [= <-]. right. exists digest, journal.
  pose proof (mark_committed_ok_ledger _ _ _ _ _ _ _ Hm) as Hl.
  apply cas_update_ok_inv in Hm as (r & _ & _ & -> & Hrec).
  destruct (into_record_fields _ _ Hrec) as (_ & _ & _ & _ & _ & _ & _ & Hst & _).
  assert (Some (rec_status rec', rec_commit_state rec') = Some (Committed, OcApplied)) as Heq.
  { rewrite <- Hst. by apply row_state_Some. }
  injection Heq as -> ->. done.
Qed.

(** C12: reconciliation never invents a commit.  [reconcile_commit] makes no
    backend call, and it confirms an operation only if the record was already
    committed or delivered as applied (returned as it is, nothing changed), or
    if the record is committing and the connector's journal returned an entry
    with the same operation id, locator hash and mutation digest in state
    applied; then the ledger row is committed/applied afterwards.  A missing,
    prepared, unknown or foreign entry confirms nothing. *)
Theorem reconcile_is_sound (cod : Codecs) E record lh w :
  let '(w', r) := exec_prog E (reconcile_commit record lh) w in
  w_calls w' = w_calls w
  /\ forall rec', r = Ok (Some rec') ->
       (already_applied record = true /\ rec' = record /\ w' = w)
       \/ exists digest journal,
            rec_status record = Committing /\ rec_mutation_digest record = Some digest
            /\ env_lookup E (w_step w) (rec_id record) = Ok (Some journal)
            /\ identity_matches journal (rec_id record) lh digest = true
            /\ sj_status journal = SjApplied
            /\ rec_status rec' = Committed /\ rec_commit_state rec' = OcApplied
            /\ ledger (w_db w') !! rec_id record = Some (Committed, OcApplied).
Proof. apply reconcile_exec. Qed.

(** The disposition of a duplicate, by its status. *)
Definition expected_disposition (s : BridgeOperationStatus) : ClaimDisposition :=
  match s with
  | Delivered => AlreadyDelivered
  | Conflict | Failed | Interrupted => Rejected
  | _ => Resume
  end.

Lemma legal_disposition s c :
  legal_state (s, c) = true -> duplicate_disposition s c = expected_disposition s.
Proof. by destruct s, c. Qed.

Lemma claim_duplicate_inv (ids : IdSource) now q db db' ex :
  claim_operation now q db = (db', Err (DuplicateClaim ex)) ->
  db' = db /\ matches_claim ex q = true
  /\ exists id r, bridge_operations db !! id = Some r /\ into_record r = Ok ex.
Proof.
  unfold claim_operation, insert_operation. simpl.
  destruct (bool_decide _ || bool_decide _).
  - destruct (get_by_claim _ _ _ db) as [[ex'|]|] eqn:Hg; [| done | done].
    destruct (matches_claim ex' q) eqn:Hmatch; [| done]. intros [= <- <-]. split_and!; [done.. |].
    revert Hg. unfold get_by_claim. destruct (find_row _ db) as [r|] eqn:Hf; simpl; [| done].
    apply find_row_Some in Hf as (_ & id & Hid). destruct (into_record r) eqn:Hr; [| done].
    intros [= <-]. eauto.
  - destruct (negb _); [done |]. unfold get_operation. simpl. rewrite lookup_insert_eq. done.
Qed.

(** Claim dispositions are exact.  In any lawful environment a successful
    [claim] either inserted a new row (fresh, in received/not_started, under an
    id that did not exist) or changed nothing and found the existing operation
    of the same request; then a delivered operation is reported as already
    delivered, a conflicted, failed or interrupted one as rejected, and every
    other one, in particular a commit in doubt, is to be resumed under the
    original id. *)
Theorem claim_disposition_exact (ids : IdSource) E q w w' c :
  lawful_env E -> db_wf (w_db w) ->
  exec_prog E (claim q) w = (w', Ok c) ->
  let rec := claimed_record c in
  let db := env_db E (w_step w) (w_db w) in
  (disposition c = Fresh /\ rec_status rec = Received /\ rec_commit_state rec = OcNotStarted
   /\ bridge_operations db !! rec_id rec = None
   /\ is_Some (bridge_operations (w_db w') !! rec_id rec))
  \/ (disposition c = expected_disposition (rec_status rec) /\ w_db w' = db
      /\ is_Some (bridge_operations db !! rec_id rec)).
Proof.
  intros HE Hwf. pose proof (ev_wf _ _ (HE (w_step w) _ Hwf)) as Hwf'.
  unfold claim. rewrite exec_bind, exec_db_call.
  destruct (claim_operation _ q _) as [db [rec|[ex|e]]] eqn:Hc; simpl; [| |done].
  - intros [= <- <-]. left. simpl. split; [done |].
    apply claim_ok_inv in Hc as (Hi & Hrec).
    apply insert_inserted in Hi as (Hnone & _ & _ & _ & ->).
    destruct (into_record_fields _ _ Hrec) as (Hid & _ & _ & _ & _ & _ & _ & Hst & _).
    simpl in Hid, Hst. rewrite Hid. injection Hst as Hs Hcs. split_and!; try done.
    simpl. rewrite lookup_insert_eq. by eexists.
  - intros [= <- <-]. right. simpl.
    apply claim_duplicate_inv in Hc as (-> & _ & id & r & Hr & Hrec).
    destruct (into_record_fields _ _ Hrec) as (Hid & _ & _ & _ & _ & _ & _ & Hst & _).
    destruct (wf_row _ Hwf' _ _ Hr) as (Hrid & (s & cs & Hst' & Hleg & _) & _).
    rewrite Hst in Hst'. injection Hst' as <- <-. split_and!; [| done |].
    + by apply legal_disposition.
    + rewrite Hid, Hrid, Hr. by eexists.
Qed.

Lemma claim_disposition_exact_witness :
  let E := quiet demo_applied (Ok None) in
  let w := world_at (Conflict, OcNotApplied) in
  match exec_prog E (@claim demo_ids demo_request) w with
  | (w', Ok c) =>
      disposition c = Rejected
      /\ ((disposition c = Fresh /\ rec_status (claimed_record c) = Received
           /\ rec_commit_state (claimed_record c) = OcNotStarted
           /\ bridge_operations (env_db E (w_step w) (w_db w)) !! rec_id (claimed_record c) = None
           /\ is_Some (bridge_operations (w_db w') !! rec_id (claimed_record c)))
          \/ (disposition c = expected_disposition (rec_status (claimed_record c))
              /\ w_db w' = env_db E (w_step w) (w_db w)
              /\ is_Some (bridge_operations (env_db E (w_step w) (w_db w)) !! rec_id (claimed_record c))))
  | (_, Err _) => False
  end.
Proof.
  intros E w.
  assert (match snd (exec_prog E (@claim demo_ids demo_request) w) with
          | Ok c => disposition c = Rejected | Err _ => False end) as Hd
    by (vm_compute; reflexivity).
  destruct (exec_prog E (@claim demo_ids demo_request) w) as [w' [c|]] eqn:Hx; [| exact Hd].
  split; [exact Hd |].
  exact (claim_disposition_exact demo_ids E demo_request w w' c (quiet_lawful _ _)
           (world_at_wf _) Hx).
Defined.

(** ** Replay and the sealing runtime *)

Section SealingRuntime.
Context `{IdSource} `{Redactor} `{Codecs} {A : Aead} {HA : AeadCorrect A} {HB : AeadAuthentic A}.

(** Decoding under another runtime fence than the sealing one fails. *)
Lemma decode_other_fence enc enc' record nonce pt p f f' :
  aad_typed (recovery_aad record f) -> aad_typed (recovery_aad record f') ->
  operation_dek enc' = operation_dek enc ->
  encrypt nonce enc pt (recovery_aad record f) = Ok p -> f' <> f ->
  decode_and_validate_recovery_payload enc' record p f' = Err decrypt_failed.
Proof.
  intros Ht Ht' Hd Hp Hne. unfold decode_and_validate_recovery_payload.
  assert (decrypt enc' p (recovery_aad record f') = Err decrypt_failed) as ->; [| done].
  revert Hp. unfold encrypt, decrypt.
  destruct (validate_aad _); [| done].
  destruct (aead_encrypt _ _ _ _) as [c|] eqn:Hc; [| done]. intros [= <-]. simpl.
  destruct (negb _); [done |].
  destruct (validate_aad (recovery_aad record f')); simpl; [| done].
  destruct (aead_decrypt _ _ _ _) as [m|] eqn:Hm; [| done]. exfalso. rewrite Hd in Hm.
  apply (aead_authentic _ _ _ _ _ _ _ Hc) in Hm.
  apply aad_encode_inj in Hm; [| done | done].
  unfold recovery_aad, OperationAad_new_with_fence in Hm. by injection Hm.
Qed.
End SealingRuntime.

(** Only the runtime that sealed a payload can replay it.  Let an operation's
    recovery payload be sealed with its bound key under runtime fence [f].  Then
    [replay_generated] with any other fence [f'], be it another epoch or the same
    bot restarted under a fresh runtime instance id, makes no backend call and
    fails, in every lawful environment. *)
Theorem replay_needs_sealing_runtime (ids : IdSource) (red : Redactor) (cod : Codecs)
    (A : Aead) (HA : AeadCorrect A) (HB : AeadAuthentic A)
    (V : SecretVault) (LV : LawfulVault V) E self v record bot f f' enc nonce pt p w :
  lawful_env E -> db_wf (w_db w) -> payload_key_provider self = Some v ->
  bound_key (rec_id record) (w_db w) (operation_dek enc) (encryptor_key_version enc) ->
  String.length (operation_dek enc) = 32 ->
  aad_typed (recovery_aad record f) -> aad_typed (recovery_aad record f') ->
  encrypt nonce enc pt (recovery_aad record f) = Ok p -> rec_payload record = Some p ->
  f' <> f ->
  let '(w', outcome) := exec_prog E (replay_generated self record bot f') w in
  w_calls w' = w_calls w /\ is_ok outcome = false.
Proof.
  intros HE Hwf Hself Hb Hl Ht Ht' Hp Hrp Hne. unfold replay_generated.
  destruct (_ || _); [done |]. destruct (negb (rec_status record =?= Generated)); [done |].
  unfold decrypt_recovery_payload_for_operation, restore_payload_encryptor_for_operation.
  rewrite Hself. unfold prog_map_err. rewrite !exec_bind.
  destruct (restore_bound E (rec_id record) w _ _ HE Hwf Hb Hl) as (w' & enc' & Hx & Hd & _).
  pose proof (restore_no_calls E (rec_id record) w) as Hc.
  rewrite Hx in *. simpl in *. unfold recovery_payload. rewrite Hrp.
  destruct (_ || _); simpl; [done |]. destruct (_ || _); simpl; [done |].
  rewrite (decode_other_fence enc enc' record nonce pt p f f'); done.
Qed.

Definition demo_enc : OperationPayloadEncryptor :=
  {| operation_dek := demo_dek; encryptor_key_version := 1;
     encryptor_wrapped_secret_id := Some "sec-op-1" |}.

Definition demo_aad (fence : PollerRuntimeFence) : OperationAad :=
  OperationAad_new_with_fence "op-1"
    (locator_hash (@sha256_hex demo_codecs) "default-user" "a.png" "chat-1") "send" "acc" fence.

Definition demo_sealed : EncryptedOperationPayload :=
  match @encrypt toy_aead demo_nonce demo_enc "payload" (demo_aad demo_fence) with
  | Ok p => p
  | Err _ => demo_payload
  end.

Definition demo_generated : World :=
  world0 (run [OpGenerated "t3" "op-1" demo_sealed "digest"] (w_db demo_keyed)).

Definition demo_record : BridgeOperationRecord :=
  {| rec_id := "op-1"; rec_actor_id := "acc"; rec_bot_id := "bot"; rec_telegram_update_id := 7;
     rec_channel_context_key := "ctx"; rec_operation_kind := "send";
     rec_locator := {| loc_handle := "default-user"; loc_avatar := "a.png";
                       loc_character_name := ""; loc_chat_file := "chat-1" |};
     rec_status := Generated; rec_commit_state := OcNotStarted;
     rec_source_sha256 := Some "sha"; rec_source_integrity := Some "int";
     rec_source_size := None; rec_message_count := None;
     rec_mutation_digest := Some "digest"; rec_payload := Some demo_sealed;
     rec_connector_result_json := None; rec_error_stage := None; rec_error_code := None;
     rec_error_summary := None; rec_retryable := false; rec_attempt_count := 1;
     rec_request_id := "r"; rec_trace_id := "t"; rec_created_at := "t0";
     rec_updated_at := "t3" |}.

Definition demo_coordinator : OperationCoordinator :=
  {| payload_encryptor := None; payload_key_provider := Some 1%Z |}.

Lemma demo_generated_wf : db_wf (w_db demo_generated).
Proof.
  apply run_ok; [| apply demo_keyed_wf].
  apply Forall_cons; split; [| by constructor]. split; [reflexivity | vm_compute; by split].
Qed.

(** The record is what the store reads, and the sealing runtime replays it. *)
Example demo_record_read : get_operation "op-1" (w_db demo_generated) = Ok (Some demo_record).
Proof. vm_compute. reflexivity. Qed.

Example demo_replay :
  let '(w', outcome) :=
    exec_prog (quiet demo_applied (Ok None))
      (@replay_generated demo_ids demo_redactor demo_codecs toy_aead demo_impl
         demo_coordinator demo_record "bot" demo_fence) demo_generated in
  is_ok outcome = true /\ length (w_calls w') = 1
  /\ ledger (w_db w') !! "op-1" = Some (Committed, OcApplied).
Proof. vm_compute. by split_and!. Qed.

Definition demo_restarted_fence : PollerRuntimeFence :=
  {| f_telegram_bot_id := 42; f_owner := "rust_bridge"; f_epoch := 3;
     f_internal_bot_id := "bot"; f_runtime_instance_id := "inst-2" |}.

Lemma replay_needs_sealing_runtime_witness :
  let '(w', outcome) :=
    exec_prog (quiet demo_applied (Ok None))
      (@replay_generated demo_ids demo_redactor demo_codecs toy_aead demo_impl
         demo_coordinator demo_record "bot" demo_restarted_fence) demo_generated in
  w_calls w' = w_calls demo_generated /\ is_ok outcome = false.
Proof.
  eapply (replay_needs_sealing_runtime demo_ids demo_redactor demo_codecs toy_aead _ _ demo_impl _
    (quiet demo_applied (Ok None)) demo_coordinator 1 demo_record "bot" demo_fence
    demo_restarted_fence demo_enc demo_nonce "payload" demo_sealed demo_generated).
  - apply quiet_lawful.
  - apply demo_generated_wf.
  - reflexivity.
  - eexists. split; [vm_compute; reflexivity |]. split; vm_compute; reflexivity.
  - reflexivity.
  - solve_aad_typed.
  - solve_aad_typed.
  - vm_compute; reflexivity.
  - reflexivity.
  - discriminate.
Defined.
