(* ===== verification/Recovery.v ===== *)
(** * Operation recovery

    [src/modules/bridge/operation_recovery.rs]: the loop a runtime runs when it
    starts polling for a bot, over the coordinator's programs, and the plain
    recovery scans.  The deadline of the leases ([now + 60s], formatted) is an
    argument. *)

From stdpp Require Import pretty.
From S2P Require Import Prelude Text Errors StDomain Readiness ErrorMapper Operations OperationStore.
From S2P Require Import StoreInvariant StoreCorrect PollerOwnership Journal Vault Program OperationPayload.
From S2P Require Import Coordinator CoordinatorCorrect.

(** [impl Display for StBridgeError]. *)
Definition StBridgeError_to_string (e : StBridgeError) : string :=
  as_str (e_code e) +:+ ": " +:+ e_safe_message e.

Section Recovery.
Context `{IdSource} `{Redactor} `{Codecs} `{Aead} `{SecretVault}.

Definition release_lease (lease : OperationExecutionLease) : Prog (AppResult unit) :=
  await? released := db_call (λ _, release_execution_lease lease) in
  Ret (if negb released then
         Err (conflict "OPERATION_LEASE_LOST"
                "operation execution lease changed before release")
       else Ok tt).

Definition record_locator_hash (record : BridgeOperationRecord) : string :=
  locator_hash sha256_hex (loc_handle (rec_locator record))
    (loc_avatar (rec_locator record)) (loc_chat_file (rec_locator record)).

(** The [match record.status] of the loop body. *)
Definition recover_record (coordinator : OperationCoordinator) (internal_bot_id : string)
    (fence : PollerRuntimeFence) (record : BridgeOperationRecord)
    : Prog (AppResult bool) :=
  match rec_status record with
  | Generated =>
      await r := replay_generated coordinator record internal_bot_id fence in
      Ret (match r with
           | Ok _ => Ok true
           | Err error =>
               Err (bad_gateway "OPERATION_RECOVERY_REPLAY_FAILED"
                      ("operation " +:+ rec_id record +:+ " replay failed: "
                       +:+ as_str (e_code error)))
           end)
  | Committing =>
      await r := reconcile_commit record (record_locator_hash record) in
      Ret (match r with
           | Ok outcome => Ok (bool_decide (is_Some outcome))
           | Err error =>
               Err (bad_gateway "OPERATION_RECOVERY_RECONCILE_FAILED"
                      ("operation " +:+ rec_id record +:+ " reconciliation failed: "
                       +:+ a_code error))
           end)
  | _ => Ret (Ok false)
  end.

(** The [async { .. }] block: the fence check, then the record. *)
Definition recover_fenced (coordinator : OperationCoordinator) (internal_bot_id : string)
    (fence : PollerRuntimeFence) (record : BridgeOperationRecord)
    : Prog (AppResult bool) :=
  await checked := Fence Ret in
  match checked with
  | Err error =>
      Ret (Err (conflict "ST_POLLER_EPOCH_MISMATCH"
                  ("operation recovery fence rejected: " +:+ PollerError_as_str error)))
  | Ok _ => recover_record coordinator internal_bot_id fence record
  end.

Fixpoint recover_loop (coordinator : OperationCoordinator) (guard : PollerOwnershipGuard)
    (internal_bot_id lease_until : string) (fence : PollerRuntimeFence)
    (records : list BridgeOperationRecord) (recovered : list string)
    : Prog (AppResult (list string)) :=
  match records with
  | [] => Ret (Ok recovered)
  | record :: records =>
      let continue_ :=
        recover_loop coordinator guard internal_bot_id lease_until fence records in
      await? acquired :=
        db_call (λ now, try_acquire_execution_lease now (rec_id record) internal_bot_id
                          (g_runtime_instance_id guard) lease_until) in
      match acquired with
      | None => continue_ recovered
      | Some lease =>
          await result := recover_fenced coordinator internal_bot_id fence record in
          let recovered :=
            match result with
            | Ok true => recovered ++ [rec_id record]
            | _ => recovered
            end in
          await? _ := release_lease lease in
          continue_ recovered
      end
  end.

Definition recover_for_bot (coordinator : OperationCoordinator)
    (guard : PollerOwnershipGuard) (lease_until internal_bot_id : string)
    : Prog (AppResult (list string)) :=
  if is_blank internal_bot_id || negb (g_internal_bot_id guard =?= internal_bot_id) then
    Ret (Err (bad_request "OPERATION_RECOVERY_SCOPE_INVALID"
                "operation recovery bot scope is invalid"))
  else
    match runtime_fence guard with
    | None =>
        Ret (Err (service_unavailable "ST_POLLER_EPOCH_MISMATCH"
                    "operation recovery requires a running runtime fence"))
    | Some fence =>
        await? records := db_read (list_recovery_candidates_for_bot internal_bot_id 128) in
        recover_loop coordinator guard internal_bot_id lease_until fence records []
    end.

(** ** The scans without leases *)

Definition find_dangling_committing_operations : Prog (AppResult (list BridgeOperationRecord)) :=
  db_read (list_by_status Committing).

Definition find_generated_operations : Prog (AppResult (list BridgeOperationRecord)) :=
  db_read (list_by_status Generated).

Definition find_undelivered_committed_operations
    : Prog (AppResult (list BridgeOperationRecord)) :=
  db_read (list_by_status Committed).

Definition find_unknown_commit_operations : Prog (AppResult (list BridgeOperationRecord)) :=
  db_read list_unknown_commits.

Definition mark_stale_in_flight_as_interrupted (cutoff_rfc3339 : string)
    : Prog (AppResult (list string)) :=
  db_call (λ now, interrupt_stale_generating now cutoff_rfc3339).

Fixpoint generated_loop (coordinator : OperationCoordinator) (fence : PollerRuntimeFence)
    (records : list BridgeOperationRecord) (recovered : list string)
    : Prog (AppResult (list string)) :=
  match records with
  | [] => Ret (Ok recovered)
  | record :: records =>
      await r := replay_generated coordinator record (rec_bot_id record) fence in
      match r with
      | Err error =>
          Ret (Err (internal ("generated operation " +:+ rec_id record
                              +:+ " recovery failed: " +:+ StBridgeError_to_string error)))
      | Ok _ => generated_loop coordinator fence records (recovered ++ [rec_id record])
      end
  end.

Definition recover_generated_operations (coordinator : OperationCoordinator)
    (guard : PollerOwnershipGuard) : Prog (AppResult (list string)) :=
  match runtime_fence guard with
  | None =>
      Ret (Err (service_unavailable "ST_POLLER_EPOCH_MISMATCH"
                  "generated recovery requires a running runtime fence"))
  | Some fence =>
      await? records := find_generated_operations in
      generated_loop coordinator fence records []
  end.

Fixpoint committing_loop (records : list BridgeOperationRecord) (reconciled : list string)
    : Prog (AppResult (list string)) :=
  match records with
  | [] => Ret (Ok reconciled)
  | record :: records =>
      await? outcome := reconcile_commit record (record_locator_hash record) in
      committing_loop records
        (if bool_decide (is_Some outcome) then reconciled ++ [rec_id record] else reconciled)
  end.

Definition reconcile_committing_operations : Prog (AppResult (list string)) :=
  await? records := find_dangling_committing_operations in
  committing_loop records [].
End Recovery.

(** ** What recovery guarantees *)

Definition applied_in (id : string) (db : DB) : Prop :=
  exists s, ledger db !! id = Some (s, OcApplied).

Lemma applied_in_evolves id db db' : evolves db db' -> applied_in id db -> applied_in id db'.
Proof.
  intros He [s Hs]. destruct (evolves_slot _ _ _ _ He Hs) as ([s' c'] & Hl & Hm).
  apply rtc_move_applied in Hm; [| by left]. simpl in Hm. subst c'. by exists s'.
Qed.

Lemma acquire_evolves now id bot inst until db :
  db_wf db -> evolves db (fst (try_acquire_execution_lease now id bot inst until db)).
Proof. intros Hwf. by apply (exec_evolves (OpAcquireLease now id bot inst until)). Qed.

Lemma release_evolves lease db :
  db_wf db -> evolves db (fst (release_execution_lease lease db)).
Proof. intros Hwf. by apply (exec_evolves (OpReleaseLease lease)). Qed.

Section RecoveryFacts.
Context `{IdSource} `{Redactor} `{Codecs} `{Aead} {V : SecretVault} {LV : LawfulVault V}.

Lemma replay_disciplined self record bot fence :
  disciplined None (replay_generated self record bot fence).
Proof. apply (command_disciplined (CmdReplay self record bot fence)). Qed.

Lemma release_lease_disciplined lease : disciplined None (release_lease lease).
Proof.
  apply disciplined_bind; [| intros []; constructor].
  apply disciplined_db_call. intros. by apply release_evolves.
Qed.

Lemma recover_fenced_disciplined self bot fence record :
  disciplined None (recover_fenced self bot fence record).
Proof.
  apply disciplined_bind; [repeat constructor |]. intros []; [| constructor].
  unfold recover_record. destruct (rec_status record); try constructor;
    (apply disciplined_bind; [| intros []; constructor]);
    [apply replay_disciplined | apply reconcile_disciplined].
Qed.

Lemma recover_loop_disciplined self guard bot until fence records recovered :
  disciplined None (recover_loop self guard bot until fence records recovered).
Proof.
  revert recovered. induction records as [|record records IH]; intros recovered;
    cbn [recover_loop]; [constructor |].
  apply disciplined_bind.
  { apply disciplined_db_call. intros. by apply acquire_evolves. }
  intros [[lease|]|]; [| apply IH | constructor].
  apply disciplined_bind; [apply recover_fenced_disciplined |]. intros result.
  apply disciplined_bind; [apply release_lease_disciplined |].
  intros []; [apply IH | constructor].
Qed.

Lemma recover_for_bot_disciplined self guard until bot :
  disciplined None (recover_for_bot self guard until bot).
Proof.
  unfold recover_for_bot. destruct (_ || _); [constructor |].
  destruct (runtime_fence guard); [| constructor].
  apply disciplined_bind; [apply disciplined_db_read |].
  intros []; [apply recover_loop_disciplined | constructor].
Qed.

(** A record reported as recovered is applied in the ledger. *)
Lemma recover_record_applied E self bot fence record w w' :
  exec_prog E (recover_record self bot fence record) w = (w', Ok true) ->
  applied_in (rec_id record) (w_db w').
Proof.
  unfold recover_record. destruct (rec_status record) eqn:Hs; try done.
  - rewrite exec_bind.
    destruct (exec_prog E (replay_generated _ _ _ _) w) as [w1 r] eqn:Hx.
    apply (gated_exec E (rec_id record)) in Hx;
      [| apply (command_gated (CmdReplay self record bot fence))].
    destruct r as [res|]; [| done]. simpl. intros [= <-].
    destruct Hx as [(_ & e & ? & _) | (call & answer & _ & _ & _ & Hl)]; [done |]. by eexists.
  - rewrite exec_bind.
    pose proof (reconcile_exec _ E record (record_locator_hash record) w) as Hr.
    destruct (exec_prog E (reconcile_commit _ _) w) as [w1 [[rec'|]|]] eqn:Hx; simpl;
      [| done | done].
    intros [= <-]. destruct Hr as [_ Hr].
    destruct (Hr rec' eq_refl) as [(Ha & _) | (d & j & _ & _ & _ & _ & _ & _ & _ & Hl)];
      [| by eexists].
    unfold already_applied in Ha. by rewrite Hs in Ha.
Qed.

Lemma recover_fenced_applied E self bot fence record w w' :
  exec_prog E (recover_fenced self bot fence record) w = (w', Ok true) ->
  applied_in (rec_id record) (w_db w').
Proof.
  unfold recover_fenced. simpl. destruct (env_fence E (w_step w)); [| done].
  apply recover_record_applied.
Qed.

Lemma exec_disciplined {A} E (p : Prog A) w :
  lawful_env E -> disciplined None p -> db_wf (w_db w) ->
  evolves (w_db w) (w_db (fst (exec_prog E p w))).
Proof. intros HE Hd. apply exec_lawful; [done | by eapply disciplined_lawful]. Qed.

Lemma recover_loop_applied E self guard bot until fence records recovered w w' ids :
  lawful_env E -> db_wf (w_db w) ->
  Forall (λ id, applied_in id (w_db w)) recovered ->
  exec_prog E (recover_loop self guard bot until fence records recovered) w = (w', Ok ids) ->
  Forall (λ id, applied_in id (w_db w')) ids.
Proof.
  intros HE. revert recovered w. induction records as [|record records IH];
    intros recovered w Hwf Hr; cbn [recover_loop]; [by intros [= <- <-] |].
  set (acquire := db_call _). rewrite exec_bind.
  assert (disciplined None acquire) as Hda
    by (apply disciplined_db_call; intros; by apply acquire_evolves).
  pose proof (exec_disciplined E acquire w HE Hda Hwf) as He1.
  destruct (exec_prog E acquire w) as [w1 [[lease|]|]]; simpl in He1; [| | done].
  2: { apply IH; [apply He1 |]. eapply Forall_impl; [exact Hr |].
       intros id. by apply applied_in_evolves. }
  rewrite exec_bind.
  pose proof (exec_disciplined E _ w1 HE (recover_fenced_disciplined self bot fence record)
    (ev_wf _ _ He1)) as He2.
  destruct (exec_prog E (recover_fenced _ _ _ _) w1) as [w2 result] eqn:Hf. simpl in He2.
  rewrite exec_bind.
  pose proof (exec_disciplined E _ w2 HE (release_lease_disciplined lease)
    (ev_wf _ _ He2)) as He3.
  destruct (exec_prog E (release_lease lease) w2) as [w3 []]; simpl in He3; [| done].
  apply IH; [apply He3 |].
  assert (Forall (λ id, applied_in id (w_db w3)) recovered) as Hr3.
  { eapply Forall_impl; [exact Hr |]. intros id. apply applied_in_evolves. ev_chain. }
  destruct result as [[]|]; try done. apply Forall_app. split; [done |].
  constructor; [| done]. eapply applied_in_evolves; [exact He3 |].
  by eapply recover_fenced_applied.
Qed.
End RecoveryFacts.

(** Recovery reports only what is applied.  In any lawful environment, every
    operation id [recover_for_bot] returns is, when it returns, in the ledger
    with commit state applied: it was replayed with an applied answer of the
    backend or confirmed by an applied journal entry of the same identity. *)
Theorem recovered_operations_are_applied (ids : IdSource) (red : Redactor) (cod : Codecs)
    (A : Aead) (V : SecretVault) (LV : LawfulVault V) E self guard until bot w w' recovered :
  lawful_env E -> db_wf (w_db w) ->
  exec_prog E (recover_for_bot self guard until bot) w = (w', Ok recovered) ->
  Forall (λ id, applied_in id (w_db w')) recovered.
Proof.
  intros HE Hwf. unfold recover_for_bot. destruct (_ || _); [done |].
  destruct (runtime_fence guard) as [fence|]; [| done].
  rewrite exec_bind, exec_db_read.
  destruct (list_recovery_candidates_for_bot _ _ _) as [records|]; [| done].
  apply recover_loop_applied; [done | | constructor]. apply (HE _ _ Hwf).
Qed.

Definition demo_guard : PollerOwnershipGuard :=
  {| g_numeric_bot_id := 42; g_owner := RustBridge; g_epoch := 3; g_internal_bot_id := "bot";
     g_runtime_instance_id := "inst-1"; g_lifecycle := Running; g_lifecycle_state := Running |}.

Definition demo_recovery : Prog (AppResult (list string)) :=
  @recover_for_bot demo_ids demo_redactor demo_codecs toy_aead demo_impl
    demo_coordinator demo_guard "2026-01-01T00:01:00Z" "bot".

Lemma recovered_operations_are_applied_witness :
  match exec_prog (quiet demo_applied (Ok None)) demo_recovery demo_generated with
  | (w', Ok recovered) =>
      recovered = ["op-1"] /\ Forall (λ id, applied_in id (w_db w')) recovered
  | (_, Err _) => False
  end.
Proof.
  assert (snd (exec_prog (quiet demo_applied (Ok None)) demo_recovery demo_generated)
          = Ok ["op-1"]) as Hr by (vm_compute; reflexivity).
  destruct (exec_prog _ _ _) as [w' [recovered|]] eqn:Hx; [| discriminate Hr].
  split; [simpl in Hr; congruence |].
  exact (recovered_operations_are_applied demo_ids demo_redactor demo_codecs toy_aead demo_impl _
           (quiet demo_applied (Ok None)) demo_coordinator demo_guard "2026-01-01T00:01:00Z" "bot"
           demo_generated w' recovered (quiet_lawful _ _) demo_generated_wf Hx).
Defined.
