(* ===== verification/EngineCorrect.v ===== *)
(** * What the engine guarantees

    Every command of [Engine] in any lawful environment: it keeps the commit
    discipline, it confirms a commit only when the ledger says applied, and what
    it persists before a commit is what a replay sends. *)

From S2P Require Import Prelude Text Errors StDomain Readiness ErrorMapper Prompt Operations OperationStore.
From S2P Require Import StoreInvariant StoreCorrect PollerOwnership Journal Vault Program OperationPayload.
From S2P Require Import Coordinator ChannelContext StOps Engine CoordinatorCorrect Recovery.

(** What the types of the code guarantee: [u32] key versions, 24-byte nonces and
    32-byte keys. *)
Definition engine_typed (self : SidecarBridgeEngine) : Prop :=
  forall c v, en_coordinator self = Some c -> payload_key_provider c = Some v ->
    (0 <= v < 2 ^ 32)%Z.

Definition reads_typed (rd : EngineReads) : Prop :=
  String.length (rd_nonce rd) = 24 /\ String.length (d_dek (rd_draws rd)) = 32.

(** ** Store calls of the engine *)

(** [update_generated] changes a row only if the payload's key version is the one
    of the operation's key reference, so the version needs no bound of its own. *)
Lemma update_generated_evolves now id payload digest db :
  String.length (enc_nonce payload) = 24 -> db_wf db ->
  evolves db (fst (update_generated now id payload digest db)).
Proof.
  intros Hn Hwf. destruct (decide (0 <= enc_key_version payload < 2 ^ 32)%Z) as [Hv | Hv].
  { by apply (exec_evolves (OpGenerated now id payload digest)). }
  assert (fst (update_generated now id payload digest db) = db) as ->; [| by apply evolves_refl].
  unfold update_generated, cas_update, update_operation.
  destruct (bridge_operations db !! id) as [r|] eqn:Hr; [| done].
  destruct (_ && _) eqn:Hg; [| done]. exfalso. apply Hv.
  apply andb_true_iff in Hg as [_ Hk]. unfold key_ref_exists in Hk.
  destruct (operation_key_refs db !! r_id r) as [k|] eqn:Hkr; [| done].
  apply bool_decide_eq_true in Hk as <-. destruct (wf_keys _ Hwf _ _ Hkr) as (_ & _ & _ & ?). lia.
Qed.

Lemma tame_op {X} (f : string -> DB -> DB * X) (op : string -> StoreOp) :
  (forall now, op_typed (op now)) -> (forall now db, fst (f now db) = exec (op now) db) ->
  tame (db_call f).
Proof. intros Ht Hf. apply tame_db_call. intros now db Hwf. rewrite Hf. by apply exec_evolves. Qed.

Section Tame.
Context `{IdSource} `{Redactor} `{Codecs} `{Aead} {V : SecretVault} {LV : LawfulVault V}.
Context (self : SidecarBridgeEngine) (rd : EngineReads).

Lemma tame_claim q : tame (claim q).
Proof.
  apply tame_bind; [| constructor]. by apply (tame_op _ (λ now, OpClaim _ now q)).
Qed.

Lemma tame_claim_with_origin actor id kind locator origin :
  tame (claim_operation_with_origin self actor id kind locator origin).
Proof.
  unfold claim_operation_with_origin. destruct (_ || _); [constructor |].
  destruct (en_coordinator self); [apply tame_map_err, tame_claim | constructor].
Qed.

Lemma tame_claim_or_replay actor id kind locator origin text :
  tame (claim_or_replay self actor id kind locator origin text).
Proof. apply tame_try; [apply tame_claim_with_origin | constructor]. Qed.

Lemma tame_mark_snapshot id sha integrity size count :
  tame (mark_snapshot_ready id sha integrity size count).
Proof.
  apply tame_map_err. by apply (tame_op _ (λ now, OpSnapshotReady now id sha integrity size count)).
Qed.

Lemma tame_mark_generating id : tame (mark_generating id).
Proof. apply tame_map_err. by apply (tame_op _ (λ now, OpGenerating now id)). Qed.

Lemma tame_require_fence id : tame (require_fence self id).
Proof. unfold require_fence. destruct (en_guard self); repeat constructor. Qed.

Lemma tame_settle_generation_failure id error : tame (settle_generation_failure id error).
Proof.
  apply tame_bind; [| constructor].
  by apply (tame_op _ (λ now, OpFailed now id (as_str (e_stage error)) (as_str (e_code error))
                                (e_safe_message error) (e_retryable error) OcNotStarted)).
Qed.

Lemma tame_generate_turn actor id locator snapshot model extra drop mutation_of :
  tame (generate_turn self rd actor id locator snapshot model extra drop mutation_of).
Proof.
  unfold generate_turn. destruct (load_character rd locator), (rd_settings rd); try constructor.
  - intros _ db. apply evolves_refl.
  - intros _ db _. apply tame_try; [apply tame_require_fence | constructor].
Qed.

Lemma tame_generate_compression actor id targets :
  tame (generate_compression self rd actor id targets).
Proof.
  apply tame_try; [apply tame_require_fence |]. intros _.
  destruct (acquire_generation_permit self rd); [| constructor].
  apply tame_bind; [apply tame_db_read | constructor].
Qed.

Lemma encrypt_nonce nonce enc pt aad p : encrypt nonce enc pt aad = Ok p -> enc_nonce p = nonce.
Proof.
  unfold encrypt. destruct (validate_aad aad); [| done]. destruct (aead_encrypt _ _ _ _); [| done].
  by intros [= <-].
Qed.

Hypothesis Hself : engine_typed self.
Hypothesis Hrd : reads_typed rd.

Lemma tame_persist_payload coordinator actor_id id kind locator payload fence digest :
  en_coordinator self = Some coordinator ->
  tame (persist_payload rd coordinator actor_id id kind locator payload fence digest).
Proof.
  intros Hc. unfold persist_payload. destruct (validate payload), (payload_to_vec payload) as [pt|];
    try constructor.
  apply tame_try.
  - apply tame_map_err. unfold payload_encryptor_for_operation.
    destruct (payload_key_provider coordinator) as [v|] eqn:Hp; [| constructor].
    apply tame_for_operation. by eapply Hself.
  - intros enc. destruct (encrypt _ enc pt _) as [encrypted|] eqn:He; [| constructor].
    apply encrypt_nonce in He. apply tame_try; [| constructor]. apply tame_map_err, tame_db_call.
    intros now db. apply update_generated_evolves. rewrite He. apply Hrd.
Qed.

Lemma coordinator_for_Some id c : coordinator_for self id = Ok c -> en_coordinator self = Some c.
Proof. unfold coordinator_for. destruct (en_coordinator self); simpl; congruence. Qed.

Lemma tame_persist_create actor_id id locator command :
  tame (persist_create_payload self rd actor_id id locator command).
Proof.
  unfold persist_create_payload. destruct (coordinator_for self id) eqn:Hc; [| constructor].
  destruct (engine_fence self rd 1 id); [| constructor]. destruct (negb _); [constructor |].
  by apply tame_persist_payload, (coordinator_for_Some id).
Qed.

Lemma tame_persist_generated actor_id id kind locator snapshot mutation :
  tame (persist_generated_payload self rd actor_id id kind locator snapshot mutation).
Proof.
  unfold persist_generated_payload. destruct (coordinator_for self id) eqn:Hc; [| constructor].
  destruct (engine_fence self rd 0 id); [| constructor].
  destruct (generated_payload _ _ _ _); [| constructor].
  by apply tame_persist_payload, (coordinator_for_Some id).
Qed.
End Tame.

#[export] Hint Resolve tame_claim_with_origin tame_claim_or_replay tame_mark_snapshot
  tame_mark_generating tame_require_fence tame_settle_generation_failure tame_generate_turn
  tame_generate_compression tame_persist_create tame_persist_generated : progs.

(** ** Discipline *)

Lemma disciplined_try {A B E} (p : Prog (result A E)) (k : A -> Prog (result B E)) :
  disciplined None p -> (forall a, disciplined None (k a)) ->
  disciplined None (bind p (λ r, match r with Ok x => k x | Err e => Ret (Err e) end)).
Proof. intros Hp Hk. apply disciplined_bind; [done |]. intros []; [apply Hk | constructor]. Qed.

(** A tame call, then the rest. *)
Ltac tame_call := apply disciplined_try; [apply tame_disciplined; eauto with progs | intros ?].

Section Discipline.
Context `{IdSource} `{Redactor} `{Codecs} `{Aead} {V : SecretVault} {LV : LawfulVault V}.
Context (self : SidecarBridgeEngine) (rd : EngineReads).
Hypothesis Hself : engine_typed self.
Hypothesis Hrd : reads_typed rd.

Lemma commit_mutation_disciplined id locator snapshot mutation text :
  disciplined None (commit_mutation self rd id locator snapshot mutation text).
Proof.
  tame_call. destruct (engine_fence self rd 1 id) as [fence|]; [| constructor].
  destruct (coordinator_for self id); [| constructor].
  apply disciplined_try; [| constructor].
  apply (command_disciplined (CmdCommit id locator (sn_source_sha256 snapshot)
           (sn_source_integrity snapshot) mutation fence)).
Qed.

Lemma finish_turn_disciplined actor id kind locator snapshot context generation :
  tame generation ->
  disciplined None (finish_turn self rd actor id kind locator snapshot context generation).
Proof.
  intros Hg. apply disciplined_bind; [by apply tame_disciplined |]. intros [[mutation text]|error].
  - tame_call. apply disciplined_try; [apply commit_mutation_disciplined | constructor].
  - apply disciplined_bind; [apply tame_disciplined; eauto with progs | constructor].
Qed.

Lemma turn_disciplined actor locator client kind text context origin generation :
  (forall id snapshot, tame (generation id snapshot)) ->
  disciplined None (turn_with_context self rd actor locator client kind text context origin generation).
Proof.
  intros Hg. unfold turn_with_context. destruct (lock_locator rd); [| constructor].
  destruct (require_write_for_locator rd locator); [| constructor].
  destruct (match context with Some _ => _ | None => _ end); [constructor |].
  tame_call. case_match; [constructor |]. destruct (rd_snapshot rd); [| constructor].
  destruct (coordinator_for self _); [| constructor]. do 2 tame_call.
  by apply finish_turn_disciplined.
Qed.

Lemma without_events_disciplined p :
  disciplined None p -> disciplined None (without_events p).
Proof. intros Hp. apply disciplined_bind; [done | constructor]. Qed.

Lemma undo_disciplined actor locator client kind origin :
  disciplined None (undo_last_turn self rd actor locator client kind origin).
Proof.
  unfold undo_last_turn. destruct (lock_locator rd); [| constructor].
  destruct (require_write_for_locator rd locator); [| constructor].
  tame_call. case_match; [constructor |]. destruct (rd_snapshot rd); [| constructor].
  destruct (mbind _ (last_dialogue_indexes _)) as [[um am]|]; [| constructor].
  destruct (coordinator_for self _); [| constructor]. do 2 tame_call.
  apply disciplined_try; [apply commit_mutation_disciplined | constructor].
Qed.

Lemma compress_disciplined actor locator client origin :
  disciplined None (compress_chat self rd actor locator client origin).
Proof.
  unfold compress_chat. destruct (lock_locator rd); [| constructor].
  destruct (require_write_for_locator rd locator); [| constructor].
  tame_call. case_match; [constructor |]. destruct (rd_snapshot rd); [| constructor].
  destruct (compress_targets _); [constructor |].
  destruct (coordinator_for self _); [| constructor]. do 2 tame_call.
  apply without_events_disciplined, finish_turn_disciplined. eauto with progs.
Qed.

Lemma start_disciplined actor locator client origin :
  disciplined None (start_chat self rd actor locator client origin).
Proof.
  unfold start_chat. destruct (lock_locator rd); [| constructor].
  destruct (require_workspace actor); [| constructor]. destruct (rd_probe rd); [| constructor].
  destruct (negb _); [constructor |]. destruct (_ || _); [constructor |].
  tame_call. case_match; [constructor |]. destruct (engine_fence self rd 0 _); [| constructor].
  destruct (coordinator_for self _); [| constructor]. do 3 tame_call.
  apply disciplined_try; [apply (command_disciplined (CmdCreate _)) |]. intros _.
  apply disciplined_try; [| constructor]. apply tame_disciplined, tame_map_err, tame_db_call.
  intros. by apply upsert_channel_evolves.
Qed.

Lemma channel_disciplined actor write text :
  (forall now workspace db, db_wf db -> evolves db (fst (write now workspace db))) ->
  disciplined None (channel_command actor write text).
Proof.
  intros Hw. unfold channel_command. destruct (require_workspace actor); [| constructor].
  apply disciplined_try; [| constructor]. apply tame_disciplined, tame_map_err, tame_db_call. auto.
Qed.

Lemma execute_disciplined actor command : disciplined None (execute self rd actor command).
Proof.
  destruct command; simpl; try constructor.
  - destruct (require_workspace actor), (rd_probe rd); try constructor.
    apply channel_disciplined. intros. by apply upsert_channel_evolves.
  - apply channel_disciplined. intros. by apply upsert_channel_evolves.
  - apply channel_disciplined. intros. by apply upsert_channel_evolves.
Qed.

Lemma engine_disciplined actor command context origin :
  disciplined None (execute_with_context_and_origin self rd actor command context origin).
Proof.
  assert (forall p, disciplined None p -> disciplined None (no_events p)) as Hno
    by (intros p Hp; apply disciplined_bind; [done | constructor]).
  destruct command; cbn [execute_with_context_and_origin execute_with_origin]; try apply Hno.
  - apply execute_disciplined.
  - apply execute_disciplined.
  - apply start_disciplined.
  - apply turn_disciplined. intros. apply tame_generate_turn.
  - apply undo_disciplined.
  - apply undo_disciplined.
  - apply turn_disciplined. intros. apply tame_generate_turn.
  - apply compress_disciplined.
  - apply execute_disciplined.
Qed.
End Discipline.

(** ** Truthful reports *)

(** What an error that follows a backend call may say. *)
Definition told (id : string) (answer : StResult StCommitResult) (e : StBridgeError) (db : DB)
    : Prop :=
  match e_commit_state e with
  | NotStarted => False
  | NotApplied => not_applied_answer answer = true
  | Unknown => retry_action e = ReconcileSameOperation
  | Applied => applied_answer answer = true /\ applied_in id db
  end.

Definition Calls : Type := list (string * BackendCall * StResult StCommitResult).

(** What a command may report, given the backend calls before and after it and the
    database it leaves. *)
Definition report (id : string) (calls calls' : Calls)
    (r : StResult (StBridgeOutcome * list BridgeProgressEvent)) (db : DB) : Prop :=
  match r with
  | Ok (o, events) =>
      out_write_committed o = out_confirmed_commit o
      /\ (events <> [] -> out_confirmed_commit o = true)
      /\ if out_confirmed_commit o then
           out_operation_id o = Some id /\ applied_in id db
           /\ (calls' = calls
               \/ exists call answer, calls' = (id, call, answer) :: calls
                    /\ applied_answer answer = true)
         else calls' = calls
  | Err e =>
      calls' = calls
      \/ exists call answer, calls' = (id, call, answer) :: calls /\ told id answer e db
  end.

(** [view] reads the outcome and the events off what the program returns. *)
Definition reports {X} (view : X -> StBridgeOutcome * list BridgeProgressEvent) (id : string)
    (E : Env) (p : Prog (StResult X)) (w : World) : Prop :=
  let '(w', r) := exec_prog E p w in
  report id (w_calls w) (w_calls w') (result_map view r) (w_db w').

Definition plain (o : StBridgeOutcome) : StBridgeOutcome * list BridgeProgressEvent := (o, []).

Lemma reports_err {X} (view : X -> _) id E e w : reports view id E (Ret (Err e)) w.
Proof. by left. Qed.

Lemma reports_uncommitted id E op text w :
  reports plain id E (Ret (Ok (uncommitted_outcome op text))) w.
Proof. by split_and!. Qed.

Lemma reports_bind {X Y} (view : Y -> _) id E (p : Prog X) (k : X -> Prog (StResult Y)) w :
  lawful_env E -> db_wf (w_db w) -> tame p ->
  (forall w' x, exec_prog E p w = (w', x) -> db_wf (w_db w') -> reports view id E (k x) w') ->
  reports view id E (bind p k) w.
Proof.
  intros HE Hwf Hp Hk. unfold reports. rewrite exec_bind.
  pose proof (tame_exec E p w HE Hp Hwf) as Hc.
  pose proof (exec_lawful E p w HE (tame_lawful _ Hp) Hwf) as He.
  destruct (exec_prog E p w) as [w1 x] eqn:Hx. simpl in *.
  specialize (Hk w1 x eq_refl (ev_wf _ _ He)). unfold reports in Hk.
  destruct (exec_prog E (k x) w1) as [w2 r]. by rewrite <- Hc.
Qed.

Lemma reports_try {X Y} (view : Y -> _) id E (p : Prog (StResult X)) (k : X -> Prog (StResult Y)) w :
  lawful_env E -> db_wf (w_db w) -> tame p ->
  (forall w' x, exec_prog E p w = (w', Ok x) -> db_wf (w_db w') -> reports view id E (k x) w') ->
  reports view id E (bind p (λ r, match r with Ok x => k x | Err e => Ret (Err e) end)) w.
Proof.
  intros HE Hwf Hp Hk. apply reports_bind; [done.. |]. intros w' [x|e] Hx Hwf'; [by apply Hk |].
  apply reports_err.
Qed.

(** A program that only relabels what another returns. *)
Lemma reports_relabel {X Y} (view : X -> _) (view' : Y -> _) (f : X -> Y) id E p w :
  (forall x, view' (f x) = view x) ->
  reports view id E p w -> reports view' id E (bind p (λ r, Ret (result_map f r))) w.
Proof.
  intros Hf. unfold reports. rewrite exec_bind. destruct (exec_prog E p w) as [w' [x|e]]; simpl; [| done].
  by rewrite Hf.
Qed.

Lemma reports_without_events id E p w :
  reports (λ r, r) id E p w -> reports plain id E (without_events p) w.
Proof.
  unfold reports, without_events. rewrite exec_bind.
  destruct (exec_prog E p w) as [w' [[o events]|e]]; simpl; [| done]. by intros (? & _ & ?).
Qed.

Section Reports.
Context `{IdSource} `{Redactor} `{Codecs} `{Aead} {V : SecretVault} {LV : LawfulVault V}.
Context (self : SidecarBridgeEngine) (rd : EngineReads).
Hypothesis Hself : engine_typed self.
Hypothesis Hrd : reads_typed rd.
Context (E : Env).
Hypothesis HE : lawful_env E.

(** What a command of the coordinator tells. *)
Lemma command_tells c w w' r :
  exec_prog E (command_program c) w = (w', r) ->
  match r with
  | Ok res =>
      applied_in (command_id c) (w_db w') /\ applied_answer (Ok res) = true
      /\ exists call answer, w_calls w' = (command_id c, call, answer) :: w_calls w
           /\ applied_answer answer = true
  | Err e =>
      w_calls w' = w_calls w
      \/ exists call answer, w_calls w' = (command_id c, call, answer) :: w_calls w
           /\ told (command_id c) answer e (w_db w')
  end.
Proof.
  intros Hx. destruct (gated_exec _ _ _ _ _ _ (command_gated c) Hx)
    as [[Hc (e & -> & _)] | (call & answer & Hc & Ht)]; [by left |].
  destruct r as [res|e]; simpl in Ht.
  - destruct Ht as (Ha & Hap & Hl). subst answer. split_and!; [by eexists | done | eauto].
  - right. exists call, answer. split; [done |]. unfold told.
    destruct (not_applied_answer answer) eqn:Hn; [by rewrite Ht | by destruct Ht as [-> ->]].
Qed.

(** An already applied record of the claim is applied in the ledger. *)
Lemma claim_or_replay_done actor id kind locator origin text w w' o :
  db_wf (w_db w) ->
  exec_prog E (claim_or_replay self actor id kind locator origin text) w = (w', Ok (Some o)) ->
  o = committed_outcome id text /\ applied_in id (w_db w').
Proof.
  intros Hwf. unfold claim_or_replay, claim_operation_with_origin.
  destruct (is_blank id) eqn:Hid; [done |]. destruct (negb (origin_is_valid origin)); [done |].
  simpl. destruct (en_coordinator self); [| done]. unfold prog_map_err, claim. rewrite !exec_bind, exec_db_call.
  destruct (claim_operation _ _ _) as [db [rec|[ex|e]]] eqn:Hc; simpl; [done | | done].
  intros [= <- Hr]. apply claim_duplicate_inv in Hc as (-> & Hm & id' & r & Hr' & Hrec).
  destruct (into_record_fields _ _ Hrec) as (Hrid & _ & _ & _ & _ & _ & _ & Hst & _).
  pose proof (ev_wf _ _ (HE (w_step w) _ Hwf)) as Hwf'.
  destruct (wf_row _ Hwf' _ _ Hr') as (Hrid' & _).
  assert (rec_id ex = id) as Heq.
  { unfold matches_claim in Hm. simpl in Hm. rewrite Hid in Hm. simpl in Hm.
    rewrite !andb_true_iff, !bool_decide_eq_true in Hm. apply Hm. }
  assert (already_applied ex = true /\ o = committed_outcome id text) as [Ha ->].
  { revert Hr. unfold resume_or_replay, already_applied. simpl.
    destruct (rec_status ex), (rec_commit_state ex); simpl; congruence || naive_solver. }
  split; [done |]. simpl. unfold applied_in. rewrite ledger_lookup.
  rewrite <- Heq, Hrid, Hrid', Hr'. simpl. rewrite Hst. unfold already_applied in Ha.
  apply andb_true_iff in Ha as [_ ->%bool_decide_eq_true]. eauto.
Qed.

(** The outcomes a command builds from a commit that was confirmed. *)
Definition confirms (id : string) (r : StBridgeOutcome * list BridgeProgressEvent) : Prop :=
  out_write_committed (fst r) = true /\ out_confirmed_commit (fst r) = true
  /\ out_operation_id (fst r) = Some id.

Lemma report_confirmed id (calls calls' : Calls) r db :
  confirms id r -> applied_in id db ->
  (calls' = calls \/ exists call answer, calls' = (id, call, answer) :: calls
                       /\ applied_answer answer = true) ->
  report id calls calls' (Ok r) db.
Proof. destruct r as [o events]. intros (Hw & Hc & Ho) Ha Hcalls. simpl in *. rewrite Hc. by split_and!. Qed.

Lemma reports_early {X} (view : X -> _) id x w :
  confirms id (view x) -> applied_in id (w_db w) -> reports view id E (Ret (Ok x)) w.
Proof. intros. apply report_confirmed; [done.. | by left]. Qed.

Lemma reports_commit {X} (view : X -> _) id locator snapshot mutation text
    (f : StBridgeOutcome -> X) w :
  db_wf (w_db w) -> confirms id (view (f (committed_outcome id text))) ->
  reports view id E
    (await? o := commit_mutation self rd id locator snapshot mutation text in Ret (Ok (f o))) w.
Proof.
  intros Hwf Hf.
  assert (reports (λ o, view (f o)) id E (commit_mutation self rd id locator snapshot mutation text) w)
    as Hc.
  { unfold commit_mutation. apply reports_try; [done | done | apply tame_require_fence |].
    intros w1 _ _ Hwf1. destruct (engine_fence self rd 1 id) as [fence|]; [| apply reports_err].
    destruct (coordinator_for self id); [| apply reports_err].
    unfold reports. rewrite exec_bind.
    destruct (exec_prog E (Coordinator.commit _ _ _ _ _ _) w1) as [w2 r] eqn:Hx.
    pose proof (command_tells (CmdCommit id locator (sn_source_sha256 snapshot)
      (sn_source_integrity snapshot) mutation fence) w1 w2 r Hx) as Ht. simpl in Ht.
    destruct r as [res|e]; simpl; [| exact Ht]. destruct Ht as (Ha & Hap & Hcalls).
    assert (match cres_status res with
            | CommitApplied | CommitAlreadyApplied => Ok (committed_outcome id text)
            | _ => Err (not_applied_error id)
            end = Ok (committed_outcome id text)) as ->.
    { simpl in Hap. by destruct (cres_status res). }
    apply report_confirmed; [done.. | by right]. }
  revert Hc. unfold reports. rewrite (exec_bind E (commit_mutation _ _ _ _ _ _ _)).
  by destruct (exec_prog E (commit_mutation _ _ _ _ _ _ _) w) as [w' [o|e]].
Qed.

Lemma finish_turn_reports actor id kind locator snapshot context generation w :
  db_wf (w_db w) -> tame generation ->
  reports (λ r, r) id E (finish_turn self rd actor id kind locator snapshot context generation) w.
Proof.
  intros Hwf Hg. apply reports_bind; [done.. |]. intros w1 [[mutation text]|error] _ Hwf1.
  - apply reports_try; [done | done | by apply tame_persist_generated |]. intros w2 _ _ Hwf2.
    by apply (reports_commit (λ r, r) id locator snapshot mutation text
                (λ o, (o, done_events context o))).
  - apply reports_bind; [done | done | apply tame_settle_generation_failure |].
    intros w2 e _ _. apply reports_err.
Qed.

Lemma turn_reports actor locator client kind text context origin generation w :
  db_wf (w_db w) -> (forall id snapshot, tame (generation id snapshot)) ->
  reports (λ r, r) (choose_id client (default (rd_new_id rd) (bx_operation_id <$> context))) E
    (turn_with_context self rd actor locator client kind text context origin generation) w.
Proof.
  intros Hwf Hg. unfold turn_with_context. destruct (lock_locator rd); [| apply reports_err].
  destruct (require_write_for_locator rd locator); [| apply reports_err].
  set (id := choose_id _ _). destruct (match context with Some _ => _ | None => _ end);
    [apply reports_err |].
  apply reports_try; [done | done | apply tame_claim_or_replay |]. intros w1 [o|] Hx Hwf1.
  { apply claim_or_replay_done in Hx as [-> Ha]; [| done]. by apply reports_early. }
  destruct (rd_snapshot rd); [| apply reports_err].
  destruct (coordinator_for self id); [| apply reports_err].
  apply reports_try; [done | done | apply tame_mark_snapshot |]. intros w2 _ _ Hwf2.
  apply reports_try; [done | done | apply tame_mark_generating |]. intros w3 _ _ Hwf3.
  by apply finish_turn_reports.
Qed.

Lemma undo_reports actor locator client kind origin w :
  db_wf (w_db w) ->
  reports plain (choose_id client (rd_new_id rd)) E
    (undo_last_turn self rd actor locator client kind origin) w.
Proof.
  intros Hwf. unfold undo_last_turn. destruct (lock_locator rd); [| apply reports_err].
  destruct (require_write_for_locator rd locator); [| apply reports_err].
  set (id := choose_id _ _).
  apply reports_try; [done | done | apply tame_claim_or_replay |]. intros w1 [o|] Hx Hwf1.
  { apply claim_or_replay_done in Hx as [-> Ha]; [| done]. by apply reports_early. }
  destruct (rd_snapshot rd) as [snapshot|]; [| apply reports_err].
  destruct (mbind _ (last_dialogue_indexes _)) as [[um am]|]; [| apply reports_err].
  destruct (coordinator_for self id); [| apply reports_err].
  apply reports_try; [done | done | apply tame_mark_snapshot |]. intros w2 _ _ Hwf2.
  apply reports_try; [done | done | by apply tame_persist_generated |]. intros w3 _ _ Hwf3.
  by apply (reports_commit plain id locator snapshot).
Qed.

Lemma compress_reports actor locator client origin w :
  db_wf (w_db w) ->
  reports plain (choose_id client (rd_new_id rd)) E (compress_chat self rd actor locator client origin) w.
Proof.
  intros Hwf. unfold compress_chat. destruct (lock_locator rd); [| apply reports_err].
  destruct (require_write_for_locator rd locator); [| apply reports_err].
  set (id := choose_id _ _).
  apply reports_try; [done | done | apply tame_claim_or_replay |]. intros w1 [o|] Hx Hwf1.
  { apply claim_or_replay_done in Hx as [-> Ha]; [| done]. by apply reports_early. }
  destruct (rd_snapshot rd) as [snapshot|]; [| apply reports_err].
  destruct (compress_targets _) as [|t ts]; [apply reports_uncommitted |].
  destruct (coordinator_for self id); [| apply reports_err].
  apply reports_try; [done | done | apply tame_mark_snapshot |]. intros w2 _ _ Hwf2.
  apply reports_try; [done | done | apply tame_mark_generating |]. intros w3 _ _ Hwf3.
  by apply reports_without_events, finish_turn_reports, tame_generate_compression.
Qed.

Lemma start_reports actor locator client origin w :
  db_wf (w_db w) ->
  reports plain (choose_id client (rd_new_id rd)) E (start_chat self rd actor locator client origin) w.
Proof.
  intros Hwf. unfold start_chat. destruct (lock_locator rd); [| apply reports_err].
  destruct (require_workspace actor) as [workspace|]; [| apply reports_err].
  destruct (rd_probe rd) as [status|]; [| apply reports_err].
  destruct (negb _); [apply reports_err |]. destruct (_ || _); [apply reports_err |].
  set (id := choose_id _ _). set (created := Build_StChatLocator _ _ _ _).
  apply reports_try; [done | done | apply tame_claim_or_replay |]. intros w1 [o|] Hx Hwf1.
  { apply claim_or_replay_done in Hx as [-> Ha]; [| done]. by apply reports_early. }
  destruct (engine_fence self rd 0 id) as [fence|]; [| apply reports_err].
  destruct (coordinator_for self id); [| apply reports_err].
  apply reports_try; [done | done | apply tame_mark_snapshot |]. intros w2 _ _ Hwf2.
  apply reports_try; [done | done | by apply tame_persist_create |]. intros w3 _ _ Hwf3.
  apply reports_try; [done | done | apply tame_require_fence |]. intros w4 _ _ Hwf4.
  set (command := Build_CreateStChat _ _ _ _ _). unfold reports. rewrite exec_bind.
  pose proof (exec_lawful E (create command) w4 HE
    (disciplined_lawful _ _ (command_disciplined (CmdCreate command))) Hwf4) as He.
  destruct (exec_prog E (create command) w4) as [w5 r] eqn:Hx5.
  pose proof (command_tells (CmdCreate command) w4 w5 r Hx5) as Ht. simpl in Ht, He.
  destruct r as [res|e]; [| exact Ht]. destruct Ht as (Ha & _ & call & answer & Hc & Hap).
  unfold prog_map_err. rewrite !exec_bind, exec_db_call.
  pose proof (HE (w_step w5) _ (ev_wf _ _ He)) as He5.
  pose proof (upsert_channel_evolves (acc_id (act_account actor)) workspace (en_context_key self)) as Hup.
  destruct (select_chat _ _ _ _ _ _) as [db' r] eqn:Hs.
  assert (evolves (w_db w5) db') as He6.
  { eapply evolves_trans; [exact He5 |]. unfold select_chat in Hs.
    replace db' with (fst (db', r)) by done. rewrite <- Hs. apply Hup. apply He5. }
  pose proof (applied_in_evolves id _ _ He6 Ha) as Ha'. destruct r as [[]|e]; simpl.
  - split_and!; [done.. | right; eauto].
  - right. exists call, answer. by split.
Qed.

Lemma channel_reports actor write text id w :
  db_wf (w_db w) -> (forall now workspace db, db_wf db -> evolves db (fst (write now workspace db))) ->
  reports plain id E (channel_command actor write text) w.
Proof.
  intros Hwf Hw. unfold channel_command. destruct (require_workspace actor); [| apply reports_err].
  apply reports_try; [done | done | apply tame_map_err, tame_db_call; auto |]. intros w1 _ _ _.
  apply reports_uncommitted.
Qed.

Lemma execute_reports actor command id w :
  db_wf (w_db w) -> reports plain id E (execute self rd actor command) w.
Proof.
  intros Hwf. destruct command; simpl; try apply reports_err.
  - destruct (require_workspace actor), (rd_probe rd); try apply reports_err.
    apply channel_reports; [done |]. intros. by apply upsert_channel_evolves.
  - apply channel_reports; [done |]. intros. by apply upsert_channel_evolves.
  - apply channel_reports; [done |]. intros. by apply upsert_channel_evolves.
Qed.
End Reports.

(** The operation a command runs under. *)
Definition command_operation_id (rd : EngineReads) (command : StBridgeCommand)
    (context : option BridgeExecutionContext) : string :=
  match command with
  | SendMessage _ _ id _ | RegenerateReply _ id _ =>
      choose_id id (default (rd_new_id rd) (bx_operation_id <$> context))
  | StartChat _ id | UndoLastTurnCmd _ id | RevokeLastTurn _ id | CompressChat _ id =>
      choose_id id (rd_new_id rd)
  | _ => ""
  end.

(** C4: the engine confirms only what happened.  In any environment that respects
    the ledger, and whatever the backend answers, a command makes at most one
    write to SillyTavern, under its own operation id.  It reports a committed and
    confirmed write, or emits a done event, only if the ledger has the operation
    as applied and the write, if this run made it, was answered with applied or
    already applied; an outcome without confirmation made no write.  An error
    after a write never claims that nothing was started: it says not applied only
    if the backend did, applied only with the ledger, and otherwise unknown with
    the action to reconcile the same operation. *)
Theorem engine_reports_truthfully (ids : IdSource) (red : Redactor) (cod : Codecs) (A : Aead)
    (V : SecretVault) (LV : LawfulVault V) E self rd actor command context origin w :
  lawful_env E -> engine_typed self -> reads_typed rd -> db_wf (w_db w) ->
  let '(w', r) :=
    exec_prog E (execute_with_context_and_origin self rd actor command context origin) w in
  report (command_operation_id rd command context) (w_calls w) (w_calls w') r (w_db w').
Proof.
  intros HE Hself Hrd Hwf.
  assert (reports (λ r, r) (command_operation_id rd command context) E
            (execute_with_context_and_origin self rd actor command context origin) w) as Hr.
  { assert (forall id p, reports plain id E p w -> reports (λ r, r) id E (no_events p) w) as Hno
      by (intros id p; by apply reports_relabel).
    destruct command; cbn [execute_with_context_and_origin execute_with_origin command_operation_id];
      try apply Hno.
    - by apply execute_reports.
    - by apply execute_reports.
    - by apply start_reports.
    - apply turn_reports; [done.. |]. intros. apply tame_generate_turn.
    - by apply undo_reports.
    - by apply undo_reports.
    - apply turn_reports; [done.. |]. intros. apply tame_generate_turn.
    - by apply compress_reports.
    - by apply execute_reports. }
  unfold reports in Hr. destruct (exec_prog _ _ _) as [w' [r|e]]; exact Hr.
Qed.

(** ** Concrete data for the witnesses *)

Definition demo_actor : Actor :=
  {| act_account := {| acc_id := "acc"; acc_username := "u"; acc_display_name := "U";
                       acc_is_system_admin := false; acc_disabled_at := None;
                       acc_legacy_st_handle := None |};
     act_workspace_id := Some "ws"; act_workspace_role := Some RoleMember |}.

Definition demo_origin : BridgeOperationOrigin :=
  {| o_internal_bot_id := "bot"; o_telegram_update_id := 7; o_channel_context_key := "ctx" |}.

Definition demo_engine : SidecarBridgeEngine :=
  with_ownership_guard
    Recovery.demo_guard
    (with_required_coordinator demo_coordinator SidecarBridgeEngine_new).

Definition demo_status : StStatus :=
  {| st_available := true; st_version := None; st_handle := "default-user";
     st_capabilities := {| cap_mode := ProductionWrite; cap_snapshot := true;
                           cap_typed_mutations := true; cap_integrity_rotation := true;
                           cap_operation_replay := true |} |}.

Definition demo_settings : StGenerationSettings :=
  {| gs_username := "User"; gs_chat_completion_source := "openai"; gs_model := "m";
     gs_custom_url := ""; gs_custom_prompt_post_processing := ""; gs_temperature := "1.0";
     gs_top_p := "1.0"; gs_max_tokens := 100 |}.

Definition demo_character : StCharacterSummary :=
  {| sc_avatar := "a.png"; sc_name := "Alice"; sc_description := ""; sc_personality := "";
     sc_scenario := ""; sc_first_mes := ""; sc_mes_example := "" |}.

Definition demo_reads : EngineReads :=
  {| rd_lock := true; rd_permit := true; rd_probe := Ok demo_status;
     rd_snapshot := Ok {| sn_locator := demo_locator; sn_parsed_chat := sample_chat;
                          sn_source_sha256 := "sha"; sn_source_integrity := "int";
                          sn_source_byte_length := 10; sn_source_message_count := 17 |};
     rd_characters := Ok [demo_character]; rd_chats := Ok []; 
     rd_models := Ok {| mc_models := []; mc_current_model := None |};
     rd_settings := Ok demo_settings;
     rd_generate _ _ := Ok {| gr_text := "hello"; gr_finish_reason := None; gr_usage := None |};
     rd_new_id := "fresh"; rd_now_ms := 1000; rd_now := "2026-01-01T00:00:00Z";
     rd_draws := demo_draws; rd_nonce := demo_nonce; rd_lifecycle _ := Running |}.

Definition demo_send : StBridgeCommand := SendMessage demo_locator "hi" "op-9" None.

Definition demo_engine_run (command : StBridgeCommand) (w : World)
    : World * StResult (StBridgeOutcome * list BridgeProgressEvent) :=
  exec_prog (quiet demo_applied (Ok None))
    (@execute_with_context_and_origin demo_ids demo_redactor demo_codecs toy_aead demo_impl
       demo_engine demo_reads demo_actor command
       (Some {| bx_operation_id := "op-9"; bx_progress := true |}) demo_origin) w.

Lemma demo_engine_typed : engine_typed demo_engine.
Proof. intros c v [= <-] [= <-]. lia. Qed.

Lemma demo_reads_typed : reads_typed demo_reads.
Proof. by split. Qed.

Lemma engine_reports_truthfully_witness :
  let w := world0 demo_db in
  let '(w', r) := demo_engine_run demo_send w in
  (is_ok r = true /\ length (w_calls w') = 1%nat)
  /\ report "op-9" (w_calls w) (w_calls w') r (w_db w').
Proof.
  intros w.
  assert (is_ok (snd (demo_engine_run demo_send w)) = true
          /\ length (w_calls (fst (demo_engine_run demo_send w))) = 1%nat) as Hok
    by (vm_compute; split; reflexivity).
  pose proof (engine_reports_truthfully demo_ids demo_redactor demo_codecs toy_aead demo_impl _
    (quiet demo_applied (Ok None)) demo_engine demo_reads demo_actor demo_send
    (Some {| bx_operation_id := "op-9"; bx_progress := true |}) demo_origin w
    (quiet_lawful _ _) demo_engine_typed demo_reads_typed ltac:(apply empty_db_wf)) as Hr.
  unfold demo_engine_run in *. destruct (exec_prog _ _ _) as [w' r]. exact (conj Hok Hr).
Defined.
