(* ===== verification/EngineReplay.v ===== *)
(** * What the engine persists is what a replay sends

    The engine seals a recovery payload before it commits.  From the sealed
    payload the runtime that sealed it - a recovery that runs under the very same
    fence - rebuilds the very same commit (a runtime with another fence, such as the
    next one after a restart, cannot: [replay_needs_sealing_runtime] in
    [CoordinatorCorrect]); and what a repeated start of a chat does. *)

From stdpp Require Import pretty.
From S2P Require Import Prelude Text Errors StDomain Readiness ErrorMapper Prompt Operations OperationStore.
From S2P Require Import StoreInvariant StoreCorrect PollerOwnership Journal Vault Program OperationPayload.
From S2P Require Import Coordinator ChannelContext StOps Engine CoordinatorCorrect Recovery EngineCorrect.

(** The operation's row carries the sealed payload [p] and the digest [d]. *)
Definition sealed_in (db : DB) (id : string) (p : EncryptedOperationPayload) (d : string) : Prop :=
  exists r s c, bridge_operations db !! id = Some r /\ row_state r = Some (s, c)
    /\ lacks_payload s = false
    /\ payload_columns r
       = (Some (enc_ciphertext p), Some (enc_nonce p), Some (enc_key_version p), Some d).

Lemma sealed_in_evolves db db' id p d : evolves db db' -> sealed_in db id p d -> sealed_in db' id p d.
Proof.
  intros He (r & s & c & Hr & Hst & Hl & Hc). destruct (ev_rows _ _ He _ _ Hr) as (r' & Hr' & _ & Hf).
  destruct (evolves_slot _ _ id (s, c) He) as ([s' c'] & Hled & Hm); [by rewrite ledger_lookup, Hr |].
  rewrite ledger_lookup, Hr' in Hled. exists r', s', c'. split_and!; [done | done | |].
  - by apply (rtc_move_frozen _ _ Hm).
  - by rewrite (Hf _ _ Hst Hl).
Qed.

(** Reading a sealed row gives the payload back. *)
Lemma sealed_in_read db id p d rec :
  db_wf db -> sealed_in db id p d -> get_operation id db = Ok (Some rec) ->
  rec_id rec = id /\ rec_payload rec = Some p /\ rec_mutation_digest rec = Some d.
Proof.
  intros Hwf (r & s & c & Hr & Hst & Hl & Hc) Hg.
  destruct (get_operation_wf _ _ _ Hwf Hr) as (rec' & Hg' & Hrec).
  rewrite Hg in Hg'. injection Hg' as <-.
  destruct (into_record_fields _ _ Hrec) as (Hid & _ & _ & _ & _ & _ & _ & _ & Hd & Hmap).
  destruct (wf_row _ Hwf _ _ Hr) as (Hrid & (s0 & c0 & Hst0 & _ & _ & _ & _ & Hor) & _).
  unfold payload_columns in Hc. injection Hc as H1 H2 H3 H4.
  destruct Hor as [Hab | Hpres]; [unfold payload_absent, payload_columns in Hab; congruence |].
  destruct (map_payload_present _ _ Hpres) as (p' & Hm & Hp1 & Hp2 & Hp3 & _).
  split_and!; [congruence | | congruence]. rewrite Hm in Hmap. injection Hmap as <-.
  destruct p, p'; simpl in *. congruence.
Qed.

(** A successful [update_generated] seals the row. *)
Lemma update_generated_seals now id p d db db' rec :
  update_generated now id p d db = (db', Ok rec) -> sealed_in db' id p d.
Proof.
  intros (r & Hr & Hg & -> & _)%cas_update_ok_inv. unfold sealed_in. simpl.
  rewrite lookup_insert_eq. eexists _, Generated, OcNotStarted. split; [done |]. split_and!; [| done.. ].
  apply andb_true_iff in Hg as [[_ Hc%bool_decide_eq_true]%andb_true_iff _].
  apply row_state_Some. by split.
Qed.

Section Replay.
Context `{IdSource} `{Redactor} `{Codecs} {A : Aead} {HA : AeadCorrect A}.
Context {V : SecretVault} {LV : LawfulVault V}.

Definition payload_digest (payload : OperationRecoveryPayload) (plaintext : string) : string :=
  match payload_mutation payload with
  | Some mutation => mutation_digest mutation
  | None => sha256_hex plaintext
  end.

Definition engine_aad (actor_id id kind : string) (locator : StChatLocator)
    (fence : PollerRuntimeFence) : OperationAad :=
  OperationAad_new_with_fence id
    (locator_hash sha256_hex (loc_handle locator) (loc_avatar locator) (loc_chat_file locator))
    kind actor_id fence.

(** What a successful [persist_payload] leaves: a sealed row under the bound key. *)
Lemma persist_payload_seals E rd c v actor_id id kind locator payload fence digest w w1 :
  lawful_env E -> reads_typed rd -> db_wf (w_db w) ->
  payload_key_provider c = Some v -> (0 <= v < 2 ^ 32)%Z ->
  exec_prog E (persist_payload rd c actor_id id kind locator payload fence digest) w = (w1, Ok tt) ->
  validate payload = Ok tt
  /\ exists enc plaintext p, payload_to_vec payload = Some plaintext
     /\ encrypt (rd_nonce rd) enc plaintext (engine_aad actor_id id kind locator fence) = Ok p
     /\ bound_key id (w_db w1) (operation_dek enc) (encryptor_key_version enc)
     /\ String.length (operation_dek enc) = 32
     /\ sealed_in (w_db w1) id p (digest plaintext).
Proof.
  intros HE [Hn Hdek] Hwf Hv Hvr. unfold persist_payload.
  destruct (validate payload) as [[]|]; [| done].
  destruct (payload_to_vec payload) as [plaintext|]; [| done].
  unfold prog_map_err, payload_encryptor_for_operation. rewrite Hv, !exec_bind.
  destruct (exec_prog E (for_operation _ _ _) w) as [w2 [enc|]] eqn:Hf; [| done]. simpl.
  pose proof (exec_lawful E _ w HE (lawful_for_operation (rd_draws rd) v id Hvr) Hwf) as He.
  rewrite Hf in He. simpl in He.
  destruct (for_operation_binds _ _ _ _ _ _ _ HE Hwf Hvr Hdek Hf) as [Hb Hlen].
  destruct (encrypt _ enc plaintext _) as [p|] eqn:Hp; [| done].
  simpl.
  pose proof (HE (w_step w2) _ (ev_wf _ _ He)) as He2.
  pose proof (update_generated_evolves (env_now E (w_step w2)) id p (digest plaintext) _
    ltac:(rewrite (encrypt_nonce _ _ _ _ _ Hp); exact Hn) (ev_wf _ _ He2)) as He3.
  destruct (update_generated _ _ _ _ _) as [db [rec|]] eqn:Hu; [| done]. intros [= <-]. simpl in *.
  split; [done |]. exists enc, plaintext, p. split_and!; try done.
  - eapply bound_key_evolves; [exact He3 |]. by eapply bound_key_evolves.
  - by eapply update_generated_seals.
Qed.

(** A sealed payload is decoded to itself under its fence. *)
Lemma decode_sealed enc enc' record nonce plaintext payload fence p :
  payload_from_slice plaintext = Some payload -> validate payload = Ok tt ->
  encrypt nonce enc plaintext (recovery_aad record fence) = Ok p ->
  operation_dek enc' = operation_dek enc -> encryptor_key_version enc' = encryptor_key_version enc ->
  rec_mutation_digest record = Some (payload_digest payload plaintext) ->
  decode_and_validate_recovery_payload enc' record p fence = Ok payload.
Proof.
  intros Hs Hv Hp Hd Hk Hdig. unfold decode_and_validate_recovery_payload.
  rewrite (decrypt_encrypt nonce enc enc' plaintext _ p Hp Hd Hk). simpl.
  rewrite Hs. simpl. rewrite Hv. simpl. rewrite Hdig. unfold payload_digest.
  by rewrite bool_decide_eq_true_2.
Qed.

Lemma encrypt_identified nonce enc pt aad p :
  encrypt nonce enc pt aad = Ok p ->
  is_blank (aad_operation_id aad) = false /\ is_blank (aad_bot_id aad) = false.
Proof.
  unfold encrypt, validate_aad. destruct (_ || _) eqn:Hb; [done |]. intros _.
  by repeat (apply orb_false_iff in Hb as [Hb ?]).
Qed.

Lemma validate_fence payload :
  validate payload = Ok tt -> fence_is_valid (payload_fence payload) = true.
Proof. unfold validate. by destruct (fence_is_valid _). Qed.

(** From a persisted payload to the payload a recovery reads. *)
Lemma persisted_is_recovered E E' rd c v actor_id id kind locator payload fence digest w w1 w2 record :
  lawful_env E -> lawful_env E' -> reads_typed rd -> db_wf (w_db w) ->
  payload_key_provider c = Some v -> (0 <= v < 2 ^ 32)%Z ->
  (forall pt, payload_to_vec payload = Some pt -> payload_from_slice pt = Some payload) ->
  (forall pt, digest pt = payload_digest payload pt) -> payload_fence payload = fence ->
  exec_prog E (persist_payload rd c actor_id id kind locator payload fence digest) w = (w1, Ok tt) ->
  evolves (w_db w1) (w_db w2) -> get_operation id (w_db w2) = Ok (Some record) ->
  recovery_aad record fence = engine_aad actor_id id kind locator fence ->
  f_internal_bot_id fence = rec_bot_id record ->
  exists w3, exec_prog E' (decrypt_recovery_payload_for_operation c record fence) w2 = (w3, Ok payload).
Proof.
  intros HE HE' Hrd Hwf Hv Hvr Hser Hdig Hfence Hx He Hg Haad Hbot.
  destruct (persist_payload_seals E rd c v actor_id id kind locator payload fence digest w w1
    HE Hrd Hwf Hv Hvr Hx) as (Hval & enc & pt & p & Hpt & Hp & Hb & Hlen & Hs).
  pose proof (sealed_in_evolves _ _ _ _ _ He Hs) as Hs'.
  destruct (sealed_in_read _ _ _ _ _ (ev_wf _ _ He) Hs' Hg) as (Hid & Hrp & Hrd').
  pose proof (bound_key_evolves _ _ _ _ _ He Hb) as Hb'.
  destruct (restore_bound E' id w2 _ _ HE' (ev_wf _ _ He) Hb' Hlen) as (w3 & enc' & Hr & Hd & Hk).
  exists w3. unfold decrypt_recovery_payload_for_operation, restore_payload_encryptor_for_operation.
  rewrite Hv, exec_bind, Hid, Hr. simpl. unfold recovery_payload. rewrite Hrp, Hid.
  destruct (encrypt_identified _ _ _ _ _ Hp) as [Hb1 Hb2].
  change (is_blank id = false) in Hb1. change (is_blank (f_internal_bot_id fence) = false) in Hb2.
  rewrite Hb1, <- Hbot, Hb2. simpl. apply validate_fence in Hval as Hvf. rewrite Hfence in Hvf.
  rewrite Hvf, bool_decide_eq_true_2 by done. simpl. do 2 f_equal.
  rewrite <- Haad in Hp. eapply decode_sealed; [by apply Hser | done | exact Hp | done | done |].
  by rewrite Hrd', Hdig.
Qed.
End Replay.

Lemma get_operation_id db id rec :
  db_wf db -> get_operation id db = Ok (Some rec) -> rec_id rec = id.
Proof.
  intros Hwf Hg. assert (exists r, bridge_operations db !! id = Some r) as [r Hr].
  { unfold get_operation in Hg. destruct (bridge_operations db !! id); [eauto | done]. }
  destruct (get_operation_wf _ _ _ Hwf Hr) as (rec' & Hg' & Hrec). rewrite Hg in Hg'.
  injection Hg' as <-. destruct (into_record_fields _ _ Hrec) as (-> & _).
  by destruct (wf_row _ Hwf _ _ Hr).
Qed.

(** The identity a claim of the engine gives the operation's record. *)
Definition claimed_as (record : BridgeOperationRecord) (actor_id kind : string)
    (locator : StChatLocator) (fence : PollerRuntimeFence) : Prop :=
  rec_actor_id record = actor_id /\ rec_operation_kind record = kind
  /\ loc_handle (rec_locator record) = loc_handle locator
  /\ loc_avatar (rec_locator record) = loc_avatar locator
  /\ loc_chat_file (rec_locator record) = loc_chat_file locator
  /\ f_internal_bot_id fence = rec_bot_id record.

(** C7: what the sealing runtime persisted it can replay.  Once a turn's payload is
    persisted, whatever store and vault calls follow, the record read from the ledger
    decrypts under the sealing runtime's own fence, in any lawful environment and
    without fail, to a payload whose replay is the commit the engine was about to make:
    the same operation, chat, expected hash and integrity, mutation and fence.  The
    payload's own JSON text is taken to read back as that payload.  Nothing is said of a
    runtime with another fence, such as the one a restarted process claims: it cannot
    decrypt the payload. *)
Theorem persisted_turn_replays (ids : IdSource) (red : Redactor) (cod : Codecs)
    (A : Aead) (HA : AeadCorrect A) (V : SecretVault) (LV : LawfulVault V)
    E E' self rd c v actor_id id kind locator snapshot mutation fence w w1 w2 record :
  lawful_env E -> lawful_env E' -> engine_typed self -> reads_typed rd -> db_wf (w_db w) ->
  en_coordinator self = Some c -> payload_key_provider c = Some v ->
  engine_fence self rd 0 id = Ok fence ->
  (forall p pt, generated_payload kind snapshot mutation fence = Some p ->
    payload_to_vec p = Some pt -> payload_from_slice pt = Some p) ->
  exec_prog E (persist_generated_payload self rd actor_id id kind locator snapshot mutation) w
    = (w1, Ok tt) ->
  evolves (w_db w1) (w_db w2) -> get_operation id (w_db w2) = Ok (Some record) ->
  claimed_as record actor_id kind locator fence ->
  exists w3 payload,
    exec_prog E' (decrypt_recovery_payload_for_operation c record fence) w2 = (w3, Ok payload)
    /\ replay_call record payload
       = CallCommit {| cm_operation_id := id; cm_locator := rec_locator record;
                       cm_expected_sha256 := sn_source_sha256 snapshot;
                       cm_expected_integrity := sn_source_integrity snapshot;
                       cm_mutation := mutation; cm_fence := fence |}.
Proof.
  intros HE HE' Hself Hrd Hwf Hc Hv Hf Hser Hx He Hg (Ha & Hk & Hh & Hav & Hfile & Hbot).
  pose proof (get_operation_id _ _ _ (ev_wf _ _ He) Hg) as Hid.
  unfold persist_generated_payload, coordinator_for in Hx. rewrite Hc, Hf in Hx. simpl in Hx.
  destruct (generated_payload kind snapshot mutation fence) as [payload|] eqn:Hp; [| done].
  assert (payload_fence payload = fence /\ payload_mutation payload = Some mutation
          /\ replay_call record payload
             = CallCommit {| cm_operation_id := id; cm_locator := rec_locator record;
                             cm_expected_sha256 := sn_source_sha256 snapshot;
                             cm_expected_integrity := sn_source_integrity snapshot;
                             cm_mutation := mutation; cm_fence := fence |}) as (Hfe & Hm & Hr).
  { unfold generated_payload in Hp. repeat case_match; simplify_eq; done. }
  destruct (persisted_is_recovered E E' rd c v actor_id id kind locator payload fence
    (λ _, mutation_digest mutation) w w1 w2 record HE HE' Hrd Hwf Hv ltac:(by eapply Hself)
    ltac:(intros pt; by apply Hser)
    ltac:(intros pt; unfold payload_digest; by rewrite Hm) Hfe Hx He Hg) as (w3 & Hdec); [| done | eauto].
  unfold recovery_aad, engine_aad. by rewrite Hid, Hh, Hav, Hfile, Hk, Ha.
Qed.

(** An operation that undoes a turn, ready to be persisted, and a serializer that
    knows its payload. *)
Definition undo_payload : OperationRecoveryPayload :=
  PUndo (UndoLastTurn "user-sha" "assistant-sha") "sha" "int" demo_fence.

Definition undo_codecs : Codecs :=
  {| sha256_hex s := s; mutation_to_vec _ := Some "digest"; result_to_string _ := Some "{}";
     payload_to_vec p :=
       match p with
       | PUndo (UndoLastTurn u a) sha integrity fence =>
           if decide ((u, a, sha, integrity, fence)
                      = ("user-sha", "assistant-sha", "sha", "int", demo_fence))
           then Some "undo" else None
       | _ => None
       end;
     payload_from_slice s := if s =?= "undo" then Some undo_payload else None;
     value_from_slice _ := None; value_to_string _ := "{}" |}.

Lemma undo_codecs_round_trip p pt :
  @payload_to_vec undo_codecs p = Some pt -> @payload_from_slice undo_codecs pt = Some p.
Proof.
  destruct p as [|? ? ? ?|m sha integrity fence|?|]; simpl; try done.
  destruct m; try done. case_decide as Heq; [| done]. by intros [= <-]; simplify_eq.
Qed.

Definition undo_world : World :=
  world0 (run [OpClaim demo_ids "t0"
                 {| q_id := "op-1"; q_actor_id := "acc"; q_bot_id := "bot";
                    q_telegram_update_id := 7; q_channel_context_key := "ctx";
                    q_operation_kind := KIND_UNDO; q_locator := demo_locator;
                    q_request_id := "r"; q_trace_id := "t" |};
               OpSnapshotReady "t1" "op-1" (Some "sha") (Some "int") None None] demo_db).

Lemma undo_world_wf : db_wf (w_db undo_world).
Proof. apply run_ok; [repeat constructor | apply empty_db_wf]. Qed.

Definition undo_snapshot : StChatSnapshot :=
  {| sn_locator := demo_locator; sn_parsed_chat := sample_chat; sn_source_sha256 := "sha";
     sn_source_integrity := "int"; sn_source_byte_length := 10; sn_source_message_count := 17 |}.

Definition undo_persist : Prog (StResult unit) :=
  @persist_generated_payload demo_ids demo_redactor undo_codecs toy_aead demo_impl demo_engine
    demo_reads "acc" "op-1" KIND_UNDO demo_locator undo_snapshot
    (UndoLastTurn "user-sha" "assistant-sha").

Lemma persisted_turn_replays_witness :
  exists record w3 payload,
    get_operation "op-1" (w_db (fst (exec_prog idle undo_persist undo_world))) = Ok (Some record)
    /\ exec_prog idle (@decrypt_recovery_payload_for_operation undo_codecs toy_aead demo_impl
         demo_coordinator record demo_fence) (fst (exec_prog idle undo_persist undo_world))
       = (w3, Ok payload)
    /\ replay_call record payload
       = CallCommit {| cm_operation_id := "op-1"; cm_locator := rec_locator record;
                       cm_expected_sha256 := "sha"; cm_expected_integrity := "int";
                       cm_mutation := UndoLastTurn "user-sha" "assistant-sha";
                       cm_fence := demo_fence |}.
Proof.
  eexists _.
  assert (exec_prog idle undo_persist undo_world
          = (fst (exec_prog idle undo_persist undo_world), Ok tt)) as Hx by (vm_compute; reflexivity).
  assert (db_wf (w_db (fst (exec_prog idle undo_persist undo_world)))) as Hwf.
  { eapply (exec_lawful idle undo_persist undo_world); [apply quiet_lawful | | apply undo_world_wf].
    apply tame_lawful, tame_persist_generated; [apply demo_engine_typed | apply demo_reads_typed]. }
  destruct (persisted_turn_replays demo_ids demo_redactor undo_codecs toy_aead _ demo_impl _
    idle idle demo_engine demo_reads demo_coordinator 1 "acc" "op-1" KIND_UNDO demo_locator
    undo_snapshot (UndoLastTurn "user-sha" "assistant-sha") demo_fence undo_world
    (fst (exec_prog idle undo_persist undo_world)) (fst (exec_prog idle undo_persist undo_world)) _
    (quiet_lawful _ _) (quiet_lawful _ _) demo_engine_typed demo_reads_typed undo_world_wf
    eq_refl eq_refl eq_refl (λ p pt _, undo_codecs_round_trip p pt) Hx (evolves_refl _ Hwf)
    ltac:(vm_compute; reflexivity) ltac:(vm_compute; repeat split)) as (w3 & payload & Hd & Hr).
  exists w3, payload. split; [vm_compute; reflexivity |]. split; [exact Hd | exact Hr].
Defined.

(** ** Starting a chat twice *)

Lemma test_chat_file_inj ms ms' name : test_chat_file ms name = test_chat_file ms' name -> ms = ms'.
Proof.
  unfold test_chat_file. intros Heq. do 3 apply (inj (String.append _)) in Heq.
  apply app_string_inj_length_r in Heq as [Heq _]; [| done]. by apply (inj pretty) in Heq.
Qed.

(** A claim whose triple is taken by an operation on another chat file fails. *)
Lemma claim_other_file (ids : IdSource) now q db r :
  db_wf db -> bridge_operations db !! r_id r = Some r ->
  claim_of r = (q_bot_id q, q_telegram_update_id q, q_operation_kind q) ->
  r_st_chat_file r <> Some (loc_chat_file (q_locator q)) ->
  loc_chat_file (q_locator q) <> "" ->
  exists e, claim_operation now q db = (db, Err (ClaimFailed e)).
Proof.
  intros Hwf Hr Hc Hne Hne'. unfold claim_of in Hc. injection Hc as Hb Hu Hk.
  pose proof (find_row_claim db _ r Hwf Hr) as Hf. rewrite Hb, Hu, Hk in Hf.
  unfold claim_operation, insert_operation. simpl. rewrite Hf.
  rewrite (bool_decide_eq_true_2 (is_Some (Some r))) by eauto. rewrite orb_true_r.
  unfold get_by_claim. rewrite Hf.
  destruct (get_operation_wf _ _ _ Hwf Hr) as (rec & _ & Hrec). simpl. rewrite Hrec. simpl.
  assert (matches_claim rec q = false) as ->; [| simpl; eauto].
  destruct (into_record_fields _ _ Hrec) as (_ & _ & _ & _ & _ & _ & Hloc & _).
  unfold matches_claim. rewrite Hloc. simpl. apply andb_false_iff. right.
  apply bool_decide_eq_false_2. destruct (r_st_chat_file r); simpl; congruence.
Qed.

(** A chat that was started is never started again, but the repetition is not
    recognized as one: the file name of a new chat contains the clock, the claim
    compares it, and so a start command that is processed a second time for the
    same update, at any other millisecond, ends in an error without a write, and
    never in the already-created reply. *)
Theorem repeated_start_is_refused (ids : IdSource) (red : Redactor) (cod : Codecs) (A : Aead)
    (V : SecretVault) E self rd actor locator client origin w r ms :
  lawful_env E -> db_wf (w_db w) -> bridge_operations (w_db w) !! r_id r = Some r ->
  claim_of r = (o_internal_bot_id origin, o_telegram_update_id origin, KIND_START) ->
  r_st_chat_file r = Some (test_chat_file ms (loc_character_name locator)) ->
  ms <> rd_now_ms rd ->
  let '(w', res) := exec_prog E (start_chat self rd actor locator client origin) w in
  is_ok res = false /\ w_calls w' = w_calls w.
Proof.
  intros HE Hwf Hr Hc Hfile Hms. unfold start_chat. destruct (lock_locator rd); [| done].
  destruct (require_workspace actor); [| done]. destruct (rd_probe rd) as [status|]; [| done].
  destruct (negb _); [done |]. destruct (_ || _); [done |].
  unfold claim_or_replay, claim_operation_with_origin.
  destruct (_ || _); [done |]. destruct (en_coordinator self); [| done].
  pose proof (HE (w_step w) _ Hwf) as He.
  destruct (ev_rows _ _ He _ _ Hr) as (r' & Hr' & Hid & _).
  assert (r_id r' = r_id r /\ claim_of r' = claim_of r /\ r_st_chat_file r' = r_st_chat_file r)
    as (Hid1 & Hid2 & Hid3) by (unfold identity in Hid; unfold claim_of in *; injection Hid; intros; split_and!; congruence).
  rewrite <- Hid1 in Hr'. rewrite Hfile in Hid3. rewrite Hc in Hid2.
  unfold prog_map_err, claim. rewrite !exec_bind, exec_db_call.
  match goal with |- context [claim_operation ?now ?q ?db] =>
    destruct (claim_other_file ids now q db r' (ev_wf _ _ He) Hr' Hid2) as [e Hcl] end.
  - rewrite Hid3. simpl. intros Heq%(inj Some). by apply test_chat_file_inj in Heq.
  - done.
  - by rewrite Hcl.
Qed.

Definition started_request : ClaimOperationRequest :=
  {| q_id := "op-1"; q_actor_id := "acc"; q_bot_id := "bot"; q_telegram_update_id := 7;
     q_channel_context_key := "ctx"; q_operation_kind := KIND_START;
     q_locator := {| loc_handle := "default-user"; loc_avatar := "a.png";
                     loc_character_name := "Alice"; loc_chat_file := test_chat_file 999 "Alice" |};
     q_request_id := "r"; q_trace_id := "t" |}.

Definition started_world : World := world0 (run [OpClaim demo_ids "t0" started_request] demo_db).

Lemma started_world_wf : db_wf (w_db started_world).
Proof. apply run_ok; [repeat constructor | apply empty_db_wf]. Qed.

Definition start_locator : StChatLocator :=
  {| loc_handle := ""; loc_avatar := "a.png"; loc_character_name := "Alice"; loc_chat_file := "" |}.

Lemma repeated_start_is_refused_witness :
  let '(w', res) :=
    exec_prog idle (@start_chat demo_ids demo_redactor undo_codecs toy_aead demo_impl demo_engine
                      demo_reads demo_actor start_locator "op-1" demo_origin) started_world in
  is_ok res = false /\ w_calls w' = w_calls started_world.
Proof.
  apply (repeated_start_is_refused demo_ids demo_redactor undo_codecs toy_aead demo_impl idle
    demo_engine demo_reads demo_actor start_locator "op-1" demo_origin started_world
    (claim_row "op-1" "t0" started_request) 999);
    [apply quiet_lawful | exact started_world_wf | vm_compute; reflexivity | reflexivity
    | reflexivity | discriminate].
Defined.
