(* ===== verification/DeliveryQueue.v ===== *)
(** * Rate limits and pending deliveries ([modules/telegram/delivery_queue.rs])

    [DeliveryCoordinator] keeps, per bot and per chat, the instant before which
    no request may leave, and the deliveries that wait for a retry.  Instants are
    milliseconds; the iteration order of the [HashMap] is a parameter. *)

From S2P Require Import Prelude Text.
From Stdlib Require Import Lia.

Definition DeliveryKey : Type := string * option Z.

Record PendingDelivery := MkPendingDelivery {
  pd_delivery_id : string;
  pd_bot_id : string;
  pd_chat_id : Z;
}.

#[export] Instance PendingDelivery_eq_dec : EqDecision PendingDelivery.
Proof. solve_decision. Defined.

Record DeliveryCoordinator := MkDeliveryCoordinator {
  q_states : gmap DeliveryKey Z;             (* cooldown_until *)
  q_pending : gmap string PendingDelivery;
  q_max_retry_after : Z;                     (* milliseconds *)
}.

Definition DeliveryCoordinator_new (max_retry_after : Z) : DeliveryCoordinator :=
  MkDeliveryCoordinator ∅ ∅ (Z.max max_retry_after 1000).

Definition set_states (f : gmap DeliveryKey Z -> gmap DeliveryKey Z) (q : DeliveryCoordinator) : DeliveryCoordinator :=
  MkDeliveryCoordinator (f (q_states q)) (q_pending q) (q_max_retry_after q).
Definition set_pending (f : gmap string PendingDelivery -> gmap string PendingDelivery) (q : DeliveryCoordinator)
  : DeliveryCoordinator :=
  MkDeliveryCoordinator (q_states q) (f (q_pending q)) (q_max_retry_after q).

(** [bot_until.max(chat_until)], an absent deadline being now. *)
Definition until_of (now : Z) (bot_id : string) (chat_id : Z) (q : DeliveryCoordinator) : Z :=
  Z.max (default now (q_states q !! ((bot_id, None) : DeliveryKey)))
        (default now (q_states q !! ((bot_id, Some chat_id) : DeliveryKey))).

(** [wait]: the instant at which it returns when nothing else moves the deadlines;
    it looks again after every sleep. *)
Definition wait (now : Z) (bot_id : string) (chat_id : Z) (q : DeliveryCoordinator) : Z :=
  Z.max now (until_of now bot_id chat_id q).

(** [Instant::checked_add]: the seconds of an instant are an [i64]. *)
Definition instant_checked_add (now secs : Z) : option Z :=
  if (now / 1000 + secs <? 2 ^ 63)%Z then Some (now + 1000 * secs)%Z else None.

(** The entry of one key: [or_insert] now, then the later deadline. *)
Definition push_deadline (now until : Z) (key : DeliveryKey) (m : gmap DeliveryKey Z) : gmap DeliveryKey Z :=
  let entry := default now (m !! key) in
  <[key := if (entry <? until)%Z then until else entry]> m.

Definition set_cooldown_secs (now : Z) (bot_id : string) (chat_id : Z) (retry_after_secs : Z)
    (q : DeliveryCoordinator) : DeliveryCoordinator :=
  let until := default (now + q_max_retry_after q)%Z (instant_checked_add now retry_after_secs) in
  set_states (λ m, filter (λ kv : DeliveryKey * Z, (now < kv.2)%Z)
    (push_deadline now until (bot_id, Some chat_id) (push_deadline now until (bot_id, None) m))) q.

(** [cooldown_remaining]; a contended lock counts as cooling down. *)
Definition cooldown_remaining (contended : bool) (now : Z) (bot_id : string) (chat_id : Z)
    (q : DeliveryCoordinator) : Z :=
  if contended then q_max_retry_after q else Z.max 0 (until_of now bot_id chat_id q - now).

Definition is_cooling_down (contended : bool) (now : Z) (bot_id : string) (chat_id : Z)
    (q : DeliveryCoordinator) : bool := (0 <? cooldown_remaining contended now bot_id chat_id q)%Z.

Definition enqueue_pending (delivery_id bot_id : string) (chat_id : Z) (q : DeliveryCoordinator)
  : DeliveryCoordinator :=
  set_pending <[delivery_id := MkPendingDelivery delivery_id bot_id chat_id]> q.

Definition forget_pending (delivery_id : string) (q : DeliveryCoordinator) : DeliveryCoordinator :=
  set_pending (delete delivery_id) q.

Section Taking.
Context (values : gmap string PendingDelivery -> list PendingDelivery).

Definition take_where (p : PendingDelivery -> bool) (now : Z) (q : DeliveryCoordinator)
  : DeliveryCoordinator * option PendingDelivery :=
  match List.find (λ item, p item && (cooldown_remaining false now (pd_bot_id item) (pd_chat_id item) q =? 0)%Z)
          (values (q_pending q)) with
  | Some item => (forget_pending (pd_delivery_id item) q, q_pending q !! pd_delivery_id item)
  | None => (q, None)
  end.

Definition take_due (now : Z) (q : DeliveryCoordinator) : DeliveryCoordinator * option PendingDelivery :=
  take_where (λ _, true) now q.

Definition take_due_for (bot_id : string) (chat_id : Z) (now : Z) (q : DeliveryCoordinator)
  : DeliveryCoordinator * option PendingDelivery :=
  take_where (λ item, (pd_bot_id item =?= bot_id) && (pd_chat_id item =? chat_id)%Z) now q.

End Taking.

(** ** Deadlines only move away *)

(** [deadline q key] as seen at [now]. *)
Definition deadline (now : Z) (key : DeliveryKey) (q : DeliveryCoordinator) : Z := default now (q_states q !! key).

Lemma push_deadline_spec now until key m k :
  default now (push_deadline now until key m !! k) =
  (if decide (k = key) then Z.max until (default now (m !! k)) else default now (m !! k)).
Proof.
  unfold push_deadline. case_decide as E.
  - subst k. rewrite lookup_insert_eq. cbn [default]. unfold id. cbn. destruct (_ <? _)%Z eqn:El.
    + apply Z.ltb_lt in El. lia.
    + apply Z.ltb_ge in El. lia.
  - by rewrite lookup_insert_ne.
Qed.

Lemma retained (now : Z) (m : gmap DeliveryKey Z) (k : DeliveryKey) :
  Z.max now (default now (filter (λ kv : DeliveryKey * Z, (now < kv.2)%Z) m !! k)) = Z.max now (default now (m !! k)).
Proof.
  rewrite map_lookup_filter. destruct (m !! k) as [v|]; [| done]. cbn. case_guard; cbn in *; lia.
Qed.

(** After a cooldown is set every deadline is at least what it was, and those of
    the bot and of the chat lie at least [retry_after_secs] ahead. *)
Lemma set_cooldown_spec now bot chat secs q k :
  (0 <= secs)%Z -> (0 <= q_max_retry_after q)%Z ->
  let q' := set_cooldown_secs now bot chat secs q in
  (Z.max now (deadline now k q) <= Z.max now (deadline now k q'))%Z
  /\ (k = (bot, None) \/ k = (bot, Some chat) ->
      forall until, instant_checked_add now secs = Some until -> (until <= Z.max now (deadline now k q'))%Z).
Proof.
  intros Hs Hm. cbv zeta. unfold deadline, set_cooldown_secs. cbn [q_states set_states].
  rewrite retained, !push_deadline_spec. split.
  - repeat case_decide; lia.
  - intros Hk until ->. cbn [default]. unfold id. cbn. repeat case_decide; try lia. destruct Hk; congruence.
Qed.

(** ** Requests and rate limits over time

    Requests of all bots and chats share one coordinator: a request leaves at an
    instant at which [wait] returns, an answer with status 429 sets a cooldown. *)

Inductive QueueEvent :=
| Leaves (bot_id : string) (chat_id : Z)
| Limited (bot_id : string) (chat_id : Z) (retry_after_secs : Z).

Inductive q_trace : Z -> DeliveryCoordinator -> list (Z * QueueEvent) -> Prop :=
| q_end now q : q_trace now q []
| q_leaves now t bot chat q rest :
    (now <= t)%Z -> wait t bot chat q = t -> q_trace t q rest -> q_trace now q ((t, Leaves bot chat) :: rest)
| q_limited now t bot chat secs q rest :
    (now <= t)%Z -> (0 <= secs)%Z -> q_trace t (set_cooldown_secs t bot chat secs q) rest ->
    q_trace now q ((t, Limited bot chat secs) :: rest).

(** [until] still lies ahead for [key]. *)
Definition holds_back (until now : Z) (key : DeliveryKey) (q : DeliveryCoordinator) : Prop :=
  (until <= Z.max now (deadline now key q))%Z.

Lemma holds_back_later until now t key q : (now <= t)%Z -> holds_back until now key q -> holds_back until t key q.
Proof. unfold holds_back, deadline. intros Hle. destruct (q_states q !! key); simpl; lia. Qed.

Lemma holds_back_set until now bot chat secs key q :
  (0 <= secs)%Z -> (0 <= q_max_retry_after q)%Z ->
  holds_back until now key q -> holds_back until now key (set_cooldown_secs now bot chat secs q).
Proof. unfold holds_back. intros Hs Hm. pose proof (set_cooldown_spec now bot chat secs q key Hs Hm) as [Hle _]. lia. Qed.

Lemma held_back until now bot q trace t chat :
  (0 <= q_max_retry_after q)%Z -> holds_back until now (bot, None) q -> q_trace now q trace ->
  (t, Leaves bot chat) ∈ trace -> (until <= t)%Z.
Proof.
  intros Hm Hh Htr. revert Hm Hh.
  induction Htr as [now q | now t1 b c q rest Hle Hw Htr IH | now t1 b c secs q rest Hle Hs Htr IH]; intros Hm Hh Hin.
  - by apply elem_of_nil in Hin.
  - apply (holds_back_later _ _ t1) in Hh; [| done]. apply elem_of_cons in Hin as [[= -> -> ->] | Hin]; [| by apply IH].
    unfold wait, until_of in Hw. unfold holds_back, deadline in Hh. lia.
  - apply (holds_back_later _ _ t1) in Hh; [| done]. apply elem_of_cons in Hin as [? | Hin]; [done |].
    apply IH; [done | by apply holds_back_set | done].
Qed.

(** Telegram's rate limits are respected: once an answer limits a bot for some
    seconds, no request of that bot, whatever its chat, leaves before they are
    over, whatever other limits arrive in between (for deadlines an [Instant] can
    represent). *)
Theorem rate_limits_are_respected now q before after t bot chat secs until t' chat' :
  (0 <= q_max_retry_after q)%Z ->
  q_trace now q (before ++ (t, Limited bot chat secs) :: after) ->
  instant_checked_add t secs = Some until ->
  (t', Leaves bot chat') ∈ after -> (until <= t')%Z.
Proof.
  intros Hm Htr Hu Hin. revert now q Hm Htr.
  induction before as [|[t0 e] before IH]; intros now q Hm Htr; cbn [app] in Htr; inversion Htr; subst.
  - apply (held_back until t bot (set_cooldown_secs t bot chat secs q) after t' chat'); [exact Hm | | done | done].
    unfold holds_back. eapply set_cooldown_spec; eauto.
  - by eapply (IH t0 q).
  - by eapply (IH t0 (set_cooldown_secs t0 _ _ _ q)).
Qed.

Lemma rate_limits_are_respected_witness : (6000 <= 6500)%Z.
Proof.
  set (q := DeliveryCoordinator_new 3600000).
  apply (rate_limits_are_respected 0 q [(100, Leaves "bot" 7)]%Z [(6500, Leaves "bot" 8)]%Z 1000 "bot" 7 5 6000 6500 8).
  - vm_compute. discriminate.
  - cbn [app]. constructor; [lia | reflexivity |]. constructor; [lia | lia |].
    constructor; [lia | vm_compute; reflexivity |]. constructor.
  - reflexivity.
  - by left.
Defined.
