(* ===== verification/BindCodes.v ===== *)
(** * Binding a Telegram user to an account ([modules/telegram/mod.rs])

    An account owner asks for a one-time code; the Telegram user who sends it is
    bound to the account.  [redeem_bind_code] awaits one statement after the other and
    ends with a transaction, and other calls may run at every await, so it is a machine
    here whose steps are single statements ([redeem_step]); [redeem_bind_code] runs it
    to its end.  The keyed digest of a code, [str::to_uppercase] and the RFC 3339 text
    of a clock in milliseconds are parameters; times are compared as text. *)

From S2P Require Import Prelude Text Errors.
From stdpp Require Import pretty.
From Stdlib Require Import Lia.

(** ** Tables *)

Record BindCodeRow := MkBindCodeRow {
  bc_bot_id : string;
  bc_target_account_id : string;
  bc_code_hmac : string;
  bc_expires_at : string;
  bc_consumed_at : option string;
  bc_created_at : string;
}.

Record BindAttemptRow := MkBindAttemptRow {
  ba_failures : Z;
  ba_window_start : string;
  ba_locked_until : option string;
}.

(** Rows of [external_identities] with [channel = 'telegram']. *)
Record IdentityRow := MkIdentityRow {
  ei_account_id : string;
  ei_external_user_id : string;
  ei_verified_at : option string;
  ei_created_at : string;
}.

Record BindingRow := MkBindingRow {
  tb_bot_id : string;
  tb_external_identity_id : string;
  tb_workspace_id : string;
  tb_bound_at : string;
  tb_revoked_at : option string;
}.

Record BindDB := MkBindDB {
  bind_codes : gmap string BindCodeRow;
  bind_attempts : gmap (string * string) BindAttemptRow;
  external_identities : gmap string IdentityRow;
  telegram_bindings : gmap string BindingRow;
  bot_workspaces : gmap string string;  (* [telegram_bots]: id to workspace *)
  bind_accounts : gset string;          (* the keys of [accounts] *)
}.

Definition set_codes (f : gmap string BindCodeRow -> gmap string BindCodeRow) (db : BindDB) : BindDB :=
  MkBindDB (f (bind_codes db)) (bind_attempts db) (external_identities db) (telegram_bindings db) (bot_workspaces db)
    (bind_accounts db).
Definition set_attempts (f : gmap (string * string) BindAttemptRow -> gmap (string * string) BindAttemptRow)
    (db : BindDB) : BindDB :=
  MkBindDB (bind_codes db) (f (bind_attempts db)) (external_identities db) (telegram_bindings db) (bot_workspaces db)
    (bind_accounts db).
Definition set_identities (f : gmap string IdentityRow -> gmap string IdentityRow) (db : BindDB) : BindDB :=
  MkBindDB (bind_codes db) (bind_attempts db) (f (external_identities db)) (telegram_bindings db) (bot_workspaces db)
    (bind_accounts db).
Definition set_bindings (f : gmap string BindingRow -> gmap string BindingRow) (db : BindDB) : BindDB :=
  MkBindDB (bind_codes db) (bind_attempts db) (external_identities db) (f (telegram_bindings db)) (bot_workspaces db)
    (bind_accounts db).

(** ** Locking out *)

Definition is_locked (now account_id user_id : string) (db : BindDB) : bool :=
  match bind_attempts db !! (account_id, user_id) with
  | Some r => match ba_locked_until r with Some until => text_lt now until | None => false end
  | None => false
  end.

(** [Duration::minutes(15)], in milliseconds. *)
Definition LOCK_MS : Z := 15 * 60 * 1000.

(** The statements of [record_bind_failure]: the upsert, the SELECT, the UPDATE. *)
Definition insert_failure (now account_id user_id : string) (db : BindDB) : BindDB :=
  let key := (account_id, user_id) in
  let r := match bind_attempts db !! key with
           | Some r => MkBindAttemptRow (ba_failures r + 1) (ba_window_start r) (ba_locked_until r)
           | None => MkBindAttemptRow 1 now None
           end in
  set_attempts <[key := r]> db.

Definition failures_of (account_id user_id : string) (db : BindDB) : option Z :=
  ba_failures <$> bind_attempts db !! (account_id, user_id).

Definition set_lock (until account_id user_id : string) (db : BindDB) : BindDB :=
  set_attempts (alter (λ r, MkBindAttemptRow (ba_failures r) (ba_window_start r) (Some until)) (account_id, user_id)) db.

(** ** Codes *)

Section Codes.
Context (bind_code_hmac : string -> string) (to_uppercase : string -> string).

(** [DELETE FROM bind_codes WHERE bot_id = ? AND consumed_at IS NULL]. *)
Definition revoke_unused (bot_id : string) : gmap string BindCodeRow -> gmap string BindCodeRow :=
  filter (λ kr : string * BindCodeRow, ~ (bc_bot_id kr.2 = bot_id /\ bc_consumed_at kr.2 = None)).

(** The two statements of [generate_bind_code], with the drawn code and id: it revokes
    the bot's other unused codes, and inserts the new one under its primary and foreign
    keys. *)
Definition insert_code (now expires_at id code bot_id account_id : string) (db : BindDB)
  : BindDB * result string AppError :=
  if bool_decide (is_Some (bind_codes db !! id)) || negb (bool_decide (is_Some (bot_workspaces db !! bot_id)))
     || negb (bool_decide (account_id ∈ bind_accounts db))
  then (db, Err database_error)
  else (set_codes <[id := MkBindCodeRow bot_id account_id (bind_code_hmac code) expires_at None now]> db, Ok code).

Definition generate_bind_code (now expires_at id code bot_id account_id : string) (db : BindDB)
  : BindDB * result string AppError :=
  insert_code now expires_at id code bot_id account_id (set_codes (revoke_unused bot_id) db).

(** [ORDER BY created_at DESC LIMIT 1] over the unused codes of a bot and account. *)
Definition newest_first (a b : string * BindCodeRow) : bool := text_le (bc_created_at b.2) (bc_created_at a.2).

Definition open_code (bot_id account_id : string) (db : BindDB) : option (string * BindCodeRow) :=
  head (sort_by newest_first (filter (λ kr : string * BindCodeRow,
    bc_bot_id kr.2 = bot_id /\ bc_target_account_id kr.2 = account_id /\ bc_consumed_at kr.2 = None)
    (map_to_list (bind_codes db)))).

(** The identity of a Telegram user; [UNIQUE (channel, external_user_id)]. *)
Definition identity_of (user_id : string) (db : BindDB) : option (string * IdentityRow) :=
  head (filter (λ kr : string * IdentityRow, ei_external_user_id kr.2 = user_id)
    (map_to_list (external_identities db))).

(** What the reads found for the transaction. *)
Record BindPlan := MkBindPlan {
  bp_code : string;
  bp_identity : option string;
  bp_workspace : string;
}.

(** The transaction.  [identity_id] and [binding_id] are the fresh ids it draws; an
    identity inserted meanwhile violates the UNIQUE constraint, a deleted account or
    bot a foreign key, and the transaction is rolled back. *)
Definition redeem_commit (now identity_id binding_id bot_id account_id user_id : string) (plan : BindPlan)
    (db : BindDB) : BindDB * result string AppError :=
  match bind_codes db !! bp_code plan with
  | Some (MkBindCodeRow b a h e None c) =>
      let tx := set_codes <[bp_code plan := MkBindCodeRow b a h e (Some now) c]> db in
      let '(tx, identity, failed) :=
        match bp_identity plan with
        | Some i =>
            (set_identities (alter (λ r, MkIdentityRow (ei_account_id r) (ei_external_user_id r) (Some now)
               (ei_created_at r)) i) tx, i, false)
        | None =>
            (set_identities <[identity_id := MkIdentityRow account_id user_id (Some now) now]> tx, identity_id,
             bool_decide (is_Some (identity_of user_id tx)) || negb (bool_decide (account_id ∈ bind_accounts tx)))
        end in
      if failed then (db, Err database_error) else
      let exists_ := existsb (λ kr : string * BindingRow,
        (tb_bot_id kr.2 =?= bot_id) && (tb_external_identity_id kr.2 =?= identity)
        && match tb_revoked_at kr.2 with None => true | Some _ => false end)
        (map_to_list (telegram_bindings tx)) in
      if negb exists_ && negb (bool_decide (is_Some (bot_workspaces tx !! bot_id))) then (db, Err database_error) else
      let tx := if exists_ then tx
                else set_bindings <[binding_id := MkBindingRow bot_id identity (bp_workspace plan) now None]> tx in
      (set_attempts (delete (account_id, user_id)) tx, Ok "ok")
  | _ => (db, Ok "invalid")
  end.

(** *** The machine *)

Record Redemption := MkRedemption { rd_bot : string; rd_account : string; rd_raw_code : string; rd_user : string }.

(** Where a call of [redeem_bind_code] is: before the statement named. *)
Inductive Stage :=
| CheckLock
| SelectCode (hmac : string)
| SelectHmac (hmac id expires_at : string)
| DeleteExpired (id : string)
| SelectIdentity (id : string)
| SelectBot (id : string) (existing : option string)
| Transaction (plan : BindPlan)
| InsertFailure (answer : string)
| SelectFailures (answer : string)
| SetLock (answer : string)
| Finished (r : result string AppError).

Context (now_text : Z -> string).

(** One statement, at the time [clock]; [fetch_one] on no row is an error. *)
Definition redeem_step (clock : Z) (identity_id binding_id : string) (rd : Redemption) (stage : Stage) (db : BindDB)
  : BindDB * Stage :=
  let account := rd_account rd in
  let user := rd_user rd in
  match stage with
  | CheckLock =>
      (db, if is_locked (now_text clock) account user db then Finished (Ok "rate_limited")
           else SelectCode (bind_code_hmac (to_uppercase (trim (rd_raw_code rd)))))
  | SelectCode hmac =>
      (db, match open_code (rd_bot rd) account db with
           | None => InsertFailure "invalid"
           | Some (id, r) => SelectHmac hmac id (bc_expires_at r)
           end)
  | SelectHmac hmac id expires_at =>
      (db, match bind_codes db !! id with
           | None => Finished (Err database_error)
           | Some r =>
               if negb (bc_code_hmac r =?= hmac) then InsertFailure "invalid"
               else if text_le expires_at (now_text clock) then DeleteExpired id
               else SelectIdentity id
           end)
  | DeleteExpired id => (set_codes (delete id) db, InsertFailure "expired")
  | SelectIdentity id =>
      let existing := identity_of user db in
      (db, if match existing with Some (_, i) => negb (ei_account_id i =?= account) | None => false end
           then Finished (Ok "identity_conflict") else SelectBot id (fst <$> existing))
  | SelectBot id existing =>
      (db, match bot_workspaces db !! rd_bot rd with
           | None => Finished (Err (not_found "BOT_NOT_FOUND" "bot not found"))
           | Some workspace => Transaction (MkBindPlan id existing workspace)
           end)
  | Transaction plan =>
      let '(db, r) := redeem_commit (now_text clock) identity_id binding_id (rd_bot rd) account user plan db in
      (db, Finished r)
  | InsertFailure answer => (insert_failure (now_text clock) account user db, SelectFailures answer)
  | SelectFailures answer =>
      (db, match failures_of account user db with
           | None => Finished (Err database_error)
           | Some failures => if (10 <=? failures)%Z then SetLock answer else Finished (Ok answer)
           end)
  | SetLock answer => (set_lock (now_text (clock + LOCK_MS)) account user db, Finished (Ok answer))
  | Finished r => (db, Finished r)
  end.

Fixpoint redeem_run (steps : nat) (clock : Z) (identity_id binding_id : string) (rd : Redemption) (stage : Stage)
    (db : BindDB) : BindDB * Stage :=
  match steps with
  | O => (db, stage)
  | S steps =>
      let '(db, stage) := redeem_step clock identity_id binding_id rd stage db in
      redeem_run steps clock identity_id binding_id rd stage db
  end.

(** The statements a call still has at most. *)
Definition stage_left (stage : Stage) : nat :=
  match stage with
  | CheckLock => 7 | SelectCode _ => 6 | SelectHmac _ _ _ => 5 | DeleteExpired _ => 4
  | SelectIdentity _ | InsertFailure _ => 3 | SelectBot _ _ | SelectFailures _ => 2
  | Transaction _ | SetLock _ => 1 | Finished _ => 0
  end.

(** [redeem_bind_code] when nothing runs in between; seven statements are enough
    ([redeem_ends]). *)
Definition redeem_bind_code (clock : Z) (identity_id binding_id bot_id account_id raw_code user_id : string)
    (db : BindDB) : BindDB * result string AppError :=
  let '(db, stage) := redeem_run 7 clock identity_id binding_id (MkRedemption bot_id account_id raw_code user_id)
                        CheckLock db in
  (db, match stage with Finished r => r | _ => Err database_error end).

Lemma redeem_step_left clock iid bid rd stage db :
  stage_left stage <> 0 -> stage_left (redeem_step clock iid bid rd stage db).2 < stage_left stage.
Proof.
  intros Hn. destruct stage; simpl in *; try lia; try (destruct (redeem_commit _ _ _ _ _ _ _ _); simpl; lia);
    repeat case_match; simpl; lia.
Qed.

Lemma redeem_ends clock iid bid rd steps stage db :
  stage_left stage <= steps -> exists db' r, redeem_run steps clock iid bid rd stage db = (db', Finished r).
Proof.
  revert stage db. induction steps as [|n IH]; intros stage db Hle; cbn [redeem_run].
  - destruct stage; simpl in Hle; try lia. eauto.
  - destruct (redeem_step clock iid bid rd stage db) as [db1 st1] eqn:E. apply IH.
    destruct (decide (stage_left stage = 0)) as [H0|H0].
    + destruct stage; simpl in H0; try lia. injection E as <- <-. simpl. lia.
    + pose proof (redeem_step_left clock iid bid rd stage db H0) as Hl. rewrite E in Hl. simpl in Hl. lia.
Qed.

End Codes.

(** ** Codes in use

    Calls of any users, their statements interleaved in any order; a call may stop
    after any statement.  The ghosts record the ids drawn with their bot and account,
    the redemptions that succeeded with the code's id, and per account and Telegram
    user, since the last success: the wrong guesses recorded and when the lock was set
    last.  [b_admitted] are the lock checks passed: for whom, when, and when the lock
    then in force had been set. *)

Notation UserKey := (string * string)%type.

Record BSys := MkBSys {
  b_db : BindDB;
  b_tasks : list (Redemption * Stage);
  b_drawn : list (string * string * string);
  b_oks : list (string * Redemption);
  b_wrong : gmap UserKey nat;
  b_locks : gmap UserKey Z;
  b_admitted : list (UserKey * Z * option Z);
}.

Definition key_of (rd : Redemption) : UserKey := (rd_account rd, rd_user rd).

Section Use.
Context (bind_code_hmac : string -> string) (to_uppercase : string -> string) (now_text : Z -> string).

Notation step := (redeem_step bind_code_hmac to_uppercase now_text).

(** What the ghosts make of a statement of [rd] that goes from [stage] to [stage']. *)
Definition observe (clock : Z) (rd : Redemption) (stage stage' : Stage) (db' : BindDB) (tasks : list (Redemption * Stage))
    (s : BSys) : BSys :=
  let key := key_of rd in
  let s' oks wrong locks admitted := MkBSys db' tasks (b_drawn s) oks wrong locks admitted in
  match stage, stage' with
  | CheckLock, SelectCode _ =>
      s' (b_oks s) (b_wrong s) (b_locks s) ((key, clock, b_locks s !! key) :: b_admitted s)
  | InsertFailure _, _ =>
      s' (b_oks s) (<[key := S (default 0 (b_wrong s !! key))]> (b_wrong s)) (b_locks s) (b_admitted s)
  | SetLock _, _ =>
      s' (b_oks s) (b_wrong s)
        (match bind_attempts (b_db s) !! key with Some _ => <[key := clock]> (b_locks s) | None => b_locks s end)
        (b_admitted s)
  | Transaction plan, Finished (Ok answer) =>
      if answer =?= "ok"
      then s' ((bp_code plan, rd) :: b_oks s) (delete key (b_wrong s)) (delete key (b_locks s)) (b_admitted s)
      else s' (b_oks s) (b_wrong s) (b_locks s) (b_admitted s)
  | _, _ => s' (b_oks s) (b_wrong s) (b_locks s) (b_admitted s)
  end.

Inductive bind_step : BSys -> BSys -> Prop :=
| bind_revoke bot s :
    bind_step s (MkBSys (set_codes (revoke_unused bot) (b_db s)) (b_tasks s) (b_drawn s) (b_oks s) (b_wrong s)
                   (b_locks s) (b_admitted s))
| bind_draw now expires_at id code bot account s :
    id ∉ (λ d : string * string * string, d.1.1) <$> b_drawn s ->
    bind_step s (MkBSys (insert_code bind_code_hmac now expires_at id code bot account (b_db s)).1 (b_tasks s)
                   ((id, bot, account) :: b_drawn s) (b_oks s) (b_wrong s) (b_locks s) (b_admitted s))
| bind_begin rd s :
    bind_step s (MkBSys (b_db s) ((rd, CheckLock) :: b_tasks s) (b_drawn s) (b_oks s) (b_wrong s) (b_locks s) (b_admitted s))
| bind_statement clock iid bid rd stage db' stage' before after s :
    b_tasks s = before ++ (rd, stage) :: after ->
    step clock iid bid rd stage (b_db s) = (db', stage') ->
    bind_step s (observe clock rd stage stage' db' (before ++ (rd, stage') :: after) s).

Definition bind_init (workspaces : gmap string string) (accounts : gset string) : BSys :=
  MkBSys (MkBindDB ∅ ∅ ∅ ∅ workspaces accounts) [] [] [] ∅ ∅ [].

(** The code a call has in hand. *)
Definition stage_code (stage : Stage) : option string :=
  match stage with
  | SelectHmac _ id _ | DeleteExpired id | SelectIdentity id | SelectBot id _ => Some id
  | Transaction plan => Some (bp_code plan)
  | _ => None
  end.

(** A call that is about to find out whether to lock, or to do so. *)
Definition is_recording (stage : Stage) : Prop :=
  match stage with SelectFailures _ | SetLock _ => True | _ => False end.

Definition recording (s : BSys) (key : UserKey) : Prop :=
  exists rd stage, (rd, stage) ∈ b_tasks s /\ key_of rd = key /\ is_recording stage.

(** What the attempts table says of a user: the wrong guesses counted, the lock set
    last, and once ten are counted a lock or a call that is to find it out. *)
Record user_ok (s : BSys) (key : UserKey) : Prop := {
  uo_failures : ba_failures <$> bind_attempts (b_db s) !! key = Z.of_nat <$> b_wrong s !! key;
  uo_locked : (bind_attempts (b_db s) !! key ≫= ba_locked_until)
              = (λ l, now_text (l + 15 * 60 * 1000)%Z) <$> b_locks s !! key;
  uo_ten : 10 <= default 0 (b_wrong s !! key) -> is_Some (b_locks s !! key) \/ recording s key;
}.

(** A lock check passed comes no earlier, as a text, than fifteen minutes after the
    lock then in force was set. *)
Definition admitted_late (a : UserKey * Z * option Z) : Prop :=
  forall l, a.2 = Some l -> text_lt (now_text a.1.2) (now_text (l + 15 * 60 * 1000)) = false.

Record bind_ok (s : BSys) : Prop := {
  bo_rows : forall id r, bind_codes (b_db s) !! id = Some r -> (id, bc_bot_id r, bc_target_account_id r) ∈ b_drawn s;
  bo_tasks : forall rd stage id, (rd, stage) ∈ b_tasks s -> stage_code stage = Some id ->
             (id, rd_bot rd, rd_account rd) ∈ b_drawn s;
  bo_oks : NoDup (fst <$> b_oks s);
  bo_fit : forall id rd, (id, rd) ∈ b_oks s -> (id, rd_bot rd, rd_account rd) ∈ b_drawn s;
  bo_used : forall id r, id ∈ fst <$> b_oks s -> bind_codes (b_db s) !! id = Some r -> bc_consumed_at r <> None;
  bo_drawn : NoDup ((λ d : string * string * string, d.1.1) <$> b_drawn s);
  bo_users : forall key, user_ok s key;
  bo_admitted : Forall admitted_late (b_admitted s);
}.

(** *** The statements *)

Lemma open_code_Some bot account db id r :
  open_code bot account db = Some (id, r) ->
  bind_codes db !! id = Some r /\ bc_bot_id r = bot /\ bc_target_account_id r = account /\ bc_consumed_at r = None.
Proof.
  unfold open_code. intros Hh%head_Some_elem_of%sort_by_elem%list_elem_of_filter.
  destruct Hh as [(? & ? & ?) Hin%elem_of_map_to_list]. done.
Qed.

(** Rows keep their bot and account, and a consumed one is not opened again. *)
Definition codes_kept (db db' : BindDB) : Prop :=
  forall id r', bind_codes db' !! id = Some r' ->
  exists r, bind_codes db !! id = Some r /\ bc_bot_id r' = bc_bot_id r
            /\ bc_target_account_id r' = bc_target_account_id r
            /\ (bc_consumed_at r <> None -> bc_consumed_at r' <> None).

Lemma kept_same db db' : bind_codes db' = bind_codes db -> codes_kept db db'.
Proof. intros He id r'. rewrite He. eauto. Qed.

Lemma redeem_commit_spec now iid bid bot account user plan db db' res :
  redeem_commit now iid bid bot account user plan db = (db', res) ->
  (res <> Ok "ok" /\ db' = db)
  \/ (res = Ok "ok" /\ bind_attempts db' = delete (account, user) (bind_attempts db)
      /\ exists r r', bind_codes db !! bp_code plan = Some r /\ bc_consumed_at r = None
           /\ bc_bot_id r' = bc_bot_id r /\ bc_target_account_id r' = bc_target_account_id r
           /\ bc_consumed_at r' = Some now /\ bind_codes db' = <[bp_code plan := r']> (bind_codes db)).
Proof.
  unfold redeem_commit. destruct (bind_codes db !! bp_code plan) as [[b a h e [c0|] c]|] eqn:Er.
  1,3: intros [= <- <-]; by left.
  destruct (bp_identity plan) as [i|]; [| destruct (_ || _); [intros [= <- <-]; by left |]]; cbv zeta; cbn [negb];
    (destruct (_ && _); [intros [= <- <-]; by left |]); intros [= <- <-]; right; (split; [done |]);
    (split; [by destruct (existsb _ _) |]); eexists _, (MkBindCodeRow b a h e (Some now) c);
    repeat (split; [reflexivity |]); by destruct (existsb _ _).
Qed.

Lemma step_codes clock iid bid rd stage db db' stage' :
  step clock iid bid rd stage db = (db', stage') -> codes_kept db db'.
Proof.
  destruct stage; simpl; try (intros [= <- <-]; by apply kept_same).
  - intros [= <- <-] i r' Hr'. cbn in Hr'. apply lookup_delete_Some in Hr' as [_ ?]. eauto.
  - destruct (redeem_commit _ _ _ _ _ _ _ _) as [db1 res] eqn:E. intros [= <- <-].
    apply redeem_commit_spec in E as [[_ ->] | (_ & _ & r & r' & Hr & Hn & Hb & Ha & Hc & He)]; [by apply kept_same |].
    intros i q. rewrite He. intros [[<- <-] | [_ Hq]]%lookup_insert_Some; [| eauto].
    exists r. rewrite Hc. done.
Qed.

Lemma step_hand clock iid bid rd stage db db' stage' id :
  step clock iid bid rd stage db = (db', stage') -> stage_code stage' = Some id ->
  stage_code stage = Some id
  \/ exists r, bind_codes db !! id = Some r /\ bc_bot_id r = rd_bot rd /\ bc_target_account_id r = rd_account rd.
Proof.
  destruct stage; simpl; try (intros [= <- <-]; by auto).
  - destruct (is_locked _ _ _ _); by intros [= <- <-].
  - destruct (open_code _ _ _) as [[i r]|] eqn:E; intros [= <- <-]; simpl; [| done].
    intros [= <-]. apply open_code_Some in E as (? & ? & ? & _). eauto.
  - destruct (bind_codes _ !! _); [destruct (negb _); [| destruct (text_le _ _)] |]; intros [= <- <-]; simpl; first [done | auto].
  - destruct (match identity_of _ _ with Some _ => _ | None => _ end); intros [= <- <-]; simpl; first [done | auto].
  - destruct (bot_workspaces _ !! _); intros [= <- <-]; simpl; first [done | auto].
  - destruct (redeem_commit _ _ _ _ _ _ _ _). by intros [= <- <-].
  - destruct (failures_of _ _ _); [destruct (10 <=? _)%Z |]; by intros [= <- <-].
Qed.

Definition counts (stage : Stage) : bool :=
  match stage with Transaction _ | InsertFailure _ | SelectFailures _ | SetLock _ => true | _ => false end.

(** Only these statements touch a user's attempts, and only the caller's. *)
Lemma step_attempts clock iid bid rd stage db db' stage' key :
  step clock iid bid rd stage db = (db', stage') ->
  key <> key_of rd \/ counts stage = false ->
  bind_attempts db' !! key = bind_attempts db !! key.
Proof.
  unfold key_of. intros Hs Hk. destruct stage; simpl in Hs; try (injection Hs as <- <-; done).
  - destruct (redeem_commit _ _ _ _ _ _ _ _) as [db1 res] eqn:E. injection Hs as <- <-.
    apply redeem_commit_spec in E as [[_ ->] | (_ & -> & _)]; [done |]. destruct Hk; [| done]. by rewrite lookup_delete_ne.
  - injection Hs as <- <-. destruct Hk; [| done]. cbn. by rewrite lookup_insert_ne.
  - injection Hs as <- <-. destruct Hk; [| done]. cbn. by rewrite lookup_alter_ne.
Qed.

(** *** What is observed of them *)

Lemma observe_frame clock rd stage stage' db' tasks s :
  let s' := observe clock rd stage stage' db' tasks s in
  b_db s' = db' /\ b_tasks s' = tasks /\ b_drawn s' = b_drawn s.
Proof. unfold observe. by repeat case_match. Qed.

Lemma observe_oks clock rd stage stage' db' tasks s :
  b_oks (observe clock rd stage stage' db' tasks s) = b_oks s
  \/ exists plan, stage = Transaction plan /\ stage' = Finished (Ok "ok")
       /\ b_oks (observe clock rd stage stage' db' tasks s) = (bp_code plan, rd) :: b_oks s.
Proof.
  unfold observe. repeat case_match; subst; try by left.
  right. rewrite bool_decide_eq_true in *. subst. eauto.
Qed.

Lemma observe_other clock rd stage stage' db' tasks s key :
  key <> key_of rd ->
  let s' := observe clock rd stage stage' db' tasks s in
  b_wrong s' !! key = b_wrong s !! key /\ b_locks s' !! key = b_locks s !! key.
Proof.
  intros Hk. unfold observe. cbv zeta.
  repeat case_match; cbn [b_wrong b_locks]; split; try done;
    try (by rewrite lookup_insert_ne); by rewrite lookup_delete_ne.
Qed.

Lemma observe_admitted clock rd stage stage' db' tasks s :
  b_admitted (observe clock rd stage stage' db' tasks s) = b_admitted s
  \/ (stage = CheckLock /\ (exists hmac, stage' = SelectCode hmac)
      /\ b_admitted (observe clock rd stage stage' db' tasks s)
         = (key_of rd, clock, b_locks s !! key_of rd) :: b_admitted s).
Proof. unfold observe. repeat case_match; subst; eauto 10. Qed.

(** *** The attempts of a user *)

Lemma recording_other before after rd stage stage' s s' key :
  b_tasks s = before ++ (rd, stage) :: after -> b_tasks s' = before ++ (rd, stage') :: after ->
  key <> key_of rd \/ ~ is_recording stage -> recording s key -> recording s' key.
Proof.
  intros Ht Ht' Hk (rd0 & st0 & Hin & Hkey & Hrec). exists rd0, st0. split; [| done].
  rewrite Ht in Hin. rewrite Ht'. apply elem_of_app in Hin as [Hin | [[= -> ->] | Hin]%elem_of_cons].
  - apply elem_of_app. by left.
  - destruct Hk; [by subst key | done].
  - apply elem_of_app. right. by right.
Qed.

(** A statement of another user, or one that does not touch the attempts. *)
Lemma user_kept s s' key before after rd stage stage' :
  user_ok s key ->
  b_tasks s = before ++ (rd, stage) :: after -> b_tasks s' = before ++ (rd, stage') :: after ->
  key <> key_of rd \/ ~ is_recording stage ->
  bind_attempts (b_db s') !! key = bind_attempts (b_db s) !! key ->
  b_wrong s' !! key = b_wrong s !! key -> b_locks s' !! key = b_locks s !! key ->
  user_ok s' key.
Proof.
  intros [Hf Hl Ht] H1 H2 Hk Ha Hw Hlk. split; rewrite ?Ha, ?Hw, ?Hlk; [done | done |].
  intros H10. destruct (Ht H10); [by left | right]. eauto using recording_other.
Qed.

Lemma task_recording before after rd stage s :
  b_tasks s = before ++ (rd, stage) :: after -> is_recording stage -> recording s (key_of rd).
Proof.
  intros Ht Hr. exists rd, stage. split; [| done]. rewrite Ht. apply elem_of_app. right. by left.
Qed.

Lemma quiet_not_recording stage : counts stage = false -> ~ is_recording stage.
Proof. destruct stage; simpl; auto; discriminate. Qed.

(** The statements that do, for the caller. *)
Lemma user_transaction clock rd plan db' res tasks iid bid s :
  user_ok s (key_of rd) ->
  redeem_commit (now_text clock) iid bid (rd_bot rd) (rd_account rd) (rd_user rd) plan (b_db s) = (db', res) ->
  (res = Ok "ok" /\ user_ok (observe clock rd (Transaction plan) (Finished res) db' tasks s) (key_of rd))
  \/ (res <> Ok "ok" /\ db' = b_db s).
Proof.
  intros Hu [[? ->] | (-> & Ha & _)]%redeem_commit_spec; [by right | left]. split; [done |].
  unfold observe. rewrite bool_decide_eq_true_2 by done. cbv zeta.
  split; cbn [b_db b_wrong b_locks b_tasks]; rewrite ?Ha, ?lookup_delete_eq; try done. cbn. lia.
Qed.

Lemma user_failure now rd answer s db' tasks clock stage' :
  user_ok s (key_of rd) -> db' = insert_failure now (rd_account rd) (rd_user rd) (b_db s) ->
  let s' := observe clock rd (InsertFailure answer) stage' db' tasks s in
  (ba_failures <$> bind_attempts db' !! key_of rd) = Z.of_nat <$> b_wrong s' !! key_of rd
  /\ (bind_attempts db' !! key_of rd ≫= ba_locked_until)
     = (λ l, now_text (l + 15 * 60 * 1000)%Z) <$> b_locks s' !! key_of rd.
Proof.
  intros [Hf Hl _] ->. unfold observe, insert_failure, key_of in *. cbv zeta.
  cbn [b_wrong b_locks bind_attempts set_attempts]. rewrite !lookup_insert_eq, <- Hl.
  destruct (bind_attempts (b_db s) !! _) as [r|], (b_wrong s !! _) as [n|]; try discriminate; cbn in *; [| done].
  injection Hf as Hf. split; [| done]. f_equal. lia.
Qed.

Lemma user_locked clock rd answer s stage' tasks :
  user_ok s (key_of rd) ->
  user_ok (observe clock rd (SetLock answer) stage'
    (set_lock (now_text (clock + LOCK_MS)) (rd_account rd) (rd_user rd) (b_db s)) tasks s) (key_of rd).
Proof.
  intros [Hf Hl _]. unfold observe, set_lock, key_of in *. cbv zeta.
  split; cbn [b_wrong b_locks bind_attempts set_attempts b_db]; rewrite ?lookup_alter_eq.
  - rewrite <- Hf. by destruct (bind_attempts (b_db s) !! _).
  - destruct (bind_attempts (b_db s) !! _) as [r|]; [rewrite lookup_insert_eq; reflexivity | exact Hl].
  - intros H10. left. destruct (bind_attempts (b_db s) !! _) as [r|]; [rewrite lookup_insert_eq; eauto |].
    destruct (b_wrong s !! _); [discriminate |]. cbn in H10. lia.
Qed.

Lemma user_self clock iid bid rd stage stage' db' before after s :
  user_ok s (key_of rd) -> b_tasks s = before ++ (rd, stage) :: after ->
  step clock iid bid rd stage (b_db s) = (db', stage') ->
  user_ok (observe clock rd stage stage' db' (before ++ (rd, stage') :: after) s) (key_of rd).
Proof.
  intros Hu Ht Hs.
  destruct (observe_frame clock rd stage stage' db' (before ++ (rd, stage') :: after) s) as (Hdb & Htk & _).
  destruct (counts stage) eqn:Hc.
  2:{ eapply user_kept; [done | done | done | right; by apply quiet_not_recording | | |];
        [rewrite Hdb; eapply step_attempts; eauto | |]; unfold observe; by repeat case_match. }
  destruct stage as [| | | | | | plan | answer | answer | answer |]; try discriminate; simpl in Hs.
  - destruct (redeem_commit _ _ _ _ _ _ _ _) as [db1 res] eqn:E. injection Hs as <- <-.
    eapply user_transaction in E as [[_ ?] | [Hne ->]]; [done | | done].
    eapply user_kept; [done | done | done | right; by intros ? | by rewrite Hdb | |];
      unfold observe; destruct res as [a|]; try done; by rewrite bool_decide_eq_false_2 by congruence.
  - injection Hs as <- <-. pose proof (user_failure (now_text clock) rd answer s _
      (before ++ (rd, SelectFailures answer) :: after) clock (SelectFailures answer) Hu eq_refl) as [Hf Hl].
    split; [by rewrite Hdb | by rewrite Hdb |]. intros _. right. by eapply task_recording.
  - injection Hs as <- <-. destruct Hu as [Hf Hl H10].
    split; [by rewrite Hdb | by rewrite Hdb |]. intros Hten. cbn in Hten.
    assert (Hw : failures_of (rd_account rd) (rd_user rd) (b_db s) = Z.of_nat <$> b_wrong s !! key_of rd) by exact Hf.
    right. eapply task_recording; [exact Htk |]. rewrite Hw.
    destruct (b_wrong s !! key_of rd) as [n|]; simpl in *; [| lia].
    by rewrite (proj2 (Z.leb_le 10 _)) by lia.
  - injection Hs as <- <-. by apply user_locked.
Qed.

(** *** The invariant is kept *)

Lemma codes_step s s' :
  bind_ok s -> codes_kept (b_db s) (b_db s') -> b_drawn s' = b_drawn s -> b_oks s' = b_oks s ->
  (forall id r, bind_codes (b_db s') !! id = Some r -> (id, bc_bot_id r, bc_target_account_id r) ∈ b_drawn s')
  /\ NoDup (fst <$> b_oks s')
  /\ (forall id rd, (id, rd) ∈ b_oks s' -> (id, rd_bot rd, rd_account rd) ∈ b_drawn s')
  /\ (forall id r, id ∈ fst <$> b_oks s' -> bind_codes (b_db s') !! id = Some r -> bc_consumed_at r <> None)
  /\ NoDup ((λ d : string * string * string, d.1.1) <$> b_drawn s').
Proof.
  intros [Hr _ Ho Hf Hu Hd _ _] Hk -> ->. split; [| split; [done |]; split; [done |]; split; [| done]].
  - intros id r' (r & Hrow & -> & -> & _)%Hk. by apply Hr.
  - intros id r' Hin (r & Hrow & _ & _ & Hc)%Hk. eauto.
Qed.

Lemma statement_ok clock iid bid rd stage db' stage' before after s :
  bind_ok s -> b_tasks s = before ++ (rd, stage) :: after ->
  step clock iid bid rd stage (b_db s) = (db', stage') ->
  bind_ok (observe clock rd stage stage' db' (before ++ (rd, stage') :: after) s).
Proof.
  intros Hok Ht Hs. pose proof (step_codes _ _ _ _ _ _ _ _ Hs) as Hk.
  assert (Hin : (rd, stage) ∈ b_tasks s) by (rewrite Ht; apply elem_of_app; right; by left).
  pose proof (observe_admitted clock rd stage stage' db' (before ++ (rd, stage') :: after) s) as Hadm.
  pose proof (observe_oks clock rd stage stage' db' (before ++ (rd, stage') :: after) s) as Hoks.
  destruct (observe_frame clock rd stage stage' db' (before ++ (rd, stage') :: after) s) as (Hdb & Htk & Hdr).
  assert (Husers : forall key, user_ok (observe clock rd stage stage' db' (before ++ (rd, stage') :: after) s) key).
  { intros key. destruct (decide (key = key_of rd)) as [-> | Hne]; [by eapply user_self; [apply Hok | |] |].
    destruct (observe_other clock rd stage stage' db' (before ++ (rd, stage') :: after) s key Hne) as [Hw Hl].
    eapply user_kept; [by apply Hok | done | done | by left | | done | done].
    rewrite Hdb. eapply step_attempts; [done | by left]. }
  set (s' := observe _ _ _ _ _ _ _) in *.
  assert (Htasks : forall rd0 st id, (rd0, st) ∈ b_tasks s' -> stage_code st = Some id ->
                   (id, rd_bot rd0, rd_account rd0) ∈ b_drawn s').
  { rewrite Htk, Hdr. intros rd0 st id [H | [[= -> ->] | H]%elem_of_cons]%elem_of_app Hc.
    - eapply bo_tasks; [done | | done]. rewrite Ht. apply elem_of_app. by left.
    - destruct (step_hand _ _ _ _ _ _ _ _ _ Hs Hc) as [? | (r & Hr & <- & <-)]; [by eapply bo_tasks | by apply bo_rows].
    - eapply bo_tasks; [done | | done]. rewrite Ht. apply elem_of_app. right. by right. }
  assert (Hadmitted : Forall admitted_late (b_admitted s')).
  { destruct Hadm as [-> | (-> & [hmac ->] & ->)]; [apply Hok |]. constructor; [| apply Hok].
    intros l Hl. cbn [fst snd] in *. simpl in Hs. unfold is_locked in Hs.
    destruct (bo_users _ Hok (key_of rd)) as [_ Hlk _]. rewrite Hl in Hlk. unfold key_of in Hlk.
    destruct (bind_attempts (b_db s) !! _) as [r|]; [| discriminate]. cbn [mbind option_bind] in Hlk.
    rewrite Hlk in Hs. cbn in Hs. by destruct (text_lt _ _). }
  destruct Hoks as [Ho | (plan & -> & -> & Ho)].
  - rewrite <- Hdb in Hk. destruct (codes_step s s' Hok Hk Hdr Ho) as (? & ? & ? & ? & ?). by split.
  - simpl in Hs. destruct (redeem_commit _ _ _ _ _ _ _ _) as [db1 res] eqn:E.
    injection Hs as -> ->. apply redeem_commit_spec in E as [[? _] | (_ & _ & r & r' & Hr & Hn & _ & _ & Hc & He)]; [done |].
    split; [| done | | | | rewrite Hdr; apply Hok | done | done]; rewrite ?Hdb, ?Hdr, ?Ho.
    + intros id q (q0 & Hq & -> & -> & _)%Hk. by apply Hok.
    + constructor; [| apply Hok]. intros Hi. by eapply (bo_used _ Hok) in Hr.
    + intros id rd0 [[= -> ->] | H]%elem_of_cons; [by eapply bo_tasks | by apply Hok].
    + intros id q Hi. rewrite He. intros [[<- <-] | [Hne Hq]]%lookup_insert_Some; [by rewrite Hc |].
      apply elem_of_cons in Hi as [-> | Hi]; [done |]. by eapply (bo_used _ Hok).
Qed.

(** A step that no redemption takes. *)
Lemma user_same s s' key :
  user_ok s key -> bind_attempts (b_db s') = bind_attempts (b_db s) -> b_wrong s' = b_wrong s -> b_locks s' = b_locks s ->
  (forall t, t ∈ b_tasks s -> t ∈ b_tasks s') -> user_ok s' key.
Proof.
  intros [Hf Hl Ht] Ha Hw Hk Htk. split; rewrite ?Ha, ?Hw, ?Hk; [done | done |].
  intros H10. destruct (Ht H10) as [? | (rd & st & ? & ?)]; [by left | right]. exists rd, st. auto.
Qed.

Lemma revoke_kept bot db : codes_kept db (set_codes (revoke_unused bot) db).
Proof. intros id r [Hr _]%map_lookup_filter_Some. eauto. Qed.

Lemma draw_ok now expires_at id code bot account s :
  bind_ok s -> id ∉ (λ d : string * string * string, d.1.1) <$> b_drawn s ->
  bind_ok (MkBSys (insert_code bind_code_hmac now expires_at id code bot account (b_db s)).1 (b_tasks s)
             ((id, bot, account) :: b_drawn s) (b_oks s) (b_wrong s) (b_locks s) (b_admitted s)).
Proof.
  intros [Hr Ht Ho Hf Hu Hd Hus Ha] Hfresh. unfold insert_code.
  assert (Hold : forall i b a, (i, b, a) ∈ b_drawn s -> i <> id).
  { intros i b a Hin ->. apply Hfresh, list_elem_of_fmap. by exists (id, b, a). }
  destruct (_ || _); split; cbn [b_db b_tasks b_drawn b_oks b_wrong b_locks b_admitted fst]; try done;
    try (by constructor); try (intros; apply elem_of_cons; right; eauto; fail);
    try (intros key; eapply user_same; [apply Hus | done..]).
  - intros i r Hi. cbn in Hi. apply elem_of_cons.
    apply lookup_insert_Some in Hi as [[<- <-] | [_ Hi]]; [by left | right; by apply Hr].
  - intros i r Hi. cbn. rewrite lookup_insert_ne; [by apply Hu |]. intros ->.
    apply list_elem_of_fmap in Hi as ([i2 rd] & -> & Hi). by eapply Hold; [apply Hf |].
Qed.

Lemma bind_ok_step s s' : bind_step s s' -> bind_ok s -> bind_ok s'.
Proof.
  intros Hstep Hok. destruct Hstep as [bot s | now expires_at id code bot account s Hf | rd s
    | clock iid bid rd stage db' stage' before after s Ht Hs].
  - destruct (codes_step s (MkBSys (set_codes (revoke_unused bot) (b_db s)) (b_tasks s) (b_drawn s) (b_oks s)
      (b_wrong s) (b_locks s) (b_admitted s)) Hok (revoke_kept _ _) eq_refl eq_refl) as (? & ? & ? & ? & ?).
    split; try done; try apply Hok. intros key. eapply user_same; [apply Hok | done..].
  - by apply draw_ok.
  - destruct Hok as [Hr Ht Ho Hf Hu Hd Hus Ha]. split; try done; cbn [b_tasks b_drawn].
    + intros rd0 st id [[= -> ->] | Hin]%elem_of_cons; [done | by eapply Ht].
    + intros key. eapply user_same; [apply Hus | done.. |]. intros t Hin. by right.
  - by eapply statement_ok.
Qed.

Lemma bind_ok_reach workspaces accounts s :
  rtc bind_step (bind_init workspaces accounts) s -> bind_ok s.
Proof.
  intros Hr. assert (Hi : bind_ok (bind_init workspaces accounts)).
  { split; cbn [bind_init b_db b_tasks b_drawn b_oks b_wrong b_locks b_admitted bind_codes].
    - intros id r. by rewrite lookup_empty.
    - by intros rd st id ?%elem_of_nil.
    - constructor.
    - by intros id rd ?%elem_of_nil.
    - by intros id r ?%elem_of_nil.
    - constructor.
    - intros key. split; cbn; rewrite !lookup_empty; try done. cbn. lia.
    - constructor. }
  revert Hi. induction Hr; [done |]. eauto using bind_ok_step.
Qed.

(** C37: a bind code works once and guessing it is slow.  However the statements of
    any number of calls interleave, no code binds twice, and a code binds only under
    the bot and for the account it was drawn for.  The failures on record of an account
    and Telegram user are the wrong guesses counted since their last success; once
    there are ten, the user has been locked out, or a call has still to read the count
    or set the lock (or was cut off before it did).  Once a user is locked out, a guess
    passes the lock check only at a time whose text does not come before that of fifteen
    minutes after the lock was set last.  Guesses of one user that run side by side can
    pass the check together before it is set. *)
Theorem bind_codes_are_safe workspaces accounts s :
  rtc bind_step (bind_init workspaces accounts) s ->
  NoDup (fst <$> b_oks s)
  /\ (forall id rd, (id, rd) ∈ b_oks s ->
        (id, rd_bot rd, rd_account rd) ∈ b_drawn s
        /\ forall bot account, (id, bot, account) ∈ b_drawn s -> bot = rd_bot rd /\ account = rd_account rd)
  /\ (forall key, (ba_failures <$> bind_attempts (b_db s) !! key) = Z.of_nat <$> b_wrong s !! key
        /\ (10 <= default 0 (b_wrong s !! key) -> is_Some (b_locks s !! key) \/ recording s key))
  /\ (forall key now locked, (key, now, Some locked) ∈ b_admitted s ->
        text_lt (now_text now) (now_text (locked + 15 * 60 * 1000)) = false).
Proof.
  intros Hok%bind_ok_reach. split; [apply Hok |]. split; [| split].
  - intros id rd Hin. pose proof (bo_fit _ Hok _ _ Hin) as Hd. split; [done |]. intros bot account Hin'.
    pose proof (bo_drawn _ Hok) as Hnd. apply list_elem_of_lookup in Hd as [i Hi], Hin' as [j Hj].
    assert (i = j) as <- by (eapply (NoDup_lookup _ i j id); [done | |]; by rewrite list_lookup_fmap, ?Hi, ?Hj).
    rewrite Hi in Hj. by injection Hj as <- <-.
  - intros key. destruct (bo_users _ Hok key). done.
  - intros key now locked Hin. by apply (proj1 (Forall_forall _ _) (bo_admitted _ Hok) _ Hin).
Qed.

(** *** Histories one can run *)

Inductive BindOp :=
| Draw (now expires_at id code bot account : string)
| Begin (rd : Redemption)
| Statement (clock : Z) (task : nat).

Definition bind_run (s : BSys) (op : BindOp) : BSys :=
  match op with
  | Draw now expires_at id code bot account =>
      if decide (id ∈ (λ d : string * string * string, d.1.1) <$> b_drawn s) then s
      else MkBSys (insert_code bind_code_hmac now expires_at id code bot account (b_db s)).1 (b_tasks s)
             ((id, bot, account) :: b_drawn s) (b_oks s) (b_wrong s) (b_locks s) (b_admitted s)
  | Begin rd =>
      MkBSys (b_db s) ((rd, CheckLock) :: b_tasks s) (b_drawn s) (b_oks s) (b_wrong s) (b_locks s) (b_admitted s)
  | Statement clock task =>
      match b_tasks s !! task with
      | None => s
      | Some (rd, stage) =>
          let '(db', stage') := step clock "i" "b" rd stage (b_db s) in
          observe clock rd stage stage' db' (take task (b_tasks s) ++ (rd, stage') :: drop (S task) (b_tasks s)) s
      end
  end.

Lemma bind_run_reaches ops s : rtc bind_step s (foldl bind_run s ops).
Proof.
  revert s. induction ops as [|op ops IH]; intros s; [apply rtc_refl |]. etrans; [| apply IH].
  destruct op as [? ? id ? ? ? | rd | clock task]; cbn [bind_run].
  - destruct (decide _); [apply rtc_refl | apply rtc_once; by constructor].
  - apply rtc_once. constructor.
  - destruct (b_tasks s !! task) as [[rd stage]|] eqn:Et; [| apply rtc_refl].
    destruct (step clock "i" "b" rd stage (b_db s)) as [db' stage'] eqn:Es.
    apply rtc_once. eapply bind_statement; [| exact Es]. symmetry. by apply take_drop_middle.
Qed.

End Use.

(** ** A code redeemed, and the same code sent again *)

Definition demo_hmac (code : string) : string := "h:" +:+ code.

(** Ten figures a time, so that the texts compare as the times do. *)
Definition demo_text (ms : Z) : string := pretty (1000000000 + ms)%Z.

Definition redeem_demo := redeem_bind_code demo_hmac id demo_text.

Example redeem_twice :
  let '(db, first) := redeem_demo 200 "i1" "b1" "bot" "acc" " ABC234" "user"
    (insert_code demo_hmac (demo_text 100) (demo_text 500) "c1" "ABC234" "bot" "acc"
       (MkBindDB ∅ ∅ ∅ ∅ {["bot" := "ws"]} {["acc"]})).1 in
  let '(db, second) := redeem_demo 300 "i2" "b2" "bot" "acc" "ABC234" "user" db in
  first = Ok "ok" /\ second = Ok "invalid"
  /\ telegram_bindings db !! "b1" = Some (MkBindingRow "bot" "i1" "ws" (demo_text 200) None).
Proof. vm_compute. auto. Qed.

(** ** Guesses, one after the other and side by side *)

Definition guess (code : string) : Redemption := MkRedemption "bot" "acc" code "user".

Definition demo_run (ops : list BindOp) : BSys :=
  foldl (bind_run demo_hmac id demo_text) (bind_init {["bot" := "ws"]} {["acc"]}) ops.

Definition draw_demo (id code : string) (ms : Z) : BindOp :=
  Draw (demo_text ms) (demo_text (ms + 5 * 60 * 1000)) id code "bot" "acc".

(** A guess run to its end. *)
Definition guessed (code : string) (ms : Z) : list BindOp := Begin (guess code) :: repeat (Statement ms 0) 7.

(** Nine wrong guesses; then two side by side, a wrong one and the right one.  The
    wrong one is the tenth and locks the user out; the right one had passed the check. *)
Definition side_by_side : list BindOp :=
  draw_demo "c1" "ABC234" 0 :: concat (repeat (guessed "NO" 10) 9)
    ++ [Begin (guess "NO"); Begin (guess "ABC234"); Statement 20 0; Statement 20 1]
    ++ repeat (Statement 20 1) 6 ++ repeat (Statement 30 0) 6.

Example lock_comes_too_late :
  let s := demo_run side_by_side in
  b_oks s = [("c1", guess "ABC234")]
  /\ b_tasks s !! 1 = Some (guess "NO", Finished (Ok "invalid"))
  /\ b_locks (demo_run (take (length side_by_side - 6) side_by_side)) !! ("acc", "user") = Some 20%Z.
Proof. vm_compute. auto. Qed.

(** Ten wrong guesses one after the other, one turned away five minutes later, and one
    let in when the fifteen minutes are over. *)
Definition in_turn : list BindOp :=
  draw_demo "c1" "ABC234" 0 :: concat (repeat (guessed "NO" 10) 10) ++ guessed "ABC234" 300010
    ++ draw_demo "c2" "DEF567" 900000 :: guessed "DEF567" 900010.

Lemma bind_codes_are_safe_witness :
  let s := demo_run in_turn in
  b_tasks s !! 1 = Some (guess "ABC234", Finished (Ok "rate_limited"))
  /\ ("c2", guess "DEF567") ∈ b_oks s /\ NoDup (fst <$> b_oks s)
  /\ (("acc", "user"), 900010%Z, Some 10%Z) ∈ b_admitted s
  /\ text_lt (demo_text 900010) (demo_text (10 + 15 * 60 * 1000)) = false.
Proof.
  destruct (bind_codes_are_safe demo_hmac id demo_text {["bot" := "ws"]} {["acc"]} (demo_run in_turn)
    (bind_run_reaches demo_hmac id demo_text in_turn _)) as (Honce & _ & _ & Hlate).
  assert (Ha : (("acc", "user"), 900010%Z, Some 10%Z) ∈ b_admitted (demo_run in_turn)).
  { apply list_elem_of_lookup. exists 0. vm_compute. reflexivity. }
  split; [vm_compute; reflexivity |]. split; [apply list_elem_of_lookup; exists 0; vm_compute; reflexivity |].
  split; [exact Honce |]. split; [exact Ha | exact (Hlate _ _ _ Ha)].
Defined.
