(* ===== verification/TelegramInbox.v ===== *)
(** * The durable Telegram inbox ([modules/telegram/mod.rs])

    Updates fetched from Telegram are stored before they are acknowledged, claimed
    one by one, and retried a bounded number of times.  This file models the
    tables [telegram_updates] and [telegram_bot_offsets], every statement on them,
    the recovery pass and the grouping of a batch by chat.  What processing an
    update does outside these tables is an input: it ends with a result, or the
    process crashes.  SHA-256, the JSON printer and parser and SQLite's
    [unixepoch] are parameters. *)

From S2P Require Import Prelude Text Errors StDomain OperationStore.
From Stdlib Require Import Lia.

(** ** Reading an update *)

Fixpoint digits_value (acc : Z) (s : string) : option Z :=
  match s with
  | EmptyString => Some acc
  | String a r =>
      if is_ascii_digit a then digits_value (10 * acc + (Z.of_N (byte_val a) - 48)) r else None
  end.

(** [Value::as_i64] on the printed form of a number. *)
Definition value_as_i64 (v : Value) : option Z :=
  match v with
  | JNumber (String a r) =>
      let parsed :=
        if a =?= Ascii.ascii_of_nat 45
        then (if r =?= "" then None else Z.opp <$> digits_value 0 r)
        else digits_value 0 (String a r) in
      match parsed with
      | Some z => if ((- 2 ^ 63 <=? z) && (z <? 2 ^ 63))%Z then Some z else None
      | None => None
      end
  | _ => None
  end.

(** [Value::pointer] along object members. *)
Fixpoint pointer (path : list string) (v : Value) : option Value :=
  match path with
  | [] => Some v
  | k :: path => match value_get v k with Some w => pointer path w | None => None end
  end.

(** [a.or_else(|| b)]. *)
Definition or_else {A} (a b : option A) : option A := match a with Some _ => a | None => b end.

Definition update_id_of (update : Value) : option Z :=
  match value_get update "update_id" with Some v => value_as_i64 v | None => None end.

Definition chat_id_of (update : Value) : option Z :=
  match or_else (pointer ["message"; "chat"; "id"] update)
          (pointer ["callback_query"; "message"; "chat"; "id"] update) with
  | Some v => value_as_i64 v
  | None => None
  end.

(** ** Tables *)

(** The CHECK constraint of the column [status]. *)
Inductive UpdateStatus : Set := Received | Processing | Processed | Failed.

#[export] Instance UpdateStatus_eq_dec : EqDecision UpdateStatus.
Proof. solve_decision. Defined.

Record UpdateRow := MkUpdateRow {
  u_raw_update_json : string;
  u_raw_update_sha256 : option string;
  u_status : UpdateStatus;
  u_attempt_count : Z;
  u_error_summary : option string;
  u_received_at : string;
  u_updated_at : string;
}.

Record OffsetRow := MkOffsetRow { o_next_offset : Z; o_updated_at : string }.

Record Inbox := MkInbox {
  telegram_updates : gmap (string * Z) UpdateRow;
  telegram_bot_offsets : gmap string OffsetRow;
  inbox_bots : gset string;  (* the keys of [telegram_bots] *)
}.

Definition set_updates (f : gmap (string * Z) UpdateRow -> gmap (string * Z) UpdateRow) (ib : Inbox)
  : Inbox := MkInbox (f (telegram_updates ib)) (telegram_bot_offsets ib) (inbox_bots ib).

Definition set_update_status (status : UpdateStatus) (now : string) (r : UpdateRow) : UpdateRow :=
  MkUpdateRow (u_raw_update_json r) (u_raw_update_sha256 r) status (u_attempt_count r)
    (u_error_summary r) (u_received_at r) now.

Definition set_update_error (code : string) (r : UpdateRow) : UpdateRow :=
  MkUpdateRow (u_raw_update_json r) (u_raw_update_sha256 r) (u_status r) (u_attempt_count r)
    (Some code) (u_received_at r) (u_updated_at r).

Definition set_update_attempts (n : Z) (r : UpdateRow) : UpdateRow :=
  MkUpdateRow (u_raw_update_json r) (u_raw_update_sha256 r) (u_status r) n
    (u_error_summary r) (u_received_at r) (u_updated_at r).

(** [status IN ('received', 'failed')]. *)
Definition is_waiting (r : UpdateRow) : bool :=
  match u_status r with Received | Failed => true | Processing | Processed => false end.

(** ** Storing updates *)

Section Storing.
Context (value_to_string : Value -> string) (sha256_hex : string -> string).

Definition reused_update : AppError :=
  conflict "TELEGRAM_UPDATE_IDENTITY_REUSED" "Telegram update identity was reused with a different body".
Definition negative_update : AppError :=
  bad_request "TELEGRAM_UPDATE_ID_INVALID" "Telegram update id must be non-negative".
Definition update_overflow : AppError :=
  bad_request "TELEGRAM_UPDATE_ID_INVALID" "Telegram update id overflow".

(** [update_id.checked_add(1)] on an [i64]. *)
Definition next_offset_of (update_id : Z) : option Z :=
  if (update_id + 1 <? 2 ^ 63)%Z then Some (update_id + 1)%Z else None.

Definition fresh_row (raw now : string) : UpdateRow :=
  MkUpdateRow raw (Some (sha256_hex raw)) Received 0 None now now.

(** The INSERT, with its foreign key. *)
Definition insert_update (now bot_id : string) (update_id : Z) (raw : string) (ib : Inbox)
  : result Inbox AppError :=
  if bool_decide (bot_id ∈ inbox_bots ib)
  then Ok (set_updates <[(bot_id, update_id) := fresh_row raw now]> ib)
  else Err database_error.

(** The upsert of the durable offset: it never goes back. *)
Definition upsert_offset (now bot_id : string) (offset : Z) (ib : Inbox) : result Inbox AppError :=
  if bool_decide (bot_id ∈ inbox_bots ib)
  then
    let value := match telegram_bot_offsets ib !! bot_id with
                 | Some r => Z.max (o_next_offset r) offset
                 | None => offset
                 end in
    Ok (MkInbox (telegram_updates ib) (<[bot_id := MkOffsetRow value now]> (telegram_bot_offsets ib))
          (inbox_bots ib))
  else Err database_error.

(** A stored update with another body or digest. *)
Definition same_body (r : UpdateRow) (raw : string) : bool :=
  (u_raw_update_json r =?= raw) && (u_raw_update_sha256 r =?= Some (sha256_hex raw)).

(** [TelegramModule::ingest_update]: one transaction, rolled back on every error. *)
Definition ingest_update (now bot_id : string) (update_id : Z) (raw : Value) (ib : Inbox)
  : Inbox * result bool AppError :=
  if (update_id <? 0)%Z then (ib, Err negative_update) else
  let raw_json := value_to_string raw in
  match telegram_updates ib !! (bot_id, update_id) with
  | Some r => if same_body r raw_json then (ib, Ok false) else (ib, Err reused_update)
  | None =>
      match (let? tx := insert_update now bot_id update_id raw_json ib in
             let? next := ok_or (next_offset_of update_id) update_overflow in
             upsert_offset now bot_id next tx) with
      | Ok tx => (tx, Ok true)
      | Err e => (ib, Err e)
      end
  end.

(** The [match existing] of [persist_update_batch]. *)
Definition persist_one (now bot_id : string) (update_id : Z) (update : Value) (tx : Inbox)
    (persisted : list (Z * Value)) : result (Inbox * list (Z * Value)) AppError :=
  let raw_json := value_to_string update in
  match telegram_updates tx !! (bot_id, update_id) with
  | Some r =>
      if negb (same_body r raw_json) then Err reused_update
      else Ok (tx, if is_waiting r then persisted ++ [(update_id, update)] else persisted)
  | None =>
      let? tx := insert_update now bot_id update_id raw_json tx in
      Ok (tx, persisted ++ [(update_id, update)])
  end.

(** The loop of [persist_update_batch] over the open transaction: the tables, the
    updates to process and the candidate offset. *)
Fixpoint persist_loop (now bot_id : string) (updates : list Value) (tx : Inbox)
    (persisted : list (Z * Value)) (candidate : Z)
  : result (Inbox * list (Z * Value) * Z) AppError :=
  match updates with
  | [] => Ok (tx, persisted, candidate)
  | update :: updates =>
      match update_id_of update with
      | None => persist_loop now bot_id updates tx persisted candidate
      | Some update_id =>
          if (update_id <? 0)%Z then Err negative_update else
          let? (tx, persisted) := persist_one now bot_id update_id update tx persisted in
          let? next := ok_or (next_offset_of update_id) update_overflow in
          persist_loop now bot_id updates tx persisted (Z.max candidate next)
      end
  end.

(** [persist_update_batch]: the tables and the poller's offset change only when
    everything was committed. *)
Definition persist_update_batch (now bot_id : string) (updates : list Value) (st : Inbox * Z)
  : (Inbox * Z) * result (list (Z * Value)) AppError :=
  let '(ib, offset) := st in
  match (let? (tx, persisted, candidate) := persist_loop now bot_id updates ib [] offset in
         let? tx := upsert_offset now bot_id candidate tx in
         Ok (tx, persisted, candidate)) with
  | Ok (tx, persisted, candidate) => ((tx, candidate), Ok persisted)
  | Err e => ((ib, offset), Err e)
  end.

(** The offset a poller starts from. *)
Definition initial_offset (bot_id : string) (ib : Inbox) : Z :=
  match telegram_bot_offsets ib !! bot_id with Some r => o_next_offset r | None => 0 end.

End Storing.

(** ** Processing updates *)

(** The claim at the head of [process_and_deliver]: [rows_affected() != 0]. *)
Definition claim_update (now bot_id : string) (update_id : Z) (ib : Inbox) : Inbox * bool :=
  match telegram_updates ib !! (bot_id, update_id) with
  | Some r =>
      if is_waiting r && (u_attempt_count r <? 3)%Z
      then (set_updates <[(bot_id, update_id) :=
              set_update_attempts (u_attempt_count r + 1) (set_update_status Processing now r)]> ib, true)
      else (ib, false)
  | None => (ib, false)
  end.

Definition mark_update_processed (now bot_id : string) (update_id : Z) (ib : Inbox) : Inbox :=
  set_updates (alter (set_update_status Processed now) (bot_id, update_id)) ib.

(** The UPDATE that records a failed attempt. *)
Definition fail_update (now bot_id : string) (update_id : Z) (code : string) (ib : Inbox) : Inbox :=
  set_updates (alter (λ r, set_update_error code (set_update_status Failed now r)) (bot_id, update_id)) ib.

(** The UPDATE that puts a row aside whose body does not parse. *)
Definition quarantine_update (now bot_id : string) (update_id : Z) (ib : Inbox) : Inbox :=
  set_updates (alter (λ r,
    if is_waiting r
    then set_update_attempts 3 (set_update_error "TELEGRAM_INBOX_JSON_INVALID" (set_update_status Failed now r))
    else r) (bot_id, update_id)) ib.

(** The reset at the head of [recover_startup_updates]. *)
Definition reset_processing (now bot_id : string) (ib : Inbox) : Inbox :=
  set_updates (map_imap (λ key r,
    Some (if (key.1 =?= bot_id) && (u_status r =?= Processing) then set_update_status Received now r else r))) ib.

(** [process_and_deliver]: claim the update; an update without a chat is done at
    once; otherwise [work], everything the function does outside the inbox, ends
    with success, after which the update is marked processed, or with an error.  The
    database takes every statement here; a claim it refuses ends in an error that is
    recorded without the claim, a step of the system below. *)
Definition process_and_deliver (now bot_id : string) (update_id : Z) (update : Value)
    (work : Z -> Value -> result unit string) (ib : Inbox) : Inbox * result unit string :=
  let '(ib, claimed) := claim_update now bot_id update_id ib in
  if negb claimed then (ib, Ok tt) else
  match chat_id_of update with
  | None => (mark_update_processed now bot_id update_id ib, Ok tt)
  | Some _ =>
      match work update_id update with
      | Ok _ => (mark_update_processed now bot_id update_id ib, Ok tt)
      | Err code => (ib, Err code)
      end
  end.

(** A task of a batch, or one row of the recovery: process, and record an error. *)
Definition attempt_update (now bot_id : string) (update_id : Z) (update : Value)
    (work : Z -> Value -> result unit string) (ib : Inbox) : Inbox :=
  match process_and_deliver now bot_id update_id update work ib with
  | (ib, Ok _) => ib
  | (ib, Err code) => fail_update now bot_id update_id code ib
  end.

Section Recovering.
Context (unixepoch : string -> option Z) (from_str : string -> option Value).

(** The WHERE clause of [pending_inbox_batch]. *)
Definition backoff (attempt_count : Z) : Z := if (attempt_count <=? 1)%Z then 2 else 4.

Definition is_due (now_unix : Z) (r : UpdateRow) : bool :=
  is_waiting r && (u_attempt_count r <? 3)%Z
  && ((u_attempt_count r =? 0)%Z
      || (default 0 (unixepoch (u_updated_at r)) + backoff (u_attempt_count r) <=? now_unix)%Z).

Definition id_le (a b : Z * string) : bool := (a.1 <=? b.1)%Z.

Definition due_rows (bot_id : string) (now_unix : Z) (ib : Inbox) : list (Z * string) :=
  omap (λ kr : (string * Z) * UpdateRow,
    if (kr.1.1 =?= bot_id) && is_due now_unix kr.2 then Some (kr.1.2, u_raw_update_json kr.2) else None)
    (map_to_list (telegram_updates ib)).

Definition pending_inbox_batch (bot_id : string) (now_unix : Z) (ib : Inbox) : list (Z * string) :=
  take 100 (sort_by id_le (due_rows bot_id now_unix ib)).

Definition ownership_lost : AppError :=
  conflict "POLLER_OWNERSHIP_LOST" "inbox recovery ownership is no longer valid".

(** The loop of [recover_pending_updates]; [valid] answers [guard.assert_valid]. *)
Fixpoint recover_rows (now bot_id : string) (valid : Z -> bool) (work : Z -> Value -> result unit string)
    (rows : list (Z * string)) (ib : Inbox) : Inbox * result unit AppError :=
  match rows with
  | [] => (ib, Ok tt)
  | (update_id, raw) :: rows =>
      if negb (valid update_id) then (ib, Err ownership_lost) else
      let ib := match from_str raw with
                | None => quarantine_update now bot_id update_id ib
                | Some update => attempt_update now bot_id update_id update work ib
                end in
      recover_rows now bot_id valid work rows ib
  end.

Definition recover_pending_updates (now : string) (now_unix : Z) (bot_id : string) (valid : Z -> bool)
    (work : Z -> Value -> result unit string) (ib : Inbox) : Inbox * result unit AppError :=
  recover_rows now bot_id valid work (pending_inbox_batch bot_id now_unix ib) ib.

Definition recover_startup_updates (now : string) (now_unix : Z) (bot_id : string) (valid : Z -> bool)
    (work : Z -> Value -> result unit string) (ib : Inbox) : Inbox * result unit AppError :=
  recover_pending_updates now now_unix bot_id valid work (reset_processing now bot_id ib).

End Recovering.

(** ** Grouping a batch by chat

    [poll_telegram_bot_at] runs one task per chat, each over its updates in the
    order of their ids. *)

Section Grouping.
Context (z_to_string : Z -> string).

Definition group_key (update_id : Z) (update : Value) : string :=
  match chat_id_of update with
  | Some chat_id => "chat:" +:+ z_to_string chat_id
  | None => "update:" +:+ z_to_string update_id
  end.

Definition push_group (m : gmap string (list (Z * Value))) (u : Z * Value) : gmap string (list (Z * Value)) :=
  <[group_key u.1 u.2 := default [] (m !! group_key u.1 u.2) ++ [u]]> m.

Definition update_le (a b : Z * Value) : bool := (a.1 <=? b.1)%Z.

Definition grouped (persisted : list (Z * Value)) : gmap string (list (Z * Value)) :=
  sort_by update_le <$> foldl push_group ∅ persisted.

End Grouping.

(** ** The inbox as a system

    Any number of tasks over the shared tables.  [s_flight] are the updates a task
    is processing, [s_pollers] the offset each running poller holds in memory;
    [s_attempts] and [s_done] record, for the theorems only, which updates were
    claimed and which were marked processed.  A crash forgets tasks and pollers.

    [sys_step] is the orderly operation: a poller starts when no task of its bot runs,
    and the claim statement fails only on a row that is still waiting.  Neither is
    enforced by the code.  [start_bot] looks for a running poller, awaits [getMe] and
    claims the numeric id of the token, so two overlapping starts of one bot whose token
    was changed in between both succeed; and the UPDATE that records an error has no
    condition on the row.  [any_step] adds both. *)

Record Sys := MkSys {
  s_inbox : Inbox;
  s_flight : list (string * Z);
  s_pollers : gmap string Z;
  s_attempts : list (string * Z);
  s_done : list (string * Z);
}.

(** One task that holds [key] ends. *)
Fixpoint remove_flight (key : string * Z) (flight : list (string * Z)) : list (string * Z) :=
  match flight with
  | [] => []
  | k :: flight => if decide (k = key) then flight else k :: remove_flight key flight
  end.

Section System.
Context (value_to_string : Value -> string) (sha256_hex : string -> string).

Inductive sys_step : Sys -> Sys -> Prop :=
| step_start now bot s :
    (forall id, (bot, id) ∉ s_flight s) ->
    sys_step s (MkSys (reset_processing now bot (s_inbox s)) (s_flight s)
                  (<[bot := initial_offset bot (s_inbox s)]> (s_pollers s)) (s_attempts s) (s_done s))
| step_poll now bot updates offset ib' offset' res s :
    s_pollers s !! bot = Some offset ->
    persist_update_batch value_to_string sha256_hex now bot updates (s_inbox s, offset) = ((ib', offset'), res) ->
    sys_step s (MkSys ib' (s_flight s) (<[bot := offset']> (s_pollers s)) (s_attempts s) (s_done s))
| step_ingest now bot id raw s :
    sys_step s (MkSys (ingest_update value_to_string sha256_hex now bot id raw (s_inbox s)).1
                  (s_flight s) (s_pollers s) (s_attempts s) (s_done s))
| step_claim now bot id ib' s :
    claim_update now bot id (s_inbox s) = (ib', true) ->
    sys_step s (MkSys ib' ((bot, id) :: s_flight s) (s_pollers s) ((bot, id) :: s_attempts s) (s_done s))
| step_done now bot id s :
    (bot, id) ∈ s_flight s ->
    sys_step s (MkSys (mark_update_processed now bot id (s_inbox s)) (remove_flight (bot, id) (s_flight s))
                  (s_pollers s) (s_attempts s) ((bot, id) :: s_done s))
| step_fail now bot id code s :
    (bot, id) ∈ s_flight s ->
    sys_step s (MkSys (fail_update now bot id code (s_inbox s)) (remove_flight (bot, id) (s_flight s))
                  (s_pollers s) (s_attempts s) (s_done s))
| step_lost bot id s :
    (bot, id) ∈ s_flight s ->
    sys_step s (MkSys (s_inbox s) (remove_flight (bot, id) (s_flight s))
                  (s_pollers s) (s_attempts s) (s_done s))
| step_quarantine now bot id s :
    sys_step s (MkSys (quarantine_update now bot id (s_inbox s)) (s_flight s)
                  (s_pollers s) (s_attempts s) (s_done s))
| step_unclaimed now bot id code s :
    (forall r, telegram_updates (s_inbox s) !! (bot, id) = Some r -> is_waiting r = true) ->
    sys_step s (MkSys (fail_update now bot id code (s_inbox s)) (s_flight s)
                  (s_pollers s) (s_attempts s) (s_done s))
| step_crash s : sys_step s (MkSys (s_inbox s) [] ∅ (s_attempts s) (s_done s)).

(** Everything the code allows: a start while tasks of the bot run, and the error of a
    failed claim statement recorded over whatever the row says. *)
Inductive any_step : Sys -> Sys -> Prop :=
| any_orderly s s' : sys_step s s' -> any_step s s'
| any_start now bot s :
    any_step s (MkSys (reset_processing now bot (s_inbox s)) (s_flight s)
                  (<[bot := initial_offset bot (s_inbox s)]> (s_pollers s)) (s_attempts s) (s_done s))
| any_unclaimed now bot id code s :
    any_step s (MkSys (fail_update now bot id code (s_inbox s)) (s_flight s)
                  (s_pollers s) (s_attempts s) (s_done s)).

(** The system before any update arrived. *)
Definition sys_init (bots : gset string) : Sys := MkSys (MkInbox ∅ ∅ bots) [] ∅ [] [].

(** *** The invariant *)

(** How often [key] occurs. *)
Definition times (key : string * Z) (l : list (string * Z)) : nat := length (filter (λ k, k = key) l).

Definition attempts_of (s : Sys) (key : string * Z) : nat := times key (s_attempts s).
#[global] Arguments times : simpl never.
#[global] Arguments attempts_of : simpl never.

(** What a row says of its update. *)
Record row_ok (s : Sys) (key : string * Z) (r : UpdateRow) : Prop := {
  ro_attempts : (Z.of_nat (attempts_of s key) <= u_attempt_count r <= 3)%Z;
  ro_flight : key ∈ s_flight s -> u_status r = Processing;
  ro_done : key ∈ s_done s <-> u_status r = Processed;
  ro_digest : u_raw_update_sha256 r = Some (sha256_hex (u_raw_update_json r));
  ro_offset : exists o, telegram_bot_offsets (s_inbox s) !! key.1 = Some o
                        /\ (0 <= key.2 < o_next_offset o)%Z;
}.

Record sys_ok (s : Sys) : Prop := {
  so_flight : NoDup (s_flight s);
  so_done : NoDup (s_done s);
  so_rows : forall key r, telegram_updates (s_inbox s) !! key = Some r -> row_ok s key r;
  so_known : forall key, key ∈ s_flight s \/ key ∈ s_done s \/ key ∈ s_attempts s ->
             is_Some (telegram_updates (s_inbox s) !! key);
}.

(** What holds of every history: a row counts its attempts, and a task that holds an
    update or has marked it processed claimed it. *)
Record any_ok (s : Sys) : Prop := {
  ao_rows : forall key r, telegram_updates (s_inbox s) !! key = Some r ->
    (Z.of_nat (attempts_of s key) <= u_attempt_count r <= 3)%Z
    /\ exists o, telegram_bot_offsets (s_inbox s) !! key.1 = Some o /\ (0 <= key.2 < o_next_offset o)%Z;
  ao_known : forall key, key ∈ s_attempts s -> is_Some (telegram_updates (s_inbox s) !! key);
  ao_held : forall key, times key (s_flight s) + times key (s_done s) <= attempts_of s key;
}.

End System.

(** *** Effects of the statements on one row *)

Lemma set_updates_lookup f ib : telegram_updates (set_updates f ib) = f (telegram_updates ib).
Proof. done. Qed.

Lemma times_cons (k key : string * Z) l : times key (k :: l) = (if decide (k = key) then 1 else 0) + times key l.
Proof. unfold times. rewrite filter_cons. by case_decide. Qed.

Lemma times_0 (key : string * Z) l : key ∉ l -> times key l = 0.
Proof.
  intros Hk. induction l as [|k l IH]; [done |]. rewrite times_cons. apply not_elem_of_cons in Hk as [Hk Hl].
  rewrite decide_False by congruence. by apply IH.
Qed.

Lemma remove_flight_subset key k fl : k ∈ remove_flight key fl -> k ∈ fl.
Proof.
  induction fl as [|x fl IH]; simpl; [done |]. case_decide; [by right |].
  rewrite !elem_of_cons. intros [?|?]; auto.
Qed.

Lemma remove_flight_elem key k fl : NoDup fl -> k ∈ remove_flight key fl <-> k <> key /\ k ∈ fl.
Proof.
  induction 1 as [|x fl Hx _ IH]; simpl; [rewrite elem_of_nil; naive_solver |].
  rewrite elem_of_cons. case_decide as Heq; [naive_solver |]. rewrite elem_of_cons, IH. naive_solver.
Qed.

Lemma remove_flight_nodup key fl : NoDup fl -> NoDup (remove_flight key fl).
Proof.
  induction 1 as [|x fl Hx Hnd IH]; simpl; [constructor |]. case_decide; [done |].
  constructor; [| done]. by intros ?%remove_flight_subset.
Qed.

Lemma times_remove key k fl :
  key ∈ fl -> times k fl = (if decide (key = k) then 1 else 0) + times k (remove_flight key fl).
Proof.
  induction fl as [|x fl IH]; [by intros ?%elem_of_nil |]. simpl. rewrite times_cons. destruct (decide (x = key)) as [-> | Hx].
  - done.
  - intros [Hk|Hk]%elem_of_cons; [congruence |]. rewrite times_cons, (IH Hk). lia.
Qed.

(** ** Storing a batch *)

Section Stored.
Context (value_to_string : Value -> string) (sha256_hex : string -> string).

(** [grows bot hi ib ib']: rows were added for [bot], with ids below [hi], and
    nothing else changed. *)
Record grows (bot : string) (hi : Z) (ib ib' : Inbox) : Prop := {
  gr_offsets : telegram_bot_offsets ib' = telegram_bot_offsets ib;
  gr_bots : inbox_bots ib' = inbox_bots ib;
  gr_kept : forall key r, telegram_updates ib !! key = Some r -> telegram_updates ib' !! key = Some r;
  gr_new : forall key r, telegram_updates ib' !! key = Some r ->
    telegram_updates ib !! key = Some r
    \/ (telegram_updates ib !! key = None /\ key.1 = bot /\ (0 <= key.2 < hi)%Z
        /\ exists raw now, r = fresh_row sha256_hex raw now);
}.

Lemma grows_refl bot hi ib : grows bot hi ib ib.
Proof. split; auto. Qed.

Lemma grows_trans bot lo hi a b c :
  grows bot lo a b -> grows bot hi b c -> (lo <= hi)%Z -> grows bot hi a c.
Proof.
  intros [Ho1 Hb1 Hk1 Hn1] [Ho2 Hb2 Hk2 Hn2] Hle. split; [congruence | congruence | auto |].
  intros key r Hr. destruct (Hn2 key r Hr) as [Hr' | (Hnone & Hbot & Hlt & Hraw)].
  - destruct (Hn1 key r Hr') as [? | (Hn & Hb & Hl & Hex)]; [by left | right]. repeat split; auto; lia.
  - right. split; [| done]. destruct (telegram_updates a !! key) eqn:E; [| done].
    by rewrite (Hk1 _ _ E) in Hnone.
Qed.

Lemma insert_update_grows now bot id raw ib ib' :
  telegram_updates ib !! (bot, id) = None -> (0 <= id)%Z ->
  insert_update sha256_hex now bot id raw ib = Ok ib' ->
  grows bot (id + 1) ib ib' /\ telegram_updates ib' !! (bot, id) = Some (fresh_row sha256_hex raw now).
Proof.
  intros Hnone Hid. unfold insert_update. case_bool_decide; [| done]. intros [= <-]. cbn.
  split; [| by rewrite lookup_insert_eq]. split; cbn; [done | done | |].
  - intros key r Hr. rewrite lookup_insert_ne; [done | congruence].
  - intros key r. destruct (decide (key = (bot, id))) as [-> | Hne].
    + rewrite lookup_insert_eq. intros [= <-]. right. cbn. repeat split; eauto; lia.
    + rewrite lookup_insert_ne by done. by left.
Qed.

(** The row of an update of the batch, afterwards. *)
Definition stored (bot : string) (ib : Inbox) (hi : Z) (u : Value) : Prop :=
  forall id, update_id_of u = Some id ->
  (0 <= id < hi)%Z /\
  exists r, telegram_updates ib !! (bot, id) = Some r
            /\ u_raw_update_json r = value_to_string u
            /\ u_raw_update_sha256 r = Some (sha256_hex (value_to_string u)).

Definition to_process (bot : string) (ib : Inbox) (u : Z * Value) : Prop :=
  update_id_of u.2 = Some u.1
  /\ exists r, telegram_updates ib !! (bot, u.1) = Some r /\ is_waiting r = true.

Lemma next_offset_of_Some id n : next_offset_of id = Some n -> n = (id + 1)%Z /\ (n < 2 ^ 63)%Z.
Proof. unfold next_offset_of. case_match; [| done]. intros [= <-]. lia. Qed.

Lemma persist_one_spec now bot id u tx persisted tx1 persisted1 :
  (0 <= id)%Z ->
  persist_one value_to_string sha256_hex now bot id u tx persisted = Ok (tx1, persisted1) ->
  grows bot (id + 1) tx tx1 /\
  exists r, telegram_updates tx1 !! (bot, id) = Some r
    /\ u_raw_update_json r = value_to_string u
    /\ u_raw_update_sha256 r = Some (sha256_hex (value_to_string u))
    /\ persisted1 = (if is_waiting r then persisted ++ [(id, u)] else persisted).
Proof.
  intros Hid. unfold persist_one. destruct (telegram_updates tx !! (bot, id)) as [r|] eqn:Er.
  - destruct (same_body sha256_hex r (value_to_string u)) eqn:Es; [| done]. cbn [negb]. intros [= <- <-].
    unfold same_body in Es. apply andb_true_iff in Es as [E1%bool_decide_eq_true_1 E2%bool_decide_eq_true_1].
    split; [apply grows_refl |]. by exists r.
  - destruct insert_update as [ib1|] eqn:Ei; [| done]. intros [= <- <-].
    destruct (insert_update_grows _ _ _ _ _ _ Er Hid Ei) as [Hg Hl]. split; [done |].
    eexists. split; [exact Hl |]. done.
Qed.

Lemma persist_loop_spec now bot updates tx persisted candidate tx' persisted' candidate' :
  persist_loop value_to_string sha256_hex now bot updates tx persisted candidate = Ok (tx', persisted', candidate') ->
  grows bot candidate' tx tx' /\ (candidate <= candidate')%Z
  /\ Forall (stored bot tx' candidate') updates
  /\ (candidate' = candidate \/ exists u id, u ∈ updates /\ update_id_of u = Some id /\ candidate' = (id + 1)%Z)
  /\ (forall u, u ∈ persisted' <-> u ∈ persisted \/ (u.2 ∈ updates /\ to_process bot tx' u)).
Proof.
  revert tx persisted candidate. induction updates as [|u updates IH]; intros tx persisted candidate; cbn [persist_loop].
  - intros [= <- <- <-]. split; [apply grows_refl |]. split; [lia |]. split; [done |]. split; [by left |].
    intros u. split; [by left | intros [? | [[]%elem_of_nil _]]; done].
  - destruct (update_id_of u) as [id|] eqn:Eid.
    2:{ intros H. destruct (IH _ _ _ H) as (Hg & Hle & Hst & Hc & Hp). split; [done |]. split; [done |].
        split; [constructor; [by intros id Hid; rewrite Eid in Hid | done] |]. split.
        - destruct Hc as [? | (v & i & Hv & ?)]; [by left | right]. exists v, i. split; [by right | done].
        - intros v. rewrite Hp. split; (intros [? | [Hv Ht]]; [by left | right]); split; auto; [by right |].
          apply elem_of_cons in Hv as [Hv | ?]; [| done]. destruct Ht as [Ht _]. congruence. }
    destruct (id <? 0)%Z eqn:Eneg; [done |]. apply Z.ltb_ge in Eneg.
    destruct persist_one as [[tx1 persisted1]|] eqn:E1; [| done].
    destruct (persist_one_spec _ _ _ _ _ _ _ _ Eneg E1) as (Hg1 & r & Hr & Hraw & Hsha & Hper).
    destruct (next_offset_of id) as [n|] eqn:En; cbn [ok_or]; [| done].
    apply next_offset_of_Some in En as [-> _]. intros H.
    destruct (IH _ _ _ H) as (Hg & Hle & Hst & Hc & Hp).
    pose proof (gr_kept _ _ _ _ Hg _ _ Hr) as Hr'.
    split; [eapply grows_trans; [exact Hg1 | exact Hg | lia] |]. split; [lia |]. split.
    { constructor; [| done]. intros id' Hid'. assert (id' = id) as -> by congruence.
      split; [lia |]. by exists r. }
    split.
    { destruct Hc as [-> | (v & i & Hv & Hvi & ->)].
      - destruct (Z.max_spec candidate (id + 1)) as [[_ ->] | [_ ->]]; [right | by left].
        exists u, id. split; [by left | done].
      - right. exists v, i. split; [by right | done]. }
    intros v. rewrite Hp. subst persisted1. unfold to_process. split.
    + intros [Hv | [Hv Ht]]; [| right; split; [by right | done]].
      destruct (is_waiting r) eqn:Ew; [| by left]. apply elem_of_app in Hv as [? | ->%list_elem_of_singleton]; [by left |].
      right. cbn. split; [by left |]. eauto.
    + intros [Hv | [Hv Ht]]; [left; case_match; [apply elem_of_app; by left | done] |].
      apply elem_of_cons in Hv as [Hv | ?]; [| by right]. left. destruct v as [vi v]. cbn in Hv, Ht. subst v.
      destruct Ht as [Hi (r0 & Hr0 & Hw)]. assert (vi = id) as -> by congruence.
      assert (r0 = r) as -> by congruence. rewrite Hw. apply elem_of_app. right. by apply list_elem_of_singleton.
Qed.

Lemma upsert_offset_spec now bot offset ib ib' :
  upsert_offset now bot offset ib = Ok ib' ->
  telegram_updates ib' = telegram_updates ib /\ inbox_bots ib' = inbox_bots ib
  /\ (exists o, telegram_bot_offsets ib' !! bot = Some o /\ (offset <= o_next_offset o)%Z)
  /\ forall b o, telegram_bot_offsets ib !! b = Some o ->
       exists o', telegram_bot_offsets ib' !! b = Some o' /\ (o_next_offset o <= o_next_offset o')%Z.
Proof.
  unfold upsert_offset. case_bool_decide; [| done]. intros [= <-]. cbn.
  split; [done |]. split; [done |]. split.
  - rewrite lookup_insert_eq. eexists. split; [done |]. cbn. case_match; lia.
  - intros b o Hb. destruct (decide (b = bot)) as [-> | Hne].
    + rewrite lookup_insert_eq, Hb. eexists. split; [done |]. cbn. lia.
    + rewrite lookup_insert_ne by done. exists o. split; [done | lia].
Qed.

Lemma persist_keeps now bot updates ib offset ib' offset' res key r :
  persist_update_batch value_to_string sha256_hex now bot updates (ib, offset) = ((ib', offset'), res) ->
  telegram_updates ib !! key = Some r -> telegram_updates ib' !! key = Some r.
Proof.
  unfold persist_update_batch.
  destruct persist_loop as [[[tx persisted] candidate]|e] eqn:El; [| by intros [= <- <- <-]].
  destruct (upsert_offset now bot candidate tx) as [tx'|e] eqn:Eu; [| by intros [= <- <- <-]].
  intros [= <- <- <-]. destruct (persist_loop_spec _ _ _ _ _ _ _ _ _ El) as (Hg & _).
  destruct (upsert_offset_spec _ _ _ _ _ Eu) as (-> & _). apply Hg.
Qed.

(** A batch is stored before it is acknowledged, and as a whole.  When
    [persist_update_batch] fails, the tables and the poller's offset are as before,
    so Telegram sends the batch again.  When it succeeds, no stored row was
    touched, every update of the batch that has an id is stored with exactly its
    body and digest, the new offset lies above all of them and is no larger than
    the durable one, it is the old offset or the id after an update of the batch,
    and the updates handed on are those of the batch whose rows still wait. *)
Theorem batch_is_stored_before_acknowledged now bot updates ib offset ib' offset' res :
  persist_update_batch value_to_string sha256_hex now bot updates (ib, offset) = ((ib', offset'), res) ->
  match res with
  | Err _ => ib' = ib /\ offset' = offset
  | Ok persisted =>
      (forall key r, telegram_updates ib !! key = Some r -> telegram_updates ib' !! key = Some r)
      /\ (forall u, u ∈ updates -> stored bot ib' offset' u)
      /\ (exists o, telegram_bot_offsets ib' !! bot = Some o /\ (offset <= offset' <= o_next_offset o)%Z)
      /\ (offset' = offset \/ exists u id, u ∈ updates /\ update_id_of u = Some id /\ offset' = (id + 1)%Z)
      /\ (forall u, u ∈ persisted <-> u.2 ∈ updates /\ to_process bot ib' u)
  end.
Proof.
  unfold persist_update_batch.
  destruct persist_loop as [[[tx persisted] candidate]|e] eqn:El; [| by intros [= <- <- <-]].
  destruct (upsert_offset now bot candidate tx) as [tx'|e] eqn:Eu; [| by intros [= <- <- <-]].
  intros [= <- <- <-].
  destruct (persist_loop_spec _ _ _ _ _ _ _ _ _ El) as (Hg & Hle & Hst & Hc & Hp).
  destruct (upsert_offset_spec _ _ _ _ _ Eu) as (Hupd & _ & (o & Ho & Hlo) & _).
  unfold stored, to_process. rewrite Hupd. split; [apply Hg |]. split; [by rewrite Forall_forall in Hst |].
  split; [exists o; split; [done | lia] |]. split; [done |].
  intros u. rewrite Hp. split; [intros [[]%elem_of_nil | ?]; done | by right].
Qed.

End Stored.

(** *** The invariant is kept *)

Section Invariant.
Context (value_to_string : Value -> string) (sha256_hex : string -> string).

Notation sys_ok := (sys_ok sha256_hex).
Notation row_ok := (row_ok sha256_hex).

(** A row that no task holds and that is not done may wait or be retried. *)
Definition same_ghosts (s s' : Sys) : Prop :=
  s_flight s' = s_flight s /\ s_attempts s' = s_attempts s /\ s_done s' = s_done s.

(** Rows were added by storing an update; the tasks did not move. *)
Lemma ok_grow s ib' tx bot hi :
  sys_ok s -> grows sha256_hex bot hi (s_inbox s) tx ->
  telegram_updates ib' = telegram_updates tx ->
  (exists o, telegram_bot_offsets ib' !! bot = Some o /\ (hi <= o_next_offset o)%Z) ->
  (forall b o, telegram_bot_offsets (s_inbox s) !! b = Some o ->
     exists o', telegram_bot_offsets ib' !! b = Some o' /\ (o_next_offset o <= o_next_offset o')%Z) ->
  forall pollers, sys_ok (MkSys ib' (s_flight s) pollers (s_attempts s) (s_done s)).
Proof.
  intros [Hf Hd Hr Hk] [_ _ Hkept Hnew] Hupd (o & Ho & Hhi) Hmono pollers. split; cbn; [done | done | |].
  - rewrite Hupd. intros key r Hkey. destruct (Hnew key r Hkey) as [Hold | (Hnone & <- & Hid & raw & now & ->)].
    + destruct (Hr key r Hold) as [Ha Hfl Hdo Hdi (o1 & Ho1 & Hb)]. split; auto. cbn.
      destruct (Hmono _ _ Ho1) as (o2 & Ho2 & Hle). exists o2. split; [done | lia].
    + assert (Hun : key ∉ s_flight s /\ key ∉ s_done s /\ key ∉ s_attempts s).
      { repeat split; intros Hin; destruct (Hk key ltac:(auto)) as [? He]; congruence. }
      destruct Hun as (Hn1 & Hn2 & Hn3). split; cbn; [| done | | done | exists o; split; [done | lia]].
      * unfold attempts_of. rewrite times_0 by done. cbn. lia.
      * split; [done | by intros].
  - intros key Hin. rewrite Hupd. destruct (Hk key Hin) as [r Hr']. exists r. auto.
Qed.

(** One row changed. *)
Lemma ok_row s s' key r r' :
  sys_ok s -> telegram_updates (s_inbox s) !! key = Some r ->
  telegram_updates (s_inbox s') = <[key := r']> (telegram_updates (s_inbox s)) ->
  telegram_bot_offsets (s_inbox s') = telegram_bot_offsets (s_inbox s) ->
  NoDup (s_flight s') -> NoDup (s_done s') ->
  row_ok s' key r' ->
  (forall k, k <> key -> (k ∈ s_flight s' -> k ∈ s_flight s) /\ (k ∈ s_done s' <-> k ∈ s_done s)
                         /\ (k ∈ s_attempts s' -> k ∈ s_attempts s) /\ attempts_of s' k = attempts_of s k) ->
  sys_ok s'.
Proof.
  intros [Hf Hd Hr Hk] Hkey Hupd Hoff Hf' Hd' Hrow Hother. split; [done | done | |].
  - rewrite Hupd. intros k q Hq. destruct (decide (k = key)) as [-> | Hne].
    + rewrite lookup_insert_eq in Hq. by injection Hq as <-.
    + rewrite lookup_insert_ne in Hq by done. destruct (Hr k q Hq) as [Ha Hfl Hdo Hdi Ho].
      destruct (Hother k Hne) as (H1 & H2 & _ & H4). split; auto; [by rewrite H4 | by rewrite H2 | by rewrite Hoff].
  - rewrite Hupd. intros k Hin. destruct (decide (k = key)) as [-> | Hne]; [rewrite lookup_insert_eq; eauto |].
    rewrite lookup_insert_ne by done. destruct (Hother k Hne) as (H1 & H2 & H3 & _). apply Hk.
    destruct Hin as [? | [? | ?]]; [left | right; left | right; right]; [auto | by apply H2 | auto].
Qed.

Lemma alter_insert {A} (f : A -> A) (m : gmap (string * Z) A) k r :
  m !! k = Some r -> alter f k m = <[k := f r]> m.
Proof.
  intros Hk. apply map_eq. intros j. destruct (decide (j = k)) as [-> | Hne].
  - by rewrite lookup_alter_eq, lookup_insert_eq, Hk.
  - by rewrite lookup_alter_ne, lookup_insert_ne.
Qed.

Lemma alter_None {A} (f : A -> A) (m : gmap (string * Z) A) k : m !! k = None -> alter f k m = m.
Proof.
  intros Hk. apply map_eq. intros j. destruct (decide (j = k)) as [-> | Hne].
  - by rewrite lookup_alter_eq, Hk.
  - by rewrite lookup_alter_ne.
Qed.

Lemma attempts_of_cons s s' k key :
  s_attempts s' = k :: s_attempts s ->
  attempts_of s' key = (if decide (k = key) then 1 else 0) + attempts_of s key.
Proof. unfold attempts_of. intros ->. apply times_cons. Qed.

Lemma ok_claim s now bot id ib' :
  sys_ok s -> claim_update now bot id (s_inbox s) = (ib', true) ->
  sys_ok (MkSys ib' ((bot, id) :: s_flight s) (s_pollers s) ((bot, id) :: s_attempts s) (s_done s)).
Proof.
  intros Hok. unfold claim_update. destruct (telegram_updates (s_inbox s) !! (bot, id)) as [r|] eqn:Er; [| done].
  destruct (is_waiting r) eqn:Ew; [| done]. destruct (u_attempt_count r <? 3)%Z eqn:E3; [| done].
  cbn. intros [= <-]. apply Z.ltb_lt in E3. destruct (so_rows _ _ Hok _ _ Er) as [Ha Hfl Hdo Hdi Ho].
  assert (Hst : u_status r <> Processing /\ u_status r <> Processed).
  { unfold is_waiting in Ew. by destruct (u_status r). }
  destruct Hst as [Hn1 Hn2].
  eapply (ok_row s); [done | exact Er | done | done | | apply Hok | |]; cbn [s_flight s_done s_attempts].
  - constructor; [by intros ?%Hfl | apply Hok].
  - split; [| done | | done | done].
    + rewrite (attempts_of_cons s _ (bot, id)), decide_True by done.
      cbn [set_update_attempts u_attempt_count]. lia.
    + split; [intros ?%Hdo; done | done].
  - intros k Hne. rewrite (attempts_of_cons s _ (bot, id)) by done.
    rewrite (decide_False (P := (bot, id) = k)) by congruence. rewrite !elem_of_cons. repeat split; auto; intros [?|?]; done.
Qed.

(** A task that held [key] ends and leaves its row in [status]. *)
Lemma ok_end s bot id done' f :
  sys_ok s -> (bot, id) ∈ s_flight s ->
  (forall r, u_attempt_count (f r) = u_attempt_count r /\ u_raw_update_json (f r) = u_raw_update_json r
             /\ u_raw_update_sha256 (f r) = u_raw_update_sha256 r
             /\ ((bot, id) ∈ done' <-> u_status (f r) = Processed)) ->
  NoDup done' -> (forall k, k <> (bot, id) -> k ∈ done' <-> k ∈ s_done s) ->
  sys_ok (MkSys (set_updates (alter f (bot, id)) (s_inbox s)) (remove_flight (bot, id) (s_flight s))
            (s_pollers s) (s_attempts s) done').
Proof.
  intros Hok Hin Hf Hd Hother. destruct (so_known _ _ Hok (bot, id) ltac:(auto)) as [r Er].
  destruct (so_rows _ _ Hok _ _ Er) as [Ha Hfl Hdo Hdi Ho]. destruct (Hf r) as (Hf1 & Hf2 & Hf3 & Hf4).
  eapply (ok_row s); [done | exact Er | cbn; by apply alter_insert | done | | done | |]; cbn.
  - apply remove_flight_nodup, Hok.
  - split; cbn; [by rewrite Hf1 | | done | by rewrite Hf3, Hf2 | done].
    by intros [? _]%remove_flight_elem; [| apply Hok].
  - intros k Hne. split; [apply remove_flight_subset |]. split; [by apply Hother | done].
Qed.

Lemma reset_lookup now bot ib key :
  telegram_updates (reset_processing now bot ib) !! key =
  (λ r, if (key.1 =?= bot) && (u_status r =?= Processing) then set_update_status Received now r else r)
    <$> telegram_updates ib !! key.
Proof. cbn. rewrite map_lookup_imap. by destruct (telegram_updates ib !! key). Qed.

Lemma ok_start s now bot :
  sys_ok s -> (forall id, (bot, id) ∉ s_flight s) ->
  sys_ok (MkSys (reset_processing now bot (s_inbox s)) (s_flight s)
            (<[bot := initial_offset bot (s_inbox s)]> (s_pollers s)) (s_attempts s) (s_done s)).
Proof.
  intros [Hf Hd Hr Hk] Hfree. split; cbn [s_inbox s_flight s_done s_attempts]; [done | done | |].
  - intros key q. rewrite reset_lookup. intros (r & Er & ->)%fmap_Some. destruct (Hr key r Er) as [Ha Hfl Hdo Hdi Ho].
    destruct ((key.1 =?= bot) && (u_status r =?= Processing)) eqn:E; [| by split].
    apply andb_true_iff in E as [E1%bool_decide_eq_true_1 E2%bool_decide_eq_true_1].
    split; cbn; [done | | | done | done].
    + intros Hin. destruct key as [b i]. cbn in E1. subst b. by apply Hfree in Hin.
    + rewrite Hdo, E2. done.
  - intros key Hin. rewrite reset_lookup. apply fmap_is_Some. by apply Hk.
Qed.

Lemma ok_lost s bot id :
  sys_ok s ->
  sys_ok (MkSys (s_inbox s) (remove_flight (bot, id) (s_flight s)) (s_pollers s) (s_attempts s) (s_done s)).
Proof.
  intros [Hf Hd Hr Hk]. split; cbn; [by apply remove_flight_nodup | done | |].
  - intros key r Er. destruct (Hr key r Er) as [Ha Hfl Hdo Hdi Ho]. split; auto.
    cbn. intros ?%remove_flight_subset; auto.
  - intros key [Hin | Hin]; apply Hk; [left | by right]. by apply remove_flight_subset in Hin.
Qed.

Lemma ok_crash s : sys_ok s -> sys_ok (MkSys (s_inbox s) [] ∅ (s_attempts s) (s_done s)).
Proof.
  intros [Hf Hd Hr Hk]. split; cbn; [constructor | done | |].
  - intros key r Er. destruct (Hr key r Er) as [Ha Hfl Hdo Hdi Ho]. split; auto. cbn. by intros ?%elem_of_nil.
  - intros key [[]%elem_of_nil | Hin]; apply Hk; by right.
Qed.

Lemma ok_quarantine s now bot id :
  sys_ok s ->
  sys_ok (MkSys (quarantine_update now bot id (s_inbox s)) (s_flight s) (s_pollers s) (s_attempts s) (s_done s)).
Proof.
  intros Hok. unfold quarantine_update.
  destruct (telegram_updates (s_inbox s) !! (bot, id)) as [r|] eqn:Er.
  2:{ unfold set_updates. rewrite alter_None by done. destruct Hok as [Hf Hd Hr Hk]. split; [done | done | | done].
      intros key r Hkey. by destruct (Hr key r Hkey); split. }
  destruct (so_rows _ _ Hok _ _ Er) as [Ha Hfl Hdo Hdi Ho].
  eapply (ok_row s); [done | exact Er | cbn; by apply alter_insert | done | apply Hok | apply Hok | | done].
  cbn beta. destruct (is_waiting r) eqn:Ew; [| by split].
  unfold is_waiting in Ew. split; cbn; [unfold attempts_of in *; cbn in *; lia | | | done | done].
  - intros Hin. rewrite (Hfl Hin) in Ew. done.
  - split; [intros Hin; rewrite (proj1 Hdo Hin) in Ew; done | done].
Qed.

Lemma ok_unclaimed s now bot id code :
  sys_ok s -> (forall r, telegram_updates (s_inbox s) !! (bot, id) = Some r -> is_waiting r = true) ->
  sys_ok (MkSys (fail_update now bot id code (s_inbox s)) (s_flight s) (s_pollers s) (s_attempts s) (s_done s)).
Proof.
  intros Hok Hwait. unfold fail_update.
  destruct (telegram_updates (s_inbox s) !! (bot, id)) as [r|] eqn:Er.
  2:{ unfold set_updates. rewrite alter_None by done. destruct Hok as [Hf Hd Hr Hk]. split; [done | done | | done].
      intros key r Hkey. by destruct (Hr key r Hkey); split. }
  destruct (so_rows _ _ Hok _ _ Er) as [Ha Hfl Hdo Hdi Ho]. specialize (Hwait r eq_refl). unfold is_waiting in Hwait.
  eapply (ok_row s); [done | exact Er | cbn; by apply alter_insert | done | apply Hok | apply Hok | | done].
  split; cbn; [done | | | done | done].
  - intros Hin. by rewrite (Hfl Hin) in Hwait.
  - split; [intros Hin; by rewrite (proj1 Hdo Hin) in Hwait | done].
Qed.

Lemma ingest_grows now bot id raw ib :
  let ib' := (ingest_update value_to_string sha256_hex now bot id raw ib).1 in
  ib' = ib \/ exists tx, grows sha256_hex bot (id + 1) ib tx /\ upsert_offset now bot (id + 1) tx = Ok ib'.
Proof.
  unfold ingest_update. destruct (id <? 0)%Z eqn:E0; [by left |]. apply Z.ltb_ge in E0.
  destruct (telegram_updates ib !! (bot, id)) as [r|] eqn:Er; [case_match; by left |].
  destruct insert_update as [tx|] eqn:Ei; [| by left].
  destruct (next_offset_of id) as [n|] eqn:En; [| by left]. cbn [ok_or].
  apply next_offset_of_Some in En as [-> _].
  destruct (upsert_offset now bot (id + 1) tx) as [tx'|] eqn:Eu; [| by left]. right. exists tx.
  split; [| done]. by eapply insert_update_grows.
Qed.

Lemma ok_stored s now bot hi tx ib' pollers :
  sys_ok s -> grows sha256_hex bot hi (s_inbox s) tx -> upsert_offset now bot hi tx = Ok ib' ->
  sys_ok (MkSys ib' (s_flight s) pollers (s_attempts s) (s_done s)).
Proof.
  intros Hok Hg Hu. destruct (upsert_offset_spec _ _ _ _ _ Hu) as (Hupd & _ & Ho & Hmono).
  eapply ok_grow; eauto. intros b o Hb. apply Hmono. by rewrite (gr_offsets _ _ _ _ _ Hg).
Qed.

Lemma ok_pollers s pollers :
  sys_ok s -> sys_ok (MkSys (s_inbox s) (s_flight s) pollers (s_attempts s) (s_done s)).
Proof.
  intros [Hf Hd Hr Hk]. split; [done | done | | done].
  intros key r Hkey. by destruct (Hr key r Hkey); split.
Qed.

Lemma ok_poll s now bot updates offset ib' offset' res pollers :
  sys_ok s ->
  persist_update_batch value_to_string sha256_hex now bot updates (s_inbox s, offset) = ((ib', offset'), res) ->
  sys_ok (MkSys ib' (s_flight s) pollers (s_attempts s) (s_done s)).
Proof.
  intros Hok. unfold persist_update_batch.
  destruct persist_loop as [[[tx persisted] candidate]|e] eqn:El; [| intros [= <- <- <-]; by apply ok_pollers].
  destruct (upsert_offset now bot candidate tx) as [tx'|e] eqn:Eu; [| intros [= <- <- <-]; by apply ok_pollers].
  intros [= <- <- <-]. destruct (persist_loop_spec _ _ _ _ _ _ _ _ _ _ _ El) as (Hg & _).
  by eapply ok_stored.
Qed.

Lemma flight_not_done s key : sys_ok s -> key ∈ s_flight s -> key ∉ s_done s.
Proof.
  intros Hok Hin Hd. destruct (so_known _ _ Hok key ltac:(auto)) as [r Er].
  destruct (so_rows _ _ Hok _ _ Er) as [_ Hfl Hdo _ _]. apply Hdo in Hd. rewrite (Hfl Hin) in Hd. done.
Qed.

Lemma sys_ok_step s s' : sys_step value_to_string sha256_hex s s' -> sys_ok s -> sys_ok s'.
Proof.
  intros Hstep Hok.
  destruct Hstep as [now bot s Hfree | now bot updates offset ib' offset' res s Hp Hb | now bot id raw s
    | now bot id ib' s Hc | now bot id s Hin | now bot id code s Hin | bot id s Hin | now bot id s
    | now bot id code s Hwait | s].
  - by apply ok_start.
  - by eapply ok_poll.
  - destruct (ingest_grows now bot id raw (s_inbox s)) as [-> | (tx & Hg & Hu)]; [by apply ok_pollers |].
    by eapply ok_stored.
  - by eapply ok_claim.
  - apply ok_end; auto.
    + intros r. cbn. repeat split; auto. by rewrite elem_of_cons; left.
    + constructor; [by apply flight_not_done | apply Hok].
    + intros k Hk. rewrite elem_of_cons. split; [intros [?|?]; done | by right].
  - apply ok_end; auto; [| apply Hok].
    intros r. cbn. split; [done |]. split; [done |]. split; [done |]. split; [| done].
    intros Hd. by apply (flight_not_done s) in Hin.
  - by apply ok_lost.
  - by apply ok_quarantine.
  - by apply ok_unclaimed.
  - by apply ok_crash.
Qed.

Lemma sys_ok_init bots : sys_ok (sys_init bots).
Proof.
  split; cbn; [constructor | constructor | |].
  - intros key r. by rewrite lookup_empty.
  - intros key [?%elem_of_nil | [?%elem_of_nil | ?%elem_of_nil]]; done.
Qed.

Lemma sys_ok_steps s s' : rtc (sys_step value_to_string sha256_hex) s s' -> sys_ok s -> sys_ok s'.
Proof. induction 1; [done |]. intros Hok. eauto using sys_ok_step. Qed.

(** *** Every history *)

(** Rows changed without losing attempts; no task claimed. *)
Lemma any_rows s s' :
  any_ok s ->
  telegram_bot_offsets (s_inbox s') = telegram_bot_offsets (s_inbox s) -> s_attempts s' = s_attempts s ->
  (forall key, exists f, telegram_updates (s_inbox s') !! key = f <$> telegram_updates (s_inbox s) !! key
     /\ forall r, (u_attempt_count r <= 3 -> u_attempt_count r <= u_attempt_count (f r) <= 3)%Z) ->
  (forall key, times key (s_flight s') + times key (s_done s') <= times key (s_flight s) + times key (s_done s)) ->
  any_ok s'.
Proof.
  intros [Hr Hk Hh] Hoff Hatt Hf Hle.
  assert (Ha : forall key, attempts_of s' key = attempts_of s key) by (intros key; unfold attempts_of; by rewrite Hatt).
  split.
  - intros key r'. destruct (Hf key) as (f & -> & Hfr). intros (r & Er & ->)%fmap_Some.
    destruct (Hr key r Er) as [Hc Ho]. rewrite Ha, Hoff. specialize (Hfr r ltac:(lia)). split; [lia | done].
  - intros key. rewrite Hatt. intros Hin. destruct (Hf key) as (f & -> & _). apply fmap_is_Some. by apply Hk.
  - intros key. rewrite Ha. specialize (Hh key). specialize (Hle key). lia.
Qed.

(** One row is rewritten. *)
Lemma alter_rows (f : UpdateRow -> UpdateRow) k ib :
  (forall r, (u_attempt_count r <= 3 -> u_attempt_count r <= u_attempt_count (f r) <= 3)%Z) ->
  forall key, exists g, telegram_updates (set_updates (alter f k) ib) !! key = g <$> telegram_updates ib !! key
    /\ forall r, (u_attempt_count r <= 3 -> u_attempt_count r <= u_attempt_count (g r) <= 3)%Z.
Proof.
  intros Hf key. cbn. destruct (decide (key = k)) as [-> | Hne].
  - exists f. by rewrite lookup_alter_eq.
  - exists id. rewrite lookup_alter_ne by done. split; [by destruct (telegram_updates ib !! key) | simpl; lia].
Qed.

Lemma same_rows ib key : exists g, telegram_updates ib !! key = g <$> telegram_updates ib !! key
  /\ forall r : UpdateRow, (u_attempt_count r <= 3 -> u_attempt_count r <= u_attempt_count (g r) <= 3)%Z.
Proof. exists id. split; [by destruct (telegram_updates ib !! key) | simpl; lia]. Qed.

Lemma any_reset s now bot pollers :
  any_ok s -> any_ok (MkSys (reset_processing now bot (s_inbox s)) (s_flight s) pollers (s_attempts s) (s_done s)).
Proof.
  intros Hok. apply (any_rows s); [done | done | done | | done]. intros key. cbn [s_inbox]. rewrite reset_lookup.
  eexists. split; [reflexivity |]. intros r Hr. cbn beta. destruct (_ && _); cbn; lia.
Qed.

Lemma any_fail s now bot id code :
  any_ok s ->
  any_ok (MkSys (fail_update now bot id code (s_inbox s)) (s_flight s) (s_pollers s) (s_attempts s) (s_done s)).
Proof. intros Hok. apply (any_rows s); try done. apply alter_rows. intros r Hr. cbn. lia. Qed.

Lemma any_grow s ib' tx now bot hi pollers :
  any_ok s -> grows sha256_hex bot hi (s_inbox s) tx -> upsert_offset now bot hi tx = Ok ib' ->
  any_ok (MkSys ib' (s_flight s) pollers (s_attempts s) (s_done s)).
Proof.
  intros [Hr Hk Hh] Hg Hu. destruct (upsert_offset_spec _ _ _ _ _ Hu) as (Hupd & _ & (o & Ho & Hhi) & Hmono).
  destruct Hg as [Hoff _ Hkept Hnew]. split; cbn; [| | done].
  - rewrite Hupd. intros key r Hkey. destruct (Hnew key r Hkey) as [Hold | (Hnone & <- & Hid & raw & t & ->)].
    + destruct (Hr key r Hold) as [Ha (o1 & Ho1 & Hb)]. split; [done |]. rewrite <- Hoff in Ho1.
      destruct (Hmono _ _ Ho1) as (o2 & Ho2 & Hle). exists o2. split; [done | lia].
    + split; [| exists o; split; [done | lia]]. unfold attempts_of. rewrite times_0; [cbn; lia |].
      intros Hin. destruct (Hk key Hin) as [? He]. congruence.
  - intros key Hin. rewrite Hupd. destruct (Hk key Hin) as [r Er]. exists r. auto.
Qed.

Lemma any_pollers s pollers : any_ok s -> any_ok (MkSys (s_inbox s) (s_flight s) pollers (s_attempts s) (s_done s)).
Proof. intros Hok. apply (any_rows s); try done. apply same_rows. Qed.

Lemma any_claim s now bot id ib' :
  any_ok s -> claim_update now bot id (s_inbox s) = (ib', true) ->
  any_ok (MkSys ib' ((bot, id) :: s_flight s) (s_pollers s) ((bot, id) :: s_attempts s) (s_done s)).
Proof.
  intros [Hr Hk Hh]. unfold claim_update. destruct (telegram_updates (s_inbox s) !! (bot, id)) as [r|] eqn:Er; [| done].
  destruct (is_waiting r); [| done]. destruct (u_attempt_count r <? 3)%Z eqn:E3; [| done].
  cbn. intros [= <-]. apply Z.ltb_lt in E3. destruct (Hr _ _ Er) as [Ha Ho]. split; cbn.
  - intros key q. rewrite (attempts_of_cons s _ (bot, id)) by done. destruct (decide (key = (bot, id))) as [-> | Hne].
    + rewrite lookup_insert_eq, decide_True by done. intros [= <-]. cbn. split; [lia | done].
    + rewrite lookup_insert_ne by done. rewrite decide_False by congruence. apply Hr.
  - intros key. destruct (decide (key = (bot, id))) as [-> | Hne]; [rewrite lookup_insert_eq; eauto |].
    rewrite lookup_insert_ne by done. intros [?|Hin]%elem_of_cons; [done | by apply Hk].
  - intros key. rewrite (attempts_of_cons s _ (bot, id)) by done. rewrite times_cons. specialize (Hh key). lia.
Qed.

Lemma any_ok_orderly s s' : sys_step value_to_string sha256_hex s s' -> any_ok s -> any_ok s'.
Proof.
  intros Hstep Hok.
  destruct Hstep as [now bot s _ | now bot updates offset ib' offset' res s Hp Hb | now bot id raw s
    | now bot id ib' s Hc | now bot id s Hin | now bot id code s Hin | bot id s Hin | now bot id s
    | now bot id code s _ | s].
  - by apply any_reset.
  - revert Hb. unfold persist_update_batch.
    destruct persist_loop as [[[tx persisted] candidate]|e] eqn:El; [| intros [= <- <- <-]; by apply any_pollers].
    destruct (upsert_offset now bot candidate tx) as [tx'|e] eqn:Eu; [| intros [= <- <- <-]; by apply any_pollers].
    intros [= <- <- <-]. destruct (persist_loop_spec _ _ _ _ _ _ _ _ _ _ _ El) as (Hg & _). by eapply any_grow.
  - destruct (ingest_grows now bot id raw (s_inbox s)) as [-> | (tx & Hg & Hu)]; [by apply any_pollers |].
    by eapply any_grow.
  - by eapply any_claim.
  - apply (any_rows s); [done | done | done | apply alter_rows; intros r Hr; cbn; lia |].
    intros key. cbn. rewrite times_cons, (times_remove (bot, id) key (s_flight s)) by done. lia.
  - apply (any_rows s); [done | done | done | apply alter_rows; intros r Hr; cbn; lia |].
    intros key. cbn. rewrite (times_remove (bot, id) key (s_flight s)) by done. lia.
  - apply (any_rows s); [done | done | done | apply same_rows |].
    intros key. cbn. rewrite (times_remove (bot, id) key (s_flight s)) by done. lia.
  - apply (any_rows s); [done | done | done | apply alter_rows; intros r Hr | done].
    destruct (is_waiting r); cbn; lia.
  - by apply any_fail.
  - apply (any_rows s); [done | done | done | apply same_rows |]. intros key. unfold times at 1. cbn. lia.
Qed.

Lemma any_ok_steps bots s : rtc (any_step value_to_string sha256_hex) (sys_init bots) s -> any_ok s.
Proof.
  intros Hr. assert (Hok : any_ok (sys_init bots)).
  { split; cbn; [intros key r; by rewrite lookup_empty | by intros key ?%elem_of_nil | done]. }
  induction Hr as [|s s1 s2 Hstep _ IH]; [done |]. apply IH.
  destruct Hstep; [by eapply any_ok_orderly | by apply any_reset | by apply any_fail].
Qed.

(** C14: an update is processed under control.  In every history the code allows,
    whatever batches, retries, failures and crashes come in whatever order, with
    pollers started while tasks of their bot still run and errors recorded over
    whatever a row says: an update is attempted at most three times in all, crashes and
    restarts included, every task that holds it or has marked it processed being one of
    these attempts; and every stored update lies below the offset the bot acknowledges.
    In the orderly histories, in which a poller starts only when no task of its bot runs
    and a claim statement fails only on a waiting row (the code enforces neither), at
    any time at most one task works on an update, and it is marked processed at most
    once, after which no task ever holds it again. *)
Theorem updates_are_processed_once bots s :
  (rtc (any_step value_to_string sha256_hex) (sys_init bots) s ->
     (forall key, times key (s_flight s) + times key (s_done s) <= attempts_of s key <= 3)
     /\ (forall key r, telegram_updates (s_inbox s) !! key = Some r ->
           exists o, telegram_bot_offsets (s_inbox s) !! key.1 = Some o /\ (0 <= key.2 < o_next_offset o)%Z))
  /\ (rtc (sys_step value_to_string sha256_hex) (sys_init bots) s ->
     NoDup (s_flight s) /\ NoDup (s_done s)
     /\ (forall key, key ∈ s_done s -> key ∉ s_flight s /\
           exists r, telegram_updates (s_inbox s) !! key = Some r /\ u_status r = Processed)).
Proof.
  split; intros Hr.
  - pose proof (any_ok_steps _ _ Hr) as [Hrows Hk Hh]. split; [| intros key r Er; by apply (Hrows key r)].
    intros key. split; [apply Hh |]. destruct (decide (key ∈ s_attempts s)) as [Hin | Hout].
    + destruct (Hk key Hin) as [r Er]. destruct (Hrows key r Er). lia.
    + unfold attempts_of. rewrite times_0 by done. lia.
  - pose proof (sys_ok_steps _ _ Hr (sys_ok_init bots)) as Hok. split; [apply Hok |]. split; [apply Hok |].
    intros key Hin. split; [intros Hfl; by apply (flight_not_done s) in Hfl |].
    destruct (so_known _ _ Hok key ltac:(auto)) as [r Er]. exists r. split; [done |].
    by apply (ro_done _ _ _ _ (so_rows _ _ Hok _ _ Er)).
Qed.

(** A row only moves forward: the body stays, attempts are not taken back,
    processed is final. *)
Definition row_le (r r' : UpdateRow) : Prop :=
  u_raw_update_json r' = u_raw_update_json r /\ u_raw_update_sha256 r' = u_raw_update_sha256 r
  /\ u_received_at r' = u_received_at r /\ (u_attempt_count r <= u_attempt_count r')%Z
  /\ (u_status r = Processed -> r' = r).

Lemma row_le_refl r : row_le r r.
Proof. repeat split; auto; lia. Qed.

Lemma row_le_trans a b c : row_le a b -> row_le b c -> row_le a c.
Proof.
  intros (? & ? & ? & ? & Hab) (? & ? & ? & ? & Hbc). repeat split; try congruence; [lia |].
  intros Hp. rewrite (Hab Hp) in *. auto.
Qed.

Lemma alter_row_le (f : UpdateRow -> UpdateRow) key k r ib :
  telegram_updates ib !! k = Some r -> (k = key -> row_le r (f r)) ->
  exists r', telegram_updates (set_updates (alter f key) ib) !! k = Some r' /\ row_le r r'.
Proof.
  intros Hr Hle. cbn. destruct (decide (k = key)) as [-> | Hne].
  - rewrite lookup_alter_eq, Hr. eauto.
  - rewrite lookup_alter_ne by done. eauto using row_le_refl.
Qed.

Lemma step_row_le s s' key r :
  sys_ok s -> sys_step value_to_string sha256_hex s s' -> telegram_updates (s_inbox s) !! key = Some r ->
  exists r', telegram_updates (s_inbox s') !! key = Some r' /\ row_le r r'.
Proof.
  intros Hok Hstep Hr. pose proof (so_rows _ _ Hok _ _ Hr) as Hrow.
  assert (Hheld : key ∈ s_flight s -> u_status r = Processed -> False).
  { intros Hin Hp. by rewrite (ro_flight _ _ _ _ Hrow Hin) in Hp. }
  assert (Hkeep : forall bot hi tx now ib', grows sha256_hex bot hi (s_inbox s) tx ->
            upsert_offset now bot hi tx = Ok ib' -> telegram_updates ib' !! key = Some r).
  { intros bot hi tx now ib' Hg Hu. destruct (upsert_offset_spec _ _ _ _ _ Hu) as (-> & _). by apply Hg. }
  destruct Hstep as [now bot s Hfree | now bot updates offset ib' offset' res s Hp Hb | now bot id raw s
    | now bot id ib' s Hc | now bot id s Hin | now bot id code s Hin | bot id s Hin | now bot id s
    | now bot id code s Hwait | s];
    cbn [s_inbox s_flight] in *; try (by exists r; split; [| apply row_le_refl]).
  - rewrite reset_lookup, Hr. eexists. split; [done |]. destruct (_ && _) eqn:E; [| apply row_le_refl].
    apply andb_true_iff in E as [_ E2%bool_decide_eq_true_1]. repeat split; cbn; [lia | congruence].
  - exists r. split; [| apply row_le_refl]. by eapply persist_keeps.
  - exists r. split; [| apply row_le_refl].
    destruct (ingest_grows now bot id raw (s_inbox s)) as [-> | (tx & Hg & Hu)]; eauto.
  - revert Hc. unfold claim_update. destruct (telegram_updates (s_inbox s) !! (bot, id)) as [q|] eqn:Eq; [| done].
    destruct (is_waiting q && _) eqn:Ew; [| done]. intros [= <-]. cbn.
    apply andb_true_iff in Ew as [Ew _]. destruct (decide (key = (bot, id))) as [-> | Hne].
    + rewrite lookup_insert_eq. assert (q = r) as -> by congruence. eexists. split; [done |].
      repeat split; cbn; [lia |]. intros Hp. unfold is_waiting in Ew. by rewrite Hp in Ew.
    + rewrite lookup_insert_ne by done. eauto using row_le_refl.
  - apply alter_row_le; [done |]. intros ->. repeat split; cbn; [lia |]. by intros ?%Hheld.
  - apply alter_row_le; [done |]. intros ->. repeat split; cbn; [lia |]. by intros ?%Hheld.
  - apply alter_row_le; [done |]. intros ->. destruct (is_waiting r) eqn:Ew; [| apply row_le_refl].
    pose proof (ro_attempts _ _ _ _ Hrow). repeat split; cbn; [lia |].
    intros Hp. unfold is_waiting in Ew. by rewrite Hp in Ew.
  - apply alter_row_le; [done |]. intros ->. specialize (Hwait r Hr). repeat split; cbn; [lia |].
    intros Hp. unfold is_waiting in Hwait. by rewrite Hp in Hwait.
Qed.

(** The inbox is an archive: from any state the system reaches, whatever
    happens later, a stored update stays stored with the body, digest and time of
    receipt it came with, its attempts are never taken back, and once processed
    its row never changes again. *)
Theorem stored_updates_are_kept bots s s' key r :
  rtc (sys_step value_to_string sha256_hex) (sys_init bots) s ->
  rtc (sys_step value_to_string sha256_hex) s s' ->
  telegram_updates (s_inbox s) !! key = Some r ->
  exists r', telegram_updates (s_inbox s') !! key = Some r' /\ row_le r r'.
Proof.
  intros Hreach Hlater. pose proof (sys_ok_steps _ _ Hreach (sys_ok_init bots)) as Hok. clear Hreach.
  revert r. induction Hlater as [s | s s1 s2 Hstep _ IH]; intros r Hr; [eauto using row_le_refl |].
  destruct (step_row_le _ _ _ _ Hok Hstep Hr) as (r1 & Hr1 & Hle1).
  destruct (IH (sys_ok_step _ _ Hstep Hok) r1 Hr1) as (r2 & Hr2 & Hle2).
  eauto using row_le_trans.
Qed.

End Invariant.

(** ** A run of the system *)

Definition demo_update : Value :=
  JObject [("update_id", JNumber "7");
           ("message", JObject [("chat", JObject [("id", JNumber "5")]); ("text", JString "hi")])].
Definition demo_print (v : Value) : string := "{7}".
Definition demo_sha (s : string) : string := "sha:" +:+ s.
Definition demo_bots : gset string := {["bot"]}.
Definition demo_key : string * Z := ("bot", 7%Z).

Definition demo_stored : Inbox :=
  (persist_update_batch demo_print demo_sha "t1" "bot" [demo_update; JNull] (MkInbox ∅ ∅ demo_bots, 0%Z)).1.1.

Notation demo_step := (sys_step demo_print demo_sha).

Lemma demo_run :
  rtc demo_step (sys_init demo_bots) (MkSys demo_stored [] {["bot" := 8%Z]} [] []).
Proof.
  eapply rtc_l; [apply (step_start _ _ "t0" "bot"); intros id; apply not_elem_of_nil |].
  eapply rtc_l; [| apply rtc_refl].
  eapply step_poll with (bot := "bot") (offset := 0%Z) (now := "t1") (updates := [demo_update; JNull])
    (offset' := 8%Z); reflexivity.
Qed.

(** One attempt at the demo update that the process does not survive, and the
    restart after it. *)
Definition crashed_once (ib : Inbox) : Inbox :=
  reset_processing "t3" "bot" (claim_update "t2" "bot" 7 ib).1.

Lemma demo_crash ib pollers attempts :
  (claim_update "t2" "bot" 7 ib).2 = true ->
  rtc demo_step (MkSys ib [] pollers attempts [])
    (MkSys (crashed_once ib) [] {["bot" := initial_offset "bot" (claim_update "t2" "bot" 7 ib).1]} (demo_key :: attempts) []).
Proof.
  intros Hc. destruct (claim_update "t2" "bot" 7 ib) as [ib1 b] eqn:E. simpl in Hc. subst b.
  eapply rtc_l; [eapply (step_claim _ _ "t2" "bot" 7); exact E |].
  eapply rtc_l; [apply step_crash |].
  eapply rtc_l; [apply (step_start _ _ "t3" "bot"); intros id; apply not_elem_of_nil |].
  unfold crashed_once. rewrite E. apply rtc_refl.
Qed.

(** Three attempts that crash leave the update neither processed nor failed: its
    row says [received], and no claim takes it any more. *)
Theorem crash_on_last_attempt_strands :
  exists s r, rtc demo_step (sys_init demo_bots) s
    /\ telegram_updates (s_inbox s) !! demo_key = Some r
    /\ u_status r = Received /\ u_attempt_count r = 3%Z /\ u_error_summary r = None
    /\ (forall now, claim_update now "bot" 7 (s_inbox s) = (s_inbox s, false))
    /\ (forall unixepoch now_unix, pending_inbox_batch unixepoch "bot" now_unix (s_inbox s) = []).
Proof.
  exists (MkSys (crashed_once (crashed_once (crashed_once demo_stored))) [] {["bot" := 8%Z]}
            [demo_key; demo_key; demo_key] []).
  eexists. split.
  { etransitivity; [exact demo_run |].
    etransitivity; [apply (demo_crash demo_stored); reflexivity |].
    etransitivity; [apply (demo_crash (crashed_once demo_stored)); reflexivity |].
    apply (demo_crash (crashed_once (crashed_once demo_stored))); reflexivity. }
  split; [vm_compute; reflexivity |]. repeat (split; [reflexivity |]). intros unixepoch now_unix. reflexivity.
Qed.

Lemma batch_is_stored_before_acknowledged_witness :
  exists o, telegram_bot_offsets demo_stored !! "bot" = Some o /\ (0 <= 8 <= o_next_offset o)%Z.
Proof.
  pose proof (batch_is_stored_before_acknowledged demo_print demo_sha "t1" "bot" [demo_update; JNull]
    (MkInbox ∅ ∅ demo_bots) 0 demo_stored 8 (Ok [(7%Z, demo_update)]) eq_refl) as (_ & _ & H & _).
  exact H.
Defined.

(** A second start of the bot while the update is being processed opens its row again:
    the update is claimed, and marked processed, twice. *)
Example overlapping_start_processes_twice :
  exists s, rtc (any_step demo_print demo_sha) (sys_init demo_bots) s
    /\ s_attempts s = [demo_key; demo_key] /\ s_done s = [demo_key; demo_key].
Proof.
  set (claimed ib := (claim_update "t2" "bot" 7 ib).1).
  set (reopened := reset_processing "t3" "bot" (claimed demo_stored)).
  eexists. split.
  { etransitivity; [eapply rtc_subrel; [| exact demo_run]; apply any_orderly |].
    eapply rtc_l; [apply any_orderly, (step_claim _ _ "t2" "bot" 7 (claimed demo_stored)); reflexivity |].
    eapply rtc_l; [apply (any_start _ _ "t3" "bot") |].
    eapply rtc_l; [apply any_orderly, (step_claim _ _ "t2" "bot" 7 (claimed reopened)); reflexivity |].
    eapply rtc_l; [apply any_orderly, (step_done _ _ "t4" "bot" 7); by left |].
    eapply rtc_l; [apply any_orderly, (step_done _ _ "t5" "bot" 7); cbn; by left |]. apply rtc_refl. }
  split; reflexivity.
Qed.

Lemma updates_are_processed_once_witness :
  let s := MkSys demo_stored [] {["bot" := 8%Z]} [] [] in
  NoDup (s_flight s) /\ NoDup (s_done s)
  /\ (forall key, key ∈ s_done s -> key ∉ s_flight s /\
        exists r, telegram_updates (s_inbox s) !! key = Some r /\ u_status r = Processed).
Proof.
  intros s. apply (updates_are_processed_once demo_print demo_sha demo_bots s). exact demo_run.
Defined.

Lemma stored_updates_are_kept_witness :
  exists r', telegram_updates (crashed_once demo_stored) !! demo_key = Some r'
             /\ row_le (fresh_row demo_sha "{7}" "t1") r'.
Proof.
  apply (stored_updates_are_kept demo_print demo_sha demo_bots _ _ demo_key (fresh_row demo_sha "{7}" "t1")
           demo_run (demo_crash demo_stored {["bot" := 8%Z]} [] eq_refl)). reflexivity.
Defined.
