(* ===== verification/InboxLiveness.v ===== *)
(** * The inbox drains ([recover_pending_updates] of [modules/telegram/mod.rs])

    Recovery passes over a bot's inbox, each at its own time and with its own
    outcomes.  A pass takes at most a hundred due rows in the order of their ids;
    every row it takes gets closer to being settled, so finitely many passes
    settle all of them.  Rows in processing are not taken: they wait for the reset of
    the next start. *)

From S2P Require Import Prelude Text Errors StDomain OperationStore TelegramInbox.
From Stdlib Require Import Lia.

(** A row that recovery may still take. *)
Definition pending (r : UpdateRow) : bool := is_waiting r && (u_attempt_count r <? 3)%Z.

(** The attempts left to it. *)
Definition attempts_left (r : UpdateRow) : nat :=
  if pending r then Z.to_nat (3 - u_attempt_count r) else 0.

Definition weight (bot : string) (key : string * Z) (r : UpdateRow) (acc : nat) : nat :=
  (if key.1 =?= bot then attempts_left r else 0) + acc.

(** The attempts left to all rows of a bot. *)
Definition potential (bot : string) (ib : Inbox) : nat := map_fold (weight bot) 0 (telegram_updates ib).

Lemma pending_left r : pending r = true <-> 0 < attempts_left r.
Proof.
  unfold attempts_left. destruct (pending r) eqn:E; [| by split; [| lia]].
  unfold pending in E. apply andb_true_iff in E as [_ E%Z.ltb_lt]. split; [lia | done].
Qed.

Lemma potential_insert bot m key r r' :
  m !! key = Some r ->
  map_fold (weight bot) 0 (<[key := r']> m) + weight bot key r 0 = map_fold (weight bot) 0 m + weight bot key r' 0.
Proof.
  intros Hr. assert (Hcomm : forall j1 j2 (z1 z2 : UpdateRow) y,
    weight bot j1 z1 (weight bot j2 z2 y) = weight bot j2 z2 (weight bot j1 z1 y)) by (unfold weight; lia).
  rewrite (map_fold_delete_L (weight bot) 0 key r m) by auto.
  rewrite (map_fold_delete_L (weight bot) 0 key r' (<[key := r']> m)) by (auto; by rewrite lookup_insert_eq).
  rewrite delete_insert_eq. unfold weight. lia.
Qed.

Section Passes.
Context (unixepoch : string -> option Z) (from_str : string -> option Value).

(** The update parses and processing it succeeds. *)
Definition goes_well (work : Z -> Value -> result unit string) (id : Z) (raw : string) : Prop :=
  exists u, from_str raw = Some u /\ (chat_id_of u = None \/ work id u = Ok tt).

(** What one visit does to a row. *)
Definition visited (now : string) (work : Z -> Value -> result unit string) (id : Z) (r r' : UpdateRow) : Prop :=
  u_raw_update_json r' = u_raw_update_json r /\ u_updated_at r' = now
  /\ attempts_left r' < attempts_left r /\ u_status r' <> Processing
  /\ (goes_well work id (u_raw_update_json r) -> u_status r' = Processed).

Definition advanced (now : string) (work : Z -> Value -> result unit string) (id : Z) (r r' : UpdateRow) : Prop :=
  r' = r \/ visited now work id r r'.

Lemma advanced_trans now work id a b c :
  advanced now work id a b -> advanced now work id b c -> advanced now work id a c.
Proof.
  intros [-> | (Hr & Ht & Ha & Hs & Hg)]; [done |]. intros [-> | (Hr' & Ht' & Ha' & Hs' & Hg')]; [by right |].
  right. split; [congruence |]. split; [done |]. split; [lia |]. split; [done |].
  intros H. apply Hg'. by rewrite Hr.
Qed.

(** The step of [recover_rows] for one row. *)
Definition visit (now bot : string) (work : Z -> Value -> result unit string) (id : Z) (raw : string) (ib : Inbox)
  : Inbox :=
  match from_str raw with
  | None => quarantine_update now bot id ib
  | Some update => attempt_update now bot id update work ib
  end.

Lemma attempts_left_claimed r r' :
  pending r = true -> u_attempt_count r' = (u_attempt_count r + 1)%Z -> attempts_left r' < attempts_left r.
Proof.
  intros Hp Ha. pose proof (proj1 (pending_left r) Hp) as Hl. revert Hl. unfold attempts_left. rewrite Hp, Ha.
  case_match; lia.
Qed.

Lemma claim_pending now bot id ib r :
  telegram_updates ib !! (bot, id) = Some r -> pending r = true ->
  claim_update now bot id ib =
  (set_updates <[(bot, id) := set_update_attempts (u_attempt_count r + 1) (set_update_status Processing now r)]> ib,
   true).
Proof. intros Hr Hp. unfold claim_update. rewrite Hr. unfold pending in Hp. by rewrite Hp. Qed.

Lemma alter_of_insert (f : UpdateRow -> UpdateRow) (m : gmap (string * Z) UpdateRow) k r :
  alter f k (<[k := r]> m) = <[k := f r]> m.
Proof. rewrite (alter_insert f _ k r) by apply lookup_insert_eq. apply insert_insert_eq. Qed.

Lemma visit_pending now bot work id raw ib r :
  telegram_updates ib !! (bot, id) = Some r -> u_raw_update_json r = raw -> pending r = true ->
  exists r', telegram_updates (visit now bot work id raw ib) = <[(bot, id) := r']> (telegram_updates ib)
             /\ visited now work id r r'.
Proof.
  intros Hr Hraw Hp. unfold visit, visited, goes_well. rewrite Hraw. destruct (from_str raw) as [u|] eqn:Eu.
  - unfold attempt_update, process_and_deliver. rewrite (claim_pending now _ _ _ _ Hr Hp). cbn [negb].
    destruct (chat_id_of u) as [c|] eqn:Ec; [destruct (work id u) as [[]|code] eqn:Ew |];
      unfold mark_update_processed, fail_update; cbn [telegram_updates set_updates];
      rewrite alter_of_insert; (eexists; split; [reflexivity |]);
      (split; [done |]); (split; [done |]); (split; [by apply attempts_left_claimed |]); (split; [done |]);
      try done.
    intros (v & [= <-] & [? | ?]); congruence.
  - unfold quarantine_update. rewrite set_updates_lookup, (alter_insert _ _ _ _ Hr).
    eexists. split; [reflexivity |]. pose proof (proj1 (pending_left r) Hp) as Hl.
    unfold pending in Hp. apply andb_true_iff in Hp as [-> _]. cbn.
    split; [done |]. split; [done |]. split; [exact Hl |]. split; [done |]. by intros (u & ? & _).
Qed.

(** The rows a pass takes: distinct, pending, with their bodies. *)
Record takes (bot : string) (ib : Inbox) (rows : list (Z * string)) : Prop := {
  ta_distinct : NoDup rows.*1;
  ta_pending : forall id raw, (id, raw) ∈ rows ->
    exists r, telegram_updates ib !! (bot, id) = Some r /\ u_raw_update_json r = raw /\ pending r = true;
}.

Lemma visit_takes now bot work id raw rows ib :
  takes bot ib ((id, raw) :: rows) -> takes bot (visit now bot work id raw ib) rows.
Proof.
  intros [Hd Hp]. cbn in Hd. apply NoDup_cons in Hd as [Hn Hd]. split; [done |].
  destruct (Hp id raw ltac:(by left)) as (r & Hr & Hraw & Hpe).
  destruct (visit_pending now _ work _ _ _ _ Hr Hraw Hpe) as (r' & -> & _).
  intros i w Hin. destruct (Hp i w ltac:(by right)) as (q & Hq & Hw).
  exists q. split; [| done]. rewrite lookup_insert_ne; [done |]. intros [= ->]. apply Hn.
  apply list_elem_of_fmap. by exists (i, w).
Qed.

Lemma recover_rows_spec now bot work rows ib :
  takes bot ib rows ->
  let ib' := (recover_rows from_str now bot (λ _, true) work rows ib).1 in
  potential bot ib' + length rows <= potential bot ib
  /\ (forall key r, telegram_updates ib !! key = Some r ->
        exists r', telegram_updates ib' !! key = Some r' /\ advanced now work key.2 r r')
  /\ (forall key, telegram_updates ib !! key = None -> telegram_updates ib' !! key = None).
Proof.
  revert ib. induction rows as [|[id raw] rows IH]; intros ib Ht; cbn [recover_rows negb].
  - cbn. split; [lia |]. split; [| done]. intros key r Hr. exists r. split; [done | by left].
  - fold (visit now bot work id raw ib). pose proof (visit_takes now _ work _ _ _ _ Ht) as Ht'.
    destruct (ta_pending _ _ _ Ht id raw ltac:(by left)) as (r0 & Hr0 & Hraw & Hpe).
    destruct (visit_pending now _ work _ _ _ _ Hr0 Hraw Hpe) as (r1 & Hv & Hvis).
    destruct (IH _ Ht') as (Hpot & Hrows & Hnone). cbv zeta. split; [| split].
    + unfold potential in *. rewrite Hv in Hpot. pose proof (potential_insert bot _ _ _ r1 Hr0) as Hi.
      unfold weight in Hi at 2 4. cbn [fst] in Hi. rewrite bool_decide_eq_true_2 in Hi by done.
      destruct Hvis as (_ & _ & Hlt & _). cbn [length]. lia.
    + intros key r Hr. destruct (decide (key = (bot, id))) as [-> | Hne].
      * assert (r0 = r) as -> by congruence. destruct (Hrows (bot, id) r1) as (r2 & Hr2 & Had).
        { rewrite Hv. apply lookup_insert_eq. }
        exists r2. split; [done |]. cbn in *. eapply advanced_trans; [right; exact Hvis | exact Had].
      * apply Hrows. rewrite Hv. by rewrite lookup_insert_ne.
    + intros key Hk. apply Hnone. rewrite Hv. rewrite lookup_insert_ne; [done |]. intros <-. congruence.
Qed.

Lemma due_is_pending now_unix r : is_due unixepoch now_unix r = true -> pending r = true.
Proof. unfold is_due, pending. by intros [? _]%andb_true_iff. Qed.

Lemma due_rows_elem bot now_unix ib id raw :
  (id, raw) ∈ due_rows unixepoch bot now_unix ib <->
  exists r, telegram_updates ib !! (bot, id) = Some r /\ u_raw_update_json r = raw /\ is_due unixepoch now_unix r = true.
Proof.
  unfold due_rows. rewrite list_elem_of_omap. split.
  - intros ([[b i] r] & Hin & Hf). apply elem_of_map_to_list in Hin. cbn in Hf.
    destruct (_ && _) eqn:E in Hf; [| done]. apply andb_true_iff in E as [->%bool_decide_eq_true_1 E].
    injection Hf as -> <-. eauto.
  - intros (r & Hr & <- & Hd). exists ((bot, id), r). split; [by apply elem_of_map_to_list |].
    cbn. by rewrite bool_decide_eq_true_2, Hd by done.
Qed.

Lemma due_rows_distinct bot now_unix ib : NoDup (due_rows unixepoch bot now_unix ib).*1.
Proof.
  unfold due_rows. pose proof (NoDup_fst_map_to_list (telegram_updates ib)) as Hd. revert Hd.
  generalize (map_to_list (telegram_updates ib)). intros l.
  induction l as [|[[b i] r] l IH]; cbn; [constructor |]. intros [Hn Hd]%NoDup_cons.
  destruct (_ && _) eqn:E; [| by apply IH]. apply andb_true_iff in E as [->%bool_decide_eq_true_1 _].
  constructor; [| by apply IH]. intros ([j w] & Hj & Hin)%list_elem_of_fmap. cbn in Hj. subst j. apply Hn.
  apply list_elem_of_omap in Hin as ([[b' i'] r'] & Hin & Hf). cbn in Hf.
  destruct (_ && _) eqn:E in Hf; [| done]. apply andb_true_iff in E as [->%bool_decide_eq_true_1 _].
  injection Hf as <- _. apply list_elem_of_fmap. by exists ((bot, i'), r').
Qed.

Lemma batch_takes bot now_unix ib : takes bot ib (pending_inbox_batch unixepoch bot now_unix ib).
Proof.
  assert (Hsub : forall x, x ∈ pending_inbox_batch unixepoch bot now_unix ib -> x ∈ due_rows unixepoch bot now_unix ib).
  { intros x Hx. unfold pending_inbox_batch in Hx. apply (sort_by_elem id_le).
    rewrite <- (take_drop 100 (sort_by id_le _)). apply elem_of_app. by left. }
  split.
  - unfold pending_inbox_batch.
    assert (Hs : NoDup (sort_by id_le (due_rows unixepoch bot now_unix ib)).*1).
    { rewrite (sort_by_perm id_le). apply due_rows_distinct. }
    rewrite <- (take_drop 100 (sort_by id_le (due_rows unixepoch bot now_unix ib))), fmap_app in Hs.
    by apply NoDup_app in Hs as [? _].
  - intros id raw (r & Hr & Hraw & Hd)%Hsub%due_rows_elem. eauto using due_is_pending.
Qed.

(** ** Passes one after the other *)

Section Rounds.
Context (bot : string) (clock : nat -> string) (unix : nat -> Z) (work : nat -> Z -> Value -> result unit string).

(** [n] passes, the first one numbered [k]. *)
Fixpoint passes (n k : nat) (ib : Inbox) : Inbox :=
  match n with
  | 0 => ib
  | S n => passes n (S k)
             (recover_pending_updates unixepoch from_str (clock k) (unix k) bot (λ _, true) (work k) ib).1
  end.

(** The stamps of pass [k] lie at least four seconds before pass [k + 1]. *)
Hypothesis spaced : forall k, (unix k <= unix (S k) /\ default 0 (unixepoch (clock k)) + 4 <= unix (S k))%Z.

(** What holds of the bot's rows before pass [k]: nobody processes them, their
    backoff is over. *)
Definition settled_before (k : nat) (ib : Inbox) : Prop :=
  forall id r, telegram_updates ib !! (bot, id) = Some r ->
  (default 0 (unixepoch (u_updated_at r)) + 4 <= unix k)%Z /\ u_status r <> Processing.

Definition none_pending (ib : Inbox) : Prop :=
  forall id r, telegram_updates ib !! (bot, id) = Some r -> pending r = false.

Lemma pending_is_due k ib id r :
  settled_before k ib -> telegram_updates ib !! (bot, id) = Some r -> pending r = true ->
  is_due unixepoch (unix k) r = true.
Proof.
  intros Hs Hr Hp. destruct (Hs id r Hr) as [Ht _]. unfold is_due. unfold pending in Hp. rewrite Hp. cbn [andb].
  apply orb_true_iff. right. apply Z.leb_le. unfold backoff. case_match; lia.
Qed.

Lemma empty_batch k ib :
  settled_before k ib -> pending_inbox_batch unixepoch bot (unix k) ib = [] -> none_pending ib.
Proof.
  intros Hs Hb id r Hr. destruct (pending r) eqn:Hp; [exfalso | done].
  assert (Hin : (id, u_raw_update_json r) ∈ sort_by id_le (due_rows unixepoch bot (unix k) ib)).
  { apply sort_by_elem, due_rows_elem. exists r. eauto using pending_is_due. }
  unfold pending_inbox_batch in Hb. destruct (sort_by id_le _); [by apply elem_of_nil in Hin | done].
Qed.

Lemma none_pending_batch k ib : none_pending ib -> pending_inbox_batch unixepoch bot (unix k) ib = [].
Proof.
  intros Hn. destruct (pending_inbox_batch unixepoch bot (unix k) ib) as [|[id raw] rows] eqn:E; [done | exfalso].
  pose proof (batch_takes bot (unix k) ib) as [_ Hp]. rewrite E in Hp.
  destruct (Hp id raw ltac:(by left)) as (r & Hr & _ & Hpe). rewrite (Hn _ _ Hr) in Hpe. done.
Qed.

Lemma passes_idle n k ib : none_pending ib -> passes n k ib = ib.
Proof.
  revert k. induction n as [|n IH]; intros k Hn; [done |]. cbn [passes].
  unfold recover_pending_updates. rewrite none_pending_batch by done. by apply IH.
Qed.

Lemma potential_zero ib : potential bot ib = 0 -> none_pending ib.
Proof.
  intros H0 id r Hr. unfold potential in H0.
  pose proof (potential_insert bot _ _ _ (set_update_attempts 3 r) Hr) as Hi.
  unfold weight in Hi at 2 4. cbn [fst] in Hi. rewrite bool_decide_eq_true_2 in Hi by done.
  assert (Hz : attempts_left (set_update_attempts 3 r) = 0).
  { unfold attempts_left, pending. cbn. by rewrite andb_false_r. }
  destruct (pending r) eqn:Hp; [| done]. apply pending_left in Hp. lia.
Qed.

Lemma pass_spec k ib :
  let ib' := (recover_pending_updates unixepoch from_str (clock k) (unix k) bot (λ _, true) (work k) ib).1 in
  potential bot ib' + length (pending_inbox_batch unixepoch bot (unix k) ib) <= potential bot ib
  /\ (forall key r, telegram_updates ib !! key = Some r ->
        exists r', telegram_updates ib' !! key = Some r' /\ advanced (clock k) (work k) key.2 r r')
  /\ (settled_before k ib -> settled_before (S k) ib').
Proof.
  destruct (recover_rows_spec (clock k) bot (work k) _ ib (batch_takes bot (unix k) ib)) as (Hp & Hr & Hn).
  split; [done |]. split; [done |]. intros Hs id r' Hr'.
  destruct (telegram_updates ib !! (bot, id)) as [r|] eqn:E.
  2:{ unfold recover_pending_updates in Hr'. by rewrite (Hn _ E) in Hr'. }
  destruct (Hr _ _ E) as (r1 & Hr1 & Had). unfold recover_pending_updates in Hr'. assert (r1 = r') as -> by congruence.
  destruct (Hs id r E) as [Ht Hst]. pose proof (spaced k) as [Hmono Hsp].
  destruct Had as [-> | (_ & Hupd & _ & Hne & _)]; [split; [lia | done] |].
  rewrite Hupd. split; [lia | done].
Qed.

Lemma passes_drain n k ib :
  settled_before k ib -> potential bot ib <= n ->
  none_pending (passes n k ib) /\ settled_before (k + n) (passes n k ib).
Proof.
  revert k ib. induction n as [|n IH]; intros k ib Hs Hle.
  - rewrite Nat.add_0_r. split; [apply potential_zero; cbn; lia | done].
  - destruct (pass_spec k ib) as (Hp & _ & Hs'). cbn [passes].
    destruct (pending_inbox_batch unixepoch bot (unix k) ib) as [|x rows] eqn:E.
    + pose proof (empty_batch _ _ Hs E) as Hn. unfold recover_pending_updates in *. rewrite E in *. cbn in *.
      rewrite passes_idle by done. split; [done |]. intros id r Hr. destruct (Hs id r Hr) as [Ht Hst].
      split; [| done]. clear -Ht spaced. induction (S n) as [|m IHm]; [by rewrite Nat.add_0_r |].
      rewrite Nat.add_succ_r. pose proof (spaced (k + m)) as [? _]. lia.
    + cbn [length] in Hp. rewrite Nat.add_succ_r. apply (IH (S k)); [by apply Hs' | lia].
Qed.

(** A row whose processing goes well is processed or still waits. *)
Lemma passes_well n k ib id r :
  (forall j, goes_well (work j) id (u_raw_update_json r)) ->
  telegram_updates ib !! (bot, id) = Some r -> pending r = true \/ u_status r = Processed ->
  exists r', telegram_updates (passes n k ib) !! (bot, id) = Some r' /\ (pending r' = true \/ u_status r' = Processed).
Proof.
  intros Hg. revert k ib r Hg. induction n as [|n IH]; intros k ib r Hg Hr Hst; [by exists r |]. cbn [passes].
  destruct (pass_spec k ib) as (_ & Hrows & _). destruct (Hrows _ _ Hr) as (r1 & Hr1 & Had).
  destruct Had as [-> | (Hraw & _ & _ & _ & Hdone)]; [by apply (IH _ _ r) |].
  apply (IH _ _ r1); [by rewrite Hraw | done |]. right. by apply Hdone.
Qed.

(** C17: recovery passes alone drain the inbox.  Assume that no update of the bot is in
    processing and every earlier backoff is over when they begin, that the passes are at
    least four seconds apart and nothing else works on the inbox between them, that
    ownership is valid at every row, and that processing always returns, with success or
    an error (a task that panics leaves its row in processing, which no pass takes).
    Then, whatever processing returns, after as many passes as there are attempts left
    every update of the bot is processed or has used up its attempts, although each pass
    takes at most a hundred rows; and an update that was pending, whose body parses and
    whose processing succeeds, ends up processed. *)
Theorem inbox_drains n ib :
  settled_before 0 ib -> potential bot ib <= n ->
  forall id r, telegram_updates ib !! (bot, id) = Some r ->
  exists r', telegram_updates (passes n 0 ib) !! (bot, id) = Some r'
    /\ (u_status r' = Processed \/ (3 <= u_attempt_count r')%Z)
    /\ (pending r = true -> (forall k, goes_well (work k) id (u_raw_update_json r)) -> u_status r' = Processed).
Proof.
  intros Hs Hle id r Hr. destruct (passes_drain n 0 ib Hs Hle) as [Hn Hs'].
  assert (Hex : exists r', telegram_updates (passes n 0 ib) !! (bot, id) = Some r').
  { clear -Hr spaced. revert ib r Hr. generalize 0. induction n as [|n IH]; intros k ib r Hr; [by exists r |].
    cbn [passes]. destruct (pass_spec k ib) as (_ & Hrows & _). destruct (Hrows _ _ Hr) as (r1 & Hr1 & _). eauto. }
  destruct Hex as [r' Hr']. exists r'. split; [done |]. pose proof (Hn _ _ Hr') as Hp. split.
  - destruct (Hs' _ _ Hr') as [_ Hnp]. unfold pending, is_waiting in Hp.
    destruct (u_status r') eqn:E; try done; [right | by left | right]; by apply Z.ltb_ge.
  - intros Hpe Hg. destruct (passes_well n 0 ib id r Hg Hr (or_introl Hpe)) as (r2 & Hr2 & Hst).
    assert (r2 = r') as -> by congruence. destruct Hst as [Hst | Hst]; [congruence | done].
Qed.

End Rounds.
End Passes.

(** Two passes for an update whose first attempt fails. *)
Definition demo_epoch (s : string) : option Z := Some (Z.of_nat (String.length s)).
Definition demo_parse (s : string) : option Value := Some demo_update.
Definition demo_outcome (k : nat) (_ : Z) (_ : Value) : result unit string :=
  if k =? 0 then Err "TELEGRAM_REQUEST_FAILED" else Ok tt.

Lemma inbox_drains_witness :
  exists r', telegram_updates
      (passes demo_epoch demo_parse "bot" (λ k, "t") (λ k, 10 * Z.of_nat (S k))%Z demo_outcome 3 0 demo_stored)
      !! ("bot", 7%Z) = Some r'
    /\ (u_status r' = Processed \/ (3 <= u_attempt_count r')%Z).
Proof.
  edestruct (inbox_drains demo_epoch demo_parse "bot" (λ k, "t") (λ k, 10 * Z.of_nat (S k))%Z demo_outcome)
    with (n := 3) (ib := demo_stored) (id := 7%Z) as (r' & H1 & H2 & _).
  - intros k. unfold demo_epoch. cbn [default String.length id from_option]. lia.
  - intros id r Hr.
    assert (Hone : forall key q, telegram_updates demo_stored !! key = Some q -> q = fresh_row demo_sha "{7}" "t1").
    { intros key q Hq. change (telegram_updates demo_stored) with
        ({[demo_key := fresh_row demo_sha "{7}" "t1"]} : gmap (string * Z) UpdateRow) in Hq.
      apply lookup_singleton_Some in Hq as [_ <-]. done. }
    rewrite (Hone _ _ Hr). split; [vm_compute; discriminate | done].
  - vm_compute. lia.
  - reflexivity.
  - eauto.
Defined.
