(* ===== verification/Delivery.v ===== *)
(** * Telegram delivery ([modules/telegram/delivery.rs])

    Replies leave as chunks.  Every send is a row of [channel_deliveries] that says
    what is known of it; messages of a turn are rows of [telegram_turn_messages]
    with a render version; the target of a revoke or redo is frozen in
    [telegram_turn_targets].  A method is a function on a world: the tables, the
    coordinator of [DeliveryQueue], the clock, the requests made so far and the
    answers Telegram will give; it also keeps the tables after every statement, so
    that a call cut off between two of them can be spoken of.  SHA-256, the clock's
    text form, fresh ids and the RFC 3339 form of a retry time are parameters; sleeps
    between chunks are left out; a call that never returns yields [None].  Calls run
    one after the other here; two that overlap are not interleaved. *)

From S2P Require Import Prelude Text Errors StDomain OperationStore Redaction TelegramText DeliveryQueue TelegramInbox.
From stdpp Require Import pretty.
From Stdlib Require Import Lia.

(** ** Turns *)

Record TurnScope := MkTurnScope {
  ts_account_id : string;
  ts_internal_bot_id : string;
  ts_numeric_bot_id : Z;
  ts_chat_id : Z;
  ts_locator_hash : string;
}.

#[export] Instance TurnScope_eq_dec : EqDecision TurnScope.
Proof. solve_decision. Defined.

(** [len() == 64], hexadecimal digits, lower case. *)
Definition is_hex_digit (a : Ascii.ascii) : bool :=
  is_ascii_digit a || in_range 97 102 a || in_range 65 70 a.
Definition is_lower_sha256 (s : string) : bool :=
  all_bytes is_hex_digit s && (String.length s =? 64) && (s =?= to_ascii_lowercase s).

Definition TurnScope_new (account_id internal_bot_id : string) (numeric_bot_id chat_id : Z) (locator_hash : string)
  : result TurnScope AppError :=
  if is_blank account_id || is_blank internal_bot_id || (numeric_bot_id <=? 0)%Z || (chat_id =? 0)%Z
     || negb (is_lower_sha256 locator_hash)
  then Err (bad_request "TELEGRAM_TURN_SCOPE_INVALID" "Telegram turn scope is incomplete or invalid")
  else Ok (MkTurnScope account_id internal_bot_id numeric_bot_id chat_id locator_hash).

Record TurnMetadata := MkTurnMetadata { md_scope : TurnScope; md_turn_id : string; md_operation_id : string }.

Definition TurnMetadata_new_scoped (scope : TurnScope) (turn_id operation_id : string) : result TurnMetadata AppError :=
  if is_blank turn_id || is_blank operation_id
  then Err (bad_request "TELEGRAM_TURN_ID_INVALID" "Telegram turn and operation IDs are required")
  else Ok (MkTurnMetadata scope turn_id operation_id).

Record FrozenTurnTarget := MkFrozenTurnTarget {
  ft_operation_id : string;
  ft_scope : TurnScope;
  ft_target_turn_id : string;
  ft_tail_fingerprint : string;
  ft_target_revision : Z;
  ft_old_message_ids : list Z;
  ft_status : string;
}.

Record RevokeEffectResult := MkRevokeEffectResult {
  edited_tombstone_message_id : option Z;
  deleted_extra_message_ids : list Z;
  failed_message_ids : list Z;
}.

(** ** Tables *)

(** The values written to [channel_deliveries.status]. *)
Inductive DeliveryStatus : Set := DPending | DSending | DSent | DRetryPending | DUnknown | DFailed.

#[export] Instance DeliveryStatus_eq_dec : EqDecision DeliveryStatus.
Proof. solve_decision. Defined.

Record DeliveryRow := MkDeliveryRow {
  d_bot_id : string;
  d_chat_id : Z;
  d_external_message_id : option Z;
  d_message_kind : string;
  d_turn_id : option string;
  d_generation_run_id : option string;
  d_attempt_count : Z;
  d_status : DeliveryStatus;
  d_last_error : option string;
  d_next_attempt_at : option string;
  d_attempt_token : option string;
  d_terminal_at : option string;
  d_terminal_evidence : option Z;  (* the replaced message *)
  d_created_at : string;
  d_updated_at : string;
}.

Record TurnMessageRow := MkTurnMessageRow {
  tm_scope : TurnScope;
  tm_turn_id : string;
  tm_operation_id : string;
  tm_chunk_index : Z;
  tm_message_id : Z;
  tm_content_hash : string;
  tm_render_version : Z;
  tm_status : string;
  tm_lifecycle : string;
  tm_terminal_at : option string;
  tm_created_at : string;
  tm_updated_at : string;
}.

(** The message ids of a target are stored as a JSON array of integers. *)
Record TargetRow := MkTargetRow {
  tt_scope : TurnScope;
  tt_target_turn_id : string;
  tt_tail_fingerprint : string;
  tt_target_revision : Z;
  tt_old_message_ids : list Z;
  tt_status : string;
  tt_created_at : string;
  tt_updated_at : string;
}.

Record Tables := MkTables {
  channel_deliveries : gmap string DeliveryRow;
  telegram_turn_messages : gmap Z TurnMessageRow;
  last_turn_message : Z;                          (* AUTOINCREMENT *)
  telegram_turn_targets : gmap string TargetRow;
  delivery_bots : gset string;                    (* keys of [telegram_bots] *)
  delivery_operations : gset string;              (* keys of [bridge_operations] *)
}.

Definition set_deliveries (f : gmap string DeliveryRow -> gmap string DeliveryRow) (t : Tables) : Tables :=
  MkTables (f (channel_deliveries t)) (telegram_turn_messages t) (last_turn_message t) (telegram_turn_targets t)
    (delivery_bots t) (delivery_operations t).
Definition set_messages (f : gmap Z TurnMessageRow -> gmap Z TurnMessageRow) (t : Tables) : Tables :=
  MkTables (channel_deliveries t) (f (telegram_turn_messages t)) (last_turn_message t) (telegram_turn_targets t)
    (delivery_bots t) (delivery_operations t).
Definition set_targets (f : gmap string TargetRow -> gmap string TargetRow) (t : Tables) : Tables :=
  MkTables (channel_deliveries t) (telegram_turn_messages t) (last_turn_message t) (f (telegram_turn_targets t))
    (delivery_bots t) (delivery_operations t).

(** ** The world of a delivery *)

(** What comes back for a request. *)
Inductive RawReply :=
| SendFailed
| NotJson (detail : string)
| Reply (status : Z) (payload : Value).

Record Request := MkRequest { rq_method : string; rq_body : Value; rq_at : Z }.

Record World := MkWorld {
  w_tables : Tables;
  w_queue : DeliveryCoordinator;
  w_clock : Z;
  w_requests : list Request;  (* in order *)
  w_replies : list RawReply;  (* of the requests to come; none left: no answer *)
  w_ids : nat;                (* fresh ids drawn *)
  w_past : list Tables;       (* the tables after each statement or transaction, in order *)
}.

Definition set_tables (f : Tables -> Tables) (w : World) : World :=
  MkWorld (f (w_tables w)) (w_queue w) (w_clock w) (w_requests w) (w_replies w) (w_ids w) (w_past w ++ [f (w_tables w)]).
Definition set_queue (f : DeliveryCoordinator -> DeliveryCoordinator) (w : World) : World :=
  MkWorld (w_tables w) (f (w_queue w)) (w_clock w) (w_requests w) (w_replies w) (w_ids w) (w_past w).

(** Methods: state passing with early return. *)
Definition M (A : Type) : Type := World -> World * option (result A AppError).

Definition ok_m {A} (a : A) : M A := λ w, (w, Some (Ok a)).
Definition err_m {A} (e : AppError) : M A := λ w, (w, Some (Err e)).
Definition hang_m {A} : M A := λ w, (w, None).
Definition lift_m {A} (r : result A AppError) : M A := λ w, (w, Some r).

(** Run [m] and go on with its result, error or not. *)
Definition mresult {A B} (m : M A) (k : result A AppError -> M B) : M B :=
  λ w, match m w with (w, Some r) => k r w | (w, None) => (w, None) end.

Definition mbind_ {A B} (m : M A) (k : A -> M B) : M B :=
  mresult m (λ r, match r with Ok a => k a | Err e => err_m e end).

Notation "'let!' x ':=' m 'in' k" := (mbind_ m (λ x, k))
  (at level 10, x pattern, m at level 200, k at level 200) : bridge_scope.

(** ** The client *)

Record TelegramDelivery := MkTelegramDelivery {
  td_bot_id : string;
  td_numeric_bot_id : Z;
  td_chat_id : Z;
  td_policy : StreamPolicy;
}.

(** The part of [new_with_coordinator] that computes. *)
Definition TelegramDelivery_new (bot_id : string) (numeric_bot_id chat_id : Z)
    (stream_min_interval_ms stream_min_delta_chars stream_first_render_chars stream_chunk_size : Z) : TelegramDelivery :=
  MkTelegramDelivery bot_id numeric_bot_id chat_id
    (MkStreamPolicy (Z.max stream_min_interval_ms 0) (Z.to_nat (Z.max stream_min_delta_chars 1))
       (Z.to_nat (Z.max stream_first_render_chars 1)) (Z.to_nat (Z.min (Z.max stream_chunk_size 1) 4000))).

(** [u64::try_from(i64)], [i64::try_from(u64)] and [checked_add(1)] on revisions. *)
Definition revision_invalid (e : string -> string -> AppError) : AppError :=
  e "TELEGRAM_TURN_REVISION_INVALID" "Telegram turn revision is invalid".
Definition next_revision_of (revision : Z) : result Z AppError :=
  if (revision + 1 <? 2 ^ 64)%Z then Ok (revision + 1)%Z
  else Err (conflict "TELEGRAM_TURN_REVISION_INVALID" "Telegram turn revision overflow").

Definition stale_delivery (message : string) : AppError := conflict "TELEGRAM_DELIVERY_STATE_STALE" message.
Definition stale_ledger (message : string) : AppError := conflict "TELEGRAM_TURN_LEDGER_STALE" message.

(** Decimal digits as a [u64]. *)
Definition digits_u64 (s : string) : option Z :=
  if s =?= "" then None else
  match digits_value 0 s with
  | Some z => if (z <? 2 ^ 64)%Z then Some z else None
  | None => None
  end.

Definition value_as_u64 (v : Value) : option Z :=
  match v with JNumber repr => digits_u64 repr | _ => None end.

(** [str::parse::<u64>], which allows a plus sign. *)
Definition parse_u64 (s : string) : option Z :=
  match s with
  | String a r => if a =?= Ascii.ascii_of_nat 43 then digits_u64 r else digits_u64 s
  | EmptyString => None
  end.

(** [split("retry_after=").nth(1)], its first word, as a [u64]. *)
Fixpoint first_word (s : string) : string :=
  match s with
  | EmptyString => EmptyString
  | String a r => if starts_blank (String a r) then EmptyString else String a (first_word r)
  end.

Definition retry_after_seconds (error : AppError) : Z :=
  match str_find "retry_after=" (a_message error) with
  | None => 1
  | Some n =>
      let rest := str_drop (n + 12) (a_message error) in
      let piece := match str_find "retry_after=" rest with Some k => str_take k rest | None => rest end in
      default 1%Z (parse_u64 (first_word (trim_start piece)))
  end.

Definition is_not_found_error (error : AppError) : bool :=
  let message := to_ascii_lowercase (a_message error) in
  contains message "not found" || contains message "message to delete not found"
  || contains message "message can't be deleted".

Section Delivery.
Context (new_id : nat -> string) (now_text : Z -> string) (retry_at : Z -> Z -> option string)
  (sha256_hex : string -> string).
Context `{Redactor}.

(** [now_rfc3339] and [new_id]. *)
Definition draw_id : M string := λ w,
  (MkWorld (w_tables w) (w_queue w) (w_clock w) (w_requests w) (w_replies w) (S (w_ids w)) (w_past w),
   Some (Ok (new_id (w_ids w)))).
Definition get_now : M string := λ w, (w, Some (Ok (now_text (w_clock w)))).

Definition safe_telegram_description (value : option string) (fallback : string) : string :=
  match value with
  | Some d => default fallback (redact_detail d)
  | None => fallback
  end.

Definition get_description (payload : Value) : option string :=
  match value_get payload "description" with Some v => value_as_str v | None => None end.

(** [call]: wait, send, and read the answer. *)
Definition call (self : TelegramDelivery) (method : string) (body : Value) : M Value := λ w,
  let clock := wait (w_clock w) (td_bot_id self) (td_chat_id self) (w_queue w) in
  let requests := w_requests w ++ [MkRequest method body clock] in
  let reply := match w_replies w with [] => SendFailed | r :: _ => r end in
  let w1 := MkWorld (w_tables w) (w_queue w) clock requests (tail (w_replies w)) (w_ids w) (w_past w) in
  match reply with
  | SendFailed => (w1, Some (Err (bad_gateway "TELEGRAM_REQUEST_FAILED" "Telegram request failed")))
  | NotJson detail => (w1, Some (Err (bad_gateway "TELEGRAM_RESPONSE_INVALID" detail)))
  | Reply status payload =>
      let error_code := match value_get payload "error_code" with Some v => value_as_i64 v | None => None end in
      if (status =? 429)%Z || (error_code =?= Some 429%Z) then
        let retry_after :=
          default 1%Z (match pointer ["parameters"; "retry_after"] payload with Some v => value_as_u64 v | None => None end) in
        (set_queue (set_cooldown_secs clock (td_bot_id self) (td_chat_id self) retry_after) w1,
         Some (Err (bad_gateway "TELEGRAM_RATE_LIMITED"
           (safe_telegram_description (get_description payload) "Telegram API rate limited"
            +:+ "; retry_after=" +:+ pretty retry_after))))
      else if negb ((200 <=? status) && (status <? 300))%Z
              || negb (match value_get payload "ok" with Some v => value_as_bool v =?= Some true | None => false end)
      then (w1, Some (Err (bad_gateway "TELEGRAM_API_ERROR"
              (safe_telegram_description (get_description payload) "Telegram API request failed"))))
      else (w1, Some (Ok (default JNull (value_get payload "result"))))
  end.

Definition json_i64 (z : Z) : Value := JNumber (pretty z).

Definition send_message (self : TelegramDelivery) (text : string) (markup : option Value) : M Z :=
  let! result_ := call self "sendMessage"
    (JObject (("chat_id", json_i64 (td_chat_id self)) :: ("text", JString text)
              :: match markup with Some m => [("reply_markup", m)] | None => [] end)) in
  lift_m (ok_or (match value_get result_ "message_id" with Some v => value_as_i64 v | None => None end)
    (bad_gateway "TELEGRAM_RESPONSE_INVALID" "sendMessage returned no message_id")).

Definition edit_message (self : TelegramDelivery) (message_id : Z) (text : string) : M unit :=
  mresult (call self "editMessageText"
    (JObject [("chat_id", json_i64 (td_chat_id self)); ("message_id", json_i64 message_id); ("text", JString text)]))
    (λ r, match r with
          | Ok _ => ok_m tt
          | Err e => if contains (a_message e) "message is not modified" then ok_m tt else err_m e
          end).

Definition delete_message_in_chat (self : TelegramDelivery) (chat_id message_id : Z) : M unit :=
  let! _ := call self "deleteMessage" (JObject [("chat_id", json_i64 chat_id); ("message_id", json_i64 message_id)]) in
  ok_m tt.

(** ** Statements on [channel_deliveries] *)

Definition create_delivery (self : TelegramDelivery) (kind : string) (turn_id : option string) : M string :=
  let! id := draw_id in
  let! now := get_now in
  λ w,
    let t := w_tables w in
    if bool_decide (is_Some (channel_deliveries t !! id)) || negb (bool_decide (td_bot_id self ∈ delivery_bots t))
    then (w, Some (Err database_error))
    else (set_tables (set_deliveries <[id := MkDeliveryRow (td_bot_id self) (td_chat_id self) None kind turn_id None 1
                       DPending None None None None None now now]>) w, Some (Ok id)).

(** UPDATE ... WHERE id = ? AND status IN (...): whether one row changed. *)
Definition update_delivery (id : string) (from : list DeliveryStatus) (f : DeliveryRow -> DeliveryRow) : M bool := λ w,
  match channel_deliveries (w_tables w) !! id with
  | Some r =>
      if bool_decide (d_status r ∈ from)
      then (set_tables (set_deliveries <[id := f r]>) w, Some (Ok true))
      else (w, Some (Ok false))
  | None => (w, Some (Ok false))
  end.

Definition forget (id : string) : M unit := λ w, (set_queue (forget_pending id) w, Some (Ok tt)).

(** A row with another status; the columns a statement sets follow. *)
Definition d_set (status : DeliveryStatus) (now : string) (external : option Z) (error : option string)
    (next_attempt token terminal : option string) (attempts : Z) (evidence : option Z) (r : DeliveryRow) : DeliveryRow :=
  MkDeliveryRow (d_bot_id r) (d_chat_id r) external (d_message_kind r) (d_turn_id r) (d_generation_run_id r)
    attempts status error next_attempt token terminal evidence (d_created_at r) now.

Definition mark_sending (id : string) : M unit :=
  let! token := draw_id in
  let! now := get_now in
  let! changed := update_delivery id [DPending; DRetryPending] (λ r,
    d_set DSending now (d_external_message_id r) (d_last_error r) (d_next_attempt_at r) (Some token)
      (d_terminal_at r) (d_attempt_count r) (d_terminal_evidence r) r) in
  if changed then ok_m tt else err_m (stale_delivery "Telegram 投递状态已被其他尝试接管").

Definition mark_sent_result (id : string) (message_id : Z) : M unit :=
  let! now := get_now in
  let! changed := update_delivery id [DSending] (λ r,
    d_set DSent now (Some message_id) None (d_next_attempt_at r) (d_attempt_token r)
      (d_terminal_at r) (d_attempt_count r) (d_terminal_evidence r) r) in
  if changed then forget id
  else err_m (stale_delivery "Telegram delivery confirmation no longer matches the active attempt").

Definition mark_unknown (id : string) (err : AppError) : M unit :=
  let! now := get_now in
  let! changed := update_delivery id [DSending] (λ r,
    d_set DUnknown now (d_external_message_id r) (Some (a_code err)) (d_next_attempt_at r) (d_attempt_token r)
      (Some now) (d_attempt_count r) (d_terminal_evidence r) r) in
  if changed then forget id
  else err_m (stale_delivery "Telegram unknown delivery state did not update exactly one attempt").

Definition mark_failed (id : string) (err : AppError) : M unit :=
  let! now := get_now in
  let! changed := update_delivery id [DSending] (λ r,
    d_set DFailed now (d_external_message_id r) (Some (a_code err)) (d_next_attempt_at r) (d_attempt_token r)
      (Some now) (d_attempt_count r) (d_terminal_evidence r) r) in
  if changed then forget id
  else err_m (stale_delivery "Telegram failed delivery state did not update exactly one attempt").

Definition retry_at_rfc3339 (retry_after_secs : Z) : M string := λ w,
  (w, Some (if (retry_after_secs <? 2 ^ 63)%Z
            then ok_or (retry_at (w_clock w) retry_after_secs)
                   (bad_gateway "TELEGRAM_RETRY_AFTER_INVALID" "Telegram retry_after produces an out-of-range timestamp")
            else Err (bad_gateway "TELEGRAM_RETRY_AFTER_INVALID" "Telegram retry_after exceeds the supported range"))).

Definition mark_retry_pending (self : TelegramDelivery) (id : string) (err : AppError) : M unit :=
  let! next_attempt_at := retry_at_rfc3339 (retry_after_seconds err) in
  let! token := draw_id in
  let! now := get_now in
  let! changed := update_delivery id [DSending] (λ r,
    d_set DRetryPending now (d_external_message_id r) (Some (a_code err)) (Some next_attempt_at) (Some token)
      (d_terminal_at r) (d_attempt_count r + 1) (d_terminal_evidence r) r) in
  if changed
  then λ w, (set_queue (enqueue_pending id (td_bot_id self) (td_chat_id self)) w, Some (Ok tt))
  else err_m (stale_delivery "Telegram retry state did not update exactly one active attempt").

(** The error to report after a message left but could not be recorded. *)
Definition mark_unknown_after_persistence_failure (id : string) (persistence_error : AppError) : M AppError :=
  let! _ := forget id in
  let! now := get_now in
  let! changed := update_delivery id [DSending; DSent] (λ r,
    d_set DUnknown now (d_external_message_id r) (Some "TELEGRAM_COMMIT_STATE_UNKNOWN") (d_next_attempt_at r)
      (d_attempt_token r) (Some now) (d_attempt_count r) (d_terminal_evidence r) r) in
  ok_m (conflict "TELEGRAM_COMMIT_STATE_UNKNOWN"
    ("persistence_error=" +:+ a_code persistence_error +:+
     (if changed : bool then "; delivery_state=unknown" else "; unknown_state_persistence_not_confirmed"))).

Definition link_generation (id generation_run_id : string) : M unit :=
  let! now := get_now in
  λ w, match channel_deliveries (w_tables w) !! id with
       | Some r =>
           (set_tables (set_deliveries <[id :=
              MkDeliveryRow (d_bot_id r) (d_chat_id r) (d_external_message_id r) (d_message_kind r) (d_turn_id r)
                (Some generation_run_id) (d_attempt_count r) (d_status r) (d_last_error r) (d_next_attempt_at r)
                (d_attempt_token r) (d_terminal_at r) (d_terminal_evidence r) (d_created_at r) now]>) w, Some (Ok tt))
       | None => (w, Some (Err (stale_delivery "Telegram generation link no longer matches a delivery")))
       end.

(** The arms every sender has for a failed [send_message]. *)
Definition record_send_error (self : TelegramDelivery) (id : string) (err : AppError) : M unit :=
  if a_code err =?= "TELEGRAM_RATE_LIMITED" then mark_retry_pending self id err
  else if (a_code err =?= "TELEGRAM_REQUEST_FAILED") || (a_code err =?= "TELEGRAM_RESPONSE_INVALID")
  then mark_unknown id err
  else mark_failed id err.

(** [return Err(self.mark_unknown_after_persistence_failure(..).await)]. *)
Definition give_up_unknown {A} (id : string) (error : AppError) : M A :=
  let! e := mark_unknown_after_persistence_failure id error in err_m e.

(** ** Statements on the turn ledger *)

Definition status_live (r : TurnMessageRow) : bool := (tm_status r =?= "sent") || (tm_status r =?= "active").
Definition lifecycle_live (r : TurnMessageRow) : bool := (tm_lifecycle r =?= "sent") || (tm_lifecycle r =?= "active").
Definition is_live (r : TurnMessageRow) : bool := status_live r && lifecycle_live r.

Definition of_turn (scope : TurnScope) (turn_id : string) (r : TurnMessageRow) : bool :=
  (tm_scope r =?= scope) && (tm_turn_id r =?= turn_id).

(** UPDATE over the ledger: how many rows changed. *)
Definition update_messages (p : TurnMessageRow -> bool) (f : TurnMessageRow -> TurnMessageRow) : M nat := λ w,
  let m := telegram_turn_messages (w_tables w) in
  (set_tables (set_messages (λ m, (λ r, if p r then f r else r) <$> m)) w,
   Some (Ok (size (filter (λ kr : Z * TurnMessageRow, p kr.2 = true) m)))).

(** [i64::try_from(usize)] of a chunk index. *)
Definition encode_chunk_index (chunk_index : nat) : result Z AppError :=
  if (Z.of_nat chunk_index <? 2 ^ 63)%Z then Ok (Z.of_nat chunk_index)
  else Err (bad_request "TELEGRAM_TURN_CHUNK_INDEX_INVALID" "Telegram turn chunk index exceeds SQLite integer range").

Definition revision_i64 (e : string -> string -> AppError) (revision : Z) : result Z AppError :=
  ok_or (i64_try_from revision) (revision_invalid e).

(** The INSERT, under the unique index on scope, turn and chunk. *)
Definition record_scoped_turn_message_with_revision (metadata : TurnMetadata) (chunk_index : nat) (message_id : Z)
    (text status : string) (render_version : Z) : M unit :=
  let! render_version := lift_m (revision_i64 bad_request render_version) in
  let! now := get_now in
  let! chunk := lift_m (encode_chunk_index chunk_index) in
  λ w,
    let t := w_tables w in
    let row := MkTurnMessageRow (md_scope metadata) (md_turn_id metadata) (md_operation_id metadata) chunk message_id
                 (sha256_hex text) render_version status "active" None now now in
    if existsb (λ kr : Z * TurnMessageRow,
         of_turn (md_scope metadata) (md_turn_id metadata) kr.2 && (tm_chunk_index kr.2 =? chunk)%Z)
         (map_to_list (telegram_turn_messages t))
    then (w, Some (Err database_error))
    else (set_tables (λ t, MkTables (channel_deliveries t)
            (<[(last_turn_message t + 1)%Z := row]> (telegram_turn_messages t)) (last_turn_message t + 1)
            (telegram_turn_targets t) (delivery_bots t) (delivery_operations t)) w, Some (Ok tt)).

(** The rows [replace] and [update] address. *)
Definition addressed (scope : TurnScope) (turn_id : string) (chunk message_id revision : Z) (r : TurnMessageRow) : bool :=
  of_turn scope turn_id r && (tm_chunk_index r =? chunk)%Z && (tm_message_id r =? message_id)%Z
  && (tm_render_version r <=? revision)%Z && is_live r.

Definition rewrite_message (message_id : Z) (hash lifecycle : string) (revision : Z) (now : string) (r : TurnMessageRow)
  : TurnMessageRow :=
  MkTurnMessageRow (tm_scope r) (tm_turn_id r) (tm_operation_id r) (tm_chunk_index r) message_id hash revision
    "sent" lifecycle (tm_terminal_at r) (tm_created_at r) now.

Definition update_turn_chunk_scoped (scope : TurnScope) (target_revision : Z) (turn_id : string) (chunk_index : nat)
    (message_id : Z) (text : string) : M unit :=
  let! next := lift_m (next_revision_of target_revision) in
  let! next := lift_m (revision_i64 conflict next) in
  let! now := get_now in
  let! chunk := lift_m (encode_chunk_index chunk_index) in
  let! target := lift_m (revision_i64 conflict target_revision) in
  let! changed := update_messages (addressed scope turn_id chunk message_id target)
    (λ r, rewrite_message (tm_message_id r) (sha256_hex text) (tm_lifecycle r) next now r) in
  if changed =? 1 then ok_m tt
  else err_m (stale_ledger "Telegram turn ledger no longer matches the active scoped message").

(** MAX(render_version) over the live rows of a turn. *)
Definition max_revision (scope : TurnScope) (turn_id : string) (t : Tables) : option Z :=
  foldr (λ v acc, Some (match acc with Some m => Z.max m v | None => v end)) None
    ((λ kr : Z * TurnMessageRow, tm_render_version kr.2) <$>
     filter (λ kr : Z * TurnMessageRow, of_turn scope turn_id kr.2 && is_live kr.2 = true)
       (map_to_list (telegram_turn_messages t))).

Definition assert_turn_revision (scope : TurnScope) (turn_id : string) (expected_revision : Z) : M unit := λ w,
  match max_revision scope turn_id (w_tables w) with
  | None => (w, Some (Err (stale_ledger "Telegram turn revision is missing")))
  | Some stored =>
      (w, Some (let? expected := revision_i64 conflict expected_revision in
                if (stored =? expected)%Z then Ok tt
                else Err (conflict "TELEGRAM_TURN_REVISION_CONFLICT" "Telegram turn revision changed concurrently")))
  end.

Definition retire_row (now : string) (r : TurnMessageRow) : TurnMessageRow :=
  MkTurnMessageRow (tm_scope r) (tm_turn_id r) (tm_operation_id r) (tm_chunk_index r) (tm_message_id r)
    (tm_content_hash r) (tm_render_version r) "retired" "retired" (Some now) (tm_created_at r) now.

Definition retire_turn_scoped (self : TelegramDelivery) (scope : TurnScope) (turn_id operation_id : string) : M unit :=
  if is_blank turn_id || is_blank operation_id || negb (ts_chat_id scope =? td_chat_id self)%Z
  then err_m (bad_request "TELEGRAM_TURN_SCOPE_INVALID" "Telegram turn retirement identity is invalid") else
  let! now := get_now in
  let! changed := update_messages
    (λ r, of_turn scope turn_id r && negb (tm_operation_id r =?= operation_id) && is_live r) (retire_row now) in
  if changed =? 0 then err_m (stale_ledger "Telegram turn retirement matched no active scoped message") else ok_m tt.

Definition mark_status (scope : TurnScope) (message_id : Z) (status : string) : M unit :=
  let! now := get_now in
  let lifecycle := if (status =?= "deleted") || (status =?= "revoked") then "retired" else "active" in
  let! changed := update_messages
    (λ r, (tm_scope r =?= scope) && (tm_message_id r =? message_id)%Z && status_live r)
    (λ r, MkTurnMessageRow (tm_scope r) (tm_turn_id r) (tm_operation_id r) (tm_chunk_index r) (tm_message_id r)
            (tm_content_hash r) (tm_render_version r) status lifecycle (tm_terminal_at r) (tm_created_at r) now) in
  if changed =? 1 then ok_m tt
  else err_m (stale_ledger "Telegram turn status update did not match exactly one scoped message").

(** ** Sending *)

Definition send_single_scoped_result_with_revision (self : TelegramDelivery) (metadata : TurnMetadata)
    (chunk_index : nat) (text : string) (markup : option Value) (render_version : Z) : M Z :=
  let! delivery_id := create_delivery self "reply" (Some (md_operation_id metadata)) in
  let! _ := mark_sending delivery_id in
  mresult (send_message self text markup) (λ sent,
    match sent with
    | Ok message_id =>
        mresult (record_scoped_turn_message_with_revision metadata chunk_index message_id text "sent" render_version)
          (λ r, match r with
          | Err error => give_up_unknown delivery_id error
          | Ok _ =>
              mresult (mark_sent_result delivery_id message_id) (λ r, match r with
              | Err error => give_up_unknown delivery_id error
              | Ok _ => ok_m message_id
              end)
          end)
    | Err err => let! _ := record_send_error self delivery_id err in err_m err
    end).

Definition send_single_scoped_result (self : TelegramDelivery) (metadata : TurnMetadata) (chunk_index : nat)
    (text : string) (markup : option Value) : M Z :=
  send_single_scoped_result_with_revision self metadata chunk_index text markup 1.

Definition send_turn_chunk_scoped (self : TelegramDelivery) (metadata : TurnMetadata) (target_revision : Z)
    (chunk_index : nat) (text : string) : M Z :=
  let! next := lift_m (next_revision_of target_revision) in
  send_single_scoped_result_with_revision self metadata chunk_index text None next.

(** After [mark_sending]: the rest of [send_single_reply_result], shared with
    [retry_pending_reply]. *)
Definition send_and_record (self : TelegramDelivery) (delivery_id text : string) (markup : option Value) : M Z :=
  mresult (send_message self text markup) (λ sent,
    match sent with
    | Ok message_id =>
        mresult (mark_sent_result delivery_id message_id) (λ r, match r with
        | Err error => give_up_unknown delivery_id error
        | Ok _ => ok_m message_id
        end)
    | Err err => let! _ := record_send_error self delivery_id err in err_m err
    end).

Definition send_single_reply_result (self : TelegramDelivery) (turn_id : option string) (text : string)
    (markup : option Value) : M Z :=
  let! delivery_id := create_delivery self "reply" turn_id in
  let! _ := mark_sending delivery_id in
  send_and_record self delivery_id text markup.

Definition retry_pending_reply (self : TelegramDelivery) (delivery_id text : string) (markup : option Value) : M Z :=
  let! _ := mark_sending delivery_id in
  send_and_record self delivery_id text markup.

(** [chunk_text] with as much fuel as it can need; a chunk size of one unit does
    not return. *)
Definition chunks_of (self : TelegramDelivery) (text : string) : M (list string) :=
  match chunk_text (String.length text) text (chunk_size (td_policy self)) with
  | Some chunks => ok_m chunks
  | None => hang_m
  end.

(** The [for] loop over chunks; the markup goes with the first one. *)
Fixpoint send_chunks (send : nat -> string -> option Value -> M Z) (index : nat) (chunks : list string)
    (markup : option Value) : M (list Z) :=
  match chunks with
  | [] => ok_m []
  | chunk :: chunks =>
      let! id := send index chunk markup in
      let! ids := send_chunks send (S index) chunks None in
      ok_m (id :: ids)
  end.

Definition send_reply (self : TelegramDelivery) (text : string) (markup : option Value) : M unit :=
  let! chunks := chunks_of self text in
  let! _ := send_chunks (λ _, send_single_reply_result self None) 0 chunks markup in ok_m tt.

Definition send_operation_reply (self : TelegramDelivery) (operation_id text : string) (markup : option Value) : M unit :=
  if is_blank operation_id
  then err_m (bad_request "TELEGRAM_OPERATION_ID_REQUIRED" "operation reply requires an operation id") else
  let! chunks := chunks_of self text in
  let! _ := send_chunks (λ _, send_single_reply_result self (Some operation_id)) 0 chunks markup in ok_m tt.

Definition send_reply_with_turn_ids (self : TelegramDelivery) (turn_id text : string) (markup : option Value) : M (list Z) :=
  let! chunks := chunks_of self text in
  send_chunks (λ _, send_single_reply_result self (Some turn_id)) 0 chunks markup.

Definition send_business_reply (self : TelegramDelivery) (metadata : TurnMetadata) (text : string)
    (markup : option Value) : M (list Z) :=
  let! chunks := chunks_of self text in
  send_chunks (send_single_scoped_result self metadata) 0 chunks markup.

(** [send_single_reply]: errors are logged only. *)
Definition ignore_error {A} (m : M A) : M unit := mresult m (λ _, ok_m tt).

Definition send_single_reply (self : TelegramDelivery) (turn_id : option string) (text : string) (markup : option Value)
  : M unit :=
  mresult (create_delivery self "reply" turn_id) (λ created,
    let go (id : option string) : M unit :=
      mresult (send_message self text markup) (λ sent,
        match sent, id with
        | Ok message_id, Some id => ignore_error (mark_sent_result id message_id)
        | Err err, Some id => ignore_error (record_send_error self id err)
        | _, None => ok_m tt
        end) in
    match created with
    | Err _ => go None
    | Ok id => mresult (mark_sending id) (λ r, match r with Ok _ => go (Some id) | Err _ => ok_m tt end)
    end).

Fixpoint send_each (send : string -> option Value -> M unit) (chunks : list string) (markup : option Value) : M unit :=
  match chunks with
  | [] => ok_m tt
  | chunk :: chunks => let! _ := send chunk markup in send_each send chunks None
  end.

Definition send_reply_with_turn (self : TelegramDelivery) (turn_id : option string) (text : string)
    (markup : option Value) : M unit :=
  let! chunks := chunks_of self text in
  send_each (send_single_reply self turn_id) chunks markup.

(** The updates of [replace_turn_chunk_scoped]: both change exactly one row. *)
Definition replace_updates (delivery_id : string) (scope : TurnScope) (turn_id : string) (chunk old_id new_id_ target next : Z)
    (hash : string) : M unit :=
  let! now := get_now in
  let! changed := update_messages (addressed scope turn_id chunk old_id target)
    (rewrite_message new_id_ hash "active" next now) in
  if negb (changed =? 1)
  then err_m (stale_ledger "Telegram turn replacement revision or target no longer matches") else
  let! changed := update_delivery delivery_id [DSending] (λ r,
    d_set DSent now (Some new_id_) (d_last_error r) (d_next_attempt_at r) (d_attempt_token r) (d_terminal_at r)
      (d_attempt_count r) (Some old_id) r) in
  if changed then ok_m tt
  else err_m (stale_delivery "Telegram replacement delivery confirmation no longer matches").

(** A transaction: an error rolls back, and nothing of it is seen before it commits. *)
Definition transaction {A} (m : M A) : M A := λ w,
  match m w with
  | (w', Some (Ok a)) =>
      (MkWorld (w_tables w') (w_queue w') (w_clock w') (w_requests w') (w_replies w') (w_ids w')
         (w_past w ++ [w_tables w']), Some (Ok a))
  | (_, Some (Err e)) => (w, Some (Err e))
  | (_, None) => (w, None)
  end.

Definition replace_turn_chunk_scoped (self : TelegramDelivery) (metadata : TurnMetadata) (target_revision : Z)
    (chunk_index : nat) (old_message_id : Z) (text : string) : M Z :=
  let! delivery_id := create_delivery self "reply" (Some (md_operation_id metadata)) in
  let! _ := mark_sending delivery_id in
  mresult (send_message self text None) (λ sent,
    match sent with
    | Err err => let! _ := record_send_error self delivery_id err in err_m err
    | Ok new_message_id =>
        let! next := lift_m (next_revision_of target_revision) in
        let! next := lift_m (revision_i64 conflict next) in
        let! chunk := lift_m (encode_chunk_index chunk_index) in
        let! target := lift_m (revision_i64 conflict target_revision) in
        mresult (transaction (replace_updates delivery_id (md_scope metadata) (md_turn_id metadata) chunk old_message_id
                   new_message_id target next (sha256_hex text))) (λ r, match r with
        | Err error => give_up_unknown delivery_id error
        | Ok _ =>
            mresult (delete_message_in_chat self (ts_chat_id (md_scope metadata)) old_message_id) (λ r, match r with
            | Err error => give_up_unknown delivery_id error
            | Ok _ => let! _ := forget delivery_id in ok_m new_message_id
            end)
        end)
    end).

(** ** Reading the ledger *)

Definition newer_row (a b : Z * TurnMessageRow) : bool :=
  text_lt (tm_updated_at b.2) (tm_updated_at a.2)
  || ((tm_updated_at a.2 =?= tm_updated_at b.2) && (b.1 <=? a.1)%Z).
Definition chunk_order (a b : Z * TurnMessageRow) : bool :=
  (tm_chunk_index a.2 <? tm_chunk_index b.2)%Z
  || ((tm_chunk_index a.2 =? tm_chunk_index b.2)%Z && (a.1 <=? b.1)%Z).

Definition live_rows (p : TurnMessageRow -> bool) (t : Tables) : list (Z * TurnMessageRow) :=
  filter (λ kr : Z * TurnMessageRow, p kr.2 && is_live kr.2 = true) (map_to_list (telegram_turn_messages t)).

Definition find_last_turn (scope : TurnScope) : M (option string * list Z * Z) := λ w,
  let t := w_tables w in
  match sort_by newer_row (live_rows (λ r, tm_scope r =?= scope) t) with
  | [] => (w, Some (Ok (None, [], 0%Z)))
  | (_, latest) :: _ =>
      let turn_id := tm_turn_id latest in
      let ids := (λ kr : Z * TurnMessageRow, tm_message_id kr.2) <$> sort_by chunk_order (live_rows (of_turn scope turn_id) t) in
      (w, Some (let? revision := ok_or (max_revision scope turn_id t) (internal "Telegram turn render revision is missing") in
                if (revision <? 0)%Z
                then Err (internal "Telegram turn render revision is outside the supported range")
                else Ok (Some turn_id, ids, revision)))
  end.

(** ** Frozen targets *)

Definition target_invalid (e : string -> string -> AppError) (message : string) : AppError :=
  e "TELEGRAM_TURN_TARGET_INVALID" message.

Definition load_frozen_target (operation_id : string) (scope : TurnScope) : M (option FrozenTurnTarget) := λ w,
  match telegram_turn_targets (w_tables w) !! operation_id with
  | Some r =>
      if negb (tt_scope r =?= scope) then (w, Some (Ok None)) else
      if existsb (λ id, (id <=? 0)%Z) (tt_old_message_ids r) || negb (is_lower_sha256 (tt_tail_fingerprint r))
      then (w, Some (Err (target_invalid conflict "frozen Telegram target contains invalid identity data"))) else
      if (tt_target_revision r <? 0)%Z
      then (w, Some (Err (target_invalid conflict "frozen Telegram target revision is invalid")))
      else (w, Some (Ok (Some (MkFrozenTurnTarget operation_id scope (tt_target_turn_id r) (tt_tail_fingerprint r)
              (tt_target_revision r) (tt_old_message_ids r) (tt_status r)))))
  | None => (w, Some (Ok None))
  end.

(** INSERT ... ON CONFLICT DO NOTHING, with the foreign key and the CHECKs. *)
Definition insert_target (operation_id : string) (row : TargetRow) : M bool := λ w,
  let t := w_tables w in
  if bool_decide (is_Some (telegram_turn_targets t !! operation_id)) then (w, Some (Ok false)) else
  if negb (bool_decide (operation_id ∈ delivery_operations t)) || (ts_numeric_bot_id (tt_scope row) <=? 0)%Z
  then (w, Some (Err database_error))
  else (set_tables (set_targets <[operation_id := row]>) w, Some (Ok true)).

Definition target_reused : AppError :=
  conflict "TELEGRAM_TURN_TARGET_IDENTITY_REUSED" "frozen Telegram target identity was reused".

Definition freeze_target (operation_id : string) (scope : TurnScope) (target_turn_id tail_fingerprint : string)
    (target_revision : Z) (old_message_ids : list Z) : M FrozenTurnTarget :=
  if is_blank operation_id || is_blank target_turn_id || negb (is_lower_sha256 tail_fingerprint)
     || existsb (λ id, (id <=? 0)%Z) old_message_ids
  then err_m (target_invalid bad_request "frozen Telegram target identity is invalid") else
  let! revision := lift_m (ok_or (i64_try_from target_revision)
                     (target_invalid bad_request "frozen Telegram target revision is invalid")) in
  let! now := get_now in
  let! inserted := insert_target operation_id
    (MkTargetRow scope target_turn_id tail_fingerprint revision old_message_ids "frozen" now now) in
  let! loaded := load_frozen_target operation_id scope in
  match loaded with
  | None =>
      err_m (if inserted : bool then internal "frozen Telegram target disappeared after insert" else target_reused)
  | Some existing =>
      if negb inserted
         && negb ((ft_target_turn_id existing =?= target_turn_id) && (ft_tail_fingerprint existing =?= tail_fingerprint)
                  && (ft_target_revision existing =? target_revision)%Z
                  && (ft_old_message_ids existing =?= old_message_ids))
      then err_m target_reused
      else ok_m existing
  end.

Definition target_transition (expected next : string) : bool :=
  ((expected =?= "frozen") && (next =?= "applying"))
  || ((expected =?= "applying") && ((next =?= "applied") || (next =?= "failed") || (next =?= "unknown"))).

Definition cas_target_status (operation_id : string) (scope : TurnScope) (expected next : string) : M unit :=
  if negb (target_transition expected next)
  then err_m (bad_request "TELEGRAM_TURN_TARGET_STATUS_INVALID" "invalid frozen Telegram target status transition") else
  let! now := get_now in
  λ w,
    match telegram_turn_targets (w_tables w) !! operation_id with
    | Some r =>
        if (tt_scope r =?= scope) && (tt_status r =?= expected)
        then (set_tables (set_targets <[operation_id :=
               MkTargetRow (tt_scope r) (tt_target_turn_id r) (tt_tail_fingerprint r) (tt_target_revision r)
                 (tt_old_message_ids r) next (tt_created_at r) now]>) w, Some (Ok tt))
        else (w, Some (Err (conflict "TELEGRAM_TURN_TARGET_CAS_CONFLICT" "frozen Telegram target status changed concurrently")))
    | None => (w, Some (Err (conflict "TELEGRAM_TURN_TARGET_CAS_CONFLICT" "frozen Telegram target status changed concurrently")))
    end.

(** ** Removing messages *)

Fixpoint revoke_extras (self : TelegramDelivery) (scope : TurnScope) (ids : list Z) (effect : RevokeEffectResult)
  : M RevokeEffectResult :=
  match ids with
  | [] => ok_m effect
  | id :: ids =>
      mresult (delete_message_in_chat self (ts_chat_id scope) id) (λ r,
        let gone := match r with Ok _ => true | Err e => is_not_found_error e end in
        if gone then
          let! _ := mark_status scope id "deleted" in
          revoke_extras self scope ids (MkRevokeEffectResult (edited_tombstone_message_id effect)
            (deleted_extra_message_ids effect ++ [id]) (failed_message_ids effect))
        else revoke_extras self scope ids (MkRevokeEffectResult (edited_tombstone_message_id effect)
            (deleted_extra_message_ids effect) (failed_message_ids effect ++ [id])))
  end.

Definition execute_revoke_effect_scoped (self : TelegramDelivery) (scope : TurnScope) (target_message_ids : list Z)
    (tombstone : string) : M RevokeEffectResult :=
  match target_message_ids with
  | first_id :: extras =>
      if negb (ts_chat_id scope =? td_chat_id self)%Z then ok_m (MkRevokeEffectResult None [] []) else
      mresult (edit_message self first_id tombstone) (λ r,
        match r with
        | Ok _ =>
            let! _ := mark_status scope first_id "revoked" in
            revoke_extras self scope extras (MkRevokeEffectResult (Some first_id) [] [])
        | Err _ => revoke_extras self scope extras (MkRevokeEffectResult None [] [first_id])
        end)
  | [] => ok_m (MkRevokeEffectResult None [] [])
  end.

Fixpoint delete_each (self : TelegramDelivery) (scope : TurnScope) (ids : list Z) : M unit :=
  match ids with
  | [] => ok_m tt
  | id :: ids =>
      let! _ := delete_message_in_chat self (ts_chat_id scope) id in
      let! _ := mark_status scope id "deleted" in
      delete_each self scope ids
  end.

Definition execute_redo_cleanup_scoped (self : TelegramDelivery) (scope : TurnScope) (previous_ids new_ids : list Z)
  : M unit :=
  let keep := Nat.max (length new_ids) 1 in
  if (length previous_ids <=? keep) || negb (ts_chat_id scope =? td_chat_id self)%Z then ok_m tt
  else delete_each self scope (rev (drop keep previous_ids)).

(** ** After a restart *)

Definition older_delivery (a b : string * DeliveryRow) : bool := text_le (d_updated_at a.2) (d_updated_at b.2).

Definition recover_pending_deliveries (self : TelegramDelivery) : M nat := λ w,
  let now := now_text (w_clock w) in
  let rows := take 128 (sort_by older_delivery (filter (λ kr : string * DeliveryRow,
    (d_bot_id kr.2 =?= td_bot_id self) && (d_chat_id kr.2 =? td_chat_id self)%Z
    && ((d_status kr.2 =?= DPending) || (d_status kr.2 =?= DRetryPending))
    && match d_next_attempt_at kr.2 with None => true | Some at_ => text_le at_ now end = true)
    (map_to_list (channel_deliveries (w_tables w))))) in
  (set_queue (λ q, foldl (λ q kr, enqueue_pending kr.1 (td_bot_id self) (td_chat_id self) q) q rows) w,
   Some (Ok (length rows))).

(** ** Streaming into a message *)

Record TelegramProgressSink := MkTelegramProgressSink {
  ps_delivery : TelegramDelivery;
  ps_delivery_id : string;
  ps_message_id : Z;
  ps_metadata : TurnMetadata;
  ps_render_version : Z;
  ps_stream : StreamState;
  ps_finalized : bool;
}.

(** The stored placeholder of this operation, newest first. *)
Definition newest_delivery (a b : string * DeliveryRow) : bool := text_le (d_created_at b.2) (d_created_at a.2).

Definition existing_placeholder (self : TelegramDelivery) (operation_id : string) (t : Tables) : option (string * Z) :=
  match sort_by newest_delivery (filter (λ kr : string * DeliveryRow,
      (d_bot_id kr.2 =?= td_bot_id self) && (d_chat_id kr.2 =? td_chat_id self)%Z
      && (d_message_kind kr.2 =?= "generation") && (d_turn_id kr.2 =?= Some operation_id) && (d_status kr.2 =?= DSent)
      && bool_decide (is_Some (d_external_message_id kr.2)) = true)
      (map_to_list (channel_deliveries t))) with
  | (id, r) :: _ => match d_external_message_id r with Some m => Some (id, m) | None => None end
  | [] => None
  end.

Definition stream_sink (self : TelegramDelivery) (metadata : TurnMetadata) (placeholder : string)
  : M TelegramProgressSink := λ w,
  let sink id message := MkTelegramProgressSink self id message metadata 1 StreamState_new false in
  match existing_placeholder self (md_operation_id metadata) (w_tables w) with
  | Some (id, message_id) =>
      if (message_id <=? 0)%Z
      then (w, Some (Err (bad_gateway "TELEGRAM_RESPONSE_INVALID" "stored generation message_id is invalid")))
      else (w, Some (Ok (sink id message_id)))
  | None =>
      (let! delivery_id := create_delivery self "generation" (Some (md_operation_id metadata)) in
       let! _ := mark_sending delivery_id in
       mresult (send_message self placeholder None) (λ sent,
         match sent with
         | Err err => let! _ := record_send_error self delivery_id err in err_m err
         | Ok message_id =>
             mresult (record_scoped_turn_message_with_revision metadata 0 message_id placeholder "sent" 1)
               (λ r, match r with
               | Err error => give_up_unknown delivery_id error
               | Ok _ => mresult (mark_sent_result delivery_id message_id) (λ r, match r with
                   | Err error => give_up_unknown delivery_id error
                   | Ok _ => ok_m (sink delivery_id message_id)
                   end)
               end)
         end)) w
  end.

Definition sink_with (version : Z) (stream : StreamState) (finalized : bool) (s : TelegramProgressSink) : TelegramProgressSink :=
  MkTelegramProgressSink (ps_delivery s) (ps_delivery_id s) (ps_message_id s) (ps_metadata s) version stream finalized.

(** The further chunks of [finalize]; the revision after each is one more. *)
Fixpoint finalize_rest (s : TelegramProgressSink) (index : nat) (chunks : list string) (revision : Z) : M Z :=
  match chunks with
  | [] => ok_m revision
  | chunk :: chunks =>
      let! _ := send_turn_chunk_scoped (ps_delivery s) (ps_metadata s) revision index chunk in
      let! revision := lift_m (next_revision_of revision) in
      finalize_rest s (S index) chunks revision
  end.

(** [finalize]; the sink it leaves behind keeps its revision when it fails. *)
Definition finalize (s : TelegramProgressSink) (text : string) : M TelegramProgressSink :=
  if ps_finalized s then ok_m s else
  let! now := (λ w, (w, Some (Ok (w_clock w)))) in
  let s := sink_with (ps_render_version s) (force_final (ps_stream s) text now).2 true s in
  if is_blank text then ok_m s else
  let! chunks := chunks_of (ps_delivery s) text in
  match chunks with
  | [] => ok_m s
  | first :: rest =>
      mresult (edit_message (ps_delivery s) (ps_message_id s) first) (λ r, match r with
      | Err error => give_up_unknown (ps_delivery_id s) error
      | Ok _ =>
          mresult (update_turn_chunk_scoped (md_scope (ps_metadata s)) (ps_render_version s) (md_turn_id (ps_metadata s))
                     0 (ps_message_id s) first) (λ r, match r with
          | Err error => give_up_unknown (ps_delivery_id s) error
          | Ok _ =>
              let! revision := lift_m (next_revision_of (ps_render_version s)) in
              let! revision := finalize_rest s 1 rest revision in
              ok_m (sink_with revision (ps_stream s) true s)
          end)
      end)
  end.

Definition sink_fail (s : TelegramProgressSink) (message : string) : M TelegramProgressSink :=
  finalize s ("生成失败：" +:+ message).

(** The [Delta] arm of [emit]: a throttled edit of the placeholder whose errors
    are only logged. *)
Definition emit_delta (s : TelegramProgressSink) (full_text : string) : M TelegramProgressSink :=
  let! now := (λ w, (w, Some (Ok (w_clock w)))) in
  let '(render, stream) := should_render (ps_stream s) full_text (td_policy (ps_delivery s)) now in
  let s := sink_with (ps_render_version s) stream (ps_finalized s) s in
  if negb render then ok_m s else
  let! chunks := chunks_of (ps_delivery s) full_text in
  let first := default "" (head chunks) in
  if first =?= "" then ok_m s else
  let! _ := ignore_error (edit_message (ps_delivery s) (ps_message_id s) first) in ok_m s.

End Delivery.
