(* ===== verification/DeliveryCorrect.v ===== *)
(** * What delivery guarantees ([modules/telegram/delivery.rs])

    Every statement of every method moves delivery rows and frozen targets forward
    only, so what holds of whole calls holds of calls cut off between two statements. *)

From S2P Require Import Prelude Text Errors StDomain OperationStore Redaction TelegramText DeliveryQueue TelegramInbox Delivery.
From stdpp Require Import pretty.
From Stdlib Require Import Lia.

(** ** How rows may evolve *)

Inductive status_step : DeliveryStatus -> DeliveryStatus -> Prop :=
| ss_send : status_step DPending DSending
| ss_resend : status_step DRetryPending DSending
| ss_sent : status_step DSending DSent
| ss_retry : status_step DSending DRetryPending
| ss_unknown : status_step DSending DUnknown
| ss_failed : status_step DSending DFailed
| ss_doubt : status_step DSent DUnknown.

(** What a delivery row keeps: its identity; and attempts are not taken back. *)
Record row_forward (r r' : DeliveryRow) : Prop := {
  rf_status : rtc status_step (d_status r) (d_status r');
  rf_bot : d_bot_id r' = d_bot_id r;
  rf_chat : d_chat_id r' = d_chat_id r;
  rf_kind : d_message_kind r' = d_message_kind r;
  rf_turn : d_turn_id r' = d_turn_id r;
  rf_created : d_created_at r' = d_created_at r;
  rf_attempts : (d_attempt_count r <= d_attempt_count r')%Z;
}.

Inductive target_step : string -> string -> Prop :=
| ts_apply : target_step "frozen" "applying"
| ts_applied : target_step "applying" "applied"
| ts_failed : target_step "applying" "failed"
| ts_unknown : target_step "applying" "unknown".

Record target_forward (r r' : TargetRow) : Prop := {
  tf_status : rtc target_step (tt_status r) (tt_status r');
  tf_scope : tt_scope r' = tt_scope r;
  tf_turn : tt_target_turn_id r' = tt_target_turn_id r;
  tf_tail : tt_tail_fingerprint r' = tt_tail_fingerprint r;
  tf_revision : tt_target_revision r' = tt_target_revision r;
  tf_ids : tt_old_message_ids r' = tt_old_message_ids r;
}.

Record forward (t t' : Tables) : Prop := {
  fw_rows : forall id r, channel_deliveries t !! id = Some r ->
            exists r', channel_deliveries t' !! id = Some r' /\ row_forward r r';
  fw_targets : forall id r, telegram_turn_targets t !! id = Some r ->
               exists r', telegram_turn_targets t' !! id = Some r' /\ target_forward r r';
}.

Lemma row_forward_refl r : row_forward r r.
Proof. split; auto; [apply rtc_refl | lia]. Qed.

Lemma row_forward_trans a b c : row_forward a b -> row_forward b c -> row_forward a c.
Proof. intros [] []. split; try congruence; [by etransitivity | lia]. Qed.

Lemma target_forward_refl r : target_forward r r.
Proof. split; auto. apply rtc_refl. Qed.

Lemma target_forward_trans a b c : target_forward a b -> target_forward b c -> target_forward a c.
Proof. intros [] []. split; try congruence. by etransitivity. Qed.

#[export] Instance forward_preorder : PreOrder forward.
Proof.
  split.
  - intros t. split; eauto using row_forward_refl, target_forward_refl.
  - intros a b c [H1 H2] [H3 H4]. split.
    + intros id r Hr. destruct (H1 id r Hr) as (r1 & Hr1 & Hf1). destruct (H3 id r1 Hr1) as (r2 & Hr2 & Hf2).
      eauto using row_forward_trans.
    + intros id r Hr. destruct (H2 id r Hr) as (r1 & Hr1 & Hf1). destruct (H4 id r1 Hr1) as (r2 & Hr2 & Hf2).
      eauto using target_forward_trans.
Qed.

(** From [t], through the tables [l], to [t']. *)
Fixpoint climbs (t : Tables) (l : list Tables) (t' : Tables) : Prop :=
  match l with [] => t' = t | u :: l => forward t u /\ climbs u l t' end.

Lemma climbs_app t l u l' t' : climbs t l u -> climbs u l' t' -> climbs t (l ++ l') t'.
Proof. revert t. induction l as [|x l IH]; intros t; simpl; [by intros -> | intros [? ?] ?; eauto]. Qed.

Lemma climbs_forward t l t' : climbs t l t' -> forward t t'.
Proof. revert t. induction l as [|x l IH]; intros t; simpl; [by intros -> | intros [? ?]; etransitivity; eauto]. Qed.

(** Two tables next to each other on the way. *)
Lemma climbs_next t l t' l1 a b l2 : climbs t l t' -> t :: l = l1 ++ a :: b :: l2 -> forward a b.
Proof.
  revert t l1. induction l as [|x l IH]; intros t l1 Hc Heq; [by destruct l1 as [|? [|? ?]] |].
  destruct Hc as [Hf Hc]. destruct l1 as [|y l1]; [by injection Heq as -> -> -> |].
  injection Heq as _ Heq. by eapply IH.
Qed.

(** What was added to the past leads forward, one statement at a time. *)
Definition climbed (w w' : World) : Prop :=
  exists l, w_past w' = w_past w ++ l /\ climbs (w_tables w) l (w_tables w').

Lemma climbed_refl w w' : w_tables w' = w_tables w -> w_past w' = w_past w -> climbed w w'.
Proof. intros Ht Hp. exists []. by rewrite app_nil_r. Qed.

Lemma climbed_trans w1 w2 w3 : climbed w1 w2 -> climbed w2 w3 -> climbed w1 w3.
Proof.
  intros (l & Hp & Hc) (l' & Hp' & Hc'). exists (l ++ l'). split; [by rewrite Hp', Hp, app_assoc |]. by eapply climbs_app.
Qed.

Lemma climbed_set f w : forward (w_tables w) (f (w_tables w)) -> climbed w (set_tables f w).
Proof. intros Hf. by exists [f (w_tables w)]. Qed.

(** Methods that only move forward, at every statement. *)
Definition advances {A} (m : M A) : Prop := forall w, climbed w (m w).1.

Create HintDb delivery.

Lemma advances_still {A} (m : M A) :
  (forall w, w_tables (m w).1 = w_tables w /\ w_past (m w).1 = w_past w) -> advances m.
Proof. intros Hm w. destruct (Hm w). by apply climbed_refl. Qed.

Lemma advances_ok {A} (a : A) : advances (ok_m a).
Proof. by apply advances_still. Qed.
Lemma advances_err {A} e : advances (err_m (A := A) e).
Proof. by apply advances_still. Qed.
Lemma advances_hang {A} : advances (hang_m (A := A)).
Proof. by apply advances_still. Qed.
Lemma advances_lift {A} (r : result A AppError) : advances (lift_m r).
Proof. by apply advances_still. Qed.

Lemma advances_mresult {A B} (m : M A) (k : result A AppError -> M B) :
  advances m -> (forall r, advances (k r)) -> advances (mresult m k).
Proof.
  intros Hm Hk w. unfold mresult. specialize (Hm w). destruct (m w) as [w' [r|]]; [| done].
  eapply climbed_trans; [exact Hm | apply Hk].
Qed.

Lemma advances_mbind {A B} (m : M A) (k : A -> M B) :
  advances m -> (forall a, advances (k a)) -> advances (mbind_ m k).
Proof. intros Hm Hk. apply advances_mresult; [done |]. intros [a|e]; [apply Hk | apply advances_err]. Qed.

#[export] Hint Resolve advances_ok advances_err advances_hang advances_lift : delivery.

(** Splits a method into its steps. *)
Ltac advances :=
  repeat first
    [ progress intros
    | solve [auto with delivery]
    | apply advances_mbind
    | apply advances_mresult
    | match goal with |- advances (match ?x with _ => _ end) => destruct x end
    | match goal with |- advances (if ?x then _ else _) => destruct x end ].

Section Methods.
Context (new_id : nat -> string) (now_text : Z -> string) (retry_at : Z -> Z -> option string)
  (sha256_hex : string -> string).
Context `{Redactor}.

Lemma advances_fresh : advances (draw_id new_id).
Proof. by apply advances_still. Qed.
Lemma advances_now : advances (get_now now_text).
Proof. by apply advances_still. Qed.
Lemma advances_clock : advances (λ w, (w, Some (Ok (w_clock w)))).
Proof. by apply advances_still. Qed.
Lemma advances_forget id : advances (forget id).
Proof. by apply advances_still. Qed.
Lemma advances_retry_at secs : advances (retry_at_rfc3339 retry_at secs).
Proof. by apply advances_still. Qed.
Lemma advances_call self method body : advances (call self method body).
Proof.
  apply advances_still. intros w. unfold call. destruct (match w_replies w with [] => _ | _ => _ end); try done.
  repeat case_match; done.
Qed.
Lemma advances_update_messages p f : advances (update_messages p f).
Proof. intros w. apply climbed_set. split; cbn; eauto using row_forward_refl, target_forward_refl. Qed.

Lemma advances_update_delivery id from f :
  (forall r, d_status r ∈ from -> row_forward r (f r)) -> advances (update_delivery id from f).
Proof.
  intros Hf w. unfold update_delivery. destruct (channel_deliveries (w_tables w) !! id) as [r|] eqn:Er; [| by apply climbed_refl].
  case_bool_decide as Hin; [| by apply climbed_refl]. apply climbed_set. split; cbn; [| eauto using target_forward_refl].
  intros i q Hq. destruct (decide (i = id)) as [-> | Hne].
  - rewrite lookup_insert_eq. assert (q = r) as -> by congruence. eauto.
  - rewrite lookup_insert_ne by done. eauto using row_forward_refl.
Qed.

(** A statement that sets the status along one arrow. *)
Lemma d_set_forward status now ext err next tok term att ev r :
  status_step (d_status r) status -> (d_attempt_count r <= att)%Z ->
  row_forward r (d_set status now ext err next tok term att ev r).
Proof. intros Hs Ha. split; cbn; auto. by apply rtc_once. Qed.

#[local] Hint Resolve advances_fresh advances_now advances_clock advances_forget advances_retry_at advances_call
  advances_update_messages : delivery.

Ltac status_arrow :=
  apply advances_update_delivery; intros ?r Hin; apply d_set_forward; [| lia];
  repeat (apply elem_of_cons in Hin as [-> | Hin]; [constructor |]); by apply elem_of_nil in Hin.

Lemma advances_create self kind turn : advances (create_delivery new_id now_text self kind turn).
Proof.
  unfold create_delivery. apply advances_mbind; [auto with delivery | intros id].
  apply advances_mbind; [auto with delivery | intros now w].
  destruct (bool_decide (is_Some (channel_deliveries (w_tables w) !! id))) eqn:E; [by apply climbed_refl |]. cbn [orb].
  destruct (negb _); [by apply climbed_refl |]. apply bool_decide_eq_false_1 in E.
  apply climbed_set. split; cbn; [| eauto using target_forward_refl]. intros i r Hr.
  rewrite lookup_insert_ne; [eauto using row_forward_refl |]. intros ->. apply E. eauto.
Qed.

Lemma advances_sending id : advances (mark_sending new_id now_text id).
Proof. unfold mark_sending. advances. status_arrow. Qed.
Lemma advances_sent id m : advances (mark_sent_result now_text id m).
Proof. unfold mark_sent_result. advances. status_arrow. Qed.
Lemma advances_unknown id e : advances (mark_unknown now_text id e).
Proof. unfold mark_unknown. advances. status_arrow. Qed.
Lemma advances_failed id e : advances (mark_failed now_text id e).
Proof. unfold mark_failed. advances. status_arrow. Qed.
Lemma advances_retry self id e : advances (mark_retry_pending new_id now_text retry_at self id e).
Proof. unfold mark_retry_pending. advances; first [status_arrow | by apply advances_still]. Qed.
Lemma advances_give_up {A} id e : advances (give_up_unknown now_text (A := A) id e).
Proof. unfold give_up_unknown, mark_unknown_after_persistence_failure. advances. status_arrow. Qed.

#[local] Hint Resolve advances_create advances_sending advances_sent advances_unknown advances_failed advances_retry
  advances_give_up : delivery.

Lemma advances_send self text markup : advances (send_message self text markup).
Proof. unfold send_message. advances. Qed.
Lemma advances_edit self m text : advances (edit_message self m text).
Proof. unfold edit_message. advances. Qed.
Lemma advances_delete self c m : advances (delete_message_in_chat self c m).
Proof. unfold delete_message_in_chat. advances. Qed.
Lemma advances_send_error self id e : advances (record_send_error new_id now_text retry_at self id e).
Proof. unfold record_send_error. advances. Qed.

Lemma advances_record md i m text st v :
  advances (record_scoped_turn_message_with_revision now_text sha256_hex md i m text st v).
Proof.
  unfold record_scoped_turn_message_with_revision. do 3 (apply advances_mbind; [auto with delivery | intros ?]).
  intros w. case_match; [by apply climbed_refl |]. apply climbed_set. split; cbn; eauto using row_forward_refl, target_forward_refl.
Qed.

Lemma advances_update_turn sc v t i m text : advances (update_turn_chunk_scoped now_text sha256_hex sc v t i m text).
Proof. unfold update_turn_chunk_scoped. advances. Qed.
Lemma advances_mark_status sc m st : advances (mark_status now_text sc m st).
Proof. unfold mark_status. advances. Qed.

#[local] Hint Resolve advances_send advances_edit advances_delete advances_send_error advances_record
  advances_update_turn advances_mark_status : delivery.

Lemma advances_scoped self md i text mk v :
  advances (send_single_scoped_result_with_revision new_id now_text retry_at sha256_hex self md i text mk v).
Proof. unfold send_single_scoped_result_with_revision. advances. Qed.
Lemma advances_send_and_record self id text mk : advances (send_and_record new_id now_text retry_at self id text mk).
Proof. unfold send_and_record. advances. Qed.

#[local] Hint Resolve advances_scoped advances_send_and_record : delivery.

Lemma advances_turn_chunk self md v i text :
  advances (send_turn_chunk_scoped new_id now_text retry_at sha256_hex self md v i text).
Proof. unfold send_turn_chunk_scoped. advances. Qed.
Lemma advances_single self turn text mk : advances (send_single_reply_result new_id now_text retry_at self turn text mk).
Proof. unfold send_single_reply_result. advances. Qed.
Lemma advances_chunks_of self text : advances (chunks_of self text).
Proof. unfold chunks_of. advances. Qed.

Lemma advances_send_chunks send i chunks mk :
  (forall i c m, advances (send i c m)) -> advances (send_chunks send i chunks mk).
Proof.
  intros Hs. revert i mk. induction chunks as [|c chunks IH]; intros i mk; cbn [send_chunks]; advances; eauto.
Qed.

Lemma advances_transaction {A} (m : M A) : advances m -> advances (transaction m).
Proof.
  intros Hm w. destruct (Hm w) as (l & _ & Hc). unfold transaction.
  destruct (m w) as [w' [[a|e]|]]; [| by apply climbed_refl | by apply climbed_refl].
  exists [w_tables w']. split; [done |]. split; [by eapply climbs_forward | done].
Qed.

Lemma advances_replace_updates id sc turn chunk old new_ target next hash :
  advances (replace_updates now_text id sc turn chunk old new_ target next hash).
Proof. unfold replace_updates. advances. status_arrow. Qed.

Lemma advances_finalize_rest s i chunks v :
  advances (finalize_rest new_id now_text retry_at sha256_hex s i chunks v).
Proof.
  revert i v. induction chunks as [|c chunks IH]; intros i v; cbn [finalize_rest]; [auto with delivery |].
  apply advances_mbind; [apply advances_turn_chunk | intros _]. apply advances_mbind; auto with delivery.
Qed.

Lemma advances_revoke_extras self sc ids eff : advances (revoke_extras now_text self sc ids eff).
Proof.
  revert eff. induction ids as [|i ids IH]; intros eff; cbn [revoke_extras]; [auto with delivery |].
  apply advances_mresult; [auto with delivery | intros r]. cbv zeta.
  destruct (match r with Ok _ => _ | Err _ => _ end); [| apply IH].
  apply advances_mbind; auto with delivery.
Qed.

Lemma advances_delete_each self sc ids : advances (delete_each now_text self sc ids).
Proof. induction ids; cbn [delete_each]; advances. Qed.

Lemma advances_load id sc : advances (load_frozen_target id sc).
Proof. apply advances_still. intros w. unfold load_frozen_target. repeat case_match; done. Qed.

Lemma advances_insert_target id row : advances (insert_target id row).
Proof.
  intros w. unfold insert_target. case_bool_decide as E; [by apply climbed_refl |].
  case_match; [by apply climbed_refl |]. apply climbed_set. split; cbn; [eauto using row_forward_refl |]. intros i r Hr.
  rewrite lookup_insert_ne; [eauto using target_forward_refl |]. intros ->. apply E. eauto.
Qed.

Lemma target_transition_step a b : target_transition a b = true -> target_step a b.
Proof.
  unfold target_transition. intros Ht.
  repeat (case_bool_decide; subst; cbn in Ht; try done; try constructor).
Qed.

Lemma advances_cas id sc a b : advances (cas_target_status now_text id sc a b).
Proof.
  unfold cas_target_status. destruct (target_transition a b) eqn:Et; cbn [negb]; [| auto with delivery].
  apply advances_mbind; [auto with delivery | intros now w].
  destruct (telegram_turn_targets (w_tables w) !! id) as [r|] eqn:Er; [| by apply climbed_refl].
  destruct (_ && _) eqn:E; [| by apply climbed_refl]. apply andb_true_iff in E as [_ <-%bool_decide_eq_true_1].
  apply climbed_set. split; cbn; [eauto using row_forward_refl |]. intros i q Hq. destruct (decide (i = id)) as [-> | Hne].
  - rewrite lookup_insert_eq. assert (q = r) as -> by congruence. eexists. split; [done |].
    split; cbn; auto. by apply rtc_once, target_transition_step.
  - rewrite lookup_insert_ne by done. eauto using target_forward_refl.
Qed.

#[local] Hint Resolve advances_turn_chunk advances_single advances_chunks_of advances_send_chunks
  advances_transaction advances_replace_updates advances_finalize_rest advances_revoke_extras advances_delete_each advances_load
  advances_insert_target advances_cas : delivery.

(** ** Any sequence of deliveries *)

(** One call of a public method of [TelegramDelivery] or of its sink, on the shared
    tables, with whatever clock, queue, answers and ids it meets. *)
Inductive delivery_method : forall A, M A -> Prop :=
| dm_reply self text mk : delivery_method unit (send_reply new_id now_text retry_at self text mk)
| dm_operation self op text mk : delivery_method unit (send_operation_reply new_id now_text retry_at self op text mk)
| dm_business self md text mk : delivery_method _ (send_business_reply new_id now_text retry_at sha256_hex self md text mk)
| dm_turn_ids self turn text mk : delivery_method _ (send_reply_with_turn_ids new_id now_text retry_at self turn text mk)
| dm_turn self turn text mk : delivery_method _ (send_reply_with_turn new_id now_text retry_at self turn text mk)
| dm_chunk self md v i text : delivery_method _ (send_turn_chunk_scoped new_id now_text retry_at sha256_hex self md v i text)
| dm_replace self md v i old text :
    delivery_method _ (replace_turn_chunk_scoped new_id now_text retry_at sha256_hex self md v i old text)
| dm_update sc v turn i m text : delivery_method _ (update_turn_chunk_scoped now_text sha256_hex sc v turn i m text)
| dm_assert sc turn v : delivery_method _ (assert_turn_revision sc turn v)
| dm_retire self sc turn op : delivery_method _ (retire_turn_scoped now_text self sc turn op)
| dm_link id run : delivery_method _ (link_generation now_text id run)
| dm_retry self id text mk : delivery_method _ (retry_pending_reply new_id now_text retry_at self id text mk)
| dm_recover self : delivery_method _ (recover_pending_deliveries now_text self)
| dm_last sc : delivery_method _ (find_last_turn sc)
| dm_load op sc : delivery_method _ (load_frozen_target op sc)
| dm_freeze op sc turn tail v ids : delivery_method _ (freeze_target now_text op sc turn tail v ids)
| dm_cas op sc a b : delivery_method _ (cas_target_status now_text op sc a b)
| dm_revoke self sc ids text : delivery_method _ (execute_revoke_effect_scoped now_text self sc ids text)
| dm_redo self sc old new_ : delivery_method _ (execute_redo_cleanup_scoped now_text self sc old new_)
| dm_sink self md text : delivery_method _ (stream_sink new_id now_text retry_at sha256_hex self md text)
| dm_delta s text : delivery_method _ (emit_delta s text)
| dm_finalize s text : delivery_method _ (finalize new_id now_text retry_at sha256_hex s text)
| dm_fail s text : delivery_method _ (sink_fail new_id now_text retry_at sha256_hex s text).

(** One statement of one call: the tables before and after it.  A call that is cut off
    has made the first few of its steps. *)
Inductive delivery_step (t t' : Tables) : Prop :=
| delivery_statement A (m : M A) w before after :
    delivery_method A m -> w_past w = [] ->
    w_tables w :: w_past (m w).1 = before ++ t :: t' :: after -> delivery_step t t'.

Lemma advances_still_call {A} (m : M A) : (forall w, (m w).1 = w) -> advances m.
Proof. intros Hm. apply advances_still. intros w. by rewrite Hm. Qed.

Lemma advances_sink self md text : advances (stream_sink new_id now_text retry_at sha256_hex self md text).
Proof.
  intros w. unfold stream_sink. destruct existing_placeholder as [[id m]|]; [case_match; by apply climbed_refl |].
  match goal with |- climbed _ (?m w).1 => cut (advances m); [intros Ha; apply Ha |] end. advances.
Qed.

Lemma advances_finalize s text : advances (finalize new_id now_text retry_at sha256_hex s text).
Proof.
  unfold finalize. destruct (ps_finalized s); [auto with delivery |].
  apply advances_mbind; [auto with delivery | intros now]. advances.
Qed.

Lemma advances_emit_delta s text : advances (emit_delta s text).
Proof.
  unfold emit_delta. apply advances_mbind; [auto with delivery | intros now].
  destruct should_render as [[] stream]; cbn [negb]; [| auto with delivery]. unfold ignore_error. advances.
Qed.

Lemma advances_link id run : advances (link_generation now_text id run).
Proof.
  unfold link_generation. apply advances_mbind; [auto with delivery | intros now w].
  destruct (channel_deliveries (w_tables w) !! id) as [r|] eqn:Er; [| by apply climbed_refl].
  apply climbed_set. split; cbn; [| eauto using target_forward_refl]. intros i q Hq. destruct (decide (i = id)) as [-> | Hne].
  - rewrite lookup_insert_eq. assert (q = r) as -> by congruence. eexists. split; [done |].
    split; cbn; auto; [apply rtc_refl | lia].
  - rewrite lookup_insert_ne by done. eauto using row_forward_refl.
Qed.

Lemma advances_send_each send chunks mk :
  (forall c m, advances (send c m)) -> advances (send_each send chunks mk).
Proof.
  intros Hs. revert mk. induction chunks as [|c chunks IH]; intros mk; cbn [send_each]; [auto with delivery |].
  apply advances_mbind; auto.
Qed.

Lemma advances_best_effort self turn text mk : advances (send_single_reply new_id now_text retry_at self turn text mk).
Proof. unfold send_single_reply, ignore_error. cbv zeta. advances. Qed.

Lemma method_advances A (m : M A) : delivery_method A m -> advances m.
Proof.
  #[local] Hint Resolve advances_sink advances_finalize advances_emit_delta advances_link advances_send_each
    advances_best_effort : delivery.
  destruct 1;
    unfold send_reply, send_operation_reply, send_business_reply, send_reply_with_turn_ids, send_reply_with_turn,
      replace_turn_chunk_scoped, retire_turn_scoped, retry_pending_reply, freeze_target, execute_revoke_effect_scoped,
      execute_redo_cleanup_scoped, sink_fail, send_single_scoped_result in *; cbv zeta;
    try solve [advances]; apply advances_still; intros w.
  - unfold assert_turn_revision. by case_match.
  - unfold find_last_turn. by repeat case_match.
Qed.

Lemma steps_forward t t' : rtc delivery_step t t' -> forward t t'.
Proof.
  induction 1 as [t | t t1 t2 [A m w before after Hm Hp Heq] _ IH]; [done |].
  etransitivity; [| done]. apply method_advances in Hm. destruct (Hm w) as (l & Hl & Hc).
  rewrite Hp in Hl. simpl in Hl. rewrite Hl in Heq. by eapply climbs_next.
Qed.

Lemma status_reach_closed (P : DeliveryStatus -> Prop) a b :
  (forall x y, status_step x y -> P x -> P y) -> rtc status_step a b -> P a -> P b.
Proof. intros HP. induction 1; eauto. Qed.

(** Every call is made of such steps. *)
Lemma call_steps A (m : M A) w :
  delivery_method A m -> w_past w = [] ->
  rtc delivery_step (w_tables w) (w_tables (m w).1)
  /\ forall n t, w_past (m w).1 !! n = Some t -> rtc delivery_step (w_tables w) t.
Proof.
  intros Hm Hp. pose proof (method_advances _ _ Hm w) as (l & Hl & Hc). rewrite Hp in Hl. simpl in Hl.
  assert (Hpre : forall n t, (w_tables w :: l) !! n = Some t -> rtc delivery_step (w_tables w) t).
  { induction n as [|n IH]; intros t Ht; [injection Ht as <-; apply rtc_refl |].
    destruct ((w_tables w :: l) !! n) as [u|] eqn:Hu; [| apply lookup_ge_None in Hu; apply lookup_lt_Some in Ht; lia].
    eapply rtc_r; [by apply IH |]. pose proof (take_drop_middle _ _ _ Hu) as Hsplit.
    eapply (delivery_statement u t A m w (take n (w_tables w :: l)) (drop (S (S n)) (w_tables w :: l))); [done | done |].
    rewrite Hl, <- (drop_S _ _ _ Ht). symmetry. exact Hsplit. }
  split; [| intros n t Ht; rewrite Hl in Ht; by apply (Hpre (S n))].
  assert (Hlast : (w_tables w :: l) !! length l = Some (w_tables (m w).1)).
  { clear Hl Hpre. revert Hc. generalize (w_tables w) as t. induction l as [|x l IH]; intros t; simpl; [by intros <- |].
    intros [_ Hc]. exact (IH x Hc). }
  by apply (Hpre (length l)).
Qed.

(** C16: what is known of a delivery is never unlearned.  A step is one statement, or one
    transaction, of one call of any method, so a sequence of steps is any sequence of
    calls, each complete or cut off after any of its statements.  Through it a delivery
    row keeps its bot, chat, kind and turn and its attempts never decrease; once its outcome is unknown or
    failed it stays so; once sent it stays sent or becomes unknown, so it is never
    sent again.  A frozen target keeps its scope, turn, fingerprint, revision and
    messages, and its status follows frozen, applying, then one of applied, failed
    and unknown. *)
Theorem deliveries_move_forward t t' :
  rtc delivery_step t t' ->
  (forall id r, channel_deliveries t !! id = Some r -> exists r', channel_deliveries t' !! id = Some r'
     /\ d_bot_id r' = d_bot_id r /\ d_chat_id r' = d_chat_id r /\ d_message_kind r' = d_message_kind r
     /\ d_turn_id r' = d_turn_id r /\ (d_attempt_count r <= d_attempt_count r')%Z
     /\ (d_status r = DUnknown \/ d_status r = DFailed -> d_status r' = d_status r)
     /\ (d_status r = DSent -> d_status r' = DSent \/ d_status r' = DUnknown))
  /\ (forall id r, telegram_turn_targets t !! id = Some r -> exists r', telegram_turn_targets t' !! id = Some r'
     /\ target_forward r r').
Proof.
  intros [Hrows Htargets]%steps_forward. split; [| done]. intros id r Hr.
  destruct (Hrows id r Hr) as (r' & Hr' & [Hs Hb Hc Hk Ht _ Ha]). exists r'.
  split; [done |]. do 5 (split; [done |]). split.
  - intros [E | E]; rewrite E in *;
      [pattern (d_status r') | pattern (d_status r')];
      (eapply status_reach_closed; [| exact Hs | done]); intros x y Hstep ->; inversion Hstep.
  - intros E. rewrite E in *. pattern (d_status r').
    eapply status_reach_closed; [| exact Hs | by left]. intros x y Hstep [-> | ->]; inversion Hstep; auto.
Qed.

End Methods.
