(* ===== verification/DeliverySends.v ===== *)
(** * A send and its record ([modules/telegram/delivery.rs])

    One attempt to send, step by step: one row, one request, and a status that says
    what the answer showed.  The chunks of a reply leave in order.  A placeholder
    that was finalized once cannot be finalized again. *)

From S2P Require Import Prelude Text Errors StDomain OperationStore Redaction.
From S2P Require Import TelegramText DeliveryQueue TelegramInbox Delivery DeliveryCorrect.
From stdpp Require Import pretty.
From Stdlib Require Import Lia.

Section Sends.
Context (new_id : nat -> string) (now_text : Z -> string) (retry_at : Z -> Z -> option string).
Context `{Redactor}.

(** The body of a [sendMessage] request. *)
Definition send_body (self : TelegramDelivery) (text : string) (markup : option Value) : Value :=
  JObject (("chat_id", json_i64 (td_chat_id self)) :: ("text", JString text)
           :: match markup with Some m => [("reply_markup", m)] | None => [] end).

(** The status an attempt ends in; a rate limit whose end no timestamp can express
    leaves the row as it is. *)
Definition attempt_status (clock : Z) (sent : result Z AppError) : DeliveryStatus :=
  match sent with
  | Ok _ => DSent
  | Err e =>
      if a_code e =?= "TELEGRAM_RATE_LIMITED" then
        let secs := retry_after_seconds e in
        if (secs <? 2 ^ 63)%Z && bool_decide (is_Some (retry_at clock secs)) then DRetryPending else DSending
      else if (a_code e =?= "TELEGRAM_REQUEST_FAILED") || (a_code e =?= "TELEGRAM_RESPONSE_INVALID")
      then DUnknown else DFailed
  end.

(** What [call] does outside the answer. *)
Lemma call_spec self method body w :
  exists q r, call self method body w =
    (MkWorld (w_tables w) q (wait (w_clock w) (td_bot_id self) (td_chat_id self) (w_queue w))
       (w_requests w ++ [MkRequest method body (wait (w_clock w) (td_bot_id self) (td_chat_id self) (w_queue w))])
       (tail (w_replies w)) (w_ids w) (w_past w), Some r).
Proof.
  unfold call. cbv zeta. destruct (match w_replies w with [] => _ | _ => _ end);
    [do 2 eexists; reflexivity | do 2 eexists; reflexivity |].
  repeat case_match; do 2 eexists; reflexivity.
Qed.

Lemma send_message_spec self text markup w :
  exists q sent, send_message self text markup w =
    (MkWorld (w_tables w) q (wait (w_clock w) (td_bot_id self) (td_chat_id self) (w_queue w))
       (w_requests w ++ [MkRequest "sendMessage" (send_body self text markup)
                           (wait (w_clock w) (td_bot_id self) (td_chat_id self) (w_queue w))])
       (tail (w_replies w)) (w_ids w) (w_past w), Some sent).
Proof.
  unfold send_message, mbind_, mresult.
  destruct (call_spec self "sendMessage" (send_body self text markup) w) as (q & r & Hc).
  unfold send_body in Hc. rewrite Hc. destruct r; do 2 eexists; reflexivity.
Qed.

(** The answer depends on the queue, the clock and the replies only. *)
Lemma send_message_frame self text markup w w1 :
  w_queue w1 = w_queue w -> w_clock w1 = w_clock w -> w_replies w1 = w_replies w ->
  (send_message self text markup w1).2 = (send_message self text markup w).2.
Proof.
  intros Hq Hc Hr. unfold send_message, mbind_, mresult, call. rewrite Hq, Hc, Hr. cbn.
  destruct (w_replies w) as [|[] ?]; cbn; [done | done | done |].
  repeat (case_match; cbn; simplify_eq; try done).
Qed.

(** The message id in an answer of Telegram: a success that says so, is no rate limit
    and names the message it sent. *)
Definition reply_message_id (reply : RawReply) : option Z :=
  match reply with
  | Reply status payload =>
      let error_code := match value_get payload "error_code" with Some v => value_as_i64 v | None => None end in
      let ok := match value_get payload "ok" with Some v => value_as_bool v | None => None end in
      if (200 <=? status)%Z && (status <? 300)%Z && (ok =?= Some true) && negb (error_code =?= Some 429%Z)
      then match pointer ["result"; "message_id"] payload with Some v => value_as_i64 v | None => None end
      else None
  | _ => None
  end.

(** The message id Telegram gives next. *)
Definition next_message_id (w : World) : option Z :=
  match w_replies w with reply :: _ => reply_message_id reply | [] => None end.

Ltac no_id := intros [= <-] ?m; split; cbn; rewrite ?andb_false_r; discriminate.

Lemma send_message_answer self text markup w sent :
  (send_message self text markup w).2 = Some sent ->
  forall m, sent = Ok m <-> next_message_id w = Some m.
Proof.
  unfold send_message, mbind_, mresult, call, next_message_id, lift_m, reply_message_id. cbv zeta.
  destruct (w_replies w) as [|[|detail|status payload] replies]; try no_id.
  destruct (Z.eqb_spec status 429) as [->|_]; cbn [orb]; [no_id |].
  destruct (_ =?= Some 429%Z); cbn [negb]; [rewrite andb_false_r; no_id |]. rewrite andb_true_r.
  destruct ((200 <=? status)%Z && (status <? 300)%Z); cbn [andb negb orb]; [| no_id].
  destruct (value_get payload "ok") as [v|]; [| no_id].
  destruct (value_as_bool v =?= Some true); cbn [negb]; [| no_id].
  cbn [snd pointer]. destruct (value_get payload "result") as [result_|]; cbn [default from_option]; [| no_id].
  unfold ok_or, id. destruct (value_get result_ "message_id") as [i|]; [| no_id].
  destruct (value_as_i64 i) as [z|]; intros [= <-] m; [| done]. by split; intros [= ->].
Qed.

(** The queue and the tables after a status change of a row in [DSending]. *)
Definition at_status (id : string) (status : DeliveryStatus) (ext : option Z) (w w' : World) : Prop :=
  (exists row, channel_deliveries (w_tables w') !! id = Some row /\ d_status row = status
               /\ (status = DSent -> d_external_message_id row = ext)
               /\ forall r, channel_deliveries (w_tables w) !! id = Some r -> d_turn_id row = d_turn_id r)
  /\ delivery_bots (w_tables w') = delivery_bots (w_tables w) /\ w_ids w <= w_ids w'
  /\ (forall j, j <> id -> channel_deliveries (w_tables w') !! j = channel_deliveries (w_tables w) !! j)
  /\ w_requests w' = w_requests w /\ w_replies w' = w_replies w.

Lemma update_delivery_hit id from f w r :
  channel_deliveries (w_tables w) !! id = Some r -> d_status r ∈ from ->
  update_delivery id from f w = (set_tables (set_deliveries <[id := f r]>) w, Some (Ok true)).
Proof. intros Hr Hin. unfold update_delivery. rewrite Hr. by rewrite bool_decide_eq_true_2. Qed.

Ltac hit Hr := unfold mbind_, mresult, get_now, draw_id; cbn;
  erewrite update_delivery_hit; [| exact Hr | rewrite ?elem_of_cons; auto]; cbn.

Ltac at_status Hr :=
  split; [eexists; split; [apply lookup_insert_eq | split; [done | split; [done |]]];
          intros ?q Hq; rewrite Hr in Hq; injection Hq as <-; reflexivity |];
  split; [done |]; split; [cbn; lia |]; split; [intros j Hj; by apply lookup_insert_ne | by split].

Lemma sent_spec id m w r :
  channel_deliveries (w_tables w) !! id = Some r -> d_status r = DSending ->
  exists w', mark_sent_result now_text id m w = (w', Some (Ok tt)) /\ at_status id DSent (Some m) w w'.
Proof. intros Hr Hs. unfold mark_sent_result. hit Hr. eexists. split; [done |]. at_status Hr. Qed.

Lemma record_error_spec self id e w r :
  channel_deliveries (w_tables w) !! id = Some r -> d_status r = DSending ->
  exists w' res, record_send_error new_id now_text retry_at self id e w = (w', Some res)
    /\ at_status id (attempt_status (w_clock w) (Err e)) None w w'
    /\ (attempt_status (w_clock w) (Err e) <> DSending -> res = Ok tt).
Proof.
  intros Hr Hs. unfold record_send_error, attempt_status. destruct (a_code e =?= "TELEGRAM_RATE_LIMITED").
  - unfold mark_retry_pending, retry_at_rfc3339. cbv zeta.
    assert (Hstay : at_status id DSending None w w).
    { split; [exists r; repeat split; [done | done | done | congruence] |]. done. }
    unfold mbind_ at 1, mresult at 1. destruct (retry_after_seconds e <? 2 ^ 63)%Z; cbn [andb];
      [| by eexists _, _].
    destruct (retry_at (w_clock w) (retry_after_seconds e)) as [next|]; cbn [ok_or];
      [rewrite bool_decide_eq_true_2 by eauto | rewrite bool_decide_eq_false_2 by (by intros [? ?]); by eexists _, _].
    unfold mbind_, mresult, get_now, draw_id; cbn.
    erewrite update_delivery_hit; [| exact Hr | rewrite ?elem_of_cons; auto]; cbn.
    eexists _, _. split; [done |]. split; [at_status Hr | done].
  - destruct (_ || _).
    + unfold mark_unknown. hit Hr. eexists _, _. split; [done |]. split; [at_status Hr | done].
    + unfold mark_failed. hit Hr. eexists _, _. split; [done |]. split; [at_status Hr | done].
Qed.

(** ** One attempt *)

Lemma create_sending_spec self kind turn w :
  channel_deliveries (w_tables w) !! new_id (w_ids w) = None -> td_bot_id self ∈ delivery_bots (w_tables w) ->
  exists w1 row, (let! id := create_delivery new_id now_text self kind turn in
                  let! _ := mark_sending new_id now_text id in ok_m id) w = (w1, Some (Ok (new_id (w_ids w))))
    /\ channel_deliveries (w_tables w1) !! new_id (w_ids w) = Some row /\ d_status row = DSending /\ d_turn_id row = turn
    /\ (forall j, j <> new_id (w_ids w) -> channel_deliveries (w_tables w1) !! j = channel_deliveries (w_tables w) !! j)
    /\ w1 = MkWorld (w_tables w1) (w_queue w) (w_clock w) (w_requests w) (w_replies w) (S (S (w_ids w))) (w_past w1)
    /\ delivery_bots (w_tables w1) = delivery_bots (w_tables w).
Proof.
  intros Hnone Hbot. unfold create_delivery, mark_sending, mbind_, mresult, draw_id, get_now. cbn.
  rewrite bool_decide_eq_false_2 by (by rewrite Hnone; intros [? ?]).
  rewrite bool_decide_eq_true_2 by done. cbn.
  erewrite update_delivery_hit; [| apply lookup_insert_eq | cbn; rewrite ?elem_of_cons; auto]. cbn.
  do 2 eexists. split; [done |]. cbn. rewrite lookup_insert_eq. split; [done |]. split; [done |]. split; [done |].
  split; [| done]. intros j Hj. by rewrite !lookup_insert_ne.
Qed.

(** What an attempt leaves behind: [id] is the row it made. *)
Record attempted (self : TelegramDelivery) (id : string) (turn : option string) (text : string) (markup : option Value)
    (sent : result Z AppError) (w w' : World) : Prop := {
  at_request : w_requests w' = w_requests w ++ [MkRequest "sendMessage" (send_body self text markup)
                 (wait (w_clock w) (td_bot_id self) (td_chat_id self) (w_queue w))];
  at_row : exists row, channel_deliveries (w_tables w') !! id = Some row /\ d_turn_id row = turn
             /\ d_status row = attempt_status (wait (w_clock w) (td_bot_id self) (td_chat_id self) (w_queue w)) sent
             /\ (forall m, sent = Ok m -> d_external_message_id row = Some m);
  at_others : forall j, j <> id -> channel_deliveries (w_tables w') !! j = channel_deliveries (w_tables w) !! j;
  at_bots : delivery_bots (w_tables w') = delivery_bots (w_tables w);
  at_ids : w_ids w < w_ids w';
  at_replies : w_replies w' = tail (w_replies w);
}.

Lemma single_send_spec self turn text markup w :
  channel_deliveries (w_tables w) !! new_id (w_ids w) = None -> td_bot_id self ∈ delivery_bots (w_tables w) ->
  exists w' res sent, send_single_reply_result new_id now_text retry_at self turn text markup w = (w', Some res)
    /\ (send_message self text markup w).2 = Some sent
    /\ attempted self (new_id (w_ids w)) turn text markup sent w w'
    /\ match sent with
       | Ok m => res = Ok m
       | Err e => exists e', res = Err e'
           /\ (attempt_status (wait (w_clock w) (td_bot_id self) (td_chat_id self) (w_queue w)) sent <> DSending -> e' = e)
       end.
Proof.
  intros Hnone Hbot. set (id := new_id (w_ids w)) in *. set (t0 := wait _ _ _ _).
  destruct (create_sending_spec self "reply" turn w Hnone Hbot) as (w1 & row & Hc & Hrow & Hst & Htu & Hoth & Hw1 & Hb1).
  fold id in Hc, Hrow, Hoth.
  assert (Hunf : send_single_reply_result new_id now_text retry_at self turn text markup w =
                 send_and_record new_id now_text retry_at self id text markup w1).
  { revert Hc. unfold send_single_reply_result, mbind_, mresult. unfold mbind_, mresult.
    destruct (create_delivery _ _ _ _ _ w) as [wa [[ida|ea]|]]; [| done | done].
    destruct (mark_sending _ _ ida wa) as [wb [[[]|eb]|]]; [| done | done]. cbn. by intros [= -> ->]. }
  rewrite Hunf. destruct (send_message_spec self text markup w1) as (q & sent & Hs).
  assert (Hsent : (send_message self text markup w).2 = Some sent).
  { rewrite <- (send_message_frame self text markup w w1) by (by rewrite Hw1). by rewrite Hs. }
  assert (Hf : w_queue w1 = w_queue w /\ w_clock w1 = w_clock w /\ w_requests w1 = w_requests w
               /\ w_replies w1 = w_replies w /\ w_ids w1 = S (S (w_ids w))) by (by rewrite Hw1).
  destruct Hf as (Hf1 & Hf2 & Hf3 & Hf4 & Hf5). rewrite Hf1, Hf2, Hf3, Hf4, Hf5 in Hs. fold t0 in Hs. unfold send_and_record, mresult at 1. rewrite Hs.
  set (w2 := MkWorld _ q t0 _ _ _ _). assert (Hrow2 : channel_deliveries (w_tables w2) !! id = Some row) by done.
  destruct sent as [m|e].
  - destruct (sent_spec id m w2 row Hrow2 Hst) as (w3 & Hm & (r3 & Hr3 & Hs3 & He3 & Ht3) & Hb3 & Hi3 & Ho3 & Hq3 & Hp3).
    unfold mresult. rewrite Hm. exists w3, (Ok m), (Ok m). split; [done |]. split; [done |]. split; [| done].
    split; [done | | | by rewrite Hb3 | cbn in Hi3; lia | by rewrite Hp3].
    + exists r3. split; [done |]. split; [by rewrite (Ht3 row) |]. split; [done |]. intros ? [= <-]. by apply He3.
    + intros j Hj. rewrite Ho3 by done. by apply Hoth.
  - destruct (record_error_spec self id e w2 row Hrow2 Hst)
      as (w3 & res & Hm & ((r3 & Hr3 & Hs3 & He3 & Ht3) & Hb3 & Hi3 & Ho3 & Hq3 & Hp3) & Hres).
    unfold mbind_, mresult. rewrite Hm. exists w3, (match res with Ok _ => Err e | Err e' => Err e' end), (Err e).
    split; [by destruct res |]. split; [done |]. split.
    + split; [done | | | by rewrite Hb3 | cbn in Hi3; lia | by rewrite Hp3].
      * exists r3. split; [done |]. split; [by rewrite (Ht3 row) |]. split; [done |]. done.
      * intros j Hj. rewrite Ho3 by done. by apply Hoth.
    + destruct res as [[]|e']; [by exists e |]. exists e'. split; [done |]. intros Hne. by specialize (Hres Hne).
Qed.

(** ** The chunks of a reply *)

(** No id that may still be drawn is in use. *)
Definition fresh_ids (w : World) : Prop :=
  forall n, w_ids w <= n -> channel_deliveries (w_tables w) !! new_id n = None.

Definition with_markup (chunks : list string) (markup : option Value) : list (string * option Value) :=
  match chunks with [] => [] | c :: cs => (c, markup) :: ((λ c, (c, None)) <$> cs) end.

Definition is_send (self : TelegramDelivery) (rq : Request) (c : string * option Value) : Prop :=
  rq_method rq = "sendMessage" /\ rq_body rq = send_body self c.1 c.2.

(** The row [id] belongs to the turn and says the message [m] was sent. *)
Definition row_sent (w : World) (turn : option string) (id : string) (m : Z) : Prop :=
  exists row, channel_deliveries (w_tables w) !! id = Some row /\ d_turn_id row = turn
              /\ d_status row = DSent /\ d_external_message_id row = Some m.

Definition row_not_sent (w : World) (turn : option string) (id : string) : Prop :=
  exists row, channel_deliveries (w_tables w) !! id = Some row /\ d_turn_id row = turn /\ d_status row <> DSent.

(** The answer gives the message id. *)
Definition answers (reply : RawReply) (m : Z) : Prop := reply_message_id reply = Some m.

(** What sending [chunks] did: one request, one answer and one row per chunk tried.  The
    message ids are those of the answers. *)
Record chunks_sent (self : TelegramDelivery) (turn : option string) (chunks : list (string * option Value))
    (res : result (list Z) AppError) (ids : list string) (w w' : World) : Prop := {
  cs_requests : exists reqs, w_requests w' = w_requests w ++ reqs /\ Forall2 (is_send self) reqs (take (length ids) chunks);
  cs_new : NoDup ids /\ Forall (λ id, channel_deliveries (w_tables w) !! id = None) ids;
  cs_others : forall j, j ∉ ids -> channel_deliveries (w_tables w') !! j = channel_deliveries (w_tables w) !! j;
  cs_result : match res with
              | Ok ms => length ids = length chunks /\ Forall2 (row_sent w' turn) ids ms
                         /\ Forall2 answers (take (length ids) (w_replies w)) ms
              | Err _ => exists before id ms, ids = before ++ [id] /\ Forall2 (row_sent w' turn) before ms
                                              /\ row_not_sent w' turn id
                                              /\ Forall2 answers (take (length before) (w_replies w)) ms
                                              /\ (w_replies w !! length before ≫= reply_message_id) = None
              end;
  cs_answered : w_replies w' = drop (length ids) (w_replies w);
}.

Lemma attempt_status_not_sent clock e : attempt_status clock (Err e) <> DSent.
Proof. unfold attempt_status. repeat case_match; done. Qed.

Lemma with_markup_None chunks : with_markup chunks None = (λ c, (c, None)) <$> chunks.
Proof. by destruct chunks. Qed.

Context `{!Inj eq eq new_id}.

Lemma send_chunks_spec self turn i chunks markup w :
  fresh_ids w -> td_bot_id self ∈ delivery_bots (w_tables w) ->
  exists w' res ids,
    send_chunks (λ _, send_single_reply_result new_id now_text retry_at self turn) i chunks markup w = (w', Some res)
    /\ chunks_sent self turn (with_markup chunks markup) res ids w w'.
Proof.
  revert i markup w. induction chunks as [|c chunks IH]; intros i markup w Hfresh Hbot; cbn [send_chunks].
  - exists w, (Ok []), []. split; [done |].
    split; [exists []; split; [by rewrite app_nil_r | constructor] | split; constructor | done | | done].
    split; [done |]. split; constructor.
  - destruct (single_send_spec self turn c markup w (Hfresh _ (le_n _)) Hbot)
      as (w1 & res1 & sent & Hs & Hsend & [Hrq (row & Hrow & Htu & Hst & Hex) Hoth Hbots Hids Hrep] & Hres).
    pose proof (send_message_answer _ _ _ _ _ Hsend) as Hans. clear Hsend.
    set (id := new_id (w_ids w)) in *. unfold mbind_ at 1, mresult at 1. rewrite Hs.
    destruct sent as [m|e]; [subst res1 | destruct Hres as (e' & -> & _)].
    2:{ exists w1, (Err e'), [id]. split; [done |]. split.
        - eexists. split; [exact Hrq |]. cbn. constructor; [done | constructor].
        - split; [apply NoDup_singleton |]. constructor; [by apply Hfresh | constructor].
        - intros j Hj. apply Hoth. intros ->. apply Hj. by left.
        - exists [], id, []. split; [done |]. split; [constructor |]. split.
          { exists row. split; [done |]. split; [done |]. rewrite Hst. apply attempt_status_not_sent. }
          split; [constructor |]. unfold next_message_id in Hans. destruct (w_replies w) as [|reply replies]; [done |].
          cbn. destruct (reply_message_id reply) as [m|]; [| done]. discriminate (proj2 (Hans m) eq_refl).
        - cbn. rewrite Hrep. by destruct (w_replies w). }
    assert (Hnext : exists reply replies, w_replies w = reply :: replies /\ answers reply m /\ w_replies w1 = replies).
    { destruct (Hans m) as [Hm _]. specialize (Hm eq_refl). unfold next_message_id in Hm.
      destruct (w_replies w) as [|reply replies]; [done |]. by exists reply, replies. }
    destruct Hnext as (reply & replies & Hrs & Hreply & Hrs1).
    assert (Hfresh1 : fresh_ids w1).
    { intros n Hn. rewrite Hoth; [apply Hfresh; lia |]. intros Heq%(inj new_id). lia. }
    destruct (IH (S i) None w1 Hfresh1 ltac:(by rewrite Hbots)) as (w2 & res2 & ids & Hs2 & [Hreq2 Hnew2 Hoth2 Hres2 Hdrop]).
    unfold mbind_, mresult. rewrite Hs2. destruct Hreq2 as (reqs & Hreq & Hf2). destruct Hnew2 as [Hnd Hnone].
    assert (Hid : id ∉ ids).
    { intros Hin. rewrite Forall_forall in Hnone. specialize (Hnone id Hin). rewrite Hrow in Hnone. done. }
    exists w2, (match res2 with Ok ms => Ok (m :: ms) | Err e => Err e end), (id :: ids).
    split; [by destruct res2 |]. cbn [with_markup]. rewrite <- with_markup_None. split.
    + eexists. split; [rewrite Hreq, Hrq, <- app_assoc; reflexivity |]. cbn. by constructor.
    + split; [by constructor |]. constructor; [by apply Hfresh |].
      eapply Forall_impl; [exact Hnone |]. intros j Hj. cbn in Hj. destruct (decide (j = id)) as [-> | Hne];
        [by apply Hfresh | by rewrite <- Hoth].
    + intros j [Hj1 Hj2]%not_elem_of_cons. rewrite Hoth2 by done. by apply Hoth.
    + assert (Hsent : row_sent w2 turn id m).
      { exists row. rewrite Hoth2 by done. split; [done |]. split; [done |]. split; [done |]. by apply Hex. }
      destruct res2 as [ms|e].
      * destruct Hres2 as (Hl & Hf & Hg). rewrite Hrs, Hrs1 in *. split; [cbn; lia |]. split; by constructor.
      * destruct Hres2 as (before & last & ms & -> & Hf & Hn & Hg & Hlast). exists (id :: before), last, (m :: ms).
        rewrite Hrs, Hrs1 in *. split; [done |]. split; [by constructor |]. split; [done |]. split; [by constructor | done].
    + by rewrite Hdrop, Hrs1, Hrs.
Qed.

(** C15: a reply leaves in order and every chunk is accounted for.  For chunk sizes of
    at least two units, [send_operation_reply] returns; the chunks tried are a prefix
    of the text's chunks, in order, one [sendMessage] request each, the keyboard with
    the first; each took one answer of Telegram and made one new row of the operation,
    and no other row changed.  It succeeds exactly when every chunk was tried and every
    row says sent, with the message id of the answer to that very chunk; otherwise the
    earlier rows say so, the last row is the only one not sent, its answer gave no message
    id, and nothing was tried after it. *)
Theorem replies_leave_in_order self operation_id text markup w :
  2 <= chunk_size (td_policy self) -> is_blank operation_id = false ->
  fresh_ids w -> td_bot_id self ∈ delivery_bots (w_tables w) ->
  exists chunks w' res sent ids,
    chunk_text (String.length text) text (chunk_size (td_policy self)) = Some chunks /\ pieces text chunks
    /\ send_operation_reply new_id now_text retry_at self operation_id text markup w = (w', Some res)
    /\ chunks_sent self (Some operation_id) (with_markup chunks markup) sent ids w w'
    /\ is_ok res = is_ok sent.
Proof.
  intros Hsize Hop Hfresh Hbot.
  destruct (chunk_text_spec text _ (String.length text) Hsize (le_n _)) as (chunks & Hc & _ & Hp).
  destruct (send_chunks_spec self (Some operation_id) 0 chunks markup w Hfresh Hbot) as (w' & sent & ids & Hs & Hcs).
  exists chunks, w', (match sent with Ok _ => Ok tt | Err e => Err e end), sent, ids.
  split; [done |]. split; [done |]. split; [| by destruct sent].
  unfold send_operation_reply, chunks_of, mbind_, mresult. rewrite Hop, Hc. cbn. rewrite Hs. by destruct sent.
Qed.

End Sends.

(** ** Runs *)

Definition demo_id (n : nat) : string := pretty n.
#[export] Instance demo_id_inj : Inj eq eq demo_id.
Proof. unfold demo_id. apply _. Qed.

Definition demo_now (clock : Z) : string := "t" +:+ pretty clock.
Definition demo_retry_at (clock secs : Z) : option string := Some ("t" +:+ pretty (clock + 1000 * secs)%Z).
#[export] Instance demo_redactor : Redactor := {| redact_detail := Some |}.

Definition demo_client : TelegramDelivery := TelegramDelivery_new "bot" 42 7 0 1 1 4.
Definition answer_message (id : Z) : RawReply :=
  Reply 200 (JObject [("ok", JBool true); ("result", JObject [("message_id", json_i64 id)])]).
Definition demo_world (replies : list RawReply) : World :=
  MkWorld (MkTables ∅ ∅ 0 ∅ {["bot"]} ∅) (DeliveryCoordinator_new 3600000) 0 [] replies 0 [].

(** Two chunks; the second one is rate limited and waits for its retry. *)
Example reply_rate_limited :
  let '(w, res) := send_operation_reply demo_id demo_now demo_retry_at demo_client "op" "abcd efgh" None
    (demo_world [answer_message 11;
                 Reply 429 (JObject [("parameters", JObject [("retry_after", JNumber "3")])])]) in
  d_status <$> channel_deliveries (w_tables w) !! "0" = Some DSent
  /\ d_status <$> channel_deliveries (w_tables w) !! "2" = Some DRetryPending
  /\ (d_next_attempt_at <$> channel_deliveries (w_tables w) !! "2") = Some (Some "t3000")
  /\ res = Some (Err (bad_gateway "TELEGRAM_RATE_LIMITED" "Telegram API rate limited; retry_after=3")).
Proof. vm_compute. auto. Qed.

Lemma replies_leave_in_order_witness :
  exists chunks w' res sent ids,
    chunk_text 9 "abcd efgh" 4 = Some chunks /\ pieces "abcd efgh" chunks
    /\ send_operation_reply demo_id demo_now demo_retry_at demo_client "op" "abcd efgh" None
         (demo_world [answer_message 11; answer_message 12]) = (w', Some res)
    /\ chunks_sent demo_client (Some "op") (with_markup chunks None) sent ids
         (demo_world [answer_message 11; answer_message 12]) w'
    /\ is_ok res = is_ok sent.
Proof.
  apply (replies_leave_in_order demo_id demo_now demo_retry_at demo_client "op" "abcd efgh" None
           (demo_world [answer_message 11; answer_message 12])).
  - vm_compute. lia.
  - reflexivity.
  - intros n _. apply lookup_empty.
  - set_solver.
Defined.

Definition demo_send (text : string) : M unit :=
  send_operation_reply demo_id demo_now demo_retry_at demo_client "op" text None.
Definition demo_sent_world : World :=
  let w := (demo_send "ab" (demo_world [answer_message 11])).1 in
  MkWorld (w_tables w) (w_queue w) (w_clock w) (w_requests w) (w_replies w) (w_ids w) [].

Lemma deliveries_move_forward_witness :
  d_status <$> channel_deliveries (w_tables demo_sent_world) !! "0" = Some DSent
  /\ forall r, channel_deliveries (w_tables demo_sent_world) !! "0" = Some r ->
     exists r', channel_deliveries (w_tables (demo_send "cd" demo_sent_world).1) !! "0" = Some r'
                /\ d_turn_id r' = d_turn_id r.
Proof.
  split; [vm_compute; reflexivity |]. intros r Hr.
  destruct (deliveries_move_forward demo_id demo_now demo_retry_at id _ _
    (proj1 (call_steps demo_id demo_now demo_retry_at id unit (demo_send "cd") demo_sent_world
              (dm_operation demo_id demo_now demo_retry_at id demo_client "op" "cd" None) eq_refl)))
    as [Hrows _].
  destruct (Hrows "0" r Hr) as (r' & Hr' & _ & _ & _ & Ht & _). exists r'. split; assumption.
Defined.

(** ** A placeholder is finalized once

    [stream_sink] takes up the placeholder of an earlier attempt, but starts again
    at revision one; [finalize] of the earlier attempt has moved the ledger to
    revision two. *)

Definition demo_scope : TurnScope := MkTurnScope "acc" "bot" 42 7 "hash".
Definition demo_turn : TurnMetadata := MkTurnMetadata demo_scope "op" "op".

(** One attempt at showing a generated reply. *)
Definition show_reply (w : World) : World * option (result TelegramProgressSink AppError) :=
  (let! sink := stream_sink demo_id demo_now demo_retry_at id demo_client demo_turn "..." in
   finalize demo_id demo_now demo_retry_at id sink "abcd efgh") w.

Definition answer_error : RawReply := Reply 500 (JObject [("ok", JBool false)]).

(** The first attempt shows the first chunk and fails at the second; every answer
    to the second attempt is good, and still it ends as unknown. *)
Theorem retried_stream_is_stale :
  let first := show_reply (demo_world ([answer_message 11; answer_message 11; answer_error]
                                       ++ replicate 8 (answer_message 11))) in
  let second := show_reply first.1 in
  d_status <$> channel_deliveries (w_tables first.1) !! "0" = Some DSent
  /\ (option_map is_ok first.2 = Some false)
  /\ d_status <$> channel_deliveries (w_tables second.1) !! "0" = Some DUnknown
  /\ second.2 = Some (Err (conflict "TELEGRAM_COMMIT_STATE_UNKNOWN"
       "persistence_error=TELEGRAM_TURN_LEDGER_STALE; delivery_state=unknown")).
Proof. vm_compute. auto. Qed.
