(* ===== verification/Identity.v ===== *)
(** * Accounts and logins ([modules/identity/mod.rs])

    Accounts with their default workspace, authorization in a workspace, and the
    throttled login.  A transaction is one step, an UPDATE or SELECT another;
    [authenticate] is given as the sequence of its statements when no other login
    of the same name runs in between.  Argon2 is a parameter; times are RFC 3339
    texts compared as texts. *)

From S2P Require Import Prelude Text Errors StDomain Engine BindCodes.
From Stdlib Require Import Lia.

Record AccountRow := MkAccountRow {
  ac_username : string;
  ac_display_name : string;
  ac_password_hash : string;
  ac_is_system_admin : Z;
  ac_disabled_at : option string;
  ac_legacy_st_handle : option string;
  ac_created_at : string;
  ac_updated_at : string;
}.

Record WorkspaceRow := MkWorkspaceRow { wk_name : string; wk_created_by : string; wk_created_at : string }.
Record MemberRow := MkMemberRow { mb_role : string; mb_created_at : string }.
Record SettingsRow := MkSettingsRow { se_prompt_user_name : string; se_default_prompt_profile : string }.
Record LoginRow := MkLoginRow { lr_failures : Z; lr_window_start : string; lr_locked_until : option string }.

Record IdentityDB := MkIdentityDB {
  id_accounts : gmap string AccountRow;
  id_workspaces : gmap string WorkspaceRow;
  id_members : gmap (string * string) MemberRow;  (* workspace, account *)
  id_settings : gmap string SettingsRow;
  login_rate_limits : gmap string LoginRow;
}.

Definition set_accounts (f : gmap string AccountRow -> gmap string AccountRow) (db : IdentityDB) : IdentityDB :=
  MkIdentityDB (f (id_accounts db)) (id_workspaces db) (id_members db) (id_settings db) (login_rate_limits db).
Definition set_logins (f : gmap string LoginRow -> gmap string LoginRow) (db : IdentityDB) : IdentityDB :=
  MkIdentityDB (id_accounts db) (id_workspaces db) (id_members db) (id_settings db) (f (login_rate_limits db)).

Definition into_account (id : string) (r : AccountRow) : Account :=
  {| acc_id := id; acc_username := ac_username r; acc_display_name := ac_display_name r;
     acc_is_system_admin := negb (ac_is_system_admin r =? 0)%Z; acc_disabled_at := ac_disabled_at r;
     acc_legacy_st_handle := ac_legacy_st_handle r |}.

(** ** Validation *)

Definition is_username_byte (a : Ascii.ascii) : bool :=
  is_ascii_alphanumeric a || (a =?= Ascii.ascii_of_nat 95) || (a =?= Ascii.ascii_of_nat 45) || (a =?= Ascii.ascii_of_nat 46).

Definition username_is_valid (username : string) : bool :=
  (1 <=? chars_count username)%nat && (chars_count username <=? 64)%nat && all_bytes is_username_byte username.

Definition validate_account_fields (username password display_name : string) : AppResult unit :=
  let display_len := chars_count display_name in
  if negb (username_is_valid username)
  then Err (bad_request "USERNAME_INVALID"
              "username must contain 1-64 ASCII letters, digits, dots, underscores, or hyphens")
  else if negb ((1 <=? display_len)%nat && (display_len <=? 128)%nat)
  then Err (bad_request "DISPLAY_NAME_INVALID" "display name must contain 1-128 characters")
  else if negb ((12 <=? String.length password)%nat && (String.length password <=? 1024)%nat)
  then Err (bad_request "PASSWORD_INVALID" "password must contain 12-1024 bytes")
  else Ok tt.

(** ** Accounts *)

Record AccountSeed := MkAccountSeed {
  seed_username : string;
  seed_password : string;
  seed_display_name : string;
  seed_is_admin : bool;
  seed_workspace_name : string;
  seed_prompt_user_name : string;
  seed_legacy_st_handle : option string;
}.

Definition get_by_id (id : string) (db : IdentityDB) : option Account := into_account id <$> id_accounts db !! id.

(** [UNIQUE (username)]. *)
Definition find_username (username : string) (db : IdentityDB) : option (string * AccountRow) :=
  head (filter (λ kr : string * AccountRow, ac_username kr.2 = username) (map_to_list (id_accounts db))).
Definition get_by_username (username : string) (db : IdentityDB) : option Account :=
  (λ kr, into_account kr.1 kr.2) <$> find_username username db.

Definition older_account (a b : string * AccountRow) : bool := text_le (ac_created_at a.2) (ac_created_at b.2).
Definition list_accounts (db : IdentityDB) : list Account :=
  (λ kr, into_account kr.1 kr.2) <$> sort_by older_account (map_to_list (id_accounts db)).

Definition active_account (id : string) (db : IdentityDB) : AppResult Account :=
  let? account := ok_or (get_by_id id db) (unauthorized "login required") in
  match acc_disabled_at account with
  | Some _ => Err (forbidden "account disabled")
  | None => Ok account
  end.

Definition actor_in_workspace (account : Account) (workspace_id : string) (db : IdentityDB) : AppResult Actor :=
  let? account := active_account (acc_id account) db in
  if acc_is_system_admin account
  then Ok {| act_account := account; act_workspace_id := Some workspace_id; act_workspace_role := Some RoleOwner |}
  else
    let? role := ok_or (r ← id_members db !! (workspace_id, acc_id account); WorkspaceRole_parse (mb_role r))
      (forbidden "not a member of this workspace") in
    Ok {| act_account := account; act_workspace_id := Some workspace_id; act_workspace_role := Some role |}.

Definition older_member (a b : (string * string) * MemberRow) : bool := text_le (mb_created_at a.2) (mb_created_at b.2).
Definition default_workspace (account_id : string) (db : IdentityDB) : option string :=
  (λ kr : (string * string) * MemberRow, kr.1.1) <$>
    head (sort_by older_member (filter (λ kr : (string * string) * MemberRow, kr.1.2 = account_id) (map_to_list (id_members db)))).
Definition default_workspace_id (account_id : string) (db : IdentityDB) : AppResult string :=
  ok_or (default_workspace account_id db) (not_found "WORKSPACE_NOT_FOUND" "no workspace").

Section Identity.
Context (argon2_hash : string -> string -> string) (argon2_verify : string -> string -> AppResult bool).

(** The transaction of [provision_account]; [salt], [id] and [workspace_id] are drawn. *)
Definition provision_account (now salt id workspace_id : string) (seed : AccountSeed) (db : IdentityDB)
  : IdentityDB * AppResult (Account * string) :=
  let row := MkAccountRow (seed_username seed) (seed_display_name seed) (argon2_hash salt (seed_password seed))
    (if seed_is_admin seed then 1 else 0) None (seed_legacy_st_handle seed) now now in
  if bool_decide (is_Some (id_accounts db !! id)) || bool_decide (is_Some (find_username (seed_username seed) db))
     || bool_decide (is_Some (id_workspaces db !! workspace_id))
     || bool_decide (is_Some (id_members db !! (workspace_id, id))) || bool_decide (is_Some (id_settings db !! workspace_id))
  then (db, Err database_error)
  else
    (MkIdentityDB (<[id := row]> (id_accounts db))
       (<[workspace_id := MkWorkspaceRow (seed_workspace_name seed) id now]> (id_workspaces db))
       (<[(workspace_id, id) := MkMemberRow "owner" now]> (id_members db))
       (<[workspace_id := MkSettingsRow (seed_prompt_user_name seed) "legacy_bridge_v1"]> (id_settings db))
       (login_rate_limits db),
     Ok (into_account id row, workspace_id)).

(** The check of a complete default workspace in [bootstrap_admin]. *)
Definition workspace_complete (account_id : string) (db : IdentityDB) : bool :=
  match default_workspace account_id db with
  | None => false
  | Some w =>
      match id_members db !! (w, account_id), id_workspaces db !! w, id_settings db !! w with
      | Some m, Some row, Some _ => (mb_role m =?= "owner") && (wk_created_by row =?= account_id)
      | _, _, _ => false
      end
  end.

Definition bootstrap_admin (now salt id workspace_id username password display_name : string) (db : IdentityDB)
  : IdentityDB * AppResult Account :=
  match validate_account_fields username password display_name with
  | Err e => (db, Err e)
  | Ok _ =>
      match get_by_username username db with
      | Some existing =>
          if negb (acc_is_system_admin existing) || bool_decide (is_Some (acc_disabled_at existing))
          then (db, Err (conflict "BOOTSTRAP_ACCOUNT_CONFLICT"
                 "existing account is not an enabled administrator; bootstrap does not change roles or passwords"))
          else if negb (workspace_complete (acc_id existing) db)
          then (db, Err (conflict "BOOTSTRAP_INCOMPLETE"
                 "administrator has an incomplete default workspace; restore a consistent backup before retrying"))
          else (db, Ok existing)
      | None =>
          let '(db, r) := provision_account now salt id workspace_id
            (MkAccountSeed username password display_name true "Default" "User" None) db in
          (db, result_map fst r)
      end
  end.

Definition create_account (now salt id workspace_id : string) (actor : Actor) (username password display_name : string)
    (is_admin : bool) (db : IdentityDB) : IdentityDB * AppResult Account :=
  match active_account (acc_id (act_account actor)) db with
  | Err e => (db, Err e)
  | Ok account =>
      if negb (acc_is_system_admin account) then (db, Err (forbidden "only system admin can create accounts"))
      else match validate_account_fields username password display_name with
           | Err e => (db, Err e)
           | Ok _ =>
               let '(db, r) := provision_account now salt id workspace_id
                 (MkAccountSeed username password display_name is_admin display_name display_name None) db in
               (db, result_map fst r)
           end
  end.

Definition find_legacy (handle : string) (db : IdentityDB) : option (string * AccountRow) :=
  head (filter (λ kr : string * AccountRow, ac_legacy_st_handle kr.2 = Some handle) (map_to_list (id_accounts db))).

Definition ensure_legacy_account (now salt id workspace_id password_id handle display_name : string) (db : IdentityDB)
  : IdentityDB * AppResult (Account * string) :=
  match find_legacy handle db with
  | Some (i, r) => (db, let? w := default_workspace_id i db in Ok (into_account i r, w))
  | None =>
      match get_by_username handle db with
      | Some existing =>
          match default_workspace_id (acc_id existing) db with
          | Err e => (db, Err e)
          | Ok w =>
              (set_accounts (alter (λ r, MkAccountRow (ac_username r) (ac_display_name r) (ac_password_hash r)
                 (ac_is_system_admin r) (ac_disabled_at r) (Some handle) (ac_created_at r) now) (acc_id existing)) db,
               Ok (existing, w))
          end
      | None =>
          provision_account now salt id workspace_id
            (MkAccountSeed handle ("imported-" +:+ password_id) display_name false display_name display_name (Some handle)) db
      end
  end.

(** ** Login *)

Definition is_login_locked (now username : string) (db : IdentityDB) : bool :=
  match login_rate_limits db !! username with
  | Some (MkLoginRow _ _ (Some until)) => text_lt now until
  | _ => false
  end.

Definition check_login_rate (now username : string) (db : IdentityDB) : AppResult unit :=
  if is_login_locked now username db then Err (too_many "login temporarily locked") else Ok tt.

(** [cutoff] and [later] are the times fifteen minutes before and after [now]. *)
Definition count_failure (now cutoff : string) (row : option LoginRow) : LoginRow :=
  match row with
  | None => MkLoginRow 1 now None
  | Some r =>
      let stale := text_lt (lr_window_start r) cutoff in
      MkLoginRow (if stale then 1 else lr_failures r + 1) (if stale then now else lr_window_start r)
        (match lr_locked_until r with Some u => if text_le u now then None else Some u | None => None end)
  end.

Definition record_login_failure (now cutoff later username : string) (db : IdentityDB) : IdentityDB :=
  let row := count_failure now cutoff (login_rate_limits db !! username) in
  set_logins <[username :=
    if (10 <=? lr_failures row)%Z then MkLoginRow (lr_failures row) (lr_window_start row) (Some later) else row]> db.

Definition clear_login_rate (username : string) : IdentityDB -> IdentityDB := set_logins (delete username).

Definition invalid_credentials : AppError := unauthorized "invalid credentials".

Definition authenticate (now cutoff later username password : string) (db : IdentityDB) : IdentityDB * AppResult Account :=
  if negb (username_is_valid username) || (1024 <? String.length password)%nat then (db, Err invalid_credentials)
  else match check_login_rate now username db with
       | Err e => (db, Err e)
       | Ok _ =>
           match find_username username db with
           | None => (db, Err invalid_credentials)
           | Some (id, row) =>
               if bool_decide (is_Some (ac_disabled_at row))
               then (record_login_failure now cutoff later username db, Err invalid_credentials)
               else match argon2_verify password (ac_password_hash row) with
                    | Err e => (db, Err e)
                    | Ok false => (record_login_failure now cutoff later username db, Err invalid_credentials)
                    | Ok true => (clear_login_rate username db, Ok (into_account id row))
                    end
           end
       end.
End Identity.

(** ** Who a Telegram user acts as ([TelegramModule::resolve_bound_actor]) *)

Definition newest_binding (a b : BindingRow * IdentityRow) : bool := text_le (tb_bound_at b.1) (tb_bound_at a.1).

Definition bound_rows (bot_id user_id : string) (bind : BindDB) : list (BindingRow * IdentityRow) :=
  omap (λ kr : string * BindingRow,
    i ← external_identities bind !! tb_external_identity_id kr.2;
    if (tb_bot_id kr.2 =?= bot_id) && (ei_external_user_id i =?= user_id)
       && match tb_revoked_at kr.2 with None => true | Some _ => false end
    then Some (kr.2, i) else None) (map_to_list (telegram_bindings bind)).

Definition resolve_bound_actor (bot_id user_id : string) (bind : BindDB) (db : IdentityDB) : AppResult (option Actor) :=
  match head (sort_by newest_binding (bound_rows bot_id user_id bind)) with
  | None => Ok None
  | Some (b, i) =>
      match get_by_id (ei_account_id i) db with
      | None => Ok None
      | Some account => let? actor := actor_in_workspace account (tb_workspace_id b) db in Ok (Some actor)
      end
  end.

(** ** Authorization *)

Lemma active_account_Ok id db a :
  active_account id db = Ok a ->
  exists r, id_accounts db !! id = Some r /\ a = into_account id r /\ ac_disabled_at r = None.
Proof.
  unfold active_account, get_by_id. destruct (id_accounts db !! id) as [r|]; [| done]. simpl.
  destruct (ac_disabled_at r) eqn:Hd; [done |]. intros [= <-]. eauto.
Qed.

Lemma actor_in_workspace_Ok account w db actor :
  actor_in_workspace account w db = Ok actor ->
  exists r role, id_accounts db !! acc_id account = Some r /\ ac_disabled_at r = None
    /\ act_account actor = into_account (acc_id account) r /\ act_workspace_id actor = Some w
    /\ act_workspace_role actor = Some role
    /\ (ac_is_system_admin r <> 0%Z
        \/ exists m, id_members db !! (w, acc_id account) = Some m /\ WorkspaceRole_parse (mb_role m) = Some role).
Proof.
  unfold actor_in_workspace. destruct (active_account _ _) as [a|] eqn:Ha; [| done].
  apply active_account_Ok in Ha as (r & Hr & -> & Hd). simpl.
  destruct (ac_is_system_admin r =? 0)%Z eqn:Hadm; simpl.
  - destruct (ok_or _ _) as [role|] eqn:Hrole; [| done]. intros [= <-].
    destruct (id_members db !! _) as [m|] eqn:Hm; simpl in Hrole; [| done].
    destruct (WorkspaceRole_parse (mb_role m)) as [x|] eqn:Hx; simplify_eq/=. eauto 20.
  - apply Z.eqb_neq in Hadm. intros [= <-]. exists r, RoleOwner. eauto 20.
Qed.

(** A Telegram user acts only for an account that is bound to him.  If a user of a
    bot is resolved to an actor, then an unrevoked binding of that bot ties an
    identity of that user to the account, the account exists and is not disabled,
    the actor works in the workspace of the binding, and is an administrator or a
    member of it with the role the membership says. *)
Theorem bound_actor_is_authorized bot_id user_id bind db actor :
  resolve_bound_actor bot_id user_id bind db = Ok (Some actor) ->
  exists k b i r role,
    telegram_bindings bind !! k = Some b /\ tb_bot_id b = bot_id /\ tb_revoked_at b = None
    /\ external_identities bind !! tb_external_identity_id b = Some i /\ ei_external_user_id i = user_id
    /\ id_accounts db !! ei_account_id i = Some r /\ ac_disabled_at r = None
    /\ acc_id (act_account actor) = ei_account_id i /\ act_workspace_id actor = Some (tb_workspace_id b)
    /\ act_workspace_role actor = Some role
    /\ (ac_is_system_admin r <> 0%Z
        \/ exists m, id_members db !! (tb_workspace_id b, ei_account_id i) = Some m
                     /\ WorkspaceRole_parse (mb_role m) = Some role).
Proof.
  unfold resolve_bound_actor. destruct (head _) as [[b i]|] eqn:Hh; [| done].
  assert ((b, i) ∈ bound_rows bot_id user_id bind) as Hin.
  { apply (sort_by_elem newest_binding). destruct (sort_by _ _); simplify_eq/=. apply list_elem_of_here. }
  unfold bound_rows in Hin. apply list_elem_of_omap in Hin as ([k b0] & Hk & Hsome).
  apply elem_of_map_to_list in Hk. simpl in Hsome.
  destruct (external_identities bind !! _) as [i0|] eqn:Hi; [| done]. simpl in Hsome.
  destruct (_ && _) eqn:Hc; [| done]. injection Hsome as -> ->.
  rewrite !andb_true_iff, !bool_decide_eq_true in Hc. destruct Hc as [[Hb Hu] Hrev].
  unfold get_by_id. destruct (id_accounts db !! ei_account_id i) as [row|] eqn:Hacc; [| done]. simpl.
  destruct (actor_in_workspace _ _ _) as [x|] eqn:Ha; [| done]. intros [= <-].
  apply actor_in_workspace_Ok in Ha as (r & role & Hr & Hd & Hacct & Hw & Hrole & Hor). simpl in *. simplify_eq.
  exists k, b, i, row, role. rewrite Hacct. split_and!; auto. by destruct (tb_revoked_at b).
Qed.

(** ** Accounts are whole *)

Record identity_ok (db : IdentityDB) : Prop := {
  io_names : forall i j r q, id_accounts db !! i = Some r -> id_accounts db !! j = Some q ->
               ac_username r = ac_username q -> i = j;
  io_workspaces : forall w row, id_workspaces db !! w = Some row ->
               is_Some (id_accounts db !! wk_created_by row) /\ is_Some (id_settings db !! w)
               /\ exists m, id_members db !! (w, wk_created_by row) = Some m /\ mb_role m = "owner";
  io_members : forall w a m, id_members db !! (w, a) = Some m ->
               is_Some (id_accounts db !! a) /\ is_Some (id_workspaces db !! w) /\ is_Some (WorkspaceRole_parse (mb_role m));
  io_owned : forall a r, id_accounts db !! a = Some r ->
               exists w row, id_workspaces db !! w = Some row /\ wk_created_by row = a;
}.

Lemma find_username_None username db :
  find_username username db = None -> forall i r, id_accounts db !! i = Some r -> ac_username r <> username.
Proof.
  unfold find_username. destruct (filter _ _) eqn:Hf; [| done]. intros _ i r Hr Hu.
  assert ((i, r) ∈ filter (λ kr : string * AccountRow, ac_username kr.2 = username) (map_to_list (id_accounts db))) as Hin.
  { apply list_elem_of_filter. split; [done |]. by apply elem_of_map_to_list. }
  rewrite Hf in Hin. by apply elem_of_nil in Hin.
Qed.

Lemma find_username_Some username db i r :
  find_username username db = Some (i, r) -> id_accounts db !! i = Some r /\ ac_username r = username.
Proof.
  unfold find_username. intros Hh.
  assert ((i, r) ∈ filter (λ kr : string * AccountRow, ac_username kr.2 = username) (map_to_list (id_accounts db))) as Hin.
  { destruct (filter _ _); simplify_eq/=. apply list_elem_of_here. }
  apply list_elem_of_filter in Hin as [Hu Hin]. by apply elem_of_map_to_list in Hin.
Qed.

Lemma insert_is_Some {K V} `{Countable K} (m : gmap K V) k v i : is_Some (m !! i) -> is_Some (<[k := v]> m !! i).
Proof. intros Hi. destruct (decide (i = k)) as [->|Hne]; [rewrite lookup_insert_eq | rewrite lookup_insert_ne]; eauto. Qed.

Lemma provision_ok hash now salt id w seed db :
  identity_ok db -> identity_ok (provision_account hash now salt id w seed db).1.
Proof.
  intros Hok. unfold provision_account. set (row := MkAccountRow _ _ _ _ _ _ _ _).
  destruct (_ || _) eqn:Hc; [done |]. rewrite !orb_false_iff, !bool_decide_eq_false in Hc.
  destruct Hc as [[[[H1 H2] H3] H4] H5]. apply eq_None_not_Some in H1, H2, H3, H4, H5.
  destruct Hok. constructor; simpl.
  - intros i j r q Hi Hj Hu. apply lookup_insert_Some in Hi, Hj.
    destruct Hi as [[<- <-]|[_ Hi]], Hj as [[<- <-]|[_ Hj]]; [done | | | by eapply io_names0].
    + exfalso. by eapply (find_username_None _ _ H2).
    + exfalso. by eapply (find_username_None _ _ H2 i r).
  - intros v x Hv. apply lookup_insert_Some in Hv as [[<- <-]|[Hne Hv]]; simpl.
    + rewrite !lookup_insert_eq. split_and!; eauto.
    + destruct (io_workspaces0 _ _ Hv) as (Ha & Hs & m & Hm & Hr). split_and!; eauto using insert_is_Some.
      exists m. split; [| done]. rewrite lookup_insert_ne; [done |]. by intros [= -> _].
  - intros v a m Hm. apply lookup_insert_Some in Hm as [[[= <- <-] <-]|[Hne Hm]].
    + rewrite !lookup_insert_eq. split_and!; simpl; eauto.
    + destruct (io_members0 _ _ _ Hm) as (Ha & Hw & Hr). split_and!; eauto using insert_is_Some.
  - intros a r Ha. apply lookup_insert_Some in Ha as [[<- <-]|[Hne Ha]].
    + exists w. rewrite lookup_insert_eq. eauto.
    + destruct (io_owned0 _ _ Ha) as (v & x & Hv & Hx). exists v, x. split; [| done].
      rewrite lookup_insert_ne; [done |]. intros ->. congruence.
Qed.

(** Changing columns other than the name keeps accounts whole. *)
Lemma alter_account_ok f id db :
  (forall r, ac_username (f r) = ac_username r) -> identity_ok db -> identity_ok (set_accounts (alter f id) db).
Proof.
  intros Hf [].
  assert (forall i r, alter f id (id_accounts db) !! i = Some r ->
            exists q, id_accounts db !! i = Some q /\ ac_username q = ac_username r) as Hback.
  { intros i r. destruct (decide (i = id)) as [->|Hne].
    - rewrite lookup_alter_eq. destruct (id_accounts db !! id) as [q|]; simpl; [| done]. intros [= <-]. by rewrite Hf; eauto.
    - rewrite lookup_alter_ne by done. eauto. }
  assert (forall i, is_Some (id_accounts db !! i) -> is_Some (alter f id (id_accounts db) !! i)) as Hfwd.
  { intros i Hi. by apply lookup_alter_is_Some. }
  constructor; simpl.
  - intros i j r q Hi Hj Hu. destruct (Hback _ _ Hi) as (r' & Hr' & Hru), (Hback _ _ Hj) as (q' & Hq' & Hqu).
    eapply io_names0; [done | done | congruence].
  - intros w row Hw. destruct (io_workspaces0 _ _ Hw) as (Ha & Hs & Hm). eauto.
  - intros w a m Hm. destruct (io_members0 _ _ _ Hm) as (Ha & Hw & Hr). eauto.
  - intros a r Ha. destruct (Hback _ _ Ha) as (q & Hq & _). eauto.
Qed.

Section Use.
Context (argon2_hash : string -> string -> string) (argon2_verify : string -> string -> AppResult bool).

Inductive identity_step : IdentityDB -> IdentityDB -> Prop :=
| is_bootstrap db now salt id w username password name :
    identity_step db (bootstrap_admin argon2_hash now salt id w username password name db).1
| is_create db now salt id w actor username password name admin :
    identity_step db (create_account argon2_hash now salt id w actor username password name admin db).1
| is_legacy db now salt id w pid handle name :
    identity_step db (ensure_legacy_account argon2_hash now salt id w pid handle name db).1
| is_authenticate db now cutoff later username password :
    identity_step db (authenticate argon2_verify now cutoff later username password db).1
| is_disable db id at_ :
    (* no code of the server disables an account; an operator does in the database *)
    identity_step db (set_accounts (alter (λ r, MkAccountRow (ac_username r) (ac_display_name r) (ac_password_hash r)
      (ac_is_system_admin r) (Some at_) (ac_legacy_st_handle r) (ac_created_at r) (ac_updated_at r)) id) db).

Lemma logins_ok f db : identity_ok db -> identity_ok (set_logins f db).
Proof. intros []. by constructor. Qed.

Lemma identity_step_ok db db' : identity_step db db' -> identity_ok db -> identity_ok db'.
Proof.
  intros [] Hok.
  - unfold bootstrap_admin. destruct (validate_account_fields _ _ _); [| done]. destruct (get_by_username _ _).
    + by repeat case_match.
    + match goal with |- context [provision_account ?a ?b ?c ?d ?e ?f ?g] =>
        pose proof (provision_ok a b c d e f g Hok) as Hp; by destruct (provision_account a b c d e f g) end.
  - unfold create_account. destruct (active_account _ _); [| done]. destruct (negb _); [done |].
    destruct (validate_account_fields _ _ _); [| done].
    match goal with |- context [provision_account ?a ?b ?c ?d ?e ?f ?g] =>
      pose proof (provision_ok a b c d e f g Hok) as Hp; by destruct (provision_account a b c d e f g) end.
  - unfold ensure_legacy_account. destruct (find_legacy _ _) as [[]|]; [done |].
    destruct (get_by_username _ _); [| by apply provision_ok].
    destruct (default_workspace_id _ _); [| done]. simpl. by apply alter_account_ok.
  - unfold authenticate. destruct (_ || _); [done |]. destruct (check_login_rate _ _ _); [| done].
    destruct (find_username _ _) as [[]|]; [| done]. unfold record_login_failure, clear_login_rate.
    repeat case_match; simpl; by try apply logins_ok.
  - by apply alter_account_ok.
Qed.

Definition identity_init : IdentityDB := MkIdentityDB ∅ ∅ ∅ ∅ ∅.

(** Accounts are whole.  Whatever accounts are bootstrapped, created, imported,
    disabled and logged in to, in whatever order, user names are unique, every
    account created a workspace, and every workspace has its settings and its
    creator as an owner; memberships join existing accounts and workspaces in a role
    that is understood. *)
Theorem accounts_are_whole db : rtc identity_step identity_init db -> identity_ok db.
Proof.
  intros Hr. remember identity_init as db0 eqn:E. assert (identity_ok db0) as Hok.
  { subst. constructor; simpl; intros *; by rewrite lookup_empty. }
  clear E. induction Hr; [done |]. eauto using identity_step_ok.
Qed.

(** ** Throttling *)

(** An attempt: the clock, fifteen minutes before, fifteen minutes after. *)
Record Attempt := MkAttempt { at_now : string; at_cutoff : string; at_later : string }.

Fixpoint fail_attempts (username password : string) (l : list Attempt) (db : IdentityDB) : IdentityDB :=
  match l with
  | [] => db
  | a :: l =>
      fail_attempts username password l
        (authenticate argon2_verify (at_now a) (at_cutoff a) (at_later a) username password db).1
  end.

Context (username password id : string) (row : AccountRow).
Hypothesis name_valid : username_is_valid username = true.
Hypothesis password_short : (String.length password <= 1024)%nat.
Hypothesis wrong : argon2_verify password (ac_password_hash row) = Ok false.

(** The state of a name under attack: [n] failures in the window that began at
    [start]. *)
Definition counted (n : Z) (start : string) (db : IdentityDB) : Prop :=
  find_username username db = Some (id, row) /\ ac_disabled_at row = None
  /\ login_rate_limits db !! username = Some (MkLoginRow n start None).

Lemma wrong_attempt a db :
  find_username username db = Some (id, row) -> ac_disabled_at row = None ->
  is_login_locked (at_now a) username db = false ->
  (authenticate argon2_verify (at_now a) (at_cutoff a) (at_later a) username password db)
  = (record_login_failure (at_now a) (at_cutoff a) (at_later a) username db, Err invalid_credentials).
Proof.
  intros Hf Hd Hl. unfold authenticate, check_login_rate. rewrite name_valid, Hl, Hf, Hd. simpl.
  rewrite (proj2 (Nat.ltb_ge _ _) password_short), wrong. done.
Qed.

Lemma failures_kept n start l db :
  counted n start db -> Forall (λ a, text_lt start (at_cutoff a) = false) l -> (1 <= n)%Z ->
  (n + Z.of_nat (length l) < 10)%Z ->
  counted (n + Z.of_nat (length l)) start (fail_attempts username password l db).
Proof.
  revert n db. induction l as [|a l IH]; intros n db Hc Hl Hn Hlt; cbn [fail_attempts length] in *.
  { by rewrite Z.add_0_r. }
  apply Forall_cons in Hl as [Ha Hl]. destruct Hc as (Hf & Hd & Hr).
  rewrite wrong_attempt; [| done | done | unfold is_login_locked; by rewrite Hr]. simpl.
  replace (n + Z.of_nat (S (length l)))%Z with ((n + 1) + Z.of_nat (length l))%Z by lia.
  apply IH; [| done | lia | lia]. split_and!; [exact Hf | done |].
  unfold record_login_failure. rewrite Hr. unfold count_failure. simpl. rewrite Ha. simpl.
  rewrite lookup_insert_eq. by replace (10 <=? n + 1)%Z with false by lia.
Qed.

(** Guessing passwords is slow.  After ten wrong passwords for an account within
    one window of fifteen minutes every further attempt is refused until fifteen
    minutes after the tenth, whatever the password, and nothing is recorded. *)
Theorem login_is_throttled first l last db now cutoff later guess :
  find_username username db = Some (id, row) -> ac_disabled_at row = None ->
  login_rate_limits db !! username = None ->
  length l = 8 ->
  Forall (λ a, text_lt (at_now first) (at_cutoff a) = false) (l ++ [last]) ->
  text_lt now (at_later last) = true -> (String.length guess <= 1024)%nat ->
  let db' := fail_attempts username password (first :: l ++ [last]) db in
  authenticate argon2_verify now cutoff later username guess db' = (db', Err (too_many "login temporarily locked")).
Proof.
  intros Hf Hd Hnone Hlen Hall Hnow Hg db'.
  assert (is_login_locked now username db' = true) as Hlock.
  { subst db'. cbn [fail_attempts].
    rewrite wrong_attempt; [| done | done | unfold is_login_locked; by rewrite Hnone]. simpl.
    apply Forall_app in Hall as [Hl Hlast]. apply Forall_cons in Hlast as [Hlast _].
    assert (forall k d, fail_attempts username password (k ++ [last]) d
              = (authenticate argon2_verify (at_now last) (at_cutoff last) (at_later last) username password
                   (fail_attempts username password k d)).1) as Hsnoc.
    { induction k as [|b k IHk]; intros d; [done |]. simpl. apply IHk. }
    rewrite Hsnoc. set (d0 := record_login_failure _ _ _ _ _).
    assert (counted 1 (at_now first) d0) as Hc.
    { subst d0. split_and!; [exact Hf | done |]. unfold record_login_failure. rewrite Hnone. simpl. apply lookup_insert_eq. }
    destruct (failures_kept 1 _ l d0 Hc Hl) as (Hf' & _ & Hr'); [lia | lia |]. rewrite Hlen in Hr'. simpl in Hr'.
    rewrite wrong_attempt; [| done | done | unfold is_login_locked; by rewrite Hr']. simpl.
    unfold is_login_locked, record_login_failure. rewrite Hr'. unfold count_failure. simpl. rewrite Hlast. simpl.
    by rewrite lookup_insert_eq. }
  unfold authenticate, check_login_rate. rewrite name_valid, Hlock.
  by rewrite (proj2 (Nat.ltb_ge _ _) Hg).
Qed.
End Use.

(** ** A server with one account *)

Definition demo_hash (salt password : string) : string := password.
Definition demo_verify (password hash : string) : AppResult bool := Ok (password =?= hash).
Definition demo_identity : IdentityDB :=
  (bootstrap_admin demo_hash "10" "salt" "acc" "ws" "root" "long-password" "Root" identity_init).1.

Definition demo_binds : BindDB :=
  MkBindDB ∅ ∅ {["ident" := MkIdentityRow "acc" "77" None "10"]} {["bind" := MkBindingRow "bot" "ident" "ws" "10" None]} ∅ ∅.

Lemma bound_actor_is_authorized_witness :
  exists actor, resolve_bound_actor "bot" "77" demo_binds demo_identity = Ok (Some actor)
    /\ act_workspace_id actor = Some "ws".
Proof.
  eexists. split; [vm_compute; reflexivity |].
  destruct (bound_actor_is_authorized "bot" "77" demo_binds demo_identity _ eq_refl)
    as (k & b & i & r & role & Hb & _ & _ & _ & _ & _ & _ & _ & Hw & _).
  vm_compute in Hw |- *. reflexivity.
Defined.

Lemma accounts_are_whole_witness : rtc (identity_step demo_hash demo_verify) identity_init demo_identity /\ identity_ok demo_identity.
Proof.
  split; [apply rtc_once, is_bootstrap |].
  apply (accounts_are_whole demo_hash demo_verify), rtc_once, is_bootstrap.
Defined.

Definition demo_attempt : Attempt := MkAttempt "20" "05" "35".

Lemma login_is_throttled_witness :
  authenticate demo_verify "34" "19" "49" "root" "long-password"
    (fail_attempts demo_verify "root" "guess" (demo_attempt :: repeat demo_attempt 8 ++ [demo_attempt]) demo_identity)
  = (fail_attempts demo_verify "root" "guess" (demo_attempt :: repeat demo_attempt 8 ++ [demo_attempt]) demo_identity,
     Err (too_many "login temporarily locked")).
Proof.
  apply (login_is_throttled demo_verify "root" "guess" "acc"
           (MkAccountRow "root" "Root" "long-password" 1 None None "10" "10"));
    try (vm_compute; reflexivity); try (vm_compute; lia).
  repeat constructor.
Defined.
