(* ===== verification/TelegramRuntime.v ===== *)
(** * Bots and their pollers ([modules/telegram/mod.rs])

    The table of bots, the runtimes of the pollers and the set of numeric bot ids
    in use; claiming a numeric id, starting and stopping a poller, the poll loop.
    A guard is shared by its clones (the runtime entry, the poller task, the
    engine), so guards are kept by runtime instance id.

    What Telegram answers, when a poller is cancelled, how a task ends and what
    processing an update does are inputs; the order in which a [HashMap] is walked,
    uuids and clocks are parameters. *)

From S2P Require Import Prelude Text Errors StDomain PollerOwnership Engine OperationStore TelegramInbox.
From Stdlib Require Import Lia.

(** ** Bots *)

Record TelegramBot := MkTelegramBot {
  bot_workspace_id : string;
  bot_owner_account_id : string;
  bot_token_secret_id : option string;
  bot_desired_enabled : bool;
  bot_observed_username : option string;
  bot_last_error : option string;
  bot_inter_message_delay_ms : Z;
  bot_stream_min_interval_ms : Z;
  bot_stream_min_delta_chars : Z;
  bot_stream_first_render_chars : Z;
  bot_stream_chunk_size : Z;
}.

Definition bot_with (secret : option string) (enabled : bool) (b : TelegramBot) : TelegramBot :=
  MkTelegramBot (bot_workspace_id b) (bot_owner_account_id b) secret enabled (bot_observed_username b) (bot_last_error b)
    (bot_inter_message_delay_ms b) (bot_stream_min_interval_ms b) (bot_stream_min_delta_chars b)
    (bot_stream_first_render_chars b) (bot_stream_chunk_size b).

Definition bot_with_error (username error : option string) (b : TelegramBot) : TelegramBot :=
  MkTelegramBot (bot_workspace_id b) (bot_owner_account_id b) (bot_token_secret_id b) (bot_desired_enabled b) username error
    (bot_inter_message_delay_ms b) (bot_stream_min_interval_ms b) (bot_stream_min_delta_chars b)
    (bot_stream_first_render_chars b) (bot_stream_chunk_size b).

(** The rows in the order of the table. *)
Definition list_bots (workspace_id : string) (bots : gmap string TelegramBot) : list (string * TelegramBot) :=
  filter (λ kb : string * TelegramBot, bot_workspace_id kb.2 = workspace_id) (map_to_list bots).

Definition get_bot (id : string) (bots : gmap string TelegramBot) : option TelegramBot := bots !! id.

(** The defaults of the columns. *)
Definition fresh_bot (workspace_id owner : string) (secret : option string) (enabled : bool) : TelegramBot :=
  MkTelegramBot workspace_id owner secret enabled None None 1400 5000 700 300 3200.

(** One bot per workspace: the first one found is updated.  [accounts] and
    [workspaces] are the keys the foreign keys refer to, [secret_ids] those of the
    vault. *)
Definition upsert_bot (id : string) (actor : Actor) (token_secret_id : option string) (desired_enabled : bool)
    (workspaces_ accounts_ secret_ids : gset string) (bots : gmap string TelegramBot)
  : gmap string TelegramBot * AppResult TelegramBot :=
  match require_workspace actor with
  | Err e => (bots, Err e)
  | Ok workspace_id =>
      let secret_known := match token_secret_id with Some s => bool_decide (s ∈ secret_ids) | None => true end in
      match head (list_bots workspace_id bots) with
      | Some (bot_id, bot) =>
          if negb secret_known then (bots, Err database_error) else
          let bots := <[bot_id := bot_with (or_else token_secret_id (bot_token_secret_id bot)) desired_enabled bot]> bots in
          (bots, ok_or (get_bot bot_id bots) (internal "bot missing"))
      | None =>
          if negb secret_known || bool_decide (is_Some (bots !! id)) || negb (bool_decide (workspace_id ∈ workspaces_))
             || negb (bool_decide (acc_id (act_account actor) ∈ accounts_))
          then (bots, Err database_error)
          else
            let bots := <[id := fresh_bot workspace_id (acc_id (act_account actor)) token_secret_id desired_enabled]> bots in
            (bots, ok_or (get_bot id bots) (internal "bot missing after insert"))
      end
  end.

(** ** The module's state *)

Record ActiveNumericBot := MkActiveNumericBot {
  an_bot_id : string;
  an_runtime_instance_id : string;
  an_epoch : Z;
  an_lifecycle : PollerLifecycle;
}.

(** [rt_instance] names the guard; [rt_joinable] is whether the task has not been
    awaited yet. *)
Record BotRuntime := MkBotRuntime {
  rt_instance : string;
  rt_cancelled : bool;
  rt_joinable : bool;
  rt_observed_username : option string;
  rt_last_error : option string;
  rt_status : string;
  rt_numeric_bot_id : option Z;
}.

Section Runtime.
Context {R : Type} `{PollerOwnershipRegistry R}.

Record ModuleState := MkModuleState {
  ms_runtime : gmap string BotRuntime;
  ms_active : gmap Z ActiveNumericBot;
  ms_guards : gmap string PollerOwnershipGuard;
  ms_registry : option R;
  ms_bots : gmap string TelegramBot;
}.

Definition set_runtime (f : gmap string BotRuntime -> gmap string BotRuntime) (s : ModuleState) : ModuleState :=
  MkModuleState (f (ms_runtime s)) (ms_active s) (ms_guards s) (ms_registry s) (ms_bots s).
Definition set_active (f : gmap Z ActiveNumericBot -> gmap Z ActiveNumericBot) (s : ModuleState) : ModuleState :=
  MkModuleState (ms_runtime s) (f (ms_active s)) (ms_guards s) (ms_registry s) (ms_bots s).
Definition set_guard (id : string) (g : PollerOwnershipGuard) (s : ModuleState) : ModuleState :=
  MkModuleState (ms_runtime s) (ms_active s) (<[id := g]> (ms_guards s)) (ms_registry s) (ms_bots s).
Definition set_registry (r : option R) (s : ModuleState) : ModuleState :=
  MkModuleState (ms_runtime s) (ms_active s) (ms_guards s) r (ms_bots s).
Definition set_bots (f : gmap string TelegramBot -> gmap string TelegramBot) (s : ModuleState) : ModuleState :=
  MkModuleState (ms_runtime s) (ms_active s) (ms_guards s) (ms_registry s) (f (ms_bots s)).

(** ** Numeric ids *)

Definition bot_id_invalid : AppError :=
  bad_gateway "TELEGRAM_BOT_ID_INVALID" "Telegram bot numeric id is missing or invalid".

Definition parse_numeric_bot_id (me : Value) : AppResult Z :=
  match (match value_get me "id" with Some v => value_as_i64 v | None => None end) with
  | Some id => if (0 <? id)%Z then Ok id else Err bot_id_invalid
  | None => Err bot_id_invalid
  end.

Definition release_numeric_bot_instance (numeric_bot_id : Z) (bot_id runtime_instance_id : string) (s : ModuleState)
  : ModuleState :=
  match ms_active s !! numeric_bot_id with
  | Some entry =>
      if (an_bot_id entry =?= bot_id) && (an_runtime_instance_id entry =?= runtime_instance_id)
      then set_active (delete numeric_bot_id) s else s
  | None => s
  end.

Definition release_numeric_bot (numeric_bot_id : Z) (bot_id : string) (s : ModuleState) : ModuleState :=
  match ms_active s !! numeric_bot_id with
  | Some entry =>
      if an_bot_id entry =?= bot_id then release_numeric_bot_instance numeric_bot_id bot_id (an_runtime_instance_id entry) s
      else s
  | None => s
  end.

Definition not_owner (message : string) : AppError := conflict "ST_POLLER_NOT_OWNER" message.

(** The part of [claim_numeric_bot_with_epoch] under the first lock: check and
    reserve. *)
Definition reserve_numeric_bot (numeric_bot_id : Z) (bot_id instance : string) (expected_epoch : option Z) (s : ModuleState)
  : ModuleState * AppResult unit :=
  if (numeric_bot_id <=? 0)%Z then (s, Err bot_id_invalid)
  else match ms_active s !! numeric_bot_id with
       | Some _ => (s, Err (conflict "BOT_NUMERIC_ID_ALREADY_RUNNING" "该 Telegram Bot (numeric ID) 已在运行"))
       | None =>
           (set_active <[numeric_bot_id := MkActiveNumericBot bot_id instance (default 1%Z expected_epoch) Starting]> s, Ok tt)
       end.

(** The rest: ask the registry, then keep the reservation or give it back. *)
Definition confirm_numeric_bot (numeric_bot_id : Z) (bot_id instance : string) (expected_epoch : option Z) (s : ModuleState)
  : ModuleState * AppResult PollerOwnershipGuard :=
  let give_back s message := (release_numeric_bot_instance numeric_bot_id bot_id instance s, Err (not_owner message)) in
  let rejected (err : PollerError) := "poller ownership rejected: " +:+ PollerError_as_str err in
  match ms_registry s with
  | None => give_back s "poller ownership rejected: poller ownership registry unavailable"
  | Some registry =>
      match (match expected_epoch with
             | Some epoch => Ok epoch
             | None =>
                 match get_ownership numeric_bot_id registry with
                 | Ok (Some record) => Ok (own_epoch record)
                 | Ok None => Err "poller ownership rejected: poller not registered for numeric bot id"
                 | Err err => Err (rejected err)
                 end
             end) with
      | Err message => give_back s message
      | Ok epoch =>
          match assert_can_start numeric_bot_id RustBridge epoch registry with
          | Err err => give_back s (rejected err)
          | Ok _ =>
              let binding := {| b_internal_bot_id := bot_id; b_runtime_instance_id := instance; b_epoch := epoch;
                                b_lifecycle := Running |} in
              match claim_runtime numeric_bot_id binding registry with
              | (registry, Err err) =>
                  give_back (set_registry (Some registry) s) ("poller runtime claim rejected: " +:+ PollerError_as_str err)
              | (registry, Ok _) =>
                  let s := set_registry (Some registry) s in
                  let s := set_active (alter (λ e, MkActiveNumericBot (an_bot_id e) (an_runtime_instance_id e) epoch Running)
                                         numeric_bot_id) s in
                  let guard := guard_new_with_binding numeric_bot_id RustBridge binding in
                  (set_guard instance guard s, Ok guard)
              end
          end
      end
  end.

Definition claim_numeric_bot_with_epoch (instance : string) (numeric_bot_id : Z) (bot_id : string) (expected_epoch : option Z)
    (s : ModuleState) : ModuleState * AppResult PollerOwnershipGuard :=
  match reserve_numeric_bot numeric_bot_id bot_id instance expected_epoch s with
  | (s, Err e) => (s, Err e)
  | (s, Ok _) => confirm_numeric_bot numeric_bot_id bot_id instance expected_epoch s
  end.

Definition claim_numeric_bot (instance : string) (numeric_bot_id : Z) (bot_id : string) :=
  claim_numeric_bot_with_epoch instance numeric_bot_id bot_id None.

(** ** Leaving *)

(** [first_error.is_none()]: keep the first error. *)
Definition first_of (a : option AppError) (b : option AppError) : option AppError := or_else a b.

Definition finalize_poller_exit (bot_id instance : string) (s : ModuleState) : ModuleState * AppResult unit :=
  match ms_guards s !! instance with
  | None => (s, Ok tt)  (* a poller has its guard *)
  | Some guard =>
      let '(guard, r1) := begin_draining guard in
      let e1 := match r1 with
                | Err e => Some (not_owner ("poller begin draining failed: " +:+ PollerError_as_str e)) | Ok _ => None end in
      let '(guard, r2) := mark_stopped guard in
      let e2 := match r2 with
                | Err e => Some (internal ("poller mark stopped failed: " +:+ PollerError_as_str e)) | Ok _ => None end in
      let '(registry, r3) :=
        match ms_registry s with
        | Some registry => let '(registry, r) := guard_release_runtime guard registry in (Some registry, r)
        | None => (None, Ok tt)
        end in
      let e3 := match r3 with
                | Err e => Some (internal ("poller runtime release failed: " +:+ PollerError_as_str e)) | Ok _ => None end in
      let s := set_registry registry (set_guard instance guard s) in
      let s := release_numeric_bot_instance (g_numeric_bot_id guard) bot_id instance s in
      let s := match ms_runtime s !! bot_id with
               | Some entry => if rt_instance entry =?= instance then set_runtime (delete bot_id) s else s
               | None => s
               end in
      (s, match first_of (first_of e1 e2) e3 with Some e => Err e | None => Ok tt end)
  end.

(** ** Starting and stopping *)

(** What a start learns from outside: the token, the client, getMe. *)
Record StartReads := MkStartReads {
  sr_token : AppResult string;
  sr_client : AppResult unit;
  sr_get_me : AppResult Value;
}.

Definition enable_bot (enabled : bool) (bot_id : string) : gmap string TelegramBot -> gmap string TelegramBot :=
  alter (λ b, bot_with (bot_token_secret_id b) enabled b) bot_id.

Definition start_bot (instance bot_id : string) (bot : TelegramBot) (rd : StartReads) (s : ModuleState)
  : ModuleState * AppResult unit :=
  match bot_token_secret_id bot with
  | None => (s, Err (bad_request "BOT_TOKEN_MISSING" "请先配置 bot token"))
  | Some _ =>
      match sr_token rd with
      | Err e => (s, Err e)
      | Ok _ =>
          if bool_decide (is_Some (ms_runtime s !! bot_id)) then (s, Err (conflict "BOT_ALREADY_RUNNING" "Bot 已在运行"))
          else
            match (let? _ := sr_client rd in let? me := sr_get_me rd in parse_numeric_bot_id me) with
            | Err e => (s, Err e)
            | Ok numeric_bot_id =>
                match claim_numeric_bot instance numeric_bot_id bot_id s with
                | (s, Err e) => (s, Err e)
                | (s, Ok _) =>
                    let s := set_bots (enable_bot true bot_id) s in
                    (set_runtime <[bot_id := MkBotRuntime instance false true None None "running" (Some numeric_bot_id)]> s, Ok tt)
                end
            end
      end
  end.

(** How the awaited task ended: with its result, or with a panic. *)
Inductive JoinOutcome : Type :=
| TaskDone (r : AppResult unit)
| TaskPanicked (detail : string).

(** The first part of [stop_bot], under the lock of the runtimes. *)
Definition request_stop (bot_id : string) (s : ModuleState) : ModuleState * AppResult (option (string * bool)) :=
  match ms_runtime s !! bot_id with
  | None => (s, Ok None)
  | Some entry =>
      match ms_guards s !! rt_instance entry with
      | None => (s, Ok None)
      | Some guard =>
          match begin_draining guard with
          | (guard, Err e) => (set_guard (rt_instance entry) guard s, Err (not_owner (PollerError_as_str e)))
          | (guard, Ok _) =>
              let s := set_guard (rt_instance entry) guard s in
              let s := set_runtime <[bot_id := MkBotRuntime (rt_instance entry) true false (rt_observed_username entry)
                         (rt_last_error entry) (rt_status entry) (rt_numeric_bot_id entry)]> s in
              (s, Ok (Some (rt_instance entry, rt_joinable entry)))
          end
      end
  end.

(** The second part; [join] is how the task ended, when it is awaited, and [s] the
    state it left. *)
Definition after_stop (bot_id : string) (disable : bool) (stopped : option (string * bool)) (join : JoinOutcome)
    (s : ModuleState) : ModuleState * AppResult unit :=
  let '(s, first_error) :=
    match stopped with
    | Some (instance, true) =>
        match join with
        | TaskDone (Ok _) => (s, None)
        | TaskDone (Err error) => (s, Some error)
        | TaskPanicked detail =>
            (fst (finalize_poller_exit bot_id instance s), Some (internal ("telegram poller join failed: " +:+ detail)))
        end
    | _ => (s, None)
    end in
  let s := if disable then set_bots (enable_bot false bot_id) s else s in
  (s, match first_error with Some e => Err e | None => Ok tt end).

Definition mark_draining (instance : string) (s : ModuleState) : ModuleState :=
  match ms_guards s !! instance with
  | Some guard =>
      set_active (alter (λ e, if an_runtime_instance_id e =?= instance
                              then MkActiveNumericBot (an_bot_id e) (an_runtime_instance_id e) (an_epoch e) Draining else e)
                    (g_numeric_bot_id guard)) s
  | None => s
  end.

(** The whole of [stop_bot]; [task] is what the poller does while it is awaited. *)
Definition stop_bot (bot_id : string) (disable : bool) (task : ModuleState -> ModuleState * JoinOutcome) (s : ModuleState)
  : ModuleState * AppResult unit :=
  match request_stop bot_id s with
  | (s, Err e) => (s, Err e)
  | (s, Ok stopped) =>
      let s := match stopped with Some (instance, _) => mark_draining instance s | None => s end in
      match stopped with
      | Some (_, true) => let '(s, join) := task s in after_stop bot_id disable stopped join s
      | _ => after_stop bot_id disable stopped (TaskDone (Ok tt)) s
      end
  end.

Fixpoint stop_each (task : string -> ModuleState -> ModuleState * JoinOutcome) (bot_ids : list string)
    (first_error : option AppError) (s : ModuleState) : ModuleState * AppResult unit :=
  match bot_ids with
  | [] => (s, match first_error with Some e => Err e | None => Ok tt end)
  | bot_id :: bot_ids =>
      let '(s, r) := stop_bot bot_id false (task bot_id) s in
      stop_each task bot_ids (first_of first_error (match r with Err e => Some e | Ok _ => None end)) s
  end.

Definition shutdown_all (task : string -> ModuleState -> ModuleState * JoinOutcome) (s : ModuleState)
  : ModuleState * AppResult unit := stop_each task (fst <$> map_to_list (ms_runtime s)) None s.

(** Start what should run; an error of one bot does not stop the others. *)
Fixpoint autostart_each (instance : string -> string) (rd : string -> StartReads) (bots : list (string * TelegramBot))
    (s : ModuleState) : ModuleState :=
  match bots with
  | [] => s
  | (id, bot) :: bots => autostart_each instance rd bots (fst (start_bot (instance id) id bot (rd id) s))
  end.

Definition autostart_enabled (instance : string -> string) (rd : string -> StartReads) (s : ModuleState) : ModuleState :=
  autostart_each instance rd
    (filter (λ kb : string * TelegramBot, bot_desired_enabled kb.2 = true /\ is_Some (bot_token_secret_id kb.2))
       (map_to_list (ms_bots s))) s.

(** ** Status *)

Definition runtime_status (bot_id : string) (s : ModuleState) : string :=
  match ms_runtime s !! bot_id with Some item => rt_status item | None => "stopped" end.

Definition numeric_bot_id_of (walk : gmap Z ActiveNumericBot -> list (Z * ActiveNumericBot)) (bot_id : string) (s : ModuleState)
  : option Z :=
  let running (ke : Z * ActiveNumericBot) :=
    (0 <? ke.1)%Z && (an_bot_id ke.2 =?= bot_id) && (an_lifecycle ke.2 =?= Running) in
  let search := fst <$> find running (walk (ms_active s)) in
  match ms_runtime s !! bot_id with
  | Some entry =>
      match rt_numeric_bot_id entry with
      | Some n => if (0 <? n)%Z then Some n else search
      | None => search
      end
  | None => search
  end.

Definition set_poll_error `{Redactor} (bot_id message : string) (s : ModuleState) : ModuleState :=
  let message := default "Telegram request failed" (redact_detail message) in
  let s := set_runtime (alter (λ e, MkBotRuntime (rt_instance e) (rt_cancelled e) (rt_joinable e) (rt_observed_username e)
                                  (Some message) "error" (rt_numeric_bot_id e)) bot_id) s in
  set_bots (alter (λ b, bot_with_error (bot_observed_username b) (Some message) b) bot_id) s.

Definition clear_poll_error (bot_id : string) (s : ModuleState) : ModuleState :=
  match ms_runtime s !! bot_id with
  | None => s
  | Some e =>
      let changed := bool_decide (is_Some (rt_last_error e)) || negb (rt_status e =?= "running") in
      let s := set_runtime <[bot_id := MkBotRuntime (rt_instance e) (rt_cancelled e) (rt_joinable e) (rt_observed_username e)
                                         None "running" (rt_numeric_bot_id e)]> s in
      if changed then set_bots (alter (λ b, bot_with_error (bot_observed_username b) None b) bot_id) s else s
  end.

(** [telegram_api_request] on what came back: no response, no JSON, or a status
    with a payload. *)
Inductive ApiAnswer : Type :=
| ApiSendFailed
| ApiNotJson
| ApiReply (status : Z) (payload : Value).

Definition answer_ok (status : Z) (payload : Value) : bool :=
  ((200 <=? status) && (status <? 300))%Z
  && match value_get payload "ok" with Some v => value_as_bool v =?= Some true | None => false end.

Definition telegram_api_request (answer : ApiAnswer) : AppResult Value :=
  match answer with
  | ApiSendFailed => Err (bad_gateway "TELEGRAM_REQUEST_FAILED" "Telegram request failed")
  | ApiNotJson => Err (bad_gateway "TELEGRAM_RESPONSE_INVALID" "Telegram returned invalid JSON")
  | ApiReply status payload =>
      if answer_ok status payload then Ok (default JNull (value_get payload "result"))
      else Err (bad_gateway "TELEGRAM_API_ERROR" "Telegram API request failed")
  end.

(** getMe and setMyCommands must succeed; the descriptions may fail. *)
Definition configure_telegram_bot (bot_id : string) (get_me set_commands : ApiAnswer) (s : ModuleState)
  : ModuleState * AppResult unit :=
  match (let? me := telegram_api_request get_me in let? _ := telegram_api_request set_commands in Ok me) with
  | Err e => (s, Err e)
  | Ok me =>
      let username := match value_get me "username" with Some v => value_as_str v | None => None end in
      let s := set_runtime (alter (λ e, MkBotRuntime (rt_instance e) (rt_cancelled e) (rt_joinable e) username
                                     (rt_last_error e) (rt_status e) (rt_numeric_bot_id e)) bot_id) s in
      (set_bots (alter (λ b, bot_with_error username None b) bot_id) s, Ok tt)
  end.
End Runtime.

(** ** A numeric bot runs once

    Claims and exits of any number of pollers, interleaved.  [cy_pending] are the
    claims between reservation and confirmation, [cy_live] the pollers that were
    confirmed and have not left, each with the numeric id, the bot and the
    instance. *)

Record Claim := MkClaim { cl_numeric : Z; cl_bot : string; cl_instance : string }.

#[export] Instance Claim_eq_dec : EqDecision Claim.
Proof. solve_decision. Defined.

Section Exclusive.
Context {R : Type} `{PollerOwnershipRegistry R}.

Record ClaimSys := MkClaimSys {
  cy_state : ModuleState (R := R);
  cy_pending : list Claim;
  cy_live : list Claim;
  cy_used : list string;
}.

Definition drop_claim (c : Claim) (l : list Claim) : list Claim := filter (λ d, d <> c) l.

(** Steps that concern neither reservations nor guards' identities: the registry
    changes, polling errors come and go, bots are edited. *)
Definition same_claims (s s' : ModuleState (R := R)) : Prop :=
  ms_active s' = ms_active s /\ ms_guards s' = ms_guards s.

Inductive claim_step : ClaimSys -> ClaimSys -> Prop :=
| cy_reserve y n bot instance epoch s :
    instance ∉ cy_used y ->
    reserve_numeric_bot n bot instance epoch (cy_state y) = (s, Ok tt) ->
    claim_step y (MkClaimSys s (MkClaim n bot instance :: cy_pending y) (cy_live y) (instance :: cy_used y))
| cy_confirm y c epoch s g :
    c ∈ cy_pending y ->
    confirm_numeric_bot (cl_numeric c) (cl_bot c) (cl_instance c) epoch (cy_state y) = (s, Ok g) ->
    claim_step y (MkClaimSys s (drop_claim c (cy_pending y)) (c :: cy_live y) (cy_used y))
| cy_refuse y c epoch s e :
    c ∈ cy_pending y ->
    confirm_numeric_bot (cl_numeric c) (cl_bot c) (cl_instance c) epoch (cy_state y) = (s, Err e) ->
    claim_step y (MkClaimSys s (drop_claim c (cy_pending y)) (cy_live y) (cy_used y))
| cy_exit y c :
    c ∈ cy_live y ->
    claim_step y (MkClaimSys (fst (finalize_poller_exit (cl_bot c) (cl_instance c) (cy_state y)))
                    (cy_pending y) (drop_claim c (cy_live y)) (cy_used y))
| cy_stop y bot :
    claim_step y (MkClaimSys (fst (request_stop bot (cy_state y))) (cy_pending y) (cy_live y) (cy_used y))
| cy_drain y instance :
    claim_step y (MkClaimSys (mark_draining instance (cy_state y)) (cy_pending y) (cy_live y) (cy_used y))
| cy_other y s :
    same_claims (cy_state y) s -> claim_step y (MkClaimSys s (cy_pending y) (cy_live y) (cy_used y)).

Definition holds (s : ModuleState (R := R)) (c : Claim) : Prop :=
  exists e, ms_active s !! cl_numeric c = Some e /\ an_bot_id e = cl_bot c /\ an_runtime_instance_id e = cl_instance c.

Definition guarded (s : ModuleState (R := R)) (c : Claim) : Prop :=
  exists g, ms_guards s !! cl_instance c = Some g /\ g_numeric_bot_id g = cl_numeric c.

Definition claimed_by (y : ClaimSys) (c : Claim) : Prop := c ∈ cy_pending y \/ c ∈ cy_live y.

Record claims_ok (y : ClaimSys) : Prop := {
  ck_holds : forall c, claimed_by y c -> holds (cy_state y) c;
  ck_guards : forall c, c ∈ cy_live y -> guarded (cy_state y) c;
  ck_inj : forall c d, claimed_by y c -> claimed_by y d -> cl_instance c = cl_instance d -> c = d;
  ck_used : forall c, claimed_by y c -> cl_instance c ∈ cy_used y;
  ck_apart : forall c, c ∈ cy_pending y -> c ∉ cy_live y;
}.

Lemma holds_unique s c d : holds s c -> holds s d -> cl_numeric c = cl_numeric d -> c = d.
Proof. intros (e & He & Hb & Hi) (f & Hf & Hb' & Hi') Hn. destruct c, d. simpl in *. simplify_eq. done. Qed.

(** Entries keep their bot and instance. *)
Definition keeps (c : Claim) (s s' : ModuleState (R := R)) : Prop := holds s c -> holds s' c.

Lemma release_keeps n bot instance c s : cl_numeric c <> n -> keeps c s (release_numeric_bot_instance n bot instance s).
Proof.
  intros Hne (e & He & Hb & Hi). unfold release_numeric_bot_instance.
  destruct (ms_active s !! n) as [f|]; [| by exists e]. destruct (_ && _); [| by exists e].
  exists e. simpl. by rewrite lookup_delete_ne.
Qed.

Lemma alter_active_keeps f n c s :
  (forall e, an_bot_id (f e) = an_bot_id e /\ an_runtime_instance_id (f e) = an_runtime_instance_id e) ->
  keeps c s (set_active (alter f n) s).
Proof.
  intros Hf (e & He & Hb & Hi). unfold holds. simpl. destruct (decide (cl_numeric c = n)) as [<-|Hne].
  - rewrite lookup_alter_eq, He. simpl. destruct (Hf e) as [H1 H2]. exists (f e). split_and!; [done | congruence..].
  - rewrite lookup_alter_ne by done. by exists e.
Qed.

Lemma release_guards n bot instance (s : ModuleState (R := R)) : ms_guards (release_numeric_bot_instance n bot instance s) = ms_guards s.
Proof. unfold release_numeric_bot_instance. by repeat case_match. Qed.

Lemma drop_claim_elem c d l : d ∈ drop_claim c l -> d ∈ l /\ d <> c.
Proof. unfold drop_claim. rewrite list_elem_of_filter. naive_solver. Qed.

Lemma guard_numeric_drain g : g_numeric_bot_id (fst (begin_draining g)) = g_numeric_bot_id g.
Proof. unfold begin_draining. by case_match. Qed.
Lemma guard_numeric_stop g : g_numeric_bot_id (fst (mark_stopped g)) = g_numeric_bot_id g.
Proof. unfold mark_stopped. by case_match. Qed.

(** A confirmation keeps the reservations of others, and its own when it succeeds. *)
Lemma confirm_effect n bot instance epoch s s' r d :
  confirm_numeric_bot n bot instance epoch s = (s', r) ->
  cl_numeric d <> n \/ is_ok r = true -> keeps d s s'.
Proof.
  unfold confirm_numeric_bot. intros Hc Hd.
  assert (forall x, cl_numeric d <> n \/ is_ok (@Err PollerOwnershipGuard AppError x) = true ->
            forall t, keeps d t (release_numeric_bot_instance n bot instance t)) as Hback.
  { intros x [Hne|?] t; [by apply release_keeps | done]. }
  repeat match type of Hc with
  | context [match ?x with _ => _ end] => let E := fresh "E" in destruct x eqn:E; try discriminate
  end; injection Hc as <- <-; try (by eapply Hback); intros Hh; simpl.
  all: try (eapply (Hback _ Hd (set_registry _ _)); exact Hh).
  all: apply (alter_active_keeps (λ e, MkActiveNumericBot (an_bot_id e) (an_runtime_instance_id e) _ Running) n d
                (set_registry _ s)); [done | exact Hh].
Qed.

Lemma confirm_guards n bot instance epoch s s' r :
  confirm_numeric_bot n bot instance epoch s = (s', r) ->
  (forall i, i <> instance -> ms_guards s' !! i = ms_guards s !! i)
  /\ (is_ok r = true -> exists g, ms_guards s' !! instance = Some g /\ g_numeric_bot_id g = n).
Proof.
  unfold confirm_numeric_bot. intros Hc.
  repeat match type of Hc with
  | context [match ?x with _ => _ end] => let E := fresh "E" in destruct x eqn:E; try discriminate
  end; injection Hc as <- <-; simpl; split; try done; intros; rewrite ?release_guards; try done; simpl.
  all: first [by rewrite lookup_insert_ne | eexists; by rewrite lookup_insert_eq].
Qed.

Lemma finalize_effect bot instance (s : ModuleState (R := R)) g d :
  ms_guards s !! instance = Some g -> cl_numeric d <> g_numeric_bot_id g ->
  keeps d s (fst (finalize_poller_exit bot instance s)).
Proof.
  intros Hg Hne Hh. unfold finalize_poller_exit. rewrite Hg.
  pose proof (guard_numeric_drain g) as Hd. destruct (begin_draining g) as [g1 r1]. simpl in Hd.
  pose proof (guard_numeric_stop g1) as Hs. destruct (mark_stopped g1) as [g2 r2]. simpl in Hs.
  destruct (match ms_registry s with Some _ => _ | None => _ end) as [reg r3]. simpl.
  assert (holds (release_numeric_bot_instance (g_numeric_bot_id g2) bot instance
                   (set_registry reg (set_guard instance g2 s))) d) as Hr.
  { apply release_keeps; [congruence | exact Hh]. }
  destruct (ms_runtime _ !! bot) as [e|]; [| exact Hr]. destruct (rt_instance e =?= instance); exact Hr.
Qed.

Lemma finalize_guards bot instance (s : ModuleState (R := R)) g :
  ms_guards s !! instance = Some g ->
  exists g', ms_guards (fst (finalize_poller_exit bot instance s)) = <[instance := g']> (ms_guards s)
    /\ g_numeric_bot_id g' = g_numeric_bot_id g.
Proof.
  intros Hg. unfold finalize_poller_exit. rewrite Hg.
  pose proof (guard_numeric_drain g) as Hd. destruct (begin_draining g) as [g1 r1]. simpl in Hd.
  pose proof (guard_numeric_stop g1) as Hs. destruct (mark_stopped g1) as [g2 r2]. simpl in Hs.
  destruct (match ms_registry s with Some _ => _ | None => _ end) as [reg r3]. simpl.
  exists g2. split; [| congruence].
  destruct (ms_runtime _ !! bot) as [e|]; [destruct (rt_instance e =?= instance) |]; simpl; by rewrite release_guards.
Qed.

Lemma guarded_insert (s s' : ModuleState (R := R)) i g g' c :
  ms_guards s !! i = Some g -> g_numeric_bot_id g' = g_numeric_bot_id g -> ms_guards s' = <[i := g']> (ms_guards s) ->
  guarded s c -> guarded s' c.
Proof.
  intros Hg Hn Hs (q & Hq & Hqn). unfold guarded. rewrite Hs. destruct (decide (cl_instance c = i)) as [<-|Hne].
  - rewrite lookup_insert_eq. exists g'. split; [done |]. simplify_eq. congruence.
  - rewrite lookup_insert_ne by done. by exists q.
Qed.

(** Steps after which at most the same claims are held. *)
Lemma claims_ok_shrink y y' :
  (forall c, claimed_by y' c -> claimed_by y c) -> cy_used y' = cy_used y ->
  (forall c, claimed_by y' c -> keeps c (cy_state y) (cy_state y')) ->
  (forall c, c ∈ cy_live y' -> guarded (cy_state y') c) ->
  (forall c, c ∈ cy_pending y' -> c ∉ cy_live y') ->
  claims_ok y -> claims_ok y'.
Proof.
  intros Hsub Hused Hk Hg Hap []. constructor; auto.
  - intros c Hc. apply Hk; auto.
  - intros c Hc. rewrite Hused. auto.
Qed.

Lemma request_stop_quiet bot (s : ModuleState (R := R)) c :
  keeps c s (fst (request_stop bot s)) /\ (guarded s c -> guarded (fst (request_stop bot s)) c).
Proof.
  unfold request_stop. destruct (ms_runtime s !! bot) as [e|]; [| unfold keeps; by split].
  destruct (ms_guards s !! rt_instance e) as [g|] eqn:Hg; [| unfold keeps; by split].
  pose proof (guard_numeric_drain g) as Hd. destruct (begin_draining g) as [g1 []]; simpl in *;
    (split; [intros (q0 & ?); by exists q0 |]); intros Hc; (eapply guarded_insert; [exact Hg | exact Hd | | exact Hc]); done.
Qed.

Lemma mark_draining_quiet instance (s : ModuleState (R := R)) c :
  keeps c s (mark_draining instance s) /\ (guarded s c -> guarded (mark_draining instance s) c).
Proof.
  unfold mark_draining. destruct (ms_guards s !! instance) as [g|]; [| unfold keeps; by split]. split; [| done].
  apply alter_active_keeps. intros e. by destruct (_ =?= _).
Qed.

Lemma claim_step_ok y y' : claim_step y y' -> claims_ok y -> claims_ok y'.
Proof.
  intros [y0 n bot instance epoch s Hfresh Hr|y0 c epoch s g Hin Hc|y0 c epoch s e Hin Hc|y0 c Hin|y0 bot|y0 instance|y0 s [Ha Hg]] Hok.
  - revert Hr. unfold reserve_numeric_bot. destruct (n <=? 0)%Z; [done |].
    destruct (ms_active (cy_state y0) !! n) eqn:Hn; [done |]. intros [= <-]. destruct Hok.
    assert (forall d, claimed_by (MkClaimSys (set_active <[n := MkActiveNumericBot bot instance (default 1%Z epoch) Starting]> (cy_state y0))
              (MkClaim n bot instance :: cy_pending y0) (cy_live y0) (instance :: cy_used y0)) d ->
              d = MkClaim n bot instance \/ claimed_by y0 d) as Hcl.
    { intros d [[->|Hd]%elem_of_cons|Hd]; unfold claimed_by; auto. }
    constructor; simpl.
    + intros d [->|Hd]%Hcl; [by eexists; simpl; rewrite lookup_insert_eq |].
      destruct (ck_holds0 d Hd) as (e & He & Hde). exists e. simpl. rewrite lookup_insert_ne; [done |]. intros ->. congruence.
    + intros d Hd. by apply ck_guards0.
    + intros d d' Hd Hd' Heq. apply Hcl in Hd, Hd'. destruct Hd as [->|Hd], Hd' as [->|Hd']; simpl in Heq; auto.
      * exfalso. apply Hfresh. rewrite Heq. auto.
      * exfalso. apply Hfresh. rewrite <- Heq. auto.
    + intros d [->|Hd]%Hcl; rewrite elem_of_cons; auto.
    + intros d [->|Hd]%elem_of_cons; [| auto]. intros Hl. apply Hfresh. apply (ck_used0 (MkClaim n bot instance)). by right.
  - destruct (confirm_guards _ _ _ _ _ _ _ Hc) as [Hoth Hown].
    apply (claims_ok_shrink y0); try done; simpl.
    + intros d [[Hd _]%drop_claim_elem|[->|Hd]%elem_of_cons]; unfold claimed_by; auto.
    + intros d Hd. eapply confirm_effect; [exact Hc | by right].
    + intros d [->|Hd]%elem_of_cons; [by apply Hown |].
      destruct (decide (cl_instance d = cl_instance c)) as [Heq|Hne].
      * rewrite (ck_inj _ Hok d c); [by apply Hown | by right | by left | done].
      * destruct (ck_guards _ Hok d Hd) as (q & Hq & Hqn). exists q. simpl. by rewrite Hoth.
    + intros d [Hd Hne]%drop_claim_elem. rewrite not_elem_of_cons. split; [done | by apply (ck_apart _ Hok)].
  - destruct (confirm_guards _ _ _ _ _ _ _ Hc) as [Hoth _].
    apply (claims_ok_shrink y0); try done; simpl.
    + intros d [[Hd _]%drop_claim_elem|Hd]; unfold claimed_by; auto.
    + intros d Hd Hh. eapply confirm_effect; [exact Hc | left | exact Hh]. intros Hn.
      assert (d = c) as -> by (eapply holds_unique; [exact Hh | apply (ck_holds _ Hok); by left | done]).
      destruct Hd as [[_ Hd]%drop_claim_elem|Hd]; simpl in *; [done |].
      by apply (ck_apart _ Hok c).
    + intros d Hd. destruct (ck_guards _ Hok d Hd) as (q & Hq & Hqn). exists q. simpl. rewrite Hoth; [done |].
      intros Heq. apply (ck_apart _ Hok c); [done |]. rewrite <- (ck_inj _ Hok d c); [done | by right | by left | done].
    + intros d [Hd _]%drop_claim_elem. by apply (ck_apart _ Hok).
  - destruct (ck_guards _ Hok c Hin) as (g & Hg & Hn).
    destruct (finalize_guards (cl_bot c) (cl_instance c) (cy_state y0) g Hg) as (g' & Hg' & Hn').
    apply (claims_ok_shrink y0); try done; simpl.
    + intros d [Hd|[Hd _]%drop_claim_elem]; unfold claimed_by; auto.
    + intros d Hd Hh. apply (finalize_effect _ _ _ g); [done | | done]. intros Heq.
      assert (d = c) as -> by (eapply holds_unique; [exact Hh | apply (ck_holds _ Hok); by right | congruence]).
      destruct Hd as [Hd|[_ Hd]%drop_claim_elem]; simpl in *; [| done]. by apply (ck_apart _ Hok c).
    + intros d [Hd _]%drop_claim_elem. eapply guarded_insert; [exact Hg | exact Hn' | exact Hg' |]. by apply (ck_guards _ Hok).
    + intros d Hd [Hl _]%drop_claim_elem. by apply (ck_apart _ Hok d).
  - apply (claims_ok_shrink y0); try done; simpl; intros c Hc.
    + apply request_stop_quiet.
    + apply request_stop_quiet. by apply (ck_guards _ Hok).
    + by apply (ck_apart _ Hok).
  - apply (claims_ok_shrink y0); try done; simpl; intros c Hc.
    + apply mark_draining_quiet.
    + apply mark_draining_quiet. by apply (ck_guards _ Hok).
    + by apply (ck_apart _ Hok).
  - apply (claims_ok_shrink y0); try done; simpl; intros c Hc.
    + intros (e & He & Hh). exists e. by rewrite Ha.
    + destruct (ck_guards _ Hok c Hc) as (q & Hq & Hqn). exists q. simpl. by rewrite Hg.
    + by apply (ck_apart _ Hok).
Qed.

Definition claim_init (s : ModuleState (R := R)) : ClaimSys := MkClaimSys s [] [] [].

(** C23: a Telegram bot is polled by at most one poller.  However claims, exits, stops
    and registry changes interleave, two pollers that hold or are claiming the same
    numeric bot id are the same one, and while one does no other is let in. *)
Theorem numeric_bot_runs_once s y c d n bot instance epoch :
  rtc claim_step (claim_init s) y ->
  claimed_by y c ->
  (claimed_by y d -> cl_numeric c = cl_numeric d -> c = d)
  /\ (n = cl_numeric c -> exists e, reserve_numeric_bot n bot instance epoch (cy_state y) = (cy_state y, Err e)).
Proof.
  intros Hr Hc. assert (claims_ok y) as Hok.
  { remember (claim_init s) as y0 eqn:E. assert (claims_ok y0) as H0.
    { subst. constructor; unfold claimed_by; simpl; set_solver. }
    clear E Hc. induction Hr; [done |]. eauto using claim_step_ok. }
  split.
  - intros Hd Hn. eapply holds_unique; [by apply (ck_holds _ Hok) | by apply (ck_holds _ Hok) | done].
  - intros ->. destruct (ck_holds _ Hok c Hc) as (e & He & _). unfold reserve_numeric_bot. rewrite He.
    destruct (_ <=? 0)%Z; eauto.
Qed.
End Exclusive.

Definition demo_module : ModuleState (R := MemoryPollerRegistry) :=
  MkModuleState ∅ ∅ ∅ (Some (reg_run [RBootstrap 42; RTransfer 42 LegacyPlugin 1 RustBridge] empty_registry)) ∅.

Lemma numeric_bot_runs_once_witness :
  exists y, rtc claim_step (claim_init demo_module) y /\ cy_live y = [MkClaim 42 "bot" "inst-1"]
    /\ exists e, reserve_numeric_bot 42 "other" "inst-2" None (cy_state y) = (cy_state y, Err e).
Proof.
  assert (exists y, rtc claim_step (claim_init demo_module) y /\ cy_live y = [MkClaim 42 "bot" "inst-1"]) as (y & Hr & Hl).
  { eexists. split.
    - eapply rtc_l; [| eapply rtc_l; [| apply rtc_refl]].
      + eapply (cy_reserve _ 42 "bot" "inst-1" None); [vm_compute; inversion 1 | vm_compute; reflexivity].
      + eapply (cy_confirm _ (MkClaim 42 "bot" "inst-1") None); [by apply list_elem_of_here | vm_compute; reflexivity].
    - vm_compute. reflexivity. }
  exists y. split; [done | split; [done |]].
  refine (proj2 (numeric_bot_runs_once demo_module y (MkClaim 42 "bot" "inst-1") (MkClaim 42 "bot" "inst-1") 42 "other"
                   "inst-2" None Hr _) eq_refl).
  right. rewrite Hl. by apply list_elem_of_here.
Defined.
