(* ===== verification/Poller.v ===== *)
(** * The poller of a bot ([poll_telegram_bot_at], modules/telegram/mod.rs)

    One poller, from its start to its exit: configuring the bot, recovery of what
    an earlier run left, then rounds of checking ownership, recovering the inbox,
    asking Telegram for updates, storing them and processing them by chat.

    A round's inputs are what the poller does not decide: whether it is cancelled,
    the clock, what other tasks did to the module while it waited ([rn_before],
    [rn_during], any function), what Telegram answered, what processing an update
    comes to, and in which order the tasks of a batch take their turns.  Processing
    two updates touches two rows, so a batch is processed one update at a time.
    Recovering bridge operations in between changes the operation tables only (see
    Recovery); its result is logged.
    [pl_trace] records the requests and answers for the theorems. *)

From S2P Require Import Prelude Text Errors StDomain PollerOwnership Engine OperationStore TelegramInbox TelegramRuntime.
From Stdlib Require Import Lia.

Section Polling.
Context {R : Type} `{PollerOwnershipRegistry R} `{Redactor}.
Context (value_to_string : Value -> string) (sha256_hex : string -> string) (z_to_string : Z -> string).
Context (unixepoch : string -> option Z) (from_str : string -> option Value).

Notation ModuleState := (ModuleState (R := R)).

Inductive PollEvent : Type :=
| GetUpdates (offset : Z) (s : ModuleState) (ib : Inbox)
| Answered (updates : list Value).

Record PollState := MkPollState {
  pl_module : ModuleState;
  pl_inbox : Inbox;
  pl_offset : Z;
  pl_trace : list PollEvent;
}.

Record Round := MkRound {
  rn_cancelled : bool;
  rn_before : ModuleState -> ModuleState;
  rn_recovery_due : bool;
  rn_now : string;
  rn_unix : Z;
  rn_valid : Z -> bool;
  rn_work : Z -> Value -> result unit string;
  rn_during : ModuleState -> ModuleState;
  rn_cancelled_waiting : bool;
  rn_answer : ApiAnswer;
  rn_order : gmap string (list (Z * Value)) -> list (Z * Value);
}.

(** [guard.assert_valid()], when the poller has a guard. *)
Definition check_guard (instance : option string) (s : ModuleState) : PResult unit :=
  match instance with
  | None => Ok tt
  | Some instance =>
      match ms_guards s !! instance, ms_registry s with
      | Some guard, Some registry => assert_valid guard registry
      | _, _ => Err RegistryUnavailable
      end
  end.

(** The operations of the bridge are recovered when its services are there; which
    part is missing is told by the error. *)
Inductive BridgeServices : Type :=
| NoServices
| NoBridge
| NoCoordinator
| WithCoordinator (recover_for_bot : AppResult Z).

Definition recover_bridge_operations (services : BridgeServices) : AppResult Z :=
  match services with
  | NoServices => Err (service_unavailable "BRIDGE_SERVICES_UNAVAILABLE" "bridge services are unavailable for operation recovery")
  | NoBridge => Err (service_unavailable "ST_WRITE_NOT_READY" "ST bridge is unavailable for operation recovery")
  | NoCoordinator => Err (service_unavailable "ST_WRITE_NOT_READY" "operation coordinator is unavailable for recovery")
  | WithCoordinator operations => operations
  end.

Definition poll_failed (bot_id message : string) (st : PollState) : PollState :=
  MkPollState (set_poll_error bot_id message (pl_module st)) (pl_inbox st) (pl_offset st) (pl_trace st).

(** The updates of an answer; anything that is not an array is no updates. *)
Definition updates_of (payload : Value) : list Value :=
  match value_get payload "result" with
  | Some (JArray updates) => updates
  | _ => []
  end.

Definition process_batch (now bot_id : string) (work : Z -> Value -> result unit string) (order : list (Z * Value)) (ib : Inbox)
  : Inbox := foldl (λ ib u, attempt_update now bot_id u.1 u.2 work ib) ib order.

(** What follows an answer: errors are noted, a batch is stored and, once
    committed, processed. *)
Definition after_answer (bot_id : string) (rn : Round) (st : PollState) : PollState :=
  match rn_answer rn with
  | ApiSendFailed => poll_failed bot_id "Telegram getUpdates request failed" st
  | ApiNotJson => poll_failed bot_id "Telegram returned invalid JSON" st
  | ApiReply status payload =>
      if negb (answer_ok status payload) then poll_failed bot_id "Telegram getUpdates failed" st
      else
        let updates := updates_of payload in
        let s := clear_poll_error bot_id (pl_module st) in
        let trace := pl_trace st ++ [Answered updates] in
        match persist_update_batch value_to_string sha256_hex (rn_now rn) bot_id updates (pl_inbox st, pl_offset st) with
        | ((ib, offset), Err _) => MkPollState s ib offset trace
        | ((ib, offset), Ok persisted) =>
            MkPollState s (process_batch (rn_now rn) bot_id (rn_work rn) (rn_order rn (grouped z_to_string persisted)) ib)
              offset trace
        end
  end.

(** One turn of the loop; [false] when it was left. *)
Definition poll_round (bot_id : string) (instance : option string) (rn : Round) (st : PollState) : PollState * bool :=
  if rn_cancelled rn then (st, false) else
  let s := rn_before rn (pl_module st) in
  match check_guard instance s with
  | Err _ => (MkPollState s (pl_inbox st) (pl_offset st) (pl_trace st), false)
  | Ok _ =>
      let ib := if rn_recovery_due rn
                then fst (recover_pending_updates unixepoch from_str (rn_now rn) (rn_unix rn) bot_id (rn_valid rn) (rn_work rn)
                            (pl_inbox st))
                else pl_inbox st in
      let s := rn_during rn s in
      match check_guard instance s with
      | Err _ => (MkPollState s ib (pl_offset st) (pl_trace st), false)
      | Ok _ =>
          let st := MkPollState s ib (pl_offset st) (pl_trace st ++ [GetUpdates (pl_offset st) s ib]) in
          if rn_cancelled_waiting rn then (st, false) else (after_answer bot_id rn st, true)
      end
  end.

(** The loop over the rounds there were; [true] when it was left. *)
Fixpoint poll_loop (bot_id : string) (instance : option string) (rounds : list Round) (st : PollState) : PollState * bool :=
  match rounds with
  | [] => (st, false)
  | rn :: rounds =>
      match poll_round bot_id instance rn st with
      | (st, false) => (st, true)
      | (st, true) => poll_loop bot_id instance rounds st
      end
  end.

(** What the start of a poller learns. *)
Record PollStart := MkPollStart {
  pt_client : result unit string;
  pt_get_me : ApiAnswer;
  pt_set_commands : ApiAnswer;
  pt_offset_query : AppResult unit;
  pt_now : string;
  pt_unix : Z;
  pt_valid : Z -> bool;
  pt_work : Z -> Value -> result unit string;
}.

Definition leave (bot_id : string) (instance : option string) (st : PollState) : PollState * AppResult unit :=
  match instance with
  | None => (st, Ok tt)
  | Some instance =>
      let '(s, r) := finalize_poller_exit bot_id instance (pl_module st) in
      (MkPollState s (pl_inbox st) (pl_offset st) (pl_trace st), r)
  end.

(** Configuring the bot; a failure is noted and the poller goes on. *)
Definition configure_or_note (bot_id : string) (pt : PollStart) (s : ModuleState) : ModuleState :=
  match configure_telegram_bot bot_id (pt_get_me pt) (pt_set_commands pt) s with
  | (s, Ok _) => s
  | (s, Err err) => set_poll_error bot_id (a_message err) s
  end.

(** The state in which the loop is entered. *)
Definition poll_entry (bot_id : string) (pt : PollStart) (s : ModuleState) (ib : Inbox) : PollState :=
  MkPollState (configure_or_note bot_id pt s)
    (fst (recover_startup_updates unixepoch from_str (pt_now pt) (pt_unix pt) bot_id (pt_valid pt) (pt_work pt) ib))
    (initial_offset bot_id ib) [].

(** [None] while the poller still runs after the rounds given. *)
Definition poll_telegram_bot_at (bot_id : string) (instance : option string) (pt : PollStart) (rounds : list Round)
    (s : ModuleState) (ib : Inbox) : PollState * option (AppResult unit) :=
  match pt_client pt with
  | Err err =>
      let build_error := bad_gateway "TELEGRAM_REQUEST_FAILED" err in
      match leave bot_id instance (MkPollState s ib 0 []) with
      | (st, Err cleanup_error) => (st, Some (Err cleanup_error))
      | (st, Ok _) => (st, Some (Err build_error))
      end
  | Ok _ =>
      match pt_offset_query pt with
      | Err e => (MkPollState (configure_or_note bot_id pt s) ib 0 [], Some (Err e))
      | Ok _ =>
          match poll_loop bot_id instance rounds (poll_entry bot_id pt s ib) with
          | (st, false) => (st, None)
          | (st, true) => let '(st, r) := leave bot_id instance st in (st, Some r)
          end
      end
  end.

(** ** Rows keep their bodies *)

Definition keeps_bodies (ib ib' : Inbox) : Prop :=
  forall key r, telegram_updates ib !! key = Some r ->
  exists r', telegram_updates ib' !! key = Some r' /\ u_raw_update_json r' = u_raw_update_json r
             /\ u_raw_update_sha256 r' = u_raw_update_sha256 r.

#[local] Instance keeps_bodies_preorder : PreOrder keeps_bodies.
Proof.
  split.
  - intros ib key r Hr. eauto.
  - intros a b c Hab Hbc key r Hr. destruct (Hab key r Hr) as (r1 & Hr1 & ? & ?).
    destruct (Hbc key r1 Hr1) as (r2 & Hr2 & ? & ?). exists r2. repeat split; congruence.
Qed.

Lemma alter_keeps_bodies f key ib :
  (forall r, u_raw_update_json (f r) = u_raw_update_json r /\ u_raw_update_sha256 (f r) = u_raw_update_sha256 r) ->
  keeps_bodies ib (set_updates (alter f key) ib).
Proof.
  intros Hf k r Hr. simpl. destruct (decide (k = key)) as [->|Hne].
  - rewrite lookup_alter_eq, Hr. eexists. split; [done | apply Hf].
  - rewrite lookup_alter_ne by done. eauto.
Qed.

Lemma attempt_keeps_bodies now bot id u work ib : keeps_bodies ib (attempt_update now bot id u work ib).
Proof.
  assert (keeps_bodies ib (fst (claim_update now bot id ib))) as Hc.
  { unfold claim_update. destruct (telegram_updates ib !! (bot, id)) as [r|] eqn:Er; [| done].
    destruct (is_waiting r && _); [| done]. intros k q Hq. simpl. destruct (decide (k = (bot, id))) as [->|Hne].
    - rewrite lookup_insert_eq. simplify_eq. eexists. done.
    - rewrite lookup_insert_ne by done. eauto. }
  unfold attempt_update, process_and_deliver. destruct (claim_update now bot id ib) as [ib1 [|]]; simpl in *; [| done].
  destruct (chat_id_of u); [destruct (work id u) |]; (etransitivity; [exact Hc | by apply alter_keeps_bodies]).
Qed.

Lemma quarantine_keeps_bodies now bot id ib : keeps_bodies ib (quarantine_update now bot id ib).
Proof. apply alter_keeps_bodies. intros r. by destruct (is_waiting r). Qed.

Lemma reset_keeps_bodies now bot ib : keeps_bodies ib (reset_processing now bot ib).
Proof.
  intros key r Hr. simpl. rewrite map_lookup_imap, Hr. simpl. eexists. split; [done |]. by destruct (_ && _).
Qed.

Lemma recover_keeps_bodies now unix bot valid work ib :
  keeps_bodies ib (fst (recover_pending_updates unixepoch from_str now unix bot valid work ib)).
Proof.
  unfold recover_pending_updates. generalize (pending_inbox_batch unixepoch bot unix ib). intros rows. revert ib.
  induction rows as [|[id raw] rows IH]; intros ib; simpl; [done |]. destruct (valid id); simpl; [| done].
  etransitivity; [| apply IH]. destruct (from_str raw); [apply attempt_keeps_bodies | apply quarantine_keeps_bodies].
Qed.

Lemma process_keeps_bodies now bot work order ib : keeps_bodies ib (process_batch now bot work order ib).
Proof.
  unfold process_batch. revert ib. induction order as [|u order IH]; intros ib; simpl; [done |].
  etransitivity; [apply attempt_keeps_bodies | apply IH].
Qed.

(** ** Nothing is confirmed before it is stored

    [sent] are the updates the bot ever gets; Telegram numbers them in the order in
    which it has them.  A call with an offset returns the earliest of those with an
    id from the offset on, and counts the others as confirmed. *)

Section Confirmed.
Context (sent : list Value).

Definition telegram_answers (offset : Z) (updates : list Value) : Prop :=
  (forall u, u ∈ updates -> u ∈ sent)
  /\ (forall u v i j, u ∈ sent -> v ∈ updates -> update_id_of u = Some i -> update_id_of v = Some j ->
        (offset <= i <= j)%Z -> u ∈ updates).

(** Every answer of a trace was to the request before it. *)
Fixpoint answers_fit (offset : Z) (trace : list PollEvent) : Prop :=
  match trace with
  | [] => True
  | GetUpdates offset _ _ :: trace => answers_fit offset trace
  | Answered updates :: trace => telegram_answers offset updates /\ answers_fit offset trace
  end.

Definition confirmed_stored (bot_id : string) (offset : Z) (ib : Inbox) : Prop :=
  forall u i, u ∈ sent -> update_id_of u = Some i -> (i < offset)%Z ->
  exists r, telegram_updates ib !! (bot_id, i) = Some r /\ u_raw_update_json r = value_to_string u.

Definition request_ok (bot_id : string) (instance : option string) (e : PollEvent) : Prop :=
  match e with
  | GetUpdates offset s ib => check_guard instance s = Ok tt /\ confirmed_stored bot_id offset ib
  | Answered _ => True
  end.

Lemma confirmed_keeps bot offset ib ib' :
  keeps_bodies ib ib' -> confirmed_stored bot offset ib -> confirmed_stored bot offset ib'.
Proof.
  intros Hk Hc u i Hu Hi Hlt. destruct (Hc u i Hu Hi Hlt) as (r & Hr & Hj).
  destruct (Hk _ _ Hr) as (r' & Hr' & Hj' & _). exists r'. split; congruence.
Qed.

Lemma persist_confirmed now bot updates ib offset ib' offset' res :
  persist_update_batch value_to_string sha256_hex now bot updates (ib, offset) = ((ib', offset'), res) ->
  telegram_answers offset updates -> confirmed_stored bot offset ib -> confirmed_stored bot offset' ib'.
Proof.
  intros Hp [Hin Hall] Hc.
  assert (keeps_bodies ib ib') as Hk by (intros key r Hr; exists r; split; [by eapply persist_keeps | done]).
  unfold persist_update_batch in Hp.
  destruct persist_loop as [[[tx persisted] candidate]|e] eqn:El; [| by simplify_eq].
  destruct (upsert_offset now bot candidate tx) as [tx'|e] eqn:Eu; [| by simplify_eq]. simplify_eq.
  destruct (persist_loop_spec _ _ _ _ _ _ _ _ _ _ _ El) as (_ & Hle & Hst & Hcand & _).
  destruct (upsert_offset_spec _ _ _ _ _ Eu) as (Hupd & _). rewrite Forall_forall in Hst.
  intros u i Hu Hi Hlt. destruct (decide (i < offset)%Z) as [Hold|Hnew].
  { destruct (Hc u i Hu Hi Hold) as (r & Hr & Hj). destruct (Hk _ _ Hr) as (r' & Hr' & Hj' & _). exists r'. split; congruence. }
  assert (u ∈ updates) as Hup.
  { destruct Hcand as [->|(v & j & Hv & Hj & ->)]; [lia |]. apply (Hall u v i j); auto. lia. }
  destruct (Hst u Hup i Hi) as (_ & r & Hr & Hj & _). exists r. by rewrite Hupd.
Qed.

Lemma answers_fit_app offset t t' :
  answers_fit offset (t ++ t') -> answers_fit offset t.
Proof. revert offset. induction t as [|[] t IH]; intros off; simpl; [done | apply IH | intros [? ?]; split; eauto]. Qed.

Lemma answers_fit_last offset t off s ib updates :
  answers_fit offset ((t ++ [GetUpdates off s ib]) ++ [Answered updates]) -> telegram_answers off updates.
Proof.
  rewrite <- app_assoc. revert offset. induction t as [|[] t IH]; intros o; simpl; [by intros [? _] | apply IH |].
  intros [_ ?]. by eapply IH.
Qed.

Lemma trace_grows bot instance rounds st : exists t, pl_trace (fst (poll_loop bot instance rounds st)) = pl_trace st ++ t.
Proof.
  revert st. induction rounds as [|rn rounds IH]; intros st; simpl; [exists []; by rewrite app_nil_r |].
  assert (exists t, pl_trace (fst (poll_round bot instance rn st)) = pl_trace st ++ t) as (t1 & Ht1).
  { unfold poll_round. destruct (rn_cancelled rn); [exists []; by rewrite app_nil_r |].
    destruct (check_guard _ _); [| exists []; by rewrite app_nil_r].
    destruct (check_guard _ _); [| exists []; by rewrite app_nil_r].
    destruct (rn_cancelled_waiting rn); [by eexists |]. unfold after_answer.
    repeat case_match; simpl; rewrite <- ?app_assoc; by eexists. }
  destruct (poll_round bot instance rn st) as [st1 [|]]; simpl in *; [| by exists t1].
  destruct (IH st1) as (t2 & ->). rewrite Ht1, <- app_assoc. by eexists.
Qed.

Definition poll_ok (bot_id : string) (instance : option string) (st : PollState) : Prop :=
  confirmed_stored bot_id (pl_offset st) (pl_inbox st) /\ Forall (request_ok bot_id instance) (pl_trace st).

Lemma after_answer_ok bot instance rn st off s ib t0 o :
  pl_trace st = t0 ++ [GetUpdates off s ib] -> off = pl_offset st ->
  answers_fit o (pl_trace (after_answer bot rn st)) ->
  poll_ok bot instance st -> poll_ok bot instance (after_answer bot rn st).
Proof.
  intros Ht -> Hfit [Hc Htr]. unfold after_answer in *. destruct (rn_answer rn) as [| |status payload]; [done | done |].
  destruct (answer_ok status payload); cbn [negb] in *; [| done].
  destruct (persist_update_batch _ _ _ _ _ _) as [[ib1 off1] res] eqn:Ep.
  assert (telegram_answers (pl_offset st) (updates_of payload)) as Ha.
  { destruct res; simpl in Hfit; rewrite Ht in Hfit; by eapply answers_fit_last. }
  pose proof (persist_confirmed _ _ _ _ _ _ _ _ Ep Ha Hc) as Hc'.
  destruct res; split; simpl.
  - eapply confirmed_keeps; [apply process_keeps_bodies | done].
  - apply Forall_app. split; [done | by repeat constructor].
  - done.
  - apply Forall_app. split; [done | by repeat constructor].
Qed.

Lemma poll_round_ok bot instance rn st o :
  answers_fit o (pl_trace (fst (poll_round bot instance rn st))) ->
  poll_ok bot instance st -> poll_ok bot instance (fst (poll_round bot instance rn st)).
Proof.
  unfold poll_round. destruct (rn_cancelled rn); [done |].
  destruct (check_guard instance (rn_before rn (pl_module st))); [| done].
  set (ib := if rn_recovery_due rn then _ else _).
  assert (keeps_bodies (pl_inbox st) ib) as Hk.
  { unfold ib. destruct (rn_recovery_due rn); [apply recover_keeps_bodies | done]. }
  destruct (check_guard instance (rn_during rn _)) as [[]|] eqn:Hg.
  2: { intros _ [Hc Ht]. split; simpl; [by eapply confirmed_keeps | done]. }
  intros Hfit [Hc Ht].
  assert (poll_ok bot instance (MkPollState (rn_during rn (rn_before rn (pl_module st))) ib (pl_offset st)
     (pl_trace st ++ [GetUpdates (pl_offset st) (rn_during rn (rn_before rn (pl_module st))) ib]))) as Hmid.
  { split; simpl; [by eapply confirmed_keeps |]. apply Forall_app. split; [done |]. constructor; [| constructor].
    split; [done | by eapply confirmed_keeps]. }
  destruct (rn_cancelled_waiting rn); [done |]. by eapply after_answer_ok.
Qed.

Lemma poll_loop_ok bot instance rounds st o :
  answers_fit o (pl_trace (fst (poll_loop bot instance rounds st))) ->
  poll_ok bot instance st -> poll_ok bot instance (fst (poll_loop bot instance rounds st)).
Proof.
  revert st. induction rounds as [|rn rounds IH]; intros st; simpl; [done |]. intros Hfit Hok.
  assert (answers_fit o (pl_trace (fst (poll_round bot instance rn st)))) as Hfit1.
  { destruct (poll_round bot instance rn st) as [st1 [|]]; simpl in *; [| done].
    destruct (trace_grows bot instance rounds st1) as (t & Ht). rewrite Ht in Hfit. by eapply answers_fit_app. }
  pose proof (poll_round_ok _ _ _ _ _ Hfit1 Hok) as Hok1.
  destruct (poll_round bot instance rn st) as [st1 [|]]; simpl in *; [by apply IH | done].
Qed.
End Confirmed.

(** C21: a poller loses no update and takes none that are another's.  Whatever happens
    to its requests and to the registry, every getUpdates it sends is sent with its
    ownership guard valid at that moment, and confirms to Telegram only updates
    that are stored, with their bodies, when it is sent; as long as that held of
    the offset it started from, and as Telegram answers a request with the earliest
    unconfirmed updates. *)
Theorem poller_confirms_only_stored sent bot instance pt rounds s ib st res :
  poll_telegram_bot_at bot instance pt rounds s ib = (st, res) ->
  confirmed_stored sent bot (initial_offset bot ib) ib ->
  answers_fit sent 0 (pl_trace st) ->
  forall offset s' ib', GetUpdates offset s' ib' ∈ pl_trace st ->
  check_guard instance s' = Ok tt /\ confirmed_stored sent bot offset ib'.
Proof.
  intros Hp Hc Hfit offset s' ib' Hin. unfold poll_telegram_bot_at in Hp.
  assert (forall x, pl_trace (fst (leave bot instance x)) = pl_trace x) as Hleave.
  { intros x. unfold leave. destruct instance as [i|]; [| done]. by destruct (finalize_poller_exit bot i (pl_module x)). }
  destruct (pt_client pt).
  2: { pose proof (Hleave (MkPollState s ib 0 [])) as Hl.
       destruct (leave bot instance _) as [st1 []]; simplify_eq; simpl in Hl; rewrite Hl in Hin; by apply elem_of_nil in Hin. }
  destruct (pt_offset_query pt); [| simplify_eq; by apply elem_of_nil in Hin].
  assert (pl_trace st = pl_trace (fst (poll_loop bot instance rounds (poll_entry bot pt s ib)))) as Ht.
  { destruct (poll_loop bot instance rounds _) as [st1 [|]]; simpl; [| by simplify_eq].
    pose proof (Hleave st1) as Hl. destruct (leave bot instance st1). by simplify_eq. }
  rewrite Ht in Hin, Hfit. apply (poll_loop_ok sent) in Hfit as [_ Hall].
  - rewrite Forall_forall in Hall. exact (Hall _ Hin).
  - split; [| constructor]. eapply confirmed_keeps; [| exact Hc]. unfold poll_entry. simpl. unfold recover_startup_updates.
    etransitivity; [apply reset_keeps_bodies | apply recover_keeps_bodies].
Qed.

(** What an exit that answers [r] leaves of a poller with guard [g]: the guard is
    stopped; the reservation and the runtime entry are not its own; and the registry, if
    there is one, was last asked to release this very runtime, a refusal being an error
    of the exit. *)
Record exited (bot instance : string) (g : PollerOwnershipGuard) (r : AppResult unit) (s : ModuleState) : Prop := {
  ex_stopped : g_lifecycle_state g = Stopped;
  ex_active : forall e, ms_active s !! g_numeric_bot_id g = Some e ->
    an_bot_id e <> bot \/ an_runtime_instance_id e <> instance;
  ex_runtime : forall e, ms_runtime s !! bot = Some e -> rt_instance e <> instance;
  ex_released : forall registry, ms_registry s = Some registry ->
    exists before released, release_runtime (g_numeric_bot_id g) (g_runtime_instance_id g) before = (registry, released)
      /\ (is_ok released = false -> is_ok r = false);
}.

Lemma release_active bot instance numeric (s : ModuleState) e :
  ms_active (release_numeric_bot_instance numeric bot instance s) !! numeric = Some e ->
  an_bot_id e <> bot \/ an_runtime_instance_id e <> instance.
Proof.
  unfold release_numeric_bot_instance. destruct (ms_active s !! numeric) as [f|] eqn:Hf; [| congruence].
  destruct (_ && _) eqn:Hm; simpl; [by rewrite lookup_delete_eq |]. rewrite Hf. intros [= <-].
  apply andb_false_iff in Hm as [Hm|Hm]; apply bool_decide_eq_false_1 in Hm; auto.
Qed.

Lemma stopping_guard g g1 r1 g2 r2 :
  begin_draining g = (g1, r1) -> mark_stopped g1 = (g2, r2) -> g_lifecycle_state g2 = Stopped.
Proof.
  unfold begin_draining, mark_stopped. destruct (g_lifecycle_state g) eqn:E; intros [= <- <-]; simpl; rewrite ?E;
    by intros [= <- <-].
Qed.

Lemma release_registry bot instance numeric (s : ModuleState) :
  ms_registry (release_numeric_bot_instance numeric bot instance s) = ms_registry s.
Proof. unfold release_numeric_bot_instance. by repeat case_match. Qed.

Lemma finalize_exits bot instance (s : ModuleState) g :
  ms_guards (fst (finalize_poller_exit bot instance s)) !! instance = Some g ->
  exited bot instance g (snd (finalize_poller_exit bot instance s)) (fst (finalize_poller_exit bot instance s)).
Proof.
  unfold finalize_poller_exit. destruct (ms_guards s !! instance) as [g0|] eqn:Hg0; simpl; [| congruence].
  destruct (begin_draining g0) as [g1 r1] eqn:Hb. destruct (mark_stopped g1) as [g2 r2] eqn:Hm.
  pose proof (stopping_guard _ _ _ _ _ Hb Hm) as Hstop.
  destruct (match ms_registry s with Some _ => _ | None => _ end) as [reg r3] eqn:Hreg. simpl.
  assert (forall registry, reg = Some registry ->
            exists before, release_runtime (g_numeric_bot_id g2) (g_runtime_instance_id g2) before = (registry, r3)) as Hrel.
  { intros registry ->. destruct (ms_registry s) as [before|]; [| done]. exists before. revert Hreg.
    unfold guard_release_runtime, current_lifecycle. rewrite Hstop. destruct (release_runtime _ _ before). by intros [= -> ->]. }
  set (s1 := set_registry reg (set_guard instance g2 s)).
  assert (ms_guards s1 !! instance = Some g2 /\ ms_registry s1 = reg) as [Hs1 Hr1]
    by (split; [simpl; apply lookup_insert_eq | done]). clearbody s1.
  set (s2 := release_numeric_bot_instance (g_numeric_bot_id g2) bot instance s1).
  set (s3 := match ms_runtime s2 !! bot with Some _ => _ | None => _ end).
  set (r := match first_of _ _ with Some _ => _ | None => _ end).
  assert (Hs3 : ms_guards s3 = ms_guards s1 /\ ms_active s3 = ms_active s2 /\ ms_registry s3 = reg
                /\ forall e, ms_runtime s3 !! bot = Some e -> rt_instance e <> instance).
  { rewrite <- Hr1, <- (release_registry bot instance (g_numeric_bot_id g2) s1),
      <- (release_guards (g_numeric_bot_id g2) bot instance s1).
    fold s2. unfold s3. destruct (ms_runtime s2 !! bot) as [e|] eqn:Hrt; [destruct (rt_instance e =?= instance) eqn:He |];
      split_and!; try done; intros e'; [by simpl; rewrite lookup_delete_eq | | by rewrite Hrt].
    rewrite Hrt. intros [= <-]. by apply bool_decide_eq_false_1 in He. }
  destruct Hs3 as (Hg3 & Ha3 & Hr3 & Hrt3). rewrite Hg3, Hs1. intros [= <-].
  split; [done | rewrite Ha3; apply release_active | done |]. rewrite Hr3. intros registry [before Hbefore]%Hrel.
  exists before, r3. split; [done |]. unfold r, first_of, or_else. destruct r3 as [|e]; [done |]. intros _.
  by destruct r1, r2.
Qed.

(** C22: a poller that comes to its end is out of the module.  When the poller returns -
    its loop was left, or its client could not be built; not by a panic, and not by
    failing to read its offset at the start - its guard is stopped, and no reservation
    of its numeric bot id and no runtime entry of its bot are its own any more.  The
    last thing asked of the ownership registry, if there is one, is to release this very
    runtime, and a refusal is an error of the poller; what the registry then says to
    another claim is the registry's. *)
Theorem poller_exit_frees_bot bot instance pt rounds s ib st r g :
  poll_telegram_bot_at bot (Some instance) pt rounds s ib = (st, Some r) ->
  is_ok (pt_offset_query pt) = true ->
  ms_guards (pl_module st) !! instance = Some g ->
  exited bot instance g r (pl_module st).
Proof.
  intros Hp Hq. unfold poll_telegram_bot_at, leave in Hp.
  destruct (pt_offset_query pt); [clear Hq | done].
  assert (exists s0, pl_module st = fst (finalize_poller_exit bot instance s0)
            /\ (is_ok (snd (finalize_poller_exit bot instance s0)) = false -> is_ok r = false)) as (s0 & -> & Hr).
  { destruct (pt_client pt).
    - destruct (poll_loop bot (Some instance) rounds _) as [st1 [|]]; [| done]. exists (pl_module st1).
      destruct (finalize_poller_exit bot instance (pl_module st1)). by simplify_eq.
    - exists s. simpl in Hp. destruct (finalize_poller_exit bot instance s) as [s1 []]; by simplify_eq. }
  intros [Hst Ha Hrt Hrel]%finalize_exits. split; [done .. |]. intros registry Hreg.
  destruct (Hrel registry Hreg) as (before & released & Heq & Hrefused). eauto 6.
Qed.

(** With that failure the poller ends and its module is as it was left by
    configuring the bot: reservation, runtime entry and ownership stay. *)
Lemma offset_failure_leaks bot instance pt rounds s ib e :
  pt_client pt = Ok tt -> pt_offset_query pt = Err e ->
  exists st, poll_telegram_bot_at bot (Some instance) pt rounds s ib = (st, Some (Err e))
    /\ ms_active (pl_module st) = ms_active s /\ ms_guards (pl_module st) = ms_guards s
    /\ ms_registry (pl_module st) = ms_registry s
    /\ dom (ms_runtime (pl_module st)) = dom (ms_runtime s).
Proof.
  intros Hc Hq. unfold poll_telegram_bot_at. rewrite Hc, Hq. eexists. split; [done |]. simpl.
  unfold configure_or_note, configure_telegram_bot, set_poll_error.
  destruct (telegram_api_request (pt_get_me pt)); [destruct (telegram_api_request (pt_set_commands pt)) |]; simpl;
    repeat split; by rewrite dom_alter_L.
Qed.
End Polling.

(** ** A run *)

#[local] Instance poll_redactor : Redactor := {| redact_detail := Some |}.

Definition demo_round (cancelled : bool) : Round (R := MemoryPollerRegistry) :=
  MkRound cancelled id true "t1" 0 (λ _, true) (λ _ _, Ok tt) id false
    (ApiReply 200 (JObject [("ok", JBool true); ("result", JArray [demo_update])])) (λ groups, concat (snd <$> map_to_list groups)).

Definition demo_start : PollStart :=
  MkPollStart (Ok tt) ApiSendFailed ApiSendFailed (Ok tt) "t0" 0 (λ _, true) (λ _ _, Ok tt).

(** The module once the poller of bot 42 was started. *)
Definition demo_started : ModuleState (R := MemoryPollerRegistry) :=
  set_runtime <["bot" := MkBotRuntime "inst-1" false true None None "running" (Some 42%Z)]>
    (fst (claim_numeric_bot "inst-1" 42 "bot" demo_module)).

(** Two rounds, then it is cancelled. *)
Definition demo_poll (rounds : list Round) : PollState * option (AppResult unit) :=
  poll_telegram_bot_at demo_print demo_sha (λ _, "n") (λ _, None) (λ _, None) "bot" (Some "inst-1") demo_start rounds
    demo_started (MkInbox ∅ ∅ demo_bots).

Definition demo_rounds : list Round := [demo_round false; demo_round false; demo_round true].

(** The second request confirms update 7, which is stored. *)
Lemma poller_confirms_only_stored_witness :
  exists s' ib', GetUpdates 8 s' ib' ∈ pl_trace (fst (demo_poll demo_rounds))
    /\ check_guard (Some "inst-1") s' = Ok tt /\ confirmed_stored demo_print [demo_update] "bot" 8 ib'.
Proof.
  assert (exists s' ib', GetUpdates 8 s' ib' ∈ pl_trace (fst (demo_poll demo_rounds))) as (s' & ib' & Hin).
  { eexists _, _. unfold demo_poll. apply list_elem_of_lookup_2 with (i := 2). vm_compute. reflexivity. }
  exists s', ib'. split; [exact Hin |].
  refine (poller_confirms_only_stored demo_print demo_sha (λ _, "n") (λ _, None) (λ _, None) [demo_update] "bot" (Some "inst-1")
            demo_start demo_rounds demo_started (MkInbox ∅ ∅ demo_bots) (fst (demo_poll demo_rounds))
            (snd (demo_poll demo_rounds)) _ _ _ 8 s' ib' Hin).
  - apply surjective_pairing.
  - intros u i Hu%list_elem_of_singleton Hi Hlt. subst u. vm_compute in Hi. simplify_eq. vm_compute in Hlt. done.
  - assert (telegram_answers [demo_update] 0 [demo_update]) as Ha by (split; [done |]; intros; done).
    assert (telegram_answers [demo_update] 8 [demo_update]) as Hb by (split; [done |]; intros; done).
    assert (exists s1 ib1 s2 ib2, pl_trace (fst (demo_poll demo_rounds))
              = [GetUpdates 0 s1 ib1; Answered [demo_update]; GetUpdates 8 s2 ib2; Answered [demo_update]])
      as (s1 & ib1 & s2 & ib2 & ->) by (eexists _, _, _, _; vm_compute; reflexivity).
    exact (conj Ha (conj Hb I)).
Defined.

Lemma poller_exit_frees_bot_witness :
  exists st r g, demo_poll demo_rounds = (st, Some r) /\ ms_guards (pl_module st) !! "inst-1" = Some g
    /\ exited "bot" "inst-1" g r (pl_module st).
Proof.
  destruct (demo_poll demo_rounds) as [st [r|]] eqn:E; [| vm_compute in E; discriminate E].
  destruct (ms_guards (pl_module st) !! "inst-1") as [g|] eqn:Hg.
  - exists st, r, g. split; [done | split; [done |]].
    exact (poller_exit_frees_bot _ _ _ _ _ _ _ _ _ _ _ _ _ _ E eq_refl Hg).
  - vm_compute in E. injection E as <- <-. vm_compute in Hg. discriminate Hg.
Defined.
