(* ===== verification/Callback.v ===== *)
(** * Callback tokens ([modules/telegram/callback.rs])

    A button of a panel carries 64 bytes.  While a panel is being rendered they
    hold an action in a readable form; before the panel is sent the form is
    replaced by a random token, and the action with everything it is bound to is
    stored under the digest of the token in [telegram_panel_effects].  Pressing the
    button consumes the token and queues the action as an effect of its own.

    SHA-256, serde_json, random bytes, fresh ids and clocks are parameters.
    [usize] has 64 bits. *)

From S2P Require Import Prelude Text Errors StDomain TelegramInbox Delivery.
From stdpp Require Import pretty.
From Stdlib Require Import Lia.

(** ** Actions *)

Inductive ModelPurpose : Set := PurposeChat | PurposeCompression.

#[export] Instance ModelPurpose_eq_dec : EqDecision ModelPurpose.
Proof. solve_decision. Defined.

Inductive CallbackAction : Type :=
| CbHome
| CbHelp
| CbSettings
| CbStatus
| CbNow
| CbCharacters (page : Z)
| CbSelectCharacter (page index : Z)
| CbHistory (page : Z)
| CbSelectHistory (page index : Z)
| CbRecent (page : Z)
| CbSelectRecent (page index : Z)
| CbProviders (purpose : ModelPurpose) (page : Z)
| CbProviderModels (purpose : ModelPurpose) (provider_key : string) (page : Z)
| CbSelectModel (purpose : ModelPurpose) (provider_key : string) (model_index : Z)
| CbSelectModelById (purpose : ModelPurpose) (provider_key model_id : string)
| CbResetModel (purpose : ModelPurpose).

#[export] Instance CallbackAction_eq_dec : EqDecision CallbackAction.
Proof. solve_decision. Defined.

Definition purpose_token (purpose : ModelPurpose) : string :=
  match purpose with PurposeChat => "chat" | PurposeCompression => "comp" end.

Definition colon : Ascii.ascii := Ascii.ascii_of_nat 58.

Definition legacy_data (self : CallbackAction) : string :=
  match self with
  | CbHome => "cb:home"
  | CbHelp => "cb:help"
  | CbSettings => "cb:settings"
  | CbStatus => "cb:status"
  | CbNow => "cb:now"
  | CbCharacters page => "cb:chars:" +:+ pretty page
  | CbSelectCharacter page index => "cb:sel_char:" +:+ pretty page +:+ ":" +:+ pretty index
  | CbHistory page => "cb:hist:" +:+ pretty page
  | CbSelectHistory page index => "cb:sel_hist:" +:+ pretty page +:+ ":" +:+ pretty index
  | CbRecent page => "cb:recent:" +:+ pretty page
  | CbSelectRecent page index => "cb:sel_recent:" +:+ pretty page +:+ ":" +:+ pretty index
  | CbProviders purpose page => "cb:prov:" +:+ purpose_token purpose +:+ ":" +:+ pretty page
  | CbProviderModels purpose provider_key page =>
      "cb:p_mdl:" +:+ purpose_token purpose +:+ ":" +:+ provider_key +:+ ":" +:+ pretty page
  | CbSelectModel purpose provider_key model_index =>
      "cb:sel_mdl:" +:+ purpose_token purpose +:+ ":" +:+ provider_key +:+ ":" +:+ pretty model_index
  | CbSelectModelById purpose provider_key model_id =>
      "cb:sel_mdl_id:" +:+ purpose_token purpose +:+ ":" +:+ provider_key +:+ ":" +:+ model_id
  | CbResetModel purpose => "cb:rst_mdl:" +:+ purpose_token purpose
  end.

Definition to_callback_data : CallbackAction -> string := legacy_data.

Definition serialize_callback (action : CallbackAction) : AppResult string :=
  let value := to_callback_data action in
  if (4096 <? String.length value)%nat
  then Err (bad_request "TELEGRAM_CALLBACK_TOO_LONG" "callback template exceeds the internal limit")
  else Ok value.

(** The errors of [parse_legacy_callback_data]. *)
Definition callback_invalid (message : string) : AppError := bad_request "TELEGRAM_CALLBACK_INVALID" message.
Definition callback_too_long : AppError :=
  bad_request "TELEGRAM_CALLBACK_TOO_LONG" "Telegram callback_data 超过 64 字节".
Definition bad_prefix : AppError := callback_invalid "callback 前缀无效".
Definition bad_form : AppError := callback_invalid "未知或格式错误的 callback".

Definition parse_usize (value : string) : AppResult Z := ok_or (parse_u64 value) (callback_invalid "callback 参数无效").

Definition parse_purpose (value : string) : AppResult ModelPurpose :=
  if value =?= "chat" then Ok PurposeChat
  else if (value =?= "comp") || (value =?= "compression") then Ok PurposeCompression
  else Err (callback_invalid "callback 模型用途无效").

(** The arms of the match, by the number of parts after the prefix. *)
Definition parse_plain (name : string) : AppResult CallbackAction :=
  if name =?= "home" then Ok CbHome
  else if name =?= "help" then Ok CbHelp
  else if name =?= "settings" then Ok CbSettings
  else if name =?= "status" then Ok CbStatus
  else if name =?= "now" then Ok CbNow
  else Err bad_form.

Definition parse_one (name a : string) : AppResult CallbackAction :=
  if name =?= "chars" then let? page := parse_usize a in Ok (CbCharacters page)
  else if name =?= "hist" then let? page := parse_usize a in Ok (CbHistory page)
  else if name =?= "recent" then let? page := parse_usize a in Ok (CbRecent page)
  else if name =?= "rst_mdl" then let? purpose := parse_purpose a in Ok (CbResetModel purpose)
  else Err bad_form.

Definition parse_two (name a b : string) : AppResult CallbackAction :=
  if name =?= "sel_char" then
    let? page := parse_usize a in let? index := parse_usize b in Ok (CbSelectCharacter page index)
  else if name =?= "sel_hist" then
    let? page := parse_usize a in let? index := parse_usize b in Ok (CbSelectHistory page index)
  else if name =?= "sel_recent" then
    let? page := parse_usize a in let? index := parse_usize b in Ok (CbSelectRecent page index)
  else if name =?= "prov" then
    let? purpose := parse_purpose a in let? page := parse_usize b in Ok (CbProviders purpose page)
  else Err bad_form.

Definition parse_three (name a b c : string) : AppResult CallbackAction :=
  if name =?= "p_mdl" then
    let? purpose := parse_purpose a in let? page := parse_usize c in Ok (CbProviderModels purpose b page)
  else if name =?= "sel_mdl" then
    let? purpose := parse_purpose a in let? index := parse_usize c in Ok (CbSelectModel purpose b index)
  else if name =?= "sel_mdl_id" then
    let? purpose := parse_purpose a in Ok (CbSelectModelById purpose b c)
  else Err bad_form.

Definition parse_parts (parts : list string) : AppResult CallbackAction :=
  match parts with
  | [] => Err bad_prefix
  | prefix :: rest =>
      if negb (prefix =?= "cb") then Err bad_prefix
      else match rest with
           | [name] => parse_plain name
           | [name; a] => parse_one name a
           | [name; a; b] => parse_two name a b
           | [name; a; b; c] => parse_three name a b c
           | _ => Err bad_form
           end
  end.

Definition parse_legacy_callback_data (data : string) : AppResult CallbackAction :=
  if (4096 <? String.length data)%nat then Err callback_too_long
  else parse_parts (split_on colon data).

Definition decode_stored_action : string -> AppResult CallbackAction := parse_legacy_callback_data.

Definition opaque_callback (data : string) : string :=
  match parse_legacy_callback_data data with
  | Ok action => to_callback_data action
  | Err _ => data
  end.

Definition is_ascii (s : string) : bool := all_bytes (in_range 0 127) s.

Definition validate_opaque_token (data : string) : AppResult unit :=
  if negb (String.length data =? 35)%nat || negb (is_ascii data) || negb (starts_with data "cb:")
     || negb (all_bytes is_hex_digit (str_drop 3 data))
  then Err (callback_invalid "callback token 无效或已过期")
  else Ok tt.

(** ** The table of effects *)

(** A row of [telegram_panel_effects]; it serves tokens, queued actions and the
    edits of panels alike. *)
Record EffectRow := MkEffectRow {
  ef_panel_id : string;
  ef_chat_id : Z;
  ef_effect_type : string;
  ef_payload : string;
  ef_status : string;
  ef_action_nonce : option string;
  ef_attempt_token : option string;
  ef_expected_revision : option Z;
  ef_terminal_at : option string;
  ef_created_at : string;
  ef_updated_at : string;
}.

#[export] Instance EffectRow_eq_dec : EqDecision EffectRow.
Proof. solve_decision. Defined.

Notation Effects := (gmap string EffectRow).

(** INSERT: the primary key and the unique index on [action_nonce]. *)
Definition nonce_taken (nonce : string) (t : Effects) : bool :=
  bool_decide (Exists (λ kv : string * EffectRow, ef_action_nonce kv.2 = Some nonce) (map_to_list t)).

Definition insert_effect (id : string) (row : EffectRow) (t : Effects) : AppResult Effects :=
  if bool_decide (is_Some (t !! id))
     || match ef_action_nonce row with Some nonce => nonce_taken nonce t | None => false end
  then Err database_error
  else Ok (<[id := row]> t).

Definition ef_set (status : string) (terminal : option string) (now : string) (r : EffectRow) : EffectRow :=
  MkEffectRow (ef_panel_id r) (ef_chat_id r) (ef_effect_type r) (ef_payload r) status (ef_action_nonce r)
    (ef_attempt_token r) (ef_expected_revision r) terminal (ef_created_at r) now.

(** UPDATE ... WHERE effect_id = ? AND p: whether one row changed. *)
Definition update_effect (id : string) (p : EffectRow -> bool) (f : EffectRow -> EffectRow) (t : Effects) : option Effects :=
  match t !! id with
  | Some r => if p r then Some (<[id := f r]> t) else None
  | None => None
  end.

Record CallbackBinding := MkCallbackBinding {
  cb_account_id : string;
  cb_internal_bot_id : string;
  cb_numeric_bot_id : Z;
  cb_chat_id : Z;
  cb_authorized_user_id : string;
  cb_panel_id : string;
  cb_message_id : Z;
  cb_panel_revision : Z;
  cb_catalog_revision : option string;
  cb_expires_at_unix : Z;
  cb_action : CallbackAction;
  cb_action_nonce : string;
}.

(** What the caller of [consume] presents beside the token. *)
Record CallbackScope := MkCallbackScope {
  sc_account_id : string;
  sc_internal_bot_id : string;
  sc_numeric_bot_id : Z;
  sc_chat_id : Z;
  sc_authorized_user_id : string;
  sc_panel_id : string;
  sc_message_id : Z;
  sc_panel_revision : Z;
}.

#[export] Instance CallbackScope_eq_dec : EqDecision CallbackScope.
Proof. solve_decision. Defined.

Definition scope_of (b : CallbackBinding) : CallbackScope :=
  MkCallbackScope (cb_account_id b) (cb_internal_bot_id b) (cb_numeric_bot_id b) (cb_chat_id b)
    (cb_authorized_user_id b) (cb_panel_id b) (cb_message_id b) (cb_panel_revision b).

Definition scope_mismatch : AppError :=
  bad_request "TELEGRAM_CALLBACK_SCOPE_MISMATCH" "callback 已失效，请重新打开面板".
Definition callback_replayed : AppError := conflict "TELEGRAM_CALLBACK_REPLAYED" "callback 已处理".
Definition effect_cas_conflict (message : string) : AppError :=
  conflict "TELEGRAM_CALLBACK_EFFECT_CAS_CONFLICT" message.

Section Store.
Context (sha256_hex : string -> string).
Context (print_binding : CallbackBinding -> string) (read_binding : string -> option CallbackBinding)
  (print_action : CallbackAction -> string).

Definition token_digest (token : string) : string := sha256_hex token.

(** [raw] is the hexadecimal form of the 16 random bytes. *)
Definition issue (now raw : string) (binding : CallbackBinding) (t : Effects) : AppResult (Effects * string) :=
  let token := "cb:" +:+ raw in
  let? _ := validate_opaque_token token in
  let? t := insert_effect (token_digest token)
    (MkEffectRow (cb_panel_id binding) (cb_chat_id binding) "callback_token" (print_binding binding) "active"
       (Some (cb_action_nonce binding)) None None None now now) t in
  Ok (t, token).

(** The condition under which a stored binding does not fit the update. *)
Definition binding_mismatch (now_unix : Z) (stored_nonce : option string) (scope : CallbackScope)
    (binding : CallbackBinding) : bool :=
  is_blank (cb_action_nonce binding)
  || negb (stored_nonce =?= Some (cb_action_nonce binding))
  || negb (cb_account_id binding =?= sc_account_id scope)
  || negb (cb_internal_bot_id binding =?= sc_internal_bot_id scope)
  || negb (cb_numeric_bot_id binding =? sc_numeric_bot_id scope)%Z
  || negb (cb_chat_id binding =? sc_chat_id scope)%Z
  || negb (cb_authorized_user_id binding =?= sc_authorized_user_id scope)
  || negb (cb_panel_id binding =?= sc_panel_id scope)
  || negb (cb_message_id binding =? sc_message_id scope)%Z
  || negb (cb_panel_revision binding =? sc_panel_revision scope)%Z
  || (cb_expires_at_unix binding <=? now_unix)%Z.

(** One transaction; an error leaves the table as it was. *)
Definition consume (now : string) (now_unix : Z) (effect_id token : string) (scope : CallbackScope) (t : Effects)
  : AppResult (Effects * (CallbackAction * string)) :=
  let? _ := validate_opaque_token token in
  if (sc_numeric_bot_id scope <=? 0)%Z || (sc_message_id scope <=? 0)%Z then Err scope_mismatch else
  match t !! token_digest token with
  | None => Err (callback_invalid "callback 已失效")
  | Some row =>
      if negb (ef_chat_id row =? sc_chat_id scope)%Z then Err (callback_invalid "callback 已失效")
      else if negb (ef_status row =?= "active") then Err callback_replayed
      else match read_binding (ef_payload row) with
           | None => Err (internal "callback binding is invalid")
           | Some binding =>
               if binding_mismatch now_unix (ef_action_nonce row) scope binding then Err scope_mismatch else
               match update_effect (token_digest token)
                       (λ r, (ef_status r =?= "active") && (ef_payload r =?= ef_payload row)
                             && (ef_action_nonce r =?= Some (cb_action_nonce binding)))
                       (ef_set "consumed" (Some now) now) t with
               | None => Err callback_replayed
               | Some t =>
                   let? t := insert_effect effect_id
                     (MkEffectRow (cb_panel_id binding) (cb_chat_id binding) "callback_action"
                        (print_action (cb_action binding)) "pending" None (Some effect_id) None None now now) t in
                   Ok (t, (cb_action binding, effect_id))
               end
           end
  end.

Definition is_action (effect_id status : string) (r : EffectRow) : bool :=
  (ef_attempt_token r =?= Some effect_id) && (ef_effect_type r =?= "callback_action") && (ef_status r =?= status).

Definition claim_action_effect (now effect_id : string) (t : Effects) : AppResult Effects :=
  ok_or (update_effect effect_id (is_action effect_id "pending")
           (λ r, ef_set "sending" (ef_terminal_at r) now r) t)
    (effect_cas_conflict "callback action effect was already consumed").

Definition update_action_effect (now effect_id status : string) (t : Effects) : AppResult Effects :=
  ok_or (update_effect effect_id (is_action effect_id "sending") (ef_set status (Some now) now) t)
    (effect_cas_conflict "callback action effect terminal state changed concurrently").

Definition complete_action_effect (now effect_id : string) : Effects -> AppResult Effects :=
  update_action_effect now effect_id "sent".

Definition fail_action_effect (now effect_id : string) (unknown : bool) : Effects -> AppResult Effects :=
  update_action_effect now effect_id (if unknown then "unknown" else "failed").
End Store.

(** ** Deduplication *)

Record CallbackDedup := MkCallbackDedup { dd_entries : gmap string Z; dd_ttl : Z }.

(** [Duration::from_secs(10)], in nanoseconds. *)
Definition CallbackDedup_default : CallbackDedup := MkCallbackDedup ∅ 10000000000.

(** [now.duration_since(timestamp) < ttl]; [duration_since] saturates at zero. *)
Definition live_entry (now ttl : Z) (timestamp : Z) : bool := (Z.max 0 (now - timestamp) <? ttl)%Z.

Definition accept (now : Z) (key : string) (self : CallbackDedup) : CallbackDedup * bool :=
  let entries := filter (λ kv : string * Z, live_entry now (dd_ttl self) kv.2 = true) (dd_entries self) in
  if bool_decide (is_Some (entries !! key))
  then (MkCallbackDedup entries (dd_ttl self), false)
  else (MkCallbackDedup (<[key := now]> entries) (dd_ttl self), true).

Definition accept_with_nonce (now : Z) (query_id action_nonce : string) : CallbackDedup -> CallbackDedup * bool :=
  accept now (query_id +:+ ":" +:+ action_nonce).

Definition is_duplicate (now : Z) (key : string) (self : CallbackDedup) : bool :=
  match dd_entries self !! key with
  | Some timestamp => live_entry now (dd_ttl self) timestamp
  | None => false
  end.

(** ** The readable form *)

(** Decimal digits are read back as the number they were printed from. *)
Lemma digits_value_go n : exists k : Z, forall acc s,
  digits_value acc (pretty_N_go n s) = digits_value (acc * k + Z.of_N n) s.
Proof.
  induction (N.lt_wf_0 n) as [n _ IH].
  destruct (decide (0 < n)%N) as [Hn|Hn].
  - destruct (IH (n / 10)%N) as [k Hk]; [apply N.div_lt; lia |].
    exists (10 * k)%Z. intros acc s. rewrite pretty_N_go_step by done. rewrite Hk. cbn [digits_value].
    assert (is_ascii_digit (pretty_N_char (n mod 10)) = true
            /\ Z.of_N (byte_val (pretty_N_char (n mod 10))) = 48 + Z.of_N (n mod 10))%Z as [-> ->].
    { assert (n mod 10 < 10)%N as Hm by (apply N.mod_lt; lia). revert Hm. generalize (n mod 10)%N. intros m Hm.
      assert (m = 0 \/ m = 1 \/ m = 2 \/ m = 3 \/ m = 4 \/ m = 5 \/ m = 6 \/ m = 7 \/ m = 8 \/ m = 9)%N as Hc by lia.
      destruct Hc as [->|[->|[->|[->|[->|[->|[->|[->|[->| ->]]]]]]]]]; done. }
    f_equal. pose proof (N.div_mod n 10). lia.
  - assert (n = 0)%N as -> by lia. exists 1%Z. intros acc s. rewrite pretty_N_go_0. f_equal. lia.
Qed.

Lemma digits_value_pretty z : (0 <= z)%Z -> digits_value 0 (pretty z) = Some z.
Proof.
  intros Hz. destruct z as [|p|p]; [done | | lia].
  change (pretty (Z.pos p)) with (pretty (N.pos p)). unfold pretty, pretty_N.
  rewrite decide_False by done. destruct (digits_value_go (N.pos p)) as [k ->]. simpl. by rewrite Z.mul_0_l.
Qed.

Lemma digits_value_digits acc s z : digits_value acc s = Some z -> all_bytes is_ascii_digit s = true.
Proof.
  revert acc. induction s as [|a s IH]; intros acc; simpl; [done |].
  destruct (is_ascii_digit a); [| done]. apply IH.
Qed.

Lemma digits_no_colon s : all_bytes is_ascii_digit s = true -> has_byte colon s = false.
Proof.
  induction s as [|a s IH]; simpl; [done |]. intros [Ha Hs]%andb_true_iff. rewrite IH by done.
  rewrite orb_false_r. apply bool_decide_eq_false_2. by intros ->.
Qed.

Definition usize (z : Z) : Prop := (0 <= z < 2 ^ 64)%Z.

Lemma parse_usize_pretty z : usize z -> parse_usize (pretty z) = Ok z.
Proof.
  intros [Hz Hlt]. unfold parse_usize, parse_u64, digits_u64.
  pose proof (digits_value_pretty z Hz) as Hv. pose proof (digits_value_digits _ _ _ Hv) as Hd.
  destruct (pretty z) as [|a s] eqn:Hp.
  { simpl in Hv. injection Hv as <-. done. }
  destruct (bool_decide_reflect (a = Ascii.ascii_of_nat 43)) as [->|_]; [done |].
  rewrite bool_decide_eq_false_2 by done. rewrite Hv, (proj2 (Z.ltb_lt _ _) Hlt). done.
Qed.

Lemma pretty_no_colon z : (0 <= z)%Z -> has_byte colon (pretty z) = false.
Proof. intros Hz. eapply digits_no_colon, digits_value_digits, digits_value_pretty, Hz. Qed.

Lemma parse_usize_range s z : parse_usize s = Ok z -> usize z.
Proof.
  unfold parse_usize, parse_u64. intros Hz.
  assert (forall t, digits_u64 t = Some z -> usize z) as Hd.
  { intros t. unfold digits_u64. destruct (t =?= ""); [done |].
    assert (forall acc u, (0 <= acc)%Z -> forall v, digits_value acc u = Some v -> (0 <= v)%Z) as Hpos.
    { intros acc u. revert acc. induction u as [|a u IH]; simpl; intros acc Ha v; [by intros [= <-] |].
      destruct (is_ascii_digit a) eqn:Hdig; [| done]. apply IH.
      unfold is_ascii_digit, in_range in Hdig. apply andb_true_iff in Hdig as [Hl _].
      apply N.leb_le in Hl. unfold byte_val in *. lia. }
    destruct (digits_value 0 t) as [v|] eqn:Hv; [| done].
    destruct (v <? 2 ^ 64)%Z eqn:Hlt; [| done]. intros [= ->]. apply Z.ltb_lt in Hlt.
    split; [| done]. by apply (Hpos 0%Z t). }
  destruct s as [|a s]; [done |]. destruct (a =?= _).
  - destruct (digits_u64 s) eqn:E; simplify_eq/=. eauto.
  - destruct (digits_u64 (String a s)) eqn:E; simplify_eq/=. eauto.
Qed.

(** What follows the prefix. *)
Definition parts_of (a : CallbackAction) : list string :=
  match a with
  | CbHome => ["home"]
  | CbHelp => ["help"]
  | CbSettings => ["settings"]
  | CbStatus => ["status"]
  | CbNow => ["now"]
  | CbCharacters page => ["chars"; pretty page]
  | CbSelectCharacter page index => ["sel_char"; pretty page; pretty index]
  | CbHistory page => ["hist"; pretty page]
  | CbSelectHistory page index => ["sel_hist"; pretty page; pretty index]
  | CbRecent page => ["recent"; pretty page]
  | CbSelectRecent page index => ["sel_recent"; pretty page; pretty index]
  | CbProviders purpose page => ["prov"; purpose_token purpose; pretty page]
  | CbProviderModels purpose key page => ["p_mdl"; purpose_token purpose; key; pretty page]
  | CbSelectModel purpose key index => ["sel_mdl"; purpose_token purpose; key; pretty index]
  | CbSelectModelById purpose key id => ["sel_mdl_id"; purpose_token purpose; key; id]
  | CbResetModel purpose => ["rst_mdl"; purpose_token purpose]
  end.

(** Numbers that fit, and keys without a separator. *)
Definition numbers_fit (a : CallbackAction) : Prop :=
  match a with
  | CbCharacters p | CbHistory p | CbRecent p | CbProviders _ p | CbProviderModels _ _ p | CbSelectModel _ _ p => usize p
  | CbSelectCharacter p i | CbSelectHistory p i | CbSelectRecent p i => usize p /\ usize i
  | _ => True
  end.

Definition keys_plain (a : CallbackAction) : bool :=
  match a with
  | CbProviderModels _ k _ | CbSelectModel _ k _ => negb (has_byte colon k)
  | CbSelectModelById _ k m => negb (has_byte colon k) && negb (has_byte colon m)
  | _ => true
  end.

Lemma legacy_data_join a : legacy_data a = Text.join colon ("cb" :: parts_of a).
Proof. by destruct a as [| | | | | | | | | | |p ?|p ? ?|p ? ?|p ? ?|p]; try destruct p. Qed.

(** Splitting a text at a separator splits its two sides. *)
Lemma split_on_both c s t : split_on c (s +:+ String c t) = split_on c s ++ split_on c t.
Proof.
  induction s as [|a s IH]; simpl; [by rewrite bool_decide_eq_true_2 |].
  rewrite IH. destruct (a =?= c); [done |].
  destruct (split_on c s) as [|p ps] eqn:E; [by destruct (split_on_nonempty c s) | done].
Qed.

Lemma split_on_joined c p l : split_on c (Text.join c (p :: l)) = concat (split_on c <$> (p :: l)).
Proof.
  revert p. induction l as [|q l IH]; intros p; [by simpl; rewrite app_nil_r |].
  change (Text.join c (p :: q :: l)) with (p +:+ String c (Text.join c (q :: l))).
  by rewrite split_on_both, IH.
Qed.

Lemma split_on_two c s : has_byte c s = true -> exists p q ps, split_on c s = p :: q :: ps.
Proof.
  induction s as [|a s IH]; simpl; [done |].
  destruct (bool_decide_reflect (a = c)) as [->|Hne]; simpl.
  - intros _. destruct (split_on c s) as [|p ps] eqn:E; [by destruct (split_on_nonempty c s) | eauto].
  - intros Hs. destruct (IH Hs) as (p & q & ps & ->). eauto.
Qed.

Lemma purpose_token_plain p : has_byte colon (purpose_token p) = false.
Proof. by destruct p. Qed.

Lemma parse_purpose_token p : parse_purpose (purpose_token p) = Ok p.
Proof. by destruct p. Qed.

Lemma fit_pretty_plain z : usize z -> has_byte colon (pretty z) = false.
Proof. intros [Hz _]. by apply pretty_no_colon. Qed.

Create HintDb callback.
#[export] Hint Resolve purpose_token_plain fit_pretty_plain : callback.

Lemma parts_plain a :
  numbers_fit a -> keys_plain a = true -> Forall (λ s, has_byte colon s = false) (parts_of a).
Proof.
  destruct a; simpl; intros Hn Hk; try apply andb_true_iff in Hk as [Hk ?];
    try (match type of Hn with _ /\ _ => destruct Hn end);
    repeat first [apply Forall_nil_2 | apply Forall_cons_2]; try done; auto with callback; by apply negb_true_iff.
Qed.

Lemma parse_parts_of a : numbers_fit a -> parse_parts ("cb" :: parts_of a) = Ok a.
Proof.
  destruct a; simpl; intros Hn; try done; unfold parse_one, parse_two, parse_three; simpl;
    try (match type of Hn with _ /\ _ => destruct Hn end); rewrite ?parse_purpose_token; by repeat rewrite parse_usize_pretty by done.
Qed.

(** A key with a separator shifts the parts beyond the form. *)
Lemma split_keyed (name purpose k x : string) :
  has_byte colon name = false -> has_byte colon purpose = false ->
  has_byte colon k || has_byte colon x = true ->
  exists a b c d rest, split_on colon (Text.join colon ["cb"; name; purpose; k; x]) = "cb" :: name :: a :: b :: c :: d :: rest.
Proof.
  intros Hn Hp Hk. rewrite split_on_joined. simpl.
  rewrite (split_on_plain _ name), (split_on_plain _ purpose) by done. simpl.
  apply orb_true_iff in Hk as [Hk|Hk]; destruct (split_on_two _ _ Hk) as (p & q & ps & ->).
  - destruct (split_on colon x) as [|x1 xs] eqn:Ex; [by destruct (split_on_nonempty colon x) |].
    destruct ps; simpl; eauto 10.
  - destruct (split_on colon k) as [|k1 [|k2 ks]] eqn:Ek; [by destruct (split_on_nonempty colon k) | |]; simpl; [eauto 10 |].
    destruct ks; simpl; eauto 10.
Qed.

Lemma keyed_refused a :
  numbers_fit a -> keys_plain a = false -> parse_parts (split_on colon (legacy_data a)) = Err bad_form.
Proof.
  intros Hn Hk. rewrite legacy_data_join.
  destruct a as [| | | | | | | | | | | |p k x|p k x|p k x|]; simpl in Hk, Hn; try done;
    [assert (has_byte colon k || has_byte colon (pretty x) = true) as Hb
    |assert (has_byte colon k || has_byte colon (pretty x) = true) as Hb
    |assert (has_byte colon k || has_byte colon x = true) as Hb];
    try (by destruct (has_byte colon k)); try (by destruct (has_byte colon k), (has_byte colon x));
    cbn [parts_of];
    [destruct (split_keyed "p_mdl" (purpose_token p) k (pretty x)) as (?&?&?&?&?&->)
    |destruct (split_keyed "sel_mdl" (purpose_token p) k (pretty x)) as (?&?&?&?&?&->)
    |destruct (split_keyed "sel_mdl_id" (purpose_token p) k x) as (?&?&?&?&?&->)];
    auto with callback.
Qed.

Lemma parse_legacy_data a :
  numbers_fit a ->
  parse_legacy_callback_data (legacy_data a) =
    if (4096 <? String.length (legacy_data a))%nat then Err callback_too_long
    else if keys_plain a then Ok a else Err bad_form.
Proof.
  intros Hn. unfold parse_legacy_callback_data. destruct (4096 <? _)%nat; [done |].
  destruct (keys_plain a) eqn:Hk; [| by apply keyed_refused].
  rewrite legacy_data_join, split_on_join; [by apply parse_parts_of | done |].
  constructor; [done | by apply parts_plain].
Qed.

Lemma parse_purpose_inv s p : parse_purpose s = Ok p -> String.length (purpose_token p) <= String.length s.
Proof.
  unfold parse_purpose. repeat case_bool_decide; simplify_eq/=; try done; intros; simplify_eq/=; lia.
Qed.

(** What is read has numbers that fit and plain keys. *)
Lemma parsed_action_ok data a :
  parse_legacy_callback_data data = Ok a -> numbers_fit a /\ keys_plain a = true.
Proof.
  unfold parse_legacy_callback_data. destruct (4096 <? _)%nat; [done |].
  pose proof (split_on_parts colon data) as Hp. revert Hp. generalize (split_on colon data). intros l Hp.
  unfold parse_parts, parse_plain, parse_one, parse_two, parse_three. intros Hl.
  repeat match type of Hl with
  | context [match ?x with _ => _ end] => let E := fresh "E" in destruct x eqn:E; try discriminate
  end; simplify_eq/=; repeat (apply Forall_cons in Hp as [? Hp]);
  repeat match goal with H : parse_usize _ = Ok _ |- _ => apply parse_usize_range in H end;
  simpl; repeat match goal with H : has_byte _ _ = false |- _ => rewrite H; clear H end; auto.
Qed.

(** A form that is read at all is read as the action it was written from, and
    that happens exactly when the keys hold no separator. *)
Theorem callback_form_is_exact a :
  numbers_fit a ->
  (parse_legacy_callback_data (legacy_data a) = Ok a
   <-> keys_plain a = true /\ String.length (legacy_data a) <= 4096)
  /\ (forall b, parse_legacy_callback_data (legacy_data a) = Ok b -> b = a)
  /\ (forall data b, parse_legacy_callback_data data = Ok b -> numbers_fit b /\ keys_plain b = true).
Proof.
  intros Hn. rewrite parse_legacy_data by done. split_and!.
  - destruct (4096 <? _)%nat eqn:El.
    + apply Nat.ltb_lt in El. split; [done | intros [_ ?]; lia].
    + apply Nat.ltb_ge in El. destruct (keys_plain a); naive_solver.
  - intros b. repeat case_match; naive_solver.
  - exact parsed_action_ok.
Qed.

(** ** The life of a token *)

Inductive CallbackEvent : Type :=
| EvIssued (digest : string) (binding : CallbackBinding)
| EvConsumed (digest : string) (scope : CallbackScope) (at_unix : Z) (action : CallbackAction) (effect_id : string)
| EvClaimed (effect_id : string)
| EvSettled (effect_id : string) (status : string).

(** The table and what happened so far, the latest first. *)
Record CbSys := MkCbSys { cs_table : Effects; cs_log : list CallbackEvent }.

Definition consumed_digests (log : list CallbackEvent) : list string :=
  omap (λ e, match e with EvConsumed d _ _ _ _ => Some d | _ => None end) log.
Definition queued_effects (log : list CallbackEvent) : list string :=
  omap (λ e, match e with EvConsumed _ _ _ _ id => Some id | _ => None end) log.
Definition claimed_effects (log : list CallbackEvent) : list string :=
  omap (λ e, match e with EvClaimed id => Some id | _ => None end) log.
Definition settled_effects (log : list CallbackEvent) : list string :=
  omap (λ e, match e with EvSettled id _ => Some id | _ => None end) log.

Section Life.
Context (sha256_hex : string -> string).
Context (print_binding : CallbackBinding -> string) (read_binding : string -> option CallbackBinding)
  (print_action : CallbackAction -> string).

(** The calls of the store that succeed (the others change nothing), and the
    writes of the panel store to the same table, which concern rows of the type
    [replace] only. *)
Inductive cb_step : CbSys -> CbSys -> Prop :=
| step_issue s now raw b t token :
    issue sha256_hex print_binding now raw b (cs_table s) = Ok (t, token) ->
    cb_step s (MkCbSys t (EvIssued (sha256_hex token) b :: cs_log s))
| step_consume s now now_unix id token scope t action effect_id :
    consume sha256_hex read_binding print_action now now_unix id token scope (cs_table s) = Ok (t, (action, effect_id)) ->
    cb_step s (MkCbSys t (EvConsumed (sha256_hex token) scope now_unix action effect_id :: cs_log s))
| step_claim s now id t :
    claim_action_effect now id (cs_table s) = Ok t ->
    cb_step s (MkCbSys t (EvClaimed id :: cs_log s))
| step_complete s now id t :
    complete_action_effect now id (cs_table s) = Ok t ->
    cb_step s (MkCbSys t (EvSettled id "sent" :: cs_log s))
| step_fail s now id unknown t :
    fail_action_effect now id unknown (cs_table s) = Ok t ->
    cb_step s (MkCbSys t (EvSettled id (if unknown then "unknown" else "failed") :: cs_log s))
| step_panel_insert s id row t :
    ef_effect_type row = "replace" -> ef_status row = "pending" -> ef_action_nonce row = None ->
    insert_effect id row (cs_table s) = Ok t ->
    cb_step s (MkCbSys t (cs_log s))
| step_panel_update s id row status terminal now :
    cs_table s !! id = Some row -> ef_effect_type row = "replace" -> status <> "active" ->
    cb_step s (MkCbSys (<[id := ef_set status terminal now row]> (cs_table s)) (cs_log s)).

Definition cb_init : CbSys := MkCbSys ∅ [].

(** What the row of an effect says of its past. *)
Definition effect_row_ok (log : list CallbackEvent) (id : string) (r : EffectRow) : Prop :=
  match decide (ef_effect_type r = "callback_token") with
  | left _ =>
      exists b, EvIssued id b ∈ log /\ ef_payload r = print_binding b
        /\ (ef_status r = "active" -> id ∉ consumed_digests log)
        /\ id ∉ queued_effects log /\ id ∉ claimed_effects log /\ id ∉ settled_effects log
  | right _ =>
      ef_status r <> "active" /\ id ∉ consumed_digests log
      /\ match decide (ef_effect_type r = "callback_action") with
         | left _ =>
             id ∈ queued_effects log
             /\ (ef_status r = "pending" -> id ∉ claimed_effects log)
             /\ (ef_status r = "pending" \/ ef_status r = "sending" -> id ∉ settled_effects log)
             /\ (ef_status r = "sending" -> id ∈ claimed_effects log)
         | right _ => id ∉ queued_effects log /\ id ∉ claimed_effects log /\ id ∉ settled_effects log
         end
  end.

(** A consumption that fits the binding that was issued. *)
Definition consumption_ok (log : list CallbackEvent) (e : CallbackEvent) : Prop :=
  match e with
  | EvConsumed digest scope at_unix action _ =>
      exists b, EvIssued digest b ∈ log /\ scope = scope_of b /\ action = cb_action b
        /\ (at_unix < cb_expires_at_unix b)%Z /\ (0 < sc_numeric_bot_id scope)%Z /\ (0 < sc_message_id scope)%Z
  | _ => True
  end.

Record cb_ok (s : CbSys) : Prop := {
  co_rows : forall id r, cs_table s !! id = Some r -> effect_row_ok (cs_log s) id r;
  co_known : forall id, id ∈ consumed_digests (cs_log s) ++ queued_effects (cs_log s) ++ claimed_effects (cs_log s)
               ++ settled_effects (cs_log s) -> is_Some (cs_table s !! id);
  co_consumed : NoDup (consumed_digests (cs_log s));
  co_queued : NoDup (queued_effects (cs_log s));
  co_claimed : NoDup (claimed_effects (cs_log s));
  co_settled : NoDup (settled_effects (cs_log s));
  co_claims : forall id, id ∈ claimed_effects (cs_log s) -> id ∈ queued_effects (cs_log s);
  co_settles : forall id, id ∈ settled_effects (cs_log s) -> id ∈ claimed_effects (cs_log s);
  co_fit : Forall (consumption_ok (cs_log s)) (cs_log s);
}.

Lemma insert_effect_Ok id row t t' :
  insert_effect id row t = Ok t' -> t !! id = None /\ t' = <[id := row]> t.
Proof.
  unfold insert_effect. destruct (bool_decide_reflect (is_Some (t !! id))) as [|Hn]; [done |]. simpl.
  case_match; [done |]. intros [= <-]. split; [| done]. by apply eq_None_not_Some.
Qed.

Lemma update_effect_Some id p f t t' :
  update_effect id p f t = Some t' -> exists r, t !! id = Some r /\ p r = true /\ t' = <[id := f r]> t.
Proof.
  unfold update_effect. destruct (t !! id) as [r|]; [| done]. destruct (p r) eqn:Hp; [| done].
  intros [= <-]. eauto.
Qed.

Definition mentioned (e : CallbackEvent) : list string :=
  match e with
  | EvIssued _ _ => []
  | EvConsumed d _ _ _ id => [d; id]
  | EvClaimed id => [id]
  | EvSettled id _ => [id]
  end.

Lemma unaffected e log id :
  id ∉ mentioned e ->
  (id ∈ consumed_digests (e :: log) <-> id ∈ consumed_digests log)
  /\ (id ∈ queued_effects (e :: log) <-> id ∈ queued_effects log)
  /\ (id ∈ claimed_effects (e :: log) <-> id ∈ claimed_effects log)
  /\ (id ∈ settled_effects (e :: log) <-> id ∈ settled_effects log).
Proof.
  destruct e; simpl; rewrite ?not_elem_of_cons; intros Hid; split_and!; rewrite ?elem_of_cons; naive_solver.
Qed.

Lemma effect_row_ok_mono e log id r :
  effect_row_ok log id r -> id ∉ mentioned e -> effect_row_ok (e :: log) id r.
Proof.
  unfold effect_row_ok. intros Hr Hid. destruct (unaffected e log id Hid) as (H1 & H2 & H3 & H4).
  repeat case_decide; rewrite ?H1, ?H2, ?H3, ?H4; [| done..].
  destruct Hr as (b & Hb & Hr). exists b. rewrite elem_of_cons, H1, H2, H3, H4. auto.
Qed.

Lemma consumption_ok_mono e log x : consumption_ok log x -> consumption_ok (e :: log) x.
Proof. destruct x; simpl; try done. intros (b & Hb & ?). exists b. rewrite elem_of_cons. naive_solver. Qed.

(** The rows other than the one an event is about. *)
Lemma rows_kept s e id row :
  (forall i r, cs_table s !! i = Some r -> effect_row_ok (cs_log s) i r) ->
  (forall i, i ∈ mentioned e -> i = id) ->
  effect_row_ok (e :: cs_log s) id row ->
  forall i r, <[id := row]> (cs_table s) !! i = Some r -> effect_row_ok (e :: cs_log s) i r.
Proof.
  intros Hrows Hm Hrow i r. destruct (decide (i = id)) as [->|Hne].
  - rewrite lookup_insert_eq. by intros [= <-].
  - rewrite lookup_insert_ne by done. intros Hi. apply effect_row_ok_mono; [eauto |]. intros Hin. eauto.
Qed.

Lemma known_kept (t : Effects) id row i : is_Some (t !! i) \/ i = id -> is_Some (<[id := row]> t !! i).
Proof.
  destruct (decide (i = id)) as [->|Hne]; [rewrite lookup_insert_eq; eauto |].
  rewrite lookup_insert_ne by done. naive_solver.
Qed.
Lemma binding_fits now_unix nonce scope b :
  binding_mismatch now_unix nonce scope b = false -> scope = scope_of b /\ (now_unix < cb_expires_at_unix b)%Z.
Proof.
  unfold binding_mismatch. rewrite !orb_false_iff, !negb_false_iff, !bool_decide_eq_true, !Z.eqb_eq, Z.leb_gt.
  destruct scope. unfold scope_of. simpl. intros H. destruct_and!. split; [congruence | done].
Qed.

Lemma consume_Ok now now_unix id token scope t t' action eid :
  consume sha256_hex read_binding print_action now now_unix id token scope t = Ok (t', (action, eid)) ->
  exists row b,
    t !! sha256_hex token = Some row /\ ef_status row = "active" /\ read_binding (ef_payload row) = Some b
    /\ scope = scope_of b /\ (now_unix < cb_expires_at_unix b)%Z
    /\ (0 < sc_numeric_bot_id scope)%Z /\ (0 < sc_message_id scope)%Z
    /\ action = cb_action b /\ t !! eid = None
    /\ t' = <[eid := MkEffectRow (cb_panel_id b) (cb_chat_id b) "callback_action" (print_action (cb_action b)) "pending"
                       None (Some eid) None None now now]>
              (<[sha256_hex token := ef_set "consumed" (Some now) now row]> t).
Proof.
  unfold consume, token_digest. destruct (validate_opaque_token token); [| done].
  destruct (_ || _) eqn:Hpos; [done |]. apply orb_false_iff in Hpos as [Hp1%Z.leb_gt Hp2%Z.leb_gt].
  destruct (t !! sha256_hex token) as [row|] eqn:Hrow; [| done].
  destruct (negb _); [done |]. destruct (ef_status row =?= "active") eqn:Ha; [| done]. simpl.
  apply bool_decide_eq_true in Ha. destruct (read_binding _) as [b|] eqn:Hb; [| done].
  destruct (binding_mismatch _ _ _ _) eqn:Hm; [done |]. apply binding_fits in Hm as [Hs He].
  destruct (update_effect _ _ _ _) as [t1|] eqn:Hu; [| done].
  apply update_effect_Some in Hu as (r & Hr & _ & ->). simplify_eq.
  destruct (insert_effect _ _ _) as [t2|] eqn:Hi; [| done].
  apply insert_effect_Ok in Hi as [Hn ->]. intros [= <- <- <-].
  exists row, b. split_and!; try done. revert Hn. rewrite lookup_insert_None. naive_solver.
Qed.

Lemma is_action_inv id status r :
  is_action id status r = true -> ef_effect_type r = "callback_action" /\ ef_status r = status.
Proof. unfold is_action. rewrite !andb_true_iff, !bool_decide_eq_true. naive_solver. Qed.

Lemma ok_or_Ok {A E} (o : option A) (e : E) a : ok_or o e = Ok a -> o = Some a.
Proof. by destruct o; simpl; [intros [= ->] |]. Qed.

Hypothesis read_print : forall b, read_binding (print_binding b) = Some b.

Lemma issue_preserves s now raw b t token :
  issue sha256_hex print_binding now raw b (cs_table s) = Ok (t, token) -> cb_ok s ->
  cb_ok (MkCbSys t (EvIssued (sha256_hex token) b :: cs_log s)).
Proof.
  unfold issue. destruct (validate_opaque_token _); [| done].
  destruct (insert_effect _ _ _) as [t1|] eqn:Hi; [| done]. intros [= <- <-] [].
  apply insert_effect_Ok in Hi as [Hnone ->]. unfold token_digest in *. set (d := sha256_hex _) in *.
  assert (forall i, i ∈ consumed_digests (cs_log s) ++ queued_effects (cs_log s) ++ claimed_effects (cs_log s)
               ++ settled_effects (cs_log s) -> i <> d) as Hnew.
  { intros i Hi ->. apply co_known0 in Hi as [? Hi]. congruence. }
  constructor; simpl; try done.
  - apply rows_kept; [done | by intros i Hi%elem_of_nil |]. unfold effect_row_ok. simpl.
    exists b. rewrite elem_of_cons. setoid_rewrite elem_of_app in Hnew. setoid_rewrite elem_of_app in Hnew.
    setoid_rewrite elem_of_app in Hnew. naive_solver.
  - intros i Hi. apply known_kept. auto.
  - constructor; [done |]. eapply Forall_impl; [done |]. intros. by apply consumption_ok_mono.
Qed.
(** A key without a row has no past. *)
Lemma no_past s id :
  cb_ok s -> cs_table s !! id = None ->
  id ∉ consumed_digests (cs_log s) /\ id ∉ queued_effects (cs_log s) /\ id ∉ claimed_effects (cs_log s)
  /\ id ∉ settled_effects (cs_log s).
Proof.
  intros [] Hn. split_and!; intros Hin; destruct (co_known0 id) as [? ?]; rewrite ?elem_of_app; auto; congruence.
Qed.

Lemma token_row_inv log id r :
  effect_row_ok log id r -> ef_status r = "active" ->
  ef_effect_type r = "callback_token" /\ exists b, EvIssued id b ∈ log /\ ef_payload r = print_binding b
  /\ id ∉ consumed_digests log /\ id ∉ queued_effects log /\ id ∉ claimed_effects log /\ id ∉ settled_effects log.
Proof. unfold effect_row_ok. case_decide; naive_solver. Qed.

Lemma consume_preserves s now now_unix id token scope t action eid :
  consume sha256_hex read_binding print_action now now_unix id token scope (cs_table s) = Ok (t, (action, eid)) ->
  cb_ok s ->
  cb_ok (MkCbSys t (EvConsumed (sha256_hex token) scope now_unix action eid :: cs_log s)).
Proof.
  intros Hc Hok. apply consume_Ok in Hc as (row & b & Hrow & Ha & Hb & Hs & He & Hp1 & Hp2 & -> & Hnone & ->).
  set (d := sha256_hex token) in *.
  destruct (token_row_inv _ _ _ (co_rows _ Hok _ _ Hrow) Ha) as (Hty & b' & Hb' & Hpay & H1 & H2 & H3 & H4).
  rewrite Hpay, read_print in Hb. injection Hb as ->.
  destruct (no_past _ _ Hok Hnone) as (N1 & N2 & N3 & N4).
  assert (eid <> d) as Hne by (intros ->; congruence).
  destruct Hok. constructor; simpl.
  - intros i r. destruct (decide (i = eid)) as [->|Hie].
    { rewrite lookup_insert_eq. intros [= <-]. unfold effect_row_ok. simpl. rewrite !not_elem_of_cons, elem_of_cons.
      naive_solver. }
    rewrite lookup_insert_ne by done. destruct (decide (i = d)) as [->|Hid].
    { rewrite lookup_insert_eq. intros [= <-]. unfold effect_row_ok. simpl. rewrite decide_True by done.
      exists b. rewrite elem_of_cons, !not_elem_of_cons. split_and!; auto; by intros ?. }
    rewrite lookup_insert_ne by done. intros Hi. apply effect_row_ok_mono; [eauto |].
    simpl. rewrite !not_elem_of_cons. auto using not_elem_of_nil.
  - intros i Hi. apply known_kept. destruct (decide (i = eid)) as [|Hie]; [auto | left]. apply known_kept.
    destruct (decide (i = d)) as [|Hid]; [auto | left]. apply co_known0. revert Hi.
    rewrite !elem_of_cons, !elem_of_app, elem_of_cons, !elem_of_app. clear -Hie Hid. tauto.
  - by constructor.
  - by constructor.
  - done.
  - done.
  - intros i Hi. rewrite elem_of_cons. auto.
  - done.
  - constructor; [exists b; rewrite elem_of_cons; auto 10 |].
    eapply Forall_impl; [done |]. intros. by apply consumption_ok_mono.
Qed.

Lemma claim_preserves s now id t :
  claim_action_effect now id (cs_table s) = Ok t -> cb_ok s -> cb_ok (MkCbSys t (EvClaimed id :: cs_log s)).
Proof.
  intros Hc Hok. apply ok_or_Ok, update_effect_Some in Hc as (r & Hr & Hp & ->).
  apply is_action_inv in Hp as [Hty Hst]. pose proof (co_rows _ Hok _ _ Hr) as Hrow. unfold effect_row_ok in Hrow.
  rewrite Hty in Hrow. simpl in Hrow. destruct Hrow as (_ & Hcd & Hq & Hp1 & Hp2 & _).
  destruct Hok. constructor; simpl; try done.
  - apply rows_kept; [done | by intros i Hi%list_elem_of_singleton |]. unfold effect_row_ok. simpl. rewrite Hty. simpl.
    rewrite elem_of_cons. naive_solver.
  - intros i Hi. apply known_kept. destruct (decide (i = id)) as [|Hie]; [auto | left]. apply co_known0. revert Hi.
    rewrite ?elem_of_app, ?elem_of_cons, ?elem_of_app. clear -Hie. tauto.
  - constructor; auto.
  - intros i [->|Hi]%elem_of_cons; auto.
  - intros i Hi. rewrite elem_of_cons. auto.
  - constructor; [done |]. eapply Forall_impl; [done |]. intros. by apply consumption_ok_mono.
Qed.

Lemma settle_preserves s now id status t :
  status = "sent" \/ status = "unknown" \/ status = "failed" ->
  update_action_effect now id status (cs_table s) = Ok t -> cb_ok s ->
  cb_ok (MkCbSys t (EvSettled id status :: cs_log s)).
Proof.
  intros Hs Hc Hok. apply ok_or_Ok, update_effect_Some in Hc as (r & Hr & Hp & ->).
  apply is_action_inv in Hp as [Hty Hst]. pose proof (co_rows _ Hok _ _ Hr) as Hrow. unfold effect_row_ok in Hrow.
  rewrite Hty in Hrow. simpl in Hrow. destruct Hrow as (_ & Hcd & Hq & Hp1 & Hp2 & Hp3).
  destruct Hok. constructor; simpl; try done.
  - apply rows_kept; [done | by intros i Hi%list_elem_of_singleton |]. unfold effect_row_ok. simpl. rewrite Hty. simpl.
    destruct Hs as [->|[->| ->]]; naive_solver.
  - intros i Hi. apply known_kept. destruct (decide (i = id)) as [|Hie]; [auto | left]. apply co_known0. revert Hi.
    rewrite ?elem_of_app, ?elem_of_cons, ?elem_of_app. clear -Hie. tauto.
  - constructor; auto.
  - intros i [->|Hi]%elem_of_cons; auto.
  - constructor; [done |]. eapply Forall_impl; [done |]. intros. by apply consumption_ok_mono.
Qed.

Lemma cb_step_preserves s s' : cb_step s s' -> cb_ok s -> cb_ok s'.
Proof.
  intros [s0 ? ? ? ? ? Hc|s0 ? ? ? ? ? ? ? ? Hc|s0 ? ? ? Hc|s0 ? ? ? Hc|s0 ? ? unknown ? Hc|s0 id row t Hty Hst _ Hi|s0 id row status ter now Hr Hty Hst] Hok.
  - by eapply issue_preserves.
  - by eapply consume_preserves.
  - by eapply claim_preserves.
  - eapply settle_preserves; [| done..]. auto.
  - eapply settle_preserves; [| done..]. destruct unknown; auto.
  - apply insert_effect_Ok in Hi as [Hnone ->]. destruct (no_past _ _ Hok Hnone) as (N1 & N2 & N3 & N4).
    destruct Hok. constructor; simpl; try done; [| intros i Hi; apply known_kept; auto].
    intros i r. rewrite lookup_insert_Some. intros [[<- <-]|[_ Hi]]; [| eauto].
    unfold effect_row_ok. rewrite Hty, Hst. simpl. auto.
  - pose proof (co_rows _ Hok _ _ Hr) as Hrow. unfold effect_row_ok in Hrow. rewrite Hty in Hrow. simpl in Hrow.
    destruct Hok. constructor; simpl; try done; [| intros i Hi; apply known_kept; auto].
    intros i r. rewrite lookup_insert_Some. intros [[<- <-]|[_ Hi]]; [| eauto].
    unfold effect_row_ok. simpl. rewrite Hty. simpl. naive_solver.
Qed.

Lemma cb_reachable_ok s : rtc cb_step cb_init s -> cb_ok s.
Proof.
  intros Hr. remember cb_init as s0 eqn:E. assert (cb_ok s0) as Hok.
  { subst. constructor; simpl; try (by constructor); try (by intros ? ?%elem_of_nil).
    intros id r. by rewrite lookup_empty. }
  clear E. induction Hr; [done |]. eauto using cb_step_preserves.
Qed.

(** C24: a pressed button acts once, and only for whom it was made: a token is consumed
    at most once, only in the scope it was issued for and before it expires, and
    yields the action it was issued with; the queued action is started at most once
    and settled at most once, after it was started. *)
Theorem callbacks_act_once s :
  rtc cb_step cb_init s ->
  NoDup (consumed_digests (cs_log s))
  /\ (forall digest scope at_unix action id, EvConsumed digest scope at_unix action id ∈ cs_log s ->
        exists b, EvIssued digest b ∈ cs_log s /\ scope = scope_of b /\ action = cb_action b
          /\ (at_unix < cb_expires_at_unix b)%Z)
  /\ NoDup (claimed_effects (cs_log s)) /\ NoDup (settled_effects (cs_log s))
  /\ (forall id, id ∈ settled_effects (cs_log s) -> id ∈ claimed_effects (cs_log s))
  /\ (forall id, id ∈ claimed_effects (cs_log s) -> id ∈ queued_effects (cs_log s)).
Proof.
  intros Hr. apply cb_reachable_ok in Hr as []. split_and!; try done.
  intros digest scope at_unix action id Hin.
  rewrite Forall_forall in co_fit0. specialize (co_fit0 _ Hin). simpl in co_fit0. naive_solver.
Qed.
End Life.

(** ** One acceptance per period *)

(** The calls that were accepted, in order. *)
Fixpoint accepted (self : CallbackDedup) (calls : list (Z * string)) : list (Z * string) :=
  match calls with
  | [] => []
  | (now, key) :: calls =>
      let '(self, ok) := accept now key self in
      if ok then (now, key) :: accepted self calls else accepted self calls
  end.

Lemma accepted_sublist self calls : accepted self calls `sublist_of` calls.
Proof.
  revert self. induction calls as [|[now key] calls IH]; intros self; simpl; [done |].
  destruct (accept now key self) as [self' []]; [by apply sublist_skip | by apply sublist_cons].
Qed.

Lemma accept_ttl now key self : dd_ttl (fst (accept now key self)) = dd_ttl self.
Proof. unfold accept. by case_bool_decide. Qed.

Notation in_time := (StronglySorted (λ a b : Z * string, (a.1 <= b.1)%Z)).

(** After a key was recorded at [t], the next acceptance is a period away. *)
Lemma accepted_later self calls key t :
  dd_entries self !! key = Some t -> in_time calls -> Forall (λ c, (t <= c.1)%Z) calls ->
  Forall (λ c, c.2 = key -> (t + dd_ttl self <= c.1)%Z) (accepted self calls).
Proof.
  revert self. induction calls as [|[now k] calls IH]; intros self Ht Hs Hf; [constructor |].
  apply StronglySorted_inv in Hs as [Hs Hnow]. apply Forall_cons in Hf as [Hle Hf]. simpl in Hle.
  assert (Forall (λ c, (now <= c.1)%Z) (accepted (fst (accept now k self)) calls)) as Hlater.
  { rewrite Forall_forall in *. intros c Hc. apply Hnow. eapply elem_of_submseteq; [done |].
    apply sublist_submseteq, accepted_sublist. }
  cbn [accepted]. pose proof (accept_ttl now k self) as Httl. revert Hlater Httl. unfold accept.
  set (entries := filter _ _). destruct (live_entry now (dd_ttl self) t) eqn:Hlive.
  - assert (entries !! key = Some t) as Hk by by apply map_lookup_filter_Some.
    destruct (bool_decide_reflect (is_Some (entries !! k))) as [Hsome|Hnone]; simpl; intros Hlater Httl.
    + apply (IH (MkCallbackDedup entries (dd_ttl self))); [done..|]. eapply Forall_impl; [done |]. simpl. lia.
    + assert (k <> key) as Hne by (intros ->; apply Hnone; eauto). constructor; [done |].
      apply (IH (MkCallbackDedup _ (dd_ttl self))); [by simpl; rewrite lookup_insert_ne | done |].
      eapply Forall_impl; [done |]. simpl. lia.
  - unfold live_entry in Hlive. apply Z.ltb_ge in Hlive.
    assert (forall l, Forall (λ c : Z * string, (now <= c.1)%Z) l ->
              Forall (λ c, c.2 = key -> (t + dd_ttl self <= c.1)%Z) l) as Hw.
    { intros l Hl. eapply Forall_impl; [done |]. simpl. intros c ? _. lia. }
    destruct (bool_decide _); simpl; intros Hlater Httl; [by apply Hw |]. constructor; [simpl; lia | by apply Hw].
Qed.

(** A query id is accepted once within the period, whatever else is asked. *)
Lemma accepted_once_per_ttl self calls :
  in_time calls ->
  StronglySorted (λ a b, b.2 = a.2 -> (a.1 + dd_ttl self <= b.1)%Z) (accepted self calls).
Proof.
  revert self. induction calls as [|[now key] calls IH]; intros self Hs; simpl; [constructor |].
  apply StronglySorted_inv in Hs as [Hs Hf]. pose proof (accept_ttl now key self) as Httl.
  destruct (accept now key self) as [self' ok] eqn:Ha. simpl in Httl.
  destruct ok; rewrite <- Httl in *; [| by apply IH].
  constructor; [by apply IH |]. apply accepted_later; [| done..].
  revert Ha. unfold accept. case_bool_decide; intros [= <-]. apply lookup_insert_eq.
Qed.

(** ** A token in use *)

(** Printing with numbers, as one instance of the serializer. *)
#[export] Instance ModelPurpose_countable : Countable ModelPurpose.
Proof.
  refine (inj_countable' (λ p, match p with PurposeChat => true | PurposeCompression => false end)
    (λ b : bool, if b then PurposeChat else PurposeCompression) _). by intros [].
Defined.

Definition action_tuple (a : CallbackAction) : nat * ModelPurpose * Z * Z * string * string :=
  let plain (n : nat) := (n, PurposeChat, 0%Z, 0%Z, EmptyString, EmptyString) in
  let paged (n : nat) (p i : Z) := (n, PurposeChat, p, i, EmptyString, EmptyString) in
  match a with
  | CbHome => plain 0%nat | CbHelp => plain 1%nat | CbSettings => plain 2%nat | CbStatus => plain 3%nat | CbNow => plain 4%nat
  | CbCharacters p => paged 5%nat p 0%Z | CbSelectCharacter p i => paged 6%nat p i
  | CbHistory p => paged 7%nat p 0%Z | CbSelectHistory p i => paged 8%nat p i
  | CbRecent p => paged 9%nat p 0%Z | CbSelectRecent p i => paged 10%nat p i
  | CbProviders u p => (11%nat, u, p, 0%Z, EmptyString, EmptyString)
  | CbProviderModels u k p => (12%nat, u, p, 0%Z, k, EmptyString)
  | CbSelectModel u k i => (13%nat, u, i, 0%Z, k, EmptyString)
  | CbSelectModelById u k m => (14%nat, u, 0%Z, 0%Z, k, m)
  | CbResetModel u => (15%nat, u, 0%Z, 0%Z, EmptyString, EmptyString)
  end.

Definition tuple_action (t : nat * ModelPurpose * Z * Z * string * string) : CallbackAction :=
  let '(n, u, p, i, k, m) := t in
  match n with
  | 0 => CbHome | 1 => CbHelp | 2 => CbSettings | 3 => CbStatus | 4 => CbNow
  | 5 => CbCharacters p | 6 => CbSelectCharacter p i | 7 => CbHistory p | 8 => CbSelectHistory p i
  | 9 => CbRecent p | 10 => CbSelectRecent p i | 11 => CbProviders u p | 12 => CbProviderModels u k p
  | 13 => CbSelectModel u k p | 14 => CbSelectModelById u k m | _ => CbResetModel u
  end.

#[export] Instance CallbackAction_countable : Countable CallbackAction.
Proof. refine (inj_countable' action_tuple tuple_action _). by intros []. Defined.

#[export] Instance CallbackBinding_eq_dec : EqDecision CallbackBinding.
Proof. solve_decision. Defined.

#[export] Instance CallbackBinding_countable : Countable CallbackBinding.
Proof.
  refine (inj_countable'
    (λ b, (cb_account_id b, cb_internal_bot_id b, cb_numeric_bot_id b, cb_chat_id b, cb_authorized_user_id b, cb_panel_id b,
           (cb_message_id b, cb_panel_revision b, cb_catalog_revision b, cb_expires_at_unix b, cb_action b, cb_action_nonce b)))
    (λ t, let '(a, i, n, c, u, p, (m, r, k, e, x, y)) := t in MkCallbackBinding a i n c u p m r k e x y) _).
  by intros [].
Defined.

Definition number_text `{Countable A} (a : A) : string := pretty (Z.pos (encode a)).
Definition text_number `{Countable A} (s : string) : option A := z ← digits_value 0 s; decode (Z.to_pos z).

Lemma text_number_text `{Countable A} (a : A) : text_number (number_text a) = Some a.
Proof. unfold text_number, number_text. rewrite digits_value_pretty by done. simpl. by rewrite decode_encode. Qed.

Definition demo_raw : string := "0123456789abcdef0123456789abcdef".
Definition demo_binding : CallbackBinding := MkCallbackBinding "a" "b" 7 8 "u" "p" 9 0 None 600 CbHome "n".

Definition demo_issued : Effects :=
  match issue (λ s, s) number_text "t" demo_raw demo_binding ∅ with Ok (t, _) => t | Err _ => ∅ end.
Definition demo_consumed : Effects :=
  match consume (λ s, s) text_number number_text "t" 5 "e" ("cb:" +:+ demo_raw) (scope_of demo_binding) demo_issued with
  | Ok (t, _) => t | Err _ => ∅ end.

Definition demo_used : CbSys :=
  MkCbSys demo_consumed [EvConsumed ("cb:" +:+ demo_raw) (scope_of demo_binding) 5 CbHome "e";
                         EvIssued ("cb:" +:+ demo_raw) demo_binding].

Lemma demo_used_reached : rtc (cb_step (λ s, s) number_text text_number number_text) cb_init demo_used.
Proof.
  apply (rtc_l _ _ (MkCbSys demo_issued [EvIssued ("cb:" +:+ demo_raw) demo_binding])).
  - apply (step_issue (λ s, s) _ _ _ cb_init "t" demo_raw demo_binding demo_issued ("cb:" +:+ demo_raw)).
    vm_cast_no_check (@eq_refl (AppResult (Effects * string)) (Ok (demo_issued, "cb:" +:+ demo_raw))).
  - apply rtc_once.
    apply (step_consume (λ s, s) _ _ _ (MkCbSys demo_issued _) "t" 5 "e" ("cb:" +:+ demo_raw) (scope_of demo_binding) demo_consumed).
    vm_cast_no_check (@eq_refl (AppResult (Effects * (CallbackAction * string))) (Ok (demo_consumed, (CbHome, "e")))).
Qed.

Lemma callbacks_act_once_witness :
  rtc (cb_step (λ s, s) number_text text_number number_text) cb_init demo_used
  /\ NoDup (consumed_digests (cs_log demo_used)).
Proof.
  split; [exact demo_used_reached |].
  exact (proj1 (callbacks_act_once (λ s, s) number_text text_number number_text text_number_text demo_used demo_used_reached)).
Defined.

Lemma callback_form_is_exact_witness :
  parse_legacy_callback_data "cb:sel_mdl_id:chat:p:m" = Ok (CbSelectModelById PurposeChat "p" "m").
Proof. apply (callback_form_is_exact (CbSelectModelById PurposeChat "p" "m") I). split; [reflexivity | vm_compute; lia]. Defined.
