(* ===== verification/Panel.v ===== *)
(** * Panels ([modules/telegram/panel.rs])

    A panel is a message with a keyboard.  Rendering is pure: lists are cut into
    pages, labels are shortened and texts that look like secrets are hidden.
    [plan_effect] decides whether a panel is created or replaces the active one;
    the registry remembers rendered panels until they are delivered.

    serde_json's form of a keyboard and which key a [HashMap] yields first are
    parameters.  A page number is a [usize]. *)

From S2P Require Import Prelude Text Errors StDomain ChannelContext TelegramInbox TelegramText Delivery Callback.
From stdpp Require Import pretty.
From Stdlib Require Import Lia.

Definition short_name : ModelPurpose -> string := purpose_token.

Definition display_name (purpose : ModelPurpose) : string :=
  match purpose with PurposeChat => "聊天" | PurposeCompression => "压缩" end.

Inductive PanelKind : Type :=
| PkHome
| PkHelp
| PkSettings
| PkStatus
| PkCharacters (page : Z)
| PkHistory (page : Z)
| PkRecent (page : Z)
| PkCurrentState
| PkProviders (purpose : ModelPurpose) (page : Z)
| PkProviderModels (purpose : ModelPurpose) (provider_key : string) (page : Z)
| PkOperationProgress (operation_id : string).

#[export] Instance PanelKind_eq_dec : EqDecision PanelKind.
Proof. solve_decision. Defined.

Inductive PanelParseMode : Set := PlainText | MarkdownV2.

#[export] Instance PanelParseMode_eq_dec : EqDecision PanelParseMode.
Proof. solve_decision. Defined.

Record InlineButton := MkInlineButton { ib_label : string; ib_callback_data : string }.

#[export] Instance InlineButton_eq_dec : EqDecision InlineButton.
Proof. solve_decision. Defined.

Notation Keyboard := (list (list InlineButton)).

Record TelegramPanel := MkTelegramPanel {
  tp_kind : PanelKind;
  tp_revision : Z;
  tp_catalog_revision : option string;
  tp_text : string;
  tp_keyboard : Keyboard;
  tp_parse_mode : PanelParseMode;
}.

#[export] Instance TelegramPanel_eq_dec : EqDecision TelegramPanel.
Proof. solve_decision. Defined.

Definition with_keyboard (keyboard : Keyboard) (p : TelegramPanel) : TelegramPanel :=
  MkTelegramPanel (tp_kind p) (tp_revision p) (tp_catalog_revision p) (tp_text p) keyboard (tp_parse_mode p).
Definition with_revision (revision : Z) (p : TelegramPanel) : TelegramPanel :=
  MkTelegramPanel (tp_kind p) revision (tp_catalog_revision p) (tp_text p) (tp_keyboard p) (tp_parse_mode p).

(** ** Labels *)

Definition is_protected_text (value : string) : bool :=
  let lowered := to_ascii_lowercase value in
  contains lowered "http://" || contains lowered "https://" || contains lowered "bearer "
  || contains lowered "token=" || contains lowered "api_key=" || contains lowered "secret".

Definition PROTECTED : string := "受保护对象".

Definition redact_label (value : string) : string :=
  let value := trim value in
  if is_protected_text value then PROTECTED else chars_take 96 value.

Definition split_current_preview (fuel : nat) (value : string) : option (list string) :=
  let value := trim value in
  if value =?= "" then Some []
  else if is_protected_text value then Some [PROTECTED]
  else split_text fuel value 3200.

Definition breadcrumb (self : PanelKind) : string :=
  match self with
  | PkHome => "首页"
  | PkHelp => "首页 > 帮助"
  | PkSettings => "首页 > 设置"
  | PkStatus => "首页 > 状态"
  | PkCharacters _ => "首页 > 角色列表"
  | PkHistory _ => "首页 > 历史会话"
  | PkRecent _ => "首页 > 最近会话"
  | PkCurrentState => "首页 > 当前会话"
  | PkProviders purpose _ => "首页 > " +:+ display_name purpose +:+ "模型 > 厂商选择"
  | PkProviderModels purpose provider_key _ =>
      "首页 > " +:+ display_name purpose +:+ "模型 > " +:+ redact_label provider_key
  | PkOperationProgress _ => "首页 > 操作进度"
  end.

(** ** Markup *)

Definition markup_invalid (message : string) : AppError := bad_request "TELEGRAM_PANEL_MARKUP_INVALID" message.

Definition member_str (key : string) (v : Value) : option string := value_get v key ≫= value_as_str.

Definition button_of_json (button : Value) : AppResult InlineButton :=
  let? _ := ok_or (value_as_object button) (markup_invalid "Telegram 面板按钮格式无效") in
  let? label := ok_or (member_str "text" button) (markup_invalid "Telegram 面板按钮缺少文本") in
  let? data := ok_or (member_str "callback_data" button) (markup_invalid "Telegram 面板按钮缺少回调令牌") in
  Ok (MkInlineButton label data).

Definition row_of_json (row : Value) : AppResult (list InlineButton) :=
  let? buttons := ok_or (value_as_array row) (markup_invalid "Telegram 面板按钮行格式无效") in
  collect (map button_of_json buttons).

Definition keyboard_from_markup (markup : Value) : AppResult Keyboard :=
  let? rows := ok_or (value_get markup "inline_keyboard" ≫= value_as_array) (markup_invalid "Telegram 面板键盘格式无效") in
  collect (map row_of_json rows).

(** The markup a panel is sent with (written out in [dispatch.rs] and
    [delivery.rs]). *)
Definition button_json (b : InlineButton) : Value :=
  JObject [("text", JString (ib_label b)); ("callback_data", JString (ib_callback_data b))].
Definition keyboard_markup (keyboard : Keyboard) : Value :=
  JObject [("inline_keyboard", JArray (map (λ row, JArray (map button_json row)) keyboard))].

(** ** The registry of rendered panels *)

Section Registry.
Context (keyboard_json : Keyboard -> string) (first_key : gmap string TelegramPanel -> option string).

Definition panel_key (text : string) (keyboard : Keyboard) : string := text +:+ ":" +:+ keyboard_json keyboard.

Definition remember_panel (panel : TelegramPanel) (registry : gmap string TelegramPanel) : gmap string TelegramPanel :=
  let registry :=
    if (256 <=? size registry)%nat
    then match first_key registry with Some key => delete key registry | None => registry end
    else registry in
  <[panel_key (tp_text panel) (tp_keyboard panel) := panel]> registry.

Definition lookup_panel (text : string) (keyboard : Keyboard) (registry : gmap string TelegramPanel) : option TelegramPanel :=
  registry !! panel_key text keyboard.
End Registry.

(** ** Slots and effects *)

Record PanelSlot := MkPanelSlot {
  ps_panel_id : string;
  ps_account_id : string;
  ps_numeric_bot_id : Z;
  ps_chat_id : Z;
  ps_message_id : Z;
  ps_kind : PanelKind;
  ps_revision : Z;
  ps_active : bool;
  ps_expires_at_unix : Z;
}.

#[export] Instance PanelSlot_eq_dec : EqDecision PanelSlot.
Proof. solve_decision. Defined.

Inductive PanelEffect : Type :=
| PeCreate (panel_id : string) (chat_id : Z) (panel : TelegramPanel)
| PeReplace (slot : PanelSlot) (expected_revision : Z) (panel : TelegramPanel)
| PeToast (callback_query_id text : string) (show_alert : bool)
| PeRetireKeyboard (slot : PanelSlot)
| PeDeleteChunk (chat_id message_id : Z) (operation_id : string)
| PeFallbackSend (old_slot : PanelSlot) (panel : TelegramPanel) (effect_id : string).

(** [u64::saturating_add(1)]. *)
Definition saturating_succ (revision : Z) : Z := Z.min (revision + 1) (2 ^ 64 - 1).

Definition plan_effect (now_unix : Z) (current_slot : option PanelSlot) (next_panel : TelegramPanel)
    (panel_id account_id : string) (numeric_bot_id chat_id ttl_secs : Z) : PanelEffect * PanelSlot :=
  let expires_at_unix := (now_unix + Z.max ttl_secs 0)%Z in
  match (match current_slot with Some slot => if ps_active slot then Some slot else None | None => None end) with
  | Some slot =>
      let next_panel := with_revision (saturating_succ (ps_revision slot)) next_panel in
      (PeReplace slot (ps_revision slot) next_panel,
       MkPanelSlot (ps_panel_id slot) (ps_account_id slot) (ps_numeric_bot_id slot) (ps_chat_id slot)
         (ps_message_id slot) (tp_kind next_panel) (saturating_succ (ps_revision slot)) true expires_at_unix)
  | None =>
      (PeCreate panel_id chat_id next_panel,
       MkPanelSlot panel_id account_id numeric_bot_id chat_id 0 (tp_kind next_panel) 0 true expires_at_unix)
  end.

(** ** Rendering *)

Definition panel (kind : PanelKind) (text : string) (keyboard : Keyboard) : TelegramPanel :=
  MkTelegramPanel kind 0 None text keyboard PlainText.

Definition button (label callback_data : string) : InlineButton :=
  MkInlineButton label (opaque_callback callback_data).

Definition home_button : list InlineButton := [button "返回首页" "cb:home"].

Definition provider_models_callback (purpose : ModelPurpose) (provider_key : string) (page : Z) : string :=
  to_callback_data (CbProviderModels purpose provider_key page).
Definition select_model_callback (purpose : ModelPurpose) (provider_key model_id : string) : string :=
  to_callback_data (CbSelectModelById purpose provider_key model_id).

Definition page_buttons (page total_pages : Z) (token : Z -> string) : list InlineButton :=
  (if (0 <? page)%Z then [button "上一页" (token (page - 1)%Z)] else [])
  ++ (if (page + 1 <? total_pages)%Z then [button "下一页" (token (page + 1)%Z)] else []).

Definition PAGE_SIZE : Z := 8.

Definition div_ceil (a b : Z) : Z := ((a + b - 1) / b)%Z.
Definition total_pages (total page_size : Z) : Z := Z.max (div_ceil total page_size) 1.

(** The buttons two by two. *)
Fixpoint pair_rows (l : list InlineButton) : Keyboard :=
  match l with
  | a :: b :: l => [a; b] :: pair_rows l
  | [a] => [[a]]
  | [] => []
  end.

(** [if !nav.is_empty() { rows.push(nav) }]. *)
Definition nav_row (nav : list InlineButton) : Keyboard := match nav with [] => [] | _ => [nav] end.

(** [items.iter().skip(page * PAGE_SIZE).take(PAGE_SIZE)]. *)
Definition page_of {A} (page : Z) (items : list A) : list A := take (Z.to_nat PAGE_SIZE) (drop (Z.to_nat (page * PAGE_SIZE)) items).

Definition page_line (page pages : Z) : string := "（第 " +:+ pretty (page + 1)%Z +:+ " / " +:+ pretty pages +:+ " 页）：".

(** [text.push_str(&format!("\n{}. {label}", number))] for every entry. *)
Definition numbered (first : Z) (labels : list string) : string :=
  concat_str (imap (λ i label, newline +:+ pretty (first + Z.of_nat i)%Z +:+ ". " +:+ label) labels).

Definition render_home : TelegramPanel :=
  panel PkHome ("首页" +:+ newline +:+ "请选择一个功能：")
    [[button "角色" "cb:chars:0"; button "历史" "cb:hist:0"];
     [button "最近" "cb:recent:0"; button "当前" "cb:now"];
     [button "设置" "cb:settings"; button "状态" "cb:status"];
     [button "帮助" "cb:help"]].

Definition render_help : TelegramPanel :=
  panel PkHelp
    (join_str newline
       ["首页 > 帮助"; ""; "可用命令："; "/start - 打开首页"; "/help - 查看帮助"; "/chars - 选择角色";
        "/hist - 查看历史会话"; "/recent - 查看最近会话"; "/now - 查看当前会话"; "/model - 切换聊天模型";
        "/cmodel - 切换压缩模型"; "/settings - 查看模型设置"; "/status - 查看连接状态"; "/redo - 重新生成回复";
        "/undo - 撤回最后一轮（保留消息）"; "/revoke - 撤回并清理消息"; "/compress - 压缩当前会话"; "/error - 查看最近错误"])
    [home_button].

Definition render_settings (chat_override comp_override : option string) : TelegramPanel :=
  let chat := default "默认" (redact_label <$> chat_override) in
  let comp := default "默认" (redact_label <$> comp_override) in
  panel PkSettings
    ("首页 > 设置" +:+ newline +:+ newline +:+ "聊天模型覆盖：" +:+ chat +:+ newline +:+ "压缩模型覆盖：" +:+ comp)
    [[button "聊天模型" "cb:prov:chat:0"]; [button "压缩模型" "cb:prov:comp:0"]; home_button].

Definition render_status (readiness locator_summary : string) (numeric_bot_id : Z) (last_error : option string) : TelegramPanel :=
  panel PkStatus
    ("首页 > 状态" +:+ newline +:+ newline +:+ "就绪状态：" +:+ readiness +:+ newline +:+ "Bot numeric ID："
     +:+ pretty numeric_bot_id +:+ newline +:+ "定位器：" +:+ redact_label locator_summary
     +:+ match last_error with
         | Some error => if is_blank error then "" else newline +:+ "最近错误：" +:+ redact_label error
         | None => ""
         end)
    [[button "刷新" "cb:status"]; home_button].

Definition render_characters (chars_ : list StCharacterSummary) (page total : Z) : TelegramPanel :=
  let pages := total_pages (Z.max total (Z.of_nat (length chars_))) PAGE_SIZE in
  let page := Z.min page (pages - 1) in
  let names := map (λ c, redact_label (sc_name c)) chars_ in
  panel (PkCharacters page)
    ("首页 > 角色列表" +:+ newline +:+ newline +:+ "请选择角色" +:+ page_line page pages
     +:+ match chars_ with [] => newline +:+ newline +:+ "当前没有可见角色。请刷新后重试。" | _ => "" end
     +:+ numbered 1 names)
    (pair_rows (imap (λ i name, button (pretty (Z.of_nat i + 1)%Z +:+ " " +:+ name)
                                  ("cb:sel_char:" +:+ pretty page +:+ ":" +:+ pretty (Z.of_nat i))) names)
     ++ nav_row (page_buttons page pages (λ value, "cb:chars:" +:+ pretty value)) ++ [home_button]).

Definition render_history (character_name : string) (chats : list StChatSummary) (page total : Z) : TelegramPanel :=
  let pages := total_pages (Z.max total (Z.of_nat (length chats))) PAGE_SIZE in
  let page := Z.min page (pages - 1) in
  let titles := map (λ c, redact_label (default (ch_chat_file c) (ch_title c))) chats in
  panel (PkHistory page)
    ("首页 > 历史会话" +:+ newline +:+ "角色：" +:+ redact_label character_name +:+ newline +:+ newline
     +:+ "请选择会话" +:+ page_line page pages
     +:+ match chats with [] => newline +:+ newline +:+ "当前角色还没有历史会话。发送 /new 新建会话。" | _ => "" end
     +:+ numbered 1 titles)
    (imap (λ i title, [button title ("cb:sel_hist:" +:+ pretty page +:+ ":" +:+ pretty (Z.of_nat i))]) titles
     ++ nav_row (page_buttons page pages (λ value, "cb:hist:" +:+ pretty value)) ++ [home_button]).

Definition render_recent (items : list StChannelLocator) (page : Z) : TelegramPanel :=
  let pages := total_pages (Z.of_nat (length items)) PAGE_SIZE in
  let page := Z.min page (pages - 1) in
  let start := (page * PAGE_SIZE)%Z in
  let labels := map (λ item, default "未命名会话" (redact_label <$> or_else (cl_chat_file item) (cl_character_name item)))
                  (page_of page items) in
  panel (PkRecent page)
    ("首页 > 最近会话" +:+ newline +:+ newline +:+ "最近会话" +:+ page_line page pages
     +:+ match items with [] => newline +:+ newline +:+ "还没有最近会话。" | _ => "" end
     +:+ numbered (start + 1) labels)
    (imap (λ i label, [button label ("cb:sel_recent:" +:+ pretty page +:+ ":" +:+ pretty (Z.of_nat i))]) labels
     ++ nav_row (page_buttons page pages (λ value, "cb:recent:" +:+ pretty value)) ++ [home_button]).

Definition render_current (character_name chat_file : string) (message_count : option Z) (preview : option string) : TelegramPanel :=
  let count := default "未知" (pretty <$> message_count) in
  let safe_preview :=
    match preview with Some value => if is_blank value then "暂无消息" else redact_label value | None => "暂无消息" end in
  panel PkCurrentState
    ("首页 > 当前会话" +:+ newline +:+ newline +:+ "角色：" +:+ redact_label character_name +:+ newline +:+ "会话："
     +:+ redact_label chat_file +:+ newline +:+ "消息数：" +:+ count +:+ newline +:+ newline +:+ "最近内容：" +:+ newline
     +:+ safe_preview)
    [[button "刷新" "cb:now"]; [button "历史" "cb:hist:0"]; home_button].

Definition render_providers (purpose : ModelPurpose) (providers : list string) (page total_pages_ : Z) : TelegramPanel :=
  let pages := Z.max total_pages_ 1 in
  let page := Z.min page (pages - 1) in
  let start := (page * PAGE_SIZE)%Z in
  let visible := page_of page providers in
  panel (PkProviders purpose page)
    ("首页 > " +:+ display_name purpose +:+ "模型 > 厂商选择" +:+ newline +:+ newline +:+ "请选择厂商" +:+ page_line page pages
     +:+ match providers with [] => newline +:+ newline +:+ "当前没有可用模型厂商。请刷新后重试。" | _ => "" end
     +:+ numbered (start + 1) (map redact_label visible))
    (pair_rows (map (λ provider, button (redact_label provider) (to_callback_data (CbProviderModels purpose provider page))) visible)
     ++ [[button "重置模型" ("cb:rst_mdl:" +:+ short_name purpose)]]
     ++ nav_row (page_buttons page pages (λ value, "cb:prov:" +:+ short_name purpose +:+ ":" +:+ pretty value))
     ++ [home_button]).

Definition model_label (current_override : option string) (model : StModelSummary) : string :=
  redact_label (ms_id model) +:+ (if current_override =?= Some (ms_id model) then " [当前]" else "").

Definition render_provider_models (purpose : ModelPurpose) (provider_key : string) (models : list StModelSummary)
    (current_override : option string) (page total_pages_ : Z) : TelegramPanel :=
  let pages := Z.max total_pages_ 1 in
  let page := Z.min page (pages - 1) in
  let start := (page * PAGE_SIZE)%Z in
  let visible := page_of page models in
  panel (PkProviderModels purpose provider_key page)
    ("首页 > " +:+ display_name purpose +:+ "模型 > " +:+ redact_label provider_key +:+ newline +:+ newline +:+ "请选择模型"
     +:+ page_line page pages
     +:+ match models with [] => newline +:+ newline +:+ "该厂商当前没有可用模型。请返回厂商列表。" | _ => "" end
     +:+ numbered (start + 1) (map (model_label current_override) visible))
    (map (λ model, [button (model_label current_override model) (select_model_callback purpose provider_key (ms_id model))]) visible
     ++ nav_row (page_buttons page pages (provider_models_callback purpose provider_key))
     ++ [[button "返回厂商" ("cb:prov:" +:+ short_name purpose +:+ ":0")]; home_button]).

(** ** Labels never show a secret *)

Lemma chars_take_prefix n s : exists t, s = chars_take n s +:+ t.
Proof.
  revert n. induction s as [|a s IH]; intros n; simpl; [by exists "" |].
  destruct (is_cont a); [destruct (IH n) as [t Ht]; exists t; by rewrite app_string_cons, <- Ht |].
  destruct n as [|n]; [by exists (String a s) |]. destruct (IH n) as [t Ht]. exists t. by rewrite app_string_cons, <- Ht.
Qed.

Lemma lowercase_app s t : to_ascii_lowercase (s +:+ t) = to_ascii_lowercase s +:+ to_ascii_lowercase t.
Proof. induction s as [|a s IH]; [done |]. rewrite app_string_cons. simpl. by rewrite IH, app_string_cons. Qed.

Lemma prefix_app p s t : String.prefix p s = true -> String.prefix p (s +:+ t) = true.
Proof.
  revert s. induction p as [|a p IH]; intros s Hp; [by destruct (s +:+ t) |].
  destruct s as [|b s]; [done |]. rewrite app_string_cons. simpl in *.
  destruct (Ascii.ascii_dec a b); [by apply IH | done].
Qed.

Lemma contains_app s t p : p <> "" -> contains s p = true -> contains (s +:+ t) p = true.
Proof.
  intros Hp. induction s as [|a s IH]; intros Hc.
  - destruct p; [done | simpl in Hc; done].
  - rewrite app_string_cons. cbn [contains] in Hc |- *. apply orb_true_iff in Hc as [Hc|Hc]; apply orb_true_iff.
    + left. rewrite <- app_string_cons. by apply prefix_app.
    + right. by apply IH.
Qed.

Lemma protected_app s t : is_protected_text s = true -> is_protected_text (s +:+ t) = true.
Proof.
  unfold is_protected_text. rewrite lowercase_app, !orb_true_iff. intros H.
  repeat destruct H as [H|H]; apply (contains_app _ (to_ascii_lowercase t)) in H; auto 10; done.
Qed.

Lemma label_unprotected value : is_protected_text (redact_label value) = false.
Proof.
  unfold redact_label. destruct (is_protected_text (trim value)) eqn:Hp; [done |].
  destruct (chars_take_prefix 96 (trim value)) as [t Ht].
  destruct (is_protected_text (chars_take 96 (trim value))) eqn:Hq; [| done].
  apply (protected_app _ t) in Hq. rewrite <- Ht in Hq. congruence.
Qed.

Lemma label_short value : (chars_count (redact_label value) <= 96)%nat.
Proof.
  unfold redact_label. destruct (is_protected_text _); [vm_compute; lia |].
  generalize (trim value) 96. clear. intros s. induction s as [|a s IH]; intros n; simpl; [lia |].
  destruct (is_cont a) eqn:Ha; simpl; [rewrite Ha; apply IH |].
  destruct n as [|n]; simpl; [lia |]. rewrite Ha. specialize (IH n). lia.
Qed.

(** ** Markup *)

Lemma collect_map_Ok {A B E} (f : B -> result A E) (g : A -> B) l :
  (forall a, f (g a) = Ok a) -> collect (map f (map g l)) = Ok l.
Proof. intros Hf. induction l as [|a l IH]; simpl; [done |]. by rewrite Hf, IH. Qed.

(** The keyboard of a sent panel is read back from its markup. *)
Lemma keyboard_markup_roundtrip keyboard : keyboard_from_markup (keyboard_markup keyboard) = Ok keyboard.
Proof.
  unfold keyboard_from_markup. simpl. apply collect_map_Ok. intros row. unfold row_of_json. simpl.
  apply collect_map_Ok. by intros [].
Qed.

(** ** The registry is bounded and holds what was just rendered *)

Section RegistryFacts.
Context (keyboard_json : Keyboard -> string) (first_key : gmap string TelegramPanel -> option string).
Hypothesis first_key_present : forall m, m <> ∅ -> exists k, first_key m = Some k /\ is_Some (m !! k).

Lemma remember_bounded p m : (size m <= 256)%nat -> (size (remember_panel keyboard_json first_key p m) <= 256)%nat.
Proof.
  intros Hm. unfold remember_panel. set (key := panel_key _ _ _).
  assert (forall n : gmap string TelegramPanel, (size n <= 255)%nat -> (size (<[key := p]> n) <= 256)%nat) as Hins.
  { intros n Hn. destruct (n !! key) as [q|] eqn:Hk.
    - rewrite map_size_insert_Some by eauto. lia.
    - rewrite map_size_insert_None by done. lia. }
  destruct (256 <=? size m)%nat eqn:Hfull; [| apply Hins; apply Nat.leb_gt in Hfull; lia].
  apply Nat.leb_le in Hfull. destruct (first_key_present m) as (k & -> & Hk).
  { intros ->. rewrite map_size_empty in Hfull. lia. }
  apply Hins. rewrite map_size_delete_Some by done. lia.
Qed.

Lemma lookup_remembered p m :
  lookup_panel keyboard_json (tp_text p) (tp_keyboard p) (remember_panel keyboard_json first_key p m) = Some p.
Proof. apply lookup_insert_eq. Qed.
End RegistryFacts.
