(* ===== verification/PanelStore.v ===== *)
(** * The panel store ([modules/telegram/panel_store.rs])

    The active panel of a chat is a row of [telegram_panel_slots] with a revision;
    an edit of a panel is an effect that is claimed against the revision, sent and
    confirmed.  Two edits planned from the same revision must not both be
    confirmed.  The part of [delivery.rs] that performs panel effects follows.

    serde_json's forms of a panel kind and of a claim, fresh ids and the clock are
    parameters. *)

From S2P Require Import Prelude Text Errors StDomain TelegramInbox TelegramText DeliveryQueue Delivery Callback Panel.
From stdpp Require Import pretty.
From Stdlib Require Import Lia.

Record SlotRow := MkSlotRow {
  sl_account_id : string;
  sl_numeric_bot_id : Z;
  sl_chat_id : Z;
  sl_message_id : Z;
  sl_kind : string;
  sl_revision : Z;
  sl_active : Z;
  sl_expires_at_unix : Z;
  sl_created_at : string;
  sl_updated_at : string;
}.

#[export] Instance SlotRow_eq_dec : EqDecision SlotRow.
Proof. solve_decision. Defined.

Record PanelDB := MkPanelDB { panel_slots : gmap string SlotRow; panel_effects : Effects }.

Definition set_slots (f : gmap string SlotRow -> gmap string SlotRow) (db : PanelDB) : PanelDB :=
  MkPanelDB (f (panel_slots db)) (panel_effects db).
Definition set_effects (t : Effects) (db : PanelDB) : PanelDB := MkPanelDB (panel_slots db) t.

Definition is_active (r : SlotRow) : bool := (sl_active r =? 1)%Z.

(** The unique index on (numeric_bot_id, chat_id) over the active rows. *)
Definition active_elsewhere (panel_id : string) (numeric_bot_id chat_id : Z) (slots : gmap string SlotRow) : bool :=
  bool_decide (Exists (λ kv : string * SlotRow,
    kv.1 <> panel_id /\ is_active kv.2 = true /\ sl_numeric_bot_id kv.2 = numeric_bot_id /\ sl_chat_id kv.2 = chat_id)
    (map_to_list slots)).

Definition encode_revision (revision : Z) : AppResult Z :=
  if (revision <? 2 ^ 63)%Z then Ok revision
  else Err (bad_request "TELEGRAM_PANEL_REVISION_INVALID" "panel revision exceeds SQLite integer range").

Definition decode_revision (revision : Z) : AppResult Z :=
  if (0 <=? revision)%Z then Ok revision else Err (internal "stored panel revision is invalid").

Section PanelStore.
Context (kind_json : PanelKind -> string) (kind_of_json : string -> option PanelKind)
  (claim_json : Z -> PanelSlot -> PanelSlot -> TelegramPanel -> string).

Definition decode_slot (panel_id : string) (r : SlotRow) : AppResult PanelSlot :=
  let? kind := ok_or (kind_of_json (sl_kind r)) (internal "panel kind decode failed") in
  let? revision := decode_revision (sl_revision r) in
  Ok (MkPanelSlot panel_id (sl_account_id r) (sl_numeric_bot_id r) (sl_chat_id r) (sl_message_id r) kind revision
        (negb (sl_active r =? 0)%Z) (sl_expires_at_unix r)).

Definition deactivate (now : string) (r : SlotRow) : SlotRow :=
  MkSlotRow (sl_account_id r) (sl_numeric_bot_id r) (sl_chat_id r) (sl_message_id r) (sl_kind r) (sl_revision r) 0
    (sl_expires_at_unix r) (sl_created_at r) now.

(** UPDATE ... SET active = 0 WHERE account, bot, chat, active = 1 and another panel. *)
Definition deactivate_others (now : string) (slot : PanelSlot) : gmap string SlotRow -> gmap string SlotRow :=
  map_imap (λ id r, Some
    (if (sl_account_id r =?= ps_account_id slot) && (sl_numeric_bot_id r =? ps_numeric_bot_id slot)%Z
        && (sl_chat_id r =? ps_chat_id slot)%Z && is_active r && negb (id =?= ps_panel_id slot)
     then deactivate now r else r)).

(** One transaction. *)
Definition save_slot (now : string) (slot : PanelSlot) (db : PanelDB) : AppResult PanelDB :=
  let slots := if ps_active slot then deactivate_others now slot (panel_slots db) else panel_slots db in
  let? revision := encode_revision (ps_revision slot) in
  let active := if ps_active slot then 1%Z else 0%Z in
  if ps_active slot && active_elsewhere (ps_panel_id slot) (ps_numeric_bot_id slot) (ps_chat_id slot) slots
  then Err database_error
  else
    let created := match slots !! ps_panel_id slot with Some r => sl_created_at r | None => now end in
    Ok (set_slots (λ _, <[ps_panel_id slot :=
          MkSlotRow (ps_account_id slot) (ps_numeric_bot_id slot) (ps_chat_id slot) (ps_message_id slot)
            (kind_json (ps_kind slot)) revision active (ps_expires_at_unix slot) created now]> slots) db).

(** SELECT ... WHERE p AND active = 1 ORDER BY updated_at DESC LIMIT 1. *)
Definition newest_slot (a b : string * SlotRow) : bool := text_le (sl_updated_at b.2) (sl_updated_at a.2).

Definition select_active (p : SlotRow -> bool) (db : PanelDB) : AppResult (option PanelSlot) :=
  match head (sort_by newest_slot (filter (λ kv : string * SlotRow, (p kv.2 && is_active kv.2) = true)
                                     (map_to_list (panel_slots db)))) with
  | None => Ok None
  | Some (id, r) => let? slot := decode_slot id r in Ok (Some slot)
  end.

Definition find_active_slot (numeric_bot_id chat_id : Z) : PanelDB -> AppResult (option PanelSlot) :=
  select_active (λ r, (sl_numeric_bot_id r =? numeric_bot_id)%Z && (sl_chat_id r =? chat_id)%Z).

Definition find_active_slot_for_account_chat (account_id : string) (chat_id : Z) : PanelDB -> AppResult (option PanelSlot) :=
  select_active (λ r, (sl_account_id r =?= account_id) && (sl_chat_id r =? chat_id)%Z).

Definition find_active_slot_for_scope (account_id : string) (numeric_bot_id chat_id : Z)
  : PanelDB -> AppResult (option PanelSlot) :=
  select_active (λ r, (sl_account_id r =?= account_id) && (sl_numeric_bot_id r =? numeric_bot_id)%Z
                      && (sl_chat_id r =? chat_id)%Z).

(** The row of [slot] at a revision, while it is active. *)
Definition is_slot_at (slot : PanelSlot) (revision : Z) (r : SlotRow) : bool :=
  (sl_account_id r =?= ps_account_id slot) && (sl_numeric_bot_id r =? ps_numeric_bot_id slot)%Z
  && (sl_chat_id r =? ps_chat_id slot)%Z && (sl_revision r =? revision)%Z && is_active r.

Definition slot_exists (slot : PanelSlot) (revision : Z) (db : PanelDB) : bool :=
  match panel_slots db !! ps_panel_id slot with Some r => is_slot_at slot revision r | None => false end.

Definition same_claim_open (panel_id payload : string) (t : Effects) : bool :=
  bool_decide (Exists (λ kv : string * EffectRow,
    ef_panel_id kv.2 = panel_id /\ ef_effect_type kv.2 = "replace"
    /\ (ef_status kv.2 = "pending" \/ ef_status kv.2 = "sending") /\ ef_payload kv.2 = payload) (map_to_list t)).

Definition claim_panel_revision (now effect_id : string) (slot : PanelSlot) (expected_revision : Z) (panel : TelegramPanel)
    (next_slot : PanelSlot) (db : PanelDB) : AppResult (PanelDB * option string) :=
  let payload := claim_json expected_revision slot next_slot panel in
  let? expected := encode_revision expected_revision in
  if slot_exists slot expected db && negb (same_claim_open (ps_panel_id slot) payload (panel_effects db)) then
    let? t := insert_effect effect_id
      (MkEffectRow (ps_panel_id slot) (ps_chat_id slot) "replace" payload "pending" None (Some effect_id) (Some expected)
         None now now) (panel_effects db) in
    Ok (set_effects t db, Some effect_id)
  else Ok (db, None).

Definition is_replace (effect_id : string) (slot : PanelSlot) (expected : Z) (status : string) (r : EffectRow) : bool :=
  (ef_attempt_token r =?= Some effect_id) && (ef_panel_id r =?= ps_panel_id slot) && (ef_chat_id r =? ps_chat_id slot)%Z
  && (ef_expected_revision r =?= Some expected) && (ef_effect_type r =?= "replace") && (ef_status r =?= status).

Definition panel_effect_conflict (message : string) : AppError := conflict "TELEGRAM_PANEL_EFFECT_CAS_CONFLICT" message.

Definition mark_panel_revision_status (now effect_id : string) (slot : PanelSlot) (expected_revision : Z) (status : string)
    (db : PanelDB) : AppResult PanelDB :=
  let expected_status := if status =?= "sending" then "pending" else "sending" in
  let? expected := encode_revision expected_revision in
  let? t := ok_or
    (update_effect effect_id (is_replace effect_id slot expected expected_status)
       (λ r, ef_set status (if (status =?= "sent") || (status =?= "failed") then Some now else ef_terminal_at r) now r)
       (panel_effects db))
    (panel_effect_conflict "panel effect status changed concurrently") in
  Ok (set_effects t db).

Definition mark_panel_revision_sending (now effect_id : string) (slot : PanelSlot) (expected_revision : Z) :=
  mark_panel_revision_status now effect_id slot expected_revision "sending".
Definition mark_panel_revision_sent (now effect_id : string) (slot : PanelSlot) (expected_revision : Z) :=
  mark_panel_revision_status now effect_id slot expected_revision "sent".
Definition mark_panel_revision_failed (now effect_id : string) (slot : PanelSlot) (expected_revision : Z) :=
  mark_panel_revision_status now effect_id slot expected_revision "failed".

Definition sl_replace (now : string) (next : PanelSlot) (revision : Z) (r : SlotRow) : SlotRow :=
  MkSlotRow (sl_account_id r) (sl_numeric_bot_id r) (sl_chat_id r) (ps_message_id next) (kind_json (ps_kind next)) revision
    (sl_active r) (ps_expires_at_unix next) (sl_created_at r) now.

(** UPDATE telegram_panel_slots ... WHERE the slot is active at the revision. *)
Definition update_slot (slot : PanelSlot) (expected : Z) (f : SlotRow -> SlotRow) (db : PanelDB) : option PanelDB :=
  match panel_slots db !! ps_panel_id slot with
  | Some r => if is_slot_at slot expected r then Some (set_slots <[ps_panel_id slot := f r]> db) else None
  | None => None
  end.

(** One transaction: the slot, then the effect. *)
Definition complete_panel_replace (now effect_id : string) (slot : PanelSlot) (expected_revision : Z) (next_slot : PanelSlot)
    (db : PanelDB) : AppResult PanelDB :=
  let? next := encode_revision (ps_revision next_slot) in
  let? expected := encode_revision expected_revision in
  let? db := ok_or (update_slot slot expected (sl_replace now next_slot next) db)
    (conflict "TELEGRAM_PANEL_STALE" "panel slot revision changed before effect confirmation") in
  let? t := ok_or (update_effect effect_id (is_replace effect_id slot expected "sending") (ef_set "sent" (Some now) now)
                     (panel_effects db))
    (panel_effect_conflict "panel effect confirmation changed concurrently") in
  Ok (set_effects t db).

Definition cas_update_slot_scoped (now : string) (slot : PanelSlot) (expected_revision : Z) (next_slot : PanelSlot)
    (db : PanelDB) : AppResult (PanelDB * bool) :=
  let? next := encode_revision (ps_revision next_slot) in
  let? expected := encode_revision expected_revision in
  match update_slot slot expected (sl_replace now next_slot next) db with
  | Some db => Ok (db, true)
  | None => Ok (db, false)
  end.

(** [revision + 1] in SQL; nothing calls this at the last revision. *)
Definition cas_update_slot (now panel_id : string) (expected_revision : Z) (new_kind : PanelKind) (expires_at_unix : Z)
    (db : PanelDB) : AppResult (PanelDB * bool) :=
  let? expected := encode_revision expected_revision in
  match panel_slots db !! panel_id with
  | Some r =>
      if (sl_revision r =? expected)%Z && is_active r
      then Ok (set_slots <[panel_id := MkSlotRow (sl_account_id r) (sl_numeric_bot_id r) (sl_chat_id r) (sl_message_id r)
                 (kind_json new_kind) (sl_revision r + 1) (sl_active r) expires_at_unix (sl_created_at r) now]> db, true)
      else Ok (db, false)
  | None => Ok (db, false)
  end.

Definition retire_slot (now panel_id : string) : PanelDB -> PanelDB := set_slots (alter (deactivate now) panel_id).

Definition set_slot_message_id (now panel_id : string) (message_id : Z) : PanelDB -> PanelDB :=
  set_slots (alter (λ r, MkSlotRow (sl_account_id r) (sl_numeric_bot_id r) (sl_chat_id r) message_id (sl_kind r)
                           (sl_revision r) (sl_active r) (sl_expires_at_unix r) (sl_created_at r) now) panel_id).
End PanelStore.

(** The methods kept for old callers, which all refuse. *)
Definition turn_scope_required (message : string) : AppError := conflict "TELEGRAM_TURN_SCOPE_REQUIRED" message.
Definition record_turn_message : AppResult unit :=
  Err (turn_scope_required "Telegram turn ledger writes require a complete scope").
Definition update_turn_message : AppResult bool :=
  Err (turn_scope_required "Telegram turn ledger updates require a complete scope").
Definition find_turn_messages : AppResult (list (Z * Z * string)) :=
  Err (turn_scope_required "Telegram turn ledger queries require a complete scope").
Definition mark_turn_message_status : AppResult unit :=
  Err (turn_scope_required "Telegram turn status updates require a complete scope").

(** ** Confirmed edits *)

Record ConfirmedEdit := MkConfirmedEdit { ce_effect_id : string; ce_panel_id : string; ce_revision : Z }.

(** The tables and the edits confirmed so far, the latest first. *)
Record PanelSys := MkPanelSys { py_db : PanelDB; py_log : list ConfirmedEdit }.

Definition is_replace_row (r : EffectRow) : bool := ef_effect_type r =?= "replace".

Section Edits.
Context (kind_json : PanelKind -> string) (kind_of_json : string -> option PanelKind)
  (claim_json : Z -> PanelSlot -> PanelSlot -> TelegramPanel -> string).

(** The writes to the two tables.  A new slot has a fresh id; the next revision of
    an edit is the one [plan_effect] gives; the callback store leaves the rows of
    the type [replace] alone. *)
Inductive panel_step : PanelSys -> PanelSys -> Prop :=
| py_save s now slot db :
    panel_slots (py_db s) !! ps_panel_id slot = None ->
    save_slot kind_json now slot (py_db s) = Ok db ->
    panel_step s (MkPanelSys db (py_log s))
| py_claim s now effect_id slot expected panel next db out :
    claim_panel_revision claim_json now effect_id slot expected panel next (py_db s) = Ok (db, out) ->
    panel_step s (MkPanelSys db (py_log s))
| py_mark s now effect_id slot expected status db :
    mark_panel_revision_status now effect_id slot expected status (py_db s) = Ok db ->
    status = "sending" \/ status = "sent" \/ status = "failed" ->
    panel_step s (MkPanelSys db (py_log s))
| py_complete s now effect_id slot expected next db :
    ps_revision next = saturating_succ expected ->
    complete_panel_replace kind_json now effect_id slot expected next (py_db s) = Ok db ->
    panel_step s (MkPanelSys db (MkConfirmedEdit effect_id (ps_panel_id slot) expected :: py_log s))
| py_cas_scoped s now slot expected next db changed :
    ps_revision next = saturating_succ expected ->
    cas_update_slot_scoped kind_json now slot expected next (py_db s) = Ok (db, changed) ->
    panel_step s (MkPanelSys db (py_log s))
| py_cas s now panel_id expected kind expires db changed :
    cas_update_slot kind_json now panel_id expected kind expires (py_db s) = Ok (db, changed) ->
    panel_step s (MkPanelSys db (py_log s))
| py_retire s now panel_id : panel_step s (MkPanelSys (retire_slot now panel_id (py_db s)) (py_log s))
| py_message s now panel_id message_id :
    panel_step s (MkPanelSys (set_slot_message_id now panel_id message_id (py_db s)) (py_log s))
| py_callbacks s t :
    (forall id, (exists r, panel_effects (py_db s) !! id = Some r /\ is_replace_row r = true)
                -> t !! id = panel_effects (py_db s) !! id) ->
    panel_step s (MkPanelSys (set_effects t (py_db s)) (py_log s)).

Definition panel_init : PanelSys := MkPanelSys (MkPanelDB ∅ ∅) [].

(** One active panel per bot and chat. *)
Definition one_active (slots : gmap string SlotRow) : Prop :=
  forall i j r q, slots !! i = Some r -> slots !! j = Some q -> is_active r = true -> is_active q = true ->
    sl_numeric_bot_id r = sl_numeric_bot_id q -> sl_chat_id r = sl_chat_id q -> i = j.

(** The slot of a confirmed edit has moved on, and its effect is sent. *)
Definition edit_past (db : PanelDB) (e : ConfirmedEdit) : Prop :=
  (exists r, panel_slots db !! ce_panel_id e = Some r /\ (ce_revision e < sl_revision r)%Z)
  /\ (exists r, panel_effects db !! ce_effect_id e = Some r /\ is_replace_row r = true /\ ef_status r = "sent").

Record panel_ok (s : PanelSys) : Prop := {
  po_active : one_active (panel_slots (py_db s));
  po_past : Forall (edit_past (py_db s)) (py_log s);
  po_revisions : NoDup (map (λ e, (ce_panel_id e, ce_revision e)) (py_log s));
  po_effects : NoDup (map ce_effect_id (py_log s));
}.

(** Slots keep their identity and only move forward. *)
Definition slot_le (r q : SlotRow) : Prop :=
  sl_numeric_bot_id q = sl_numeric_bot_id r /\ sl_chat_id q = sl_chat_id r /\ (sl_revision r <= sl_revision q)%Z
  /\ (is_active q = true -> is_active r = true).

#[local] Instance slot_le_refl : Reflexive slot_le.
Proof. intros r. by split_and!. Qed.

Definition slots_le (a b : gmap string SlotRow) : Prop :=
  forall id, (forall r, a !! id = Some r -> exists q, b !! id = Some q /\ slot_le r q).

(** No slot appears. *)
Definition slots_same (a b : gmap string SlotRow) : Prop :=
  slots_le a b /\ (forall id, a !! id = None -> b !! id = None).

Definition sent_kept (a b : Effects) : Prop :=
  forall id r, a !! id = Some r -> is_replace_row r = true -> ef_status r = "sent" ->
    exists q, b !! id = Some q /\ is_replace_row q = true /\ ef_status q = "sent".

Lemma edit_past_kept db db' e :
  slots_le (panel_slots db) (panel_slots db') -> sent_kept (panel_effects db) (panel_effects db') ->
  edit_past db e -> edit_past db' e.
Proof.
  intros Hs He [(r & Hr & Hlt) (f & Hf & Hrep & Hst)]. split.
  - destruct (Hs _ _ Hr) as (q & Hq & _ & _ & Hle & _). exists q. split; [done | lia].
  - eauto.
Qed.

Lemma one_active_kept a b : slots_same a b -> one_active a -> one_active b.
Proof.
  intros [Hle Hno] Ha i j r q Hi Hj Hr Hq Hb Hc.
  destruct (a !! i) as [r0|] eqn:Hi0; [| rewrite Hno in Hi; done].
  destruct (a !! j) as [q0|] eqn:Hj0; [| rewrite Hno in Hj; done].
  destruct (Hle _ _ Hi0) as (r1 & Hr1 & Hb1 & Hc1 & _ & Ha1), (Hle _ _ Hj0) as (q1 & Hq1 & Hb2 & Hc2 & _ & Ha2).
  simplify_eq. apply (Ha i j r0 q0); auto; congruence.
Qed.

Lemma slots_same_refl a : slots_same a a.
Proof. split; [intros id r Hr; exists r; by split | done]. Qed.

Lemma slots_same_insert a id r q : a !! id = Some r -> slot_le r q -> slots_same a (<[id := q]> a).
Proof.
  intros Hr Hle. split.
  - intros i p Hp. destruct (decide (i = id)) as [->|Hne].
    + simplify_eq. exists q. by rewrite lookup_insert_eq.
    + exists p. by rewrite lookup_insert_ne.
  - intros i Hi. rewrite lookup_insert_ne; [done |]. by intros ->; rewrite Hr in Hi.
Qed.

Lemma slots_same_alter a id f : (forall r, slot_le r (f r)) -> slots_same a (alter f id a).
Proof.
  intros Hf. split.
  - intros i r Hr. destruct (decide (i = id)) as [->|Hne].
    + rewrite lookup_alter_eq, Hr. simpl. eauto.
    + rewrite lookup_alter_ne by done. by exists r.
  - intros i Hi. apply lookup_alter_None. done.
Qed.

Lemma sent_kept_refl a : sent_kept a a.
Proof. intros id r ??. eauto. Qed.

(** A write to a row that is not sent, or to a new one. *)
Lemma sent_kept_insert a id q :
  (forall r, a !! id = Some r -> is_replace_row r = true -> ef_status r <> "sent") -> sent_kept a (<[id := q]> a).
Proof.
  intros Hn i r Hi Hrep Hs. destruct (decide (i = id)) as [->|Hne]; [by destruct (Hn r) |].
  exists r. by rewrite lookup_insert_ne.
Qed.

(** The common case: nothing is confirmed. *)
Lemma panel_ok_quiet s db :
  slots_same (panel_slots (py_db s)) (panel_slots db) -> sent_kept (panel_effects (py_db s)) (panel_effects db) ->
  panel_ok s -> panel_ok (MkPanelSys db (py_log s)).
Proof.
  intros Hs He []. constructor; simpl; try done; [by eapply one_active_kept |].
  eapply Forall_impl; [done |]. intros e. apply edit_past_kept; [apply Hs | done].
Qed.

Lemma deactivate_le now r : slot_le r (deactivate now r).
Proof. by split_and!. Qed.

Lemma encode_revision_Ok z y : encode_revision z = Ok y -> y = z /\ (z < 2 ^ 63)%Z.
Proof. unfold encode_revision. destruct (z <? 2 ^ 63)%Z eqn:E; [| done]. intros [= <-]. by apply Z.ltb_lt in E. Qed.

Lemma is_slot_at_inv slot rev r : is_slot_at slot rev r = true -> sl_revision r = rev /\ is_active r = true.
Proof. unfold is_slot_at. rewrite !andb_true_iff. intros H. destruct_and!. split; [lia | done]. Qed.

Lemma update_slot_Some slot expected f db db' :
  update_slot slot expected f db = Some db' ->
  exists r, panel_slots db !! ps_panel_id slot = Some r /\ sl_revision r = expected
    /\ db' = set_slots <[ps_panel_id slot := f r]> db.
Proof.
  unfold update_slot. destruct (panel_slots db !! _) as [r|] eqn:Hr; [| done].
  destruct (is_slot_at _ _ _) eqn:Ha; [| done]. intros [= <-]. apply is_slot_at_inv in Ha as [<- _]. eauto.
Qed.

Lemma is_replace_inv id slot expected status r :
  is_replace id slot expected status r = true -> is_replace_row r = true /\ ef_status r = status.
Proof. unfold is_replace, is_replace_row. rewrite !andb_true_iff, !bool_decide_eq_true. intros H. by destruct_and!. Qed.

Lemma sl_replace_le now next rev r : (sl_revision r <= rev)%Z -> slot_le r (sl_replace kind_json now next rev r).
Proof. intros Hle. by split_and!. Qed.

Lemma succ_revision expected r : ps_revision r = saturating_succ expected -> (ps_revision r < 2 ^ 63)%Z ->
  ps_revision r = (expected + 1)%Z.
Proof. unfold saturating_succ. lia. Qed.

Lemma save_preserves s now slot db :
  panel_slots (py_db s) !! ps_panel_id slot = None -> save_slot kind_json now slot (py_db s) = Ok db ->
  panel_ok s -> panel_ok (MkPanelSys db (py_log s)).
Proof.
  intros Hnone. unfold save_slot. set (slots := if ps_active slot then _ else _).
  assert (slots_same (panel_slots (py_db s)) slots) as Hsame.
  { subst slots. destruct (ps_active slot); [| apply slots_same_refl]. split.
    - intros i r Hr. unfold deactivate_others. rewrite map_lookup_imap, Hr. simpl.
      eexists; split; [done |]. destruct (_ && _); [apply deactivate_le | done].
    - intros i Hi. unfold deactivate_others. by rewrite map_lookup_imap, Hi. }
  destruct (encode_revision _) as [rev|]; [| done]. destruct (_ && active_elsewhere _ _ _ _) eqn:Hel; [done |].
  intros [= <-] Hok. set (row := MkSlotRow _ _ _ _ _ _ _ _ _ _).
  assert (slots !! ps_panel_id slot = None) as Hn by by apply Hsame.
  assert (panel_ok (MkPanelSys (MkPanelDB slots (panel_effects (py_db s))) (py_log s))) as [].
  { apply panel_ok_quiet; [done | apply sent_kept_refl | done]. }
  assert (forall j q, slots !! j = Some q -> is_active row = true -> is_active q = true ->
            sl_numeric_bot_id row = sl_numeric_bot_id q -> sl_chat_id row = sl_chat_id q -> False) as Hfresh.
  { intros j q Hj Ha Hq Hb Hc. subst row. unfold is_active in Ha. simpl in Ha, Hb, Hc.
    destruct (ps_active slot); [| done]. simpl in Hel. apply bool_decide_eq_false in Hel. apply Hel.
    apply Exists_exists. exists (j, q). rewrite elem_of_map_to_list. simpl. split_and!; auto. congruence. }
  constructor; simpl; try done.
  - intros i j r q Hi Hj Hr Hq Hb Hc. apply lookup_insert_Some in Hi, Hj.
    destruct Hi as [[<- <-]|[Hni Hi]], Hj as [[<- <-]|[Hnj Hj]]; [done | | |].
    + exfalso. by eapply Hfresh.
    + exfalso. by eapply (Hfresh i r).
    + by eapply po_active0.
  - eapply Forall_impl; [done |]. intros e. apply edit_past_kept; [| apply sent_kept_refl].
    intros i r Hr. exists r. simpl in *. rewrite lookup_insert_ne; [done |]. intros <-. congruence.
Qed.

Lemma complete_preserves s now effect_id slot expected next db :
  ps_revision next = saturating_succ expected ->
  complete_panel_replace kind_json now effect_id slot expected next (py_db s) = Ok db ->
  panel_ok s -> panel_ok (MkPanelSys db (MkConfirmedEdit effect_id (ps_panel_id slot) expected :: py_log s)).
Proof.
  intros Hnext. unfold complete_panel_replace.
  destruct (encode_revision (ps_revision next)) as [n|] eqn:En; [| done].
  destruct (encode_revision expected) as [x|] eqn:Ex; [| done].
  apply encode_revision_Ok in En as [-> Hn], Ex as [-> Hx]. apply succ_revision in Hnext; [| done].
  destruct (ok_or (update_slot _ _ _ _) _) as [db1|] eqn:Hu; [| done].
  apply ok_or_Ok, update_slot_Some in Hu as (r & Hr & Hrev & ->).
  destruct (ok_or (update_effect _ _ _ _) _) as [t|] eqn:He; [| done].
  apply ok_or_Ok, update_effect_Some in He as (f & Hf & Hp & ->). simpl in Hf.
  apply is_replace_inv in Hp as [Hrep Hst]. intros [= <-] [].
  set (db' := set_effects _ _).
  assert (slots_same (panel_slots (py_db s)) (panel_slots db')) as Hs.
  { apply (slots_same_insert _ _ r); [done |]. apply sl_replace_le. lia. }
  assert (sent_kept (panel_effects (py_db s)) (panel_effects db')) as He.
  { apply sent_kept_insert. intros ? ? _. congruence. }
  assert (edit_past db' (MkConfirmedEdit effect_id (ps_panel_id slot) expected)) as Hpast.
  { split; simpl; eexists; rewrite lookup_insert_eq; split; [done | simpl; lia | done | done]. }
  constructor; simpl.
  - by eapply one_active_kept.
  - constructor; [done |]. eapply Forall_impl; [done |]. intros e. apply edit_past_kept; [apply Hs | done].
  - constructor; [| done]. rewrite list_elem_of_fmap. intros (e & [= Hp1 Hp2] & Hin).
    rewrite Forall_forall in po_past0. destruct (po_past0 _ Hin) as [(q & Hq & Hlt) _].
    rewrite <- Hp1, Hr in Hq. injection Hq as <-. lia.
  - constructor; [| done]. rewrite list_elem_of_fmap. intros (e & Heq & Hin).
    rewrite Forall_forall in po_past0. destruct (po_past0 _ Hin) as [_ (q & Hq & _ & Hsent)]. congruence.
Qed.

Lemma panel_step_preserves s s' : panel_step s s' -> panel_ok s -> panel_ok s'.
Proof.
  intros [s0 now slot db Hf Hs|s0 now id slot expected p next db out Hc|s0 now id slot expected status db Hm Hst
         |s0 now id slot expected next db Hn Hc|s0 now slot expected next db ch Hn Hc|s0 now pid expected k ex db ch Hc
         |s0 now pid|s0 now pid mid|s0 t Ht] Hok.
  - by eapply save_preserves.
  - revert Hc. unfold claim_panel_revision. destruct (encode_revision _); [| done].
    destruct (_ && _); [| intros [= <- _]; apply panel_ok_quiet; [apply slots_same_refl | apply sent_kept_refl | done]].
    destruct (insert_effect _ _ _) as [t|] eqn:Hi; [| done]. intros [= <- _].
    apply insert_effect_Ok in Hi as [Hno ->].
    apply panel_ok_quiet; [apply slots_same_refl | apply sent_kept_insert; congruence | done].
  - revert Hm. unfold mark_panel_revision_status. destruct (encode_revision _); [| done].
    destruct (ok_or _ _) as [t|] eqn:Hu; [| done]. intros [= <-].
    apply ok_or_Ok, update_effect_Some in Hu as (r & Hr & Hp & ->). apply is_replace_inv in Hp as [_ Hsr].
    apply panel_ok_quiet; [apply slots_same_refl | | done]. apply sent_kept_insert.
    intros q Hq _. simplify_eq. rewrite Hsr. by case_bool_decide.
  - by eapply complete_preserves.
  - revert Hc. unfold cas_update_slot_scoped.
    destruct (encode_revision (ps_revision next)) as [n|] eqn:En; [| done].
    destruct (encode_revision expected) as [x|] eqn:Ex; [| done].
    apply encode_revision_Ok in En as [-> Hlt], Ex as [-> _]. apply succ_revision in Hn; [| done].
    destruct (update_slot _ _ _ _) as [db1|] eqn:Hu; intros [= <- _].
    + apply update_slot_Some in Hu as (r & Hr & Hrev & ->).
      apply panel_ok_quiet; [| apply sent_kept_refl | done].
      apply (slots_same_insert _ _ r); [done |]. apply sl_replace_le. lia.
    + by destruct s0.
  - revert Hc. unfold cas_update_slot. destruct (encode_revision _); [| done].
    destruct (panel_slots (py_db s0) !! pid) as [r|] eqn:Hr; [| by intros [= <- _]; destruct s0].
    destruct (_ && _); intros [= <- _]; [| by destruct s0].
    apply panel_ok_quiet; [| apply sent_kept_refl | done].
    apply (slots_same_insert _ _ r); [done |]. split_and!; simpl; try done. lia.
  - apply panel_ok_quiet; [| apply sent_kept_refl | done]. apply slots_same_alter, deactivate_le.
  - apply panel_ok_quiet; [| apply sent_kept_refl | done]. apply slots_same_alter. intros r. by split_and!.
  - apply panel_ok_quiet; [apply slots_same_refl | | done]. intros id r Hr Hrep Hst. exists r. simpl.
    rewrite Ht; eauto.
Qed.

(** Panels are edited one revision at a time.  Whatever calls come in whatever
    order, a bot has at most one active panel in a chat; of the edits planned from
    one revision of a panel at most one is confirmed, and no edit is confirmed
    twice. *)
Theorem panel_edits_are_fenced s :
  rtc panel_step panel_init s ->
  one_active (panel_slots (py_db s))
  /\ NoDup (map (λ e, (ce_panel_id e, ce_revision e)) (py_log s))
  /\ NoDup (map ce_effect_id (py_log s))
  /\ Forall (λ e, exists r, panel_slots (py_db s) !! ce_panel_id e = Some r /\ (ce_revision e < sl_revision r)%Z) (py_log s).
Proof.
  intros Hr. assert (panel_ok s) as [].
  { remember panel_init as s0 eqn:E. assert (panel_ok s0) as Hok.
    { subst. constructor; simpl; try (by constructor). intros i j r q Hi. simpl in Hi. by rewrite lookup_empty in Hi. }
    clear E. induction Hr; [done |]. eauto using panel_step_preserves. }
  split_and!; try done. eapply Forall_impl; [done |]. by intros e [? _].
Qed.
End Edits.

(** ** A panel saved, edited and confirmed *)

Definition demo_slot (revision : Z) : PanelSlot := MkPanelSlot "p1" "acc" 42 5 100 PkHome revision true 0.
Definition demo_panel : TelegramPanel := MkTelegramPanel PkHelp 2 None "help" [] PlainText.

Lemma panel_edits_are_fenced_witness :
  exists s, rtc (panel_step (λ _, "home") (λ _ _ _ _, "claim")) panel_init s
    /\ py_log s = [MkConfirmedEdit "e1" "p1" 1]
    /\ one_active (panel_slots (py_db s))
    /\ NoDup (map (λ e, (ce_panel_id e, ce_revision e)) (py_log s)).
Proof.
  assert (exists s, rtc (panel_step (λ _, "home") (λ _ _ _ _, "claim")) panel_init s
    /\ py_log s = [MkConfirmedEdit "e1" "p1" 1]) as (s & Hr & Hl).
  { eexists. split.
    - eapply rtc_l; [eapply (py_save _ _ _ "t1" (demo_slot 1)); vm_compute; reflexivity |].
      eapply rtc_l; [eapply (py_claim _ _ _ "t2" "e1" (demo_slot 1) 1 demo_panel (demo_slot 2)); vm_compute; reflexivity |].
      eapply rtc_l; [eapply (py_mark _ _ _ "t3" "e1" (demo_slot 1) 1 "sending"); [vm_compute; reflexivity | by left] |].
      eapply rtc_l; [eapply (py_complete _ _ _ "t4" "e1" (demo_slot 1) 1 (demo_slot 2)); vm_compute; reflexivity |].
      apply rtc_refl.
    - reflexivity. }
  exists s. destruct (panel_edits_are_fenced _ _ s Hr) as (H1 & H2 & _). done.
Defined.
