(* ===== verification/ErrorEvents.v ===== *)
(** * Error events ([modules/bridge/error_events.rs], [latest_visible_error] and
    [last_error_summary])

    Errors that a chat saw are rows of [bridge_error_events]; the command /error
    shows the latest one of the user, the bot and the chat. *)

From S2P Require Import Prelude Text Errors ErrorRender OperationStore.
From Stdlib Require Import Lia.

Record ErrorEventRow := MkErrorEventRow {
  ee_operation_id : option string;
  ee_actor_id : option string;
  ee_bot_id : option string;
  ee_chat_id : option string;
  ee_telegram_update_id : option Z;
  ee_stage : string;
  ee_code : string;
  ee_safe_message : string;
  ee_safe_detail : option string;
  ee_upstream_http_status : option Z;
  ee_upstream_code : option string;
  ee_endpoint_class : option string;
  ee_retryable : Z;
  ee_commit_state : string;
  ee_attempt : Z;
  ee_duration_ms : option Z;
  ee_request_id : option string;
  ee_trace_id : option string;
  ee_created_at : string;
}.

(** The rows by id, and the last id given (AUTOINCREMENT). *)
Record ErrorEvents := MkErrorEvents { ev_rows : gmap Z ErrorEventRow; ev_last : Z }.

(** [value as i64] on a [u64]. *)
Definition wrap_i64 (x : Z) : Z := if (x <? 2 ^ 63)%Z then x else (x - 2 ^ 64)%Z.

Definition event_row (now : string) (error : StBridgeError) (actor_id bot_id chat_id : option string) (update_id : option Z)
  : ErrorEventRow :=
  MkErrorEventRow (e_operation_id error) actor_id bot_id chat_id update_id (as_str (e_stage error)) (as_str (e_code error))
    (e_safe_message error) (e_safe_detail error) (e_upstream_http_status error) (e_upstream_code error)
    (e_endpoint_class error) (if e_retryable error then 1 else 0) (as_str (e_commit_state error)) (e_attempt error)
    (wrap_i64 <$> e_duration_ms error) (Some (e_request_id error)) (Some (e_trace_id error)) now.

(** [operations] are the keys of [bridge_operations], which [operation_id]
    references. *)
Definition record (operations : gset string) (now : string) (error : StBridgeError) (actor_id bot_id chat_id : option string)
    (telegram_update_id : option Z) (t : ErrorEvents) : AppResult ErrorEvents :=
  if match e_operation_id error with Some id => bool_decide (id ∈ operations) | None => true end
  then Ok (MkErrorEvents (<[(ev_last t + 1)%Z := event_row now error actor_id bot_id chat_id telegram_update_id]> (ev_rows t))
             (ev_last t + 1))
  else Err database_error.

(** ORDER BY created_at DESC, id DESC. *)
Definition newer_event (a b : Z * ErrorEventRow) : bool :=
  text_lt (ee_created_at b.2) (ee_created_at a.2)
  || ((ee_created_at a.2 =?= ee_created_at b.2) && (b.1 <=? a.1)%Z).

Definition visible (actor_id bot_id chat_id : string) (r : ErrorEventRow) : bool :=
  (ee_actor_id r =?= Some actor_id) && (ee_bot_id r =?= Some bot_id) && (ee_chat_id r =?= Some chat_id).

Definition latest_visible_error (actor_id bot_id chat_id : string) (t : ErrorEvents) : option ErrorEventRow :=
  snd <$> head (sort_by newer_event
                  (filter (λ kr : Z * ErrorEventRow, visible actor_id bot_id chat_id kr.2 = true) (map_to_list (ev_rows t)))).

(** What a row says of the error; an unknown word becomes a default. *)
Definition error_of_row `{IdSource} (row : ErrorEventRow) : StBridgeError :=
  let error := StBridgeError_new (default StConnectFailed (parse (ee_code row))) (default StageControl (parse (ee_stage row)))
                 (ee_safe_message row) (negb (ee_retryable row =? 0)%Z) (default NotStarted (parse (ee_commit_state row))) in
  MkStBridgeError (e_code error) (e_stage error) (e_safe_message error) (ee_safe_detail row) (e_upstream_http_status error)
    (e_upstream_code error) (e_endpoint_class error) (e_retryable error) (e_commit_state error) (e_operation_id error)
    (default "" (ee_request_id row)) (default "" (ee_trace_id row)) (e_duration_ms error) (e_attempt error).

(** The text of /error. *)
Definition last_error_text `{IdSource} (actor_id bot_id chat_id : string) (t : ErrorEvents) : string :=
  match latest_visible_error actor_id bot_id chat_id t with
  | None => "当前会话没有可查看的错误记录。"
  | Some row => render (error_of_row row)
  end.

(** ** The latest error is shown as it was *)

Lemma alnum_upper_app n s t :
  String.length (alnum_upper n s) = n -> alnum_upper n (s +:+ t) = alnum_upper n s.
Proof.
  revert n. induction s as [|a s IH]; intros [|n]; try done; [by destruct t |].
  simpl. destruct (is_ascii_alphanumeric a); simpl; intros Hl; [f_equal; apply IH; lia | by apply IH].
Qed.

(** An element that comes before all others is first. *)
Lemma sort_by_head {A} (leb : A -> A -> bool) (x : A) (l : list A) :
  x ∈ l -> (forall y, y ∈ l -> y = x \/ (leb x y = true /\ leb y x = false)) -> head (sort_by leb l) = Some x.
Proof.
  induction l as [|y l IH]; intros Hin Hmax; [by apply elem_of_nil in Hin |]. simpl.
  assert (x ∈ l -> head (sort_by leb l) = Some x) as Hl.
  { intros Hxl. apply IH; [done |]. intros z Hz. apply Hmax. by right. }
  destruct (Hmax y (list_elem_of_here y l)) as [->|[Hxy Hyx]].
  - destruct (sort_by leb l) as [|h rest] eqn:Hs; simpl; [done |].
    assert (h ∈ l) as Hh by (rewrite <- (sort_by_elem leb), Hs; apply list_elem_of_here).
    destruct (Hmax h (list_elem_of_further _ _ _ Hh)) as [->|[Hxh _]]; [by destruct (leb x x) | by rewrite Hxh].
  - apply elem_of_cons in Hin as [->|Hin]; [congruence |].
    specialize (Hl Hin). destruct (sort_by leb l) as [|h rest]; simpl in *; [done |]. injection Hl as ->. by rewrite Hyx.
Qed.

Lemma recorded_is_latest operations now e actor bot chat update t t' :
  record operations now e (Some actor) (Some bot) (Some chat) update t = Ok t' ->
  (forall k r, ev_rows t !! k = Some r -> (k <= ev_last t)%Z /\ text_le (ee_created_at r) now = true) ->
  latest_visible_error actor bot chat t' = Some (event_row now e (Some actor) (Some bot) (Some chat) update).
Proof.
  unfold record. intros Hrec Hold. destruct (match e_operation_id e with Some _ => _ | None => _ end); [| done].
  injection Hrec as <-. unfold latest_visible_error. simpl.
  set (row := event_row now e _ _ _ update). set (k := (ev_last t + 1)%Z).
  rewrite (sort_by_head newer_event (k, row)); [done | |].
  - apply list_elem_of_filter. split.
    + unfold visible, row. simpl. by rewrite !bool_decide_eq_true_2.
    + apply elem_of_map_to_list, lookup_insert_eq.
  - intros [k' r'] Hin. apply list_elem_of_filter in Hin as [_ Hin%elem_of_map_to_list].
    destruct (decide (k' = k)) as [->|Hne]; [rewrite lookup_insert_eq in Hin; left; congruence |].
    rewrite lookup_insert_ne in Hin by done. destruct (Hold _ _ Hin) as [Hk Ht]. right.
    unfold newer_event. simpl. destruct (text_le_lt_eq _ _ Ht) as [Hlt|Heq].
    + rewrite Hlt. split; [done |]. rewrite (text_lt_asym _ _ Hlt). simpl. rewrite bool_decide_eq_false_2; [done |].
      intros Hq. rewrite Hq, text_lt_irrefl in Hlt. done.
    + rewrite Heq, !text_lt_irrefl, !bool_decide_eq_true_2 by done. simpl. lia.
Qed.

(** /error repeats the last failure.  An error recorded for a user, bot and chat is
    what the command shows there until another is, word for word as it was shown
    when it happened: code, stage, write state, explanation, whether a retry is
    safe, advice and trace number; given that the clock has not gone back and that
    the trace id has the twelve letters and digits the trace number takes. *)
Theorem recorded_error_is_shown `{IdSource} operations now e actor bot chat update t t' :
  record operations now e (Some actor) (Some bot) (Some chat) update t = Ok t' ->
  (forall k r, ev_rows t !! k = Some r -> (k <= ev_last t)%Z /\ text_le (ee_created_at r) now = true) ->
  String.length (alnum_upper 12 (e_trace_id e)) = 12 ->
  last_error_text actor bot chat t' = render e.
Proof.
  intros Hrec Hold Htrace. unfold last_error_text. rewrite (recorded_is_latest _ _ _ _ _ _ _ _ _ Hrec Hold).
  unfold error_of_row, event_row. simpl. rewrite !parse_as_str. simpl.
  assert (negb ((if e_retryable e then 1 else 0) =? 0)%Z = e_retryable e) as -> by by destruct (e_retryable e).
  unfold render, heading, advice, retry_action, short_trace_id. simpl.
  by rewrite !(alnum_upper_app 12 (e_trace_id e)) by done.
Qed.

Definition demo_error : StBridgeError :=
  MkStBridgeError StChatConflict StageCommit "changed" None None None None false NotApplied None "req" "0123456789ab" None 1.

Lemma recorded_error_is_shown_witness :
  exists t', record ∅ "t1" demo_error (Some "acc") (Some "bot") (Some "5") None (MkErrorEvents ∅ 0) = Ok t'
    /\ @last_error_text (Build_IdSource "r" "n") "acc" "bot" "5" t' = render demo_error.
Proof.
  eexists. split; [vm_compute; reflexivity |].
  eapply (recorded_error_is_shown ∅ "t1" demo_error "acc" "bot" "5" None (MkErrorEvents ∅ 0)).
  - vm_compute. reflexivity.
  - intros k r Hr. simpl in Hr. by rewrite lookup_empty in Hr.
  - vm_compute. reflexivity.
Defined.
