(* ===== verification/Dispatch.v ===== *)
(** * Commands and panels ([modules/telegram/dispatch.rs])

    What a message or a button of a bound user does: lists and selections through
    the bridge, panels and their edits, binding a user.  The commands that take
    back or regenerate a turn are in [Turns], the choice of the command and the
    processing of a whole update in [Updates].

    A handler is a function on the state of the program: the tables and requests of
    the delivery, the database of the bridge with the calls made to SillyTavern,
    panels with their effects, the registry of rendered panels, bindings,
    identities, bots and error events.  What is read of the rest of the program at
    a time is a [Look], by the number of looks so far.  Texts of values, clocks and
    random draws are a [Host]. *)

From S2P Require Import Prelude Text Errors StDomain Operations OperationStore PollerOwnership Journal Vault Program OperationPayload Coordinator ChannelContext StOps Engine BindCodes Identity TelegramInbox TelegramRuntime DeliveryQueue TelegramText Delivery Callback Panel PanelStore Readiness ErrorRender ErrorEvents.
From stdpp Require Import pretty.

(** ** State *)

Class Host := {
  fresh_id : nat -> string;
  random_hex : nat -> string;
  now_text : Z -> string;
  unix_of : Z -> Z;
  retry_text : Z -> Z -> option string;
  print_binding : CallbackBinding -> string;
  read_binding : string -> option CallbackBinding;
  print_action : CallbackAction -> string;
  kind_json : PanelKind -> string;
  kind_of_json : string -> option PanelKind;
  claim_json : Z -> PanelSlot -> PanelSlot -> TelegramPanel -> string;
  keyboard_json : Keyboard -> string;
  first_key : gmap string TelegramPanel -> option string;
  bind_code_hmac : string -> string;
  to_uppercase : string -> string;
}.

Record DState := MkDState {
  ds_delivery : Delivery.World;
  ds_bridge : Program.World;
  ds_panels : PanelDB;
  ds_registry : gmap string TelegramPanel;
  ds_bind : BindDB;
  ds_identity : IdentityDB;
  ds_bots : gmap string TelegramBot;
  ds_errors : ErrorEvents;
  ds_look : nat;
}.

Definition set_delivery (w : Delivery.World) (s : DState) : DState :=
  MkDState w (ds_bridge s) (ds_panels s) (ds_registry s) (ds_bind s) (ds_identity s) (ds_bots s) (ds_errors s) (ds_look s).
Definition set_panels (p : PanelDB) (s : DState) : DState :=
  MkDState (ds_delivery s) (ds_bridge s) p (ds_registry s) (ds_bind s) (ds_identity s) (ds_bots s) (ds_errors s) (ds_look s).
Definition set_registry_of (r : gmap string TelegramPanel) (s : DState) : DState :=
  MkDState (ds_delivery s) (ds_bridge s) (ds_panels s) r (ds_bind s) (ds_identity s) (ds_bots s) (ds_errors s) (ds_look s).
Definition set_bind (b : BindDB) (s : DState) : DState :=
  MkDState (ds_delivery s) (ds_bridge s) (ds_panels s) (ds_registry s) b (ds_identity s) (ds_bots s) (ds_errors s) (ds_look s).
Definition set_errors (e : ErrorEvents) (s : DState) : DState :=
  MkDState (ds_delivery s) (ds_bridge s) (ds_panels s) (ds_registry s) (ds_bind s) (ds_identity s) (ds_bots s) e (ds_look s).
Definition looked (s : DState) : DState :=
  MkDState (ds_delivery s) (ds_bridge s) (ds_panels s) (ds_registry s) (ds_bind s) (ds_identity s) (ds_bots s) (ds_errors s)
    (S (ds_look s)).

(** The bridge's tables and the delivery's foreign key on them. *)
Definition set_bridge (w : Program.World) (s : DState) : DState :=
  let known (t : Tables) :=
    MkTables (channel_deliveries t) (telegram_turn_messages t) (last_turn_message t) (telegram_turn_targets t)
      (delivery_bots t) (dom (bridge_operations (w_db w))) in
  MkDState (set_tables known (ds_delivery s)) w (ds_panels s) (ds_registry s) (ds_bind s) (ds_identity s) (ds_bots s)
    (ds_errors s) (ds_look s).

(** What is read from elsewhere at a moment. *)
Record Look := MkLook {
  lk_numeric_bot_id : option Z;
  lk_runtime_status : string;
  lk_engine : EngineReads;
  lk_deltas : list string;     (* of the reply, as the backend streams it *)
}.

Record TelegramServices := MkTelegramServices { sv_bridge : option SidecarBridgeEngine }.

(** ** Handlers: state passing with early return; [None] when one never returns *)

Definition D (A : Type) : Type := DState -> DState * option (AppResult A).

Definition ok_d {A} (a : A) : D A := λ s, (s, Some (Ok a)).
Definition err_d {A} (e : AppError) : D A := λ s, (s, Some (Err e)).
Definition lift_d {A} (r : AppResult A) : D A := λ s, (s, Some r).

Definition dresult {A B} (m : D A) (k : AppResult A -> D B) : D B :=
  λ s, match m s with (s, Some r) => k r s | (s, None) => (s, None) end.

Definition dbind {A B} (m : D A) (k : A -> D B) : D B :=
  dresult m (λ r, match r with Ok a => k a | Err e => err_d e end).

Notation "'do!' x ':=' m 'in' k" := (dbind m (λ x, k))
  (at level 10, x pattern, m at level 200, k at level 200) : bridge_scope.

Definition of_delivery {A} (m : M A) : D A := λ s, let '(w, r) := m (ds_delivery s) in (set_delivery w s, r).

(** One statement or transaction on the panels; an error leaves them as they were. *)
Definition of_panels {A} (f : PanelDB -> AppResult (PanelDB * A)) : D A := λ s,
  match f (ds_panels s) with
  | Ok (p, a) => (set_panels p s, Some (Ok a))
  | Err e => (s, Some (Err e))
  end.

Definition on_panels (f : PanelDB -> AppResult PanelDB) : D unit := of_panels (λ p, let? p := f p in Ok (p, tt)).
Definition on_effects (f : Effects -> AppResult Effects) : D unit :=
  on_panels (λ p, let? t := f (panel_effects p) in Ok (set_effects t p)).

(** ** Replies *)

Inductive GenerationKind : Set := GkSend | GkRedo | GkCompress.

#[export] Instance GenerationKind_eq_dec : EqDecision GenerationKind.
Proof. solve_decision. Defined.

Record GenerationIntent := MkGenerationIntent {
  gi_kind : GenerationKind;
  gi_conversation_id : string;
  gi_context_key : string;
  gi_user_text : option string;
}.

Record TelegramReply := MkTelegramReply {
  tr_text : string;
  tr_markup : option Value;
  tr_generation : option GenerationIntent;
}.

Definition text_reply (text : string) : TelegramReply := MkTelegramReply text None None.

Notation Replies := (list TelegramReply).

(** [u64] and [i64] as text. *)
Definition context_key_of (bot_id : string) (chat_id : Z) : string := bot_id +:+ ":" +:+ pretty chat_id.

Definition model_override_kind (purpose : ModelPurpose) : ModelOverrideKind :=
  match purpose with PurposeChat => ForChat | PurposeCompression => ForCompression end.

(** The [BTreeMap] of models by provider, as an association list in key order. *)
Definition provider_of (model : StModelSummary) : string :=
  default "未分类" (match ms_owned_by model with Some v => if is_blank v then None else Some v | None => None end).

Fixpoint push_model (key : string) (model : StModelSummary) (m : list (string * list StModelSummary))
  : list (string * list StModelSummary) :=
  match m with
  | [] => [(key, [model])]
  | (k, models) :: rest =>
      if key =?= k then (k, models ++ [model]) :: rest
      else if text_lt key k then (key, [model]) :: m
      else (k, models) :: push_model key model rest
  end.

Definition grouped_model_catalog (catalog : StModelCatalog) : list (string * list StModelSummary) :=
  foldl (λ m model, push_model (provider_of model) model m) [] (mc_models catalog).

Definition group_of (grouped : list (string * list StModelSummary)) (key : string) : option (list StModelSummary) :=
  snd <$> find (λ kv : string * list StModelSummary, kv.1 =?= key) grouped.

Definition resolve_provider_key (grouped : list (string * list StModelSummary)) (token : string) : option string :=
  if bool_decide (is_Some (group_of grouped token)) then Some token else None.

Definition character_not_selected : AppError :=
  bad_request "CHARACTER_NOT_SELECTED" "当前还没有选择角色。请先使用 /chars。".

Definition st_locator_from_context (context : StChannelLocator) : AppResult StChatLocator :=
  let? avatar := ok_or (cl_avatar context) character_not_selected in
  let? chat_file := ok_or (cl_chat_file context)
    (bad_request "SESSION_NOT_SELECTED" "当前没有绑定角色和会话。请先使用 /chars。") in
  Ok {| loc_handle := default "default-user" (cl_handle context); loc_avatar := avatar;
        loc_character_name := default "" (cl_character_name context); loc_chat_file := chat_file |}.

(** [items.get(page * PAGE_SIZE + index)]; pages are those of buttons the program
    made, so the sum stays far below [usize::MAX]. *)
Definition item_at {A} (items : list A) (index : Z) : option A :=
  if (index <? Z.of_nat (length items))%Z then items !! Z.to_nat index else None.

Section Dispatch.
Context `{IdSource} `{Redactor} `{Codecs} `{Aead} `{SecretVault} `{Host}.
Context (E : Env) (looks : nat -> Look).

(** A look at what is elsewhere. *)
Definition take_look : D Look := λ s, (looked s, Some (Ok (looks (ds_look s)))).
Definition numeric_bot_id_d : D (option Z) := do! l := take_look in ok_d (lk_numeric_bot_id l).

(** A program of the bridge. *)
Definition run_bridge {A} (p : EngineReads -> Prog A) : D A := λ s,
  let '(w, a) := exec_prog E (p (lk_engine (looks (ds_look s)))) (ds_bridge s) in
  (looked (set_bridge w s), Some (Ok a)).

(** [.await.map_err(st_err)?] *)
Definition bridge_st {A} (p : EngineReads -> Prog (StResult A)) : D A :=
  do! r := run_bridge p in lift_d (map_err from_st r).

Definition channel_read {A} (f : DB -> A) : D A := run_bridge (λ _, db_read f).

Definition draw : D nat := λ s, let w := ds_delivery s in
  (set_delivery (MkWorld (w_tables w) (w_queue w) (w_clock w) (w_requests w) (w_replies w) (S (w_ids w)) (w_past w)) s,
   Some (Ok (w_ids w))).
Definition new_id_d : D string := do! n := draw in ok_d (fresh_id n).
Definition clock : D Z := λ s, (s, Some (Ok (w_clock (ds_delivery s)))).
Definition now_d : D string := do! c := clock in ok_d (now_text c).
Definition unix_d : D Z := do! c := clock in ok_d (unix_of c).

(** ** Panels as messages ([delivery.rs]) *)

Definition parse_mode_name (mode : PanelParseMode) : option string :=
  match mode with PlainText => None | MarkdownV2 => Some "MarkdownV2" end.

Definition panel_markup : Keyboard -> Value := keyboard_markup.

Definition parse_mode_field (p : TelegramPanel) : list (string * Value) :=
  match parse_mode_name (tp_parse_mode p) with Some mode => [("parse_mode", JString mode)] | None => [] end.

Definition send_panel (self : TelegramDelivery) (chat_id : Z) (p : TelegramPanel) : M Z :=
  let! result := Delivery.call self "sendMessage"
    (JObject ([("chat_id", json_i64 chat_id); ("text", JString (tp_text p))] ++ parse_mode_field p
              ++ match tp_keyboard p with [] => [] | k => [("reply_markup", panel_markup k)] end)) in
  lift_m (ok_or (pointer ["message_id"] result ≫= value_as_i64)
            (bad_gateway "TELEGRAM_RESPONSE_INVALID" "sendMessage returned no message_id")).

Definition edit_panel (self : TelegramDelivery) (chat_id message_id : Z) (p : TelegramPanel) : M unit :=
  mresult (Delivery.call self "editMessageText"
    (JObject ([("chat_id", json_i64 chat_id); ("message_id", json_i64 message_id); ("text", JString (tp_text p));
               ("reply_markup", panel_markup (tp_keyboard p))] ++ parse_mode_field p)))
    (λ r, match r with
          | Ok _ => ok_m tt
          | Err e => if contains (a_message e) "message is not modified" then ok_m tt else err_m e
          end).

Definition clear_reply_markup (self : TelegramDelivery) (chat_id message_id : Z) : M unit :=
  let! _ := Delivery.call self "editMessageReplyMarkup"
    (JObject [("chat_id", json_i64 chat_id); ("message_id", json_i64 message_id);
              ("reply_markup", JObject [("inline_keyboard", JArray [])])]) in
  ok_m tt.

Definition answer_callback_query (self : TelegramDelivery) (callback_query_id : string) (text : option string)
    (show_alert : bool) : M unit :=
  let! _ := Delivery.call self "answerCallbackQuery"
    (JObject ([("callback_query_id", JString callback_query_id); ("show_alert", JBool show_alert)]
              ++ match text with Some t => [("text", JString t)] | None => [] end)) in
  ok_m tt.

Definition execute_panel_effect (self : TelegramDelivery) (effect : PanelEffect) : M (option Z) :=
  match effect with
  | PeCreate _ chat_id p => let! id := send_panel self chat_id p in ok_m (Some id)
  | PeReplace slot _ p =>
      let! _ := edit_panel self (ps_chat_id slot) (ps_message_id slot) p in ok_m (Some (ps_message_id slot))
  | PeToast _ _ _ => ok_m None
  | PeRetireKeyboard slot =>
      let! _ := clear_reply_markup self (ps_chat_id slot) (ps_message_id slot) in ok_m (Some (ps_message_id slot))
  | PeDeleteChunk chat_id message_id _ => let! _ := delete_message_in_chat self chat_id message_id in ok_m None
  | PeFallbackSend _ p _ => let! id := send_panel self (td_chat_id self) p in ok_m (Some id)
  end.

(** ** Buttons *)

(** Give a token to a button whose text is an action; leave another as it is. *)
Definition bind_button (account_id user_id bot_id : string) (numeric_bot_id chat_id : Z) (panel_id : string)
    (message_id panel_revision : Z) (catalog_revision : option string) (b : InlineButton) : D InlineButton :=
  match decode_stored_action (ib_callback_data b) with
  | Err _ => ok_d b
  | Ok action =>
      do! unix := unix_d in
      do! nonce := new_id_d in
      do! now := now_d in
      do! raw := draw in
      do! token := of_panels (λ p,
        let? (t, token) := issue sha256_hex print_binding now (random_hex raw)
          (MkCallbackBinding account_id bot_id numeric_bot_id chat_id user_id panel_id message_id panel_revision
             catalog_revision (unix + 600) action nonce) (panel_effects p) in
        Ok (set_effects t p, token)) in
      ok_d (MkInlineButton (ib_label b) token)
  end.

Fixpoint dmap {A B} (f : A -> D B) (l : list A) : D (list B) :=
  match l with
  | [] => ok_d []
  | x :: l => do! y := f x in do! ys := dmap f l in ok_d (y :: ys)
  end.

Definition remember (p : TelegramPanel) : D unit := λ s,
  (set_registry_of (remember_panel keyboard_json first_key p (ds_registry s)) s, Some (Ok tt)).

Definition bind_panel_callbacks (p : TelegramPanel) (account_id user_id bot_id : string) (numeric_bot_id chat_id : Z)
    (panel_id : string) (message_id panel_revision : Z) : D TelegramPanel :=
  do! keyboard := dmap (dmap (bind_button account_id user_id bot_id numeric_bot_id chat_id panel_id message_id panel_revision
                                (tp_catalog_revision p))) (tp_keyboard p) in
  let bound := with_keyboard keyboard p in
  do! _ := remember bound in
  ok_d bound.

Definition panel_reply (p : TelegramPanel) : D TelegramReply :=
  do! _ := remember p in
  ok_d (MkTelegramReply (tp_text p) (Some (keyboard_markup (tp_keyboard p))) None).

Definition one_panel (p : TelegramPanel) : D Replies := do! r := panel_reply p in ok_d [r].

Definition lookup_d (text : string) (keyboard : Keyboard) : D (option TelegramPanel) := λ s,
  (s, Some (Ok (lookup_panel keyboard_json text keyboard (ds_registry s)))).

(** ** The bridge *)

Definition not_ready_error : AppError :=
  from_st (StBridgeError_new StWriteNotReady StageControl ST_WRITE_NOT_READY_MESSAGE false NotStarted).

Definition require_bridge (services : TelegramServices) (context_key : string) : AppResult SidecarBridgeEngine :=
  ok_or (with_context_key context_key <$> sv_bridge services) not_ready_error.

Definition query_bridge (services : TelegramServices) (actor : Actor) (context_key : string) (q : StBridgeQuery) : D StBridgeView :=
  do! engine := lift_d (require_bridge services context_key) in
  bridge_st (λ rd, query engine rd actor q).

Definition execute_bridge (services : TelegramServices) (actor : Actor) (context_key : string) (command : StBridgeCommand)
  : D StBridgeOutcome :=
  do! engine := lift_d (require_bridge services context_key) in
  bridge_st (λ rd, execute engine rd actor command).

Definition catalog_error (code : StErrorCode) (message : string) : AppError :=
  from_st (StBridgeError_new code StageCatalog message false NotStarted).

Definition load_context (actor : Actor) (context_key : string) : D StChannelLocator :=
  channel_read (load (acc_id (act_account actor)) context_key).

(** ** Lists and selections *)

Definition settings_panel (services : TelegramServices) (actor : Actor) (context_key : string) : D Replies :=
  do! view := query_bridge services actor context_key GetModels in
  let '(chat, comp) := match view with ViewModels _ chat comp => (chat, comp) | _ => (None, None) end in
  one_panel (render_settings chat comp).

Definition recent_panel (actor : Actor) (page : Z) : D Replies :=
  do! items := channel_read (list_recent (acc_id (act_account actor)) 64) in
  one_panel (render_recent items page).

Definition recent_conversations (actor : Actor) : D Replies := recent_panel actor 0.

Definition list_provider_models (services : TelegramServices) (actor : Actor) (context_key : string) (purpose : ModelPurpose)
    (provider_key : string) (page : Z) : D Replies :=
  do! view := query_bridge services actor context_key GetModels in
  match view with
  | ViewModels catalog override_chat override_compression =>
      let grouped := grouped_model_catalog catalog in
      match resolve_provider_key grouped provider_key with
      | None => ok_d [text_reply "厂商选择已失效，请重新打开模型面板。"]
      | Some key =>
          let models := default [] (group_of grouped key) in
          let current := match purpose with PurposeChat => override_chat | PurposeCompression => override_compression end in
          one_panel (render_provider_models purpose key models current page
                       (total_pages (Z.of_nat (length models)) PAGE_SIZE))
      end
  | _ => ok_d []
  end.

Definition set_override (services : TelegramServices) (actor : Actor) (context_key : string) (purpose : ModelPurpose)
    (model_id : option string) : D StBridgeOutcome :=
  execute_bridge services actor context_key (SetModelOverrideCmd (model_override_kind purpose) model_id).

Definition select_provider_model (services : TelegramServices) (actor : Actor) (context_key : string) (purpose : ModelPurpose)
    (provider_key : string) (model_index : Z) : D Replies :=
  do! view := query_bridge services actor context_key GetModels in
  match view with
  | ViewModels catalog _ _ =>
      let grouped := grouped_model_catalog catalog in
      match resolve_provider_key grouped provider_key with
      | None => ok_d [text_reply "厂商选择已失效，请重新打开模型面板。"]
      | Some key =>
          match group_of grouped key ≫= (λ models, item_at models model_index) with
          | None => ok_d [text_reply "模型选择已失效，请重新打开模型面板。"]
          | Some model =>
              do! _ := set_override services actor context_key purpose (Some (ms_id model)) in
              list_provider_models services actor context_key purpose key 0
          end
      end
  | _ => ok_d []
  end.

Definition select_provider_model_by_id (services : TelegramServices) (actor : Actor) (context_key : string)
    (purpose : ModelPurpose) (provider_key model_id : string) : D Replies :=
  do! view := query_bridge services actor context_key GetModels in
  match view with
  | ViewModels catalog _ _ =>
      match group_of (grouped_model_catalog catalog) provider_key with
      | None => ok_d [text_reply "厂商选择已失效，请重新打开模型面板。"]
      | Some models =>
          match find (λ model, ms_id model =?= model_id) models with
          | None => ok_d [text_reply "模型选择已失效，请重新打开模型面板。"]
          | Some model =>
              do! _ := set_override services actor context_key purpose (Some (ms_id model)) in
              list_provider_models services actor context_key purpose provider_key 0
          end
      end
  | _ => ok_d []
  end.

Definition list_models (services : TelegramServices) (actor : Actor) (context_key purpose : string) (page : Z) : D Replies :=
  do! view := query_bridge services actor context_key GetModels in
  match view with
  | ViewModels catalog _ _ =>
      let purpose := if (purpose =?= "compression") || (purpose =?= "comp") then PurposeCompression else PurposeChat in
      let providers := fst <$> grouped_model_catalog catalog in
      one_panel (render_providers purpose providers page (total_pages (Z.of_nat (length providers)) PAGE_SIZE))
  | _ => err_d (catalog_error StSettingsInvalid "model catalog unavailable")
  end.

Definition select_model (services : TelegramServices) (actor : Actor) (context_key purpose : string) (index : Z) : D Replies :=
  do! view := query_bridge services actor context_key GetModels in
  match view with
  | ViewModels catalog _ _ =>
      match item_at (mc_models catalog) index with
      | None => ok_d [text_reply "模型选择已失效，请重新发送 /model。"]
      | Some model =>
          let compression := purpose =?= "compression" in
          do! _ := execute_bridge services actor context_key
            (SetModelOverrideCmd (if compression then ForCompression else ForChat) (Some (ms_id model))) in
          ok_d [text_reply ("已切换" +:+ (if compression then "压缩模型" else "对话模型") +:+ "：" +:+ ms_id model
                            +:+ "。后续发送将使用该模型 ID。")]
      end
  | _ => err_d (catalog_error StSettingsInvalid "model catalog unavailable")
  end.

Definition query_characters (services : TelegramServices) (actor : Actor) (context_key : string) : D (list StCharacterSummary) :=
  do! view := query_bridge services actor context_key ListCharacters in
  match view with
  | ViewCharacters items => ok_d items
  | _ => err_d (catalog_error StCharacterListFailed "character list unavailable")
  end.

Definition query_chats (services : TelegramServices) (actor : Actor) (context_key avatar : string) : D (list StChatSummary) :=
  do! view := query_bridge services actor context_key (ListCharacterChats avatar) in
  match view with
  | ViewChats chats => ok_d chats
  | _ => err_d (catalog_error StChatListFailed "chat list unavailable")
  end.

Definition list_characters (services : TelegramServices) (actor : Actor) (context_key : string) (page : Z) : D Replies :=
  do! items := query_characters services actor context_key in
  one_panel (render_characters items page (Z.of_nat (length items))).

Definition no_character : Replies := [text_reply "当前还没有选择角色。请先使用 /chars。"].

Definition list_history (services : TelegramServices) (actor : Actor) (context_key : string) (page : Z) : D Replies :=
  do! locator := load_context actor context_key in
  match cl_avatar locator with
  | None => ok_d no_character
  | Some avatar =>
      do! chats := query_chats services actor context_key avatar in
      one_panel (render_history (default "未选择" (cl_character_name locator)) chats page (Z.of_nat (length chats)))
  end.

Definition select_character (services : TelegramServices) (actor : Actor) (context_key : string) (page index : Z) : D Replies :=
  do! items := query_characters services actor context_key in
  match item_at items (page * PAGE_SIZE + index) with
  | None => ok_d [text_reply "角色选择已失效，请重新发送 /chars。"]
  | Some character =>
      do! _ := execute_bridge services actor context_key (SelectCharacterCmd (sc_avatar character) (sc_name character)) in
      list_history services actor context_key 0
  end.

(** The preview never needs more turns of the loop than it has bytes. *)
Definition preview_chunks (preview : option string) : D (list string) :=
  match preview with
  | None => ok_d []
  | Some text => λ s, (s, match split_current_preview (String.length text) text with Some c => Some (Ok c) | None => None end)
  end.

Definition current_state (services : TelegramServices) (actor : Actor) (context_key : string) : D Replies :=
  do! context := load_context actor context_key in
  match st_locator_from_context context with
  | Err _ => ok_d [text_reply "当前还没有绑定角色和会话。请先使用 /chars。"]
  | Ok locator =>
      do! view := query_bridge services actor context_key (GetHistory locator) in
      let preview := match view with ViewHistory preview => if is_blank preview then None else Some preview | _ => None end in
      do! chunks := preview_chunks preview in
      let status := match chunks with
                    | [] => None
                    | _ => Some ("完整最近内容已在上方分 " +:+ pretty (length chunks) +:+ " 段发送。")
                    end in
      do! last := panel_reply (render_current (loc_character_name locator) (loc_chat_file locator) None status) in
      ok_d (map text_reply chunks ++ [last])
  end.

Definition open_history (services : TelegramServices) (actor : Actor) (context_key : string) (page index : Z) : D Replies :=
  do! locator := load_context actor context_key in
  match cl_avatar locator with
  | None => ok_d no_character
  | Some avatar =>
      do! chats := query_chats services actor context_key avatar in
      match item_at chats (page * PAGE_SIZE + index) with
      | None => ok_d [text_reply "会话选择已失效，请重新发送 /hist。"]
      | Some chat =>
          do! _ := execute_bridge services actor context_key
            (SelectChatCmd {| loc_handle := default "default-user" (cl_handle locator); loc_avatar := avatar;
                              loc_character_name := default "" (cl_character_name locator);
                              loc_chat_file := ch_chat_file chat |}) in
          current_state services actor context_key
      end
  end.

Definition recent_gone : Replies := [text_reply "最近会话选择已失效，请重新发送 /recent。"].

Definition open_recent (services : TelegramServices) (actor : Actor) (context_key : string) (index : Z) : D Replies :=
  do! recent := channel_read (list_recent (acc_id (act_account actor)) PAGE_SIZE) in
  match item_at recent index with
  | None => ok_d recent_gone
  | Some item =>
      match cl_avatar item, cl_chat_file item with
      | Some avatar, Some chat_file =>
          do! chats := query_chats services actor context_key avatar in
          if negb (existsb (λ chat, ch_chat_file chat =?= chat_file) chats)
          then ok_d [text_reply "该最近会话在 SillyTavern 中已不存在。"]
          else
            do! _ := execute_bridge services actor context_key
              (SelectChatCmd {| loc_handle := default "default-user" (cl_handle item); loc_avatar := avatar;
                                loc_character_name := default "" (cl_character_name item); loc_chat_file := chat_file |}) in
            current_state services actor context_key
      | _, _ => ok_d recent_gone
      end
  end.

(** ** Commands of a chat *)

Definition require_selected_character (actor : Actor) (context_key : string) : D StChatLocator :=
  do! context := load_context actor context_key in
  lift_d (let? avatar := ok_or (cl_avatar context) character_not_selected in
          Ok {| loc_handle := default "default-user" (cl_handle context); loc_avatar := avatar;
                loc_character_name := default "" (cl_character_name context);
                loc_chat_file := default "" (cl_chat_file context) |}).

Definition require_selected_chat (actor : Actor) (context_key : string) : D StChatLocator :=
  do! context := load_context actor context_key in
  lift_d (st_locator_from_context context).

Definition execute_enveloped (services : TelegramServices) (actor : Actor) (context_key : string) (command : StBridgeCommand)
    (origin : BridgeOperationOrigin) : D StBridgeOutcome :=
  do! engine := lift_d (require_bridge services context_key) in
  bridge_st (λ rd, execute_with_origin engine rd actor command origin).

Definition start_new (services : TelegramServices) (actor : Actor) (context_key : string) (client_turn_id : option string)
    (origin : BridgeOperationOrigin) : D Replies :=
  do! locator := require_selected_character actor context_key in
  do! outcome := execute_enveloped services actor context_key (StartChat locator (default "" client_turn_id)) origin in
  ok_d [text_reply (default "已新建会话。" (out_reply_text outcome))].

Definition compress_history (services : TelegramServices) (actor : Actor) (context_key : string)
    (client_turn_id : option string) (origin : BridgeOperationOrigin) : D Replies :=
  do! locator := require_selected_chat actor context_key in
  do! outcome := execute_enveloped services actor context_key (CompressChat locator (default "" client_turn_id)) origin in
  ok_d [text_reply (default "" (out_reply_text outcome))].

Definition send_chat (actor : Actor) (context_key : string) (client_turn_id : option string) (text : string) : D Replies :=
  do! _ := require_selected_chat actor context_key in
  ok_d [MkTelegramReply "" None
          (Some (MkGenerationIntent GkSend (default context_key client_turn_id) context_key (Some text)))].

Definition NL : string := byte_str (Ascii.ascii_of_nat 10).

Definition last_turn_lines (view : StBridgeView) : list string :=
  match view with
  | ViewLastTurn user assistant _ =>
      match user, assistant with None, None => ["当前会话还没有可查看的尾部对话。"] | _, _ => [] end
      ++ match user with Some text => ["用户："; text; ""] | None => [] end
      ++ match assistant with Some text => ["角色："; text] | None => [] end
  | _ => ["当前会话还没有可查看的尾部对话。"]
  end.

Definition last_turn (services : TelegramServices) (actor : Actor) (context_key : string) : D Replies :=
  do! context := load_context actor context_key in
  do! locator := lift_d (st_locator_from_context context) in
  do! view := query_bridge services actor context_key (GetLastTurn locator) in
  ok_d [text_reply (trim (join_str NL (["最后一轮："; ""] ++ last_turn_lines view)))].

Definition last_error_summary (actor : Actor) (bot_id : string) (chat_id : Z) : D Replies := λ s,
  (s, Some (Ok [text_reply (last_error_text (acc_id (act_account actor)) bot_id (pretty chat_id) (ds_errors s))])).

(** ** Binding a user *)

Definition bind_answer (outcome : string) : string :=
  if outcome =?= "ok" then "绑定成功。现在可以使用 /chars 选择角色。"
  else if outcome =?= "expired" then "验证码已过期，请在网页重新生成。"
  else if outcome =?= "rate_limited" then "尝试次数过多，请 15 分钟后再试。"
  else if outcome =?= "identity_conflict" then "此 Telegram 用户已绑定到另一个账号，请先在原账号撤销绑定。"
  else "验证码无效。".

Definition redeem_d (bot_id account_id code user_id : string) : D string :=
  do! identity_id := new_id_d in
  do! binding_id := new_id_d in
  do! c := clock in
  λ s, let '(db, r) := redeem_bind_code bind_code_hmac to_uppercase now_text c identity_id binding_id bot_id
                         account_id code user_id (ds_bind s) in
       (set_bind db s, Some r).

Definition get_bot_d (bot_id : string) : D (option TelegramBot) := λ s, (s, Some (Ok (ds_bots s !! bot_id))).
Definition require_bot (bot_id : string) : D TelegramBot :=
  do! bot := get_bot_d bot_id in lift_d (ok_or bot (not_found "BOT_NOT_FOUND" "bot not found")).

Definition handle_bind (bot_id user_id code : string) : D Replies :=
  do! bot := require_bot bot_id in
  do! outcome := redeem_d bot_id (bot_owner_account_id bot) code user_id in
  ok_d [text_reply (bind_answer outcome)].

(** ** Buttons pressed *)

Definition status_panel : D Replies :=
  do! l := take_look in
  do! numeric := numeric_bot_id_d in
  one_panel (render_status (lk_runtime_status l) "Telegram channel" (default 0%Z numeric) None).

Definition handle_panel_callback (actor : Actor) (services : TelegramServices) (context_key : string) (action : CallbackAction)
  : D Replies :=
  match action with
  | CbHome => one_panel render_home
  | CbHelp => one_panel render_help
  | CbSettings => settings_panel services actor context_key
  | CbStatus => status_panel
  | CbCharacters page => list_characters services actor context_key page
  | CbHistory page => list_history services actor context_key page
  | CbRecent page => recent_panel actor page
  | CbNow => current_state services actor context_key
  | CbSelectCharacter page index => select_character services actor context_key page index
  | CbSelectHistory page index => open_history services actor context_key page index
  | CbSelectRecent page index => open_recent services actor context_key (page * PAGE_SIZE + index)
  | CbProviders purpose page => list_models services actor context_key (short_name purpose) page
  | CbProviderModels purpose provider_key page =>
      list_provider_models services actor context_key purpose provider_key page
  | CbSelectModel purpose provider_key model_index =>
      select_provider_model services actor context_key purpose provider_key model_index
  | CbSelectModelById purpose provider_key model_id =>
      select_provider_model_by_id services actor context_key purpose provider_key model_id
  | CbResetModel purpose =>
      do! _ := set_override services actor context_key purpose None in
      list_models services actor context_key (short_name purpose) 0
  end.

Definition find_slot (account_id : string) (numeric_bot_id : option Z) (chat_id : Z) : D (option PanelSlot) :=
  of_panels (λ p,
    let? slot := match numeric_bot_id with
                 | Some n => find_active_slot_for_scope kind_of_json account_id n chat_id p
                 | None => find_active_slot_for_account_chat kind_of_json account_id chat_id p
                 end in
    Ok (p, slot)).

(** The replacement of a panel: claim the revision, send, confirm or give up. *)
Definition replace_panel (self : TelegramDelivery) (slot next_slot effect_slot : PanelSlot) (expected_revision : Z)
    (desired : TelegramPanel) : D bool :=
  do! effect_id := new_id_d in
  do! now := now_d in
  do! claimed := of_panels (claim_panel_revision claim_json now effect_id slot expected_revision desired next_slot) in
  match claimed with
  | None => ok_d true
  | Some effect_id =>
      do! now := now_d in
      do! _ := on_panels (mark_panel_revision_sending now effect_id slot expected_revision) in
      dresult (of_delivery (execute_panel_effect self (PeReplace effect_slot expected_revision desired))) (λ sent,
        match sent with
        | Ok _ =>
            do! now := now_d in
            dresult (on_panels (complete_panel_replace kind_json now effect_id slot expected_revision next_slot)) (λ done,
              match done with
              | Ok _ => ok_d true
              | Err error =>
                  do! now := now_d in
                  dresult (on_panels (mark_panel_revision_failed now effect_id slot expected_revision)) (λ failed,
                    match failed with
                    | Err state_error =>
                        err_d (internal ("panel effect completion failed with " +:+ a_code error
                                         +:+ " and failure CAS failed with " +:+ a_code state_error))
                    | Ok _ => err_d error
                    end)
              end)
        | Err err =>
            do! now := now_d in
            do! _ := on_panels (mark_panel_revision_failed now effect_id slot expected_revision) in
            err_d err
        end)
  end.

(** Bind the buttons of the next panel and replace the current one. *)
Definition rebind_and_replace (self : TelegramDelivery) (account_id user_id bot_id : string) (slot : PanelSlot)
    (p : TelegramPanel) : D bool :=
  do! unix := unix_d in
  let '(effect, next_slot) :=
    plan_effect unix (Some slot) p (ps_panel_id slot) (ps_account_id slot) (ps_numeric_bot_id slot) (ps_chat_id slot) 600 in
  match effect with
  | PeReplace effect_slot expected_revision desired =>
      do! desired := bind_panel_callbacks desired account_id user_id bot_id (ps_numeric_bot_id slot) (ps_chat_id slot)
                       (ps_panel_id slot) (ps_message_id slot) (ps_revision next_slot) in
      replace_panel self slot next_slot effect_slot expected_revision desired
  | _ => ok_d true
  end.

Definition apply_panel_reply (bot_id : string) (actor : Actor) (user_id : string) (chat_id message_id : Z)
    (reply : TelegramReply) (delivery : TelegramDelivery) : D bool :=
  match tr_markup reply with
  | None => ok_d false
  | Some markup =>
      do! keyboard := lift_d (keyboard_from_markup markup) in
      do! found := lookup_d (tr_text reply) keyboard in
      match found with
      | None => ok_d false
      | Some p =>
          do! numeric := numeric_bot_id_d in
          do! slot := find_slot (acc_id (act_account actor)) numeric chat_id in
          match slot with
          | None => ok_d false
          | Some slot =>
              if negb (ps_message_id slot =? message_id)%Z then ok_d true
              else rebind_and_replace delivery (acc_id (act_account actor)) user_id bot_id slot p
          end
      end
  end.

(** The loop over the replies: [true] once one was shown in the panel. *)
Fixpoint apply_replies (bot_id : string) (actor : Actor) (user_id : string) (chat_id message_id : Z) (replies : Replies)
    (delivery : TelegramDelivery) : D bool :=
  match replies with
  | [] => ok_d false
  | reply :: replies =>
      do! applied := apply_panel_reply bot_id actor user_id chat_id message_id reply delivery in
      if applied : bool then ok_d true else apply_replies bot_id actor user_id chat_id message_id replies delivery
  end.

(** The action of a consumed token, and the end of its effect. *)
Definition run_action (actor : Actor) (services : TelegramServices) (context_key effect_id : string) (action : CallbackAction)
  : D Replies :=
  dresult (handle_panel_callback actor services context_key action) (λ result,
    match result with
    | Ok replies =>
        do! now := now_d in
        dresult (on_effects (complete_action_effect now effect_id)) (λ completed,
          match completed with
          | Ok _ => ok_d replies
          | Err error =>
              do! now := now_d in
              dresult (on_effects (fail_action_effect now effect_id true)) (λ failed,
                match failed with
                | Err state_error =>
                    err_d (internal ("callback action terminal persist failed with " +:+ a_code error
                                     +:+ " and unknown CAS failed with " +:+ a_code state_error))
                | Ok _ => err_d error
                end)
          end)
    | Err error =>
        do! now := now_d in
        do! _ := on_effects (fail_action_effect now effect_id false) in
        err_d error
    end).

Definition resolve_d (bot_id user_id : string) : D (option Actor) := λ s,
  (s, Some (resolve_bound_actor bot_id user_id (ds_bind s) (ds_identity s))).

(** Which button it was: the scope the update gives must be the one the token was
    made for, at the revision the panel has. *)
Definition consume_button (actor : Actor) (bot_id user_id : string) (chat_id message_id : Z) (data : string)
  : D (CallbackAction * string) :=
  do! numeric := numeric_bot_id_d in
  do! numeric_bot_id := lift_d (ok_or numeric scope_mismatch) in
  if (numeric_bot_id <=? 0)%Z || (message_id <=? 0)%Z then err_d scope_mismatch else
  do! found := find_slot (acc_id (act_account actor)) (Some numeric_bot_id) chat_id in
  do! slot := lift_d (ok_or found (bad_request "TELEGRAM_CALLBACK_INVALID" "callback 已失效，请重新打开面板")) in
  do! effect_id := new_id_d in
  do! now := now_d in
  do! unix := unix_d in
  of_panels (λ p,
    let? (t, out) := consume sha256_hex read_binding print_action now unix effect_id data
      (MkCallbackScope (acc_id (act_account actor)) bot_id numeric_bot_id chat_id user_id (ps_panel_id slot) message_id
         (ps_revision slot)) (panel_effects p) in
    Ok (set_effects t p, out)).

Definition handle_callback (services : option TelegramServices) (bot_id user_id : string) (chat_id message_id : Z) (data : string)
    (delivery : option TelegramDelivery) : D Replies :=
  match services with
  | None => ok_d []
  | Some services =>
      do! actor := resolve_d bot_id user_id in
      match actor with
      | None => ok_d [text_reply "未授权。"]
      | Some actor =>
          let context_key := context_key_of bot_id chat_id in
          if negb (starts_with data "cb:") then ok_d [text_reply "选择已失效，请重新打开面板。"] else
          do! (action, effect_id) := consume_button actor bot_id user_id chat_id message_id data in
          do! now := now_d in
          do! _ := on_effects (claim_action_effect now effect_id) in
          do! replies := run_action actor services context_key effect_id action in
          match delivery with
          | None => ok_d replies
          | Some delivery =>
              do! shown := apply_replies bot_id actor user_id chat_id message_id replies delivery in
              ok_d (if shown : bool then [] else replies)
          end
      end
  end.
End Dispatch.
