(* ===== verification/Turns.v ===== *)
(** * Taking back and regenerating a turn ([undo_turn], [revoke_turn] and
    [redo_turn] of dispatch.rs)

    All three freeze what they are about to act on, a turn of the chat with its
    messages and the fingerprint of the tail of the SillyTavern chat, before they
    run the operation; the status of the frozen target then says how far they came:
    frozen, applying, and at last applied, failed or unknown. *)

From S2P Require Import Prelude Text Errors StDomain Operations OperationStore PollerOwnership Journal Vault Program OperationPayload Coordinator ChannelContext StOps Engine TelegramInbox DeliveryQueue TelegramText Delivery DeliveryCorrect Callback Panel PanelStore ErrorEvents Dispatch.
From Stdlib Require Import Lia.

Definition operation_id_required (verb : string) : AppError :=
  bad_request "TELEGRAM_OPERATION_ID_REQUIRED" (verb +:+ " requires a canonical operation id").
Definition delivery_scope_required (verb : string) : AppError :=
  service_unavailable "TELEGRAM_TURN_SCOPE_REQUIRED" (verb +:+ " requires a Telegram delivery scope").
Definition redo_delivery_unavailable : AppError :=
  service_unavailable "TELEGRAM_TURN_SCOPE_REQUIRED" "redo delivery is unavailable".
Definition commit_unconfirmed (verb : string) : AppError :=
  conflict "ST_COMMIT_STATE_UNKNOWN" ("SillyTavern " +:+ verb +:+ " commit was not confirmed").
Definition revision_overflow : AppError :=
  conflict "TELEGRAM_TURN_REVISION_INVALID" "Telegram turn revision overflow".

(** [client_turn_id.filter(|value| !value.trim().is_empty())]. *)
Definition canonical_id (client_turn_id : option string) : option string :=
  match client_turn_id with Some id => if is_blank id then None else Some id | None => None end.

Definition is_delivered (claimed : ClaimedOperation) : bool :=
  (rec_status (claimed_record claimed) =?= Delivered) && (rec_commit_state (claimed_record claimed) =?= OcApplied).

Definition is_known_uneditable (error : AppError) : bool :=
  let message := to_ascii_lowercase (a_message error) in
  contains message "not found" || contains message "cannot edit" || contains message "can't be edited"
  || contains message "message to edit".

(** [revision.checked_add(1)] on a [u64]. *)
Definition next_target_revision (revision : Z) : AppResult Z :=
  if (revision + 1 <? 2 ^ 64)%Z then Ok (revision + 1)%Z else Err revision_overflow.

Section Turns.
Context `{IdSource} `{Redactor} `{Codecs} `{Aead} `{SecretVault} `{Host}.
Context (E : Env) (looks : nat -> Look).

Definition cas_d (operation_id : string) (scope : TurnScope) (expected next : string) : D unit :=
  of_delivery (cas_target_status now_text operation_id scope expected next).

(** Record [next] and return the error. *)
Definition settle_with {A} (operation_id : string) (scope : TurnScope) (next : string) (error : AppError) : D A :=
  do! _ := cas_d operation_id scope "applying" next in err_d error.

Definition claim_turn (engine : SidecarBridgeEngine) (actor : Actor) (operation_id kind : string) (locator : StChatLocator)
    (origin : BridgeOperationOrigin) : D ClaimedOperation :=
  bridge_st E looks (λ rd, claim_operation_with_origin engine actor operation_id kind locator origin).

(** Freeze a new target: the tail of the chat and the last turn shown. *)
Definition freeze_new (verb : string) (engine : SidecarBridgeEngine) (actor : Actor) (locator : StChatLocator)
    (operation_id : string) (scope : TurnScope) : D FrozenTurnTarget :=
  do! view := bridge_st E looks (λ rd, query engine rd actor (GetLastTurn locator)) in
  match view with
  | ViewLastTurn _ _ (Some tail_fingerprint) =>
      if negb (is_lower_sha256 tail_fingerprint)
      then err_d (conflict "TELEGRAM_TURN_FINGERPRINT_INVALID" (verb +:+ " requires a valid frozen ST tail fingerprint"))
      else
        do! (target_turn_id, old_message_ids, target_revision) := of_delivery (find_last_turn scope) in
        do! target_turn_id := lift_d (ok_or target_turn_id
          (conflict "TELEGRAM_TURN_TARGET_MISSING" (verb +:+ " has no active Telegram turn target"))) in
        of_delivery (freeze_target now_text operation_id scope target_turn_id tail_fingerprint target_revision old_message_ids)
  | _ => err_d (conflict "TELEGRAM_TURN_FINGERPRINT_INVALID" (verb +:+ " requires a valid frozen ST tail fingerprint"))
  end.

(** The target to act on; [None] when it was acted on before. *)
Definition target_for (verb invalid : string) (engine : SidecarBridgeEngine) (actor : Actor) (locator : StChatLocator)
    (operation_id : string) (scope : TurnScope) : D (option FrozenTurnTarget) :=
  do! found := of_delivery (load_frozen_target operation_id scope) in
  match found with
  | Some target =>
      if ft_status target =?= "applied" then ok_d None
      else if (ft_status target =?= "applying") || (ft_status target =?= "unknown")
      then err_d (conflict "TELEGRAM_TURN_TARGET_IN_PROGRESS" (verb +:+ " target is already being reconciled"))
      else if ft_status target =?= "failed"
      then err_d (conflict "TELEGRAM_TURN_TARGET_FAILED" (verb +:+ " target has a recorded terminal failure"))
      else if ft_status target =?= "frozen" then ok_d (Some target)
      else err_d (conflict "TELEGRAM_TURN_TARGET_INVALID" invalid)
  | None => do! target := freeze_new verb engine actor locator operation_id scope in ok_d (Some target)
  end.

(** Run the operation; an error decides what is known of the target. *)
Definition run_turn (engine : SidecarBridgeEngine) (actor : Actor) (command : StBridgeCommand) (origin : BridgeOperationOrigin)
    (verb operation_id : string) (scope : TurnScope) : D StBridgeOutcome :=
  do! r := run_bridge E looks (λ rd, execute_with_origin engine rd actor command origin) in
  match r with
  | Err error =>
      settle_with operation_id scope (if e_commit_state error =?= NotApplied then "failed" else "unknown") (from_st error)
  | Ok outcome =>
      if out_confirmed_commit outcome then ok_d outcome
      else settle_with operation_id scope "unknown" (commit_unconfirmed verb)
  end.

(** The last step; when it fails the target becomes unknown. *)
Definition confirm_applied (what operation_id : string) (scope : TurnScope) : D unit :=
  dresult (cas_d operation_id scope "applying" "applied") (λ r,
    match r with
    | Ok _ => ok_d tt
    | Err error =>
        dresult (cas_d operation_id scope "applying" "unknown") (λ state,
          match state with
          | Err state_error =>
              err_d (internal (what +:+ " applied CAS failed with " +:+ a_code error +:+ " and unknown CAS failed with "
                               +:+ a_code state_error))
          | Ok _ => err_d error
          end)
    end).

Definition retire_or_unknown (delivery : TelegramDelivery) (scope : TurnScope) (turn_id operation_id : string) : D unit :=
  dresult (of_delivery (retire_turn_scoped now_text delivery scope turn_id operation_id)) (λ r,
    match r with
    | Ok _ => ok_d tt
    | Err error =>
        dresult (cas_d operation_id scope "applying" "unknown") (λ state,
          match state with
          | Err state_error =>
              err_d (internal ("turn retirement failed with " +:+ a_code error +:+ " and target unknown CAS failed with "
                               +:+ a_code state_error))
          | Ok _ => err_d error
          end)
    end).

(** Still the revision that was frozen? *)
Definition check_revision (operation_id : string) (scope : TurnScope) (turn_id : string) (revision : Z) : D unit :=
  dresult (of_delivery (assert_turn_revision scope turn_id revision)) (λ r,
    match r with
    | Ok _ => ok_d tt
    | Err error => settle_with operation_id scope "failed" error
    end).

Definition scope_for (verb : string) (actor : Actor) (bot_id : string) (chat_id : Z) (locator : StChatLocator) : D TurnScope :=
  do! numeric := numeric_bot_id_d looks in
  do! numeric_bot_id := lift_d (ok_or numeric
    (service_unavailable "TELEGRAM_BOT_SCOPE_UNAVAILABLE" ("Telegram " +:+ verb +:+ " has no numeric bot scope"))) in
  lift_d (TurnScope_new (acc_id (act_account actor)) bot_id numeric_bot_id chat_id
            (locator_hash sha256_hex (loc_handle locator) (loc_avatar locator) (loc_chat_file locator))).

(** From the frozen target to the confirmed commit. *)
Definition apply_target (verb : string) (command : StBridgeCommand) (engine : SidecarBridgeEngine) (actor : Actor)
    (operation_id : string) (scope : TurnScope) (target : FrozenTurnTarget) (origin : BridgeOperationOrigin)
  : D StBridgeOutcome :=
  do! _ := cas_d operation_id scope "frozen" "applying" in
  do! _ := check_revision operation_id scope (ft_target_turn_id target) (ft_target_revision target) in
  run_turn engine actor command origin verb operation_id scope.

Definition finish_undo (delivery : TelegramDelivery) (operation_id : string) (scope : TurnScope) (target : FrozenTurnTarget)
    (outcome : StBridgeOutcome) : D Replies :=
  do! _ := retire_or_unknown delivery scope (ft_target_turn_id target) operation_id in
  do! _ := confirm_applied "turn target" operation_id scope in
  ok_d [text_reply ("已在 SillyTavern 撤回最后一轮（Telegram 消息保持保留）："
                    +:+ default "最后一轮" (out_removed_safe_content outcome))].

Definition undo_turn (bot_id : string) (chat_id : Z) (services : TelegramServices) (actor : Actor) (context_key : string)
    (client_turn_id : option string) (delivery : option TelegramDelivery) (origin : BridgeOperationOrigin) : D Replies :=
  do! locator := require_selected_chat E looks actor context_key in
  do! operation_id := lift_d (ok_or (canonical_id client_turn_id) (operation_id_required "undo")) in
  do! scope := scope_for "undo" actor bot_id chat_id locator in
  do! delivery := lift_d (ok_or delivery (delivery_scope_required "undo")) in
  do! engine := lift_d (require_bridge services context_key) in
  do! claimed := claim_turn engine actor operation_id KIND_UNDO locator origin in
  if is_delivered claimed then ok_d [] else
  do! target := target_for "undo" "undo target status is invalid" engine actor locator operation_id scope in
  match target with
  | None => ok_d []
  | Some target =>
      do! outcome := apply_target "undo" (UndoLastTurnCmd locator operation_id) engine actor operation_id scope target origin in
      finish_undo delivery operation_id scope target outcome
  end.

(** The messages of the turn, after the commit. *)
Definition revoke_messages (delivery : TelegramDelivery) (operation_id : string) (scope : TurnScope) (ids : list Z) : D unit :=
  match ids with
  | [] => ok_d tt
  | _ =>
      dresult (of_delivery (execute_revoke_effect_scoped now_text delivery scope ids "[已撤回]")) (λ r,
        match r with
        | Err error => settle_with operation_id scope "unknown" error
        | Ok effect =>
            match failed_message_ids effect with
            | [] => ok_d tt
            | _ => settle_with operation_id scope "unknown"
                     (conflict "TELEGRAM_REVOKE_CLEANUP_UNKNOWN"
                        "Telegram revoke cleanup did not reach a confirmed terminal state")
            end
        end)
  end.

Definition finish_revoke (delivery : TelegramDelivery) (operation_id : string) (scope : TurnScope) (target : FrozenTurnTarget)
    (outcome : StBridgeOutcome) : D Replies :=
  do! _ := revoke_messages delivery operation_id scope (ft_old_message_ids target) in
  do! _ := confirm_applied "turn target" operation_id scope in
  let removed := default "最后一轮" (out_removed_safe_content outcome) in
  ok_d [text_reply (match ft_old_message_ids target with
                    | [] => "已撤回最后一轮（SillyTavern 已回退，但无可确认 Telegram 目标）：" +:+ removed
                    | _ => "已撤回最后一轮（SillyTavern 已回退，消息已清理）：" +:+ removed
                    end)].

Definition revoke_turn (bot_id : string) (chat_id : Z) (services : TelegramServices) (actor : Actor) (context_key : string)
    (client_turn_id : option string) (delivery : option TelegramDelivery) (origin : BridgeOperationOrigin) : D Replies :=
  do! locator := require_selected_chat E looks actor context_key in
  do! operation_id := lift_d (ok_or (canonical_id client_turn_id) (operation_id_required "revoke")) in
  do! scope := scope_for "revoke" actor bot_id chat_id locator in
  do! engine := lift_d (require_bridge services context_key) in
  do! delivery := lift_d (ok_or delivery (delivery_scope_required "revoke")) in
  do! claimed := claim_turn engine actor operation_id KIND_REVOKE locator origin in
  if is_delivered claimed then ok_d [] else
  do! target := target_for "revoke" "revoke target status is invalid" engine actor locator operation_id scope in
  match target with
  | None => ok_d []
  | Some target =>
      do! outcome := apply_target "revoke" (RevokeLastTurn locator operation_id) engine actor operation_id scope target origin in
      finish_revoke delivery operation_id scope target outcome
  end.

(** ** Redo *)

Definition delivery_numeric_bot_id (self : TelegramDelivery) : AppResult Z :=
  if (td_numeric_bot_id self <=? 0)%Z
  then Err (service_unavailable "TELEGRAM_BOT_SCOPE_UNAVAILABLE" "Telegram numeric bot scope is unavailable")
  else Ok (td_numeric_bot_id self).

Definition scope_invalid (message : string) : AppError := conflict "TELEGRAM_TURN_SCOPE_INVALID" message.

Definition turn_scope_for_delivery (actor : Actor) (context_key : string) (delivery : TelegramDelivery) : D TurnScope :=
  do! context := load_context E looks actor context_key in
  lift_d (
    let? handle := ok_or (cl_handle context) (scope_invalid "Telegram turn handle is missing") in
    let? avatar := ok_or (cl_avatar context) (scope_invalid "Telegram turn avatar is missing") in
    let? chat_file := ok_or (cl_chat_file context) (scope_invalid "Telegram turn chat locator is missing") in
    let? numeric_bot_id := delivery_numeric_bot_id delivery in
    TurnScope_new (acc_id (act_account actor)) (td_bot_id delivery) numeric_bot_id (td_chat_id delivery)
      (locator_hash sha256_hex handle avatar chat_file)).

(** One message of the old reply that the new one replaces: edit it, or, when it
    is the first and can no longer be edited, send a new one in its place. *)
Definition redo_chunk (delivery : TelegramDelivery) (metadata : TurnMetadata) (operation_id : string) (scope : TurnScope)
    (turn_id : string) (revision : Z) (index : nat) (message_id : Z) (text : string) : D (Z * Z) :=
  do! _ := check_revision operation_id scope turn_id revision in
  dresult (of_delivery (edit_message delivery message_id text)) (λ edited,
    match edited with
    | Ok _ =>
        dresult (of_delivery (update_turn_chunk_scoped now_text sha256_hex scope revision turn_id index message_id text)) (λ r,
          match r with
          | Err error => settle_with operation_id scope "unknown" error
          | Ok _ => do! next := lift_d (next_target_revision revision) in ok_d (next, message_id)
          end)
    | Err err =>
        if (index =? 0)%nat && is_known_uneditable err then
          dresult (of_delivery (replace_turn_chunk_scoped fresh_id now_text retry_text sha256_hex delivery metadata revision
                                  index message_id text)) (λ r,
            match r with
            | Err error => settle_with operation_id scope "unknown" error
            | Ok replacement => do! next := lift_d (next_target_revision revision) in ok_d (next, replacement)
            end)
        else settle_with operation_id scope "unknown" err
    end).

Fixpoint redo_edits (delivery : TelegramDelivery) (metadata : TurnMetadata) (operation_id : string) (scope : TurnScope)
    (turn_id : string) (revision : Z) (index : nat) (pairs : list (Z * string)) : D (Z * list Z) :=
  match pairs with
  | [] => ok_d (revision, [])
  | (message_id, text) :: pairs =>
      do! (revision, active) := redo_chunk delivery metadata operation_id scope turn_id revision index message_id text in
      do! (revision, rest) := redo_edits delivery metadata operation_id scope turn_id revision (S index) pairs in
      ok_d (revision, active :: rest)
  end.

(** Messages the old reply had no place for. *)
Fixpoint redo_sends (delivery : TelegramDelivery) (metadata : TurnMetadata) (operation_id : string) (scope : TurnScope)
    (turn_id : string) (revision : Z) (index : nat) (chunks : list string) : D (Z * list Z) :=
  match chunks with
  | [] => ok_d (revision, [])
  | chunk :: chunks =>
      do! _ := check_revision operation_id scope turn_id revision in
      dresult (of_delivery (send_turn_chunk_scoped fresh_id now_text retry_text sha256_hex delivery metadata revision index chunk))
        (λ r, match r with
              | Err error => settle_with operation_id scope "unknown" error
              | Ok message_id =>
                  do! revision := lift_d (next_target_revision revision) in
                  do! (revision, rest) := redo_sends delivery metadata operation_id scope turn_id revision (S index) chunks in
                  ok_d (revision, message_id :: rest)
              end)
  end.

(** Messages the new reply no longer needs. *)
Definition redo_cleanup (delivery : TelegramDelivery) (operation_id : string) (scope : TurnScope) (turn_id : string)
    (revision : Z) (old_ids active_ids : list Z) : D unit :=
  do! _ := check_revision operation_id scope turn_id revision in
  dresult (of_delivery (execute_redo_cleanup_scoped now_text delivery scope old_ids active_ids)) (λ r,
    match r with
    | Ok _ => ok_d tt
    | Err error => settle_with operation_id scope "unknown" error
    end).

(** [split_text(&text, 3200)]; a reply of nothing is shown as such. *)
Definition redo_chunks (text : string) : D (list string) := λ s,
  (s, match split_text (String.length text) text 3200 with
      | Some [] => Some (Ok ["生成结果为空"])
      | Some chunks => Some (Ok chunks)
      | None => None
      end).

Definition show_redo (delivery : TelegramDelivery) (operation_id : string) (scope : TurnScope) (target : FrozenTurnTarget)
    (text : string) : D unit :=
  do! desired := redo_chunks text in
  do! metadata := lift_d (TurnMetadata_new_scoped scope (ft_target_turn_id target) operation_id) in
  let old_ids := ft_old_message_ids target in
  do! (revision, edited) := redo_edits delivery metadata operation_id scope (ft_target_turn_id target)
                              (ft_target_revision target) 0 (zip old_ids desired) in
  do! (revision, sent) := redo_sends delivery metadata operation_id scope (ft_target_turn_id target) revision
                            (length old_ids) (drop (length old_ids) desired) in
  if (length desired <? length old_ids)%nat
  then redo_cleanup delivery operation_id scope (ft_target_turn_id target) revision old_ids (edited ++ sent)
  else ok_d tt.

Definition finish_redo (engine : SidecarBridgeEngine) (delivery : TelegramDelivery) (operation_id : string) (scope : TurnScope)
    (target : FrozenTurnTarget) (outcome : StBridgeOutcome) : D Replies :=
  do! _ := show_redo delivery operation_id scope target (default "" (out_reply_text outcome)) in
  do! _ := confirm_applied "redo target" operation_id scope in
  match en_coordinator engine with
  | None => err_d (service_unavailable "ST_WRITE_NOT_READY" "redo delivery confirmation coordinator is unavailable")
  | Some _ =>
      do! _ := bridge_st E looks (λ _, coordinator_mark_delivered operation_id) in
      ok_d []
  end.

Definition redo_turn (services : TelegramServices) (actor : Actor) (context_key : string) (client_turn_id : option string)
    (delivery : option TelegramDelivery) (origin : BridgeOperationOrigin) : D Replies :=
  do! locator := require_selected_chat E looks actor context_key in
  do! operation_id := lift_d (ok_or (canonical_id client_turn_id) (operation_id_required "redo")) in
  do! engine := lift_d (require_bridge services context_key) in
  do! scoped := match delivery with
                | Some delivery =>
                    do! scope := turn_scope_for_delivery actor context_key delivery in ok_d (Some (delivery, scope))
                | None => ok_d None
                end in
  do! claimed := claim_turn engine actor operation_id KIND_REGENERATE locator origin in
  if is_delivered claimed then ok_d [] else
  match scoped with
  | None => err_d (delivery_scope_required "redo")
  | Some (delivery, scope) =>
      do! target := target_for "redo" "redo target has an unknown status" engine actor locator operation_id scope in
      match target with
      | None => ok_d []
      | Some target =>
          do! _ := cas_d operation_id scope "frozen" "applying" in
          do! outcome := run_turn engine actor (RegenerateReply locator operation_id None) origin "redo" operation_id scope in
          finish_redo engine delivery operation_id scope target outcome
      end
  end.
End Turns.
