(* ===== verification/TurnsCorrect.v ===== *)
(** * What the status of a frozen target says

    The proofs about [Turns]: a turn that was acted on is never acted on again, and
    the status a command leaves behind is what is known of the turn. *)

From S2P Require Import Prelude Text Errors StDomain Operations OperationStore PollerOwnership Journal Vault Program OperationPayload Coordinator ChannelContext StOps Engine TelegramInbox DeliveryQueue TelegramText Delivery DeliveryCorrect Callback Panel PanelStore ErrorEvents Dispatch Turns.
From Stdlib Require Import Lia.

(** ** Methods of the delivery that leave the targets alone *)

Definition targets (w : Delivery.World) : gmap string TargetRow := telegram_turn_targets (w_tables w).

Definition spares {A} (m : M A) : Prop := forall w, targets (m w).1 = targets w.

Create HintDb spares.

Lemma spares_ok {A} (a : A) : spares (ok_m a).
Proof. done. Qed.
Lemma spares_err {A} e : spares (err_m (A := A) e).
Proof. done. Qed.
Lemma spares_hang {A} : spares (hang_m (A := A)).
Proof. done. Qed.
Lemma spares_lift {A} (r : result A AppError) : spares (lift_m r).
Proof. done. Qed.

Lemma spares_mresult {A B} (m : M A) (k : result A AppError -> M B) :
  spares m -> (forall r, spares (k r)) -> spares (mresult m k).
Proof.
  intros Hm Hk w. unfold mresult. specialize (Hm w). destruct (m w) as [w' [r|]]; [| done].
  by rewrite (Hk r w').
Qed.

Lemma spares_mbind {A B} (m : M A) (k : A -> M B) : spares m -> (forall a, spares (k a)) -> spares (mbind_ m k).
Proof. intros Hm Hk. apply spares_mresult; [done |]. intros [a|e]; [apply Hk | apply spares_err]. Qed.

#[export] Hint Resolve spares_ok spares_err spares_hang spares_lift : spares.

Ltac spares :=
  repeat first
    [ progress intros
    | solve [auto with spares]
    | apply spares_mbind
    | apply spares_mresult
    | match goal with |- spares (match ?x with _ => _ end) => destruct x end
    | match goal with |- spares (if ?x then _ else _) => destruct x end ].

Section Spared.
Context (new_id : nat -> string) (now_text : Z -> string) (retry_at : Z -> Z -> option string)
  (sha256_hex : string -> string).
Context `{Redactor}.

Lemma spares_draw : spares (draw_id new_id).
Proof. done. Qed.
Lemma spares_now : spares (get_now now_text).
Proof. done. Qed.
Lemma spares_forget id : spares (forget id).
Proof. done. Qed.
Lemma spares_retry_at secs : spares (retry_at_rfc3339 retry_at secs).
Proof. done. Qed.
Lemma spares_call self method body : spares (call self method body).
Proof.
  intros w. unfold call. destruct (match w_replies w with [] => _ | _ => _ end); try done. repeat case_match; done.
Qed.
Lemma spares_messages p f : spares (update_messages p f).
Proof. done. Qed.
Lemma spares_delivery id from f : spares (update_delivery id from f).
Proof. intros w. unfold update_delivery. repeat case_match; done. Qed.

#[local] Hint Resolve spares_draw spares_now spares_forget spares_retry_at spares_call spares_messages
  spares_delivery : spares.

Lemma spares_create self kind turn : spares (create_delivery new_id now_text self kind turn).
Proof. unfold create_delivery. spares. intros w. by case_match. Qed.
Lemma spares_sending id : spares (mark_sending new_id now_text id).
Proof. unfold mark_sending. spares. Qed.
Lemma spares_sent id m : spares (mark_sent_result now_text id m).
Proof. unfold mark_sent_result. spares. Qed.
Lemma spares_give_up {A} id e : spares (give_up_unknown now_text (A := A) id e).
Proof. unfold give_up_unknown, mark_unknown_after_persistence_failure. spares. Qed.
Lemma spares_send_error self id e : spares (record_send_error new_id now_text retry_at self id e).
Proof. unfold record_send_error, mark_retry_pending, mark_unknown, mark_failed. spares. Qed.
Lemma spares_send self text markup : spares (send_message self text markup).
Proof. unfold send_message. spares. Qed.
Lemma spares_edit self m text : spares (edit_message self m text).
Proof. unfold edit_message. spares. Qed.
Lemma spares_delete self c m : spares (delete_message_in_chat self c m).
Proof. unfold delete_message_in_chat. spares. Qed.
Lemma spares_record md i m text st v :
  spares (record_scoped_turn_message_with_revision now_text sha256_hex md i m text st v).
Proof. unfold record_scoped_turn_message_with_revision. spares. intros w. by case_match. Qed.
Lemma spares_mark_status sc m st : spares (mark_status now_text sc m st).
Proof. unfold mark_status. spares. Qed.
Lemma spares_transaction {A} (m : M A) : spares m -> spares (transaction m).
Proof. intros Hm w. specialize (Hm w). unfold transaction. by destruct (m w) as [w' [[]|]]. Qed.

#[local] Hint Resolve spares_create spares_sending spares_sent spares_give_up spares_send_error spares_send spares_edit
  spares_delete spares_record spares_mark_status spares_transaction : spares.

Lemma spares_turn_chunk self md v i text :
  spares (send_turn_chunk_scoped new_id now_text retry_at sha256_hex self md v i text).
Proof. unfold send_turn_chunk_scoped, send_single_scoped_result_with_revision. spares. Qed.
Lemma spares_update_turn sc v t i m text : spares (update_turn_chunk_scoped now_text sha256_hex sc v t i m text).
Proof. unfold update_turn_chunk_scoped. spares. Qed.
Lemma spares_replace self md v i old text :
  spares (replace_turn_chunk_scoped new_id now_text retry_at sha256_hex self md v i old text).
Proof. unfold replace_turn_chunk_scoped, replace_updates. spares. apply spares_transaction. spares. Qed.
Lemma spares_assert sc turn v : spares (assert_turn_revision sc turn v).
Proof. intros w. unfold assert_turn_revision. by case_match. Qed.
Lemma spares_retire self sc turn op : spares (retire_turn_scoped now_text self sc turn op).
Proof. unfold retire_turn_scoped. spares. Qed.
Lemma spares_revoke_extras self sc ids eff : spares (revoke_extras now_text self sc ids eff).
Proof. revert eff. induction ids as [|i ids IH]; intros eff; cbn [revoke_extras]; spares; apply IH. Qed.
Lemma spares_delete_each self sc ids : spares (delete_each now_text self sc ids).
Proof. induction ids; cbn [delete_each]; spares. Qed.

#[local] Hint Resolve spares_revoke_extras spares_delete_each : spares.

Lemma spares_revoke self sc ids text : spares (execute_revoke_effect_scoped now_text self sc ids text).
Proof. unfold execute_revoke_effect_scoped. spares. Qed.
Lemma spares_cleanup self sc old new_ : spares (execute_redo_cleanup_scoped now_text self sc old new_).
Proof. unfold execute_redo_cleanup_scoped. spares. Qed.
Lemma spares_load id sc : spares (load_frozen_target id sc).
Proof. intros w. unfold load_frozen_target. repeat case_match; done. Qed.
Lemma spares_last sc : spares (find_last_turn sc).
Proof. intros w. unfold find_last_turn. repeat case_match; done. Qed.
End Spared.

#[export] Hint Resolve spares_turn_chunk spares_update_turn spares_replace spares_assert spares_retire spares_revoke
  spares_cleanup spares_load spares_last spares_edit : spares.

(** ** Programs that do not call SillyTavern's backend *)

Inductive callless {A} : Prog A -> Prop :=
| callless_ret a : callless (Ret a)
| callless_db f k : (forall now db, callless (k now db)) -> callless (Db f k)
| callless_lookup id k : (forall r, callless (k r)) -> callless (Lookup id k)
| callless_fence k : (forall r, callless (k r)) -> callless (Fence k).

Lemma callless_bind {A B} (p : Prog A) (k : A -> Prog B) : callless p -> (forall a, callless (k a)) -> callless (bind p k).
Proof. intros Hp Hk. induction Hp; simpl; [apply Hk | by constructor ..]. Qed.

Lemma callless_exec {A} E (p : Prog A) w : callless p -> w_calls (fst (exec_prog E p w)) = w_calls w.
Proof. intros Hp. revert w. induction Hp as [a|f k Hk IH|id k Hk IH|k Hk IH]; intros w; simpl; [done | by rewrite IH ..]. Qed.

Lemma callless_db_call {X} (f : string -> DB -> DB * X) : callless (db_call f).
Proof. repeat constructor. Qed.
Lemma callless_db_read {X} (f : DB -> X) : callless (db_read f).
Proof. repeat constructor. Qed.
Lemma callless_map_err {A E F} (f : E -> F) (p : Prog (result A E)) : callless p -> callless (prog_map_err f p).
Proof. intros Hp. apply callless_bind; [done | constructor]. Qed.

#[export] Hint Resolve callless_db_call callless_db_read callless_map_err callless_ret : core.

(** ** Handlers that keep quiet

    No call to SillyTavern's backend, no request to Telegram, and the targets as
    they were. *)

Definition targets_of (s : DState) : gmap string TargetRow := targets (ds_delivery s).

Record hush (s s' : DState) : Prop := {
  hu_calls : w_calls (ds_bridge s') = w_calls (ds_bridge s);
  hu_requests : w_requests (ds_delivery s') = w_requests (ds_delivery s);
  hu_targets : targets_of s' = targets_of s;
}.

#[export] Instance hush_preorder : PreOrder hush.
Proof. split; [by split |]. intros a b c [] []. split; congruence. Qed.

Definition hushed {A} (m : D A) : Prop := forall s, hush s (m s).1.

Create HintDb hushed.

Lemma hushed_ok {A} (a : A) : hushed (ok_d a).
Proof. by intros s. Qed.
Lemma hushed_err {A} e : hushed (err_d (A := A) e).
Proof. by intros s. Qed.
Lemma hushed_lift {A} (r : AppResult A) : hushed (lift_d r).
Proof. by intros s. Qed.

Lemma hushed_dresult {A B} (m : D A) (k : AppResult A -> D B) :
  hushed m -> (forall r, hushed (k r)) -> hushed (dresult m k).
Proof.
  intros Hm Hk s. unfold dresult. specialize (Hm s). destruct (m s) as [s1 [r|]]; [| done].
  etransitivity; [exact Hm | apply Hk].
Qed.

Lemma hushed_dbind {A B} (m : D A) (k : A -> D B) : hushed m -> (forall a, hushed (k a)) -> hushed (dbind m k).
Proof. intros Hm Hk. apply hushed_dresult; [done |]. intros [a|e]; [apply Hk | apply hushed_err]. Qed.

#[export] Hint Resolve hushed_ok hushed_err hushed_lift : hushed.

Ltac hushed :=
  repeat first
    [ progress intros
    | solve [auto with hushed]
    | apply hushed_dbind
    | apply hushed_dresult
    | match goal with |- hushed (match ?x with _ => _ end) => destruct x end
    | match goal with |- hushed (if ?x then _ else _) => destruct x end ].

Section Hushed.
Context `{IdSource} `{Redactor} `{Codecs} `{Aead} `{SecretVault} `{Host}.
Context (E : Env) (looks : nat -> Look).

Lemma hushed_look : hushed (take_look looks).
Proof. intros s. by split. Qed.

Lemma hushed_bridge {A} (p : EngineReads -> Prog A) : (forall rd, callless (p rd)) -> hushed (run_bridge E looks p).
Proof.
  intros Hp s. unfold run_bridge. pose proof (callless_exec E _ (ds_bridge s) (Hp (lk_engine (looks (ds_look s))))) as Hc.
  destruct (exec_prog _ _ _) as [w a]. simpl in *. by split.
Qed.

Lemma hushed_bridge_st {A} (p : EngineReads -> Prog (StResult A)) :
  (forall rd, callless (p rd)) -> hushed (bridge_st E looks p).
Proof. intros Hp. unfold bridge_st. apply hushed_dbind; [by apply hushed_bridge | auto with hushed]. Qed.

Lemma hushed_channel {A} (f : DB -> A) : hushed (channel_read E looks f).
Proof. apply hushed_bridge. auto. Qed.

#[local] Hint Resolve hushed_look hushed_channel : hushed.

Lemma hushed_selected_chat actor key : hushed (require_selected_chat E looks actor key).
Proof. unfold require_selected_chat, load_context. hushed. Qed.
Lemma hushed_numeric : hushed (numeric_bot_id_d looks).
Proof. unfold numeric_bot_id_d. hushed. Qed.

#[local] Hint Resolve hushed_numeric : hushed.

Lemma hushed_scope_for verb actor bot chat loc : hushed (scope_for looks verb actor bot chat loc).
Proof. unfold scope_for. hushed. Qed.
Lemma hushed_delivery_scope actor key d : hushed (turn_scope_for_delivery E looks actor key d).
Proof. unfold turn_scope_for_delivery, load_context. hushed. Qed.
Lemma hushed_claim engine actor op kind loc origin : hushed (claim_turn E looks engine actor op kind loc origin).
Proof.
  apply hushed_bridge_st. intros _. unfold claim_operation_with_origin, claim.
  destruct (_ || _); [auto |]. destruct (en_coordinator engine); [| auto]. apply callless_map_err, callless_bind; auto.
Qed.

Lemma callless_query engine rd actor q : callless (query engine rd actor q).
Proof. unfold query. destruct q; repeat case_match; auto; apply callless_bind; auto. Qed.

Lemma hushed_last_turn engine actor loc :
  hushed (bridge_st E looks (λ rd, query engine rd actor (GetLastTurn loc))).
Proof. apply hushed_bridge_st. intros rd. apply callless_query. Qed.

Lemma hushed_load op scope : hushed (of_delivery (load_frozen_target op scope)).
Proof. intros s. unfold of_delivery, load_frozen_target. repeat case_match; simplify_eq; by split. Qed.
Lemma hushed_find scope : hushed (of_delivery (find_last_turn scope)).
Proof. intros s. unfold of_delivery, find_last_turn. repeat case_match; simplify_eq; by split. Qed.
End Hushed.

(** ** Freezing a target *)

Definition target_of_row (op : string) (scope : TurnScope) (r : TargetRow) : FrozenTurnTarget :=
  MkFrozenTurnTarget op scope (tt_target_turn_id r) (tt_tail_fingerprint r) (tt_target_revision r) (tt_old_message_ids r)
    (tt_status r).

Lemma load_inv op scope w w' r :
  load_frozen_target op scope w = (w', Some r) ->
  w' = w /\ match r with
            | Ok (Some t) => exists row, targets w !! op = Some row /\ tt_scope row = scope /\ t = target_of_row op scope row
            | Ok None => targets w !! op = None \/ exists row, targets w !! op = Some row /\ tt_scope row <> scope
            | Err _ => True
            end.
Proof.
  unfold load_frozen_target, targets. destruct (telegram_turn_targets (w_tables w) !! op) as [row|] eqn:Hrow;
    [| intros [= <- <-]; auto].
  destruct (tt_scope row =?= scope) eqn:Hs; simpl;
    [apply bool_decide_eq_true_1 in Hs | apply bool_decide_eq_false_1 in Hs; intros [= <- <-]; eauto].
  destruct (_ || _); [by intros [= <- <-] |]. destruct (_ <? _)%Z; [by intros [= <- <-] |].
  intros [= <- <-]. split; [done |]. exists row. by rewrite <- Hs.
Qed.

(** A target was added under an id that had none. *)
Definition added (op : string) (scope : TurnScope) (row : TargetRow) (T T' : gmap string TargetRow) : Prop :=
  T !! op = None /\ T' = <[op := row]> T /\ tt_scope row = scope /\ tt_status row = "frozen".

Lemma freeze_inv now op scope turn tail rev ids w w' r :
  freeze_target now op scope turn tail rev ids w = (w', Some r) ->
  w_requests w' = w_requests w
  /\ match r with
     | Ok t => (exists row, added op scope row (targets w) (targets w') /\ t = target_of_row op scope row)
               \/ (exists row, targets w !! op = Some row /\ tt_scope row = scope)
     | Err _ => targets w' = targets w \/ exists row, added op scope row (targets w) (targets w')
     end.
Proof.
  unfold freeze_target. destruct (_ || _); [intros [= <- <-]; auto |].
  unfold mbind_, mresult, lift_m, get_now. destruct (ok_or _ _) as [revision|e]; simpl; [| intros [= <- <-]; auto].
  unfold insert_target. case_bool_decide as Hex.
  - simpl. destruct (load_frozen_target op scope w) as [w1 [r1|]] eqn:Hl; [| done].
    apply load_inv in Hl as [-> Hl]. destruct r1 as [[t|]|e]; [| intros [= <- <-]; auto ..].
    destruct Hl as (row & Hrow & Hs & ->). destruct (negb _); intros [= <- <-]; eauto.
  - destruct (_ || _); [intros [= <- <-]; simpl; auto |]. simpl.
    set (row := MkTargetRow scope turn tail revision ids "frozen" _ _). set (w1 := set_tables _ w).
    assert (added op scope row (targets w) (targets w1)) as Hadd.
    { split_and!; try done. unfold targets. destruct (_ !! op) eqn:Ho; [| done]. exfalso. eauto. }
    assert (targets w1 !! op = Some row) as Hrow1 by (destruct Hadd as (_ & -> & _); apply lookup_insert_eq).
    destruct (load_frozen_target op scope w1) as [w2 [r1|]] eqn:Hl; [| done].
    apply load_inv in Hl as [-> Hl]. destruct r1 as [[t|]|e]; intros [= <- <-]; (split; [done |]); eauto.
    destruct Hl as (row' & Hrow' & _ & ->). left. exists row. split; [done |]. by simplify_eq.
Qed.

Lemma dbind_inv {A B} (m : D A) (k : A -> D B) s s' r :
  dbind m k s = (s', Some r) ->
  (exists e, m s = (s', Some (Err e)) /\ r = Err e) \/ (exists a s1, m s = (s1, Some (Ok a)) /\ k a s1 = (s', Some r)).
Proof.
  unfold dbind, dresult. destruct (m s) as [s1 [[a|e]|]]; [eauto | | done]. intros [= <- <-]. eauto.
Qed.

Lemma of_delivery_inv {A} (m : M A) s s' r :
  of_delivery m s = (s', r) -> exists w, m (ds_delivery s) = (w, r) /\ s' = set_delivery w s.
Proof. unfold of_delivery. destruct (m (ds_delivery s)) as [w r0]. intros [= <- <-]. eauto. Qed.

Lemma hushed_run {A} (m : D A) s s' r : hushed m -> m s = (s', r) -> hush s s'.
Proof. intros Hm He. specialize (Hm s). by rewrite He in Hm. Qed.

(** No call or request, and at most a new frozen target. *)
Definition frozen_step (op : string) (scope : TurnScope) (s s' : DState) : Prop :=
  w_calls (ds_bridge s') = w_calls (ds_bridge s) /\ w_requests (ds_delivery s') = w_requests (ds_delivery s)
  /\ (targets_of s' = targets_of s \/ exists row, added op scope row (targets_of s) (targets_of s')).

Lemma hush_frozen_step op scope s s' : hush s s' -> frozen_step op scope s s'.
Proof. intros []. split_and!; auto. Qed.

Lemma frozen_step_hush_l op scope a b c : hush a b -> frozen_step op scope b c -> frozen_step op scope a c.
Proof. intros [H1 H2 H3] (H4 & H5 & H6). unfold frozen_step. rewrite H3 in H6. split_and!; [congruence | congruence | done]. Qed.

Section Targets.
Context `{IdSource} `{Redactor} `{Codecs} `{Aead} `{SecretVault} `{Host}.
Context (E : Env) (looks : nat -> Look).

(** The row a command is about to act on. *)
Definition ready (op : string) (scope : TurnScope) (t : FrozenTurnTarget) (s : DState) : Prop :=
  exists row, targets_of s !! op = Some row /\ tt_scope row = scope /\ tt_status row = "frozen" /\ t = target_of_row op scope row.

Lemma freeze_new_inv verb engine actor loc op scope s s' r :
  freeze_new E looks verb engine actor loc op scope s = (s', Some r) ->
  (targets_of s !! op = None \/ exists row, targets_of s !! op = Some row /\ tt_scope row <> scope) ->
  frozen_step op scope s s' /\ match r with Ok t => ready op scope t s' | Err _ => True end.
Proof.
  unfold freeze_new. intros Hf Hno. apply dbind_inv in Hf as [(e & Hq & ->)|(view & s1 & Hq & Hf)];
    apply (hushed_run _ _ _ _ (hushed_last_turn E looks engine actor loc)) in Hq as Hh; [by auto using hush_frozen_step |].
  destruct view as [| | | |? ? [tail|]| |];
    try (injection Hf as <- <-; split; [by apply hush_frozen_step | done]).
  destruct (negb _); [injection Hf as <- <-; split; [by apply hush_frozen_step | done] |].
  apply dbind_inv in Hf as [(e & Hl & ->)|([[turn ids] rev] & s2 & Hl & Hf)];
    apply (hushed_run _ _ _ _ (hushed_find scope)) in Hl; pose proof (transitivity Hh Hl) as Hh2;
    [by auto using hush_frozen_step |].
  destruct turn as [turn|]; simpl in Hf; [| injection Hf as <- <-; by auto using hush_frozen_step].
  unfold dbind, dresult, lift_d in Hf. simpl in Hf.
  apply of_delivery_inv in Hf as (w & Hz & ->). apply freeze_inv in Hz as [Hreq Hz].
  assert (targets (ds_delivery s2) = targets_of s) as Ht by apply Hh2.
  split.
  - split_and!; simpl; [apply Hh2 | rewrite Hreq; apply Hh2 |]. unfold targets_of at 1. simpl.
    unfold targets_of in Ht |- *. simpl. rewrite <- Ht.
    destruct r as [t|e]; [destruct Hz as [(row & Ha & _)|(row & Hr & Hs)]; [eauto |] | done].
    exfalso. rewrite Ht in Hr. fold (targets_of s) in Hr. destruct Hno as [Hno|(q & Hq' & Hne)]; [congruence |].
    rewrite Hq' in Hr. by injection Hr as ->.
  - destruct r as [t|e]; [| done]. destruct Hz as [(row & (Hn & Hi & Hsc & Hst) & ->)|(row & Hr & Hs)].
    + exists row. unfold targets_of. simpl. rewrite Hi, lookup_insert_eq. done.
    + exfalso. rewrite Ht in Hr. destruct Hno as [Hno|(q & Hq' & Hne)]; [congruence |].
      rewrite Hq' in Hr. by injection Hr as ->.
Qed.

Lemma target_for_inv verb inv engine actor loc op scope s s' r :
  target_for E looks verb inv engine actor loc op scope s = (s', Some r) ->
  frozen_step op scope s s'
  /\ match r with
     | Ok (Some t) => ready op scope t s'
     | Ok None => exists row, targets_of s' !! op = Some row /\ tt_status row = "applied"
     | Err _ => True
     end
  /\ (forall row, targets_of s !! op = Some row -> targets_of s' = targets_of s).
Proof.
  unfold target_for. intros Hf. apply dbind_inv in Hf as [(e & Hl & ->)|(found & s1 & Hl & Hf)].
  { apply (hushed_run _ _ _ _ (hushed_load op scope)) in Hl as Hh.
    split_and!; [by apply hush_frozen_step | done | intros ? _; apply Hh]. }
  apply (hushed_run _ _ _ _ (hushed_load op scope)) in Hl as Hh.
  apply of_delivery_inv in Hl as (w & Hl & ->). apply load_inv in Hl as [-> Hl].
  destruct found as [t|].
  - destruct Hl as (row & Hrow & Hsc & ->). simpl in Hf.
    assert (targets_of (set_delivery (ds_delivery s) s) !! op = Some row) as Hrow' by done.
    destruct (tt_status row =?= "applied") eqn:E1.
    { apply bool_decide_eq_true_1 in E1. injection Hf as <- <-.
      split_and!; [by apply hush_frozen_step | eauto | intros ? _; apply Hh]. }
    destruct (_ || _); [| destruct (tt_status row =?= "failed"); [| destruct (tt_status row =?= "frozen") eqn:E2]];
      injection Hf as <- <-; (split_and!; [by apply hush_frozen_step | | intros ? _; apply Hh]); try done.
    apply bool_decide_eq_true_1 in E2. exists row. done.
  - apply dbind_inv in Hf as [(e & Hf & ->)|(t & s2 & Hf & Hk)].
    + apply freeze_new_inv in Hf as [Hf _]; [| exact Hl]. split_and!; [by eapply frozen_step_hush_l | done |].
      intros row Hrow. destruct Hf as (_ & _ & [->|(q & Hn & _)]); [apply Hh |]. change (targets_of s !! op = None) in Hn. congruence.
    + injection Hk as <- <-. apply freeze_new_inv in Hf as [Hf Hr]; [| exact Hl].
      split_and!; [by eapply frozen_step_hush_l | done |].
      intros row Hrow. destruct Hf as (_ & _ & [->|(q & Hn & _)]); [apply Hh |]. change (targets_of s !! op = None) in Hn. congruence.
Qed.
End Targets.

(** ** Moving a target *)

Definition at_status (op : string) (scope : TurnScope) (status : string) (s : DState) : Prop :=
  exists row, targets_of s !! op = Some row /\ tt_scope row = scope /\ tt_status row = status.

Lemma dresult_inv {A B} (m : D A) (k : AppResult A -> D B) s s' r :
  dresult m k s = (s', Some r) -> exists a s1, m s = (s1, Some a) /\ k a s1 = (s', Some r).
Proof. unfold dresult. destruct (m s) as [s1 [a|]]; [eauto | done]. Qed.

Lemma spared_status {A} (m : M A) op scope st s s' r :
  spares m -> of_delivery m s = (s', r) -> at_status op scope st s -> at_status op scope st s' /\ ds_bridge s' = ds_bridge s.
Proof.
  intros Hm He (row & Hr & ?). apply of_delivery_inv in He as (w & Hw & ->). split; [| done].
  specialize (Hm (ds_delivery s)). rewrite Hw in Hm. simpl in Hm. exists row. unfold targets_of. simpl. by rewrite Hm.
Qed.

Section Moves.
Context `{IdSource} `{Redactor} `{Codecs} `{Aead} `{SecretVault} `{Host}.
Context (E : Env) (looks : nat -> Look).

Lemma cas_moves op scope a b s s' r :
  at_status op scope a s -> cas_d op scope a b s = (s', Some r) -> target_transition a b = true ->
  r = Ok tt /\ at_status op scope b s' /\ ds_bridge s' = ds_bridge s.
Proof.
  intros (row & Hr & Hs & Hst) He Ht. apply of_delivery_inv in He as (w & Hw & ->). revert Hw.
  unfold cas_target_status. rewrite Ht. simpl. unfold mbind_, mresult, get_now.
  unfold targets_of, targets in Hr. rewrite Hr, !bool_decide_eq_true_2 by done. simpl. intros [= <- <-].
  split_and!; [done | | done]. eexists. unfold targets_of, targets. simpl. rewrite lookup_insert_eq. done.
Qed.

Lemma settle_moves {A} op scope next e s s' (r : AppResult A) :
  at_status op scope "applying" s -> settle_with op scope next e s = (s', Some r) ->
  target_transition "applying" next = true ->
  r = Err e /\ at_status op scope next s' /\ ds_bridge s' = ds_bridge s.
Proof.
  intros Ha He Ht. unfold settle_with in He. apply dbind_inv in He as [(e1 & Hc & ->)|(? & s1 & Hc & Hk)];
    destruct (cas_moves _ _ _ _ _ _ _ Ha Hc Ht) as (Hr & Hs & Hb); [done |]. by injection Hk as <- <-.
Qed.

Lemma check_moves op scope turn rev s s' r :
  at_status op scope "applying" s -> check_revision op scope turn rev s = (s', Some r) ->
  ds_bridge s' = ds_bridge s
  /\ ((r = Ok tt /\ at_status op scope "applying" s') \/ (exists e, r = Err e /\ at_status op scope "failed" s')).
Proof.
  intros Ha He. unfold check_revision in He. apply dresult_inv in He as (a & s1 & Hm & Hk).
  apply (spared_status _ op scope "applying") in Hm as [Ha1 Hb1]; [| auto with spares | done].
  destruct a as [?|e]; [injection Hk as <- <-; by eauto |].
  destruct (settle_moves _ _ _ _ _ _ _ Ha1 Hk eq_refl) as (-> & Hs & Hb). split; [congruence |]. eauto.
Qed.

(** What the engine answered to a command, at some time. *)
Definition engine_said (engine : SidecarBridgeEngine) (actor : Actor) (command : StBridgeCommand)
    (origin : BridgeOperationOrigin) (answer : StResult StBridgeOutcome) : Prop :=
  exists rd w w', exec_prog E (execute_with_origin engine rd actor command origin) w = (w', answer).

Lemma run_moves engine actor command origin verb op scope s s' r :
  at_status op scope "applying" s ->
  run_turn E looks engine actor command origin verb op scope s = (s', Some r) ->
  exists answer, engine_said engine actor command origin answer
    /\ match answer with
       | Err e => r = Err (from_st e) /\ at_status op scope (if e_commit_state e =?= NotApplied then "failed" else "unknown") s'
       | Ok outcome =>
           if out_confirmed_commit outcome then r = Ok outcome /\ at_status op scope "applying" s'
           else r = Err (commit_unconfirmed verb) /\ at_status op scope "unknown" s'
       end.
Proof.
  intros Ha He. unfold run_turn in He. apply dbind_inv in He as [(e & Hm & ->)|(answer & s1 & Hm & Hk)].
  { unfold run_bridge in Hm. by destruct (exec_prog _ _ _). }
  unfold run_bridge in Hm. destruct (exec_prog _ _ _) as [w1 a1] eqn:Hx. injection Hm as <- <-.
  set (s1 := looked _) in *.
  assert (at_status op scope "applying" s1) as Ha1 by exact Ha.
  exists a1. split; [by exists (lk_engine (looks (ds_look s))), (ds_bridge s), w1 |].
  destruct a1 as [outcome|e].
  - destruct (out_confirmed_commit outcome); [by injection Hk as <- <- |].
    by destruct (settle_moves _ _ _ _ _ _ _ Ha1 Hk eq_refl) as (-> & ? & _).
  - assert (target_transition "applying" (if e_commit_state e =?= NotApplied then "failed" else "unknown") = true) as Ht
      by by destruct (e_commit_state e).
    by destruct (settle_moves _ _ _ _ _ _ _ Ha1 Hk Ht) as (-> & ? & _).
Qed.

Lemma confirm_moves what op scope s s' r :
  at_status op scope "applying" s -> confirm_applied what op scope s = (s', Some r) ->
  r = Ok tt /\ at_status op scope "applied" s'.
Proof.
  intros Ha He. unfold confirm_applied in He. apply dresult_inv in He as (a & s1 & Hm & Hk).
  destruct (cas_moves _ _ _ _ _ _ _ Ha Hm eq_refl) as (-> & Hs & _). by injection Hk as <- <-.
Qed.

Lemma apply_moves verb command engine actor op scope t origin s s' r :
  at_status op scope "frozen" s ->
  apply_target E looks verb command engine actor op scope t origin s = (s', Some r) ->
  (exists e, r = Err e /\ at_status op scope "failed" s' /\ ds_bridge s' = ds_bridge s)
  \/ exists answer, engine_said engine actor command origin answer
    /\ match answer with
       | Err e => r = Err (from_st e) /\ at_status op scope (if e_commit_state e =?= NotApplied then "failed" else "unknown") s'
       | Ok outcome =>
           if out_confirmed_commit outcome then r = Ok outcome /\ at_status op scope "applying" s'
           else r = Err (commit_unconfirmed verb) /\ at_status op scope "unknown" s'
       end.
Proof.
  intros Ha He. unfold apply_target in He. apply dbind_inv in He as [(e & Hm & ->)|(? & s1 & Hm & He)];
    destruct (cas_moves _ _ _ _ _ _ _ Ha Hm eq_refl) as (Hr & Hs & Hb); [done |].
  apply dbind_inv in He as [(e & Hm2 & ->)|(? & s2 & Hm2 & He)];
    destruct (check_moves _ _ _ _ _ _ _ Hs Hm2) as (Hb2 & [[? Hs2]|(e' & ? & Hs2)]); try done.
  - left. exists e. split_and!; [done | done | congruence].
  - right. by apply run_moves in He.
Qed.

(** After the commit: shown and applied, or unknown. *)
Definition finished (op : string) (scope : TurnScope) (r : AppResult Replies) (s : DState) : Prop :=
  (exists reply, r = Ok [reply] /\ at_status op scope "applied" s) \/ (exists e, r = Err e /\ at_status op scope "unknown" s).

Lemma undo_finishes delivery op scope t outcome s s' r :
  at_status op scope "applying" s -> finish_undo delivery op scope t outcome s = (s', Some r) -> finished op scope r s'.
Proof.
  intros Ha He. unfold finish_undo in He.
  assert (forall s1 r1, retire_or_unknown delivery scope (ft_target_turn_id t) op s = (s1, Some r1) ->
            (r1 = Ok tt /\ at_status op scope "applying" s1) \/ (exists e, r1 = Err e /\ at_status op scope "unknown" s1)) as Hret.
  { intros s1 r1 Hr1. unfold retire_or_unknown in Hr1. apply dresult_inv in Hr1 as (a & s2 & Hm & Hk).
    apply (spared_status _ op scope "applying") in Hm as [Ha1 _]; [| auto with spares | done].
    destruct a as [?|e]; [injection Hk as <- <-; by left |]. right.
    apply dresult_inv in Hk as (b & s3 & Hm2 & Hk). destruct (cas_moves _ _ _ _ _ _ _ Ha1 Hm2 eq_refl) as (-> & Hs & _).
    injection Hk as <- <-. eauto. }
  apply dbind_inv in He as [(e & Hm & ->)|(? & s1 & Hm & He)];
    destruct (Hret _ _ Hm) as [[? Ha1]|(e' & ? & Ha1)]; simplify_eq; [right; eauto |].
  apply dbind_inv in He as [(e & Hm2 & ->)|(? & s2 & Hm2 & He)];
    destruct (confirm_moves _ _ _ _ _ _ Ha1 Hm2) as [? Ha2]; simplify_eq. injection He as <- <-. left. eauto.
Qed.

Lemma revoke_finishes delivery op scope t outcome s s' r :
  at_status op scope "applying" s -> finish_revoke delivery op scope t outcome s = (s', Some r) -> finished op scope r s'.
Proof.
  intros Ha He. unfold finish_revoke in He.
  assert (forall s1 r1, revoke_messages delivery op scope (ft_old_message_ids t) s = (s1, Some r1) ->
            (r1 = Ok tt /\ at_status op scope "applying" s1) \/ (exists e, r1 = Err e /\ at_status op scope "unknown" s1)) as Hrev.
  { intros s1 r1 Hr1. unfold revoke_messages in Hr1. destruct (ft_old_message_ids t) as [|i ids]; [injection Hr1 as <- <-; by left |].
    apply dresult_inv in Hr1 as (a & s2 & Hm & Hk).
    apply (spared_status _ op scope "applying") in Hm as [Ha1 _]; [| auto with spares | done].
    destruct a as [eff|e]; [destruct (failed_message_ids eff) |]; [injection Hk as <- <-; by left | |];
      destruct (settle_moves _ _ _ _ _ _ _ Ha1 Hk eq_refl) as (-> & ? & _); right; eauto. }
  apply dbind_inv in He as [(e & Hm & ->)|(? & s1 & Hm & He)];
    destruct (Hrev _ _ Hm) as [[? Ha1]|(e' & ? & Ha1)]; simplify_eq; [right; eauto |].
  apply dbind_inv in He as [(e & Hm2 & ->)|(? & s2 & Hm2 & He)];
    destruct (confirm_moves _ _ _ _ _ _ Ha1 Hm2) as [? Ha2]; simplify_eq. injection He as <- <-. left. eauto.
Qed.
End Moves.

(** ** Redo *)

(** The errors that end a redo without a word on the target: a render version
    beyond [u64] and a blank turn id, which no frozen target has. *)
Definition turn_id_invalid : AppError :=
  bad_request "TELEGRAM_TURN_ID_INVALID" "Telegram turn and operation IDs are required".

Definition gave_up (op : string) (scope : TurnScope) (e : AppError) (s : DState) : Prop :=
  at_status op scope "unknown" s \/ at_status op scope "failed" s
  \/ (at_status op scope "applying" s /\ (e = revision_overflow \/ e = turn_id_invalid)).

Definition goes_on {A} (op : string) (scope : TurnScope) (m : D A) : Prop :=
  forall s s' r, at_status op scope "applying" s -> m s = (s', Some r) ->
  match r with Ok _ => at_status op scope "applying" s' | Err e => gave_up op scope e s' end.

Lemma goes_on_bind {A B} op scope (m : D A) (k : A -> D B) :
  goes_on op scope m -> (forall a, goes_on op scope (k a)) -> goes_on op scope (dbind m k).
Proof.
  intros Hm Hk s s' r Ha He. apply dbind_inv in He as [(e & He & ->)|(a & s1 & He & Hr)].
  - exact (Hm _ _ _ Ha He).
  - exact (Hk a _ _ _ (Hm _ _ _ Ha He) Hr).
Qed.

Lemma goes_on_ok {A} op scope (a : A) : goes_on op scope (ok_d a).
Proof. intros s s' r Ha [= <- <-]. done. Qed.

Lemma goes_on_spared {A B} op scope (m : M A) (k : result A AppError -> D B) :
  spares m -> (forall r, goes_on op scope (k r)) -> goes_on op scope (dresult (of_delivery m) k).
Proof.
  intros Hm Hk s s' r Ha He. apply dresult_inv in He as (a & s1 & He & Hr).
  apply (spared_status _ op scope "applying") in He as [Ha1 _]; [| done | done]. exact (Hk a _ _ _ Ha1 Hr).
Qed.

Section Redo.
Context `{IdSource} `{Redactor} `{Codecs} `{Aead} `{SecretVault} `{Host}.
Context (E : Env) (looks : nat -> Look).
Context (op : string) (scope : TurnScope).

Lemma goes_on_settle {A} next e :
  next = "unknown" \/ next = "failed" -> goes_on op scope (settle_with (A := A) op scope next e).
Proof.
  intros Hn s s' r Ha He. assert (target_transition "applying" next = true) as Ht by by destruct Hn; subst.
  destruct (settle_moves _ _ _ _ _ _ _ Ha He Ht) as (-> & Hs & _). unfold gave_up. destruct Hn; subst; auto.
Qed.

Lemma goes_on_check turn rev : goes_on op scope (check_revision op scope turn rev).
Proof.
  intros s s' r Ha He. destruct (check_moves _ _ _ _ _ _ _ Ha He) as (_ & [[-> Hs]|(e & -> & Hs)]); [done |].
  unfold gave_up. auto.
Qed.

Lemma goes_on_next rev : goes_on op scope (lift_d (next_target_revision rev)).
Proof.
  intros s s' r Ha [= <- <-]. unfold next_target_revision. destruct (_ <? _)%Z; [done |]. unfold gave_up. auto.
Qed.

Create HintDb goes_on.
#[local] Hint Resolve goes_on_ok goes_on_check goes_on_next : goes_on.
#[local] Hint Extern 1 (goes_on _ _ (settle_with _ _ _ _)) => apply goes_on_settle; tauto : goes_on.

Ltac goes_on :=
  repeat first
    [ progress intros
    | solve [auto with goes_on]
    | apply goes_on_bind
    | apply goes_on_spared; [solve [auto with spares] |]
    | match goal with |- goes_on _ _ (match ?x with _ => _ end) => destruct x end
    | match goal with |- goes_on _ _ (if ?x then _ else _) => destruct x end ].

Lemma goes_on_chunk d md turn rev i m text : goes_on op scope (redo_chunk d md op scope turn rev i m text).
Proof. unfold redo_chunk. goes_on. Qed.

#[local] Hint Resolve goes_on_chunk : goes_on.

Lemma goes_on_edits d md turn rev i pairs : goes_on op scope (redo_edits d md op scope turn rev i pairs).
Proof. revert rev i. induction pairs as [|[m text] pairs IH]; intros rev i; cbn [redo_edits]; goes_on. Qed.

Lemma goes_on_sends d md turn rev i chunks : goes_on op scope (redo_sends d md op scope turn rev i chunks).
Proof. revert rev i. induction chunks as [|c chunks IH]; intros rev i; cbn [redo_sends]; goes_on. Qed.

#[local] Hint Resolve goes_on_edits goes_on_sends : goes_on.

Lemma goes_on_show d t text : goes_on op scope (show_redo d op scope t text).
Proof.
  unfold show_redo. apply goes_on_bind.
  { intros s s' r Ha. unfold redo_chunks. destruct (split_text _ _ _) as [[|]|]; [intros [= <- <-]; done ..| done]. }
  intros desired. apply goes_on_bind.
  { intros s s' r Ha. unfold lift_d, TurnMetadata_new_scoped. intros [= <- <-].
    destruct (_ || _); [| done]. unfold gave_up. right. right. split; [done | by right]. }
  unfold redo_cleanup. goes_on.
Qed.

Lemma redo_finishes engine d t outcome s s' r :
  at_status op scope "applying" s -> finish_redo E looks engine d op scope t outcome s = (s', Some r) ->
  (at_status op scope "applied" s') \/ exists e, r = Err e /\ gave_up op scope e s'.
Proof.
  intros Ha He. unfold finish_redo in He. apply dbind_inv in He as [(e & Hm & ->)|(? & s1 & Hm & He)].
  { right. exists e. split; [done |]. exact (goes_on_show d t _ _ _ _ Ha Hm). }
  pose proof (goes_on_show d t _ _ _ _ Ha Hm) as Ha1. simpl in Ha1. left.
  apply dbind_inv in He as [(e & Hm2 & ->)|(? & s2 & Hm2 & He)];
    destruct (confirm_moves _ _ _ _ _ _ Ha1 Hm2) as [? Ha2]; simplify_eq.
  destruct (en_coordinator engine); [| by injection He as <- <-].
  assert (forall {A} (p : EngineReads -> Prog (StResult A)), callless (p (lk_engine (looks (ds_look s2)))) ->
    forall s3 q, bridge_st E looks p s2 = (s3, q) -> at_status op scope "applied" s3) as Hst.
  { intros A p _ s3 q. unfold bridge_st, dbind, dresult, run_bridge. destruct (exec_prog _ _ _) as [w a].
    destruct (map_err from_st a); intros [= <- <-]; exact Ha2. }
  apply dbind_inv in He as [(e & Hm3 & ->)|(? & s3 & Hm3 & He)].
  - by eapply Hst; [| exact Hm3]; apply callless_map_err.
  - injection He as <- <-. by eapply Hst; [| exact Hm3]; apply callless_map_err.
Qed.
End Redo.

(** ** The commands *)

Section Commands.
Context `{IdSource} `{Redactor} `{Codecs} `{Aead} `{SecretVault} `{Host}.
Context (E : Env) (looks : nat -> Look).
Context (services : TelegramServices) (actor : Actor) (context_key op : string) (origin : BridgeOperationOrigin).

(** The three commands that act on the last turn, under the operation id [op]. *)
Inductive turn_command : D Replies -> Prop :=
| tc_undo bot chat id d : canonical_id id = Some op -> turn_command (undo_turn E looks bot chat services actor context_key id d origin)
| tc_revoke bot chat id d : canonical_id id = Some op -> turn_command (revoke_turn E looks bot chat services actor context_key id d origin)
| tc_redo id d : canonical_id id = Some op -> turn_command (redo_turn E looks services actor context_key id d origin).

(** How each goes on once it knows its scope. *)
Definition act_on (m : SidecarBridgeEngine -> StChatLocator -> TurnScope -> FrozenTurnTarget -> D Replies) (s s' : DState)
    (r : AppResult Replies) : Prop :=
  hush s s'
  \/ exists engine loc scope verb inv s1, hush s s1
     /\ (do! target := target_for E looks verb inv engine actor loc op scope in
         match target with None => ok_d [] | Some t => m engine loc scope t end) s1 = (s', Some r).

Lemma settled_left_alone m s s' r row :
  act_on m s s' r -> targets_of s !! op = Some row -> tt_status row <> "frozen" -> hush s s'.
Proof.
  intros [Hh|(engine & loc & scope & verb & inv & s1 & Hh & He)] Hrow Hst; [done |].
  assert (targets_of s1 !! op = Some row) as Hrow1 by by rewrite (hu_targets _ _ Hh).
  assert (forall s2 q, target_for E looks verb inv engine actor loc op scope s1 = (s2, Some q) ->
            hush s1 s2 /\ forall t, q <> Ok (Some t)) as Htf.
  { intros s2 q Hq. destruct (target_for_inv _ _ _ _ _ _ _ _ _ _ _ _ Hq) as ((Hc & Hr & _) & Hres & Hsame).
    specialize (Hsame row Hrow1). split; [by split |]. intros t ->. destruct Hres as (row' & Hr' & _ & Hf & _).
    rewrite Hsame, Hrow1 in Hr'. by simplify_eq. }
  apply dbind_inv in He as [(e & Hm & ->)|(target & s2 & Hm & He)]; destruct (Htf _ _ Hm) as [Hh2 Hno].
  - by etransitivity.
  - destruct target as [t|]; [by destruct (Hno t) |]. injection He as <- <-. by etransitivity.
Qed.

(** Take a quiet step off the front of a command. *)
Ltac quiet_step He Hh :=
  let e := fresh "e" in let x := fresh "x" in let s1 := fresh "s" in let Hm := fresh "Hm" in
  apply dbind_inv in He as [(e & Hm & ->)|(x & s1 & Hm & He)];
  (apply hushed_run in Hm;
   [| solve [auto using hushed_lift, hushed_selected_chat, hushed_scope_for, hushed_claim, hushed_delivery_scope]]);
  pose proof (transitivity Hh Hm) as Hh'; clear Hm Hh; rename Hh' into Hh; [by left |].

Definition undo_rest (d : TelegramDelivery) (engine : SidecarBridgeEngine) (loc : StChatLocator) (scope : TurnScope)
    (t : FrozenTurnTarget) : D Replies :=
  do! outcome := apply_target E looks "undo" (UndoLastTurnCmd loc op) engine actor op scope t origin in
  finish_undo d op scope t outcome.

Definition revoke_rest (d : TelegramDelivery) (engine : SidecarBridgeEngine) (loc : StChatLocator) (scope : TurnScope)
    (t : FrozenTurnTarget) : D Replies :=
  do! outcome := apply_target E looks "revoke" (RevokeLastTurn loc op) engine actor op scope t origin in
  finish_revoke d op scope t outcome.

Definition redo_rest (d : TelegramDelivery) (engine : SidecarBridgeEngine) (loc : StChatLocator) (scope : TurnScope)
    (t : FrozenTurnTarget) : D Replies :=
  do! _ := cas_d op scope "frozen" "applying" in
  do! outcome := run_turn E looks engine actor (RegenerateReply loc op None) origin "redo" op scope in
  finish_redo E looks engine d op scope t outcome.

Lemma undo_acts bot chat id d s s' r :
  canonical_id id = Some op -> undo_turn E looks bot chat services actor context_key id d origin s = (s', Some r) ->
  exists d0, act_on (undo_rest d0) s s' r.
Proof.
  intros Hid He. unfold undo_turn in He. exists (default (TelegramDelivery_new "" 0 0 0 0 0 0) d).
  pose proof (reflexivity s : hush s s) as Hh. quiet_step He Hh. rewrite Hid in He.
  apply dbind_inv in He as [(? & [=] & _)|(? & ? & [= <- <-] & He)].
  quiet_step He Hh. destruct d as [d|]; [| injection He as <- <-; by left].
  apply dbind_inv in He as [(? & [=] & _)|(? & ? & [= <- <-] & He)].
  quiet_step He Hh. quiet_step He Hh. destruct (is_delivered _); [injection He as <- <-; by left |].
  right. eexists _, _, _, _, _, _. split; [exact Hh | exact He].
Qed.

Lemma revoke_acts bot chat id d s s' r :
  canonical_id id = Some op -> revoke_turn E looks bot chat services actor context_key id d origin s = (s', Some r) ->
  exists d0, act_on (revoke_rest d0) s s' r.
Proof.
  intros Hid He. unfold revoke_turn in He. exists (default (TelegramDelivery_new "" 0 0 0 0 0 0) d).
  pose proof (reflexivity s : hush s s) as Hh. quiet_step He Hh. rewrite Hid in He.
  apply dbind_inv in He as [(? & [=] & _)|(? & ? & [= <- <-] & He)].
  quiet_step He Hh. quiet_step He Hh. destruct d as [d|]; [| injection He as <- <-; by left].
  apply dbind_inv in He as [(? & [=] & _)|(? & ? & [= <- <-] & He)].
  quiet_step He Hh. destruct (is_delivered _); [injection He as <- <-; by left |].
  right. eexists _, _, _, _, _, _. split; [exact Hh | exact He].
Qed.

Lemma redo_acts id d s s' r :
  canonical_id id = Some op -> redo_turn E looks services actor context_key id d origin s = (s', Some r) ->
  exists d0, act_on (redo_rest d0) s s' r.
Proof.
  intros Hid He. unfold redo_turn in He. exists (default (TelegramDelivery_new "" 0 0 0 0 0 0) d).
  pose proof (reflexivity s : hush s s) as Hh. quiet_step He Hh. rewrite Hid in He.
  apply dbind_inv in He as [(? & [=] & _)|(? & ? & [= <- <-] & He)]. quiet_step He Hh.
  assert (hushed (match d with
                  | Some delivery =>
                      do! scope := turn_scope_for_delivery E looks actor context_key delivery in ok_d (Some (delivery, scope))
                  | None => ok_d None
                  end)) as Hsc.
  { destruct d; [| apply hushed_ok]. apply hushed_dbind; [apply hushed_delivery_scope | intros; apply hushed_ok]. }
  apply dbind_inv in He as [(e & Hm & ->)|(scoped & s2 & Hm & He)].
  { apply hushed_run in Hm; [| done]. left. by etransitivity. }
  assert (forall d' sc, scoped = Some (d', sc) -> d = Some d') as Hd.
  { intros d' sc ->. destruct d as [d0|]; [| by simplify_eq].
    apply dbind_inv in Hm as [(? & _ & [=])|(? & ? & _ & [= _ <- _])]. done. }
  apply hushed_run in Hm; [| done]. pose proof (transitivity Hh Hm) as Hh'. clear Hm Hh. rename Hh' into Hh.
  quiet_step He Hh. destruct (is_delivered _); [injection He as <- <-; by left |].
  destruct scoped as [[d' scope]|]; [| injection He as <- <-; by left]. rewrite (Hd _ _ eq_refl).
  right. eexists _, _, _, _, _, _. split; [exact Hh | exact He].
Qed.

(** A turn is taken back or regenerated once.  When the frozen target of an
    operation has left the status frozen, because its command is under way, was
    applied, failed, or ended in doubt, the same command run again, be it an undo, a
    revoke or a redo, requests no commit or chat creation of SillyTavern's backend, calls
    nothing at Telegram and leaves every target as it is. *)
Theorem settled_turn_is_left_alone m s s' r row :
  turn_command m -> m s = (s', Some r) ->
  targets_of s !! op = Some row -> tt_status row <> "frozen" ->
  w_calls (ds_bridge s') = w_calls (ds_bridge s) /\ w_requests (ds_delivery s') = w_requests (ds_delivery s)
  /\ targets_of s' = targets_of s.
Proof.
  intros Hm He Hrow Hst. assert (exists m0, act_on m0 s s' r) as (m0 & Ha).
  { destruct Hm as [bot chat id d Hid|bot chat id d Hid|id d Hid].
    - by destruct (undo_acts _ _ _ _ _ _ _ Hid He) as (d0 & ?); eexists.
    - by destruct (revoke_acts _ _ _ _ _ _ _ Hid He) as (d0 & ?); eexists.
    - by destruct (redo_acts _ _ _ _ _ Hid He) as (d0 & ?); eexists. }
  destruct (settled_left_alone _ _ _ _ _ Ha Hrow Hst). done.
Qed.

(** What the status left behind and the answer say, given what the engine said and
    whether no commit or creation was requested. *)
Inductive turn_report (said : StResult StBridgeOutcome -> Prop) (idle : Prop) : string -> AppResult Replies -> Prop :=
| rp_not_begun res : idle -> turn_report said idle "frozen" res
| rp_stale e : idle -> turn_report said idle "failed" (Err e)
| rp_refused e : said (Err e) -> e_commit_state e = NotApplied -> turn_report said idle "failed" (Err (from_st e))
| rp_unsure e : said (Err e) -> e_commit_state e <> NotApplied -> turn_report said idle "unknown" (Err (from_st e))
| rp_unconfirmed outcome e : said (Ok outcome) -> out_confirmed_commit outcome = false -> turn_report said idle "unknown" (Err e)
| rp_not_shown outcome e : said (Ok outcome) -> out_confirmed_commit outcome = true -> turn_report said idle "unknown" (Err e)
| rp_done outcome reply :
    said (Ok outcome) -> out_confirmed_commit outcome = true -> turn_report said idle "applied" (Ok [reply]).

Lemma turn_report_idle said (idle idle' : Prop) st r : (idle -> idle') -> turn_report said idle st r -> turn_report said idle' st r.
Proof.
  intros Hi Hr. destruct Hr.
  - apply rp_not_begun. auto.
  - apply rp_stale. auto.
  - by apply rp_refused.
  - by apply rp_unsure.
  - by eapply rp_unconfirmed.
  - by eapply rp_not_shown.
  - by eapply rp_done.
Qed.

(** No commit and no chat creation was requested of SillyTavern's backend. *)
Definition no_calls (s s' : DState) : Prop := w_calls (ds_bridge s') = w_calls (ds_bridge s).

(** The last word on a target that was not yet begun. *)
Definition reported (command : StChatLocator -> StBridgeCommand) (s s' : DState) (r : AppResult Replies) : Prop :=
  (targets_of s' !! op = targets_of s !! op /\ no_calls s s')
  \/ exists row engine loc, targets_of s' !! op = Some row
     /\ turn_report (engine_said E engine actor (command loc) origin) (no_calls s s') (tt_status row) r.

Lemma reported_of m command s s' r :
  (forall engine loc scope t s1 s2 q, at_status op scope "frozen" s1 -> m engine loc scope t s1 = (s2, Some q) ->
     exists st, at_status op scope st s2
       /\ turn_report (engine_said E engine actor (command loc) origin) (no_calls s1 s2) st q) ->
  act_on m s s' r -> reported command s s' r.
Proof.
  intros Hm [Hh|(engine & loc & scope & verb & inv & s1 & Hh & He)].
  { left. split; [by rewrite (hu_targets _ _ Hh) | apply Hh]. }
  assert (forall s2 q, target_for E looks verb inv engine actor loc op scope s1 = (s2, Some q) ->
            no_calls s s2 /\ (targets_of s2 !! op = targets_of s !! op
              \/ exists row, targets_of s2 !! op = Some row /\ tt_status row = "frozen")) as Htf.
  { intros s2 q Hq. destruct (target_for_inv _ _ _ _ _ _ _ _ _ _ _ _ Hq) as ((Hc & _ & Ht) & _ & _).
    split; [unfold no_calls; rewrite Hc; apply Hh |]. rewrite <- (hu_targets _ _ Hh).
    destruct Ht as [->|(row & _ & -> & _ & Hst)]; [by left |]. right. exists row. by rewrite lookup_insert_eq. }
  assert (forall s2 res, no_calls s s2 -> targets_of s2 !! op = targets_of s !! op
      \/ (exists row, targets_of s2 !! op = Some row /\ tt_status row = "frozen") -> reported command s s2 res) as Hquiet.
  { intros s2 res Hn [Heq|(row & Hrow & Hst)]; [by left |]. right. exists row, engine, loc. split; [done |]. rewrite Hst. by constructor. }
  apply dbind_inv in He as [(e & Hq & ->)|(target & s2 & Hq & He)]; destruct (Htf _ _ Hq) as [Hn Ht]; [by apply Hquiet |].
  destruct target as [t|]; [| injection He as <- <-; by apply Hquiet].
  destruct (target_for_inv _ _ _ _ _ _ _ _ _ _ _ _ Hq) as (_ & (row & Hrow & Hsc & Hst & _) & _).
  destruct (Hm _ _ _ _ _ _ _ (ex_intro _ row (conj Hrow (conj Hsc Hst))) He) as (st & (row' & Hrow' & _ & <-) & Hrep).
  right. exists row', engine, loc. split; [done |].
  eapply turn_report_idle; [| exact Hrep]. unfold no_calls in *. congruence.
Qed.

(** A target ends as what became of it. *)
Lemma finish_reports verb command finish engine scope t s s' r :
  (forall outcome s1 s2 q, at_status op scope "applying" s1 -> finish outcome s1 = (s2, Some q) -> finished op scope q s2) ->
  at_status op scope "frozen" s ->
  (do! outcome := apply_target E looks verb command engine actor op scope t origin in finish outcome) s = (s', Some r) ->
  exists st, at_status op scope st s' /\ turn_report (engine_said E engine actor command origin) (no_calls s s') st r.
Proof.
  intros Hfin Ha He. apply dbind_inv in He as [(e & Hm & ->)|(outcome & s1 & Hm & He)];
    destruct (apply_moves _ _ _ _ _ _ _ _ _ _ _ _ _ Ha Hm) as [(e' & Heq & Hs & Hb)|(answer & Hsaid & Hans)]; try done.
  - exists "failed". split; [done |]. constructor. unfold no_calls. by rewrite Hb.
  - destruct answer as [outcome|e0].
    + destruct (out_confirmed_commit outcome) eqn:Hc; destruct Hans as [Heq Hs]; [done |].
      exists "unknown". split; [done |]. by eapply rp_unconfirmed.
    + destruct Hans as [[= ->] Hs]. destruct (e_commit_state e0 =?= NotApplied) eqn:Hn.
      * exists "failed". split; [done |]. apply rp_refused; [done |]. by apply bool_decide_eq_true_1 in Hn.
      * exists "unknown". split; [done |]. apply rp_unsure; [done |]. by apply bool_decide_eq_false_1 in Hn.
  - destruct answer as [o|e0]; [| by destruct Hans].
    destruct (out_confirmed_commit o) eqn:Hc; destruct Hans as [[= <-] Hs].
    destruct (Hfin _ _ _ _ Hs He) as [(reply & -> & Hs')|(e & -> & Hs')].
    + exists "applied". split; [done |]. by eapply rp_done.
    + exists "unknown". split; [done |]. by eapply rp_not_shown.
Qed.

Inductive removal : (StChatLocator -> StBridgeCommand) -> D Replies -> Prop :=
| rm_undo bot chat id d : canonical_id id = Some op ->
    removal (λ loc, UndoLastTurnCmd loc op) (undo_turn E looks bot chat services actor context_key id d origin)
| rm_revoke bot chat id d : canonical_id id = Some op ->
    removal (λ loc, RevokeLastTurn loc op) (revoke_turn E looks bot chat services actor context_key id d origin).

(** C18: an undo or a revoke leaves behind what is known of it.  When the command
    returns, its target is as it was, or still frozen, and no commit or chat creation
    was requested of SillyTavern (the chat may have been read); or the target failed,
    the answer is an error, and either no commit or creation was requested or the engine
    said that nothing was applied; or it is unknown, and the answer is an error: the
    engine's answer does not say what happened, or the commit was confirmed and the
    messages could not be dealt with; or it is applied, the user is told so, and the
    engine had confirmed the commit.  It is never left as applying. *)
Theorem removal_is_reported command m s s' r :
  removal command m -> m s = (s', Some r) -> reported command s s' r.
Proof.
  intros Hm He. destruct Hm as [bot chat id d Hid|bot chat id d Hid].
  - destruct (undo_acts _ _ _ _ _ _ _ Hid He) as (d0 & Ha). eapply reported_of; [| exact Ha].
    intros engine loc scope t s1 s2 q Hf Hq. eapply finish_reports; [| exact Hf | exact Hq].
    intros. by eapply undo_finishes.
  - destruct (revoke_acts _ _ _ _ _ _ _ Hid He) as (d0 & Ha). eapply reported_of; [| exact Ha].
    intros engine loc scope t s1 s2 q Hf Hq. eapply finish_reports; [| exact Hf | exact Hq].
    intros. by eapply revoke_finishes.
Qed.

(** A redo that is over says so: its target is as it was or frozen, or settled; it
    stays applying only when a number of revisions beyond [u64] was needed. *)
Lemma redo_is_settled id d s s' r :
  canonical_id id = Some op -> redo_turn E looks services actor context_key id d origin s = (s', Some r) ->
  targets_of s' !! op = targets_of s !! op
  \/ exists row, targets_of s' !! op = Some row
     /\ (tt_status row = "frozen" \/ tt_status row = "applied" \/ tt_status row = "unknown" \/ tt_status row = "failed"
         \/ r = Err revision_overflow \/ r = Err turn_id_invalid).
Proof.
  intros Hid He. destruct (redo_acts _ _ _ _ _ Hid He) as (d0 & [Hh|(engine & loc & scope & verb & inv & s1 & Hh & Ha)]).
  { left. by rewrite (hu_targets _ _ Hh). }
  rewrite <- (hu_targets _ _ Hh).
  assert (forall s2 q, target_for E looks verb inv engine actor loc op scope s1 = (s2, Some q) ->
            targets_of s2 !! op = targets_of s1 !! op
            \/ exists row, targets_of s2 !! op = Some row /\ tt_status row = "frozen") as Htf.
  { intros s2 q Hq. destruct (target_for_inv _ _ _ _ _ _ _ _ _ _ _ _ Hq) as ((_ & _ & [->|(row & _ & -> & _ & Hst)]) & _ & _);
      [by left |]. right. exists row. by rewrite lookup_insert_eq. }
  apply dbind_inv in Ha as [(e & Hq & ->)|(target & s2 & Hq & Ha)].
  { destruct (Htf _ _ Hq) as [?|(row & ? & ?)]; [by left |]. right. eauto 8. }
  destruct target as [t|].
  2: { injection Ha as <- <-. destruct (Htf _ _ Hq) as [?|(row & ? & ?)]; [by left |]. right. eauto 8. }
  destruct (target_for_inv _ _ _ _ _ _ _ _ _ _ _ _ Hq) as (_ & (row & Hrow & Hsc & Hst & _) & _).
  assert (at_status op scope "frozen" s2) as Hf by (by exists row). right.
  assert (forall st, at_status op scope st s' ->
    (st = "frozen" \/ st = "applied" \/ st = "unknown" \/ st = "failed" \/ r = Err revision_overflow \/ r = Err turn_id_invalid) ->
    exists row0, targets_of s' !! op = Some row0 /\ (tt_status row0 = "frozen" \/ tt_status row0 = "applied"
      \/ tt_status row0 = "unknown" \/ tt_status row0 = "failed" \/ r = Err revision_overflow \/ r = Err turn_id_invalid)) as Hend.
  { intros st (row0 & Hr0 & _ & Hs0) Hor. exists row0. by rewrite Hs0. }
  unfold redo_rest in Ha. apply dbind_inv in Ha as [(e & Hc & ->)|(? & s3 & Hc & Ha)];
    destruct (cas_moves _ _ _ _ _ _ _ Hf Hc eq_refl) as (? & Hap & _); [done |].
  apply dbind_inv in Ha as [(e & Hr & ->)|(outcome & s4 & Hr & Ha)];
    destruct (run_moves _ _ _ _ _ _ _ _ _ _ _ _ Hap Hr) as ([o|e0] & _ & Hans).
  - destruct (out_confirmed_commit o); destruct Hans as [? Hs]; [done |]. apply (Hend _ Hs). tauto.
  - destruct Hans as [_ Hs]. apply (Hend _ Hs). destruct (_ =?= _); tauto.
  - destruct (out_confirmed_commit o); destruct Hans as [? Hs]; [| done].
    destruct (redo_finishes _ _ _ _ _ _ _ _ _ _ _ Hs Ha) as [Hs'|(e & -> & [Hs'|[Hs'|[Hs' Hor]]])]; apply (Hend _ Hs'); try tauto.
    destruct Hor as [->| ->]; tauto.
  - by destruct Hans.
Qed.
End Commands.
