(* ===== verification/Updates.v ===== *)
(** * Processing an update ([dispatch_update_with_delivery_and_guard] of
    dispatch.rs and [process_and_deliver] of mod.rs)

    Which command an update is, what is done for it and how the replies leave:
    panels as messages with buttons, a reply of the model as a stream into a
    message, everything else as text. *)

From S2P Require Import Prelude Text Errors StDomain Operations OperationStore PollerOwnership Journal Vault Program OperationPayload Coordinator ChannelContext StOps Engine BindCodes Identity TelegramInbox TelegramRuntime DeliveryQueue TelegramText Delivery DeliveryCorrect Callback Panel PanelStore Readiness ErrorRender ErrorEvents Dispatch Turns.
From stdpp Require Import pretty.

(** ** Reading an update *)

Definition str_at (path : list string) (v : Value) : option string := pointer path v ≫= value_as_str.
Definition i64_at (path : list string) (v : Value) : option Z := pointer path v ≫= value_as_i64.
Definition at_sign : Ascii.ascii := Ascii.ascii_of_nat 64.

(** [split('@').next()]. *)
Definition before_at (token : string) : string := default "" (head (split_on at_sign token)).

Definition first_command (text : string) : string :=
  match first_word (trim_start text) with EmptyString => text | token => before_at token end.

Definition turn_id_of (bot_id : string) (update_id : Z) : string := "tg:" +:+ bot_id +:+ ":" +:+ pretty update_id.

Definition unauthorized_reply : Replies := [text_reply "未授权：请先在网页生成验证码，然后发送 /bind <验证码>。"].

(** [replacement_slot_for_panel]. *)
Definition replacement_slot_for_panel (active_slot : option PanelSlot) (callback_message_id : option Z) : option PanelSlot :=
  match callback_message_id with Some _ => active_slot | None => None end.

Section Updates.
Context `{IdSource} `{Redactor} `{Codecs} `{Aead} `{SecretVault} `{Host}.
Context (E : Env) (looks : nat -> Look).

(** ** Commands *)

Definition run_command (services : TelegramServices) (bot_id : string) (chat_id : Z) (actor : Actor) (text : string)
    (update_id : option Z) (delivery : option TelegramDelivery) : D Replies :=
  let context_key := context_key_of bot_id chat_id in
  let origin := {| o_internal_bot_id := bot_id; o_telegram_update_id := default 0%Z update_id;
                   o_channel_context_key := context_key |} in
  let client_turn_id := turn_id_of bot_id <$> update_id in
  let command := first_command text in
  if command =?= "/start" then one_panel render_home
  else if command =?= "/help" then one_panel render_help
  else if command =?= "/settings" then settings_panel E looks services actor context_key
  else if command =?= "/status" then status_panel looks
  else if (command =?= "/chars") || (command =?= "/characters") then list_characters E looks services actor context_key 0
  else if (command =?= "/hist") || (command =?= "/history") then list_history E looks services actor context_key 0
  else if command =?= "/new" then start_new E looks services actor context_key client_turn_id origin
  else if (command =?= "/now") || (command =?= "/current") then current_state E looks services actor context_key
  else if command =?= "/last" then last_turn E looks services actor context_key
  else if command =?= "/undo" then
    undo_turn E looks bot_id chat_id services actor context_key client_turn_id delivery origin
  else if command =?= "/revoke" then
    revoke_turn E looks bot_id chat_id services actor context_key client_turn_id delivery origin
  else if command =?= "/redo" then redo_turn E looks services actor context_key client_turn_id delivery origin
  else if command =?= "/recent" then recent_conversations E looks actor
  else if command =?= "/model" then list_models E looks services actor context_key "chat" 0
  else if command =?= "/cmodel" then list_models E looks services actor context_key "compression" 0
  else if command =?= "/compress" then compress_history E looks services actor context_key client_turn_id origin
  else if command =?= "/error" then last_error_summary actor bot_id chat_id
  else if starts_with text "/" then ok_d [text_reply "未知命令。发送 /help 查看可用命令。"]
  else send_chat E looks actor context_key client_turn_id text.

Definition guarded_services (guard : option PollerOwnershipGuard) (services : TelegramServices) : TelegramServices :=
  match guard with
  | Some g => MkTelegramServices (with_ownership_guard g <$> sv_bridge services)
  | None => services
  end.

(** A button: acknowledged first, whatever comes of it. *)
Definition dispatch_callback (services : option TelegramServices) (bot_id : string) (callback : Value)
    (delivery : option TelegramDelivery) : D Replies :=
  let data := default "" (str_at ["data"] callback) in
  let callback_id := default "" (str_at ["id"] callback) in
  if is_blank callback_id then err_d (bad_request "TELEGRAM_CALLBACK_INVALID" "callback query id is required") else
  do! _ := match delivery with
           | Some delivery =>
               dresult (of_delivery (answer_callback_query delivery callback_id None false)) (λ _, ok_d tt)
           | None => ok_d tt
           end in
  do! user_id := lift_d (ok_or (pretty <$> i64_at ["from"; "id"] callback) (bad_request "TG_USER_MISSING" "callback has no user")) in
  handle_callback E looks services bot_id user_id (default 0%Z (i64_at ["message"; "chat"; "id"] callback))
    (default 0%Z (i64_at ["message"; "message_id"] callback)) data delivery.

Definition dispatch_message (services : TelegramServices) (bot_id : string) (message : Value) (update_id : option Z)
    (delivery : option TelegramDelivery) : D Replies :=
  let chat_id := default 0%Z (i64_at ["chat"; "id"] message) in
  let text := trim (default "" (str_at ["text"] message)) in
  if text =?= "" then ok_d [] else
  match pretty <$> i64_at ["from"; "id"] message with
  | None => ok_d [text_reply "无法识别 Telegram 用户。"]
  | Some user_id =>
      let token := first_word text in
      if before_at token =?= "/bind" then
        let code := trim (str_drop (String.length token) text) in
        if negb (code =?= "") then handle_bind bot_id user_id code
        else ok_d [text_reply "用法：/bind <验证码>"]
      else
        do! actor := resolve_d bot_id user_id in
        match actor with
        | None => ok_d unauthorized_reply
        | Some actor => run_command services bot_id chat_id actor text update_id delivery
        end
  end.

Definition dispatch_update_with_delivery_and_guard (services : option TelegramServices) (bot_id : string) (update : Value)
    (delivery : option TelegramDelivery) (guard : option PollerOwnershipGuard) : D Replies :=
  match services with
  | None => ok_d []
  | Some services0 =>
      match value_get update "callback_query" with
      | Some callback => dispatch_callback services bot_id callback delivery
      | None =>
          match value_get update "message" with
          | None => ok_d []
          | Some message =>
              dispatch_message (guarded_services guard services0) bot_id message (update_id_of update) delivery
          end
      end
  end.

Definition dispatch_update_with_delivery (services : option TelegramServices) (bot_id : string) (update : Value)
    (delivery : option TelegramDelivery) : D Replies :=
  dispatch_update_with_delivery_and_guard services bot_id update delivery None.
Definition dispatch_update (services : option TelegramServices) (bot_id : string) (update : Value) : D Replies :=
  dispatch_update_with_delivery services bot_id update None.

(** ** Delivering the replies *)

(** [statuses] of the deliveries of an operation: all of them out. *)
Definition all_sent (operation_id : string) (t : Tables) : bool :=
  let rows := filter (λ kr : string * DeliveryRow, d_turn_id kr.2 = Some operation_id) (map_to_list (channel_deliveries t)) in
  match rows with [] => false | _ => forallb (λ kr : string * DeliveryRow, d_status kr.2 =?= DSent) rows end.

Definition all_sent_d (operation_id : string) : D bool := λ s, (s, Some (Ok (all_sent operation_id (w_tables (ds_delivery s))))).

Definition mark_delivered_after_delivery (services : option TelegramServices) (operation_id : string) : D unit :=
  if is_blank operation_id
  then err_d (bad_request "TELEGRAM_OPERATION_ID_REQUIRED" "Telegram delivery requires an operation id") else
  match services with
  | None =>
      err_d (service_unavailable "BRIDGE_SERVICES_UNAVAILABLE" "bridge services are unavailable for delivery confirmation")
  | Some services =>
      match sv_bridge services ≫= en_coordinator with
      | None => ok_d tt
      | Some _ =>
          do! found := run_bridge E looks (λ _, db_read (get_operation operation_id)) in
          do! found := lift_d found in
          match found with
          | None => ok_d tt
          | Some record =>
              do! sent := all_sent_d operation_id in
              if (sent : bool) && (rec_status record =?= Committed) && (rec_commit_state record =?= OcApplied)
              then do! _ := bridge_st E looks (λ _, coordinator_mark_delivered operation_id) in ok_d tt
              else ok_d tt
          end
      end
  end.

(** [st_error_from_app]. *)
Definition st_error_from_app (error : AppError) : option StBridgeError :=
  or_else (a_st error)
    ((λ code, StBridgeError_new code StageControl (a_message error) false NotStarted) <$> parse (a_code error)).

(** Recording an error event; a failure is logged. *)
Definition record_event (error : StBridgeError) (actor_id : option string) (bot_id : string) (chat_id update_id : Z) : D unit :=
  do! now := now_d in
  λ s, (match record (delivery_operations (w_tables (ds_delivery s))) now error actor_id (Some bot_id) (Some (pretty chat_id))
                (Some update_id) (ds_errors s) with
        | Ok t => set_errors t s
        | Err _ => s
        end, Some (Ok tt)).

(** The text for an error that is the user's business. *)
Definition report_error (err : AppError) (bot_id : string) (chat_id update_id : Z) : D string :=
  match st_error_from_app err with
  | Some st_error => do! _ := record_event st_error None bot_id chat_id update_id in ok_d (render st_error)
  | None =>
      ok_d (if a_code err =?= ST_WRITE_NOT_READY_CODE
            then ST_WRITE_NOT_READY_MESSAGE +:+ NL +:+ "错误码：" +:+ ST_WRITE_NOT_READY_CODE
            else "Telegram 处理失败" +:+ NL +:+ "错误码：" +:+ a_code err)
  end.

(** A plain text that is not a command belongs to a turn of the chat. *)
Definition business_turn_of (services : option TelegramServices) (bot_id : string) (update_id chat_id : Z) (update : Value)
    (account_id : option string) : D (option TurnMetadata) :=
  match str_at ["message"; "text"] update with
  | Some text =>
      if starts_with (trim_start text) "/" then ok_d None else
      do! account_id := lift_d (ok_or account_id (forbidden "Telegram business reply has no bound account scope")) in
      do! numeric := numeric_bot_id_d looks in
      do! numeric_bot_id := lift_d (ok_or numeric
        (service_unavailable "TELEGRAM_BOT_SCOPE_UNAVAILABLE" "Telegram business reply has no numeric bot scope")) in
      do! _ := lift_d (ok_or services
        (service_unavailable "TELEGRAM_SERVICES_UNAVAILABLE" "Telegram business reply services are unavailable")) in
      do! context := channel_read E looks (load account_id (context_key_of bot_id chat_id)) in
      lift_d (
        let? handle := ok_or (cl_handle context) (scope_invalid "Telegram turn handle is missing") in
        let? avatar := ok_or (cl_avatar context) (scope_invalid "Telegram turn avatar is missing") in
        let? chat_file := ok_or (cl_chat_file context) (scope_invalid "Telegram turn chat locator is missing") in
        let? scope := TurnScope_new account_id bot_id numeric_bot_id chat_id (locator_hash sha256_hex handle avatar chat_file) in
        let? turn := TurnMetadata_new_scoped scope (turn_id_of bot_id update_id) (turn_id_of bot_id update_id) in
        Ok (Some turn))
  | None => ok_d None
  end.

(** A panel that is not a replacement: a message first, then its buttons, which
    need the message's id, then the slot; the old panel loses its buttons. *)
Definition create_panel (delivery : TelegramDelivery) (account_id user_id bot_id : string) (chat_id : Z) (p : TelegramPanel)
    (active_slot : option PanelSlot) (callback_message_id : option Z) : D unit :=
  do! panel_id := new_id_d in
  do! numeric := numeric_bot_id_d looks in
  do! numeric_bot_id := lift_d (ok_or numeric
    (service_unavailable "TELEGRAM_BOT_SCOPE_UNAVAILABLE" "Telegram panel reply has no numeric bot scope")) in
  if (numeric_bot_id <=? 0)%Z then err_d (bad_request "TELEGRAM_CALLBACK_SCOPE_MISMATCH" "Telegram Bot numeric ID 不可用") else
  do! created := of_delivery (execute_panel_effect delivery (PeCreate panel_id chat_id (with_keyboard [] p))) in
  do! message_id := lift_d (ok_or created (bad_gateway "TELEGRAM_RESPONSE_INVALID" "Telegram 创建面板未返回 message_id")) in
  if (message_id <=? 0)%Z then err_d (bad_gateway "TELEGRAM_RESPONSE_INVALID" "Telegram 创建面板返回无效 message_id") else
  do! desired := bind_panel_callbacks p account_id user_id bot_id numeric_bot_id chat_id panel_id message_id 0 in
  do! unix := unix_d in
  let new_slot := MkPanelSlot panel_id account_id numeric_bot_id chat_id message_id (tp_kind p) 0 true (unix + 600) in
  do! _ := of_delivery (execute_panel_effect delivery (PeReplace new_slot 0 desired)) in
  if account_id =?= "" then ok_d tt else
  do! now := now_d in
  do! _ := on_panels (save_slot kind_json now new_slot) in
  match callback_message_id, active_slot with
  | None, Some old_slot =>
      if negb (ps_panel_id old_slot =?= panel_id) || negb (ps_message_id old_slot =? message_id)%Z
      then dresult (of_delivery (execute_panel_effect delivery (PeRetireKeyboard old_slot))) (λ _, ok_d tt)
      else ok_d tt
  | _, _ => ok_d tt
  end.

(** A reply that is a panel; a stale button creates no second message. *)
Definition deliver_panel (delivery : TelegramDelivery) (bot_id : string) (chat_id : Z) (p : TelegramPanel)
    (account_id user_id : option string) (active_slot : option PanelSlot) (callback_message_id : option Z) : D unit :=
  let slot := replacement_slot_for_panel active_slot callback_message_id in
  let stale := match callback_message_id with
               | Some m => match slot with Some slot => negb (ps_message_id slot =? m)%Z | None => true end
               | None => false
               end in
  if stale then ok_d tt else
  match account_id, user_id with
  | Some account_id, Some user_id =>
      match slot with
      | Some slot => do! _ := rebind_and_replace delivery account_id user_id bot_id slot p in ok_d tt
      | None => create_panel delivery account_id user_id bot_id chat_id p active_slot callback_message_id
      end
  | _, _ => ok_d tt
  end.

(** ** A reply of the model *)

(** [TelegramProgressSink::emit]. *)
Definition sink_emit (sink : TelegramProgressSink) (event : BridgeProgressEvent) : M TelegramProgressSink :=
  match event with
  | PeDelta _ _ full_text => emit_delta sink full_text
  | PeDone reply_text _ => finalize fresh_id now_text retry_text sha256_hex sink reply_text
  | PeError _ safe_message => sink_fail fresh_id now_text retry_text sha256_hex sink safe_message
  | PeProgress completed total =>
      let! _ := ignore_error (edit_message (ps_delivery sink) (Delivery.ps_message_id sink)
                  ("正在处理… " +:+ pretty completed +:+ "/" +:+ pretty total)) in
      ok_m sink
  | PeStarted _ => ok_m sink
  end.

(** Events in their order; a sink's error is logged by the engine. *)
Fixpoint emit_all (sink : TelegramProgressSink) (events : list BridgeProgressEvent) : M TelegramProgressSink :=
  match events with
  | [] => ok_m sink
  | event :: events => mresult (sink_emit sink event) (λ r, emit_all (match r with Ok sink => sink | Err _ => sink end) events)
  end.

Definition turn_locator (context : StChannelLocator) : AppResult StChatLocator :=
  let? handle := ok_or (cl_handle context) (scope_invalid "Telegram turn handle is missing") in
  let? avatar := ok_or (cl_avatar context) (scope_invalid "Telegram turn avatar is missing") in
  let? chat_file := ok_or (cl_chat_file context) (scope_invalid "Telegram turn chat locator is missing") in
  Ok {| loc_handle := handle; loc_avatar := avatar; loc_character_name := default "" (cl_character_name context);
        loc_chat_file := chat_file |}.

(** The generation with its stream: [Ok true] when the loop goes on, [Ok false]
    when the update is done with an error shown. *)
Definition generate_reply (services : option TelegramServices) (guard : option PollerOwnershipGuard) (delivery : TelegramDelivery)
    (bot_id : string) (chat_id update_id : Z) (turn : TurnMetadata) (actor : Actor) (generation : GenerationIntent) : D bool :=
  do! services0 := lift_d (ok_or services
    (service_unavailable "TELEGRAM_SERVICES_UNAVAILABLE" "Telegram generation services are unavailable")) in
  do! context := channel_read E looks (load (acc_id (act_account actor)) (gi_context_key generation)) in
  do! locator := lift_d (turn_locator context) in
  do! engine := lift_d (require_bridge (guarded_services guard services0) (gi_context_key generation)) in
  do! sink := of_delivery (stream_sink fresh_id now_text retry_text sha256_hex delivery turn "已收到，正在继续当前会话。") in
  let operation_id := md_operation_id turn in
  do! deltas := (λ s, (s, Some (Ok (lk_deltas (looks (ds_look s)))))) in
  do! result := run_bridge E looks (λ rd, execute_with_context_and_origin engine rd actor
    (SendMessage locator (default "" (gi_user_text generation)) operation_id None)
    (Some {| bx_operation_id := operation_id; bx_progress := true |})
    {| o_internal_bot_id := bot_id; o_telegram_update_id := update_id; o_channel_context_key := gi_context_key generation |}) in
  do! sink := of_delivery (emit_all sink (map (PeDelta 0 "") deltas)) in
  match result with
  | Ok (_, events) =>
      do! _ := of_delivery (emit_all sink events) in
      do! _ := mark_delivered_after_delivery services operation_id in
      do! sent := all_sent_d operation_id in
      if sent : bool then ok_d true
      else err_d (conflict "TELEGRAM_DELIVERY_INCOMPLETE" "Telegram final delivery is not complete")
  | Err st_error =>
      do! _ := record_event st_error (Some (acc_id (act_account actor))) bot_id chat_id update_id in
      do! _ := of_delivery (sink_fail fresh_id now_text retry_text sha256_hex sink (render st_error)) in
      ok_d false
  end.

(** What the delivery of an update knows. *)
Record UpdateScope := MkUpdateScope {
  us_actor : option Actor;
  us_user_id : option string;
  us_active_slot : option PanelSlot;
  us_callback_message_id : option Z;
  us_turn : option TurnMetadata;
}.

Definition scope_account (us : UpdateScope) : option string := (λ a, acc_id (act_account a)) <$> us_actor us.

(** A reply of text. *)
Definition deliver_text (services : option TelegramServices) (delivery : TelegramDelivery) (bot_id : string) (update_id : Z)
    (us : UpdateScope) (reply : TelegramReply) : D unit :=
  match us_turn us with
  | Some turn =>
      do! _ := of_delivery (send_business_reply fresh_id now_text retry_text sha256_hex delivery turn (tr_text reply) (tr_markup reply)) in
      mark_delivered_after_delivery services (md_operation_id turn)
  | None =>
      let operation_id := turn_id_of bot_id update_id in
      do! _ := of_delivery (send_operation_reply fresh_id now_text retry_text delivery operation_id (tr_text reply) (tr_markup reply)) in
      mark_delivered_after_delivery services operation_id
  end.

(** One turn of the loop over the replies: [Ok false] ends it. *)
Definition deliver_reply (services : option TelegramServices) (guard : option PollerOwnershipGuard) (delivery : TelegramDelivery)
    (bot_id : string) (chat_id update_id : Z) (us : UpdateScope) (reply : TelegramReply) : D bool :=
  do! found := match tr_markup reply with
               | Some markup =>
                   do! keyboard := lift_d (keyboard_from_markup markup) in lookup_d (tr_text reply) keyboard
               | None => ok_d None
               end in
  match found with
  | Some p =>
      do! _ := deliver_panel delivery bot_id chat_id p (scope_account us) (us_user_id us) (us_active_slot us)
                 (us_callback_message_id us) in
      ok_d true
  | None =>
      match tr_generation reply with
      | Some generation =>
          if negb (gi_kind generation =?= GkSend) then
            do! _ := of_delivery (send_reply fresh_id now_text retry_text delivery
              (ST_WRITE_NOT_READY_MESSAGE +:+ NL +:+ "错误码：" +:+ ST_WRITE_NOT_READY_CODE) None) in
            ok_d true
          else
            do! turn := lift_d (ok_or (us_turn us) (scope_invalid "Telegram generation turn metadata is missing")) in
            do! actor := lift_d (ok_or (us_actor us) (forbidden "Telegram generation has no bound account scope")) in
            generate_reply services guard delivery bot_id chat_id update_id turn actor generation
      | None => do! _ := deliver_text services delivery bot_id update_id us reply in ok_d true
      end
  end.

Fixpoint deliver_replies (services : option TelegramServices) (guard : option PollerOwnershipGuard) (delivery : TelegramDelivery)
    (bot_id : string) (chat_id update_id : Z) (us : UpdateScope) (replies : Replies) : D unit :=
  match replies with
  | [] => ok_d tt
  | reply :: replies =>
      do! go_on := deliver_reply services guard delivery bot_id chat_id update_id us reply in
      if go_on : bool then deliver_replies services guard delivery bot_id chat_id update_id us replies else ok_d tt
  end.

(** Everything after the dispatch. *)
Definition scope_of_update (services : option TelegramServices) (bot_id : string) (update_id chat_id : Z) (update : Value)
  : D UpdateScope :=
  let callback_message_id := i64_at ["callback_query"; "message"; "message_id"] update in
  let user_id := pretty <$> (or_else (pointer ["callback_query"; "from"; "id"] update) (pointer ["message"; "from"; "id"] update)
                             ≫= value_as_i64) in
  do! actor := match user_id with
               | Some user_id => match services with None => ok_d None | Some _ => resolve_d bot_id user_id end
               | None => ok_d None
               end in
  do! active_slot := match actor with
                     | Some actor =>
                         do! numeric := numeric_bot_id_d looks in find_slot (acc_id (act_account actor)) numeric chat_id
                     | None => ok_d None
                     end in
  do! turn := business_turn_of services bot_id update_id chat_id update ((λ a, acc_id (act_account a)) <$> actor) in
  ok_d (MkUpdateScope actor user_id active_slot callback_message_id turn).

Definition is_server_error (err : AppError) : bool := (500 <=? a_status err)%Z && (a_status err <? 600)%Z.

(** The part of [process_and_deliver] between the claim of the update and its mark:
    [lock] is whether the chat's delivery lock was to be had. *)
Definition work_on_update (services : option TelegramServices) (guard : option PollerOwnershipGuard) (lock : bool)
    (bot_id : string) (chat_id update_id : Z) (update : Value) : D unit :=
  if negb lock
  then err_d (service_unavailable "DELIVERY_LOCK_CAPACITY" "系统正忙，消息投递已受控排队，请稍后重试") else
  do! bot := require_bot bot_id in
  do! numeric := numeric_bot_id_d looks in
  do! numeric_bot_id := lift_d (ok_or numeric
    (service_unavailable "TELEGRAM_BOT_SCOPE_UNAVAILABLE" "Telegram delivery requires an active numeric bot identity")) in
  let delivery := TelegramDelivery_new bot_id numeric_bot_id chat_id (bot_stream_min_interval_ms bot)
                    (bot_stream_min_delta_chars bot) (bot_stream_first_render_chars bot) (bot_stream_chunk_size bot) in
  do! _ := of_delivery (recover_pending_deliveries now_text delivery) in
  dresult (dispatch_update_with_delivery_and_guard services bot_id update (Some delivery) guard) (λ dispatched,
    match dispatched with
    | Err err =>
        if is_server_error err then err_d err
        else
          do! text := report_error err bot_id chat_id update_id in
          of_delivery (send_reply fresh_id now_text retry_text delivery text None)
    | Ok replies =>
        do! us := scope_of_update services bot_id update_id chat_id update in
        deliver_replies services guard delivery bot_id chat_id update_id us replies
    end).
End Updates.
