(* ===== verification/DispatchCorrect.v ===== *)
(** * Buttons and strangers

    The proofs about [Dispatch] and [Updates]: a button acts only where it was made
    for, once, and its action is settled; whoever is not bound reaches nothing. *)

From S2P Require Import Prelude Text Errors StDomain Operations OperationStore PollerOwnership Journal Vault Program OperationPayload Coordinator ChannelContext StOps Engine BindCodes Identity TelegramInbox TelegramRuntime DeliveryQueue TelegramText Delivery DeliveryCorrect Callback Panel PanelStore Readiness ErrorRender ErrorEvents Dispatch Turns TurnsCorrect Updates.
From Stdlib Require Import Lia.

(** ** Handlers within a relation *)

Section Within.
Context (R : relation DState) `{!PreOrder R}.

Definition within {A} (m : D A) : Prop := forall s, R s (m s).1.

Lemma within_ok {A} (a : A) : within (ok_d a).
Proof. intros s. simpl. reflexivity. Qed.
Lemma within_err {A} e : within (err_d (A := A) e).
Proof. intros s. simpl. reflexivity. Qed.
Lemma within_lift {A} (r : AppResult A) : within (lift_d r).
Proof. intros s. simpl. reflexivity. Qed.

Lemma within_dresult {A B} (m : D A) (k : AppResult A -> D B) :
  within m -> (forall r, within (k r)) -> within (dresult m k).
Proof.
  intros Hm Hk s. unfold dresult. specialize (Hm s). destruct (m s) as [s1 [r|]]; [| done].
  etransitivity; [exact Hm | apply Hk].
Qed.

Lemma within_dbind {A B} (m : D A) (k : A -> D B) : within m -> (forall a, within (k a)) -> within (dbind m k).
Proof. intros Hm Hk. apply within_dresult; [done |]. intros [a|e]; [apply Hk | apply within_err]. Qed.

Lemma within_run {A} (m : D A) s s' r : within m -> m s = (s', r) -> R s s'.
Proof. intros Hm He. specialize (Hm s). by rewrite He in Hm. Qed.

Lemma within_dmap {A B} (f : A -> D B) l : (forall a, within (f a)) -> within (dmap f l).
Proof.
  intros Hf. induction l as [|a l IH]; simpl; [apply within_ok |].
  apply within_dbind; [apply Hf | intros b]. apply within_dbind; [done | intros bs; apply within_ok].
Qed.
End Within.

Create HintDb within.
#[export] Hint Resolve within_ok within_err within_lift : within.

Ltac within :=
  repeat first
    [ progress intros
    | solve [auto with within typeclass_instances]
    | apply within_dbind; [exact _ | |]
    | apply within_dresult; [exact _ | |]
    | apply within_dmap; [exact _ |]
    | match goal with |- within _ (match ?x with _ => _ end) => destruct x end
    | match goal with |- within _ (if ?x then _ else _) => destruct x end ].

(** ** Listing and selecting leave panels and bindings alone *)

Definition same_panels (s s' : DState) : Prop :=
  ds_panels s' = ds_panels s /\ ds_bind s' = ds_bind s /\ ds_identity s' = ds_identity s.

#[export] Instance same_panels_preorder : PreOrder same_panels.
Proof. split; [done |]. intros a b c (? & ? & ?) (? & ? & ?). repeat split; congruence. Qed.

Section Panels.
Context `{IdSource} `{Redactor} `{Codecs} `{Aead} `{SecretVault} `{Host}.
Context (E : Env) (looks : nat -> Look).

Lemma same_look : within same_panels (take_look looks).
Proof. by intros s. Qed.
Lemma same_bridge {A} (p : EngineReads -> Prog A) : within same_panels (run_bridge E looks p).
Proof. intros s. unfold run_bridge. by destruct (exec_prog _ _ _). Qed.
Lemma same_remember p : within same_panels (remember p).
Proof. by intros s. Qed.
Lemma same_preview p : within same_panels (preview_chunks p).
Proof. destruct p as [t|]; by intros s. Qed.

#[local] Hint Resolve same_look same_bridge same_remember same_preview : within.

Lemma same_query services actor key q : within same_panels (query_bridge E looks services actor key q).
Proof. unfold query_bridge, bridge_st. within. Qed.
Lemma same_execute services actor key c : within same_panels (execute_bridge E looks services actor key c).
Proof. unfold execute_bridge, bridge_st. within. Qed.
Lemma same_one_panel p : within same_panels (one_panel p).
Proof. unfold one_panel, panel_reply. within. Qed.
Lemma same_numeric : within same_panels (numeric_bot_id_d looks).
Proof. unfold numeric_bot_id_d. within. Qed.

#[local] Hint Resolve same_query same_execute same_one_panel same_numeric : within.

Lemma same_list_models services actor key purpose page : within same_panels (list_models E looks services actor key purpose page).
Proof. unfold list_models. within. Qed.
Lemma same_provider_models services actor key purpose k page :
  within same_panels (list_provider_models E looks services actor key purpose k page).
Proof. unfold list_provider_models. within. Qed.
Lemma same_current services actor key : within same_panels (current_state E looks services actor key).
Proof. unfold current_state, load_context, channel_read, panel_reply. within. Qed.
Lemma same_history services actor key page : within same_panels (list_history E looks services actor key page).
Proof. unfold list_history, load_context, channel_read, query_chats. within. Qed.

#[local] Hint Resolve same_list_models same_provider_models same_current same_history : within.

Lemma same_panel_callback services actor key action :
  within same_panels (handle_panel_callback E looks actor services key action).
Proof.
  unfold handle_panel_callback, settings_panel, status_panel, list_characters, recent_panel, select_character, open_history,
    open_recent, select_provider_model, select_provider_model_by_id, query_characters, query_chats, load_context, channel_read,
    set_override. within.
Qed.
End Panels.

(** ** Editing panels leaves tokens and actions alone *)

Definition others_kept (t t' : Effects) : Prop :=
  forall id r, t !! id = Some r -> ef_effect_type r <> "replace" -> t' !! id = Some r.

Definition keeps_actions (s s' : DState) : Prop := others_kept (panel_effects (ds_panels s)) (panel_effects (ds_panels s')).

#[export] Instance keeps_actions_preorder : PreOrder keeps_actions.
Proof.
  split; [intros s id r Hr _; exact Hr |]. intros a b c Hab Hbc id r Hr Hn. apply Hbc; [| done]. by apply Hab.
Qed.

Lemma others_kept_refl t : others_kept t t.
Proof. intros id r Hr _. done. Qed.

Lemma insert_kept id row t t' : insert_effect id row t = Ok t' -> others_kept t t'.
Proof.
  intros [Hno ->]%insert_effect_Ok k r Hr _. rewrite lookup_insert_ne; [done |]. intros ->. congruence.
Qed.

Lemma update_kept id p f t t' :
  (forall r, p r = true -> ef_effect_type r = "replace") -> update_effect id p f t = Some t' -> others_kept t t'.
Proof.
  intros Hp (r & Hr & Hpr & ->)%update_effect_Some k q Hq Hn. rewrite lookup_insert_ne; [done |]. intros ->.
  simplify_eq. by apply Hp in Hpr.
Qed.

Lemma is_replace_type id slot x st r : is_replace id slot x st r = true -> ef_effect_type r = "replace".
Proof.
  unfold is_replace. rewrite !andb_true_iff. intros [[_ Ht] _]. by apply bool_decide_eq_true_1 in Ht.
Qed.

Lemma of_panels_keeps {A} (f : PanelDB -> AppResult (PanelDB * A)) :
  (forall p p' a, f p = Ok (p', a) -> others_kept (panel_effects p) (panel_effects p')) -> within keeps_actions (of_panels f).
Proof.
  intros Hf s. unfold of_panels. destruct (f (ds_panels s)) as [[p a]|e] eqn:Hp; simpl; [| reflexivity].
  unfold keeps_actions. simpl. by eapply Hf.
Qed.

Lemma on_panels_keeps (f : PanelDB -> AppResult PanelDB) :
  (forall p p', f p = Ok p' -> others_kept (panel_effects p) (panel_effects p')) -> within keeps_actions (on_panels f).
Proof.
  intros Hf. apply of_panels_keeps. intros p p' a. destruct (f p) as [q|] eqn:Hq; [| done]. intros [= <- <-]. by eapply Hf.
Qed.

Section Edits.
Context `{IdSource} `{Redactor} `{Codecs} `{Aead} `{SecretVault} `{Host}.
Context (E : Env) (looks : nat -> Look).

Lemma keeps_delivery {A} (m : M A) : within keeps_actions (of_delivery m).
Proof. intros s. unfold of_delivery. destruct (m (ds_delivery s)). simpl. intros id r Hr _. exact Hr. Qed.
Lemma keeps_look : within keeps_actions (take_look looks).
Proof. intros s id r Hr _. exact Hr. Qed.
Lemma keeps_draw : within keeps_actions draw.
Proof. intros s id r Hr _. exact Hr. Qed.
Lemma keeps_clock : within keeps_actions clock.
Proof. intros s id r Hr _. exact Hr. Qed.
Lemma keeps_remember p : within keeps_actions (remember p).
Proof. intros s id r Hr _. exact Hr. Qed.
Lemma keeps_lookup t k : within keeps_actions (lookup_d t k).
Proof. intros s id r Hr _. exact Hr. Qed.

#[local] Hint Resolve keeps_delivery keeps_look keeps_draw keeps_clock keeps_remember keeps_lookup : within.

Lemma keeps_now : within keeps_actions now_d.
Proof. unfold now_d. within. Qed.
Lemma keeps_unix : within keeps_actions unix_d.
Proof. unfold unix_d. within. Qed.
Lemma keeps_new_id : within keeps_actions new_id_d.
Proof. unfold new_id_d. within. Qed.
Lemma keeps_numeric : within keeps_actions (numeric_bot_id_d looks).
Proof. unfold numeric_bot_id_d. within. Qed.
Lemma keeps_find account n chat : within keeps_actions (find_slot account n chat).
Proof.
  apply of_panels_keeps. intros p p' a Hp.
  destruct (match n with Some _ => _ | None => _ end); [| done]. injection Hp as <- _. apply others_kept_refl.
Qed.

#[local] Hint Resolve keeps_now keeps_unix keeps_new_id keeps_numeric keeps_find : within.

Lemma keeps_bind_button account user bot n chat panel_id m rev cat b :
  within keeps_actions (bind_button account user bot n chat panel_id m rev cat b).
Proof.
  unfold bind_button. within. apply of_panels_keeps. intros p0 p0' out Hp. unfold issue in Hp.
  destruct (validate_opaque_token _); [| done].
  destruct (insert_effect _ _ _) as [t|] eqn:Hi; [| done]. injection Hp as <- _. by apply insert_kept in Hi.
Qed.

#[local] Hint Resolve keeps_bind_button : within.

Lemma keeps_mark now id slot x st : within keeps_actions (on_panels (mark_panel_revision_status now id slot x st)).
Proof.
  apply on_panels_keeps. intros p p'. unfold mark_panel_revision_status. destruct (encode_revision x); [| done].
  destruct (ok_or _ _) as [t|] eqn:Hu; [| done]. intros [= <-]. apply ok_or_Ok in Hu.
  eapply update_kept; [| exact Hu]. intros r. apply is_replace_type.
Qed.

Lemma keeps_claim now id slot x p next : within keeps_actions (of_panels (claim_panel_revision claim_json now id slot x p next)).
Proof.
  apply of_panels_keeps. intros q q' a. unfold claim_panel_revision. destruct (encode_revision x); [| done].
  destruct (_ && _); [| intros [= <- _]; apply others_kept_refl].
  destruct (insert_effect _ _ _) as [t|] eqn:Hi; [| done]. intros [= <- _]. by apply insert_kept in Hi.
Qed.

Lemma keeps_complete now id slot x next : within keeps_actions (on_panels (complete_panel_replace kind_json now id slot x next)).
Proof.
  apply on_panels_keeps. intros p p'. unfold complete_panel_replace.
  destruct (encode_revision (ps_revision next)) as [n|]; [| done]. destruct (encode_revision x) as [x'|]; [| done].
  destruct (ok_or (update_slot _ _ _ _) _) as [p1|] eqn:Hs; [| done]. apply ok_or_Ok in Hs.
  assert (panel_effects p1 = panel_effects p) as Hp1 by (unfold update_slot in Hs; repeat case_match; by simplify_eq).
  destruct (ok_or _ _) as [t|] eqn:Hu; [| done]. intros [= <-]. simpl. rewrite <- Hp1. apply ok_or_Ok in Hu.
  eapply update_kept; [| exact Hu]. intros r. apply is_replace_type.
Qed.

#[local] Hint Resolve keeps_mark keeps_claim keeps_complete : within.

Lemma keeps_replace d slot next eslot x p : within keeps_actions (replace_panel d slot next eslot x p).
Proof. unfold replace_panel, mark_panel_revision_sending, mark_panel_revision_failed. within. Qed.

#[local] Hint Resolve keeps_replace : within.

Lemma keeps_rebind d account user bot slot p : within keeps_actions (rebind_and_replace d account user bot slot p).
Proof. unfold rebind_and_replace, bind_panel_callbacks. within. Qed.

#[local] Hint Resolve keeps_rebind : within.

Lemma keeps_apply bot actor user chat m reply d : within keeps_actions (apply_panel_reply looks bot actor user chat m reply d).
Proof. unfold apply_panel_reply. within. Qed.

#[local] Hint Resolve keeps_apply : within.

Lemma keeps_apply_replies bot actor user chat m replies d :
  within keeps_actions (apply_replies looks bot actor user chat m replies d).
Proof. induction replies; simpl; within. Qed.
End Edits.

(** ** A button pressed *)

(** Nothing but counters of looks and ids. *)
Record untouched (s s' : DState) : Prop := {
  ut_bridge : ds_bridge s' = ds_bridge s;
  ut_panels : ds_panels s' = ds_panels s;
  ut_bind : ds_bind s' = ds_bind s;
  ut_identity : ds_identity s' = ds_identity s;
  ut_errors : ds_errors s' = ds_errors s;
  ut_tables : w_tables (ds_delivery s') = w_tables (ds_delivery s);
  ut_clock : w_clock (ds_delivery s') = w_clock (ds_delivery s);
  ut_requests : w_requests (ds_delivery s') = w_requests (ds_delivery s);
}.

#[export] Instance untouched_preorder : PreOrder untouched.
Proof. split; [by split |]. intros a b c [] []. split; congruence. Qed.

Section Buttons.
Context `{IdSource} `{Redactor} `{Codecs} `{Aead} `{SecretVault} `{Host}.
Context (E : Env) (looks : nat -> Look).

Lemma untouched_look : within untouched (take_look looks).
Proof. intros s. by split. Qed.
Lemma untouched_draw : within untouched draw.
Proof. intros s. by split. Qed.
Lemma untouched_clock : within untouched clock.
Proof. intros s. by split. Qed.

#[local] Hint Resolve untouched_look untouched_draw untouched_clock : within.

Lemma untouched_numeric : within untouched (numeric_bot_id_d looks).
Proof. unfold numeric_bot_id_d. within. Qed.
Lemma untouched_new_id : within untouched new_id_d.
Proof. unfold new_id_d. within. Qed.

Lemma find_slot_inv account n chat s s' r :
  find_slot account (Some n) chat s = (s', Some r) ->
  untouched s s' /\ find_active_slot_for_scope kind_of_json account n chat (ds_panels s) = r.
Proof.
  unfold find_slot, of_panels. destruct (find_active_slot_for_scope _ _ _ _ _) as [slot|e]; intros [= <- <-]; by split.
Qed.

(** The scope of the update, and the panel that is active there. *)
Definition press_scope (actor : Actor) (bot user : string) (numeric chat m : Z) (slot : PanelSlot) : CallbackScope :=
  MkCallbackScope (acc_id (act_account actor)) bot numeric chat user (ps_panel_id slot) m (ps_revision slot).

Lemma consume_button_inv actor bot user chat m data s s' r :
  consume_button looks actor bot user chat m data s = (s', Some r) ->
  match r with
  | Err _ => untouched s s'
  | Ok (action, eid) =>
      exists numeric slot t now s1, untouched s s1 /\ s' = set_panels (set_effects t (ds_panels s)) s1
        /\ find_active_slot_for_scope kind_of_json (acc_id (act_account actor)) numeric chat (ds_panels s) = Ok (Some slot)
        /\ consume sha256_hex read_binding print_action now (unix_of (w_clock (ds_delivery s))) eid data
             (press_scope actor bot user numeric chat m slot) (panel_effects (ds_panels s)) = Ok (t, (action, eid))
  end.
Proof.
  intros He. unfold consume_button in He.
  apply dbind_inv in He as [(e & Hm & ->)|(n & s1 & Hm & He)];
    apply (within_run _ _ _ _ _ untouched_numeric) in Hm; [done |].
  destruct n as [numeric|]; simpl in He; [| by injection He as <- <-].
  apply dbind_inv in He as [(? & [=] & _)|(? & ? & [= <- <-] & He)].
  destruct (_ || _); [by injection He as <- <- |].
  apply dbind_inv in He as [(e & Hf & ->)|(found & s2 & Hf & He)]; apply find_slot_inv in Hf as [Hu Hf];
    pose proof (transitivity Hm Hu) as Hs2; [done |].
  destruct found as [slot|]; simpl in He; [| by injection He as <- <-].
  apply dbind_inv in He as [(? & [=] & _)|(? & ? & [= <- <-] & He)].
  apply dbind_inv in He as [(e & Hd & ->)|(eid & s3 & Hd & He)];
    apply (within_run _ _ _ _ _ untouched_new_id) in Hd; pose proof (transitivity Hs2 Hd) as Hs3; [done |].
  unfold dbind, dresult, now_d, unix_d, clock, ok_d, of_panels in He. simpl in He.
  destruct (consume _ _ _ _ _ _ _ _ _) as [[t [action eid']]|e] eqn:Hc; injection He as <- <-; [| done].
  assert (eid' = eid) as ->.
  { unfold consume in Hc. repeat case_match; by simplify_eq. }
  exists numeric, slot, t, (now_text (w_clock (ds_delivery s))), s3. split_and!; [done | | |].
  - by rewrite (ut_panels _ _ Hs3).
  - by rewrite <- (ut_panels _ _ Hm).
  - rewrite (ut_clock _ _ Hs3), (ut_panels _ _ Hs3) in Hc. exact Hc.
Qed.

(** The action of a button is recorded, and how it ended. *)
Definition action_settled (eid : string) (action : CallbackAction) (s : DState) : Prop :=
  exists row, panel_effects (ds_panels s) !! eid = Some row /\ ef_effect_type row = "callback_action"
    /\ ef_payload row = print_action action /\ (ef_status row = "sent" \/ ef_status row = "failed").

Definition action_at (eid : string) (action : CallbackAction) (status : string) (s : DState) : Prop :=
  exists row, panel_effects (ds_panels s) !! eid = Some row /\ is_action eid status row = true
    /\ ef_payload row = print_action action.

Lemma action_moves eid action a b s s' r (f : EffectRow -> EffectRow) e :
  (forall row, ef_payload (f row) = ef_payload row /\ ef_status (f row) = b /\ ef_effect_type (f row) = ef_effect_type row
               /\ ef_attempt_token (f row) = ef_attempt_token row) ->
  action_at eid action a s ->
  on_effects (λ t, ok_or (update_effect eid (is_action eid a) f t) e) s = (s', Some r) ->
  r = Ok tt /\ action_at eid action b s'.
Proof.
  intros Hf (row & Hr & Ha & Hp) He. unfold on_effects, on_panels, of_panels, update_effect in He.
  rewrite Hr, Ha in He. simpl in He. injection He as <- <-. split; [done |].
  exists (f row). simpl. rewrite lookup_insert_eq. destruct (Hf row) as (Hp' & Hs' & Ht' & Htok). split_and!; [done | | congruence].
  unfold is_action in *. apply andb_true_iff in Ha as [Ha _]. rewrite Htok, Ht', Ha, Hs'. by rewrite bool_decide_eq_true_2.
Qed.

Lemma settled_of eid action st s : st = "sent" \/ st = "failed" -> action_at eid action st s -> action_settled eid action s.
Proof.
  intros Hst (row & Hr & Ha & Hp). unfold is_action in Ha. rewrite !andb_true_iff in Ha. destruct Ha as [[_ Ht] Hs].
  apply bool_decide_eq_true_1 in Ht, Hs. exists row. split_and!; auto. by rewrite Hs.
Qed.

Lemma run_action_settles actor services key eid action s s' r :
  action_at eid action "sending" s ->
  run_action E looks actor services key eid action s = (s', Some r) -> action_settled eid action s'.
Proof.
  intros Ha He. unfold run_action in He. apply dresult_inv in He as (res & s1 & Hm & He).
  apply (within_run _ _ _ _ _ (same_panel_callback E looks services actor key action)) in Hm as (Hp & _ & _).
  assert (action_at eid action "sending" s1) as Ha1 by (unfold action_at; by rewrite Hp).
  destruct res as [replies|error]; unfold dbind at 1 in He; apply dresult_inv in He as (now & s2 & [= <- <-] & He).
  - apply dresult_inv in He as (done_ & s3 & Hc & He).
    apply (action_moves eid action _ "sent") in Hc as [-> Hs]; [| done | done].
    injection He as <- <-. by eapply settled_of; [left |].
  - apply dbind_inv in He as [(e & Hc & ->)|(? & s3 & Hc & He)];
      (apply (action_moves eid action _ "failed") in Hc as [Hr Hs]; [| done | done]); [done |].
    injection He as <- <-. by eapply settled_of; [right |].
Qed.

(** C19: a button acts where it was made for, and what it did is on record.  Pressing a
    button changes nothing, in the bridge, the panels or at Telegram, unless the
    user is bound and the button's token is an active one that was made for this
    account, bot, chat, user, panel and message, at the revision the panel has now,
    and has not expired; then the action the token stands for is on record as done
    or failed when the handler returns. *)
Theorem button_acts_in_scope services bot user chat m data d s s' r :
  handle_callback E looks services bot user chat m data d s = (s', Some r) ->
  untouched s s'
  \/ exists actor numeric slot row binding eid,
       resolve_bound_actor bot user (ds_bind s) (ds_identity s) = Ok (Some actor)
       /\ find_active_slot_for_scope kind_of_json (acc_id (act_account actor)) numeric chat (ds_panels s) = Ok (Some slot)
       /\ panel_effects (ds_panels s) !! sha256_hex data = Some row /\ ef_status row = "active"
       /\ read_binding (ef_payload row) = Some binding
       /\ scope_of binding = press_scope actor bot user numeric chat m slot
       /\ (unix_of (w_clock (ds_delivery s)) < cb_expires_at_unix binding)%Z
       /\ action_settled eid (cb_action binding) s'.
Proof.
  intros He. unfold handle_callback in He. destruct services as [services|]; [| injection He as <- <-; by left].
  apply dbind_inv in He as [(e & [= <- Hres] & ->)|(found & s1 & [= <- Hres] & He)]; [by left |].
  destruct found as [actor|]; [| injection He as <- <-; by left].
  destruct (negb _); [injection He as <- <-; by left |].
  apply dbind_inv in He as [(e & Hc & ->)|([action eid] & s2 & Hc & He)]; apply consume_button_inv in Hc; [by left |].
  destruct Hc as (numeric & slot & t & now & s1 & Hu & -> & Hslot & Hcon). right.
  apply consume_Ok in Hcon as (row & b & Hrow & Hact & Hb & Hsc & Hexp & _ & _ & -> & _ & ->).
  exists actor, numeric, slot, row, b, eid. split_and!; try done.
  set (s2 := set_panels _ s1) in He.
  assert (action_at eid (cb_action b) "pending" s2) as Hpend.
  { eexists. simpl. rewrite lookup_insert_eq. split_and!; [done | | done]. unfold is_action. simpl. by rewrite !bool_decide_eq_true_2. }
  clearbody s2. unfold dbind at 1 in He. apply dresult_inv in He as (now2 & s3 & [= <- <-] & He).
  apply dbind_inv in He as [(e & Hcl & ->)|(? & s4 & Hcl & He)];
    (apply (action_moves eid (cb_action b) _ "sending") in Hcl as [Hr Hsend]; [| done | done]); [done |].
  apply dbind_inv in He as [(e & Hrun & ->)|(replies & s5 & Hrun & He)];
    pose proof (run_action_settles _ _ _ _ _ _ _ _ Hsend Hrun) as Hset; [done |].
  destruct d as [d|]; [| by injection He as <- <-].
  assert (forall s6 q, apply_replies looks bot actor user chat m replies d s5 = (s6, q) -> action_settled eid (cb_action b) s6) as Hk.
  { intros s6 q Hq. apply (within_run _ _ _ _ _ (keeps_apply_replies looks bot actor user chat m replies d)) in Hq.
    destruct Hset as (row' & Hr' & Hty & Hrest). exists row'. split; [| done]. apply Hq; [done |]. by rewrite Hty. }
  apply dbind_inv in He as [(e & Ha & ->)|(shown & s6 & Ha & He)]; apply Hk in Ha; [done |]. by injection He as <- <-.
Qed.
End Buttons.
