(* ===== verification/Strangers.v ===== *)
(** * Whoever is not bound reaches nothing

    The proofs about [Updates] for users without a binding: the conversations, the
    panels, the bindings and the accounts are out of their reach, and what they are
    told. *)

From S2P Require Import Prelude Text Errors StDomain Operations OperationStore PollerOwnership Journal Vault Program OperationPayload Coordinator ChannelContext StOps Engine BindCodes Identity TelegramInbox TelegramRuntime DeliveryQueue TelegramText Delivery DeliveryCorrect Callback Panel PanelStore Readiness ErrorRender ErrorEvents Dispatch Turns TurnsCorrect Updates DispatchCorrect.
From stdpp Require Import pretty.

(** What a stranger must not change. *)
Record walled (s s' : DState) : Prop := {
  wl_calls : w_calls (ds_bridge s') = w_calls (ds_bridge s);
  wl_panels : ds_panels s' = ds_panels s;
  wl_registry : ds_registry s' = ds_registry s;
  wl_bind : ds_bind s' = ds_bind s;
  wl_identity : ds_identity s' = ds_identity s;
  wl_bots : ds_bots s' = ds_bots s;
  wl_targets : targets_of s' = targets_of s;
}.

#[export] Instance walled_preorder : PreOrder walled.
Proof. split; [by split |]. intros a b c [] []. split; congruence. Qed.

(** ** Who sends an update, and with which words *)

Definition users_of (update : Value) : list Z :=
  omap id [value_get update "callback_query" ≫= i64_at ["from"; "id"]; value_get update "message" ≫= i64_at ["from"; "id"];
           i64_at ["callback_query"; "from"; "id"] update; i64_at ["message"; "from"; "id"] update].

Definition message_text (update : Value) : string :=
  default "" (value_get update "message" ≫= str_at ["text"]).

Definition asks_to_bind (update : Value) : bool := before_at (first_word (trim (message_text update))) =?= "/bind".

(** None of the users an update names is bound to the bot. *)
Definition stranger (bot_id : string) (update : Value) (s : DState) : Prop :=
  Forall (λ id : Z, forall actor, resolve_bound_actor bot_id (pretty id) (ds_bind s) (ds_identity s) <> Ok (Some actor))
    (users_of update).

Lemma stranger_walled bot update s s' : walled s s' -> stranger bot update s -> stranger bot update s'.
Proof. intros [] Hs. unfold stranger in *. eapply Forall_impl; [exact Hs |]. intros id Hid actor. simpl. congruence. Qed.

Lemma stranger_user bot update s id actor :
  stranger bot update s -> In id (users_of update) ->
  resolve_bound_actor bot (pretty id) (ds_bind s) (ds_identity s) <> Ok (Some actor).
Proof. intros Hs Hi. unfold stranger in Hs. rewrite List.Forall_forall in Hs. by apply (Hs id Hi). Qed.

Lemma omap_id_elem {A} (x : A) l : In (Some x) l -> In x (omap id l).
Proof. induction l as [|y l IH]; simpl; [done |]. intros [->|Hi]; [by left |]. destruct y; simpl; auto. Qed.

(** ** What SillyTavern says has no influence *)

(** A program that asks nobody outside: it uses the bridge's own database and clock. *)
Inductive homely {A} : Prog A -> Prop :=
| homely_ret a : homely (Ret a)
| homely_db f k : (forall now db, homely (k now db)) -> homely (Db f k).

Lemma homely_bind {A B} (p : Prog A) (k : A -> Prog B) : homely p -> (forall a, homely (k a)) -> homely (bind p k).
Proof. intros Hp Hk. induction Hp; simpl; [auto | constructor; auto]. Qed.

(** Two worlds that differ in nothing but SillyTavern and its connector: the same
    database, clock and bot, and any answers to reads, generations, commits, journal
    look-ups and fence checks. *)
Record same_home (E E' : Env) (looks looks' : nat -> Look) : Prop := {
  sh_db : forall i db, env_db E' i db = env_db E i db;
  sh_now : forall i, env_now E' i = env_now E i;
  sh_bot : forall n, lk_numeric_bot_id (looks' n) = lk_numeric_bot_id (looks n);
}.

Lemma homely_exec {A} E E' looks looks' (p : Prog A) w :
  same_home E E' looks looks' -> homely p -> exec_prog E' p w = exec_prog E p w.
Proof.
  intros Hs Hp. revert w. induction Hp as [a|f k Hk IH]; intros w; simpl; [done |].
  by rewrite (sh_db _ _ _ _ Hs), (sh_now _ _ _ _ Hs), IH.
Qed.

Lemma dresult_same {A B} (m m' : D A) (k k' : AppResult A -> D B) s :
  m' s = m s -> (forall s1 r, m s = (s1, Some r) -> k' r s1 = k r s1) -> dresult m' k' s = dresult m k s.
Proof. intros Hm Hk. unfold dresult. rewrite Hm. destruct (m s) as [s1 [r|]]; [by apply Hk | done]. Qed.

Lemma dbind_same {A B} (m m' : D A) (k k' : A -> D B) s :
  m' s = m s -> (forall s1 a, m s = (s1, Some (Ok a)) -> k' a s1 = k a s1) -> dbind m' k' s = dbind m k s.
Proof. intros Hm Hk. apply dresult_same; [done |]. intros s1 [a|e] He; [by apply Hk | done]. Qed.

(** ** Replies that are nothing but text *)

Definition plain (r : TelegramReply) : Prop := tr_markup r = None /\ tr_generation r = None.

Section Strangers.
Context `{IdSource} `{Redactor} `{Codecs} `{Aead} `{SecretVault} `{Host}.
Context (E : Env) (looks : nat -> Look).

Lemma walled_look : within walled (take_look looks).
Proof. intros s. by split. Qed.
Lemma walled_clock : within walled clock.
Proof. intros s. by split. Qed.
Lemma walled_all_sent op : within walled (all_sent_d op).
Proof. intros s. by split. Qed.
Lemma walled_bot bot : within walled (require_bot bot).
Proof. intros s. unfold require_bot, get_bot_d, dbind, dresult, lift_d. repeat case_match; simplify_eq; by split. Qed.

Lemma walled_delivery {A} (m : M A) : spares m -> within walled (of_delivery m).
Proof.
  intros Hm s. unfold of_delivery. specialize (Hm (ds_delivery s)). destruct (m (ds_delivery s)) as [w r]. by split.
Qed.

Lemma walled_bridge {A} (p : EngineReads -> Prog A) : (forall rd, callless (p rd)) -> within walled (run_bridge E looks p).
Proof.
  intros Hp s. unfold run_bridge. pose proof (callless_exec E _ (ds_bridge s) (Hp (lk_engine (looks (ds_look s))))) as Hc.
  destruct (exec_prog _ _ _) as [w a]. by split.
Qed.

#[local] Hint Resolve walled_look walled_clock walled_all_sent walled_bot walled_delivery walled_bridge : within.

Lemma walled_numeric : within walled (numeric_bot_id_d looks).
Proof. unfold numeric_bot_id_d. within. Qed.
Lemma walled_now : within walled now_d.
Proof. unfold now_d. within. Qed.

#[local] Hint Resolve walled_numeric walled_now : within.

Lemma walled_record err actor bot chat update : within walled (record_event err actor bot chat update).
Proof. unfold record_event. within. intros s. destruct (record _ _ _ _ _ _ _ _); by split. Qed.

#[local] Hint Resolve walled_record : within.

Lemma walled_report err bot chat update : within walled (report_error err bot chat update).
Proof. unfold report_error. within. Qed.
Lemma walled_mark services op : within walled (mark_delivered_after_delivery E looks services op).
Proof.
  unfold mark_delivered_after_delivery. within. unfold bridge_st. within. apply walled_bridge. intros _.
  unfold coordinator_mark_delivered. repeat first [apply callless_map_err | apply callless_bind; intros]; auto.
Qed.

#[local] Hint Resolve walled_report walled_mark : within.

(** ** Sending text *)

Lemma spares_chunks self text : spares (chunks_of self text).
Proof. unfold chunks_of. spares. Qed.

#[local] Hint Resolve spares_create spares_sending spares_sent spares_give_up spares_send_error spares_send spares_call
  spares_chunks : spares.

Lemma spares_single self turn text mk : spares (send_single_reply_result fresh_id now_text retry_text self turn text mk).
Proof. unfold send_single_reply_result, send_and_record. spares. Qed.

Lemma spares_send_chunks send i chunks mk :
  (forall i c k, spares (send i c k)) -> spares (send_chunks send i chunks mk).
Proof. intros Hs. revert i mk. induction chunks; intros i mk; simpl; spares. Qed.

#[local] Hint Resolve spares_single spares_send_chunks : spares.

Lemma spares_reply self text mk : spares (send_reply fresh_id now_text retry_text self text mk).
Proof. unfold send_reply. spares. Qed.
Lemma spares_operation self op text mk : spares (send_operation_reply fresh_id now_text retry_text self op text mk).
Proof. unfold send_operation_reply. spares. Qed.
Lemma spares_answer self id text alert : spares (answer_callback_query self id text alert).
Proof. unfold answer_callback_query. spares. Qed.
Lemma spares_recover self : spares (recover_pending_deliveries now_text self).
Proof. done. Qed.

#[local] Hint Resolve spares_reply spares_operation spares_answer spares_recover : spares.
#[local] Hint Extern 1 (spares _) => solve [spares] : within.

(** ** Dispatch *)

Lemma walled_then {A B} (m : D A) (k : AppResult A -> D B) s :
  within walled m -> (forall s1 r, m s = (s1, Some r) -> walled s s1 -> walled s1 (k r s1).1) -> walled s (dresult m k s).1.
Proof.
  intros Hm Hk. unfold dresult. specialize (Hm s). destruct (m s) as [s1 [r|]] eqn:He; [| done].
  etransitivity; [exact Hm | by apply Hk].
Qed.

Lemma resolve_stranger bot update s id s' r :
  stranger bot update s -> In id (users_of update) -> resolve_d bot (pretty id) s = (s', Some r) ->
  s' = s /\ forall a, r <> Ok (Some a).
Proof. intros Hs Hi [= <- <-]. split; [done |]. intros a. by apply (stranger_user _ update). Qed.

(** What comes of a stranger's update: an error or plain text, behind the wall. *)
Definition rebuffed (s s' : DState) (r : option (AppResult Replies)) : Prop :=
  walled s s' /\ forall replies, r = Some (Ok replies) -> Forall plain replies.

Lemma rebuffed_text s s' text : walled s s' -> rebuffed s s' (Some (Ok [text_reply text])).
Proof. intros Hw. split; [done |]. intros ? [= <-]. by repeat constructor. Qed.

Lemma rebuffed_err s s' e : walled s s' -> rebuffed s s' (Some (Err e)).
Proof. intros Hw. by split. Qed.

Lemma rebuffed_then {A} (m : D A) (k : A -> D Replies) s :
  within walled m -> (forall s1 a, m s = (s1, Some (Ok a)) -> walled s s1 -> rebuffed s1 (k a s1).1 (k a s1).2) ->
  rebuffed s (dbind m k s).1 (dbind m k s).2.
Proof.
  intros Hm Hk. unfold dbind, dresult. specialize (Hm s). destruct (m s) as [s1 [[a|e]|]] eqn:He; [| by apply rebuffed_err | by split].
  destruct (Hk s1 a) as [Hw Hp]; [done .. |]. split; [| exact Hp]. by etransitivity.
Qed.

Lemma rebuffed_resolve bot update user (k : option Actor -> D Replies) s :
  stranger bot update s -> In user (users_of update) -> rebuffed s (k None s).1 (k None s).2 ->
  rebuffed s (dbind (resolve_d bot (pretty user)) k s).1 (dbind (resolve_d bot (pretty user)) k s).2.
Proof.
  intros Hs Hi Hk. apply rebuffed_then; [by intros s' |].
  intros s1 a (-> & Hno)%(resolve_stranger _ update) _; [| done ..]. destruct a as [a|]; [by destruct (Hno a) | done].
Qed.

Lemma callback_rebuffs services bot update callback d s :
  stranger bot update s -> value_get update "callback_query" = Some callback ->
  let out := dispatch_callback E looks (Some services) bot callback d s in rebuffed s out.1 out.2.
Proof.
  intros Hs Hc. unfold dispatch_callback. simpl. destruct (is_blank _); [by apply rebuffed_err |].
  set (ack := match d with Some _ => _ | None => _ end). assert (within walled ack) as Hack by (unfold ack; within).
  apply rebuffed_then; [done | intros s1 [] _ Hw]. apply (stranger_walled _ _ _ _ Hw) in Hs.
  destruct (i64_at ["from"; "id"] callback) as [user|] eqn:Hu; [| by apply rebuffed_err].
  apply (rebuffed_resolve _ update); [done | apply omap_id_elem; rewrite Hc; simpl; auto | by apply rebuffed_text].
Qed.

Lemma message_rebuffs services bot update message u d s :
  stranger bot update s -> value_get update "message" = Some message -> asks_to_bind update = false ->
  let out := dispatch_message E looks services bot message u d s in rebuffed s out.1 out.2.
Proof.
  intros Hs Hm Hb. unfold asks_to_bind, message_text in Hb. rewrite Hm in Hb. simpl in Hb. unfold dispatch_message.
  destruct (_ =?= ""); [split; [done |]; intros ? [= <-]; constructor |].
  destruct (i64_at ["from"; "id"] message) as [user|] eqn:Hu; simpl; [| by apply rebuffed_text].
  rewrite Hb. apply (rebuffed_resolve _ update); [done | apply omap_id_elem; rewrite Hm; simpl; auto | by apply rebuffed_text].
Qed.

Lemma dispatch_rebuffs services bot update d guard s :
  stranger bot update s -> asks_to_bind update = false ->
  let out := dispatch_update_with_delivery_and_guard E looks services bot update d guard s in rebuffed s out.1 out.2.
Proof.
  intros Hs Hb. unfold dispatch_update_with_delivery_and_guard.
  assert (rebuffed s s (Some (Ok []))) as Hnil by (split; [done | intros ? [= <-]; constructor]).
  destruct services as [services|]; [| done].
  destruct (value_get update "callback_query") as [callback|] eqn:Hc; [by apply (callback_rebuffs _ _ update) |].
  destruct (value_get update "message") as [message|] eqn:Hm; [by apply (message_rebuffs _ _ update) | done].
Qed.

(** ** Delivery *)

(** The user of the scope is one of the users of the update. *)
Lemma scope_user_named update z :
  or_else (pointer ["callback_query"; "from"; "id"] update) (pointer ["message"; "from"; "id"] update) ≫= value_as_i64 = Some z ->
  In z (users_of update).
Proof.
  intros Hz. apply omap_id_elem. unfold i64_at. destruct (pointer ["callback_query"; "from"; "id"] update); simpl in *; auto.
Qed.

Lemma scope_of_stranger services bot u chat update s :
  stranger bot update s ->
  let out := scope_of_update E looks services bot u chat update s in
  walled s out.1 /\ forall us, out.2 = Some (Ok us) -> us_actor us = None /\ us_turn us = None.
Proof.
  intros Hs. unfold scope_of_update.
  set (user := or_else _ _ ≫= value_as_i64). set (who := match pretty <$> user with Some _ => _ | None => _ end).
  assert (exists r, who s = (s, Some r) /\ forall a, r <> Ok (Some a)) as (r & Hr & Hno).
  { unfold who. destruct user as [z|] eqn:Hu; simpl; [| by eexists]. destruct services; [| by eexists].
    eexists. split; [reflexivity |]. intros a. apply (stranger_user _ update); [done |]. by apply scope_user_named. }
  unfold dbind, dresult. rewrite Hr. destruct r as [[a|]|e]; [by destruct (Hno a) | | by split].
  simpl. unfold business_turn_of.
  destruct (str_at ["message"; "text"] update); [| split; [done |]; intros us [= <-]; done].
  destruct (starts_with _ _); (split; [done |]); [intros us [= <-]; done | done].
Qed.

Lemma dbind_ok {A B} (a : A) (k : A -> D B) : dbind (ok_d a) k = k a.
Proof. reflexivity. Qed.

Lemma walled_text services d bot u us reply :
  us_turn us = None -> within walled (deliver_text E looks services d bot u us reply).
Proof. intros Hu. unfold deliver_text. rewrite Hu. within. Qed.

Lemma walled_replies services guard d bot chat u us replies :
  us_turn us = None -> Forall plain replies ->
  within walled (deliver_replies E looks services guard d bot chat u us replies).
Proof.
  intros Hu Hp. induction Hp as [|reply replies [Hm Hg] Hp IH]; simpl; [within |].
  apply within_dbind; [exact _ | | intros []; within].
  unfold deliver_reply. rewrite Hm, Hg, dbind_ok. apply within_dbind; [exact _ | by apply walled_text | within].
Qed.

(** *** In another world *)

Section Blind.
Context (E' : Env) (looks' : nat -> Look) (Hsame : same_home E E' looks looks').

Lemma blind_numeric s : numeric_bot_id_d looks' s = numeric_bot_id_d looks s.
Proof. unfold numeric_bot_id_d, dbind, dresult, take_look, ok_d. by rewrite (sh_bot _ _ _ _ Hsame). Qed.

Lemma blind_bridge {A} (p : Prog A) s : homely p -> run_bridge E' looks' (λ _, p) s = run_bridge E looks (λ _, p) s.
Proof. intros Hp. unfold run_bridge. by rewrite (homely_exec E E' looks looks'). Qed.

Lemma blind_mark services op s :
  mark_delivered_after_delivery E' looks' services op s = mark_delivered_after_delivery E looks services op s.
Proof.
  unfold mark_delivered_after_delivery. destruct (is_blank op); [done |]. destruct services as [services|]; [| done].
  destruct (sv_bridge services ≫= en_coordinator); [| done].
  apply dbind_same; [apply blind_bridge; repeat constructor | intros s1 found _].
  apply dbind_same; [done | intros s2 [record|] _; [| done]]. apply dbind_same; [done | intros s3 sent _].
  destruct (_ && _); [| done]. apply dbind_same; [| done]. unfold bridge_st. apply dbind_same; [| done].
  apply blind_bridge. unfold coordinator_mark_delivered, prog_map_err, db_call.
  repeat (apply homely_bind || constructor || intros).
Qed.

Lemma blind_resolve {B} bot update user (k k' : option Actor -> D B) s :
  stranger bot update s -> In user (users_of update) -> k' None s = k None s ->
  dbind (resolve_d bot (pretty user)) k' s = dbind (resolve_d bot (pretty user)) k s.
Proof.
  intros Hs Hi Hk. apply dbind_same; [done |]. intros s1 a (-> & Hno)%(resolve_stranger _ update); [| done ..].
  destruct a as [a|]; [by destruct (Hno a) | done].
Qed.

Lemma blind_dispatch services bot update d guard s :
  stranger bot update s -> asks_to_bind update = false ->
  dispatch_update_with_delivery_and_guard E' looks' services bot update d guard s
  = dispatch_update_with_delivery_and_guard E looks services bot update d guard s.
Proof.
  intros Hs Hb. unfold dispatch_update_with_delivery_and_guard. destruct services as [services|]; [| done].
  destruct (value_get update "callback_query") as [callback|] eqn:Hc.
  - unfold dispatch_callback. simpl. destruct (is_blank _); [done |].
    set (ack := match d with Some _ => _ | None => _ end). assert (within walled ack) as Hack by (unfold ack; within).
    apply dbind_same; [done | intros s1 [] He]. apply (within_run _ _ _ _ _ Hack) in He as Hw.
    apply (stranger_walled _ _ _ _ Hw) in Hs.
    destruct (i64_at ["from"; "id"] callback) as [user|] eqn:Hu; [| done].
    apply (blind_resolve _ update); [done | apply omap_id_elem; rewrite Hc; simpl; auto | done].
  - destruct (value_get update "message") as [message|] eqn:Hm; [| done].
    unfold asks_to_bind, message_text in Hb. rewrite Hm in Hb. simpl in Hb. unfold dispatch_message.
    destruct (_ =?= ""); [done |]. destruct (i64_at ["from"; "id"] message) as [user|] eqn:Hu; simpl; [| done].
    rewrite Hb. apply (blind_resolve _ update); [done | apply omap_id_elem; rewrite Hm; simpl; auto | done].
Qed.

Lemma blind_scope services bot u chat update s :
  stranger bot update s ->
  scope_of_update E' looks' services bot u chat update s = scope_of_update E looks services bot u chat update s.
Proof.
  intros Hs. unfold scope_of_update. apply dbind_same; [done |]. intros s1 actor Hr.
  assert (actor = None) as ->.
  { destruct actor as [a|]; [exfalso | done]. revert Hr. set (user := or_else _ _ ≫= value_as_i64).
    destruct user as [z|] eqn:Hu; simpl; [| done]. destruct services; [| done].
    intros (_ & Hno)%(resolve_stranger _ update); [by destruct (Hno a) | done | by apply scope_user_named]. }
  apply dbind_same; [done | intros s2 slot _]. apply dbind_same; [| done]. unfold business_turn_of.
  destruct (str_at ["message"; "text"] update); [| done]. by destruct (starts_with _ _).
Qed.

Lemma blind_replies services guard d bot chat u us replies s :
  us_turn us = None -> Forall plain replies ->
  deliver_replies E' looks' services guard d bot chat u us replies s
  = deliver_replies E looks services guard d bot chat u us replies s.
Proof.
  intros Hu Hp. revert s. induction Hp as [|reply replies [Hm Hg] Hp IH]; intros s; simpl; [done |].
  apply dbind_same; [| intros s1 [] _; [apply IH | done]].
  unfold deliver_reply. rewrite Hm, Hg, !dbind_ok. apply dbind_same; [| done].
  unfold deliver_text. rewrite Hu. apply dbind_same; [done | intros; apply blind_mark].
Qed.

Lemma blind_work services guard lock bot chat u update s :
  stranger bot update s -> asks_to_bind update = false ->
  work_on_update E' looks' services guard lock bot chat u update s
  = work_on_update E looks services guard lock bot chat u update s.
Proof.
  intros Hs Hb. unfold work_on_update. destruct (negb lock); [done |].
  apply dbind_same; [done | intros s1 b He1]. apply dbind_same; [apply blind_numeric | intros s2 n He2].
  apply dbind_same; [done | intros s3 n' He3]. apply dbind_same; [done | intros s4 k He4].
  assert (stranger bot update s4) as Hs4.
  { eapply stranger_walled; [| exact Hs].
    assert (walled s s1) as Hw1 by (eapply (within_run _ _ _ _ _ (walled_bot bot)); exact He1).
    assert (walled s1 s2) as Hw2 by (eapply (within_run _ _ _ _ _ walled_numeric); exact He2).
    injection He3 as <- _.
    assert (walled s2 s4) as Hw4 by (eapply (within_run walled); [| exact He4]; within).
    by repeat (etransitivity; [eassumption |]). }
  set (d := TelegramDelivery_new _ _ _ _ _ _ _) in *.
  destruct (dispatch_rebuffs services bot update (Some d) guard s4 Hs4 Hb) as [Hw Hp].
  apply dresult_same; [by apply blind_dispatch |]. intros s5 [replies|e] He; [| done]. rewrite He in Hw, Hp. simpl in *.
  assert (stranger bot update s5) as Hs5 by (by eapply stranger_walled).
  apply dbind_same; [by apply blind_scope |]. intros s6 us Hus.
  destruct (scope_of_stranger services bot u chat update s5 Hs5) as [_ Hturn]. rewrite Hus in Hturn.
  apply blind_replies; [by apply (Hturn us) | by apply Hp].
Qed.
End Blind.

(** C20: strangers reach nothing.  While an update is processed whose users are not bound
    to the bot and that does not ask for a binding, whatever it holds, whether a
    message, a command or a button, and whatever comes of it: no commit and no chat
    creation is requested of SillyTavern; the panels with their buttons, the bindings,
    the accounts, the bots and the turns to be taken back stay as they are; and nothing
    SillyTavern or its connector says has any influence: with other answers to every
    read, generation, journal look-up and fence check, and the same database, clock and
    bot, the run is the same, down to every request to Telegram. *)
Theorem strangers_reach_nothing services guard lock bot chat u update s :
  stranger bot update s -> asks_to_bind update = false ->
  walled s (work_on_update E looks services guard lock bot chat u update s).1
  /\ forall E' looks', same_home E E' looks looks' ->
       work_on_update E' looks' services guard lock bot chat u update s
       = work_on_update E looks services guard lock bot chat u update s.
Proof.
  intros Hs Hb. split; [| intros E' looks' Hsame; by apply blind_work]. unfold work_on_update. destruct (negb lock); [done |].
  apply walled_then; [within | intros s1 [b|e] _ Hw1; [| done]].
  apply walled_then; [within | intros s2 [n|e] _ Hw2; [| done]].
  apply walled_then; [within | intros s3 [n'|e] _ Hw3; [| done]].
  apply walled_then; [within | intros s4 [k|e] _ Hw4; [| done]].
  assert (stranger bot update s4) as Hs4 by (eapply stranger_walled; [| exact Hs]; by repeat (etransitivity; [eassumption |])).
  set (d := TelegramDelivery_new _ _ _ _ _ _ _).
  destruct (dispatch_rebuffs services bot update (Some d) guard s4 Hs4 Hb) as [Hw Hp]. unfold dresult.
  destruct (dispatch_update_with_delivery_and_guard _ _ _ _ _ _ _ s4) as [s5 [[replies|e]|]]; simpl in *; [| | done].
  - etransitivity; [exact Hw |]. destruct (scope_of_stranger services bot u chat update s5) as [Hw6 Hus].
    { by eapply stranger_walled. }
    unfold dbind, dresult. destruct (scope_of_update _ _ _ _ _ _ _ s5) as [s6 [[us|e]|]]; simpl in *; [| done ..].
    etransitivity; [exact Hw6 |]. apply walled_replies; [by apply Hus | by apply Hp].
  - etransitivity; [exact Hw |]. destruct (is_server_error e); [done |].
    assert (within walled (do! text := report_error e bot chat u in of_delivery (send_reply fresh_id now_text retry_text d text None)))
      as Hk by within. apply Hk.
Qed.

(** ** What a stranger is told *)

(** No request to Telegram. *)
Definition unasked (s s' : DState) : Prop := w_requests (ds_delivery s') = w_requests (ds_delivery s).

#[local] Instance unasked_preorder : PreOrder unasked.
Proof. split; [done |]. intros a b c Ha Hb. unfold unasked in *. congruence. Qed.

(** A run that ends in an error, with no request made. *)
Definition fails_silently {A} (m : D A) (s : DState) : Prop :=
  exists s' e, m s = (s', Some (Err e)) /\ unasked s s'.

Lemma silent_then {A B} (m : D A) (k : A -> D B) s s1 r :
  m s = (s1, Some r) -> unasked s s1 -> (forall a, r = Ok a -> fails_silently (k a) s1) -> fails_silently (dbind m k) s.
Proof.
  intros Hm Hu Hk. unfold fails_silently, dbind, dresult. rewrite Hm. destruct r as [a|e]; [| by exists s1, e].
  destruct (Hk a eq_refl) as (s' & e & Hr & Hu'). exists s', e. split; [done |]. by etransitivity.
Qed.

Lemma plain_text_scope_fails services bot u chat update text user s :
  pointer ["callback_query"; "from"; "id"] update = None -> i64_at ["message"; "from"; "id"] update = Some user ->
  resolve_bound_actor bot (pretty user) (ds_bind s) (ds_identity s) = Ok None ->
  str_at ["message"; "text"] update = Some text -> starts_with (trim_start text) "/" = false ->
  fails_silently (scope_of_update E looks services bot u chat update) s.
Proof.
  intros Hc Hf Hr Ht Hp. unfold scope_of_update. rewrite Hc. cbn [or_else]. unfold i64_at in Hf. rewrite Hf. simpl.
  eapply silent_then with (s1 := s) (r := Ok None); [| done |].
  { destruct services; [| done]. unfold resolve_d. by rewrite Hr. }
  intros a [= <-]. rewrite dbind_ok. unfold business_turn_of. rewrite Ht, Hp. simpl. by eexists _, _.
Qed.

Lemma unbound_text_dispatch services bot update d guard message text user s :
  value_get update "callback_query" = None -> value_get update "message" = Some message ->
  i64_at ["from"; "id"] message = Some user -> str_at ["text"] message = Some text ->
  trim text <> "" -> asks_to_bind update = false ->
  resolve_bound_actor bot (pretty user) (ds_bind s) (ds_identity s) = Ok None ->
  dispatch_update_with_delivery_and_guard E looks services bot update d guard s
  = (s, Some (Ok (match services with Some _ => unauthorized_reply | None => [] end))).
Proof.
  intros Hc Hm Hu Ht Hne Hb Hr. unfold asks_to_bind, message_text in Hb. rewrite Hm in Hb. simpl in Hb.
  unfold dispatch_update_with_delivery_and_guard. destruct services; [| done]. rewrite Hc, Hm. unfold dispatch_message.
  rewrite Ht, Hu in *. simpl in *. rewrite Hb, bool_decide_eq_false_2 by done.
  unfold dbind, dresult, resolve_d. by rewrite Hr.
Qed.

(** A text of a stranger is never answered.  Whoever is not bound to the bot and
    writes to it in plain words, not with a command, is sent nothing, not even the
    hint how to bind: the processing of the update fails, and fails again with
    every retry, without a request to Telegram. *)
Theorem unbound_text_is_never_answered services guard lock bot chat u update message text user s :
  value_get update "callback_query" = None -> value_get update "message" = Some message ->
  i64_at ["from"; "id"] message = Some user -> str_at ["text"] message = Some text ->
  trim text <> "" -> asks_to_bind update = false -> starts_with (trim_start text) "/" = false ->
  resolve_bound_actor bot (pretty user) (ds_bind s) (ds_identity s) = Ok None ->
  fails_silently (work_on_update E looks services guard lock bot chat u update) s.
Proof.
  intros Hc Hm Hu Ht Hne Hb Hp Hr. unfold work_on_update. destruct lock; [| by eexists _, _].
  cbn [negb].
  eapply silent_then; [reflexivity | done | intros b _]. eapply silent_then; [reflexivity | done | intros n _].
  eapply silent_then; [reflexivity | done | intros n' _]. eapply silent_then; [reflexivity | done | intros k _].
  match goal with |- fails_silently _ ?x => set (s4 := x) end.
  unfold fails_silently, dresult. rewrite (unbound_text_dispatch _ bot update _ _ message text user s4) by done.
  destruct (plain_text_scope_fails services bot u chat update text user s4) as (s' & e & He & Hq); [| | done | | done |].
  - cbn [pointer]. by rewrite Hc.
  - unfold i64_at. cbn [pointer]. by rewrite Hm.
  - unfold str_at. cbn [pointer]. by rewrite Hm.
  - exists s', e. split; [| exact Hq]. unfold dbind, dresult. by rewrite He.
Qed.
End Strangers.
