(* ===== verification/DispatchDemo.v ===== *)
(** * Runs of the dispatch

    A small program, with an account bound to a Telegram user, a chat selected and a
    panel shown, on which the theorems about dispatch are run. *)

From S2P Require Import Prelude Text Errors StDomain Operations OperationStore PollerOwnership Journal Vault Program OperationPayload Coordinator ChannelContext StOps Engine CoordinatorCorrect EngineCorrect StoreInvariant StoreCorrect BindCodes Identity TelegramInbox TelegramRuntime DeliveryQueue TelegramText Delivery DeliveryCorrect DeliverySends Callback Panel PanelStore Readiness ErrorRender ErrorEvents Dispatch Turns TurnsCorrect Updates DispatchCorrect Strangers.
From stdpp Require Import pretty.

Definition some_sha : string := "00000000000000000000000000000000000000000000000000000000000000aa".

#[local] Existing Instances StoreCorrect.demo_ids toy_aead OperationPayload.demo_impl.

#[local] Instance run_codecs : Codecs :=
  {| sha256_hex s := if starts_with s "cb:" then s else some_sha; mutation_to_vec _ := Some "digest";
     result_to_string _ := Some "{}"; payload_to_vec _ := Some "payload";
     payload_from_slice s := if s =?= "payload" then Some demo_append else None;
     value_from_slice _ := None; value_to_string _ := "{}" |}.

(** Thirty-two digits. *)
Definition run_hex (n : nat) : string :=
  let digits := "00000000000000000000000000000000" +:+ pretty n in str_drop (String.length digits - 32) digits.

Definition run_binding : CallbackBinding := MkCallbackBinding "acc" "bot" 42 7 "77" "p1" 100 1 None 600 CbHome "n".

#[local] Instance run_host : Host := {|
  fresh_id := demo_id; random_hex := run_hex; now_text := demo_now; unix_of clock := clock;
  retry_text := demo_retry_at; print_binding _ := "binding"; read_binding _ := Some run_binding; print_action _ := "action";
  kind_json _ := "home"; kind_of_json _ := Some PkHome; claim_json _ _ _ _ := "claim"; keyboard_json _ := "keyboard";
  first_key _ := None; bind_code_hmac := BindCodes.demo_hmac; to_uppercase s := s |}.

Definition run_env : Env := quiet demo_applied (Ok None).

Definition run_chat : list Value :=
  [JObject [];
   JObject [("name", JString "User"); ("is_user", JBool true); ("mes", JString "hi")];
   JObject [("name", JString "Ada"); ("is_user", JBool false); ("mes", JString "hello")]].

Definition run_reads : EngineReads :=
  {| rd_lock := true; rd_permit := true; rd_probe := Ok demo_status;
     rd_snapshot := Ok {| sn_locator := demo_locator; sn_parsed_chat := run_chat; sn_source_sha256 := some_sha;
                          sn_source_integrity := "int"; sn_source_byte_length := 10; sn_source_message_count := 2 |};
     rd_characters := Ok [demo_character]; rd_chats := Ok []; rd_models := Ok {| mc_models := []; mc_current_model := None |};
     rd_settings := Ok demo_settings;
     rd_generate _ _ := Ok {| gr_text := "hello"; gr_finish_reason := None; gr_usage := None |};
     rd_new_id := "fresh"; rd_now_ms := 1000; rd_now := "2026-01-01T00:00:00Z";
     rd_draws := demo_draws; rd_nonce := demo_nonce; rd_lifecycle _ := Running |}.

Definition run_looks (_ : nat) : Look := MkLook (Some 42%Z) "running" run_reads [].

Definition run_scope : TurnScope := MkTurnScope "acc" "bot" 42 7 some_sha.

Definition run_tables : Tables :=
  MkTables ∅ {[1%Z := MkTurnMessageRow run_scope "tg:bot:1" "tg:bot:1" 0 11 some_sha 0 "active" "active" None "t0" "t0"]} 1 ∅
    {["bot"]} ∅.

Definition run_db : DB :=
  set_channel_contexts {[("acc", "bot:7") :=
    {| c_workspace_id := Some "ws"; c_st_handle := Some "default-user"; c_st_character_avatar := Some "a.png";
       c_st_character_name := Some "Ada"; c_st_chat_file := Some "chat-1"; c_chat_model_id := None;
       c_compression_model_id := None; c_updated_at := "t0" |}]} demo_db.

Definition run_effects : Effects :=
  match issue sha256_hex print_binding "t0" demo_raw run_binding ∅ with Ok (t, _) => t | Err _ => ∅ end.

Definition run_panels : PanelDB :=
  match save_slot kind_json "t0" (MkPanelSlot "p1" "acc" 42 7 100 PkHome 1 true 600) (MkPanelDB ∅ run_effects) with
  | Ok p => p | Err _ => MkPanelDB ∅ run_effects end.

Definition run_bot : TelegramBot := MkTelegramBot "ws" "acc" (Some "sec") true None None 0 0 1 1 3200.

Definition run_state (replies : list RawReply) : DState :=
  MkDState (MkWorld run_tables (DeliveryCoordinator_new 3600000) 0 [] replies 0 []) (world0 run_db) run_panels ∅ Identity.demo_binds
    Identity.demo_identity {["bot" := run_bot]} (MkErrorEvents ∅ 0) 0.

Definition run_services : TelegramServices := MkTelegramServices (Some demo_engine).
Definition run_delivery : TelegramDelivery := TelegramDelivery_new "bot" 42 7 0 1 1 3200.
Definition run_origin : BridgeOperationOrigin :=
  {| o_internal_bot_id := "bot"; o_telegram_update_id := 9; o_channel_context_key := "bot:7" |}.

Definition run_undo : D Replies :=
  undo_turn run_env run_looks "bot" 7 run_services demo_actor "bot:7" (Some "tg:bot:9") (Some run_delivery) run_origin.

Definition run_press : D Replies :=
  handle_callback run_env run_looks (Some run_services) "bot" "77" 7 100 ("cb:" +:+ demo_raw) (Some run_delivery).
Definition stranger_update (id : Z) (text : string) : Value :=
  JObject [("update_id", JNumber "9"); ("message", JObject [("from", JObject [("id", json_i64 id)]); ("chat", JObject [("id", json_i64 7)]); ("text", JString text)])].
Definition run_update (id : Z) (text : string) : D unit :=
  work_on_update run_env run_looks (Some run_services) None true "bot" 7 9 (stranger_update id text).

Definition undone : DState := (run_undo (run_state [])).1.

(** The turn is taken back, SillyTavern is called once. *)
Lemma removal_is_reported_witness :
  exists r row, run_undo (run_state []) = (undone, Some r)
    /\ targets_of undone !! "tg:bot:9" = Some row /\ tt_status row = "applied" /\ length (w_calls (ds_bridge undone)) = 1
    /\ reported run_env demo_actor "tg:bot:9" run_origin (λ loc, UndoLastTurnCmd loc "tg:bot:9") (run_state []) undone r.
Proof.
  assert (exists r, run_undo (run_state []) = (undone, Some r)) as (r & Hr) by (eexists; vm_compute; reflexivity).
  pose proof (removal_is_reported run_env run_looks run_services demo_actor "bot:7" "tg:bot:9" run_origin
    (λ loc, UndoLastTurnCmd loc "tg:bot:9") run_undo (run_state []) undone r
    ltac:(apply rm_undo; reflexivity) Hr) as Hrep.
  eexists r, _. split; [exact Hr |]. split; [vm_compute; reflexivity |].
  split; [vm_compute; reflexivity |]. split; [vm_compute; reflexivity |]. exact Hrep.
Defined.

(** The same command again: an answer, no call. *)
Lemma settled_turn_is_left_alone_witness :
  exists s' r, run_undo undone = (s', Some r) /\ w_calls (ds_bridge s') = w_calls (ds_bridge undone)
    /\ w_requests (ds_delivery s') = w_requests (ds_delivery undone).
Proof.
  assert (exists s' r, run_undo undone = (s', Some r)) as (s' & r & Hr) by (eexists _, _; vm_compute; reflexivity).
  assert (exists row, targets_of undone !! "tg:bot:9" = Some row /\ tt_status row = "applied") as (row & Hrow & Hst)
    by (eexists; split; vm_compute; reflexivity).
  destruct (settled_turn_is_left_alone run_env run_looks run_services demo_actor "bot:7" "tg:bot:9" run_origin run_undo
    undone s' r row ltac:(apply tc_undo; reflexivity) Hr Hrow ltac:(rewrite Hst; discriminate)) as (Hc & Hq & _).
  exists s', r. split; [exact Hr |]. split; [exact Hc | exact Hq].
Defined.

(** The button of the panel that is shown: the panel is edited once. *)
Lemma button_acts_in_scope_witness :
  exists s' r, run_press (run_state [answer_message 100]) = (s', Some r)
    /\ length (w_requests (ds_delivery s')) = 1 /\ exists eid, action_settled eid CbHome s'.
Proof.
  assert (exists s' r, run_press (run_state [answer_message 100]) = (s', Some r)
    /\ length (w_requests (ds_delivery s')) = 1) as (s' & r & Hr & Hl) by (eexists _, _; split; vm_compute; reflexivity).
  exists s', r. split; [exact Hr |]. split; [exact Hl |].
  destruct (button_acts_in_scope run_env run_looks (Some run_services) "bot" "77" 7 100 ("cb:" +:+ demo_raw)
    (Some run_delivery) (run_state [answer_message 100]) s' r Hr) as [Hu|(a & n & slot & row & b & eid & _ & _ & _ & _ & Hb & _ & _ & Hs)].
  - rewrite (ut_requests _ _ Hu) in Hl. discriminate Hl.
  - injection Hb as <-. by exists eid.
Defined.

(** A stranger's command is turned away, with one message. *)
Lemma strangers_reach_nothing_witness :
  let s' := (run_update 88 "/chars" (run_state [answer_message 100])).1 in
  length (w_requests (ds_delivery s')) = 1 /\ walled (run_state [answer_message 100]) s'.
Proof.
  intros s'. split; [vm_compute; reflexivity |].
  refine (proj1 (strangers_reach_nothing run_env run_looks (Some run_services) None true "bot" 7 9 (stranger_update 88 "/chars")
    (run_state [answer_message 100]) _ _)); [| vm_compute; reflexivity].
  repeat (apply List.Forall_cons; [vm_compute; discriminate |]). apply List.Forall_nil.
Defined.

(** A stranger's words are not answered. *)
Lemma unbound_text_is_never_answered_witness : fails_silently (run_update 88 "hello") (run_state [answer_message 100]).
Proof.
  refine (unbound_text_is_never_answered run_env run_looks (Some run_services) None true "bot" 7 9 (stranger_update 88 "hello")
    (JObject [("from", JObject [("id", json_i64 88)]); ("chat", JObject [("id", json_i64 7)]); ("text", JString "hello")])
    "hello" 88 (run_state [answer_message 100]) _ _ _ _ _ _ _ _); vm_compute; first [reflexivity | discriminate].
Defined.

(** The words of the user that is bound are: the reply replaces the placeholder, and
    the turn is delivered. *)
Example bound_text_is_answered :
  let '(s, r) := run_update 77 "hello" (run_state [answer_message 100; answer_message 100]) in
  r = Some (Ok tt) /\ map rq_method (w_requests (ds_delivery s)) = ["sendMessage"; "editMessageText"]
  /\ ledger (w_db (ds_bridge s)) !! "tg:bot:9" = Some (Delivered, OcApplied).
Proof. vm_compute. auto. Qed.
