(* ===== verification/CardPng.v ===== *)
(** * Character cards ([modules/characters/card_png.rs], [domain/character.rs])

    A card is a JSON value, in a file of its own or as Base64 text in [tEXt]
    chunks of a PNG.  The CRC, Base64 and JSON are libraries: parameters. *)

From S2P Require Import Prelude Text Errors StDomain Prompt.
From Stdlib Require Import Lia.

(** ** Bytes *)

Fixpoint of_bytes (l : list N) : string :=
  match l with [] => EmptyString | b :: l => String (Ascii.ascii_of_N b) (of_bytes l) end.

Definition PNG_SIG : string := of_bytes [137; 80; 78; 71; 13; 10; 26; 10]%N.
Definition MAX_PNG_BYTES : Z := 16 * 1024 * 1024.
Definition MAX_JSON_BYTES : Z := 2 * 1024 * 1024.

Definition len (s : string) : Z := Z.of_nat (String.length s).

(** [u32::from_be_bytes]. *)
Fixpoint be_value_from (acc : Z) (s : string) : Z :=
  match s with EmptyString => acc | String a s => be_value_from (acc * 256 + Z.of_N (byte_val a)) s end.
Definition from_be_bytes (s : string) : Z := be_value_from 0 s.

(** [Read::read_exact] on a cursor, given what is left of its bytes. *)
Definition read_exact (n : Z) (rest : string) : option (string * string) :=
  if (n <=? len rest)%Z then Some (str_take (Z.to_nat n) rest, str_drop (Z.to_nat n) rest) else None.

Definition zero_byte : Ascii.ascii := Ascii.ascii_of_N 0.

(** ** Card fields *)

Definition string_field (value : Value) (keys : list string) : option string :=
  head (omap (λ key, value_get value key ≫= value_as_str) keys).

Definition from_raw (raw : Value) : NormalizedCardFields :=
  let data := default raw (value_get raw "data") in
  let field keys := default "" (string_field data keys) in
  {| nc_name := field ["name"]; nc_description := field ["description"]; nc_personality := field ["personality"];
     nc_scenario := field ["scenario"]; nc_first_mes := field ["first_mes"; "firstMes"];
     nc_mes_example := field ["mes_example"; "mesExample"]; nc_system_prompt := field ["system_prompt"];
     nc_post_history_instructions := field ["post_history_instructions"] |}.

Record ParsedCard := MkParsedCard {
  pc_source_format : string;
  pc_spec : option string;
  pc_spec_version : option string;
  pc_raw : Value;
  pc_checksum : string;
  pc_warnings : list string;
}.

Definition png_invalid (message : string) : AppError := bad_request "PNG_INVALID" message.

Section CardPng.
Context (crc32 : string -> Z) (base64_encode : string -> string) (base64_decode : string -> option string).
Context (from_slice : string -> result Value string) (to_vec : Value -> result string string).
Context (sha256_hex : string -> string).

Definition parsed_from_value (raw : Value) (source_format : string) (warnings : list string) : ParsedCard :=
  let spec := value_get raw "spec" ≫= value_as_str in
  let spec_version := value_get raw "spec_version" ≫= value_as_str in
  let v3 := (spec =?= Some "chara_card_v3")
            || match spec_version with Some v => starts_with v "3" | None => false end in
  let warnings :=
    if v3 then warnings
    else match value_get raw "data" ≫= (λ data, value_get data "character_book") with
         | Some _ => warnings ++ ["character_book is stored but not executed by legacy_bridge_v1"]
         | None => warnings
         end in
  MkParsedCard source_format spec spec_version raw
    (sha256_hex (match to_vec raw with Ok bytes => bytes | Err _ => "" end)) warnings.

Definition parse_json_card (bytes source_format : string) : AppResult ParsedCard :=
  if (MAX_JSON_BYTES <? len bytes)%Z then Err (bad_request "CARD_TOO_LARGE" "character JSON exceeds size limit") else
  let? raw := map_err (λ err, bad_request "CARD_JSON_INVALID" ("invalid card JSON: " +:+ err)) (from_slice bytes) in
  Ok (parsed_from_value raw source_format []).

(** Keyword and text of a [tEXt] chunk. *)
Definition split_text_chunk (data : string) : option (string * string) :=
  match split_once zero_byte data with
  | None => None
  | Some (keyword, text) => if utf8_valid keyword && utf8_valid text then Some (keyword, text) else None
  end.

Definition decode_card_text (text : string) : AppResult Value :=
  let? decoded := ok_or (base64_decode (trim text))
    (bad_request "PNG_CARD_B64" "PNG card metadata is not valid Base64") in
  if (MAX_JSON_BYTES <? len decoded)%Z then Err (bad_request "CARD_TOO_LARGE" "decoded card JSON exceeds size limit") else
  map_err (λ err, bad_request "PNG_CARD_JSON" ("PNG card JSON invalid: " +:+ err)) (from_slice decoded).

(** ** Reading *)

(** One chunk: its type and its data; [None] where the loop breaks for lack of bytes. *)
Definition next_chunk (rest : string) : option (AppResult (string * string * string)) :=
  match read_exact 4 rest with
  | None => None
  | Some (len_buf, rest) =>
      let length := from_be_bytes len_buf in
      Some (
        let? (type_buf, rest) := ok_or (read_exact 4 rest) (png_invalid "truncated PNG chunk type") in
        if (MAX_JSON_BYTES <? length)%Z then Err (bad_request "PNG_CHUNK_TOO_LARGE" "PNG text chunk too large") else
        let? (data, rest) := ok_or (read_exact length rest) (png_invalid "truncated PNG chunk data") in
        let? (crc_buf, rest) := ok_or (read_exact 4 rest) (png_invalid "truncated PNG CRC") in
        if negb (from_be_bytes crc_buf =? crc32 (type_buf +:+ data))%Z
        then Err (bad_request "PNG_CRC_MISMATCH" "PNG chunk CRC mismatch")
        else Ok (type_buf, data, rest))
  end.

Definition card_keyword (type data : string) : option (string * string) :=
  if type =?= "tEXt" then
    match split_text_chunk data with
    | Some (keyword, text) => if (keyword =?= "ccv3") || (keyword =?= "chara") then Some (keyword, text) else None
    | None => None
    end
  else None.

Definition Cards : Type := option Value * option Value.      (* [chara] and [ccv3] *)

Definition note_card (type data : string) (cards : Cards) : AppResult Cards :=
  match card_keyword type data with
  | Some (keyword, text) =>
      let? raw := decode_card_text text in
      Ok (if keyword =?= "ccv3" then (cards.1, Some raw) else (Some raw, cards.2))
  | None => Ok cards
  end.

(** The [loop]; every turn that goes on consumes twelve bytes or more. *)
Fixpoint card_loop (fuel : nat) (rest : string) (cards : Cards) : option (AppResult Cards) :=
  match fuel with
  | O => None
  | S fuel =>
      match next_chunk rest with
      | None => Some (Ok cards)
      | Some (Err e) => Some (Err e)
      | Some (Ok (type, data, rest)) =>
          if type =?= "IEND" then Some (Ok cards)
          else match note_card type data cards with
               | Err e => Some (Err e)
               | Ok cards => card_loop fuel rest cards
               end
      end
  end.

(** [None] stands for a loop that did not end within the fuel. *)
Definition parse_png_card (bytes : string) : option (AppResult ParsedCard) :=
  if negb (starts_with bytes PNG_SIG) then Some (Err (png_invalid "file is not a PNG")) else
  match card_loop (S (String.length bytes)) (str_drop (String.length PNG_SIG) bytes) (None, None) with
  | None => None
  | Some (Err e) => Some (Err e)
  | Some (Ok (chara, ccv3)) =>
      Some (match ccv3, chara with
            | Some raw, _ => Ok (parsed_from_value raw "png" [])
            | None, Some raw => Ok (parsed_from_value raw "png" [])
            | None, None => Err (bad_request "PNG_CARD_MISSING" "PNG does not contain ccv3 or chara metadata")
            end)
  end.

Definition ends_with (s suffix : string) : bool :=
  (String.length suffix <=? String.length s)%nat && (str_drop (String.length s - String.length suffix) s =?= suffix).

Definition parse_character_bytes (bytes filename : string) : option (AppResult ParsedCard) :=
  if (MAX_PNG_BYTES <? len bytes)%Z
  then Some (Err (bad_request "CARD_TOO_LARGE" "character file exceeds size limit")) else
  if ends_with (to_ascii_lowercase filename) ".png" || starts_with bytes PNG_SIG then parse_png_card bytes
  else Some (parse_json_card bytes "json").

(** ** Writing *)

Definition write_text_chunk (keyword text : string) : string :=
  let data := keyword +:+ String zero_byte text in
  be_bytes 4 (len data mod 2 ^ 32) +:+ "tEXt" +:+ data +:+ be_bytes 4 (crc32 ("tEXt" +:+ data)).

(** One chunk as it is: header, data and CRC. *)
Definition next_raw_chunk (rest : string) : option (AppResult (string * string * string * string)) :=
  match read_exact 8 rest with
  | None => None
  | Some (header, rest) =>
      Some (
        let? (data, rest) := ok_or (read_exact (from_be_bytes (str_take 4 header)) rest)
                               (png_invalid "truncated PNG while exporting") in
        let? (crc, rest) := ok_or (read_exact 4 rest) (png_invalid "truncated PNG CRC while exporting") in
        Ok (header, data, crc, rest))
  end.

Fixpoint export_loop (fuel : nat) (encoded rest output : string) : option (AppResult string) :=
  match fuel with
  | O => None
  | S fuel =>
      match next_raw_chunk rest with
      | None => Some (Ok output)
      | Some (Err e) => Some (Err e)
      | Some (Ok (header, data, crc, rest)) =>
          let kind := str_drop 4 header in
          if bool_decide (is_Some (card_keyword kind data)) then export_loop fuel encoded rest output
          else if kind =?= "IEND" then
            Some (Ok (output +:+ write_text_chunk "chara" encoded +:+ write_text_chunk "ccv3" encoded
                      +:+ header +:+ data +:+ crc))
          else export_loop fuel encoded rest (output +:+ header +:+ data +:+ crc)
      end
  end.

Definition encode_png_with_card (original_png : string) (raw : Value) : option (AppResult string) :=
  if negb (starts_with original_png PNG_SIG) then Some (Err (png_invalid "cannot export non-PNG asset as PNG")) else
  match to_vec raw with
  | Err err => Some (Err (internal ("serialize card: " +:+ err)))
  | Ok json =>
      export_loop (S (String.length original_png)) (base64_encode json) (str_drop (String.length PNG_SIG) original_png) PNG_SIG
  end.

(** ** Chunks as bytes *)

Definition chunk_bytes (type data : string) : string :=
  be_bytes 4 (len data) +:+ type +:+ data +:+ be_bytes 4 (crc32 (type +:+ data)).

Fixpoint chunks_bytes (cs : list (string * string)) : string :=
  match cs with [] => "" | (type, data) :: cs => chunk_bytes type data +:+ chunks_bytes cs end.

Definition chunk_ok (c : string * string) : Prop := String.length c.1 = 4 /\ (len c.2 <= MAX_JSON_BYTES)%Z.
Definition inner_chunk (c : string * string) : Prop := chunk_ok c /\ c.1 <> "IEND".
Definition is_card (c : string * string) : Prop := is_Some (card_keyword c.1 c.2).

#[local] Instance is_card_dec c : Decision (is_card c).
Proof. unfold is_card. apply _. Defined.

#[local] Arguments read_exact : simpl never.
#[local] Arguments from_be_bytes : simpl never.
#[local] Arguments str_take : simpl never.
#[local] Arguments str_drop : simpl never.

(** The CRC is a [u32]. *)
Context (crc32_range : forall s, (0 <= crc32 s < 2 ^ 32)%Z).

Lemma be_value_app acc s t : be_value_from acc (s +:+ t) = be_value_from (be_value_from acc s) t.
Proof. revert acc. induction s as [|a s IH]; intros acc; simpl; [done |]. by rewrite IH. Qed.

Lemma be_value_bytes n z acc :
  (0 <= z < 256 ^ Z.of_nat n)%Z -> be_value_from acc (be_bytes n z) = (acc * 256 ^ Z.of_nat n + z)%Z.
Proof.
  revert z acc. induction n as [|n IH]; intros z acc Hz; simpl be_bytes; [simpl in *; lia |].
  rewrite Nat2Z.inj_succ, Z.pow_succ_r in * by lia.
  rewrite be_value_app, IH by (split; [apply Z.div_pos; lia | apply Z.div_lt_upper_bound; lia]).
  simpl. unfold byte_val. pose proof (Z.mod_pos_bound z 256 ltac:(lia)).
  rewrite Ascii.N_ascii_embedding by lia. rewrite Z2N.id by lia. pose proof (Z.div_mod z 256 ltac:(lia)). lia.
Qed.

Lemma from_be_to_be z : (0 <= z < 2 ^ 32)%Z -> from_be_bytes (be_bytes 4 z) = z.
Proof. intros Hz. unfold from_be_bytes. rewrite be_value_bytes by (simpl; lia). lia. Qed.

#[local] Arguments be_bytes : simpl never.

Lemma read_exact_app n a b : n = len a -> read_exact n (a +:+ b) = Some (a, b).
Proof.
  intros ->. unfold read_exact, len. rewrite app_string_length, Nat2Z.inj_add, (proj2 (Z.leb_le _ _)) by lia.
  by rewrite Nat2Z.id, str_take_exact, str_drop_exact.
Qed.

Lemma read_exact_short n rest : (len rest < n)%Z -> read_exact n rest = None.
Proof. intros Hn. unfold read_exact. by rewrite (proj2 (Z.leb_gt _ _)). Qed.

Lemma read_exact_Some n rest a b : (0 <= n)%Z -> read_exact n rest = Some (a, b) -> rest = a +:+ b /\ len a = n.
Proof.
  unfold read_exact, len. destruct (Z.leb_spec n (Z.of_nat (String.length rest))); [| done]. intros Hn [= <- <-].
  split; [by rewrite take_drop_string |]. rewrite str_take_length. lia.
Qed.

Lemma be4_len z : len (be_bytes 4 z) = 4%Z.
Proof. unfold len. by rewrite be_bytes_length. Qed.

Lemma type_len (type : string) : String.length type = 4 -> len type = 4%Z.
Proof. unfold len. lia. Qed.

Lemma next_chunk_bytes type data rest :
  chunk_ok (type, data) -> next_chunk (chunk_bytes type data +:+ rest) = Some (Ok (type, data, rest)).
Proof.
  intros [Ht Hd]. simpl in *. unfold next_chunk, chunk_bytes. rewrite <- !app_string_assoc.
  rewrite read_exact_app by (by rewrite be4_len). simpl.
  assert (0 <= len data < 2 ^ 32)%Z by (unfold len, MAX_JSON_BYTES in *; lia).
  rewrite from_be_to_be by done. rewrite read_exact_app by (by rewrite type_len). simpl.
  rewrite (proj2 (Z.ltb_ge _ _)) by lia. rewrite read_exact_app by done. simpl.
  rewrite read_exact_app by (by rewrite be4_len). simpl. rewrite from_be_to_be by apply crc32_range.
  by rewrite Z.eqb_refl.
Qed.

Lemma next_raw_chunk_bytes type data rest :
  chunk_ok (type, data) ->
  next_raw_chunk (chunk_bytes type data +:+ rest)
  = Some (Ok (be_bytes 4 (len data) +:+ type, data, be_bytes 4 (crc32 (type +:+ data)), rest)).
Proof.
  intros [Ht Hd]. simpl in *. unfold next_raw_chunk, chunk_bytes. rewrite <- !app_string_assoc.
  rewrite (app_string_assoc (be_bytes 4 _) type).
  rewrite read_exact_app by (unfold len; rewrite app_string_length, be_bytes_length, Ht; lia). simpl.
  assert (0 <= len data < 2 ^ 32)%Z by (unfold len, MAX_JSON_BYTES in *; lia).
  rewrite <- (be_bytes_length 4 (len data)) at 1. rewrite str_take_exact, from_be_to_be by done.
  rewrite read_exact_app by done. simpl. by rewrite read_exact_app by (by rewrite be4_len).
Qed.

Lemma kind_of_header type data : str_drop 4 (be_bytes 4 (len data) +:+ type) = type.
Proof. rewrite <- (be_bytes_length 4 (len data)) at 1. apply str_drop_exact. Qed.

Lemma write_is_chunk keyword text :
  (len (keyword +:+ String zero_byte text) <= MAX_JSON_BYTES)%Z ->
  write_text_chunk keyword text = chunk_bytes "tEXt" (keyword +:+ String zero_byte text).
Proof.
  intros Hl. unfold write_text_chunk, chunk_bytes. cbv zeta.
  rewrite Z.mod_small by (unfold MAX_JSON_BYTES in Hl; unfold len in *; lia). done.
Qed.

(** ** The loops over chunks *)

Lemma card_loop_skip cs fuel rest cards :
  Forall (λ c, inner_chunk c /\ ~ is_card c) cs ->
  card_loop (length cs + fuel) (chunks_bytes cs +:+ rest) cards = card_loop fuel rest cards.
Proof.
  induction 1 as [|[type data] cs [[Hok Hne] Hc] _ IH]; simpl; [done |].
  rewrite <- app_string_assoc, next_chunk_bytes by done. rewrite bool_decide_eq_false_2 by done.
  unfold note_card. destruct (card_keyword type data) eqn:Hk; [| exact IH]. destruct Hc. by eexists.
Qed.

Lemma export_loop_chunks cs fuel encoded rest output :
  Forall inner_chunk cs ->
  export_loop (length cs + fuel) encoded (chunks_bytes cs +:+ rest) output
  = export_loop fuel encoded rest (output +:+ chunks_bytes (filter (λ c, ~ is_card c) cs)).
Proof.
  intros Hcs. revert output. induction Hcs as [|[type data] cs [Hok Hne] _ IH]; intros output; simpl.
  { by rewrite app_string_nil. }
  rewrite <- app_string_assoc, next_raw_chunk_bytes by done. rewrite kind_of_header.
  destruct (decide (is_card (type, data))) as [Hc|Hc].
  - rewrite bool_decide_eq_true_2 by exact Hc. rewrite IH. rewrite filter_cons_False by tauto. done.
  - rewrite bool_decide_eq_false_2 by exact Hc. rewrite bool_decide_eq_false_2 by done. rewrite IH.
    rewrite filter_cons_True by done. simpl. unfold chunk_bytes. by rewrite !app_string_assoc.
Qed.

(** ** Every accepted file is made of chunks *)

Lemma be_bytes_front n z :
  be_bytes (S n) z = String (Ascii.ascii_of_N (Z.to_N ((z / 256 ^ Z.of_nat n) mod 256))) (be_bytes n z).
Proof.
  revert z. induction n as [|n IH]; intros z; [by rewrite Z.div_1_r |].
  change (be_bytes (S (S n)) z) with (be_bytes (S n) (z / 256) +:+ String (Ascii.ascii_of_N (Z.to_N (z mod 256))) "").
  rewrite IH, app_string_cons. f_equal. f_equal. f_equal. rewrite Z.div_div by lia.
  rewrite Nat2Z.inj_succ, Z.pow_succ_r by lia. done.
Qed.

Lemma be_value_shift acc s :
  exists v, (0 <= v < 256 ^ Z.of_nat (String.length s))%Z /\ be_value_from acc s = (acc * 256 ^ Z.of_nat (String.length s) + v)%Z.
Proof.
  revert acc. induction s as [|a s IH]; intros acc; [exists 0%Z; simpl; lia |]. cbn [String.length be_value_from].
  destruct (IH (acc * 256 + Z.of_N (byte_val a))%Z) as (v & Hv & ->).
  rewrite Nat2Z.inj_succ, Z.pow_succ_r by lia. pose proof (Ascii.N_ascii_bounded a) as Ha. unfold byte_val in *.
  exists (Z.of_N (Ascii.N_of_ascii a) * 256 ^ Z.of_nat (String.length s) + v)%Z. split; nia.
Qed.

Lemma to_be_from_be n acc s : String.length s = n -> (0 <= acc)%Z -> be_bytes n (be_value_from acc s) = s.
Proof.
  revert acc s. induction n as [|n IH]; intros acc [|a s] Hl Hacc; try done. injection Hl as Hl.
  cbn [be_value_from]. rewrite be_bytes_front.
  assert (0 <= Z.of_N (byte_val a))%Z by lia. rewrite IH by lia. f_equal.
  destruct (be_value_shift (acc * 256 + Z.of_N (byte_val a)) s) as (v & Hv & ->). rewrite Hl in *.
  rewrite Z.div_add_l, (Z.div_small v) by lia. rewrite Z.add_0_r, Z.add_comm, Z.mod_add by lia.
  pose proof (Ascii.N_ascii_bounded a). unfold byte_val in *. rewrite Z.mod_small by lia.
  rewrite N2Z.id. apply Ascii.ascii_N_embedding.
Qed.

Lemma from_be_inj s z : len s = 4%Z -> from_be_bytes s = z -> s = be_bytes 4 z.
Proof. intros Hl <-. unfold from_be_bytes, len in *. rewrite to_be_from_be; lia || done. Qed.

Lemma from_be_range s : len s = 4%Z -> (0 <= from_be_bytes s < 2 ^ 32)%Z.
Proof.
  intros Hl. unfold from_be_bytes. destruct (be_value_shift 0 s) as (v & Hv & ->). unfold len in Hl. rewrite Hl in Hv. lia.
Qed.

Lemma next_chunk_inv rest type data rest' :
  next_chunk rest = Some (Ok (type, data, rest')) -> rest = chunk_bytes type data +:+ rest' /\ chunk_ok (type, data).
Proof.
  unfold next_chunk. destruct (read_exact 4 rest) as [[len_buf r1]|] eqn:H1; [| done].
  apply read_exact_Some in H1 as [-> Hl1]; [| lia]. intros [= He].
  destruct (read_exact 4 r1) as [[ty r2]|] eqn:H2; [| done]. apply read_exact_Some in H2 as [-> Hl2]; [| lia]. simpl in He.
  destruct (Z.ltb_spec MAX_JSON_BYTES (from_be_bytes len_buf)) as [|Hmax]; [done |]. pose proof (from_be_range _ Hl1) as Hr.
  destruct (read_exact (from_be_bytes len_buf) r2) as [[d r3]|] eqn:H3; [| done].
  apply read_exact_Some in H3 as [-> Hl3]; [| lia]. simpl in He.
  destruct (read_exact 4 r3) as [[crc r4]|] eqn:H4; [| done]. apply read_exact_Some in H4 as [-> Hl4]; [| lia]. simpl in He.
  destruct (Z.eqb_spec (from_be_bytes crc) (crc32 (ty +:+ d))) as [Hcrc|]; [| done]. injection He as <- <- <-.
  split; [| split; [unfold len in Hl2; simpl; lia | simpl; lia]].
  unfold chunk_bytes. rewrite <- !app_string_assoc. symmetry in Hl3.
  rewrite <- (from_be_inj len_buf (len d)) by done. by rewrite <- (from_be_inj crc _ Hl4 Hcrc).
Qed.

Lemma next_chunk_None rest : next_chunk rest = None -> (len rest < 4)%Z.
Proof. unfold next_chunk, read_exact. destruct (Z.leb_spec 4 (len rest)); done. Qed.

(** What follows the chunks: less than a length, or the end chunk and whatever comes after it. *)
Inductive file_end (rest : string) : bool -> Prop :=
| fe_cut : (len rest < 4)%Z -> file_end rest false
| fe_closed data tail : chunk_ok ("IEND", data) -> rest = chunk_bytes "IEND" data +:+ tail -> file_end rest true.

Lemma card_loop_form fuel rest cards r :
  card_loop fuel rest cards = Some (Ok r) ->
  exists cs rest' closed, rest = chunks_bytes cs +:+ rest' /\ Forall inner_chunk cs /\ file_end rest' closed.
Proof.
  revert rest cards. induction fuel as [|fuel IH]; intros rest cards; simpl; [done |].
  destruct (next_chunk rest) as [[[[type data] rest1]|e]|] eqn:Hn; [| done |].
  - apply next_chunk_inv in Hn as [-> Hok]. destruct (bool_decide_reflect (type = "IEND")) as [->|Hne].
    + intros _. exists [], (chunk_bytes "IEND" data +:+ rest1), true. split_and!; [done | constructor | by eapply fe_closed].
    + destruct (note_card type data cards) as [cards'|e]; [| done].
      intros (cs & rest' & closed & -> & Hcs & Hend)%IH. exists ((type, data) :: cs), rest', closed. simpl.
      split_and!; [by rewrite app_string_assoc | by constructor | done].
  - intros _. apply next_chunk_None in Hn. exists [], rest, false. split_and!; [done | constructor | by constructor].
Qed.

(** ** The loops end *)

Lemma card_loop_total fuel rest cards : (String.length rest < fuel)%nat -> is_Some (card_loop fuel rest cards).
Proof.
  revert rest cards. induction fuel as [|fuel IH]; intros rest cards Hf; [lia |]. simpl.
  destruct (next_chunk rest) as [[[[type data] rest1]|e]|] eqn:Hn; [| by eexists ..].
  apply next_chunk_inv in Hn as [-> _]. destruct (_ =?= _); [by eexists |].
  destruct (note_card type data cards); [| by eexists]. apply IH.
  unfold chunk_bytes in Hf. rewrite !app_string_length, !be_bytes_length in Hf. lia.
Qed.

Lemma export_loop_total fuel encoded rest output : (String.length rest < fuel)%nat -> is_Some (export_loop fuel encoded rest output).
Proof.
  revert rest output. induction fuel as [|fuel IH]; intros rest output Hf; [lia |]. simpl.
  destruct (next_raw_chunk rest) as [[[[[header data] crc] rest1]|e]|] eqn:Hn; [| by eexists ..].
  assert (String.length rest1 < String.length rest)%nat as Hlt.
  { unfold next_raw_chunk in Hn. destruct (read_exact 8 rest) as [[h r1]|] eqn:H1; [| done].
    apply read_exact_Some in H1 as [-> Hl1]; [| lia]. injection Hn as Hn.
    destruct (read_exact _ r1) as [[d r2]|] eqn:H2; [| done]. simpl in Hn.
    destruct (read_exact 4 r2) as [[c r3]|] eqn:H3; [| done]. injection Hn as <- <- <- <-.
    apply read_exact_Some in H3 as [-> Hl3]; [| lia]. unfold read_exact in H2.
    destruct (_ <=? _)%Z; [| done]. injection H2 as _ Hd. apply (f_equal String.length) in Hd.
    rewrite !app_string_length in *. unfold len in *.
    assert (forall n t, String.length (str_drop n t) <= String.length t)%nat as Hdrop.
    { intros n. induction n as [|n IHn]; intros [|a t]; simpl; try lia. unfold str_drop; fold str_drop. specialize (IHn t). lia. }
    specialize (Hdrop (Z.to_nat (from_be_bytes (str_take 4 h))) r1). lia. }
  repeat case_bool_decide; [| by eexists |]; apply IH; lia.
Qed.

(** Reading and writing cards always ends. *)
Lemma card_files_end bytes filename raw :
  is_Some (parse_character_bytes bytes filename) /\ is_Some (encode_png_with_card bytes raw).
Proof.
  assert (String.length (str_drop (String.length PNG_SIG) bytes) < S (String.length bytes))%nat as Hl.
  { pose proof (f_equal String.length (take_drop_string (String.length PNG_SIG) bytes)) as Hl. rewrite app_string_length in Hl. lia. }
  split.
  - unfold parse_character_bytes, parse_png_card. destruct (_ <? _)%Z; [by eexists |].
    destruct (_ || _); [| by eexists]. destruct (negb _); [by eexists |].
    destruct (card_loop_total _ _ (None, None) Hl) as [[[[] ]|] ->]; by eexists.
  - unfold encode_png_with_card. destruct (negb _); [by eexists |]. destruct (to_vec raw); [| by eexists].
    by apply export_loop_total.
Qed.

(** ** Base64 *)

Definition is_base64 (a : Ascii.ascii) : bool :=
  is_ascii_alphanumeric a || in_range 43 43 a || in_range 47 47 a || in_range 61 61 a.

Lemma base64_byte a : is_base64 a = true -> ws1 a = false /\ (forall b, ws2 a b = false) /\ (forall b c, ws3 a b c = false)
  /\ in_range 0 127 a = true.
Proof. destruct a as [[] [] [] [] [] [] [] []]; intros Ha; try discriminate Ha; by repeat split. Qed.

Lemma base64_start s : all_bytes is_base64 s = true -> trim_start s = s.
Proof.
  destruct s as [|a s]; [done |]. intros [Ha _]%andb_true_iff. destruct (base64_byte a Ha) as (H1 & H2 & H3 & _).
  cbn [trim_start]. rewrite H1. destruct s as [|b [|c s]]; rewrite ?H2, ?H3; done.
Qed.

Lemma base64_trim s : all_bytes is_base64 s = true -> trim s = s.
Proof.
  intros Hs. unfold trim. rewrite base64_start by done. induction s as [|a s IH]; [done |].
  cbn [trim_end]. unfold is_blank. rewrite base64_start by done. rewrite bool_decide_eq_false_2 by done.
  apply andb_true_iff in Hs as [_ Hs]. by rewrite IH.
Qed.

Lemma base64_utf8 s : all_bytes is_base64 s = true -> utf8_valid s = true.
Proof.
  induction s as [|a s IH]; [done |]. intros [Ha Hs]%andb_true_iff. cbn [utf8_valid].
  destruct (base64_byte a Ha) as (_ & _ & _ & ->). auto.
Qed.

(** What the Base64 library documents: decoding undoes encoding, and encoded text is of
    the alphabet. *)
Context (decode_encode : forall bytes, base64_decode (base64_encode bytes) = Some bytes).
Context (encode_alphabet : forall bytes, all_bytes is_base64 (base64_encode bytes) = true).

Lemma decode_own raw json :
  from_slice json = Ok raw -> (len json <= MAX_JSON_BYTES)%Z -> decode_card_text (base64_encode json) = Ok raw.
Proof.
  intros Hj Hl. unfold decode_card_text. rewrite base64_trim by apply encode_alphabet. rewrite decode_encode. simpl.
  rewrite (proj2 (Z.ltb_ge _ _)) by lia. by rewrite Hj.
Qed.

Definition card_data (keyword json : string) : string := keyword +:+ String zero_byte (base64_encode json).

Lemma keyword_of_own keyword json :
  keyword = "chara" \/ keyword = "ccv3" -> card_keyword "tEXt" (card_data keyword json) = Some (keyword, base64_encode json).
Proof.
  intros Hk. unfold card_keyword, card_data, split_text_chunk. rewrite bool_decide_eq_true_2 by done.
  assert (split_once zero_byte (keyword +:+ String zero_byte (base64_encode json)) = Some (keyword, base64_encode json)) as ->
    by (destruct Hk as [-> | ->]; reflexivity).
  rewrite (base64_utf8 _ (encode_alphabet json)). by destruct Hk as [-> | ->].
Qed.

(** The chunks an export adds, as the loop reads them. *)
Lemma card_loop_own raw json fuel d tail :
  from_slice json = Ok raw -> (len json <= MAX_JSON_BYTES)%Z -> (6 + len (base64_encode json) <= MAX_JSON_BYTES)%Z ->
  chunk_ok ("IEND", d) ->
  card_loop (S (S (S fuel)))
    (chunks_bytes [("tEXt", card_data "chara" json); ("tEXt", card_data "ccv3" json); ("IEND", d)] +:+ tail) (None, None)
  = Some (Ok (Some raw, Some raw)).
Proof.
  intros Hj Hl He Hd. cbn [chunks_bytes]. rewrite <- !app_string_assoc.
  assert (forall k, k = "chara" \/ k = "ccv3" -> chunk_ok ("tEXt", card_data k json)) as Hok.
  { intros k Hk. split; [done |]. simpl. unfold card_data, len in *. rewrite app_string_length. simpl.
    destruct Hk as [-> | ->]; simpl; lia. }
  cbn [card_loop]. rewrite next_chunk_bytes by auto. rewrite bool_decide_eq_false_2 by done.
  unfold note_card at 1. rewrite keyword_of_own by auto. rewrite (decode_own raw) by done. simpl.
  rewrite next_chunk_bytes by auto. rewrite bool_decide_eq_false_2 by done.
  unfold note_card at 1. rewrite keyword_of_own by auto. rewrite (decode_own raw) by done. simpl.
  by rewrite next_chunk_bytes.
Qed.

(** ** Exporting *)

Lemma chunks_bytes_app cs ds : chunks_bytes (cs ++ ds) = chunks_bytes cs +:+ chunks_bytes ds.
Proof. induction cs as [|[t d] cs IH]; simpl; [done |]. by rewrite IH, app_string_assoc. Qed.

Lemma inner_chunks_length cs : Forall inner_chunk cs -> (length cs <= String.length (chunks_bytes cs))%nat.
Proof.
  induction 1 as [|[t d] cs _ _ IH]; simpl; [lia |]. unfold chunk_bytes. rewrite !app_string_length, !be_bytes_length. lia.
Qed.

Lemma starts_with_app s t : starts_with (s +:+ t) s = true.
Proof. unfold starts_with. induction s as [|a s IH]; simpl; [by destruct t |]. destruct (Ascii.ascii_dec a a); [exact IH | done]. Qed.

Lemma starts_with_split s t : starts_with t s = true -> t = s +:+ str_drop (String.length s) t.
Proof.
  unfold starts_with. revert t. induction s as [|a s IH]; intros [|b t]; simpl; try done.
  destruct (Ascii.ascii_dec a b) as [->|]; [| done]. intros Hp. rewrite app_string_cons. f_equal. exact (IH t Hp).
Qed.

(** What an export makes of the file: the chunks that are no cards as they were,
    the two cards and the end; without an end, no card. *)
Definition exported (cs : list (string * string)) (json : string) (closed : option string) : string :=
  PNG_SIG +:+ chunks_bytes (filter (λ c, ~ is_card c) cs ++
    match closed with
    | Some d => [("tEXt", card_data "chara" json); ("tEXt", card_data "ccv3" json); ("IEND", d)]
    | None => []
    end).

Lemma parse_accepted png card :
  parse_png_card png = Some (Ok card) ->
  exists cs rest closed, png = PNG_SIG +:+ chunks_bytes cs +:+ rest /\ Forall inner_chunk cs /\ file_end rest closed.
Proof.
  unfold parse_png_card. destruct (starts_with png PNG_SIG) eqn:Hs; cbn [negb]; [| done].
  destruct (card_loop _ _ _) as [[[chara ccv3]|e]|] eqn:Hl; [| done ..]. intros _.
  apply card_loop_form in Hl as (cs & rest & closed & Hr & Hcs & Hend). exists cs, rest, closed.
  split_and!; [| done ..]. rewrite (starts_with_split _ _ Hs) at 1. by rewrite Hr.
Qed.

Lemma encode_inner cs rest raw json :
  Forall inner_chunk cs -> to_vec raw = Ok json ->
  exists fuel, (String.length rest <= fuel)%nat /\ encode_png_with_card (PNG_SIG +:+ chunks_bytes cs +:+ rest) raw
    = export_loop (S fuel) (base64_encode json) rest (PNG_SIG +:+ chunks_bytes (filter (λ c, ~ is_card c) cs)).
Proof.
  intros Hcs Hj. unfold encode_png_with_card. rewrite starts_with_app. simpl negb. cbv iota. rewrite Hj, str_drop_exact.
  pose proof (inner_chunks_length cs Hcs) as Hn.
  exists (String.length (PNG_SIG +:+ chunks_bytes cs +:+ rest) - length cs)%nat. split.
  { rewrite !app_string_length. lia. }
  replace (S (String.length (PNG_SIG +:+ chunks_bytes cs +:+ rest)))
    with (length cs + S (String.length (PNG_SIG +:+ chunks_bytes cs +:+ rest) - length cs))%nat
    by (rewrite !app_string_length; lia).
  by rewrite export_loop_chunks.
Qed.

Lemma filter_kept cs : Forall inner_chunk cs -> Forall (λ c, inner_chunk c /\ ~ is_card c) (filter (λ c, ~ is_card c) cs).
Proof.
  intros Hcs. apply Forall_forall. intros c Hc. apply list_elem_of_filter in Hc as [Hn Hc]. split; [| done].
  by eapply Forall_forall in Hcs.
Qed.

Lemma parse_exported cs raw json closed :
  Forall inner_chunk cs -> from_slice json = Ok raw -> (len json <= MAX_JSON_BYTES)%Z ->
  (6 + len (base64_encode json) <= MAX_JSON_BYTES)%Z ->
  match closed with Some d => chunk_ok ("IEND", d) | None => True end ->
  parse_png_card (exported cs json closed)
  = Some (match closed with
          | Some _ => Ok (parsed_from_value raw "png" [])
          | None => Err (bad_request "PNG_CARD_MISSING" "PNG does not contain ccv3 or chara metadata")
          end).
Proof.
  intros Hcs Hj Hl He Hd. pose proof (filter_kept cs Hcs) as Hk. set (kept := filter _ cs) in *.
  assert (length kept <= String.length (chunks_bytes kept))%nat as Hn.
  { apply inner_chunks_length. eapply Forall_impl; [exact Hk | by intros c [? _]]. }
  unfold parse_png_card, exported. fold kept. rewrite starts_with_app. simpl negb. cbv iota. rewrite str_drop_exact, chunks_bytes_app.
  destruct closed as [d|].
  - set (own := chunks_bytes [_; _; _]).
    assert (36 <= String.length own)%nat as Hown.
    { unfold own. cbn [chunks_bytes]. unfold chunk_bytes. rewrite !app_string_length, !be_bytes_length. simpl. lia. }
    replace (S (String.length (PNG_SIG +:+ chunks_bytes kept +:+ own)))
      with (length kept + S (S (S (String.length (PNG_SIG +:+ chunks_bytes kept +:+ own) - length kept - 2))))%nat
      by (rewrite !app_string_length; lia).
    rewrite card_loop_skip by done. unfold own at 2. rewrite <- (app_string_nil (chunks_bytes [_; _; _])).
    by rewrite (card_loop_own raw).
  - replace (S (String.length (PNG_SIG +:+ chunks_bytes kept +:+ chunks_bytes [])))
      with (length kept + S (String.length (PNG_SIG +:+ chunks_bytes kept) - length kept))%nat
      by (simpl; rewrite !app_string_length; simpl; lia).
    rewrite card_loop_skip by done. reflexivity.
Qed.

(** C27: a card survives the export.  When a PNG from which a card was read is exported
    with the card [raw], every chunk that is no card is kept byte for byte, and the card
    read from the result is the value that the JSON text written for [raw] reads back as
    (the text must be one the JSON reader accepts, which is no matter of course for a
    deeply nested card, and it need not read back as the very same floats); the text of
    the card must fit a chunk.  Only from a file without an end chunk, which is accepted
    as well, the export has no card at all. *)
Theorem card_survives_export png card raw json back :
  parse_png_card png = Some (Ok card) ->
  to_vec raw = Ok json -> from_slice json = Ok back -> (len json <= MAX_JSON_BYTES)%Z -> (6 + len (base64_encode json) <= MAX_JSON_BYTES)%Z ->
  exists cs rest,
    png = PNG_SIG +:+ chunks_bytes cs +:+ rest /\ Forall inner_chunk cs
    /\ ((exists d tail, rest = chunk_bytes "IEND" d +:+ tail
           /\ encode_png_with_card png raw = Some (Ok (exported cs json (Some d)))
           /\ parse_png_card (exported cs json (Some d)) = Some (Ok (parsed_from_value back "png" [])))
        \/ ((len rest < 4)%Z /\ encode_png_with_card png raw = Some (Ok (exported cs json None))
            /\ parse_png_card (exported cs json None)
               = Some (Err (bad_request "PNG_CARD_MISSING" "PNG does not contain ccv3 or chara metadata")))).
Proof.
  intros (cs & rest & closed & -> & Hcs & Hend)%parse_accepted Hj Hback Hl He. exists cs, rest. split; [done |]. split; [done |].
  destruct (encode_inner cs rest raw json Hcs Hj) as (fuel & Hf & ->). destruct Hend as [Hcut|d tail Hok ->].
  - right. split; [done |]. split; [| by apply (parse_exported cs back json None)]. cbn [export_loop]. unfold next_raw_chunk.
    rewrite read_exact_short by lia. unfold exported. by rewrite app_nil_r.
  - left. exists d, tail. split; [done |]. split; [| by apply (parse_exported cs back json (Some d))].
    cbn [export_loop]. rewrite next_raw_chunk_bytes by done. rewrite kind_of_header.
    assert (card_keyword "IEND" d = None) as Hno by done. rewrite Hno, bool_decide_eq_false_2 by (intros [? [=]]).
    rewrite bool_decide_eq_true_2 by done. do 2 f_equal. unfold exported. rewrite chunks_bytes_app. cbn [chunks_bytes].
    assert (forall k, k = "chara" \/ k = "ccv3" ->
      write_text_chunk k (base64_encode json) = chunk_bytes "tEXt" (card_data k json)) as Hw.
    { intros k Hk. apply write_is_chunk. unfold len in *. rewrite app_string_length. destruct Hk as [-> | ->]; simpl; lia. }
    rewrite !Hw by auto. unfold chunk_bytes. rewrite app_string_nil. rewrite <- !app_string_assoc. done.
Qed.
End CardPng.

(** ** A small card *)

(** Two letters per byte. *)
Definition letter (n : N) : Ascii.ascii := Ascii.ascii_of_N (65 + n).
Fixpoint toy_encode (s : string) : string :=
  match s with
  | EmptyString => EmptyString
  | String a s => String (letter (byte_val a / 16)) (String (letter (byte_val a mod 16)) (toy_encode s))
  end.
Fixpoint toy_decode (s : string) : option string :=
  match s with
  | EmptyString => Some EmptyString
  | String a (String b s) => (String (Ascii.ascii_of_N ((byte_val a - 65) * 16 + (byte_val b - 65)))) <$> toy_decode s
  | _ => None
  end.

Lemma toy_byte a :
  Ascii.ascii_of_N ((byte_val (letter (byte_val a / 16)) - 65) * 16 + (byte_val (letter (byte_val a mod 16)) - 65)) = a
  /\ is_base64 (letter (byte_val a / 16)) = true /\ is_base64 (letter (byte_val a mod 16)) = true.
Proof. destruct a as [[] [] [] [] [] [] [] []]; vm_compute; auto. Qed.

Lemma toy_decode_encode s : toy_decode (toy_encode s) = Some s.
Proof. induction s as [|a s IH]; [done |]. cbn [toy_encode toy_decode]. rewrite IH, (proj1 (toy_byte a)). done. Qed.

Lemma toy_alphabet s : all_bytes is_base64 (toy_encode s) = true.
Proof.
  induction s as [|a s IH]; [done |]. cbn [toy_encode all_bytes]. destruct (toy_byte a) as (_ & -> & ->). by rewrite IH.
Qed.

Definition toy_crc (s : string) : Z := (len s mod 2 ^ 32)%Z.
Definition toy_to_vec (v : Value) : result string string := match v with JNull => Ok "null" | _ => Err "no" end.
Definition toy_from_slice (s : string) : result Value string := if s =?= "null" then Ok JNull else Err "no".

Definition toy_parse : string -> option (AppResult ParsedCard) :=
  parse_png_card toy_crc toy_decode toy_from_slice toy_to_vec (λ s, s).
Definition toy_export (png : string) : option (AppResult string) :=
  encode_png_with_card toy_crc toy_encode toy_to_vec png JNull.

(** An image with a card and an end, and the same without its end. *)
Definition cut_png : string :=
  PNG_SIG +:+ chunk_bytes toy_crc "IDAT" "pixels" +:+ write_text_chunk toy_crc "chara" (toy_encode "null").
Definition whole_png : string := cut_png +:+ chunk_bytes toy_crc "IEND" "".

Lemma card_survives_export_witness :
  exists out, toy_export whole_png = Some (Ok out)
    /\ toy_parse out = Some (Ok (parsed_from_value toy_to_vec (λ s, s) JNull "png" [])).
Proof.
  assert (exists card, toy_parse whole_png = Some (Ok card)) as (card & Hp) by (eexists; vm_compute; reflexivity).
  destruct (card_survives_export toy_crc toy_encode toy_decode toy_from_slice toy_to_vec (λ s, s)
    ltac:(intros s; apply Z.mod_pos_bound; lia) toy_decode_encode toy_alphabet whole_png card JNull "null" JNull
    Hp eq_refl eq_refl ltac:(vm_compute; discriminate) ltac:(vm_compute; discriminate))
    as (cs & rest & Hpng & _ & [(d & tail & _ & He & Hr)|(_ & He & Hr)]).
  - by eexists.
  - exfalso. assert ((toy_export whole_png ≫= λ r, match r with Ok out => toy_parse out | Err _ => None end)
      = Some (Ok (parsed_from_value toy_to_vec (λ s, s) JNull "png" []))) as Ho by (vm_compute; reflexivity).
    unfold toy_export, toy_parse in Ho. rewrite He in Ho. simpl in Ho. rewrite Hr in Ho. discriminate Ho.
Defined.

(** A file without an end chunk is read, and its export has no card. *)
Example cut_png_loses_card :
  is_Some (toy_parse cut_png)
  /\ (toy_export cut_png ≫= λ r, match r with Ok out => toy_parse out | Err _ => None end)
     = Some (Err (bad_request "PNG_CARD_MISSING" "PNG does not contain ccv3 or chara metadata")).
Proof. vm_compute. eauto. Qed.
