(* ===== verification/Models.v ===== *)
(** * Providers and model presets ([modules/models/mod.rs], [domain/model.rs])

    The model settings of workspaces: which providers and presets they have, which
    presets are their defaults, and what a generation is sent to. *)

From S2P Require Import Prelude Text Errors StDomain StOps Engine.


(** [f64], as far as the checks look at it. *)
Inductive F64 : Set := F64Finite (mantissa exponent : Z) | F64NotFinite.

Definition is_finite (x : F64) : bool := match x with F64Finite _ _ => true | F64NotFinite => false end.
Definition negative (x : F64) : bool := match x with F64Finite m _ => (m <? 0)%Z | F64NotFinite => false end.
Definition not_positive (x : F64) : bool := match x with F64Finite m _ => (m <=? 0)%Z | F64NotFinite => false end.

(** [as u64] on an [i64]. *)
Definition as_u64 (z : Z) : Z := (z mod 2 ^ 64)%Z.

Record WsSettingsRow := MkWsSettingsRow {
  wr_prompt_user_name : string;
  wr_default_prompt_profile : string;
  wr_default_chat_model_preset_id : option string;
  wr_default_compression_model_preset_id : option string;
  wr_updated_at : string;
}.

Record WorkspaceSettings := MkWorkspaceSettings {
  wset_workspace_id : string;
  wset_prompt_user_name : string;
  wset_default_prompt_profile : string;
  wset_default_chat_model_preset_id : option string;
  wset_default_compression_model_preset_id : option string;
}.

Record ProviderRow := MkProviderRow {
  pv_workspace_id : string;
  pv_name : string;
  pv_kind : string;
  pv_base_url : string;
  pv_api_key_secret_id : option string;
  pv_custom_headers_secret_id : option string;
  pv_custom_prompt_post_processing : string;
  pv_enabled : bool;
  pv_created_at : string;
}.

Record PresetRow := MkPresetRow {
  pr_workspace_id : string;
  pr_provider_profile_id : string;
  pr_model_id : string;
  pr_label : string;
  pr_temperature : F64;
  pr_top_p : F64;
  pr_max_tokens : Z;
  pr_hard_timeout_ms : Z;
  pr_idle_timeout_ms : Z;
  pr_purpose : string;
  pr_created_at : string;
}.

(** The tables, and the keys of those they reference. *)
Record ModelDB := MkModelDB {
  workspace_settings_rows : gmap string WsSettingsRow;
  provider_profiles : gmap string ProviderRow;
  model_presets : gmap string PresetRow;
  model_workspaces : gset string;
  model_secrets : gset string;
}.

Definition set_ws_rows (f : gmap string WsSettingsRow -> gmap string WsSettingsRow) (db : ModelDB) : ModelDB :=
  MkModelDB (f (workspace_settings_rows db)) (provider_profiles db) (model_presets db) (model_workspaces db) (model_secrets db).
Definition set_providers (f : gmap string ProviderRow -> gmap string ProviderRow) (db : ModelDB) : ModelDB :=
  MkModelDB (workspace_settings_rows db) (f (provider_profiles db)) (model_presets db) (model_workspaces db) (model_secrets db).
Definition set_presets (f : gmap string PresetRow -> gmap string PresetRow) (db : ModelDB) : ModelDB :=
  MkModelDB (workspace_settings_rows db) (provider_profiles db) (f (model_presets db)) (model_workspaces db) (model_secrets db).

Definition into_settings (workspace_id : string) (r : WsSettingsRow) : WorkspaceSettings :=
  MkWorkspaceSettings workspace_id (wr_prompt_user_name r) (wr_default_prompt_profile r) (wr_default_chat_model_preset_id r)
    (wr_default_compression_model_preset_id r).

Definition insert_settings (workspace_id : string) (row : WsSettingsRow) (db : ModelDB) : AppResult ModelDB :=
  if bool_decide (workspace_id ∈ model_workspaces db)
  then Ok (set_ws_rows <[workspace_id := row]> db) else Err database_error.

(** The settings, made on the first look. *)
Definition workspace_settings (now workspace_id : string) (db : ModelDB) : ModelDB * AppResult WorkspaceSettings :=
  match workspace_settings_rows db !! workspace_id with
  | Some row => (db, Ok (into_settings workspace_id row))
  | None =>
      let row := MkWsSettingsRow "User" "legacy_bridge_v1" None None now in
      match insert_settings workspace_id row db with
      | Ok db => (db, Ok (into_settings workspace_id row))
      | Err e => (db, Err e)
      end
  end.

Definition update_prompt_user_name (now workspace_id name : string) (db : ModelDB) : AppResult ModelDB :=
  match workspace_settings_rows db !! workspace_id with
  | Some r =>
      Ok (set_ws_rows <[workspace_id := MkWsSettingsRow name (wr_default_prompt_profile r) (wr_default_chat_model_preset_id r)
                                          (wr_default_compression_model_preset_id r) now]> db)
  | None => insert_settings workspace_id (MkWsSettingsRow name "legacy_bridge_v1" None None now) db
  end.

Definition get_provider (id : string) (db : ModelDB) : option ProviderRow := provider_profiles db !! id.
Definition get_preset (id : string) (db : ModelDB) : option PresetRow := model_presets db !! id.

Definition older_provider (a b : string * ProviderRow) : bool := text_le (pv_created_at a.2) (pv_created_at b.2).
Definition older_preset (a b : string * PresetRow) : bool := text_le (pr_created_at a.2) (pr_created_at b.2).

Definition list_providers (workspace_id : string) (db : ModelDB) : list (string * ProviderRow) :=
  sort_by older_provider (filter (λ kv : string * ProviderRow, pv_workspace_id kv.2 = workspace_id) (map_to_list (provider_profiles db))).
Definition list_presets (workspace_id : string) (db : ModelDB) : list (string * PresetRow) :=
  sort_by older_preset (filter (λ kv : string * PresetRow, pr_workspace_id kv.2 = workspace_id) (map_to_list (model_presets db))).

(** The foreign keys of a provider. *)
Definition secret_known (id : option string) (db : ModelDB) : bool :=
  match id with Some id => bool_decide (id ∈ model_secrets db) | None => true end.

Definition upsert_provider (now id : string) (actor : Actor) (name base_url : string) (api_key_secret_id : option string)
    (custom_prompt_post_processing : string) (db : ModelDB) : AppResult (ModelDB * ProviderRow) :=
  let? workspace_id := require_workspace actor in
  if bool_decide (is_Some (provider_profiles db !! id)) || negb (bool_decide (workspace_id ∈ model_workspaces db))
     || negb (secret_known api_key_secret_id db)
  then Err database_error
  else
    let row := MkProviderRow workspace_id name "openai_compatible" base_url api_key_secret_id None
                 custom_prompt_post_processing true now in
    Ok (set_providers <[id := row]> db, row).

Definition purpose_ok (purpose : string) : bool := (purpose =?= "chat") || (purpose =?= "compression").

Definition parameters_ok (temperature top_p : F64) (max_tokens : Z) : bool :=
  is_finite temperature && is_finite top_p && negb (negative temperature) && negb (not_positive top_p) && (0 <? max_tokens)%Z.

(** The new preset becomes the default of its purpose, where the workspace has settings. *)
Definition make_default (now workspace_id purpose preset_id : string) (db : ModelDB) : ModelDB :=
  set_ws_rows (alter (λ r, MkWsSettingsRow (wr_prompt_user_name r) (wr_default_prompt_profile r)
    (if purpose =?= "chat" then Some preset_id else wr_default_chat_model_preset_id r)
    (if purpose =?= "compression" then Some preset_id else wr_default_compression_model_preset_id r) now) workspace_id) db.

Definition upsert_preset (now id provider_id model_id label purpose : string) (temperature top_p : F64) (max_tokens : Z)
    (db : ModelDB) : AppResult (ModelDB * PresetRow) :=
  if negb (purpose_ok purpose) then Err (bad_request "MODEL_PURPOSE_INVALID" "purpose must be chat or compression") else
  if negb (parameters_ok temperature top_p max_tokens)
  then Err (bad_request "MODEL_PARAMETERS_INVALID" "temperature, top_p and max_tokens are invalid") else
  let? provider := ok_or (get_provider provider_id db) (not_found "PROVIDER_NOT_FOUND" "provider not found") in
  if bool_decide (is_Some (model_presets db !! id)) then Err database_error else
  let row := MkPresetRow (pv_workspace_id provider) provider_id model_id label temperature top_p max_tokens 900000 90000
               purpose now in
  Ok (make_default now (pv_workspace_id provider) purpose id (set_presets <[id := row]> db), row).

Record ResolvedProvider := MkResolvedProvider {
  rp_id : string;
  rp_base_url : string;
  rp_api_key : option string;
  rp_custom_headers : list (string * string);
  rp_custom_prompt_post_processing : string;
  rp_model : string;
  rp_temperature : F64;
  rp_top_p : F64;
  rp_max_tokens : Z;
  rp_hard_timeout_ms : Z;
  rp_idle_timeout_ms : Z;
}.

Definition default_preset (settings : WorkspaceSettings) (purpose : string) : option string :=
  if purpose =?= "compression" then wset_default_compression_model_preset_id settings
  else wset_default_chat_model_preset_id settings.

Definition resolve_provider (now workspace_id : string) (preset_id : option string) (purpose : string) (db : ModelDB)
  : ModelDB * AppResult ResolvedProvider :=
  let '(db, settings) := workspace_settings now workspace_id db in
  (db,
   let? settings := settings in
   let? preset_id := ok_or (match preset_id with Some id => Some id | None => default_preset settings purpose end)
     (bad_request "MODEL_PRESET_MISSING" "no model preset configured") in
   let? preset := ok_or (get_preset preset_id db) (not_found "MODEL_PRESET_NOT_FOUND" "model preset not found") in
   if negb (pr_workspace_id preset =?= workspace_id)
   then Err (forbidden "model preset is outside the current workspace") else
   if negb (pr_purpose preset =?= purpose)
   then Err (bad_request "MODEL_PURPOSE_MISMATCH" "model preset purpose does not match") else
   let? provider := ok_or (get_provider (pr_provider_profile_id preset) db) (not_found "PROVIDER_NOT_FOUND" "provider not found") in
   if negb (pv_workspace_id provider =?= workspace_id)
   then Err (forbidden "provider is outside the current workspace") else
   Ok (MkResolvedProvider (pr_provider_profile_id preset) (pv_base_url provider) None []
         (pv_custom_prompt_post_processing provider) (pr_model_id preset) (pr_temperature preset) (pr_top_p preset)
         (pr_max_tokens preset) (as_u64 (pr_hard_timeout_ms preset)) (as_u64 (pr_idle_timeout_ms preset)))).

(** What the vault holds, and how its bytes read as text and as JSON. *)
Section Secrets.
Context (vault_get : string -> AppResult string) (from_utf8_lossy : string -> string)
  (map_from_slice : string -> option (list (string * Value))).

Definition hydrate_secrets (provider : ResolvedProvider) (db : ModelDB) : AppResult ResolvedProvider :=
  match provider_profiles db !! rp_id provider with
  | None => Ok provider
  | Some row =>
      let? api_key := match pv_api_key_secret_id row with
                      | Some secret_id => let? bytes := vault_get secret_id in Ok (Some (from_utf8_lossy bytes))
                      | None => Ok (rp_api_key provider)
                      end in
      let? headers := match pv_custom_headers_secret_id row with
                      | Some secret_id =>
                          let? bytes := vault_get secret_id in
                          Ok (match map_from_slice bytes with
                              | Some m => omap (λ kv : string * Value, pair kv.1 <$> value_as_str kv.2) m
                              | None => rp_custom_headers provider
                              end)
                      | None => Ok (rp_custom_headers provider)
                      end in
      Ok (MkResolvedProvider (rp_id provider) (rp_base_url provider) api_key headers (rp_custom_prompt_post_processing provider)
            (rp_model provider) (rp_temperature provider) (rp_top_p provider) (rp_max_tokens provider)
            (rp_hard_timeout_ms provider) (rp_idle_timeout_ms provider))
  end.
End Secrets.

(** ** What the tables always satisfy *)

(** One call of the module, whatever its arguments: the database before and after. *)
Inductive ModelStep : ModelDB -> ModelDB -> Prop :=
| StepLook now w db : ModelStep db (workspace_settings now w db).1
| StepRename now w name db db' : update_prompt_user_name now w name db = Ok db' -> ModelStep db db'
| StepProvider now id actor name url key ppp db db' row :
    upsert_provider now id actor name url key ppp db = Ok (db', row) -> ModelStep db db'
| StepPreset now id pid model label purpose temp top_p max db db' row :
    upsert_preset now id pid model label purpose temp top_p max db = Ok (db', row) -> ModelStep db db'
| StepResolve now w pid purpose db : ModelStep db (resolve_provider now w pid purpose db).1.

(** A default preset of [w] for [purpose]. *)
Definition preset_of (w purpose id : string) (db : ModelDB) : Prop :=
  ∃ p, model_presets db !! id = Some p ∧ pr_workspace_id p = w ∧ pr_purpose p = purpose.

Record models_ok (db : ModelDB) : Prop := {
  mo_preset : ∀ id p, model_presets db !! id = Some p ->
    ∃ v, provider_profiles db !! pr_provider_profile_id p = Some v ∧ pv_workspace_id v = pr_workspace_id p;
  mo_chat : ∀ w r id, workspace_settings_rows db !! w = Some r -> wr_default_chat_model_preset_id r = Some id ->
    preset_of w "chat" id db;
  mo_compression : ∀ w r id, workspace_settings_rows db !! w = Some r ->
    wr_default_compression_model_preset_id r = Some id -> preset_of w "compression" id db;
}.

(** A settings row whose defaults are those of an old row, or absent, may be written. *)
Lemma settings_row_ok w r db :
  models_ok db ->
  (∀ id, wr_default_chat_model_preset_id r = Some id -> preset_of w "chat" id db) ->
  (∀ id, wr_default_compression_model_preset_id r = Some id -> preset_of w "compression" id db) ->
  models_ok (set_ws_rows <[w := r]> db).
Proof.
  intros [Hp Hc Hz] Hc' Hz'. split; [exact Hp|..]; intros w' r' id; simpl;
    destruct (decide (w = w')) as [->|Hne];
    rewrite ?lookup_insert_eq, ?(lookup_insert_ne _ _ _ _ Hne); [intros [= <-]; apply Hc'| apply Hc |intros [= <-]; apply Hz'|apply Hz].
Qed.

Lemma workspace_settings_ok now w db : models_ok db -> models_ok (workspace_settings now w db).1.
Proof.
  intros Hok. unfold workspace_settings, insert_settings.
  destruct (workspace_settings_rows db !! w); [exact Hok|].
  case_bool_decide; simpl; [|exact Hok]. by apply settings_row_ok.
Qed.

Lemma resolve_provider_db now w pid purpose db :
  (resolve_provider now w pid purpose db).1 = (workspace_settings now w db).1.
Proof. unfold resolve_provider. by destruct (workspace_settings now w db). Qed.

Lemma upsert_provider_ok now id actor name url key ppp db db' row :
  upsert_provider now id actor name url key ppp db = Ok (db', row) -> models_ok db -> models_ok db'.
Proof.
  unfold upsert_provider. destruct (require_workspace actor) as [w|]; simpl; [|discriminate].
  case_bool_decide as Hfree; simpl; [discriminate|]. destruct (_ || _); [discriminate|]. intros [= <- _] [Hp Hc Hz].
  split; [|exact Hc|exact Hz]. intros pid p Hpid. simpl. destruct (Hp _ _ Hpid) as (v & Hv & Hw).
  exists v. rewrite lookup_insert_ne; [done|]. intros ->. apply Hfree. by eexists.
Qed.

(** What an accepted preset looks like, and the database that has it. *)
Lemma upsert_preset_inv now id pid model label purpose temp top_p max db db' row :
  upsert_preset now id pid model label purpose temp top_p max db = Ok (db', row) ->
  ∃ v, provider_profiles db !! pid = Some v ∧ model_presets db !! id = None ∧
    (purpose = "chat" ∨ purpose = "compression") ∧
    row = MkPresetRow (pv_workspace_id v) pid model label temp top_p max 900000 90000 purpose now ∧
    db' = make_default now (pv_workspace_id v) purpose id (set_presets <[id := row]> db).
Proof.
  unfold upsert_preset, purpose_ok, get_provider.
  destruct ((purpose =?= "chat") || (purpose =?= "compression")) eqn:Hpur; simpl; [|discriminate].
  apply orb_true_iff in Hpur. rewrite !bool_decide_eq_true in Hpur.
  destruct (parameters_ok _ _ _); simpl; [|discriminate].
  destruct (provider_profiles db !! pid) as [v|]; simpl; [|discriminate].
  destruct (bool_decide (is_Some (model_presets db !! id))) eqn:Hfree; [discriminate|].
  apply bool_decide_eq_false, eq_None_not_Some in Hfree.
  intros [= <- <-]. by exists v.
Qed.

Lemma preset_of_insert w purpose id' id row db :
  model_presets db !! id = None -> preset_of w purpose id' db -> preset_of w purpose id' (set_presets <[id := row]> db).
Proof.
  intros Hfree (p & Hp & Hw). exists p. simpl. rewrite lookup_insert_ne; [done|]. intros ->. congruence.
Qed.

Lemma preset_of_new purpose id row db :
  pr_purpose row = purpose -> preset_of (pr_workspace_id row) purpose id (set_presets <[id := row]> db).
Proof. intros <-. exists row. simpl. by rewrite lookup_insert_eq. Qed.

Lemma upsert_preset_ok now id pid model label purpose temp top_p max db db' row :
  upsert_preset now id pid model label purpose temp top_p max db = Ok (db', row) -> models_ok db -> models_ok db'.
Proof.
  intros (v & Hv & Hfree & Hpur & Hrow & ->)%upsert_preset_inv [Hp Hc Hz].
  assert (models_ok (set_presets <[id := row]> db)) as Hins.
  { split; simpl.
    - intros id' p. destruct (decide (id = id')) as [->|Hne].
      + rewrite lookup_insert_eq. intros [= <-]. exists v. by rewrite Hrow.
      + rewrite lookup_insert_ne by done. apply Hp.
    - intros. eapply preset_of_insert; eauto.
    - intros. eapply preset_of_insert; eauto. }
  unfold make_default, set_ws_rows. simpl.
  destruct (workspace_settings_rows db !! pv_workspace_id v) as [r|] eqn:Hr.
  - replace (alter _ _ _) with (<[pv_workspace_id v := MkWsSettingsRow (wr_prompt_user_name r) (wr_default_prompt_profile r)
      (if purpose =?= "chat" then Some id else wr_default_chat_model_preset_id r)
      (if purpose =?= "compression" then Some id else wr_default_compression_model_preset_id r) now]> (workspace_settings_rows db)).
    2:{ apply map_eq. intros i. destruct (decide (pv_workspace_id v = i)) as [<-|Hne].
        - by rewrite lookup_insert_eq, lookup_alter_eq, Hr.
        - by rewrite lookup_insert_ne, lookup_alter_ne. }
    apply (settings_row_ok _ _ (set_presets <[id := row]> db) Hins); simpl; intros id'.
    + case_bool_decide as E.
      * intros [= <-]. subst row. by apply (preset_of_new "chat").
      * intros H. eapply (mo_chat _ Hins); eauto.
    + case_bool_decide as E.
      * intros [= <-]. subst row. by apply (preset_of_new "compression").
      * intros H. eapply (mo_compression _ Hins); eauto.
  - replace (alter _ _ _) with (workspace_settings_rows db); [exact Hins|].
    apply map_eq. intros i. destruct (decide (pv_workspace_id v = i)) as [<-|Hne].
    + by rewrite lookup_alter_eq, Hr.
    + by rewrite lookup_alter_ne.
Qed.

Lemma model_step_ok db db' : ModelStep db db' -> models_ok db -> models_ok db'.
Proof.
  intros [now w db0|now w name db0 db1 H| | |now w pid purpose db0] Hok.
  - by apply workspace_settings_ok.
  - revert H. unfold update_prompt_user_name, insert_settings.
    destruct (workspace_settings_rows db0 !! w) as [r|] eqn:Hr.
    + intros [= <-]. apply settings_row_ok; [done|..]; intros id; [by apply (mo_chat _ Hok w r)|by apply (mo_compression _ Hok w r)].
    + case_bool_decide; [|discriminate]. intros [= <-]. by apply settings_row_ok.
  - eapply upsert_provider_ok; eauto.
  - eapply upsert_preset_ok; eauto.
  - rewrite resolve_provider_db. by apply workspace_settings_ok.
Qed.

Lemma model_run_ok db db' : rtc ModelStep db db' -> models_ok db -> models_ok db'.
Proof. induction 1; eauto using model_step_ok. Qed.

(** The tables of a database that has no settings, providers or presets yet. *)
Definition fresh_models (workspaces secrets : gset string) : ModelDB := MkModelDB ∅ ∅ ∅ workspaces secrets.

Lemma fresh_models_ok ws ss : models_ok (fresh_models ws ss).
Proof. by split; intros; simplify_map_eq. Qed.

(** What a successful resolution is made of. *)
Lemma resolve_provider_inv now w pid purpose db r :
  (resolve_provider now w pid purpose db).2 = Ok r ->
  ∃ id p v, model_presets db !! id = Some p ∧ provider_profiles db !! pr_provider_profile_id p = Some v ∧
    (∀ i, pid = Some i -> id = i) ∧ pr_workspace_id p = w ∧ pv_workspace_id v = w ∧ pr_purpose p = purpose ∧
    rp_id r = pr_provider_profile_id p ∧ rp_base_url r = pv_base_url v ∧ rp_model r = pr_model_id p ∧ rp_api_key r = None.
Proof.
  unfold resolve_provider. destruct (workspace_settings now w db) as [db1 s] eqn:Hs. simpl.
  assert (model_presets db1 = model_presets db ∧ provider_profiles db1 = provider_profiles db) as [Hm Hv].
  { revert Hs. unfold workspace_settings, insert_settings. destruct (workspace_settings_rows db !! w); [by intros [= <- _]|].
    case_bool_decide; by intros [= <- _]. }
  destruct s as [s|]; simpl; [|discriminate]. unfold get_preset, get_provider. rewrite Hm, Hv.
  destruct (match pid with Some id => _ | None => _ end) as [id|] eqn:Hid; simpl; [|discriminate].
  destruct (model_presets db !! id) as [p|] eqn:Hp; simpl; [|discriminate].
  case_bool_decide as Hw; simpl; [|discriminate]. case_bool_decide as Hpu; simpl; [|discriminate].
  destruct (provider_profiles db !! pr_provider_profile_id p) as [v|] eqn:Hpv; simpl; [|discriminate].
  case_bool_decide as Hvw; simpl; [|discriminate]. intros [= <-].
  exists id, p, v. repeat split; try done. intros i ->. by simplify_eq.
Qed.

(** A default that is there resolves. *)
Lemma default_resolves now w purpose db row id p :
  models_ok db -> purpose_ok purpose = true -> workspace_settings_rows db !! w = Some row ->
  default_preset (into_settings w row) purpose = Some id -> model_presets db !! id = Some p ->
  ∃ r, (resolve_provider now w None purpose db).2 = Ok r ∧ rp_model r = pr_model_id p.
Proof.
  intros Hok Hpur Hrow Hid Hp.
  assert (preset_of w purpose id db) as (p' & Hp' & Hw & Hpu).
  { unfold purpose_ok, default_preset in *. apply orb_true_iff in Hpur. rewrite !bool_decide_eq_true in Hpur.
    case_bool_decide; subst; [by eapply mo_compression|]. destruct Hpur as [->| ->]; [by eapply mo_chat|done]. }
  assert (p' = p) as -> by congruence. destruct (mo_preset _ Hok _ _ Hp) as (v & Hv & Hvw).
  unfold resolve_provider, workspace_settings. rewrite Hrow. simpl. rewrite Hid. simpl.
  unfold get_preset, get_provider. rewrite Hp. simpl. rewrite Hv. simpl.
  rewrite Hvw, Hw, Hpu, !bool_decide_eq_true_2 by done. simpl. by eexists.
Qed.

(** The database after an accepted preset has it as the default of its purpose. *)
Lemma upsert_preset_default now id pid model label purpose temp top_p max db db' row settings :
  upsert_preset now id pid model label purpose temp top_p max db = Ok (db', row) ->
  workspace_settings_rows db !! pr_workspace_id row = Some settings ->
  model_presets db' !! id = Some row ∧ pr_model_id row = model ∧
  ∃ settings', workspace_settings_rows db' !! pr_workspace_id row = Some settings' ∧
    default_preset (into_settings (pr_workspace_id row) settings') purpose = Some id.
Proof.
  intros (v & Hv & Hfree & Hpur & -> & ->)%upsert_preset_inv Hs. simpl in *.
  rewrite lookup_insert_eq, lookup_alter_eq, Hs. split; [done|split; [done|]]. eexists. split; [done|].
  unfold default_preset. by destruct Hpur as [->| ->].
Qed.

(** Workspaces share nothing of their models. In a database the module's calls made, whatever a generation of
    workspace [w] resolves to is a preset of [w] for the asked purpose (the named one, when one is named) on a
    provider of [w], and the key it is sent with is the one that provider's own row names in the vault. A preset that
    is accepted is what its workspace then resolves to by default, provided the workspace has its settings row. *)
Theorem models_stay_in_workspace workspaces secrets db now w pid purpose :
  rtc ModelStep (fresh_models workspaces secrets) db ->
  (∀ r, (resolve_provider now w pid purpose db).2 = Ok r ->
    ∃ id p v, model_presets db !! id = Some p ∧ provider_profiles db !! pr_provider_profile_id p = Some v ∧
      (∀ i, pid = Some i -> id = i) ∧ pr_workspace_id p = w ∧ pv_workspace_id v = w ∧ pr_purpose p = purpose ∧
      rp_base_url r = pv_base_url v ∧ rp_model r = pr_model_id p ∧
      (∀ vault_get lossy from_slice r' key, hydrate_secrets vault_get lossy from_slice r db = Ok r' ->
        rp_api_key r' = Some key ->
        ∃ sid bytes, pv_api_key_secret_id v = Some sid ∧ vault_get sid = Ok bytes ∧ key = lossy bytes)) ∧
  (∀ id prov model label temp top_p max db' row,
    upsert_preset now id prov model label purpose temp top_p max db = Ok (db', row) ->
    is_Some (workspace_settings_rows db !! pr_workspace_id row) ->
    ∃ r, (resolve_provider now (pr_workspace_id row) None purpose db').2 = Ok r ∧ rp_model r = model).
Proof.
  intros Hrun. pose proof (model_run_ok _ _ Hrun (fresh_models_ok _ _)) as Hok. split.
  - intros r (id & p & v & Hp & Hv & Hi & Hw & Hvw & Hpu & Hr & Hu & Hm & Hk)%resolve_provider_inv.
    exists id, p, v. repeat split; try done. intros vg lossy fs r' key. unfold hydrate_secrets. rewrite Hr, Hv.
    destruct (pv_api_key_secret_id v) as [sid|]; simpl.
    + destruct (vg sid) as [bytes|] eqn:Hb; simpl; [|discriminate].
      destruct (match pv_custom_headers_secret_id v with Some _ => _ | None => _ end); simpl; [|discriminate].
      intros [= <-] [= <-]. by exists sid, bytes.
    + destruct (match pv_custom_headers_secret_id v with Some _ => _ | None => _ end); simpl; [|discriminate].
      intros [= <-]. simpl. by rewrite Hk.
  - intros id prov model label temp top_p max db' row Hup [settings Hs].
    destruct (upsert_preset_default _ _ _ _ _ _ _ _ _ _ _ _ _ Hup Hs) as (Hrow & Hm & s' & Hs' & Hd).
    pose proof (upsert_preset_ok _ _ _ _ _ _ _ _ _ _ _ _ Hup Hok) as Hok'.
    destruct (upsert_preset_inv _ _ _ _ _ _ _ _ _ _ _ _ Hup) as (_ & _ & _ & Hpur & _).
    rewrite <- Hm. eapply default_resolves; eauto. by destruct Hpur as [->| ->].
Qed.

(** Two workspaces, a provider and a preset in the first. *)
Definition demo_owner : Actor :=
  {| act_account := {| acc_id := "owner"; acc_username := "owner"; acc_display_name := "Owner"; acc_is_system_admin := false; acc_disabled_at := None; acc_legacy_st_handle := None |}; act_workspace_id := Some "w1";
     act_workspace_role := Some RoleOwner |}.
Definition demo_temp : F64 := F64Finite 7 (-1).
Definition demo_models : ModelDB :=
  let db := (workspace_settings "t0" "w1" (fresh_models {["w1"; "w2"]} {["sec"]})).1 in
  match upsert_provider "t1" "prov" demo_owner "main" "https://llm" (Some "sec") "strict" db with
  | Ok (db, _) => match upsert_preset "t2" "pre" "prov" "gpt" "Chat" "chat" demo_temp demo_temp 512 db with
                  | Ok (db, _) => db | Err _ => db end
  | Err _ => db
  end.

(** The preset of the first workspace resolves for it, and for the second one neither by default nor by name. *)
Lemma models_stay_in_workspace_witness :
  (∃ r, (resolve_provider "t3" "w1" None "chat" demo_models).2 = Ok r ∧ rp_model r = "gpt") ∧
  (resolve_provider "t3" "w2" None "chat" demo_models).2 = Err (bad_request "MODEL_PRESET_MISSING" "no model preset configured") ∧
  (resolve_provider "t3" "w2" (Some "pre") "chat" demo_models).2 = Err (forbidden "model preset is outside the current workspace") ∧
  (∀ r, (resolve_provider "t3" "w1" None "chat" demo_models).2 = Ok r ->
    ∃ id p v, model_presets demo_models !! id = Some p ∧ provider_profiles demo_models !! pr_provider_profile_id p = Some v ∧
      (∀ i, None = Some i -> id = i) ∧ pr_workspace_id p = "w1" ∧ pv_workspace_id v = "w1" ∧ pr_purpose p = "chat" ∧
      rp_base_url r = pv_base_url v ∧ rp_model r = pr_model_id p ∧
      (∀ vault_get lossy from_slice r' key, hydrate_secrets vault_get lossy from_slice r demo_models = Ok r' ->
        rp_api_key r' = Some key ->
        ∃ sid bytes, pv_api_key_secret_id v = Some sid ∧ vault_get sid = Ok bytes ∧ key = lossy bytes)).
Proof.
  split; [eexists; vm_compute; split; reflexivity|]. split; [vm_compute; reflexivity|]. split; [vm_compute; reflexivity|].
  refine (proj1 (models_stay_in_workspace {["w1"; "w2"]} {["sec"]} demo_models "t3" "w1" None "chat" _)).
  eapply rtc_l; [exact (StepLook "t0" "w1" _)|].
  eapply rtc_l; [eapply (StepProvider "t1" "prov" demo_owner "main" "https://llm" (Some "sec") "strict"); vm_compute; reflexivity|].
  eapply rtc_once. eapply (StepPreset "t2" "pre" "prov" "gpt" "Chat" "chat" demo_temp demo_temp 512). vm_compute. reflexivity.
Defined.
