(* ===== verification/Stateful.v ===== *)
(** * Calls on a database

    A call keeps the database it leaves behind also when it returns an error: each
    statement of its own has been committed. [transaction] undoes what was done when
    the call inside it fails, as a dropped [sqlx::Transaction] does. *)

From S2P Require Import Prelude Errors.

Definition Stm (S A : Type) : Type := S -> S * AppResult A.

Definition sret {S A} (a : A) : Stm S A := λ s, (s, Ok a).
Definition serr {S A} (e : AppError) : Stm S A := λ s, (s, Err e).
Definition slift {S A} (r : AppResult A) : Stm S A := λ s, (s, r).
Definition sget {S A} (f : S -> A) : Stm S A := λ s, (s, Ok (f s)).
Definition sbind {S A B} (m : Stm S A) (k : A -> Stm S B) : Stm S B :=
  λ s, match m s with (s', Ok a) => k a s' | (s', Err e) => (s', Err e) end.

(** A statement: the new database, or the refusal of a constraint. *)
Definition statement {S} (f : S -> option S) : Stm S unit :=
  λ s, match f s with Some s' => (s', Ok tt) | None => (s, Err database_error) end.
Definition sput {S} (f : S -> S) : Stm S unit := λ s, (f s, Ok tt).

Definition transaction {S A} (m : Stm S A) : Stm S A :=
  λ s, match m s with (s', Ok a) => (s', Ok a) | (_, Err e) => (s, Err e) end.

(** A call on a part of the database. *)
Definition on {S T A} (get : S -> T) (set : T -> S -> S) (m : Stm T A) : Stm S A :=
  λ s, let '(t, r) := m (get s) in (set t s, r).

Notation "'run!' x ':=' m 'in' k" := (sbind m (λ x, k))
  (at level 10, x pattern, m at level 200, k at level 200) : bridge_scope.

(** ** How calls compose *)

Lemma sbind_inv {S A B} (m : Stm S A) (k : A -> Stm S B) s s' b :
  sbind m k s = (s', Ok b) -> exists a s1, m s = (s1, Ok a) /\ k a s1 = (s', Ok b).
Proof. unfold sbind. destruct (m s) as [s1 [a|e]]; [eauto|discriminate]. Qed.

Lemma transaction_inv {S A} (m : Stm S A) s s' a : transaction m s = (s', Ok a) -> m s = (s', Ok a).
Proof. unfold transaction. by destruct (m s) as [s1 [b|e]]. Qed.

Lemma transaction_err {S A} (m : Stm S A) s s' e : transaction m s = (s', Err e) -> s' = s.
Proof. unfold transaction. destruct (m s) as [s1 [b|e']]; congruence. Qed.

Lemma statement_inv {S} (f : S -> option S) s s' u : statement f s = (s', Ok u) -> f s = Some s'.
Proof. unfold statement. destruct (f s); congruence. Qed.

(** Take the first call out of a successful run. *)
Ltac run_inv H x s' Hx := apply sbind_inv in H as (x & s' & Hx & H).
