(* ===== verification/Characters.v ===== *)
(** * The character store ([modules/characters/store.rs])

    Characters with their revisions in the database, and the imported files, named
    by their digest, on the disk. Every statement is committed on its own. *)

From S2P Require Import Prelude Text Errors StDomain Engine Prompt CardPng Stateful.

Record CharacterRow := MkCharacterRow {
  ch_id : string;
  ch_workspace_id : string;
  ch_display_name : string;
  ch_current_revision_id : option string;
  ch_archived : bool;
}.

Record RevisionRow := MkRevisionRow {
  rv_id : string;
  rv_character_id : string;
  rv_source_format : string;
  rv_spec : option string;
  rv_spec_version : option string;
  rv_normalized_fields_json : string;
  rv_raw_card_json : string;
  rv_raw_asset_id : option string;
  rv_checksum : string;
  rv_compatibility_warnings_json : string;
}.

Record AssetRow := MkAssetRow {
  as_id : string;
  as_workspace_id : string;
  as_sha256 : string;
  as_mime : string;
  as_size_bytes : Z;
  as_relative_path : string;
  as_original_filename : string;
}.

(** The rows in the order they were inserted, and the files by their path. *)
Record CharDB := MkCharDB {
  characters : list CharacterRow;
  character_revisions : list RevisionRow;
  assets : list AssetRow;
  asset_files : gmap string string;
  char_workspaces : gset string;
}.

Record CharacterRevision := MkCharacterRevision {
  cr_id : string;
  cr_character_id : string;
  cr_source_format : string;
  cr_spec : option string;
  cr_spec_version : option string;
  cr_normalized : NormalizedCardFields;
  cr_raw_card_json : Value;
  cr_checksum : string;
  cr_compatibility_warnings : list string;
}.

Definition io_error : AppError := internal "io error".
Definition by_id {A} (id_of : A -> string) (id : string) (rows : list A) : option A :=
  snd <$> list_find (λ r, id_of r = id) rows.

Definition normalized_to_value (n : NormalizedCardFields) : Value :=
  JObject [("name", JString (nc_name n)); ("description", JString (nc_description n));
           ("personality", JString (nc_personality n)); ("scenario", JString (nc_scenario n));
           ("first_mes", JString (nc_first_mes n)); ("mes_example", JString (nc_mes_example n));
           ("system_prompt", JString (nc_system_prompt n));
           ("post_history_instructions", JString (nc_post_history_instructions n))].

Definition no_fields : NormalizedCardFields :=
  {| nc_name := ""; nc_description := ""; nc_personality := ""; nc_scenario := ""; nc_first_mes := ""; nc_mes_example := "";
     nc_system_prompt := ""; nc_post_history_instructions := "" |}.

(** Every field is required, and a string. *)
Definition normalized_from_value (v : Value) : option NormalizedCardFields :=
  let field k := value_get v k ≫= value_as_str in
  name ← field "name"; description ← field "description"; personality ← field "personality"; scenario ← field "scenario";
  first_mes ← field "first_mes"; mes_example ← field "mes_example"; system_prompt ← field "system_prompt";
  post ← field "post_history_instructions";
  Some {| nc_name := name; nc_description := description; nc_personality := personality; nc_scenario := scenario;
          nc_first_mes := first_mes; nc_mes_example := mes_example; nc_system_prompt := system_prompt;
          nc_post_history_instructions := post |}.

Definition warnings_from_value (v : Value) : option (list string) :=
  match v with JArray items => mapM value_as_str items | _ => None end.

Definition insert_character (row : CharacterRow) (db : CharDB) : option CharDB :=
  if bool_decide (is_Some (by_id ch_id (ch_id row) (characters db)))
     || negb (bool_decide (ch_workspace_id row ∈ char_workspaces db)) then None
  else Some (MkCharDB (characters db ++ [row]) (character_revisions db) (assets db) (asset_files db) (char_workspaces db)).

Definition insert_revision_row (row : RevisionRow) (db : CharDB) : option CharDB :=
  if bool_decide (is_Some (by_id rv_id (rv_id row) (character_revisions db)))
     || negb (bool_decide (is_Some (by_id ch_id (rv_character_id row) (characters db))))
     || negb (match rv_raw_asset_id row with
              | Some a => bool_decide (is_Some (by_id as_id a (assets db))) | None => true end) then None
  else Some (MkCharDB (characters db) (character_revisions db ++ [row]) (assets db) (asset_files db) (char_workspaces db)).

Definition asset_of (workspace_id digest : string) (db : CharDB) : option AssetRow :=
  snd <$> list_find (λ a, as_workspace_id a = workspace_id ∧ as_sha256 a = digest) (assets db).

(** [ON CONFLICT(workspace_id, sha256) DO NOTHING]. *)
Definition insert_asset (row : AssetRow) (db : CharDB) : option CharDB :=
  if bool_decide (is_Some (asset_of (as_workspace_id row) (as_sha256 row) db)) then Some db
  else if bool_decide (is_Some (by_id as_id (as_id row) (assets db)))
          || negb (bool_decide (as_workspace_id row ∈ char_workspaces db)) then None
  else Some (MkCharDB (characters db) (character_revisions db) (assets db ++ [row]) (asset_files db) (char_workspaces db)).

Definition write_file (path bytes : string) (db : CharDB) : CharDB :=
  MkCharDB (characters db) (character_revisions db) (assets db) (<[path := bytes]> (asset_files db)) (char_workspaces db).

Definition set_current_revision (id revision_id : string) (db : CharDB) : CharDB :=
  MkCharDB ((λ r, if ch_id r =?= id
                  then MkCharacterRow (ch_id r) (ch_workspace_id r) (ch_display_name r) (Some revision_id) (ch_archived r) else r)
              <$> characters db)
    (character_revisions db) (assets db) (asset_files db) (char_workspaces db).

Definition list_characters (workspace_id : string) (db : CharDB) : list CharacterRow :=
  sort_by (λ a b, text_le (ch_display_name a) (ch_display_name b))
    (filter (λ r, ch_workspace_id r = workspace_id) (characters db)).

Definition get_character (id : string) (db : CharDB) : option CharacterRow := by_id ch_id id (characters db).

Section Store.
Context (crc32 : string -> Z) (base64_encode : string -> string) (base64_decode : string -> option string).
Context (from_slice : string -> result Value string) (to_vec : Value -> result string string).
Context (sha256_hex : string -> string).

(** [parse_character_bytes] and [encode_png_with_card] always return ([card_files_end]). *)
Definition parse_card (bytes filename : string) : AppResult ParsedCard :=
  default (Err (internal "")) (parse_character_bytes crc32 base64_decode from_slice to_vec sha256_hex bytes filename).
Definition encode_card (png : string) (raw : Value) : AppResult string :=
  default (Err (internal "")) (encode_png_with_card crc32 base64_encode to_vec png raw).

Definition text_of (v : Value) (otherwise : string) : string :=
  match to_vec v with Ok text => text | Err _ => otherwise end.
Definition value_of (text : string) : option Value :=
  match from_slice text with Ok v => Some v | Err _ => None end.

Definition into_revision (r : RevisionRow) : CharacterRevision :=
  MkCharacterRevision (rv_id r) (rv_character_id r) (rv_source_format r) (rv_spec r) (rv_spec_version r)
    (default no_fields (value_of (rv_normalized_fields_json r) ≫= normalized_from_value))
    (default JNull (value_of (rv_raw_card_json r))) (rv_checksum r)
    (default [] (value_of (rv_compatibility_warnings_json r) ≫= warnings_from_value)).

Definition insert_revision (character_id revision_id : string) (parsed : ParsedCard) (normalized : NormalizedCardFields)
    (asset_id : option string) : Stm CharDB unit :=
  statement (insert_revision_row (MkRevisionRow revision_id character_id (pc_source_format parsed) (pc_spec parsed)
    (pc_spec_version parsed) (text_of (normalized_to_value normalized) "{}") (text_of (pc_raw parsed) "{}") asset_id
    (pc_checksum parsed) (text_of (JArray (JString <$> pc_warnings parsed)) "[]"))).

Definition asset_path (digest : string) : string := str_take 2 digest +:+ "/" +:+ digest.
Definition asset_mime (filename : string) : string :=
  if ends_with (to_ascii_lowercase filename) ".png" then "image/png" else "application/json".

(** [disk] is what the directory and the write came to. *)
Definition store_asset (id : string) (disk : bool) (workspace_id filename bytes : string) : Stm CharDB string :=
  let digest := sha256_hex bytes in
  if negb disk then serr io_error else
  run! _ := sput (write_file (asset_path digest) bytes) in
  run! _ := statement (insert_asset (MkAssetRow id workspace_id digest (asset_mime filename) (len bytes) (asset_path digest) filename)) in
  run! row := sget (asset_of workspace_id digest) in
  slift (ok_or (as_id <$> row) database_error).

(** The ids a call makes: asset, character and revision. *)
Record ImportIds := MkImportIds { ii_asset : string; ii_character : string; ii_revision : string }.

Definition import_bytes (ids : ImportIds) (disk : bool) (actor : Actor) (filename bytes : string) : Stm CharDB CharacterRow :=
  run! workspace_id := slift (require_workspace actor) in
  run! parsed := slift (parse_card bytes filename) in
  let normalized := from_raw (pc_raw parsed) in
  run! asset_id := store_asset (ii_asset ids) disk workspace_id filename bytes in
  run! _ := statement (insert_character (MkCharacterRow (ii_character ids) workspace_id (nc_name normalized) (Some (ii_revision ids)) false)) in
  run! _ := insert_revision (ii_character ids) (ii_revision ids) parsed normalized (Some asset_id) in
  run! row := sget (get_character (ii_character ids)) in
  slift (ok_or row (internal "imported character missing")).

(** The character of the workspace one of whose revisions has the checksum. *)
Definition with_checksum (workspace_id checksum : string) (db : CharDB) : option CharacterRow :=
  snd <$> list_find (λ c, ch_workspace_id c = workspace_id
    ∧ Exists (λ r, rv_character_id r = ch_id c ∧ rv_checksum r = checksum) (character_revisions db)) (characters db).
Definition with_name (workspace_id name : string) (db : CharDB) : option CharacterRow :=
  snd <$> list_find (λ c, ch_workspace_id c = workspace_id ∧ ch_display_name c = name) (characters db).

Definition importer (workspace_id : string) : Actor :=
  {| act_account := {| acc_id := "importer"; acc_username := "importer"; acc_display_name := "importer";
                       acc_is_system_admin := true; acc_disabled_at := None; acc_legacy_st_handle := None |};
     act_workspace_id := Some workspace_id; act_workspace_role := Some RoleOwner |}.

(** [again] is the asset id of the second [store_asset] that a new character makes. *)
Definition import_existing_or_revision (ids : ImportIds) (again : string) (disk : bool) (workspace_id filename bytes : string)
  : Stm CharDB CharacterRow :=
  run! parsed := slift (parse_card bytes filename) in
  run! existing := sget (with_checksum workspace_id (pc_checksum parsed)) in
  match existing with
  | Some c => run! row := sget (get_character (ch_id c)) in slift (ok_or row (internal "character vanished"))
  | None =>
      run! named := sget (with_name workspace_id (nc_name (from_raw (pc_raw parsed)))) in
      let normalized := from_raw (pc_raw parsed) in
      run! asset_id := store_asset (ii_asset ids) disk workspace_id filename bytes in
      match named with
      | Some c =>
          run! _ := insert_revision (ch_id c) (ii_revision ids) parsed normalized (Some asset_id) in
          run! _ := sput (set_current_revision (ch_id c) (ii_revision ids)) in
          run! row := sget (get_character (ch_id c)) in
          slift (ok_or row (internal "character vanished"))
      | None => import_bytes (MkImportIds again (ii_character ids) (ii_revision ids)) disk (importer workspace_id) filename bytes
      end
  end.

Definition get_revision (revision_id : string) (db : CharDB) : AppResult CharacterRevision :=
  let? row := ok_or (by_id rv_id revision_id (character_revisions db)) (not_found "REVISION_NOT_FOUND" "character revision not found") in
  Ok (into_revision row).

Definition current_revision (character_id : string) (db : CharDB) : AppResult CharacterRevision :=
  let? character := ok_or (get_character character_id db) (not_found "CHARACTER_NOT_FOUND" "character not found") in
  let? revision_id := ok_or (ch_current_revision_id character) (not_found "REVISION_NOT_FOUND" "character has no revision") in
  get_revision revision_id db.

Definition export_json (character_id : string) (db : CharDB) : AppResult Value :=
  let? revision := current_revision character_id db in Ok (cr_raw_card_json revision).

Definition export_png (character_id : string) (db : CharDB) : AppResult string :=
  let? character := ok_or (get_character character_id db) (not_found "CHARACTER_NOT_FOUND" "character not found") in
  let? revision := current_revision character_id db in
  let asset :=
    match by_id rv_id (default "" (ch_current_revision_id character)) (character_revisions db) with
    | Some row => match rv_raw_asset_id row with Some a => by_id as_id a (assets db) | None => None end
    | None => None
    end in
  let? asset := ok_or asset (bad_request "PNG_ASSET_MISSING" "character has no PNG asset to export") in
  if negb (as_mime asset =?= "image/png") then Err (bad_request "PNG_ASSET_MISSING" "character source is not PNG") else
  let? bytes := ok_or (asset_files db !! as_relative_path asset) io_error in
  encode_card bytes (cr_raw_card_json revision).
End Store.

(** ** Rows by their key *)

Section Rows.
Context {A : Type} (id_of : A -> string).

Lemma by_id_Some id rows r : by_id id_of id rows = Some r -> r ∈ rows /\ id_of r = id.
Proof.
  unfold by_id. intros ([i r'] & Hf & [= ->])%fmap_Some. apply list_find_Some in Hf as (Hl & Hid & _).
  split; [by eapply list_elem_of_lookup_2 | done].
Qed.

Lemma by_id_app_new rows r : by_id id_of (id_of r) rows = None -> by_id id_of (id_of r) (rows ++ [r]) = Some r.
Proof.
  unfold by_id. rewrite fmap_None. intros Hn. rewrite list_find_app_r by done. simpl.
  rewrite decide_True by done. done.
Qed.

Lemma by_id_app_old rows more id r : by_id id_of id rows = Some r -> by_id id_of id (rows ++ more) = Some r.
Proof.
  unfold by_id. intros ([i r'] & Hf & [= ->])%fmap_Some. by rewrite (list_find_app_l _ _ _ _ _ Hf).
Qed.

Lemma by_id_app_other rows r id : id_of r <> id -> by_id id_of id (rows ++ [r]) = by_id id_of id rows.
Proof.
  intros Hne. destruct (by_id id_of id rows) as [x|] eqn:Hx; [by apply by_id_app_old|].
  revert Hx. unfold by_id. rewrite !fmap_None. intros Hn. rewrite list_find_app_r by done. simpl.
  rewrite decide_False by done. done.
Qed.
End Rows.

Lemma list_find_is_Some {A} (P : A -> Prop) `{forall x, Decision (P x)} l x :
  x ∈ l -> P x -> exists i y, list_find P l = Some (i, y) /\ y ∈ l /\ P y.
Proof.
  intros Hx HP. destruct (list_find_elem_of P l x Hx HP) as [[i y] Hf]. exists i, y.
  apply list_find_Some in Hf as Hf'. destruct Hf' as (Hl & Hy & _). split; [done|].
  split; [by eapply list_elem_of_lookup_2 | done].
Qed.

(** ** Imports and exports *)

Section Imported.
Context (crc32 : string -> Z) (base64_decode : string -> option string).
Context (from_slice : string -> result Value string) (to_vec : Value -> result string string).
Context (sha256_hex : string -> string).

#[local] Arguments by_id : simpl never.

Lemma store_asset_inv id disk w filename bytes db db' aid :
  store_asset sha256_hex id disk w filename bytes db = (db', Ok aid) ->
  exists row, asset_of w (sha256_hex bytes) db' = Some row /\ as_id row = aid
    /\ asset_files db' = <[asset_path (sha256_hex bytes) := bytes]> (asset_files db)
    /\ characters db' = characters db /\ character_revisions db' = character_revisions db.
Proof.
  unfold store_asset. destruct disk; simpl; [|discriminate]. intros H.
  run_inv H u1 db1 H1. injection H1 as <- _. run_inv H u2 db2 H2. apply statement_inv in H2.
  run_inv H row db3 H3. injection H3 as <- <-. unfold slift in H.
  destruct (asset_of w (sha256_hex bytes) db2) as [row|] eqn:Hrow; [|discriminate]. injection H as <- <-.
  exists row. split; [done|]. split; [done|]. revert H2. unfold insert_asset.
  destruct (bool_decide (is_Some _)); [by intros [= <-]|]. destruct (_ || _); [done|]. by intros [= <-].
Qed.

(** [PRIMARY KEY (id)] of the characters. *)
Definition keyed (db : CharDB) : Prop := NoDup (ch_id <$> characters db).

Lemma keyed_get db c : keyed db -> c ∈ characters db -> get_character (ch_id c) db = Some c.
Proof.
  intros Hk Hin. destruct (list_find_is_Some (λ k, ch_id k = ch_id c) _ _ Hin eq_refl) as (j & c2 & Hf & Hin2 & Hid).
  unfold get_character, by_id. rewrite Hf. simpl. f_equal. unfold keyed in Hk. revert Hk Hin Hin2. clear -Hid.
  induction (characters db) as [|x l IH]; [set_solver|]. simpl. intros [Hx Hn]%NoDup_cons.
  rewrite !elem_of_cons. intros [->|H1] [->|H2]; [done|..|by apply IH]; exfalso; apply Hx.
  - rewrite <- Hid. by apply list_elem_of_fmap_2.
  - rewrite Hid. by apply list_elem_of_fmap_2.
Qed.

Lemma keyed_app db rows r :
  by_id ch_id (ch_id r) (characters db) = None -> keyed db -> characters rows = characters db ++ [r] -> keyed rows.
Proof.
  unfold keyed. intros Hn Hk ->. rewrite fmap_app. apply NoDup_app. split; [done|]. split; [|apply NoDup_singleton].
  intros x Hx Hin. apply list_elem_of_singleton in Hin as ->. apply list_elem_of_fmap in Hx as (c & Hid & Hin).
  destruct (list_find_is_Some (λ k, ch_id k = ch_id r) _ _ Hin (eq_sym Hid)) as (j & c2 & Hf & _).
  unfold by_id in Hn. by rewrite Hf in Hn.
Qed.

(** What an import that succeeded has left behind. *)
Lemma import_bytes_inv ids disk actor filename bytes db db' c :
  import_bytes crc32 base64_decode from_slice to_vec sha256_hex ids disk actor filename bytes db = (db', Ok c) ->
  exists w card arow row,
    act_workspace_id actor = Some w
    /\ parse_card crc32 base64_decode from_slice to_vec sha256_hex bytes filename = Ok card
    /\ c = MkCharacterRow (ii_character ids) w (nc_name (from_raw (pc_raw card))) (Some (ii_revision ids)) false
    /\ characters db' = characters db ++ [c] /\ by_id ch_id (ii_character ids) (characters db) = None
    /\ character_revisions db' = character_revisions db ++ [row] /\ by_id rv_id (ii_revision ids) (character_revisions db) = None
    /\ rv_id row = ii_revision ids /\ rv_character_id row = ii_character ids /\ rv_checksum row = pc_checksum card
    /\ rv_raw_card_json row = text_of to_vec (pc_raw card) "{}" /\ rv_raw_asset_id row = Some (as_id arow)
    /\ asset_of w (sha256_hex bytes) db' = Some arow
    /\ asset_files db' = <[asset_path (sha256_hex bytes) := bytes]> (asset_files db).
Proof.
  unfold import_bytes, require_workspace. intros H.
  run_inv H w db1 H1. unfold slift in H1. destruct (act_workspace_id actor) as [w'|] eqn:Hw; [|discriminate].
  simpl in H1. injection H1 as <- <-. run_inv H card db1 H1. unfold slift in H1. injection H1 as <- Hcard.
  remember (from_raw (pc_raw card)) as nf eqn:Hnf.
  run_inv H aid db2 H2. apply store_asset_inv in H2 as (arow & Ha & <- & Hf & Hc & Hr).
  run_inv H u db3 H3. apply statement_inv in H3. run_inv H u' db4 H4. apply statement_inv in H4.
  run_inv H o db5 H5. injection H5 as <- <-. unfold slift in H. revert H3 H4 H. unfold insert_character, insert_revision_row.
  simpl. case_bool_decide as Hn; [done|]. destruct (bool_decide (w' ∈ _)); simpl; [|done]. intros [= <-]. simpl.
  case_bool_decide as Hn'; [done|]. destruct (_ || _) eqn:Hor; [done|]. intros [= <-]. simpl.
  apply eq_None_not_Some in Hn, Hn'. rewrite Hc in Hn |- *. rewrite Hr in Hn' |- *.
  unfold get_character. simpl. rewrite ?Hc.
  pose proof (by_id_app_new ch_id (characters db)
    (MkCharacterRow (ii_character ids) w' (nc_name nf) (Some (ii_revision ids)) false) Hn) as Hnew.
  cbn [ch_id] in Hnew. rewrite Hnew. simpl. intros [= <- <-]. subst nf. exists w', card, arow. eexists. repeat (split; [done|]). simpl. done.
Qed.

(** A character file is kept whole. After an import the character's JSON export is what the text stored for the card of the
    file reads back as, every other
    character and its current revision are what they were, and importing the file, or another one with the same card,
    into the workspace again returns a character of that workspace and changes nothing. *)
Theorem imported_card_is_kept ids disk actor filename bytes db db' c :
  keyed db -> import_bytes crc32 base64_decode from_slice to_vec sha256_hex ids disk actor filename bytes db = (db', Ok c) ->
  exists card,
    parse_card crc32 base64_decode from_slice to_vec sha256_hex bytes filename = Ok card
    /\ (forall json back, to_vec (pc_raw card) = Ok json -> from_slice json = Ok back ->
          export_json from_slice (ch_id c) db' = Ok back)
    /\ (forall id r, id <> ch_id c -> current_revision from_slice id db = Ok r -> current_revision from_slice id db' = Ok r)
    /\ (forall ids' again disk' filename' bytes' card',
          parse_card crc32 base64_decode from_slice to_vec sha256_hex bytes' filename' = Ok card' ->
          pc_checksum card' = pc_checksum card ->
          exists c', import_existing_or_revision crc32 base64_decode from_slice to_vec sha256_hex ids' again disk'
                       (ch_workspace_id c) filename' bytes' db' = (db', Ok c')
                     /\ ch_workspace_id c' = ch_workspace_id c).
Proof.
  intros Hk (w & card & arow & row & Hw & Hcard & Hc & Hcs & Hcn & Hrs & Hrn & Hrid & Hrc & Hrk & Hraw & _)%import_bytes_inv.
  exists card. split; [done|].
  assert (keyed db') as Hk' by (apply (keyed_app db db' c); [by rewrite Hc|done..]).
  assert (get_character (ii_character ids) db' = Some c) as Hget.
  { unfold get_character. rewrite Hcs. assert (ch_id c = ii_character ids) as <- by by rewrite Hc.
    apply by_id_app_new. by rewrite Hc. }
  assert (by_id rv_id (ii_revision ids) (character_revisions db') = Some row) as Hrow.
  { rewrite Hrs, <- Hrid. apply by_id_app_new. by rewrite Hrid. }
  split; [|split].
  - intros json back Hj Hback. unfold export_json, current_revision. assert (ch_id c = ii_character ids) as -> by by rewrite Hc.
    rewrite Hget. simpl. rewrite Hc. simpl. unfold get_revision. rewrite Hrow. simpl. rewrite Hraw. unfold value_of, text_of.
    by rewrite Hj, Hback.
  - intros id r Hne. unfold current_revision, get_character, get_revision. rewrite Hcs, by_id_app_other by done.
    destruct (by_id ch_id id (characters db)) as [k|]; simpl; [|done]. destruct (ch_current_revision_id k) as [rid|]; simpl; [|done].
    destruct (by_id rv_id rid (character_revisions db)) as [rr|] eqn:E; simpl; [|done].
    by rewrite Hrs, (by_id_app_old _ _ _ _ _ E).
  - intros ids' again disk' filename' bytes' card' Hp Hck.
    unfold import_existing_or_revision, sbind, slift, sget. rewrite Hp. unfold with_checksum.
    destruct (list_find_is_Some (λ k, ch_workspace_id k = ch_workspace_id c
      ∧ Exists (λ r, rv_character_id r = ch_id k ∧ rv_checksum r = pc_checksum card') (character_revisions db')) (characters db') c)
      as (i & c1 & Hf & Hin & Hcw & _).
    + rewrite Hcs. set_solver.
    + split; [done|]. apply Exists_exists. exists row. split; [rewrite Hrs; set_solver|]. rewrite Hck, Hc. by split.
    + rewrite Hf. simpl. rewrite (keyed_get _ _ Hk' Hin). by exists c1.
Qed.
End Imported.

(** ** A character imported twice *)

Definition demo_import_ids (n : string) : ImportIds := MkImportIds ("a" +:+ n) ("c" +:+ n) ("r" +:+ n).
Definition demo_chars : CharDB := MkCharDB [] [] [] ∅ {["w1"]}.
Definition demo_import (n filename bytes : string) : Stm CharDB CharacterRow :=
  import_bytes toy_crc toy_decode toy_from_slice toy_to_vec (λ s, s) (demo_import_ids n) true (importer "w1") filename bytes.

(** The card arrives as a JSON file first and in a PNG later: one character. *)
Lemma imported_card_is_kept_witness :
  exists db c, demo_import "1" "card.json" "null" demo_chars = (db, Ok c)
    /\ export_json toy_from_slice (ch_id c) db = Ok JNull
    /\ exists c', import_existing_or_revision toy_crc toy_decode toy_from_slice toy_to_vec (λ s, s) (demo_import_ids "2") "a3" true
                    "w1" "card.png" whole_png db = (db, Ok c') /\ ch_workspace_id c' = "w1".
Proof.
  assert (exists db c, demo_import "1" "card.json" "null" demo_chars = (db, Ok c) /\ ch_workspace_id c = "w1") as (db & c & Hi & Hw)
    by (vm_compute; eauto).
  assert (keyed demo_chars) as Hk by constructor.
  destruct (imported_card_is_kept toy_crc toy_decode toy_from_slice toy_to_vec (λ s, s) (demo_import_ids "1") true
    (importer "w1") "card.json" "null" demo_chars db c Hk Hi) as (card & Hp & He & _ & Hr).
  exists db, c. split; [exact Hi|].
  assert (parse_card toy_crc toy_decode toy_from_slice toy_to_vec (λ s, s) "null" "card.json"
    = Ok (parsed_from_value toy_to_vec (λ s, s) JNull "json" [])) as Hp' by (vm_compute; reflexivity).
  rewrite Hp' in Hp. injection Hp as <-. split; [exact (He "null" JNull eq_refl eq_refl)|].
  destruct (Hr (demo_import_ids "2") "a3" true "card.png" whole_png (parsed_from_value toy_to_vec (λ s, s) JNull "png" []))
    as (c' & H1 & H2); [vm_compute; reflexivity..|].
  rewrite Hw in H1, H2. by exists c'.
Defined.

(** A PNG imported under another name keeps the wrong type: its card is there, the PNG is not exported, and the same
    bytes imported again under the right name are no help, since the asset row of the first import stays. *)
Example misnamed_png_is_not_exported :
  match demo_import "1" "card.json" whole_png demo_chars with
  | (db, Ok c) =>
      export_png toy_crc toy_encode toy_from_slice toy_to_vec (ch_id c) db
        = Err (bad_request "PNG_ASSET_MISSING" "character source is not PNG")
      /\ match demo_import "2" "card.png" whole_png db with
         | (db, Ok c) => export_png toy_crc toy_encode toy_from_slice toy_to_vec (ch_id c) db
                         = Err (bad_request "PNG_ASSET_MISSING" "character source is not PNG")
         | _ => False
         end
  | _ => False
  end.
Proof. vm_compute. auto. Qed.
