(* ===== verification/Chat.v ===== *)
(** * Conversations of the standalone chat engine ([domain/conversation.rs], the tables of
    [modules/chat/engine.rs], [modules/chat/history.rs] and the message lists of
    [modules/chat/prompt.rs])

    Rows keep roles and states as the texts the columns hold; views have the enums. *)

From S2P Require Import Prelude Text Errors StDomain Engine Prompt Models Characters Stateful.

(** ** Roles and states *)

Inductive MessageRole : Set := RoleSystem | RoleUser | RoleAssistant.
Inductive MessageStatus : Set := MsgActive | MsgRevoked | MsgSuperseded.
Inductive TurnStatus : Set := TurnPending | TurnComplete | TurnFailed | TurnRevoked.
Inductive GenerationStatus : Set := GenStarted | GenStreaming | GenCompleted | GenFailed | GenInterrupted.

#[export] Instance message_role_eq_dec : EqDecision MessageRole.
Proof. solve_decision. Defined.
#[export] Instance generation_status_eq_dec : EqDecision GenerationStatus.
Proof. solve_decision. Defined.

Definition MessageRole_as_str (r : MessageRole) : string :=
  match r with RoleSystem => "system" | RoleUser => "user" | RoleAssistant => "assistant" end.
Definition MessageRole_parse (value : string) : option MessageRole :=
  if value =?= "system" then Some RoleSystem else if value =?= "user" then Some RoleUser
  else if value =?= "assistant" then Some RoleAssistant else None.

Definition MessageStatus_as_str (s : MessageStatus) : string :=
  match s with MsgActive => "active" | MsgRevoked => "revoked" | MsgSuperseded => "superseded" end.
Definition TurnStatus_as_str (s : TurnStatus) : string :=
  match s with TurnPending => "pending" | TurnComplete => "complete" | TurnFailed => "failed" | TurnRevoked => "revoked" end.

Definition GenerationStatus_as_str (s : GenerationStatus) : string :=
  match s with GenStarted => "started" | GenStreaming => "streaming" | GenCompleted => "completed" | GenFailed => "failed"
             | GenInterrupted => "interrupted" end.
Definition GenerationStatus_parse (value : string) : option GenerationStatus :=
  if value =?= "started" then Some GenStarted else if value =?= "streaming" then Some GenStreaming
  else if value =?= "completed" then Some GenCompleted else if value =?= "failed" then Some GenFailed
  else if value =?= "interrupted" then Some GenInterrupted else None.

Lemma generation_status_parse s : GenerationStatus_parse (GenerationStatus_as_str s) = Some s.
Proof. by destruct s. Qed.

(** ** Views and rows *)

Record Conversation := MkConversation {
  cv_id : string;
  cv_workspace_id : string;
  cv_character_id : string;
  cv_pinned_character_revision_id : option string;
  cv_title : string;
  cv_prompt_profile : string;
  cv_revision : Z;
  cv_default_model_preset_id : option string;
  cv_archived : bool;
  cv_legacy_locator : option string;
}.

Record ConversationRow := MkConversationRow { cw_conversation : Conversation; cw_updated_at : string }.

Record TurnRow := MkTurnRow {
  tn_id : string;
  tn_conversation_id : string;
  tn_ordinal : Z;
  tn_status : string;
  tn_created_by : string;
  tn_active_assistant_message_id : option string;
}.

Record MessageRow := MkMessageRow {
  ms_id : string;
  ms_conversation_id : string;
  ms_turn_id : option string;
  ms_sequence : Z;
  ms_role : string;
  ms_content_original : string;
  ms_prompt_content : option string;
  ms_status : string;
  ms_supersedes_id : option string;
  ms_metadata_json : string;
  ms_source_raw_json : option string;
}.

Record Message := MkMessage {
  mg_id : string;
  mg_conversation_id : string;
  mg_turn_id : option string;
  mg_sequence : Z;
  mg_role : MessageRole;
  mg_content_original : string;
  mg_prompt_content : option string;
  mg_status : MessageStatus;
  mg_supersedes_id : option string;
  mg_metadata : Value;
  mg_source_raw_json : option Value;
}.

Record GenerationRow := MkGenerationRow {
  gr_id : string;
  gr_conversation_id : string;
  gr_turn_id : option string;
  gr_actor_id : string;
  gr_channel : string;
  gr_external_context_key : string;
  gr_operation_kind : string;
  gr_client_turn_id : option string;
  gr_status : string;
  gr_effective_character_revision_id : option string;
  gr_provider_snapshot_json : string;
  gr_error_code : option string;
  gr_error_message : option string;
  gr_partial_content : option string;
  gr_result_json : option string;
}.

Record GenerationRun := MkGenerationRun {
  gn_id : string;
  gn_conversation_id : string;
  gn_turn_id : option string;
  gn_actor_id : string;
  gn_channel : string;
  gn_external_context_key : string;
  gn_operation_kind : string;
  gn_client_turn_id : option string;
  gn_status : GenerationStatus;
  gn_effective_character_revision_id : option string;
  gn_error_code : option string;
  gn_error_message : option string;
  gn_partial_content : option string;
  gn_result_json : option Value;
}.

Record CommandRow := MkCommandRow {
  cc_operation_id : string;
  cc_actor_id : string;
  cc_channel : string;
  cc_external_context_key : string;
  cc_operation_kind : string;
  cc_client_turn_id : string;
  cc_conversation_id : string;
  cc_revision : Z;
  cc_result_json : string;
}.

Record ContextRow := MkContextRow {
  cx_workspace_id : option string;
  cx_character_id : option string;
  cx_conversation_id : option string;
  cx_chat_model_preset_id : option string;
  cx_compression_model_preset_id : option string;
}.

Record CompressionRow := MkCompressionRow {
  cm_id : string;
  cm_conversation_id : string;
  cm_model_snapshot_json : string;
  cm_selected_message_ids_json : string;
  cm_status : string;
}.

(** The tables, rows in the order they were inserted where they are lists. *)
Record ChatDB := MkChatDB {
  cd_models : ModelDB;
  cd_chars : CharDB;
  cd_accounts : gset string;
  conversations : gmap string ConversationRow;
  turns : list TurnRow;
  messages : list MessageRow;
  generation_runs : list GenerationRow;
  command_results : list CommandRow;
  channel_rows : gmap (string * string * string) ContextRow;
  compression_runs : list CompressionRow;
}.

Definition set_models (m : ModelDB) (d : ChatDB) : ChatDB :=
  MkChatDB m (cd_chars d) (cd_accounts d) (conversations d) (turns d) (messages d) (generation_runs d) (command_results d)
    (channel_rows d) (compression_runs d).
Definition set_conversations (f : gmap string ConversationRow -> gmap string ConversationRow) (d : ChatDB) : ChatDB :=
  MkChatDB (cd_models d) (cd_chars d) (cd_accounts d) (f (conversations d)) (turns d) (messages d) (generation_runs d)
    (command_results d) (channel_rows d) (compression_runs d).
Definition set_turns (f : list TurnRow -> list TurnRow) (d : ChatDB) : ChatDB :=
  MkChatDB (cd_models d) (cd_chars d) (cd_accounts d) (conversations d) (f (turns d)) (messages d) (generation_runs d)
    (command_results d) (channel_rows d) (compression_runs d).
Definition set_messages (f : list MessageRow -> list MessageRow) (d : ChatDB) : ChatDB :=
  MkChatDB (cd_models d) (cd_chars d) (cd_accounts d) (conversations d) (turns d) (f (messages d)) (generation_runs d)
    (command_results d) (channel_rows d) (compression_runs d).
Definition set_runs (f : list GenerationRow -> list GenerationRow) (d : ChatDB) : ChatDB :=
  MkChatDB (cd_models d) (cd_chars d) (cd_accounts d) (conversations d) (turns d) (messages d) (f (generation_runs d))
    (command_results d) (channel_rows d) (compression_runs d).
Definition set_results (f : list CommandRow -> list CommandRow) (d : ChatDB) : ChatDB :=
  MkChatDB (cd_models d) (cd_chars d) (cd_accounts d) (conversations d) (turns d) (messages d) (generation_runs d)
    (f (command_results d)) (channel_rows d) (compression_runs d).
Definition set_contexts (f : gmap (string * string * string) ContextRow -> gmap (string * string * string) ContextRow)
    (d : ChatDB) : ChatDB :=
  MkChatDB (cd_models d) (cd_chars d) (cd_accounts d) (conversations d) (turns d) (messages d) (generation_runs d)
    (command_results d) (f (channel_rows d)) (compression_runs d).
Definition set_compressions (f : list CompressionRow -> list CompressionRow) (d : ChatDB) : ChatDB :=
  MkChatDB (cd_models d) (cd_chars d) (cd_accounts d) (conversations d) (turns d) (messages d) (generation_runs d)
    (command_results d) (channel_rows d) (f (compression_runs d)).

Definition on_models {A} (m : Stm ModelDB A) : Stm ChatDB A := on cd_models set_models m.

(** ** Statements: an insert refused by a key or a foreign key is [None] *)

Definition has_conversation (id : string) (d : ChatDB) : bool := bool_decide (is_Some (conversations d !! id)).
Definition has_turn (id : option string) (d : ChatDB) : bool :=
  match id with Some id => bool_decide (Exists (λ t, tn_id t = id) (turns d)) | None => true end.
Definition has_message (id : option string) (d : ChatDB) : bool :=
  match id with Some id => bool_decide (Exists (λ m, ms_id m = id) (messages d)) | None => true end.

Definition insert_conversation (row : ConversationRow) (d : ChatDB) : option ChatDB :=
  let c := cw_conversation row in
  if has_conversation (cv_id c) d || negb (bool_decide (cv_workspace_id c ∈ model_workspaces (cd_models d)))
     || negb (bool_decide (is_Some (get_character (cv_character_id c) (cd_chars d)))) then None
  else Some (set_conversations <[cv_id c := row]> d).

(** [UNIQUE (conversation_id, ordinal)]. *)
Definition turn_taken (t : TurnRow) (d : ChatDB) : bool :=
  bool_decide (Exists (λ x, tn_id x = tn_id t ∨ (tn_conversation_id x = tn_conversation_id t ∧ tn_ordinal x = tn_ordinal t)) (turns d)).
Definition insert_turn (t : TurnRow) (d : ChatDB) : option ChatDB :=
  if turn_taken t d || negb (has_conversation (tn_conversation_id t) d) then None else Some (set_turns (λ l, l ++ [t]) d).

(** [UNIQUE (conversation_id, sequence)]. *)
Definition message_taken (m : MessageRow) (d : ChatDB) : bool :=
  bool_decide (Exists (λ x, ms_id x = ms_id m ∨ (ms_conversation_id x = ms_conversation_id m ∧ ms_sequence x = ms_sequence m)) (messages d)).
Definition insert_message (m : MessageRow) (d : ChatDB) : option ChatDB :=
  if message_taken m d || negb (has_conversation (ms_conversation_id m) d) || negb (has_turn (ms_turn_id m) d)
     || negb (has_message (ms_supersedes_id m) d) then None
  else Some (set_messages (λ l, l ++ [m]) d).

(** [generation_runs_idempotency], of the rows that have a client turn id. *)
Definition same_run_key (a b : GenerationRow) : Prop :=
  gr_actor_id a = gr_actor_id b ∧ gr_channel a = gr_channel b ∧ gr_external_context_key a = gr_external_context_key b
  ∧ gr_operation_kind a = gr_operation_kind b ∧ gr_client_turn_id a = gr_client_turn_id b ∧ gr_client_turn_id a ≠ None.
#[export] Instance same_run_key_dec a b : Decision (same_run_key a b).
Proof. unfold same_run_key. apply _. Defined.
Definition run_taken (r : GenerationRow) (d : ChatDB) : bool :=
  bool_decide (Exists (λ x, gr_id x = gr_id r ∨ same_run_key x r) (generation_runs d)).
Definition insert_run (r : GenerationRow) (d : ChatDB) : option ChatDB :=
  if run_taken r d || negb (has_conversation (gr_conversation_id r) d) || negb (has_turn (gr_turn_id r) d) then None
  else Some (set_runs (λ l, l ++ [r]) d).

Definition same_command_key (a b : CommandRow) : Prop :=
  cc_actor_id a = cc_actor_id b ∧ cc_channel a = cc_channel b ∧ cc_external_context_key a = cc_external_context_key b
  ∧ cc_operation_kind a = cc_operation_kind b ∧ cc_client_turn_id a = cc_client_turn_id b.
#[export] Instance same_command_key_dec a b : Decision (same_command_key a b).
Proof. unfold same_command_key. apply _. Defined.
Definition insert_result (r : CommandRow) (d : ChatDB) : option ChatDB :=
  if bool_decide (Exists (λ x, cc_operation_id x = cc_operation_id r ∨ same_command_key x r) (command_results d))
     || negb (bool_decide (cc_actor_id r ∈ cd_accounts d)) || negb (has_conversation (cc_conversation_id r) d) then None
  else Some (set_results (λ l, l ++ [r]) d).

Definition insert_compression (r : CompressionRow) (d : ChatDB) : option ChatDB :=
  if bool_decide (Exists (λ x, cm_id x = cm_id r) (compression_runs d)) || negb (has_conversation (cm_conversation_id r) d) then None
  else Some (set_compressions (λ l, l ++ [r]) d).

(** The foreign keys of a channel context. *)
Definition context_known (account : string) (r : ContextRow) (d : ChatDB) : bool :=
  let preset o := match o with Some p => bool_decide (is_Some (get_preset p (cd_models d))) | None => true end in
  bool_decide (account ∈ cd_accounts d)
  && match cx_workspace_id r with Some w => bool_decide (w ∈ model_workspaces (cd_models d)) | None => true end
  && match cx_character_id r with Some c => bool_decide (is_Some (get_character c (cd_chars d))) | None => true end
  && match cx_conversation_id r with Some c => has_conversation c d | None => true end
  && preset (cx_chat_model_preset_id r) && preset (cx_compression_model_preset_id r).
Definition put_context (key : string * string * string) (r : ContextRow) (d : ChatDB) : option ChatDB :=
  if context_known key.1.1 r d then Some (set_contexts <[key := r]> d) else None.

(** [UPDATE messages SET status = to WHERE ... AND status = from]. *)
Definition set_message_status (to : string) (m : MessageRow) : MessageRow :=
  MkMessageRow (ms_id m) (ms_conversation_id m) (ms_turn_id m) (ms_sequence m) (ms_role m) (ms_content_original m)
    (ms_prompt_content m) to (ms_supersedes_id m) (ms_metadata_json m) (ms_source_raw_json m).
Definition flip_message (id from to : string) : list MessageRow -> list MessageRow :=
  fmap (λ m, if bool_decide (ms_id m = id ∧ ms_status m = from) then set_message_status to m else m).
Definition revoke_messages (turn_id : string) : list MessageRow -> list MessageRow :=
  fmap (λ m, if bool_decide (ms_turn_id m = Some turn_id ∧ ms_status m = "active") then set_message_status "revoked" m else m).
Definition set_prompt_content (id content : string) : list MessageRow -> list MessageRow :=
  fmap (λ m, if ms_id m =?= id
             then MkMessageRow (ms_id m) (ms_conversation_id m) (ms_turn_id m) (ms_sequence m) (ms_role m) (ms_content_original m)
                    (Some content) (ms_status m) (ms_supersedes_id m) (ms_metadata_json m) (ms_source_raw_json m)
             else m).

(** [UPDATE turns SET status = ..., active_assistant_message_id = ... WHERE id = ?]. *)
Definition set_turn (id status : string) (reply : option string) : list TurnRow -> list TurnRow :=
  fmap (λ t, if tn_id t =?= id
             then MkTurnRow (tn_id t) (tn_conversation_id t) (tn_ordinal t) status (tn_created_by t)
                    (match reply with Some m => Some m | None => tn_active_assistant_message_id t end)
             else t).

Definition finish_run (id status : string) (error : option string) (result_json : string) : list GenerationRow -> list GenerationRow :=
  fmap (λ r, if gr_id r =?= id
             then MkGenerationRow (gr_id r) (gr_conversation_id r) (gr_turn_id r) (gr_actor_id r) (gr_channel r)
                    (gr_external_context_key r) (gr_operation_kind r) (gr_client_turn_id r) status
                    (gr_effective_character_revision_id r) (gr_provider_snapshot_json r) (gr_error_code r) error
                    (gr_partial_content r) (Some result_json)
             else r).

Definition with_revision (now : string) (revision : Z) (row : ConversationRow) : ConversationRow :=
  let c := cw_conversation row in
  MkConversationRow (MkConversation (cv_id c) (cv_workspace_id c) (cv_character_id c) (cv_pinned_character_revision_id c)
    (cv_title c) (cv_prompt_profile c) revision (cv_default_model_preset_id c) (cv_archived c) (cv_legacy_locator c)) now.
Definition set_revision (now : string) (revision : Z) (id : string) (d : ChatDB) : ChatDB :=
  set_conversations (alter (with_revision now revision) id) d.
Definition bump_revision (now id : string) (d : ChatDB) : ChatDB :=
  set_conversations (alter (λ row, with_revision now (cv_revision (cw_conversation row) + 1) row) id) d.

(** [COALESCE(MAX(...), 0) + 1]. *)
Definition next_after (l : list Z) : Z := (match l with [] => 0 | x :: l => foldr Z.max x l end + 1)%Z.
Definition next_ordinal (conversation_id : string) (d : ChatDB) : Z :=
  next_after (tn_ordinal <$> filter (λ t, tn_conversation_id t = conversation_id) (turns d)).
Definition next_sequence (conversation_id : string) (d : ChatDB) : Z :=
  next_after (ms_sequence <$> filter (λ m, ms_conversation_id m = conversation_id) (messages d)).

(** ** Queries *)

Definition load_conversation (id : string) (d : ChatDB) : option Conversation := cw_conversation <$> conversations d !! id.

Definition get_conversation (id : string) (d : ChatDB) : AppResult Conversation :=
  ok_or (load_conversation id d) (not_found "CONVERSATION_NOT_FOUND" "conversation not found").

Definition sequence_le (a b : MessageRow) : bool := (ms_sequence a <=? ms_sequence b)%Z.
Definition active_rows (conversation_id : string) (d : ChatDB) : list MessageRow :=
  sort_by sequence_le (filter (λ m, ms_conversation_id m = conversation_id ∧ ms_status m = "active") (messages d)).

(** The last turn that is not revoked. *)
Definition later_turn (a b : TurnRow) : bool := (tn_ordinal b <=? tn_ordinal a)%Z.
Definition undoable (conversation_id : string) (t : TurnRow) : Prop :=
  tn_conversation_id t = conversation_id ∧ tn_status t ∈ ["complete"; "failed"; "pending"].
#[export] Instance undoable_dec c t : Decision (undoable c t).
Proof. unfold undoable. apply _. Defined.
Definition last_undoable_turn (conversation_id : string) (d : ChatDB) : AppResult string :=
  ok_or (tn_id <$> head (sort_by later_turn (filter (undoable conversation_id) (turns d))))
    (bad_request "NO_LAST_TURN" "当前会话没有可删除的尾部对话。").

Section Views.
Context (from_slice : string -> result Value string).

Definition into_message (r : MessageRow) : Message :=
  MkMessage (ms_id r) (ms_conversation_id r) (ms_turn_id r) (ms_sequence r) (default RoleAssistant (MessageRole_parse (ms_role r)))
    (ms_content_original r) (ms_prompt_content r)
    (if ms_status r =?= "revoked" then MsgRevoked else if ms_status r =?= "superseded" then MsgSuperseded else MsgActive)
    (ms_supersedes_id r) (default (JObject []) (value_of from_slice (ms_metadata_json r)))
    (ms_source_raw_json r ≫= value_of from_slice).

Definition into_run (r : GenerationRow) : GenerationRun :=
  MkGenerationRun (gr_id r) (gr_conversation_id r) (gr_turn_id r) (gr_actor_id r) (gr_channel r) (gr_external_context_key r)
    (gr_operation_kind r) (gr_client_turn_id r) (default GenFailed (GenerationStatus_parse (gr_status r)))
    (gr_effective_character_revision_id r) (gr_error_code r) (gr_error_message r) (gr_partial_content r)
    (gr_result_json r ≫= value_of from_slice).

Definition load_active_messages (conversation_id : string) (d : ChatDB) : list Message :=
  into_message <$> active_rows conversation_id d.

Definition load_generation (id : string) (d : ChatDB) : option GenerationRun := into_run <$> by_id gr_id id (generation_runs d).

Definition sequence_ge (a b : MessageRow) : bool := (ms_sequence b <=? ms_sequence a)%Z.
Definition last_active_user (conversation_id : string) (d : ChatDB) : option Message :=
  into_message <$> head (sort_by sequence_ge
    (filter (λ m, ms_conversation_id m = conversation_id ∧ ms_status m = "active" ∧ ms_role m = "user") (messages d))).
End Views.

(** ** What a model is shown *)

Definition prompt_text (m : Message) : string :=
  match mg_prompt_content m with
  | Some value => if is_blank value then mg_content_original m else value
  | None => mg_content_original m
  end.

Definition RECENT_LIMIT : nat := 24.
Definition is_digest (text : string) : bool := starts_with text "[CompressionDigest]".

Definition select_recent_messages (messages : list Message) : list Message :=
  let digest := snd <$> list_find (λ m, is_digest (prompt_text m) = true) messages in
  let normal := filter (λ m, mg_role m ≠ RoleSystem) messages in
  let normal := if (RECENT_LIMIT <? length normal)%nat then drop (length normal - RECENT_LIMIT) normal else normal in
  option_list digest ++ normal.

Record LlmMessage := MkLlmMessage { lm_role : string; lm_content : string; lm_name : option string }.

Definition speaker_name (message : Message) (fallback : string) : string :=
  match value_get (mg_metadata message) "name" ≫= value_as_str with
  | Some value => let value := trim value in if value =?= "" then fallback else value
  | None => fallback
  end.

Definition to_openai_message (user_name : string) (message : Message) : option LlmMessage :=
  if is_blank (prompt_text message) then None else
  let content := normalize_model_input_text (prompt_text message) in
  Some match mg_role message with
       | RoleSystem => MkLlmMessage "system" content None
       | RoleUser => MkLlmMessage "user" content (Some (speaker_name message user_name))
       | RoleAssistant => MkLlmMessage "assistant" content (Some (speaker_name message "Assistant"))
       end.

Definition to_openai_messages (system_prompt : string) (history : list Message) (user_name : string) (extra_user : option string)
  : list LlmMessage :=
  MkLlmMessage "system" system_prompt None :: omap (to_openai_message user_name) history
  ++ match extra_user with
     | Some text => [MkLlmMessage "user" (normalize_model_input_text text) (Some user_name)]
     | None => []
     end.

Record HistoryItem := MkHistoryItem {
  hi_message_id : string;
  hi_turn_id : option string;
  hi_speaker : string;
  hi_text : string;
  hi_send_date : option string;
  hi_is_user : bool;
  hi_sort_index : Z;
}.

Record HistoryView := MkHistoryView {
  hv_conversation_id : string;
  hv_revision : Z;
  hv_mode : string;
  hv_items : list HistoryItem;
}.

Definition history_item (m : Message) : HistoryItem :=
  MkHistoryItem (mg_id m) (mg_turn_id m)
    (default (if mg_role m =?= RoleUser then "User" else "Character") (value_get (mg_metadata m) "name" ≫= value_as_str))
    (prompt_text m) (value_get (mg_metadata m) "send_date" ≫= value_as_str) (mg_role m =?= RoleUser) (mg_sequence m).
Definition history_items (messages : list Message) : list HistoryItem :=
  history_item <$> filter (λ m, mg_role m ≠ RoleSystem) messages.
