(* ===== verification/ChatEngine.v ===== *)
(** * The standalone chat engine ([modules/chat/engine.rs])

    Commands and queries on the tables of [Chat.v]. Ids, times, what the model
    answers and what the progress sink says (nothing but [Ok] without a sink) are inputs. A generation is two
    transactions with the model's answer between them; [send_begin] is the part up to
    and including the first, [send_end] the rest. *)

From S2P Require Import Prelude Text Errors StDomain Engine Prompt CardPng Models Characters Stateful Chat.
From stdpp Require Import pretty.

Inductive ChatCommand : Type :=
| StartConversation (character_id channel external_context_key : string) (client_turn_id : option string)
| SelectCharacter (character_id channel external_context_key : string)
| SelectConversation (conversation_id channel external_context_key : string)
| SendMessage (conversation_id text channel external_context_key : string) (client_turn_id : option string)
    (expected_revision : option Z) (model_preset_id : option string)
| UndoLastTurn (conversation_id channel external_context_key : string) (client_turn_id : option string)
    (expected_revision : option Z)
| RegenerateReply (conversation_id channel external_context_key : string) (client_turn_id : option string)
    (expected_revision : option Z) (model_preset_id : option string)
| RetryGeneration (conversation_id operation_id channel external_context_key : string) (client_turn_id : option string)
| CompressHistory (conversation_id channel external_context_key : string) (client_turn_id : option string) (keep_recent : nat)
    (model_preset_id : option string)
| SetChannelModel (channel external_context_key purpose : string) (model_preset_id : option string).

Inductive ChatQuery : Type :=
| ListConversations (workspace_id : option string)
| GetConversation (conversation_id : string)
| GetHistory (conversation_id : string) (known_revision : option Z)
| GetChannelContext (channel external_context_key : string)
| GetOperation (operation_id : string).

Record ChatOutcome := MkChatOutcome {
  co_operation_id : string;
  co_conversation : option Conversation;
  co_reply_text : option string;
  co_revision : Z;
  co_status : string;
  co_in_progress : bool;
}.

Record ChatView := MkChatView {
  vw_conversations : list Conversation;
  vw_conversation : option Conversation;
  vw_history : option HistoryView;
  vw_operation : option GenerationRun;
  vw_channel_character_id : option string;
  vw_chat_model_preset_id : option string;
  vw_compression_model_preset_id : option string;
}.

Inductive ProgressEvent : Type :=
| PStarted (operation_id conversation_id : string) (revision : Z)
| PDelta (text full_text : string)
| PProgress (completed total : Z)
| PDone (reply_text : string) (conversation_revision : Z)
| PError (message : string).

Record LlmRequest := MkLlmRequest { lr_messages : list LlmMessage; lr_stream : bool }.

Record LlmCompletion := MkLlmCompletion { lc_text : string; lc_finish_reason : option string; lc_usage_json : option Value }.

Record PreparedGeneration := MkPrepared {
  pg_operation_id : string;
  pg_conversation_id : string;
  pg_turn_id : string;
  pg_next_sequence : Z;
  pg_character_name : string;
  pg_provider : ResolvedProvider;
  pg_messages : list LlmMessage;
  pg_revision_after_a : Z;
  pg_supersedes_message_id : option string;
}.

(** The ids and times one command makes. *)
Record Fresh := MkFresh {
  fr_operation : string;
  fr_conversation : string;
  fr_turn : string;
  fr_message : string;
  fr_reply : string;
  fr_now : string;
  fr_later : string;
}.

Definition revision_conflict : AppError :=
  conflict "CONVERSATION_REVISION_CONFLICT" "Conversation changed while the operation was running".

Definition require_workspace_access (actor : Actor) (conversation : Conversation) : AppResult unit :=
  if acc_is_system_admin (act_account actor) then Ok tt else
  let? workspace_id := require_workspace actor in
  if negb (workspace_id =?= cv_workspace_id conversation)
  then Err (forbidden "conversation is outside the current workspace") else Ok tt.

Definition check_expected (expected_revision : option Z) (conversation : Conversation) : AppResult unit :=
  match expected_revision with
  | Some expected => if negb (expected =?= cv_revision conversation) then Err revision_conflict else Ok tt
  | None => Ok tt
  end.

(** Where a command comes from, and its name for replays. *)
Record Origin := MkOrigin { og_channel : string; og_key : string; og_kind : string; og_client_turn_id : option string }.

Definition actor_id (a : Actor) : string := acc_id (act_account a).

Definition run_of (actor : Actor) (o : Origin) (client_turn_id : string) (d : ChatDB) : option GenerationRow :=
  snd <$> list_find (λ r, gr_actor_id r = actor_id actor ∧ gr_channel r = og_channel o ∧ gr_external_context_key r = og_key o
    ∧ gr_operation_kind r = og_kind o ∧ gr_client_turn_id r = Some client_turn_id) (generation_runs d).
Definition result_of (actor : Actor) (o : Origin) (client_turn_id : string) (d : ChatDB) : option CommandRow :=
  snd <$> list_find (λ r, cc_actor_id r = actor_id actor ∧ cc_channel r = og_channel o ∧ cc_external_context_key r = og_key o
    ∧ cc_operation_kind r = og_kind o ∧ cc_client_turn_id r = client_turn_id) (command_results d).

Section Engine.
Context (from_slice : string -> result Value string) (value_to_string : Value -> string) (f64_value : F64 -> Value).
Context (vault : option (string -> AppResult string)) (from_utf8_lossy : string -> string).
Context (stream_chat : ResolvedProvider -> LlmRequest -> AppResult LlmCompletion).
Context (emit : ProgressEvent -> AppResult unit).

(** [reply_text] of a stored result. *)
Definition stored_reply (text : string) : option string :=
  value_of from_slice text ≫= λ v, value_get v "reply_text" ≫= value_as_str.

(** ** Replays *)

Definition replay_or_start (actor : Actor) (o : Origin) (d : ChatDB) : AppResult (option ChatOutcome) :=
  match og_client_turn_id o with
  | None => Ok None
  | Some client_turn_id =>
      match run_of actor o client_turn_id d with
      | None => Ok None
      | Some existing =>
          match default GenFailed (GenerationStatus_parse (gr_status existing)) with
          | GenCompleted =>
              let? conversation := get_conversation (gr_conversation_id existing) d in
              Ok (Some (MkChatOutcome (gr_id existing) (Some conversation) (gr_result_json existing ≫= stored_reply)
                          (cv_revision conversation) "completed" false))
          | GenStarted | GenStreaming =>
              Ok (Some (MkChatOutcome (gr_id existing) (load_conversation (gr_conversation_id existing) d) None 0 "in_progress" true))
          | GenFailed | GenInterrupted =>
              Err (conflict "OPERATION_RETRY_REQUIRED" "previous operation failed; use RetryGeneration")
          end
      end
  end.

Definition replay_channel_command (actor : Actor) (o : Origin) (d : ChatDB) : AppResult (option ChatOutcome) :=
  match og_client_turn_id o with
  | None => Ok None
  | Some client_turn_id =>
      match result_of actor o client_turn_id d with
      | None => Ok None
      | Some row =>
          let? conversation := get_conversation (cc_conversation_id row) d in
          let? _ := require_workspace_access actor conversation in
          let result := default (JObject []) (value_of from_slice (cc_result_json row)) in
          Ok (Some (MkChatOutcome (cc_operation_id row) (Some conversation) (value_get result "reply_text" ≫= value_as_str)
                      (cc_revision row) "completed" false))
      end
  end.

(** ** Channel contexts *)

Definition context_key (actor : Actor) (channel key : string) : string * string * string := (actor_id actor, channel, key).

Definition persist_channel_context (actor : Actor) (channel key : string) (conversation : Conversation) : Stm ChatDB unit :=
  statement (λ d,
    let k := context_key actor channel key in
    let old := channel_rows d !! k in
    put_context k (MkContextRow (Some (cv_workspace_id conversation)) (Some (cv_character_id conversation)) (Some (cv_id conversation))
                     (old ≫= cx_chat_model_preset_id) (old ≫= cx_compression_model_preset_id)) d).

Definition select_character_context (actor : Actor) (character_id channel key : string) : Stm ChatDB unit :=
  run! workspace_id := slift (require_workspace actor) in
  run! character := sget (λ d, get_character character_id (cd_chars d)) in
  run! character := slift (ok_or character (not_found "CHARACTER_NOT_FOUND" "character not found")) in
  if negb (ch_workspace_id character =?= workspace_id) then serr (forbidden "character is outside the current workspace") else
  statement (λ d,
    let k := context_key actor channel key in
    let old := channel_rows d !! k in
    put_context k (MkContextRow (Some workspace_id) (Some character_id) None (old ≫= cx_chat_model_preset_id)
                     (old ≫= cx_compression_model_preset_id)) d).

Definition channel_model (actor : Actor) (channel key purpose : string) (d : ChatDB) : option string :=
  let row := channel_rows d !! context_key actor channel key in
  if purpose =?= "compression" then row ≫= cx_compression_model_preset_id else row ≫= cx_chat_model_preset_id.

Definition set_channel_model (actor : Actor) (channel key purpose : string) (model_preset_id : option string) : Stm ChatDB unit :=
  run! workspace_id := slift (require_workspace actor) in
  if negb (purpose_ok purpose) then serr (bad_request "MODEL_PURPOSE_INVALID" "purpose must be chat or compression") else
  run! _ := match model_preset_id with
            | None => sret tt
            | Some preset_id =>
                run! preset := sget (λ d, get_preset preset_id (cd_models d)) in
                run! preset := slift (ok_or preset (not_found "MODEL_PRESET_NOT_FOUND" "model preset not found")) in
                if negb (pr_workspace_id preset =?= workspace_id) && negb (acc_is_system_admin (act_account actor))
                then serr (forbidden "model preset is outside the current workspace") else
                if negb (pr_purpose preset =?= purpose)
                then serr (bad_request "MODEL_PURPOSE_MISMATCH" "model preset purpose does not match") else sret tt
            end in
  statement (λ d,
    let k := context_key actor channel key in
    let chat := if purpose =?= "chat" then model_preset_id else None in
    let compression := if purpose =?= "compression" then model_preset_id else None in
    put_context k (match channel_rows d !! k with
                   | None => MkContextRow (Some workspace_id) None None chat compression
                   | Some old => MkContextRow (Some workspace_id) (cx_character_id old) (cx_conversation_id old)
                       (if purpose =?= "chat" then chat else cx_chat_model_preset_id old)
                       (if purpose =?= "compression" then compression else cx_compression_model_preset_id old)
                   end) d).

(** ** A new conversation *)

Definition opening_of (card : NormalizedCardFields) (user_name : string) : string :=
  let source := if is_blank (nc_first_mes card) then "你好，我是" +:+ nc_name card +:+ "。我们开始新的故事吧。" else nc_first_mes card in
  substitute_placeholders source (nc_name card) user_name.

Definition message_metadata (name now : string) : string :=
  value_to_string (JObject [("name", JString name); ("send_date", JString now)]).

Definition write_opening (f : Fresh) (actor : Actor) (workspace_id character_id name opening : string) (o : Origin) : Stm ChatDB unit :=
  let conversation := MkConversation (fr_conversation f) workspace_id character_id None name "legacy_bridge_v1" 1 None false None in
  transaction (
    run! _ := statement (insert_conversation (MkConversationRow conversation (fr_now f))) in
    run! _ := statement (insert_turn (MkTurnRow (fr_turn f) (fr_conversation f) 1 "complete" (actor_id actor) (Some (fr_message f)))) in
    run! _ := statement (insert_message (MkMessageRow (fr_message f) (fr_conversation f) (Some (fr_turn f)) 1 "assistant" opening None
                           "active" None (message_metadata name (fr_now f)) None)) in
    match og_client_turn_id o with
    | Some client_turn_id =>
        statement (insert_result (MkCommandRow (fr_operation f) (actor_id actor) (og_channel o) (og_key o) (og_kind o) client_turn_id
          (fr_conversation f) 1 (value_to_string (JObject [("reply_text", JString opening)]))))
    | None => sret tt
    end).

Definition start_conversation (f : Fresh) (actor : Actor) (character_id channel key : string) (client_turn_id : option string)
  : Stm ChatDB ChatOutcome :=
  let o := MkOrigin channel key "start_conversation" client_turn_id in
  run! replay := sget (replay_channel_command actor o) in
  run! replay := slift replay in
  match replay with
  | Some replay =>
      run! _ := match co_conversation replay with
                | Some conversation => persist_channel_context actor channel key conversation | None => sret tt end in
      sret replay
  | None =>
      run! workspace_id := slift (require_workspace actor) in
      run! character := sget (λ d, get_character character_id (cd_chars d)) in
      run! character := slift (ok_or character (not_found "CHARACTER_NOT_FOUND" "character not found")) in
      if negb (ch_workspace_id character =?= workspace_id) && negb (acc_is_system_admin (act_account actor))
      then serr (forbidden "character is outside the current workspace") else
      run! revision := sget (λ d, current_revision from_slice character_id (cd_chars d)) in
      run! revision := slift revision in
      run! settings := on_models (workspace_settings (fr_now f) workspace_id) in
      let opening := opening_of (cr_normalized revision) (wset_prompt_user_name settings) in
      run! _ := write_opening f actor workspace_id character_id (nc_name (cr_normalized revision)) opening o in
      run! conversation := sget (get_conversation (fr_conversation f)) in
      run! conversation := slift conversation in
      run! _ := persist_channel_context actor channel key conversation in
      sret (MkChatOutcome (fr_operation f) (Some conversation) (Some opening) (cv_revision conversation) "completed" false)
  end.

(** ** The first transaction of a generation *)

Definition hydrate (provider : ResolvedProvider) (d : ChatDB) : AppResult ResolvedProvider :=
  match vault with
  | Some vault_get =>
      hydrate_secrets vault_get from_utf8_lossy
        (λ bytes, match from_slice bytes with Ok (JObject m) => Some m | _ => None end) provider (cd_models d)
  | None => Ok provider
  end.

(** The last assistant message is taken out of the history: [rposition] and [remove]. *)
Fixpoint remove_last_reply (history : list Message) : option (Message * list Message) :=
  match history with
  | [] => None
  | m :: rest =>
      match remove_last_reply rest with
      | Some (x, rest) => Some (x, m :: rest)
      | None => if mg_role m =?= RoleAssistant then Some (m, rest) else None
      end
  end.

Definition provider_snapshot (p : ResolvedProvider) : string :=
  value_to_string (JObject [("provider_id", JString (rp_id p)); ("model", JString (rp_model p)); ("temperature", f64_value (rp_temperature p));
    ("top_p", f64_value (rp_top_p p)); ("max_tokens", JNumber (pretty (rp_max_tokens p)))]).

(** What the transaction writes; the sequence number left for the reply. *)
Definition write_pending (f : Fresh) (actor : Actor) (conversation : Conversation) (user_text : option string) (user_name : string)
    (o : Origin) (revision_id : string) (provider : ResolvedProvider) (supersedes : option string) : Stm ChatDB Z :=
  transaction (
    run! _ := match supersedes with
              | Some message_id => sput (set_messages (flip_message message_id "active" "superseded")) | None => sret tt end in
    run! ordinal := sget (next_ordinal (cv_id conversation)) in
    run! sequence := sget (next_sequence (cv_id conversation)) in
    run! _ := statement (insert_turn (MkTurnRow (fr_turn f) (cv_id conversation) ordinal "pending" (actor_id actor) None)) in
    run! sequence := match user_text with
      | Some text =>
          run! _ := statement (insert_message (MkMessageRow (fr_message f) (cv_id conversation) (Some (fr_turn f)) sequence "user" text
                                 None "active" None (message_metadata user_name (fr_now f)) None)) in
          sret (sequence + 1)%Z
      | None => sret sequence
      end in
    run! _ := statement (insert_run (MkGenerationRow (fr_operation f) (cv_id conversation) (Some (fr_turn f)) (actor_id actor)
      (og_channel o) (og_key o) (og_kind o) (og_client_turn_id o) "started" (Some revision_id) (provider_snapshot provider)
      None None None None)) in
    run! _ := sput (set_revision (fr_now f) (cv_revision conversation + 1) (cv_id conversation)) in
    sret sequence).

Definition prepare_generation (f : Fresh) (actor : Actor) (conversation : Conversation) (text : option string) (o : Origin)
    (model_preset_id : option string) (include_user : bool) : Stm ChatDB PreparedGeneration :=
  run! settings := on_models (workspace_settings (fr_now f) (cv_workspace_id conversation)) in
  run! revision := sget (λ d, match cv_pinned_character_revision_id conversation with
                              | Some pinned => get_revision from_slice pinned (cd_chars d)
                              | None => current_revision from_slice (cv_character_id conversation) (cd_chars d)
                              end) in
  run! revision := slift revision in
  run! provider := on_models (resolve_provider (fr_now f) (cv_workspace_id conversation)
    (match model_preset_id with Some id => Some id | None => cv_default_model_preset_id conversation end) "chat") in
  run! provider := sget (hydrate provider) in
  run! provider := slift provider in
  run! history := sget (load_active_messages from_slice (cv_id conversation)) in
  let '(supersedes, history) :=
    if og_kind o =?= "regenerate" then
      match remove_last_reply history with Some (m, rest) => (Some (mg_id m), rest) | None => (None, history) end
    else (None, history) in
  let user_name := wset_prompt_user_name settings in
  let prompt := to_openai_messages (build_system_prompt (cr_normalized revision) user_name) (select_recent_messages history)
                  user_name (if include_user then text else None) in
  run! sequence := write_pending f actor conversation (if include_user then Some (default "" text) else None) user_name o
                     (cr_id revision) provider supersedes in
  sret (MkPrepared (fr_operation f) (cv_id conversation) (fr_turn f) sequence (nc_name (cr_normalized revision)) provider prompt
          (cv_revision conversation + 1) supersedes).

(** ** The second transaction *)

Definition write_outcome (f : Fresh) (prepared : PreparedGeneration) (reply : string) (status : GenerationStatus)
    (error : option string) : Stm ChatDB unit :=
  transaction (
    run! current := sget (load_conversation (pg_conversation_id prepared)) in
    run! current := slift (ok_or current database_error) in
    if negb (cv_revision current =?= pg_revision_after_a prepared) then serr revision_conflict else
    run! _ := if status =?= GenCompleted then
                run! _ := statement (insert_message (MkMessageRow (fr_reply f) (pg_conversation_id prepared) (Some (pg_turn_id prepared))
                  (pg_next_sequence prepared) "assistant" reply None "active" (pg_supersedes_message_id prepared)
                  (message_metadata (pg_character_name prepared) (fr_later f)) None)) in
                sput (set_turns (set_turn (pg_turn_id prepared) "complete" (Some (fr_reply f))))
              else
                run! _ := sput (set_turns (set_turn (pg_turn_id prepared) "failed" None)) in
                match pg_supersedes_message_id prepared with
                | Some message_id => sput (set_messages (flip_message message_id "superseded" "active"))
                | None => sret tt
                end in
    run! _ := sput (set_runs (finish_run (pg_operation_id prepared) (GenerationStatus_as_str status) error
      (value_to_string (JObject [("reply_text", JString reply); ("assistant_message_id", JString (fr_reply f))])))) in
    sput (set_revision (fr_later f) (pg_revision_after_a prepared + 1) (pg_conversation_id prepared))).

Definition complete_generation (f : Fresh) (prepared : PreparedGeneration) (reply : string) (status : GenerationStatus)
    (error : option string) : Stm ChatDB ChatOutcome :=
  run! _ := write_outcome f prepared reply status error in
  run! _ := slift (if status =?= GenCompleted then emit (PDone reply (pg_revision_after_a prepared + 1))
                   else match error with Some message => emit (PError message) | None => Ok tt end) in
  run! conversation := sget (get_conversation (pg_conversation_id prepared)) in
  run! conversation := slift conversation in
  sret (MkChatOutcome (pg_operation_id prepared) (Some conversation) (if status =?= GenCompleted then Some reply else None)
          (cv_revision conversation) (GenerationStatus_as_str status) false).

(** ** Sending, regenerating and retrying *)

(** Under the lock of the conversation: the checks and the first transaction. *)
Definition send_begin (f : Fresh) (actor : Actor) (conversation_id : string) (text : option string) (o : Origin)
    (expected_revision : option Z) (model_preset_id : option string) : Stm ChatDB PreparedGeneration :=
  run! conversation := sget (get_conversation conversation_id) in
  run! conversation := slift conversation in
  run! _ := slift (require_workspace_access actor conversation) in
  run! _ := slift (check_expected expected_revision conversation) in
  let include_user := bool_decide (is_Some text) && negb (og_kind o =?= "retry") in
  run! resolved := sget (λ d, match model_preset_id with
                              | Some id => Some id | None => channel_model actor (og_channel o) (og_key o) "chat" d end) in
  prepare_generation f actor conversation text o resolved include_user.

(** What follows it, still under the lock. *)
Definition send_end (f : Fresh) (prepared : PreparedGeneration) : Stm ChatDB ChatOutcome :=
  run! _ := slift (emit (PStarted (pg_operation_id prepared) (pg_conversation_id prepared) (pg_revision_after_a prepared))) in
  match stream_chat (pg_provider prepared) (MkLlmRequest (pg_messages prepared) true) with
  | Ok completion =>
      complete_generation f prepared (normalize_assistant_reply (pg_character_name prepared) (lc_text completion)) GenCompleted None
  | Err err =>
      λ d, ((complete_generation f prepared "" GenFailed (Some (a_message err)) d).1, Err err)
  end.

Definition send_or_regenerate (f : Fresh) (actor : Actor) (conversation_id : string) (text : option string) (o : Origin)
    (expected_revision : option Z) (model_preset_id : option string) : Stm ChatDB ChatOutcome :=
  run! replay := sget (replay_or_start actor o) in
  run! replay := slift replay in
  match replay with
  | Some replay => sret replay
  | None =>
      run! prepared := send_begin f actor conversation_id text o expected_revision model_preset_id in
      send_end f prepared
  end.

(** ** Taking back the last turn *)

Definition write_undo (f : Fresh) (actor : Actor) (conversation : Conversation) (turn_id : string) (o : Origin) : Stm ChatDB unit :=
  transaction (
    run! _ := sput (set_turns (set_turn turn_id "revoked" None)) in
    run! _ := sput (set_messages (revoke_messages turn_id)) in
    run! _ := sput (bump_revision (fr_now f) (cv_id conversation)) in
    match og_client_turn_id o with
    | Some client_turn_id =>
        statement (insert_result (MkCommandRow (fr_operation f) (actor_id actor) (og_channel o) (og_key o) (og_kind o) client_turn_id
          (cv_id conversation) (cv_revision conversation + 1) "{}"))
    | None => sret tt
    end).

Definition undo (f : Fresh) (actor : Actor) (conversation_id channel key : string) (client_turn_id : option string)
    (expected_revision : option Z) : Stm ChatDB ChatOutcome :=
  let o := MkOrigin channel key "undo_last_turn" client_turn_id in
  run! replay := sget (replay_channel_command actor o) in
  run! replay := slift replay in
  match replay with
  | Some replay => sret replay
  | None =>
      run! conversation := sget (get_conversation conversation_id) in
      run! conversation := slift conversation in
      run! _ := slift (require_workspace_access actor conversation) in
      run! _ := slift (check_expected expected_revision conversation) in
      run! turn_id := sget (last_undoable_turn conversation_id) in
      run! turn_id := slift turn_id in
      run! _ := write_undo f actor conversation turn_id o in
      run! conversation := sget (get_conversation conversation_id) in
      run! conversation := slift conversation in
      sret (MkChatOutcome (fr_operation f) (Some conversation) None (cv_revision conversation) "completed" false)
  end.

(** ** Compression *)

Definition i64_max : Z := 2 ^ 63 - 1.

(** The sequence number from which messages are kept as they are. *)
Definition keep_from (keep_recent : nat) (messages : list Message) : Z :=
  if (keep_recent =? 0)%nat then i64_max else
  default i64_max (mg_sequence <$> last (take keep_recent (filter (λ m, mg_role m ≠ RoleSystem) (rev messages)))).

Definition compression_targets (keep_recent : nat) (messages : list Message) : list Message :=
  filter (λ m, (mg_sequence m < keep_from keep_recent messages)%Z ∧ mg_role m = RoleAssistant ∧ mg_prompt_content m = None
    ∧ is_digest (mg_content_original m) = false) messages.

Definition compression_payload (title : string) (messages : list Message) (m : Message) : string :=
  let prev := snd <$> list_find (λ c, (mg_sequence c < mg_sequence m)%Z ∧ mg_role c = RoleUser) (rev messages) in
  match prev with
  | Some prev =>
      "角色名：" +:+ title +:+ nl_str +:+ "（仅供参考的上文用户消息）：" +:+ chars_take 800 (mg_content_original prev)
      +:+ nl_str +:+ nl_str +:+ "需要压缩的 AI 回复原文：" +:+ nl_str +:+ mg_content_original m
  | None => "角色名：" +:+ title +:+ nl_str +:+ nl_str +:+ "需要压缩的 AI 回复原文：" +:+ nl_str +:+ mg_content_original m
  end.

Definition compression_request (payload : string) : LlmRequest :=
  MkLlmRequest [MkLlmMessage "system" COMPRESSION_SYSTEM_PROMPT None; MkLlmMessage "user" payload None] false.

Definition u32_of (n : nat) : Z := (Z.of_nat n mod 2 ^ 32)%Z.

Fixpoint compress_loop (provider : ResolvedProvider) (title : string) (messages : list Message) (total : nat) (index : nat)
    (targets : list Message) : Stm ChatDB unit :=
  match targets with
  | [] => sret tt
  | m :: rest =>
      run! result := slift (stream_chat provider (compression_request (compression_payload title messages m))) in
      let sanitized := sanitize_compression (lc_text result) in
      run! _ := (if negb (sanitized =?= "") && (String.length sanitized <? String.length (mg_content_original m))%nat
                 then sput (set_messages (set_prompt_content (mg_id m) sanitized)) else sret tt) in
      run! _ := slift (emit (PProgress (u32_of (index + 1)) (u32_of total))) in
      compress_loop provider title messages total (index + 1) rest
  end.

Definition compress (f : Fresh) (actor : Actor) (conversation_id : string) (keep_recent : nat) (model_preset_id : option string)
  : Stm ChatDB ChatOutcome :=
  run! conversation := sget (get_conversation conversation_id) in
  run! conversation := slift conversation in
  run! _ := slift (require_workspace_access actor conversation) in
  run! messages := sget (load_active_messages from_slice conversation_id) in
  let targets := compression_targets keep_recent messages in
  run! _ := slift (emit (PProgress 0 (u32_of (length targets)))) in
  match targets with
  | [] => sret (MkChatOutcome (fr_operation f) (Some conversation) None (cv_revision conversation) "completed" false)
  | _ =>
      run! provider := on_models (resolve_provider (fr_now f) (cv_workspace_id conversation) model_preset_id "compression") in
      run! provider := sget (hydrate provider) in
      run! provider := slift provider in
      run! _ := compress_loop provider (cv_title conversation) messages (length targets) 0 targets in
      run! _ := sput (bump_revision (fr_later f) conversation_id) in
      run! _ := statement (insert_compression (MkCompressionRow (fr_turn f) conversation_id
        (value_to_string (JObject [("model", JString (rp_model provider))]))
        (value_to_string (JArray ((λ m, JString (mg_id m)) <$> targets))) "completed")) in
      run! conversation := sget (get_conversation conversation_id) in
      run! conversation := slift conversation in
      sret (MkChatOutcome (fr_operation f) (Some conversation) None (cv_revision conversation) "completed" false)
  end.

(** ** Commands *)

Definition retryable (s : GenerationStatus) : bool := match s with GenFailed | GenInterrupted => true | _ => false end.

(** The last message of the user is named, and since the kind is a retry it is not sent again. *)
Definition retry_generation (f : Fresh) (actor : Actor) (conversation_id operation_id channel key : string) (client_turn_id : option string)
  : Stm ChatDB ChatOutcome :=
  run! run := sget (load_generation from_slice operation_id) in
  run! run := slift (ok_or run (not_found "OPERATION_NOT_FOUND" "operation not found")) in
  if negb (gn_conversation_id run =?= conversation_id)
  then serr (bad_request "OPERATION_MISMATCH" "operation does not belong to conversation") else
  if negb (retryable (gn_status run)) then serr (conflict "OPERATION_NOT_RETRYABLE" "operation is not retryable") else
  run! last_user := sget (last_active_user from_slice conversation_id) in
  send_or_regenerate f actor conversation_id (mg_content_original <$> last_user) (MkOrigin channel key "retry" client_turn_id) None None.

Definition chat_execute (f : Fresh) (actor : Actor) (command : ChatCommand) : Stm ChatDB ChatOutcome :=
  match command with
  | StartConversation character_id channel key client_turn_id => start_conversation f actor character_id channel key client_turn_id
  | SelectCharacter character_id channel key =>
      run! _ := select_character_context actor character_id channel key in
      sret (MkChatOutcome (fr_operation f) None None 0 "completed" false)
  | SelectConversation conversation_id channel key =>
      run! conversation := sget (get_conversation conversation_id) in
      run! conversation := slift conversation in
      run! _ := slift (require_workspace_access actor conversation) in
      run! _ := persist_channel_context actor channel key conversation in
      sret (MkChatOutcome (fr_operation f) (Some conversation) None (cv_revision conversation) "completed" false)
  | SendMessage conversation_id text channel key client_turn_id expected_revision model_preset_id =>
      if is_blank text then serr (bad_request "EMPTY_MESSAGE" "message text is required") else
      send_or_regenerate f actor conversation_id (Some text) (MkOrigin channel key "send" client_turn_id) expected_revision model_preset_id
  | UndoLastTurn conversation_id channel key client_turn_id expected_revision =>
      undo f actor conversation_id channel key client_turn_id expected_revision
  | RegenerateReply conversation_id channel key client_turn_id expected_revision model_preset_id =>
      send_or_regenerate f actor conversation_id None (MkOrigin channel key "regenerate" client_turn_id) expected_revision model_preset_id
  | RetryGeneration conversation_id operation_id channel key client_turn_id =>
      retry_generation f actor conversation_id operation_id channel key client_turn_id
  | CompressHistory conversation_id channel key _ keep_recent model_preset_id =>
      run! preset := sget (λ d, match model_preset_id with
                                | Some id => Some id | None => channel_model actor channel key "compression" d end) in
      compress f actor conversation_id keep_recent preset
  | SetChannelModel channel key purpose model_preset_id =>
      run! _ := set_channel_model actor channel key purpose model_preset_id in
      sret (MkChatOutcome (fr_operation f) None None 0 "completed" false)
  end.

(** ** Queries *)

Definition empty_view : ChatView := MkChatView [] None None None None None None.
Definition newer_conversation (a b : ConversationRow) : bool := text_le (cw_updated_at b) (cw_updated_at a).

Definition chat_query (actor : Actor) (q : ChatQuery) (d : ChatDB) : AppResult ChatView :=
  match q with
  | ListConversations workspace_id =>
      let? workspace_id := ok_or (match workspace_id with Some w => Some w | None => act_workspace_id actor end)
                             (bad_request "WORKSPACE_REQUIRED" "workspace is required") in
      let rows := sort_by newer_conversation (filter (λ r, cv_workspace_id (cw_conversation r) = workspace_id
                    ∧ cv_archived (cw_conversation r) = false) (snd <$> map_to_list (conversations d))) in
      Ok (MkChatView (cw_conversation <$> rows) None None None None None None)
  | GetConversation conversation_id =>
      let? conversation := get_conversation conversation_id d in
      let? _ := require_workspace_access actor conversation in
      Ok (MkChatView [conversation] (Some conversation) None None None None None)
  | GetHistory conversation_id known_revision =>
      let? conversation := get_conversation conversation_id d in
      let? _ := require_workspace_access actor conversation in
      let items := history_items (load_active_messages from_slice conversation_id d) in
      let mode := if known_revision =?= Some (cv_revision conversation) then "unchanged" else "full" in
      Ok (MkChatView [conversation] (Some conversation)
            (Some (MkHistoryView conversation_id (cv_revision conversation) mode (if mode =?= "unchanged" then [] else items)))
            None None None None)
  | GetChannelContext channel key =>
      match channel_rows d !! context_key actor channel key with
      | Some row =>
          let conversation := cx_conversation_id row ≫= λ id, load_conversation id d in
          Ok (MkChatView (option_list conversation) conversation None None (cx_character_id row) (cx_chat_model_preset_id row)
                (cx_compression_model_preset_id row))
      | None => Ok empty_view
      end
  | GetOperation operation_id => Ok (MkChatView [] None None (load_generation from_slice operation_id d) None None None)
  end.
End Engine.
