(* ===== verification/ChatSteps.v ===== *)
(** * What the commands of the chat engine do to its tables

    The invariant of the tables, the transactions as changes of them, and the system
    of the generations that run at the same time: one per conversation, since the
    lock of a conversation is held from the first transaction to the second. *)

From S2P Require Import Prelude Text Errors StDomain Engine Prompt CardPng Models Characters Stateful Chat ChatEngine.
From Stdlib Require Import Lia.

(** ** Rows of one conversation *)

Definition of_conv (c : string) : list MessageRow -> list MessageRow := filter (λ m, ms_conversation_id m = c).
Definition of_conv_turns (c : string) : list TurnRow -> list TurnRow := filter (λ t, tn_conversation_id t = c).
Definition is_shown (m : MessageRow) : Prop := ms_status m = "active".
#[export] Instance is_shown_dec m : Decision (is_shown m).
Proof. unfold is_shown. apply _. Defined.

Definition seq_lt (a b : MessageRow) : Prop := (ms_sequence a < ms_sequence b)%Z.
Definition ord_lt (a b : TurnRow) : Prop := (tn_ordinal a < tn_ordinal b)%Z.

(** The keys of the tables, the rows of a conversation in the order of their numbers, and the turns of messages. *)
Record chat_ok (d : ChatDB) : Prop := {
  ok_key : forall c row, conversations d !! c = Some row -> cv_id (cw_conversation row) = c;
  ok_ids : NoDup (ms_id <$> messages d);
  ok_turn_ids : NoDup (tn_id <$> turns d);
  ok_seq : forall c, StronglySorted seq_lt (of_conv c (messages d));
  ok_ord : forall c, StronglySorted ord_lt (of_conv_turns c (turns d));
  ok_turn : forall m t, m ∈ messages d -> ms_turn_id m = Some t ->
    exists x, x ∈ turns d /\ tn_id x = t /\ tn_conversation_id x = ms_conversation_id m;
  ok_message_conv : forall m, m ∈ messages d -> is_Some (conversations d !! ms_conversation_id m);
  ok_turn_conv : forall t, t ∈ turns d -> is_Some (conversations d !! tn_conversation_id t);
}.

(** ** Lists *)

Lemma filter_map_same {A} (P : A -> Prop) `{forall x, Decision (P x)} (g : A -> A) (l : list A) :
  (forall x, P (g x) <-> P x) -> filter P (g <$> l) = g <$> filter P l.
Proof.
  intros Hg. induction l as [|x l IH]; [done|]. cbn [fmap list_fmap]. rewrite !filter_cons.
  specialize (Hg x). destruct (decide (P (g x))), (decide (P x)); try tauto. cbn [fmap list_fmap]. by rewrite IH.
Qed.

Lemma map_id_on {A} (g : A -> A) (l : list A) : (forall x, x ∈ l -> g x = x) -> g <$> l = l.
Proof.
  induction l as [|x l IH]; intros Hg; [done|]. cbn [fmap list_fmap]. rewrite Hg by set_solver. f_equal.
  apply IH. set_solver.
Qed.

Lemma sorted_map {A} (R : A -> A -> Prop) (g : A -> A) (l : list A) :
  (forall x y, R x y -> R (g x) (g y)) -> StronglySorted R l -> StronglySorted R (g <$> l).
Proof.
  intros Hg. induction 1 as [|x l Hl IH Hx]; [constructor|]. cbn [fmap list_fmap]. constructor; [done|].
  apply Forall_fmap. eapply Forall_impl; [exact Hx|]. intros y. apply Hg.
Qed.

Lemma sorted_snoc {A} (R : A -> A -> Prop) l x : StronglySorted R l -> Forall (λ y, R y x) l -> StronglySorted R (l ++ [x]).
Proof.
  induction 1 as [|y l Hl IH Hy]; simpl; intros Hx; [by repeat constructor|].
  apply Forall_cons in Hx as [H1 H2]. constructor; [by apply IH|]. apply Forall_app. split; [done|]. by constructor.
Qed.

Lemma sort_by_id {A} (leb : A -> A -> bool) l : StronglySorted (λ a b, leb a b = true) l -> sort_by leb l = l.
Proof.
  induction 1 as [|x l Hl IH Hx]; [done|]. simpl. rewrite IH. destruct l as [|y l]; [done|].
  simpl. apply Forall_cons in Hx as [-> _]. done.
Qed.

Lemma sorted_filter {A} (R : A -> A -> Prop) (P : A -> Prop) `{forall x, Decision (P x)} (l : list A) :
  StronglySorted R l -> StronglySorted R (filter P l).
Proof.
  induction 1 as [|x l Hl IH Hx]; [constructor|]. rewrite filter_cons. destruct (decide (P x)); [|done].
  constructor; [done|]. apply Forall_forall. intros y [_ Hy]%list_elem_of_filter. rewrite Forall_forall in Hx. auto.
Qed.

Lemma sorted_impl {A} (R S : A -> A -> Prop) l : (forall x y, R x y -> S x y) -> StronglySorted R l -> StronglySorted S l.
Proof.
  intros HRS. induction 1 as [|x l Hl IH Hx]; constructor; [done|]. eapply Forall_impl; eauto.
Qed.

Lemma filter_split {A} (R P Q : A -> Prop) `{forall x, Decision (R x)} `{forall x, Decision (P x)} `{forall x, Decision (Q x)} (l : list A) :
  (forall x, R x <-> P x /\ Q x) -> filter R l = filter Q (filter P l).
Proof.
  intros HR. induction l as [|x l IH]; [done|]. rewrite (filter_cons R), (filter_cons P). specialize (HR x).
  destruct (decide (P x)); [rewrite (filter_cons Q); destruct (decide (Q x))|]; destruct (decide (R x)); rewrite ?IH; tauto.
Qed.

Lemma next_after_gt l x : x ∈ l -> (x < next_after l)%Z.
Proof.
  unfold next_after. destruct l as [|y l]; [by intros ?%not_elem_of_nil|].
  assert (forall z k, (z <= foldr Z.max z k /\ Forall (λ w, w <= foldr Z.max z k) k)%Z) as Hmax.
  { intros z k. induction k as [|w k [IH1 IH2]]; simpl; [split; [lia|constructor]|]. split; [lia|].
    constructor; [lia|]. eapply Forall_impl; [exact IH2|]. simpl. lia. }
  destruct (Hmax y l) as [H1 H2]. rewrite elem_of_cons. intros [->|Hx]; [lia|].
  rewrite Forall_forall in H2. apply H2 in Hx. lia.
Qed.

(** ** The history of a conversation, given the invariant *)

Lemma active_rows_ok c d : chat_ok d -> active_rows c d = filter is_shown (of_conv c (messages d)).
Proof.
  intros Hok. unfold active_rows. rewrite (filter_split _ (λ m, ms_conversation_id m = c) is_shown) by done.
  apply sort_by_id. eapply sorted_impl; [|apply sorted_filter; by apply ok_seq].
  intros x y. unfold seq_lt, sequence_le. intros. apply Z.leb_le. lia.
Qed.

Lemma next_sequence_gt c d m : m ∈ of_conv c (messages d) -> (ms_sequence m < next_sequence c d)%Z.
Proof. intros Hm. apply next_after_gt. by apply list_elem_of_fmap_2. Qed.

Lemma next_ordinal_gt c d t : t ∈ of_conv_turns c (turns d) -> (tn_ordinal t < next_ordinal c d)%Z.
Proof. intros Hm. apply next_after_gt. by apply list_elem_of_fmap_2. Qed.

(** ** Changes that keep the invariant *)

(** A change of a message that leaves its keys alone. *)
Definition keeps (g : MessageRow -> MessageRow) : Prop :=
  forall m, ms_id (g m) = ms_id m /\ ms_conversation_id (g m) = ms_conversation_id m /\ ms_turn_id (g m) = ms_turn_id m
    /\ ms_sequence (g m) = ms_sequence m.
Definition keeps_turn (g : TurnRow -> TurnRow) : Prop :=
  forall t, tn_id (g t) = tn_id t /\ tn_conversation_id (g t) = tn_conversation_id t /\ tn_ordinal (g t) = tn_ordinal t.

Lemma of_conv_map c g l : keeps g -> of_conv c (g <$> l) = g <$> of_conv c l.
Proof. intros Hg. apply filter_map_same. intros x. by destruct (Hg x) as (_ & -> & _). Qed.

Lemma of_conv_turns_map c g l : keeps_turn g -> of_conv_turns c (g <$> l) = g <$> of_conv_turns c l.
Proof. intros Hg. apply filter_map_same. intros x. by destruct (Hg x) as (_ & -> & _). Qed.

Lemma map_messages_ok g d : keeps g -> chat_ok d -> chat_ok (set_messages (fmap g) d).
Proof.
  intros Hg [H1 H2 H3 H4 H5 H6 H7 H8]. split; simpl; try done.
  - rewrite <- list_fmap_compose. erewrite list_fmap_ext; [exact H2|]. intros i x _. simpl. apply Hg.
  - intros c. rewrite of_conv_map by done. apply sorted_map; [|apply H4]. intros x y. unfold seq_lt.
    destruct (Hg x) as (_ & _ & _ & ->), (Hg y) as (_ & _ & _ & ->). done.
  - intros m t Hm Ht. apply list_elem_of_fmap in Hm as (x & -> & Hx). destruct (Hg x) as (_ & Hc & Ht' & _).
    rewrite Hc. rewrite Ht' in Ht. eauto.
  - intros m Hm. apply list_elem_of_fmap in Hm as (x & -> & Hx). destruct (Hg x) as (_ & -> & _). auto.
Qed.

Lemma map_turns_ok g d : keeps_turn g -> chat_ok d -> chat_ok (set_turns (fmap g) d).
Proof.
  intros Hg [H1 H2 H3 H4 H5 H6 H7 H8]. split; simpl; try done.
  - rewrite <- list_fmap_compose. erewrite list_fmap_ext; [exact H3|]. intros i x _. simpl. apply Hg.
  - intros c. rewrite of_conv_turns_map by done. apply sorted_map; [|apply H5]. intros x y. unfold ord_lt.
    destruct (Hg x) as (_ & _ & ->), (Hg y) as (_ & _ & ->). done.
  - intros m t Hm Ht. destruct (H6 m t Hm Ht) as (x & Hx & Hid & Hc). exists (g x).
    destruct (Hg x) as (-> & -> & _). split; [by apply list_elem_of_fmap_2|done].
  - intros t Ht. apply list_elem_of_fmap in Ht as (x & -> & Hx). destruct (Hg x) as (_ & -> & _). auto.
Qed.

(** Databases with the same turns and messages, and no conversation less. *)
Lemma same_rows_ok d d' :
  (forall c row, conversations d' !! c = Some row -> cv_id (cw_conversation row) = c) ->
  (forall c, is_Some (conversations d !! c) -> is_Some (conversations d' !! c)) -> turns d' = turns d -> messages d' = messages d ->
  chat_ok d -> chat_ok d'.
Proof. intros Hc Hs Ht Hm [H1 H2 H3 H4 H5 H6 H7 H8]. split; rewrite ?Ht, ?Hm; auto. Qed.

(** A conversation changed in place. *)
Lemma alter_conversation_ok g c d d' :
  (forall row, cv_id (cw_conversation (g row)) = cv_id (cw_conversation row)) ->
  conversations d' = alter g c (conversations d) -> turns d' = turns d -> messages d' = messages d -> chat_ok d -> chat_ok d'.
Proof.
  intros Hg Hc Ht Hm Hok. apply (same_rows_ok d); try done; rewrite Hc.
  - intros c' row. rewrite lookup_alter_Some. intros [(<- & row0 & H0 & ->)|[_ H0]]; [rewrite Hg|]; by apply (ok_key _ Hok) in H0.
  - intros c' Hs. destruct (decide (c = c')) as [<-|Hne]; [rewrite lookup_alter_eq; by apply fmap_is_Some|by rewrite lookup_alter_ne].
Qed.

Lemma set_revision_ok now r c d : chat_ok d -> chat_ok (set_revision now r c d).
Proof. by apply (alter_conversation_ok (with_revision now r) c). Qed.

Lemma bump_revision_ok now c d : chat_ok d -> chat_ok (bump_revision now c d).
Proof. by apply (alter_conversation_ok (λ row, with_revision now (cv_revision (cw_conversation row) + 1) row) c). Qed.

Lemma add_turn_ok t d :
  chat_ok d -> is_Some (conversations d !! tn_conversation_id t) -> (forall x, x ∈ turns d -> tn_id x <> tn_id t) ->
  (forall x, x ∈ of_conv_turns (tn_conversation_id t) (turns d) -> (tn_ordinal x < tn_ordinal t)%Z) ->
  chat_ok (set_turns (λ l, l ++ [t]) d).
Proof.
  intros [H1 H2 H3 H4 H5 H6 H7 H8] Hcv Hid Hord. split; simpl; try done.
  - rewrite fmap_app. apply NoDup_app. split; [done|]. split; [|apply NoDup_singleton].
    intros x Hx Hin. apply list_elem_of_singleton in Hin as ->. apply list_elem_of_fmap in Hx as (y & Hy & Hin). by apply (Hid y).
  - intros c. unfold of_conv_turns. rewrite filter_app, filter_cons. destruct (decide (tn_conversation_id t = c)) as [<-|Hne].
    + apply sorted_snoc; [apply H5|]. apply Forall_forall. exact Hord.
    + rewrite app_nil_r. apply H5.
  - intros m u Hm Hu. destruct (H6 m u Hm Hu) as (x & Hx & ?). exists x. split; [set_solver|done].
  - intros x [Hx| ->%list_elem_of_singleton]%elem_of_app; auto.
Qed.

Lemma add_message_ok m d :
  chat_ok d -> is_Some (conversations d !! ms_conversation_id m) -> (forall x, x ∈ messages d -> ms_id x <> ms_id m) ->
  (forall x, x ∈ of_conv (ms_conversation_id m) (messages d) -> (ms_sequence x < ms_sequence m)%Z) ->
  (forall t, ms_turn_id m = Some t -> exists x, x ∈ turns d /\ tn_id x = t /\ tn_conversation_id x = ms_conversation_id m) ->
  chat_ok (set_messages (λ l, l ++ [m]) d).
Proof.
  intros [H1 H2 H3 H4 H5 H6 H7 H8] Hcv Hid Hseq Ht. split; simpl; try done.
  - rewrite fmap_app. apply NoDup_app. split; [done|]. split; [|apply NoDup_singleton].
    intros x Hx Hin. apply list_elem_of_singleton in Hin as ->. apply list_elem_of_fmap in Hx as (y & Hy & Hin). by apply (Hid y).
  - intros c. unfold of_conv. rewrite filter_app, filter_cons. destruct (decide (ms_conversation_id m = c)) as [<-|Hne].
    + apply sorted_snoc; [apply H4|]. apply Forall_forall. exact Hseq.
    + rewrite app_nil_r. apply H4.
  - intros x t [Hx| ->%list_elem_of_singleton]%elem_of_app Hxt; [eauto|]. by apply Ht.
  - intros x [Hx| ->%list_elem_of_singleton]%elem_of_app; auto.
Qed.

(** ** Statements *)

Lemma insert_turn_inv t d d' :
  insert_turn t d = Some d' ->
  d' = set_turns (λ l, l ++ [t]) d /\ (forall x, x ∈ turns d -> tn_id x <> tn_id t) /\ is_Some (conversations d !! tn_conversation_id t).
Proof.
  unfold insert_turn, turn_taken, has_conversation. case_bool_decide as Ht; [done|]. case_bool_decide as Hc; [|done].
  intros [= <-]. split; [done|]. split; [|done]. intros x Hx Hid. apply Ht, Exists_exists. eauto.
Qed.

Lemma insert_message_inv m d d' :
  insert_message m d = Some d' ->
  d' = set_messages (λ l, l ++ [m]) d /\ (forall x, x ∈ messages d -> ms_id x <> ms_id m).
Proof.
  unfold insert_message, message_taken. case_bool_decide as Ht; [done|]. destruct (_ || _); [done|].
  intros [= <-]. split; [done|]. intros x Hx Hid. apply Ht, Exists_exists. eauto.
Qed.

(** A message that is accepted. *)
Lemma insert_message_ok m d :
  (forall x, x ∈ messages d -> ms_id x <> ms_id m) ->
  (forall x, x ∈ of_conv (ms_conversation_id m) (messages d) -> (ms_sequence x < ms_sequence m)%Z) ->
  is_Some (conversations d !! ms_conversation_id m) -> has_turn (ms_turn_id m) d = true -> has_message (ms_supersedes_id m) d = true ->
  insert_message m d = Some (set_messages (λ l, l ++ [m]) d).
Proof.
  intros Hid Hseq Hc Ht Hm. unfold insert_message, message_taken, has_conversation. rewrite Ht, Hm.
  rewrite bool_decide_eq_false_2, bool_decide_eq_true_2; [done|done|]. intros (x & Hx & [H1|[H1 H2]])%Exists_exists.
  - by apply (Hid x).
  - apply (Z.lt_irrefl (ms_sequence m)). rewrite <- H2 at 1. apply Hseq. by apply list_elem_of_filter.
Qed.

Lemma insert_run_inv r d d' :
  insert_run r d = Some d' -> d' = set_runs (λ l, l ++ [r]) d /\ (forall x, x ∈ generation_runs d -> gr_id x <> gr_id r /\ ~ same_run_key x r).
Proof.
  unfold insert_run, run_taken. case_bool_decide as Ht; [done|]. destruct (_ || _); [done|].
  intros [= <-]. split; [done|]. intros x Hx. split; intros ?; apply Ht, Exists_exists; eauto.
Qed.

Lemma insert_result_inv r d d' : insert_result r d = Some d' -> d' = set_results (λ l, l ++ [r]) d.
Proof. unfold insert_result. destruct (_ || _); congruence. Qed.

(** The reply a regeneration puts aside, and puts back. *)
Definition supersede (s : option string) (from to : string) (l : list MessageRow) : list MessageRow :=
  match s with Some i => flip_message i from to l | None => l end.

Lemma flip_keeps i from to : keeps (λ m, if bool_decide (ms_id m = i ∧ ms_status m = from) then set_message_status to m else m).
Proof. intros m. by case_bool_decide. Qed.
Lemma revoke_keeps t : keeps (λ m, if bool_decide (ms_turn_id m = Some t ∧ ms_status m = "active") then set_message_status "revoked" m else m).
Proof. intros m. by case_bool_decide. Qed.
Lemma prompt_keeps i c :
  keeps (λ m, if ms_id m =?= i then MkMessageRow (ms_id m) (ms_conversation_id m) (ms_turn_id m) (ms_sequence m) (ms_role m)
                (ms_content_original m) (Some c) (ms_status m) (ms_supersedes_id m) (ms_metadata_json m) (ms_source_raw_json m) else m).
Proof. intros m. by case_bool_decide. Qed.
Lemma set_turn_keeps i s r :
  keeps_turn (λ t, if tn_id t =?= i then MkTurnRow (tn_id t) (tn_conversation_id t) (tn_ordinal t) s (tn_created_by t)
                     (match r with Some m => Some m | None => tn_active_assistant_message_id t end) else t).
Proof. intros t. by case_bool_decide. Qed.

Lemma of_conv_supersede c s from to l : of_conv c (supersede s from to l) = supersede s from to (of_conv c l).
Proof. destruct s; [|done]. apply of_conv_map, flip_keeps. Qed.

Lemma supersede_seqs s from to l : ms_sequence <$> supersede s from to l = ms_sequence <$> l.
Proof.
  destruct s as [i|]; [|done]. unfold supersede, flip_message. rewrite <- list_fmap_compose. apply list_fmap_ext.
  intros _ m _. simpl. by case_bool_decide.
Qed.

Lemma supersede_ids s from to l : ms_id <$> supersede s from to l = ms_id <$> l.
Proof.
  destruct s as [i|]; [|done]. unfold supersede, flip_message. rewrite <- list_fmap_compose. apply list_fmap_ext.
  intros _ m _. simpl. by case_bool_decide.
Qed.

Lemma fresh_ids (l : list MessageRow) id : (forall x, x ∈ l -> ms_id x <> id) <-> id ∉ ms_id <$> l.
Proof.
  split.
  - intros Hf (x & -> & Hx)%list_elem_of_fmap. by apply (Hf x).
  - intros Hn x Hx <-. by apply Hn, list_elem_of_fmap_2.
Qed.

Lemma supersede_messages_ok s from to d : chat_ok d -> chat_ok (set_messages (supersede s from to) d).
Proof.
  destruct s; [apply map_messages_ok, flip_keeps|]. intros Hok. apply (same_rows_ok d); [|done..]. apply (ok_key _ Hok).
Qed.

Lemma next_sequence_supersede c s from to d : next_sequence c (set_messages (supersede s from to) d) = next_sequence c d.
Proof.
  unfold next_sequence. simpl. fold (of_conv c (supersede s from to (messages d))). by rewrite of_conv_supersede, supersede_seqs.
Qed.

(** ** The transactions *)

Section Transactions.
Context (value_to_string : Value -> string) (f64_value : F64 -> Value).

(** What the user says, as a row. *)
Definition user_rows (f : Fresh) (c : string) (seq : Z) (name : string) (text : option string) : list MessageRow :=
  match text with
  | Some text => [MkMessageRow (fr_message f) c (Some (fr_turn f)) seq "user" text None "active" None
                    (message_metadata value_to_string name (fr_now f)) None]
  | None => []
  end.

(** The database after the first transaction. *)
Record begun (f : Fresh) (actor : Actor) (conv : Conversation) (o : Origin) (sup : option string) (user : list MessageRow)
    (d d' : ChatDB) : Prop := {
  bg_messages : messages d' = supersede sup "active" "superseded" (messages d) ++ user;
  bg_turns : turns d' = turns d ++ [MkTurnRow (fr_turn f) (cv_id conv) (next_ordinal (cv_id conv) d) "pending" (actor_id actor) None];
  bg_run : exists r, generation_runs d' = generation_runs d ++ [r] /\ gr_id r = fr_operation f /\ gr_actor_id r = actor_id actor
    /\ gr_channel r = og_channel o /\ gr_external_context_key r = og_key o /\ gr_operation_kind r = og_kind o
    /\ gr_client_turn_id r = og_client_turn_id o /\ gr_conversation_id r = cv_id conv
    /\ (forall x, x ∈ generation_runs d -> ~ same_run_key x r);
  bg_runs : forall x, x ∈ generation_runs d -> gr_id x <> fr_operation f;
  bg_conversations : conversations d' = alter (with_revision (fr_now f) (cv_revision conv + 1)) (cv_id conv) (conversations d);
  bg_results : command_results d' = command_results d;
  bg_conv : is_Some (conversations d !! cv_id conv);
  bg_new_turn : forall x, x ∈ turns d -> tn_id x <> fr_turn f;
  bg_new_user : forall u x, u ∈ user -> x ∈ messages d -> ms_id x <> ms_id u;
}.

Lemma write_pending_inv f actor conv text name o rid prov sup d d' seq :
  write_pending value_to_string f64_value f actor conv text name o rid prov sup d = (d', Ok seq) ->
  let user := user_rows f (cv_id conv) (next_sequence (cv_id conv) d) name text in
  begun f actor conv o sup user d d' /\ seq = (next_sequence (cv_id conv) d + Z.of_nat (length user))%Z.
Proof.
  unfold write_pending. intros H%transaction_inv. run_inv H u1 d1 H1.
  assert (d1 = set_messages (supersede sup "active" "superseded") d) as ->.
  { destruct sup; injection H1 as <-; [done|]. by destruct d. }
  run_inv H ord d2 H2. injection H2 as <- <-. run_inv H sq d2 H2. injection H2 as <- <-.
  rewrite next_sequence_supersede in H. run_inv H u3 d3 H3. apply statement_inv, insert_turn_inv in H3 as (-> & Hturn & Hconv).
  run_inv H sq d4 H4. run_inv H u5 d5 H5. apply statement_inv, insert_run_inv in H5 as (-> & Hrun).
  run_inv H u6 d6 H6. injection H6 as <- _. injection H as <- <-. destruct text as [text|]; simpl.
  - run_inv H4 u7 d7 H7. injection H4 as <- <-. apply statement_inv, insert_message_inv in H7 as (-> & Hmsg). simpl in *.
    split; [|done]. split; simpl; try done; [eexists; split; [reflexivity|]; repeat (split; [done|]); intros x Hx; apply Hrun, Hx|intros x Hx; apply Hrun, Hx|].
    intros u x ->%list_elem_of_singleton Hx Hid. simpl in Hid.
    eapply (proj2 (fresh_ids (messages d) (fr_message f))); [|exact Hx|exact Hid].
    rewrite <- (supersede_ids sup "active" "superseded"). by apply fresh_ids.
  - injection H4 as <- <-. simpl in *. split; [|lia]. split; simpl; try done.
    + by rewrite app_nil_r.
    + eexists. split; [reflexivity|]. repeat (split; [done|]). intros x Hx. apply Hrun, Hx.
    + intros x Hx. apply Hrun, Hx.
    + intros u x Hu. by apply not_elem_of_nil in Hu.
Qed.

Lemma begun_ok f actor conv o sup name text d d' :
  begun f actor conv o sup (user_rows f (cv_id conv) (next_sequence (cv_id conv) d) name text) d d' -> chat_ok d -> chat_ok d'.
Proof.
  intros [Hm Ht _ _ Hc _ Hcv Hnt Hnu] Hok.
  set (t := MkTurnRow _ _ _ _ _ _) in Ht.
  assert (chat_ok (set_turns (λ l, l ++ [t]) (set_messages (supersede sup "active" "superseded") d))) as Hok1.
  { apply add_turn_ok; [by apply supersede_messages_ok|exact Hcv|exact Hnt|]. intros x. apply next_ordinal_gt. }
  assert (chat_ok (set_revision (fr_now f) (cv_revision conv + 1) (cv_id conv)
    (set_messages (λ l, l ++ user_rows f (cv_id conv) (next_sequence (cv_id conv) d) name text)
      (set_turns (λ l, l ++ [t]) (set_messages (supersede sup "active" "superseded") d))))) as Hok2.
  { apply set_revision_ok. destruct text as [text|]; cbn [user_rows].
    - apply add_message_ok; [done|exact Hcv|..]; simpl.
      + apply fresh_ids. rewrite supersede_ids. apply fresh_ids. intros x Hx.
        cbn [user_rows] in Hnu. exact (Hnu _ x (proj2 (list_elem_of_singleton _ _) eq_refl) Hx).
      + intros x Hx. rewrite <- (next_sequence_supersede (cv_id conv) sup "active" "superseded"). by apply next_sequence_gt.
      + intros u [= <-]. exists t. split; [set_solver|done].
    - eapply same_rows_ok; [..|exact Hok1]; simpl; [apply (ok_key _ Hok)|done|done|by rewrite app_nil_r]. }
  eapply same_rows_ok; [..|exact Hok2]; simpl; try done; rewrite Hc; [|done].
  apply (ok_key _ (set_revision_ok (fr_now f) (cv_revision conv + 1) (cv_id conv) _ Hok)).
Qed.
Lemma begun_models x f actor conv o sup user d d' :
  begun f actor conv o sup user (set_models x d) d' -> begun f actor conv o sup user d d'.
Proof. by intros [H1 H2 H3 H4 H5 H6 H7 H8 H9]; split. Qed.
End Transactions.

Lemma on_models_inv {A} (m : Stm ModelDB A) d d' r : on_models m d = (d', r) -> exists x, d' = set_models x d.
Proof. unfold on_models, on. destruct (m (cd_models d)) as [x r']. intros [= <- _]. eauto. Qed.

Lemma remove_last_reply_in l m rest : remove_last_reply l = Some (m, rest) -> m ∈ l.
Proof.
  revert m rest. induction l as [|x l IH]; simpl; intros m rest; [done|].
  destruct (remove_last_reply l) as [[y l']|] eqn:Hl.
  - intros [= <- _]. apply elem_of_cons. right. by eapply IH.
  - case_bool_decide; [|done]. intros [= <- _]. set_solver.
Qed.

(** ** A generation that was begun *)

Section Begin.
Context (from_slice : string -> result Value string) (value_to_string : Value -> string) (f64_value : F64 -> Value).
Context (vault : option (string -> AppResult string)) (from_utf8_lossy : string -> string).

Lemma prepare_generation_inv f actor conv text o preset include d d' p :
  prepare_generation from_slice value_to_string f64_value vault from_utf8_lossy f actor conv text o preset include d = (d', Ok p) ->
  exists name,
    let user := user_rows value_to_string f (cv_id conv) (next_sequence (cv_id conv) d) name (if include then Some (default "" text) else None) in
    begun f actor conv o (pg_supersedes_message_id p) user d d'
    /\ pg_operation_id p = fr_operation f /\ pg_conversation_id p = cv_id conv /\ pg_turn_id p = fr_turn f
    /\ pg_revision_after_a p = (cv_revision conv + 1)%Z
    /\ pg_next_sequence p = (next_sequence (cv_id conv) d + Z.of_nat (length user))%Z
    /\ (forall i, pg_supersedes_message_id p = Some i ->
          og_kind o = "regenerate" /\ exists m, m ∈ active_rows (cv_id conv) d /\ ms_id m = i).
Proof.
  unfold prepare_generation. intros H.
  run_inv H settings d1 H1. apply on_models_inv in H1 as (x1 & ->).
  run_inv H rv d1 H1. injection H1 as <- <-. run_inv H rvn d1 H1. unfold slift in H1. injection H1 as <- _.
  run_inv H prov d2 H2. apply on_models_inv in H2 as (x2 & ->).
  run_inv H prov' d3 H3. injection H3 as <- <-. run_inv H prov2 d3 H3. unfold slift in H3. injection H3 as <- _.
  run_inv H hist d4 H4. injection H4 as <- <-. change (set_models x2 (set_models x1 d)) with (set_models x2 d) in H.
  set (hist := load_active_messages from_slice (cv_id conv) (set_models x2 d)) in H.
  destruct (if og_kind o =?= "regenerate" then _ else _) as [sup h] eqn:Hsup.
  run_inv H sqn d5 H5. apply write_pending_inv in H5 as [Hb Hseq]. injection H as <- <-. cbn [pg_supersedes_message_id].
  exists (wset_prompt_user_name settings). split; [by apply begun_models in Hb|]. repeat (split; [done|]).
  intros i ->. revert Hsup. case_bool_decide as Hk; [|done]. destruct (remove_last_reply hist) as [[m rest]|] eqn:Hm; [|done].
  intros [= <- _]. split; [done|]. apply remove_last_reply_in in Hm. unfold hist, load_active_messages in Hm.
  apply list_elem_of_fmap in Hm as (row & -> & Hrow). by exists row.
Qed.

Lemma send_begin_inv f actor c text o expected preset d d' p :
  send_begin from_slice value_to_string f64_value vault from_utf8_lossy f actor c text o expected preset d = (d', Ok p) ->
  exists conv name,
    let include := bool_decide (is_Some text) && negb (og_kind o =?= "retry") in
    let user := user_rows value_to_string f (cv_id conv) (next_sequence (cv_id conv) d) name (if include then Some (default "" text) else None) in
    load_conversation c d = Some conv /\ require_workspace_access actor conv = Ok tt
    /\ begun f actor conv o (pg_supersedes_message_id p) user d d'
    /\ pg_operation_id p = fr_operation f /\ pg_conversation_id p = cv_id conv /\ pg_turn_id p = fr_turn f
    /\ pg_revision_after_a p = (cv_revision conv + 1)%Z
    /\ pg_next_sequence p = (next_sequence (cv_id conv) d + Z.of_nat (length user))%Z
    /\ (forall i, pg_supersedes_message_id p = Some i ->
          og_kind o = "regenerate" /\ exists m, m ∈ active_rows (cv_id conv) d /\ ms_id m = i).
Proof.
  unfold send_begin, get_conversation. intros H.
  run_inv H cv d1 H1. injection H1 as <- <-. run_inv H conv d1 H1. unfold slift in H1.
  destruct (load_conversation c d) as [conv'|] eqn:Hl; [|done]. injection H1 as <- <-.
  run_inv H u d1 H1. unfold slift in H1. injection H1 as <- Ha. destruct u.
  run_inv H u d1 H1. unfold slift in H1. injection H1 as <- _.
  run_inv H rs d1 H1. injection H1 as <- <-. apply prepare_generation_inv in H as (name & H). by exists conv', name.
Qed.
End Begin.
