(* ===== verification/ChatFlights.v ===== *)
(** * Generations that run at the same time

    A generation is in flight from its first transaction to its second, while the
    lock of its conversation is held ([ConversationLocks] of [modules/chat/locks.rs]).
    The steps of the engine, in any order, and what they keep of a conversation. *)

From S2P Require Import Prelude Text Errors StDomain Engine Prompt CardPng Models Characters Stateful Chat ChatEngine ChatSteps.
From Stdlib Require Import Lia.

(** ** One conversation's part of the tables *)

Lemma nodup_unique {A B} (f : A -> B) l x y : NoDup (f <$> l) -> x ∈ l -> y ∈ l -> f x = f y -> x = y.
Proof.
  induction l as [|z l IH]; [set_solver|]. cbn [fmap list_fmap]. intros [Hz Hn]%NoDup_cons.
  rewrite !elem_of_cons. intros [->|Hx] [->|Hy] Hf; [done|..|by apply IH]; exfalso; apply Hz; [rewrite Hf|rewrite <- Hf];
    by apply list_elem_of_fmap_2.
Qed.

Definition same_local (c : string) (d d' : ChatDB) : Prop :=
  conversations d' !! c = conversations d !! c /\ of_conv c (messages d') = of_conv c (messages d)
  /\ of_conv_turns c (turns d') = of_conv_turns c (turns d).

#[export] Instance same_local_preorder c : PreOrder (same_local c).
Proof. split; [by intros d|]. intros d1 d2 d3 (H1 & H2 & H3) (H4 & H5 & H6). repeat split; congruence. Qed.

(** A change of one conversation's messages, seen from another. *)
Lemma map_elsewhere c g l : keeps g -> (forall m, m ∈ l -> ms_conversation_id m = c -> g m = m) -> of_conv c (g <$> l) = of_conv c l.
Proof.
  intros Hg Hid. rewrite of_conv_map by done. apply map_id_on. intros m [Hc Hm]%list_elem_of_filter. auto.
Qed.

Lemma flip_elsewhere c c' i from to d :
  chat_ok d -> (exists m, m ∈ of_conv c (messages d) /\ ms_id m = i) -> c' <> c ->
  of_conv c' (flip_message i from to (messages d)) = of_conv c' (messages d).
Proof.
  intros Hok (m & [Hc Hm]%list_elem_of_filter & Hid) Hne. apply map_elsewhere; [apply flip_keeps|].
  intros x Hx Hxc. rewrite bool_decide_eq_false_2; [done|]. intros [Hxi _].
  apply Hne. rewrite <- Hc, <- Hxc. f_equal. eapply nodup_unique; [apply (ok_ids _ Hok)|done..|congruence].
Qed.

Lemma prompt_elsewhere c c' i content d :
  chat_ok d -> (exists m, m ∈ of_conv c (messages d) /\ ms_id m = i) -> c' <> c ->
  of_conv c' (set_prompt_content i content (messages d)) = of_conv c' (messages d).
Proof.
  intros Hok (m & [Hc Hm]%list_elem_of_filter & Hid) Hne. apply map_elsewhere; [apply prompt_keeps|].
  intros x Hx Hxc. rewrite bool_decide_eq_false_2; [done|]. intros Hxi.
  apply Hne. rewrite <- Hc, <- Hxc. f_equal. eapply nodup_unique; [apply (ok_ids _ Hok)|done..|congruence].
Qed.

Lemma revoke_elsewhere c c' t d :
  chat_ok d -> (exists x, x ∈ of_conv_turns c (turns d) /\ tn_id x = t) -> c' <> c ->
  of_conv c' (revoke_messages t (messages d)) = of_conv c' (messages d).
Proof.
  intros Hok (x & [Hc Hx]%list_elem_of_filter & Hid) Hne. apply map_elsewhere; [apply revoke_keeps|].
  intros m Hm Hmc. rewrite bool_decide_eq_false_2; [done|]. intros [Hmt _].
  destruct (ok_turn _ Hok m t Hm Hmt) as (y & Hy & Hyid & Hyc). apply Hne. rewrite <- Hmc, <- Hyc, <- Hc. f_equal.
  eapply nodup_unique; [apply (ok_turn_ids _ Hok)|done..|congruence].
Qed.

Lemma set_turn_elsewhere c c' t s r d :
  chat_ok d -> (exists x, x ∈ of_conv_turns c (turns d) /\ tn_id x = t) -> c' <> c ->
  of_conv_turns c' (set_turn t s r (turns d)) = of_conv_turns c' (turns d).
Proof.
  intros Hok (x & [Hc Hx]%list_elem_of_filter & Hid) Hne. unfold set_turn. rewrite of_conv_turns_map by apply set_turn_keeps.
  apply map_id_on. intros y [Hyc Hy]%list_elem_of_filter. rewrite bool_decide_eq_false_2; [done|]. intros Hyid.
  apply Hne. rewrite <- Hc, <- Hyc. f_equal. eapply nodup_unique; [apply (ok_turn_ids _ Hok)|done..|congruence].
Qed.

Lemma supersede_elsewhere c c' s from to d :
  chat_ok d -> (forall i, s = Some i -> exists m, m ∈ of_conv c (messages d) /\ ms_id m = i) -> c' <> c ->
  of_conv c' (supersede s from to (messages d)) = of_conv c' (messages d).
Proof. intros Hok Hs Hne. destruct s as [i|]; [|done]. eapply flip_elsewhere; eauto. Qed.

Lemma of_conv_app c l k : of_conv c (l ++ k) = of_conv c l ++ of_conv c k.
Proof. apply filter_app. Qed.

Lemma of_conv_none c l : Forall (λ m, ms_conversation_id m <> c) l -> of_conv c l = [].
Proof.
  induction 1 as [|m l Hm Hl IH]; [done|]. unfold of_conv. by rewrite filter_cons, decide_False.
Qed.
Lemma of_conv_all c l : Forall (λ m, ms_conversation_id m = c) l -> of_conv c l = l.
Proof.
  induction 1 as [|m l Hm Hl IH]; [done|]. unfold of_conv. rewrite filter_cons, decide_True by done. f_equal. exact IH.
Qed.

(** ** Putting a reply aside *)

Lemma active_supersede s l : filter is_shown (supersede s "active" "superseded" l) = filter (λ m, Some (ms_id m) <> s) (filter is_shown l).
Proof.
  destruct s as [i|]; simpl.
  - induction l as [|m l IH]; [done|]. unfold flip_message. cbn [fmap list_fmap]. rewrite !filter_cons.
    fold (flip_message i "active" "superseded" l).
    destruct (decide (is_shown m)) as [Ha|Ha]; unfold is_shown in Ha.
    + rewrite filter_cons. case_bool_decide as Hb; simpl.
      * destruct (decide (is_shown (set_message_status "superseded" m))) as [Hs|_]; [discriminate Hs|]. rewrite decide_False by (intros Hn; apply Hn; f_equal; tauto). apply IH.
      * destruct (decide (is_shown m)) as [_|Hs]; [|done]. rewrite decide_True by (intros [= Hn]; tauto). f_equal. apply IH.
    + rewrite bool_decide_eq_false_2 by tauto. destruct (decide (is_shown m)) as [Hs|_]; [done|]. apply IH.
  - induction (filter is_shown l) as [|m k IH]; [done|]. rewrite filter_cons, decide_True by done. by rewrite <- IH.
Qed.

Lemma supersede_back s l :
  (forall m, m ∈ l -> s = Some (ms_id m) -> is_shown m) ->
  supersede s "superseded" "active" (supersede s "active" "superseded" l) = l.
Proof.
  destruct s as [i|]; [|done]. simpl. unfold flip_message. rewrite <- list_fmap_compose. intros Ha. apply map_id_on.
  intros m Hm. simpl. destruct (decide (ms_id m = i)) as [<-|Hne].
  - specialize (Ha m Hm eq_refl). unfold is_shown in Ha. rewrite (bool_decide_eq_true_2 (_ ∧ ms_status m = "active")) by done.
    rewrite bool_decide_eq_true_2 by done. destruct m. simpl in *. by subst.
  - rewrite (bool_decide_eq_false_2 (_ ∧ ms_status m = "active")) by tauto. by rewrite bool_decide_eq_false_2 by tauto.
Qed.

Lemma supersede_others s from to l : (forall m, m ∈ l -> s <> Some (ms_id m)) -> supersede s from to l = l.
Proof.
  destruct s as [i|]; [|done]. simpl. intros Hl. apply map_id_on. intros m Hm.
  rewrite bool_decide_eq_false_2; [done|]. intros [<- _]. by apply (Hl m).
Qed.

Lemma supersede_app s from to l k : supersede s from to (l ++ k) = supersede s from to l ++ supersede s from to k.
Proof. destruct s; [|done]. apply fmap_app. Qed.

(** ** The second transaction *)

Section Outcome.
Context (value_to_string : Value -> string).

Definition reply_row (f : Fresh) (p : PreparedGeneration) (reply : string) : MessageRow :=
  MkMessageRow (fr_reply f) (pg_conversation_id p) (Some (pg_turn_id p)) (pg_next_sequence p) "assistant" reply None "active"
    (pg_supersedes_message_id p) (message_metadata value_to_string (pg_character_name p) (fr_later f)) None.

Record ended (f : Fresh) (p : PreparedGeneration) (reply : string) (status : GenerationStatus) (error : option string)
    (d d' : ChatDB) : Prop := {
  en_messages : messages d' = if status =?= GenCompleted then messages d ++ [reply_row f p reply]
                              else supersede (pg_supersedes_message_id p) "superseded" "active" (messages d);
  en_turns : turns d' = set_turn (pg_turn_id p) (if status =?= GenCompleted then "complete" else "failed")
                          (if status =?= GenCompleted then Some (fr_reply f) else None) (turns d);
  en_runs : generation_runs d' = finish_run (pg_operation_id p) (GenerationStatus_as_str status) error
    (value_to_string (JObject [("reply_text", JString reply); ("assistant_message_id", JString (fr_reply f))])) (generation_runs d);
  en_conversations : conversations d' = alter (with_revision (fr_later f) (pg_revision_after_a p + 1)) (pg_conversation_id p) (conversations d);
  en_results : command_results d' = command_results d;
  en_fresh : status = GenCompleted -> forall x, x ∈ messages d -> ms_id x <> fr_reply f;
}.

Lemma write_outcome_inv f p reply status error d d' u :
  write_outcome value_to_string f p reply status error d = (d', Ok u) -> ended f p reply status error d d'.
Proof.
  unfold write_outcome. intros H%transaction_inv.
  run_inv H cur d1 H1. injection H1 as <- <-. run_inv H conv d1 H1. unfold slift in H1. injection H1 as <- _.
  destruct (negb _); [discriminate|]. run_inv H u1 d2 H2. run_inv H u3 d3 H3. injection H3 as <- _. injection H as <- _.
  destruct (status =?= GenCompleted) eqn:Hst.
  - apply bool_decide_eq_true in Hst as ->. run_inv H2 u4 d4 H4. apply statement_inv, insert_message_inv in H4 as (-> & Hf).
    injection H2 as <- _. split; try done; by rewrite ?bool_decide_eq_true_2.
  - assert (status <> GenCompleted) as Hne by by apply bool_decide_eq_false in Hst.
    run_inv H2 u4 d4 H4. injection H4 as <- _. destruct (pg_supersedes_message_id p) as [i|] eqn:Hs; injection H2 as <- _;
      (split; try done; rewrite ?Hst, ?Hs; done).
Qed.

(** ** A generation in flight *)

(** With the rows its conversation had, and what the user said. *)
Record Flight := MkFlight { fl_prepared : PreparedGeneration; fl_before : list MessageRow; fl_user : list MessageRow }.

Record flight_ok (c : string) (x : Flight) (d : ChatDB) : Prop := {
  fo_conversation : pg_conversation_id (fl_prepared x) = c;
  fo_revision : exists row, conversations d !! c = Some row
    /\ cv_revision (cw_conversation row) = pg_revision_after_a (fl_prepared x);
  fo_messages : of_conv c (messages d)
    = supersede (pg_supersedes_message_id (fl_prepared x)) "active" "superseded" (fl_before x) ++ fl_user x;
  fo_sequence : forall m, m ∈ of_conv c (messages d) -> (ms_sequence m < pg_next_sequence (fl_prepared x))%Z;
  fo_supersedes : forall i, pg_supersedes_message_id (fl_prepared x) = Some i ->
    exists m, m ∈ of_conv c (messages d) /\ ms_id m = i;
  fo_superseded : forall m, m ∈ fl_before x -> pg_supersedes_message_id (fl_prepared x) = Some (ms_id m) -> is_shown m;
  fo_user : forall m, m ∈ fl_user x -> is_shown m /\ ms_turn_id m = Some (pg_turn_id (fl_prepared x))
    /\ pg_supersedes_message_id (fl_prepared x) <> Some (ms_id m);
  fo_turn : exists t, t ∈ of_conv_turns c (turns d) /\ tn_id t = pg_turn_id (fl_prepared x);
}.

Lemma flight_ok_local c x d d' : same_local c d d' -> flight_ok c x d -> flight_ok c x d'.
Proof. intros (Hc & Hm & Ht) [H1 H2 H3 H4 H5 H6 H7 H8]. split; rewrite ?Hc, ?Hm, ?Ht; done. Qed.

(** The second transaction of a generation in flight is never refused. *)
Lemma write_outcome_total c x f reply status error d :
  flight_ok c x d -> (status = GenCompleted -> forall m, m ∈ messages d -> ms_id m <> fr_reply f) ->
  exists d', write_outcome value_to_string f (fl_prepared x) reply status error d = (d', Ok tt).
Proof.
  intros [Hc (row & Hrow & Hrev) Hm Hseq Hsup _ _ (t & Ht & Htid)] Hf.
  unfold write_outcome, transaction, sbind, sget, slift. unfold load_conversation at 1.
  rewrite Hc, Hrow. simpl. rewrite Hrev, bool_decide_eq_true_2 by done. simpl.
  case_bool_decide as Hst; [|destruct (pg_supersedes_message_id (fl_prepared x)); eexists; reflexivity].
  unfold statement. rewrite insert_message_ok; simpl.
  - eexists. reflexivity.
  - intros y. apply Hf, Hst.
  - exact Hseq.
  - by rewrite Hrow.
  - apply bool_decide_eq_true_2, Exists_exists. exists t. split; [|done]. by apply list_elem_of_filter in Ht as [_ ?].
  - destruct (pg_supersedes_message_id (fl_prepared x)) as [i|]; [|done]. destruct (Hsup i eq_refl) as (m & Hin & Hid).
    apply bool_decide_eq_true_2, Exists_exists. exists m. split; [|done]. by apply list_elem_of_filter in Hin as [_ ?].
Qed.

Lemma ended_ok c x f reply status error d d' :
  flight_ok c x d -> ended f (fl_prepared x) reply status error d d' -> chat_ok d -> chat_ok d'.
Proof.
  intros [Hc (row & Hrow & _) _ Hseq _ _ _ (t & Ht & Htid)] [Hm Htn _ Hcv _ Hf] Hok.
  apply list_elem_of_filter in Ht as [Htc Ht].
  assert (chat_ok (set_messages (λ l, if status =?= GenCompleted then l ++ [reply_row f (fl_prepared x) reply]
      else supersede (pg_supersedes_message_id (fl_prepared x)) "superseded" "active" l) d)) as H1.
  { destruct (status =?= GenCompleted) eqn:Hs; [|by apply supersede_messages_ok].
    apply bool_decide_eq_true in Hs. apply add_message_ok; simpl; [done|rewrite Hc; eauto|by apply Hf|by rewrite Hc|].
    intros t' [= <-]. exists t. split; [done|]. by rewrite Hc. }
  apply (map_turns_ok _ _ (set_turn_keeps (pg_turn_id (fl_prepared x)) (if status =?= GenCompleted then "complete" else "failed")
    (if status =?= GenCompleted then Some (fr_reply f) else None))) in H1.
  apply (alter_conversation_ok (with_revision (fr_later f) (pg_revision_after_a (fl_prepared x) + 1)) (pg_conversation_id (fl_prepared x))
    _ d') in H1; done.
Qed.

Lemma ended_elsewhere c c' x f reply status error d d' :
  flight_ok c x d -> ended f (fl_prepared x) reply status error d d' -> chat_ok d -> c' <> c -> same_local c' d d'.
Proof.
  intros [Hc _ _ _ Hsup _ _ Ht] [Hm Htn _ Hcv _ _] Hok Hne. split; [|split].
  - rewrite Hcv, lookup_alter_ne; [done|]. congruence.
  - rewrite Hm. destruct (status =?= GenCompleted); [|by apply (supersede_elsewhere c)].
    rewrite of_conv_app, (of_conv_none c' [_]), app_nil_r; [done|]. constructor; [simpl; congruence|constructor].
  - rewrite Htn. by apply (set_turn_elsewhere c).
Qed.

(** The history a generation leaves. *)
Lemma ended_history c x f reply status error d d' :
  flight_ok c x d -> ended f (fl_prepared x) reply status error d d' ->
  filter is_shown (of_conv c (messages d'))
  = if status =?= GenCompleted
    then filter (λ m, Some (ms_id m) <> pg_supersedes_message_id (fl_prepared x)) (filter is_shown (fl_before x))
         ++ fl_user x ++ [reply_row f (fl_prepared x) reply]
    else filter is_shown (fl_before x) ++ fl_user x.
Proof.
  intros [Hc _ Hfm _ _ Hact Huser _] [Hm _ _ _ _ _]. rewrite Hm.
  assert (filter is_shown (fl_user x) = fl_user x) as Hu.
  { clear -Huser. induction (fl_user x) as [|m l IH]; [done|]. rewrite filter_cons, decide_True by (apply Huser; set_solver).
    f_equal. apply IH. intros k Hk. apply Huser. set_solver. }
  destruct (status =?= GenCompleted).
  - rewrite of_conv_app, Hfm, (of_conv_all c [_]) by (constructor; [done|constructor]).
    rewrite !filter_app, active_supersede, Hu, <- app_assoc. done.
  - rewrite of_conv_supersede, Hfm, supersede_app, supersede_back by done.
    rewrite (supersede_others _ _ _ (fl_user x)) by (intros m Hin; by apply Huser). by rewrite filter_app, Hu.
Qed.
End Outcome.

(** ** The steps of the engine *)

Section System.
Context (from_slice : string -> result Value string) (value_to_string : Value -> string) (f64_value : F64 -> Value).
Context (vault : option (string -> AppResult string)) (from_utf8_lossy : string -> string).

Notation send_begin := (send_begin from_slice value_to_string f64_value vault from_utf8_lossy).
Notation write_outcome := (write_outcome value_to_string).
Notation undo := (undo from_slice).
Notation start_conversation := (start_conversation from_slice value_to_string).

Lemma begun_elsewhere c c' f actor conv o sup user d d' :
  begun f actor conv o sup user d d' -> chat_ok d -> cv_id conv = c -> Forall (λ m, ms_conversation_id m = c) user ->
  (forall i, sup = Some i -> exists m, m ∈ of_conv c (messages d) /\ ms_id m = i) -> c' <> c -> same_local c' d d'.
Proof.
  intros [Hm Ht _ _ Hcv _ _ _ _] Hok <- Huser Hsup Hne. split; [|split].
  - rewrite Hcv, lookup_alter_ne; [done|congruence].
  - rewrite Hm, of_conv_app, (of_conv_none c' user), app_nil_r; [by apply (supersede_elsewhere (cv_id conv))|].
    eapply Forall_impl; [exact Huser|]. simpl. congruence.
  - rewrite Ht. unfold of_conv_turns. rewrite filter_app, filter_cons, decide_False by (simpl; congruence). by rewrite app_nil_r.
Qed.

(** The rows of a conversation that were added to it. *)
Definition added (c : string) (d d' : ChatDB) : list MessageRow :=
  drop (length (of_conv c (messages d))) (of_conv c (messages d')).

Lemma user_rows_conv f c seq name text : Forall (λ m, ms_conversation_id m = c) (user_rows value_to_string f c seq name text).
Proof. destruct text; simpl; by repeat constructor. Qed.

Lemma user_rows_row f c seq name text m :
  m ∈ user_rows value_to_string f c seq name text ->
  ms_sequence m = seq /\ is_shown m /\ ms_turn_id m = Some (fr_turn f) /\ length (user_rows value_to_string f c seq name text) = 1.
Proof. destruct text; simpl; [|by intros ?%not_elem_of_nil]. by intros ->%list_elem_of_singleton. Qed.

Lemma supersede_length s from to l : length (supersede s from to l) = length l.
Proof. destruct s; [|done]. apply length_fmap. Qed.

(** Beginning a generation, in full. *)
Lemma send_begin_flight f actor c text o expected preset d d' p :
  send_begin f actor c text o expected preset d = (d', Ok p) -> chat_ok d ->
  chat_ok d' /\ flight_ok c (MkFlight p (of_conv c (messages d)) (added c d d')) d' /\ (forall c', c' <> c -> same_local c' d d').
Proof.
  intros (conv & name & Hl & _ & Hb & Hop & Hpc & Hpt & Hrev & Hseq & Hsup)%send_begin_inv Hok.
  set (user := user_rows _ _ _ _ _ _) in *.
  assert (cv_id conv = c) as Hid.
  { unfold load_conversation in Hl. apply fmap_Some in Hl as (row & Hrow & ->). by apply (ok_key _ Hok). }
  assert (Forall (λ m, ms_conversation_id m = c) user) as Huc by (rewrite <- Hid; apply user_rows_conv).
  assert (forall i, pg_supersedes_message_id p = Some i -> exists m, m ∈ of_conv c (messages d) /\ is_shown m /\ ms_id m = i) as Hsupc.
  { intros i Hi. destruct (Hsup i Hi) as (_ & m & Hm & Hmi). rewrite active_rows_ok in Hm by done.
    apply list_elem_of_filter in Hm as [Ha Hm]. rewrite Hid in Hm. by exists m. }
  split; [by eapply begun_ok|]. split; cycle 1.
  { intros c' Hne. eapply (begun_elsewhere c); eauto. intros i Hi. destruct (Hsupc i Hi) as (m & ? & _ & ?). eauto. }
  destruct Hb as [Hm Ht _ _ Hcv _ Hex Hnt Hnu].
  assert (of_conv c (messages d') = supersede (pg_supersedes_message_id p) "active" "superseded" (of_conv c (messages d)) ++ user) as Hof.
  { by rewrite Hm, of_conv_app, of_conv_supersede, (of_conv_all c user). }
  assert (added c d d' = user) as Hadd.
  { unfold added. rewrite Hof, <- (supersede_length (pg_supersedes_message_id p) "active" "superseded"). apply drop_app_length. }
  assert (forall m, m ∈ user -> ms_sequence m = next_sequence (cv_id conv) d /\ is_shown m /\ ms_turn_id m = Some (fr_turn f)
    /\ length user = 1) as Hu1.
  { apply user_rows_row. }
  split; simpl; rewrite ?Hadd.
  - congruence.
  - unfold load_conversation in Hl. apply fmap_Some in Hl as (row & Hrow & ->). exists (with_revision (fr_now f)
      (cv_revision (cw_conversation row) + 1) row). rewrite Hcv, Hid, lookup_alter_eq, Hrow. by rewrite Hrev.
  - done.
  - intros m. rewrite Hof, Hseq. intros [Hin|Hin]%elem_of_app.
    + apply (list_elem_of_fmap_2 ms_sequence) in Hin. rewrite supersede_seqs in Hin.
      apply list_elem_of_fmap in Hin as (m' & -> & Hin). rewrite <- Hid in Hin. apply next_sequence_gt in Hin. lia.
    + apply Hu1 in Hin as (-> & _ & _ & Hlen). lia.
  - intros i Hi. destruct (Hsupc i Hi) as (m & Hin & _ & Hmi).
    apply (list_elem_of_fmap_2 ms_id) in Hin. rewrite <- (supersede_ids (pg_supersedes_message_id p) "active" "superseded"), Hmi in Hin.
    apply list_elem_of_fmap in Hin as (m' & -> & Hin). exists m'. split; [|done]. rewrite Hof. set_solver.
  - intros m Hin Hmi. destruct (Hsupc _ Hmi) as (m' & Hin' & Ha & Hid'). assert (m = m') as ->; [|done].
    apply list_elem_of_filter in Hin as [_ Hin], Hin' as [_ Hin']. eapply nodup_unique; [apply (ok_ids _ Hok)|done..].
  - intros m Hin. destruct (Hu1 m Hin) as (_ & Ha & Hmt & _). rewrite Hpt. split; [done|]. split; [done|]. intros Hmi.
    destruct (Hsupc _ Hmi) as (m' & Hin' & _ & Hid'). apply list_elem_of_filter in Hin' as [_ Hin']. by apply (Hnu m m').
  - exists (MkTurnRow (fr_turn f) (cv_id conv) (next_ordinal (cv_id conv) d) "pending" (actor_id actor) None).
    split; [|done]. rewrite Ht. apply list_elem_of_filter. split; [done|]. apply elem_of_app. right. by apply list_elem_of_singleton.
Qed.

(** ** Taking back *)

Record undone (now c t : string) (d d' : ChatDB) : Prop := {
  ud_messages : messages d' = revoke_messages t (messages d);
  ud_turns : turns d' = set_turn t "revoked" None (turns d);
  ud_conversations : conversations d' = alter (λ row, with_revision now (cv_revision (cw_conversation row) + 1) row) c (conversations d);
}.

(** The actor's undo has no result stored under its client turn id, if it has one. *)
Definition new_undo (actor : Actor) (channel key : string) (client : option string) (d : ChatDB) : Prop :=
  forall k, client = Some k -> result_of actor (MkOrigin channel key "undo_last_turn" client) k d = None.

(** Nothing happened, or the last turn was taken back; a new command that succeeds takes
    it back. *)
Lemma undo_inv f actor c channel key client expected d d' r :
  undo f actor c channel key client expected d = (d', r) -> chat_ok d ->
  d' = d /\ (new_undo actor channel key client d -> is_ok r = false) \/ exists t, last_undoable_turn c d = Ok t /\ undone (fr_now f) c t d d'.
Proof.
  unfold undo, sbind, sget, slift. intros H Hok.
  destruct (replay_channel_command _ _ _ d) as [[out|]|e] eqn:Hr; [..|injection H as <- <-; auto].
  { injection H as <- <-. left. split; [done|]. intros Hnew. revert Hr.
    unfold replay_channel_command. destruct client as [k|]; simpl; [|done]. by rewrite (Hnew k). }
  unfold get_conversation, load_conversation in H. destruct (conversations d !! c) as [row|] eqn:Hrow; [|injection H as <- <-; auto].
  pose proof (ok_key _ Hok _ _ Hrow) as Hc. simpl in H.
  destruct (require_workspace_access _ _); [|injection H as <- <-; auto].
  destruct (check_expected _ _); [|injection H as <- <-; auto].
  destruct (last_undoable_turn c d) as [t|] eqn:Ht; [|injection H as <- <-; auto].
  destruct (write_undo f actor _ t _ d) as [d1 [u|e]] eqn:Hw; cycle 1.
  { apply transaction_err in Hw. injection H as <- <-. auto. }
  right. exists t. split; [done|]. assert (d' = d1) as ->.
  { destruct (ok_or _ _) in H; by injection H. }
  unfold write_undo in Hw. apply transaction_inv in Hw. rewrite Hc in Hw. run_inv Hw u1 d2 H1. injection H1 as <- _. run_inv Hw u2 d3 H2.
  injection H2 as <- _. run_inv Hw u3 d4 H3. injection H3 as <- _. destruct client as [k|].
  - apply statement_inv, insert_result_inv in Hw as ->. done.
  - by injection Hw as <- _.
Qed.

Lemma last_undoable_turn_in c d t : last_undoable_turn c d = Ok t -> exists x, x ∈ of_conv_turns c (turns d) /\ tn_id x = t.
Proof.
  unfold last_undoable_turn. destruct (head _) as [x|] eqn:Hh; [|discriminate]. intros [= <-]. exists x. split; [|done].
  apply head_Some_elem_of, sort_by_elem, list_elem_of_filter in Hh as [[Hc _] Hx]. by apply list_elem_of_filter.
Qed.

Lemma undone_ok now c t d d' : undone now c t d d' -> chat_ok d -> chat_ok d'.
Proof.
  intros [Hm Ht Hc] Hok. apply (map_messages_ok _ _ (revoke_keeps t)) in Hok. apply (map_turns_ok _ _ (set_turn_keeps t "revoked" None)) in Hok.
  by apply (alter_conversation_ok (λ row, with_revision now (cv_revision (cw_conversation row) + 1) row) c _ d') in Hok.
Qed.

Lemma undone_elsewhere now c c' t d d' :
  undone now c t d d' -> last_undoable_turn c d = Ok t -> chat_ok d -> c' <> c -> same_local c' d d'.
Proof.
  intros [Hm Ht Hc] Hl%last_undoable_turn_in Hok Hne. split; [|split].
  - by rewrite Hc, lookup_alter_ne.
  - rewrite Hm. by apply (revoke_elsewhere c).
  - rewrite Ht. by apply (set_turn_elsewhere c).
Qed.

(** ** Opening *)

Record same_rows (d d' : ChatDB) : Prop := {
  sr_conversations : conversations d' = conversations d;
  sr_turns : turns d' = turns d;
  sr_messages : messages d' = messages d;
}.

Lemma same_rows_local c d d' : same_rows d d' -> same_local c d d'.
Proof. intros [H1 H2 H3]. unfold same_local. by rewrite H1, H2, H3. Qed.

Lemma same_rows_keep d d' : same_rows d d' -> chat_ok d -> chat_ok d'.
Proof. intros [H1 H2 H3] Hok. apply (same_rows_ok d); rewrite ?H1; try done. apply (ok_key _ Hok). Qed.

Record opened (f : Fresh) (d d' : ChatDB) : Prop := {
  op_new : conversations d !! fr_conversation f = None;
  op_conversation : exists row, conversations d' = <[fr_conversation f := row]> (conversations d)
    /\ cv_id (cw_conversation row) = fr_conversation f;
  op_turn : exists t, turns d' = turns d ++ [t] /\ tn_id t = fr_turn f /\ tn_conversation_id t = fr_conversation f
    /\ (forall x, x ∈ turns d -> tn_id x <> tn_id t);
  op_message : exists m, messages d' = messages d ++ [m] /\ ms_turn_id m = Some (fr_turn f)
    /\ ms_conversation_id m = fr_conversation f /\ (forall x, x ∈ messages d -> ms_id x <> ms_id m);
}.

Lemma persist_same actor channel key conv d d' r : persist_channel_context actor channel key conv d = (d', r) -> same_rows d d'.
Proof.
  unfold persist_channel_context, statement, put_context. cbv zeta.
  destruct (context_known _ _ d); intros [= <- _]; done.
Qed.

Lemma write_opening_inv f actor w ch name opening o d d' u :
  write_opening value_to_string f actor w ch name opening o d = (d', Ok u) -> opened f d d'.
Proof.
  unfold write_opening. intros H%transaction_inv. run_inv H u1 d1 H1. apply statement_inv in H1. unfold insert_conversation in H1. simpl in H1.
  unfold has_conversation in H1. case_bool_decide as Hn; [done|]. destruct (_ || _); [done|]. injection H1 as <-.
  apply eq_None_not_Some in Hn.
  run_inv H u2 d2 H2. apply statement_inv, insert_turn_inv in H2 as (-> & Ht & _).
  run_inv H u3 d3 H3. apply statement_inv, insert_message_inv in H3 as (-> & Hm).
  assert (conversations d' = conversations (set_conversations <[fr_conversation f := MkConversationRow (MkConversation (fr_conversation f) w ch None
    name "legacy_bridge_v1" 1 None false None) (fr_now f)]> d)
    /\ turns d' = turns d ++ [MkTurnRow (fr_turn f) (fr_conversation f) 1 "complete" (actor_id actor) (Some (fr_message f))]
    /\ messages d' = messages d ++ [MkMessageRow (fr_message f) (fr_conversation f) (Some (fr_turn f)) 1 "assistant" opening None
                           "active" None (message_metadata value_to_string name (fr_now f)) None]) as (H1 & H2 & H3).
  { destruct (og_client_turn_id o); [apply statement_inv, insert_result_inv in H as ->; done|by injection H as <- _]. }
  split; [done|eexists; split; [exact H1|done]|eexists; split; [exact H2|done]|eexists; split; [exact H3|done]].
Qed.

Lemma opened_ok f d d' : opened f d d' -> chat_ok d -> chat_ok d'.
Proof.
  intros [Hn (row & Hc & Hid) (t & Ht & Htid & Htc & Htn) (m & Hm & Hmt & Hmc & Hmn)] Hok.
  assert (of_conv (fr_conversation f) (messages d) = []) as Hnm.
  { apply of_conv_none, Forall_forall. intros x Hx Hxc. apply (ok_message_conv _ Hok) in Hx. rewrite Hxc, Hn in Hx. by destruct Hx. }
  assert (of_conv_turns (fr_conversation f) (turns d) = []) as Hnt.
  { destruct (of_conv_turns (fr_conversation f) (turns d)) as [|x l] eqn:Hx; [done|].
    assert (x ∈ of_conv_turns (fr_conversation f) (turns d)) as [Hxc Hxi]%list_elem_of_filter by (rewrite Hx; set_solver).
    apply (ok_turn_conv _ Hok) in Hxi. rewrite Hxc, Hn in Hxi. by destruct Hxi. }
  assert (chat_ok (set_conversations <[fr_conversation f := row]> d)) as H1.
  { apply (same_rows_ok d); try done; simpl.
    - intros c r. rewrite lookup_insert_Some. intros [[<- <-]|[_ Hr]]; [done|by apply (ok_key _ Hok)].
    - intros c. rewrite lookup_insert_is_Some'. auto. }
  apply (add_turn_ok t) in H1; cycle 1; simpl; [rewrite Htc, lookup_insert_eq; by eexists|done|rewrite Htc, Hnt; by intros x ?%not_elem_of_nil|].
  apply (add_message_ok m) in H1; simpl; [|rewrite Hmc, lookup_insert_eq; by eexists|done|rewrite Hmc, Hnm; by intros x ?%not_elem_of_nil|].
  - eapply same_rows_ok; [..|exact H1]; simpl; rewrite ?Hc; try done. apply (ok_key _ H1).
  - intros t'. rewrite Hmt. intros [= <-]. exists t. split; [set_solver|]. by rewrite Htc, Hmc.
Qed.

Lemma opened_elsewhere f c d d' : opened f d d' -> c <> fr_conversation f -> same_local c d d'.
Proof.
  intros [_ (row & Hc & _) (t & Ht & _ & Htc & _) (m & Hm & _ & Hmc & _)] Hne. split; [|split].
  - rewrite Hc. by apply lookup_insert_ne.
  - rewrite Hm, of_conv_app, (of_conv_none c [m]), app_nil_r; [done|]. repeat constructor. congruence.
  - rewrite Ht. unfold of_conv_turns. rewrite filter_app, filter_cons, decide_False by congruence. by rewrite app_nil_r.
Qed.

Lemma start_inv f actor ch channel key client d d' r :
  start_conversation f actor ch channel key client d = (d', r) -> same_rows d d' \/ exists d0 d1, same_rows d d0 /\ opened f d0 d1 /\ same_rows d1 d'.
Proof.
  unfold start_conversation, sbind, sget, slift. intros H.
  destruct (replay_channel_command _ _ _ d) as [[out|]|e]; [..|injection H as <- _; by left].
  { left. destruct (co_conversation out) as [conv|]; [|injection H as <- _; done].
    destruct (persist_channel_context actor channel key conv d) as [d1 r1] eqn:Hp. apply persist_same in Hp.
    by destruct r1; injection H as <- _. }
  destruct (require_workspace actor) as [w|]; [|injection H as <- _; by left].
  destruct (ok_or _ _) as [chr|]; [|injection H as <- _; by left].
  destruct (_ && _); [injection H as <- _; by left|].
  destruct (current_revision _ _ _) as [rv|]; [|injection H as <- _; by left].
  destruct (on_models _ d) as [d1 r1] eqn:Hm. apply on_models_inv in Hm as (x & ->).
  destruct r1 as [st|]; [|injection H as <- _; by left].
  destruct (write_opening _ _ _ _ _ _ _ _ (set_models x d)) as [d2 [u|e]] eqn:Hw; cycle 1.
  { apply transaction_err in Hw as ->. injection H as <- _. by left. }
  apply write_opening_inv in Hw. right. exists (set_models x d), d2. split; [done|]. split; [done|].
  destruct (get_conversation _ d2) as [conv|]; [|injection H as <- _; done].
  destruct (persist_channel_context actor channel key conv d2) as [d3 r3] eqn:Hp. apply persist_same in Hp.
  by destruct r3; injection H as <- _.
Qed.
End System.
