(* ===== verification/ChatCorrect.v ===== *)
(** * What the standalone chat engine guarantees *)

From S2P Require Import Prelude Text Errors StDomain Engine Prompt CardPng Models Characters Stateful Chat ChatEngine ChatSteps ChatFlights.
From Stdlib Require Import Lia.

Lemma filter_all_kept {A} (P : A -> Prop) `{forall x, Decision (P x)} (l : list A) : (forall x, x ∈ l -> P x) -> filter P l = l.
Proof.
  induction l as [|x l IH]; intros Hl; [done|]. rewrite filter_cons, decide_True by (apply Hl; set_solver). f_equal. apply IH. set_solver.
Qed.

Lemma filter_none_kept {A} (P : A -> Prop) `{forall x, Decision (P x)} (l : list A) : (forall x, x ∈ l -> ~ P x) -> filter P l = [].
Proof.
  induction l as [|x l IH]; intros Hl; [done|]. rewrite filter_cons, decide_False by (apply Hl; set_solver). apply IH. set_solver.
Qed.

Section Guarantees.
Context (from_slice : string -> result Value string) (value_to_string : Value -> string) (f64_value : F64 -> Value).
Context (vault : option (string -> AppResult string)) (from_utf8_lossy : string -> string).
Context (stream_chat : ResolvedProvider -> LlmRequest -> AppResult LlmCompletion) (emit : ProgressEvent -> AppResult unit).

Notation send_begin := (send_begin from_slice value_to_string f64_value vault from_utf8_lossy).
Notation send_end := (send_end value_to_string stream_chat emit).
Notation write_outcome := (write_outcome value_to_string).
Notation undo := (undo from_slice).
Notation start_conversation := (start_conversation from_slice value_to_string).
Notation send_or_regenerate := (send_or_regenerate from_slice value_to_string f64_value vault from_utf8_lossy stream_chat emit).
Notation chat_execute := (chat_execute from_slice value_to_string f64_value vault from_utf8_lossy stream_chat emit).

(** ** The engine with generations in flight *)

Record Sys := MkSys { sy_db : ChatDB; sy_flights : gmap string Flight }.

(** The lock of a conversation keeps commands on it apart from a generation in flight; commands on other conversations,
    new conversations, and what is not about turns and messages go on. A flight whose task is dropped, or whose sink
    fails before the model is asked, ends without its second transaction. *)
Inductive ChatStep : Sys -> Sys -> Prop :=
| StepBegin f actor c text o expected preset d d' p fl :
    fl !! c = None -> send_begin f actor c text o expected preset d = (d', Ok p) ->
    ChatStep (MkSys d fl) (MkSys d' (<[c := MkFlight p (of_conv c (messages d)) (added c d d')]> fl))
| StepEnd f c x reply status error d d' r fl :
    fl !! c = Some x -> write_outcome f (fl_prepared x) reply status error d = (d', r) ->
    ChatStep (MkSys d fl) (MkSys d' (delete c fl))
| StepDrop c d fl : ChatStep (MkSys d fl) (MkSys d (delete c fl))
| StepUndo f actor c channel key client expected d d' r fl :
    fl !! c = None -> undo f actor c channel key client expected d = (d', r) -> ChatStep (MkSys d fl) (MkSys d' fl)
| StepStart f actor ch channel key client d d' r fl :
    start_conversation f actor ch channel key client d = (d', r) -> ChatStep (MkSys d fl) (MkSys d' fl)
| StepShorten c m content d fl :
    fl !! c = None -> m ∈ of_conv c (messages d) ->
    ChatStep (MkSys d fl) (MkSys (set_messages (set_prompt_content (ms_id m) content) d) fl)
| StepCompressed now c d fl : fl !! c = None -> ChatStep (MkSys d fl) (MkSys (bump_revision now c d) fl)
| StepElse d d' fl : same_rows d d' -> ChatStep (MkSys d fl) (MkSys d' fl).

Definition sys_ok (s : Sys) : Prop :=
  chat_ok (sy_db s) /\ forall c x, sy_flights s !! c = Some x -> flight_ok c x (sy_db s).

(** Flights on other conversations keep what they rely on. *)
Lemma flights_frame c d d' (fl : gmap string Flight) :
  (forall c', c' <> c -> same_local c' d d') -> (forall c' x, fl !! c' = Some x -> flight_ok c' x d) ->
  forall c' x, delete c fl !! c' = Some x -> flight_ok c' x d'.
Proof.
  intros Hl Hf c' x [Hne Hx]%lookup_delete_Some. eapply flight_ok_local; [by apply Hl|by apply Hf].
Qed.

Lemma flights_frame_free c d d' (fl : gmap string Flight) :
  fl !! c = None -> (forall c', c' <> c -> same_local c' d d') -> (forall c' x, fl !! c' = Some x -> flight_ok c' x d) ->
  forall c' x, fl !! c' = Some x -> flight_ok c' x d'.
Proof. intros Hn Hl Hf. rewrite <- (delete_id fl c) by done. by apply (flights_frame c d). Qed.

Lemma shorten_elsewhere c c' m content d :
  chat_ok d -> m ∈ of_conv c (messages d) -> c' <> c -> same_local c' d (set_messages (set_prompt_content (ms_id m) content) d).
Proof. intros Hok Hm Hne. split; [done|]. split; [|done]. simpl. eapply prompt_elsewhere; eauto. Qed.

Lemma chat_step_ok s s' : ChatStep s s' -> sys_ok s -> sys_ok s'.
Proof.
  unfold sys_ok. intros H [Hok Hfl].
  destruct H as [f actor c text o expected preset d d' p fl Hn Hb|f c x reply status error d d' r fl Hx Hw|c d fl
    |f actor c channel key client expected d d' r fl Hn Hu|f actor ch channel key client d d' r fl Hs|c m content d fl Hn Hm
    |now c d fl Hn|d d' fl Hs]; simpl in *.
  - destruct (send_begin_flight _ _ _ _ _ _ _ _ _ _ _ _ _ _ _ Hb Hok) as (Hok' & Hf & He). split; [done|].
    intros c' x. rewrite lookup_insert_Some. intros [[<- <-]|[Hne Hx]]; [done|]. eapply flight_ok_local; [by apply He|by apply Hfl].
  - destruct r as [u|e]; [|apply transaction_err in Hw as ->; split; [done|]; by apply (flights_frame c d)].
    apply write_outcome_inv in Hw. pose proof (Hfl _ _ Hx) as Hxo. split; [by eapply ended_ok|].
    apply (flights_frame c d); [|done]. intros c' Hne. by eapply ended_elsewhere.
  - split; [done|]. by apply (flights_frame c d).
  - destruct (undo_inv _ _ _ _ _ _ _ _ _ _ _ Hu Hok) as [[-> _]|(t & Ht & Hud)]; [done|].
    split; [by eapply undone_ok|]. apply (flights_frame_free c d); try done. intros c' Hne. by eapply undone_elsewhere.
  - destruct (start_inv _ _ _ _ _ _ _ _ _ _ _ Hs) as [Hr|(d0 & d1 & H1 & Ho & H2)].
    + split; [by eapply same_rows_keep|]. intros c x Hx. eapply flight_ok_local; [by apply same_rows_local|by apply Hfl].
    + pose proof (same_rows_keep _ _ H1 Hok) as Hok0. pose proof (opened_ok _ _ _ Ho Hok0) as Hok1.
      split; [by eapply same_rows_keep|]. intros c x Hx. pose proof (Hfl _ _ Hx) as Hxo.
      assert (flight_ok c x d0) as Hx0 by (eapply flight_ok_local; [by apply same_rows_local|done]).
      eapply flight_ok_local; [|exact Hx0]. etransitivity; [|by apply same_rows_local].
      apply (opened_elsewhere f); [done|]. intros ->. destruct Hx0 as [_ (row & Hrow & _)]. by rewrite (op_new _ _ _ Ho) in Hrow.
  - split; [apply map_messages_ok; [apply prompt_keeps|done]|]. apply (flights_frame_free c d); try done.
    intros c' Hne. by apply (shorten_elsewhere c).
  - split; [by apply bump_revision_ok|]. apply (flights_frame_free c d); try done. intros c' Hne. repeat split; try done.
    simpl. by apply lookup_alter_ne.
  - split; [by eapply same_rows_keep|]. intros c x Hx. eapply flight_ok_local; [by apply same_rows_local|by apply Hfl].
Qed.

Lemma chat_run_ok s s' : rtc ChatStep s s' -> sys_ok s -> sys_ok s'.
Proof. induction 1; eauto using chat_step_ok. Qed.

(** C25: no generation is lost to another command. Whatever the engine has done since, on this and on other conversations, a
    generation in flight can be ended either way: with the model's answer its reply becomes the last message of the
    history, after what was there when it began, less the reply it replaces, and after what the user said; and when the
    model failed the history is what it was, with the replaced reply back in its place, and what the user said. The only
    demand is that the id of the reply is new. *)
Theorem generation_lands d0 s c x f reply error :
  chat_ok d0 -> rtc ChatStep (MkSys d0 ∅) s -> sy_flights s !! c = Some x ->
  (forall m, m ∈ messages (sy_db s) -> ms_id m <> fr_reply f) ->
  (exists d', write_outcome f (fl_prepared x) reply GenCompleted None (sy_db s) = (d', Ok tt)
    /\ active_rows c d' = filter (λ m, Some (ms_id m) <> pg_supersedes_message_id (fl_prepared x)) (filter is_shown (fl_before x))
         ++ fl_user x ++ [reply_row value_to_string f (fl_prepared x) reply])
  /\ (exists d', write_outcome f (fl_prepared x) reply GenFailed error (sy_db s) = (d', Ok tt)
    /\ active_rows c d' = filter is_shown (fl_before x) ++ fl_user x).
Proof.
  intros Hok0 Hrun Hx Hf. destruct (chat_run_ok _ _ Hrun) as [Hok Hfl]; [split; [done|]; intros c' y Hy; simpl in Hy; by rewrite lookup_empty in Hy|].
  pose proof (Hfl _ _ Hx) as Hxo. split.
  - destruct (write_outcome_total value_to_string c x f reply GenCompleted None (sy_db s) Hxo (λ _, Hf)) as (d' & Hd').
    exists d'. split; [done|]. apply write_outcome_inv in Hd'. rewrite active_rows_ok by by eapply ended_ok.
    by rewrite (ended_history _ _ _ _ _ _ _ _ _ Hxo Hd').
  - destruct (write_outcome_total value_to_string c x f reply GenFailed error (sy_db s) Hxo ltac:(done)) as (d' & Hd').
    exists d'. split; [done|]. apply write_outcome_inv in Hd'. rewrite active_rows_ok by by eapply ended_ok.
    by rewrite (ended_history _ _ _ _ _ _ _ _ _ Hxo Hd').
Qed.

(** ** Every command is a run of steps *)

Lemma step_once s s' : ChatStep s s' -> rtc ChatStep s s'.
Proof. apply rtc_once. Qed.

Lemma same_run d d' fl : same_rows d d' -> rtc ChatStep (MkSys d fl) (MkSys d' fl).
Proof. intros. by apply rtc_once, StepElse. Qed.

(** A generation that is not begun leaves the rows. *)
Lemma send_begin_err f actor c text o expected preset d d' e :
  send_begin f actor c text o expected preset d = (d', Err e) -> same_rows d d'.
Proof.
  unfold send_begin, sbind, sget, slift. destruct (get_conversation c d) as [conv|]; [|by intros [= <- _]].
  destruct (require_workspace_access _ _); [|by intros [= <- _]]. destruct (check_expected _ _); [|by intros [= <- _]].
  unfold prepare_generation, sbind, sget, slift.
  destruct (on_models _ d) as [d1 r1] eqn:H1. apply on_models_inv in H1 as (x1 & ->). destruct r1; [|by intros [= <- _]].
  destruct (match cv_pinned_character_revision_id conv with Some _ => _ | None => _ end); [|by intros [= <- _]].
  destruct (on_models _ (set_models x1 d)) as [d2 r2] eqn:H2. apply on_models_inv in H2 as (x2 & ->). destruct r2; [|by intros [= <- _]].
  destruct (hydrate _ _ _ _ _); [|by intros [= <- _]]. destruct (if og_kind o =?= "regenerate" then _ else _) as [sup h].
  destruct (write_pending _ _ _ _ _ _ _ _ _ _ _ _) as [d3 [q|e3]] eqn:H3; [discriminate|].
  apply transaction_err in H3 as ->. by intros [= <- _].
Qed.

Lemma complete_inv f p reply status error d d' r :
  complete_generation value_to_string emit f p reply status error d = (d', r) ->
  exists r', write_outcome f p reply status error d = (d', r').
Proof.
  unfold complete_generation, sbind, sget, slift. destruct (write_outcome f p reply status error d) as [d1 [u|e]]; [|by intros [= <- _]; eauto].
  destruct (if status =?= GenCompleted then _ else _); [|by intros [= <- _]; eauto].
  destruct (get_conversation _ d1); intros [= <- _]; eauto.
Qed.

(** The rest of a generation is its second transaction, or nothing. *)
Lemma send_end_inv f p d d' r :
  send_end f p d = (d', r) -> d' = d \/ exists reply status error r', write_outcome f p reply status error d = (d', r').
Proof.
  unfold send_end, sbind, slift. destruct (emit _); [|intros [= <- _]; by left].
  destruct (stream_chat _ _) as [completion|e]; intros H; right.
  - apply complete_inv in H as (r' & H). eauto.
  - destruct (complete_generation _ _ f p "" GenFailed (Some (a_message e)) d) as [d1 r1] eqn:H1. apply complete_inv in H1 as (r' & H1).
    injection H as <- _. eauto.
Qed.

Lemma send_run f actor c text o expected preset d d' r fl :
  fl !! c = None -> send_or_regenerate f actor c text o expected preset d = (d', r) ->
  rtc ChatStep (MkSys d fl) (MkSys d' fl).
Proof.
  intros Hn. unfold send_or_regenerate, sbind, sget, slift.
  destruct (replay_or_start _ _ _ d) as [[out|]|e]; [by intros [= <- _]| |by intros [= <- _]].
  destruct (send_begin f actor c text o expected preset d) as [d1 [p|e]] eqn:Hb; cycle 1.
  { intros [= <- _]. apply same_run. by eapply send_begin_err. }
  intros H. eapply rtc_l; [by eapply StepBegin|].
  replace (MkSys d' fl) with (MkSys d' (delete c (<[c := MkFlight p (of_conv c (messages d)) (added c d d1)]> fl)))
    by (by rewrite delete_insert_id).
  apply rtc_once. apply send_end_inv in H as [->|(reply & status & error & r' & H)]; [apply StepDrop|].
  by eapply StepEnd; [apply lookup_insert_eq|].
Qed.

Lemma compress_loop_run c provider title ms total index targets d d' r fl :
  fl !! c = None -> (forall m, m ∈ targets -> exists row, row ∈ of_conv c (messages d) /\ ms_id row = mg_id m) ->
  compress_loop stream_chat emit provider title ms total index targets d = (d', r) -> rtc ChatStep (MkSys d fl) (MkSys d' fl).
Proof.
  intros Hn. revert d index. induction targets as [|m rest IH]; intros d index Hin; simpl; [by intros [= <- _]|].
  unfold sbind, slift. destruct (stream_chat _ _) as [res|]; [|by intros [= <- _]].
  destruct (negb _ && _); unfold sput, sret; (destruct (emit _); [|intros [= <- _]]).
  - destruct (Hin m ltac:(set_solver)) as (row & Hrow & <-). intros H. eapply rtc_l; [by eapply (StepShorten c row)|].
    eapply IH; [|exact H]. intros m' Hm'. destruct (Hin m' ltac:(set_solver)) as (row' & Hrow' & <-).
    apply (list_elem_of_fmap_2 ms_id) in Hrow'. simpl. unfold set_prompt_content. rewrite of_conv_map by apply prompt_keeps.
    apply list_elem_of_fmap in Hrow' as (k & -> & Hk). eexists. split; [by apply list_elem_of_fmap_2|].
    by destruct (prompt_keeps (ms_id row) (sanitize_compression (lc_text res)) k) as (-> & _).
  - destruct (Hin m ltac:(set_solver)) as (row & Hrow & <-). by apply rtc_once, (StepShorten c row).
  - intros H. eapply IH; [|exact H]. intros m' Hm'. apply Hin. set_solver.
  - done.
Qed.

Lemma compress_run f actor c keep preset d d' r fl :
  fl !! c = None -> chat_ok d ->
  compress from_slice value_to_string vault from_utf8_lossy stream_chat emit f actor c keep preset d = (d', r) ->
  rtc ChatStep (MkSys d fl) (MkSys d' fl).
Proof.
  intros Hn Hok. unfold compress, sbind, sget, slift. destruct (get_conversation c d) as [conv|]; [|by intros [= <- _]].
  destruct (require_workspace_access _ _); [|by intros [= <- _]].
  set (ms := load_active_messages from_slice c d).
  assert (forall m, m ∈ compression_targets keep ms -> exists row, row ∈ of_conv c (messages d) /\ ms_id row = mg_id m) as Hin.
  { intros m [_ Hm]%list_elem_of_filter. unfold ms, load_active_messages in Hm. apply list_elem_of_fmap in Hm as (row & -> & Hrow).
    rewrite active_rows_ok in Hrow by done. apply list_elem_of_filter in Hrow as [_ Hrow]. by exists row. }
  destruct (emit _); [|by intros [= <- _]]. destruct (compression_targets keep ms) as [|t ts]; [by intros [= <- _]|].
  destruct (on_models _ d) as [d1 r1] eqn:H1. apply on_models_inv in H1 as (x1 & ->).
  destruct r1; [|intros [= <- _]; by apply same_run]. destruct (hydrate _ _ _ _ _); [|intros [= <- _]; by apply same_run].
  destruct (compress_loop _ _ _ _ _ _ _ _ _) as [d2 r2] eqn:H2.
  eapply (compress_loop_run c) in H2; [|exact Hn|exact Hin]. intros H.
  etransitivity; [by apply (same_run d (set_models x1 d))|]. etransitivity; [exact H2|].
  destruct r2; [|injection H as <- _; done]. eapply rtc_l; [by eapply (StepCompressed (fr_later f) c)|]. apply same_run.
  unfold sput, statement, insert_compression in H. destruct (_ || _); [injection H as <- _; done|].
  destruct (get_conversation _ _); injection H as <- _; done.
Qed.

Lemma put_context_same k row d d' r : statement (λ d, put_context k (row d) d) d = (d', r) -> same_rows d d'.
Proof. unfold statement, put_context. destruct (context_known _ _ d); intros [= <- _]; done. Qed.

Lemma set_channel_model_same actor channel key purpose preset d d' r :
  set_channel_model actor channel key purpose preset d = (d', r) -> same_rows d d'.
Proof.
  unfold set_channel_model, sbind, sget, slift. destruct (require_workspace actor); [|by intros [= <- _]].
  destruct (negb (purpose_ok purpose)); [by intros [= <- _]|]. destruct preset as [pid|].
  - destruct (ok_or _ _); [|by intros [= <- _]]. destruct (_ && _); [by intros [= <- _]|].
    destruct (negb _); [by intros [= <- _]|]. apply put_context_same.
  - apply put_context_same.
Qed.

(** The conversation a command works on under its lock. *)
Definition locked_conversation (command : ChatCommand) : option string :=
  match command with
  | SendMessage c _ _ _ _ _ _ | UndoLastTurn c _ _ _ _ | RegenerateReply c _ _ _ _ _ | RetryGeneration c _ _ _ _
  | CompressHistory c _ _ _ _ _ => Some c
  | _ => None
  end.

(** A command that has the lock is a run of steps that ends with the lock released. *)
Lemma command_run f actor command d d' r fl :
  (forall c, locked_conversation command = Some c -> fl !! c = None) -> chat_ok d ->
  chat_execute f actor command d = (d', r) -> rtc ChatStep (MkSys d fl) (MkSys d' fl).
Proof.
  intros Hn Hok. destruct command as [ch channel key client|ch channel key|c channel key|c text channel key client expected preset
    |c channel key client expected|c channel key client expected preset|c op channel key client|c channel key client keep preset
    |channel key purpose preset]; simpl in *.
  - intros H. by eapply step_once, StepStart.
  - unfold select_character_context, sbind, sget, slift. destruct (require_workspace actor); [|by intros [= <- _]].
    destruct (ok_or _ _); [|by intros [= <- _]]. destruct (negb _); [by intros [= <- _]|]. unfold statement, put_context. cbv zeta.
    destruct (context_known _ _ d); intros [= <- _]; by apply same_run.
  - unfold sbind, sget, slift. destruct (get_conversation c d) as [conv|]; [|by intros [= <- _]].
    destruct (require_workspace_access _ _); [|by intros [= <- _]].
    destruct (persist_channel_context actor channel key conv d) as [d1 r1] eqn:Hp. apply persist_same in Hp.
    destruct r1; intros [= <- _]; by apply same_run.
  - destruct (is_blank text); [by intros [= <- _]|]. intros H. eapply send_run; [|exact H]. by apply Hn.
  - intros H. eapply step_once, StepUndo; [|exact H]. by apply Hn.
  - intros H. eapply send_run; [|exact H]. by apply Hn.
  - unfold retry_generation. unfold sbind at 1, sget at 1. unfold sbind at 1, slift at 1. destruct (ok_or _ _) as [run|]; [|by intros [= <- _]].
    destruct (negb _); [by intros [= <- _]|]. destruct (negb _); [by intros [= <- _]|].
    intros H. eapply send_run; [|exact H]. by apply Hn.
  - intros H. eapply (compress_run f actor c); [by apply Hn|done|exact H].
  - unfold sbind. destruct (set_channel_model actor channel key purpose preset d) as [d1 r1] eqn:Hs. apply set_channel_model_same in Hs.
    destruct r1; intros [= <- _]; by apply same_run.
Qed.

(** ** Taking back what was sent *)

Lemma last_undoable_last c d l x :
  chat_ok d -> of_conv_turns c (turns d) = l ++ [x] -> tn_status x ∈ ["complete"; "failed"; "pending"] ->
  last_undoable_turn c d = Ok (tn_id x).
Proof.
  intros Hok Hl Hx. pose proof (ok_ord _ Hok c) as Hs. rewrite Hl in Hs. unfold last_undoable_turn.
  rewrite (filter_split _ (λ t, tn_conversation_id t = c) (λ t, tn_status t ∈ ["complete"; "failed"; "pending"])) by done.
  fold (of_conv_turns c (turns d)). rewrite Hl, filter_app. rewrite (filter_cons _ x), decide_True, filter_nil by done.
  set (k := filter _ l).
  assert (forall y, y ∈ k -> (tn_ordinal y < tn_ordinal x)%Z) as Hlt.
  { intros y [_ Hy]%list_elem_of_filter. eapply (sorted_app_related ord_lt l [x]); [done|done|set_solver]. }
  destruct (sort_by later_turn (k ++ [x])) as [|h rest] eqn:Hsort.
  { pose proof (sort_by_perm later_turn (k ++ [x])) as Hp. rewrite Hsort in Hp. apply Permutation_length in Hp.
    rewrite length_app in Hp. simpl in Hp. lia. }
  cut (h = x); [by intros ->|]. assert (h ∈ k ++ [x]) as Hh by (rewrite <- (sort_by_elem later_turn), Hsort; set_solver).
  apply elem_of_app in Hh as [Hh| ->%list_elem_of_singleton]; [|done]. exfalso. apply Hlt in Hh.
  assert (x ∈ h :: rest) as Hin by (rewrite <- Hsort; apply sort_by_elem; set_solver).
  pose proof (sort_by_sorted later_turn) as Hss. specialize (Hss ltac:(unfold later_turn; intros; lia) ltac:(unfold later_turn; intros; lia) (k ++ [x])).
  rewrite Hsort in Hss. inversion Hss as [|? ? _ Hall]; subst. apply elem_of_cons in Hin as [->|Hin]; [lia|].
  rewrite Forall_forall in Hall. apply Hall in Hin. unfold later_turn in Hin. lia.
Qed.

(** The conversation after a send, whatever became of it: new messages of the new turn, the last one. *)
Record sent (c t : string) (d d2 : ChatDB) : Prop := {
  se_ok : chat_ok d2;
  se_messages : exists new, of_conv c (messages d2) = of_conv c (messages d) ++ new /\ Forall (λ m, ms_turn_id m = Some t) new;
  se_turn : last_undoable_turn c d2 = Ok t;
  se_new : forall m, m ∈ messages d -> ms_turn_id m <> Some t;
}.

Lemma begun_last f actor c text o expected preset d d1 p :
  send_begin f actor c text o expected preset d = (d1, Ok p) -> chat_ok d ->
  of_conv_turns c (turns d1) = of_conv_turns c (turns d) ++ [MkTurnRow (fr_turn f) c (next_ordinal c d) "pending" (actor_id actor) None]
  /\ (forall m, m ∈ messages d -> ms_turn_id m <> Some (fr_turn f)) /\ pg_turn_id p = fr_turn f
  /\ (og_kind o <> "regenerate" -> pg_supersedes_message_id p = None).
Proof.
  intros (conv & name & Hl & _ & Hb & _ & _ & Hpt & _ & _ & Hsup)%send_begin_inv Hok.
  assert (cv_id conv = c) as Hid.
  { unfold load_conversation in Hl. apply fmap_Some in Hl as (row & Hrow & ->). by apply (ok_key _ Hok). }
  destruct Hb as [_ Ht _ _ _ _ _ Hnt _]. rewrite Hid in Ht. split; [|split; [|split; [done|]]].
  - rewrite Ht. unfold of_conv_turns. by rewrite filter_app, (filter_cons _ (MkTurnRow _ _ _ _ _ _)), decide_True.
  - intros m Hm Hmt. destruct (ok_turn _ Hok m _ Hm Hmt) as (x & Hx & Hxid & _). by apply (Hnt x).
  - intros Hk. destruct (pg_supersedes_message_id p) as [i|]; [|done]. by destruct (Hsup i eq_refl).
Qed.

Lemma send_is_sent f actor c text o expected preset d d1 p d2 r :
  chat_ok d -> og_kind o <> "regenerate" ->
  send_begin f actor c text o expected preset d = (d1, Ok p) -> send_end f p d1 = (d2, r) -> sent c (fr_turn f) d d2.
Proof.
  intros Hok Hk Hb He. destruct (begun_last _ _ _ _ _ _ _ _ _ _ Hb Hok) as (Ht1 & Hnew & Hpt & Hsup). specialize (Hsup Hk).
  destruct (send_begin_flight _ _ _ _ _ _ _ _ _ _ _ _ _ _ _ Hb Hok) as (Hok1 & Hf & _).
  pose proof (fo_messages _ _ _ Hf) as Hm1. pose proof (fo_user _ _ _ Hf) as Hu. simpl in Hm1, Hu. rewrite Hsup in Hm1. simpl in Hm1.
  assert (Forall (λ m, ms_turn_id m = Some (fr_turn f)) (added c d d1)) as Hau.
  { apply Forall_forall. intros m Hm. rewrite <- Hpt. by destruct (Hu m Hm) as (_ & ? & _). }
  assert (sent c (fr_turn f) d d1) as Hd1.
  { split; [done|by exists (added c d d1)| |done]. by rewrite (last_undoable_last c d1 _ _ Hok1 Ht1) by set_solver. }
  apply send_end_inv in He as [->|(reply & status & error & [u|e] & Hw)]; [done| |by apply transaction_err in Hw as ->].
  apply write_outcome_inv in Hw as Hen. pose proof (ended_ok _ _ (MkFlight p _ _) _ _ _ _ _ _ Hf Hen Hok1) as Hok2. simpl in Hok2.
  destruct Hen as [Hm Ht _ _ _ _]. split; [done| | |done].
  - rewrite Hm, Hsup. pose proof (fo_conversation _ _ _ Hf) as Hpc. simpl in Hpc. destruct (status =?= GenCompleted).
    + exists (added c d d1 ++ [reply_row value_to_string f p reply]). rewrite of_conv_app, Hm1, (of_conv_all c [_]), <- app_assoc
        by (constructor; [done|constructor]). split; [done|]. apply Forall_app. split; [done|]. constructor; [simpl; congruence|constructor].
    + by exists (added c d d1).
  - assert (exists l s r', of_conv_turns c (turns d2) = l ++ [MkTurnRow (fr_turn f) c (next_ordinal c d) s (actor_id actor) r'] /\ s ∈ ["complete"; "failed"; "pending"]) as (l & s & r' & Hs & Hin).
    { rewrite Ht, Hpt. unfold set_turn. rewrite of_conv_turns_map by apply set_turn_keeps. rewrite Ht1, fmap_app. cbn [fmap list_fmap tn_id].
      rewrite (bool_decide_eq_true_2 (fr_turn f = fr_turn f)) by done. simpl.
      destruct (status =?= GenCompleted); do 3 eexists; (split; [reflexivity|set_solver]). }
    by rewrite (last_undoable_last c d2 _ _ Hok2 Hs) by done.
Qed.

Lemma active_revoked t l : filter is_shown (revoke_messages t l) = filter (λ m, ms_turn_id m <> Some t) (filter is_shown l).
Proof.
  induction l as [|m l IH]; [done|]. unfold revoke_messages. cbn [fmap list_fmap]. rewrite !filter_cons.
  fold (revoke_messages t l). destruct (decide (is_shown m)) as [Ha|Ha]; unfold is_shown in Ha.
  - rewrite filter_cons. case_bool_decide as Hb.
    + destruct (decide (is_shown (set_message_status "revoked" m))) as [Hs|_]; [discriminate Hs|]. rewrite decide_False by tauto. apply IH.
    + destruct (decide (is_shown m)) as [_|Hs]; [|done]. rewrite decide_True by tauto. f_equal. apply IH.
  - rewrite bool_decide_eq_false_2 by tauto. destruct (decide (is_shown m)) as [Hs|_]; [done|]. apply IH.
Qed.

(** C26: undoing takes back a send, or a retry. However the generation ended, completed, failed, or cut short after its first
    transaction, a new undo that follows and succeeds leaves the history that was there before it was begun. New means: without
    a client turn id, or with one under which no undo of this user is stored for this channel (a repeated one only replays). *)
Theorem undo_takes_back_send f actor c text o expected preset d d1 p d2 r f' actor' channel key client expected' d3 out :
  chat_ok d -> og_kind o <> "regenerate" ->
  send_begin f actor c text o expected preset d = (d1, Ok p) -> send_end f p d1 = (d2, r) ->
  new_undo actor' channel key client d2 ->
  undo f' actor' c channel key client expected' d2 = (d3, Ok out) ->
  active_rows c d3 = active_rows c d.
Proof.
  intros Hok Hk Hb He Hnu Hu. destruct (send_is_sent _ _ _ _ _ _ _ _ _ _ _ _ Hok Hk Hb He) as [Hok2 (new & Hm & Hnew) Ht Hn].
  apply undo_inv in Hu as [[_ Hr]|(t & Ht' & Hud)]; [by discriminate (Hr Hnu)| |done].
  rewrite Ht in Ht'. injection Ht' as <-. pose proof (undone_ok _ _ _ _ _ Hud Hok2) as Hok3. destruct Hud as [Hmu _ _].
  rewrite !active_rows_ok by done. rewrite Hmu. unfold revoke_messages. rewrite of_conv_map by apply revoke_keeps.
  fold (revoke_messages (fr_turn f)). rewrite Hm. fold (revoke_messages (fr_turn f) (of_conv c (messages d) ++ new)).
  rewrite active_revoked, filter_app, filter_app.
  rewrite (filter_all_kept _ (filter is_shown (of_conv c (messages d)))).
  - rewrite (filter_none_kept _ (filter is_shown new)); [by rewrite app_nil_r|].
    intros m [_ Hin]%list_elem_of_filter Hne. rewrite Forall_forall in Hnew. apply Hne. by apply Hnew.
  - intros m [_ Hin]%list_elem_of_filter. apply Hn. by apply list_elem_of_filter in Hin as [_ ?].
Qed.

(** ** Repeated sends *)

Lemma run_of_app actor o k d d' r :
  run_of actor o k d = None -> generation_runs d' = generation_runs d ++ [r] -> gr_actor_id r = actor_id actor ->
  gr_channel r = og_channel o -> gr_external_context_key r = og_key o -> gr_operation_kind r = og_kind o ->
  gr_client_turn_id r = Some k -> run_of actor o k d' = Some r.
Proof.
  unfold run_of. rewrite fmap_None. intros Hn -> H1 H2 H3 H4 H5. rewrite list_find_app_r by done. simpl. rewrite decide_True by done. done.
Qed.

Lemma run_of_finish actor o k d d' r id status error json :
  run_of actor o k d = Some r -> gr_id r = id -> generation_runs d' = finish_run id status error json (generation_runs d) ->
  exists r', run_of actor o k d' = Some r' /\ gr_id r' = id /\ gr_status r' = status /\ gr_result_json r' = Some json
    /\ gr_conversation_id r' = gr_conversation_id r.
Proof.
  unfold run_of. intros ([i r0] & Hf & ->)%fmap_Some Hid ->. simpl in Hid. unfold finish_run.
  set (g := λ x, if gr_id x =?= id then _ else x). rewrite list_find_fmap.
  rewrite (list_find_ext _ (λ r, gr_actor_id r = actor_id actor ∧ gr_channel r = og_channel o ∧ gr_external_context_key r = og_key o
    ∧ gr_operation_kind r = og_kind o ∧ gr_client_turn_id r = Some k)).
  - rewrite Hf. simpl. exists (g r0). split; [done|]. unfold g. by rewrite bool_decide_eq_true_2.
  - intros x. simpl. unfold g. by case_bool_decide.
Qed.

Lemma replay_None actor o k d : og_client_turn_id o = Some k -> replay_or_start from_slice actor o d = Ok None -> run_of actor o k d = None.
Proof.
  intros Hk. unfold replay_or_start. rewrite Hk. destruct (run_of actor o k d) as [r|]; [|done].
  destruct (default _ _); try done. by destruct (get_conversation _ d).
Qed.

(** The run of a generation that was sent and answered. *)
Lemma sent_run f actor c text o expected preset d d1 k out :
  og_client_turn_id o = Some k -> replay_or_start from_slice actor o d = Ok None ->
  send_or_regenerate f actor c text o expected preset d = (d1, Ok out) ->
  exists r reply, run_of actor o k d1 = Some r /\ gr_id r = co_operation_id out /\ gr_status r = "completed"
    /\ gr_result_json r = Some (value_to_string (JObject [("reply_text", JString reply); ("assistant_message_id", JString (fr_reply f))]))
    /\ co_reply_text out = Some reply /\ is_ok (get_conversation (gr_conversation_id r) d1) = true.
Proof.
  intros Hk Hr H. unfold send_or_regenerate in H. run_inv H rp d0 H0. injection H0 as <- <-. rewrite Hr in H.
  run_inv H rp d0 H0. unfold slift in H0. injection H0 as <- <-. run_inv H p d2 Hb.
  apply send_begin_inv in Hb as (conv & name & Hl & _ & Hb & Hop & Hpc & _).
  destruct (bg_run _ _ _ _ _ _ _ _ Hb) as (r & Hruns & Hid & Ha & Hch & Hkey & Hkind & Hcl & Hcv & _).
  apply (replay_None _ _ _ _ Hk) in Hr. rewrite Hk in Hcl. pose proof (run_of_app _ _ _ _ _ _ Hr Hruns Ha Hch Hkey Hkind Hcl) as Hrun.
  unfold send_end in H. run_inv H u d3 H3. unfold slift in H3. injection H3 as <- _.
  destruct (stream_chat _ _) as [completion|e]; [|discriminate]. unfold complete_generation in H.
  run_inv H u1 d4 H4. apply write_outcome_inv in H4 as [_ _ Hfin _ _ _].
  run_inv H u2 d5 H5. unfold slift in H5. injection H5 as <- _.
  run_inv H cv d6 H6. injection H6 as <- <-. run_inv H cv d7 H7. unfold slift in H7. injection H7 as <- Hget. injection H as <- <-.
  destruct (run_of_finish _ _ _ _ _ _ _ _ _ _ Hrun (eq_trans Hid (eq_sym Hop)) Hfin) as (r' & Hr' & Hi' & Hs' & Hj' & Hc').
  do 2 eexists. split; [exact Hr'|]. split; [exact Hi'|]. split; [exact Hs'|]. split; [exact Hj'|]. split; [done|].
  by rewrite Hc', Hcv, <- Hpc, Hget.
Qed.

(** A turn is sent once. When a send, a regeneration or a retry with a client turn id was answered, the same command
    again, whatever its other arguments, returns the operation and the reply of the first and changes nothing; and a
    twin that passed the check before the first was begun is refused by the key of the run and changes no conversation,
    turn or message. *)
Theorem turn_is_sent_once f actor c text o expected preset d d1 k out :
  (forall reply id, let v := JObject [("reply_text", JString reply); ("assistant_message_id", JString id)] in
    from_slice (value_to_string v) = Ok v) ->
  og_client_turn_id o = Some k -> send_or_regenerate f actor c text o expected preset d = (d1, Ok out) ->
  (forall f' c' text' expected' preset', exists out',
    send_or_regenerate f' actor c' text' o expected' preset' d1 = (d1, Ok out')
    /\ co_operation_id out' = co_operation_id out /\ co_reply_text out' = co_reply_text out)
  /\ (forall f' c' text' expected' preset' d2 r',
    send_begin f' actor c' text' o expected' preset' d1 = (d2, r') -> is_ok r' = false /\ same_rows d1 d2).
Proof.
  intros Hjson Hk H.
  assert (exists r out', run_of actor o k d1 = Some r /\ replay_or_start from_slice actor o d1 = Ok (Some out')
    /\ co_operation_id out' = co_operation_id out /\ co_reply_text out' = co_reply_text out) as (r & out' & Hrun & Hrep & Ho1 & Ho2).
  { destruct (replay_or_start from_slice actor o d) as [[out'|]|e] eqn:Hr.
    - assert (d1 = d /\ out' = out) as [-> ->] by (unfold send_or_regenerate, sbind, sget, slift in H; rewrite Hr in H; by injection H).
      unfold replay_or_start in Hr. rewrite Hk in Hr. destruct (run_of actor o k d) as [r|] eqn:E; [|done]. exists r, out.
      split; [done|]. unfold replay_or_start. by rewrite Hk, E.
    - destruct (sent_run _ _ _ _ _ _ _ _ _ _ _ Hk Hr H) as (r & reply & Hrun & Hid & Hst & Hj & Hrt & Hg).
      exists r. destruct (get_conversation (gr_conversation_id r) d1) as [conv|] eqn:Hc; [|done].
      eexists. split; [done|]. unfold replay_or_start. rewrite Hk, Hrun, Hst. simpl. rewrite Hc, Hj. simpl.
      split; [reflexivity|]. split; [done|]. simpl. unfold stored_reply, value_of. rewrite Hjson. by rewrite Hrt.
    - unfold send_or_regenerate, sbind, sget, slift in H. by rewrite Hr in H. }
  split.
  - intros f' c' text' expected' preset'. exists out'. unfold send_or_regenerate, sbind, sget, slift. by rewrite Hrep.
  - intros f' c' text' expected' preset' d2 [p|e] Hb; [exfalso|split; [done|by eapply send_begin_err]].
    apply send_begin_inv in Hb as (conv & name & _ & _ & Hb & _).
    destruct (bg_run _ _ _ _ _ _ _ _ Hb) as (r2 & _ & _ & Ha & Hch & Hkey & Hkind & Hcl & _ & Huniq).
    unfold run_of in Hrun. apply fmap_Some in Hrun as ([i r0] & Hf & ->). apply list_find_Some in Hf as (Hi & (H1 & H2 & H3 & H4 & H5) & _).
    apply (Huniq r0); [by eapply list_elem_of_lookup_2|]. simpl in *. unfold same_run_key. rewrite Hcl, Hk, H5. repeat split; congruence.
Qed.

(** ** Commands of other workspaces *)

Definition outsider (actor : Actor) (conv : Conversation) : Prop :=
  acc_is_system_admin (act_account actor) = false /\ act_workspace_id actor <> Some (cv_workspace_id conv).

Lemma outsider_refused actor conv : outsider actor conv -> exists e, require_workspace_access actor conv = Err e.
Proof.
  intros [Ha Hw]. unfold require_workspace_access, require_workspace. rewrite Ha. destruct (act_workspace_id actor) as [w|]; simpl; [|eauto].
  rewrite bool_decide_eq_false_2 by congruence. simpl. eauto.
Qed.

(** The conversation a command names, and its client turn id. *)
Definition named_conversation (command : ChatCommand) : option string :=
  match command with SelectConversation c _ _ => Some c | _ => locked_conversation command end.
Definition client_turn_of (command : ChatCommand) : option string :=
  match command with
  | StartConversation _ _ _ k | SendMessage _ _ _ _ k _ _ | UndoLastTurn _ _ _ k _ | RegenerateReply _ _ _ k _ _
  | RetryGeneration _ _ _ _ k | CompressHistory _ _ _ k _ _ => k
  | _ => None
  end.

Lemma send_outsider f actor c text o expected preset d d' r conv :
  load_conversation c d = Some conv -> outsider actor conv ->
  send_or_regenerate f actor c text o expected preset d = (d', r) -> d' = d /\ (og_client_turn_id o = None -> is_ok r = false).
Proof.
  intros Hl (e & He)%outsider_refused. unfold send_or_regenerate, sbind, sget, slift.
  destruct (replay_or_start _ actor o d) as [[out|]|e'] eqn:Hr; [intros [= <- <-]| |by intros [= <- <-]].
  - split; [done|]. intros Hk. unfold replay_or_start in Hr. by rewrite Hk in Hr.
  - unfold send_begin, sbind, sget, slift, get_conversation. rewrite Hl. simpl. rewrite He. by intros [= <- <-].
Qed.

(** A conversation is closed to other workspaces. A command that names it, by an actor who is no system administrator and
    works in another workspace or in none, changes nothing at all, and fails unless it is the repetition of an earlier
    command; and neither the conversation nor its history is shown. *)
Theorem outsiders_change_nothing f actor command c conv d d' r :
  load_conversation c d = Some conv -> outsider actor conv -> named_conversation command = Some c ->
  chat_execute f actor command d = (d', r) ->
  d' = d /\ (client_turn_of command = None -> is_ok r = false)
  /\ is_ok (chat_query from_slice actor (GetConversation c) d) = false
  /\ forall known, is_ok (chat_query from_slice actor (GetHistory c known) d) = false.
Proof.
  intros Hl Hout Hn H. destruct (outsider_refused _ _ Hout) as (e & He).
  assert (d' = d /\ (client_turn_of command = None -> is_ok r = false)) as [-> Hr]; cycle 1.
  { split; [done|]. split; [done|]. unfold chat_query, get_conversation. rewrite Hl. simpl. by rewrite He. }
  destruct command as [| |c' channel key|c' text channel key client expected preset|c' channel key client expected
    |c' channel key client expected preset|c' op channel key client|c' channel key client keep preset|]; simpl in *; try discriminate;
    injection Hn as ->.
  - revert H. unfold sbind, sget, slift, get_conversation. rewrite Hl. simpl. rewrite He. by intros [= <- <-].
  - destruct (is_blank text); [by injection H as <- <-|]. by eapply send_outsider in H.
  - revert H. unfold undo, sbind, sget, slift.
    destruct (replay_channel_command _ actor _ d) as [[out|]|e'] eqn:Hr; [intros [= <- <-]| |by intros [= <- <-]].
    + split; [done|]. intros ->. discriminate Hr.
    + unfold get_conversation. rewrite Hl. simpl. rewrite He. by intros [= <- <-].
  - by eapply send_outsider in H.
  - revert H. unfold retry_generation. unfold sbind at 1, sget at 1. unfold sbind at 1, slift at 1. destruct (ok_or _ _) as [run|]; [|by intros [= <- <-]].
    destruct (negb _); [by intros [= <- <-]|]. destruct (negb _); [by intros [= <- <-]|].
    intros H. by eapply send_outsider in H.
  - revert H. unfold compress, sbind, sget, slift, get_conversation. rewrite Hl. simpl. rewrite He. by intros [= <- <-].
Qed.
End Guarantees.
