(* ===== verification/ChatDemo.v ===== *)
(** * A small chat: the guarantees of [ChatCorrect.v] on concrete tables *)

From S2P Require Import Prelude Text Errors StDomain Engine Prompt CardPng Models Characters Stateful Chat ChatEngine ChatSteps ChatFlights ChatCorrect.

Definition mark_x : Ascii.ascii := Ascii.ascii_of_nat 120.
Definition mark_y : Ascii.ascii := Ascii.ascii_of_nat 121.

(** A text for the stored results: the reply with an [x] before each byte, a [y], and the id. *)
Fixpoint pair_text (a b : string) : string :=
  match a with
  | EmptyString => String mark_y b
  | String c a => String mark_x (String c (pair_text a b))
  end.
Fixpoint text_pair (s : string) : option (string * string) :=
  match s with
  | String m s =>
      if m =?= mark_y then Some (EmptyString, s)
      else match s with
           | String c s => match text_pair s with Some (a, b) => Some (String c a, b) | None => None end
           | EmptyString => None
           end
  | EmptyString => None
  end.

Lemma text_pair_text a b : text_pair (pair_text a b) = Some (a, b).
Proof. induction a as [|c a IH]; [done|]. cbn [pair_text text_pair]. rewrite bool_decide_eq_false_2 by done. by rewrite IH. Qed.

Definition demo_to_string (v : Value) : string :=
  match v with JObject [(_, JString a); (_, JString b)] => pair_text a b | _ => "{}" end.
Definition demo_from_slice (s : string) : result Value string :=
  match text_pair s with
  | Some (a, b) => Ok (JObject [("reply_text", JString a); ("assistant_message_id", JString b)])
  | None => Err "no"
  end.

Lemma demo_json reply id : let v := JObject [("reply_text", JString reply); ("assistant_message_id", JString id)] in
  demo_from_slice (demo_to_string v) = Ok v.
Proof. simpl. unfold demo_from_slice. by rewrite text_pair_text. Qed.

(** A character of workspace [w1], whose models are those of [demo_models]. *)
Definition demo_cast : CharDB :=
  MkCharDB [MkCharacterRow "c1" "w1" "Ann" (Some "r1") false]
    [MkRevisionRow "r1" "c1" "json" None None "{}" "{}" None "sum" "[]"] [] ∅ {["w1"; "w2"]}.
Definition demo_chat0 : ChatDB := MkChatDB demo_models demo_cast {["owner"]} ∅ [] [] [] [] ∅ [].

Lemma demo_chat0_ok : chat_ok demo_chat0.
Proof.
  split; simpl; try (by constructor); try (by intros ? ?%not_elem_of_nil); try (by intros ? ? ?%not_elem_of_nil); by constructor || done.
Qed.

Definition demo_fresh (n : string) : Fresh :=
  MkFresh ("op" +:+ n) ("v" +:+ n) ("t" +:+ n) ("m" +:+ n) ("a" +:+ n) ("now" +:+ n) ("later" +:+ n).
Definition demo_llm (p : ResolvedProvider) (r : LlmRequest) : AppResult LlmCompletion := Ok (MkLlmCompletion "Hi there" None None).
Definition demo_llm_down (p : ResolvedProvider) (r : LlmRequest) : AppResult LlmCompletion := Err (internal "down").
Definition demo_emit (e : ProgressEvent) : AppResult unit := Ok tt.

Notation demo_begin := (send_begin demo_from_slice demo_to_string (λ _, JNull) None (λ s, s)).
Notation demo_execute llm := (chat_execute demo_from_slice demo_to_string (λ _, JNull) None (λ s, s) llm demo_emit).
Notation demo_step := (ChatStep demo_from_slice demo_to_string (λ _, JNull) None (λ s, s)).

Definition demo_chat1 : ChatDB := (demo_execute demo_llm (demo_fresh "1") demo_owner (StartConversation "c1" "web" "k" (Some "s1")) demo_chat0).1.

Definition dummy_prepared : PreparedGeneration :=
  MkPrepared "" "" "" 0 "" (MkResolvedProvider "" "" None [] "" "" demo_temp demo_temp 0 0 0) [] 0 None.
Definition prepared_of (r : ChatDB * AppResult PreparedGeneration) : PreparedGeneration :=
  match r.2 with Ok p => p | Err _ => dummy_prepared end.

(** A regeneration of the opening, in flight. *)
Definition demo_origin (kind : string) (client : option string) : Origin := MkOrigin "web" "k" kind client.
Definition demo_begun : ChatDB * AppResult PreparedGeneration :=
  demo_begin (demo_fresh "2") demo_owner "v1" None (demo_origin "regenerate" None) (Some 1%Z) None demo_chat1.
Definition demo_flight : Flight :=
  MkFlight (prepared_of demo_begun) (of_conv "v1" (messages demo_chat1)) (added "v1" demo_chat1 demo_begun.1).

Definition history_of (c : string) (d : ChatDB) : list string := ms_content_original <$> active_rows c d.


Lemma demo_started : rtc demo_step (MkSys demo_chat0 ∅) (MkSys demo_chat1 ∅).
Proof. apply rtc_once. eapply StepStart. apply surjective_pairing. Qed.

Lemma demo_chat1_ok : chat_ok demo_chat1.
Proof.
  refine (proj1 (chat_run_ok _ _ _ _ _ _ _ demo_started _)). split; [apply demo_chat0_ok|]. intros c x. simpl. by rewrite lookup_empty.
Qed.

(** The opening is regenerated: with an answer it is replaced, without one it is back. *)
Lemma generation_lands_witness :
  (exists d', write_outcome demo_to_string (demo_fresh "2") (fl_prepared demo_flight) "Once upon" GenCompleted None demo_begun.1 = (d', Ok tt)
    /\ history_of "v1" d' = ["Once upon"])
  /\ (exists d', write_outcome demo_to_string (demo_fresh "2") (fl_prepared demo_flight) "Once upon" GenFailed (Some "down") demo_begun.1
                   = (d', Ok tt)
    /\ history_of "v1" d' = history_of "v1" demo_chat1).
Proof.
  destruct (generation_lands demo_from_slice demo_to_string (λ _, JNull) None (λ s, s) demo_chat0
    (MkSys demo_begun.1 (<["v1" := demo_flight]> ∅)) "v1" demo_flight (demo_fresh "2") "Once upon" (Some "down") demo_chat0_ok)
    as [(d1 & H1 & Ha1) (d2 & H2 & Ha2)].
  - eapply rtc_r; [exact demo_started|]. eapply (StepBegin _ _ _ _ _ (demo_fresh "2") demo_owner "v1" None (demo_origin "regenerate" None) (Some 1%Z) None);
      [done|]. vm_compute. reflexivity.
  - apply lookup_insert_eq.
  - apply Forall_forall. vm_compute. repeat constructor; discriminate.
  - split.
    + exists d1. split; [exact H1|]. unfold history_of. rewrite Ha1. vm_compute. reflexivity.
    + exists d2. split; [exact H2|]. unfold history_of. rewrite Ha2. vm_compute. reflexivity.
Defined.

(** A message whose answer did not come, and its undo. *)
Definition demo_hello : ChatDB * AppResult PreparedGeneration :=
  demo_begin (demo_fresh "2") demo_owner "v1" (Some "Hello") (demo_origin "send" (Some "s2")) None None demo_chat1.
Definition demo_failed : ChatDB * AppResult ChatOutcome :=
  send_end demo_to_string demo_llm_down demo_emit (demo_fresh "2") (prepared_of demo_hello) demo_hello.1.
Definition demo_undone : ChatDB * AppResult ChatOutcome :=
  undo demo_from_slice (demo_fresh "3") demo_owner "v1" "web" "k" (Some "u1") None demo_failed.1.

Lemma undo_takes_back_send_witness :
  history_of "v1" demo_failed.1 = history_of "v1" demo_chat1 ++ ["Hello"]
  /\ active_rows "v1" demo_undone.1 = active_rows "v1" demo_chat1.
Proof.
  split; [vm_compute; reflexivity|].
  assert (exists out, demo_undone.2 = Ok out) as (out & Hout) by (eexists; vm_compute; reflexivity).
  refine (undo_takes_back_send demo_from_slice demo_to_string (λ _, JNull) None (λ s, s) demo_llm_down demo_emit (demo_fresh "2") demo_owner
    "v1" (Some "Hello") (demo_origin "send" (Some "s2")) None None demo_chat1 demo_hello.1 (prepared_of demo_hello) demo_failed.1 demo_failed.2
    (demo_fresh "3") demo_owner "web" "k" (Some "u1") None demo_undone.1 out demo_chat1_ok _ _ _ _ _).
  - discriminate.
  - vm_compute. reflexivity.
  - apply surjective_pairing.
  - intros k [= <-]. vm_compute. reflexivity.
  - rewrite <- Hout. apply surjective_pairing.
Defined.

(** A message that was answered, sent again. *)
Definition demo_answered : ChatDB * AppResult ChatOutcome :=
  send_or_regenerate demo_from_slice demo_to_string (λ _, JNull) None (λ s, s) demo_llm demo_emit (demo_fresh "2") demo_owner "v1"
    (Some "Hello") (demo_origin "send" (Some "s2")) None None demo_chat1.

Lemma turn_is_sent_once_witness :
  exists out, demo_answered.2 = Ok out /\ co_reply_text out = Some "Hi there"
    /\ exists out', send_or_regenerate demo_from_slice demo_to_string (λ _, JNull) None (λ s, s) demo_llm demo_emit (demo_fresh "3") demo_owner
                       "v1" (Some "Hello") (demo_origin "send" (Some "s2")) None None demo_answered.1 = (demo_answered.1, Ok out')
                     /\ co_operation_id out' = co_operation_id out /\ co_reply_text out' = co_reply_text out.
Proof.
  assert (exists out, demo_answered.2 = Ok out /\ co_reply_text out = Some "Hi there") as (out & Hout & Hre)
    by (vm_compute; eexists; split; reflexivity).
  exists out. split; [exact Hout|]. split; [exact Hre|].
  refine (proj1 (turn_is_sent_once demo_from_slice demo_to_string (λ _, JNull) None (λ s, s) demo_llm demo_emit (demo_fresh "2") demo_owner
    "v1" (Some "Hello") (demo_origin "send" (Some "s2")) None None demo_chat1 demo_answered.1 "s2" out demo_json eq_refl _) (demo_fresh "3") "v1"
    (Some "Hello") None None).
  rewrite <- Hout. apply surjective_pairing.
Defined.

(** Someone of the other workspace. *)
Definition demo_stranger : Actor :=
  {| act_account := {| acc_id := "eve"; acc_username := "eve"; acc_display_name := "Eve"; acc_is_system_admin := false;
                       acc_disabled_at := None; acc_legacy_st_handle := None |};
     act_workspace_id := Some "w2"; act_workspace_role := Some RoleOwner |}.

Definition demo_intrusion : ChatDB * AppResult ChatOutcome :=
  demo_execute demo_llm (demo_fresh "9") demo_stranger (SendMessage "v1" "Hello" "web" "k" None None None) demo_chat1.

Lemma outsiders_change_nothing_witness :
  demo_intrusion.1 = demo_chat1
  /\ is_ok (chat_query demo_from_slice demo_stranger (GetConversation "v1") demo_chat1) = false.
Proof.
  assert (exists conv, load_conversation "v1" demo_chat1 = Some conv /\ cv_workspace_id conv = "w1") as (conv & Hl & Hw)
    by (vm_compute; eexists; split; reflexivity).
  destruct (outsiders_change_nothing demo_from_slice demo_to_string (λ _, JNull) None (λ s, s) demo_llm demo_emit (demo_fresh "9") demo_stranger
    (SendMessage "v1" "Hello" "web" "k" None None None) "v1" conv demo_chat1 demo_intrusion.1 demo_intrusion.2 Hl) as (H1 & _ & H2 & _).
  - split; [reflexivity|]. rewrite Hw. discriminate.
  - reflexivity.
  - apply surjective_pairing.
  - split; [exact H1|exact H2].
Defined.

(** ** What the engine does not do *)

(** An undo after a regeneration takes the new reply back, and the reply it replaced does not return. *)
Example regenerate_is_not_undone :
  let d1 := (demo_execute demo_llm (demo_fresh "2") demo_owner (RegenerateReply "v1" "web" "k" None None None) demo_chat1).1 in
  let d2 := (demo_execute demo_llm (demo_fresh "3") demo_owner (UndoLastTurn "v1" "web" "k" None None) d1).1 in
  history_of "v1" d1 = ["Hi there"] /\ history_of "v1" d2 = [].
Proof. vm_compute. auto. Qed.

(** A sink that fails when the generation starts leaves its run started for good: the same command is in progress each time
    it is asked, and a retry is refused. *)
Example stuck_after_failed_sink :
  let execute emit := chat_execute demo_from_slice demo_to_string (λ _, JNull) None (λ s, s) demo_llm emit in
  let send := SendMessage "v1" "Hello" "web" "k" (Some "s2") None None in
  let d := (execute (λ _, Err (internal "gone")) (demo_fresh "2") demo_owner send demo_chat1).1 in
  match (execute demo_emit (demo_fresh "3") demo_owner send d).2 with
  | Ok out => co_in_progress out = true /\ co_operation_id out = "op2"
  | Err _ => False
  end
  /\ (execute demo_emit (demo_fresh "4") demo_owner (RetryGeneration "v1" "op2" "web" "k" None) d).2
     = Err (conflict "OPERATION_NOT_RETRYABLE" "operation is not retryable").
Proof. vm_compute. auto. Qed.

(** An operation and its reply are shown to anyone who knows its id, and the conversations of a workspace to anyone who names it. *)
Example operations_are_open :
  (exists view, chat_query demo_from_slice demo_stranger (GetOperation "op2") demo_answered.1 = Ok view /\ is_Some (vw_operation view))
  /\ (exists view, chat_query demo_from_slice demo_stranger (ListConversations (Some "w1")) demo_answered.1 = Ok view
        /\ length (vw_conversations view) = 1).
Proof. vm_compute. split; eexists; split; eauto. Qed.
