(* ===== verification/Decoder.v ===== *)
(** * SillyTavern payloads ([src/adapters/st/decoder.rs])

    What the bridge reads out of SillyTavern's own JSON answers: the character and
    chat lists, the generation settings (a JSON document inside a string field) and
    the model catalogue.  A field of the wrong type counts as absent, an item
    without a name is skipped, and only a payload of the wrong shape is an error.
    [serde_json::from_slice] and the SHA-256 digest of the error mapper are
    parameters.  At the end the derived decoders of the other wire formats. *)

From S2P Require Import Prelude Text Errors StDomain ErrorMapper TelegramText TelegramInbox Delivery CardPng.
From Stdlib Require Import Lia.

(** ** Text *)

(** [str::trim_end_matches(&str)] for a non-empty pattern: [fuel] bounds the
    number of copies dropped, the length of the text is enough. *)
Fixpoint trim_end_copies (fuel : nat) (p s : string) : string :=
  match fuel with
  | O => s
  | S fuel =>
      if ends_with s p
      then trim_end_copies fuel p (str_take (String.length s - String.length p) s)
      else s
  end.
Definition trim_end_matches (p s : string) : string := trim_end_copies (String.length s) p s.

(** [Option::filter(|value| !value.is_empty())]. *)
Definition non_empty (o : option string) : option string :=
  match o with Some s => if s =?= "" then None else Some s | None => None end.

(** The printed form of a number stands for the [f64] it denotes. *)
Definition value_as_f64 (v : Value) : option string :=
  match v with JNumber repr => Some repr | _ => None end.

Definition JSONL : string := ".jsonl".

Definition normalize_chat_file_name (file_name : string) : string :=
  let trimmed := trim file_name in
  if ends_with trimmed JSONL || (trimmed =?= "") then trimmed else trimmed +:+ JSONL.

Definition is_hidden_chat_file (file_name : string) : bool :=
  let lowered := to_ascii_lowercase file_name in
  contains lowered ".pre_compress_" || contains lowered "backup".

(** ** Characters and chats *)

(** [string_field]: the card's own field, or the one of its [data] object. *)
Definition card_field (item : Value) (key : string) : string :=
  default "" (or_else (get_str item key)
                (match value_get item "data" with Some data => get_str data key | None => None end)).

Definition character_summary (item : Value) : option StCharacterSummary :=
  let avatar := trim (default "" (get_str item "avatar")) in
  if avatar =?= "" then None else
  let name :=
    default "Unknown"
      (or_else (non_empty (get_str item "name"))
         (match value_get item "data" with Some data => get_str data "name" | None => None end)) in
  Some {| sc_avatar := avatar; sc_name := name;
          sc_description := card_field item "description";
          sc_personality := card_field item "personality";
          sc_scenario := card_field item "scenario";
          sc_first_mes := card_field item "first_mes";
          sc_mes_example := card_field item "mes_example" |}.

Definition chat_summary (item : Value) : option StChatSummary :=
  let file_name := trim (default "" (get_str item "file_name")) in
  if file_name =?= "" then None else
  if is_hidden_chat_file file_name then None else
  Some {| ch_chat_file := normalize_chat_file_name file_name;
          ch_title := Some (trim_end_matches JSONL file_name);
          ch_updated_at := get_str item "last_mes";
          ch_message_count :=
            match value_get item "message_count" with Some v => value_as_u64 v | None => None end |}.

(** ** Models *)

Definition oai_settings (settings : Value) : Value := default JNull (value_get settings "oai_settings").

(** [custom.or(openai)], each trimmed and not empty. *)
Definition settings_model (oai : Value) : option string :=
  or_else (non_empty (trim <$> get_str oai "custom_model"))
          (non_empty (trim <$> get_str oai "openai_model")).

Definition model_summary (item : Value) : option StModelSummary :=
  match get_str item "id" with
  | None => None
  | Some id =>
      if trim id =?= "" then None
      else Some {| ms_id := trim id; ms_owned_by := get_str item "owned_by" |}
  end.

Definition decode_model_catalog (payload : Value) (current_model : option string) : StModelCatalog :=
  let data := default [] (match value_get payload "data" with Some v => value_as_array v | None => None end) in
  {| mc_models := omap model_summary data; mc_current_model := current_model |}.

Section Decoder.
Context `{IdSource} `{Redactor}.
Context (from_slice : string -> option Value) (sha256_hex : string -> string).

Definition decode_error (stage : StErrorStage) (endpoint_class : option string)
    (failure : StFailureFacts) : StBridgeError :=
  map_st_error from_slice sha256_hex
    {| fact_stage := stage; fact_endpoint_class := endpoint_class;
       fact_operation_id := None; fact_commit_state := NotStarted; fact_attempt := 1;
       fact_duration_ms := None; fact_failure := failure |}.

Definition decode_character_summaries (payload : Value) : StResult (list StCharacterSummary) :=
  match value_as_array payload with
  | None => Err (decode_error StageCatalog (Some "characters") FDecodeInvalidPayload)
  | Some items => Ok (omap character_summary items)
  end.

Definition decode_chat_summaries (payload : Value) : StResult (list StChatSummary) :=
  match value_as_array payload with
  | None => Err (decode_error StageCatalog (Some "chats") FDecodeInvalidPayload)
  | Some items => Ok (omap chat_summary items)
  end.

Definition decode_chat_messages (payload : Value) : StResult (list Value) :=
  ok_or (value_as_array payload)
    (decode_error StageSnapshot (Some "chats/get") FDecodeInvalidPayload).

Definition settings_error : StBridgeError :=
  decode_error StageSnapshot (Some "settings") FDecodeSettings.

Definition parse_settings_object (payload : Value) : StResult Value :=
  let settings_text := default "" (get_str payload "settings") in
  if settings_text =?= "" then Err settings_error
  else ok_or (from_slice settings_text) settings_error.

(** [as u32] keeps the low 32 bits. *)
Definition as_u32 (z : Z) : Z := (z mod 2 ^ 32)%Z.

Definition decode_generation_settings (payload : Value) : StResult StGenerationSettings :=
  let? settings := parse_settings_object payload in
  let oai := oai_settings settings in
  let source := default "custom" (non_empty (get_str oai "chat_completion_source")) in
  let model := default "" (settings_model oai) in
  if model =?= "" then Err settings_error else
  Ok {| gs_username := default "User" (non_empty (trim <$> get_str settings "username"));
        gs_chat_completion_source := source;
        gs_model := model;
        gs_custom_url := default "" (get_str oai "custom_url");
        gs_custom_prompt_post_processing :=
          default "" (get_str oai "custom_prompt_post_processing");
        gs_temperature := default "1.0"
          (match value_get oai "temp_openai" with Some v => value_as_f64 v | None => None end);
        gs_top_p := default "1.0"
          (match value_get oai "top_p_openai" with Some v => value_as_f64 v | None => None end);
        gs_max_tokens := as_u32 (default 1024%Z
          (match value_get oai "openai_max_tokens" with Some v => value_as_u64 v | None => None end)) |}.

Definition decode_settings_model (payload : Value) : StResult (option string) :=
  let? settings := parse_settings_object payload in
  Ok (settings_model (oai_settings settings)).
End Decoder.

(** ** Trimmed texts *)

Lemma trim_start_idemp s : trim_start (trim_start s) = trim_start s.
Proof.
  induction s as [s IH] using (induction_ltof1 _ String.length).
  destruct s as [|a r]; [done |]. cbn [trim_start].
  destruct (ws1 a) eqn:E1; [apply IH; unfold ltof; simpl; lia |].
  destruct r as [|b r]; [cbn [trim_start]; by rewrite E1 |].
  destruct (ws2 a b) eqn:E2; [apply IH; unfold ltof; simpl; lia |].
  destruct r as [|c r]; [cbn [trim_start]; by rewrite E1, E2 |].
  destruct (ws3 a b c) eqn:E3; [apply IH; unfold ltof; simpl; lia |].
  cbn [trim_start]. by rewrite E1, E2, E3.
Qed.

(** A prefix of a text that starts with no blank starts with none. *)
Lemma trim_start_prefix u w : u <> "" -> trim_start (u +:+ w) = u +:+ w -> trim_start u = u.
Proof.
  assert (Hlt : forall s t, String.length s < String.length t -> trim_start s = t -> False).
  { intros s t Hl He. pose proof (trim_start_length s). rewrite He in *. lia. }
  intros Hne. destruct u as [|a u]; [done |]. rewrite !app_string_cons. cbn [trim_start].
  destruct (ws1 a); [intros []%Hlt; simpl; lia |].
  destruct u as [|b u]; [done |]. rewrite !app_string_cons.
  destruct (ws2 a b); [intros []%Hlt; simpl; lia |].
  destruct u as [|c u]; [done |]. rewrite !app_string_cons.
  destruct (ws3 a b c); [intros []%Hlt; simpl; lia | done].
Qed.

Lemma trim_end_idemp s : trim_end (trim_end s) = trim_end s.
Proof.
  induction s as [|a s IH]; [done |]. cbn [trim_end].
  destruct (is_blank (String a s)) eqn:E; [done |]. cbn [trim_end].
  destruct (is_blank (String a (trim_end s))) eqn:E'; [| by rewrite IH].
  destruct (trim_end_split s) as (w & Hs & Hw).
  pose proof (is_blank_app _ _ E' Hw) as Hb. rewrite app_string_cons, <- Hs in Hb. congruence.
Qed.

Lemma trim_idemp s : trim (trim s) = trim s.
Proof.
  unfold trim. destruct (decide (trim_end (trim_start s) = "")) as [->|Hne]; [done |].
  destruct (trim_end_split (trim_start s)) as (w & Hs & _).
  rewrite (trim_start_prefix _ w Hne); [apply trim_end_idemp |].
  rewrite <- Hs. apply trim_start_idemp.
Qed.

Lemma ws2_l a : ws2 a (Ascii.ascii_of_nat 108) = false.
Proof. by destruct a as [[] [] [] [] [] [] [] []]. Qed.

Lemma ws3_l a b : ws3 a b (Ascii.ascii_of_nat 108) = false.
Proof.
  unfold ws3. change (byte_val (Ascii.ascii_of_nat 108)) with 108%N. cbn.
  by rewrite !andb_false_r.
Qed.

Lemma trim_start_l s : trim_start (s +:+ "l") <> "".
Proof.
  induction s as [s IH] using (induction_ltof1 _ String.length).
  assert (IH' : forall r, String.length r < String.length s -> trim_start (r +:+ "l") <> "") by auto.
  clear IH. destruct s as [|a r]; [done |]. rewrite app_string_cons. cbn [trim_start].
  destruct (ws1 a) eqn:E1; [apply IH'; simpl; lia |].
  destruct r as [|b r]; [change ("" +:+ "l") with (String (Ascii.ascii_of_nat 108) ""); cbv beta iota; by rewrite ws2_l |]. rewrite app_string_cons.
  destruct (ws2 a b) eqn:E2; [apply IH'; simpl; lia |].
  destruct r as [|c r]; [change ("" +:+ "l") with (String (Ascii.ascii_of_nat 108) ""); cbv beta iota; by rewrite ws3_l |]. rewrite app_string_cons.
  destruct (ws3 a b c) eqn:E3; [apply IH'; simpl; lia | done].
Qed.

Lemma is_blank_l s : is_blank (s +:+ "l") = false.
Proof. apply bool_decide_eq_false, trim_start_l. Qed.

Lemma trim_end_l s : trim_end (s +:+ "l") = s +:+ "l".
Proof.
  induction s as [|a s IH]; [done |]. rewrite app_string_cons. cbn [trim_end].
  pose proof (is_blank_l (String a s)) as Hb. rewrite app_string_cons in Hb. by rewrite Hb, IH.
Qed.

(** An extension that starts with a full stop leaves the start of a text as it is. *)
Lemma trim_start_dot u x :
  u <> "" -> trim_start u = u -> trim_start (u +:+ String (Ascii.ascii_of_nat 46) (String (Ascii.ascii_of_nat 106) x)) = u +:+ String (Ascii.ascii_of_nat 46) (String (Ascii.ascii_of_nat 106) x).
Proof.
  assert (Hlt : forall s t, String.length s < String.length t -> trim_start s = t -> False).
  { intros s t Hl He. pose proof (trim_start_length s). rewrite He in *. lia. }
  assert (H2 : forall a, ws2 a (Ascii.ascii_of_nat 46) = false) by (by intros [[] [] [] [] [] [] [] []]).
  assert (H3 : forall a b, ws3 a b (Ascii.ascii_of_nat 46) = false).
  { intros a b. unfold ws3. change (byte_val (Ascii.ascii_of_nat 46)) with 46%N. cbn. by rewrite !andb_false_r. }
  assert (H3' : forall a, ws3 a (Ascii.ascii_of_nat 46) (Ascii.ascii_of_nat 106) = false).
  { intros a. unfold ws3. change (byte_val (Ascii.ascii_of_nat 106)) with 106%N. cbn. by rewrite !andb_false_r. }
  intros Hne. destruct u as [|a u]; [done |]. rewrite !app_string_cons. cbn [trim_start].
  destruct (ws1 a); [intros []%Hlt; simpl; lia |].
  destruct u as [|b u]; [intros _; change ("" +:+ ?s) with s; cbv beta iota; by rewrite H2, H3' |]. rewrite !app_string_cons.
  destruct (ws2 a b); [intros []%Hlt; simpl; lia |].
  destruct u as [|c u]; [intros _; change ("" +:+ ?s) with s; cbv beta iota; by rewrite H3 |]. rewrite !app_string_cons.
  destruct (ws3 a b c); [intros []%Hlt; simpl; lia | done].
Qed.

Lemma trim_jsonl s : trim s <> "" -> trim (trim s +:+ JSONL) = trim s +:+ JSONL.
Proof.
  intros Hne. unfold trim at 1. unfold JSONL.
  rewrite trim_start_dot; [| done |].
  - change (trim_end (trim s +:+ (".json" +:+ "l")) = trim s +:+ (".json" +:+ "l")).
    rewrite app_string_assoc. apply trim_end_l.
  - destruct (trim_end_split (trim_start s)) as (w & Hs & _).
    apply (trim_start_prefix _ w Hne). unfold trim. rewrite <- Hs. apply trim_start_idemp.
Qed.

Lemma ends_with_app s p : ends_with (s +:+ p) p = true.
Proof.
  unfold ends_with. rewrite app_string_length. apply andb_true_intro. split.
  - apply Nat.leb_le. lia.
  - apply bool_decide_eq_true. replace (_ - _) with (String.length s) by lia. apply str_drop_exact.
Qed.

(** Normalizing a name once is enough, and what it names has the extension. *)
Lemma normalize_fixed s :
  trim s <> "" ->
  normalize_chat_file_name (normalize_chat_file_name s) = normalize_chat_file_name s
  /\ ends_with (normalize_chat_file_name s) JSONL = true.
Proof.
  intros Hne. unfold normalize_chat_file_name at 2 3 4. cbv zeta.
  rewrite (bool_decide_eq_false_2 (trim s = "")), orb_false_r by done.
  destruct (ends_with (trim s) JSONL) eqn:E.
  - split; [| done]. unfold normalize_chat_file_name. by rewrite trim_idemp, E.
  - split; [| apply ends_with_app]. unfold normalize_chat_file_name.
    by rewrite trim_jsonl, ends_with_app by done.
Qed.

(** ** Names that are kept out of the list *)

(** A match in a concatenation lies in the first part or reaches into the second. *)
Lemma prefix_app_inv p s x :
  String.prefix p (s +:+ x) = true ->
  String.prefix p s = true \/ exists k, k < String.length p /\ String.prefix (str_drop k p) x = true.
Proof.
  revert s. induction p as [|a p IH]; intros [|b s] Hp; [by left | by left | |].
  - right. exists 0. split; [simpl; lia | done].
  - rewrite app_string_cons in Hp. simpl in Hp |- *. case_match; [| done].
    destruct (IH _ Hp) as [?|(k & Hk & Hx)]; [by left |]. right. exists (S k). split; [lia | done].
Qed.

Lemma contains_app_inv s x p :
  p <> "" -> contains x p = false ->
  forallb (λ k, negb (String.prefix (str_drop k p) x)) (seq 0 (String.length p)) = true ->
  contains (s +:+ x) p = true -> contains s p = true.
Proof.
  intros Hne Hx Hk. induction s as [|a s IH]; [intros Hc; change ("" +:+ x) with x in Hc; congruence |].
  rewrite app_string_cons. cbn [contains]. rewrite !orb_true_iff. intros [Hp|Hc]; [| right; auto].
  left. change (String a (s +:+ x)) with (String a s +:+ x) in Hp.
  destruct (prefix_app_inv _ _ _ Hp) as [?|(k & Hlt & Hm)]; [done |].
  rewrite forallb_forall in Hk. specialize (Hk k). rewrite Hm in Hk.
  discriminate Hk. apply in_seq. lia.
Qed.

Lemma to_ascii_lowercase_app s t :
  to_ascii_lowercase (s +:+ t) = to_ascii_lowercase s +:+ to_ascii_lowercase t.
Proof. induction s as [|a s IH]; [done |]. rewrite !app_string_cons. simpl. by rewrite IH, app_string_cons. Qed.

Lemma hidden_jsonl s : is_hidden_chat_file (s +:+ JSONL) = true -> is_hidden_chat_file s = true.
Proof.
  unfold is_hidden_chat_file. rewrite to_ascii_lowercase_app, !orb_true_iff.
  intros [Hc|Hc]; [left | right]; revert Hc; by apply contains_app_inv.
Qed.

Lemma hidden_normalize s :
  is_hidden_chat_file s = false -> trim s = s -> is_hidden_chat_file (normalize_chat_file_name s) = false.
Proof.
  intros Hh Ht. unfold normalize_chat_file_name. rewrite Ht. case_match; [done |].
  destruct (is_hidden_chat_file (s +:+ JSONL)) eqn:E; [| done]. apply hidden_jsonl in E. congruence.
Qed.

Lemma chat_summary_name item c :
  chat_summary item = Some c ->
  normalize_chat_file_name (ch_chat_file c) = ch_chat_file c
  /\ ends_with (ch_chat_file c) JSONL = true /\ is_hidden_chat_file (ch_chat_file c) = false.
Proof.
  unfold chat_summary. set (f := trim _). intros Hc.
  assert (Hf : trim f = f) by apply trim_idemp.
  destruct (f =?= "") eqn:E; [done |]. apply bool_decide_eq_false in E.
  destruct (is_hidden_chat_file f) eqn:Hh; [done |]. injection Hc as <-. cbn [ch_chat_file].
  destruct (normalize_fixed f) as [Hn He]; [by rewrite Hf |].
  split_and!; [done | done | by apply hidden_normalize].
Qed.

Lemma non_empty_Some o s : non_empty o = Some s -> o = Some s /\ s <> "".
Proof. unfold non_empty. destruct o as [t|]; [| done]. case_bool_decide; naive_solver. Qed.

Lemma settings_model_trimmed oai m : settings_model oai = Some m -> m <> "" /\ trim m = m.
Proof.
  unfold settings_model, or_else.
  assert (Ht : forall k, non_empty (trim <$> get_str oai k) = Some m -> m <> "" /\ trim m = m).
  { intros k [Hk Hne]%non_empty_Some. split; [done |].
    destruct (get_str oai k); [| done]. injection Hk as <-. apply trim_idemp. }
  destruct (non_empty (trim <$> get_str oai "custom_model")) eqn:E; [| apply Ht].
  intros Hm. apply (Ht "custom_model"). by rewrite E.
Qed.

Lemma as_u32_range z : (0 <= as_u32 z < 2 ^ 32)%Z.
Proof. unfold as_u32. apply Z.mod_pos_bound. lia. Qed.

Lemma default_non_empty d o : d <> "" -> default d (non_empty o) <> "".
Proof. intros Hd. destruct (non_empty o) as [s|] eqn:E; [by apply non_empty_Some in E as [_ ?] | done]. Qed.

Section Claims.
Context `{IdSource} `{Redactor}.
Context (from_slice : string -> option Value) (sha256_hex : string -> string).

(** A listed chat is named by a file the bridge can ask for as it stands: the
    name has the extension, normalizing it again changes nothing, and it is no
    backup or pre-compression copy, also after the extension was added. *)
Theorem listed_chats_are_askable payload chats :
  decode_chat_summaries from_slice sha256_hex payload = Ok chats ->
  Forall (λ c, normalize_chat_file_name (ch_chat_file c) = ch_chat_file c
               /\ ends_with (ch_chat_file c) JSONL = true
               /\ is_hidden_chat_file (ch_chat_file c) = false) chats.
Proof.
  unfold decode_chat_summaries. destruct (value_as_array payload) as [items|]; [| done].
  intros [= <-]. apply Forall_forall. intros c (item & _ & Hc)%list_elem_of_omap.
  by apply chat_summary_name in Hc.
Qed.

(** The model the catalogue shows as current is the model generation will ask for,
    for every payload SillyTavern can answer with: settings decode exactly when a
    model is configured, and then the model is trimmed and not empty, the source
    and the user name are not empty and the token limit is a [u32]; otherwise both
    readers refuse the payload or the catalogue shows no model. *)
Theorem settings_readers_agree payload :
  match decode_generation_settings from_slice sha256_hex payload with
  | Ok g =>
      decode_settings_model from_slice sha256_hex payload = Ok (Some (gs_model g))
      /\ gs_model g <> "" /\ trim (gs_model g) = gs_model g
      /\ gs_chat_completion_source g <> "" /\ gs_username g <> ""
      /\ (0 <= gs_max_tokens g < 2 ^ 32)%Z
  | Err e =>
      e_code e = StSettingsInvalid /\ e_commit_state e = NotStarted
      /\ (decode_settings_model from_slice sha256_hex payload = Ok None
          \/ decode_settings_model from_slice sha256_hex payload = Err e)
  end.
Proof.
  unfold decode_generation_settings, decode_settings_model.
  destruct (parse_settings_object from_slice sha256_hex payload) as [settings|e] eqn:E; simpl.
  - destruct (settings_model (oai_settings settings)) as [m|] eqn:Em; simpl; [| by auto].
    destruct (settings_model_trimmed _ _ Em) as [Hne Ht].
    rewrite bool_decide_eq_false_2 by done. simpl.
    split_and!; try done; try (apply default_non_empty; done); apply as_u32_range.
  - assert (e = settings_error from_slice sha256_hex) as ->; [| by auto].
    revert E. unfold parse_settings_object, ok_or. case_match; [congruence |].
    destruct (from_slice _); congruence.
Qed.
End Claims.

(** ** Derived [serde] decoding

    What [#[derive(Deserialize)]] does on a [serde_json::Value], for the attributes
    the program uses: renamed fields, aliases, [default], [deny_unknown_fields],
    unit enums and untagged enums.  A struct is read from an object, or from an
    array of its fields in order.  Errors carry no more than that they occurred:
    every caller of the program replaces them. *)

(** A field: its name with its aliases, and whether [#[serde(default)]] fills in
    one that is missing.  (A missing [Option] field of an object is [None] with or
    without it.) *)
Record Field := MkField { fd_names : list string; fd_default : bool }.

Definition field (name : string) : Field := MkField [name] false.
Definition field_or (name : string) : Field := MkField [name] true.
Definition field_as (name alias : string) : Field := MkField [name; alias] false.

(** The values given for a field; a field and its alias together are a duplicate. *)
Definition members_named (names : list string) (m : list (string * Value)) : list Value :=
  omap (λ kv, if bool_decide (kv.1 ∈ names) then Some kv.2 else None) m.

Definition object_field (m : list (string * Value)) (f : Field) : option (option Value) :=
  match members_named (fd_names f) m with
  | [] => Some None
  | [v] => Some (Some v)
  | _ => None
  end.

Fixpoint array_fields (fs : list Field) (items : list Value) : option (list (option Value)) :=
  match fs, items with
  | [], [] => Some []
  | [], _ :: _ => None
  | f :: fs, [] => if fd_default f then cons None <$> array_fields fs [] else None
  | _ :: fs, v :: items => cons (Some v) <$> array_fields fs items
  end.

Definition known_name (fs : list Field) (name : string) : bool :=
  existsb (λ f, bool_decide (name ∈ fd_names f)) fs.

Definition struct_fields (deny_unknown : bool) (fs : list Field) (v : Value) : option (list (option Value)) :=
  match v with
  | JObject m =>
      if deny_unknown && negb (forallb (λ kv, known_name fs kv.1) m) then None
      else mapM (object_field m) fs
  | JArray items => array_fields fs items
  | _ => None
  end.

(** A required field, an [Option] field, a field with a default. *)
Definition required {A} (d : Value -> option A) (o : option Value) : option A := o ≫= d.
Definition optional {A} (d : Value -> option A) (o : option Value) : option (option A) :=
  match o with
  | None | Some JNull => Some None
  | Some v => Some <$> d v
  end.
Definition defaulted {A} (a : A) (d : Value -> option A) (o : option Value) : option A :=
  match o with None => Some a | Some v => d v end.

(** A unit variant: its name, or an object with the name as its only key and [null]. *)
Definition unit_variant {A} (variant : string -> option A) (v : Value) : option A :=
  match v with
  | JString s => variant s
  | JObject [(s, JNull)] => variant s
  | _ => None
  end.

Definition vec_of {A} (d : Value -> option A) (v : Value) : option (list A) :=
  match v with JArray items => mapM d items | _ => None end.

(** [serde_json] writes [None] as [null]. *)
Definition opt_json {A} (f : A -> Value) (o : option A) : Value :=
  match o with Some a => f a | None => JNull end.

(** *** Facts *)

Lemma optional_opt_json {A} (d : Value -> option A) (f : A -> Value) o :
  (forall a, d (f a) = Some a) -> (forall a, f a <> JNull) ->
  optional d (Some (opt_json f o)) = Some o.
Proof.
  intros Hd Hn. destruct o as [a|]; [| done]. simpl. specialize (Hn a). specialize (Hd a).
  unfold optional. destruct (f a); try done; by rewrite Hd.
Qed.

Lemma vec_of_map {A} (d : Value -> option A) (f : A -> Value) l :
  (forall a, d (f a) = Some a) -> vec_of d (JArray (map f l)) = Some l.
Proof. intros Hd. simpl. induction l as [|a l IH]; [done |]. simpl. by rewrite Hd, IH. Qed.
