(* ===== verification/Config.v ===== *)
(** * Configuration ([src/config.rs])

    The settings of the service from its environment or from a JSON file, and the
    checks every one of them passes before the service starts: bounded timeouts, a
    secure cookie beyond loopback, HTTPS beyond loopback, and a connector key in a
    write mode.  [reqwest::Url::parse] is a parameter; the derived JSON reader of
    [AppConfig] is another.  The IP parser of the standard library is modelled. *)

From stdpp Require Import pretty.
From S2P Require Import Prelude Text Errors StDomain TelegramInbox Delivery Redaction CardPng Decoder.
From Stdlib Require Import Lia.

(** ** Addresses: [std::net] *)

Inductive IpAddr : Set := V4 (octets : list Z) | V6 (groups : list Z).

Definition is_loopback (ip : IpAddr) : bool :=
  match ip with
  | V4 octets => bool_decide (head octets = Some 127%Z)
  | V6 groups => bool_decide (groups = [0; 0; 0; 0; 0; 0; 0; 1]%Z)
  end.

(** A parser consumes a prefix of its input, or nothing when it fails. *)
Definition digit_of (radix : Z) (a : Ascii.ascii) : option Z :=
  let d :=
    if is_ascii_digit a then Some (Z.of_N (byte_val a) - 48)%Z
    else if in_range 97 122 a then Some (Z.of_N (byte_val a) - 87)%Z
    else if in_range 65 90 a then Some (Z.of_N (byte_val a) - 55)%Z
    else None in
  match d with Some d => if (d <? radix)%Z then Some d else None | None => None end.

(** The digits of [read_number]: [max] is the largest value of the type, [room] the
    digits still allowed.  Too large a value or too many digits fail. *)
Fixpoint read_digits (radix max : Z) (room : option nat) (acc : Z) (count : nat) (s : string)
    : option (Z * nat * string) :=
  match s with
  | String a r =>
      match digit_of radix a with
      | Some d =>
          if bool_decide (room = Some count) || (max <? acc * radix + d)%Z then None
          else read_digits radix max room (acc * radix + d) (S count) r
      | None => Some (acc, count, s)
      end
  | EmptyString => Some (acc, count, s)
  end.

Definition read_number (radix max : Z) (room : option nat) (allow_zero_prefix : bool) (s : string)
    : option (Z * string) :=
  match read_digits radix max room 0 0 s with
  | Some (z, S count, r) =>
      if negb allow_zero_prefix && starts_with s "0" && (0 <? count)%nat then None else Some (z, r)
  | _ => None
  end.

Definition given (c : string) (s : string) : option string := strip_prefix c s.

(** [read_separator]: a separator before every item but the first. *)
Definition separated {A} (sep : string) (index : nat) (p : string -> option (A * string)) (s : string)
    : option (A * string) :=
  if (index =? 0)%nat then p s else r ← given sep s; p r.

Fixpoint read_octets (index count : nat) (s : string) : option (list Z * string) :=
  match count with
  | O => Some ([], s)
  | S count =>
      '(octet, r) ← separated "." index (read_number 10 255 (Some 3) false) s;
      '(rest, r) ← read_octets (S index) count r;
      Some (octet :: rest, r)
  end.
Definition read_ipv4 (s : string) : option (list Z * string) := read_octets 0 4 s.

(** [read_groups]: the groups read, whether an IPv4 address ended them, the rest. *)
Fixpoint read_groups (index limit : nat) (s : string) : list Z * bool * string :=
  match limit with
  | O => ([], false, s)
  | S limit' =>
      match (if (0 <? limit')%nat then separated ":" index read_ipv4 s else None) with
      | Some ([a; b; c; d], r) => ([a * 256 + b; c * 256 + d]%Z, true, r)
      | _ =>
          match separated ":" index (read_number 16 65535 (Some 4) true) s with
          | Some (group, r) =>
              let '(rest, v4, r) := read_groups (S index) limit' r in (group :: rest, v4, r)
          | None => ([], false, s)
          end
      end
  end.

Definition read_ipv6 (s : string) : option (list Z * string) :=
  let '(head, head_v4, r) := read_groups 0 8 s in
  if (length head =? 8)%nat then Some (head, r)
  else if head_v4 then None else
  r ← given "::" r;
  let '(tail, _, r) := read_groups 0 (7 - length head) r in
  Some (head ++ replicate (8 - length head - length tail) 0%Z ++ tail, r).

Definition at_end {A} (o : option (A * string)) : option A :=
  match o with Some (a, EmptyString) => Some a | _ => None end.

Definition parse_ip (s : string) : option IpAddr :=
  match read_ipv4 s with
  | Some (octets, r) => if r =?= "" then Some (V4 octets) else None
  | None => V6 <$> at_end (read_ipv6 s)
  end.

Record SocketAddr := { sock_ip : IpAddr; sock_port : Z }.

Definition read_port (s : string) : option (Z * string) :=
  r ← given ":" s; read_number 10 65535 None true r.

Definition parse_socket_v4 (s : string) : option SocketAddr :=
  '(octets, r) ← read_ipv4 s;
  port ← at_end (read_port r);
  Some {| sock_ip := V4 octets; sock_port := port |}.

Definition parse_socket_v6 (s : string) : option SocketAddr :=
  r ← given "[" s;
  '(groups, r) ← read_ipv6 r;
  let r := match given "%" r with
           | Some r' => match read_number 10 (2 ^ 32 - 1) None true r' with Some (_, r') => r' | None => r end
           | None => r
           end in
  r ← given "]" r;
  port ← at_end (read_port r);
  Some {| sock_ip := V6 groups; sock_port := port |}.

Definition parse_socket (s : string) : option SocketAddr := or_else (parse_socket_v4 s) (parse_socket_v6 s).

Example parse_ip_loopbacks :
  (is_loopback <$> parse_ip "127.0.0.53", is_loopback <$> parse_ip "::1", is_loopback <$> parse_ip "[::1]",
   is_loopback <$> parse_ip "::ffff:127.0.0.1", is_loopback <$> parse_ip "10.0.0.1", parse_ip "127.1", parse_ip "01.0.0.1",
   parse_ip "2001:db8::7:1")
  = (Some true, Some true, None, Some false, Some false, None, None, Some (V6 [8193; 3512; 0; 0; 0; 0; 7; 1]%Z)).
Proof. vm_compute. reflexivity. Qed.

(** ** The environment *)

(** [std::env::var]. *)
Inductive EnvVar : Set := Present (value : string) | NotPresent | NotUnicode.

Definition config_invalid (message : string) : AppError := bad_request "CONFIG_INVALID" message.

Definition ST_TIMEOUT_RANGE : Z * Z := (100, 120000)%Z.
Definition ST_HARD_TIMEOUT_RANGE : Z * Z := (1000, 3600000)%Z.
Definition ST_IDLE_TIMEOUT_RANGE : Z * Z := (1000, 600000)%Z.
Definition SESSION_TTL_RANGE : Z * Z := (1, 168)%Z.

Definition bounded_number (name : string) (value : option Z) (range : Z * Z) : AppResult Z :=
  let refused := config_invalid (name +:+ " must be between " +:+ pretty range.1 +:+ " and " +:+ pretty range.2) in
  match value with
  | Some z => if (range.1 <=? z)%Z && (z <=? range.2)%Z then Ok z else Err refused
  | None => Err refused
  end.

(** [str::parse::<i64>]: a sign, then decimal digits. *)
Definition parse_i64 (s : string) : option Z :=
  match s with
  | EmptyString => None
  | String a r =>
      let '(sign, digits) :=
        if a =?= Ascii.ascii_of_nat 45 then (-1, r)%Z
        else if a =?= Ascii.ascii_of_nat 43 then (1, r)%Z else (1, s)%Z in
      if digits =?= "" then None else
      match digits_value 0 digits with
      | Some z => if (- 2 ^ 63 <=? sign * z)%Z && (sign * z <? 2 ^ 63)%Z then Some (sign * z)%Z else None
      | None => None
      end
  end.

Section Environment.
Context (env : string -> EnvVar).

Definition not_utf8 (name : string) : AppError := config_invalid (name +:+ " is not valid UTF-8").

Definition parse_env_bool (name : string) (default : bool) : AppResult bool :=
  match env name with
  | Present value =>
      if (value =?= "1") || eq_ignore_ascii_case value "true" then Ok true
      else if (value =?= "0") || eq_ignore_ascii_case value "false" then Ok false
      else Err (config_invalid (name +:+ " must be true, false, 1, or 0"))
  | NotPresent => Ok default
  | NotUnicode => Err (not_utf8 name)
  end.

(** [parse] is the [FromStr] of the number's type. *)
Definition parse_env_number (parse : string -> option Z) (name : string) (default : Z) (range : Z * Z)
    : AppResult Z :=
  match env name with
  | Present value => bounded_number name (parse value) range
  | NotPresent => bounded_number name (Some default) range
  | NotUnicode => Err (not_utf8 name)
  end.

(** [if let Ok(value) = std::env::var(name)]. *)
Definition env_ok (name : string) : option string :=
  match env name with Present value => Some value | _ => None end.
End Environment.

(** ** Service URLs *)

(** What the code reads of a parsed [reqwest::Url]. *)
Record Url := {
  url_scheme : string;
  url_username : string;
  url_password : option string;
  url_host_str : option string;
  url_query : option string;
  url_fragment : option string;
}.

Section Urls.
Context (url_parse : string -> option Url).

Definition validate_service_url (name value : string) (allow_loopback_http : bool) : AppResult unit :=
  match url_parse value with
  | None => Err (config_invalid (name +:+ " must be an absolute HTTP(S) URL"))
  | Some url =>
      if negb (url_username url =?= "") || bool_decide (is_Some (url_password url))
         || bool_decide (is_Some (url_query url)) || bool_decide (is_Some (url_fragment url))
      then Err (config_invalid (name +:+ " must not contain user info, query, or fragment"))
      else
        let host := default "" (url_host_str url) in
        let loopback :=
          eq_ignore_ascii_case host "localhost" || from_option is_loopback false (parse_ip host) in
        if negb (url_scheme url =?= "https")
           && negb (allow_loopback_http && (url_scheme url =?= "http") && loopback)
        then Err (config_invalid (name +:+ " must use HTTPS; HTTP is allowed only for loopback addresses"))
        else Ok tt
  end.

(** ** The SillyTavern client *)

Record StClientConfig := {
  cf_base_url : option string;
  cf_handle : string;
  cf_host_header : option string;
  cf_timeout_ms : Z;
  cf_generate_hard_timeout_ms : Z;
  cf_generate_idle_timeout_ms : Z;
  cf_mode : string;
  cf_connector_hmac_key : option string;
}.

Definition StClientConfig_default : StClientConfig :=
  {| cf_base_url := None; cf_handle := "default-user"; cf_host_header := None; cf_timeout_ms := 15000;
     cf_generate_hard_timeout_ms := 900000; cf_generate_idle_timeout_ms := 90000; cf_mode := "disabled";
     cf_connector_hmac_key := None |}.

(** [StWriteMode::parse]. *)
Definition StWriteMode_parse (value : string) : option StWriteMode :=
  let value := trim value in
  if value =?= "disabled" then Some Disabled else
  if value =?= "read_only" then Some ReadOnly else
  if value =?= "test_write" then Some TestWrite else
  if value =?= "production_write" then Some ProductionWrite else None.

Definition write_mode (self : StClientConfig) : StWriteMode := default Disabled (StWriteMode_parse (cf_mode self)).

Definition validate_timeouts (self : StClientConfig) : AppResult unit :=
  let? _ := bounded_number "IMBRIDGE_ST_TIMEOUT_MS" (Some (cf_timeout_ms self)) ST_TIMEOUT_RANGE in
  let? _ := bounded_number "IMBRIDGE_ST_GENERATE_HARD_TIMEOUT_MS"
              (Some (cf_generate_hard_timeout_ms self)) ST_HARD_TIMEOUT_RANGE in
  let? _ := bounded_number "IMBRIDGE_ST_GENERATE_IDLE_TIMEOUT_MS"
              (Some (cf_generate_idle_timeout_ms self)) ST_IDLE_TIMEOUT_RANGE in
  Ok tt.

Definition StClientConfig_validate (self : StClientConfig) : AppResult unit :=
  if bool_decide (StWriteMode_parse (cf_mode self) = None)
  then Err (config_invalid "IMBRIDGE_ST_MODE must be disabled, read_only, test_write, or production_write") else
  if is_blank (cf_handle self) then Err (config_invalid "IMBRIDGE_ST_HANDLE must not be empty") else
  let? _ := match cf_base_url self with
            | Some base_url => validate_service_url "IMBRIDGE_ST_BASE_URL" base_url true
            | None => Ok tt
            end in
  if allows_write (write_mode self)
     && (String.length (default "" (cf_connector_hmac_key self)) <? 32)%nat
  then Err (config_invalid "IMBRIDGE_ST_CONNECTOR_HMAC_KEY must contain at least 32 bytes in write mode")
  else validate_timeouts self.

Definition non_blank (o : option string) : option string :=
  match o with Some s => if is_blank s then None else Some s | None => None end.

Definition st_from_env (env : string -> EnvVar) : AppResult StClientConfig :=
  let config := StClientConfig_default in
  let base_url :=
    match env_ok env "IMBRIDGE_ST_BASE_URL" with
    | Some value =>
        let trimmed := trim_end_bytes (λ a, a =?= Ascii.ascii_of_nat 47) (trim value) in
        if trimmed =?= "" then cf_base_url config else Some trimmed
    | None => cf_base_url config
    end in
  let handle := from_option trim (cf_handle config) (non_blank (env_ok env "IMBRIDGE_ST_HANDLE")) in
  let host_header :=
    or_else (trim <$> non_blank (env_ok env "IMBRIDGE_ST_HOST_HEADER")) (cf_host_header config) in
  let? timeout_ms := parse_env_number env parse_u64 "IMBRIDGE_ST_TIMEOUT_MS" (cf_timeout_ms config) ST_TIMEOUT_RANGE in
  let? hard := parse_env_number env parse_u64 "IMBRIDGE_ST_GENERATE_HARD_TIMEOUT_MS"
                 (cf_generate_hard_timeout_ms config) ST_HARD_TIMEOUT_RANGE in
  let? idle := parse_env_number env parse_u64 "IMBRIDGE_ST_GENERATE_IDLE_TIMEOUT_MS"
                 (cf_generate_idle_timeout_ms config) ST_IDLE_TIMEOUT_RANGE in
  let config :=
    {| cf_base_url := base_url; cf_handle := handle; cf_host_header := host_header;
       cf_timeout_ms := timeout_ms; cf_generate_hard_timeout_ms := hard; cf_generate_idle_timeout_ms := idle;
       cf_mode := default (cf_mode config) (env_ok env "IMBRIDGE_ST_MODE");
       cf_connector_hmac_key :=
         or_else (non_blank (env_ok env "IMBRIDGE_ST_CONNECTOR_HMAC_KEY")) (cf_connector_hmac_key config) |} in
  let? _ := StClientConfig_validate config in
  Ok config.

(** ** The service *)

Record AppConfig := {
  ac_listen : SocketAddr;
  ac_data_dir : string;
  ac_database_path : string;
  ac_master_key_path : string;
  ac_session_ttl_hours : Z;
  ac_cookie_secure : bool;
  ac_st : StClientConfig;
}.

Definition AppConfig_validate (self : AppConfig) : AppResult unit :=
  if negb (is_loopback (sock_ip (ac_listen self))) && negb (ac_cookie_secure self)
  then Err (config_invalid "cookie_secure must be true when IMBRIDGE_LISTEN is not a loopback address") else
  let? _ := bounded_number "session_ttl_hours" (Some (ac_session_ttl_hours self)) SESSION_TTL_RANGE in
  StClientConfig_validate (ac_st self).

(** [Path::join] with a relative name. *)
Definition path_join (base name : string) : string :=
  if (base =?= "") || ends_with base "/" then base +:+ name else base +:+ "/" +:+ name.

Definition assets_dir (self : AppConfig) : string := path_join (ac_data_dir self) "assets".

(** [config_file]: the path given, with what [read_to_string] and the derived JSON
    reader make of it. *)
Inductive ConfigFile : Type :=
| FileUnreadable
| FileInvalid (err : string)
| FileConfig (config : AppConfig).

Definition from_env_or_defaults (env : string -> EnvVar) (config_file : option ConfigFile) : AppResult AppConfig :=
  match config_file with
  | Some FileUnreadable => Err (internal "io error")
  | Some (FileInvalid err) => Err (config_invalid ("invalid config: " +:+ err))
  | Some (FileConfig config) => let? _ := AppConfig_validate config in Ok config
  | None =>
      let data_dir := default "./data" (env_ok env "IMBRIDGE_DATA_DIR") in
      let? listen :=
        match env "IMBRIDGE_LISTEN" with
        | Present value => ok_or (parse_socket value) (config_invalid "IMBRIDGE_LISTEN is not a valid socket address")
        | NotPresent => Ok {| sock_ip := V4 [127; 0; 0; 1]%Z; sock_port := 8787 |}
        | NotUnicode => Err (config_invalid "IMBRIDGE_LISTEN is not valid UTF-8")
        end in
      let? ttl := parse_env_number env parse_i64 "IMBRIDGE_SESSION_TTL_HOURS" 12 SESSION_TTL_RANGE in
      let? cookie_secure := parse_env_bool env "IMBRIDGE_COOKIE_SECURE" true in
      let? st := st_from_env env in
      let config :=
        {| ac_listen := listen; ac_data_dir := data_dir; ac_database_path := path_join data_dir "app.db";
           ac_master_key_path := default "./master.key" (env_ok env "IMBRIDGE_MASTER_KEY_PATH");
           ac_session_ttl_hours := ttl; ac_cookie_secure := cookie_secure; ac_st := st |} in
      let? _ := AppConfig_validate config in
      Ok config
  end.
End Urls.

(** ** What a started service can rely on *)

(** Take the first step out of a successful [let?] chain. *)
Ltac let_ok H x Hx :=
  match type of H with
  | context [match ?m with Ok _ => _ | Err _ => _ end] => destruct m as [x|] eqn:Hx; [| discriminate H]
  end.

Definition in_bounds (range : Z * Z) (z : Z) : Prop := (range.1 <= z <= range.2)%Z.

Section Facts.
Context (url_parse : string -> option Url).

(** A service address: HTTPS, or HTTP to this machine, and nothing but an address. *)
Definition safe_url (value : string) : Prop :=
  exists url, url_parse value = Some url
    /\ url_username url = "" /\ url_password url = None /\ url_query url = None /\ url_fragment url = None
    /\ (url_scheme url = "https"
        \/ url_scheme url = "http"
           /\ (eq_ignore_ascii_case (default "" (url_host_str url)) "localhost" = true
               \/ exists ip, parse_ip (default "" (url_host_str url)) = Some ip /\ is_loopback ip = true)).

Definition st_config_wf (c : StClientConfig) : Prop :=
  is_Some (StWriteMode_parse (cf_mode c))
  /\ is_blank (cf_handle c) = false
  /\ (forall u, cf_base_url c = Some u -> safe_url u)
  /\ (allows_write (write_mode c) = true -> 32 <= String.length (default "" (cf_connector_hmac_key c)))
  /\ in_bounds ST_TIMEOUT_RANGE (cf_timeout_ms c)
  /\ in_bounds ST_HARD_TIMEOUT_RANGE (cf_generate_hard_timeout_ms c)
  /\ in_bounds ST_IDLE_TIMEOUT_RANGE (cf_generate_idle_timeout_ms c).

Definition config_wf (c : AppConfig) : Prop :=
  (is_loopback (sock_ip (ac_listen c)) = true \/ ac_cookie_secure c = true)
  /\ in_bounds SESSION_TTL_RANGE (ac_session_ttl_hours c)
  /\ st_config_wf (ac_st c).

Lemma bounded_number_iff name z range : is_ok (bounded_number name (Some z) range) = true <-> in_bounds range z.
Proof.
  unfold bounded_number, in_bounds. destruct (Z.leb_spec range.1 z), (Z.leb_spec z range.2);
    simpl; split; try done; lia.
Qed.

Lemma bounded_number_ok name z range r : bounded_number name (Some z) range = Ok r -> in_bounds range z.
Proof. intros Hb. apply (bounded_number_iff name). by rewrite Hb. Qed.

Lemma validate_service_url_safe name value : validate_service_url url_parse name value true = Ok tt -> safe_url value.
Proof.
  unfold validate_service_url, safe_url. destruct (url_parse value) as [url|]; [| done].
  destruct (_ || _) eqn:Hparts; [done |]. apply orb_false_elim in Hparts as [[[Hu Hp]%orb_false_elim Hq]%orb_false_elim Hf].
  apply negb_false_iff, bool_decide_eq_true in Hu.
  apply bool_decide_eq_false, eq_None_not_Some in Hp, Hq, Hf.
  destruct (_ && _) eqn:Hs; [done |]. intros _. exists url. split_and!; try done.
  apply andb_false_iff in Hs as [Hs|Hs]; apply negb_false_iff in Hs.
  - left. by apply bool_decide_eq_true in Hs.
  - right. apply andb_prop in Hs as [Hs Hl]. split; [by apply bool_decide_eq_true in Hs |].
    apply orb_true_iff in Hl as [Hl|Hl]; [by left | right].
    destruct (parse_ip _) as [ip|]; [eauto | done].
Qed.

Lemma st_validate_wf c : StClientConfig_validate url_parse c = Ok tt -> st_config_wf c.
Proof.
  unfold StClientConfig_validate, st_config_wf. case_bool_decide as Hm; [done |].
  destruct (is_blank (cf_handle c)); [done |].
  assert (Hmode : is_Some (StWriteMode_parse (cf_mode c))) by (by destruct (StWriteMode_parse (cf_mode c)); eauto).
  destruct (match cf_base_url c with Some _ => _ | None => _ end) as [[]|] eqn:Hu; [| done]. simpl.
  destruct (_ && _) eqn:Hk; [done |]. unfold validate_timeouts.
  destruct (bounded_number _ (Some (cf_timeout_ms c)) _) eqn:H1; [| done].
  destruct (bounded_number _ (Some (cf_generate_hard_timeout_ms c)) _) eqn:H2; [| done].
  destruct (bounded_number _ (Some (cf_generate_idle_timeout_ms c)) _) eqn:H3; [| done].
  apply bounded_number_ok in H1, H2, H3. intros _. split_and!; try done.
  - intros u Hb. rewrite Hb in Hu. by apply validate_service_url_safe in Hu.
  - intros Hw. rewrite Hw in Hk. simpl in Hk. by apply Nat.ltb_ge in Hk.
Qed.

Lemma validate_wf c : AppConfig_validate url_parse c = Ok tt -> config_wf c.
Proof.
  unfold AppConfig_validate, config_wf. destruct (_ && _) eqn:Hl; [done |].
  destruct (bounded_number _ _ _) eqn:Hb; [| done]. simpl. intros Hs.
  split_and!; [| by apply bounded_number_ok in Hb | by apply st_validate_wf].
  apply andb_false_iff in Hl as [Hl|Hl]; apply negb_false_iff in Hl; auto.
Qed.

(** C33: however the service is configured - file, environment or defaults - it starts
    only with settings that hold: the session cookie is secure unless it listens on
    loopback, SillyTavern is reached by HTTPS or on this machine by a URL without
    credentials, every timeout and the session lifetime are within their limits,
    and a write mode comes with a connector key of at least 32 bytes. *)
Theorem started_config_is_safe env file c :
  from_env_or_defaults url_parse env file = Ok c -> config_wf c.
Proof.
  unfold from_env_or_defaults. intros Hc.
  assert (Hv : AppConfig_validate url_parse c = Ok tt); [| by apply validate_wf].
  destruct file as [[|err|config]|]; try done.
  - destruct (AppConfig_validate url_parse config) as [[]|] eqn:E; [| done]. by injection Hc as <-.
  - let_ok Hc listen Hl. let_ok Hc ttl Ht. let_ok Hc cookie Hk. let_ok Hc st Hs. let_ok Hc u Hu.
    injection Hc as <-. by destruct u.
Qed.
End Facts.

(** A parser of the two addresses used below. *)
Definition sample_url_parse (s : string) : option Url :=
  if s =?= "https://st.example"
  then Some {| url_scheme := "https"; url_username := ""; url_password := None; url_host_str := Some "st.example";
               url_query := None; url_fragment := None |}
  else if s =?= "http://[::1]:8000"
  then Some {| url_scheme := "http"; url_username := ""; url_password := None; url_host_str := Some "[::1]";
               url_query := None; url_fragment := None |}
  else None.

Definition sample_env (name : string) : EnvVar :=
  if name =?= "IMBRIDGE_ST_BASE_URL" then Present " https://st.example// "
  else if name =?= "IMBRIDGE_ST_MODE" then Present "test_write"
  else if name =?= "IMBRIDGE_ST_CONNECTOR_HMAC_KEY" then Present "0123456789abcdef0123456789abcdef"
  else if name =?= "IMBRIDGE_LISTEN" then Present "0.0.0.0:8787"
  else NotPresent.

Definition sample_config : AppConfig :=
  {| ac_listen := {| sock_ip := V4 [0; 0; 0; 0]%Z; sock_port := 8787 |}; ac_data_dir := "./data";
     ac_database_path := "./data/app.db"; ac_master_key_path := "./master.key"; ac_session_ttl_hours := 12;
     ac_cookie_secure := true;
     ac_st := {| cf_base_url := Some "https://st.example"; cf_handle := "default-user"; cf_host_header := None;
                 cf_timeout_ms := 15000; cf_generate_hard_timeout_ms := 900000; cf_generate_idle_timeout_ms := 90000;
                 cf_mode := "test_write"; cf_connector_hmac_key := Some "0123456789abcdef0123456789abcdef" |} |}.

Lemma started_config_is_safe_witness : config_wf sample_url_parse sample_config.
Proof.
  refine (started_config_is_safe sample_url_parse sample_env None sample_config _).
  vm_compute. reflexivity.
Defined.

(** The host of an IPv6 URL keeps its brackets, so the loopback address of IPv6 is
    refused although it is one. *)
Example ipv6_loopback_refused :
  is_ok (validate_service_url sample_url_parse "IMBRIDGE_ST_BASE_URL" "http://[::1]:8000" true) = false
  /\ is_loopback <$> parse_ip "::1" = Some true.
Proof. split; vm_compute; reflexivity. Qed.
