(* ===== verification/Session.v ===== *)
(** * The SillyTavern session ([src/adapters/st/session.rs])

    Every request to SillyTavern carries a CSRF token and the session's cookies,
    fetched once and kept.  A read that is answered [403] drops the session, fetches
    a new one and is sent once more; a write is never repeated.

    A call runs in a world: the session kept in the mutex and the requests sent so
    far.  The network is a parameter: what answers a history of requests, the current
    one last, or fails it, and which request a redirecting answer leads to; so are the
    clock readings.  A request [reqwest] refuses to build counts as sent and failed.

    The client of [ReqwestStBackend::new] keeps [reqwest]'s redirect policy, so one
    [send] may put several requests on the wire: up to ten redirects are followed, and
    the answer the caller sees is the last one's. *)

From S2P Require Import Prelude Text Errors StDomain ErrorMapper ConnectorHmac Config.
From Stdlib Require Import Lia.

(** ** Requests and answers *)

Record HttpRequest := {
  rq_method : string;
  rq_url : string;
  rq_timeout_ms : Z;
  rq_headers : list (string * string);
  rq_body : option string;
}.

(** A response: its status, the [set-cookie] values and the content type that are
    text, where it redirects to, the declared length, and the body's chunks, broken
    off by an error or not ([Some timed_out]). *)
Record HttpResponse := {
  rs_status : Z;
  rs_set_cookies : list string;
  rs_location : option string;
  rs_content_type : option string;
  rs_content_length : option Z;
  rs_chunks : list string;
  rs_broken : option bool;
}.

Inductive NetAnswer : Type :=
| NetFailed (timed_out : bool)
| NetResponse (response : HttpResponse).

(** The network and the HTTP client's redirects: what a history of requests is answered,
    and the request a redirecting answer makes of the one it answers. *)
Record Network := {
  net_answer :> list HttpRequest -> NetAnswer;
  net_redirect : HttpRequest -> HttpResponse -> option HttpRequest;
}.

Definition see_other (status : Z) : bool := (301 <=? status)%Z && (status <=? 303)%Z.
Definition same_again (status : Z) : bool := (307 <=? status)%Z && (status <=? 308)%Z.

(** The request that follows a redirect: 301, 302 and 303 turn it into a GET, 307 and
    308 repeat its method and its body at the new address. *)
Definition redirect_of (request : HttpRequest) (response : HttpResponse) (next : HttpRequest) : Prop :=
  see_other (rs_status response) = true /\ rq_method next = "GET"
  \/ same_again (rs_status response) = true /\ rq_method next = rq_method request /\ rq_body next = rq_body request.

(** What [reqwest] documents of redirects, for the methods the bridge uses. *)
Class LawfulRedirects (net : Network) : Prop := redirects_lawful request response next :
  rq_method request = "GET" \/ rq_method request = "POST" ->
  net_redirect net request response = Some next -> redirect_of request response next.

(** [redirect::Policy::default]: ten redirects, the eleventh is an error. *)
Definition MAX_REDIRECTS : nat := 10.

(** One request of the client, with the redirects it follows: what has been sent then,
    and the answer the caller gets. *)
Fixpoint follow (net : Network) (redirects : nat) (request : HttpRequest) (sent : list HttpRequest)
    : list HttpRequest * NetAnswer :=
  let sent := sent ++ [request] in
  match net sent with
  | NetFailed timed_out => (sent, NetFailed timed_out)
  | NetResponse response =>
      match net_redirect net request response, redirects with
      | None, _ => (sent, NetResponse response)
      | Some next, S redirects => follow net redirects next sent
      | Some _, O => (sent, NetFailed false)
      end
  end.

Definition trip (net : Network) (request : HttpRequest) (sent : list HttpRequest) : list HttpRequest * NetAnswer :=
  follow net MAX_REDIRECTS request sent.

Definition is_success (status : Z) : bool := (200 <=? status)%Z && (status <? 300)%Z.
Definition is_client_error (status : Z) : bool := (400 <=? status)%Z && (status <? 500)%Z.

Record SessionState := { ss_csrf_token : string; ss_cookie_header : string }.

Record World := { w_session : option SessionState; w_sent : list HttpRequest }.

Definition set_session (s : option SessionState) (w : World) : World :=
  {| w_session := s; w_sent := w_sent w |}.

(** ** Calls: a world, and what the call returns *)

Definition Call (A : Type) : Type := World -> World * StResult A.

Definition cret {A} (a : A) : Call A := λ w, (w, Ok a).
Definition cerr {A} (e : StBridgeError) : Call A := λ w, (w, Err e).
Definition clift {A} (r : StResult A) : Call A := λ w, (w, r).
Definition cbind {A B} (m : Call A) (k : A -> Call B) : Call B :=
  λ w, match m w with (w', Ok a) => k a w' | (w', Err e) => (w', Err e) end.
Definition cmap_err {A} (f : StBridgeError -> StBridgeError) (m : Call A) : Call A :=
  λ w, let '(w', r) := m w in (w', map_err f r).

Notation "'call!' x ':=' m 'in' k" := (cbind m (λ x, k))
  (at level 10, x pattern, m at level 200, k at level 200) : bridge_scope.

(** ** Cookies and addresses *)

Definition semicolon : Ascii.ascii := Ascii.ascii_of_nat 59.

Definition cookie_header (set_cookies : list string) : string :=
  join_str "; "
    (filter (λ v, v <> "") (map (λ value, trim (default value (head (split_on semicolon value)))) set_cookies)).

Definition session_url (config : StClientConfig) (path : string) : string :=
  trim_end_bytes (λ a, a =?= Ascii.ascii_of_nat 47) (default "http://127.0.0.1:18000" (cf_base_url config)) +:+ path.

(** [Duration::from_millis(ms.max(1))]. *)
Definition timeout_of (ms : Z) : Z := Z.max ms 1.

Inductive RetryPolicy : Set := Never | ReadOnlySessionRefresh.

Section Session.
Context `{IdSource} `{Redactor}.
Context (from_slice : string -> option Value) (json_bytes : Value -> string) (sha256_hex : string -> string).
(** The network, the milliseconds a call has taken, and whether a session without
    cookies is accepted ([allow_cookieless_e2e_session], false outside a test build). *)
Context (net : Network) (elapsed_ms : list HttpRequest -> Z) (allow_cookieless : bool).
Context (config : StClientConfig).

Definition send (request : HttpRequest) (w : World) : World * NetAnswer :=
  let '(sent, answer) := trip net request (w_sent w) in
  ({| w_session := w_session w; w_sent := sent |}, answer).

Definition session_facts (stage : StErrorStage) (endpoint_class : string) (w : World) (failure : StFailureFacts)
    : StErrorFacts :=
  {| fact_stage := stage; fact_endpoint_class := Some endpoint_class; fact_operation_id := None;
     fact_commit_state := NotStarted; fact_attempt := 1; fact_duration_ms := Some (elapsed_ms (w_sent w));
     fact_failure := failure |}.

Definition session_failure {A} (stage : StErrorStage) (endpoint_class : string) (failure : StFailureFacts) : Call A :=
  λ w, (w, Err (map_st_error from_slice sha256_hex (session_facts stage endpoint_class w failure))).

Definition map_transport (timed_out : bool) : StFailureFacts := if timed_out then FTimeout else FConnect.

(** [response.bytes()]: the whole body, or how it broke off. *)
Definition response_bytes (r : HttpResponse) : result string bool :=
  match rs_broken r with
  | Some timed_out => Err timed_out
  | None => Ok (String.concat "" (rs_chunks r))
  end.

Definition host_headers : list (string * string) :=
  match cf_host_header config with Some host => [("host", host)] | None => [] end.

Definition session_headers (s : SessionState) : list (string * string) :=
  [("x-csrf-token", ss_csrf_token s); ("cookie", ss_cookie_header s)].

Definition csrf_request : HttpRequest :=
  {| rq_method := "GET"; rq_url := session_url config "/csrf-token";
     rq_timeout_ms := timeout_of (cf_timeout_ms config); rq_headers := host_headers; rq_body := None |}.

(** The session of a [/csrf-token] answer. *)
Definition session_of_answer (response : HttpResponse) : Call SessionState :=
  let cookies := cookie_header (rs_set_cookies response) in
  let fail failure := session_failure StageSession "csrf" failure in
  match response_bytes response with
  | Err timed_out => fail (map_transport timed_out)
  | Ok bytes =>
      if negb (is_success (rs_status response))
      then fail (FHttp (rs_status response) (rs_content_type response) (Some bytes)) else
      let payload := default JNull (from_slice bytes) in
      match Decoder.non_empty (trim <$> get_str payload "token") with
      | None => fail (FControl StCsrfMissing)
      | Some token =>
          if (cookies =?= "") && negb allow_cookieless then fail (FControl StSessionRejected)
          else cret {| ss_csrf_token := token; ss_cookie_header := cookies |}
      end
  end.

Definition ensure_session : Call SessionState :=
  λ w,
    match w_session w with
    | Some existing => (w, Ok existing)
    | None =>
        match send csrf_request w with
        | (w, NetFailed timed_out) => session_failure StageSession "csrf" (map_transport timed_out) w
        | (w, NetResponse response) =>
            match session_of_answer response w with
            | (w, Ok state) => (set_session (Some state) w, Ok state)
            | (w, Err e) => (w, Err e)
            end
        end
    end.

Definition invalidate (w : World) : World := set_session None w.

Definition csrf_and_cookie : Call (string * string) :=
  call! session := ensure_session in cret (ss_csrf_token session, ss_cookie_header session).

Definition session_handshake : Call unit := call! _ := ensure_session in cret tt.

(** ** JSON requests *)

Definition json_headers (body : option Value) : list (string * string) :=
  match body with Some _ => [("content-type", "application/json")] | None => [] end.

Definition json_request (method path : string) (body : option Value) (timeout_ms : option Z) (s : SessionState)
    : HttpRequest :=
  {| rq_method := method; rq_url := session_url config path;
     rq_timeout_ms := timeout_of (default (cf_timeout_ms config) timeout_ms);
     rq_headers := session_headers s ++ host_headers ++ json_headers body; rq_body := json_bytes <$> body |}.

(** The end of [request_json]: the answer that is not retried. *)
Definition json_of_answer (stage : StErrorStage) (endpoint_class : string) (response : HttpResponse) : Call Value :=
  match response_bytes response with
  | Err timed_out => session_failure stage endpoint_class (map_transport timed_out)
  | Ok bytes =>
      if negb (is_success (rs_status response))
      then session_failure stage endpoint_class (FHttp (rs_status response) (rs_content_type response) (Some bytes))
      else
        match from_slice bytes with
        | Some v => cret v
        | None =>
            session_failure stage endpoint_class
              (if (stage =?= StageSnapshot) && contains endpoint_class "settings"
               then FDecodeSettings else FDecodeInvalidPayload)
        end
  end.

(** One pass of [request_json]; [again] is the recursive call a [403] leads to, when
    the policy allows one. *)
Definition json_pass (method path : string) (body : option Value) (stage : StErrorStage) (endpoint_class : string)
    (timeout_ms : option Z) (again : option (Call Value)) : Call Value :=
  call! session := ensure_session in
  λ w,
    match send (json_request method path body timeout_ms session) w with
    | (w, NetFailed timed_out) => session_failure stage endpoint_class (map_transport timed_out) w
    | (w, NetResponse response) =>
        match again with
        | Some again =>
            if (rs_status response =? 403)%Z then again (invalidate w)
            else json_of_answer stage endpoint_class response w
        | None => json_of_answer stage endpoint_class response w
        end
    end.

(** The recursive call has the policy [Never]: the recursion is at most two deep. *)
Definition request_json (method path : string) (body : option Value) (stage : StErrorStage)
    (endpoint_class : string) (retry_policy : RetryPolicy) (timeout_ms : option Z) : Call Value :=
  let pass := json_pass method path body stage endpoint_class timeout_ms in
  match retry_policy with
  | Never => pass None
  | ReadOnlySessionRefresh => pass (Some (pass None))
  end.

Definition get_json (path : string) (stage : StErrorStage) (endpoint_class : string) : Call Value :=
  request_json "GET" path None stage endpoint_class ReadOnlySessionRefresh None.

Definition post_json (path : string) (body : Value) (stage : StErrorStage) (endpoint_class : string) : Call Value :=
  request_json "POST" path (Some body) stage endpoint_class Never None.

Definition post_json_readonly (path : string) (body : Value) (stage : StErrorStage) (endpoint_class : string)
    : Call Value :=
  request_json "POST" path (Some body) stage endpoint_class ReadOnlySessionRefresh None.

Definition post_json_timeout (path : string) (body : Value) (stage : StErrorStage) (endpoint_class : string)
    (timeout_ms : Z) : Call Value :=
  request_json "POST" path (Some body) stage endpoint_class Never (Some timeout_ms).

(** ** Streams *)

Definition stream_request (path : string) (body : Value) (timeout_ms : Z) (s : SessionState) : HttpRequest :=
  {| rq_method := "POST"; rq_url := session_url config path; rq_timeout_ms := timeout_of timeout_ms;
     rq_headers := session_headers s ++ ("accept", "text/event-stream") :: json_headers (Some body) ++ host_headers;
     rq_body := Some (json_bytes body) |}.

(** A refused stream reports the body it could read, or none. *)
Definition post_stream (path : string) (body : Value) (stage : StErrorStage) (endpoint_class : string)
    (timeout_ms : Z) : Call HttpResponse :=
  call! session := ensure_session in
  λ w,
    match send (stream_request path body timeout_ms session) w with
    | (w, NetFailed timed_out) => session_failure stage endpoint_class (map_transport timed_out) w
    | (w, NetResponse response) =>
        if negb (is_success (rs_status response))
        then
          let bytes := match response_bytes response with Ok b => Some b | Err _ => None end in
          session_failure stage endpoint_class (FHttp (rs_status response) (rs_content_type response) bytes) w
        else (w, Ok response)
    end.
End Session.

(** ** What one request sends *)

(** The requests after the first: each is what the answer to the one before it makes of
    that one. *)
Fixpoint redirected (net : Network) (sent : list HttpRequest) (request : HttpRequest) (chain : list HttpRequest) : Prop :=
  match chain with
  | [] => True
  | next :: chain =>
      (exists response, net (sent ++ [request]) = NetResponse response /\ redirect_of request response next)
      /\ redirected net (sent ++ [request]) next chain
  end.

Definition is_get (request : HttpRequest) : Prop := rq_method request = "GET".

(** The answer of a trip is that to its last request, unless the redirects ran out. *)
Lemma follow_answer (net : Network) n request sent sent' answer :
  follow net n request sent = (sent', answer) ->
  answer = net sent'
  \/ answer = NetFailed false /\ length sent' = length sent + S n
     /\ exists last response next, net sent' = NetResponse response /\ net_redirect net last response = Some next.
Proof.
  revert request sent. induction n as [|n IH]; intros request sent; simpl;
    destruct (net (sent ++ [request])) as [t|response] eqn:En;
    try (destruct (net_redirect net request response) as [next|] eqn:Er); try (intros [= <- <-]; by left).
  - intros [= <- <-]. right. rewrite length_app. split_and!; [done | simpl; lia |]. eauto.
  - intros [->|(-> & Hl & Hex)]%IH; [by left | right]. rewrite length_app in Hl. simpl in Hl. split_and!; [done | lia | done].
Qed.

Lemma follow_response (net : Network) n request sent sent' response :
  follow net n request sent = (sent', NetResponse response) -> net sent' = NetResponse response.
Proof. by intros [<-|(? & _)]%follow_answer. Qed.

(** What a trip sends: the request, and at most [n] that redirects lead to. *)
Lemma follow_sends net `{!LawfulRedirects net} n request sent sent' answer :
  rq_method request = "GET" \/ rq_method request = "POST" ->
  follow net n request sent = (sent', answer) ->
  exists chain, sent' = sent ++ request :: chain /\ length chain <= n /\ redirected net sent request chain.
Proof.
  revert request sent. induction n as [|n IH]; intros request sent Hm; simpl;
    destruct (net (sent ++ [request])) as [t|response] eqn:En;
    try (destruct (net_redirect net request response) as [next|] eqn:Er);
    try (intros [= <- <-]; exists []; simpl; split_and!; [done | lia | done]).
  pose proof (redirects_lawful _ _ _ Hm Er) as Hnext.
  assert (Hm' : rq_method next = "GET" \/ rq_method next = "POST").
  { destruct Hnext as [[_ ->]|(_ & -> & _)]; auto. }
  intros (chain & -> & Hl & Hc)%(IH next _ Hm'). exists (next :: chain). rewrite <- app_assoc. simpl.
  split_and!; [done | lia | eauto | done].
Qed.

(** Redirects make no POST of a GET. *)
Lemma redirected_gets net sent request chain :
  is_get request -> redirected net sent request chain -> Forall is_get chain.
Proof.
  revert sent request. induction chain as [|next chain IH]; intros sent request Hg; [constructor |].
  intros [(response & _ & Hnext) Hc].
  assert (Hg' : is_get next) by (destruct Hnext as [[_ ?]|(_ & Hm & _)]; unfold is_get in *; congruence).
  constructor; [done |]. by eapply IH.
Qed.

(** A request that is not answered 307 or 308 is followed by GETs only. *)
Lemma redirected_once (net : Network) sent request chain :
  (forall response, net (sent ++ [request]) = NetResponse response -> same_again (rs_status response) = false) ->
  redirected net sent request chain -> Forall is_get chain.
Proof.
  intros Hno. destruct chain as [|next chain]; [constructor |]. intros [(response & Hr & Hnext) Hc].
  destruct Hnext as [[_ Hg]|(Hs & _)]; [| by rewrite (Hno _ Hr) in Hs].
  constructor; [done |]. by eapply redirected_gets.
Qed.

(** ** What a session sends *)

(** What has been sent once there is a session: the fetch, when there was none. *)
Definition fetched (net : Network) (config : StClientConfig) (w : World) : list HttpRequest :=
  match w_session w with Some _ => w_sent w | None => (trip net (csrf_request config) (w_sent w)).1 end.

Lemma fetched_gets net `{!LawfulRedirects net} config w :
  exists gets, fetched net config w = w_sent w ++ gets /\ Forall is_get gets.
Proof.
  unfold fetched. destruct (w_session w); [exists []; by rewrite app_nil_r |].
  destruct (trip net (csrf_request config) (w_sent w)) as [sent answer] eqn:Et.
  apply follow_sends in Et as (chain & -> & _ & Hc); [| done | by left].
  eexists. split; [done |]. constructor; [done |]. by apply redirected_gets in Hc.
Qed.

(** A session the bridge accepts. *)
Definition session_ok (allow_cookieless : bool) (s : SessionState) : Prop :=
  ss_csrf_token s <> "" /\ (ss_cookie_header s <> "" \/ allow_cookieless = true).

Definition world_ok (allow_cookieless : bool) (w : World) : Prop :=
  forall s, w_session w = Some s -> session_ok allow_cookieless s.

Section SessionFacts.
Context `{IdSource} `{Redactor}.
Context (from_slice : string -> option Value) (json_bytes : Value -> string) (sha256_hex : string -> string).
Context (net : Network) (elapsed_ms : list HttpRequest -> Z) (allow_cookieless : bool).
Context (config : StClientConfig).

Lemma session_of_answer_world response w :
  (session_of_answer from_slice sha256_hex elapsed_ms allow_cookieless response w).1 = w.
Proof.
  unfold session_of_answer. destruct (response_bytes response); [| done].
  destruct (negb _); [done |]. destruct (Decoder.non_empty _); [| done]. by destruct (_ && _).
Qed.

Lemma session_of_answer_ok response w s :
  (session_of_answer from_slice sha256_hex elapsed_ms allow_cookieless response w).2 = Ok s ->
  session_ok allow_cookieless s /\ is_success (rs_status response) = true.
Proof.
  unfold session_of_answer. destruct (response_bytes response) as [bytes|]; [| done].
  destruct (is_success (rs_status response)); [| done]. simpl.
  destruct (Decoder.non_empty _) as [token|] eqn:Et; [| done]. apply Decoder.non_empty_Some in Et as [_ Hne].
  destruct (_ && _) eqn:Ec; [done |]. intros [= <-]. split; [| done]. split; [done |]. simpl.
  apply andb_false_iff in Ec as [Ec|Ec]; [left; by apply bool_decide_eq_false in Ec | right].
  by apply negb_false_iff in Ec.
Qed.

(** Getting a session sends the fetch or nothing, and leaves the session it returns. *)
Lemma ensure_session_run w w' r :
  ensure_session from_slice sha256_hex net elapsed_ms allow_cookieless config w = (w', r) ->
  w_sent w' = fetched net config w
  /\ (forall s, r = Ok s -> w_session w' = Some s)
  /\ (world_ok allow_cookieless w -> world_ok allow_cookieless w').
Proof.
  unfold ensure_session, fetched. destruct (w_session w) as [s|] eqn:Es.
  { intros [= <- <-]. rewrite Es. split_and!; [done | naive_solver |]. intros Hw s0 Hs. by apply Hw. }
  unfold send. destruct (trip net (csrf_request config) (w_sent w)) as [sent answer].
  set (w1 := {| w_session := _; w_sent := _ |}).
  assert (Hw1 : world_ok allow_cookieless w1) by (intros s; simpl; congruence).
  destruct answer as [t|response].
  { intros [= <- <-]. done. }
  pose proof (session_of_answer_world response w1) as Hworld.
  pose proof (session_of_answer_ok response w1) as Hok.
  destruct (session_of_answer _ _ _ _ response w1) as [w2 [s|e]]; simpl in *; subst w2; intros [= <- <-]; simpl.
  - split_and!; [done | by intros s0 [= ->] | intros _ s0 [= <-]; by apply Hok].
  - split_and!; done.
Qed.

(** A pass of a JSON request sends the fetch and then at most the request itself. *)
Lemma json_pass_run method path body stage class timeout again w w' r :
  json_pass from_slice json_bytes sha256_hex net elapsed_ms allow_cookieless config
    method path body stage class timeout again w = (w', r) ->
  (w_sent w' = fetched net config w /\ exists e, r = Err e)
  \/ exists s w1 answer,
       trip net (json_request json_bytes config method path body timeout s) (fetched net config w) = (w_sent w1, answer)
       /\ w_session w1 = Some s /\ (world_ok allow_cookieless w -> session_ok allow_cookieless s)
       /\ (w' = w1
           \/ exists again' response, again = Some again' /\ answer = NetResponse response
                /\ rs_status response = 403%Z /\ again' (invalidate w1) = (w', r)).
Proof.
  unfold json_pass, cbind. destruct (ensure_session _ _ _ _ _ _ w) as [w0 [s|e]] eqn:Ee.
  2: { intros [= <- <-]. left. apply ensure_session_run in Ee as (Hs & _ & _). eauto. }
  apply ensure_session_run in Ee as (Hs & Hok & Hwf). specialize (Hok s eq_refl).
  unfold send. rewrite <- Hs. destruct (trip _ _ (w_sent w0)) as [sent answer] eqn:Et.
  set (w1 := {| w_session := w_session w0; w_sent := sent |}). intros Hr. right. exists s, w1, answer.
  split; [done |]. split; [done |].
  split; [intros Hw; by apply (Hwf Hw s) |].
  assert (Hans : forall response, (json_of_answer from_slice sha256_hex elapsed_ms stage class response w1).1 = w1).
  { intros response. unfold json_of_answer. destruct (response_bytes response); [| done].
    destruct (negb _); [done |]. by destruct (from_slice _). }
  destruct answer as [t|response]; [left; by injection Hr |].
  destruct again as [again'|].
  - destruct (Z.eqb_spec (rs_status response) 403) as [H403|].
    + right. exists again', response. done.
    + left. pose proof (Hans response) as Ha. rewrite Hr in Ha. by simpl in Ha.
  - left. pose proof (Hans response) as Ha. rewrite Hr in Ha. by simpl in Ha.
Qed.

(** A JSON call hands its request to the HTTP client at most twice, and a second time
    only when it is a read whose first answer was 403; then the session is dropped and
    fetched anew before the repetition.  A write is handed over at most once.  Every
    copy carries the token and the cookies of a session the bridge accepted. *)
Theorem json_calls_repeat_only_refused_reads method path body stage class policy timeout w w' r :
  world_ok allow_cookieless w ->
  request_json from_slice json_bytes sha256_hex net elapsed_ms allow_cookieless config
    method path body stage class policy timeout w = (w', r) ->
  let request s := json_request json_bytes config method path body timeout s in
  let anew sent := (trip net (csrf_request config) sent).1 in
  w_sent w' = fetched net config w
  \/ exists s sent answer, session_ok allow_cookieless s
     /\ trip net (request s) (fetched net config w) = (sent, answer)
     /\ (w_sent w' = sent
         \/ policy = ReadOnlySessionRefresh
            /\ (exists response, answer = NetResponse response /\ rs_status response = 403%Z)
            /\ (w_sent w' = anew sent
                \/ exists s', session_ok allow_cookieless s' /\ w_sent w' = (trip net (request s') (anew sent)).1)).
Proof.
  intros Hw Hr request anew.
  assert (exists again, json_pass from_slice json_bytes sha256_hex net elapsed_ms allow_cookieless config
            method path body stage class timeout again w = (w', r)
          /\ (again = None \/ policy = ReadOnlySessionRefresh
              /\ again = Some (json_pass from_slice json_bytes sha256_hex net elapsed_ms allow_cookieless config
                                 method path body stage class timeout None))) as (again & Hp & Ha).
  { unfold request_json in Hr. destruct policy; eauto. }
  apply json_pass_run in Hp as [[Hs _]|(s & w1 & answer & Ht & Hsess & Hok & Hcase)]; [by left |].
  right. exists s, (w_sent w1), answer. split; [auto |]. split; [done |].
  destruct Hcase as [->|(again' & response & -> & -> & H403 & Hagain)]; [by left |].
  right. destruct Ha as [?|[-> [= ->]]]; [done |]. split; [done |]. split; [by exists response |].
  apply json_pass_run in Hagain as [[Hs2 _]|(s2 & w2 & answer2 & Ht2 & _ & Hok2 & Hcase2)].
  - left. by rewrite Hs2.
  - right. exists s2. split; [apply Hok2; done |]. destruct Hcase2 as [->|(? & ? & ? & _)]; [| done].
    unfold fetched in Ht2. simpl in Ht2. unfold request, anew. by rewrite Ht2.
Qed.
End SessionFacts.
