(* ===== verification/ConnectorWire.v ===== *)
(** * The connector's wire formats

    [src/adapters/st/connector.rs] and the derived [Serialize] and [Deserialize] of
    [src/domain/st.rs], [poller_ownership.rs] and [st_operation_journal.rs]: what the
    connector client writes into a request and reads out of an answer, and the
    checks an answer passes before the bridge believes it. *)

From stdpp Require Import pretty.
From S2P Require Import Prelude Text Errors StDomain TelegramInbox Delivery PollerOwnership Journal Callback Decoder.
From Stdlib Require Import Lia.

Definition MAX_CONNECTOR_BODY_BYTES : Z := 4 * 1024 * 1024.
Definition MAX_SNAPSHOT_BYTES : Z := 64 * 1024 * 1024.
Definition MAX_SNAPSHOT_MESSAGES : Z := 1000000.
Definition SHA256_HEX_LENGTH : nat := 64.

(** ** Enums *)

Definition StWriteMode_variant (s : string) : option StWriteMode :=
  if s =?= "disabled" then Some Disabled else if s =?= "read_only" then Some ReadOnly else
  if s =?= "test_write" then Some TestWrite else if s =?= "production_write" then Some ProductionWrite else None.

Definition StWriteScope_variant (s : string) : option StWriteScope :=
  if s =?= "test_chat" then Some TestChat else if s =?= "production_chat" then Some ProductionChat else None.

Definition PollerOwner_variant (s : string) : option PollerOwner :=
  if s =?= "legacy_plugin" then Some LegacyPlugin else if s =?= "rust_bridge" then Some RustBridge else None.

Definition PollerLifecycle_name (l : PollerLifecycle) : string :=
  match l with Starting => "starting" | Running => "running" | Draining => "draining" | Stopped => "stopped" end.

Definition StOperationJournalStatus_variant (s : string) : option StOperationJournalStatus :=
  if s =?= "prepared" then Some SjPrepared else if s =?= "applied" then Some SjApplied else
  if s =?= "not_applied" then Some SjNotApplied else if s =?= "unknown" then Some SjUnknown else None.

(** ** Requests *)

Definition num (z : Z) : Value := JNumber (pretty z).

Definition message_json (m : StChatMessage) : Value :=
  JObject [("name", JString (m_name m)); ("isUser", JBool (m_is_user m)); ("mes", JString (m_mes m));
           ("sendDate", opt_json JString (m_send_date m)); ("extra", JObject (m_extra m))].

Definition extra_patch_json (x : StCompressionExtraPatch) : Value :=
  JObject [("displayText", opt_json JString (x_display_text x)); ("compressed", opt_json JBool (x_compressed x))].

Definition patch_json (p : StMessagePatch) : Value :=
  JObject [("index", num (p_index p)); ("expectedMessageSha256", JString (p_expected_message_sha256 p));
           ("mes", opt_json JString (p_mes p)); ("extra", opt_json extra_patch_json (p_extra p))].

(** [#[serde(tag = "kind")]]. *)
Definition mutation_json (m : StMutation) : Value :=
  match m with
  | AppendTurn user_message assistant_message =>
      JObject [("kind", JString "append_turn"); ("userMessage", message_json user_message);
               ("assistantMessage", message_json assistant_message)]
  | UndoLastTurn expected_user_sha256 expected_assistant_sha256 =>
      JObject [("kind", JString "undo_last_turn"); ("expectedUserSha256", JString expected_user_sha256);
               ("expectedAssistantSha256", JString expected_assistant_sha256)]
  | ReplaceLastAssistant expected_assistant_sha256 assistant_message =>
      JObject [("kind", JString "replace_last_assistant");
               ("expectedAssistantSha256", JString expected_assistant_sha256);
               ("assistantMessage", message_json assistant_message)]
  | CompressMessages patches =>
      JObject [("kind", JString "compress_messages"); ("patches", JArray (map patch_json patches))]
  end.

Definition fence_json (f : PollerRuntimeFence) : Value :=
  JObject [("telegramBotId", num (f_telegram_bot_id f)); ("owner", JString (f_owner f));
           ("epoch", num (f_epoch f)); ("internalBotId", JString (f_internal_bot_id f));
           ("runtimeInstanceId", JString (f_runtime_instance_id f))].

Definition snapshot_body (locator : StChatLocator) : Value :=
  JObject [("handle", JString (loc_handle locator)); ("avatar", JString (loc_avatar locator));
           ("chatFile", JString (loc_chat_file locator))].

Definition create_body (command : CreateStChat) : Value :=
  let locator := cr_locator command in
  JObject [("operationId", JString (cr_operation_id command)); ("handle", JString (loc_handle locator));
           ("avatar", JString (loc_avatar locator)); ("chatFile", JString (loc_chat_file locator));
           ("openingMessage", cr_opening_message command); ("fence", fence_json (cr_fence command))].

Definition commit_body (command : CommitStChat) : Value :=
  let locator := cm_locator command in
  JObject [("operationId", JString (cm_operation_id command)); ("handle", JString (loc_handle locator));
           ("avatar", JString (loc_avatar locator)); ("chatFile", JString (loc_chat_file locator));
           ("expectedSha256", JString (cm_expected_sha256 command));
           ("expectedIntegrity", JString (cm_expected_integrity command));
           ("mutation", mutation_json (cm_mutation command)); ("fence", fence_json (cm_fence command))].

Definition binding_body (telegram_bot_id : Z) (binding : PollerRuntimeBinding) : Value :=
  JObject [("telegramBotId", num telegram_bot_id); ("internalBotId", JString (b_internal_bot_id binding));
           ("runtimeInstanceId", JString (b_runtime_instance_id binding)); ("epoch", num (b_epoch binding));
           ("lifecycle", JString (PollerLifecycle_name (b_lifecycle binding))); ("leaseUntil", JNull)].

Definition heartbeat_body (telegram_bot_id : Z) (owner : PollerOwner) (epoch : Z) : Value :=
  JObject [("telegramBotId", num telegram_bot_id); ("owner", JString (PollerOwner_as_str owner)); ("epoch", num epoch)].

Definition release_body (telegram_bot_id : Z) (runtime_instance_id : string) : Value :=
  JObject [("telegramBotId", num telegram_bot_id); ("runtimeInstanceId", JString runtime_instance_id)].

(** ** Answers *)

Record SnapshotWire := {
  sw_parsed_chat : list Value;
  sw_source_sha256 : string;
  sw_source_integrity : string;
  sw_source_byte_length : Z;
  sw_source_message_count : Z;
}.

Definition SnapshotWire_from_value (v : Value) : option SnapshotWire :=
  fields ← struct_fields false
    [field "parsedChat"; field "sourceSha256"; field "sourceIntegrity"; field "sourceByteLength"; field "sourceMessageCount"] v;
  match fields with
  | [a; b; c; d; e] =>
      a ← required value_as_array a; b ← required value_as_str b; c ← required value_as_str c;
      d ← required value_as_u64 d; e ← required value_as_u64 e;
      Some {| sw_parsed_chat := a; sw_source_sha256 := b; sw_source_integrity := c;
              sw_source_byte_length := d; sw_source_message_count := e |}
  | _ => None
  end.

Record CommitWire := {
  cw_status : string;
  cw_new_sha256 : option string;
  cw_new_integrity : option string;
  cw_byte_length : option Z;
  cw_message_count : option Z;
}.

Definition CommitWire_from_value (v : Value) : option CommitWire :=
  fields ← struct_fields false
    [field "status"; field "newSha256"; field "newIntegrity"; field "byteLength"; field "messageCount"] v;
  match fields with
  | [a; b; c; d; e] =>
      a ← required value_as_str a; b ← optional value_as_str b; c ← optional value_as_str c;
      d ← optional value_as_u64 d; e ← optional value_as_u64 e;
      Some {| cw_status := a; cw_new_sha256 := b; cw_new_integrity := c; cw_byte_length := d; cw_message_count := e |}
  | _ => None
  end.

Record CreateWire := {
  kw_status : string;
  kw_chat_file : option string;
  kw_sha256 : option string;
  kw_integrity : option string;
  kw_byte_length : option Z;
  kw_message_count : option Z;
}.

Definition CreateWire_from_value (v : Value) : option CreateWire :=
  fields ← struct_fields false
    [field "status"; field "chatFile"; field_as "sha256" "newSha256"; field_as "integrity" "newIntegrity";
     field "byteLength"; field "messageCount"] v;
  match fields with
  | [a; b; c; d; e; f] =>
      a ← required value_as_str a; b ← optional value_as_str b; c ← optional value_as_str c;
      d ← optional value_as_str d; e ← optional value_as_u64 e; f ← optional value_as_u64 f;
      Some {| kw_status := a; kw_chat_file := b; kw_sha256 := c; kw_integrity := d; kw_byte_length := e;
              kw_message_count := f |}
  | _ => None
  end.

Record ProbeCapabilitiesWire := {
  pc_mode : StWriteMode;
  pc_snapshot : bool;
  pc_typed_mutations : bool;
  pc_integrity_rotation : bool;
  pc_operation_replay : bool;
  pc_durable_write : bool;
  pc_scopes : list StWriteScope;
}.

Definition mode_from_value : Value -> option StWriteMode := unit_variant StWriteMode_variant.
Definition scopes_from_value : Value -> option (list StWriteScope) := vec_of (unit_variant StWriteScope_variant).

Definition ProbeCapabilitiesWire_from_value (v : Value) : option ProbeCapabilitiesWire :=
  fields ← struct_fields false
    [field "mode"; field "snapshot"; field "typedMutations"; field "integrityRotation"; field "operationReplay";
     field "durableWrite"; field_or "scopes"] v;
  match fields with
  | [a; b; c; d; e; f; g] =>
      a ← required mode_from_value a; b ← required value_as_bool b; c ← required value_as_bool c;
      d ← required value_as_bool d; e ← required value_as_bool e; f ← required value_as_bool f;
      g ← defaulted [] scopes_from_value g;
      Some {| pc_mode := a; pc_snapshot := b; pc_typed_mutations := c; pc_integrity_rotation := d;
              pc_operation_replay := e; pc_durable_write := f; pc_scopes := g |}
  | _ => None
  end.

Record ProbeWire := {
  pw_version : string;
  pw_handle : string;
  pw_profile : string;
  pw_mode : option StWriteMode;
  pw_scopes : option (list StWriteScope);
  pw_snapshot : option bool;
  pw_integrity_enabled : option bool;
  pw_typed_mutations : option bool;
  pw_integrity_rotation : option bool;
  pw_operation_replay : option bool;
  pw_durable_write : option bool;
  pw_handshake_at_unix : Z;
  pw_expires_at_unix : Z;
  pw_capabilities : option ProbeCapabilitiesWire;
}.

Definition ProbeWire_fields : list Field :=
  [field "version"; field "handle"; field "profile"; MkField ["mode"; "connectorMode"] true; field_or "scopes";
   field_or "snapshot"; field_or "integrityEnabled"; field_or "typedMutations"; field_or "integrityRotation";
   field_or "operationReplay"; field_or "durableWrite"; field "handshakeAtUnix"; field "expiresAtUnix";
   field_or "capabilities"].

Definition ProbeWire_from_value (v : Value) : option ProbeWire :=
  fields ← struct_fields false ProbeWire_fields v;
  match fields with
  | [a; b; c; d; e; f; g; h; i; j; k; l; m; n] =>
      a ← required value_as_str a; b ← required value_as_str b; c ← required value_as_str c;
      d ← optional mode_from_value d; e ← optional scopes_from_value e; f ← optional value_as_bool f;
      g ← optional value_as_bool g; h ← optional value_as_bool h; i ← optional value_as_bool i;
      j ← optional value_as_bool j; k ← optional value_as_bool k;
      l ← required value_as_i64 l; m ← required value_as_i64 m;
      n ← optional ProbeCapabilitiesWire_from_value n;
      Some {| pw_version := a; pw_handle := b; pw_profile := c; pw_mode := d; pw_scopes := e; pw_snapshot := f;
              pw_integrity_enabled := g; pw_typed_mutations := h; pw_integrity_rotation := i;
              pw_operation_replay := j; pw_durable_write := k; pw_handshake_at_unix := l;
              pw_expires_at_unix := m; pw_capabilities := n |}
  | _ => None
  end.

(** A fact of the answer itself, or of its [capabilities]. *)
Definition into_handshake (self : ProbeWire) : option HandshakeResponse :=
  let capability {A} (own : option A) (f : ProbeCapabilitiesWire -> A) : option A :=
    or_else own (f <$> pw_capabilities self) in
  mode ← capability (pw_mode self) pc_mode;
  scopes ← capability (pw_scopes self) pc_scopes;
  snapshot ← capability (pw_snapshot self) pc_snapshot;
  integrity_enabled ← pw_integrity_enabled self;
  typed_mutations ← capability (pw_typed_mutations self) pc_typed_mutations;
  integrity_rotation ← capability (pw_integrity_rotation self) pc_integrity_rotation;
  operation_replay ← capability (pw_operation_replay self) pc_operation_replay;
  durable_write ← capability (pw_durable_write self) pc_durable_write;
  Some {| hs_version := pw_version self; hs_handle := pw_handle self; hs_profile := pw_profile self;
          hs_connector_mode := mode; hs_scopes := scopes; hs_snapshot := snapshot;
          hs_integrity_enabled := integrity_enabled; hs_typed_mutations := typed_mutations;
          hs_integrity_rotation := integrity_rotation; hs_operation_replay := operation_replay;
          hs_durable_write := durable_write; hs_handshake_at_unix := pw_handshake_at_unix self;
          hs_expires_at_unix := pw_expires_at_unix self |}.

(** ** What an answer has to satisfy *)

Definition is_sha256 (value : string) : bool :=
  (String.length value =? SHA256_HEX_LENGTH)%nat && all_bytes is_hex_digit value.

Definition validate_integrity (value : string) : bool :=
  negb (is_blank value) && (String.length value <=? 256)%nat.

Definition len_u64 {A} (l : list A) : Z := Z.of_nat (length l).

Definition validate_snapshot_wire (wire : SnapshotWire) : bool :=
  let chat := sw_parsed_chat wire in
  if bool_decide (chat = []) || (MAX_SNAPSHOT_MESSAGES <? len_u64 chat)%Z
     || (sw_source_byte_length wire =? 0)%Z || (MAX_SNAPSHOT_BYTES <? sw_source_byte_length wire)%Z
     || (sw_source_message_count wire =? 0)%Z || negb (sw_source_message_count wire =? len_u64 chat)%Z
     || negb (is_sha256 (sw_source_sha256 wire)) || negb (validate_integrity (sw_source_integrity wire))
  then false
  else
    match (h ← head chat; value_as_object h) with
    | None => false
    | Some header =>
        match (m ← assoc_get "chat_metadata" header; value_as_object m) with
        | None => false
        | Some metadata =>
            match (i ← assoc_get "integrity" metadata; value_as_str i) with
            | Some integrity => (integrity =?= sw_source_integrity wire) && validate_integrity integrity
            | None => false
            end
        end
    end.

Definition validate_after_fields (sha256 integrity : option string) (byte_length message_count : option Z) : bool :=
  is_sha256 (default "" sha256)
  && validate_integrity (default "" integrity)
  && from_option (λ v, (0 <? v)%Z && (v <=? MAX_SNAPSHOT_BYTES)%Z) false byte_length
  && from_option (λ v, (0 <? v)%Z && (v <=? MAX_SNAPSHOT_MESSAGES)%Z) false message_count.

(** ** Ownership and journal records *)

Definition PollerOwnershipRecord_from_value (v : Value) : option PollerOwnershipRecord :=
  fields ← struct_fields false [field "telegramBotId"; field "owner"; field "epoch"] v;
  match fields with
  | [a; b; c] =>
      a ← required value_as_i64 a; b ← required (unit_variant PollerOwner_variant) b; c ← required value_as_u64 c;
      Some {| own_telegram_bot_id := a; own_owner := b; own_epoch := c |}
  | _ => None
  end.

Definition PollerOwnershipEnvelope_from_value (v : Value) : option (option PollerOwnershipRecord) :=
  fields ← struct_fields false [field "record"] v;
  match fields with [a] => optional PollerOwnershipRecord_from_value a | _ => None end.

(** [OperationJournalWire] has the fields of the record it becomes. *)
Definition OperationJournalWire_from_value (v : Value) : option StOperationJournalRecord :=
  fields ← struct_fields false
    [field "operationId"; field "locatorHash"; field "mutationDigest"; field "status"; field "beforeSha256";
     field "beforeIntegrity"; field "afterSha256"; field "afterIntegrity"; field "afterByteLength";
     field "afterMessageCount"] v;
  match fields with
  | [a; b; c; d; e; f; g; h; i; j] =>
      a ← required value_as_str a; b ← required value_as_str b; c ← required value_as_str c;
      d ← required (unit_variant StOperationJournalStatus_variant) d;
      e ← optional value_as_str e; f ← optional value_as_str f; g ← optional value_as_str g;
      h ← optional value_as_str h; i ← optional value_as_u64 i; j ← optional value_as_u64 j;
      Some {| sj_operation_id := a; sj_locator_hash := b; sj_mutation_digest := c; sj_status := d;
              sj_before_sha256 := e; sj_before_integrity := f; sj_after_sha256 := g; sj_after_integrity := h;
              sj_after_byte_length := i; sj_after_message_count := j |}
  | _ => None
  end.

Definition OperationJournalEnvelope_from_value (v : Value) : option (option StOperationJournalRecord) :=
  fields ← struct_fields true [field "record"] v;
  match fields with [a] => optional OperationJournalWire_from_value a | _ => None end.

(** [#[serde(untagged)]]: the envelope first, then the bare record. *)
Definition OperationJournalPayload_from_value (v : Value) : option (option StOperationJournalRecord) :=
  match OperationJournalEnvelope_from_value v with
  | Some record => Some record
  | None => Some <$> OperationJournalWire_from_value v
  end.

(** ** Mutations can be read back

    [StMutation] also derives [Deserialize]: the connector reads what the bridge
    wrote.  The tag may stand anywhere; what remains is the variant's struct. *)

Definition u32_from_value (v : Value) : option Z :=
  z ← value_as_u64 v; if (z <? 2 ^ 32)%Z then Some z else None.

Definition message_from_value (v : Value) : option StChatMessage :=
  fields ← struct_fields false [field "name"; field "isUser"; field "mes"; field "sendDate"; field "extra"] v;
  match fields with
  | [a; b; c; d; e] =>
      a ← required value_as_str a; b ← required value_as_bool b; c ← required value_as_str c;
      d ← optional value_as_str d; e ← required value_as_object e;
      Some {| m_name := a; m_is_user := b; m_mes := c; m_send_date := d; m_extra := e |}
  | _ => None
  end.

Definition extra_patch_from_value (v : Value) : option StCompressionExtraPatch :=
  fields ← struct_fields false [field "displayText"; field "compressed"] v;
  match fields with
  | [a; b] => a ← optional value_as_str a; b ← optional value_as_bool b; Some {| x_display_text := a; x_compressed := b |}
  | _ => None
  end.

Definition patch_from_value (v : Value) : option StMessagePatch :=
  fields ← struct_fields false [field "index"; field "expectedMessageSha256"; field "mes"; field "extra"] v;
  match fields with
  | [a; b; c; d] =>
      a ← required u32_from_value a; b ← required value_as_str b; c ← optional value_as_str c;
      d ← optional extra_patch_from_value d;
      Some {| p_index := a; p_expected_message_sha256 := b; p_mes := c; p_extra := d |}
  | _ => None
  end.

Definition mutation_from_value (v : Value) : option StMutation :=
  m ← value_as_object v;
  kind ← (k ← object_field m (field "kind"); required value_as_str k);
  let rest := JObject (filter (λ kv, kv.1 <> "kind") m) in
  if kind =?= "append_turn" then
    fields ← struct_fields false [field "userMessage"; field "assistantMessage"] rest;
    match fields with
    | [a; b] => a ← required message_from_value a; b ← required message_from_value b; Some (AppendTurn a b)
    | _ => None
    end
  else if kind =?= "undo_last_turn" then
    fields ← struct_fields false [field "expectedUserSha256"; field "expectedAssistantSha256"] rest;
    match fields with
    | [a; b] => a ← required value_as_str a; b ← required value_as_str b; Some (UndoLastTurn a b)
    | _ => None
    end
  else if kind =?= "replace_last_assistant" then
    fields ← struct_fields false [field "expectedAssistantSha256"; field "assistantMessage"] rest;
    match fields with
    | [a; b] => a ← required value_as_str a; b ← required message_from_value b; Some (ReplaceLastAssistant a b)
    | _ => None
    end
  else if kind =?= "compress_messages" then
    fields ← struct_fields false [field "patches"] rest;
    match fields with [a] => a ← required (vec_of patch_from_value) a; Some (CompressMessages a) | _ => None end
  else None.

(** ** Facts *)

Lemma message_round_trip m : message_from_value (message_json m) = Some m.
Proof. destruct m as [name is_user mes [date|] extra]; reflexivity. Qed.

Lemma extra_patch_round_trip x : extra_patch_from_value (extra_patch_json x) = Some x.
Proof. destruct x as [[text|] [compressed|]]; reflexivity. Qed.

Lemma digits_u64_pretty z : (0 <= z < 2 ^ 64)%Z -> digits_u64 (pretty z) = Some z.
Proof.
  intros [Hz Hlt]. unfold digits_u64. rewrite digits_value_pretty by done.
  rewrite (proj2 (Z.ltb_lt z _)) by done. case_bool_decide as He; [| done].
  pose proof (digits_value_pretty z Hz) as Hv. rewrite He in Hv. simpl in Hv. injection Hv as <-. discriminate He.
Qed.

Definition patch_wf (p : StMessagePatch) : Prop := (0 <= p_index p < 2 ^ 32)%Z.

Lemma u32_round_trip z : (0 <= z < 2 ^ 32)%Z -> u32_from_value (num z) = Some z.
Proof.
  intros Hz. unfold u32_from_value, num, value_as_u64. rewrite digits_u64_pretty by lia. simpl.
  by rewrite (proj2 (Z.ltb_lt z _)) by lia.
Qed.

Lemma patch_round_trip p : patch_wf p -> patch_from_value (patch_json p) = Some p.
Proof.
  intros Hw. pose proof (u32_round_trip _ Hw) as Hi. destruct p as [index sha mes extra].
  assert (Hx : optional extra_patch_from_value (Some (opt_json extra_patch_json extra)) = Some extra)
    by (apply optional_opt_json; [apply extra_patch_round_trip | done]).
  assert (Hm : optional value_as_str (Some (opt_json JString mes)) = Some mes) by (by destruct mes).
  cbn [p_index] in Hi. unfold patch_from_value, patch_json.
  cbn [p_index p_expected_message_sha256 p_mes p_extra].
  set (vi := num index) in *. set (vm := opt_json JString mes) in *. set (vx := opt_json extra_patch_json extra) in *.
  clearbody vi vm vx.
  change (struct_fields _ _ _) with (Some [Some vi; Some (JString sha); Some vm; Some vx]).
  cbn -[u32_from_value optional]. rewrite Hi. cbn -[optional]. rewrite Hm. cbn -[optional]. by rewrite Hx.
Qed.

Lemma patches_round_trip l : Forall patch_wf l -> vec_of patch_from_value (JArray (map patch_json l)) = Some l.
Proof.
  simpl. induction 1 as [|p l Hp Hl IH]; [done |]. simpl. by rewrite patch_round_trip, IH.
Qed.

Definition mutation_wf (m : StMutation) : Prop :=
  match m with CompressMessages patches => Forall patch_wf patches | _ => True end.

(** Writing a mutation for the connector and reading it back is the identity, for
    every mutation whose patch indices are [u32]. *)
Theorem mutation_round_trip m : mutation_wf m -> mutation_from_value (mutation_json m) = Some m.
Proof.
  destruct m as [u a|su sa|s a|patches]; intros Hw.
  - change (mutation_from_value _) with
      (u' ← message_from_value (message_json u); a' ← message_from_value (message_json a); Some (AppendTurn u' a')).
    by rewrite !message_round_trip.
  - reflexivity.
  - change (mutation_from_value _) with (a' ← message_from_value (message_json a); Some (ReplaceLastAssistant s a')).
    by rewrite message_round_trip.
  - change (mutation_from_value _) with
      (l ← vec_of patch_from_value (JArray (map patch_json patches)); Some (CompressMessages l)).
    by rewrite patches_round_trip.
Qed.

Lemma mutation_round_trip_witness :
  mutation_from_value (mutation_json
    (CompressMessages [{| p_index := 7; p_expected_message_sha256 := "ab"; p_mes := None;
                          p_extra := Some {| x_display_text := Some "short"; x_compressed := Some true |} |}]))
  = Some (CompressMessages [{| p_index := 7; p_expected_message_sha256 := "ab"; p_mes := None;
                          p_extra := Some {| x_display_text := Some "short"; x_compressed := Some true |} |}]).
Proof. apply mutation_round_trip. apply Forall_singleton. unfold patch_wf. simpl. lia. Defined.
