(* ===== verification/ConnectorClient.v ===== *)
(** * The connector client ([src/adapters/st/connector.rs])

    The signed requests of the bridge to the connector plugin: the handshake, chat
    snapshots, the two mutations (create and commit), the poller registry and the
    operation journal.  Mutations are what can go wrong: the client sends one at most
    once and reports in the error's commit state what is known of it.

    Calls run in the world of [Session]; HMAC, SHA-256, the clock and the nonce
    generator are parameters, as is the network. *)

From stdpp Require Import pretty.
From S2P Require Import Prelude Text Errors StDomain ErrorMapper ConnectorHmac PollerOwnership Journal Decoder Config Session ConnectorWire.
From Stdlib Require Import Lia.

(** The base path of the plugin. *)
Definition connector_path (name : string) : string := "/api/plugins/st-im-bridge/connector/v1/" +:+ name.

(** [ConnectorClient::new]: the key is trimmed, and has at least 32 bytes then. *)
Definition ConnectorClient_new (key : option string) : option string :=
  match key with
  | None => None
  | Some key => if (String.length (trim key) <? 32)%nat then None else Some (trim key)
  end.

(** The body is read chunk by chunk and never grows beyond the limit.  ([checked_add]
    of two lengths that fit in memory does not overflow; it would be refused alike.) *)
Fixpoint read_body (bytes : string) (chunks : list string) (broken : option bool) : result string StFailureFacts :=
  match chunks with
  | [] => match broken with Some _ => Err FConnectorUnavailable | None => Ok bytes end
  | chunk :: chunks =>
      let next_len := Z.of_nat (String.length bytes + String.length chunk) in
      if (MAX_CONNECTOR_BODY_BYTES <? next_len)%Z then Err (FControl StCommitPayloadTooLarge)
      else read_body (bytes +:+ chunk) chunks broken
  end.

(** [error.operation_id = ..; error.commit_state = ..]. *)
Definition with_operation (operation_id : option string) (commit_state : CommitState) (e : StBridgeError)
    : StBridgeError :=
  {| e_code := e_code e; e_stage := e_stage e; e_safe_message := e_safe_message e;
     e_safe_detail := e_safe_detail e; e_upstream_http_status := e_upstream_http_status e;
     e_upstream_code := e_upstream_code e; e_endpoint_class := e_endpoint_class e;
     e_retryable := e_retryable e; e_commit_state := commit_state; e_operation_id := operation_id;
     e_request_id := e_request_id e; e_trace_id := e_trace_id e; e_duration_ms := e_duration_ms e;
     e_attempt := e_attempt e |}.

Definition map_poller_error (error : StBridgeError) : PollerError :=
  match e_code error with
  | StPollerNotOwner => NotOwner
  | StPollerEpochMismatch => EpochMismatch
  | StChatLocatorRejected => InvalidBotId
  | _ => RegistryUnavailable
  end.

(** [impl Display for StBridgeError]. *)
Definition StBridgeError_display (e : StBridgeError) : string := StErrorCode_as_str (e_code e) +:+ ": " +:+ e_safe_message e.

Section Client.
Context `{IdSource} `{Redactor}.
Context (from_slice : string -> option Value) (json_bytes : Value -> string) (sha256_hex : string -> string)
        (hmac_hex : string -> string -> string).
Context (net : Network) (elapsed_ms : list HttpRequest -> Z) (allow_cookieless : bool).
(** [OffsetDateTime::now_utc().unix_timestamp()] and the 16 random characters of a nonce. *)
Context (unix_timestamp : list HttpRequest -> Z) (fresh_nonce : list HttpRequest -> string).
Context (config : StClientConfig) (hmac_key : string).

Definition connector_facts (stage : StErrorStage) (operation_id : option string) (commit_state : CommitState)
    (failure : StFailureFacts) : StErrorFacts :=
  {| fact_stage := stage; fact_endpoint_class := Some "connector"; fact_operation_id := operation_id;
     fact_commit_state := commit_state; fact_attempt := 1; fact_duration_ms := None; fact_failure := failure |}.

Definition connector_error (stage : StErrorStage) (operation_id : option string) (commit_state : CommitState)
    (failure : StFailureFacts) : StBridgeError :=
  map_st_error from_slice sha256_hex (connector_facts stage operation_id commit_state failure).

Definition invalid_payload (stage : StErrorStage) (operation_id : option string) (commit_state : CommitState)
    : StBridgeError :=
  connector_error stage operation_id commit_state FDecodeInvalidPayload.

Definition unknown_commit (operation_id : string) : StBridgeError :=
  connector_error StageCommit (Some operation_id) Unknown (FControl StCommitStateUnknown).

(** The state of a mutation whose request went out without a usable answer. *)
Definition sent_state (mutation : bool) : CommitState := if mutation then Unknown else NotStarted.
Definition unsent_state (mutation : bool) : CommitState := if mutation then NotApplied else NotStarted.

Definition unknown_or_not_applied (stage : StErrorStage) (operation_id : option string) (mutation : bool)
    (failure : StFailureFacts) : StBridgeError :=
  connector_error stage operation_id (sent_state mutation) failure.

(** ** One request *)

Definition hmac_request (method path query body : string) (w : World) : ConnectorHmacRequest :=
  {| h_method := method; h_path := path; h_query := query; h_timestamp_unix := unix_timestamp (w_sent w);
     h_nonce := fresh_nonce (w_sent w); h_content_type := ALLOWED_CONTENT_TYPE; h_body := body |}.

Definition request_url (path query : string) : string :=
  if query =?= "" then session_url config path else session_url config path +:+ "?" +:+ query.

Definition connector_request (req : ConnectorHmacRequest) (signature csrf_token cookie_header : string) : HttpRequest :=
  {| rq_method := h_method req; rq_url := request_url (h_path req) (h_query req);
     rq_timeout_ms := timeout_of (cf_timeout_ms config);
     rq_headers := host_headers config ++
       [("content-type", ALLOWED_CONTENT_TYPE); ("x-csrf-token", csrf_token); ("cookie", cookie_header);
        ("x-im-bridge-timestamp", pretty (h_timestamp_unix req)); ("x-im-bridge-nonce", h_nonce req);
        ("x-im-bridge-signature", signature)];
     rq_body := Some (h_body req) |}.

(** The answer that is not retried. *)
Definition connector_answer (stage : StErrorStage) (operation_id : option string) (mutation : bool)
    (response : HttpResponse) : StResult Value :=
  if from_option (λ length, (MAX_CONNECTOR_BODY_BYTES <? length)%Z) false (rs_content_length response)
  then Err (unknown_or_not_applied stage operation_id mutation (FControl StCommitPayloadTooLarge)) else
  match read_body "" (rs_chunks response) (rs_broken response) with
  | Err failure => Err (unknown_or_not_applied stage operation_id mutation failure)
  | Ok bytes =>
      if negb (is_success (rs_status response)) then
        let rejection_state :=
          if mutation then if is_client_error (rs_status response) then NotApplied else Unknown else NotStarted in
        Err (connector_error stage operation_id rejection_state
               (FHttp (rs_status response) (rs_content_type response) (Some bytes)))
      else
        ok_or (from_slice bytes)
          (if mutation then unknown_commit (default "unknown-operation" operation_id)
           else invalid_payload stage operation_id NotStarted)
  end.

(** One pass of [request_once]: session, signature, request, answer.  [again] is the
    recursive call after a [403]. *)
Definition request_pass (method path query body : string) (stage : StErrorStage) (operation_id : option string)
    (mutation : bool) (again : option (Call Value)) : Call Value :=
  call! tokens :=
    cmap_err (with_operation operation_id (unsent_state mutation))
      (csrf_and_cookie from_slice sha256_hex net elapsed_ms allow_cookieless config) in
  λ w,
    let req := hmac_request method path query body w in
    let auth_error := connector_error stage operation_id NotApplied FConnectorAuth in
    match canonical_string sha256_hex req with
    | Err _ => (w, Err auth_error)
    | Ok canonical =>
        match sign hmac_hex hmac_key canonical with
        | Err _ => (w, Err auth_error)
        | Ok signature =>
            match send net (connector_request req signature tokens.1 tokens.2) w with
            | (w, NetFailed _) =>
                (w, Err (connector_error stage operation_id (sent_state mutation) FConnectorUnavailable))
            | (w, NetResponse response) =>
                match again with
                | Some again =>
                    if (rs_status response =? 403)%Z then again (invalidate w)
                    else (w, connector_answer stage operation_id mutation response)
                | None => (w, connector_answer stage operation_id mutation response)
                end
            end
        end
    end.

(** [request_once]: only a request that is no mutation is repeated, and once; the
    repeated one has [retry_on_403] unset. *)
Definition request_once (method path query body : string) (retry_on_403 : bool) (stage : StErrorStage)
    (operation_id : option string) (mutation : bool) : Call Value :=
  let pass := request_pass method path query body stage operation_id mutation in
  if retry_on_403 && negb mutation then pass (Some (pass None)) else pass None.

Definition cget (path query : string) (stage : StErrorStage) (operation_id : option string) (mutation : bool)
    : Call Value :=
  request_once "GET" path query "" true stage operation_id mutation.

Definition cpost (path : string) (body : Value) (stage : StErrorStage) (operation_id : option string)
    (mutation : bool) : Call Value :=
  request_once "POST" path "" (json_bytes body) true stage operation_id mutation.

(** ** Reads *)

Definition client_probe : Call HandshakeResponse :=
  let invalid := invalid_payload StageControl None NotStarted in
  call! payload := cget (connector_path "probe") "" StageControl None false in
  clift (let? wire := ok_or (ProbeWire_from_value payload) invalid in
         let? handshake := ok_or (into_handshake wire) invalid in
         if is_blank (hs_version handshake) || is_blank (hs_handle handshake) || is_blank (hs_profile handshake)
            || (hs_handshake_at_unix handshake <=? 0)%Z
            || (hs_expires_at_unix handshake <=? hs_handshake_at_unix handshake)%Z
         then Err invalid else Ok handshake).

Definition client_snapshot (locator : StChatLocator) : Call StChatSnapshot :=
  let invalid := invalid_payload StageSnapshot None NotStarted in
  call! payload := cpost (connector_path "chats/snapshot") (snapshot_body locator) StageSnapshot None false in
  clift (let? wire := ok_or (SnapshotWire_from_value payload) invalid in
         if negb (validate_snapshot_wire wire) then Err invalid else
         Ok {| sn_locator := locator; sn_parsed_chat := sw_parsed_chat wire;
               sn_source_sha256 := sw_source_sha256 wire; sn_source_integrity := sw_source_integrity wire;
               sn_source_byte_length := sw_source_byte_length wire;
               sn_source_message_count := sw_source_message_count wire |}).

(** ** Mutations *)

Definition create_result (command : CreateStChat) (payload : Value) : StResult StCommitResult :=
  let unknown := unknown_commit (cr_operation_id command) in
  let? wire := ok_or (CreateWire_from_value payload) unknown in
  let unapplied status :=
    Ok {| cres_status := status; cres_new_sha256 := kw_sha256 wire; cres_new_integrity := kw_integrity wire;
          cres_byte_length := kw_byte_length wire; cres_message_count := kw_message_count wire |} in
  if (kw_status wire =?= "not_applied") || (kw_status wire =?= "failed") then unapplied CommitNotApplied else
  if kw_status wire =?= "unknown" then unapplied CommitUnknown else
  if negb ((kw_status wire =?= "applied") || (kw_status wire =?= "already_applied")) then Err unknown else
  let status := if kw_status wire =?= "already_applied" then CommitAlreadyApplied else CommitApplied in
  match kw_chat_file wire, kw_sha256 wire, kw_integrity wire, kw_byte_length wire, kw_message_count wire with
  | Some chat_file, Some sha256, Some integrity, Some byte_length, Some message_count =>
      if is_blank chat_file || negb (chat_file =?= loc_chat_file (cr_locator command))
         || negb (validate_after_fields (Some sha256) (Some integrity) (Some byte_length) (Some message_count))
      then Err unknown
      else Ok {| cres_status := status; cres_new_sha256 := Some sha256; cres_new_integrity := Some integrity;
                 cres_byte_length := Some byte_length; cres_message_count := Some message_count |}
  | _, _, _, _, _ => Err unknown
  end.

Definition client_create_chat (command : CreateStChat) : Call StCommitResult :=
  call! payload := cpost (connector_path "chats/create") (create_body command) StageCommit
                     (Some (cr_operation_id command)) true in
  clift (create_result command payload).

Definition commit_status (status : string) : option StCommitStatus :=
  if status =?= "applied" then Some CommitApplied else
  if status =?= "already_applied" then Some CommitAlreadyApplied else
  if (status =?= "not_applied") || (status =?= "failed") then Some CommitNotApplied else
  if status =?= "unknown" then Some CommitUnknown else None.

Definition commit_result (command : CommitStChat) (payload : Value) : StResult StCommitResult :=
  let unknown := unknown_commit (cm_operation_id command) in
  let? wire := ok_or (CommitWire_from_value payload) unknown in
  let? status := ok_or (commit_status (cw_status wire)) unknown in
  if ((status =?= CommitApplied) || (status =?= CommitAlreadyApplied))
     && negb (validate_after_fields (cw_new_sha256 wire) (cw_new_integrity wire) (cw_byte_length wire)
                (cw_message_count wire))
  then Err unknown
  else Ok {| cres_status := status; cres_new_sha256 := cw_new_sha256 wire;
             cres_new_integrity := cw_new_integrity wire; cres_byte_length := cw_byte_length wire;
             cres_message_count := cw_message_count wire |}.

Definition client_commit (command : CommitStChat) : Call StCommitResult :=
  call! payload := cpost (connector_path "chats/commit") (commit_body command) StageCommit
                     (Some (cm_operation_id command)) true in
  clift (commit_result command payload).

(** ** The poller registry *)

Definition get_poller_ownership (telegram_bot_id : Z) : Call (option PollerOwnershipRecord) :=
  if (telegram_bot_id <=? 0)%Z
  then cerr (connector_error StageControl None NotStarted (FControl StPollerNotOwner)) else
  call! payload := cget (connector_path "poller-ownership") ("telegramBotId=" +:+ pretty telegram_bot_id)
                     StageControl None false in
  clift (ok_or (PollerOwnershipEnvelope_from_value payload) (invalid_payload StageControl None NotStarted)).

(** A call of the registry: [map_err(map_poller_error)]. *)
Definition PollerCall (A : Type) : Type := World -> World * result A PollerError.

Definition poller_call {A} (m : Call A) : PollerCall A := λ w, let '(w', r) := m w in (w', map_err map_poller_error r).

Definition client_get_ownership (telegram_bot_id : Z) : PollerCall (option PollerOwnershipRecord) :=
  λ w, if (telegram_bot_id <=? 0)%Z then (w, Err InvalidBotId)
       else poller_call (get_poller_ownership telegram_bot_id) w.

Definition client_assert_can_start (telegram_bot_id : Z) (runtime_owner : PollerOwner) (runtime_epoch : Z)
    : PollerCall unit :=
  λ w,
    match client_get_ownership telegram_bot_id w with
    | (w, Err e) => (w, Err e)
    | (w, Ok None) => (w, Err NotRegistered)
    | (w, Ok (Some record)) =>
        if negb (own_owner record =?= runtime_owner) then (w, Err NotOwner)
        else if negb (own_epoch record =?= runtime_epoch) then (w, Err EpochMismatch)
        else (w, Ok tt)
    end.

(** A control request whose answer does not matter. *)
Definition control_post (name : string) (body : Value) : PollerCall unit :=
  poller_call (call! _ := cpost (connector_path name) body StageControl None false in cret tt).

Definition client_assert_fence (telegram_bot_id : Z) (owner : PollerOwner) (binding : PollerRuntimeBinding)
    : PollerCall unit :=
  λ w,
    if negb (owner =?= RustBridge) || (telegram_bot_id <=? 0)%Z || is_blank (b_internal_bot_id binding)
       || is_blank (b_runtime_instance_id binding) || (b_epoch binding =? 0)%Z
       || negb (accepts_writes (b_lifecycle binding))
    then (w, Err LifecycleInvalid)
    else control_post "poller-runtime/assert" (binding_body telegram_bot_id binding) w.

Definition client_heartbeat (telegram_bot_id : Z) (owner : PollerOwner) (epoch : Z) : PollerCall unit :=
  control_post "poller-ownership/heartbeat" (heartbeat_body telegram_bot_id owner epoch).

Definition client_claim_runtime (telegram_bot_id : Z) (binding : PollerRuntimeBinding) : PollerCall unit :=
  λ w,
    if (telegram_bot_id <=? 0)%Z || is_blank (b_internal_bot_id binding)
       || is_blank (b_runtime_instance_id binding) || (b_epoch binding =? 0)%Z
       || negb (can_own (b_lifecycle binding))
    then (w, Err LifecycleInvalid)
    else control_post "poller-runtime/claim" (binding_body telegram_bot_id binding) w.

Definition client_release_runtime (telegram_bot_id : Z) (runtime_instance_id : string) : PollerCall unit :=
  λ w,
    if (telegram_bot_id <=? 0)%Z || is_blank runtime_instance_id then (w, Err InvalidBotId)
    else control_post "poller-runtime/release" (release_body telegram_bot_id runtime_instance_id) w.

(** ** The operation journal *)

Definition journal_decode_failed (message : string) : AppError := bad_request "ST_JOURNAL_DECODE_FAILED" message.

Definition journal_record (value : Value) : AppResult (option StOperationJournalRecord) :=
  if value_is_null value then Ok None else
  let? payload := ok_or (OperationJournalPayload_from_value value)
    (journal_decode_failed
       "invalid journal payload: data did not match any variant of untagged enum OperationJournalPayload") in
  match payload with
  | None => Ok None
  | Some wire =>
      if (sj_status wire =?= SjApplied)
         && negb (validate_after_fields (sj_after_sha256 wire) (sj_after_integrity wire)
                    (sj_after_byte_length wire) (sj_after_message_count wire))
      then Err (journal_decode_failed "applied journal record is missing valid after-image fields")
      else Ok (Some wire)
  end.

Definition client_lookup (operation_id : string) : World -> World * AppResult (option StOperationJournalRecord) :=
  λ w,
    match cget (connector_path "operations") ("operationId=" +:+ operation_id) StageControl (Some operation_id) false w with
    | (w, Ok value) => (w, journal_record value)
    | (w, Err error) =>
        if (e_code error =?= StChatNotFound) || (e_upstream_http_status error =?= Some 404%Z) then (w, Ok None)
        else (w, Err (bad_gateway "ST_OPERATION_JOURNAL_LOOKUP_FAILED"
                        ("failed to lookup operation journal: " +:+ StBridgeError_display error)))
    end.
End Client.
