(* ===== verification/ConnectorCorrect.v ===== *)
(** * What the connector client guarantees

    A mutation is handed to the HTTP client at most once and the caller is told what the
    last answer says of it; reads are repeated at most once; an answer is believed only
    when it is complete, small enough, well-formed and consistent. *)

From stdpp Require Import pretty.
From S2P Require Import Prelude Text Errors StDomain ErrorMapper ConnectorHmac PollerOwnership Journal Decoder Config Session ConnectorWire Backend ConnectorClient.
From Stdlib Require Import Lia.

(** ** Bodies *)

Lemma read_body_app acc chunks broken bytes :
  read_body acc chunks broken = Ok bytes ->
  bytes = acc +:+ String.concat "" chunks /\ broken = None
  /\ (chunks <> [] -> (Z.of_nat (String.length bytes) <= MAX_CONNECTOR_BODY_BYTES)%Z).
Proof.
  assert (Hcat : forall c cs, String.concat "" (c :: cs) = c +:+ String.concat "" cs).
  { intros c [|c2 cs]; simpl; [by rewrite app_string_nil |]. by destruct c. }
  revert acc. induction chunks as [|c cs IH]; intros acc; cbn [read_body].
  - destruct broken; [done |]. intros [= <-]. by rewrite app_string_nil.
  - destruct (Z.ltb_spec MAX_CONNECTOR_BODY_BYTES (Z.of_nat (String.length acc + String.length c))) as [|Hle]; [done |].
    intros (Hb & Hbr & Hl)%IH. rewrite Hcat, app_string_assoc. split_and!; [done | done |]. intros _.
    destruct cs as [|c2 cs]; [| by apply Hl]. rewrite Hb. simpl. rewrite app_string_nil, app_string_length. lia.
Qed.

(** The whole body of a response, as far as the client accepts it. *)
Definition accepted_body (response : HttpResponse) (bytes : string) : Prop :=
  rs_broken response = None /\ bytes = String.concat "" (rs_chunks response)
  /\ (Z.of_nat (String.length bytes) <= MAX_CONNECTOR_BODY_BYTES)%Z.

Lemma read_body_accepted response bytes :
  read_body "" (rs_chunks response) (rs_broken response) = Ok bytes -> accepted_body response bytes.
Proof.
  intros (Hb & Hbr & Hl)%read_body_app. change ("" +:+ ?s) with s in Hb. split_and!; [done | done |].
  destruct (rs_chunks response); [by rewrite Hb | by apply Hl].
Qed.

Section Client.
Context `{IdSource} `{Redactor}.
Context (from_slice : string -> option Value) (json_bytes : Value -> string) (sha256_hex : string -> string)
        (hmac_hex : string -> string -> string).
Context (net : Network) (elapsed_ms : list HttpRequest -> Z) (allow_cookieless : bool).
Context (unix_timestamp : list HttpRequest -> Z) (fresh_nonce : list HttpRequest -> string).
Context (config : StClientConfig) (hmac_key : string).

Notation pass := (request_pass from_slice sha256_hex hmac_hex net elapsed_ms allow_cookieless unix_timestamp
                    fresh_nonce config hmac_key).
Notation once := (request_once from_slice sha256_hex hmac_hex net elapsed_ms allow_cookieless unix_timestamp
                    fresh_nonce config hmac_key).
Notation answer := (connector_answer from_slice sha256_hex).

(** A request of the client as it leaves: signed over its own content, with a
    session's token and cookies. *)
Definition signed_request (method path query body : string) (request : HttpRequest) : Prop :=
  exists req canonical csrf cookies,
    h_method req = method /\ h_path req = path /\ h_query req = query /\ h_body req = body
    /\ canonical_string sha256_hex req = Ok canonical
    /\ request = connector_request config req (hmac_hex hmac_key canonical) csrf cookies.

(** One pass: the session's fetch, then the request or an error that says nothing
    was sent; then the answer, or the second pass. *)
Lemma request_pass_run method path query body stage op mutation again w w' r :
  pass method path query body stage op mutation again w = (w', r) ->
  (w_sent w' = fetched net config w
   /\ exists e, r = Err e /\ e_operation_id e = op
        /\ (e_commit_state e = NotApplied \/ mutation = false))
  \/ exists request w1 answered,
       signed_request method path query body request
       /\ trip net request (fetched net config w) = (w_sent w1, answered)
       /\ ((exists t, answered = NetFailed t /\ w' = w1
              /\ r = Err (connector_error from_slice sha256_hex stage op (sent_state mutation) FConnectorUnavailable))
           \/ (exists response, answered = NetResponse response
                /\ ((w' = w1 /\ r = answer stage op mutation response
                     /\ (again = None \/ rs_status response <> 403%Z))
                    \/ exists again', again = Some again' /\ rs_status response = 403%Z
                         /\ again' (invalidate w1) = (w', r)))).
Proof.
  unfold request_pass, cbind, cmap_err, csrf_and_cookie, cbind.
  destruct (ensure_session _ _ _ _ _ _ w) as [w0 [s|e]] eqn:Ee.
  2: { intros [= <- <-]. left. apply ensure_session_run in Ee as (Hs & _ & _). split; [done |].
       eexists. split; [done |]. split; [done |]. simpl. unfold unsent_state. by destruct mutation; auto. }
  apply ensure_session_run in Ee as (Hs & _ & _). cbn.
  set (req := hmac_request unix_timestamp fresh_nonce method path query body w0).
  destruct (canonical_string sha256_hex req) as [canonical|] eqn:Hcan.
  2: { intros [= <- <-]. left. eauto 6. }
  unfold sign. destruct (hmac_key =?= "") eqn:Hkey.
  { intros [= <- <-]. left. eauto 6. }
  set (request := connector_request config req (hmac_hex hmac_key canonical) (ss_csrf_token s) (ss_cookie_header s)).
  unfold send. rewrite <- Hs. destruct (trip net request (w_sent w0)) as [sent answered] eqn:Et.
  intros Hr. right. exists request, {| w_session := w_session w0; w_sent := sent |}, answered.
  split; [exists req, canonical, (ss_csrf_token s), (ss_cookie_header s); split_and!; done |].
  split; [done |]. destruct answered as [t|response].
  - left. exists t. injection Hr as <- <-. done.
  - right. exists response. split; [done |]. destruct again as [again'|].
    + destruct (Z.eqb_spec (rs_status response) 403) as [H403|]; [right; eauto | left].
      injection Hr as <- <-. auto.
    + left. injection Hr as <- <-. auto.
Qed.

(** ** Mutations *)

(** The two writes of the backend's interface, as requests. *)
Definition client_write (call : ConnectorCall) : Call StCommitResult :=
  match call with
  | CallCreateChat command =>
      client_create_chat from_slice json_bytes sha256_hex hmac_hex net elapsed_ms allow_cookieless unix_timestamp
        fresh_nonce config hmac_key command
  | CallCommit command =>
      client_commit from_slice json_bytes sha256_hex hmac_hex net elapsed_ms allow_cookieless unix_timestamp
        fresh_nonce config hmac_key command
  end.

Definition call_operation (call : ConnectorCall) : string :=
  match call with CallCreateChat c => cr_operation_id c | CallCommit c => cm_operation_id c end.
Definition call_path (call : ConnectorCall) : string :=
  connector_path (match call with CallCreateChat _ => "chats/create" | CallCommit _ => "chats/commit" end).
Definition call_body (call : ConnectorCall) : Value :=
  match call with CallCreateChat c => create_body c | CallCommit c => commit_body c end.
Definition call_result (call : ConnectorCall) (payload : Value) : StResult StCommitResult :=
  match call with
  | CallCreateChat c => create_result from_slice sha256_hex c payload
  | CallCommit c => commit_result from_slice sha256_hex c payload
  end.

(** The body of a complete answer that is no success. *)
Definition refusal_body (response : HttpResponse) : option string :=
  if from_option (λ length, (MAX_CONNECTOR_BODY_BYTES <? length)%Z) false (rs_content_length response)
     || is_success (rs_status response) then None
  else match read_body "" (rs_chunks response) (rs_broken response) with Ok bytes => Some bytes | Err _ => None end.

(** What may be concluded from the answer alone: only a complete client error says
    that the mutation was not applied. *)
Definition concluded (response : HttpResponse) : CommitState :=
  match refusal_body response with
  | Some _ => if is_client_error (rs_status response) then NotApplied else Unknown
  | None => Unknown
  end.

(** The connector's own structured error, when the answer carries one. *)
Definition connector_reply (op : string) (response : HttpResponse) : option StBridgeError :=
  match refusal_body response with
  | Some bytes =>
      structured_reply from_slice sha256_hex
        (connector_facts StageCommit (Some op) (concluded response)
           (FHttp (rs_status response) (rs_content_type response) (Some bytes)))
  | None => None
  end.

Definition told (op : string) (response : HttpResponse) (e : StBridgeError) : Prop :=
  e_operation_id e = Some op
  /\ match connector_reply op response with
     | Some reply => e = reply
     | None => e_commit_state e = concluded response
     end.

Lemma connector_error_op stage op cs failure : e_operation_id (connector_error from_slice sha256_hex stage op cs failure) = op.
Proof.
  by destruct (mapper_preserves_commit_knowledge _ _ from_slice sha256_hex (connector_facts stage op cs failure))
    as [(Ho & _) _].
Qed.

Lemma connector_error_unknown stage op failure :
  match failure with FHttp _ _ _ => False | _ => True end ->
  e_commit_state (connector_error from_slice sha256_hex stage op Unknown failure) = Unknown.
Proof.
  intros Hf. destruct (mapper_preserves_commit_knowledge _ _ from_slice sha256_hex
                         (connector_facts stage op Unknown failure)) as [_ Hc].
  unfold structured_reply, expected_commit_state, http_status in Hc. simpl in Hc.
  by destruct failure; try done; simpl in Hc; destruct stage.
Qed.

Lemma read_body_failure acc chunks broken failure :
  read_body acc chunks broken = Err failure -> match failure with FHttp _ _ _ => False | _ => True end.
Proof.
  revert acc. induction chunks as [|c cs IH]; intros acc; cbn [read_body].
  - destruct broken; [by intros [= <-] | done].
  - destruct (_ <? _)%Z; [by intros [= <-] | apply IH].
Qed.

Lemma refusal_told op response bytes :
  refusal_body response = Some bytes ->
  told op response
    (connector_error from_slice sha256_hex StageCommit (Some op)
       (if is_client_error (rs_status response) then NotApplied else Unknown)
       (FHttp (rs_status response) (rs_content_type response) (Some bytes))).
Proof.
  intros Hb. assert (Hc : (if is_client_error (rs_status response) then NotApplied else Unknown) = concluded response)
    by (unfold concluded; by rewrite Hb). rewrite Hc.
  split; [apply connector_error_op |]. unfold connector_reply. rewrite Hb. unfold connector_error.
  destruct (mapper_preserves_commit_knowledge _ _ from_slice sha256_hex
    (connector_facts StageCommit (Some op) (concluded response)
       (FHttp (rs_status response) (rs_content_type response) (Some bytes)))) as [_ Hm].
  destruct (structured_reply _ _ _) as [reply|]; [done |]. rewrite Hm.
  unfold expected_commit_state, http_status. simpl. rewrite <- Hc. unfold is_client_error.
  destruct (Z.eqb_spec (rs_status response) 409) as [->|]; [done |].
  destruct (Z.leb_spec 400 (rs_status response)), (Z.ltb_spec (rs_status response) 500); simpl;
    destruct (Z.leb_spec 500 (rs_status response)); simpl; try done; try lia;
    try (by rewrite andb_false_r); by destruct (_ <=? _)%Z.
Qed.

Lemma answer_told op response e :
  answer StageCommit (Some op) true response = Err e -> told op response e.
Proof.
  assert (Hunknown : forall stage failure, match failure with FHttp _ _ _ => False | _ => True end ->
            refusal_body response = None -> told op response (connector_error from_slice sha256_hex stage (Some op) Unknown failure)).
  { intros stage failure Hf Hb. split; [apply connector_error_op |]. unfold connector_reply, concluded.
    rewrite Hb. by apply connector_error_unknown. }
  unfold connector_answer, unknown_or_not_applied, sent_state, unknown_commit.
  destruct (from_option _ _ _) eqn:Hlen.
  { intros [= <-]. apply Hunknown; [done |]. unfold refusal_body. by rewrite Hlen. }
  destruct (read_body _ _ _) as [bytes|failure] eqn:Hread.
  2: { intros [= <-]. apply Hunknown; [by eapply read_body_failure |].
       unfold refusal_body. rewrite Hread. by destruct (_ || _). }
  destruct (is_success (rs_status response)) eqn:Hsuc; simpl.
  - destruct (from_slice bytes); [done |]. intros [= <-]. apply Hunknown; [done |].
    unfold refusal_body. by rewrite Hsuc, orb_true_r.
  - intros [= <-]. apply refusal_told. unfold refusal_body. by rewrite Hlen, Hsuc, Hread.
Qed.

Lemma answer_ok stage op mutation response v :
  answer stage op mutation response = Ok v ->
  is_success (rs_status response) = true /\ exists bytes, accepted_body response bytes /\ from_slice bytes = Some v.
Proof.
  unfold connector_answer. destruct (from_option _ _ _); [done |].
  destruct (read_body _ _ _) as [bytes|] eqn:Hread; [| done].
  destruct (is_success _); [| done]. simpl. unfold ok_or.
  destruct (from_slice bytes) eqn:Hp; [| done]. intros [= <-]. split; [done |].
  exists bytes. split; [by apply read_body_accepted | done].
Qed.

(** A result that claims an applied mutation names the chat it left behind. *)
Definition evidenced (res : StCommitResult) : Prop :=
  cres_status res = CommitApplied \/ cres_status res = CommitAlreadyApplied ->
  validate_after_fields (cres_new_sha256 res) (cres_new_integrity res) (cres_byte_length res)
    (cres_message_count res) = true.

Lemma call_result_cases call payload :
  match call_result call payload with
  | Ok res => evidenced res
  | Err e => e = unknown_commit from_slice sha256_hex (call_operation call)
  end.
Proof.
  destruct call as [command|command]; simpl.
  - unfold create_result. destruct (CreateWire_from_value payload) as [wire|]; simpl; [| done].
    destruct (_ || _); [intros []; discriminate |].
    destruct (_ =?= "unknown"); [intros []; discriminate |].
    destruct (negb _); [done |].
    destruct (kw_chat_file wire), (kw_sha256 wire), (kw_integrity wire), (kw_byte_length wire), (kw_message_count wire);
      try done.
    destruct (is_blank _ || _ || _) eqn:Hv; [done |]. intros _. simpl.
    apply orb_false_elim in Hv as [_ Hv]. by apply negb_false_iff in Hv.
  - unfold commit_result. destruct (CommitWire_from_value payload) as [wire|]; simpl; [| done].
    destruct (commit_status _) as [status|]; simpl; [| done].
    destruct (_ && _) eqn:Hv; [done |]. unfold evidenced. simpl. intros Hs.
    apply andb_false_iff in Hv as [Hv|Hv]; [| by apply negb_false_iff in Hv].
    apply orb_false_elim in Hv as [H1 H2]. apply bool_decide_eq_false in H1, H2. by destruct Hs.
Qed.

Lemma client_write_eq call w :
  client_write call w =
    cbind (pass "POST" (call_path call) "" (json_bytes (call_body call)) StageCommit (Some (call_operation call)) true None)
      (λ payload, clift (call_result call payload)) w.
Proof. by destruct call. Qed.

(** The answer a trip is judged by: that to its last request, or the client's own error
    when the redirects ran out. *)
Definition last_answer (sent chain : list HttpRequest) (answered : NetAnswer) : Prop :=
  answered = net sent \/ answered = NetFailed false /\ length chain = MAX_REDIRECTS.

(** What a mutation can do.  Before it, only GETs are sent.  Nothing of it was sent, and
    the error says not applied.  Or one signed POST with the command's body was handed
    to the HTTP client, which sends it and follows redirects from there; and then:
    success needs a complete 2xx answer, and a claim that the mutation was applied
    comes with a valid revision of the chat; an error carries the operation's id and
    what the last answer says. *)
Definition mutation_outcome (call : ConnectorCall) (w w' : World) (r : StResult StCommitResult) : Prop :=
  exists gets, Forall is_get gets /\
  ((w_sent w' = w_sent w ++ gets
    /\ exists e, r = Err e /\ e_operation_id e = Some (call_operation call) /\ e_commit_state e = NotApplied)
   \/ exists request chain answered,
        signed_request "POST" (call_path call) "" (json_bytes (call_body call)) request
        /\ w_sent w' = w_sent w ++ gets ++ request :: chain
        /\ length chain <= MAX_REDIRECTS
        /\ redirected net (w_sent w ++ gets) request chain
        /\ ((forall response, net ((w_sent w ++ gets) ++ [request]) = NetResponse response ->
                             same_again (rs_status response) = false) -> Forall is_get chain)
        /\ last_answer (w_sent w') chain answered
        /\ match answered, r with
           | NetResponse response, Ok res => is_success (rs_status response) = true /\ evidenced res
           | NetResponse response, Err e => told (call_operation call) response e
           | NetFailed _, Err e => e_operation_id e = Some (call_operation call) /\ e_commit_state e = Unknown
           | NetFailed _, Ok _ => False
           end).

(** What the answer to the mutation's request makes of the call. *)
Lemma write_answered call (w1 w' : World) answered r :
  ((exists t, answered = NetFailed t /\ w' = w1
      /\ r = Err (connector_error from_slice sha256_hex StageCommit (Some (call_operation call)) Unknown FConnectorUnavailable))
   \/ (exists response, answered = NetResponse response /\ w' = w1
        /\ r = match answer StageCommit (Some (call_operation call)) true response with
                | Ok v => call_result call v
                | Err e => Err e
                end)) ->
  w' = w1
  /\ match answered, r with
     | NetResponse response, Ok res => is_success (rs_status response) = true /\ evidenced res
     | NetResponse response, Err e => told (call_operation call) response e
     | NetFailed _, Err e => e_operation_id e = Some (call_operation call) /\ e_commit_state e = Unknown
     | NetFailed _, Ok _ => False
     end.
Proof.
  intros [(t & -> & -> & ->)|(response & -> & -> & ->)]; (split; [done |]).
  { split; [apply connector_error_op | by apply connector_error_unknown]. }
  destruct (answer StageCommit (Some (call_operation call)) true response) as [v|e] eqn:Ha; [| by apply answer_told].
  apply answer_ok in Ha as [Hsuc _]. pose proof (call_result_cases call v) as Hres.
  destruct (call_result call v) as [res|e]; [done |]. subst e. split; [apply connector_error_op |].
  unfold connector_reply, concluded, refusal_body. rewrite Hsuc, orb_true_r. by apply connector_error_unknown.
Qed.

(** C5: a mutation - creating a chat or committing a change - is handed to the HTTP client
    at most once per call, as one signed POST with its own body, after nothing but
    GETs.  On the wire that POST is sent once; further requests follow it only where an
    answer redirects, at most ten: a GET after 301, 302 or 303, the same method and body
    again after 307 or 308.  So the POST is the only one unless it is itself answered
    307 or 308.  And the caller learns what is known: when nothing of it was sent, the
    error says not applied; otherwise the last answer is judged: success needs a
    complete 2xx answer, and a claim that the mutation was applied comes with a valid
    revision of the chat; an error carries the operation's id, and its commit state is
    the connector's own statement when the answer has one, otherwise not applied
    exactly for a complete client error and unknown in every other case: no answer, too
    many redirects, a broken or oversized body, a server error, or a success that
    cannot be read. *)
Theorem mutation_posted_and_told `{!LawfulRedirects net} call w w' r :
  client_write call w = (w', r) -> mutation_outcome call w w' r.
Proof.
  rewrite client_write_eq. unfold cbind.
  destruct (pass _ _ _ _ _ _ _ _ w) as [w1 r1] eqn:Hp. destruct (fetched_gets net config w) as (gets & Hf & Hg).
  apply request_pass_run in Hp as [(Hs & e & -> & Ho & Hc)|(request & w2 & answered & Hsig & Ht & Hcase)];
    rewrite Hf in *; intros Hr; exists gets; (split; [done |]).
  - injection Hr as <- <-. left. split; [done |]. exists e. by destruct Hc.
  - right. destruct (write_answered call w2 w' answered r) as [-> Hv].
    { destruct Hcase as [(t & -> & -> & ->)|(response & -> & [(-> & -> & _)|(again' & Habs & _)])]; [| | done].
      - left. exists t. by injection Hr as <- <-.
      - right. exists response. by destruct (answer _ _ _ response); injection Hr as <- <-. }
    pose proof (follow_answer _ _ _ _ _ _ Ht) as Hans.
    apply follow_sends in Ht as (chain & Hs & Hl & Hch); [| done | right; by destruct Hsig as (? & ? & ? & ? & ? & _ & _ & _ & _ & ->)].
    exists request, chain, answered. split; [done |]. split; [by rewrite Hs, <- app_assoc |].
    do 2 (split; [done |]). split; [intros Hno; by eapply redirected_once |]. split; [| done].
    destruct Hans as [->|(-> & Hlen & _)]; [by left | right; split; [done |]].
    rewrite Hs, !length_app in Hlen. simpl in Hlen. unfold MAX_REDIRECTS in *. lia.
Qed.

(** ** Reads *)

(** A chat as the bridge may believe it: the locator asked for, a message count that
    is the number of lines, sizes within their limits, a digest, and the integrity
    that the chat's own header states. *)
Definition snapshot_checked (locator : StChatLocator) (s : StChatSnapshot) : Prop :=
  sn_locator s = locator
  /\ sn_source_message_count s = Z.of_nat (length (sn_parsed_chat s))
  /\ (1 <= sn_source_message_count s <= MAX_SNAPSHOT_MESSAGES)%Z
  /\ (sn_source_byte_length s <> 0 /\ sn_source_byte_length s <= MAX_SNAPSHOT_BYTES)%Z
  /\ is_sha256 (sn_source_sha256 s) = true
  /\ validate_integrity (sn_source_integrity s) = true
  /\ exists header metadata, head (sn_parsed_chat s) = Some (JObject header)
       /\ assoc_get "chat_metadata" header = Some (JObject metadata)
       /\ assoc_get "integrity" metadata = Some (JString (sn_source_integrity s)).

Lemma snapshot_wire_checked locator wire :
  validate_snapshot_wire wire = true ->
  snapshot_checked locator
    {| sn_locator := locator; sn_parsed_chat := sw_parsed_chat wire; sn_source_sha256 := sw_source_sha256 wire;
       sn_source_integrity := sw_source_integrity wire; sn_source_byte_length := sw_source_byte_length wire;
       sn_source_message_count := sw_source_message_count wire |}.
Proof.
  unfold validate_snapshot_wire, snapshot_checked, len_u64. cbn. destruct (_ || _) eqn:Hb; [done |]. intros Hh.
  repeat match goal with H : _ || _ = false |- _ => apply orb_false_elim in H as [? ?] end.
  repeat match goal with H : negb _ = false |- _ => apply negb_false_iff in H end.
  repeat match goal with
         | H : (_ <? _)%Z = false |- _ => apply Z.ltb_ge in H
         | H : (_ =? _)%Z = false |- _ => apply Z.eqb_neq in H
         | H : (_ =? _)%Z = true |- _ => apply Z.eqb_eq in H
         end.
  split_and!; try done; try lia.
  destruct (sw_parsed_chat wire) as [|[| | | | |header] chat]; try done. cbn in Hh.
  destruct (assoc_get "chat_metadata" header) as [[| | | | |metadata]|] eqn:Hm; try done. cbn in Hh.
  destruct (assoc_get "integrity" metadata) as [[| | |i| |]|] eqn:Hi; try done. cbn in Hh.
  apply andb_prop in Hh as [Hi' _]. apply bool_decide_eq_true in Hi' as ->. eauto.
Qed.

(** What a read of the client leaves behind when it succeeds: the last answer was a
    complete success of at most 4 MiB, and the result was read from it. *)
Definition read_from (w' : World) (v : Value) : Prop :=
  exists response bytes, net (w_sent w') = NetResponse response /\ is_success (rs_status response) = true
    /\ accepted_body response bytes /\ from_slice bytes = Some v.

Lemma request_pass_read method path query body stage op mutation again w w' v :
  (forall again', again = Some again' -> forall w w' v, again' w = (w', Ok v) -> read_from w' v) ->
  pass method path query body stage op mutation again w = (w', Ok v) -> read_from w' v.
Proof.
  intros Hagain [(_ & e & ? & _)|(request & w1 & answered & _ & Ht & Hcase)]%request_pass_run; [done |].
  destruct Hcase as [(t & _ & _ & ?)|(response & -> & [(-> & Ha & _)|(again' & -> & _ & Hr)])]; [done | |].
  - apply follow_response in Ht as Hnet. symmetry in Ha. apply answer_ok in Ha as (Hs & bytes & Hb & Hp). exists response, bytes. done.
  - by eapply Hagain.
Qed.

Lemma once_read method path query body retry stage op mutation w w' v :
  once method path query body retry stage op mutation w = (w', Ok v) -> read_from w' v.
Proof.
  unfold request_once. destruct (_ && _); apply request_pass_read; [| done].
  intros again' [= <-] w0 w0' v0. by apply request_pass_read.
Qed.

(** C32: a snapshot the client returns is one the bridge may build on: it was read from a
    complete successful answer of at most 4 MiB, and it passes every check - the
    count, the sizes, the digest, and the integrity in the chat's own header. *)
Theorem snapshots_are_checked locator w w' s :
  client_snapshot from_slice json_bytes sha256_hex hmac_hex net elapsed_ms allow_cookieless unix_timestamp
    fresh_nonce config hmac_key locator w = (w', Ok s) ->
  snapshot_checked locator s
  /\ exists v wire, read_from w' v /\ SnapshotWire_from_value v = Some wire /\ sn_parsed_chat s = sw_parsed_chat wire.
Proof.
  unfold client_snapshot, cbind, clift.
  destruct (cpost _ _ _ _ _ _ _ _ _ _ _ _ _ _ _ _ w) as [w1 [v|e]] eqn:Hp; [| done].
  intros Hr. apply pair_equal_spec in Hr as [<- Hr].
  destruct (SnapshotWire_from_value v) as [wire|] eqn:Hw; cbn in Hr; [| done].
  destruct (validate_snapshot_wire wire) eqn:Hv; cbn in Hr; [| done]. injection Hr as <-.
  split; [by apply snapshot_wire_checked |]. exists v, wire. split; [by eapply once_read | done].
Qed.
End Client.

(** ** The key

    A configuration that passes [StClientConfig::validate] in a write mode need not
    give the backend a connector: the check counts the bytes of the key as it is
    given, the client those of the trimmed key. *)
Definition padded_key_config : StClientConfig :=
  {| cf_base_url := None; cf_handle := "default-user"; cf_host_header := None; cf_timeout_ms := 15000;
     cf_generate_hard_timeout_ms := 900000; cf_generate_idle_timeout_ms := 90000; cf_mode := "test_write";
     cf_connector_hmac_key := Some "0123456789abcdef0123456789abcde " |}.

Example padded_key_passes_without_connector :
  StClientConfig_validate (λ _, None) padded_key_config = Ok tt
  /\ allows_write (write_mode padded_key_config) = true
  /\ ConnectorClient_new (cf_connector_hmac_key padded_key_config) = None.
Proof. split_and!; vm_compute; reflexivity. Qed.
