(* ===== verification/BackendHttp.v ===== *)
(** * The SillyTavern backend over HTTP ([src/adapters/st/backend.rs])

    [ReqwestStBackend] put together: the session, the connector client when there is
    a key, and the gate of [Backend] in front of the writes.  Here every method runs
    in the world of [Session]; the gate's facts, proved in [Backend] for any replies,
    are brought to the wire: what a write sends, and when. *)

From stdpp Require Import pretty.
From S2P Require Import Prelude Text Errors StDomain Readiness ErrorMapper ConnectorHmac Sse Backend PollerOwnership StOps CardPng Config Decoder Session ConnectorWire ConnectorClient ConnectorCorrect.
From Stdlib Require Import Lia.

Section Http.
Context `{IdSource} `{Redactor}.
Context (from_slice : string -> option Value) (json_bytes : Value -> string) (sha256_hex : string -> string)
        (hmac_hex : string -> string -> string).
Context (net : Network) (elapsed_ms : list HttpRequest -> Z) (allow_cookieless : bool).
Context (unix_timestamp : list HttpRequest -> Z) (fresh_nonce : list HttpRequest -> string).
(** [SystemTime::now()] in seconds when the handshake is judged. *)
Context (system_time : list HttpRequest -> Z).
Context (config : StClientConfig).

(** [ReqwestStBackend::new]: the connector exists when the key is long enough. *)
Definition be_client : option string := ConnectorClient_new (cf_connector_hmac_key config).

Notation handshake := (session_handshake from_slice sha256_hex net elapsed_ms allow_cookieless config).
Notation connector_probe key := (client_probe from_slice sha256_hex hmac_hex net elapsed_ms
  allow_cookieless unix_timestamp fresh_nonce config key).
Notation connector_write key := (client_write from_slice json_bytes sha256_hex hmac_hex net elapsed_ms allow_cookieless
  unix_timestamp fresh_nonce config key).

(** The configured part of the backend; the status functions read nothing else. *)
Definition offline : ReqwestStBackend :=
  {| be_handle := cf_handle config; be_mode := write_mode config;
     be_session_handshake := Ok tt; be_connector := None |}.

Definition probe_http (w : World) : World * (Z * StResult StStatus) :=
  if is_blank (cf_handle config) then (w, publish (status_without_connector offline false))
  else
    match handshake w with
    | (w, Err error) =>
        if (e_code error =?= StConnectFailed) || (e_code error =?= StRequestTimeout)
        then (w, publish (status_without_connector offline false))
        else (w, (update false false, Err error))
    | (w, Ok _) =>
        match be_client with
        | None => (w, publish (status_without_connector offline true))
        | Some key =>
            match connector_probe key w with
            | (w, Ok h) => (w, publish (status_from_handshake offline (system_time (w_sent w)) h))
            | (w, Err error) =>
                if (e_code error =?= StConnectFailed) || (e_code error =?= StRequestTimeout)
                   || (e_code error =?= StConnectorUnavailable)
                then (w, publish (status_without_connector offline false))
                else (w, publish {| st_available := true; st_version := None; st_handle := cf_handle config;
                                    st_capabilities := StCapabilities_default |})
            end
        end
    end.

Definition require_write_http (scope : option StWriteScope) (w : World) : World * (Z * StResult StStatus) :=
  let '(w, (word, r)) := probe_http w in
  (w, (word,
   let? status := r in
   if negb (allows_write (cap_mode (st_capabilities status)))
   then Err (not_ready from_slice sha256_hex StWriteNotReady StageControl)
   else if from_option (λ s, negb (scope_mode s =?= cap_mode (st_capabilities status))) false scope
   then Err (not_ready from_slice sha256_hex StTestScopeRequired StageControl)
   else Ok status)).

(** The end of [create_chat] and [commit]. *)
Definition send_write_http (status : StStatus) (chat_file operation_id : string) (call : ConnectorCall) (w : World)
    : World * StResult StCommitResult :=
  if (cap_mode (st_capabilities status) =?= TestWrite) && negb (starts_with chat_file test_prefix)
  then (w, Err (not_ready from_slice sha256_hex StTestScopeRequired StageControl))
  else
    match be_client with
    | None => (w, Err (connector_missing from_slice sha256_hex operation_id))
    | Some key => connector_write key call w
    end.

Definition create_chat_http (command : CreateStChat) (w : World) : World * (Z * StResult StCommitResult) :=
  match require_write_http (Some (cr_scope command)) w with
  | (w, (word, Err error)) => (w, (word, Err error))
  | (w, (word, Ok status)) =>
      let '(w, r) := send_write_http status (loc_chat_file (cr_locator command)) (cr_operation_id command)
                       (CallCreateChat command) w in
      (w, (word, r))
  end.

Definition commit_http (command : CommitStChat) (w : World) : World * (Z * StResult StCommitResult) :=
  match require_write_http None w with
  | (w, (word, Err error)) => (w, (word, Err error))
  | (w, (word, Ok status)) =>
      let '(w, r) := send_write_http status (loc_chat_file (cm_locator command)) (cm_operation_id command)
                       (CallCommit command) w in
      (w, (word, r))
  end.

(** ** Reads *)

Definition require_read_http : Call unit := clift (require_read from_slice sha256_hex offline).

Notation readonly := (post_json_readonly from_slice json_bytes sha256_hex net elapsed_ms allow_cookieless config).

Definition list_characters_http : Call (list StCharacterSummary) :=
  call! _ := require_read_http in
  call! payload := readonly "/api/characters/all" (JObject []) StageCatalog "characters" in
  clift (decode_character_summaries from_slice sha256_hex payload).

Definition list_chats_http (avatar : string) : Call (list StChatSummary) :=
  call! _ := require_read_http in
  call! payload := readonly "/api/chats/search" (JObject [("avatar_url", JString avatar); ("query", JString "")])
                     StageCatalog "chats" in
  clift (decode_chat_summaries from_slice sha256_hex payload).

Definition snapshot_refused (failure : StFailureFacts) : StBridgeError :=
  map_st_error from_slice sha256_hex
    {| fact_stage := StageSnapshot; fact_endpoint_class := Some "connector"; fact_operation_id := None;
       fact_commit_state := NotStarted; fact_attempt := 1; fact_duration_ms := None; fact_failure := failure |}.

Definition snapshot_http (locator : StChatLocator) : Call StChatSnapshot :=
  call! _ := require_read_http in
  if negb (loc_handle locator =?= cf_handle config) then cerr (snapshot_refused (FControl StChatLocatorRejected)) else
  match be_client with
  | None => cerr (snapshot_refused FConnectorUnavailable)
  | Some key =>
      client_snapshot from_slice json_bytes sha256_hex hmac_hex net elapsed_ms allow_cookieless unix_timestamp
        fresh_nonce config key locator
  end.

(** The body of the model query: the source and the URL of the settings, if they can
    be read.  Assigning a member replaces its value, or appends it. *)
Definition status_body (settings : Value) : Value :=
  let parsed := match get_str settings "settings" with Some text => from_slice text | None => None end in
  let oai key := match parsed with
                 | Some p => match value_get p "oai_settings" with Some item => get_str item key | None => None end
                 | None => None
                 end in
  JObject (("chat_completion_source", JString (default "custom" (oai "chat_completion_source")))
           :: match oai "custom_url" with Some url => [("custom_url", JString url)] | None => [] end).

Definition settings_payload : Call Value := readonly "/api/settings/get" (JObject []) StageSnapshot "settings".

Definition list_models_http : Call StModelCatalog :=
  call! _ := require_read_http in
  call! settings := settings_payload in
  call! current_model := clift (decode_settings_model from_slice sha256_hex settings) in
  call! payload := readonly "/api/backends/chat-completions/status" (status_body settings) StageCatalog "models" in
  cret (decode_model_catalog payload current_model).

Definition generation_settings_http : Call StGenerationSettings :=
  call! _ := require_read_http in
  call! settings := settings_payload in
  clift (decode_generation_settings from_slice sha256_hex settings).

(** ** Generation *)

(** Which branch of the first [select!] wins: the cancellation, the hard deadline, or
    the answer.  An abandoned request is not recorded. *)
Inductive StreamStart : Set := StartCancelled | StartDeadline | StartAnswered.

(** How the body of the answer ends, when the loop is not left before. *)
Definition body_end (response : HttpResponse) : StreamEnd :=
  match rs_broken response with Some timed_out => TransportError timed_out | None => EndOfBody end.

(** [taken] chunks are read before the loop is left by [stop]; [None]: by the body. *)
Definition stream_generate_http (request : StGenerationRequest) (start : StreamStart)
    (stop : option (nat * StreamEnd)) (w : World) : World * StResult StGenerationResult :=
  match require_write_http None w with
  | (w, (_, Err error)) => (w, Err error)
  | (w, (_, Ok _)) =>
      (call! settings := generation_settings_http in
       match start with
       | StartCancelled => cerr (generation_error from_slice sha256_hex StGenerateRejected)
       | StartDeadline => cerr (generation_error from_slice sha256_hex StGenerateHardTimeout)
       | StartAnswered =>
           call! response :=
             post_stream from_slice json_bytes sha256_hex net elapsed_ms allow_cookieless config
               "/api/backends/chat-completions/generate" (JObject (generate_stream_payload settings request))
               StageGeneration "generation" (timeout_of (cf_generate_hard_timeout_ms config)) in
           if negb (valid_stream_content_type (to_ascii_lowercase <$> rs_content_type response))
           then cerr (generation_error from_slice sha256_hex StGenerateStreamInvalid)
           else
             let '(chunks, stop) :=
               match stop with
               | Some (taken, stop) => (take taken (rs_chunks response), stop)
               | None => (rs_chunks response, body_end response)
               end in
             clift (map_err (generation_error from_slice sha256_hex) (generation_result from_slice chunks stop))
       end) w
  end.

(** ** The backend the network amounts to *)

(** Seen from a world [w], the network is a session that answers, and a connector that
    answers the handshake and then a write. *)
Definition wired (w : World) : ReqwestStBackend :=
  {| be_handle := cf_handle config; be_mode := write_mode config; be_session_handshake := (handshake w).2;
     be_connector :=
       match be_client with
       | None => None
       | Some key =>
           let asked := connector_probe key (handshake w).1 in
           Some {| reply_probe := asked.2; reply_write call := (connector_write key call asked.1).2 |}
       end |}.

(** When the handshake is judged. *)
Definition judged_at (w : World) : Z :=
  match be_client with
  | Some key => system_time (w_sent (connector_probe key (handshake w).1).1)
  | None => 0
  end.

(** The common shape of the two writes. *)
Definition write_http (scope : option StWriteScope) (chat_file operation_id : string) (call : ConnectorCall) (w : World)
    : World * (Z * StResult StCommitResult) :=
  match require_write_http scope w with
  | (w, (word, Err error)) => (w, (word, Err error))
  | (w, (word, Ok status)) => let '(w, r) := send_write_http status chat_file operation_id call w in (w, (word, r))
  end.

Lemma probe_refines w : (probe_http w).2 = probe (wired w) (judged_at w).
Proof.
  unfold probe_http, probe, wired, judged_at. cbn [be_handle be_session_handshake be_connector].
  destruct (is_blank _); [done |]. destruct (handshake w) as [w1 [[]|e]]; cbn [fst snd].
  - destruct be_client as [key|]; [| done]. cbn [reply_probe].
    destruct (connector_probe key w1) as [w2 [h|e]]; cbn [fst snd]; [done |]. by destruct (_ || _).
  - by destruct (_ || _).
Qed.

(** The world a permitted write starts from is the one after the handshake. *)
Lemma probe_world w key st :
  be_client = Some key -> (probe_http w).2.2 = Ok st -> allows_write (cap_mode (st_capabilities st)) = true ->
  (probe_http w).1 = (connector_probe key (handshake w).1).1.
Proof.
  intros Hk. unfold probe_http. rewrite Hk. destruct (is_blank _).
  { intros [= <-]. cbn. by rewrite frozen_mode_never_writes. }
  destruct (handshake w) as [w1 [[]|e]].
  - destruct (connector_probe key w1) as [w2 [h|e]] eqn:E; cbn [fst snd]; [by rewrite E |].
    rewrite E. by destruct (_ || _).
  - destruct (_ || _); [| done]. intros [= <-]. cbn. by rewrite frozen_mode_never_writes.
Qed.

Lemma write_http_calls scope chat_file operation_id call w :
  let '(w', (word, r)) := write_http scope chat_file operation_id call w in
  exists calls,
    match backend_require_write from_slice sha256_hex (wired w) (judged_at w) scope with
    | (word, Err error) => (word, [], Err error)
    | (word, Ok status) =>
        let '(calls, r) := send_write from_slice sha256_hex (wired w) status chat_file operation_id call in
        (word, calls, r)
    end = (word, calls, r)
    /\ (calls = [] /\ w' = (probe_http w).1
        \/ calls = [call] /\ exists key, be_client = Some key /\ connector_write key call (probe_http w).1 = (w', r)).
Proof.
  unfold write_http, require_write_http, backend_require_write. rewrite <- probe_refines.
  pose proof (probe_world w) as Hworld. destruct (probe_http w) as [w1 [word [st|e]]]; cbn [fst snd] in *; [| eauto].
  destruct (allows_write (cap_mode (st_capabilities st))) eqn:Hw; cbn [negb]; [| eauto].
  destruct (from_option _ _ scope); [eauto |].
  unfold send_write_http, send_write, wired. cbn [be_connector].
  destruct (_ && _); [eauto |]. destruct be_client as [key|]; [| eauto].
  cbn [reply_write]. rewrite <- (Hworld key st eq_refl eq_refl Hw).
  destruct (connector_write key call w1) as [w2 r] eqn:E. exists [call]. split; [done |].
  right. split; [done |]. by exists key.
Qed.

(** ** On the wire *)

Context `{!LawfulRedirects net}.

(** The world has only seen further GET requests. *)
Definition only_gets (w w' : World) : Prop := exists gets, w_sent w' = w_sent w ++ gets /\ Forall is_get gets.

Lemma only_gets_trans w1 w2 w3 : only_gets w1 w2 -> only_gets w2 w3 -> only_gets w1 w3.
Proof.
  intros (g & Hg & Fg) (g' & Hg' & Fg'). exists (g ++ g'). split; [by rewrite Hg', Hg, app_assoc |].
  by apply Forall_app.
Qed.

Lemma fetched_only_gets w w' : w_sent w' = fetched net config w -> only_gets w w'.
Proof. intros Hs. destruct (fetched_gets net config w) as (gets & Hf & Fg). exists gets. by rewrite Hs, Hf. Qed.

Lemma trip_gets sent request sent' answered :
  is_get request -> trip net request sent = (sent', answered) ->
  exists gets, sent' = sent ++ gets /\ Forall is_get gets.
Proof.
  intros Hg (chain & -> & _ & Hc)%follow_sends; [| done | by left]. eexists. split; [done |].
  constructor; [done |]. by apply redirected_gets in Hc.
Qed.

Lemma request_pass_gets key path query body stage op mutation again w w' r :
  (forall again', again = Some again' -> forall w w' r, again' w = (w', r) -> only_gets w w') ->
  request_pass from_slice sha256_hex hmac_hex net elapsed_ms allow_cookieless unix_timestamp fresh_nonce config key
    "GET" path query body stage op mutation again w = (w', r) -> only_gets w w'.
Proof.
  intros Hagain. intros [(Hs & _)|(request & w1 & answered & Hsig & Ht & Hcase)]%request_pass_run;
    [by apply fetched_only_gets |].
  assert (Hg : only_gets w w1).
  { apply trip_gets in Ht as (g & Hs & Fg);
      [| destruct Hsig as (req & c & t & k & Hm & _ & _ & _ & _ & ->); exact Hm].
    destruct (fetched_gets net config w) as (g0 & Hf & Fg0). exists (g0 ++ g).
    split; [by rewrite Hs, Hf, app_assoc | by apply Forall_app]. }
  destruct Hcase as [(t & _ & -> & _)|(response & _ & [(-> & _)|(again' & -> & _ & Ha)])]; [done | done |].
  apply (Hagain again' eq_refl) in Ha. exact (only_gets_trans w (invalidate w1) w' Hg Ha).
Qed.

Lemma cget_gets key path query stage op w w' r :
  cget from_slice sha256_hex hmac_hex net elapsed_ms allow_cookieless unix_timestamp fresh_nonce config key
    path query stage op false w = (w', r) -> only_gets w w'.
Proof.
  unfold cget, request_once. cbn. apply request_pass_gets. intros again' [= <-] w0 w0' r0.
  by apply request_pass_gets.
Qed.

Lemma probe_http_gets w : only_gets w (probe_http w).1.
Proof.
  assert (Hsame : only_gets w w) by (exists []; by rewrite app_nil_r).
  assert (Hhand : only_gets w (handshake w).1).
  { unfold session_handshake, cbind. destruct (ensure_session _ _ _ _ _ _ w) as [w1 r] eqn:E.
    apply ensure_session_run in E as (Hs & _). by destruct r; apply fetched_only_gets. }
  unfold probe_http. destruct (is_blank _); [done |].
  destruct (handshake w) as [w1 [[]|e]]; cbn [fst] in Hhand.
  - destruct be_client as [key|]; [| done].
    assert (Hprobe : only_gets w1 (connector_probe key w1).1).
    { unfold client_probe, cbind. destruct (cget _ _ _ _ _ _ _ _ _ _ _ _ _ _ _ w1) as [w2 r] eqn:E.
      apply cget_gets in E. by destruct r. }
    destruct (connector_probe key w1) as [w2 [h|e]]; cbn [fst] in Hprobe;
      [| destruct (_ || _)]; by eapply only_gets_trans.
  - by destruct (_ || _).
Qed.

Definition call_http (call : ConnectorCall) : World -> World * (Z * StResult StCommitResult) :=
  match call with CallCommit command => commit_http command | CallCreateChat command => create_chat_http command end.
Definition call_file (call : ConnectorCall) : string :=
  match call with CallCommit c => loc_chat_file (cm_locator c) | CallCreateChat c => loc_chat_file (cr_locator c) end.
Definition call_scope (call : ConnectorCall) : option StWriteScope :=
  match call with CallCommit _ => None | CallCreateChat c => Some (cr_scope c) end.

(** Reads, then at most one POST with the redirects it is answered; a permitted write
    has one. *)
Definition wire_outcome (call : ConnectorCall) (w w' : World) (word : Z) (r : StResult StCommitResult) : Prop :=
  exists gets, Forall is_get gets
    /\ (w_sent w' = w_sent w ++ gets /\ (exists e, r = Err e)
        \/ exists request chain key m, w_sent w' = w_sent w ++ gets ++ request :: chain /\ be_client = Some key
             /\ signed_request sha256_hex hmac_hex config key "POST" (call_path call) "" (json_bytes (call_body call)) request
             /\ length chain <= MAX_REDIRECTS
             /\ redirected net (w_sent w ++ gets) request chain
             /\ can_write (current word) = true
             /\ write_permitted (wired w) (judged_at w) m
             /\ (forall s, call_scope call = Some s -> m = scope_mode s)
             /\ (m = TestWrite -> starts_with (call_file call) test_prefix = true)).

(** What the connector's write sends: GETs, and the POST with its redirects or none. *)
Lemma connector_write_sends key call w w' r :
  connector_write key call w = (w', r) ->
  exists gets, Forall is_get gets
    /\ (w_sent w' = w_sent w ++ gets /\ (exists e, r = Err e)
        \/ exists request chain, w_sent w' = w_sent w ++ gets ++ request :: chain
             /\ signed_request sha256_hex hmac_hex config key "POST" (call_path call) "" (json_bytes (call_body call)) request
             /\ length chain <= MAX_REDIRECTS
             /\ redirected net (w_sent w ++ gets) request chain).
Proof.
  rewrite client_write_eq. unfold cbind. destruct (fetched_gets net config w) as (gets & Hf & Hg).
  destruct (request_pass _ _ _ _ _ _ _ _ _ _ _ _ _ _ _ _ _ _ w) as [w3 r3] eqn:Hp. intros Ewr.
  assert (w3 = w' /\ (forall e, r3 = Err e -> r = Err e)) as [-> Hr3].
  { destruct r3; unfold clift in Ewr; injection Ewr as <- <-; split; congruence. }
  exists gets. split; [done |].
  apply request_pass_run in Hp as [(Hs & e & -> & _)|(request & w4 & answered & Hsig & Ht & Hans)].
  - left. rewrite Hs, Hf. eauto.
  - assert (w' = w4) as ->.
    { destruct Hans as [(t & _ & -> & _)|(response & _ & [(-> & _)|(again' & ? & _)])]; done. }
    rewrite Hf in Ht. apply follow_sends in Ht as (chain & Hs & Hl & Hch);
      [| done | right; by destruct Hsig as (? & ? & ? & ? & ? & _ & _ & _ & _ & ->)].
    right. exists request, chain. by rewrite Hs, <- app_assoc.
Qed.

(** C6: what one write does to the wire, whatever the network answers: reads first (the
    session and the connector's handshake), and then at most one signed POST of the
    command, after which only the requests that answers redirect it to are sent, at most
    ten.  The POST leaves only if the write is permitted - both sides are in a
    write mode and the handshake just read is live, ours and complete - and, in test
    mode, only for a chat with the test prefix; the readiness word then allows
    writes.  If none leaves, the caller has an error. *)
Theorem http_write_posts_when_permitted call w w' word r :
  call_http call w = (w', (word, r)) -> wire_outcome call w w' word r.
Proof.
  intros Hcall. assert (Hw : write_http (call_scope call) (call_file call) (call_operation call) call w = (w', (word, r)))
    by (by destruct call).
  pose proof (write_http_calls (call_scope call) (call_file call) (call_operation call) call w) as Href.
  rewrite Hw in Href. destruct Href as (calls & Habs & Hcase).
  pose proof (send_write_gated from_slice sha256_hex (wired w) (judged_at w) (call_scope call) (call_file call)
                (call_operation call) call) as Hg.
  rewrite Habs in Hg. destruct (probe_http_gets w) as (gets & Hgets & Fgets).
  destruct Hg as [(-> & Hcw & (k & Hk & Hr) & m & Hperm & Hscope & Htest)|(-> & Herr & _)];
    destruct Hcase as [(Hnil & ->)|(Hcons & key & Hkey & Ewr)]; try done; [| exists gets; eauto].
  apply connector_write_sends in Ewr as (gets2 & Fgets2 & Hsent). rewrite Hgets in Hsent. exists (gets ++ gets2).
  split; [by apply Forall_app |].
  destruct Hsent as [[Hs He]|(request & chain & Hs & Hsig & Hl & Hch)]; [left; by rewrite Hs, app_assoc | right].
  exists request, chain, key, m. rewrite Hs, <- !app_assoc in *. split_and!; done.
Qed.
End Http.

(** ** A network *)

(** Texts and the JSON values they stand for. *)
Definition demo_from_slice (s : string) : option Value :=
  if s =?= "csrf" then Some (JObject [("token", JString " t0 ")])
  else if s =?= "probe" then
    Some (JObject [("version", JString "1"); ("handle", JString "default-user"); ("profile", JString "st");
                   ("integrityEnabled", JBool true); ("handshakeAtUnix", JNumber "100"); ("expiresAtUnix", JNumber "200");
                   ("capabilities",
                    JObject [("mode", JString "production_write"); ("snapshot", JBool true);
                             ("typedMutations", JBool true); ("integrityRotation", JBool true);
                             ("operationReplay", JBool true); ("durableWrite", JBool true);
                             ("scopes", JArray [JString "test_chat"])])])
  else if s =?= "applied" then
    Some (JObject [("status", JString "applied");
                   ("newSha256", JString "0123456789abcdef0123456789abcdef0123456789abcdef0123456789abcdef");
                   ("newIntegrity", JString "i2"); ("byteLength", JNumber "90"); ("messageCount", JNumber "3")])
  else if s =?= "chat" then
    Some (JObject [("parsedChat", JArray [JObject [("chat_metadata", JObject [("integrity", JString "i1")])]]);
                   ("sourceSha256", JString "0123456789abcdef0123456789abcdef0123456789abcdef0123456789abcdef");
                   ("sourceIntegrity", JString "i1"); ("sourceByteLength", JNumber "60"); ("sourceMessageCount", JNumber "1")])
  else if s =?= "chats" then Some (JArray [JObject [("file_name", JString " Ann - 1 ")]; JObject [("file_name", JString "Ann Backup.jsonl")]])
  else None.

Definition answer_text (status : Z) (body : string) : NetAnswer :=
  NetResponse {| rs_status := status; rs_set_cookies := ["sid=1; Path=/"; " ;x"]; rs_location := None;
                 rs_content_type := Some "application/json";
                 rs_content_length := Some (Z.of_nat (String.length body)); rs_chunks := [body]; rs_broken := None |}.

(** A redirecting answer with an address: a GET there, or the same request there. *)
Definition demo_redirect (request : HttpRequest) (response : HttpResponse) : option HttpRequest :=
  match rs_location response with
  | Some location =>
      if see_other (rs_status response) then
        Some {| rq_method := "GET"; rq_url := location; rq_timeout_ms := rq_timeout_ms request; rq_headers := [];
                rq_body := None |}
      else if same_again (rs_status response) then
        Some {| rq_method := rq_method request; rq_url := location; rq_timeout_ms := rq_timeout_ms request;
                rq_headers := rq_headers request; rq_body := rq_body request |}
      else None
  | None => None
  end.

(** The first chat search is answered 403, all else succeeds. *)
Definition demo_answers (sent : list HttpRequest) : NetAnswer :=
  match last sent with
  | None => NetFailed false
  | Some request =>
      if ends_with (rq_url request) "/csrf-token" then answer_text 200 "csrf"
      else if ends_with (rq_url request) "/probe" then answer_text 200 "probe"
      else if ends_with (rq_url request) "/snapshot" then answer_text 200 "chat"
      else if ends_with (rq_url request) "/search" then
        if (length sent <=? 2)%nat then answer_text 403 "no" else answer_text 200 "chats"
      else answer_text 200 "applied"
  end.

Definition demo_net : Network := {| net_answer := demo_answers; net_redirect := demo_redirect |}.

#[export] Instance demo_redirects_lawful answers : LawfulRedirects {| net_answer := answers; net_redirect := demo_redirect |}.
Proof.
  intros request response next _. simpl. unfold demo_redirect, redirect_of.
  destruct (rs_location response), (see_other _), (same_again _); naive_solver.
Qed.

(** A commit is answered [status] and sent elsewhere, where the answer is [answer]. *)
Definition moved_net (status : Z) (answer : NetAnswer) : Network :=
  {| net_answer sent :=
       match last sent with
       | Some request =>
           if ends_with (rq_url request) "/commit" then
             NetResponse {| rs_status := status; rs_set_cookies := []; rs_location := Some "https://st.example/moved";
                            rs_content_type := None; rs_content_length := None; rs_chunks := []; rs_broken := None |}
           else if ends_with (rq_url request) "/moved" then answer
           else demo_answers sent
       | None => NetFailed false
       end;
     net_redirect := demo_redirect |}.

Definition demo_config : StClientConfig :=
  {| cf_base_url := Some "https://st.example/"; cf_handle := "default-user"; cf_host_header := None; cf_timeout_ms := 15000;
     cf_generate_hard_timeout_ms := 900000; cf_generate_idle_timeout_ms := 90000; cf_mode := "test_write";
     cf_connector_hmac_key := Some "0123456789abcdef0123456789abcdef" |}.

Definition demo_locator : StChatLocator :=
  {| loc_handle := "default-user"; loc_avatar := "a.png"; loc_character_name := "Ann";
     loc_chat_file := "IMBridge-Test-1.jsonl" |}.

Definition demo_command : CommitStChat :=
  {| cm_operation_id := "op1"; cm_locator := demo_locator; cm_expected_sha256 := "s"; cm_expected_integrity := "i1";
     cm_mutation := UndoLastTurn "u" "a";
     cm_fence := {| f_telegram_bot_id := 7; f_owner := "rust_bridge"; f_epoch := 1; f_internal_bot_id := "b";
                    f_runtime_instance_id := "r" |} |}.

Definition new_world : World := {| w_session := None; w_sent := [] |}.

Section Demo.
#[local] Instance wire_ids : IdSource := {| request_id := "req"; new_id := "id" |}.
#[local] Instance wire_redactor : Redactor := {| redact_detail := Some |}.

Definition demo_commit : World * (Z * StResult StCommitResult) :=
  call_http demo_from_slice (λ _, "body") (λ _, "sha") (λ _ _, "mac") demo_net (λ _, 0%Z) false (λ _, 150%Z)
    (λ _, "nonce0123456789a") (λ _, 150%Z) demo_config (CallCommit demo_command) new_world.

(** The run of the demonstration: one session, one handshake, one POST. *)
Example demo_commit_runs :
  map rq_url (w_sent demo_commit.1)
  = ["https://st.example/csrf-token"; "https://st.example/api/plugins/st-im-bridge/connector/v1/probe";
     "https://st.example/api/plugins/st-im-bridge/connector/v1/chats/commit"]
  /\ result_map cres_status demo_commit.2.2 = Ok CommitApplied.
Proof. split; vm_compute; reflexivity. Qed.

Lemma http_write_witness :
  wire_outcome demo_from_slice (λ _, "body") (λ _, "sha") (λ _ _, "mac") demo_net (λ _, 0%Z) false (λ _, 150%Z)
    (λ _, "nonce0123456789a") (λ _, 150%Z) demo_config (CallCommit demo_command) new_world
    demo_commit.1 demo_commit.2.1 demo_commit.2.2.
Proof.
  refine (http_write_posts_when_permitted demo_from_slice (λ _, "body") (λ _, "sha") (λ _ _, "mac") demo_net
    (λ _, 0%Z) false (λ _, 150%Z) (λ _, "nonce0123456789a") (λ _, 150%Z) demo_config (CallCommit demo_command) new_world
    demo_commit.1 demo_commit.2.1 demo_commit.2.2 _).
  vm_compute. reflexivity.
Defined.

Definition demo_write : World * StResult StCommitResult :=
  client_write demo_from_slice (λ _, "body") (λ _, "sha") (λ _ _, "mac") demo_net (λ _, 0%Z) false (λ _, 150%Z)
    (λ _, "nonce0123456789a") demo_config "key" (CallCommit demo_command) new_world.

Lemma mutation_sent_once_witness :
  mutation_outcome demo_from_slice (λ _, "body") (λ _, "sha") (λ _ _, "mac") demo_net demo_config "key"
    (CallCommit demo_command) new_world demo_write.1 demo_write.2.
Proof.
  refine (mutation_posted_and_told demo_from_slice (λ _, "body") (λ _, "sha") (λ _ _, "mac") demo_net (λ _, 0%Z) false
    (λ _, 150%Z) (λ _, "nonce0123456789a") demo_config "key" (CallCommit demo_command) new_world
    demo_write.1 demo_write.2 _).
  vm_compute. reflexivity.
Defined.

Definition demo_snapshot : StChatSnapshot :=
  {| sn_locator := demo_locator;
     sn_parsed_chat := [JObject [("chat_metadata", JObject [("integrity", JString "i1")])]];
     sn_source_sha256 := "0123456789abcdef0123456789abcdef0123456789abcdef0123456789abcdef";
     sn_source_integrity := "i1"; sn_source_byte_length := 60; sn_source_message_count := 1 |}.

Lemma snapshots_are_checked_witness : snapshot_checked demo_locator demo_snapshot.
Proof.
  refine (proj1 (snapshots_are_checked demo_from_slice (λ _, "body") (λ _, "sha") (λ _ _, "mac") demo_net (λ _, 0%Z) false
    (λ _, 150%Z) (λ _, "nonce0123456789a") demo_config "key" demo_locator new_world
    (client_snapshot demo_from_slice (λ _, "body") (λ _, "sha") (λ _ _, "mac") demo_net (λ _, 0%Z) false
       (λ _, 150%Z) (λ _, "nonce0123456789a") demo_config "key" demo_locator new_world).1 demo_snapshot _)).
  vm_compute. reflexivity.
Defined.

(** A commit that a redirect sends elsewhere.  After 308 the same signed body is POSTed
    twice by one call; after 302 the bridge reads a GET's answer, and its 404 is told as
    not applied although the POST itself was received. *)
Definition redirected_commit (status : Z) (answer : NetAnswer) : World * StResult StCommitResult :=
  client_write demo_from_slice (λ _, "body") (λ _, "sha") (λ _ _, "mac") (moved_net status answer) (λ _, 0%Z) false
    (λ _, 150%Z) (λ _, "nonce0123456789a") demo_config "key" (CallCommit demo_command) new_world.

Example redirects_repeat_or_hide_a_commit :
  map (λ q, (rq_method q, rq_url q, rq_body q)) (w_sent (redirected_commit 308 (answer_text 200 "applied")).1)
  = [("GET", "https://st.example/csrf-token", None);
     ("POST", "https://st.example/api/plugins/st-im-bridge/connector/v1/chats/commit", Some "body");
     ("POST", "https://st.example/moved", Some "body")]
  /\ map (λ q, (rq_method q, rq_url q)) (w_sent (redirected_commit 302 (answer_text 404 "gone")).1)
     = [("GET", "https://st.example/csrf-token");
        ("POST", "https://st.example/api/plugins/st-im-bridge/connector/v1/chats/commit");
        ("GET", "https://st.example/moved")]
  /\ match (redirected_commit 302 (answer_text 404 "gone")).2 with
     | Err e => e_commit_state e = NotApplied
     | Ok _ => False
     end.
Proof. split_and!; vm_compute; reflexivity. Qed.

Definition demo_search : World * StResult Value :=
  request_json demo_from_slice (λ _, "body") (λ _, "sha") demo_net (λ _, 0%Z) false demo_config
    "POST" "/api/chats/search" (Some (JObject [])) StageCatalog "chats" ReadOnlySessionRefresh None new_world.

(** A read refused by an expired session is repeated with a new one. *)
Example refused_search_is_repeated :
  map rq_url (w_sent demo_search.1)
  = ["https://st.example/csrf-token"; "https://st.example/api/chats/search";
     "https://st.example/csrf-token"; "https://st.example/api/chats/search"].
Proof. vm_compute. reflexivity. Qed.

Lemma listed_chats_witness :
  Forall (λ c, normalize_chat_file_name (ch_chat_file c) = ch_chat_file c
               /\ ends_with (ch_chat_file c) JSONL = true /\ is_hidden_chat_file (ch_chat_file c) = false)
    [{| ch_chat_file := "Ann - 1.jsonl"; ch_title := Some "Ann - 1"; ch_updated_at := None; ch_message_count := None |}].
Proof.
  refine (listed_chats_are_askable demo_from_slice (λ _, "sha")
    (JArray [JObject [("file_name", JString " Ann - 1 ")]; JObject [("file_name", JString "Ann Backup.jsonl")]]) _ _).
  vm_compute. reflexivity.
Defined.
End Demo.
