(* ===== verification/Legacy.v ===== *)
(** * Legacy SillyTavern data ([src/seams/legacy_source.rs], [src/modules/migration/mod.rs])

    A SillyTavern data directory as the importer reads it: handles, character cards,
    chat files and settings, and the names under which the exporter writes chats
    back.  The file system is a tree; [serde_json] and SHA-256 are parameters. *)

From stdpp Require Import pretty.
From S2P Require Import Prelude Text Errors StDomain ErrorMapper CardPng Characters Decoder Config.
From Stdlib Require Import Lia.

(** ** Paths *)

Definition slash : Ascii.ascii := Ascii.ascii_of_nat 47.
Definition dot : Ascii.ascii := Ascii.ascii_of_nat 46.

(** The components of a path, the current directory apart. *)
Definition components (path : string) : list string :=
  filter (λ c, c <> "" /\ c <> ".") (split_on slash path).

Definition normal_last (cs : list string) : option string :=
  match last cs with Some c => if c =?= ".." then None else Some c | None => None end.

(** [Path::file_name] and [Path::parent().and_then(file_name)], as text when they are. *)
Definition as_text (o : option string) : option string :=
  match o with Some s => if utf8_valid s then Some s else None | None => None end.
Definition file_name (path : string) : option string := as_text (normal_last (components path)).
Definition parent_name (path : string) : option string := as_text (normal_last (removelast (components path))).

(** [Path::extension]: after the last dot, when something stands before it. *)
Fixpoint last_dot (s : string) : option (string * string) :=
  match s with
  | EmptyString => None
  | String a r =>
      match last_dot r with
      | Some (before, after) => Some (String a before, after)
      | None => if a =?= dot then Some ("", r) else None
      end
  end.
Definition extension (path : string) : option string :=
  match normal_last (components path) with
  | Some name => match last_dot name with
                 | Some (before, after) => if before =?= "" then None else as_text (Some after)
                 | None => None
                 end
  | None => None
  end.

Definition forbidden_char (a : Ascii.ascii) : bool :=
  bool_decide (byte_val a ∈ [60; 62; 58; 34; 47; 92; 124; 63; 42]%N) || (byte_val a <? 32)%N.

Fixpoint map_bytes (f : Ascii.ascii -> Ascii.ascii) (s : string) : string :=
  match s with EmptyString => EmptyString | String a r => String (f a) (map_bytes f r) end.

(** The replaced characters are ASCII: byte by byte is character by character. *)
Definition safe_path_component (value : string) : string :=
  let sanitized := map_bytes (λ a, if forbidden_char a then Ascii.ascii_of_nat 95 else a) value in
  let sanitized := trim_end_bytes (λ a, a =?= dot) (trim_start_bytes (λ a, a =?= dot) (trim sanitized)) in
  if (sanitized =?= "") || (sanitized =?= ".") || (sanitized =?= "..") then "unnamed" else sanitized.

(** ** Lines *)

Definition line_feed : Ascii.ascii := Ascii.ascii_of_nat 10.
Definition carriage_return : string := String (Ascii.ascii_of_nat 13) "".

Definition strip_cr (line : string) : string :=
  if ends_with line carriage_return then str_take (String.length line - 1) line else line.

(** [str::lines]: the pieces between line feeds, the carriage return before a line
    feed dropped; what follows the last line feed is a line when it is not empty. *)
Fixpoint lines_of (pieces : list string) : list string :=
  match pieces with
  | [] => []
  | [last] => if last =?= "" then [] else [last]
  | piece :: pieces => strip_cr piece :: lines_of pieces
  end.
Definition lines (content : string) : list string := lines_of (split_on line_feed content).

(** [lines.join("\n") + "\n"]. *)
Definition unlines (l : list string) : string := join line_feed l +:+ String line_feed "".

(** ** The source *)

Record LegacyCharacterFile := { lf_handle : string; lf_path : string; lf_bytes : string }.
Record LegacyChatFile := { lc_handle : string; lc_character_dir : string; lc_path : string; lc_lines : list string }.
Record LegacySettings := { ls_handle : string; ls_username : string; ls_raw : Value }.

(** What a source tells of one handle; the calls fail as the file system does. *)
Record LegacySource := {
  src_handles : AppResult (list string);
  src_characters : string -> AppResult (list LegacyCharacterFile);
  src_chats : string -> AppResult (list LegacyChatFile);
  src_settings : string -> AppResult (option LegacySettings);
}.

(** A directory: its entries in the order [read_dir] gives them.  [Unreadable] is an
    entry or a file that cannot be read. *)
Inductive FsNode : Type :=
| File (content : string)
| Unreadable
| Dir (entries : list (string * FsNode)).

Fixpoint child (name : string) (entries : list (string * FsNode)) : option FsNode :=
  match entries with
  | [] => None
  | (n, node) :: entries => if n =?= name then Some node else child name entries
  end.

Section Files.
Context (from_slice : string -> option Value) (from_utf8_lossy : string -> string).

Definition fs_list_handles (root : FsNode) : AppResult (list string) :=
  match root with
  | Dir entries => Ok (omap (λ e, match e.2 with Dir _ => Some (from_utf8_lossy e.1) | _ => None end) entries)
  | _ => Err io_error
  end.

Definition is_card (path : string) : bool :=
  (extension path =?= Some "png") || (extension path =?= Some "json").

Fixpoint read_cards (handle dir : string) (entries : list (string * FsNode)) : AppResult (list LegacyCharacterFile) :=
  match entries with
  | [] => Ok []
  | (name, node) :: entries =>
      let path := path_join dir name in
      if is_card path then
        match node with
        | File bytes =>
            let? rest := read_cards handle dir entries in
            Ok ({| lf_handle := handle; lf_path := path; lf_bytes := bytes |} :: rest)
        | _ => Err io_error
        end
      else read_cards handle dir entries
  end.

Definition dir_of (root : FsNode) (handle name : string) : option FsNode :=
  match root with
  | Dir entries =>
      match child handle entries with
      | Some (Dir sub) => child name sub
      | _ => None
      end
  | _ => None
  end.

Definition fs_list_characters (data_root : string) (root : FsNode) (handle : string) : AppResult (list LegacyCharacterFile) :=
  match dir_of root handle "characters" with
  | None => Ok []
  | Some (Dir entries) => read_cards handle (path_join (path_join data_root handle) "characters") entries
  | Some _ => Err io_error
  end.

(** [visit_jsonl]: directories in depth, chat files with their directory's name. *)
Fixpoint visit_node (handle path : string) (node : FsNode) : AppResult (list LegacyChatFile) :=
  match node with
  | Dir entries =>
      (fix visit_entries (entries : list (string * FsNode)) : AppResult (list LegacyChatFile) :=
         match entries with
         | [] => Ok []
         | (name, node) :: entries =>
             let? files := visit_node handle (path_join path name) node in
             let? rest := visit_entries entries in
             Ok (files ++ rest)
         end) entries
  | File content =>
      if extension path =?= Some "jsonl" then
        if utf8_valid content then
          Ok [{| lc_handle := handle; lc_character_dir := default "" (parent_name path); lc_path := path;
                 lc_lines := lines content |}]
        else Err io_error
      else Ok []
  | Unreadable => if extension path =?= Some "jsonl" then Err io_error else Ok []
  end.

Definition fs_list_chats (data_root : string) (root : FsNode) (handle : string) : AppResult (list LegacyChatFile) :=
  let dir := path_join (path_join data_root handle) "chats" in
  match dir_of root handle "chats" with
  | None => Ok []
  | Some (Dir entries) => visit_node handle dir (Dir entries)
  | Some _ => Err io_error
  end.

Definition fs_load_settings (root : FsNode) (handle : string) : AppResult (option LegacySettings) :=
  match dir_of root handle "settings.json" with
  | None => Ok None
  | Some (File bytes) =>
      let raw := default (JObject []) (from_slice bytes) in
      Ok (Some {| ls_handle := handle; ls_username := default "User" (get_str raw "username"); ls_raw := raw |})
  | Some _ => Err io_error
  end.

Definition FilesystemLegacySource (data_root : string) (root : FsNode) : LegacySource :=
  {| src_handles := fs_list_handles root; src_characters := fs_list_characters data_root root;
     src_chats := fs_list_chats data_root root; src_settings := fs_load_settings root |}.

(** ** Keys of what was imported *)

Context (sha256_hex : string -> string).

(** [chat.lines.join("\n")]. *)
Definition chat_checksum (chat : LegacyChatFile) : string := sha256_hex (join line_feed (lc_lines chat)).

Definition character_source_key (handle : string) (character : LegacyCharacterFile) : string :=
  let filename := default "character" (file_name (lf_path character)) in
  handle +:+ ":" +:+ filename +:+ ":" +:+ sha256_hex (lf_bytes character).

Definition chat_source_key (handle : string) (chat : LegacyChatFile) : string :=
  let filename := default "chat.jsonl" (file_name (lc_path chat)) in
  handle +:+ ":" +:+ lc_character_dir chat +:+ ":" +:+ filename +:+ ":" +:+ chat_checksum chat.

(** [parse_legacy_user_ids]. *)
Definition legacy_user_id (value : Value) : option string :=
  match value with
  | JString s => if is_blank s then None else Some s
  | JNumber repr => Some repr
  | _ => None
  end.

Definition parse_legacy_user_ids (raw : string) : list string :=
  omap legacy_user_id (default [] (match from_slice raw with Some v => value_as_array v | None => None end)).
End Files.

(** ** Names are safe *)

Lemma all_bytes_trim p s : all_bytes p s = true -> all_bytes p (trim s) = true.
Proof.
  intros Hs. destruct (TelegramText.trim_start_split s) as (w & Hw & _).
  destruct (TelegramText.trim_end_split (trim_start s)) as (v & Hv & _).
  rewrite Hw, all_bytes_app in Hs. apply andb_prop in Hs as [_ Hs].
  rewrite Hv, all_bytes_app in Hs. by apply andb_prop in Hs as [Hs _].
Qed.

Lemma all_bytes_trim_dots p q s :
  all_bytes p s = true -> all_bytes p (trim_end_bytes q (trim_start_bytes q s)) = true.
Proof.
  intros Hs. assert (Ht : all_bytes p (trim_start_bytes q s) = true).
  { induction s as [|a s IH]; [done |]. simpl. destruct (q a); [| done]. apply IH.
    simpl in Hs. by apply andb_prop in Hs as [_ Hs]. }
  revert Ht. generalize (trim_start_bytes q s). clear. intros s. induction s as [|a s IH]; [done |].
  simpl. intros [Ha Hs]%andb_prop. specialize (IH Hs).
  destruct (trim_end_bytes q s) as [|b t] eqn:E; [destruct (q a); [done | simpl; by rewrite Ha] |].
  rewrite <- E in *. change (p a && all_bytes p (trim_end_bytes q s) = true). by rewrite Ha, E, <- E, IH.
Qed.

Lemma map_bytes_allowed s :
  all_bytes (λ a, negb (forbidden_char a)) (map_bytes (λ a, if forbidden_char a then Ascii.ascii_of_nat 95 else a) s) = true.
Proof.
  induction s as [|a s IH]; [done |]. simpl. rewrite IH, andb_true_r.
  destruct (forbidden_char a) eqn:E; [done | by rewrite E].
Qed.

(** What is written to disk stays in the directory it is meant for: whatever a chat's
    title, its character's name or its old location say, the name made of them is one
    component of a path - not empty, not [.] or [..], without a separator, a NUL or
    any other character a file system refuses. *)
Theorem export_names_are_components value :
  all_bytes (λ a, negb (forbidden_char a)) (safe_path_component value) = true
  /\ safe_path_component value <> "" /\ safe_path_component value <> "." /\ safe_path_component value <> ".."
  /\ components (safe_path_component value) = [safe_path_component value].
Proof.
  assert (Hchars : all_bytes (λ a, negb (forbidden_char a)) (safe_path_component value) = true).
  { unfold safe_path_component. case_match; [done |]. apply all_bytes_trim_dots, all_bytes_trim, map_bytes_allowed. }
  assert (Hne : safe_path_component value <> "" /\ safe_path_component value <> "." /\ safe_path_component value <> "..").
  { unfold safe_path_component. case_match eqn:E; [done |].
    repeat (apply orb_false_elim in E as [E ?]). repeat match goal with H : _ =?= _ = false |- _ => apply bool_decide_eq_false in H end.
    done. }
  split; [done |]. destruct Hne as (H0 & H1 & H2). split_and!; try done.
  unfold components. rewrite split_on_plain.
  - rewrite filter_cons_True by done. by rewrite filter_nil.
  - revert Hchars. generalize (safe_path_component value). clear. intros s. induction s as [|a s IH]; [done |].
    simpl. intros [Ha Hs]%andb_prop. rewrite IH by done. rewrite orb_false_r. apply bool_decide_eq_false.
    intros ->. done.
Qed.

(** ** Lines survive a file *)

Definition is_line (s : string) : Prop := has_byte line_feed s = false /\ ends_with s carriage_return = false.

Lemma split_on_end c s : split_on c (s +:+ String c "") = split_on c s ++ [""].
Proof.
  induction s as [|a s IH]; [change ("" +:+ ?t) with t; cbn [split_on]; by rewrite bool_decide_eq_true_2 |]. rewrite app_string_cons. cbn [split_on].
  rewrite IH. destruct (a =?= c); [done |].
  destruct (split_on c s) as [|p ps] eqn:E; [by apply split_on_nonempty in E | done].
Qed.

(** Writing lines to a file and reading the file gives the lines. *)
Lemma lines_unlines l : l <> [] -> Forall is_line l -> lines (unlines l) = l.
Proof.
  intros Hne Hl. unfold lines, unlines. rewrite split_on_end, split_on_join; [| done |].
  2: { eapply Forall_impl; [done |]. by intros ? [? _]. }
  clear Hne. induction Hl as [|s l [_ Hcr] Hl IH]; [done |].
  change ((s :: l) ++ [""]) with (s :: (l ++ [""])). cbn [lines_of].
  destruct (l ++ [""]) as [|x r] eqn:E; [by destruct l |]. rewrite IH. unfold strip_cr. by rewrite Hcr.
Qed.
