(* ===== verification/Migration.v ===== *)
(** * Importing and exporting legacy chats ([src/modules/migration/mod.rs])

    [import_chat] turns a SillyTavern chat file into a conversation in one
    transaction, [import_source] does so for a whole data directory and remembers
    what it has taken, [export_workspace] writes the conversations of a workspace
    back as chat files.  The tables are those of the chat engine and of the
    identity module, with the archive of imported chats and the keys of imported
    sources; fresh ids are drawn from a supply.  [serde_json], SHA-256, Argon2, the
    card codec's primitives and the clock are parameters. *)

From stdpp Require Import pretty.
From S2P Require Import Prelude Text Errors StDomain ErrorMapper Engine BindCodes TelegramInbox StOps Identity CardPng Models Stateful Characters Chat ChatSteps Decoder Config Legacy.
From Stdlib Require Import Lia.

Record ArchiveRow := MkArchiveRow {
  ar_id : string;
  ar_conversation_id : string;
  ar_source_handle : string;
  ar_source_path : string;
  ar_source_checksum : string;
  ar_raw_header_json : string;
  ar_classification : string;
  ar_imported_at : string;
}.

(** The database of the importer; [im_next] numbers the ids still to be drawn. *)
Record ImportDB := MkImportDB {
  im_identity : IdentityDB;
  im_chat : ChatDB;
  im_archives : list ArchiveRow;
  im_sources : gmap (string * string) string;
  im_next : nat;
}.

Definition set_chat (c : ChatDB) (d : ImportDB) : ImportDB :=
  MkImportDB (im_identity d) c (im_archives d) (im_sources d) (im_next d).
Definition set_archives (f : list ArchiveRow -> list ArchiveRow) (d : ImportDB) : ImportDB :=
  MkImportDB (im_identity d) (im_chat d) (f (im_archives d)) (im_sources d) (im_next d).
Definition set_sources (f : gmap (string * string) string -> gmap (string * string) string) (d : ImportDB) : ImportDB :=
  MkImportDB (im_identity d) (im_chat d) (im_archives d) (f (im_sources d)) (im_next d).

Definition on_chat {A} (m : Stm ChatDB A) : Stm ImportDB A := on im_chat set_chat m.

Definition insert_archive (row : ArchiveRow) (d : ImportDB) : option ImportDB :=
  if bool_decide (Exists (λ x, ar_id x = ar_id row) (im_archives d))
     || negb (has_conversation (ar_conversation_id row) (im_chat d)) then None
  else Some (set_archives (λ l, l ++ [row]) d).

(** [source_target] and [record_source_target] ([INSERT OR IGNORE]). *)
Definition source_target (kind key : string) (d : ImportDB) : option string := im_sources d !! (kind, key).
Definition record_source_target (kind key target : string) (d : ImportDB) : ImportDB :=
  match im_sources d !! (kind, key) with
  | Some _ => d
  | None => set_sources <[(kind, key) := target]> d
  end.

(** ** Messages of a chat file *)

(** What the importer reads out of a line. *)
Record LegacyMessage := MkLegacyMessage {
  lm_role : string;
  lm_original : string;
  lm_prompt : option string;
  lm_raw : Value;
}.

Definition flag_of (raw : Value) (key : string) : bool := default false (get_bool raw key).

Definition legacy_role (raw : Value) : string :=
  if flag_of raw "is_system" then "system" else if flag_of raw "is_user" then "user" else "assistant".

Definition legacy_message (raw : Value) : LegacyMessage :=
  MkLegacyMessage (legacy_role raw) (default "" (get_str raw "mes"))
    (match pointer ["extra"; "display_text"] raw with Some v => value_as_str v | None => None end) raw.

(** The locals of the loop over the lines. *)
Record Progress := MkProgress {
  pg_count : Z;
  pg_sequence : Z;
  pg_ordinal : Z;
  pg_current : option (string * bool);
}.

Definition start : Progress := MkProgress 0 0 0 None.

Definition classification_of (path : string) : string :=
  if contains (default "" (file_name path)) ".pre_compress_" then "pre-compress-backup" else "primary".

(** The first character of the name, else the last of the list. *)
Definition pick_character (wanted : string) (characters : list CharacterRow) : option CharacterRow :=
  match list_find (λ c, ch_display_name c = wanted) characters with
  | Some (_, c) => Some c
  | None => last characters
  end.

Section Importer.
Context (from_str : string -> option Value) (value_to_string : Value -> string).
Context (sha256_hex : string -> string) (from_utf8_lossy : string -> string).
Context (new_id : nat -> string).

Definition fresh : Stm ImportDB string :=
  λ d, (MkImportDB (im_identity d) (im_chat d) (im_archives d) (im_sources d) (S (im_next d)), Ok (new_id (im_next d))).

Definition new_turn (conversation_id account_id : string) (ordinal : Z) : Stm ImportDB string :=
  run! turn_id := fresh in
  run! _ := on_chat (statement (insert_turn (MkTurnRow turn_id conversation_id ordinal "pending" account_id None))) in
  sret turn_id.

(** The turn a message belongs to, with the ordinal and the open turn after it: a user
    message opens a turn; a reply closes the open one, or is a turn of its own; a system
    message has none and leaves the open turn as it is. *)
Definition turn_of (conversation_id account_id role : string) (p : Progress)
    : Stm ImportDB (option string * Z * option (string * bool)) :=
  if role =?= "system" then sret (None, pg_ordinal p, pg_current p)
  else if role =?= "user" then
    run! turn_id := new_turn conversation_id account_id (pg_ordinal p + 1) in
    sret (Some turn_id, (pg_ordinal p + 1)%Z, Some (turn_id, false))
  else
    match pg_current p with
    | Some (turn_id, false) => sret (Some turn_id, pg_ordinal p, Some (turn_id, true))
    | _ =>
        run! turn_id := new_turn conversation_id account_id (pg_ordinal p + 1) in
        sret (Some turn_id, (pg_ordinal p + 1)%Z, Some (turn_id, true))
    end.

Definition import_message (conversation_id account_id : string) (p : Progress) (m : LegacyMessage) : Stm ImportDB Progress :=
  let sequence := (pg_sequence p + 1)%Z in
  run! placed := turn_of conversation_id account_id (lm_role m) p in
  let '(turn_id, ordinal, current) := placed in
  run! message_id := fresh in
  run! _ := on_chat (statement (insert_message (MkMessageRow message_id conversation_id turn_id sequence (lm_role m)
              (lm_original m) (lm_prompt m) "active" None (value_to_string (lm_raw m)) (Some (value_to_string (lm_raw m)))))) in
  run! _ := match turn_id with
            | Some turn => if lm_role m =?= "assistant"
                           then on_chat (sput (set_turns (set_turn turn "complete" (Some message_id)))) else sret tt
            | None => sret tt
            end in
  sret (MkProgress (pg_count p + 1) sequence ordinal current).

(** A line that is no JSON is passed over. *)
Fixpoint import_lines (conversation_id account_id : string) (p : Progress) (lines : list string) : Stm ImportDB Progress :=
  match lines with
  | [] => sret p
  | line :: lines =>
      match from_str line with
      | None => import_lines conversation_id account_id p lines
      | Some raw =>
          run! p := import_message conversation_id account_id p (legacy_message raw) in
          import_lines conversation_id account_id p lines
      end
  end.

Definition chat_header (chat : LegacyChatFile) : Value :=
  default (JObject []) (match head (lc_lines chat) with Some line => from_str line | None => None end).

Definition import_chat (now workspace_id account_id handle : string) (chat : LegacyChatFile) : Stm ImportDB (string * Z) :=
  let header := chat_header chat in
  let wanted_name := default (lc_character_dir chat) (get_str header "character_name") in
  run! characters := sget (λ d, list_characters workspace_id (cd_chars (im_chat d))) in
  run! character := slift (ok_or (pick_character wanted_name characters)
                      (bad_request "CHARACTER_REQUIRED" "no character available for chat import")) in
  let classification := classification_of (lc_path chat) in
  run! conversation_id := fresh in
  let title := default (ch_display_name character) (get_str header "character_name") in
  let locator := from_utf8_lossy (lc_path chat) in
  transaction
    (run! _ := on_chat (statement (insert_conversation (MkConversationRow
                 (MkConversation conversation_id workspace_id (ch_id character) None title "legacy_bridge_v1" 0 None
                    (negb (classification =?= "primary")) (Some locator)) now))) in
     run! archive_id := fresh in
     run! _ := statement (insert_archive (MkArchiveRow archive_id conversation_id handle locator
                 (chat_checksum sha256_hex chat) (value_to_string header) classification now)) in
     run! p := import_lines conversation_id account_id start (tail (lc_lines chat)) in
     run! _ := on_chat (sput (set_revision now (pg_ordinal p) conversation_id)) in
     sret (conversation_id, pg_count p)).

(** ** Export *)

(** A message as a line: its source object with the three members the table knows
    better, each replaced in its place or appended. *)
Definition exported_value (m : MessageRow) : Value :=
  match default (JObject []) (match ms_source_raw_json m with Some raw => from_str raw | None => None end) with
  | JObject members =>
      JObject (StOps.assoc_set "is_system" (JBool (ms_role m =?= "system"))
        (StOps.assoc_set "is_user" (JBool (ms_role m =?= "user"))
          (StOps.assoc_set "mes" (JString (default (ms_content_original m) (ms_prompt_content m))) members)))
  | other => other
  end.

(** The first archive row of the conversation by import time. *)
Definition archive_of (conversation_id : string) (d : ImportDB) : option ArchiveRow :=
  head (sort_by (λ a b, text_le (ar_imported_at a) (ar_imported_at b))
    (filter (λ a, ar_conversation_id a = conversation_id) (im_archives d))).

(** [integrity] is the fresh id of a chat that was never imported. *)
Definition export_header (integrity : string) (conversation_id title : string) (d : ImportDB) : Value :=
  default (JObject [("chat_metadata", JObject [("integrity", JString integrity)]); ("character_name", JString title)])
    (match archive_of conversation_id d with Some a => from_str (ar_raw_header_json a) | None => None end).

Definition conversation_rows (conversation_id : string) (d : ImportDB) : list MessageRow :=
  sort_by sequence_le (filter (λ m, ms_conversation_id m = conversation_id) (messages (im_chat d))).

Definition export_lines (integrity conversation_id title : string) (d : ImportDB) : list string :=
  value_to_string (export_header integrity conversation_id title d)
    :: map (λ m, value_to_string (exported_value m)) (filter (λ m, ms_status m = "active") (conversation_rows conversation_id d)).

Definition export_path (output : string) (c : Conversation) (character_name : string) : string :=
  let filename := default (safe_path_component (cv_title c) +:+ "-" +:+ cv_id c +:+ ".jsonl")
    (safe_path_component <$> (l ← cv_legacy_locator c; file_name l)) in
  let character_dir := default (safe_path_component character_name)
    (safe_path_component <$> (l ← cv_legacy_locator c; parent_name l)) in
  path_join (path_join output character_dir) filename.

(** Files by path; a file that exists is overwritten.  [disk] says which paths can be
    written. *)
Fixpoint export_files (disk : string -> bool) (integrity : string -> string) (output : string)
    (rows : list (Conversation * string)) (d : ImportDB) (files : gmap string string) (count : Z)
    : gmap string string * AppResult Z :=
  match rows with
  | [] => (files, Ok count)
  | (c, character_name) :: rows =>
      let path := export_path output c character_name in
      if disk path then
        export_files disk integrity output rows d
          (<[path := unlines (export_lines (integrity (cv_id c)) (cv_id c) (cv_title c) d)]> files) (count + 1)
      else (files, Err io_error)
  end.

(** The conversations of a workspace with their character's name. *)
Definition exported_conversations (workspace_id : string) (d : ImportDB) : list (Conversation * string) :=
  omap (λ kr : string * ConversationRow,
          let c := cw_conversation kr.2 in
          if cv_workspace_id c =?= workspace_id
          then (λ ch, (c, ch_display_name ch)) <$> get_character (cv_character_id c) (cd_chars (im_chat d))
          else None) (map_to_list (conversations (im_chat d))).

Definition export_workspace (disk : string -> bool) (integrity : string -> string) (workspace_id output : string)
    (d : ImportDB) (files : gmap string string) : gmap string string * AppResult Z :=
  if negb (disk output) then (files, Err io_error)
  else export_files disk integrity output (exported_conversations workspace_id d) d files 0.
End Importer.
