(* ===== verification/MigrationCorrect.v ===== *)
(** * What importing a chat guarantees

    The rows of an imported conversation are its file's messages in order, the chat
    engine's invariant holds after it, and nothing else changes. *)

From stdpp Require Import pretty numbers.
From S2P Require Import Prelude Text Errors StDomain ErrorMapper Engine BindCodes TelegramInbox Identity CardPng Models Stateful Characters Chat ChatSteps ChatCorrect Decoder Config Legacy Migration.
From Stdlib Require Import Lia.

(** The tables the import of a chat leaves alone. *)
Definition framed (d d' : ImportDB) : Prop :=
  im_identity d' = im_identity d /\ im_archives d' = im_archives d /\ im_sources d' = im_sources d.

Lemma framed_trans d1 d2 d3 : framed d1 d2 -> framed d2 d3 -> framed d1 d3.
Proof. unfold framed. naive_solver congruence. Qed.

Section Importer.
Context (from_str : string -> option Value) (value_to_string : Value -> string).
Context (sha256_hex : string -> string) (from_utf8_lossy : string -> string).
Context (new_id : nat -> string).

(** What a message says, as a row and as a line. *)
Definition row_says (m : MessageRow) : string * string * option string * option string :=
  (ms_role m, ms_content_original m, ms_prompt_content m, ms_source_raw_json m).
Definition line_says (m : LegacyMessage) : string * string * option string * option string :=
  (lm_role m, lm_original m, lm_prompt m, Some (value_to_string (lm_raw m))).

Definition turn_in (c t : string) (d : ChatDB) : Prop :=
  exists x, x ∈ turns d /\ tn_id x = t /\ tn_conversation_id x = c.

(** A conversation [c] in the middle of its import. *)
Record importing (c : string) (before d : ChatDB) (p : Progress) (done_ : list LegacyMessage) : Prop := {
  ig_ok : chat_ok d;
  ig_known : is_Some (conversations d !! c);
  ig_new : of_conv c (messages before) = [];
  ig_convs : conversations d = conversations before;
  ig_rows : exists rows, messages d = messages before ++ rows
              /\ Forall (λ m, ms_conversation_id m = c /\ ms_status m = "active") rows
              /\ row_says <$> rows = line_says <$> done_
              /\ ms_sequence <$> rows = seqZ 1 (Z.of_nat (length done_));
  ig_sequence : pg_sequence p = Z.of_nat (length done_);
  ig_count : pg_count p = Z.of_nat (length done_);
  ig_ordinal : (0 <= pg_ordinal p)%Z;
  ig_turns : tn_ordinal <$> of_conv_turns c (turns d) = seqZ 1 (pg_ordinal p);
  ig_others : forall c', c' <> c -> of_conv_turns c' (turns d) = of_conv_turns c' (turns before);
  ig_current : forall t b, pg_current p = Some (t, b) -> turn_in c t d;
}.

Lemma seqZ_snoc n : (0 <= n)%Z -> seqZ 1 (n + 1) = seqZ 1 n ++ [(n + 1)%Z].
Proof.
  intros Hn. rewrite seqZ_app by lia. f_equal. rewrite seqZ_cons by lia. change (Z.pred 1) with 0%Z.
  rewrite seqZ_nil by lia. by rewrite Z.add_comm.
Qed.

Lemma seqZ_bound x n : x ∈ seqZ 1 n -> (x < n + 1)%Z.
Proof. rewrite elem_of_seqZ. lia. Qed.

Lemma on_chat_inv {A} (m : Stm ChatDB A) d d' (a : A) :
  on_chat m d = (d', Ok a) -> m (im_chat d) = (im_chat d', Ok a) /\ framed d d'.
Proof. unfold on_chat, on, framed. destruct (m (im_chat d)) as [c r]. by intros [= <- ->]. Qed.

Lemma fresh_inv d d' id : fresh new_id d = (d', Ok id) -> im_chat d' = im_chat d /\ framed d d'.
Proof. unfold fresh, framed. by intros [= <- <-]. Qed.

Lemma new_turn_inv c account ordinal d d' t :
  new_turn new_id c account ordinal d = (d', Ok t) ->
  insert_turn (MkTurnRow t c ordinal "pending" account None) (im_chat d) = Some (im_chat d') /\ framed d d'.
Proof.
  unfold new_turn. intros H. run_inv H t' d1 H1. apply fresh_inv in H1 as [Hc F1].
  run_inv H u d2 H2. apply on_chat_inv in H2 as [H2 F2]. injection H as <- <-.
  apply statement_inv in H2. rewrite Hc in H2. split; [done | by eapply framed_trans].
Qed.

(** A turn opened by the import. *)
Lemma importing_turn c before d p done_ t account d' :
  importing c before d p done_ ->
  insert_turn (MkTurnRow t c (pg_ordinal p + 1) "pending" account None) d = Some d' ->
  (forall b, importing c before d' (MkProgress (pg_count p) (pg_sequence p) (pg_ordinal p + 1) (Some (t, b))) done_)
  /\ turn_in c t d'.
Proof.
  intros [] (-> & Hnew & _)%insert_turn_inv.
  assert (Hin : turn_in c t (set_turns (λ l, l ++ [MkTurnRow t c (pg_ordinal p + 1) "pending" account None]) d)).
  { eexists. split; [apply elem_of_app; right; by apply list_elem_of_singleton | done]. }
  split; [| done]. intros b. constructor; simpl; try done.
  - apply add_turn_ok; simpl; try done. intros x Hx.
    assert (tn_ordinal x ∈ seqZ 1 (pg_ordinal p)) as Hb by (rewrite <- ig_turns0; by apply list_elem_of_fmap_2).
    by apply seqZ_bound in Hb.
  - lia.
  - unfold of_conv_turns. rewrite filter_app, filter_cons_True, filter_nil, fmap_app by done. cbn [fmap list_fmap].
    rewrite seqZ_snoc by done. unfold of_conv_turns in ig_turns0. by rewrite ig_turns0.
  - intros c' Hne. unfold of_conv_turns. rewrite filter_app, filter_cons_False, filter_nil, app_nil_r by (simpl; congruence).
    by apply ig_others0.
  - by intros t' b' [= <- <-].
Qed.

Lemma importing_current c before d p done_ ordinal current :
  importing c before d p done_ -> ordinal = pg_ordinal p -> (forall t b, current = Some (t, b) -> turn_in c t d) ->
  importing c before d (MkProgress (pg_count p) (pg_sequence p) ordinal current) done_.
Proof. intros [] -> Hc. by constructor. Qed.

Lemma turn_of_inv c account role before p done_ d d' turn ordinal current :
  importing c before (im_chat d) p done_ ->
  turn_of new_id c account role p d = (d', Ok (turn, ordinal, current)) ->
  importing c before (im_chat d') (MkProgress (pg_count p) (pg_sequence p) ordinal current) done_
  /\ (forall t, turn = Some t -> turn_in c t (im_chat d')) /\ framed d d'.
Proof.
  intros Hi. unfold turn_of.
  assert (Hopen : forall b, (run! turn_id := new_turn new_id c account (pg_ordinal p + 1) in
            sret (Some turn_id, (pg_ordinal p + 1)%Z, Some (turn_id, b))) d = (d', Ok (turn, ordinal, current)) ->
          importing c before (im_chat d') (MkProgress (pg_count p) (pg_sequence p) ordinal current) done_
          /\ (forall t, turn = Some t -> turn_in c t (im_chat d')) /\ framed d d').
  { intros b H. run_inv H t d1 H1. apply new_turn_inv in H1 as [H1 F]. injection H as <- <- <- <-.
    apply (importing_turn _ _ _ _ _ _ _ _ Hi) in H1 as [Ht Hin]. split_and!; [apply Ht | by intros ? [= <-] | done]. }
  destruct (role =?= "system").
  { intros [= <- <- <- <-]. split_and!; [| done | done]. apply importing_current; [done | done |]. by apply Hi. }
  destruct (role =?= "user"); [apply Hopen |].
  destruct (pg_current p) as [[t []]|] eqn:Hc; [apply Hopen | | apply Hopen].
  intros [= <- <- <- <-]. pose proof (ig_current _ _ _ _ _ Hi t false Hc) as Hin.
  split_and!; [| by intros ? [= <-] | done]. apply importing_current; [done | done |]. by intros ? ? [= <- <-].
Qed.

Lemma importing_message c before d p done_ id turn m meta d' :
  importing c before d p done_ -> (forall t, turn = Some t -> turn_in c t d) ->
  insert_message (MkMessageRow id c turn (pg_sequence p + 1) (lm_role m) (lm_original m) (lm_prompt m) "active" None meta
    (Some (value_to_string (lm_raw m)))) d = Some d' ->
  importing c before d' (MkProgress (pg_count p + 1) (pg_sequence p + 1) (pg_ordinal p) (pg_current p)) (done_ ++ [m]).
Proof.
  intros [] Hturn (-> & Hnew)%insert_message_inv. destruct ig_rows0 as (rows & Hm & Hc & Hsay & Hseq).
  set (row := MkMessageRow _ _ _ _ _ _ _ _ _ _ _) in *.
  assert (Hlen : length (done_ ++ [m]) = S (length done_)) by (rewrite length_app; simpl; lia).
  constructor; simpl; try done.
  - apply add_message_ok; try done. intros x Hx. apply list_elem_of_filter in Hx as [Hxc Hx].
    rewrite Hm in Hx. apply elem_of_app in Hx as [Hx|Hx].
    { exfalso. cut (x ∈ of_conv c (messages before)); [rewrite ig_new0; apply not_elem_of_nil |].
      by apply list_elem_of_filter. }
    assert (ms_sequence x ∈ seqZ 1 (Z.of_nat (length done_))) as Hb by (rewrite <- Hseq; by apply list_elem_of_fmap_2).
    apply seqZ_bound in Hb. simpl. lia.
  - exists (rows ++ [row]). rewrite Hm, app_assoc, !fmap_app, Hsay, Hseq, Hlen. split_and!; try done.
    + apply Forall_app. split; [done |]. by repeat constructor.
    + rewrite Nat2Z.inj_succ, <- Z.add_1_r, seqZ_snoc by lia. simpl. by rewrite ig_sequence0.
  - rewrite Hlen, ig_sequence0. lia.
  - rewrite Hlen, ig_count0. lia.
Qed.

Lemma turn_in_unique c t d x : chat_ok d -> turn_in c t d -> x ∈ turns d -> tn_id x = t -> tn_conversation_id x = c.
Proof.
  intros Hok (y & Hy & Hid & Hc) Hx Hxt. assert (x = y) as ->; [| done].
  apply list_elem_of_lookup in Hx as [i Hi], Hy as [j Hj].
  assert (i = j) as ->; [| congruence].
  apply (NoDup_lookup _ i j t (ok_turn_ids _ Hok)); rewrite list_lookup_fmap; [rewrite Hi | rewrite Hj]; simpl; congruence.
Qed.

Lemma importing_complete c before d p done_ t status reply :
  importing c before d p done_ -> turn_in c t d -> importing c before (set_turns (set_turn t status reply) d) p done_.
Proof.
  intros [] Ht. pose proof (set_turn_keeps t status reply) as Hk. constructor; simpl; try done.
  - by apply map_turns_ok.
  - unfold set_turn. rewrite of_conv_turns_map by done. rewrite <- ig_turns0, <- list_fmap_compose.
    apply list_fmap_ext. intros i x _. simpl. by destruct (Hk x) as (_ & _ & ->).
  - intros c' Hne. rewrite <- ig_others0 by done. unfold set_turn. rewrite of_conv_turns_map by done.
    apply map_id_on. intros x Hx. apply list_elem_of_filter in Hx as [Hxc Hx].
    case_bool_decide as Hid; [| done]. pose proof (turn_in_unique c t d x ig_ok0 Ht Hx Hid). congruence.
  - intros t' b Hcur. destruct (ig_current0 t' b Hcur) as (x & Hx & Hid & Hxc).
    eexists. split; [by apply list_elem_of_fmap_2 |]. destruct (Hk x) as (-> & -> & _). done.
Qed.

Lemma import_message_inv c account before p done_ m d d' p' :
  importing c before (im_chat d) p done_ ->
  import_message value_to_string new_id c account p m d = (d', Ok p') ->
  importing c before (im_chat d') p' (done_ ++ [m]) /\ framed d d'.
Proof.
  intros Hi. unfold import_message. intros H. run_inv H placed d1 H1. destruct placed as [[turn ordinal] current].
  apply (turn_of_inv _ _ _ _ _ _ _ _ _ _ _ Hi) in H1 as (Hi1 & Hturn & F1).
  run_inv H mid d2 H2. apply fresh_inv in H2 as [Hc2 F2].
  run_inv H u d3 H3. apply on_chat_inv in H3 as [H3 F3]. apply statement_inv in H3. rewrite Hc2 in H3.
  apply (importing_message _ _ _ _ _ _ _ _ _ _ Hi1 Hturn) in H3 as Hi3. simpl in Hi3.
  assert (Ht3 : forall t, turn = Some t -> turn_in c t (im_chat d3)).
  { intros t Ht. apply insert_message_inv in H3 as [-> _]. by apply Hturn. }
  run_inv H v d4 H4. injection H as <- <-.
  assert (F : framed d d3) by (by eapply framed_trans, framed_trans).
  assert (framed d3 d4 /\ importing c before (im_chat d4) (MkProgress (pg_count p + 1) (pg_sequence p + 1) ordinal current) (done_ ++ [m]))
    as [F4 Hi4]; [| split; [done | by eapply framed_trans]].
  destruct turn as [t|]; [| by injection H4 as <- _].
  destruct (lm_role m =?= "assistant"); [| by injection H4 as <- _].
  apply on_chat_inv in H4 as [[= <-] F4]. split; [done |]. apply importing_complete; auto.
Qed.

(** The messages of the lines that are JSON. *)
Definition line_messages (lines : list string) : list LegacyMessage :=
  omap (λ line, legacy_message <$> from_str line) lines.

Lemma import_lines_inv c account before lines_ : forall p done_ d d' p',
  importing c before (im_chat d) p done_ ->
  import_lines from_str value_to_string new_id c account p lines_ d = (d', Ok p') ->
  importing c before (im_chat d') p' (done_ ++ line_messages lines_) /\ framed d d'.
Proof.
  induction lines_ as [|line lines_ IH]; intros p done_ d d' p' Hi; cbn [import_lines].
  - intros [= <- <-]. by rewrite app_nil_r.
  - unfold line_messages. cbn [omap list_omap]. destruct (from_str line) as [raw|]; [| by apply IH].
    intros H. run_inv H p1 d1 H1. apply (import_message_inv _ _ _ _ _ _ _ _ _ Hi) in H1 as [Hi1 F1].
    apply (IH _ _ _ _ _ Hi1) in H as [Hi2 F2]. rewrite <- app_assoc in Hi2. split; [done | by eapply framed_trans].
Qed.

(** The start of an import: a conversation no row belongs to yet. *)
Lemma importing_start row d d1 :
  chat_ok d -> insert_conversation row d = Some d1 ->
  conversations d !! cv_id (cw_conversation row) = None
  /\ conversations d1 = <[cv_id (cw_conversation row) := row]> (conversations d)
  /\ messages d1 = messages d /\ turns d1 = turns d
  /\ importing (cv_id (cw_conversation row)) d1 d1 start [].
Proof.
  intros Hok Hins. unfold insert_conversation in Hins. destruct (_ || _) eqn:Hno; [done |]. injection Hins as <-.
  apply orb_false_elim in Hno as [[Hno _]%orb_false_elim _]. unfold has_conversation in Hno.
  apply bool_decide_eq_false, eq_None_not_Some in Hno. set (c := cv_id (cw_conversation row)) in *.
  split_and!; try done. constructor; simpl; try done.
  - apply (same_rows_ok d); try done; simpl.
    + intros c' row'. destruct (decide (c = c')) as [<-|Hne]; [rewrite lookup_insert_eq; by intros [= <-] |].
      rewrite lookup_insert_ne by done. apply (ok_key _ Hok).
    + intros c' Hs. destruct (decide (c = c')) as [<-|Hne]; [by rewrite lookup_insert_eq; eauto | by rewrite lookup_insert_ne].
  - rewrite lookup_insert_eq. eauto.
  - destruct (of_conv c (messages d)) as [|m l] eqn:E; [done | exfalso].
    assert (m ∈ of_conv c (messages d)) as [Hc Hm]%list_elem_of_filter by (rewrite E; left).
    apply (ok_message_conv _ Hok) in Hm. rewrite Hc, Hno in Hm. by destruct Hm.
  - exists []. rewrite app_nil_r. done.
  - destruct (of_conv_turns c (turns d)) as [|t l] eqn:E; [done | exfalso].
    assert (t ∈ of_conv_turns c (turns d)) as [Hc Ht]%list_elem_of_filter by (rewrite E; left).
    apply (ok_turn_conv _ Hok) in Ht. rewrite Hc, Hno in Ht. by destruct Ht.
Qed.

Lemma importing_rows c before d p done_ :
  importing c before d p done_ ->
  row_says <$> of_conv c (messages d) = line_says <$> done_
  /\ active_rows c d = of_conv c (messages d)
  /\ (forall c', c' <> c -> of_conv c' (messages d) = of_conv c' (messages before)).
Proof.
  intros []. destruct ig_rows0 as (rows & Hm & Hc & Hsay & _).
  assert (Hrows : of_conv c (messages d) = rows).
  { unfold of_conv. rewrite Hm, filter_app. unfold of_conv in ig_new0. rewrite ig_new0. simpl.
    apply filter_all_kept. intros x Hx. by apply (Forall_forall _ rows) with (x := x) in Hc as []. }
  split_and!.
  - by rewrite Hrows.
  - rewrite active_rows_ok by done. rewrite Hrows. apply filter_all_kept. intros x Hx. by apply (Forall_forall _ rows) with (x := x) in Hc as [].
  - intros c' Hne. unfold of_conv. rewrite Hm, filter_app. rewrite (filter_none_kept _ rows), app_nil_r; [done |].
    intros x Hx. apply (Forall_forall _ rows) with (x := x) in Hc as [-> _]; [congruence | done].
Qed.

(** What importing a chat file leaves behind when it succeeds. *)
Record imported (now workspace_id handle : string) (chat : LegacyChatFile) (d d' : ImportDB) (c : string) (n : Z) : Prop := {
  id_ok : chat_ok (im_chat d');
  id_new : conversations (im_chat d) !! c = None;
  id_count : n = Z.of_nat (length (line_messages (tail (lc_lines chat))));
  id_messages : row_says <$> active_rows c (im_chat d') = line_says <$> line_messages (tail (lc_lines chat));
  id_conversation : exists row, conversations (im_chat d') !! c = Some row
    /\ cv_workspace_id (cw_conversation row) = workspace_id
    /\ cv_legacy_locator (cw_conversation row) = Some (from_utf8_lossy (lc_path chat))
    /\ cv_revision (cw_conversation row) = Z.of_nat (length (of_conv_turns c (turns (im_chat d'))));
  id_archive : exists id, im_archives d' = im_archives d ++
    [MkArchiveRow id c handle (from_utf8_lossy (lc_path chat)) (chat_checksum sha256_hex chat)
       (value_to_string (chat_header from_str chat)) (classification_of (lc_path chat)) now];
  id_others : forall c', c' <> c ->
    conversations (im_chat d') !! c' = conversations (im_chat d) !! c'
    /\ of_conv c' (messages (im_chat d')) = of_conv c' (messages (im_chat d))
    /\ of_conv_turns c' (turns (im_chat d')) = of_conv_turns c' (turns (im_chat d));
}.

Lemma import_chat_ok now workspace_id account_id handle chat d d' c n :
  chat_ok (im_chat d) -> import_chat from_str value_to_string sha256_hex from_utf8_lossy new_id now workspace_id account_id handle chat d = (d', Ok (c, n)) ->
  imported now workspace_id handle chat d d' c n.
Proof.
  intros Hok. unfold import_chat.
  intros H. run_inv H cs d1 H1. injection H1 as <- _. run_inv H character d1 H1. injection H1 as <- _.
  run_inv H cid d1 H1. apply fresh_inv in H1 as [Hc1 F1]. apply transaction_inv in H.
  run_inv H u d2 H2. apply on_chat_inv in H2 as [H2 F2]. apply statement_inv in H2. rewrite Hc1 in H2.
  apply (importing_start _ _ _ Hok) in H2 as (Hnone & Hconvs & Hms & Hts & Hstart). cbn [cw_conversation cv_id] in *.
  run_inv H aid d3 H3. apply fresh_inv in H3 as [Hc3 F3].
  run_inv H v d4 H4. apply statement_inv in H4. unfold insert_archive in H4. destruct (_ || _); [done |]. injection H4 as <-.
  run_inv H p d5 H5.
  match type of H5 with import_lines _ _ _ _ _ _ _ ?d4 = _ =>
    assert (importing cid (im_chat d2) (im_chat d4) start []) as Hstart' by (simpl; by rewrite Hc3) end.
  apply (import_lines_inv _ _ _ _ _ _ _ _ _ Hstart') in H5 as [Hi F5]. simpl in Hi.
  run_inv H x d6 H6. apply on_chat_inv in H6 as [[= H6] F6]. injection H as <- <- <-.
  destruct (importing_rows _ _ _ _ _ Hi) as (Hsay & Hact & Hoth). destruct Hi.
  assert (Hact6 : active_rows cid (im_chat d6) = active_rows cid (im_chat d5)) by (by rewrite <- H6).
  assert (Harch : im_archives d6 = im_archives d3 ++ [MkArchiveRow aid cid handle (from_utf8_lossy (lc_path chat))
    (chat_checksum sha256_hex chat) (value_to_string (chat_header from_str chat)) (classification_of (lc_path chat)) now]).
  { destruct F6 as (_ & -> & _), F5 as (_ & -> & _). done. }
  constructor.
  + rewrite <- H6. by apply set_revision_ok.
  + done.
  + done.
  + by rewrite Hact6, Hact, Hsay.
  + rewrite <- H6. simpl. rewrite ig_convs0, Hconvs. rewrite lookup_alter_eq, lookup_insert_eq. simpl. eexists.
    split; [done |]. simpl. split_and!; try done. rewrite <- (length_fmap tn_ordinal), ig_turns0, length_seqZ. lia.
  + exists aid. rewrite Harch. destruct F3 as (_ & -> & _), F2 as (_ & -> & _), F1 as (_ & -> & _). done.
  + intros c' Hne. rewrite <- H6. simpl. rewrite lookup_alter_ne by done. rewrite ig_convs0, Hconvs.
    rewrite lookup_insert_ne by done. rewrite Hoth, ig_others0, Hms, Hts by done. done.
Qed.

Lemma import_chat_err now workspace_id account_id handle chat d d' e :
  import_chat from_str value_to_string sha256_hex from_utf8_lossy new_id now workspace_id account_id handle chat d = (d', Err e) ->
  im_chat d' = im_chat d /\ framed d d'.
Proof.
  unfold import_chat.
  intros H. unfold sbind at 1 in H. cbn in H. unfold sbind at 1, slift in H.
  destruct (pick_character _ _) as [character|]; cbn [ok_or] in H; [| by injection H as <- _].
  unfold sbind at 1 in H. destruct (fresh new_id d) as [d1 [cid|]] eqn:Hf; [| done]. apply fresh_inv in Hf as [Hc F].
  apply transaction_err in H as ->. done.
Qed.

Definition import_outcome (now workspace_id handle : string) (chat : LegacyChatFile) (d d' : ImportDB)
    (r : AppResult (string * Z)) : Prop :=
  match r with
  | Ok (c, n) => imported now workspace_id handle chat d d' c n
  | Err _ => im_chat d' = im_chat d /\ framed d d'
  end.

(** C29: importing a chat file is all or nothing.  When it fails, no table has changed.
    When it succeeds, there is one new conversation in the workspace whose active
    messages are, in order, exactly the lines of the file that are JSON - with their
    role, text, prompt text and source line -, whose revision is the number of its
    turns, and which is archived with the file's header and checksum; every other
    conversation is as it was, and the invariant of the chat engine still holds, so
    that a chat can go on where the file stopped. *)
Theorem imported_chat_is_faithful now workspace_id account_id handle chat d d' r :
  chat_ok (im_chat d) ->
  import_chat from_str value_to_string sha256_hex from_utf8_lossy new_id now workspace_id account_id handle chat d = (d', r) ->
  import_outcome now workspace_id handle chat d d' r.
Proof. intros Hok. destruct r as [[c n]|e]; [by apply import_chat_ok | apply import_chat_err]. Qed.
End Importer.

(** ** Out and back in *)

Section RoundTrip.
Context (from_str : string -> option Value) (value_to_string : Value -> string).
Context (sha256_hex : string -> string) (from_utf8_lossy : string -> string).
Context (new_id : nat -> string).

Lemma conversation_rows_ok c d : chat_ok (im_chat d) -> conversation_rows c d = of_conv c (messages (im_chat d)).
Proof.
  intros Hok. unfold conversation_rows. apply sort_by_id. eapply sorted_impl; [| apply (ok_seq _ Hok c)].
  intros x y. unfold seq_lt, sequence_le. intros Hlt. apply Z.leb_le. lia.
Qed.

Lemma export_lines_active integrity c title d :
  chat_ok (im_chat d) ->
  export_lines from_str value_to_string integrity c title d
  = value_to_string (export_header from_str integrity c title d)
      :: map (λ m, value_to_string (exported_value from_str m)) (active_rows c (im_chat d)).
Proof.
  intros Hok. unfold export_lines. rewrite conversation_rows_ok, active_rows_ok by done. done.
Qed.

Lemma line_messages_map ls : line_messages from_str ls = map legacy_message (omap from_str ls).
Proof.
  induction ls as [|l ls IH]; [done |]. unfold line_messages in *. cbn. destruct (from_str l); cbn; [by rewrite <- IH | done].
Qed.

(** What a message of a chat file becomes when it is exported again. *)
Definition restored (raw : Value) : Value :=
  let m := legacy_message raw in
  match raw with
  | JObject members =>
      JObject (StOps.assoc_set "is_system" (JBool (lm_role m =?= "system"))
        (StOps.assoc_set "is_user" (JBool (lm_role m =?= "user"))
          (StOps.assoc_set "mes" (JString (default (lm_original m) (lm_prompt m))) members)))
  | other => other
  end.

(** A value the JSON library writes as one line and reads back. *)
Definition written (v : Value) : Prop := from_str (value_to_string v) = Some v /\ is_line (value_to_string v).

Lemma exported_restored row raw :
  row_says row = line_says value_to_string (legacy_message raw) -> from_str (value_to_string raw) = Some raw ->
  exported_value from_str row = restored raw.
Proof.
  intros Hs Hp. injection Hs as Hr Ho Hpr Hraw. unfold exported_value, restored. rewrite Hraw, Hr, Ho, Hpr.
  cbn [lm_raw legacy_message default]. rewrite Hp. by destruct raw.
Qed.

(** Every message of a plain file has its text under [mes] and its role in two flags,
    and no text of its own for display. *)
Definition plain (raw : Value) : Prop :=
  exists members text user system, raw = JObject members
    /\ assoc_get "mes" members = Some (JString text)
    /\ assoc_get "is_user" members = Some (JBool user) /\ assoc_get "is_system" members = Some (JBool system)
    /\ user && system = false /\ lm_prompt (legacy_message raw) = None.

Lemma assoc_set_same {A} k (v : A) m : assoc_get k m = Some v -> StOps.assoc_set k v m = m.
Proof.
  induction m as [|[k' v'] m IH]; [done |]. simpl. case_bool_decide as Hk; [| intros ?; by rewrite IH].
  intros [= ->]. by subst.
Qed.

Lemma restored_plain raw : plain raw -> restored raw = raw.
Proof.
  intros (members & text & user & system & -> & Hm & Hu & Hs & Hus & Hp).
  unfold restored. rewrite Hp. cbn [legacy_message lm_role lm_original].
  unfold legacy_role, flag_of, get_bool, get_str, value_get. rewrite Hm, Hu, Hs. cbn.
  rewrite (assoc_set_same "mes") by done.
  rewrite (assoc_set_same "is_user"); [| by rewrite Hu; destruct user, system].
  by rewrite (assoc_set_same "is_system"); [| rewrite Hs; destruct user, system].
Qed.

(** No archive row without its conversation: the foreign key. *)
Definition archives_known (d : ImportDB) : Prop :=
  forall a, a ∈ im_archives d -> is_Some (conversations (im_chat d) !! ar_conversation_id a).

Lemma archive_of_new c d row l :
  archives_known d -> conversations (im_chat d) !! c = None -> ar_conversation_id row = c ->
  l = im_archives d ++ [row] ->
  head (sort_by (λ a b, text_le (ar_imported_at a) (ar_imported_at b)) (filter (λ a, ar_conversation_id a = c) l)) = Some row.
Proof.
  intros Hk Hn Hc ->. rewrite filter_app, (filter_none_kept _ (im_archives d)).
  - rewrite filter_cons_True, filter_nil by done. done.
  - intros a Ha <-. apply Hk in Ha. rewrite Hn in Ha. by destruct Ha.
Qed.

(** C30: a SillyTavern chat survives the trip: import a plain chat file, export the
    conversation, read the written file again - and the lines parse to the same
    header and the same messages in the same order.  (A message with a text of its
    own for display does not: the export writes that text as the message.) *)
Theorem plain_chat_round_trips now workspace_id account_id handle chat d d' c n integrity title raws :
  chat_ok (im_chat d) -> archives_known d ->
  import_chat from_str value_to_string sha256_hex from_utf8_lossy new_id now workspace_id account_id handle chat d
    = (d', Ok (c, n)) ->
  omap from_str (tail (lc_lines chat)) = raws -> Forall plain raws ->
  Forall written (chat_header from_str chat :: raws) ->
  map from_str (lines (unlines (export_lines from_str value_to_string integrity c title d')))
  = Some (chat_header from_str chat) :: map Some raws.
Proof.
  intros Hok Hk Himp Hraws Hplain Hwritten.
  apply import_chat_ok in Himp as [Hok' Hnew _ Hsay _ (aid & Harch) _]; [| done].
  apply Forall_cons in Hwritten as [[Hhp Hhl] Hw].
  assert (Hheader : export_header from_str integrity c title d' = chat_header from_str chat).
  { unfold export_header, archive_of. rewrite (archive_of_new c d _ _ Hk Hnew (eq_refl : ar_conversation_id (MkArchiveRow aid c _ _ _ _ _ _) = c) Harch).
    cbn [ar_raw_header_json]. by rewrite Hhp. }
  rewrite export_lines_active, Hheader by done.
  assert (Hlines : map (λ m, value_to_string (exported_value from_str m)) (active_rows c (im_chat d'))
                   = map value_to_string raws).
  { assert (Hm : line_messages from_str (tail (lc_lines chat)) = map legacy_message raws).
    { rewrite <- Hraws. apply line_messages_map. }
    rewrite Hm in Hsay. clear Hraws Hm. revert raws Hplain Hw Hsay.
    induction (active_rows c (im_chat d')) as [|row rows IH]; intros [|raw raws] Hplain Hw Hsay; try done.
    apply Forall_cons in Hplain as [Hp Hps], Hw as [[Hrp _] Hws]. cbn in Hsay.
    injection Hsay as Hs1 Hs2 Hs3 Hs4 Hrest. cbn [map]. f_equal; [| by apply IH].
    f_equal. rewrite (exported_restored row raw), restored_plain; [done | done | | done].
    unfold row_says, line_says. by rewrite Hs1, Hs2, Hs3, Hs4. }
  rewrite Hlines, lines_unlines; [| done |].
  - cbn [map]. rewrite Hhp. f_equal. rewrite map_map. clear Hraws Hsay Hlines Hplain.
    induction Hw as [|v l [Hv _] _ IH]; [done |]. cbn. by rewrite Hv, IH.
  - apply Forall_cons. split; [done |]. apply Forall_forall. intros l (v & <- & Hv)%list_elem_of_In%in_map_iff.
    apply list_elem_of_In in Hv. rewrite Forall_forall in Hw. by apply Hw.
Qed.
End RoundTrip.
