(* ===== verification/LegacyImport.v ===== *)
(** * Importing a legacy data directory ([import_source] of [src/modules/migration/mod.rs])

    For every handle of the source: its account and workspace, its user name, its
    character cards and its chats, each remembered under a key of its source so that
    the import can be run again.  The identity module, the character store and the
    settings of the models component do their part as they are modelled there.  At the
    end a directory on which the theorems of the importer are applied. *)

From stdpp Require Import pretty.
From S2P Require Import Prelude Text Errors StDomain ErrorMapper Engine BindCodes TelegramInbox StOps Identity CardPng Models Stateful Characters Chat ChatSteps Decoder Config Legacy Migration MigrationCorrect.
From Stdlib Require Import Lia.

Record ImportReport := MkImportReport {
  rp_characters : Z;
  rp_conversations : Z;
  rp_messages : Z;
  rp_bots : Z;
  rp_bindings : Z;
  rp_warnings : list string;
}.

Definition empty_report : ImportReport := MkImportReport 0 0 0 0 0 [].

Definition add_characters (n : Z) (r : ImportReport) : ImportReport :=
  MkImportReport (rp_characters r + n) (rp_conversations r) (rp_messages r) (rp_bots r) (rp_bindings r) (rp_warnings r).
Definition add_chats (conversations_ messages_ : Z) (r : ImportReport) : ImportReport :=
  MkImportReport (rp_characters r) (rp_conversations r + conversations_) (rp_messages r + messages_) (rp_bots r)
    (rp_bindings r) (rp_warnings r).
Definition warn (w : string) (r : ImportReport) : ImportReport :=
  MkImportReport (rp_characters r) (rp_conversations r) (rp_messages r) (rp_bots r) (rp_bindings r) (rp_warnings r ++ [w]).

Definition set_identity (i : IdentityDB) (d : ImportDB) : ImportDB :=
  MkImportDB i (im_chat d) (im_archives d) (im_sources d) (im_next d).
Definition set_chars (c : CharDB) (d : ChatDB) : ChatDB :=
  MkChatDB (cd_models d) c (cd_accounts d) (conversations d) (turns d) (messages d) (generation_runs d) (command_results d)
    (channel_rows d) (compression_runs d).

(** The accounts, workspaces and settings rows are tables of one database: what the
    identity module adds to them, the other components' copies of the keys follow. *)
Definition follow_identity (now : string) (d : ImportDB) : ImportDB :=
  let i := im_identity d in
  let c := im_chat d in
  let m := cd_models c in
  let ch := cd_chars c in
  let rows := (λ s, MkWsSettingsRow (se_prompt_user_name s) (se_default_prompt_profile s) None None now) <$> id_settings i in
  let m' := MkModelDB (workspace_settings_rows m ∪ rows) (provider_profiles m) (model_presets m)
              (model_workspaces m ∪ dom (id_workspaces i)) (model_secrets m) in
  let ch' := MkCharDB (characters ch) (character_revisions ch) (assets ch) (asset_files ch)
               (char_workspaces ch ∪ dom (id_workspaces i)) in
  set_chat (MkChatDB m' ch' (cd_accounts c ∪ dom (id_accounts i)) (conversations c) (turns c) (messages c)
              (generation_runs c) (command_results c) (channel_rows c) (compression_runs c)) d.

(** [existing_character_by_checksum]: the oldest revision with the checksum. *)
Definition existing_character_by_checksum (workspace_id checksum : string) (d : ImportDB) : option string :=
  let db := cd_chars (im_chat d) in
  rv_character_id <$> head (filter (λ r, rv_checksum r = checksum
    /\ Exists (λ c, ch_id c = rv_character_id r /\ ch_workspace_id c = workspace_id) (characters db)) (character_revisions db)).

(** [existing_chat_import]: the oldest archive row of the same file. *)
Definition existing_chat_import (handle path checksum : string) (d : ImportDB) : option string :=
  ar_conversation_id <$> head (sort_by (λ a b, text_le (ar_imported_at a) (ar_imported_at b))
    (filter (λ a, ar_source_handle a = handle /\ ar_source_path a = path /\ ar_source_checksum a = checksum) (im_archives d))).

Section Importer.
Context (crc32 : string -> Z) (base64_decode : string -> option string).
Context (from_slice : string -> result Value string) (to_vec : Value -> result string string).
Context (value_to_string : Value -> string) (sha256_hex : string -> string) (from_utf8_lossy : string -> string).
Context (argon2_hash : string -> string -> string) (new_id : nat -> string) (disk : bool).

(** [serde_json::from_str(..).ok()]. *)
Definition from_str (s : string) : option Value := value_of from_slice s.

Notation draw := (fresh new_id).

Definition ensure_account (now handle display_name : string) : Stm ImportDB (Account * string) :=
  run! salt := draw in run! id := draw in run! workspace_id := draw in run! password_id := draw in
  λ d, let '(i, r) := ensure_legacy_account argon2_hash now salt id workspace_id password_id handle display_name (im_identity d) in
       (follow_identity now (set_identity i d), r).

Definition put_user_name (now workspace_id name : string) : Stm ImportDB unit :=
  λ d, match update_prompt_user_name now workspace_id name (cd_models (im_chat d)) with
       | Ok m => (set_chat (set_models m (im_chat d)) d, Ok tt)
       | Err e => (d, Err e)
       end.

Definition on_chars {A} (m : Stm CharDB A) : Stm ImportDB A := on_chat (on cd_chars set_chars m).

Definition owner_of (account : Account) (workspace_id : string) : Actor :=
  {| act_account := account; act_workspace_id := Some workspace_id; act_workspace_role := Some RoleOwner |}.

Definition import_character (actor : Actor) (workspace_id handle : string) (character : LegacyCharacterFile)
    (report : ImportReport) : Stm ImportDB ImportReport :=
  let source_key := character_source_key sha256_hex handle character in
  run! known := sget (source_target "st_character" source_key) in
  match known with
  | Some _ => sret report
  | None =>
      run! existing := sget (existing_character_by_checksum workspace_id (sha256_hex (lf_bytes character))) in
      match existing with
      | Some id => run! _ := sput (record_source_target "st_character" source_key id) in sret report
      | None =>
          run! asset := draw in run! id := draw in run! revision := draw in
          run! imported := on_chars (import_bytes crc32 base64_decode from_slice to_vec sha256_hex
            (MkImportIds asset id revision) disk actor
            (default "character.png" (file_name (lf_path character))) (lf_bytes character)) in
          run! _ := sput (record_source_target "st_character" source_key (ch_id imported)) in
          sret (add_characters 1 report)
      end
  end.

(** A chat that cannot be imported is a warning, not a failure. *)
Definition import_chat_file (now workspace_id account_id handle : string) (chat : LegacyChatFile)
    (report : ImportReport) : Stm ImportDB ImportReport :=
  let source_key := chat_source_key sha256_hex handle chat in
  run! known := sget (source_target "st_chat" source_key) in
  match known with
  | Some _ => sret report
  | None =>
      run! existing := sget (existing_chat_import handle (from_utf8_lossy (lc_path chat)) (chat_checksum sha256_hex chat)) in
      match existing with
      | Some id => run! _ := sput (record_source_target "st_chat" source_key id) in sret report
      | None =>
          λ d,
            match import_chat from_str value_to_string sha256_hex from_utf8_lossy new_id now workspace_id account_id handle chat d with
            | (d, Ok (conversation_id, count)) =>
                (record_source_target "st_chat" source_key conversation_id d, Ok (add_chats 1 count report))
            | (d, Err err) => (d, Ok (warn (from_utf8_lossy (lc_path chat) +:+ ": " +:+ a_message err) report))
            end
      end
  end.

Fixpoint for_each {A} (f : A -> ImportReport -> Stm ImportDB ImportReport) (l : list A) (report : ImportReport)
    : Stm ImportDB ImportReport :=
  match l with
  | [] => sret report
  | a :: l => run! report := f a report in for_each f l report
  end.

(** [lines.len().saturating_sub(1)]. *)
Definition dry_report (characters_ : list LegacyCharacterFile) (chats : list LegacyChatFile) (report : ImportReport) : ImportReport :=
  add_characters (Z.of_nat (length characters_))
    (add_chats (Z.of_nat (length chats)) (foldr Z.add 0%Z (map (λ c, Z.of_nat (length (lc_lines c) - 1)) chats)) report).

Definition import_handle (now : string) (source : LegacySource) (dry_run : bool) (handle : string) (report : ImportReport)
    : Stm ImportDB ImportReport :=
  run! characters_ := slift (src_characters source handle) in
  run! chats := slift (src_chats source handle) in
  if dry_run then sret (dry_report characters_ chats report) else
  run! place := ensure_account now handle handle in
  let '(account, workspace_id) := place in
  run! settings := slift (src_settings source handle) in
  run! _ := match settings with Some s => put_user_name now workspace_id (ls_username s) | None => sret tt end in
  let actor := owner_of account workspace_id in
  run! report := for_each (import_character actor workspace_id handle) characters_ report in
  for_each (import_chat_file now workspace_id (acc_id account) handle) chats report.

Definition import_source (now : string) (source : LegacySource) (dry_run : bool) : Stm ImportDB ImportReport :=
  run! handles := slift (src_handles source) in
  for_each (import_handle now source dry_run) handles empty_report.
End Importer.

(** ** Running the import again *)

(** Calls that leave the keys of imported sources alone. *)
Definition keeps_sources {A} (m : Stm ImportDB A) : Prop := forall d, im_sources (m d).1 = im_sources d.

Create HintDb keeps.

Section Keeps.
Lemma keeps_sret {A} (a : A) : keeps_sources (sret a).
Proof. done. Qed.
Lemma keeps_slift {A} (r : AppResult A) : keeps_sources (slift r).
Proof. done. Qed.
Lemma keeps_sget {A} (f : ImportDB -> A) : keeps_sources (sget f).
Proof. done. Qed.
Lemma keeps_fresh new_id : keeps_sources (fresh new_id).
Proof. done. Qed.
Lemma keeps_on_chat {A} (m : Stm ChatDB A) : keeps_sources (on_chat m).
Proof. intros d. unfold on_chat, on. by destruct (m (im_chat d)). Qed.
Lemma keeps_archive row : keeps_sources (statement (insert_archive row)).
Proof. intros d. unfold statement, insert_archive. by destruct (_ || _). Qed.
Lemma keeps_sbind {A B} (m : Stm ImportDB A) (k : A -> Stm ImportDB B) :
  keeps_sources m -> (forall a, keeps_sources (k a)) -> keeps_sources (sbind m k).
Proof. intros Hm Hk d. unfold sbind. specialize (Hm d). destruct (m d) as [d1 [a|e]]; simpl in *; [by rewrite (Hk a d1) | done]. Qed.
Lemma keeps_transaction {A} (m : Stm ImportDB A) : keeps_sources m -> keeps_sources (transaction m).
Proof. intros Hm d. unfold transaction. specialize (Hm d). by destruct (m d) as [d1 [a|e]]. Qed.
End Keeps.

#[export] Hint Resolve keeps_sret keeps_slift keeps_sget keeps_fresh keeps_on_chat keeps_archive keeps_sbind keeps_transaction : keeps.

Section Again.
Context (crc32 : string -> Z) (base64_decode : string -> option string).
Context (from_slice : string -> result Value string) (to_vec : Value -> result string string).
Context (value_to_string : Value -> string) (sha256_hex : string -> string) (from_utf8_lossy : string -> string).
Context (argon2_hash : string -> string -> string) (new_id : nat -> string) (disk : bool).

Notation one_character := (import_character crc32 base64_decode from_slice to_vec sha256_hex new_id disk).
Notation one_chat := (import_chat_file from_slice value_to_string sha256_hex from_utf8_lossy new_id).
Notation one_handle := (import_handle crc32 base64_decode from_slice to_vec value_to_string sha256_hex from_utf8_lossy
                          argon2_hash new_id disk).

Lemma keeps_new_turn c account ordinal : keeps_sources (new_turn new_id c account ordinal).
Proof. unfold new_turn. auto with keeps. Qed.
#[local] Hint Resolve keeps_new_turn : keeps.

Lemma keeps_turn_of c account role p : keeps_sources (turn_of new_id c account role p).
Proof. unfold turn_of. repeat case_match; auto with keeps. Qed.
#[local] Hint Resolve keeps_turn_of : keeps.

Lemma keeps_import_message c account p m : keeps_sources (import_message value_to_string new_id c account p m).
Proof.
  unfold import_message. apply keeps_sbind; [apply keeps_turn_of |]. intros [[turn ordinal] current].
  repeat (apply keeps_sbind; [| intros]); auto with keeps. repeat case_match; auto with keeps.
Qed.
#[local] Hint Resolve keeps_import_message : keeps.

Lemma keeps_import_lines c account p ls :
  keeps_sources (import_lines (from_str from_slice) value_to_string new_id c account p ls).
Proof. revert p. induction ls as [|l ls IH]; intros p; cbn [import_lines]; [| case_match]; auto with keeps. Qed.
#[local] Hint Resolve keeps_import_lines : keeps.

Lemma keeps_import_chat now w account handle chat :
  keeps_sources (import_chat (from_str from_slice) value_to_string sha256_hex from_utf8_lossy new_id now w account handle chat).
Proof. unfold import_chat. auto 20 with keeps. Qed.

(** A key that is recorded stays recorded. *)
Definition recorded (kind key : string) (d : ImportDB) : Prop := is_Some (im_sources d !! (kind, key)).
Definition grows (d d' : ImportDB) : Prop := forall k, is_Some (im_sources d !! k) -> is_Some (im_sources d' !! k).

Lemma record_recorded kind key target d : recorded kind key (record_source_target kind key target d).
Proof.
  unfold recorded, record_source_target. destruct (im_sources d !! (kind, key)) eqn:E; [by rewrite E; eauto |].
  simpl. rewrite lookup_insert_eq. eauto.
Qed.

Lemma record_grows kind key target d : grows d (record_source_target kind key target d).
Proof.
  unfold grows, record_source_target. destruct (im_sources d !! (kind, key)) eqn:E; [done |]. simpl. intros k Hk.
  destruct (decide (k = (kind, key))) as [->|Hne]; [rewrite lookup_insert_eq; eauto | by rewrite lookup_insert_ne].
Qed.

Lemma keeps_grows {A} (m : Stm ImportDB A) d d' r : keeps_sources m -> m d = (d', r) -> grows d d'.
Proof. intros Hm Hr k. specialize (Hm d). rewrite Hr in Hm. simpl in Hm. by rewrite Hm. Qed.

Lemma import_character_records actor w handle character report d d' report' :
  one_character actor w handle character report d = (d', Ok report') ->
  recorded "st_character" (character_source_key sha256_hex handle character) d' /\ grows d d'
  /\ rp_warnings report' = rp_warnings report.
Proof.
  unfold import_character. intros H. run_inv H known d0 H0. injection H0 as <- <-.
  unfold source_target in H. destruct (im_sources d !! _) eqn:E.
  { injection H as <- <-. unfold recorded. rewrite E. split_and!; [eauto | by intros k | done]. }
  run_inv H existing d1 H1. injection H1 as <- <-. destruct (existing_character_by_checksum _ _ _) as [id|].
  { run_inv H u d2 H2. injection H2 as <- _. injection H as <- <-. split_and!; [apply record_recorded | apply record_grows | done]. }
  run_inv H asset d1 H1. run_inv H cid d2 H2. run_inv H revision d3 H3. run_inv H row d4 H4.
  run_inv H u d5 H5. injection H5 as <- _. injection H as <- <-.
  apply (keeps_grows _ _ _ _ (keeps_fresh new_id)) in H1, H2, H3.
  assert (grows d3 d4) as H4' by (eapply keeps_grows, H4; apply keeps_on_chat).
  split_and!; [apply record_recorded | | done]. intros k Hk. apply record_grows. auto.
Qed.

Lemma import_chat_file_records now w account handle chat report d d' report' :
  one_chat now w account handle chat report d = (d', Ok report') ->
  grows d d' /\ exists more, rp_warnings report' = rp_warnings report ++ more
    /\ (more = [] -> recorded "st_chat" (chat_source_key sha256_hex handle chat) d').
Proof.
  unfold import_chat_file. intros H. run_inv H known d0 H0. injection H0 as <- <-.
  unfold source_target in H. destruct (im_sources d !! _) eqn:E.
  { injection H as <- <-. split; [by intros k |]. exists []. rewrite app_nil_r. unfold recorded. rewrite E. eauto. }
  run_inv H existing d1 H1. injection H1 as <- <-. destruct (existing_chat_import _ _ _ _) as [id|].
  { run_inv H u d2 H2. injection H2 as <- _. injection H as <- <-. split; [apply record_grows |].
    exists []. rewrite app_nil_r. split; [done | intros _; apply record_recorded]. }
  destruct (import_chat _ _ _ _ _ _ _ _ _ _ d) as [d1 [[c n]|e]] eqn:Hc;
    apply (keeps_grows _ _ _ _ (keeps_import_chat now w account handle chat)) in Hc; injection H as <- <-.
  - split; [intros k Hk; apply record_grows; auto |]. exists []. rewrite app_nil_r. split; [done | intros _; apply record_recorded].
  - split; [done |]. eexists. split; [done |]. by intros [=].
Qed.

(** What an import is to have recorded of a list of files. *)
Definition characters_recorded (handle : string) (l : list LegacyCharacterFile) (d : ImportDB) : Prop :=
  Forall (λ c, recorded "st_character" (character_source_key sha256_hex handle c) d) l.
Definition chats_recorded (handle : string) (l : list LegacyChatFile) (d : ImportDB) : Prop :=
  Forall (λ c, recorded "st_chat" (chat_source_key sha256_hex handle c) d) l.

(** A loop whose steps extend the warnings, and establish a lasting fact about their
    item unless they do. *)
Lemma for_each_records {A} (f : A -> ImportReport -> Stm ImportDB ImportReport) (P : A -> ImportDB -> Prop) l :
  (forall a d d', grows d d' -> P a d -> P a d') ->
  (forall a report d d' report', f a report d = (d', Ok report') ->
     grows d d' /\ exists more, rp_warnings report' = rp_warnings report ++ more /\ (more = [] -> P a d')) ->
  forall report d d' report', for_each f l report d = (d', Ok report') ->
  grows d d' /\ exists more, rp_warnings report' = rp_warnings report ++ more /\ (more = [] -> Forall (λ a, P a d') l).
Proof.
  intros HP Hf. induction l as [|a l IH]; intros report d d' report'; cbn [for_each].
  - intros [= <- <-]. split; [by intros k |]. exists []. by rewrite app_nil_r.
  - intros H. run_inv H report1 d1 H1. apply Hf in H1 as (G1 & more1 & W1 & R1).
    apply IH in H as (G2 & more2 & W2 & R2). split; [intros k Hk; auto |]. exists (more1 ++ more2).
    rewrite W2, W1, app_assoc. split; [done |]. intros [-> ->]%app_nil. constructor; eauto.
Qed.

(** The rows an import can add. *)
Definition same_content (d d' : ImportDB) : Prop :=
  conversations (im_chat d') = conversations (im_chat d) /\ turns (im_chat d') = turns (im_chat d)
  /\ messages (im_chat d') = messages (im_chat d) /\ characters (cd_chars (im_chat d')) = characters (cd_chars (im_chat d))
  /\ character_revisions (cd_chars (im_chat d')) = character_revisions (cd_chars (im_chat d))
  /\ im_archives d' = im_archives d /\ im_sources d' = im_sources d.

Lemma same_content_trans d1 d2 d3 : same_content d1 d2 -> same_content d2 d3 -> same_content d1 d3.
Proof. unfold same_content. naive_solver congruence. Qed.

Lemma same_content_refl d : same_content d d.
Proof. done. Qed.

Lemma ensure_account_same now handle name d d' r :
  ensure_account argon2_hash new_id now handle name d = (d', r) -> same_content d d'.
Proof.
  unfold ensure_account, sbind, fresh. cbn. destruct (ensure_legacy_account _ _ _ _ _ _ _ _ _) as [i r'].
  by intros [= <- _].
Qed.

Lemma put_user_name_same now w name d d' r : put_user_name now w name d = (d', r) -> same_content d d'.
Proof. unfold put_user_name. destruct (update_prompt_user_name _ _ _ _); by intros [= <- _]. Qed.

Lemma known_character actor w handle character report d :
  recorded "st_character" (character_source_key sha256_hex handle character) d ->
  one_character actor w handle character report d = (d, Ok report).
Proof. intros [t Ht]. unfold import_character, sbind, sget, source_target. by rewrite Ht. Qed.

Lemma known_chat now w account handle chat report d :
  recorded "st_chat" (chat_source_key sha256_hex handle chat) d ->
  one_chat now w account handle chat report d = (d, Ok report).
Proof. intros [t Ht]. unfold import_chat_file, sbind, sget, source_target. by rewrite Ht. Qed.

Lemma for_each_known {A} (f : A -> ImportReport -> Stm ImportDB ImportReport) l d :
  (forall a report, a ∈ l -> f a report d = (d, Ok report)) -> forall report, for_each f l report d = (d, Ok report).
Proof.
  intros Hf report. induction l as [|a l IH]; [done |]. cbn [for_each]. unfold sbind. rewrite Hf by left.
  apply IH. intros b report' Hb. apply Hf. by right.
Qed.

(** Everything the source lists under a handle is recorded. *)
Definition handle_recorded (source : LegacySource) (handle : string) (d : ImportDB) : Prop :=
  forall cs chats, src_characters source handle = Ok cs -> src_chats source handle = Ok chats ->
  characters_recorded handle cs d /\ chats_recorded handle chats d.

Lemma import_handle_records now source handle report d d' report' :
  one_handle now source false handle report d = (d', Ok report') ->
  grows d d' /\ exists more, rp_warnings report' = rp_warnings report ++ more
    /\ (more = [] -> handle_recorded source handle d').
Proof.
  unfold import_handle. intros H. run_inv H cs d0 H0. injection H0 as <- Hcs. run_inv H chats d0 H0. injection H0 as <- Hchats.
  run_inv H place d1 H1. destruct place as [account w]. apply ensure_account_same in H1 as S1.
  run_inv H settings d2 H2. injection H2 as <- _.
  run_inv H u d3 H3. assert (same_content d1 d3) as S3.
  { destruct settings; [by apply put_user_name_same in H3 | by injection H3 as <- _]. }
  assert (G3 : grows d d3).
  { intros k. assert (im_sources d3 = im_sources d) as ->; [| done]. destruct S1 as (_ & _ & _ & _ & _ & _ & <-).
    by destruct S3 as (_ & _ & _ & _ & _ & _ & <-). }
  run_inv H report1 d4 H4.
  apply (for_each_records _ (λ c, recorded "st_character" (character_source_key sha256_hex handle c))) in H4 as (G4 & more1 & W1 & R1).
  2: { intros c e e' Hg. apply Hg. }
  2: { intros c rep e e' rep' (Hr & Hg & Hw)%import_character_records. split; [done |]. exists []. by rewrite app_nil_r. }
  apply (for_each_records _ (λ c, recorded "st_chat" (chat_source_key sha256_hex handle c))) in H as (G5 & more2 & W2 & R2).
  2: { intros c e e' Hg. apply Hg. }
  2: { intros c rep e e' rep'. apply import_chat_file_records. }
  split; [intros k Hk; auto |]. exists (more1 ++ more2). rewrite W2, W1, app_assoc. split; [done |].
  intros [-> ->]%app_nil. intros cs' chats'. rewrite Hcs, Hchats. intros [= <-] [= <-].
  split; [| by apply R2]. eapply Forall_impl; [by apply R1 |]. intros c. apply G5.
Qed.

Lemma import_handle_again now source handle report d d' r :
  handle_recorded source handle d -> one_handle now source false handle report d = (d', r) ->
  same_content d d' /\ (forall report', r = Ok report' -> report' = report).
Proof.
  intros Hrec. unfold import_handle, sbind, slift. cbv beta.
  destruct (src_characters source handle) as [cs|] eqn:Hcs; [| by intros [= <- <-]].
  destruct (src_chats source handle) as [chats|] eqn:Hchats; [| by intros [= <- <-]].
  destruct (ensure_account _ _ now handle handle d) as [d1 [[account w]|]] eqn:H1; apply ensure_account_same in H1 as S1;
    [| by intros [= <- <-]].
  destruct (src_settings source handle) as [settings|]; [| by intros [= <- <-]].
  destruct (match settings with Some s => put_user_name now w (ls_username s) | None => sret tt end d1) as [d3 [u|]] eqn:H3;
    assert (same_content d1 d3) as S3
      by (destruct settings; [by apply put_user_name_same in H3 | by injection H3 as <- _]);
    pose proof (same_content_trans _ _ _ S1 S3) as S; [| by intros [= <- <-]].
  destruct (Hrec cs chats Hcs Hchats) as [Rc Rh].
  assert (Hsrc : im_sources d3 = im_sources d) by apply S.
  rewrite for_each_known.
  2: { intros c rep Hc. apply known_character. unfold recorded. rewrite Hsrc. by apply (Forall_forall _ cs) with (x := c) in Rc. }
  rewrite for_each_known; [by intros [= <- <-]; split; [| intros ? [= <-]] |].
  intros c rep Hc. apply known_chat. unfold recorded. rewrite Hsrc. by apply (Forall_forall _ chats) with (x := c) in Rh.
Qed.

Notation whole_source := (import_source crc32 base64_decode from_slice to_vec value_to_string sha256_hex from_utf8_lossy
                            argon2_hash new_id disk).

Lemma handle_recorded_grows source handle d d' : grows d d' -> handle_recorded source handle d -> handle_recorded source handle d'.
Proof.
  intros Hg Hr cs chats Hcs Hchats. destruct (Hr cs chats Hcs Hchats) as [H1 H2].
  split; (eapply Forall_impl; [done |]); intros c; apply Hg.
Qed.

(** C31: an import that went through can be repeated: after a run without warnings, a
    second run over the same source - whenever it happens, and however it ends - adds
    no character, no revision, no conversation, no turn and no message, changes none,
    and reports nothing imported. *)
Theorem reimport_adds_nothing now now' source d d1 report d2 r :
  whole_source now source false d = (d1, Ok report) -> rp_warnings report = [] ->
  whole_source now' source false d1 = (d2, r) ->
  same_content d1 d2 /\ (forall report', r = Ok report' -> report' = empty_report).
Proof.
  unfold import_source. intros H Hw. run_inv H handles d0 H0. injection H0 as <- Hh.
  apply (for_each_records _ (λ h, handle_recorded source h)) in H as (_ & more & Hmore & Hrec).
  2: { intros h e e'. apply handle_recorded_grows. }
  2: { intros h rep e e' rep'. apply import_handle_records. }
  rewrite Hw in Hmore. symmetry in Hmore. apply app_nil in Hmore as [_ ->]. specialize (Hrec eq_refl).
  unfold sbind, slift. rewrite Hh. clear Hh Hw. generalize empty_report as rep. revert d1 Hrec.
  induction handles as [|h handles IH]; intros d1 Hrec rep; cbn [for_each].
  { intros [= <- <-]. split; [done | by intros ? [= <-]]. }
  apply Forall_cons in Hrec as [Hh Hrec]. unfold sbind.
  destruct (one_handle now' source false h rep d1) as [d3 r3] eqn:E. apply (import_handle_again _ _ _ _ _ _ _ Hh) in E as [S Hr3].
  destruct r3 as [rep3|e]; [| by intros [= <- <-]]. rewrite (Hr3 rep3 eq_refl). intros Hrest.
  apply IH in Hrest as [S2 Hrep]; [split; [by eapply same_content_trans | done] |].
  eapply Forall_impl; [done |]. intros x. apply handle_recorded_grows. intros k. by destruct S as (_ & _ & _ & _ & _ & _ & ->).
Qed.

(** The chat tables after an import: the engine's invariant holds, and no conversation
    that was there has changed. *)
Definition untouched (c : string) (d d' : ChatDB) : Prop :=
  conversations d' !! c = conversations d !! c /\ of_conv c (messages d') = of_conv c (messages d)
  /\ of_conv_turns c (turns d') = of_conv_turns c (turns d).
Definition extends (d d' : ImportDB) : Prop :=
  chat_ok (im_chat d) -> chat_ok (im_chat d')
  /\ forall c, is_Some (conversations (im_chat d) !! c) -> untouched c (im_chat d) (im_chat d').
Definition keeps_chats {A} (m : Stm ImportDB A) : Prop := forall d, extends d (m d).1.

Lemma same_rows_extends d d' :
  conversations (im_chat d') = conversations (im_chat d) -> turns (im_chat d') = turns (im_chat d) ->
  messages (im_chat d') = messages (im_chat d) -> extends d d'.
Proof.
  intros Hc Ht Hm Hok. split; [| intros c _; unfold untouched; by rewrite Hc, Ht, Hm].
  apply (same_rows_ok (im_chat d)); try done; rewrite Hc; [apply (ok_key _ Hok) | done].
Qed.

Lemma extends_trans d1 d2 d3 : extends d1 d2 -> extends d2 d3 -> extends d1 d3.
Proof.
  intros H12 H23 Hok. destruct (H12 Hok) as [Hok2 U2]. destruct (H23 Hok2) as [Hok3 U3]. split; [done |].
  intros c Hc. destruct (U2 c Hc) as (E1 & E2 & E3). rewrite <- E1 in Hc. destruct (U3 c Hc) as (F1 & F2 & F3).
  unfold untouched. by rewrite F1, F2, F3.
Qed.

Lemma chats_sbind {A B} (m : Stm ImportDB A) (k : A -> Stm ImportDB B) :
  keeps_chats m -> (forall a, keeps_chats (k a)) -> keeps_chats (sbind m k).
Proof.
  intros Hm Hk d. unfold sbind. specialize (Hm d). destruct (m d) as [d1 [a|e]]; simpl in *; [| done].
  eapply extends_trans; [done | apply Hk].
Qed.

Lemma chats_same {A} (m : Stm ImportDB A) :
  (forall d, conversations (im_chat (m d).1) = conversations (im_chat d) /\ turns (im_chat (m d).1) = turns (im_chat d)
             /\ messages (im_chat (m d).1) = messages (im_chat d)) -> keeps_chats m.
Proof. intros Hm d. destruct (Hm d) as (H1 & H2 & H3). by apply same_rows_extends. Qed.

Lemma chats_plain {A} (m : Stm ImportDB A) : (forall d, im_chat (m d).1 = im_chat d) -> keeps_chats m.
Proof. intros Hm. apply chats_same. intros d. by rewrite Hm. Qed.

Lemma chats_record kind key target : keeps_chats (sput (record_source_target kind key target)).
Proof. apply chats_plain. intros d. unfold sput, record_source_target. simpl. by destruct (_ !! _). Qed.

Lemma chats_on_chars {A} (m : Stm CharDB A) : keeps_chats (on_chars m).
Proof. apply chats_same. intros d. unfold on_chars, on_chat, on. by destruct (m (cd_chars (im_chat d))). Qed.

Lemma chats_ensure now handle name : keeps_chats (ensure_account argon2_hash new_id now handle name).
Proof.
  apply chats_same. intros d. destruct (ensure_account _ _ now handle name d) as [d' r] eqn:E.
  apply ensure_account_same in E as (H1 & H2 & H3 & _). done.
Qed.

Lemma chats_user_name now w name : keeps_chats (put_user_name now w name).
Proof.
  apply chats_same. intros d. destruct (put_user_name now w name d) as [d' r] eqn:E.
  apply put_user_name_same in E as (H1 & H2 & H3 & _). done.
Qed.

Lemma chats_character actor w handle character report : keeps_chats (one_character actor w handle character report).
Proof.
  unfold import_character. apply chats_sbind; [by apply chats_plain |]. intros [t|]; [by apply chats_plain |].
  apply chats_sbind; [by apply chats_plain |]. intros [id|].
  - apply chats_sbind; [apply chats_record | intros; by apply chats_plain].
  - do 3 (apply chats_sbind; [by apply chats_plain | intros]).
    apply chats_sbind; [apply chats_on_chars | intros].
    apply chats_sbind; [apply chats_record | intros; by apply chats_plain].
Qed.

Lemma chats_chat now w account handle chat report : keeps_chats (one_chat now w account handle chat report).
Proof.
  unfold import_chat_file. apply chats_sbind; [by apply chats_plain |]. intros [t|]; [by apply chats_plain |].
  apply chats_sbind; [by apply chats_plain |]. intros [id|].
  { apply chats_sbind; [apply chats_record | intros; by apply chats_plain]. }
  intros d. destruct (import_chat _ _ _ _ _ _ _ _ _ _ d) as [d1 [[c n]|e]] eqn:E; cbn [fst].
  - assert (extends d d1) as H1.
    { intros Hok. apply import_chat_ok in E as [Hok' Hnew _ _ _ _ Hoth]; [| done]. split; [done |].
      intros c' Hc'. apply Hoth. intros ->. rewrite Hnew in Hc'. by destruct Hc'. }
    eapply extends_trans; [exact H1 |].
    apply (chats_record "st_chat" (chat_source_key sha256_hex handle chat) c d1).
  - apply import_chat_err in E as [Hc _]. by apply same_rows_extends; rewrite Hc.
Qed.

Lemma chats_for_each {A} (f : A -> ImportReport -> Stm ImportDB ImportReport) l :
  (forall a report, keeps_chats (f a report)) -> forall report, keeps_chats (for_each f l report).
Proof.
  intros Hf. induction l as [|a l IH]; intros report; cbn [for_each]; [by apply chats_plain |]. by apply chats_sbind.
Qed.

Lemma chats_handle now source dry handle report : keeps_chats (one_handle now source dry handle report).
Proof.
  unfold import_handle. do 2 (apply chats_sbind; [by apply chats_plain | intros]). destruct dry; [by apply chats_plain |].
  apply chats_sbind; [apply chats_ensure |]. intros [account w].
  apply chats_sbind; [by apply chats_plain |]. intros settings.
  apply chats_sbind; [destruct settings; [apply chats_user_name | by apply chats_plain] | intros].
  apply chats_sbind; [apply chats_for_each; intros; apply chats_character | intros].
  apply chats_for_each. intros. apply chats_chat.
Qed.

(** Importing never damages what is there: after importing any source, complete or
    broken off by any error, the invariant of the chat engine holds and every
    conversation that existed has its row, its messages and its turns as before; a dry
    run changes nothing at all. *)
Theorem import_preserves_chats now source dry_run d d' r :
  chat_ok (im_chat d) -> whole_source now source dry_run d = (d', r) ->
  chat_ok (im_chat d')
  /\ (forall c, is_Some (conversations (im_chat d) !! c) -> untouched c (im_chat d) (im_chat d'))
  /\ (dry_run = true -> d' = d).
Proof.
  intros Hok H. assert (Hext : extends d d').
  { change d' with (d', r).1. rewrite <- H. unfold import_source. apply chats_sbind; [by apply chats_plain | intros].
    apply chats_for_each. intros. apply chats_handle. }
  destruct (Hext Hok) as [Hok' Hu]. split_and!; [done | done |]. intros ->. revert H. unfold import_source, sbind at 1, slift.
  destruct (src_handles source) as [handles|]; [| by intros [= <- _]]. cbn. generalize empty_report as report.
  clear Hext Hok' Hu Hok. induction handles as [|h handles IH]; intros report; cbn [for_each]; [by intros [= <- _] |].
  unfold sbind at 1, import_handle at 1, sbind, slift. destruct (src_characters source h); [| by intros [= <- _]].
  destruct (src_chats source h); [| by intros [= <- _]]. apply IH.
Qed.
End Again.

(** ** A legacy directory, imported

    A SillyTavern data directory with one handle, a card, a chat and settings, and the
    runs that apply the theorems of the importer to it. *)

Definition old_header : Value := JObject [("character_name", JString "Ann"); ("chat_metadata", JObject [])].
Definition old_message (user : bool) (text : string) : Value :=
  JObject [("name", JString "x"); ("is_user", JBool user); ("mes", JString text); ("is_system", JBool false)].
Definition old_card : Value := JObject [("name", JString "Ann"); ("description", JString "a reader")].

(** Five texts and the values they stand for. *)
Definition old_texts : list (string * Value) :=
  [("H", old_header); ("U", old_message true "hi"); ("A", old_message false "hello"); ("card", old_card);
   ("settings", JObject [("username", JString "Zoe")])].

Definition old_from_slice (s : string) : result Value string :=
  match assoc_get s old_texts with Some v => Ok v | None => Err "no json" end.

Definition value_key (v : Value) : string :=
  match v with
  | JObject [("character_name", JString _); ("chat_metadata", JObject [])] => "H"
  | JObject [("name", _); ("is_user", JBool true); _; _] => "U"
  | JObject [("name", _); ("is_user", JBool false); _; _] => "A"
  | _ => "{}"
  end.

Definition old_new_id (n : nat) : string := "id" +:+ pretty n.

(** The lines of the chat; the fourth is no JSON. *)
Definition old_chat_text : string := unlines ["H"; "U"; "A"; "oops"].

Definition old_root : FsNode :=
  Dir [("zoe", Dir [("characters", Dir [("Ann.json", File "card"); ("notes.txt", Unreadable)]);
                    ("chats", Dir [("Ann", Dir [("x.jsonl", File old_chat_text)])]);
                    ("settings.json", File "settings")]);
       ("readme.md", File "hello")].

Definition old_source : LegacySource :=
  FilesystemLegacySource (from_str old_from_slice) (λ s, s) "data" old_root.

Definition old_chat : LegacyChatFile :=
  {| lc_handle := "zoe"; lc_character_dir := "Ann"; lc_path := "data/zoe/chats/Ann/x.jsonl"; lc_lines := ["H"; "U"; "A"; "oops"] |}.

Example old_chat_is_found : src_chats old_source "zoe" = Ok [old_chat].
Proof. vm_compute. reflexivity. Qed.

(** A workspace with one character. *)
Definition one_character_db : ImportDB :=
  MkImportDB identity_init
    (MkChatDB (fresh_models {["w1"]} ∅) (MkCharDB [MkCharacterRow "c1" "w1" "Ann" (Some "r1") false] [] [] ∅ {["w1"]}) {["acc"]}
       ∅ [] [] [] [] ∅ []) [] ∅ 0.

Definition run_chat : ImportDB * AppResult (string * Z) :=
  import_chat (from_str old_from_slice) value_key (λ s, s) (λ s, s) old_new_id "t0" "w1" "acc" "zoe" old_chat one_character_db.

Lemma empty_chat_ok m c a g r x k : chat_ok (MkChatDB m c a ∅ [] [] g r x k).
Proof. split; simpl; intros *; try constructor; try (by rewrite lookup_empty); by rewrite ?elem_of_nil. Qed.

Lemma imported_chat_witness :
  import_outcome (from_str old_from_slice) value_key (λ s, s) (λ s, s) "t0" "w1" "zoe" old_chat one_character_db run_chat.1 run_chat.2
  /\ run_chat.2 = Ok ("id0", 2%Z).
Proof.
  split; [| vm_compute; reflexivity].
  refine (imported_chat_is_faithful (from_str old_from_slice) value_key (λ s, s) (λ s, s) old_new_id "t0" "w1" "acc" "zoe" old_chat
    one_character_db run_chat.1 run_chat.2 (empty_chat_ok _ _ _ _ _ _ _) _).
  vm_compute. reflexivity.
Defined.

Lemma plain_chat_witness :
  map (from_str old_from_slice)
    (lines (unlines (export_lines (from_str old_from_slice) value_key "i" "id0" "Ann" run_chat.1)))
  = Some old_header :: map Some [old_message true "hi"; old_message false "hello"].
Proof.
  refine (plain_chat_round_trips (from_str old_from_slice) value_key (λ s, s) (λ s, s) old_new_id "t0" "w1" "acc" "zoe" old_chat
    one_character_db run_chat.1 "id0" 2%Z "i" "Ann" [old_message true "hi"; old_message false "hello"]
    (empty_chat_ok _ _ _ _ _ _ _) _ _ _ _ _).
  - intros a Ha. by apply elem_of_nil in Ha.
  - vm_compute. reflexivity.
  - vm_compute. reflexivity.
  - repeat (apply Forall_cons; split); [| | apply Forall_nil; exact I];
      (eexists _, _, _, _; split; [reflexivity |]; split_and!; reflexivity).
  - repeat (apply Forall_cons; split); [| | | apply Forall_nil; exact I];
      (split; [vm_compute; reflexivity | split; vm_compute; reflexivity]).
Defined.

(** The whole directory into an empty database, twice. *)
Definition empty_db : ImportDB :=
  MkImportDB identity_init (MkChatDB (fresh_models ∅ ∅) (MkCharDB [] [] [] ∅ ∅) ∅ ∅ [] [] [] [] ∅ []) [] ∅ 0.

Definition run_source (d : ImportDB) : ImportDB * AppResult ImportReport :=
  import_source (λ _, 0%Z) (λ _, None) old_from_slice (λ v, Ok (value_key v)) value_key (λ s, s) (λ s, s) (λ s p, s) old_new_id true
    "t0" old_source false d.

Example run_source_imports : (run_source empty_db).2 = Ok (MkImportReport 1 1 2 0 0 []).
Proof. vm_compute. reflexivity. Qed.

Lemma reimport_witness : same_content (run_source empty_db).1 (run_source (run_source empty_db).1).1.
Proof.
  refine (proj1 (reimport_adds_nothing (λ _, 0%Z) (λ _, None) old_from_slice (λ v, Ok (value_key v)) value_key (λ s, s) (λ s, s)
    (λ s p, s) old_new_id true "t0" "t0" old_source empty_db (run_source empty_db).1 (MkImportReport 1 1 2 0 0 [])
    (run_source (run_source empty_db).1).1 (run_source (run_source empty_db).1).2 _ _ _)).
  - vm_compute. reflexivity.
  - reflexivity.
  - vm_compute. reflexivity.
Defined.

Lemma import_preserves_witness : chat_ok (im_chat (run_source empty_db).1).
Proof.
  refine (proj1 (import_preserves_chats (λ _, 0%Z) (λ _, None) old_from_slice (λ v, Ok (value_key v)) value_key (λ s, s) (λ s, s)
    (λ s p, s) old_new_id true "t0" old_source false empty_db (run_source empty_db).1 (run_source empty_db).2
    (empty_chat_ok _ _ _ _ _ _ _) _)).
  vm_compute. reflexivity.
Defined.

(** *** What the export loses *)

(** A message with a text for display comes back with that text as the message. *)
Example display_text_replaces_the_message :
  let raw := JObject [("is_user", JBool false); ("is_system", JBool false); ("mes", JString "the whole text");
                      ("extra", JObject [("display_text", JString "short")])] in
  get_str (restored raw) "mes" = Some "short".
Proof. vm_compute. reflexivity. Qed.

(** Two conversations whose files lie in directories of the same name are written to
    one file: the export counts two and keeps one. *)
Definition twin (id dir : string) : Conversation :=
  MkConversation id "w1" "c1" None "Ann" "legacy_bridge_v1" 0 None false (Some ("data/zoe/chats/" +:+ dir +:+ "/sub/x.jsonl")).

Example twins_are_exported_to_one_file :
  let '(files, r) := export_files (from_str old_from_slice) value_key (λ _, true) (λ _, "i") "out"
                       [(twin "v1" "Ann", "Ann"); (twin "v2" "Bob", "Ann")] one_character_db ∅ 0 in
  r = Ok 2%Z /\ size files = 1.
Proof. vm_compute. done. Qed.

(** A chat of a character that was not imported goes to another one: the last of the
    workspace. *)
Example unknown_character_is_replaced :
  pick_character "Zed" [MkCharacterRow "c1" "w1" "Ann" None false; MkCharacterRow "c2" "w1" "Bob" None false]
  = Some (MkCharacterRow "c2" "w1" "Bob" None false).
Proof. vm_compute. reflexivity. Qed.
