(* ===== verification/PluginImport.v ===== *)
(** * Importing the old plugin's database ([import_plugin_db] of [src/modules/migration/mod.rs])

    The bot tokens and the Telegram users of the plugin the bridge replaces.  Every
    plugin account becomes an account of the server, its token a secret of the vault
    and a bot, its users bindings of that bot.  Users are identities somebody acts
    under, so what matters is whom they are given to.

    The old database is read through its columns: a cell is what SQLite stores in it.
    The identity module, the vault, the bots and the bindings do their part as they
    are modelled there; the order in which a [HashMap] is walked, ids and nonces are
    parameters. *)

From stdpp Require Import pretty.
From S2P Require Import Prelude Text Errors StDomain ErrorMapper Engine OperationStore Vault BindCodes TelegramInbox TelegramRuntime Identity CardPng Stateful Legacy LegacyImport.
From Stdlib Require Import Lia.

(** ** The old database *)

Inductive Cell : Type := CNull | CText (s : string) | CInt (z : Z) | COther.

(** [row.try_get] at [String], [Option<String>] and [i64]. *)
Definition cell_text (c : Cell) : AppResult string := match c with CText s => Ok s | _ => Err database_error end.
Definition cell_opt_text (c : Cell) : AppResult (option string) :=
  match c with CNull => Ok None | CText s => Ok (Some s) | _ => Err database_error end.
Definition cell_int (c : Cell) : AppResult Z := match c with CInt z => Ok z | _ => Err database_error end.

Record LegacyAccountRow := MkLegacyAccountRow { la_account_id : Cell; la_display_name : Cell; la_st_user_handle : Cell }.

Record LegacyConfigRow := MkLegacyConfigRow {
  lg_account_id : Cell;
  lg_telegram_bot_token : Cell;
  lg_telegram_allowed_user_ids : Cell;
  lg_tg_inter_message_delay_ms : Cell;
  lg_tg_stream_min_interval_ms : Cell;
  lg_tg_stream_min_delta_chars : Cell;
  lg_tg_advanced_json : Cell;
}.

(** Which of the columns that later versions of the plugin added are there. *)
Record ConfigColumns := MkConfigColumns {
  has_inter_delay : bool;
  has_stream_interval : bool;
  has_stream_delta : bool;
  has_advanced : bool;
}.

(** The tables, each of them there or not; rows in the order of the query.  The flag of
    the accounts is whether the column [st_user_handle] exists. *)
Record PluginTables := MkPluginTables {
  pt_accounts : option (bool * list LegacyAccountRow);
  pt_configs : option (ConfigColumns * list LegacyConfigRow);
  pt_identities : option (list (Cell * Cell));  (* [account_id], [external_user_id] of channel telegram *)
}.

Definition optional_column (present : bool) (column fallback : Cell) : Cell := if present then column else fallback.

Definition config_row (has : ConfigColumns) (r : LegacyConfigRow) : LegacyConfigRow :=
  MkLegacyConfigRow (lg_account_id r) (lg_telegram_bot_token r) (lg_telegram_allowed_user_ids r)
    (optional_column (has_inter_delay has) (lg_tg_inter_message_delay_ms r) (CInt 1400))
    (optional_column (has_stream_interval has) (lg_tg_stream_min_interval_ms r) (CInt 5000))
    (optional_column (has_stream_delta has) (lg_tg_stream_min_delta_chars r) (CInt 700))
    (optional_column (has_advanced has) (lg_tg_advanced_json r) (CText "{}")).

Definition config_rows (tables : PluginTables) : list LegacyConfigRow :=
  match pt_configs tables with Some (has, rows) => map (config_row has) rows | None => [] end.
Definition identity_rows (tables : PluginTables) : list (Cell * Cell) := default [] (pt_identities tables).

Record AccountSpec := MkAccountSpec { sp_old_id : string; sp_handle : string; sp_display_name : string }.

Definition account_spec (has_handle : bool) (r : LegacyAccountRow) : AppResult AccountSpec :=
  let? old_id := cell_text (la_account_id r) in
  let? display_name := cell_opt_text (la_display_name r) in
  let? handle := cell_opt_text (optional_column has_handle (la_st_user_handle r) CNull) in
  Ok (MkAccountSpec old_id (match handle with Some h => if is_blank h then old_id else h | None => old_id end)
        (default "Imported user" display_name)).

Fixpoint account_specs (has_handle : bool) (rows : list LegacyAccountRow) : AppResult (list AccountSpec) :=
  match rows with
  | [] => Ok []
  | r :: rows =>
      let? spec := account_spec has_handle r in
      let? specs := account_specs has_handle rows in
      Ok (spec :: specs)
  end.

(** ** The new database *)

Record PluginDB := MkPluginDB {
  pl_identity : IdentityDB;
  pl_bind : BindDB;
  pl_bots : gmap string TelegramBot;
  pl_advanced : gmap string string;   (* [telegram_bots.advanced_config_json] *)
  pl_vault : DB;                      (* the table [secrets] *)
  pl_next : nat;
}.

(** The keys the bindings refer to follow the tables they stand for. *)
Definition follow_bind (i : IdentityDB) (bots : gmap string TelegramBot) (b : BindDB) : BindDB :=
  MkBindDB (bind_codes b) (bind_attempts b) (external_identities b) (telegram_bindings b)
    (bot_workspace_id <$> bots) (dom (id_accounts i)).

Definition put_identity (i : IdentityDB) (d : PluginDB) : PluginDB :=
  MkPluginDB i (follow_bind i (pl_bots d) (pl_bind d)) (pl_bots d) (pl_advanced d) (pl_vault d) (pl_next d).
Definition put_bots (bots : gmap string TelegramBot) (d : PluginDB) : PluginDB :=
  MkPluginDB (pl_identity d) (follow_bind (pl_identity d) bots (pl_bind d)) bots (pl_advanced d) (pl_vault d) (pl_next d).
Definition put_bind (b : BindDB) (d : PluginDB) : PluginDB :=
  MkPluginDB (pl_identity d) b (pl_bots d) (pl_advanced d) (pl_vault d) (pl_next d).
Definition put_vault (v : DB) (d : PluginDB) : PluginDB :=
  MkPluginDB (pl_identity d) (pl_bind d) (pl_bots d) (pl_advanced d) v (pl_next d).
Definition put_advanced (id json : string) (d : PluginDB) : PluginDB :=
  MkPluginDB (pl_identity d) (pl_bind d) (pl_bots d) (<[id := json]> (pl_advanced d)) (pl_vault d) (pl_next d).

Definition add_bots (n : Z) (r : ImportReport) : ImportReport :=
  MkImportReport (rp_characters r) (rp_conversations r) (rp_messages r) (rp_bots r + n) (rp_bindings r) (rp_warnings r).
Definition add_bindings (n : Z) (r : ImportReport) : ImportReport :=
  MkImportReport (rp_characters r) (rp_conversations r) (rp_messages r) (rp_bots r) (rp_bindings r + n) (rp_warnings r).

(** [.entry(key).or_default().insert(..)] and [.extend(..)]. *)
Definition insert_all (key : string) (users : gset string) (m : gmap string (gset string)) : gmap string (gset string) :=
  <[key := default ∅ (m !! key) ∪ users]> m.

(** What the loop over the configurations collects. *)
Record Collected := MkCollected {
  co_report : ImportReport;
  co_bots : gmap string string;           (* [bots_by_account] *)
  co_pending : gmap string (gset string); (* [pending_bindings] *)
}.

Section Plugin.
Context `{Aead} (sha256_hex : string -> string) (argon2_hash : string -> string -> string).
Context (from_slice : string -> option Value).
Context (new_id fresh_nonce : nat -> string).
(** The order in which a [HashMap] or [HashSet] is walked; the first argument names it. *)
Context (walk : string -> list string -> list string).
Context (vault : EncryptedSqliteVault) (now : string).
(** Secrets the rows of other tables refer to. *)
Context (other_references : string -> bool).

Definition drawn : Stm PluginDB string :=
  λ d, (MkPluginDB (pl_identity d) (pl_bind d) (pl_bots d) (pl_advanced d) (pl_vault d) (S (pl_next d)), Ok (new_id (pl_next d))).

(** [(owners.len() > 1)], for the dry run and the import. *)
Definition conflict_warning (user : string) : string :=
  "skipped Telegram user " +:+ user +:+ ": present under multiple legacy owners".

(** *** The dry run *)

Definition has_token (r : LegacyConfigRow) : bool :=
  match cell_opt_text (lg_telegram_bot_token r) with Ok (Some token) => negb (is_blank token) | _ => false end.

Definition owners_in_config (m : gmap string (gset string)) (r : LegacyConfigRow) : gmap string (gset string) :=
  let owner := match cell_text (lg_account_id r) with Ok o => o | Err _ => "unknown" end in
  match cell_text (lg_telegram_allowed_user_ids r) with
  | Ok raw => foldl (λ m user, insert_all user {[owner]} m) m (parse_legacy_user_ids from_slice raw)
  | Err _ => m
  end.

Definition owners_in_identity (m : gmap string (gset string)) (r : Cell * Cell) : gmap string (gset string) :=
  match cell_text r.1, cell_text r.2 with
  | Ok owner, Ok user => insert_all user {[owner]} m
  | _, _ => m
  end.

Definition dry_run_report (tables : PluginTables) (report : ImportReport) : ImportReport :=
  let bots := Z.of_nat (length (filter (λ r, has_token r = true) (config_rows tables))) in
  let owners := foldl owners_in_identity (foldl owners_in_config ∅ (config_rows tables)) (identity_rows tables) in
  foldl (λ report user,
           if decide (size (default ∅ (owners !! user)) = 1) then add_bindings 1 report
           else warn (conflict_warning user) report)
    (add_bots bots report) (walk "owners_by_user" (elements (dom owners))).

(** *** Accounts *)

Definition import_account (actors : gmap string Actor) (spec : AccountSpec) : Stm PluginDB (gmap string Actor) :=
  run! salt := drawn in run! id := drawn in run! workspace := drawn in run! password_id := drawn in
  run! place := (λ d, let '(i, r) := ensure_legacy_account argon2_hash now salt id workspace password_id
                                       (sp_handle spec) (sp_display_name spec) (pl_identity d) in
                      (put_identity i d, r)) in
  run! actor := (λ d, (d, actor_in_workspace place.1 place.2 (pl_identity d))) in
  sret (<[sp_old_id spec := actor]> actors).

Fixpoint import_accounts (actors : gmap string Actor) (specs : list AccountSpec) : Stm PluginDB (gmap string Actor) :=
  match specs with
  | [] => sret actors
  | spec :: specs => run! actors := import_account actors spec in import_accounts actors specs
  end.

(** *** Bots *)

Definition vault_put_secret (scope token : string) : Stm PluginDB string :=
  run! id := drawn in
  λ d, let '(v, r) := @vault_put _ sha256_hex {| request_id := id; Errors.new_id := id |} now (fresh_nonce (pl_next d)) vault
                        scope "telegram_bot_token" token (pl_vault d) in
       (put_vault v d, result_map meta_id r).

(** The secret goes only when no row refers to it. *)
Definition vault_delete_secret (secret_id : string) : Stm PluginDB unit :=
  λ d, let referenced s := other_references s
         || existsb (λ kb : string * TelegramBot, bot_token_secret_id kb.2 =?= Some s) (map_to_list (pl_bots d)) in
       let '(v, r) := vault_delete referenced secret_id (pl_vault d) in (put_vault v d, r).

(** The secret of the token: the bot's own when it holds the same token, else a new one;
    with it the secret that is replaced. *)
Definition token_secret (workspace_id token : string) (existing : option string) : Stm PluginDB (string * option string) :=
  λ d,
    let same_secret := match existing with
                       | Some s => match vault_get vault s (pl_vault d) with Ok bytes => bytes =?= token | Err _ => false end
                       | None => false
                       end in
    match same_secret, existing with
    | true, Some s => (d, Ok (s, None))
    | _, _ => (run! id := vault_put_secret workspace_id token in sret (id, existing)) d
    end.

(** [telegram.upsert_bot]; the id of the bot it returns. *)
Definition upsert_bot_row (actor : Actor) (workspace_id secret_id : string) (enabled : bool) : Stm PluginDB string :=
  run! id := drawn in
  λ d, let bot_id := match head (list_bots workspace_id (pl_bots d)) with Some (i, _) => i | None => id end in
       let '(bots, r) := upsert_bot id actor (Some secret_id) enabled (dom (id_workspaces (pl_identity d)))
                           (dom (id_accounts (pl_identity d))) (dom (secrets (pl_vault d))) (pl_bots d) in
       (put_bots bots d, result_map (λ _, bot_id) r).

Definition with_delays (inter_delay stream_interval stream_delta : Z) (b : TelegramBot) : TelegramBot :=
  MkTelegramBot (bot_workspace_id b) (bot_owner_account_id b) (bot_token_secret_id b) false (bot_observed_username b)
    (bot_last_error b) (Z.max inter_delay 0) (Z.max stream_interval 0) (Z.max stream_delta 1)
    (bot_stream_first_render_chars b) (bot_stream_chunk_size b).

(** The last statement: the bot stays off, with the settings of the plugin. *)
Definition update_bot_row (bot_id : string) (inter_delay stream_interval stream_delta : Z) (advanced : string)
    : Stm PluginDB unit :=
  sput (λ d, put_advanced bot_id advanced
               (put_bots (alter (with_delays inter_delay stream_interval stream_delta) bot_id (pl_bots d)) d)).

Definition import_token (actor : Actor) (row : LegacyConfigRow) (token : string) : Stm PluginDB string :=
  run! workspace_id := slift (require_workspace actor) in
  run! existing_bot := sget (λ d, head (list_bots workspace_id (pl_bots d))) in
  let existing_secret := b ← existing_bot; bot_token_secret_id b.2 in
  run! secret := token_secret workspace_id token existing_secret in
  let '(secret_id, replaced) := secret in
  run! bot_id := upsert_bot_row actor workspace_id secret_id false in
  run! _ := match replaced with
            | Some old => if negb (old =?= secret_id) then vault_delete_secret old else sret tt
            | None => sret tt
            end in
  run! inter_delay := slift (cell_int (lg_tg_inter_message_delay_ms row)) in
  run! stream_interval := slift (cell_int (lg_tg_stream_min_interval_ms row)) in
  run! stream_delta := slift (cell_int (lg_tg_stream_min_delta_chars row)) in
  run! advanced := slift (cell_text (lg_tg_advanced_json row)) in
  run! _ := update_bot_row bot_id inter_delay stream_interval stream_delta advanced in
  sret bot_id.

Definition import_config (actors : gmap string Actor) (c : Collected) (row : LegacyConfigRow) : Stm PluginDB Collected :=
  run! old_account_id := slift (cell_text (lg_account_id row)) in
  match actors !! old_account_id with
  | None =>
      sret (MkCollected (warn ("plugin config references unknown account " +:+ old_account_id) (co_report c)) (co_bots c)
              (co_pending c))
  | Some actor =>
      run! token := slift (cell_opt_text (lg_telegram_bot_token row)) in
      run! c := match token with
                | Some token =>
                    if is_blank token then sret c else
                    run! bot_id := import_token actor row token in
                    sret (MkCollected (add_bots 1 (co_report c)) (<[old_account_id := bot_id]> (co_bots c)) (co_pending c))
                | None => sret c
                end in
      run! allowed := slift (cell_text (lg_telegram_allowed_user_ids row)) in
      sret (MkCollected (co_report c) (co_bots c)
              (insert_all old_account_id (list_to_set (parse_legacy_user_ids from_slice allowed)) (co_pending c)))
  end.

Fixpoint import_configs (actors : gmap string Actor) (c : Collected) (rows : list LegacyConfigRow) : Stm PluginDB Collected :=
  match rows with
  | [] => sret c
  | row :: rows => run! c := import_config actors c row in import_configs actors c rows
  end.

Fixpoint pending_identities (pending : gmap string (gset string)) (rows : list (Cell * Cell))
    : AppResult (gmap string (gset string)) :=
  match rows with
  | [] => Ok pending
  | row :: rows =>
      let? account_id := cell_text row.1 in
      let? user_id := cell_text row.2 in
      pending_identities (insert_all account_id {[user_id]} pending) rows
  end.

(** *** Bindings *)

Definition insert_identity (id account_id user_id : string) (d : PluginDB) : option PluginDB :=
  let b := pl_bind d in
  if bool_decide (is_Some (external_identities b !! id)) || bool_decide (is_Some (identity_of user_id b))
     || negb (bool_decide (account_id ∈ dom (id_accounts (pl_identity d)))) then None
  else Some (put_bind (set_identities <[id := MkIdentityRow account_id user_id (Some now) now]> b) d).

Definition verify_identity (id : string) (d : PluginDB) : PluginDB :=
  put_bind (set_identities (alter (λ r, MkIdentityRow (ei_account_id r) (ei_external_user_id r) (Some now) (ei_created_at r)) id)
    (pl_bind d)) d.

Definition active_binding (bot_id identity_id : string) (d : PluginDB) : bool :=
  existsb (λ kr : string * BindingRow, (tb_bot_id kr.2 =?= bot_id) && (tb_external_identity_id kr.2 =?= identity_id)
             && match tb_revoked_at kr.2 with None => true | Some _ => false end) (map_to_list (telegram_bindings (pl_bind d))).

Definition insert_binding (id bot_id identity_id workspace_id : string) (d : PluginDB) : option PluginDB :=
  let b := pl_bind d in
  if bool_decide (is_Some (telegram_bindings b !! id)) || negb (bool_decide (is_Some (pl_bots d !! bot_id)))
     || negb (bool_decide (is_Some (external_identities b !! identity_id)))
     || negb (bool_decide (is_Some (id_workspaces (pl_identity d) !! workspace_id))) then None
  else Some (put_bind (set_bindings <[id := MkBindingRow bot_id identity_id workspace_id now None]> b) d).

Definition import_telegram_binding (bot_id account_id workspace_id user_id : string) : Stm PluginDB bool :=
  run! existing := sget (λ d, identity_of user_id (pl_bind d)) in
  let bind_to identity_id : Stm PluginDB bool :=
    run! exists_ := sget (active_binding bot_id identity_id) in
    run! _ := if exists_ : bool then sret tt
              else run! id := drawn in statement (insert_binding id bot_id identity_id workspace_id) in
    sret true in
  match existing with
  | Some (identity_id, row) =>
      if negb (ei_account_id row =?= account_id) then sret false
      else run! _ := sput (verify_identity identity_id) in bind_to identity_id
  | None =>
      run! identity_id := drawn in
      run! _ := statement (insert_identity identity_id account_id user_id) in
      bind_to identity_id
  end.

Fixpoint bind_users (bot_id : string) (actor : Actor) (conflicting : gset string) (users : list string) (report : ImportReport)
    : Stm PluginDB ImportReport :=
  match users with
  | [] => sret report
  | user :: users =>
      if bool_decide (user ∈ conflicting) then bind_users bot_id actor conflicting users report else
      run! workspace_id := slift (require_workspace actor) in
      run! done_ := import_telegram_binding bot_id (acc_id (act_account actor)) workspace_id user in
      bind_users bot_id actor conflicting users
        (if done_ : bool then add_bindings 1 report
         else warn ("skipped Telegram user " +:+ user +:+ ": identity already belongs to another account") report)
  end.

Definition bind_owner (actors : gmap string Actor) (bots : gmap string string) (conflicting : gset string)
    (owner : string) (users : gset string) (report : ImportReport) : Stm PluginDB ImportReport :=
  match actors !! owner, bots !! owner with
  | None, _ => sret report
  | Some _, None =>
      sret (if decide (users = ∅) then report
            else warn ("skipped " +:+ pretty (size users) +:+ " Telegram binding(s) for account " +:+ owner +:+ ": no bot token") report)
  | Some actor, Some bot_id => bind_users bot_id actor conflicting (walk owner (elements users)) report
  end.

Fixpoint bind_owners (actors : gmap string Actor) (bots : gmap string string) (conflicting : gset string)
    (pending : gmap string (gset string)) (owners : list string) (report : ImportReport) : Stm PluginDB ImportReport :=
  match owners with
  | [] => sret report
  | owner :: owners =>
      run! report := bind_owner actors bots conflicting owner (default ∅ (pending !! owner)) report in
      bind_owners actors bots conflicting pending owners report
  end.

(** Users under more than one owner. *)
Definition conflicting_users (pending : gmap string (gset string)) : gset string :=
  let owners := map_fold (λ owner users m, set_fold (λ user m, insert_all user {[owner]} m) m users)
                  (∅ : gmap string (gset string)) pending in
  dom (filter (λ kv : string * gset string, 1 < size kv.2) owners).

(** *** The whole import *)

Definition import_plugin_rows (tables : PluginTables) (specs : list AccountSpec) (report : ImportReport)
    : Stm PluginDB ImportReport :=
  run! actors := import_accounts ∅ specs in
  run! c := import_configs actors (MkCollected report ∅ ∅) (config_rows tables) in
  run! pending := slift (pending_identities (co_pending c) (identity_rows tables)) in
  let conflicting := conflicting_users pending in
  let report := foldl (λ r user, warn (conflict_warning user) r) (co_report c) (walk "conflicting_users" (elements conflicting)) in
  run! report := bind_owners actors (co_bots c) conflicting pending (walk "pending_bindings" (elements (dom pending))) report in
  sret (if (0 <? rp_bots report)%Z
        then warn "Imported Bot tokens are encrypted but all Bots remain disabled; enable only after the old poller is stopped." report
        else report).

(** [None]: the file does not exist. *)
Definition import_plugin_db (path : string) (plugin : option PluginTables) (dry_run : bool) : Stm PluginDB ImportReport :=
  match plugin with
  | None => serr (not_found "PLUGIN_DB_NOT_FOUND" ("plugin database not found: " +:+ path))
  | Some tables =>
      match pt_accounts tables with
      | None => sret (warn "plugin DB has no accounts table" empty_report)
      | Some (has_handle, rows) =>
          run! specs := slift (account_specs has_handle rows) in
          let report := match pt_configs tables with
                        | Some _ => empty_report
                        | None => warn "plugin DB has no account_configs table" empty_report
                        end in
          if dry_run then sret (dry_run_report tables report)
          else import_plugin_rows tables specs report
      end
  end.
End Plugin.
