(* ===== verification/PluginCorrect.v ===== *)
(** * The plugin's users are safe

    Theorems on [PluginImport]: whom the Telegram users of the old plugin are given to,
    whatever its database holds and wherever the import stops, and an import run on a
    small database. *)

From stdpp Require Import pretty.
From S2P Require Import Prelude Text Errors StDomain ErrorMapper Engine OperationStore StoreCorrect Vault BindCodes TelegramInbox TelegramRuntime Identity CardPng Stateful Legacy LegacyImport PluginImport.
From Stdlib Require Import Lia.

(** ** Whom the users are given to *)

(** The account may act in the workspace: [actor_in_workspace] lets it. *)
Definition may_act (i : IdentityDB) (account ws : string) : Prop :=
  exists r, id_accounts i !! account = Some r /\ ac_disabled_at r = None
    /\ (ac_is_system_admin r <> 0%Z
        \/ exists m role, id_members i !! (ws, account) = Some m /\ WorkspaceRole_parse (mb_role m) = Some role).

(** What every step of the import leaves as it is. *)
Record keeps (d d' : PluginDB) : Prop := MkKeeps {
  kp_identity : forall id r, external_identities (pl_bind d) !! id = Some r ->
    exists r', external_identities (pl_bind d') !! id = Some r'
      /\ ei_account_id r' = ei_account_id r /\ ei_external_user_id r' = ei_external_user_id r;
  kp_binding : forall id b, telegram_bindings (pl_bind d) !! id = Some b -> telegram_bindings (pl_bind d') !! id = Some b;
  kp_bot : forall id b, pl_bots d !! id = Some b ->
    exists b', pl_bots d' !! id = Some b' /\ bot_workspace_id b' = bot_workspace_id b
      /\ bot_owner_account_id b' = bot_owner_account_id b;
  kp_off : forall id b', pl_bots d' !! id = Some b' -> pl_bots d !! id = Some b' \/ bot_desired_enabled b' = false;
  kp_access : forall account ws, may_act (pl_identity d) account ws -> may_act (pl_identity d') account ws;
}.

#[export] Instance keeps_preorder : PreOrder keeps.
Proof.
  split.
  - intros d. split; eauto.
  - intros d1 d2 d3 [A1 B1 C1 D1 E1] [A2 B2 C2 D2 E2]. split; eauto.
    + intros id r (r2 & H2 & Ha & Hu)%A1. apply A2 in H2 as (r3 & ? & ? & ?). exists r3. split_and!; congruence.
    + intros id b (b2 & H2 & Hw & Ho)%C1. apply C2 in H2 as (b3 & ? & ? & ?). exists b3. split_and!; congruence.
    + intros id b [H2|]%D2; [| by right]. by apply D1.
Qed.

(** Identities and bindings that are new satisfy [Gi] and [Gb]. *)
Record imports (Gi : string -> string -> Prop) (Gb : PluginDB -> BindingRow -> Prop) (d d' : PluginDB) : Prop := MkImports {
  ip_keeps : keeps d d';
  ip_identity : forall id r, external_identities (pl_bind d') !! id = Some r ->
    is_Some (external_identities (pl_bind d) !! id) \/ Gi (ei_account_id r) (ei_external_user_id r);
  ip_binding : forall id b, telegram_bindings (pl_bind d') !! id = Some b ->
    telegram_bindings (pl_bind d) !! id = Some b \/ Gb d' b;
}.

Section Imports.
Context (Gi : string -> string -> Prop) (Gb : PluginDB -> BindingRow -> Prop).
Context (Gb_mono : forall d d' b, keeps d d' -> Gb d b -> Gb d' b).
Notation imports := (imports Gi Gb).

Lemma imports_refl d : imports d d.
Proof. split; [done | eauto..]. Qed.

Lemma imports_trans d1 d2 d3 : imports d1 d2 -> imports d2 d3 -> imports d1 d3.
Proof.
  intros [K1 I1 B1] [K2 I2 B2]. split; [by etransitivity |..].
  - intros id r Hr. destruct (I2 id r Hr) as [[r2 H2]|]; [| by right].
    destruct (I1 id r2 H2) as [|Hg]; [by left |]. right.
    destruct (kp_identity _ _ K2 _ _ H2) as (r' & Hr' & Ha & Hu). simplify_eq. by rewrite Ha, Hu.
  - intros id b [H2|]%B2; [| by right]. apply B1 in H2 as [|Hg]; [by left |]. right. by eapply Gb_mono.
Qed.

Definition importing {A} (m : Stm PluginDB A) : Prop := forall d, imports d (m d).1.

Lemma importing_sbind {A B} (m : Stm PluginDB A) (k : A -> Stm PluginDB B) :
  importing m -> (forall a, importing (k a)) -> importing (sbind m k).
Proof.
  intros Hm Hk d. unfold sbind. specialize (Hm d). destruct (m d) as [d1 [a|e]]; simpl in *; [| done].
  eapply imports_trans; [done | apply Hk].
Qed.

Lemma importing_same {A} (m : Stm PluginDB A) : (forall d, (m d).1 = d) -> importing m.
Proof. intros Hm d. rewrite Hm. apply imports_refl. Qed.

(** Steps on the other tables. *)
Lemma imports_other d d' :
  pl_identity d' = pl_identity d -> pl_bots d' = pl_bots d ->
  external_identities (pl_bind d') = external_identities (pl_bind d) ->
  telegram_bindings (pl_bind d') = telegram_bindings (pl_bind d) -> imports d d'.
Proof. intros E1 E2 E3 E4. split; [split |..]; rewrite ?E1, ?E2, ?E3, ?E4; eauto. Qed.
End Imports.

Create HintDb importing.

Section Steps.
Context `{Aead} (sha256_hex : string -> string) (argon2_hash : string -> string -> string).
Context (from_slice : string -> option Value) (new_id fresh_nonce : nat -> string).
Context (walk : string -> list string -> list string).
Context (vault : EncryptedSqliteVault) (now : string) (other_references : string -> bool).
Context (Gi : string -> string -> Prop) (Gb : PluginDB -> BindingRow -> Prop).
Context (Gb_mono : forall d d' b, keeps d d' -> Gb d b -> Gb d' b).
Notation importing := (importing Gi Gb).
Notation imports := (imports Gi Gb).

Lemma sret_importing {A} (a : A) : importing (sret a).
Proof. by apply importing_same. Qed.
Lemma slift_importing {A} (r : AppResult A) : importing (slift r).
Proof. by apply importing_same. Qed.
Lemma sget_importing {A} (f : PluginDB -> A) : importing (sget f).
Proof. by apply importing_same. Qed.
Lemma drawn_importing : importing (drawn new_id).
Proof. intros d. by apply imports_other. Qed.
Lemma sbind_importing {A B} (m : Stm PluginDB A) (k : A -> Stm PluginDB B) :
  importing m -> (forall a, importing (k a)) -> importing (sbind m k).
Proof. by apply importing_sbind. Qed.
#[local] Hint Resolve sret_importing slift_importing sget_importing drawn_importing : importing.
#[local] Hint Extern 1 (importing (sbind _ _)) => apply sbind_importing; [| intros ?] : importing.

(** An account keeps what lets it act, and new ones come beside it. *)
Lemma ensure_legacy_access salt id w pid handle name i account ws :
  may_act i account ws -> may_act (ensure_legacy_account argon2_hash now salt id w pid handle name i).1 account ws.
Proof.
  intros (r & Hr & Hd & Hacc). unfold ensure_legacy_account.
  destruct (find_legacy handle i) as [[]|]; [exists r; eauto |].
  destruct (get_by_username handle i) as [existing|].
  - destruct (default_workspace_id _ i); cbn [fst]; [| exists r; eauto].
    unfold set_accounts, may_act. cbn [id_accounts id_members].
    destruct (decide (acc_id existing = account)) as [->|Hne].
    + rewrite lookup_alter_eq, Hr. eexists. split; [done |]. by split.
    + rewrite lookup_alter_ne by done. eauto.
  - unfold provision_account. case_match eqn:Hc; cbn [fst]; [exists r; eauto |].
    repeat (apply orb_false_elim in Hc as [Hc ?]). repeat match goal with H : bool_decide _ = false |- _ => apply bool_decide_eq_false in H end.
    unfold may_act. cbn [id_accounts id_members].
    rewrite lookup_insert_ne by (intros ->; eauto). exists r. split; [done |]. split; [done |].
    destruct Hacc as [|(m & role & Hm & Hp)]; [by left | right]. exists m, role. split; [| done].
    rewrite lookup_insert_ne; [done |]. intros [= <- <-]. eauto.
Qed.

Lemma put_identity_importing salt id w pid handle name :
  importing (λ d, let '(i, r) := ensure_legacy_account argon2_hash now salt id w pid handle name (pl_identity d) in (put_identity i d, r)).
Proof.
  intros d. destruct (ensure_legacy_account _ _ _ _ _ _ _ _ _) as [i r] eqn:E. cbn [fst].
  split; [split |..]; cbn; eauto. intros account ws Ha.
  change i with (i, r).1. rewrite <- E. by apply ensure_legacy_access.
Qed.
#[local] Hint Resolve put_identity_importing : importing.

Lemma import_accounts_importing specs actors :
  importing (import_accounts argon2_hash new_id now actors specs).
Proof.
  revert actors. induction specs as [|spec specs IH]; intros actors; cbn [import_accounts]; auto with importing.
  apply sbind_importing; [| done]. unfold import_account. auto 20 using importing_same with importing.
Qed.

Lemma put_vault_importing {A} (f : PluginDB -> DB * AppResult A) : importing (λ d, let '(v, r) := f d in (put_vault v d, r)).
Proof. intros d. destruct (f d) as [v r]. by apply imports_other. Qed.

Lemma vault_put_importing scope token : importing (vault_put_secret sha256_hex new_id fresh_nonce vault now scope token).
Proof.
  unfold vault_put_secret. apply sbind_importing; [auto with importing |]. intros id d.
  destruct (vault_put _ _ _ _ _ _ _ _) as [v r]. by apply imports_other.
Qed.

Lemma token_secret_importing ws token existing :
  importing (token_secret sha256_hex new_id fresh_nonce vault now ws token existing).
Proof.
  intros d. unfold token_secret. repeat case_match; cbn [fst]; try apply imports_refl;
    (match goal with |- context [sbind ?m ?k ?d] => apply (sbind_importing m k) end; [apply vault_put_importing | auto with importing]).
Qed.

(** A bot that is written is off, and stays where it is. *)
Lemma imports_bots bots d :
  (forall id b, pl_bots d !! id = Some b -> exists b', bots !! id = Some b' /\ bot_workspace_id b' = bot_workspace_id b
     /\ bot_owner_account_id b' = bot_owner_account_id b) ->
  (forall id b', bots !! id = Some b' -> pl_bots d !! id = Some b' \/ bot_desired_enabled b' = false) ->
  imports d (put_bots bots d).
Proof. intros Hk Ho. split; [split |..]; cbn; eauto. Qed.

Lemma insert_bot_kept (bots : gmap string TelegramBot) i b' :
  (forall b, bots !! i = Some b -> bot_workspace_id b' = bot_workspace_id b /\ bot_owner_account_id b' = bot_owner_account_id b) ->
  bot_desired_enabled b' = false ->
  (forall id b, bots !! id = Some b -> exists b2, <[i := b']> bots !! id = Some b2 /\ bot_workspace_id b2 = bot_workspace_id b
     /\ bot_owner_account_id b2 = bot_owner_account_id b)
  /\ (forall id b2, <[i := b']> bots !! id = Some b2 -> bots !! id = Some b2 \/ bot_desired_enabled b2 = false).
Proof.
  intros Hs Hoff. split.
  - intros id b Hb. destruct (decide (id = i)) as [->|]; [rewrite lookup_insert_eq; exists b'; by split; [| apply Hs] |].
    rewrite lookup_insert_ne by done. eauto.
  - intros id b2. destruct (decide (id = i)) as [->|]; [rewrite lookup_insert_eq; intros [= <-]; by right |].
    rewrite lookup_insert_ne by done. by left.
Qed.

Lemma list_bots_head ws bots id b :
  head (list_bots ws bots) = Some (id, b) -> bots !! id = Some b /\ bot_workspace_id b = ws.
Proof.
  unfold list_bots. intros Hh%head_Some_elem_of%list_elem_of_filter.
  destruct Hh as [Hw Hin%elem_of_map_to_list]. done.
Qed.

Lemma upsert_importing actor ws secret : importing (upsert_bot_row new_id actor ws secret false).
Proof.
  unfold upsert_bot_row. apply sbind_importing; [auto with importing |]. intros id d.
  unfold upsert_bot. destruct (require_workspace actor) as [w|e]; [| apply imports_bots; eauto].
  destruct (head (list_bots w (pl_bots d))) as [[bid b]|] eqn:Eh.
  - apply list_bots_head in Eh as [Hb _]. destruct (negb _); cbn [fst]; [apply imports_bots; eauto |].
    apply imports_bots; apply insert_bot_kept; try done; intros b0 ?; simplify_eq; done.
  - destruct (_ || _) eqn:Hc; cbn [fst]; [apply imports_bots; eauto |].
    repeat (apply orb_false_elim in Hc as [Hc ?]). repeat match goal with H : bool_decide _ = false |- _ => apply bool_decide_eq_false in H end.
    apply imports_bots; apply insert_bot_kept; try done; intros b0 Hb0; by exfalso; eauto.
Qed.

Lemma update_importing bot_id a b c advanced : importing (update_bot_row bot_id a b c advanced).
Proof.
  intros d. unfold update_bot_row, sput. cbn [fst]. apply (imports_trans _ _ Gb_mono _ (put_bots (alter (with_delays a b c) bot_id (pl_bots d)) d));
    [| by apply imports_other].
  apply imports_bots.
  - intros id bt Hb. destruct (decide (id = bot_id)) as [->|].
    + rewrite lookup_alter_eq, Hb. by eexists.
    + rewrite lookup_alter_ne by done. eauto.
  - intros id b'. destruct (decide (id = bot_id)) as [->|].
    + rewrite lookup_alter_eq. destruct (pl_bots d !! bot_id); [| done]. intros [= <-]. by right.
    + rewrite lookup_alter_ne by done. by left.
Qed.

Lemma delete_importing secret : importing (vault_delete_secret other_references secret).
Proof. intros d. unfold vault_delete_secret. destruct (vault_delete _ _ _) as [v r]. by apply imports_other. Qed.
#[local] Hint Resolve token_secret_importing upsert_importing update_importing delete_importing : importing.

Lemma import_token_importing actor row token :
  importing (import_token sha256_hex new_id fresh_nonce vault now other_references actor row token).
Proof.
  unfold import_token. apply sbind_importing; [auto with importing | intros ws].
  apply sbind_importing; [auto with importing | intros existing].
  apply sbind_importing; [auto with importing | intros [secret replaced]].
  apply sbind_importing; [auto with importing | intros bot_id].
  apply sbind_importing; [repeat case_match; auto with importing | intros _]. auto 20 with importing.
Qed.

Lemma import_configs_importing actors c rows :
  importing (import_configs sha256_hex from_slice new_id fresh_nonce vault now other_references actors c rows).
Proof.
  revert c. induction rows as [|row rows IH]; intros c; cbn [import_configs]; auto with importing.
  apply sbind_importing; [| done]. unfold import_config. apply sbind_importing; [auto with importing | intros old].
  destruct (actors !! old); auto with importing. apply sbind_importing; [auto with importing | intros token].
  apply sbind_importing; [repeat case_match; auto using import_token_importing with importing | auto with importing].
Qed.
End Steps.

(** ** Claims on a user *)

(** The plugin knows the account. *)
Definition known_owner (tables : PluginTables) (owner : string) : Prop :=
  exists has rows r, pt_accounts tables = Some (has, rows) /\ r ∈ rows /\ la_account_id r = CText owner.

(** The configuration of a known account, or an identity, says the user is the owner's. *)
Definition claimed (from_slice : string -> option Value) (tables : PluginTables) (owner user : string) : Prop :=
  (known_owner tables owner /\ exists row raw, row ∈ config_rows tables /\ lg_account_id row = CText owner
     /\ lg_telegram_allowed_user_ids row = CText raw /\ user ∈ parse_legacy_user_ids from_slice raw)
  \/ (CText owner, CText user) ∈ identity_rows tables.

Definition sole_claim (from_slice : string -> option Value) (tables : PluginTables) (owner user : string) : Prop :=
  claimed from_slice tables owner user /\ forall other, claimed from_slice tables other user -> other = owner.

(** A new identity: the user's only owner's account. *)
Definition given_identity (from_slice : string -> option Value) (tables : PluginTables) (actors : gmap string Actor)
    (account user : string) : Prop :=
  exists owner actor, actors !! owner = Some actor /\ acc_id (act_account actor) = account
    /\ sole_claim from_slice tables owner user.

(** A new binding: of a bot of the owner's workspace, in that workspace, where the
    owner's account may act. *)
Definition given_binding (from_slice : string -> option Value) (tables : PluginTables) (actors : gmap string Actor)
    (d : PluginDB) (b : BindingRow) : Prop :=
  exists owner actor e bot, actors !! owner = Some actor /\ act_workspace_id actor = Some (tb_workspace_id b)
    /\ external_identities (pl_bind d) !! tb_external_identity_id b = Some e
    /\ ei_account_id e = acc_id (act_account actor) /\ sole_claim from_slice tables owner (ei_external_user_id e)
    /\ may_act (pl_identity d) (ei_account_id e) (tb_workspace_id b)
    /\ pl_bots d !! tb_bot_id b = Some bot /\ bot_workspace_id bot = tb_workspace_id b.

Lemma given_binding_mono from_slice tables actors d d' b :
  keeps d d' -> given_binding from_slice tables actors d b -> given_binding from_slice tables actors d' b.
Proof.
  intros Hk (owner & actor & e & bot & Ha & Hw & He & Hacc & Hs & Hm & Hb & Hbw).
  destruct (kp_identity _ _ Hk _ _ He) as (e' & He' & Hea & Heu). destruct (kp_bot _ _ Hk _ _ Hb) as (b' & Hb' & Hw' & _).
  exists owner, actor, e', b'. rewrite Hea, Heu. split_and!; try done; [by apply (kp_access _ _ Hk) | congruence].
Qed.

(** *** What the loops collect *)

Lemma elem_insert_all key users m o u :
  u ∈ default ∅ (insert_all key users m !! o) <-> u ∈ default ∅ (m !! o) \/ (o = key /\ u ∈ users).
Proof.
  unfold insert_all. destruct (decide (o = key)) as [->|Hne].
  - rewrite lookup_insert_eq. simpl. set_solver.
  - rewrite lookup_insert_ne by done. naive_solver.
Qed.

Lemma set_fold_owners o (users : gset string) m u o' :
  o' ∈ default ∅ (set_fold (λ user m, insert_all user {[o]} m) m users !! u)
  <-> o' ∈ default ∅ (m !! u) \/ (o' = o /\ u ∈ users).
Proof.
  revert u o'. apply (set_fold_ind_L (λ r X, forall u o', o' ∈ default ∅ (r !! u) <-> o' ∈ default ∅ (m !! u) \/ (o' = o /\ u ∈ X))).
  - set_solver.
  - intros user X r Hx IH u o'. rewrite elem_insert_all, IH, elem_of_singleton. set_solver.
Qed.

Lemma owners_of_pending (pending : gmap string (gset string)) u o :
  o ∈ default ∅ (map_fold (λ owner users m, set_fold (λ user m, insert_all user {[owner]} m) m users)
                   (∅ : gmap string (gset string)) pending !! u)
  <-> u ∈ default ∅ (pending !! o).
Proof.
  revert u o. apply (map_fold_weak_ind (λ r m, forall u o, o ∈ default ∅ (r !! u) <-> u ∈ default (∅ : gset string) (m !! o))).
  - intros u o. rewrite !lookup_empty. done.
  - intros k users m r Hk IH u o. rewrite set_fold_owners, IH. destruct (decide (o = k)) as [->|Hne].
    + rewrite lookup_insert_eq, Hk. simpl. set_solver.
    + rewrite lookup_insert_ne by done. naive_solver.
Qed.

(** A user who conflicts with nobody has one owner. *)
Lemma not_conflicting (pending : gmap string (gset string)) u o o' :
  u ∉ conflicting_users pending -> u ∈ default ∅ (pending !! o) -> u ∈ default ∅ (pending !! o') -> o' = o.
Proof.
  unfold conflicting_users. set (owners := map_fold _ _ _). intros Hu Ho Ho'.
  destruct (decide (o' = o)) as [|Hne]; [done |]. exfalso. apply Hu.
  apply owners_of_pending in Ho, Ho'. fold owners in Ho, Ho'.
  destruct (owners !! u) as [os|] eqn:Eo; simpl in *; [| set_solver].
  apply elem_of_dom. exists os. apply map_lookup_filter_Some. split; [done |]. simpl.
  assert (size ({[o; o']} : gset string) <= size os) as Hs by (apply subseteq_size; set_solver).
  rewrite size_union, !size_singleton in Hs by set_solver. lia.
Qed.

Lemma pending_identities_spec rows pending pending' :
  pending_identities pending rows = Ok pending' ->
  forall o u, u ∈ default ∅ (pending' !! o) <-> u ∈ default ∅ (pending !! o) \/ (CText o, CText u) ∈ rows.
Proof.
  revert pending. induction rows as [|[a b] rows IH]; intros pending; cbn [pending_identities].
  { intros [= <-]. set_solver. }
  destruct (cell_text _) as [x|] eqn:Ea; [| done]. destruct (cell_text b) as [y|] eqn:Eb; [| simpl; rewrite Eb; done].
  simpl. rewrite Eb. intros Hr o u. rewrite (IH _ Hr), elem_insert_all, elem_of_cons, elem_of_singleton.
  destruct a, b; simplify_eq/=. naive_solver.
Qed.

(** *** The phases *)

Section Phases.
Context `{Aead} (sha256_hex : string -> string) (argon2_hash : string -> string -> string).
Context (from_slice : string -> option Value) (new_id fresh_nonce : nat -> string).
Context (walk : string -> list string -> list string).
Context (vault : EncryptedSqliteVault) (now : string) (other_references : string -> bool).

(** A run that succeeds keeps; [importing] at predicates that are never met. *)
Notation quiet := (importing (λ _ _, False) (λ _ _, False)).

Lemma quiet_keeps {A} (m : Stm PluginDB A) d d' r : quiet m -> m d = (d', r) -> keeps d d'.
Proof. intros Hm E. specialize (Hm d). rewrite E in Hm. apply Hm. Qed.

Lemma quiet_imports {A} Gi Gb (m : Stm PluginDB A) d : quiet m -> imports Gi Gb d (m d).1.
Proof. intros Hm. destruct (Hm d) as [K I B]. split; [done | |]; [intros id r [|[]]%I | intros id b [|[]]%B]; by left. Qed.

Definition actors_ok (d : PluginDB) (actors : gmap string Actor) : Prop :=
  forall o a, actors !! o = Some a ->
  exists ws, act_workspace_id a = Some ws /\ may_act (pl_identity d) (acc_id (act_account a)) ws.

Lemma actors_ok_mono d d' actors : keeps d d' -> actors_ok d actors -> actors_ok d' actors.
Proof. intros Hk Ha o a (ws & Hw & Hm)%Ha. exists ws. split; [done | by apply (kp_access _ _ Hk)]. Qed.

Lemma import_account_ok actors spec d d' actors' :
  import_account argon2_hash new_id now actors spec d = (d', Ok actors') ->
  actors_ok d' actors -> actors_ok d' actors' /\ dom actors' = {[sp_old_id spec]} ∪ dom actors.
Proof using Type.
  unfold import_account. intros Hr Ha.
  do 4 (let x := fresh "x" in let s := fresh "s" in let E := fresh "E" in run_inv Hr x s E).
  run_inv Hr place s4 E4. run_inv Hr actor s5 E5. injection E5 as <- E5. injection Hr as <- <-.
  split; [| by rewrite dom_insert_L]. intros o a. destruct (decide (o = sp_old_id spec)) as [->|].
  - rewrite lookup_insert_eq. intros [= <-]. apply actor_in_workspace_Ok in E5 as (r & role & Hr & Hd & Hact & Hw & _ & Hacc).
    exists place.2. split; [done |]. exists r. rewrite Hact. cbn. split; [done |]. split; [done |].
    destruct Hacc as [|(m & Hm & Hp)]; eauto.
  - rewrite lookup_insert_ne by done. apply Ha.
Qed.

Lemma import_accounts_ok specs actors d d' actors' :
  import_accounts argon2_hash new_id now actors specs d = (d', Ok actors') -> actors_ok d actors ->
  actors_ok d' actors' /\ dom actors' = list_to_set (sp_old_id <$> specs) ∪ dom actors.
Proof using Type.
  revert actors d. induction specs as [|spec specs IH]; intros actors d; cbn [import_accounts].
  { intros [= <- <-] Ha. split; [done |]. cbn. by rewrite (left_id_L ∅ (∪)). }
  intros Hr Ha. run_inv Hr actors1 d1 E1.
  assert (keeps d d1) as Hk.
  { eapply (quiet_keeps (import_accounts argon2_hash new_id now actors [spec])); [by apply import_accounts_importing |].
    cbn [import_accounts]. unfold sbind. by rewrite E1. }
  apply import_account_ok in E1 as [Ha1 Hd1]; [| by eapply actors_ok_mono].
  apply IH in Hr as [Ha' Hd']; [| done]. split; [done |]. rewrite Hd', Hd1, fmap_cons. cbn [list_to_set].
  by rewrite !(assoc_L (∪)), (comm_L (∪) (list_to_set _) {[_]}).
Qed.

(** The bots the users are bound to. *)
Definition bots_ok (d : PluginDB) (actors : gmap string Actor) (bots : gmap string string) : Prop :=
  forall o id, bots !! o = Some id ->
  exists a b, actors !! o = Some a /\ pl_bots d !! id = Some b /\ act_workspace_id a = Some (bot_workspace_id b).

Lemma bots_ok_mono d d' actors bots : keeps d d' -> bots_ok d actors bots -> bots_ok d' actors bots.
Proof.
  intros Hk Hb o id (a & b & Ha & Hi & Hw)%Hb. destruct (kp_bot _ _ Hk _ _ Hi) as (b' & Hi' & Hw' & _).
  exists a, b'. rewrite Hw'. done.
Qed.

Lemma upsert_in_place actor ws secret d d' id :
  upsert_bot_row new_id actor ws secret false d = (d', Ok id) -> act_workspace_id actor = Some ws ->
  exists b, pl_bots d' !! id = Some b /\ bot_workspace_id b = ws.
Proof using Type.
  unfold upsert_bot_row. intros Hr Hw. run_inv Hr fresh_id d1 E1.
  unfold upsert_bot, require_workspace in Hr. rewrite Hw in Hr. simpl in Hr.
  destruct (head (list_bots ws (pl_bots d1))) as [[bid b]|] eqn:Eh.
  - apply list_bots_head in Eh as [Hb Hbw]. destruct (negb _); [done |].
    unfold get_bot in Hr. rewrite lookup_insert_eq in Hr. injection Hr as <- <-. cbn. rewrite lookup_insert_eq. eauto.
  - destruct (_ || _); [done |]. unfold get_bot in Hr. rewrite lookup_insert_eq in Hr. injection Hr as <- <-.
    cbn. rewrite lookup_insert_eq. eauto.
Qed.

Notation one_token := (import_token sha256_hex new_id fresh_nonce vault now other_references).
Notation one_config := (import_config sha256_hex from_slice new_id fresh_nonce vault now other_references).
Notation all_configs := (import_configs sha256_hex from_slice new_id fresh_nonce vault now other_references).

Lemma import_token_in_place actor row token d d' id ws :
  one_token actor row token d = (d', Ok id) -> act_workspace_id actor = Some ws ->
  exists b, pl_bots d' !! id = Some b /\ bot_workspace_id b = ws.
Proof using Type.
  unfold import_token, require_workspace. intros Hr Hw. rewrite Hw in Hr. run_inv Hr w d1 E1. injection E1 as <- <-.
  run_inv Hr existing d2 E2. run_inv Hr secret d3 E3. destruct secret as [secret replaced].
  run_inv Hr bid d4 E4. apply upsert_in_place in E4 as (b & Hb & Hbw); [| done].
  assert (keeps d4 d' /\ id = bid) as [Hk ->].
  { clear -Hr. assert (id = bid) as ->.
    { do 6 (let x := fresh "x" in let s := fresh "s" in let E := fresh "E" in run_inv Hr x s E). by injection Hr. }
    split; [| done]. revert Hr.
    match goal with |- ?m d4 = _ -> _ => intros Hr; apply (quiet_keeps m d4 d' (Ok bid)); [| exact Hr] end.
    apply sbind_importing; [done | repeat case_match; auto using delete_importing, sret_importing |].
    intros _. repeat (apply sbind_importing; [done | apply slift_importing | intros ?]).
    apply sbind_importing; [done | by apply update_importing | intros _; apply sret_importing]. }
  destruct (kp_bot _ _ Hk _ _ Hb) as (b' & Hb' & Hw' & _). exists b'. split; [done | congruence].
Qed.

Definition config_claims (row : LegacyConfigRow) (o u : string) : Prop :=
  exists raw, lg_account_id row = CText o /\ lg_telegram_allowed_user_ids row = CText raw
    /\ u ∈ parse_legacy_user_ids from_slice raw.

Lemma import_config_ok actors c row d d' c' :
  one_config actors c row d = (d', Ok c') -> actors_ok d actors -> bots_ok d actors (co_bots c) ->
  bots_ok d' actors (co_bots c')
  /\ forall o u, u ∈ default ∅ (co_pending c' !! o)
       <-> u ∈ default ∅ (co_pending c !! o) \/ (is_Some (actors !! o) /\ config_claims row o u).
Proof using Type.
  unfold import_config. intros Hr Ha Hb. run_inv Hr old d1 E1. injection E1 as <- E1.
  assert (lg_account_id row = CText old) as Hold by (destruct (lg_account_id row); simplify_eq/=; done).
  destruct (actors !! old) as [actor|] eqn:Eold.
  2: { injection Hr as <- <-. split; [done |]. intros o u. cbn. split; [by left |].
       intros [|[Hs (raw & Ho & _)]]; [done |]. rewrite Ho in Hold. simplify_eq. rewrite Eold in Hs. by destruct Hs. }
  run_inv Hr token d2 E2. injection E2 as <- _. run_inv Hr c1 d3 E3. run_inv Hr allowed d4 E4. injection E4 as <- E4.
  injection Hr as <- <-. cbn [co_bots co_pending].
  assert (lg_telegram_allowed_user_ids row = CText allowed) as Hal by (destruct (lg_telegram_allowed_user_ids row); simplify_eq/=; done).
  assert (bots_ok d3 actors (co_bots c1) /\ co_pending c1 = co_pending c) as [Hb1 Hp].
  { destruct token as [token|]; [| by injection E3 as <- <-]. destruct (is_blank token); [by injection E3 as <- <- |].
    run_inv E3 bid d5 E5. injection E3 as <- <-. split; [| done].
    assert (keeps d d5) as Hk.
    { eapply quiet_keeps; [| exact E5]. by apply import_token_importing. }
    destruct (Ha _ _ Eold) as (ws & Hws & _). destruct (import_token_in_place _ _ _ _ _ _ _ E5 Hws) as (b & Hb5 & Hbw).
    intros o i. cbn. destruct (decide (o = old)) as [->|].
    - rewrite lookup_insert_eq. intros [= <-]. exists actor, b. rewrite Hbw. done.
    - rewrite lookup_insert_ne by done. intros Hi. by eapply bots_ok_mono. }
  split; [done |]. intros o u. rewrite elem_insert_all, Hp, elem_of_list_to_set. split.
  - intros [|[-> Hu]]; [by left |]. right. split; [by rewrite Eold |]. by exists allowed.
  - intros [|[_ (raw & Ho & Hraw & Hu)]]; [by left |]. right. rewrite Ho in Hold. rewrite Hraw in Hal. by simplify_eq.
Qed.

Lemma import_configs_ok rows actors c d d' c' :
  all_configs actors c rows d = (d', Ok c') -> actors_ok d actors -> bots_ok d actors (co_bots c) ->
  bots_ok d' actors (co_bots c')
  /\ forall o u, u ∈ default ∅ (co_pending c' !! o)
       <-> u ∈ default ∅ (co_pending c !! o) \/ (is_Some (actors !! o) /\ exists row, row ∈ rows /\ config_claims row o u).
Proof using Type.
  revert c d. induction rows as [|row rows IH]; intros c d; cbn [import_configs].
  { intros [= <- <-] Ha Hb. split; [done |]. intros o u. split; [by left |]. intros [|(_ & ? & Hin%elem_of_nil & _)]; done. }
  intros Hr Ha Hb. run_inv Hr c1 d1 E1.
  assert (keeps d d1) as Hk.
  { eapply (quiet_keeps (all_configs actors c [row])); [by apply import_configs_importing |].
    cbn [import_configs]. unfold sbind. by rewrite E1. }
  apply import_config_ok in E1 as [Hb1 Hp1]; [| done..].
  apply IH in Hr as [Hb' Hp']; [| by eapply actors_ok_mono | done]. split; [done |].
  intros o u. rewrite Hp', Hp1. setoid_rewrite elem_of_cons. clear. naive_solver.
Qed.
End Phases.

(** *** Binding the users *)

Section Binding.
Context (from_slice : string -> option Value) (new_id : nat -> string) (walk : string -> list string -> list string).
Context (walk_elems : forall name l x, x ∈ walk name l -> x ∈ l).
Context (now : string) (tables : PluginTables) (actors : gmap string Actor).
Notation Gi := (given_identity from_slice tables actors).
Notation Gb := (given_binding from_slice tables actors).
Notation imports := (imports Gi Gb).
Notation importing := (importing Gi Gb).
Notation bind_one := (import_telegram_binding new_id now).

(** A call that is safe from states a fact holds in. *)
Definition importing_at {A} (P : PluginDB -> Prop) (m : Stm PluginDB A) : Prop := forall d, P d -> imports d (m d).1.

Lemma sbind_at {A B} P (Q : A -> PluginDB -> Prop) (m : Stm PluginDB A) (k : A -> Stm PluginDB B) :
  importing_at P m -> (forall d d' a, P d -> m d = (d', Ok a) -> Q a d') -> (forall a, importing_at (Q a) (k a)) ->
  importing_at P (sbind m k).
Proof.
  intros Hm Hq Hk d Hd. unfold sbind. specialize (Hm d Hd). destruct (m d) as [d1 [a|e]] eqn:E; simpl in *; [| done].
  eapply imports_trans; [apply given_binding_mono | done | eapply Hk; eauto].
Qed.

(** Everything a new binding of [owner]'s user needs. *)
Record ready (owner : string) (actor : Actor) (bot_id ws user : string) (d : PluginDB) : Prop := MkReady {
  rd_actor : actors !! owner = Some actor;
  rd_workspace : act_workspace_id actor = Some ws;
  rd_access : may_act (pl_identity d) (acc_id (act_account actor)) ws;
  rd_bot_row : exists b, pl_bots d !! bot_id = Some b /\ bot_workspace_id b = ws;
  rd_claim : sole_claim from_slice tables owner user;
}.

Lemma ready_mono owner actor bot_id ws user d d' :
  keeps d d' -> ready owner actor bot_id ws user d -> ready owner actor bot_id ws user d'.
Proof.
  intros Hk [Ha Hw Hm (b & Hb & Hbw) Hc]. split; try done; [by apply (kp_access _ _ Hk) |].
  destruct (kp_bot _ _ Hk _ _ Hb) as (b' & Hb' & Hw' & _). exists b'. split; [done | congruence].
Qed.

Lemma drawn_keeps d : keeps d (drawn new_id d).1.
Proof. split; eauto. Qed.

Definition holds_identity (id account user : string) (d : PluginDB) : Prop :=
  exists e, external_identities (pl_bind d) !! id = Some e /\ ei_account_id e = account /\ ei_external_user_id e = user.

Lemma identity_of_Some user b id r :
  identity_of user b = Some (id, r) -> external_identities b !! id = Some r /\ ei_external_user_id r = user.
Proof.
  unfold identity_of. intros Hh%head_Some_elem_of%list_elem_of_filter. destruct Hh as [Hu Hin%elem_of_map_to_list]. done.
Qed.

Lemma verify_importing id : importing (sput (verify_identity now id)).
Proof.
  intros d. unfold sput. cbn [fst]. split; [split |..]; cbn; eauto.
  - intros i r Hr. destruct (decide (i = id)) as [->|]; [rewrite lookup_alter_eq, Hr; by eexists |].
    rewrite lookup_alter_ne by done. eauto.
  - intros i r. destruct (decide (i = id)) as [->|]; [rewrite lookup_alter_eq | rewrite lookup_alter_ne by done; eauto].
    destruct (external_identities _ !! id); [eauto | done].
Qed.

Lemma insert_identity_at owner actor bot_id ws user id :
  importing_at (ready owner actor bot_id ws user) (statement (insert_identity now id (acc_id (act_account actor)) user)).
Proof.
  intros d [Ha Hw Hm Hb Hc]. unfold statement, insert_identity. destruct (_ || _) eqn:E; [apply imports_refl |].
  repeat (apply orb_false_elim in E as [E ?]). apply bool_decide_eq_false in E.
  cbn [fst]. split; [split |..]; cbn; eauto.
  - intros i r Hr. rewrite lookup_insert_ne by (intros ->; eauto). eauto.
  - intros i r. destruct (decide (i = id)) as [->|]; [| rewrite lookup_insert_ne by done; eauto].
    rewrite lookup_insert_eq. intros [= <-]. right. exists owner, actor. done.
Qed.

Lemma insert_binding_at owner actor bot_id ws user identity id :
  importing_at (λ d, ready owner actor bot_id ws user d /\ holds_identity identity (acc_id (act_account actor)) user d)
    (statement (insert_binding now id bot_id identity ws)).
Proof.
  intros d [[Ha Hw Hm (bot & Hb & Hbw) Hc] (e & He & Hea & Heu)].
  unfold statement, insert_binding. destruct (_ || _) eqn:E; [apply imports_refl |].
  repeat (apply orb_false_elim in E as [E ?]). apply bool_decide_eq_false in E.
  cbn [fst]. split; [split |..]; cbn; eauto.
  - intros i b Hi. rewrite lookup_insert_ne by (intros ->; eauto). done.
  - intros i b. destruct (decide (i = id)) as [->|]; [| rewrite lookup_insert_ne by done; eauto].
    rewrite lookup_insert_eq. intros [= <-]. right. exists owner, actor, e, bot. cbn. rewrite Hea, Heu. done.
Qed.

Lemma bind_to_at owner actor bot_id ws user identity :
  importing_at (λ d, ready owner actor bot_id ws user d /\ holds_identity identity (acc_id (act_account actor)) user d)
    (run! exists_ := sget (active_binding bot_id identity) in
     run! _ := if exists_ : bool then sret tt
               else run! id := drawn new_id in statement (insert_binding now id bot_id identity ws) in
     sret true).
Proof.
  set (P := λ d, ready owner actor bot_id ws user d /\ holds_identity identity (acc_id (act_account actor)) user d).
  apply (sbind_at P (λ _, P)); [intros d _; apply imports_refl | by intros d d' a Hd [= <- _] |]. intros exists_.
  apply (sbind_at P (λ _ _, True)); [| done | intros _ d _; apply imports_refl].
  destruct exists_; [intros d _; apply imports_refl |].
  apply (sbind_at P (λ _, P)); [intros d _; by apply imports_other | | intros id; apply insert_binding_at].
  intros d d' a [Hr Hh] [= <- _]. split; [| done]. by eapply ready_mono; [apply drawn_keeps |].
Qed.

Lemma import_binding_at owner actor bot_id ws user :
  importing_at (ready owner actor bot_id ws user) (bind_one bot_id (acc_id (act_account actor)) ws user).
Proof.
  unfold import_telegram_binding. intros d Hd. unfold sbind at 1, sget at 1.
  destruct (identity_of user (pl_bind d)) as [[id row]|] eqn:Ei.
  - apply identity_of_Some in Ei as [Hi Hu]. destruct (ei_account_id row =?= _) eqn:Ea; [| apply imports_refl].
    apply bool_decide_eq_true in Ea. cbn [negb].
    apply (sbind_at (λ d', ready owner actor bot_id ws user d' /\ holds_identity id (acc_id (act_account actor)) user d')
             (λ _ d', ready owner actor bot_id ws user d' /\ holds_identity id (acc_id (act_account actor)) user d')).
    + intros d' _. apply verify_importing.
    + intros d1 d2 u [Hr Hh] E. pose proof (verify_importing id d1) as Hv. rewrite E in Hv. destruct Hv as [Hk _ _].
      split; [by eapply ready_mono |]. destruct Hh as (e & He & Hea & Heu).
      destruct (kp_identity _ _ Hk _ _ He) as (e' & He' & Hea' & Heu'). exists e'. split_and!; [done | congruence..].
    + intros _. apply bind_to_at.
    + split; [done |]. by exists row.
  - revert d Ei Hd. intros d _ Hd.
    apply (sbind_at (ready owner actor bot_id ws user) (λ _, ready owner actor bot_id ws user)); [| | | done].
    { intros d' _. by apply imports_other. }
    { intros d1 d2 i Hr [= <- _]. by eapply ready_mono; [apply drawn_keeps |]. }
    intros id. apply (sbind_at (ready owner actor bot_id ws user)
      (λ _ d', ready owner actor bot_id ws user d' /\ holds_identity id (acc_id (act_account actor)) user d')).
    + apply insert_identity_at.
    + intros d1 d2 u Hr E. pose proof (insert_identity_at owner actor bot_id ws user id d1 Hr) as Hv. rewrite E in Hv.
      split; [by eapply ready_mono; [apply Hv |] |]. apply statement_inv in E. unfold insert_identity in E.
      destruct (_ || _); [done |]. injection E as <-. eexists. cbn. rewrite lookup_insert_eq. done.
    + intros _. apply bind_to_at.
Qed.

Lemma bind_users_at owner actor bot_id ws conflicting users report :
  (forall user, user ∈ users -> user ∉ conflicting -> sole_claim from_slice tables owner user) ->
  importing_at (λ d, forall user, sole_claim from_slice tables owner user -> ready owner actor bot_id ws user d)
    (bind_users new_id now bot_id actor conflicting users report).
Proof.
  revert report. induction users as [|user users IH]; intros report Hu; cbn [bind_users]; [intros d _; apply imports_refl |].
  assert (forall u, u ∈ users -> u ∉ conflicting -> sole_claim from_slice tables owner u) as Hu'
    by (intros u Hin; apply Hu; by right).
  case_bool_decide as Hc; [by apply IH |]. assert (sole_claim from_slice tables owner user) as Hs by (apply Hu; [left | done]).
  set (P := λ d, forall user, sole_claim from_slice tables owner user -> ready owner actor bot_id ws user d).
  apply (sbind_at P (λ w d, P d /\ w = ws)); [intros d _; apply imports_refl | |].
  { intros d d' w Hd [= <- Hw]. split; [done |]. unfold require_workspace in Hw. rewrite (rd_workspace _ _ _ _ _ _ (Hd user Hs)) in Hw.
    by simplify_eq/=. }
  intros w. apply (sbind_at _ (λ _, P)); [| | intros done_; by apply IH].
  - intros d [Hd ->]. by apply (import_binding_at owner), Hd.
  - intros d d' b [Hd ->] E. pose proof (import_binding_at owner actor bot_id ws user d (Hd user Hs)) as Hi.
    rewrite E in Hi. intros u Hsu. eapply ready_mono; [apply Hi | by apply Hd].
Qed.

Lemma bind_owner_at bots conflicting owner users report :
  (forall user, user ∈ users -> user ∉ conflicting -> sole_claim from_slice tables owner user) ->
  importing_at (λ d, actors_ok d actors /\ bots_ok d actors bots)
    (bind_owner new_id walk now actors bots conflicting owner users report).
Proof.
  intros Hu d [Ha Hb]. unfold bind_owner. destruct (actors !! owner) as [actor|] eqn:Eo; [| apply imports_refl].
  destruct (bots !! owner) as [bot_id|] eqn:Eb; [| apply imports_refl].
  destruct (Ha _ _ Eo) as (ws & Hws & Hm). destruct (Hb _ _ Eb) as (a & b & Ea & Hbot & Hbw).
  apply (bind_users_at owner actor bot_id ws).
  - intros user Hin. apply Hu. apply elem_of_elements. by eapply walk_elems.
  - intros user Hs. rewrite Eo in Ea. simplify_eq. split; try done. by exists b.
Qed.

Lemma bind_owners_at bots conflicting pending owners report :
  (forall owner user, user ∈ default ∅ (pending !! owner) -> user ∉ conflicting -> sole_claim from_slice tables owner user) ->
  importing_at (λ d, actors_ok d actors /\ bots_ok d actors bots)
    (bind_owners new_id walk now actors bots conflicting pending owners report).
Proof.
  intros Hu. revert report. induction owners as [|owner owners IH]; intros report; cbn [bind_owners];
    [intros d _; apply imports_refl |].
  assert (importing_at (λ d, actors_ok d actors /\ bots_ok d actors bots)
            (bind_owner new_id walk now actors bots conflicting owner (default ∅ (pending !! owner)) report)) as Ho
    by (apply bind_owner_at, Hu).
  eapply sbind_at; [exact Ho | | intros r; apply IH].
  intros d d' r [Ha Hb] E. specialize (Ho d (conj Ha Hb)). rewrite E in Ho. destruct Ho as [Hk _ _].
  split; [by eapply actors_ok_mono | by eapply bots_ok_mono].
Qed.
End Binding.

(** ** The import is safe *)

Lemma account_specs_known has rows specs o :
  account_specs has rows = Ok specs -> (o ∈ sp_old_id <$> specs <-> exists r, r ∈ rows /\ la_account_id r = CText o).
Proof.
  revert specs. induction rows as [|r rows IH]; intros specs; cbn [account_specs].
  { intros [= <-]. split; [by intros ?%elem_of_nil | by intros (? & ?%elem_of_nil & _)]. }
  unfold account_spec. destruct (cell_text (la_account_id r)) as [old|] eqn:Eo; [| done]. simpl.
  destruct (cell_opt_text (la_display_name r)); [| done]. simpl. destruct (cell_opt_text (optional_column _ _ _)); [| done]. simpl.
  destruct (account_specs has rows) as [specs'|] eqn:Es; [| done]. intros [= <-].
  assert (la_account_id r = CText old) as Ho by (destruct (la_account_id r); simplify_eq/=; done).
  rewrite fmap_cons, elem_of_cons, (IH specs') by done. simpl. setoid_rewrite elem_of_cons. split.
  - intros [->|(r' & ? & ?)]; eauto.
  - intros (r' & [->|] & Hr'); [left; congruence | eauto].
Qed.

Lemma sbind_sret_state {A B} (m : Stm PluginDB A) (f : A -> B) d : (sbind m (λ a, sret (f a)) d).1 = (m d).1.
Proof. unfold sbind. by destruct (m d) as [d1 [a|e]]. Qed.

Section Safe.
Context `{Aead} (sha256_hex : string -> string) (argon2_hash : string -> string -> string).
Context (from_slice : string -> option Value) (new_id fresh_nonce : nat -> string).
Context (walk : string -> list string -> list string).
Context (vault : EncryptedSqliteVault) (now : string) (other_references : string -> bool).

(** The account and workspace each plugin account stands for. *)
Definition imported_actors (tables : PluginTables) (d : PluginDB) : gmap string Actor :=
  match pt_accounts tables with
  | Some (has_handle, rows) =>
      match account_specs has_handle rows with
      | Ok specs => match (import_accounts argon2_hash new_id now ∅ specs d).2 with Ok actors => actors | Err _ => ∅ end
      | Err _ => ∅
      end
  | None => ∅
  end.

Notation import_rows := (import_plugin_rows sha256_hex argon2_hash from_slice new_id fresh_nonce walk vault now other_references).
Notation import_db := (import_plugin_db sha256_hex argon2_hash from_slice new_id fresh_nonce walk vault now other_references).

(** What is pending after the loops are the claims. *)
Lemma pending_claims tables has rows specs (actors : gmap string Actor) c pending :
  pt_accounts tables = Some (has, rows) -> account_specs has rows = Ok specs -> dom actors = list_to_set (sp_old_id <$> specs) ->
  (forall o u, u ∈ default ∅ (co_pending c !! o)
     <-> is_Some (actors !! o) /\ exists row, row ∈ config_rows tables /\ config_claims from_slice row o u) ->
  pending_identities (co_pending c) (identity_rows tables) = Ok pending ->
  forall o u, u ∈ default ∅ (pending !! o) <-> claimed from_slice tables o u.
Proof using Type.
  intros Ht Hs Hd Hc Hp o u. rewrite (pending_identities_spec _ _ _ Hp), Hc. unfold claimed, known_owner, config_claims.
  rewrite <- elem_of_dom, Hd, elem_of_list_to_set, (account_specs_known _ _ _ _ Hs). split.
  - intros [((r & Hr & Ho) & row & Hrow & raw & Ha & Hal & Hu)|]; [| by right]. left. split; [by exists has, rows, r | eauto 10].
  - intros [((has' & rows' & r & Ht' & Hr & Ho) & row & raw & Hrow & Ha & Hal & Hu)|]; [| by right].
    left. rewrite Ht in Ht'. injection Ht' as <- <-. split; eauto 10.
Qed.

Lemma import_rows_imports tables has rows specs report d :
  (forall name l x, x ∈ walk name l -> x ∈ l) ->
  pt_accounts tables = Some (has, rows) -> account_specs has rows = Ok specs ->
  imports (given_identity from_slice tables (imported_actors tables d))
    (given_binding from_slice tables (imported_actors tables d)) d (import_rows tables specs report d).1.
Proof.
  intros Hwalk Ht Hs. unfold import_plugin_rows, imported_actors. rewrite Ht, Hs.
  destruct (import_accounts argon2_hash new_id now ∅ specs d) as [d1 [actors|e]] eqn:E1; cbn [snd].
  2: { unfold sbind. rewrite E1. cbn [fst]. change d1 with (d1, @Err (gmap string Actor) AppError e).1. rewrite <- E1.
       apply quiet_imports. by apply import_accounts_importing. }
  pose proof (given_binding_mono from_slice tables actors) as Hmono.
  assert (imports (given_identity from_slice tables actors) (given_binding from_slice tables actors) d d1) as H1.
  { change d1 with (d1, @Ok (gmap string Actor) AppError actors).1. rewrite <- E1. by apply import_accounts_importing. }
  unfold sbind at 1. rewrite E1. assert (actors_ok d ∅) as Ha0 by (intros o a Hoa; by rewrite lookup_empty in Hoa).
  destruct (import_accounts_ok _ _ _ _ _ _ _ _ E1 Ha0) as [Ha1 Hd1].
  rewrite dom_empty_L, union_empty_r_L in Hd1. eapply imports_trans; [done | exact H1 |].
  unfold sbind at 1. destruct (import_configs _ _ _ _ _ _ _ _ _ _ _) as [d2 [c|e]] eqn:E2.
  2: { cbn [fst]. change d2 with (d2, @Err Collected AppError e).1. rewrite <- E2. by apply import_configs_importing. }
  assert (imports (given_identity from_slice tables actors) (given_binding from_slice tables actors) d1 d2) as H2.
  { change d2 with (d2, @Ok Collected AppError c).1. rewrite <- E2. by apply import_configs_importing. }
  apply import_configs_ok in E2 as [Hb2 Hp2]; [| done | intros o i Hoi; cbn in Hoi; by rewrite lookup_empty in Hoi].
  eapply imports_trans; [done | exact H2 |]. unfold sbind at 1, slift.
  destruct (pending_identities _ _) as [pending|e] eqn:E3; [| apply imports_refl].
  assert (forall o u, u ∈ default ∅ (pending !! o) <-> claimed from_slice tables o u) as Hpend.
  { eapply pending_claims; eauto. intros o u. rewrite Hp2. cbn. rewrite lookup_empty. simpl. set_solver. }
  rewrite sbind_sret_state. apply bind_owners_at; [done | | split; [by eapply actors_ok_mono; [apply H2 |] | done]].
  intros owner user Hu Hn. split; [by apply Hpend |]. intros other Ho%Hpend. by eapply not_conflicting.
Qed.

(** C13: the users of the old plugin are given to nobody else.  Whatever the old database
    holds and wherever the import stops, identities and bindings that were there stay
    whose they were; a new identity belongs to the account of the one plugin account
    that claims the user, a new binding is to a bot of that account's workspace, in
    which it may act; a user claimed by two accounts gets neither.  Bots stay in their
    workspace, and every bot that was written is off.  A dry run changes nothing. *)
Theorem plugin_users_go_to_their_owner path tables dry_run d d' r :
  (forall name l x, x ∈ walk name l -> x ∈ l) ->
  import_db path (Some tables) dry_run d = (d', r) ->
  imports (given_identity from_slice tables (imported_actors tables d))
    (given_binding from_slice tables (imported_actors tables d)) d d'
  /\ (dry_run = true -> d' = d).
Proof.
  intros Hwalk. unfold import_plugin_db. destruct (pt_accounts tables) as [[has rows]|] eqn:Et.
  2: { intros [= <- _]. split; [apply imports_refl | done]. }
  unfold sbind at 1, slift at 1. destruct (account_specs has rows) as [specs|e] eqn:Es.
  2: { intros [= <- _]. split; [apply imports_refl | done]. }
  destruct dry_run; [intros [= <- _]; split; [apply imports_refl | done] |]. intros E. split; [| done].
  set (report := match pt_configs tables with Some _ => _ | None => _ end) in E.
  pose proof (import_rows_imports tables has rows specs report d Hwalk Et Es) as Hi. by rewrite E in Hi.
Qed.
End Safe.

(** ** An import *)

Definition old_users (raw : string) : option Value :=
  if raw =?= "both" then Some (JArray [JString "7"; JNumber "8"])
  else if raw =?= "one" then Some (JArray [JString "7"]) else None.

Definition old_account (id handle : string) : LegacyAccountRow := MkLegacyAccountRow (CText id) CNull (CText handle).
Definition old_config (id token users : string) : LegacyConfigRow :=
  MkLegacyConfigRow (CText id) (CText token) (CText users) (CInt (-5)) CNull CNull CNull.

(** Ann's bot serves 7 and 8, Bob's 7 too; an older plugin, with one of the columns. *)
Definition old_plugin (ann bob : string) : PluginTables :=
  MkPluginTables (Some (true, [old_account "a" ann; old_account "b" bob]))
    (Some (MkConfigColumns true false false false, [old_config "a" "token-a" "both"; old_config "b" "token-b" "one"]))
    (Some [(CText "c", CText "9")]).

Definition no_plugin_data : PluginDB := MkPluginDB identity_init (MkBindDB ∅ ∅ ∅ ∅ ∅ ∅) ∅ ∅ demo_db 0.

Definition run_plugin (tables : PluginTables) : PluginDB * AppResult ImportReport :=
  @import_plugin_db toy_aead demo_sha (λ _ p, p) old_users (λ n, "id" +:+ pretty n) (λ n, "nonce" +:+ pretty n) (λ _ l, l)
    demo_vault "t" (λ _, false) "plugin.db" (Some tables) false no_plugin_data.

(** 8 is bound to Ann's bot, 7 to none; the bots are off. *)
Lemma plugin_users_witness :
  imports (given_identity old_users (old_plugin "ann" "bob")
             (imported_actors (λ _ p, p) (λ n, "id" +:+ pretty n) "t" (old_plugin "ann" "bob") no_plugin_data))
    (given_binding old_users (old_plugin "ann" "bob")
       (imported_actors (λ _ p, p) (λ n, "id" +:+ pretty n) "t" (old_plugin "ann" "bob") no_plugin_data))
    no_plugin_data (run_plugin (old_plugin "ann" "bob")).1
  /\ map (ei_external_user_id ∘ snd) (map_to_list (external_identities (pl_bind (run_plugin (old_plugin "ann" "bob")).1))) = ["8"]
  /\ map (bot_desired_enabled ∘ snd) (map_to_list (pl_bots (run_plugin (old_plugin "ann" "bob")).1)) = [false; false].
Proof.
  split; [| split; vm_compute; reflexivity].
  refine (proj1 (@plugin_users_go_to_their_owner toy_aead demo_sha (λ _ p, p) old_users (λ n, "id" +:+ pretty n)
    (λ n, "nonce" +:+ pretty n) (λ _ l, l) demo_vault "t" (λ _, false) "plugin.db" (old_plugin "ann" "bob") false
    no_plugin_data _ (run_plugin (old_plugin "ann" "bob")).2 _ _)); [by intros | vm_compute; reflexivity].
Defined.

(** Two plugin accounts with the same SillyTavern handle share a workspace, and a
    workspace has one bot: the second token takes the place of the first, whose secret
    is deleted, and both are reported as imported. *)
Example shared_handle_loses_a_token :
  let '(d, r) := run_plugin (old_plugin "ann" "ann") in
  match r with Ok report => rp_bots report | Err _ => 0%Z end = 2%Z
  /\ size (pl_bots d) = 1
  /\ map (λ kb, match bot_token_secret_id kb.2 with Some s => @vault_get toy_aead demo_vault s (pl_vault d) | None => Ok "" end)
       (map_to_list (pl_bots d)) = [Ok "token-b"]
  /\ size (secrets (pl_vault d)) = S (size (secrets demo_db)).
Proof. vm_compute. by split_and!. Qed.
