(* ===== verification/HttpApi.v ===== *)
(** * The HTTP API ([src/adapters/http/router.rs])

    The routes, the CSRF check in front of all of them and the handlers: login and
    logout, accounts, bots, bind codes, health; and at the end the session table.
    Sessions come from the tower_sessions crate and are an interface with what its
    documentation promises; the identity module, the bots, the bind codes and the
    vault do their part as they are modelled there.

    A reply is what the handler puts into its JSON.  That axum runs the handler of the
    matching route, after the middleware and with the extracted body, is taken from
    its documentation; a request whose body cannot be extracted runs no handler. *)

From stdpp Require Import pretty.
From S2P Require Import Prelude Text Errors StDomain Readiness Redaction PollerOwnership Engine OperationStore Vault BindCodes TelegramInbox TelegramRuntime Identity Stateful Decoder Config LegacyImport PluginImport.
From Stdlib Require Import Lia.

(** ** Sessions *)

(** [get::<String>], [insert], [cycle_id] and [flush]; [None] is an error of the store. *)
Class SessionLayer := {
  Session : Type;
  session_get : string -> Session -> option (option string);
  session_insert : string -> string -> Session -> option Session;
  session_cycle_id : Session -> option Session;
  session_flush : Session -> option Session;
}.

(** A value that was inserted is there, the others are as they were; a new id keeps
    the values, a flush drops them. *)
Class LawfulSession (L : SessionLayer) : Prop := {
  get_inserted : forall k v s s' k', session_insert k v s = Some s' ->
    session_get k' s' = if k' =?= k then Some (Some v) else session_get k' s;
  get_cycled : forall s s' k, session_cycle_id s = Some s' -> session_get k s' = session_get k s;
  get_flushed : forall s s' k, session_flush s = Some s' -> session_get k s' = Some None;
}.

(** ** Bodies *)

Record LoginBody := MkLoginBody { lb_username : string; lb_password : string }.
Definition LoginBody_from_value (v : Value) : option LoginBody :=
  fields ← struct_fields false [field "username"; field "password"] v;
  match fields with
  | [a; b] => a ← required value_as_str a; b ← required value_as_str b; Some (MkLoginBody a b)
  | _ => None
  end.

Record CreateAccountBody := MkCreateAccountBody {
  ca_username : string;
  ca_password : string;
  ca_display_name : string;
  ca_is_admin : bool;
}.
Definition CreateAccountBody_from_value (v : Value) : option CreateAccountBody :=
  fields ← struct_fields false [field "username"; field "password"; field "display_name"; field_or "is_admin"] v;
  match fields with
  | [a; b; c; d] =>
      a ← required value_as_str a; b ← required value_as_str b; c ← required value_as_str c;
      d ← defaulted false value_as_bool d; Some (MkCreateAccountBody a b c d)
  | _ => None
  end.

Record BotBody := MkBotBody { bb_token : option string; bb_desired_enabled : bool }.
Definition BotBody_from_value (v : Value) : option BotBody :=
  fields ← struct_fields false [field_or "token"; field_or "desired_enabled"] v;
  match fields with
  | [a; b] => a ← optional value_as_str a; b ← defaulted false value_as_bool b; Some (MkBotBody a b)
  | _ => None
  end.

(** ** Routes *)

Inductive Handler : Type :=
| HLive | HReady | HCsrfToken | HLogin | HLogout | HMe | HListAccounts | HCreateAccount | HRetired
| HListBots | HUpsertBot | HStartBot (id : string) | HStopBot (id : string) | HCreateBindCode (id : string)
| HListAudit | HAsset (path mime : string).

(** A path of the table: [None] is a parameter, [{id}]. *)
Fixpoint match_path (pattern : list (option string)) (path : list string) : option (list string) :=
  match pattern, path with
  | [], [] => Some []
  | Some s :: pattern, p :: path => if s =?= p then match_path pattern path else None
  | None :: pattern, p :: path => params ← match_path pattern path; Some (p :: params)
  | _, _ => None
  end.

(** The path, the handler of [get], and that of [post] with the parameters. *)
Record Route := MkRoute {
  ro_path : list (option string);
  ro_get : option Handler;
  ro_post : list string -> option Handler;
}.

Definition only_get (path : list (option string)) (h : Handler) : Route := MkRoute path (Some h) (λ _, None).
Definition only_post (path : list (option string)) (h : Handler) : Route := MkRoute path None (λ _, Some h).
Definition post_id (path : list (option string)) (h : string -> Handler) : Route :=
  MkRoute path None (λ params, match params with [id] => Some (h id) | _ => None end).
Definition both (path : list (option string)) (on_get on_post : Handler) : Route := MkRoute path (Some on_get) (λ _, Some on_post).
Definition api (path : list (option string)) : list (option string) := Some "api" :: Some "v1" :: path.

Definition routes : list Route :=
  [ only_get [Some "health"; Some "live"] HLive;
    only_get [Some "health"; Some "ready"] HReady;
    only_get (api [Some "csrf"]) HCsrfToken;
    only_post (api [Some "auth"; Some "login"]) HLogin;
    only_post (api [Some "auth"; Some "logout"]) HLogout;
    only_get (api [Some "auth"; Some "me"]) HMe;
    both (api [Some "accounts"]) HListAccounts HCreateAccount;
    both (api [Some "characters"]) HRetired HRetired;
    only_get (api [Some "characters"; None]) HRetired;
    both (api [Some "models"; Some "providers"]) HRetired HRetired;
    both (api [Some "models"; Some "presets"]) HRetired HRetired;
    both (api [Some "conversations"]) HRetired HRetired;
    only_get (api [Some "conversations"; None]) HRetired;
    only_get (api [Some "conversations"; None; Some "history"]) HRetired;
    only_post (api [Some "conversations"; None; Some "messages"]) HRetired;
    only_post (api [Some "conversations"; None; Some "undo"]) HRetired;
    only_post (api [Some "conversations"; None; Some "redo"]) HRetired;
    only_post (api [Some "conversations"; None; Some "compress"]) HRetired;
    both (api [Some "telegram"; Some "bots"]) HListBots HUpsertBot;
    post_id (api [Some "telegram"; Some "bots"; None; Some "start"]) HStartBot;
    post_id (api [Some "telegram"; Some "bots"; None; Some "stop"]) HStopBot;
    post_id (api [Some "telegram"; Some "bots"; None; Some "bind-code"]) HCreateBindCode;
    only_get (api [Some "audit"]) HListAudit;
    only_get [] (HAsset "index.html" "text/html; charset=utf-8");
    only_get [Some "app.js"] (HAsset "app.js" "text/javascript; charset=utf-8");
    only_get [Some "style.css"] (HAsset "style.css" "text/css; charset=utf-8") ].

(** [get] serves HEAD too. *)
Definition on_route (method : string) (params : list string) (r : Route) : option Handler :=
  if (method =?= "GET") || (method =?= "HEAD") then ro_get r else if method =?= "POST" then ro_post r params else None.

Fixpoint find_route (rs : list Route) (method : string) (path : list string) : option Handler :=
  match rs with
  | [] => None
  | r :: rs => match match_path (ro_path r) path with
               | Some params => on_route method params r
               | None => find_route rs method path
               end
  end.

Definition handler_of : string -> list string -> option Handler := find_route routes.

(** ** Replies *)

Record AuditRow := MkAuditRow {
  au_actor_id : option string;
  au_operation : string;
  au_resource_type : option string;
  au_resource_id : option string;
  au_request_id : option string;              (* stored, and not listed *)
  au_result : string;
  au_metadata_json : string;
  au_created_at : string;
}.

(** [AuditModule::record] and [list]: the table is append-only and numbered, so its
    rows from the newest are a list that grows at its head. *)
Definition audit_record (actor_id : option string) (operation : string)
    (resource_type resource_id request_id : option string) (outcome metadata_json now : string)
    (rows : list AuditRow) : list AuditRow :=
  MkAuditRow actor_id operation resource_type resource_id request_id outcome metadata_json now :: rows.

Definition audit_list (limit : nat) (rows : list AuditRow) : list AuditRow := take limit rows.

Inductive Reply : Type :=
| ReplyOk
| ReplyToken (token : string)
| ReplyAccountIn (account : Account) (workspace_id : option string)
| ReplyAccount (account : Account)
| ReplyAccounts (items : list Account)
| ReplyBots (items : list (string * TelegramBot * string))
| ReplyBot (bot : TelegramBot)
| ReplyStatus (status : string)
| ReplyBindCode (code expires_at : string) (ttl_ms : Z)
| ReplyAudit (items : list AuditRow)
| ReplyReady (status : Z) (st_configured : bool) (st_mode : string) (write_ready : bool)
| ReplyDbUnavailable
| ReplyAsset (path mime : string).

(** ** What a handler may change *)

Section Api.
Context `{SL : SessionLayer} {R : Type} `{PollerOwnershipRegistry R} `{Aead}.

Record HttpDB := MkHttpDB {
  hd_identity : IdentityDB;
  hd_bind : BindDB;
  hd_module : ModuleState (R := R);  (* the bots and their pollers *)
  hd_vault : DB;
  hd_audit : list AuditRow;          (* newest first *)
}.

(** A request's session, the database, and the number of the next id to be drawn. *)
Record Web := MkWeb { wb_session : Session; wb_db : HttpDB; wb_next : nat }.

Definition web_session (s : Session) (w : Web) : Web := MkWeb s (wb_db w) (wb_next w).
Definition web_db (d : HttpDB) (w : Web) : Web := MkWeb (wb_session w) d (wb_next w).
Definition web_identity (i : IdentityDB) (w : Web) : Web :=
  let d := wb_db w in
  web_db (MkHttpDB i (follow_bind i (ms_bots (hd_module d)) (hd_bind d)) (hd_module d) (hd_vault d) (hd_audit d)) w.
Definition web_module (m : ModuleState) (w : Web) : Web :=
  let d := wb_db w in
  web_db (MkHttpDB (hd_identity d) (follow_bind (hd_identity d) (ms_bots m) (hd_bind d)) m (hd_vault d) (hd_audit d)) w.
Definition web_bind (b : BindDB) (w : Web) : Web :=
  let d := wb_db w in web_db (MkHttpDB (hd_identity d) b (hd_module d) (hd_vault d) (hd_audit d)) w.
Definition web_vault (v : DB) (w : Web) : Web :=
  let d := wb_db w in web_db (MkHttpDB (hd_identity d) (hd_bind d) (hd_module d) v (hd_audit d)) w.

(** What a request finds outside: times, a free permit of the password budget, the
    code drawn, what starting and stopping a poller meet, and health. *)
Record Inputs := MkInputs {
  in_now : string;
  in_cutoff : string;
  in_later : string;
  in_expires_at : string;
  in_permit : bool;
  in_code : string;
  in_nonce : string;
  in_start_reads : StartReads;
  in_task : ModuleState (R := R) -> ModuleState (R := R) * JoinOutcome;
  in_db_up : bool;
  in_probe : option (StResult StStatus);
}.

Context (argon2_hash : string -> string -> string) (argon2_verify : string -> string -> AppResult bool).
Context (sha256_hex bind_code_hmac : string -> string) (new_id : nat -> string) (vault : EncryptedSqliteVault).
Context (config : AppConfig).

Definition draw : Stm Web string := λ w, (MkWeb (wb_session w) (wb_db w) (S (wb_next w)), Ok (new_id (wb_next w))).

(** *** CSRF *)

Definition get_value (key : string) : Stm Web (option string) :=
  λ w, (w, ok_or (session_get key (wb_session w)) (internal "session read failed")).

Definition on_session (f : Session -> option Session) (message : string) : Stm Web unit :=
  λ w, match f (wb_session w) with Some s => (web_session s w, Ok tt) | None => (w, Err (internal message)) end.

Definition ensure_csrf : Stm Web string :=
  run! existing := get_value "csrf_token" in
  match existing with
  | Some token => sret token
  | None =>
      run! token := draw in
      run! _ := on_session (session_insert "csrf_token" token) "session write failed" in
      sret token
  end.

Definition is_safe_method (method : string) : bool :=
  (method =?= "GET") || (method =?= "HEAD") || (method =?= "OPTIONS").

(** [hmac_eq]: equality in constant time. *)
Definition hmac_eq (left right : string) : bool := left =?= right.

(** [header]: the value of [x-csrf-token], when it is text. *)
Definition require_csrf (header : option string) (method : string) : Stm Web unit :=
  if is_safe_method method then sret tt else
  run! expected := ensure_csrf in
  if hmac_eq expected (default "" header) then sret tt else serr (forbidden "CSRF token missing or invalid").

(** *** Who asks *)

Definition current_actor : Stm Web Actor :=
  run! account_id := get_value "account_id" in
  match account_id with
  | None => serr (unauthorized "login required")
  | Some account_id =>
      run! account := (λ w, (w, ok_or (get_by_id account_id (hd_identity (wb_db w))) (unauthorized "login required"))) in
      if bool_decide (is_Some (acc_disabled_at account)) then serr (forbidden "account disabled") else
      run! workspace_id := (λ w, (w, default_workspace_id (acc_id account) (hd_identity (wb_db w)))) in
      λ w, (w, actor_in_workspace account workspace_id (hd_identity (wb_db w)))
  end.

Definition require_workspace_manager (actor : Actor) : AppResult unit :=
  if can_manage_workspace actor then Ok tt else Err (forbidden "workspace admin required").

Definition require_resource_workspace (actor : Actor) (workspace_id : string) : AppResult unit :=
  if acc_is_system_admin (act_account actor) then Ok tt else
  let? own := require_workspace actor in
  if own =?= workspace_id then Ok tt else Err (forbidden "resource is outside the current workspace").

(** The beginning of the handlers of one bot. *)
Definition manager : Stm Web Actor :=
  run! actor := current_actor in
  run! _ := slift (require_workspace_manager actor) in
  sret actor.

Definition managed_bot (id : string) : Stm Web (Actor * TelegramBot) :=
  run! actor := manager in
  run! bot := (λ w, (w, ok_or (get_bot id (ms_bots (hd_module (wb_db w)))) (not_found "BOT_NOT_FOUND" "bot not found"))) in
  run! _ := slift (require_resource_workspace actor (bot_workspace_id bot)) in
  sret (actor, bot).

(** *** Accounts *)

Definition login (x : Inputs) (body : LoginBody) : Stm Web Reply :=
  if negb (in_permit x) then serr (too_many "password verification capacity is busy") else
  run! account := (λ w, let '(i, r) := authenticate argon2_verify (in_now x) (in_cutoff x) (in_later x)
                                         (lb_username body) (lb_password body) (hd_identity (wb_db w)) in
                        (web_identity i w, r)) in
  run! _ := on_session (session_insert "account_id" (acc_id account)) "session write failed" in
  run! _ := on_session session_cycle_id "session rotate failed" in
  run! workspace := sget (λ w, match default_workspace_id (acc_id account) (hd_identity (wb_db w)) with
                               | Ok ws => Some ws | Err _ => None end) in
  sret (ReplyAccountIn account workspace).

Definition logout : Stm Web Reply :=
  run! _ := on_session session_flush "session flush failed" in sret ReplyOk.

Definition me : Stm Web Reply :=
  run! actor := current_actor in sret (ReplyAccountIn (act_account actor) (act_workspace_id actor)).

Definition create_account_api (x : Inputs) (body : CreateAccountBody) : Stm Web Reply :=
  run! actor := current_actor in
  if negb (in_permit x) then serr (too_many "password hashing capacity is busy") else
  run! salt := draw in run! id := draw in run! workspace := draw in
  run! account := (λ w, let '(i, r) := create_account argon2_hash (in_now x) salt id workspace actor (ca_username body)
                                         (ca_password body) (ca_display_name body) (ca_is_admin body) (hd_identity (wb_db w)) in
                        (web_identity i w, r)) in
  sret (ReplyAccount account).

Definition list_accounts_api : Stm Web Reply :=
  run! actor := current_actor in
  if negb (acc_is_system_admin (act_account actor)) then serr (forbidden "admin required") else
  run! items := sget (λ w, list_accounts (hd_identity (wb_db w))) in
  sret (ReplyAccounts items).

(** *** Bots *)

Definition list_bots_api : Stm Web Reply :=
  run! actor := manager in
  run! workspace_id := slift (require_workspace actor) in
  run! items := sget (λ w, let m := hd_module (wb_db w) in
    map (λ kb : string * TelegramBot, (kb.1, kb.2, runtime_status kb.1 m)) (list_bots workspace_id (ms_bots m))) in
  sret (ReplyBots items).

(** [char::is_control]: U+0000..U+001F and U+007F..U+009F. *)
Fixpoint has_control (s : string) : bool :=
  match s with
  | EmptyString => false
  | String a r =>
      in_range 0 31 a || in_range 127 127 a
      || match r with String b _ => in_range 194 194 a && in_range 128 159 b | EmptyString => false end || has_control r
  end.

Definition token_ok (token : string) : bool :=
  let len := String.length token in
  (16 <=? len) && (len <=? 256) && negb (bool_decide (is_Some (find_stop true (λ _, false) token))) && negb (has_control token).

Definition put_token (x : Inputs) (workspace_id token : string) : Stm Web string :=
  run! id := draw in
  λ w, let '(v, r) := @vault_put _ sha256_hex {| request_id := id; Errors.new_id := id |} (in_now x) (in_nonce x) vault
                        workspace_id "telegram_bot_token" token (hd_vault (wb_db w)) in
       (web_vault v w, result_map meta_id r).

Definition upsert_bot_api (x : Inputs) (body : BotBody) : Stm Web Reply :=
  run! actor := manager in
  run! secret_id := match bb_token body with
                    | Some token =>
                        if token =?= "" then sret None else
                        if negb (token_ok token)
                        then serr (bad_request "TELEGRAM_TOKEN_INVALID"
                                     "Telegram bot token must contain 16-256 non-whitespace characters") else
                        run! workspace_id := slift (require_workspace actor) in
                        run! id := put_token x workspace_id token in sret (Some id)
                    | None => sret None
                    end in
  run! id := draw in
  run! bot := (λ w, let d := wb_db w in
                    let '(bots, r) := upsert_bot id actor secret_id (bb_desired_enabled body)
                                        (dom (id_workspaces (hd_identity d))) (dom (id_accounts (hd_identity d)))
                                        (dom (secrets (hd_vault d))) (ms_bots (hd_module d)) in
                    (web_module (TelegramRuntime.set_bots (λ _, bots) (hd_module d)) w, r)) in
  sret (ReplyBot bot).

Definition start_bot_api (x : Inputs) (id : string) : Stm Web Reply :=
  run! found := managed_bot id in
  run! instance := draw in
  run! _ := (λ w, let '(m, r) := start_bot instance id found.2 (in_start_reads x) (hd_module (wb_db w)) in (web_module m w, r)) in
  run! status := sget (λ w, runtime_status id (hd_module (wb_db w))) in
  sret (ReplyStatus status).

Definition stop_bot_api (x : Inputs) (id : string) : Stm Web Reply :=
  run! _ := managed_bot id in
  run! _ := (λ w, let '(m, r) := stop_bot id true (in_task x) (hd_module (wb_db w)) in (web_module m w, r)) in
  sret ReplyOk.

(** The code is for the owner of the bot. *)
Definition create_bind_code (x : Inputs) (id : string) : Stm Web Reply :=
  run! found := managed_bot id in
  run! row := draw in
  run! code := (λ w, let '(b, r) := generate_bind_code bind_code_hmac (in_now x) (in_expires_at x) row (in_code x) id
                                      (bot_owner_account_id found.2) (hd_bind (wb_db w)) in
                     (web_bind b w, r)) in
  sret (ReplyBindCode code (in_expires_at x) (5 * 60 * 1000)).

(** *** The rest *)

Definition list_audit : Stm Web Reply :=
  run! actor := current_actor in
  if negb (acc_is_system_admin (act_account actor)) then serr (forbidden "system admin required") else
  run! items := sget (λ w, audit_list 100 (hd_audit (wb_db w))) in
  sret (ReplyAudit items).

Definition ready (x : Inputs) : Reply :=
  if negb (in_db_up x) then ReplyDbUnavailable else
  let st := ac_st config in
  let write_ready := match in_probe x with Some (Ok status) => write_ready status | _ => false end in
  let required_write := allows_write (write_mode st) in
  ReplyReady (if required_write && negb write_ready then 503 else 200) (bool_decide (is_Some (cf_base_url st)))
    (cf_mode st) write_ready.

Definition native_backend_retired : AppError := gone ST_WRITE_NOT_READY_CODE ST_WRITE_NOT_READY_MESSAGE.

(** The handler with its extracted body; [None]: axum refuses the body. *)
Definition run_handler (x : Inputs) (body : option Value) (h : Handler) : option (Stm Web Reply) :=
  match h with
  | HLive => Some (sret ReplyOk)
  | HReady => Some (sret (ready x))
  | HCsrfToken => Some (run! token := ensure_csrf in sret (ReplyToken token))
  | HLogin => v ← body; b ← LoginBody_from_value v; Some (login x b)
  | HLogout => Some logout
  | HMe => Some me
  | HListAccounts => Some list_accounts_api
  | HCreateAccount => v ← body; b ← CreateAccountBody_from_value v; Some (create_account_api x b)
  | HRetired => Some (serr native_backend_retired)
  | HListBots => Some list_bots_api
  | HUpsertBot => v ← body; b ← BotBody_from_value v; Some (upsert_bot_api x b)
  | HStartBot id => Some (start_bot_api x id)
  | HStopBot id => Some (stop_bot_api x id)
  | HCreateBindCode id => Some (create_bind_code x id)
  | HListAudit => Some list_audit
  | HAsset path mime => Some (sret (ReplyAsset path mime))
  end.

(** [csrf_middleware], then the handler.  [Ok None]: no route or no body. *)
Definition serve (x : Inputs) (method : string) (path : list string) (header : option string) (body : option Value)
    : Stm Web (option Reply) :=
  run! _ := require_csrf header method in
  match (h ← handler_of method path; run_handler x body h) with
  | Some handler => run! reply := handler in sret (Some reply)
  | None => sret None
  end.
End Api.

(** ** Web sessions in SQLite ([src/adapters/http/session_store.rs])

    The table [tower_sessions] behind the sessions of the HTTP API: a record is stored
    as MessagePack bytes with its expiry.  The record, its encoding and the ids drawn
    for it are the tower_sessions crate's: parameters. *)

(** Rows by id: the bytes and the expiry, in seconds. *)
Notation SessionTable := (gmap string (string * Z)).

Section Store.
Context {Record_ : Type} (record_id : Record_ -> string) (record_expiry : Record_ -> Z) (set_id : string -> Record_ -> Record_).
Context (to_vec : Record_ -> option string) (from_slice : string -> option Record_).

(** [INSERT OR IGNORE]: whether a row was inserted. *)
Definition insert_or_ignore (id data : string) (expiry : Z) (t : SessionTable) : SessionTable * bool :=
  match t !! id with Some _ => (t, false) | None => (<[id := (data, expiry)]> t, true) end.

(** [create]: [ids] are the ids [Id::default] draws while the one tried is taken.  The
    outer [None]: every id drawn was taken; the inner one: the record has no encoding. *)
Fixpoint create_session (ids : list string) (record : Record_) (t : SessionTable)
    : option (SessionTable * option Record_) :=
  match to_vec record with
  | None => Some (t, None)
  | Some data =>
      match insert_or_ignore (record_id record) data (record_expiry record) t with
      | (t, true) => Some (t, Some record)
      | (t, false) => match ids with [] => None | id :: ids => create_session ids (set_id id record) t end
      end
  end.

(** [ON CONFLICT(id) DO UPDATE]. *)
Definition save_session (record : Record_) (t : SessionTable) : option SessionTable :=
  data ← to_vec record; Some (<[record_id record := (data, record_expiry record)]> t).

(** [Some None]: no such session, or it has expired; [None]: the bytes are no record. *)
Definition load_session (now : Z) (id : string) (t : SessionTable) : option (option Record_) :=
  match t !! id with
  | Some (data, expiry) => if (now <? expiry)%Z then record ← from_slice data; Some (Some record) else Some None
  | None => Some None
  end.

Definition delete_session (id : string) (t : SessionTable) : SessionTable := delete id t.

Definition delete_expired (now : Z) (t : SessionTable) : SessionTable :=
  filter (λ kr : string * (string * Z), ~ (kr.2.2 <= now)%Z) t.

(** *** Sessions last until they expire *)

Context (decodes : forall record data, to_vec record = Some data -> from_slice data = Some record).
Context (id_set : forall id record, record_id (set_id id record) = id).
Context (expiry_set : forall id record, record_expiry (set_id id record) = record_expiry record).

Lemma create_session_spec ids record t t' made :
  create_session ids record t = Some (t', Some made) ->
  t !! record_id made = None /\ record_expiry made = record_expiry record
  /\ exists data, to_vec made = Some data /\ t' = <[record_id made := (data, record_expiry made)]> t.
Proof.
  revert record. induction ids as [|id ids IH]; intros record; cbn [create_session];
    (destruct (to_vec record) as [data|] eqn:Ed; [| done]); unfold insert_or_ignore;
    destruct (t !! record_id record) as [r|] eqn:Er; try done.
  - intros [= <- <-]. split_and!; try done. by exists data.
  - intros Hc. apply IH in Hc as (Hn & He & Hm). rewrite expiry_set in He. done.
  - intros [= <- <-]. split_and!; try done. by exists data.
Qed.

Lemma load_inserted now record data t :
  to_vec record = Some data ->
  load_session now (record_id record) (<[record_id record := (data, record_expiry record)]> t)
    = Some (if (now <? record_expiry record)%Z then Some record else None).
Proof.
  intros Hd. unfold load_session. rewrite lookup_insert_eq. destruct (now <? record_expiry record)%Z; [| done].
  by rewrite (decodes _ _ Hd).
Qed.

(** A session lasts as long as its expiry says.  A session that is created gets an id
    nobody has, so that no other session is touched; the record created or saved is
    what is loaded until its expiry, and nothing is loaded from then on; sweeping the
    expired rows changes no load at that time or later; and a deleted session is gone. *)
Theorem sessions_last_until_they_expire ids record t t' made now :
  create_session ids record t = Some (t', Some made) ->
  t !! record_id made = None
  /\ (forall id, id <> record_id made -> t' !! id = t !! id)
  /\ load_session now (record_id made) t' = Some (if (now <? record_expiry record)%Z then Some made else None)
  /\ (forall saved t2, save_session saved t' = Some t2 ->
        load_session now (record_id saved) t2 = Some (if (now <? record_expiry saved)%Z then Some saved else None))
  /\ (forall swept id, (swept <= now)%Z -> load_session now id (delete_expired swept t') = load_session now id t')
  /\ load_session now (record_id made) (delete_session (record_id made) t') = Some None.
Proof.
  intros (Hn & He & data & Hd & ->)%create_session_spec. split_and!; try done.
  - intros id Hid. by rewrite lookup_insert_ne.
  - rewrite <- He. by apply load_inserted.
  - intros saved t2. unfold save_session. destruct (to_vec saved) as [ds|] eqn:Es; [| done]. intros [= <-]. by apply load_inserted.
  - intros swept id Hle. set (rows := <[_ := _]> t). unfold load_session, delete_expired.
    destruct (rows !! id) as [[b e]|] eqn:Er.
    + destruct (decide (e <= swept)%Z) as [Hexp|Hexp].
      * rewrite (map_lookup_filter_None_2 _ _ id); [| right; intros x Hx; simplify_eq; simpl; lia].
        destruct (Z.ltb_spec now e); [lia | done].
      * by rewrite (map_lookup_filter_Some_2 _ _ id (b, e)).
    + by rewrite (map_lookup_filter_None_2 _ _ id) by (by left).
  - unfold load_session, delete_session. by rewrite lookup_delete_eq.
Qed.

(** A free id among those drawn is enough for [create] to end. *)
Lemma create_session_ends ids record t :
  Exists (λ id, t !! id = None) (record_id record :: ids) ->
  is_Some (create_session ids record t).
Proof.
  revert record. induction ids as [|id ids IH]; intros record He; cbn [create_session];
    (destruct (to_vec record); [| by eexists]); unfold insert_or_ignore;
    destruct (t !! record_id record) as [r|] eqn:Er; try (by eexists).
  - apply Exists_cons in He as [|He%Exists_nil]; [congruence | done].
  - apply IH. rewrite id_set. apply Exists_cons in He as [|He]; [congruence | done].
Qed.
End Store.
