(* ===== verification/HttpCorrect.v ===== *)
(** * Who may change what over HTTP

    Theorems on [HttpApi]: every change of the database by a request has a session, a
    CSRF token and the authority for it. *)

From stdpp Require Import pretty.
From S2P Require Import Prelude Text Errors StDomain Readiness Redaction PollerOwnership Engine OperationStore StoreCorrect Vault BindCodes TelegramInbox TelegramRuntime Identity Stateful Decoder Config LegacyImport PluginImport HttpApi.
From Stdlib Require Import Lia.

Section Authority.
Context `{SL : SessionLayer} `{LS : !LawfulSession SL} {R : Type} `{PR : PollerOwnershipRegistry R} `{AE : Aead}.
Context (argon2_hash : string -> string -> string) (argon2_verify : string -> string -> AppResult bool).
Context (sha256_hex bind_code_hmac : string -> string) (new_id : nat -> string) (vault : EncryptedSqliteVault).
Context (config : AppConfig).

Notation Web := (@Web SL R).
Notation Inputs := (@Inputs R).

(** ** Sessions *)

Definition account_of (w : Web) : option (option string) := session_get "account_id" (wb_session w).

(** The token a request has to show: the session's, or the one it is given now. *)
Definition csrf_token (w : Web) (token : string) : Prop :=
  session_get "csrf_token" (wb_session w) = Some (Some token)
  \/ (session_get "csrf_token" (wb_session w) = Some None /\ token = new_id (wb_next w)).

(** The session's account, enabled, in its default workspace. *)
Definition signed_in (w : Web) (actor : Actor) : Prop :=
  exists id row ws, account_of w = Some (Some id) /\ id_accounts (hd_identity (wb_db w)) !! id = Some row
    /\ ac_disabled_at row = None /\ act_account actor = into_account id row
    /\ default_workspace id (hd_identity (wb_db w)) = Some ws /\ act_workspace_id actor = Some ws
    /\ (ac_is_system_admin row <> 0%Z
        \/ exists m, id_members (hd_identity (wb_db w)) !! (ws, id) = Some m
             /\ WorkspaceRole_parse (mb_role m) = act_workspace_role actor).

(** The bot is in the actor's workspace, or the actor is the system's administrator. *)
Definition in_reach (w : Web) (actor : Actor) (id : string) (bot : TelegramBot) : Prop :=
  ms_bots (hd_module (wb_db w)) !! id = Some bot
  /\ (acc_is_system_admin (act_account actor) = true \/ act_workspace_id actor = Some (bot_workspace_id bot)).

(** ** What a handler may do *)

Definition same_accounts (w w' : Web) : Prop :=
  id_accounts (hd_identity (wb_db w')) = id_accounts (hd_identity (wb_db w))
  /\ id_members (hd_identity (wb_db w')) = id_members (hd_identity (wb_db w)).

(** The password is that of the account. *)
Definition password_of (w : Web) (body : option Value) (id : string) : Prop :=
  exists v b row, body = Some v /\ LoginBody_from_value v = Some b
    /\ id_accounts (hd_identity (wb_db w)) !! id = Some row /\ ac_username row = lb_username b
    /\ ac_disabled_at row = None /\ argon2_verify (lb_password b) (ac_password_hash row) = Ok true.

Record api_effect (body : option Value) (h : Handler) (w w' : Web) : Prop := MkApiEffect {
  ae_accounts : same_accounts w w'
    \/ (h = HCreateAccount /\ exists actor, signed_in w actor /\ acc_is_system_admin (act_account actor) = true);
  ae_pollers : hd_module (wb_db w') = hd_module (wb_db w)
    \/ exists actor, signed_in w actor /\ can_manage_workspace actor = true
         /\ ((h = HUpsertBot /\ forall id b, ms_bots (hd_module (wb_db w)) !! id = Some b ->
                act_workspace_id actor <> Some (bot_workspace_id b) -> ms_bots (hd_module (wb_db w')) !! id = Some b)
             \/ exists id bot, (h = HStartBot id \/ h = HStopBot id) /\ in_reach w actor id bot);
  ae_codes : bind_codes (hd_bind (wb_db w')) = bind_codes (hd_bind (wb_db w))
    \/ exists actor id bot, h = HCreateBindCode id /\ signed_in w actor /\ can_manage_workspace actor = true
         /\ in_reach w actor id bot
         /\ forall c row, bind_codes (hd_bind (wb_db w')) !! c = Some row ->
              bind_codes (hd_bind (wb_db w)) !! c = Some row
              \/ (bc_bot_id row = id /\ bc_target_account_id row = bot_owner_account_id bot);
  ae_users : external_identities (hd_bind (wb_db w')) = external_identities (hd_bind (wb_db w))
    /\ telegram_bindings (hd_bind (wb_db w')) = telegram_bindings (hd_bind (wb_db w));
  ae_secrets : hd_vault (wb_db w') = hd_vault (wb_db w)
    \/ (h = HUpsertBot /\ exists actor, signed_in w actor /\ can_manage_workspace actor = true);
  ae_login : account_of w' = account_of w
    \/ (h = HLogin /\ exists id, account_of w' = Some (Some id) /\ password_of w body id)
    \/ (h = HLogout /\ account_of w' = Some None);
}.

(** Nothing but the session's other values and the ids drawn. *)
Definition still (w w' : Web) : Prop := wb_db w' = wb_db w /\ account_of w' = account_of w.

Lemma still_effect body h w w' : still w w' -> api_effect body h w w'.
Proof. intros [Hd Ha]. split; unfold same_accounts; rewrite ?Hd; auto. Qed.

(** Before the handler runs, nothing it looks at changes. *)
Lemma still_signed w w' actor : still w w' -> signed_in w' actor -> signed_in w actor.
Proof. intros [Hd Ha]. unfold signed_in. by rewrite Hd, Ha. Qed.

Lemma still_effect_trans body h w w1 w' : still w w1 -> api_effect body h w1 w' -> api_effect body h w w'.
Proof.
  intros Hs [A P C U S L]. pose proof Hs as [Hd Ha]. pose proof (still_signed w w1) as Hsig.
  unfold same_accounts, password_of, in_reach in *. rewrite Hd in A, P, C, U, S, L. rewrite Ha in L.
  split; unfold same_accounts, password_of, in_reach; try done.
  - destruct A as [|(? & a & ? & ?)]; eauto 10.
  - destruct P as [|(a & ? & ? & ?)]; [by left | right; exists a; auto].
  - destruct C as [|(a & id & bot & ? & ? & ?)]; [by left | right; exists a, id, bot; auto].
  - destruct S as [|(? & a & ? & ?)]; eauto 10.
Qed.

(** ** The parts of a handler *)

Lemma draw_still w w' r : draw new_id w = (w', r) -> still w w'.
Proof. by intros [= <- _]. Qed.

Lemma ensure_csrf_spec w w' r :
  ensure_csrf new_id w = (w', r) -> still w w' /\ forall token, r = Ok token -> csrf_token w token.
Proof.
  unfold ensure_csrf, sbind, get_value, csrf_token. destruct (session_get "csrf_token" _) as [[t|]|] eqn:E; simpl.
  - intros [= <- <-]. split; [done |]. intros token [= <-]. by left.
  - unfold on_session. simpl. destruct (session_insert _ _ _) as [s|] eqn:Ei; intros [= <- <-]; (split; [split; [done |] |]).
    + unfold account_of. simpl. by rewrite (get_inserted _ _ _ _ _ Ei).
    + intros token [= <-]. by right.
    + done.
    + done.
  - intros [= <- <-]. split; [done | by intros]. 
Qed.

Lemma require_csrf_spec header method w w' r :
  require_csrf new_id header method w = (w', r) ->
  still w w' /\ (r = Ok tt -> is_safe_method method = true \/ csrf_token w (default "" header)).
Proof.
  unfold require_csrf. destruct (is_safe_method method); [intros [= <- <-]; split; [done | by left] |].
  unfold sbind. destruct (ensure_csrf new_id w) as [w1 [token|e]] eqn:E; apply ensure_csrf_spec in E as [Hs Ht].
  - unfold hmac_eq. case_bool_decide as Hq; intros [= <- <-]; (split; [done |]); [| done]. intros _. right. apply Ht. by rewrite Hq.
  - intros [= <- <-]. by split.
Qed.

Lemma current_actor_spec w w' r :
  current_actor w = (w', r) -> w' = w /\ forall actor, r = Ok actor -> signed_in w actor.
Proof.
  unfold current_actor, sbind at 1, get_value. destruct (session_get "account_id" _) as [[id|]|] eqn:E; simpl.
  2,3: intros [= <- <-]; by split.
  unfold sbind at 1. destruct (get_by_id id _) as [account|] eqn:Eg; simpl; [| intros [= <- <-]; by split].
  unfold get_by_id in Eg. destruct (id_accounts _ !! id) as [row|] eqn:Er; [| done]. injection Eg as <-.
  case_bool_decide as Hd; [intros [= <- <-]; by split |]. unfold sbind. simpl.
  unfold default_workspace_id. destruct (default_workspace id _) as [ws|] eqn:Ew; simpl; [| intros [= <- <-]; by split].
  intros [= <- <-]. split; [done |]. intros actor Ha.
  apply actor_in_workspace_Ok in Ha as (r & role & Hr & Hdis & Hact & Hws & Hrole & Hacc). simpl in *. simplify_eq.
  exists id, row, ws. split_and!; try done. destruct Hacc as [|(m & Hm & Hp)]; [by left | right]. exists m. by rewrite Hp, Hrole.
Qed.

Lemma manager_spec w w' r :
  manager w = (w', r) -> w' = w /\ forall actor, r = Ok actor -> signed_in w actor /\ can_manage_workspace actor = true.
Proof.
  unfold manager, sbind. destruct (current_actor w) as [w1 [a|e]] eqn:E; apply current_actor_spec in E as [-> Ha].
  - unfold slift, require_workspace_manager. destruct (can_manage_workspace a) eqn:Hc; intros [= <- <-]; (split; [done |]); [| done].
    intros actor [= <-]. auto.
  - intros [= <- <-]. by split.
Qed.

Lemma managed_bot_spec id w w' r :
  managed_bot id w = (w', r) ->
  w' = w /\ forall actor bot, r = Ok (actor, bot) -> signed_in w actor /\ can_manage_workspace actor = true /\ in_reach w actor id bot.
Proof.
  unfold managed_bot, sbind at 1. destruct (manager w) as [w1 [a|e]] eqn:E; apply manager_spec in E as [-> Ha].
  2: { intros [= <- <-]. by split. }
  unfold sbind at 1, get_bot. destruct (ms_bots _ !! id) as [bot|] eqn:Eb; simpl; [| intros [= <- <-]; by split].
  unfold sbind, slift. destruct (require_resource_workspace a (bot_workspace_id bot)) eqn:Er; intros [= <- <-]; (split; [done |]); [| done].
  intros actor bot' [= <- <-]. destruct (Ha a eq_refl) as [Hs Hm]. split; [done | split; [done |]]. split; [done |].
  unfold require_resource_workspace, require_workspace in Er. destruct (acc_is_system_admin _); [by left | right].
  destruct (act_workspace_id a) as [ws|]; [| done]. simpl in Er. case_bool_decide; [by subst | done].
Qed.

(** ** The handlers *)

Notation do_login := (login argon2_verify).
Notation do_upsert := (upsert_bot_api sha256_hex new_id vault).

Lemma authenticate_spec now cutoff later u p i i' r :
  authenticate argon2_verify now cutoff later u p i = (i', r) ->
  id_accounts i' = id_accounts i /\ id_members i' = id_members i
  /\ forall a, r = Ok a -> exists id row, a = into_account id row /\ id_accounts i !! id = Some row
       /\ ac_username row = u /\ ac_disabled_at row = None /\ argon2_verify p (ac_password_hash row) = Ok true.
Proof.
  unfold authenticate. destruct (_ || _); [intros [= <- <-]; done |]. destruct (check_login_rate _ _ _); [| intros [= <- <-]; done].
  destruct (find_username u i) as [[id row]|] eqn:Ef; [| intros [= <- <-]; done].
  unfold find_username in Ef. apply head_Some_elem_of, list_elem_of_filter in Ef as [Hu Hin%elem_of_map_to_list].
  case_bool_decide as Hd; [intros [= <- <-]; done |]. destruct (argon2_verify p _) as [[]|] eqn:Ev; intros [= <- <-]; try done.
  split; [done | split; [done |]]. intros acc [= <-]. exists id, row. split_and!; try done.
  destruct (ac_disabled_at row); [by destruct Hd | done].
Qed.

Lemma login_effect x v b w w' r :
  LoginBody_from_value v = Some b -> do_login x b w = (w', r) -> api_effect (Some v) HLogin w w'.
Proof.
  intros Hb. unfold login. destruct (negb _); [intros [= <- _]; by apply still_effect |]. unfold sbind at 1.
  destruct (authenticate _ _ _ _ _ _ _) as [i res] eqn:Ea. apply authenticate_spec in Ea as (Hi & Hm & Hok).
  assert (forall s, (account_of (web_session s (web_identity i w)) = account_of w
                     \/ exists a, res = Ok a /\ account_of (web_session s (web_identity i w)) = Some (Some (acc_id a))) ->
          api_effect (Some v) HLogin w (web_session s (web_identity i w))) as Heff.
  { intros s Hs. split; cbn; auto; [left; by split |]. destruct Hs as [|(a & Hr & Hac)]; [by left | right; left].
    split; [done |]. destruct (Hok a Hr) as (id & row & -> & Hrow & Hu & Hd & Hv). exists id. split; [done |]. by exists v, b, row. }
  assert (api_effect (Some v) HLogin w (web_identity i w)) as Heff0
    by (change (web_identity i w) with (web_session (wb_session w) (web_identity i w)); apply Heff; by left).
  destruct res as [a|e]; [| intros [= <- _]; done]. unfold sbind, on_session. cbn [wb_session web_identity web_db].
  destruct (session_insert "account_id" (acc_id a) (wb_session w)) as [s1|] eqn:E1; [| intros [= <- _]; done].
  cbn [wb_session web_session]. destruct (session_cycle_id s1) as [s2|] eqn:E2; intros [= <- _];
    apply Heff; right; exists a; (split; [done |]); unfold account_of; cbn; rewrite ?(get_cycled _ _ _ E2), (get_inserted _ _ _ _ _ E1); done.
Qed.

Lemma logout_effect body w w' r : logout w = (w', r) -> api_effect body HLogout w w'.
Proof.
  unfold logout, sbind, on_session. destruct (session_flush _) as [s|] eqn:E; intros [= <- _]; [| by apply still_effect].
  split; cbn; auto; [by left; split |]. right. right. split; [done |]. unfold account_of. cbn. by rewrite (get_flushed _ _ _ E).
Qed.

Lemma create_account_effect x body b w w' r :
  create_account_api argon2_hash new_id x b w = (w', r) -> api_effect body HCreateAccount w w'.
Proof.
  unfold create_account_api, sbind at 1. destruct (current_actor w) as [w1 [a|e]] eqn:E; apply current_actor_spec in E as [-> Ha];
    [| intros [= <- _]; by apply still_effect].
  destruct (negb _); [intros [= <- _]; by apply still_effect |].
  unfold sbind at 1 2 3, draw at 1 2 3. cbn [wb_session wb_db wb_next]. unfold sbind.
  destruct (create_account _ _ _ _ _ _ _ _ _ _ _) as [i res] eqn:Ec.
  assert (api_effect body HCreateAccount w (web_identity i (MkWeb (wb_session w) (wb_db w) (S (S (S (wb_next w))))))) as He.
  { unfold create_account in Ec. destruct (active_account _ _) as [acc|] eqn:Eact.
    2: { injection Ec as <- _. split; cbn; auto. by left. }
    specialize (Ha a eq_refl). pose proof Ha as (id & row & ws & _ & Hrow & _ & Hact & _).
    apply active_account_Ok in Eact as (row' & Hrow' & -> & _). rewrite Hact in Hrow'. simpl in Hrow'.
    assert (row' = row) as -> by congruence. rewrite Hact in Ec. simpl in Ec.
    destruct (ac_is_system_admin row =? 0)%Z eqn:Ead; simpl in Ec.
    { injection Ec as <- _. split; cbn; auto. by left. }
    split; cbn; auto. right. split; [done |]. exists a. split; [done |]. rewrite Hact. simpl. by rewrite Ead. }
  destruct res; intros [= <- _]; done.
Qed.

Lemma upsert_bot_elsewhere id actor secret enabled wss accs secs bots :
  forall i b, bots !! i = Some b -> act_workspace_id actor <> Some (bot_workspace_id b) ->
  (upsert_bot id actor secret enabled wss accs secs bots).1 !! i = Some b.
Proof.
  intros i b Hb Hne. unfold upsert_bot, require_workspace. destruct (act_workspace_id actor) as [ws|]; simpl; [| done].
  destruct (head (list_bots ws bots)) as [[j bj]|] eqn:Eh.
  - unfold list_bots in Eh. apply head_Some_elem_of, list_elem_of_filter in Eh as [Hw Hin%elem_of_map_to_list]. simpl in *.
    destruct (negb _); simpl; [done |]. rewrite lookup_insert_ne; [done |]. intros <-. simplify_eq.
  - destruct (_ || _) eqn:Ec; simpl; [done |]. repeat (apply orb_false_elim in Ec as [Ec ?]).
    rewrite lookup_insert_ne; [done |]. intros <-.
    repeat match goal with H : bool_decide _ = false |- _ => apply bool_decide_eq_false in H end. eauto.
Qed.

Lemma upsert_bot_effect x body b w w' r : do_upsert x b w = (w', r) -> api_effect body HUpsertBot w w'.
Proof.
  unfold upsert_bot_api, sbind at 1. destruct (manager w) as [w1 [a|e]] eqn:E; apply manager_spec in E as [-> Ha];
    [| intros [= <- _]; by apply still_effect].
  destruct (Ha a eq_refl) as [Hs Hm]. unfold sbind at 1.
  match goal with |- context [match ?m w with _ => _ end] => destruct (m w) as [w1 res] eqn:E1 end.
  assert (exists v n, w1 = MkWeb (wb_session w) (wb_db (web_vault v w)) n) as (v & n & ->).
  { revert E1. assert (forall n, exists v n', MkWeb (wb_session w) (wb_db w) n = MkWeb (wb_session w) (wb_db (web_vault v w)) n') as H0.
    { intros n. exists (hd_vault (wb_db w)), n. by destruct w as [? [] ?]. }
    specialize (H0 (wb_next w)). destruct w as [s d n0]. cbn in H0.
    destruct (bb_token b) as [t|]; [| intros [= <- _]; exact H0]. destruct (t =?= ""); [intros [= <- _]; exact H0 |].
    destruct (negb _); [intros [= <- _]; exact H0 |]. unfold sbind at 1, slift. destruct (require_workspace a); [| intros [= <- _]; exact H0].
    unfold sbind, put_token, sbind, draw. cbn. destruct (vault_put _ _ _ _ _ _ _ _) as [v rv].
    destruct (result_map meta_id rv); intros [= <- _]; eauto. }
  destruct res as [secret|e].
  2: { intros [= <- _]. split; cbn; auto; [by left; split | right]. split; [done |]. eauto. }
  unfold sbind, draw. cbn. destruct (upsert_bot _ _ _ _ _ _ _ _) as [bots rb] eqn:Eb.
  assert (api_effect body HUpsertBot w (web_module (TelegramRuntime.set_bots (λ _, bots) (hd_module (wb_db w)))
            (MkWeb (wb_session w) (wb_db (web_vault v w)) (S n)))) as He.
  { split; cbn; auto; [by left; split | | right; split; [done |]; eauto]. right. exists a. split; [done | split; [done |]]. left. split; [done |].
    intros id b0 Hb0 Hne. change bots with (bots, rb).1. rewrite <- Eb. by apply upsert_bot_elsewhere. }
  destruct rb; intros [= <- _]; done.
Qed.

Lemma start_effect x body id w w' r : start_bot_api new_id x id w = (w', r) -> api_effect body (HStartBot id) w w'.
Proof.
  unfold start_bot_api, sbind at 1. destruct (managed_bot id w) as [w1 [[a bot]|e]] eqn:E; apply managed_bot_spec in E as [-> Ha];
    [| intros [= <- _]; by apply still_effect].
  destruct (Ha a bot eq_refl) as (Hs & Hm & Hr). unfold sbind, draw. cbn.
  destruct (start_bot _ _ _ _ _) as [m res].
  assert (api_effect body (HStartBot id) w (web_module m (MkWeb (wb_session w) (wb_db w) (S (wb_next w))))) as He.
  { split; cbn; auto; [by left; split |]. right. exists a. split; [done | split; [done |]]. right. eauto. }
  destruct res; intros [= <- _]; done.
Qed.

Lemma stop_effect x body id w w' r : stop_bot_api x id w = (w', r) -> api_effect body (HStopBot id) w w'.
Proof.
  unfold stop_bot_api, sbind at 1. destruct (managed_bot id w) as [w1 [[a bot]|e]] eqn:E; apply managed_bot_spec in E as [-> Ha];
    [| intros [= <- _]; by apply still_effect].
  destruct (Ha a bot eq_refl) as (Hs & Hm & Hr). unfold sbind. destruct (stop_bot _ _ _ _) as [m res].
  assert (api_effect body (HStopBot id) w (web_module m w)) as He.
  { split; cbn; auto; [by left; split |]. right. exists a. split; [done | split; [done |]]. right. eauto. }
  destruct res; intros [= <- _]; done.
Qed.

Lemma generate_code_frame now expires id code bot account b :
  let b' := (generate_bind_code bind_code_hmac now expires id code bot account b).1 in
  external_identities b' = external_identities b /\ telegram_bindings b' = telegram_bindings b
  /\ forall c row, bind_codes b' !! c = Some row -> bind_codes b !! c = Some row \/ (bc_bot_id row = bot /\ bc_target_account_id row = account).
Proof.
  unfold generate_bind_code, insert_code. destruct (_ || _); cbn; (split; [done | split; [done |]]); intros c row.
  - intros [Hc _]%map_lookup_filter_Some. by left.
  - rewrite lookup_insert_Some. intros [[_ <-]|[_ [Hc _]%map_lookup_filter_Some]]; [by right | by left].
Qed.

Lemma bind_code_effect x body id w w' r :
  create_bind_code bind_code_hmac new_id x id w = (w', r) -> api_effect body (HCreateBindCode id) w w'.
Proof.
  unfold create_bind_code, sbind at 1. destruct (managed_bot id w) as [w1 [[a bot]|e]] eqn:E; apply managed_bot_spec in E as [-> Ha];
    [| intros [= <- _]; by apply still_effect].
  destruct (Ha a bot eq_refl) as (Hs & Hm & Hr). unfold sbind, draw. cbn.
  match goal with |- context [generate_bind_code ?a ?b ?c ?d ?e ?f ?g ?h] =>
    pose proof (generate_code_frame b c d e f g h) as Hf; destruct (generate_bind_code a b c d e f g h) as [bd res] end.
  cbn in Hf. destruct Hf as (H1 & H2 & H3).
  assert (api_effect body (HCreateBindCode id) w (web_bind bd (MkWeb (wb_session w) (wb_db w) (S (wb_next w))))) as He.
  { split; cbn; auto; [by left; split |]. right. exists a, id, bot. auto. }
  destruct res; intros [= <- _]; done.
Qed.

(** ** The handlers of GET change nothing *)

Definition read_only (h : Handler) : bool :=
  match h with
  | HLive | HReady | HCsrfToken | HMe | HListAccounts | HRetired | HListBots | HListAudit | HAsset _ _ => true
  | _ => false
  end.

Lemma route_get_read_only : Forall (λ ro, from_option read_only true (ro_get ro) = true) routes.
Proof. repeat constructor. Qed.

Lemma safe_method_read_only rs method path h :
  Forall (λ ro, from_option read_only true (ro_get ro) = true) rs -> find_route rs method path = Some h ->
  is_safe_method method = true -> read_only h = true.
Proof.
  unfold is_safe_method. induction 1 as [|ro rs Hro _ IH]; cbn [find_route]; [done |].
  destruct (match_path _ _); [| done]. unfold on_route. destruct ((method =?= "GET") || (method =?= "HEAD")) eqn:Em.
  - intros Hg _. by rewrite Hg in Hro.
  - destruct (method =?= "POST") eqn:Ep; [| done]. intros _. apply bool_decide_eq_true in Ep as ->. done.
Qed.

Notation handle := (run_handler argon2_hash argon2_verify sha256_hex bind_code_hmac new_id vault config).

Lemma sbind_still {A B} (m : Stm Web A) (k : A -> Stm Web B) w w' r :
  (forall w1 r1, m w = (w1, r1) -> w1 = w) -> (forall a w1 r1, k a w = (w1, r1) -> w1 = w) ->
  sbind m k w = (w', r) -> w' = w.
Proof.
  intros Hm Hk. unfold sbind. destruct (m w) as [w1 [a|e]] eqn:E; specialize (Hm _ _ eq_refl) as ->; [apply Hk | by intros [= <- _]].
Qed.

Lemma read_only_still x body h m w w' r : read_only h = true -> handle x body h = Some m -> m w = (w', r) -> still w w'.
Proof.
  intros Hh Hm. destruct h; cbn in Hm; try discriminate; injection Hm as <-; try (intros [= <- _]; done).
  - unfold sbind. destruct (ensure_csrf new_id w) as [w1 [t|e]] eqn:E; apply ensure_csrf_spec in E as [Hs _]; intros [= <- _]; done.
  - unfold me. intros Hr. assert (w' = w) as ->; [| done]. revert Hr. apply sbind_still; [intros * E; by apply current_actor_spec in E as [-> _] |].
    by intros * [= <- _].
  - unfold list_accounts_api. intros Hr. assert (w' = w) as ->; [| done]. revert Hr.
    apply sbind_still; [intros * E; by apply current_actor_spec in E as [-> _] |]. intros a w1 r1. by destruct (negb _); intros [= <- _].
  - unfold list_bots_api. intros Hr. assert (w' = w) as ->; [| done]. revert Hr.
    apply sbind_still; [intros * E; by apply manager_spec in E as [-> _] |]. intros a w1 r1.
    apply sbind_still; [by intros * [= <- _] |]. by intros ws w2 r2 [= <- _].
  - unfold list_audit. intros Hr. assert (w' = w) as ->; [| done]. revert Hr.
    apply sbind_still; [intros * E; by apply current_actor_spec in E as [-> _] |]. intros a w1 r1. by destruct (negb _); intros [= <- _].
Qed.

Lemma handler_effect x body h m w w' r : handle x body h = Some m -> m w = (w', r) -> api_effect body h w w'.
Proof.
  destruct (read_only h) eqn:Hro; [intros; by eapply still_effect, read_only_still |].
  destruct h; try discriminate; cbn.
  - destruct body as [v|]; [| done]. simpl. destruct (LoginBody_from_value v) as [b|] eqn:Eb; [| done]. intros [= <-]. by apply login_effect.
  - intros [= <-]. apply logout_effect.
  - destruct body as [v|]; [| done]. simpl. destruct (CreateAccountBody_from_value v) as [b|]; [| done]. intros [= <-]. apply create_account_effect.
  - destruct body as [v|]; [| done]. simpl. destruct (BotBody_from_value v) as [b|]; [| done]. intros [= <-]. apply upsert_bot_effect.
  - intros [= <-]. apply start_effect.
  - intros [= <-]. apply stop_effect.
  - intros [= <-]. apply bind_code_effect.
Qed.

(** C10: changes over HTTP need a token and the authority for them.  A request either
    leaves the database and the session's account alone, or it is no GET, HEAD or
    OPTIONS, shows the session's CSRF token, and does only what its caller may: accounts
    are created for a signed-in administrator of the system; bots are written, started
    and stopped, and bind codes drawn, for somebody who manages the workspace the bot
    is in, the code being for the bot's owner, and the bots of other workspaces stay
    as they are when a bot is written; no request binds a Telegram user; and a session
    gets an account only by that account's password, and loses it by logout. *)
Theorem api_changes_need_authority x method path header body w w' r :
  serve argon2_hash argon2_verify sha256_hex bind_code_hmac new_id vault config x method path header body w = (w', r) ->
  still w w'
  \/ exists h, handler_of method path = Some h /\ is_safe_method method = false
       /\ csrf_token w (default "" header) /\ api_effect body h w w'.
Proof.
  unfold serve, sbind at 1. destruct (require_csrf new_id header method w) as [w1 [[]|e]] eqn:E; apply require_csrf_spec in E as [Hs Hc].
  2: { intros [= <- _]. by left. }
  unfold handler_of. destruct (find_route routes method path) as [h|] eqn:Eh; cbn; [| intros [= <- _]; by left].
  destruct (handle x body h) as [m|] eqn:Em; [| intros [= <- _]; by left].
  unfold sbind. destruct (m w1) as [w2 res] eqn:Er. intros Hres.
  assert (w' = w2) as -> by (destruct res; by injection Hres as <- _). clear Hres. destruct (is_safe_method method) eqn:Esafe.
  - left. destruct Hs as [Hd Ha]. eapply read_only_still in Er as [Hd' Ha']; [| | exact Em].
    + split; congruence.
    + by eapply safe_method_read_only; [apply route_get_read_only | |].
  - right. exists h. split; [done | split; [done |]]. destruct (Hc eq_refl) as [|Hct]; [done |]. split; [done |].
    by eapply still_effect_trans, handler_effect.
Qed.
End Authority.

(** ** A workspace over HTTP *)

#[export] Instance map_sessions : SessionLayer :=
  {| Session := gmap string string; session_get k s := Some (s !! k); session_insert k v s := Some (<[k := v]> s);
     session_cycle_id s := Some s; session_flush s := Some ∅ |}.

#[export] Instance map_sessions_lawful : LawfulSession map_sessions.
Proof.
  split; simpl.
  - intros k v s s' k' [= <-]. case_bool_decide as Hk; [subst; by rewrite lookup_insert_eq | by rewrite lookup_insert_ne by done].
  - by intros s s' k [= <-].
  - intros s s' k [= <-]. by rewrite lookup_empty.
Qed.

Definition ann : AccountRow := MkAccountRow "ann" "Ann" "hash" 0 None None "t" "t".

Definition ann_db : HttpDB (R := MemoryPollerRegistry) :=
  MkHttpDB (MkIdentityDB {["a1" := ann]} {["w1" := MkWorkspaceRow "W" "a1" "t"]} {[("w1", "a1") := MkMemberRow "owner" "t"]} ∅ ∅)
    (MkBindDB ∅ ∅ ∅ ∅ {["b1" := "w1"]} {["a1"]})
    (TelegramRuntime.set_bots (λ _, {["b1" := fresh_bot "w1" "a1" None false]}) demo_module) demo_db [].

Definition ann_web (session : gmap string string) : Web := MkWeb session ann_db 0.

Definition ann_inputs : Inputs (R := MemoryPollerRegistry) :=
  MkInputs "t1" "t0" "t2" "t3" true "CODE" "nonce" (MkStartReads (Ok "") (Ok tt) (Ok JNull)) (λ m, (m, TaskDone (Ok tt))) true None.

Definition ann_config : AppConfig := sample_config.

Definition ann_serve (method : string) (path : list string) (header : option string) (body : option Value)
    : Stm (Web (SL := map_sessions) (R := MemoryPollerRegistry)) (option Reply) :=
  @serve map_sessions MemoryPollerRegistry _ toy_aead (λ _ p, p) (λ p h, Ok (h =?= "hash")) demo_sha (λ c, c)
    (λ n, "id" +:+ pretty n) demo_vault ann_config ann_inputs method path header body.

(** Ann logs in with the token of her session and draws a code for her bot. *)
Definition login_body : Value := JObject [("username", JString "ann"); ("password", JString "secret")].
Definition ann_logged_in : Web := (ann_serve "POST" ["api"; "v1"; "auth"; "login"] (Some "tok") (Some login_body)
                                     (ann_web {["csrf_token" := "tok"]})).1.
Definition ann_code : Web * AppResult (option Reply) :=
  ann_serve "POST" ["api"; "v1"; "telegram"; "bots"; "b1"; "bind-code"] (Some "tok") None ann_logged_in.

Lemma api_changes_witness :
  (still ann_logged_in ann_code.1
   \/ exists h, handler_of "POST" ["api"; "v1"; "telegram"; "bots"; "b1"; "bind-code"] = Some h /\ is_safe_method "POST" = false
        /\ csrf_token (λ n, "id" +:+ pretty n) ann_logged_in (default "" (Some "tok"))
        /\ api_effect (λ p h, Ok (h =?= "hash")) None h ann_logged_in ann_code.1)
  /\ ann_code.2 = Ok (Some (ReplyBindCode "CODE" "t3" 300000)).
Proof.
  split; [| vm_compute; reflexivity].
  refine (@api_changes_need_authority map_sessions map_sessions_lawful MemoryPollerRegistry _ toy_aead (λ _ p, p)
    (λ p h, Ok (h =?= "hash")) demo_sha (λ c, c) (λ n, "id" +:+ pretty n) demo_vault ann_config ann_inputs "POST"
    ["api"; "v1"; "telegram"; "bots"; "b1"; "bind-code"] (Some "tok") None ann_logged_in ann_code.1 ann_code.2 _).
  vm_compute. reflexivity.
Defined.

(** Without the token, or without a login, nothing is drawn. *)
Example no_code_without_token :
  (ann_serve "POST" ["api"; "v1"; "telegram"; "bots"; "b1"; "bind-code"] (Some "tak") None ann_logged_in).2
    = Err (forbidden "CSRF token missing or invalid")
  /\ (ann_serve "POST" ["api"; "v1"; "telegram"; "bots"; "b1"; "bind-code"] (Some "tok") None (ann_web {["csrf_token" := "tok"]})).2
    = Err (unauthorized "login required").
Proof. vm_compute. by split. Qed.

(** A new token takes the place of the old one, whose secret stays in the vault, where
    no row refers to it. *)
Definition token_body (token : string) : Value := JObject [("token", JString token)].
Definition with_first_token : Web :=
  (ann_serve "POST" ["api"; "v1"; "telegram"; "bots"] (Some "tok") (Some (token_body "0123456789abcdef-1")) ann_logged_in).1.
Definition with_second_token : Web :=
  (ann_serve "POST" ["api"; "v1"; "telegram"; "bots"] (Some "tok") (Some (token_body "0123456789abcdef-2")) with_first_token).1.

Example replaced_token_stays :
  (bot_token_secret_id <$> ms_bots (hd_module (wb_db with_first_token)) !! "b1") = Some (Some "id0")
  /\ (bot_token_secret_id <$> ms_bots (hd_module (wb_db with_second_token)) !! "b1") = Some (Some "id2")
  /\ @vault_get toy_aead demo_vault "id0" (hd_vault (wb_db with_second_token)) = Ok "0123456789abcdef-1".
Proof. vm_compute. by split_and!. Qed.
