(* ===== verification/LlmGateway.v ===== *)
(** * The model behind an OpenAI-compatible API ([src/adapters/llm/openai_compatible.rs])

    The request of a generation, the answer read as a whole or as a stream of events,
    and the list of models.  [reqwest] and the [http] crate (the network, what a header
    may be, the name of a status), [serde_json] and the progress sink are parameters;
    which timeout strikes in an iteration of the loop is part of the stream. *)

From stdpp Require Import pretty.
From S2P Require Import Prelude Text Errors StDomain ErrorMapper CardPng Models Prompt Chat ChatEngine.
From Stdlib Require Import Lia.

(** ** [String::from_utf8_lossy]

    Each maximal part of an ill-formed sequence becomes U+FFFD. *)

Definition replacement : string :=
  String (Ascii.ascii_of_nat 239) (String (Ascii.ascii_of_nat 191) (String (Ascii.ascii_of_nat 189) "")).

Fixpoint utf8_lossy (s : string) : string :=
  match s with
  | EmptyString => EmptyString
  | String a r =>
      if in_range 0 127 a then String a (utf8_lossy r) else
      match r with
      | EmptyString => replacement
      | String b r2 =>
          if utf8_lead2 a && is_cont b then String a (String b (utf8_lossy r2)) else
          if utf8_lead3 a b then
            match r2 with
            | EmptyString => replacement
            | String c r3 => if is_cont c then String a (String b (String c (utf8_lossy r3))) else replacement +:+ utf8_lossy r2
            end
          else if utf8_lead4 a b then
            match r2 with
            | EmptyString => replacement
            | String c r3 =>
                if is_cont c then
                  match r3 with
                  | EmptyString => replacement
                  | String d r4 => if is_cont d then String a (String b (String c (String d (utf8_lossy r4))))
                                   else replacement +:+ utf8_lossy r3
                  end
                else replacement +:+ utf8_lossy r2
            end
          else replacement +:+ utf8_lossy r
      end
  end.

(** [.replace('\r', "\n")]. *)
Definition carriage_to_newline : string -> string :=
  (fix go s := match s with EmptyString => EmptyString
               | String a r => String (if a =?= Ascii.ascii_of_nat 13 then nl else a) (go r) end).

(** ** Requests *)

Definition is_slash (a : Ascii.ascii) : bool := a =?= Ascii.ascii_of_nat 47.

Definition endpoint (provider : ResolvedProvider) (suffix : string) : string :=
  trim_end_bytes is_slash (rp_base_url provider) +:+ "/" +:+ trim_start_bytes is_slash suffix.

Record ModelDescriptor := MkModelDescriptor {
  md_id : string;
  md_owned_by : option string;
  md_description : option string;
}.

(** ** Answers *)

Definition content_to_text (content : Value) : option string :=
  match content with
  | JString s => Some s
  | JArray parts => Some (String.concat "" (omap (λ part, get_str part "text") parts))
  | _ => None
  end.

Definition first_choice (payload : Value) : option Value :=
  choices ← value_get payload "choices"; items ← value_as_array choices; head items.

Definition non_empty_text (text : string) : option string := if text =?= "" then None else Some text.

Definition extract_delta (payload : Value) : option string :=
  choice ← first_choice payload;
  message ← match value_get choice "delta" with Some m => Some m | None => value_get choice "message" end;
  content ← value_get message "content";
  text ← content_to_text content;
  non_empty_text text.

Definition generate_failed (message : string) : AppError := bad_gateway "GENERATE_FAILED" message.
Definition generate_empty : AppError := bad_gateway "GENERATE_EMPTY" "生成响应中没有可用文本".

Definition extract_completion (payload : Value) : AppResult LlmCompletion :=
  if bool_decide (is_Some (value_get payload "error")) then Err (generate_failed "provider returned an error response") else
  let text := match extract_delta payload with
              | Some t => Some t
              | None => choice ← first_choice payload; message ← value_get choice "message";
                        content ← value_get message "content"; content_to_text content
              end in
  match text with
  | Some text =>
      if is_blank text then Err generate_empty else
      Ok (MkLlmCompletion text (choice ← first_choice payload; get_str choice "finish_reason") (value_get payload "usage"))
  | None => Err generate_empty
  end.

(** ** The stream *)

(** What an iteration of the loop meets: the hard deadline has passed, nothing came in
    time, the stream broke, or a chunk; the stream ends with the list. *)
Inductive StreamItem : Type := HardTimeout | IdleTimeout | StreamBroken | Chunk (bytes : string).

(** [while let Some(index) = buffer.find("\n\n")]: the events in front of each blank
    line, and what stays in the buffer. *)
Fixpoint cut (s : string) : list string * string :=
  match s with
  | EmptyString => ([], EmptyString)
  | String a r =>
      let keep := match cut r with
                  | ([], rest) => ([], String a rest)
                  | (e :: es, rest) => (String a e :: es, rest)
                  end in
      match r with
      | String b r2 => if (a =?= nl) && (b =?= nl) then let '(es, rest) := cut r2 in (EmptyString :: es, rest) else keep
      | EmptyString => keep
      end
  end.

(** The locals of [parse_sse], and the deltas shown so far. *)
Record SseState := MkSseState {
  ss_buffer : string;
  ss_full_text : string;
  ss_shown : list (string * string);
}.

Definition sse_start : SseState := MkSseState "" "" [].

Section Gateway.
Context (from_str : string -> option Value).
(** [progress]: the answer of [emit] to the last of these deltas, if there is a sink. *)
Context (progress : option (list (string * string) -> AppResult unit)).

Definition completed (text : string) : LlmCompletion := MkLlmCompletion text (Some "stop") None.

(** A line; [Some] leaves the function. *)
Definition on_line (line : string) (st : SseState) : SseState * option (AppResult LlmCompletion) :=
  match strip_prefix "data:" (trim line) with
  | None => (st, None)
  | Some data =>
      let data := trim data in
      if data =?= "" then (st, None) else
      if data =?= "[DONE]" then (st, Some (Ok (completed (ss_full_text st)))) else
      let parsed := default (JObject []) (from_str data) in
      let '(st, refused) :=
        match extract_delta parsed with
        | None => (st, None)
        | Some delta =>
            let full_text := ss_full_text st +:+ delta in
            match progress with
            | None => (MkSseState (ss_buffer st) full_text (ss_shown st), None)
            | Some emit =>
                let shown := ss_shown st ++ [(delta, full_text)] in
                (MkSseState (ss_buffer st) full_text shown, match emit shown with Ok _ => None | Err e => Some e end)
            end
        end in
      match refused with
      | Some e => (st, Some (Err e))
      | None =>
          if bool_decide (is_Some (value_get parsed "error"))
          then (st, Some (Err (generate_failed "provider returned an error event"))) else (st, None)
      end
  end.

Fixpoint on_lines (ls : list string) (st : SseState) : SseState * option (AppResult LlmCompletion) :=
  match ls with
  | [] => (st, None)
  | l :: ls => match on_line l st with
               | (st, None) => on_lines ls st
               | (st, Some r) => (st, Some r)
               end
  end.

(** The events cut off the buffer, one after the other. *)
Fixpoint on_cut_events (events : list string) (st : SseState) : SseState * option (AppResult LlmCompletion) :=
  match events with
  | [] => (st, None)
  | e :: events => match on_lines (lines e) st with
                   | (st, None) => on_cut_events events st
                   | (st, Some r) => (st, Some r)
                   end
  end.

Definition on_chunk (bytes : string) (st : SseState) : SseState * option (AppResult LlmCompletion) :=
  let '(events, rest) := cut (ss_buffer st +:+ carriage_to_newline (utf8_lossy bytes)) in
  on_cut_events events (MkSseState rest (ss_full_text st) (ss_shown st)).

Fixpoint parse_sse (items : list StreamItem) (st : SseState) : list (string * string) * AppResult LlmCompletion :=
  match items with
  | [] => (ss_shown st, if is_blank (ss_full_text st) then Err generate_empty else Ok (completed (ss_full_text st)))
  | HardTimeout :: _ => (ss_shown st, Err (bad_gateway "GENERATE_TIMEOUT" "generation hard timeout"))
  | IdleTimeout :: _ => (ss_shown st, Err (bad_gateway "GENERATE_TIMEOUT" "generation idle timeout"))
  | StreamBroken :: _ => (ss_shown st, Err (generate_failed "provider stream failed"))
  | Chunk bytes :: items =>
      match on_chunk bytes st with
      | (st, None) => parse_sse items st
      | (st, Some r) => (ss_shown st, r)
      end
  end.

(** ** The calls *)

(** [HeaderName::from_bytes], the name as it is kept, and [HeaderValue::from_str]. *)
Context (header_name : string -> option string) (header_value_ok : string -> bool).
Context (f64_json : F64 -> Value) (status_text : Z -> string).

(** [HeaderMap::insert] replaces. *)
Definition insert_header (name value : string) (headers : list (string * string)) : list (string * string) :=
  StOps.assoc_set name value headers.

Fixpoint custom_headers (custom : list (string * string)) (headers : list (string * string)) : AppResult (list (string * string)) :=
  match custom with
  | [] => Ok headers
  | (name, value) :: custom =>
      let? key := ok_or (header_name name) (bad_request "INVALID_HEADER" ("invalid header name " +:+ name)) in
      if header_value_ok value then custom_headers custom (insert_header key value headers)
      else Err (bad_request "INVALID_HEADER" ("invalid header value for " +:+ name))
  end.

Definition headers (provider : ResolvedProvider) : AppResult (list (string * string)) :=
  let base := [("content-type", "application/json")] in
  let? base := match rp_api_key provider with
               | Some api_key => let value := "Bearer " +:+ api_key in
                                 if header_value_ok value then Ok (insert_header "authorization" value base)
                                 else Err (internal "invalid api key header")
               | None => Ok base
               end in
  custom_headers (rp_custom_headers provider) base.

Definition llm_message_json (m : LlmMessage) : Value :=
  JObject ([("role", JString (lm_role m)); ("content", JString (lm_content m))]
             ++ match lm_name m with Some n => [("name", JString n)] | None => [] end).

Definition chat_payload (provider : ResolvedProvider) (request : LlmRequest) : Value :=
  JObject ([("model", JString (rp_model provider)); ("messages", JArray (map llm_message_json (lr_messages request)));
            ("temperature", f64_json (rp_temperature provider)); ("top_p", f64_json (rp_top_p provider));
            ("max_tokens", JNumber (pretty (rp_max_tokens provider))); ("stream", JBool (lr_stream request))]
           ++ if rp_custom_prompt_post_processing provider =?= "" then []
              else [("custom_prompt_post_processing", JString (rp_custom_prompt_post_processing provider))]).

(** What [send] gives: nothing, or a status and the body, as a stream and as a whole
    ([None]: it could not be read). *)
Record LlmAnswer := MkLlmAnswer { la_status : Z; la_stream : list StreamItem; la_body : option string }.

Record LlmCall := MkLlmCall { lq_url : string; lq_headers : list (string * string); lq_payload : option Value }.

Context (net : LlmCall -> option LlmAnswer).

Definition success (status : Z) : bool := ((200 <=? status) && (status <=? 299))%Z.

Definition list_models (provider : ResolvedProvider) : AppResult (list ModelDescriptor) :=
  let? hs := headers provider in
  match net (MkLlmCall (endpoint provider "/v1/models") hs None) with
  | None => Ok []
  | Some answer =>
      if negb (success (la_status answer)) then Ok [] else
      let payload := default (JObject []) (bytes ← la_body answer; from_str bytes) in
      let data := default [] (d ← value_get payload "data"; value_as_array d) in
      Ok (omap (λ item, id ← value_get item "id"; id ← value_as_str id;
                        Some (MkModelDescriptor id (get_str item "owned_by") (get_str item "description"))) data)
  end.

(** The deltas shown, and the result. *)
Definition stream_chat (provider : ResolvedProvider) (request : LlmRequest) : list (string * string) * AppResult LlmCompletion :=
  match headers provider with
  | Err e => ([], Err e)
  | Ok hs =>
      match net (MkLlmCall (endpoint provider "/v1/chat/completions") hs (Some (chat_payload provider request))) with
      | None => ([], Err (generate_failed "provider request failed"))
      | Some answer =>
          if negb (success (la_status answer))
          then ([], Err (generate_failed ("provider returned HTTP " +:+ status_text (la_status answer)))) else
          if lr_stream request then parse_sse (la_stream answer) sse_start
          else
            match bytes ← la_body answer; from_str bytes with
            | None => ([], Err (generate_failed "provider returned invalid JSON"))
            | Some payload => ([], extract_completion payload)
            end
      end
  end.
End Gateway.

(** ** Chunks and text *)

Lemma utf8_lossy_app s t : utf8_valid s = true -> utf8_lossy (s +:+ t) = s +:+ utf8_lossy t.
Proof.
  induction s as [s IH] using (induction_ltof1 _ String.length). unfold ltof in IH.
  destruct s as [|a r]; [done |]. rewrite !app_string_cons. cbn [utf8_valid utf8_lossy].
  destruct (in_range 0 127 a) eqn:Ea; [intros Hv; by rewrite IH by (simpl; lia || done) |].
  destruct r as [|b r2]; [done |]. rewrite !app_string_cons.
  destruct (utf8_lead2 a && is_cont b) eqn:E2; [intros Hv; by rewrite IH by (simpl; lia || done) |].
  destruct r2 as [|c r3]; [done |]. rewrite !app_string_cons.
  destruct (utf8_lead3 a b) eqn:E3; cbn [andb].
  { destruct (is_cont c) eqn:Ec; [intros Hv; by rewrite IH by (simpl; lia || done) |].
    destruct r3 as [|d r4]; [done |]. intros Hv. exfalso. revert Hv. by rewrite andb_false_r. }
  destruct r3 as [|d r4]; [done |]. rewrite !app_string_cons.
  destruct (utf8_lead4 a b), (is_cont c), (is_cont d); cbn [andb]; try done.
  intros Hv. by rewrite IH by (simpl; lia || done).
Qed.

Lemma carriage_app s t : carriage_to_newline (s +:+ t) = carriage_to_newline s +:+ carriage_to_newline t.
Proof. induction s as [|a s IH]; [done |]. rewrite app_string_cons. simpl. by rewrite IH. Qed.

Lemma cut_none s rest : cut s = ([], rest) -> rest = s.
Proof.
  revert rest. induction s as [|a r IH]; intros rest; [by intros [= <-] |]. cbn [cut].
  destruct r as [|b r2]; [by intros [= <-] |]. destruct ((a =?= nl) && (b =?= nl)); [by destruct (cut r2) |].
  destruct (cut (String b r2)) as [[|e es] rest']; [| done]. intros [= <-]. by rewrite (IH rest').
Qed.

Lemma cut_cons a b r :
  cut (String a (String b r)) =
  if (a =?= nl) && (b =?= nl) then let '(es, rest) := cut r in ("" :: es, rest)
  else match cut (String b r) with ([], rest) => ([], String a rest) | (e :: es, rest) => (String a e :: es, rest) end.
Proof. done. Qed.

(** Cutting a longer buffer is cutting its beginning first. *)
Lemma cut_app s t :
  cut (s +:+ t) = let '(es, rest) := cut s in let '(es', rest') := cut (rest +:+ t) in (es ++ es', rest').
Proof.
  induction s as [s IH] using (induction_ltof1 _ String.length). unfold ltof in IH.
  destruct (cut s) as [[|e es] rest] eqn:E.
  { apply cut_none in E as ->. by destruct (cut (s +:+ t)). }
  destruct s as [|a r]; [done |]. destruct r as [|b r2]; [done |].
  rewrite !app_string_cons, cut_cons. rewrite cut_cons in E.
  destruct ((a =?= nl) && (b =?= nl)) eqn:Eab.
  - destruct (cut r2) as [es2 rest2] eqn:E2. injection E as <- <- <-. rewrite IH by (simpl; lia). rewrite E2.
    by destruct (cut (rest2 +:+ t)).
  - rewrite <- app_string_cons, (IH (String b r2)) by (simpl; lia). destruct (cut (String b r2)) as [[|e0 es0] rest0] eqn:E0; [done |].
    injection E as <- <- <-. by destruct (cut (rest0 +:+ t)).
Qed.

Section Streaming.
Context (from_str : string -> option Value) (progress : option (list (string * string) -> AppResult unit)).
Notation line := (on_line from_str progress).
Notation all_lines := (on_lines from_str progress).
Notation events := (on_cut_events from_str progress).
Notation chunk := (on_chunk from_str progress).
Notation parse := (parse_sse from_str progress).

Definition with_buffer (b : string) (st : SseState) : SseState := MkSseState b (ss_full_text st) (ss_shown st).

(** The events do not look at the buffer. *)
Lemma on_line_buffer b l st : line l (with_buffer b st) = let '(st', r) := line l st in (with_buffer b st', r).
Proof.
  unfold on_line. cbn. destruct (strip_prefix _ _) as [data|]; [| done]. destruct (_ =?= ""); [done |].
  destruct (_ =?= "[DONE]"); [done |]. destruct (extract_delta _) as [delta|].
  - destruct progress as [emit|]; cbn; [destruct (emit _) |]; try done; by destruct (bool_decide _).
  - by destruct (bool_decide _).
Qed.

Lemma on_lines_buffer b ls st : all_lines ls (with_buffer b st) = let '(st', r) := all_lines ls st in (with_buffer b st', r).
Proof.
  revert st. induction ls as [|l ls IH]; intros st; cbn [on_lines]; [done |]. rewrite on_line_buffer.
  destruct (line l st) as [st1 [r|]]; [done |]. apply IH.
Qed.

Lemma on_events_buffer b es st : events es (with_buffer b st) = let '(st', r) := events es st in (with_buffer b st', r).
Proof.
  revert st. induction es as [|e es IH]; intros st; cbn [on_cut_events]; [done |]. rewrite on_lines_buffer.
  destruct (all_lines _ st) as [st1 [r|]]; [done |]. apply IH.
Qed.

Lemma on_cut_events_app es es' st :
  events (es ++ es') st = match events es st with (st1, None) => events es' st1 | (st1, Some r) => (st1, Some r) end.
Proof.
  revert st. induction es as [|e es IH]; intros st; cbn [on_cut_events app]; [done |].
  destruct (all_lines _ st) as [st1 [r|]]; [done |]. apply IH.
Qed.

(** A chunk that ends with a character may be read together with the next one. *)
Lemma on_chunk_app b1 b2 st :
  utf8_valid b1 = true ->
  match chunk b1 st with
  | (st1, None) => chunk (b1 +:+ b2) st = chunk b2 st1
  | (st1, Some r) => exists st2, chunk (b1 +:+ b2) st = (st2, Some r) /\ ss_shown st2 = ss_shown st1
  end.
Proof.
  intros Hv. assert (utf8_lossy b1 = b1) as Hb1.
  { pose proof (utf8_lossy_app b1 "" Hv) as Hl. cbn [utf8_lossy] in Hl. by rewrite !app_string_nil in Hl. }
  unfold on_chunk. rewrite utf8_lossy_app by done. rewrite Hb1, carriage_app, app_string_assoc,
    (cut_app (ss_buffer st +:+ carriage_to_newline b1)).
  destruct (cut (ss_buffer st +:+ carriage_to_newline b1)) as [es rest].
  destruct (cut (rest +:+ carriage_to_newline (utf8_lossy b2))) as [es' rest'] eqn:E'.
  cbv beta iota. change (MkSseState rest (ss_full_text st) (ss_shown st)) with (with_buffer rest st).
  change (MkSseState rest' (ss_full_text st) (ss_shown st)) with (with_buffer rest' st).
  rewrite on_cut_events_app, !on_events_buffer. destruct (events es st) as [st1 [r|]]; cbn.
  - by eexists.
  - rewrite E'. done.
Qed.

(** The deltas shown add up to the text, each with the text so far. *)
Definition shown_adds_up (full : string) (shown : list (string * string)) : Prop :=
  full = String.concat "" (fst <$> shown)
  /\ forall i d f, shown !! i = Some (d, f) -> f = String.concat "" (fst <$> take (S i) shown).

Lemma concat_snoc (l : list string) x : String.concat "" (l ++ [x]) = String.concat "" l +:+ x.
Proof.
  induction l as [|a [|b l] IH]; simpl in *; [done | done |]. rewrite IH. by rewrite !app_string_assoc.
Qed.

Lemma concat_shown (shown : list (string * string)) d f :
  String.concat "" (fst <$> shown ++ [(d, f)]) = String.concat "" (fst <$> shown) +:+ d.
Proof. rewrite fmap_app. apply (concat_snoc (fst <$> shown) d). Qed.

Lemma shown_snoc full shown delta :
  shown_adds_up full shown -> shown_adds_up (full +:+ delta) (shown ++ [(delta, full +:+ delta)]).
Proof.
  intros [Hf Hi]. split; [by rewrite concat_shown, <- Hf |]. intros i d f Hl.
  destruct (decide (i < length shown)) as [Hlt|Hge].
  - rewrite lookup_app_l in Hl by done. rewrite take_app_le by lia. by eapply Hi.
  - rewrite lookup_app_r in Hl by lia. destruct (i - length shown) as [|k] eqn:Ek; [| done]. injection Hl as <- <-.
    rewrite take_ge by (rewrite length_app; simpl; lia). by rewrite concat_shown, <- Hf.
Qed.

Definition state_adds_up (st : SseState) : Prop := progress <> None -> shown_adds_up (ss_full_text st) (ss_shown st).

(** What returns a text returns the one that was shown. *)
Definition good_end (st : SseState) (r : option (AppResult LlmCompletion)) : Prop :=
  state_adds_up st /\ forall c, r = Some (Ok c) -> lc_text c = ss_full_text st.

Lemma on_line_good l st st' r : state_adds_up st -> line l st = (st', r) -> good_end st' r.
Proof.
  intros Hst. unfold on_line. destruct (strip_prefix _ _) as [data|]; [| by intros [= <- <-]]. destruct (_ =?= ""); [by intros [= <- <-] |].
  destruct (_ =?= "[DONE]"); [intros [= <- <-]; split; [done | by intros c [= <-]] |].
  destruct (extract_delta _) as [delta|].
  - destruct progress as [emit|] eqn:Ep.
    + assert (state_adds_up (MkSseState (ss_buffer st) (ss_full_text st +:+ delta)
                (ss_shown st ++ [(delta, ss_full_text st +:+ delta)]))) as Hn
        by (intros _; apply shown_snoc, Hst; congruence).
      destruct (emit _); [case_bool_decide |]; intros [= <- <-]; by split.
    + case_bool_decide; intros [= <- <-]; (split; [intros Hp; congruence | done]).
  - case_bool_decide; intros [= <- <-]; by split.
Qed.

Lemma on_lines_good ls st st' r : state_adds_up st -> all_lines ls st = (st', r) -> good_end st' r.
Proof.
  revert st. induction ls as [|l ls IH]; intros st Hst; cbn [on_lines]; [by intros [= <- <-] |].
  destruct (line l st) as [st1 [r1|]] eqn:E; apply on_line_good in E as [Hs Hr]; try done; [by intros [= <- <-] | by apply IH].
Qed.

Lemma on_events_good es st st' r : state_adds_up st -> events es st = (st', r) -> good_end st' r.
Proof.
  revert st. induction es as [|e es IH]; intros st Hst; cbn [on_cut_events]; [by intros [= <- <-] |].
  destruct (all_lines _ st) as [st1 [r1|]] eqn:E; apply on_lines_good in E as [Hs Hr]; try done; [by intros [= <- <-] | by apply IH].
Qed.

Lemma parse_adds_up items st shown c :
  state_adds_up st -> progress <> None -> parse items st = (shown, Ok c) -> shown_adds_up (lc_text c) shown.
Proof.
  intros Hst Hp. revert st Hst. induction items as [|[| | |b] items IH]; intros st Hst; cbn [parse_sse]; try done.
  - destruct (is_blank _); [done |]. intros [= <- <-]. by apply Hst.
  - destruct (chunk b st) as [st1 r] eqn:E. unfold on_chunk in E. destruct (cut _) as [es rest].
    apply on_events_good in E as [Hs Hr]; [| exact Hst]. destruct r as [r|]; [| by apply IH].
    intros [= <- ->]. rewrite (Hr c eq_refl). by apply Hs.
Qed.

(** C28: a streamed reply is the text that was shown, however it was cut.  Chunks that end
    between characters may be joined without any difference to the deltas shown and to
    the result; and a reply that is returned is the deltas shown one after the other,
    each of which came with the text so far. *)
Theorem streamed_reply_is_what_was_shown first chunks rest items st shown c :
  Forall (λ b, utf8_valid b = true) (first :: chunks) ->
  parse (map Chunk (first :: chunks) ++ rest) st = parse (Chunk (String.concat "" (first :: chunks)) :: rest) st
  /\ (progress <> None -> parse items sse_start = (shown, Ok c) -> shown_adds_up (lc_text c) shown).
Proof.
  intros Hv. split; [| intros Hp; apply parse_adds_up; [by intros _ |]; done].
  revert first st Hv. induction chunks as [|b chunks IH]; intros first st Hv; [done |].
  apply Forall_cons in Hv as [Hf Hv]. change (map Chunk (first :: b :: chunks) ++ rest) with (Chunk first :: (map Chunk (b :: chunks) ++ rest)).
  change (String.concat "" (first :: b :: chunks)) with (first +:+ String.concat "" (b :: chunks)).
  cbn [parse_sse]. pose proof (on_chunk_app first (String.concat "" (b :: chunks)) st Hf) as Ha.
  destruct (chunk first st) as [st1 [r|]].
  - destruct Ha as (st2 & -> & Hs). by rewrite Hs.
  - rewrite Ha. by apply (IH b st1 Hv).
Qed.
End Streaming.

(** ** Streams *)

Definition demo_event (text : string) : Value :=
  JObject [("choices", JArray [JObject [("delta", JObject [("content", JString text)])]])].
(** The text between the quotes of an event. *)
Definition demo_from_str (s : string) : option Value :=
  match split_once (Ascii.ascii_of_nat 39) s with
  | Some (_, rest) => match split_once (Ascii.ascii_of_nat 39) rest with Some (text, _) => Some (demo_event text) | None => None end
  | None => None
  end.

Definition line_end : string := String nl (String nl "").
Definition demo_chunks : list string := ["data: 'Hel"; "lo '" +:+ line_end +:+ "da"; "ta: 'you'" +:+ line_end +:+ "data: [DONE]" +:+ line_end].

Lemma streamed_reply_witness :
  (parse_sse demo_from_str (Some (λ _, Ok tt)) (map Chunk demo_chunks ++ []) sse_start
   = parse_sse demo_from_str (Some (λ _, Ok tt)) (Chunk (String.concat "" demo_chunks) :: []) sse_start
   /\ (Some (λ _ : list (string * string), @Ok unit AppError tt) <> None ->
       parse_sse demo_from_str (Some (λ _, Ok tt)) (map Chunk demo_chunks) sse_start
         = ([("Hello ", "Hello "); ("you", "Hello you")], Ok (completed "Hello you")) ->
       shown_adds_up "Hello you" [("Hello ", "Hello "); ("you", "Hello you")]))
  /\ parse_sse demo_from_str (Some (λ _, Ok tt)) (map Chunk demo_chunks) sse_start
     = ([("Hello ", "Hello "); ("you", "Hello you")], Ok (completed "Hello you")).
Proof.
  split; [| vm_compute; reflexivity].
  refine (streamed_reply_is_what_was_shown demo_from_str (Some (λ _, Ok tt)) (hd "" demo_chunks) (tl demo_chunks) []
    (map Chunk demo_chunks) sse_start [("Hello ", "Hello "); ("you", "Hello you")] (completed "Hello you") _).
  repeat constructor.
Defined.

(** A character that two chunks share is lost: each part is decoded for itself. *)
Definition e_acute : string * string := (String (Ascii.ascii_of_nat 195) "", String (Ascii.ascii_of_nat 169) "").

Example split_character_is_lost :
  let event a b := "data: 'caf" +:+ a +:+ b +:+ "'" +:+ line_end in
  let whole := event e_acute.1 e_acute.2 in
  (parse_sse demo_from_str None [Chunk whole] sse_start).2 = Ok (completed ("caf" +:+ e_acute.1 +:+ e_acute.2))
  /\ (parse_sse demo_from_str None [Chunk (str_take 11 whole); Chunk (str_drop 11 whole)] sse_start).2
     = Ok (completed ("caf" +:+ replacement +:+ replacement)).
Proof. vm_compute. by split. Qed.
