(* ===== verification/Startup.v ===== *)
(** * Starting the service ([src/bootstrap.rs], [src/main.rs])

    The master key file, the check that the key is the one the secrets are sealed
    with, the wiring of [AppState::bootstrap], and the commands of [main.rs] that
    decide something: reading the administrator's password and [rotate-master-key].

    A path of the file system is a directory entry; what a disk may refuse is an
    input.  Random bytes, ids, the clock, the umask, HMAC and the cipher are
    parameters, as is the order in which SQLite scans a table. *)

From stdpp Require Import pretty.
From S2P Require Import Prelude Text Errors StDomain Operations OperationStore StoreCorrect Vault Config Legacy ConnectorClient.

(** ** The master key file *)

Inductive DirEntry : Type :=
| Absent
| DanglingLink
| OtherFile                                    (* a directory, a link to something *)
| RegularFile (mode : Z) (bytes : string).

Definition io_refused : AppError := internal "io error".

(** What the disk allows: reading, the directory, the temporary file, and the last
    two steps (its removal and the [fsync] of the directory). *)
Record Disk := { dk_read : bool; dk_parent : bool; dk_temp : bool; dk_tidy : bool }.

Definition good_disk : Disk := {| dk_read := true; dk_parent := true; dk_temp := true; dk_tidy := true |}.

Definition KEY_LEN : nat := 32.

(** [permissions().mode() & 0o077]. *)
Definition shared_mode (mode : Z) : bool := negb (Z.land mode 63 =? 0)%Z.

(** [path.exists()] follows links. *)
Definition path_exists (e : DirEntry) : bool :=
  match e with Absent | DanglingLink => false | OtherFile | RegularFile _ _ => true end.

Definition load_key (disk : Disk) (e : DirEntry) : AppResult string :=
  match e with
  | RegularFile mode bytes =>
      if shared_mode mode then Err (internal "master key file permissions must not grant group or other access") else
      if negb (dk_read disk) then Err io_refused else
      if negb (String.length bytes =? KEY_LEN)%nat then Err (internal "master key file has invalid length")
      else Ok bytes
  | _ => Err (internal "master key path must be a regular file")
  end.

(** [create_master_key_file]: the key is written to a temporary file, which is then
    linked to the path.  [link] fails when there is an entry, whatever it is. *)
Definition create_master_key_file (umask : Z) (disk : Disk) (path key : string) (e : DirEntry) : DirEntry * AppResult unit :=
  match file_name path with
  | None => (e, Err (internal "master key path has no valid file name"))
  | Some _ =>
      if negb (dk_temp disk) then (e, Err io_refused) else
      match e with
      | Absent => (RegularFile (Z.ldiff 384 umask) key, if dk_tidy disk then Ok tt else Err io_refused)
      | _ => (e, Err io_refused)
      end
  end.

(** [load_or_create_key]: [seen] is the entry when [exists] looks, [e] the entry when
    the file is linked: another process may have been faster. *)
Definition load_or_create_key (umask : Z) (disk : Disk) (random path : string) (seen e : DirEntry)
    : DirEntry * AppResult string :=
  if path_exists seen then (e, load_key disk seen) else
  if negb (dk_parent disk) then (e, Err io_refused) else
  let '(e, r) := create_master_key_file umask disk path random e in
  (e, let? _ := r in Ok random).

(** What a loaded key is worth: the file is private and holds it. *)
Definition key_file (e : DirEntry) (key : string) : Prop :=
  exists mode, e = RegularFile mode key /\ shared_mode mode = false /\ String.length key = KEY_LEN.

Lemma created_mode_private umask : shared_mode (Z.ldiff 384 umask) = false.
Proof.
  unfold shared_mode. apply negb_false_iff, Z.eqb_eq.
  rewrite Z.ldiff_land, <- Z.land_assoc, (Z.land_comm (Z.lnot umask)), Z.land_assoc. done.
Qed.

Lemma load_key_file disk e key : load_key disk e = Ok key -> key_file e key.
Proof.
  unfold load_key. destruct e as [| | |mode bytes]; try done.
  destruct (shared_mode mode) eqn:Hm; [done |]. destruct (negb (dk_read disk)); [done |].
  destruct (Nat.eqb_spec (String.length bytes) KEY_LEN); [| done]. intros [= <-]. by exists mode.
Qed.

Lemma key_file_loads e key : key_file e key -> load_key good_disk e = Ok key.
Proof. intros (mode & -> & Hm & Hl). unfold load_key. by rewrite Hm, Hl. Qed.

Lemma created_key umask disk path key e e' :
  String.length key = KEY_LEN ->
  create_master_key_file umask disk path key e = (e', Ok tt) -> e = Absent /\ key_file e' key.
Proof.
  intros Hl. unfold create_master_key_file. destruct (file_name path); [| done].
  destruct (negb _); [done |]. destruct e; try done. destruct (dk_tidy disk); [| done].
  intros [= <-]. split; [done |]. eexists. eauto using created_mode_private.
Qed.

(** The key file is written once: whatever entry is at the path stays there, and only
    an empty place is filled, with a private file of this key. *)
Lemma key_file_written_once umask disk random path seen e e' r :
  load_or_create_key umask disk random path seen e = (e', r) ->
  e' = e \/ e = Absent /\ path_exists seen = false /\ e' = RegularFile (Z.ldiff 384 umask) random.
Proof.
  unfold load_or_create_key, create_master_key_file. destruct (path_exists seen); [by intros [= <- _]; left |].
  destruct (negb (dk_parent disk)); [by intros [= <- _]; left |].
  destruct (file_name path); [| by intros [= <- _]; left].
  destruct (negb (dk_temp disk)); [by intros [= <- _]; left |].
  destruct e; intros [= <- _]; auto.
Qed.

(** A start that gets a key finds it in the file again the next time. *)
Lemma key_survives_restart umask disk random path seen e e' key umask' random' :
  String.length random = KEY_LEN -> (path_exists seen = true -> e = seen) ->
  load_or_create_key umask disk random path seen e = (e', Ok key) ->
  key_file e' key /\ load_or_create_key umask' good_disk random' path e' e' = (e', Ok key).
Proof.
  intros Hl Hsame. unfold load_or_create_key at 1.
  intros Hr. assert (key_file e' key) as Hk.
  { destruct (path_exists seen).
    - rewrite Hsame in Hr by done. injection Hr as <- Hload. by eapply load_key_file.
    - destruct (negb (dk_parent disk)); [done |].
      destruct (create_master_key_file _ _ _ _ _) as [e1 [[]|]] eqn:Hc; [| done]. injection Hr as <- <-.
      by eapply created_key. }
  split; [done |]. pose proof (key_file_loads _ _ Hk) as Hload.
  destruct Hk as (mode & -> & _). unfold load_or_create_key. simpl path_exists. cbv iota. by rewrite Hload.
Qed.

(** ** The check of the master key *)

Definition SENTINEL : string := "im-bridge-master-key-check-v1".

Section Verify.
Context `{Aead} (sha256_hex : string -> string).
Context (scan : gmap string SecretRow -> list (string * SecretRow)).

(** [ORDER BY created_at LIMIT 1] over the rows of a condition. *)
Definition created_le (a b : string * SecretRow) : bool := text_le (s_created_at a.2) (s_created_at b.2).
Definition oldest (m : gmap string SecretRow) : option string := fst <$> head (sort_by created_le (scan m)).

Definition is_sentinel (row : SecretRow) : bool :=
  (s_owner_scope row =?= "system") && (s_kind row =?= "master_key_check").

Definition sentinels (db : DB) : gmap string SecretRow := filter (λ ir, is_sentinel ir.2 = true) (secrets db).

Definition verification_failed : AppError := internal "master key verification failed".

Definition opened_secret (self : EncryptedSqliteVault) (id : string) (db : DB) : AppResult string :=
  map_err (λ _, verification_failed) (vault_get self id db).

Definition verify_master_key `{IdSource} (now nonce : string) (self : EncryptedSqliteVault) (db : DB)
    : DB * AppResult unit :=
  match oldest (sentinels db) with
  | Some id =>
      (db, let? plaintext := opened_secret self id db in
           if plaintext =?= SENTINEL then Ok tt else Err verification_failed)
  | None =>
      let checked := match oldest (secrets db) with
                     | Some id => let? _ := opened_secret self id db in Ok tt
                     | None => Ok tt
                     end in
      match checked with
      | Err error => (db, Err error)
      | Ok _ => let '(db, r) := vault_put sha256_hex now nonce self "system" "master_key_check" SENTINEL db in
                (db, let? _ := r in Ok tt)
      end
  end.
End Verify.

(** ** The services of a process *)

(** What the wiring decides: the keys, and which of the optional parts there are. *)
Record Services := {
  sv_vault : EncryptedSqliteVault;
  sv_bind_code_key : string;
  sv_config : AppConfig;                      (* without the connector key *)
  sv_st : option StClientConfig;              (* the backend's configuration *)
  sv_connector : option string;               (* the connector client's key *)
}.

Definition without_connector_key (c : StClientConfig) : StClientConfig :=
  {| cf_base_url := cf_base_url c; cf_handle := cf_handle c; cf_host_header := cf_host_header c;
     cf_timeout_ms := cf_timeout_ms c; cf_generate_hard_timeout_ms := cf_generate_hard_timeout_ms c;
     cf_generate_idle_timeout_ms := cf_generate_idle_timeout_ms c; cf_mode := cf_mode c;
     cf_connector_hmac_key := None |}.

Definition with_st (st : StClientConfig) (c : AppConfig) : AppConfig :=
  {| ac_listen := ac_listen c; ac_data_dir := ac_data_dir c; ac_database_path := ac_database_path c;
     ac_master_key_path := ac_master_key_path c; ac_session_ttl_hours := ac_session_ttl_hours c;
     ac_cookie_secure := ac_cookie_secure c; ac_st := st |}.

(** The files a start may leave behind: the master key and the database. *)
Record Machine := MkMachine { mc_key : DirEntry; mc_dirs : bool; mc_db : DB }.

Section Bootstrap.
Context (url_parse : string -> option Url) (hmac_sha256 : string -> string -> string).
Context `{Aead} (sha256_hex : string -> string).
Context (scan : gmap string SecretRow -> list (string * SecretRow)).

(** HMAC takes keys of every length. *)
Definition derive_subkey (master_key context : string) : string := hmac_sha256 master_key context.

Definition write_not_ready : AppError :=
  service_unavailable "ST_WRITE_NOT_READY" "write mode requires an authenticated Connector journal and key provider".

(** [bootstrap] from [connector_hmac_key] on. *)
Definition wire_services (config : AppConfig) (key : string) : AppResult Services :=
  let st := ac_st config in
  let backend := match cf_base_url st with Some _ => Some st | None => None end in
  let connector := c ← backend; ConnectorClient_new (cf_connector_hmac_key c) in
  if allows_write (write_mode st) && bool_decide (connector = None) then Err write_not_ready
  else Ok {| sv_vault := EncryptedSqliteVault_new key;
             sv_bind_code_key := derive_subkey key "im-bridge/telegram-bind-code/v1";
             sv_config := with_st (without_connector_key st) config;
             sv_st := backend; sv_connector := connector |}.

(** [db_fate]: why the database cannot be opened or migrated, if it cannot. *)
Definition bootstrap `{IdSource} (umask : Z) (disk : Disk) (db_fate : option AppError) (random now nonce : string)
    (config : AppConfig) (m : Machine) : Machine * AppResult Services :=
  match AppConfig_validate url_parse config with
  | Err error => (m, Err error)
  | Ok _ =>
      if negb (dk_parent disk) then (m, Err io_refused) else
      let m := MkMachine (mc_key m) true (mc_db m) in
      if db_fate is Some error then (m, Err error) else
      let '(entry, r) := load_or_create_key umask disk random (ac_master_key_path config) (mc_key m) (mc_key m) in
      let m := MkMachine entry true (mc_db m) in
      match r with
      | Err error => (m, Err error)
      | Ok key =>
          let '(db, r) := verify_master_key sha256_hex scan now nonce (EncryptedSqliteVault_new key) (mc_db m) in
          let m := MkMachine entry true db in
          (m, let? _ := r in wire_services config key)
      end
  end.
End Bootstrap.

(** ** Commands *)

(** What [read_line] takes: up to the first newline, which it keeps. *)
Fixpoint first_line (s : string) : string :=
  match s with
  | EmptyString => EmptyString
  | String a r => if a =?= Ascii.ascii_of_nat 10 then String a EmptyString else String a (first_line r)
  end.

Definition is_line_end (a : Ascii.ascii) : bool := (a =?= Ascii.ascii_of_nat 13) || (a =?= Ascii.ascii_of_nat 10).

(** The bytes [read_password] takes its password from. *)
Definition password_bytes (disk : Disk) (path : option string) (stdin : string) (e : DirEntry) : AppResult string :=
  match path with
  | None => Err (bad_request "PASSWORD_INPUT_REQUIRED"
                   "use --password-file <path> or --password-file - to read one line from stdin")
  | Some path =>
      if path =?= "-" then
        let line := first_line (String.substring 0 4097 stdin) in
        if dk_read disk && utf8_valid line then Ok line
        else Err (internal "failed to read password from stdin")
      else
        match e with
        | Absent => Err io_refused
        | RegularFile mode bytes =>
            if shared_mode mode then Err (bad_request "PASSWORD_FILE_PERMISSIONS"
                                            "password file must not grant group or other access") else
            if (4096 <? String.length bytes)%nat then Err (bad_request "PASSWORD_FILE_TOO_LARGE"
                                                             "password file must not exceed 4096 bytes") else
            if dk_read disk && utf8_valid bytes then Ok bytes else Err io_refused
        | _ => Err (bad_request "PASSWORD_FILE_INVALID"
                      "password file must be a regular file and must not be a symbolic link")
        end
  end.

Definition read_password (disk : Disk) (path : option string) (stdin : string) (e : DirEntry) : AppResult string :=
  let? bytes := password_bytes disk path stdin e in
  let password := trim_end_bytes is_line_end bytes in
  if (12 <=? String.length password)%nat && (String.length password <=? 1024)%nat then Ok password
  else Err (bad_request "PASSWORD_INVALID" "administrator password must contain 12-1024 bytes").

(** [rotate_key]: [loaded] is what [load_state] returns, [new_key] what is in the file. *)
Definition rotate_key `{Aead} (loaded : AppResult Services) (new_key : option string) (dry_run : bool) (db : DB)
    : AppResult Z :=
  if negb dry_run
  then Err (service_unavailable "MASTER_KEY_ROTATION_DISABLED"
              "online master-key rotation is disabled until the recoverable rotation protocol is implemented")
  else
    let? state := loaded in
    let? bytes := ok_or new_key io_refused in
    rotate_master_key (sv_vault state) bytes true db.

(** ** One master key

    A history of a database: from one that holds no sentinel, starts with whatever key,
    one after another, and whatever else happens between them that leaves the
    sentinels alone (no other code writes rows of the kind [master_key_check]). *)

(** What the cipher documents: what was sealed under one key opens under no other. *)
Class AeadKeyed (A : Aead) : Prop :=
  aead_keyed : forall k n a c m k' n' a' m',
    aead_decrypt k n a c = Some m -> aead_decrypt k' n' a' c = Some m' -> k' = k.

#[export] Instance toy_aead_keyed : AeadKeyed toy_aead.
Proof.
  intros k n a c m k' n' a' m'. simpl. intros H1 H2.
  destruct (undelimit c) as [[k1 c1]|]; [| done]. simpl in *.
  destruct (undelimit c1) as [[n1 c2]|]; [| done]. simpl in *.
  destruct (undelimit c2) as [[a1 c3]|]; [| done]. simpl in *.
  repeat case_bool_decide; by simplify_eq/=.
Qed.

Section History.
Context `{HA : Aead} `{!AeadCorrect HA} `{!AeadKeyed HA} (sha256_hex : string -> string).
Context (scan : gmap string SecretRow -> list (string * SecretRow)).
Context (scan_perm : forall m, scan m ≡ₚ map_to_list m).

(** The keys of the starts that went through, latest first. *)
Inductive history : DB -> list string -> Prop :=
| history_install db : sentinels db = ∅ -> history db []
| history_start db keys (ids : IdSource) now nonce self db' :
    history db keys -> verify_master_key sha256_hex scan now nonce self db = (db', Ok tt) ->
    history db' (v_master_key self :: keys)
| history_refused db keys (ids : IdSource) now nonce self db' error :
    history db keys -> verify_master_key sha256_hex scan now nonce self db = (db', Err error) ->
    history db' keys
| history_other db keys db' : history db keys -> sentinels db' = sentinels db -> history db' keys.

Lemma oldest_empty : oldest scan ∅ = None.
Proof.
  unfold oldest. pose proof (scan_perm ∅) as Hp. rewrite map_to_list_empty in Hp.
  by apply Permutation_nil_r in Hp as ->.
Qed.

Lemma oldest_singleton id row : oldest scan {[id := row]} = Some id.
Proof.
  unfold oldest. pose proof (scan_perm {[id := row]}) as Hp. rewrite map_to_list_singleton in Hp.
  by apply Permutation_singleton_r in Hp as ->.
Qed.

(** The sentinel of a history: one row, and every key of the past opens it. *)
Definition sealed_by (keys : list string) (db : DB) : Prop :=
  exists id row key, sentinels db = {[id := row]} /\ key ∈ keys
    /\ forall k v, open_row {| v_master_key := k; v_key_version := v |} id row = Some SENTINEL <-> k = key.

Lemma sealed_read db id row :
  sentinels db = {[id := row]} -> forall self, vault_get self id db
    = ok_or (open_row self id row) (internal "secret decryption failed").
Proof.
  intros Hs self. assert (secrets db !! id = Some row) as Hrow.
  { assert (sentinels db !! id = Some row) as Hl by (rewrite Hs; apply lookup_singleton_eq).
    by apply map_lookup_filter_Some in Hl as [Hl _]. }
  unfold vault_get. by rewrite Hrow.
Qed.

(** With a sentinel, a start changes nothing and goes through for one key only. *)
Lemma start_on_sealed (ids : IdSource) db now nonce self id row :
  sentinels db = {[id := row]} ->
  verify_master_key sha256_hex scan now nonce self db
  = (db, if decide (open_row self id row = Some SENTINEL) then Ok tt else Err verification_failed).
Proof.
  intros Hs. unfold verify_master_key. rewrite Hs, oldest_singleton. unfold opened_secret.
  rewrite (sealed_read _ _ _ Hs). f_equal.
  destruct (open_row self id row) as [m|]; [| done]. cbn [ok_or map_err].
  case_bool_decide; destruct (decide _); congruence.
Qed.

(** Without one, a start that goes through seals one with its key. *)
Lemma start_on_fresh (ids : IdSource) db now nonce self db' r :
  sentinels db = ∅ -> verify_master_key sha256_hex scan now nonce self db = (db', r) ->
  match r with
  | Ok _ => sealed_by [v_master_key self] db'
  | Err _ => sentinels db' = ∅
  end.
Proof.
  intros Hs. unfold verify_master_key. rewrite Hs, oldest_empty.
  destruct (match oldest scan (secrets db) with Some _ => _ | None => _ end); [| by intros [= <- <-]].
  unfold vault_put. destruct (aead_encrypt _ _ _ _) as [c|] eqn:Hc; [| by intros [= <- <-]].
  destruct (secrets db !! new_id) eqn:Hn; [by intros [= <- <-] |]. intros [= <- <-].
  pose proof (aead_opens _ _ _ _ _ Hc) as Hopen.
  eexists new_id, _, (v_master_key self). split_and!; [| by apply list_elem_of_singleton |].
  - unfold sentinels, set_secrets in *. simpl. rewrite map_filter_insert_True by done.
    rewrite Hs. apply insert_empty.
  - intros k v. unfold open_row. simpl. split; [| by intros ->].
    intros Hd. by eapply aead_keyed.
Qed.

Lemma history_sealed db keys :
  history db keys -> (keys = [] /\ sentinels db = ∅) \/ sealed_by keys db /\ forall k k', k ∈ keys -> k' ∈ keys -> k = k'.
Proof.
  induction 1 as [db Hs|db keys ids now nonce self db' _ IH Hv|db keys ids now nonce self db' e _ IH Hv|db keys db' _ IH Hs].
  - by left.
  - right. destruct IH as [[-> Hs]|[(id & row & key & Hs & Hin & Hkey) Huniq]].
    + pose proof (start_on_fresh ids _ _ _ _ _ _ Hs Hv) as Hnew. split; [done |].
      intros k k' ->%list_elem_of_singleton ->%list_elem_of_singleton. done.
    + rewrite (start_on_sealed ids _ _ _ _ _ _ Hs) in Hv. injection Hv as <- Hv.
      destruct (decide _) as [Ho|]; [| done].
      assert (v_master_key self = key) as ->. { destruct self. by apply Hkey in Ho. }
      split; [exists id, row, key; split_and!; [done | by apply list_elem_of_here | done] |].
      intros k k' [->|Hk]%elem_of_cons [->|Hk']%elem_of_cons; auto.
  - destruct IH as [[-> Hs]|[(id & row & key & Hs & Hin & Hkey) Huniq]].
    + left. split; [done |]. exact (start_on_fresh ids _ _ _ _ _ _ Hs Hv).
    + rewrite (start_on_sealed ids _ _ _ _ _ _ Hs) in Hv. injection Hv as <- _.
      right. split; [| done]. by exists id, row, key.
  - unfold sealed_by in *. rewrite Hs. done.
Qed.

(** Once a start has gone through, the database is bound to its master key: a later
    start goes through exactly when it has the same key, and in either case it
    changes nothing. *)
Theorem one_master_key db keys key (ids : IdSource) now nonce self :
  history db keys -> key ∈ keys ->
  exists r, verify_master_key sha256_hex scan now nonce self db = (db, r)
    /\ (r = Ok tt <-> v_master_key self = key).
Proof.
  intros Hh Hin. destruct (history_sealed _ _ Hh) as [[-> _]|[(id & row & k0 & Hs & H0 & Hkey) Huniq]].
  { by apply not_elem_of_nil in Hin. }
  rewrite (start_on_sealed ids _ _ _ _ _ _ Hs). eexists. split; [done |].
  rewrite (Huniq key k0) by done. destruct self as [k v]. simpl. rewrite <- (Hkey k v).
  by destruct (decide _).
Qed.
End History.

(** ** What a started service can rely on *)

Section Started.
Context (url_parse : string -> option Url) (hmac_sha256 : string -> string -> string).
Context `{Aead} (sha256_hex : string -> string).
Context (scan : gmap string SecretRow -> list (string * SecretRow)).

Lemma wire_services_ok config key s :
  wire_services hmac_sha256 config key = Ok s ->
  sv_vault s = EncryptedSqliteVault_new key
  /\ cf_connector_hmac_key (ac_st (sv_config s)) = None
  /\ (allows_write (write_mode (ac_st config)) = true ->
      exists k, sv_connector s = Some k /\ 32 <= String.length k /\ is_Some (cf_base_url (ac_st config))).
Proof.
  unfold wire_services. set (connector := c ← _; _). destruct (_ && _) eqn:Hw; [done |].
  intros [= <-]. simpl. split_and!; [done | done |]. intros Ha. rewrite Ha in Hw. simpl in Hw.
  apply bool_decide_eq_false in Hw. subst connector.
  destruct (cf_base_url (ac_st config)) as [u|]; simpl in *; [| done].
  unfold ConnectorClient_new in *. destruct (cf_connector_hmac_key (ac_st config)) as [k|]; [| done].
  destruct (Nat.ltb_spec (String.length (trim k)) 32); [done |]. eauto.
Qed.

(** A process that starts has a valid configuration, a master key that is in a private
    file and opened the database, and in a write mode a connector with a key of its
    own; a process with an invalid configuration leaves nothing behind. *)
Theorem started_service_is_sound (ids : IdSource) umask disk db_fate random now nonce config m m' r :
  String.length random = KEY_LEN ->
  bootstrap url_parse hmac_sha256 sha256_hex scan umask disk db_fate random now nonce config m = (m', r) ->
  match r with
  | Ok s => config_wf url_parse config
      /\ key_file (mc_key m') (v_master_key (sv_vault s))
      /\ (verify_master_key sha256_hex scan now nonce (sv_vault s) (mc_db m)).2 = Ok tt
      /\ (allows_write (write_mode (ac_st config)) = true ->
          exists k, sv_connector s = Some k /\ 32 <= String.length k /\ is_Some (cf_base_url (ac_st config)))
  | Err _ => is_ok (AppConfig_validate url_parse config) = false -> m' = m
  end.
Proof.
  intros Hl. unfold bootstrap. destruct (AppConfig_validate url_parse config) as [u|e] eqn:Hv; [| by intros [= <- <-]].
  destruct (negb (dk_parent disk)); [by intros [= <- <-] |].
  destruct db_fate as [e|]; [by intros [= <- <-] |]. simpl.
  destruct (load_or_create_key _ _ _ _ _ _) as [entry [key|e]] eqn:Hk; [| by intros [= <- <-]].
  destruct (verify_master_key _ _ _ _ _ _) as [db [[]|e]] eqn:Hm; [| by intros [= <- <-]].
  intros [= <- <-]. destruct (wire_services _ _ _) as [s|e] eqn:Hw; [| done].
  apply wire_services_ok in Hw as (Hvault & _ & Hconn). rewrite Hvault. simpl.
  split_and!; [by destruct u; apply validate_wf | | by rewrite Hm | done].
  by eapply (key_survives_restart _ _ _ _ (mc_key m) (mc_key m) _ _ 0 random).
Qed.
End Started.

(** ** The administrator's password *)

Lemma trim_end_bytes_split p s :
  exists tail, s = trim_end_bytes p s +:+ tail /\ Forall (λ a, p a = true) (String.list_ascii_of_string tail).
Proof.
  induction s as [|a s (tail & Hs & Hp)]; [by exists "" |]. simpl.
  destruct (trim_end_bytes p s) as [|b t] eqn:Ht.
  - destruct (p a) eqn:Ha.
    + exists (String a s). split; [done |]. simpl. constructor; [done |]. simpl in Hs. by rewrite Hs.
    + exists s. split; [done |]. simpl in Hs. by rewrite Hs.
  - exists tail. split; [by rewrite Hs at 1 | done].
Qed.

(** An accepted password has 12 to 1024 bytes and is the text of its source up to line
    ends at the end; a file it comes from is regular, small and nobody else's. *)
Theorem read_password_is_private disk path stdin e password :
  read_password disk path stdin e = Ok password ->
  12 <= String.length password <= 1024
  /\ exists bytes tail, bytes = password +:+ tail
    /\ Forall (λ a, is_line_end a = true) (String.list_ascii_of_string tail) /\ utf8_valid bytes = true
    /\ (path = Some "-" \/ exists mode, e = RegularFile mode bytes /\ shared_mode mode = false
                                        /\ String.length bytes <= 4096).
Proof.
  unfold read_password. destruct (password_bytes _ _ _ _) as [bytes|] eqn:Hb; [| done]. cbv beta iota zeta.
  destruct (_ && _) eqn:Hlen; [| done]. intros [= <-].
  apply andb_prop in Hlen as [H1%Nat.leb_le H2%Nat.leb_le]. split; [done |].
  destruct (trim_end_bytes_split is_line_end bytes) as (tail & Hs & Ht). exists bytes, tail.
  split; [done |]. split; [done |]. unfold password_bytes in Hb. destruct path as [path|]; [| done].
  case_bool_decide as Hp; [subst path |].
  - destruct (_ && _) eqn:Hu; [| done]. injection Hb as Hb. apply andb_prop in Hu as [_ Hu].
    rewrite Hb in Hu. auto.
  - destruct e as [| | |mode content]; try done. destruct (shared_mode mode) eqn:Hm; [done |].
    destruct (Nat.ltb_spec 4096 (String.length content)); [done |].
    destruct (_ && _) eqn:Hu; [| done]. injection Hb as ->. apply andb_prop in Hu as [_ Hu]. eauto 8.
Qed.

(** ** On concrete machines *)

Definition machine_db : DB := set_secrets ∅ demo_db.
Definition machine_config (mode : string) (key : option string) (base_url : option string) : AppConfig :=
  with_st {| cf_base_url := base_url; cf_handle := "default-user"; cf_host_header := None; cf_timeout_ms := 15000;
             cf_generate_hard_timeout_ms := 900000; cf_generate_idle_timeout_ms := 90000; cf_mode := mode;
             cf_connector_hmac_key := key |} sample_config.
Definition machine_random : string := "0123456789abcdef0123456789abcdef".
Definition other_key : string := "ffffffffffffffffffffffffffffffff".
Definition id_source (id : string) : IdSource := {| request_id := "req_1"; new_id := id |}.

Definition start_machine (config : AppConfig) (m : Machine) : Machine * AppResult Services :=
  @bootstrap sample_url_parse (λ k c, k +:+ c) toy_aead demo_sha map_to_list (id_source "sentinel") 18 good_disk None
    machine_random "2026-01-01T00:00:00Z" "nonce" config m.

Definition fresh_machine : Machine := MkMachine Absent false machine_db.
Definition read_only_config : AppConfig := machine_config "read_only" None (Some "https://st.example").

(** A service starts on an empty machine, and again; with another key in the file it
    does not. *)
Example machine_restarts :
  let '(m, r) := start_machine read_only_config fresh_machine in
  is_ok r = true /\ mc_key m = RegularFile 384 machine_random
  /\ start_machine read_only_config m = (m, r)
  /\ (start_machine read_only_config (MkMachine (RegularFile 384 other_key) true (mc_db m))).2 = Err verification_failed.
Proof. vm_compute. split_and!; reflexivity. Qed.

(** [validate] counts the bytes of the connector key before the blanks around it are
    removed, [ConnectorClient::new] after; and it does not ask a write mode for a
    base URL.  Such a configuration is refused only when the master key and the
    database have been created, although
    [docs/configuration-invariants.md] says that an invalid configuration must not
    create them. *)
Example late_refusal_leaves_a_key :
  let padded := machine_config "production_write" (Some ("0123456789abcdef0123456789abcde" +:+ " ")) (Some "https://st.example") in
  let nowhere := machine_config "production_write" (Some machine_random) None in
  (forall config, config ∈ [padded; nowhere] ->
     is_ok (AppConfig_validate sample_url_parse config) = true
     /\ (start_machine config fresh_machine).2 = Err write_not_ready
     /\ mc_key (start_machine config fresh_machine).1 = RegularFile 384 machine_random
     /\ mc_dirs (start_machine config fresh_machine).1 = true).
Proof.
  intros padded nowhere config [->|[->|[]%not_elem_of_nil]%elem_of_cons]%elem_of_cons;
    vm_compute; split_and!; reflexivity.
Qed.

Definition started_machine : Machine := (start_machine read_only_config fresh_machine).1.

Lemma one_master_key_witness :
  exists r, @verify_master_key toy_aead demo_sha map_to_list (id_source "x") "2026-01-02T00:00:00Z" "nonce2"
              (EncryptedSqliteVault_new other_key) (mc_db started_machine) = (mc_db started_machine, r) /\ r <> Ok tt.
Proof.
  destruct (one_master_key (HA := toy_aead) demo_sha map_to_list (λ m, reflexivity _) (mc_db started_machine)
              [machine_random] machine_random (id_source "x") "2026-01-02T00:00:00Z" "nonce2"
              (EncryptedSqliteVault_new other_key)) as (r & Hr & Hkey).
  - eapply (history_start _ _ machine_db [] (id_source "sentinel") "2026-01-01T00:00:00Z" "nonce"
              (EncryptedSqliteVault_new machine_random)); [apply history_install | vm_compute]; reflexivity.
  - by apply list_elem_of_here.
  - exists r. split; [exact Hr |]. intros Hok. apply Hkey in Hok. discriminate Hok.
Defined.

Lemma started_service_witness :
  exists m s, start_machine read_only_config fresh_machine = (m, Ok s)
    /\ config_wf sample_url_parse read_only_config /\ key_file (mc_key m) (v_master_key (sv_vault s)).
Proof.
  assert (Hok : is_ok (start_machine read_only_config fresh_machine).2 = true) by (vm_compute; reflexivity).
  destruct (start_machine read_only_config fresh_machine) as [m [s|error]] eqn:Hstart; [| discriminate Hok].
  exists m, s. split; [reflexivity |].
  destruct (started_service_is_sound sample_url_parse (λ k c, k +:+ c) (H := toy_aead) demo_sha map_to_list
              (id_source "sentinel") 18 good_disk None machine_random "2026-01-01T00:00:00Z" "nonce" read_only_config
              fresh_machine m (Ok s) eq_refl Hstart) as (Hconfig & Hkey & _).
  split; [exact Hconfig | exact Hkey].
Defined.
