(* ===== verification/Pool.v ===== *)
(** * The whole bridge: any number of tasks, crashes included

    A system is the shared database, the backend calls made so far and the
    tasks in flight, of all processes.  One step runs one call of one task,
    starts a task or kills one (a crash loses every task at once, one by one).
    The tasks are the bridge's own programs. *)

From S2P Require Import Prelude Text Errors StDomain Readiness ErrorMapper Operations OperationStore.
From S2P Require Import StoreInvariant StoreCorrect PollerOwnership Journal Vault Program OperationPayload.
From S2P Require Import Coordinator ChannelContext StOps Engine CoordinatorCorrect Recovery EngineCorrect.

Definition forget {A} (p : Prog A) : Prog unit := bind p (λ _, Ret tt).

(** ** The programs of the bridge *)

Section Tasks.
Context `{IdSource} `{Redactor} `{Codecs} `{Aead} {V : SecretVault} {LV : LawfulVault V}.

Inductive bridge_task : Prog unit -> Prop :=
| task_command c : bridge_task (forget (command_program c))
| task_reconcile record lh : bridge_task (forget (reconcile_commit record lh))
| task_recover self guard until bot : bridge_task (forget (recover_for_bot self guard until bot))
| task_recover_generated self guard :
    bridge_task (forget (recover_generated_operations self guard))
| task_reconcile_all : bridge_task (forget reconcile_committing_operations)
| task_key d v id : (0 <= v < 2 ^ 32)%Z -> bridge_task (forget (for_operation d v id))
| task_claim q : bridge_task (forget (claim q))
| task_engine self rd actor command context origin :
    engine_typed self -> reads_typed rd ->
    bridge_task (forget (execute_with_context_and_origin self rd actor command context origin))
| task_store (op : string -> StoreOp) :
    (forall now, op_typed (op now)) ->
    bridge_task (Db (λ now db, exec (op now) db) (λ _ _, Ret tt)).

Lemma generated_loop_disciplined self fence records recovered :
  disciplined None (generated_loop self fence records recovered).
Proof.
  revert recovered. induction records as [|record records IH]; intros recovered;
    cbn [generated_loop]; [constructor |].
  apply disciplined_bind; [apply replay_disciplined |]. intros []; [apply IH | constructor].
Qed.

Lemma committing_loop_disciplined records reconciled :
  disciplined None (committing_loop records reconciled).
Proof.
  revert reconciled. induction records as [|record records IH]; intros reconciled;
    cbn [committing_loop]; [constructor |].
  apply disciplined_bind; [apply reconcile_disciplined |]. intros []; [apply IH | constructor].
Qed.

Lemma forget_disciplined {A} (p : Prog A) : disciplined None p -> disciplined None (forget p).
Proof. intros Hp. apply disciplined_bind; [done | constructor]. Qed.

Lemma bridge_task_disciplined p : bridge_task p -> disciplined None p.
Proof.
  destruct 1 as [c|record lh|self guard until bot|self guard| |d v id Hv|q|self rd actor command context origin Hs Hr|op Ht];
    try apply forget_disciplined.
  - apply command_disciplined.
  - apply reconcile_disciplined.
  - apply recover_for_bot_disciplined.
  - unfold recover_generated_operations. destruct (runtime_fence guard); [| constructor].
    apply disciplined_bind; [apply disciplined_db_read |].
    intros []; [apply generated_loop_disciplined | constructor].
  - apply disciplined_bind; [apply disciplined_db_read |].
    intros []; [apply committing_loop_disciplined | constructor].
  - by apply tame_disciplined, tame_for_operation.
  - apply disciplined_bind; [| constructor].
    by apply (disciplined_op _ (λ now, OpClaim _ now q)).
  - by apply engine_disciplined.
  - constructor; [| constructor]. intros now db Hwf. by apply exec_evolves.
Qed.
End Tasks.

(** ** Systems *)

Record System := {
  sys_db : DB;
  sys_log : list string;
  sys_tasks : list (Prog unit);
}.

(** [spawnable] says which tasks may be started. *)
Inductive sys_step (spawnable : Prog unit -> Prop) : System -> System -> Prop :=
| step_spawn db log tasks p :
    spawnable p ->
    sys_step spawnable {| sys_db := db; sys_log := log; sys_tasks := tasks |}
      {| sys_db := db; sys_log := log; sys_tasks := p :: tasks |}
| step_crash db log l1 p l2 :
    sys_step spawnable {| sys_db := db; sys_log := log; sys_tasks := l1 ++ p :: l2 |}
      {| sys_db := db; sys_log := log; sys_tasks := l1 ++ l2 |}
| step_db db log l1 f k l2 now :
    sys_step spawnable {| sys_db := db; sys_log := log; sys_tasks := l1 ++ Db f k :: l2 |}
      {| sys_db := f now db; sys_log := log; sys_tasks := l1 ++ k now db :: l2 |}
| step_backend db log l1 id c k l2 answer :
    sys_step spawnable
      {| sys_db := db; sys_log := log; sys_tasks := l1 ++ Backend id c k :: l2 |}
      {| sys_db := db; sys_log := id :: log; sys_tasks := l1 ++ k answer :: l2 |}
| step_lookup db log l1 id k l2 answer :
    sys_step spawnable {| sys_db := db; sys_log := log; sys_tasks := l1 ++ Lookup id k :: l2 |}
      {| sys_db := db; sys_log := log; sys_tasks := l1 ++ k answer :: l2 |}
| step_fence db log l1 k l2 answer :
    sys_step spawnable {| sys_db := db; sys_log := log; sys_tasks := l1 ++ Fence k :: l2 |}
      {| sys_db := db; sys_log := log; sys_tasks := l1 ++ k answer :: l2 |}.

(** ** The invariant: tokens *)

(** Operations whose token is in flight, one per task at most. *)
Definition held (tokens : list (option string)) : list string := omap (λ t, t) tokens.

Definition past (db : DB) (id : string) : Prop :=
  exists s c, ledger db !! id = Some (s, c) /\ past_gate s.

Definition sys_inv (s : System) : Prop :=
  db_wf (sys_db s)
  /\ exists tokens, Forall2 disciplined tokens (sys_tasks s)
     /\ NoDup (held tokens ++ sys_log s)
     /\ Forall (past (sys_db s)) (held tokens ++ sys_log s).

Lemma past_evolves db db' id : evolves db db' -> past db id -> past db' id.
Proof.
  intros He (s & c & Hl & Hp). destruct (evolves_slot _ _ _ _ He Hl) as ([s' c'] & Hl' & Hm).
  exists s', c'. split; [done |]. apply op_moves_status, rtc_status_rank in Hm.
  unfold past_gate in *. simpl in Hm. lia.
Qed.

Lemma held_app a b : held (a ++ b) = held a ++ held b.
Proof. apply omap_app. Qed.

Lemma held_cons t ts : held (t :: ts) = held [t] ++ held ts.
Proof. by destruct t. Qed.

(** Replacing one task, whose token becomes [t']. *)
Lemma inv_replace db db' log log' l1 p p' l2 :
  sys_inv {| sys_db := db; sys_log := log; sys_tasks := l1 ++ p :: l2 |} ->
  (forall t, disciplined t p -> db_wf db -> evolves db db' /\ exists t', disciplined t' p'
     /\ forall rest, NoDup (held [t] ++ rest ++ log) -> Forall (past db) (held [t] ++ rest ++ log) ->
        NoDup (held [t'] ++ rest ++ log') /\ Forall (past db') (held [t'] ++ rest ++ log')) ->
  sys_inv {| sys_db := db'; sys_log := log'; sys_tasks := l1 ++ p' :: l2 |}.
Proof.
  intros (Hwf & tokens & Hf & Hnd & Hp) Hstep. simpl in *.
  apply Forall2_app_inv_r in Hf as (t1 & t2' & Hf1 & Hf2 & ->).
  apply Forall2_cons_inv_r in Hf2 as (t & t2 & Ht & Hf2 & ->).
  destruct (Hstep t Ht Hwf) as (He & t' & Hd & Hrest).
  destruct (Hrest (held t1 ++ held t2)) as [Hnd' Hp'].
  - eapply NoDup_Permutation_proper; [| exact Hnd].
    rewrite (held_app t1), (held_cons t). solve_Permutation.
  - eapply Forall_Permutation; [reflexivity | | exact Hp].
    rewrite (held_app t1), (held_cons t). solve_Permutation.
  - split; [apply He |]. exists (t1 ++ t' :: t2). simpl. split_and!.
    + apply Forall2_app; [done | by constructor].
    + eapply NoDup_Permutation_proper; [| exact Hnd'].
      rewrite (held_app t1), (held_cons t'). solve_Permutation.
    + eapply Forall_Permutation; [reflexivity | | exact Hp'].
      rewrite (held_app t1), (held_cons t'). solve_Permutation.
Qed.

Lemma inv_spawn db log tasks p :
  disciplined None p ->
  sys_inv {| sys_db := db; sys_log := log; sys_tasks := tasks |} ->
  sys_inv {| sys_db := db; sys_log := log; sys_tasks := p :: tasks |}.
Proof.
  intros Hd (Hwf & tokens & Hf & Hnd & Hp). split; [done |]. exists (None :: tokens).
  split_and!; [by constructor | done | done].
Qed.

Lemma inv_crash db log l1 p l2 :
  sys_inv {| sys_db := db; sys_log := log; sys_tasks := l1 ++ p :: l2 |} ->
  sys_inv {| sys_db := db; sys_log := log; sys_tasks := l1 ++ l2 |}.
Proof.
  intros (Hwf & tokens & Hf & Hnd & Hp). simpl in *. split; [done |].
  apply Forall2_app_inv_r in Hf as (t1 & t2' & Hf1 & Hf2 & ->).
  apply Forall2_cons_inv_r in Hf2 as (t & t2 & Ht & Hf2 & ->).
  assert (held (t1 ++ t :: t2) ++ log ≡ₚ held [t] ++ held (t1 ++ t2) ++ log) as Hperm.
  { rewrite !held_app, (held_cons t). solve_Permutation. }
  rewrite Hperm in Hnd, Hp. exists (t1 ++ t2). split_and!.
  - by apply Forall2_app.
  - by apply NoDup_app in Hnd as (_ & _ & Hnd).
  - by apply Forall_app in Hp as [_ Hp].
Qed.

Lemma gate_inv now id db db' r :
  mark_committing now id db = (db', r) -> is_ok r = true ->
  ~ past db id /\ past db' id.
Proof.
  intros Hm Hok. destruct r as [rec|]; [| done].
  destruct (mark_committing_inv _ _ _ _ _ Hm) as (Hl & Hl' & _). split.
  - intros (s & c & Hs & Hp). rewrite Hl in Hs. injection Hs as <- <-.
    unfold past_gate in Hp. simpl in Hp. lia.
  - exists Committing, OcNotStarted. split; [done |]. unfold past_gate. simpl. lia.
Qed.

Lemma inv_db db log l1 f k l2 now :
  sys_inv {| sys_db := db; sys_log := log; sys_tasks := l1 ++ Db f k :: l2 |} ->
  sys_inv {| sys_db := f now db; sys_log := log; sys_tasks := l1 ++ k now db :: l2 |}.
Proof.
  intros Hinv. eapply inv_replace; [exact Hinv |]. intros t Hd Hwf.
  inversion Hd as [|t0 f0 k0 Hf Hk| id k0 Hk| | |]; subst.
  - specialize (Hf now db Hwf). split; [done |]. exists t. split; [by apply Hk |].
    intros rest Hnd Hp. split; [done |]. eapply Forall_impl; [exact Hp |].
    intros id. by apply past_evolves.
  - pose proof (mark_committing_evolves now id db Hwf) as He. split; [done |].
    specialize (Hk now db Hwf). destruct (mark_committing now id db) as [db' r] eqn:Hm.
    simpl in *. destruct (is_ok r) eqn:Hok.
    + exists (Some id). split; [done |]. intros rest Hnd Hp.
      destruct (gate_inv _ _ _ _ _ Hm Hok) as [Hn Hy]. simpl in *. split.
      * constructor; [| done]. intros Hin. apply Hn. by eapply (Forall_forall _ _) in Hp.
      * constructor; [done |]. eapply Forall_impl; [exact Hp |].
        intros id'. by apply past_evolves.
    + exists None. split; [done |]. intros rest Hnd Hp. split; [done |].
      eapply Forall_impl; [exact Hp |]. intros id'. by apply past_evolves.
Qed.

Lemma inv_backend db log l1 id c k l2 answer :
  sys_inv {| sys_db := db; sys_log := log; sys_tasks := l1 ++ Backend id c k :: l2 |} ->
  sys_inv {| sys_db := db; sys_log := id :: log; sys_tasks := l1 ++ k answer :: l2 |}.
Proof.
  intros Hinv. eapply inv_replace; [exact Hinv |]. intros t Hd Hwf.
  inversion Hd as [| | |id0 c0 k0 Hk| |]; subst. split; [by apply evolves_refl |].
  exists None. split; [apply Hk |]. intros rest Hnd Hp. simpl in *.
  assert (id :: rest ++ log ≡ₚ rest ++ id :: log) as Hperm by solve_Permutation.
  by rewrite <- Hperm.
Qed.

Lemma inv_answer db log l1 p p' l2 :
  sys_inv {| sys_db := db; sys_log := log; sys_tasks := l1 ++ p :: l2 |} ->
  (forall t, disciplined t p -> disciplined t p') ->
  sys_inv {| sys_db := db; sys_log := log; sys_tasks := l1 ++ p' :: l2 |}.
Proof.
  intros Hinv Hp'. eapply inv_replace; [exact Hinv |]. intros t Hd Hwf.
  split; [by apply evolves_refl |]. exists t. split; [by apply Hp' |]. done.
Qed.

Lemma sys_step_inv (spawnable : Prog unit -> Prop) s s' :
  (forall p, spawnable p -> disciplined None p) ->
  sys_step spawnable s s' -> sys_inv s -> sys_inv s'.
Proof.
  intros Hsp Hstep. destruct Hstep; intros Hinv.
  - apply inv_spawn; auto.
  - by eapply inv_crash.
  - by apply inv_db.
  - by eapply inv_backend.
  - eapply inv_answer; [exact Hinv |]. intros t Hd. inversion Hd; subst; auto.
  - eapply inv_answer; [exact Hinv |]. intros t Hd. inversion Hd; subst; auto.
Qed.

Lemma sys_steps_inv (spawnable : Prog unit -> Prop) s s' :
  (forall p, spawnable p -> disciplined None p) ->
  rtc (sys_step spawnable) s s' -> sys_inv s -> sys_inv s'.
Proof. intros Hsp. induction 1; eauto using sys_step_inv. Qed.

(** C1: at most one backend call per operation, ever.  Take any number of bridge
    tasks (engine commands, commits, creates, replays, reconciliations, recovery loops of any
    runtimes, key creations, claims and every other store call), started at any
    time, interleaved call by call in any order, killed at any point, with the
    backend, the journal and the fence answering anything.  In every reachable
    state of the system the database satisfies the ledger invariant, no
    operation has been sent to the backend twice, and every operation that was
    sent is recorded as committing or later. *)
Theorem backend_called_at_most_once (ids : IdSource) (red : Redactor) (cod : Codecs)
    (A : Aead) (V : SecretVault) (LV : LawfulVault V) db s :
  db_wf db ->
  rtc (sys_step bridge_task) {| sys_db := db; sys_log := []; sys_tasks := [] |} s ->
  db_wf (sys_db s) /\ NoDup (sys_log s) /\ Forall (past (sys_db s)) (sys_log s).
Proof.
  intros Hwf Hsteps.
  assert (sys_inv s) as (Hwf' & tokens & _ & Hnd & Hp).
  { eapply sys_steps_inv; [apply bridge_task_disciplined | exact Hsteps |].
    split; [done |]. exists []. split_and!; constructor. }
  split; [done |]. apply NoDup_app in Hnd as (_ & _ & Hnd).
  apply Forall_app in Hp as [_ Hp]. done.
Qed.

(** A run in which a commit of [op-1] reaches the backend. *)
Definition demo_task : Prog unit :=
  forget (@command_program demo_ids demo_redactor demo_codecs toy_aead demo_impl demo_command).

Definition demo_system : System :=
  {| sys_db := fst (mark_committing "t" "op-1" (move_db (Generated, OcNotStarted)));
     sys_log := ["op-1"];
     sys_tasks := [bind (@settle_result demo_ids demo_redactor demo_codecs commit_texts "op-1"
                           (@record_unrecorded demo_ids "op-1") demo_applied) (λ _, Ret tt)] |}.

Lemma demo_system_reached :
  rtc (sys_step (@bridge_task demo_ids demo_redactor demo_codecs toy_aead demo_impl))
    {| sys_db := move_db (Generated, OcNotStarted); sys_log := []; sys_tasks := [] |} demo_system.
Proof.
  eapply rtc_l; [apply (step_spawn _ _ _ _ demo_task); constructor |].
  eapply rtc_l; [apply (step_db _ _ _ [] _ _ [] "t") |].
  eapply rtc_l; [| reflexivity].
  destruct (snd (mark_committing "t" "op-1" (move_db (Generated, OcNotStarted)))) as [rec|e] eqn:Hm;
    [| vm_compute in Hm; discriminate Hm].
  exact (step_backend _ _ _ [] "op-1" _ _ [] demo_applied).
Qed.

Lemma backend_called_at_most_once_witness :
  NoDup (sys_log demo_system) /\ Forall (past (sys_db demo_system)) (sys_log demo_system).
Proof.
  exact (proj2 (backend_called_at_most_once demo_ids demo_redactor demo_codecs toy_aead demo_impl _
    _ demo_system (move_db_wf _) demo_system_reached)).
Defined.
